(* ===== verification/_CoqProject ===== *)
-Q . S2P
Prelude.v
Format.v
Ids.v
Crypt.v
Codec.v
Fields.v
State.v
Page.v
Block.v
Header.v
AMap.v
Rtf.v
Database.v
BTree.v
Node.v
Transaction.v
NodeWrite.v
Recovery.v
Heap.v
BTH.v
Text.v
PropType.v
PropBag.v
Table.v
NamedProp.v
V2Base.v
V2Disk.v
V2Entries.v
V2Pages.v
V2Blocks.v
V2Header.v
V2Bitmap.v
V2Store.v
V2Journal.v
V2Alloc.v
V2Image.v
V2Ndb.v
V2Txn.v
V2Catalog.v
V2Extents.v
V2Data.v
V2DataTree.v
V2Subnode.v
V2SubTree.v
V2Tree.v
V2PageTree.v
V2TreeBuild.v
V2Encode.v
V2TreeImage.v
V2Heap.v
V2HeapPage.v
V2HeapBuild.v
V2HeapTree.v
V2BTH.v
V2BTHTree.v
V2PC.v
V2PCTree.v
