(* ===== verification/Prelude.v ===== *)
(** * A verification library for outlook-pst-go

    The repository reads and writes Outlook PST files.  This development
    translates the lower layers of the program (bytes, pages, blocks, header,
    allocation map, B-trees, nodes, transactions, recovery, the RTF
    decompressor) and the layer of heaps, properties and tables above them from
    the Go sources and proves what makes them correct, or
    the exact condition under which they are.

    ** The program

    - [pkg/util], [pkg/disk]: the on-disk structures.  Pages of 512 bytes and
      blocks of at most 8 KiB with trailers (type, signature, CRC), a header at
      offset 0, an allocation map with one bit per 64-byte slot.
    - [pkg/ndb]: the node database.  Two B-trees of pages, from node IDs to node
      entries and from block IDs to block locations; nodes whose data is a tree
      of blocks; transactions that queue blocks and entries and commit them in
      two phases (header [Invalid]; blocks, tree pages; header [Valid2]);
      recovery.
    - [pkg/rtf]: LZFu decompression of message bodies.
    - [pkg/ltp]: inside a node, a heap of allocations; on the heap, B-trees of
      fixed-size entries; on these, property contexts (typed values by property
      ID), table contexts (rows of cells) and the map of named properties.
    - The messaging layer in the root package, and [writer/v2] (a second writer),
      are above these.

    ** The files

    - [Prelude]: outcomes of a Go call ([result]: value, error, panic), machine
      words, bounds-checked buffer access, little-endian fields, their tactics
      and the hint databases.  [State]: the state-and-error monad [ST] of the
      stateful layers and the relation [moves] that frames a call.  [Fields],
      [Codec]: writing a list of fields; the class of fixed-size entry codecs.
    - [Format], [Ids]: [pkg/disk/constants.go], [pkg/util], the ID counters of
      [writer/v2].
    - [Crypt]: [pkg/disk/crypt.go].  Ciphers, CRC, signature.
    - [Page], [Block], [Header]: [page(_write).go], [block(_write).go],
      [header(_write).go].  Parsers, builders, validators.
    - [AMap]: [amap.go].  The allocation map manager.
    - [Rtf]: [pkg/rtf/decompress.go].
    - [Database]: [database.go].  The state of an open file ([Database]: contents,
      header, caches, lazily loaded roots, counters), lookups, block I/O.
    - [BTree]: [btree_write.go].  Queues of changes and the rebuilding of trees.
    - [Node], [NodeWrite]: [node.go], [node_write.go].
    - [Transaction]: [transaction.go].
    - [Recovery]: [recovery.go].
    - [Heap]: [heap(_write).go].  [BTH]: [bth(_write).go]; the class [HeapReader]
      is what a tree needs of the heap below it, so that trees, bags and tables
      are about every heap that gives back the allocations.  [Text]: Go strings,
      UTF-8, UTF-16.  [PropType]: [property.go].  [PropBag]:
      [propbag(_write).go].  [Table]: [table(_write).go].  [NamedProp]:
      [namedprop.go].
    - [V2Base]: [writer/v2/geometry.go], [codec.go]: slots, maps, the layout of
      regions.  [V2Disk]: pages and blocks.  [V2Entries], [V2Pages], [V2Blocks],
      [V2Header]: tree entries, tree pages, data and subnode trees' blocks, the
      header, each with the encoder and the inspector of the second writer.
    - [V2Bitmap], [V2Store]: the allocation bitmaps and the store of
      [writer/v2/store.go], with its work spool and undo journal.  [V2Journal]:
      every operation of the store keeps what restoring the journal needs.
      [V2Alloc]: the view of the bitmaps as one set of slots, the invariant of
      the store, allocation and freeing.  [V2Image]: the pages of the map, the
      two-phase write of [tx.go] as a trace of writes to the destination, the
      loader.
    - [V2Ndb]: [writer/v2/ndb.go] and the transactions of [tx.go]: the catalog
      ([NDB]: the store, nodes, blocks, reference counts, counters) and its
      operations.  [V2Txn]: what they leave alone, and rollback.  [V2Catalog]: the
      invariant of the reference counts.  [V2Extents]: payloads of blocks in the
      store.  [V2Data], [V2DataTree]: data trees of [xblock.go].  [V2Subnode],
      [V2SubTree]: subnode trees of [subnode.go].  [V2Tree]: the rest of [ndb.go]
      and [tx.go]: the trees of pages encoded, walked, checked and reopened, the
      commit.  [V2PageTree]: what a tree of pages is and what reading it gives.
      [V2TreeBuild]: what the encoder makes.  [V2Encode]: the encoder over the
      store.  [V2TreeImage]: the image against the catalog.
    - [V2Heap]: [writer/v2/heap(_read).go], the heap that is built, committed and
      read.  [V2HeapPage]: its pages read as written.  [V2HeapBuild]: allocation.
      [V2HeapTree]: committing and opening.  [V2BTH], [V2BTHTree]: [bth.go], trees
      on that heap.  [V2PC], [V2PCTree]: [pc.go], property contexts on those.

    ** What is shown

    - Round trips: pages, blocks, header fields, entries, GUIDs, ciphers and the
      RTF literal stream are read back as written, for the formats where the
      code does so; where it does not, the theorem states exactly what is read
      ([unicode_btpage_reads_empty], [unicode_header_reread],
      [cyclic_roundtrip_iff], [MakeHeapID_roundtrip_iff]).
    - Equivalence with a reference: the tree searches against a linear search of
      the in-order leaves, the collectors against that list, LZFu against a
      sliding window over the output, CRC against the bitwise polynomial, caches
      against uncached lookups, the trees on a heap against the sorted list of
      their entries ([bth_reads_tree]), named properties against the list of the
      entry stream.
    - The encoders of [writer/v2] are injective and its inspectors accept exactly
      the images of the encoders ([header_exact], [btpage_exact], [xblock_exact],
      [block_inspect_exact], [subnode_block_exact], [page_inspect_exact]), and the reader of [pkg/ndb]
      and [pkg/disk] reads them alike, except for the last block of a full file
      ([reader_reads_v2_block]).
    - Writers and readers of [pkg/ltp] composed: what a setter of a property bag
      stored, the getter returns ([typed_roundtrip]), over every heap that gives
      back the allocations.  The page that [HeapWriter.Build] writes is not such
      a heap ([heap_never_reads_back], [writer_ids_one_too_far]), and no built
      table can be opened ([table_never_opens]): the theorems say why.
    - Refinement: the insert and delete queues of the B-tree writer implement one
      map of pending changes; the entries of a tree writer on a heap implement a
      finite map ([bth_writer_refines]).
    - Invariants: the allocation map (bitmap, free count, disjoint live areas),
      the transaction while it queues ([txn_wf]).
    - Safety: a commit writes only to the header and to areas the map handed out;
      a crash between the two header writes leaves the old trees.  A commit of
      the store of [writer/v2] may stop after any number of its writes: the
      destination is untouched, refused, or complete ([store_commit_crash_safe]).
    - The store of [writer/v2] is a set of slots: allocation takes the lowest
      run that fits and grows the file only when none does ([store_allocates]),
      freeing undoes it ([store_free_allocate]), and an encoded store loads as
      itself ([store_image_roundtrip]).
    - The catalog of [writer/v2]: every operation keeps the reference counts equal
      to the references there are ([catalog_counts]); a transaction that fails
      leaves the catalog and every byte of the store as they were
      ([txn_atomic]), unless it contains another one ([nested_txn_keeps_bytes]
      says what then happens); collecting orphans leaves exactly what nodes own
      ([reclaim_leaves_owned]).
    - The trees of blocks of [writer/v2]: whatever [PutDataTree] stores, the
      reader and the iterator give back and the validator accepts
      ([data_tree_roundtrip]); whatever [PutSubnodeTree] stores is walked in order
      ([subnode_tree_roundtrip]).
    - The trees of pages of [writer/v2]: the image [Encode] makes shows exactly
      the catalog to every search, walk and check ([encode_shows_catalog]).
    - The layers above them in [writer/v2]: a heap keeps every value it was given
      ([heap_allocates]), and committed to a new node and opened again it gives
      them all back, whether on a page, in a subnode, or in a tree stored before
      ([heap_roundtrip]); a tree on a heap is its list of entries
      ([v2_bth_roundtrip]); a property context is a map ([pc_is_map]), and
      committed, opened and loaded it is the same map ([pc_roundtrip]).
    - Errors, bounds, termination: which inputs are refused or panic, that the
      decompressor and [ReadHeader] are total.
    - Divergences between what the code means and what it does are theorems too:
      they characterise the inputs on which it happens.

    ** Conventions

    Integers are [Z]; a Go conversion or wrapping operation is a visible [u8],
    [u16], [u32] or [u64].  A byte is a [Z] in 0..255 ([is_byte]).  A Go slice
    is a list; out-of-range indexing or slicing is the outcome [Panic].  Errors
    keep the format string and the integer arguments.

    Recursion of the source over pages, blocks and nodes takes its depth of call
    as a [nat]; running out of it is [Panic] (Go overflows its stack).  Theorems
    assume a depth of at least the height of the tree in the file and are not
    about shallower stacks; [search_cycle_diverges] shows that on cyclic pages
    no depth is enough.  Loops over input take the input length as fuel and are
    proved never to run out ([Decompress_total], [reader_drains]).  A range loop
    over a Go map takes the order in which it sees the keys; theorems hold for
    every order.

    A file is its contents ([bytes]); reads and writes of an open file succeed as
    the operating system documents it (a read is cut at the end of the file, a
    write beyond it extends it).

    ** Not modelled

    Mutexes and [sync.RWMutex] (every call is taken to run alone), [Sync] (no
    effect on contents), error texts beyond the format string, [String] methods.
    The messaging layer of the root package, and of [writer/v2] table contexts,
    folders, messages, attachments and the exporter, are not modelled, nor are commits to a named file
    (temporary names, renames, the adoption of the new handle); [cmd/pstinfo] and
    [writer/v2/interop] only do input and output. *)
From stdpp Require Export base tactics list numbers strings gmap sorting.
From Stdlib Require Export Lia.

Declare Scope pst_scope.
Delimit Scope pst_scope with pst.
Global Open Scope Z_scope.

(** ** Outcomes of a Go call

    [Ok v]: the call returned [v] and a nil error.  [Err e]: it returned the
    error [e].  [Panic]: it indexed or sliced out of range.  Errors keep the
    format string of the source and its integer arguments; [EWrap] is the
    [%w] verb and keeps only the text in front of it. *)
Inductive error :=
| EFmt (fmt : string) (args : list Z)
| EWrap (fmt : string) (e : error).

Inductive result (A : Type) :=
| Ok (a : A)
| Err (e : error)
| Panic.
Arguments Ok {A} a.
Arguments Err {A} e.
Arguments Panic {A}.

#[export] Instance result_ret : MRet result := λ A a, Ok a.
#[export] Instance result_bind : MBind result := λ A B f m,
  match m with Ok a => f a | Err e => Err e | Panic => Panic end.
#[export] Instance result_fmap : FMap result := λ A B f m,
  match m with Ok a => Ok (f a) | Err e => Err e | Panic => Panic end.

(** [if err != nil { return fmt.Errorf(ctx + ": %w", err) }] *)
Definition wrap_err {A} (ctx : string) (m : result A) : result A :=
  match m with Err e => Err (EWrap ctx e) | _ => m end.

Lemma bind_Ok {A B} (a : A) (f : A → result B) : (Ok a ≫= f) = f a.
Proof. done. Qed.
Lemma bind_Err {A B} e (f : A → result B) : (Err e ≫= f) = Err e.
Proof. done. Qed.
Lemma bind_Panic {A B} (f : A → result B) : (Panic ≫= f) = Panic.
Proof. done. Qed.
Lemma mret_Ok {A} (a : A) : (mret a : result A) = Ok a.
Proof. done. Qed.

Lemma bind_Ok_inv {A B} (m : result A) (f : A → result B) b :
  (m ≫= f) = Ok b → ∃ a, m = Ok a ∧ f a = Ok b.
Proof. destruct m; cbn; naive_solver. Qed.

(** ** Fixed-width unsigned integers *)
Definition u8 (z : Z) : Z := z mod 256.
Definition u16 (z : Z) : Z := z mod 65536.
Definition u32 (z : Z) : Z := z mod 4294967296.
Definition u64 (z : Z) : Z := z mod 18446744073709551616.

(** Conversion to the signed types: two's complement. *)
Definition i16 (z : Z) : Z := (z + 2 ^ 15) mod 2 ^ 16 - 2 ^ 15.
Definition i32 (z : Z) : Z := (z + 2 ^ 31) mod 2 ^ 32 - 2 ^ 31.
Definition i64 (z : Z) : Z := (z + 2 ^ 63) mod 2 ^ 64 - 2 ^ 63.

(** [z] fits in [w] bits. *)
Definition fits (w z : Z) : Prop := 0 ≤ z < 2 ^ w.
#[export] Instance fits_dec w z : Decision (fits w z).
Proof. unfold fits. apply _. Defined.

Lemma u8_range z : 0 ≤ u8 z < 256.
Proof. unfold u8. apply Z.mod_pos_bound. lia. Qed.
Lemma u16_range z : 0 ≤ u16 z < 65536.
Proof. unfold u16. apply Z.mod_pos_bound. lia. Qed.
Lemma u32_range z : 0 ≤ u32 z < 4294967296.
Proof. unfold u32. apply Z.mod_pos_bound. lia. Qed.
Lemma u64_range z : 0 ≤ u64 z < 18446744073709551616.
Proof. unfold u64. apply Z.mod_pos_bound. lia. Qed.

Lemma u8_small z : 0 ≤ z < 256 → u8 z = z.
Proof. apply Z.mod_small. Qed.
Lemma u16_small z : 0 ≤ z < 65536 → u16 z = z.
Proof. apply Z.mod_small. Qed.
Lemma u32_small z : 0 ≤ z < 4294967296 → u32 z = z.
Proof. apply Z.mod_small. Qed.
Lemma u64_small z : 0 ≤ z < 18446744073709551616 → u64 z = z.
Proof. apply Z.mod_small. Qed.

Create HintDb pst.
Create HintDb pst_consts.
#[export] Hint Resolve u8_range u16_range u32_range u64_range : pst.

(** ** Bitwise operations stay in range *)
Lemma fits_lxor w a b : 0 ≤ w → fits w a → fits w b → fits w (Z.lxor a b).
Proof.
  intros Hw [Ha1 Ha2] [Hb1 Hb2]. split; [apply Z.lxor_nonneg; lia|].
  destruct (decide (Z.lxor a b = 0)) as [->|Hne]; [lia|].
  assert (0 ≤ Z.lxor a b) by (apply Z.lxor_nonneg; lia).
  apply Z.log2_lt_pow2; [lia|].
  eapply Z.le_lt_trans; [by apply Z.log2_lxor|].
  destruct (decide (w = 0)) as [->|]; [cbn in *; assert (a = 0) by lia; assert (b = 0) by lia; subst; done|].
  apply Z.max_lub_lt.
  - destruct (decide (a = 0)) as [->|]; [cbn; lia|apply Z.log2_lt_pow2; lia].
  - destruct (decide (b = 0)) as [->|]; [cbn; lia|apply Z.log2_lt_pow2; lia].
Qed.

Lemma fits_shiftr w a n : 0 ≤ n → fits w a → fits w (Z.shiftr a n).
Proof.
  intros Hn [Ha1 Ha2]. split; [by apply Z.shiftr_nonneg|].
  rewrite Z.shiftr_div_pow2 by done.
  eapply Z.le_lt_trans; [|exact Ha2]. apply Z.div_le_upper_bound; [lia|]. nia.
Qed.

(** ** Bytes and buffers *)
Definition is_byte (b : Z) : Prop := 0 ≤ b < 256.
#[export] Instance is_byte_dec b : Decision (is_byte b).
Proof. unfold is_byte. apply _. Defined.
Abbreviation bytes := (list Z) (only parsing).
Abbreviation bytes_ok := (Forall is_byte).

Lemma is_byte_u8 z : is_byte (u8 z).
Proof. apply u8_range. Qed.
#[export] Hint Resolve is_byte_u8 : pst.

(** Go's [len]. *)
Definition blen {A} (l : list A) : Z := Z.of_nat (length l).

Definition zeros (n : Z) : bytes := replicate (Z.to_nat n) 0.

(** [l[a : a+n]] without the range check. *)
Definition sub {A} (l : list A) (a n : Z) : list A := take (Z.to_nat n) (drop (Z.to_nat a) l).

(** [l[a:b]]: panics unless [0 <= a <= b <= cap(l)].  The list is everything up
    to the capacity of the slice. *)
Definition slice {A} (l : list A) (a b : Z) : result (list A) :=
  if bool_decide (0 ≤ a) && bool_decide (a ≤ b) && bool_decide (b ≤ blen l)
  then Ok (sub l a (b - a)) else Panic.

(** [l[i]] *)
Definition index {A} (l : list A) (i : Z) : result A :=
  if bool_decide (0 ≤ i)
  then match l !! Z.to_nat i with Some x => Ok x | None => Panic end
  else Panic.

(** Little-endian codec of [encoding/binary]. *)
Fixpoint le_enc (n : nat) (v : Z) : bytes :=
  match n with O => [] | S n => v mod 256 :: le_enc n (v / 256) end.
Fixpoint le_dec (l : bytes) : Z :=
  match l with [] => 0 | b :: r => b + 256 * le_dec r end.

(** [binary.LittleEndian.UintN(l[off:off+n])] *)
Definition rd (n : nat) (off : Z) (l : bytes) : result Z :=
  le_dec <$> slice l off (off + Z.of_nat n).

(** [copy(l[off:], bs)]: overwrite the window of [l] that starts at [off]; the
    length of [l] never changes. *)
Definition splice {A} (off : Z) (bs l : list A) : list A :=
  take (Z.to_nat off) l ++ take (length l - Z.to_nat off) bs ++ drop (Z.to_nat off + length bs) l.

(** The same write through a slice expression, which panics out of range. *)
Definition put_bytes {A} (off : Z) (bs l : list A) : result (list A) :=
  if bool_decide (0 ≤ off) && bool_decide (off + blen bs ≤ blen l)
  then Ok (splice off bs l) else Panic.

(** [binary.LittleEndian.PutUintN(l[off:off+n], v)] *)
Definition put (n : nat) (off v : Z) (l : bytes) : result bytes := put_bytes off (le_enc n v) l.
(** [l[off] = v] *)
Definition put8 (off v : Z) (l : bytes) : result bytes := put_bytes off [v] l.

(** ** Lengths *)
Lemma blen_nonneg {A} (l : list A) : 0 ≤ blen l.
Proof. unfold blen. lia. Qed.
Lemma blen_app {A} (l k : list A) : blen (l ++ k) = blen l + blen k.
Proof. unfold blen. rewrite length_app. lia. Qed.
Lemma blen_nil {A} : blen (@nil A) = 0.
Proof. done. Qed.
Lemma blen_cons {A} (x : A) l : blen (x :: l) = 1 + blen l.
Proof. unfold blen. cbn [length]. lia. Qed.
Lemma blen_zeros n : blen (zeros n) = Z.max 0 n.
Proof. intros. unfold blen, zeros. rewrite length_replicate. lia. Qed.
Lemma length_le_enc n v : length (le_enc n v) = n.
Proof. revert v; induction n; intros; cbn; auto. Qed.
Lemma blen_le_enc n v : blen (le_enc n v) = Z.of_nat n.
Proof. unfold blen. by rewrite length_le_enc. Qed.
Lemma blen_sub {A} (l : list A) a n : 0 ≤ a → 0 ≤ n → a + n ≤ blen l → blen (sub l a n) = n.
Proof. unfold blen, sub. intros. rewrite length_take, length_drop. lia. Qed.
Lemma blen_splice {A} off (bs l : list A) : blen (splice off bs l) = blen l.
Proof.
  unfold blen, splice. rewrite !length_app, !length_take, length_drop. lia.
Qed.
Lemma blen_map {A B} (f : A → B) l : blen (map f l) = blen l.
Proof. unfold blen. by rewrite length_map. Qed.
Lemma blen_fmap {A B} (f : A → B) l : blen (f <$> l) = blen l.
Proof. unfold blen. by rewrite length_fmap. Qed.
Create Rewrite HintDb blen.
#[export] Hint Rewrite @blen_app @blen_nil @blen_cons @blen_le_enc @blen_zeros @blen_splice @blen_map @blen_fmap : blen.
#[export] Hint Resolve blen_nonneg : pst.

(** A string literal. *)
Fixpoint string_bytes (s : string) : bytes :=
  match s with
  | EmptyString => []
  | String c s => Z.of_N (Ascii.N_of_ascii c) :: string_bytes s
  end.

(** ** The little-endian codec *)
Lemma bytes_ok_le_enc n v : bytes_ok (le_enc n v).
Proof.
  revert v; induction n; intros; cbn; constructor; auto.
  apply Z.mod_pos_bound; lia.
Qed.
Lemma bytes_ok_zeros n : bytes_ok (zeros n).
Proof. unfold zeros. apply Forall_replicate. unfold is_byte. lia. Qed.
Lemma le_dec_enc n v : le_dec (le_enc n v) = v mod 256 ^ Z.of_nat n.
Proof.
  revert v; induction n as [|n IH]; intros v; cbn [le_enc le_dec].
  { by rewrite Z.mod_1_r. }
  rewrite IH, Nat2Z.inj_succ, Z.pow_succ_r by lia.
  rewrite Z.rem_mul_r by (try apply Z.pow_pos_nonneg; lia). lia.
Qed.
Lemma le_dec_bound l : bytes_ok l → 0 ≤ le_dec l < 256 ^ blen l.
Proof.
  induction 1 as [|b l Hb Hl IH]; cbn [le_dec]; [done|].
  unfold is_byte in Hb. rewrite blen_cons, Z.pow_add_r by (pose proof (blen_nonneg l); lia).
  change (256 ^ 1) with 256. nia.
Qed.
Lemma le_enc_dec l : bytes_ok l → le_enc (length l) (le_dec l) = l.
Proof.
  induction 1 as [|b l Hb Hl IH]; cbn [le_dec length le_enc]; [done|].
  unfold is_byte in Hb.
  replace (b + 256 * le_dec l) with (b + le_dec l * 256) by lia.
  rewrite Z_mod_plus_full, Z.mod_small, Z.div_add, Z.div_small, Z.add_0_l by lia. by rewrite IH.
Qed.
Lemma le_dec_1 b : le_dec [b] = b.
Proof. cbn [le_dec]. lia. Qed.
Lemma le_dec_zeros n : le_dec (zeros n) = 0.
Proof.
  unfold zeros. induction (Z.to_nat n) as [|k IH]; [done|].
  change (0 + 256 * le_dec (replicate k 0) = 0). rewrite IH. done.
Qed.
Lemma le_dec_replicate n : le_dec (replicate n 0) = 0.
Proof. pose proof (le_dec_zeros (Z.of_nat n)) as H. unfold zeros in H. by rewrite Nat2Z.id in H. Qed.

(** ** Windows of a buffer *)
Lemma slice_Ok {A} (l : list A) a b :
  0 ≤ a → a ≤ b → b ≤ blen l → slice l a b = Ok (sub l a (b - a)).
Proof. intros. unfold slice. by rewrite !bool_decide_true by done. Qed.
Lemma slice_Panic {A} (l : list A) a b :
  a < 0 ∨ b < a ∨ blen l < b → slice l a b = Panic.
Proof. intros. unfold slice. repeat case_bool_decide; done || lia. Qed.
Lemma rd_Ok n off l :
  0 ≤ off → off + Z.of_nat n ≤ blen l → rd n off l = Ok (le_dec (sub l off (Z.of_nat n))).
Proof. intros. unfold rd. rewrite slice_Ok by lia. cbn. do 3 f_equal. lia. Qed.
Lemma rd_Panic n off l : 0 ≤ off → blen l < off + Z.of_nat n → rd n off l = Panic.
Proof. intros. unfold rd. rewrite slice_Panic by lia. done. Qed.
Lemma put_bytes_Ok {A} off (bs l : list A) :
  0 ≤ off → off + blen bs ≤ blen l → put_bytes off bs l = Ok (splice off bs l).
Proof. intros. unfold put_bytes. by rewrite !bool_decide_true by done. Qed.
Lemma put_Ok n off v l :
  0 ≤ off → off + Z.of_nat n ≤ blen l → put n off v l = Ok (splice off (le_enc n v) l).
Proof. intros. apply put_bytes_Ok; rewrite ?blen_le_enc; lia. Qed.
Lemma put8_Ok off v l : 0 ≤ off → off + 1 ≤ blen l → put8 off v l = Ok (splice off [v] l).
Proof. intros. apply put_bytes_Ok; rewrite ?blen_cons, ?blen_nil; lia. Qed.
Lemma index_Ok {A} (l : list A) i x :
  0 ≤ i → l !! Z.to_nat i = Some x → index l i = Ok x.
Proof. intros ? H. unfold index. rewrite bool_decide_true by done. by rewrite H. Qed.
Lemma index_total (l : bytes) i : 0 ≤ i < blen l → index l i = Ok (le_dec (sub l i 1)).
Proof.
  intros [? Hlt]. unfold blen in Hlt.
  destruct (lookup_lt_is_Some_2 l (Z.to_nat i)) as [x Hx]; [lia|].
  rewrite (index_Ok _ _ x) by done. f_equal. unfold sub.
  rewrite (drop_S _ _ _ Hx). change (Z.to_nat 1) with 1%nat. cbn [firstn le_dec]. rewrite firstn_O. cbn [le_dec]. lia.
Qed.

Lemma sub_0_all {A} (l : list A) n : n = blen l → sub l 0 n = l.
Proof. intros ->. unfold sub, blen. rewrite drop_0. apply take_ge. lia. Qed.
Lemma sub_sub {A} (l : list A) a n b m :
  0 ≤ a → 0 ≤ b → 0 ≤ m → b + m ≤ n → sub (sub l a n) b m = sub l (a + b) m.
Proof.
  intros. unfold sub. rewrite skipn_firstn_comm, take_take, drop_drop.
  f_equal; [lia|]. f_equal. lia.
Qed.
Lemma sub_app_l {A} (l k : list A) a n :
  0 ≤ a → 0 ≤ n → a + n ≤ blen l → sub (l ++ k) a n = sub l a n.
Proof.
  unfold blen, sub. intros. rewrite drop_app_le by lia. rewrite take_app_le; [done|].
  rewrite length_drop. lia.
Qed.
Lemma sub_app_r {A} (l k : list A) a n :
  0 ≤ n → blen l ≤ a → sub (l ++ k) a n = sub k (a - blen l) n.
Proof. unfold blen, sub. intros. rewrite drop_app_ge by lia. do 2 f_equal. lia. Qed.
Lemma sub_zeros k a n : 0 ≤ a → 0 ≤ n → a + n ≤ k → sub (zeros k) a n = zeros n.
Proof.
  intros. unfold sub, zeros. rewrite drop_replicate, take_replicate. f_equal. lia.
Qed.

Lemma splice_in {A} off (bs l : list A) :
  0 ≤ off → off + blen bs ≤ blen l →
  splice off bs l = take (Z.to_nat off) l ++ bs ++ drop (Z.to_nat off + length bs) l.
Proof. unfold blen, splice. intros. by rewrite (take_ge bs) by lia. Qed.
Lemma splice_app {A} (a old bs c : list A) off :
  off = blen a → blen old = blen bs → splice off bs (a ++ old ++ c) = a ++ bs ++ c.
Proof.
  intros -> Hl. rewrite splice_in; [|apply blen_nonneg|].
  2:{ rewrite !blen_app. pose proof (blen_nonneg c). lia. }
  unfold blen in *. rewrite Nat2Z.id. rewrite take_app_length. do 2 f_equal.
  rewrite drop_app_ge by lia. rewrite drop_app_ge by lia. replace (_ - _ - _)%nat with 0%nat by lia.
  done.
Qed.
Lemma splice_head {A} (old bs c : list A) off :
  off = 0 → blen old = blen bs → splice off bs (old ++ c) = bs ++ c.
Proof. intros ->. apply (splice_app [] old bs c 0). done. Qed.
Lemma splice_all {A} (old bs : list A) off :
  off = 0 → blen old = blen bs → splice off bs old = bs.
Proof. intros. rewrite <- (app_nil_r old), splice_head by done. apply app_nil_r. Qed.
Lemma splice_skip {A} (a bs c : list A) off :
  blen a ≤ off → splice off bs (a ++ c) = a ++ splice (off - blen a) bs c.
Proof.
  intros. unfold blen, splice in *. rewrite take_app_ge, drop_app_ge by lia.
  rewrite length_app, <- app_assoc. do 2 f_equal.
  - f_equal. lia.
  - f_equal; [f_equal; lia|f_equal; lia].
Qed.
Lemma sub_splice_eq {A} off (bs l : list A) n :
  0 ≤ off → off + blen bs ≤ blen l → n = blen bs → sub (splice off bs l) off n = bs.
Proof.
  intros ? ? ->. rewrite splice_in by done. unfold blen, sub in *.
  rewrite drop_app_ge by (rewrite length_take; lia).
  rewrite length_take, Nat.min_l, Nat.sub_diag, drop_0 by lia.
  rewrite take_app_le by lia. apply take_ge. lia.
Qed.
Lemma sub_splice_before {A} off (bs l : list A) a n :
  0 ≤ a → 0 ≤ n → a + n ≤ off → off + blen bs ≤ blen l →
  sub (splice off bs l) a n = sub l a n.
Proof.
  intros. rewrite splice_in by lia. pose proof (blen_nonneg bs).
  rewrite sub_app_l; [|done|done|unfold blen in *; rewrite length_take; lia].
  unfold sub. rewrite skipn_firstn_comm, take_take. f_equal. lia.
Qed.
Lemma sub_splice_after {A} off (bs l : list A) a n :
  0 ≤ off → 0 ≤ n → off + blen bs ≤ a → off + blen bs ≤ blen l →
  sub (splice off bs l) a n = sub l a n.
Proof.
  intros. rewrite splice_in by lia. pose proof (blen_nonneg bs).
  assert (blen (take (Z.to_nat off) l) = off) as Ht
    by (unfold blen in *; rewrite length_take; lia).
  rewrite sub_app_r, Ht, sub_app_r by lia.
  unfold sub, blen in *. rewrite drop_drop. f_equal. f_equal. lia.
Qed.
Lemma bytes_ok_sub l a n : bytes_ok l → bytes_ok (sub l a n).
Proof. intros. unfold sub. by apply Forall_take, Forall_drop. Qed.
Lemma bytes_ok_splice off bs l : bytes_ok bs → bytes_ok l → bytes_ok (splice off bs l).
Proof. intros. unfold splice. repeat apply Forall_app_2; auto using Forall_take, Forall_drop. Qed.
#[export] Hint Resolve bytes_ok_le_enc bytes_ok_zeros bytes_ok_sub bytes_ok_splice : pst.

Lemma sub_all {A} (l : list A) a n : a = 0 → n = blen l → sub l a n = l.
Proof. intros ->. apply sub_0_all. Qed.
Lemma le_dec_enc_fits n v : fits (8 * Z.of_nat n) v → le_dec (le_enc n v) = v.
Proof.
  intros H. rewrite le_dec_enc. apply Z.mod_small. unfold fits in H.
  by rewrite Z.pow_mul_r in H by lia.
Qed.
Lemma le_dec_sub_fits l a n w : bytes_ok l → w = 8 * n → 0 ≤ a → 0 ≤ n → a + n ≤ blen l → fits w (le_dec (sub l a n)).
Proof.
  intros Hb -> Ha Hn Hl. pose proof (le_dec_bound (sub l a n) (bytes_ok_sub l a n Hb)) as H.
  rewrite blen_sub in H by lia. unfold fits. rewrite Z.pow_mul_r by lia. done.
Qed.
(** Reading inside a window whose bytes are known. *)
Lemma rd_within k off a data n w :
  sub data off n = w → 0 ≤ off → 0 ≤ a → a + Z.of_nat k ≤ n → off + n ≤ blen data →
  rd k (off + a) data = Ok (le_dec (sub w a (Z.of_nat k))).
Proof. intros <- ????. rewrite rd_Ok by lia. by rewrite sub_sub by lia. Qed.
Lemma rd_within0 k off data n w :
  sub data off n = w → 0 ≤ off → Z.of_nat k ≤ n → off + n ≤ blen data →
  rd k off data = Ok (le_dec (sub w 0 (Z.of_nat k))).
Proof. intros. rewrite <- (Z.add_0_r off). by apply (rd_within _ _ _ _ n). Qed.

(** ** Automation for buffers *)

(** Linear arithmetic with division and remainder by numerals. *)
Ltac divlia := Z.to_euclidean_division_equations; lia.
(** Decide the comparisons of the goal. *)
Ltac zdecide :=
  repeat match goal with
  | |- context [?a <? ?b] => first [replace (a <? b) with true by divlia | replace (a <? b) with false by divlia]
  | |- context [?a <=? ?b] => first [replace (a <=? b) with true by divlia | replace (a <=? b) with false by divlia]
  end; cbn [andb orb negb].

(** Arithmetic goals about buffer lengths; the named sizes of the source are
    unfolded through the [pst_consts] database. *)
Ltac blia :=
  autorewrite with blen; first [lia | autounfold with pst_consts; lia | autounfold with pst_consts in *; lia].

(** Turn a chain of writes into a concatenation of the fields written. *)
Ltac buf_layout :=
  repeat first
    [ rewrite splice_head by blia
    | rewrite splice_skip by blia
    | rewrite splice_all by blia ].

(** Read through one layer of writes. *)
Ltac sub_step :=
  first
    [ rewrite sub_splice_eq by blia
    | rewrite sub_splice_before by blia
    | rewrite sub_splice_after by blia
    | rewrite sub_sub by blia
    | rewrite sub_zeros by blia ].
(** Reads of a concatenation of fields. *)
Ltac buf_fields :=
  repeat first
    [ rewrite sub_all by blia
    | rewrite sub_app_l by blia
    | rewrite sub_app_r by blia ].
(** Reduce every read of a buffer under a chain of writes. *)
Ltac buf_read := repeat sub_step.
(** Execute the writes of a builder whose ranges are in bounds. *)
Ltac buf_write :=
  repeat first
    [ rewrite put_Ok by blia
    | rewrite put8_Ok by blia
    | rewrite put_bytes_Ok by blia
    | rewrite bind_Ok | rewrite mret_Ok ].
(** Execute the reads of a parser whose ranges are in bounds. *)
Ltac buf_parse :=
  repeat first
    [ rewrite rd_Ok by blia
    | rewrite index_total by blia
    | rewrite slice_Ok by blia
    | rewrite bind_Ok | rewrite mret_Ok ].

Lemma splice_0_zeros (data : bytes) n :
  blen data ≤ n → splice 0 data (zeros n) = data ++ zeros (n - blen data).
Proof.
  intros. pose proof (blen_nonneg data). rewrite splice_in by blia. change (Z.to_nat 0) with 0%nat. rewrite firstn_O.
  rewrite Nat.add_0_l. cbn [app]. f_equal. unfold zeros, blen in *.
  rewrite drop_replicate. f_equal. lia.
Qed.

(** Filling a zeroed buffer of [n] bytes from the front: [pre] is written, of
    length [p]; the next write is at or after its end. *)
Lemma put_bytes_fill (pre bs : bytes) p off n :
  blen pre = p → 0 ≤ p ≤ off → off + blen bs ≤ n →
  put_bytes off bs (pre ++ zeros (n - p)) = Ok ((pre ++ zeros (off - p) ++ bs) ++ zeros (n - (off + blen bs))).
Proof.
  intros Hp Ho Hn. pose proof (blen_nonneg bs). rewrite put_bytes_Ok by blia. f_equal.
  replace (zeros (n - p)) with (zeros (off - p) ++ zeros (blen bs) ++ zeros (n - (off + blen bs)))
    by (unfold zeros; rewrite <- !replicate_add; f_equal; lia).
  rewrite !splice_skip by blia. rewrite splice_head by blia. by rewrite <- !app_assoc.
Qed.
Lemma put_fill (pre : bytes) p k off v n :
  blen pre = p → 0 ≤ p ≤ off → off + Z.of_nat k ≤ n →
  put k off v (pre ++ zeros (n - p)) = Ok ((pre ++ zeros (off - p) ++ le_enc k v) ++ zeros (n - (off + Z.of_nat k))).
Proof. intros. unfold put. rewrite (put_bytes_fill pre (le_enc k v) p) by blia. by rewrite blen_le_enc. Qed.
Lemma put8_fill (pre : bytes) p off v n :
  blen pre = p → 0 ≤ p ≤ off → off + 1 ≤ n →
  put8 off v (pre ++ zeros (n - p)) = Ok ((pre ++ zeros (off - p) ++ [v]) ++ zeros (n - (off + 1))).
Proof. intros. unfold put8. rewrite (put_bytes_fill pre [v] p) by blia. done. Qed.

(** Cut a buffer into the little-endian fields it starts with. *)
Lemma sub_cut {A} (l : list A) n : 0 ≤ n → l = sub l 0 n ++ sub l n (blen l - n).
Proof.
  intros Hn. unfold sub, blen. rewrite drop_0. change (Z.to_nat 0) with 0%nat.
  rewrite (take_ge (drop _ _)) by (rewrite length_drop; lia). by rewrite take_drop.
Qed.
Lemma field_split n l : bytes_ok l → Z.of_nat n ≤ blen l →
  ∃ v rest, l = le_enc n v ++ rest ∧ fits (8 * Z.of_nat n) v ∧ bytes_ok rest ∧ blen rest = blen l - Z.of_nat n.
Proof.
  intros Hl Hn. exists (le_dec (sub l 0 (Z.of_nat n))), (sub l (Z.of_nat n) (blen l - Z.of_nat n)).
  assert (bytes_ok (sub l 0 (Z.of_nat n))) as Hs by by apply bytes_ok_sub.
  assert (blen (sub l 0 (Z.of_nat n)) = Z.of_nat n) as Hb by (rewrite blen_sub; lia).
  split_and!.
  - rewrite <- (le_enc_dec (sub l 0 (Z.of_nat n))) in Hb by done. pose proof (le_enc_dec _ Hs) as He.
    unfold blen in Hb. rewrite He in Hb. replace (length (sub l 0 (Z.of_nat n))) with n in He by lia.
    rewrite He. apply sub_cut. lia.
  - pose proof (le_dec_bound _ Hs) as Hd. rewrite Hb in Hd. unfold fits. rewrite Z.pow_mul_r by lia. done.
  - by apply bytes_ok_sub.
  - rewrite blen_sub; lia.
Qed.

(** ** Exhaustive checks over bytes *)
Definition all_bytes : list Z := seqZ 0 256.
Lemma byte_forall (f : Z → bool) :
  forallb f all_bytes = true → ∀ b, is_byte b → f b = true.
Proof.
  intros H b Hb. rewrite forallb_forall in H. apply H.
  apply list_elem_of_In, elem_of_seqZ. unfold is_byte in Hb. lia.
Qed.

Definition bytes_okb (l : bytes) : bool := forallb (λ b, (0 <=? b) && (b <? 256)) l.
Lemma bytes_okb_true l : bytes_okb l = true → bytes_ok l.
Proof.
  unfold bytes_okb. rewrite forallb_forall, Forall_forall. intros H b Hb%list_elem_of_In.
  specialize (H b Hb). unfold is_byte. lia.
Qed.

(** ** Bit fields as arithmetic *)
Lemma land_shiftl_0 a b n : 0 ≤ n → 0 ≤ a < 2 ^ n → Z.land a (Z.shiftl b n) = 0.
Proof.
  intros Hn Ha. apply Z.bits_inj'. intros i Hi. rewrite Z.land_spec, Z.bits_0.
  destruct (decide (i < n)).
  - by rewrite Z.shiftl_spec_low, andb_false_r.
  - rewrite <- (Z.mod_small a (2 ^ n)) by done. by rewrite Z.mod_pow2_bits_high by lia.
Qed.
Lemma lor_shiftl a b n :
  0 ≤ n → 0 ≤ a < 2 ^ n → Z.lor a (Z.shiftl b n) = a + b * 2 ^ n.
Proof.
  intros Hn Ha. rewrite <- Z.lxor_lor by (by apply land_shiftl_0).
  rewrite <- Z.add_nocarry_lxor by (by apply land_shiftl_0). by rewrite Z.shiftl_mul_pow2.
Qed.
Lemma land_low a n : 0 ≤ n → Z.land a (Z.ones n) = a mod 2 ^ n.
Proof. apply Z.land_ones. Qed.
Lemma ldiff_low a n : 0 ≤ n → Z.ldiff a (Z.ones n) = 2 ^ n * (a / 2 ^ n).
Proof.
  intros. rewrite Z.ldiff_ones_r by done. rewrite Z.shiftl_mul_pow2, Z.shiftr_div_pow2 by done. lia.
Qed.
Lemma shiftr_div a n : 0 ≤ n → Z.shiftr a n = a / 2 ^ n.
Proof. apply Z.shiftr_div_pow2. Qed.

(** ** Sorted lists *)
Lemma elem_concat {A} (ls : list (list A)) l x : l ∈ ls → x ∈ l → x ∈ concat ls.
Proof. intros Hl Hx. apply list_elem_of_In, in_concat. exists l. by split; apply list_elem_of_In. Qed.
Lemma sorted_NoDup (l : list Z) : StronglySorted Z.lt l → NoDup l.
Proof.
  induction 1 as [|x l Hs IH Hf]; constructor; [|done]. intros Hx. rewrite Forall_forall in Hf.
  specialize (Hf x Hx). lia.
Qed.
Lemma sorted_concat {A} (f : A → Z) ls l :
  l ∈ ls → StronglySorted Z.lt (map f (concat ls)) → StronglySorted Z.lt (map f l).
Proof.
  induction ls as [|k ls IH]; [by intros ?%not_elem_of_nil|]. cbn [concat]. rewrite map_app.
  intros [->|Hl]%elem_of_cons (_ & H1 & H2)%StronglySorted_app; [done|by apply IH].
Qed.

(** ** Splitting a list into runs *)
(** [for i := 0; i < len(l); i += n { l[i:min(i+n, len(l))] }] *)
Fixpoint chunks_fuel {A} (fuel : nat) (n : nat) (l : list A) : list (list A) :=
  match fuel with
  | O => []
  | S fuel => match l with [] => [] | _ => take n l :: chunks_fuel fuel n (drop n l) end
  end.
Definition chunks {A} (n : Z) (l : list A) : list (list A) := chunks_fuel (length l) (Z.to_nat n) l.

Lemma chunks_fuel_spec {A} fuel n (l : list A) : (0 < n)%nat → (length l ≤ fuel)%nat →
  concat (chunks_fuel fuel n l) = l ∧ Forall (λ c, c ≠ [] ∧ (length c ≤ n)%nat) (chunks_fuel fuel n l) ∧
  (length (chunks_fuel fuel n l) ≤ length l)%nat ∧
  ((2 ≤ n)%nat → (2 ≤ length l)%nat → (length (chunks_fuel fuel n l) < length l)%nat).
Proof.
  intros Hn. revert l. induction fuel as [|fuel IH]; intros l Hl.
  - destruct l; [|cbn in Hl; lia]. cbn. repeat split; try constructor; lia.
  - destruct l as [|x l]; cbn [chunks_fuel]; [cbn; repeat split; try constructor; lia|].
    destruct (IH (drop n (x :: l))) as (E & Hf & Hle & _); [rewrite length_drop; cbn in *; lia|].
    rewrite length_drop in Hle. split; [cbn [concat]; by rewrite E, take_drop|]. split; [|cbn [length] in *; split; lia].
    constructor; [|done]. split; [by destruct n; [lia|]|]. rewrite length_take. lia.
Qed.
Lemma chunks_concat {A} n (l : list A) : 0 < n → concat (chunks n l) = l.
Proof. intros. apply chunks_fuel_spec; lia. Qed.
Lemma chunks_each {A} n (l : list A) : 0 < n → Forall (λ c, c ≠ [] ∧ blen c ≤ n) (chunks n l).
Proof.
  intros. destruct (chunks_fuel_spec (length l) (Z.to_nat n) l) as (_ & Hf & _); [lia|lia|].
  eapply Forall_impl; [exact Hf|]. cbn. intros c [? ?]. split; [done|]. unfold blen. lia.
Qed.
Lemma chunks_shrink {A} n (l : list A) : 2 ≤ n → (2 ≤ length l)%nat → (length (chunks n l) < length l)%nat.
Proof. intros. apply chunks_fuel_spec; lia. Qed.
Lemma chunks_nonempty {A} n (l : list A) : l ≠ [] → chunks n l ≠ [].
Proof. unfold chunks. by destruct l. Qed.
Lemma chunks_fuel_enough {A} n (l : list A) : (0 < n)%nat → ∀ f f', (length l ≤ f)%nat → (length l ≤ f')%nat → chunks_fuel f n l = chunks_fuel f' n l.
Proof.
  intros Hn f. revert l. induction f as [|f IH]; intros l f' Hf Hf'.
  - destruct l; [by destruct f'|cbn in *; lia].
  - destruct l as [|x l]; [by destruct f'|]. destruct f' as [|f']; [cbn in *; lia|]. cbn [chunks_fuel]. f_equal.
    apply IH; rewrite length_drop; cbn in *; lia.
Qed.
Lemma chunks_cons {A} n (l : list A) : 0 < n → l ≠ [] → chunks n l = take (Z.to_nat n) l :: chunks n (drop (Z.to_nat n) l).
Proof.
  intros Hn Hl. unfold chunks. destruct l as [|x l]; [done|]. cbn [length chunks_fuel]. f_equal.
  apply chunks_fuel_enough; rewrite ?length_drop; cbn; lia.
Qed.
Lemma chunks_map {A B} (f : A → B) n (l : list A) : chunks n (map f l) = map (map f) (chunks n l).
Proof.
  unfold chunks. rewrite length_map. generalize (Z.to_nat n) as k. intros k. generalize (length l) as fuel. intros fuel. revert l.
  induction fuel as [|fuel IH]; intros l; [done|]. destruct l as [|x l]; [done|]. cbn [chunks_fuel map].
  rewrite <- (map_cons f x l). change (map f (x :: l)) with (f <$> (x :: l)). rewrite <- !fmap_take, <- !fmap_drop. f_equal. apply IH.
Qed.
(** All chunks but the last are full. *)
Lemma chunks_count {A} n (l : list A) : 0 < n → n * blen (chunks n l) < blen l + n.
Proof.
  intros Hn. remember (length l) as k eqn:Hk. revert l Hk. induction (lt_wf k) as [k _ IH]. intros l ->.
  destruct (decide (l = [])) as [->|Hl]; [unfold chunks, blen; cbn; lia|]. rewrite chunks_cons, blen_cons by done.
  destruct (decide (drop (Z.to_nat n) l = [])) as [E|E].
  - rewrite E. change (blen (chunks n [])) with 0. assert (0 < blen l) by (destruct l; [done|rewrite blen_cons; pose proof (blen_nonneg l); lia]). lia.
  - assert (Z.to_nat n < length l)%nat by (destruct (decide (length l ≤ Z.to_nat n)%nat) as [Hle|]; [by rewrite drop_ge in E|lia]).
    assert (length (drop (Z.to_nat n) l) < length l)%nat as Hlt by (rewrite length_drop; lia).
    specialize (IH _ Hlt _ eq_refl). unfold blen in *. rewrite length_drop in *. lia.
Qed.
