(* ===== verification/Format.v ===== *)
(** * Format constants ([pkg/disk/constants.go])

    The two file formats, page, block and AMap type codes, and the size limits
    the other components use. *)
From S2P Require Import Prelude.

Inductive PSTFormat := FormatUnknown | FormatANSI | FormatUnicode.
#[export] Instance PSTFormat_eq_dec : EqDecision PSTFormat.
Proof. solve_decision. Defined.

(** [if format == FormatANSI] / [if format == FormatUnicode] *)
Definition is_ANSI (f : PSTFormat) : bool := match f with FormatANSI => true | _ => false end.
Definition is_Unicode (f : PSTFormat) : bool := match f with FormatUnicode => true | _ => false end.

(** ** Magic numbers and versions *)
Definition PSTMagic : Z := 0x4E444221.
Definition ClientMagicPST : Z := 0x4D53.
Definition ClientMagicOST : Z := 0x4F53.
Definition DatabaseFormatANSIMin : Z := 14.
Definition DatabaseFormatANSIMax : Z := 15.
Definition DatabaseFormatUnicodeMin : Z := 20.
Definition DatabaseFormatUnicodeMax : Z := 23.

(** ** Page types *)
Definition PageTypeBBT : Z := 0x80.
Definition PageTypeNBT : Z := 0x81.
Definition PageTypeFMap : Z := 0x82.
Definition PageTypePMap : Z := 0x83.
Definition PageTypeAMap : Z := 0x84.
Definition PageTypeFPMap : Z := 0x85.
Definition PageTypeDList : Z := 0x86.

(** ** Block types *)
Definition BlockTypeExternal : Z := 0x00.
Definition BlockTypeExtended : Z := 0x01.
Definition BlockTypeSubnode : Z := 0x02.

(** ** Sizes *)
Definition PageSize : Z := 512.
Definition MaxBlockDiskSize : Z := 8192.
Definition BytesPerSlot : Z := 64.
Definition FirstAMapPageLocation : Z := 0x4400.
Definition DListPageLocation : Z := 0x4200.
Definition HeaderSizeANSI : Z := 512.
Definition HeaderSizeUnicode : Z := 564.
Definition PageTrailerSizeANSI : Z := 12.
Definition PageTrailerSizeUnicode : Z := 16.
Definition BlockTrailerSizeANSI : Z := 12.
Definition BlockTrailerSizeUnicode : Z := 16.
Definition NBTLeafEntrySizeANSI : Z := 16.
Definition NBTLeafEntrySizeUnicode : Z := 32.
Definition BBTLeafEntrySizeANSI : Z := 12.
Definition BBTLeafEntrySizeUnicode : Z := 24.
Definition MaxDataBlockSizeUnicode : Z := 8176.
Definition MaxDataBlockSizeANSI : Z := 8180.
Definition MaxXBlockEntriesUnicode : Z := 1020.
Definition MaxXBlockEntriesANSI : Z := 2040.
Definition MaxSubnodeLeafEntriesUnicode : Z := 340.
Definition MaxSubnodeLeafEntriesANSI : Z := 680.
Definition MaxBTPageEntriesNBTUnicode : Z := 15.
Definition MaxBTPageEntriesNBTANSI : Z := 31.
Definition MaxBTPageEntriesBBTUnicode : Z := 20.
Definition MaxBTPageEntriesBBTANSI : Z := 41.
Definition MaxBTPageEntriesNonleafUnicode : Z := 20.
Definition MaxBTPageEntriesNonleafANSI : Z := 41.
#[export] Hint Unfold PageSize BytesPerSlot FirstAMapPageLocation HeaderSizeANSI HeaderSizeUnicode
  PageTrailerSizeANSI PageTrailerSizeUnicode BlockTrailerSizeANSI BlockTrailerSizeUnicode
  NBTLeafEntrySizeANSI NBTLeafEntrySizeUnicode BBTLeafEntrySizeANSI BBTLeafEntrySizeUnicode
  MaxDataBlockSizeUnicode MaxDataBlockSizeANSI : pst_consts.

(** ** AMap status byte of the header *)
Definition AMapStatusValid : Z := 0x00.
Definition AMapStatusInvalid : Z := 0x01.
Definition AMapStatusValid2 : Z := 0x02.

(** ** Alignment to 64-byte slots *)
Definition AlignDisk (size : Z) : Z := Z.ldiff (u64 (size + 63)) 63.
Definition AlignDisk32 (size : Z) : Z := Z.ldiff (u32 (size + 63)) 63.

Lemma AlignDisk_arith size :
  0 ≤ size → size + 63 < 2 ^ 64 → AlignDisk size = 64 * ((size + 63) / 64).
Proof.
  intros. unfold AlignDisk. rewrite u64_small by lia.
  change 63 with (Z.ones 6) at 2. by rewrite ldiff_low by lia.
Qed.
(** [AlignDisk] is the least multiple of 64 that is at least [size]. *)
Lemma AlignDisk_spec size :
  0 ≤ size → size + 63 < 2 ^ 64 →
  size ≤ AlignDisk size < size + 64 ∧ AlignDisk size mod 64 = 0.
Proof.
  intros. rewrite AlignDisk_arith by done. pose proof (Z_div_mod_eq_full (size + 63) 64).
  pose proof (Z.mod_pos_bound (size + 63) 64 ltac:(lia)).
  split; [lia|]. rewrite Z.mul_comm. apply Z.mod_mul. lia.
Qed.
Lemma AlignDisk_fixed size :
  0 ≤ size → size + 63 < 2 ^ 64 → size mod 64 = 0 → AlignDisk size = size.
Proof.
  intros ? ? H. destruct (AlignDisk_spec size) as [[? ?] Hm]; [done..|].
  rewrite AlignDisk_arith in * by done.
  pose proof (Z_div_mod_eq_full size 64). lia.
Qed.
