(* ===== verification/Ids.v ===== *)
(** * Identifiers ([pkg/util/primitives.go], [pkg/util/guid.go], [writer/v2/bid.go])

    Node, block and heap identifiers with their bit packing, GUIDs, and the
    BID counters of the v2 writer. *)
From S2P Require Import Prelude.

(** ** Node IDs *)
Definition NIDTypeMask : Z := 0x1F.
Definition MakeNID (nidType index : Z) : Z :=
  Z.lor (Z.land nidType NIDTypeMask) (u32 (Z.shiftl index 5)).
Definition NID_Type (nid : Z) : Z := u8 (Z.land nid NIDTypeMask).
Definition NID_Index (nid : Z) : Z := Z.shiftr nid 5.

Definition NIDTypeInternal : Z := 0x01.
Definition NIDTypeNormalFolder : Z := 0x02.
Definition NIDTypeSearchFolder : Z := 0x03.
Definition NIDTypeNormalMessage : Z := 0x04.
Definition NIDTypeAttachment : Z := 0x05.
Definition NIDTypeHierarchyTable : Z := 0x0D.
Definition NIDTypeContentsTable : Z := 0x0E.

Definition NIDMessageStore : Z := MakeNID NIDTypeInternal 0x1.
Definition NIDNameIDMap : Z := MakeNID NIDTypeInternal 0x3.
Definition NIDRootFolder : Z := 0x122.

(** ** Block IDs *)
Definition BlockIDInternalBit : Z := 0x2.
Definition BlockIDIncrement : Z := 0x4.
Definition IsInternal (bid : Z) : bool := negb (Z.land bid BlockIDInternalBit =? 0).
Definition IsExternal (bid : Z) : bool := Z.land bid BlockIDInternalBit =? 0.
(** [bid &^ util.BlockID(0x2)] *)
Definition clearInternal (bid : Z) : Z := Z.ldiff bid BlockIDInternalBit.

(** ** Heap IDs *)
Definition heapIDBlockIndexShift : Z := 16.
Definition heapIDAllocIndexShift : Z := 5.
Definition heapIDAllocIndexMask : Z := 0x7FF.

Definition BlockIndex (hid : Z) : Z := u16 (Z.shiftr hid heapIDBlockIndexShift).
Definition PageIndex (hid : Z) : Z := BlockIndex hid.
Definition AllocIndex (hid : Z) : Z :=
  let index := u16 (Z.land (Z.shiftr hid heapIDAllocIndexShift) heapIDAllocIndexMask) in
  if index =? 0 then 0 else u16 (index - 1).
Definition MakeHeapID (blockIndex allocIndex : Z) : Z :=
  let hidIndex := u16 (allocIndex + 1) in
  Z.lor (u32 (Z.shiftl blockIndex heapIDBlockIndexShift))
        (u32 (Z.shiftl hidIndex heapIDAllocIndexShift)).

Definition IsHeapID (hnid : Z) : bool := (Z.land hnid 0x1F =? 0) || (hnid =? 0).
Definition IsSubnodeID (hnid : Z) : bool := negb (hnid =? 0) && negb (Z.land hnid 0x1F =? 0).
Definition ToHeapID (hnid : Z) : Z := hnid.
Definition ToNodeID (hnid : Z) : Z := hnid.

(** ** GUIDs *)
Record GUID := mkGUID { Data1 : Z; Data2 : Z; Data3 : Z; Data4 : bytes }.
Definition GUIDSize : Z := 16.
#[export] Hint Unfold GUIDSize : pst_consts.
Definition GUID_NULL : GUID := mkGUID 0 0 0 (zeros 8).
Definition PS_MAPI : GUID := mkGUID 0x00020328 0x0000 0x0000 [0xC0; 0x00; 0x00; 0x00; 0x00; 0x00; 0x00; 0x46].
Definition PS_PUBLIC_STRINGS : GUID := mkGUID 0x00020329 0x0000 0x0000 [0xC0; 0x00; 0x00; 0x00; 0x00; 0x00; 0x00; 0x46].
Definition PS_INTERNET_HEADERS : GUID := mkGUID 0x00020386 0x0000 0x0000 [0xC0; 0x00; 0x00; 0x00; 0x00; 0x00; 0x00; 0x46].
Definition PSETID_Common : GUID := mkGUID 0x00062008 0x0000 0x0000 [0xC0; 0x00; 0x00; 0x00; 0x00; 0x00; 0x00; 0x46].
Definition PSETID_Address : GUID := mkGUID 0x00062004 0x0000 0x0000 [0xC0; 0x00; 0x00; 0x00; 0x00; 0x00; 0x00; 0x46].
Definition PSETID_Appointment : GUID := mkGUID 0x00062002 0x0000 0x0000 [0xC0; 0x00; 0x00; 0x00; 0x00; 0x00; 0x00; 0x46].
Definition PSETID_Meeting : GUID := mkGUID 0x6ED8DA90 0x450B 0x101B [0x98; 0xDA; 0x00; 0xAA; 0x00; 0x3F; 0x13; 0x05].
Definition PSETID_Task : GUID := mkGUID 0x00062003 0x0000 0x0000 [0xC0; 0x00; 0x00; 0x00; 0x00; 0x00; 0x00; 0x46].
Definition PSETID_Note : GUID := mkGUID 0x0006200E 0x0000 0x0000 [0xC0; 0x00; 0x00; 0x00; 0x00; 0x00; 0x00; 0x46].

Definition read_guid (data : bytes) : result GUID :=
  d1 ← rd 4 0 data; d2 ← rd 2 4 data; d3 ← rd 2 6 data; d4 ← slice data 8 16;
  mret (mkGUID d1 d2 d3 d4).
Definition ParseGUID (data : bytes) : result GUID :=
  if blen data <? GUIDSize
  then Err (EFmt "insufficient data for GUID: need %d bytes, got %d" [GUIDSize; blen data])
  else read_guid data.
Definition GUIDFromBytes (data : bytes) : result GUID :=
  if blen data <? GUIDSize then Ok GUID_NULL else read_guid data.
Definition GUID_Bytes (g : GUID) : result bytes :=
  let data := zeros GUIDSize in
  data ← put 4 0 (Data1 g) data; data ← put 2 4 (Data2 g) data;
  data ← put 2 6 (Data3 g) data; mret (splice 8 (Data4 g) data).
Definition GUID_IsZero (g : GUID) : bool :=
  (Data1 g =? 0) && (Data2 g =? 0) && (Data3 g =? 0) && bool_decide (Data4 g = zeros 8).
Definition GUID_Equal (g other : GUID) : bool :=
  (Data1 g =? Data1 other) && (Data2 g =? Data2 other) && (Data3 g =? Data3 other)
  && bool_decide (Data4 g = Data4 other).

(** The fields are [uint32], [uint16], [uint16] and [[8]byte]. *)
Definition guid_wf (g : GUID) : Prop :=
  fits 32 (Data1 g) ∧ fits 16 (Data2 g) ∧ fits 16 (Data3 g) ∧
  blen (Data4 g) = 8 ∧ bytes_ok (Data4 g).

(** ** BID counters of the v2 writer *)
Definition BIDReserved : Z := 1.
Definition BIDInternal : Z := 2.
Definition BIDIsInternal (bid : Z) : bool := negb (Z.land bid BIDInternal =? 0).
Definition BIDHasReserved (bid : Z) : bool := negb (Z.land bid BIDReserved =? 0).
Definition MakeInternalBID (bid : Z) : Z :=
  Z.lor (Z.ldiff bid (Z.lor BIDReserved BIDInternal)) BIDInternal.

(** [takeMonotonic next inc] returns the value taken and the new counter. *)
Definition takeMonotonic (next inc : Z) : result (Z * Z) :=
  if next =? 0 then Err (EFmt "null next counter" [])
  else if (0 <? inc) && (u64 (18446744073709551615 - inc) <? next)
  then Err (EFmt "counter overflow: next=0x%x increment=%d" [next; inc])
  else
    let next' := u64 (next + inc) in
    if next' =? 0 then Err (EFmt "counter wrapped" []) else Ok (next, next').

Record SequentialIDs := mkIDs {
  StartIndex : Z; nid : list Z; nextBlock : Z; nextPage : Z; unique : Z; keys : Z }.
Definition PageBIDIncrement : Z := 1.
Definition BlockBIDIncrement : Z := 4.
Definition TakePageBID (s : SequentialIDs) : result (Z * SequentialIDs) :=
  '(v, n) ← takeMonotonic (nextPage s) PageBIDIncrement;
  mret (v, mkIDs (StartIndex s) (nid s) (nextBlock s) n (unique s) (keys s)).
Definition TakeBlockBID (s : SequentialIDs) : result (Z * SequentialIDs) :=
  '(v, n) ← takeMonotonic (nextBlock s) BlockBIDIncrement;
  mret (v, mkIDs (StartIndex s) (nid s) n (nextPage s) (unique s) (keys s)).
Definition TakeInternalBlockBID (s : SequentialIDs) : result (Z * SequentialIDs) :=
  '(v, s') ← TakeBlockBID s; mret (MakeInternalBID v, s').
(** [NextNID]: the [nid] table has 32 entries and the type is masked to 5 bits. *)
Definition NextNID (s : SequentialIDs) (nidType : Z) : Z * SequentialIDs :=
  let t := Z.land nidType 0x1F in
  let idx := default 0 (nid s !! Z.to_nat t) in
  (MakeNID t idx,
   mkIDs (StartIndex s) (<[Z.to_nat t := u32 (idx + 1)]> (nid s))
         (nextBlock s) (nextPage s) (unique s) (keys s)).

(** ** Bit packing as arithmetic *)
Lemma land31 a : Z.land a 31 = a mod 32.
Proof. apply (Z.land_ones a 5). lia. Qed.
Lemma MakeNID_arith t i : MakeNID t i = t mod 32 + i mod 2 ^ 27 * 32.
Proof.
  unfold MakeNID, NIDTypeMask. rewrite land31.
  replace (u32 (Z.shiftl i 5)) with (Z.shiftl (i mod 2 ^ 27) 5).
  2:{ unfold u32. rewrite !Z.shiftl_mul_pow2 by lia.
      change 4294967296 with (2 ^ 27 * 2 ^ 5). rewrite Zmult_mod_distr_r. done. }
  apply (lor_shiftl _ _ 5); [lia|]. apply Z.mod_pos_bound. lia.
Qed.
Lemma NID_Type_arith nid : NID_Type nid = nid mod 32.
Proof. unfold NID_Type, NIDTypeMask. rewrite land31. apply u8_small. pose proof (Z.mod_pos_bound nid 32 ltac:(lia)). lia. Qed.
Lemma NID_Index_arith nid : NID_Index nid = nid / 32.
Proof. unfold NID_Index. by rewrite Z.shiftr_div_pow2 by lia. Qed.

Lemma MakeHeapID_arith b a :
  fits 16 b → 0 ≤ a < 65535 →
  MakeHeapID b a = (a + 1) mod 2048 * 32 + Z.lor b ((a + 1) / 2048) * 65536.
Proof.
  intros [Hb1 Hb2] Ha. unfold MakeHeapID, heapIDBlockIndexShift, heapIDAllocIndexShift.
  rewrite (u16_small (a + 1)) by lia.
  rewrite !u32_small by (rewrite Z.shiftl_mul_pow2 by lia; lia).
  set (h := a + 1). rewrite <- (lor_shiftl (h mod 2048 * 32) _ 16).
  2: lia. 2:{ pose proof (Z.mod_pos_bound h 2048). lia. }
  rewrite Z.shiftl_lor, Z.lor_assoc, (Z.lor_comm (h mod 2048 * 32)), <- Z.lor_assoc. f_equal.
  rewrite lor_shiftl; [|lia|pose proof (Z.mod_pos_bound h 2048); lia].
  rewrite Z.shiftl_mul_pow2 by lia. pose proof (Z_div_mod_eq_full h 2048). lia.
Qed.
Lemma AllocIndex_arith hid :
  AllocIndex hid = if hid / 32 mod 2048 =? 0 then 0 else hid / 32 mod 2048 - 1.
Proof.
  unfold AllocIndex, heapIDAllocIndexShift, heapIDAllocIndexMask.
  change 2047 with (Z.ones 11). rewrite Z.land_ones, Z.shiftr_div_pow2 by lia.
  change (2 ^ 5) with 32. change (2 ^ 11) with 2048.
  pose proof (Z.mod_pos_bound (hid / 32) 2048).
  rewrite (u16_small (hid / 32 mod 2048)) by lia.
  case_match eqn:E; [done|]. apply Z.eqb_neq in E. by rewrite u16_small by lia.
Qed.
Lemma BlockIndex_arith hid : fits 32 hid → BlockIndex hid = hid / 65536.
Proof.
  intros [? ?]. unfold BlockIndex, heapIDBlockIndexShift. rewrite Z.shiftr_div_pow2 by lia.
  apply u16_small. split; [apply Z.div_pos; lia|]. apply Z.div_lt_upper_bound; lia.
Qed.

(** ** Properties *)

(** A NID built from a type and an index gives back the low five bits of
    the type and the index modulo 2^27 (the shift drops the rest), and the NID
    is a 32-bit word. *)
Theorem MakeNID_fields nidType index :
  fits 8 nidType → fits 32 index →
  NID_Type (MakeNID nidType index) = nidType mod 32 ∧
  NID_Index (MakeNID nidType index) = index mod 2 ^ 27 ∧
  fits 32 (MakeNID nidType index).
Proof.
  intros _ _. rewrite NID_Type_arith, NID_Index_arith, MakeNID_arith. unfold fits.
  pose proof (Z.mod_pos_bound nidType 32). pose proof (Z.mod_pos_bound index (2 ^ 27)).
  repeat split.
  - rewrite Z_mod_plus_full. by apply Z.mod_mod.
  - rewrite Z.div_add, Z.div_small by lia. done.
  - lia.
  - lia.
Qed.
Lemma MakeNID_fields_witness :
  NID_Type (MakeNID 2 9) = 2 mod 32 ∧ NID_Index (MakeNID 2 9) = 9 mod 2 ^ 27 ∧
  fits 32 (MakeNID 2 9).
Proof. apply (MakeNID_fields 2 9); unfold fits; lia. Defined.

(** A heap ID gives back the block index and the allocation index it was
    made from exactly when the allocation index is below 2047; above that the
    1-based index overflows its 11 bits into the block index. *)
Theorem MakeHeapID_roundtrip_iff blockIndex allocIndex :
  fits 16 blockIndex → fits 16 allocIndex →
  BlockIndex (MakeHeapID blockIndex allocIndex) = blockIndex ∧
  AllocIndex (MakeHeapID blockIndex allocIndex) = allocIndex ↔ allocIndex < 2047.
Proof.
  intros Hb [Ha1 Ha2]. split.
  - intros [_ H]. rewrite AllocIndex_arith in H.
    pose proof (Z.mod_pos_bound (MakeHeapID blockIndex allocIndex / 32) 2048).
    case_match; lia.
  - intros Hlt. rewrite AllocIndex_arith.
    assert (MakeHeapID blockIndex allocIndex = (allocIndex + 1) * 32 + blockIndex * 65536) as ->.
    { rewrite MakeHeapID_arith by (done || lia).
      rewrite Z.mod_small, Z.div_small, Z.lor_0_r by lia. done. }
    destruct Hb as [? ?]. rewrite BlockIndex_arith by (unfold fits; lia).
    replace (blockIndex * 65536) with (blockIndex * 2048 * 32) by lia.
    rewrite Z.div_add, Z.div_mul by lia.
    rewrite Z_mod_plus_full, Z.mod_small by lia.
    case_match eqn:E; [apply Z.eqb_eq in E; lia|]. split; [|lia].
    replace (blockIndex * 2048 * 32) with (blockIndex * 65536) by lia.
    rewrite Z.div_add, Z.div_small by lia. done.
Qed.
Lemma MakeHeapID_roundtrip_iff_witness :
  BlockIndex (MakeHeapID 3 2046) = 3 ∧ AllocIndex (MakeHeapID 3 2046) = 2046 ↔ 2046 < 2047.
Proof. apply (MakeHeapID_roundtrip_iff 3 2046); unfold fits; lia. Defined.

Lemma GUID_Bytes_app g :
  guid_wf g →
  GUID_Bytes g = Ok (le_enc 4 (Data1 g) ++ le_enc 2 (Data2 g) ++ le_enc 2 (Data3 g) ++ Data4 g).
Proof.
  intros (H1 & H2 & H3 & H4 & _). unfold GUID_Bytes. buf_write. f_equal.
  change (zeros GUIDSize) with (zeros 4 ++ zeros 2 ++ zeros 2 ++ zeros 8).
  buf_layout. done.
Qed.

(** Parsing the 16 bytes of a GUID gives the GUID back, both for
    [ParseGUID] and for [GUIDFromBytes], and [Equal] decides equality of the
    parsed value with the original. *)
Theorem guid_roundtrip g :
  guid_wf g →
  ∃ data, GUID_Bytes g = Ok data ∧ blen data = GUIDSize ∧
          ParseGUID data = Ok g ∧ GUIDFromBytes data = Ok g.
Proof.
  intros Hg. eexists. split; [by apply GUID_Bytes_app|].
  destruct Hg as (H1 & H2 & H3 & H4 & _).
  set (data := le_enc 4 _ ++ _). assert (blen data = 16) as Hl.
  { subst data. autorewrite with blen. lia. }
  unfold ParseGUID, GUIDFromBytes, GUIDSize. rewrite Hl. cbn -[read_guid].
  assert (read_guid data = Ok g); [|done].
  unfold read_guid. buf_parse. subst data.
  rewrite (sub_app_l (le_enc 4 _)) by blia.
  rewrite (sub_0_all (le_enc 4 _)), le_dec_enc by done.
  rewrite (sub_app_r (le_enc 4 _)) by blia. rewrite (sub_app_l (le_enc 2 _)) by blia.
  rewrite (sub_0_all (le_enc 2 (Data2 g))), le_dec_enc by done.
  rewrite !(sub_app_r (le_enc 4 _)), !(sub_app_r (le_enc 2 (Data2 g))) by blia.
  rewrite (sub_app_l (le_enc 2 (Data3 g))) by blia.
  rewrite (sub_0_all (le_enc 2 (Data3 g))), le_dec_enc by done.
  rewrite (sub_app_r (le_enc 2 (Data3 g))) by blia.
  rewrite (sub_0_all (Data4 g)) by (rewrite H4; done).
  unfold fits in *. rewrite !Z.mod_small by (cbn; lia). by destruct g.
Qed.
Lemma guid_roundtrip_witness :
  ∃ data, GUID_Bytes (mkGUID 131880 0 0 [192; 0; 0; 0; 0; 0; 0; 70]) = Ok data ∧
          blen data = GUIDSize ∧
          ParseGUID data = Ok (mkGUID 131880 0 0 [192; 0; 0; 0; 0; 0; 0; 70]) ∧
          GUIDFromBytes data = Ok (mkGUID 131880 0 0 [192; 0; 0; 0; 0; 0; 0; 70]).
Proof.
  apply (guid_roundtrip (mkGUID 131880 0 0 [192; 0; 0; 0; 0; 0; 0; 70])).
  unfold guid_wf, fits; cbn. repeat split; try lia. by repeat constructor.
Defined.
