(* ===== verification/Crypt.v ===== *)
(** * Block obfuscation, CRC and signature ([pkg/disk/crypt.go])

    The permutative and cyclic ciphers over the three 256-byte tables, the
    table-driven CRC of pages and blocks, and the page/block signature. *)
From S2P Require Import Prelude.

(** ** Tables *)
Definition table1 : bytes :=
  [65; 54; 19; 98; 168; 33; 110; 187; 244; 22; 204; 4; 127; 100; 232; 93;
   30; 242; 203; 42; 116; 197; 94; 53; 210; 149; 71; 158; 150; 45; 154; 136;
   76; 125; 132; 63; 219; 172; 49; 182; 72; 95; 246; 196; 216; 57; 139; 231;
   35; 59; 56; 142; 200; 193; 223; 37; 177; 32; 165; 70; 96; 78; 156; 251;
   170; 211; 86; 81; 69; 124; 85; 0; 7; 201; 43; 157; 133; 155; 9; 160;
   143; 173; 179; 15; 99; 171; 137; 75; 215; 167; 21; 90; 113; 102; 66; 191;
   38; 74; 107; 152; 250; 234; 119; 83; 178; 112; 5; 44; 253; 89; 58; 134;
   126; 206; 6; 235; 130; 120; 87; 199; 141; 67; 175; 180; 28; 212; 91; 205;
   226; 233; 39; 79; 195; 8; 114; 128; 207; 176; 239; 245; 40; 109; 190; 48;
   77; 52; 146; 213; 14; 60; 34; 50; 229; 228; 249; 159; 194; 209; 10; 129;
   18; 225; 238; 145; 131; 118; 227; 151; 230; 97; 138; 23; 121; 164; 183; 220;
   144; 122; 92; 140; 2; 166; 202; 105; 222; 80; 26; 17; 147; 185; 82; 135;
   88; 252; 237; 29; 55; 73; 27; 106; 224; 41; 51; 153; 189; 108; 217; 148;
   243; 64; 84; 111; 240; 198; 115; 184; 214; 62; 101; 24; 68; 31; 221; 103;
   16; 241; 12; 25; 236; 174; 3; 161; 20; 123; 169; 11; 255; 248; 163; 192;
   162; 1; 247; 46; 188; 36; 104; 117; 13; 254; 186; 47; 181; 208; 218; 61].

Definition table2 : bytes :=
  [20; 83; 15; 86; 179; 200; 122; 156; 235; 101; 72; 23; 22; 21; 159; 2;
   204; 84; 124; 131; 0; 13; 12; 11; 162; 98; 168; 118; 219; 217; 237; 199;
   197; 164; 220; 172; 133; 116; 214; 208; 167; 155; 174; 154; 150; 113; 102; 195;
   99; 153; 184; 221; 115; 146; 142; 132; 125; 165; 94; 209; 93; 147; 177; 87;
   81; 80; 107; 157; 196; 173; 85; 176; 51; 137; 171; 76; 50; 126; 152; 49;
   135; 104; 206; 73; 75; 78; 112; 48; 224; 108; 242; 103; 96; 97; 230; 47;
   45; 62; 46; 144; 143; 34; 160; 158; 70; 223; 183; 69; 222; 119; 41; 182;
   178; 4; 63; 60; 1; 192; 14; 185; 68; 9; 109; 129; 191; 77; 161; 166;
   111; 55; 189; 52; 186; 139; 210; 128; 106; 32; 38; 29; 16; 181; 57; 27;
   24; 91; 26; 120; 6; 148; 231; 210; 201; 44; 58; 180; 188; 53; 190; 239;
   145; 238; 40; 170; 130; 136; 95; 151; 65; 64; 67; 134; 92; 35; 105; 66;
   61; 37; 39; 138; 54; 100; 56; 17; 149; 117; 140; 88; 36; 141; 163; 121;
   205; 236; 169; 127; 89; 90; 82; 123; 79; 175; 114; 227; 213; 110; 194; 216;
   212; 69; 5; 232; 8; 18; 10; 43; 228; 33; 74; 7; 25; 215; 234; 203;
   240; 31; 28; 229; 193; 30; 218; 241; 247; 59; 226; 187; 42; 211; 248; 207;
   71; 246; 243; 202; 198; 3; 19; 244; 233; 249; 245; 255; 250; 251; 252; 254].

Definition table3 : bytes :=
  [71; 241; 180; 230; 11; 106; 114; 72; 133; 78; 158; 235; 226; 248; 148; 83;
   224; 187; 160; 2; 232; 90; 9; 171; 219; 227; 186; 198; 124; 195; 16; 221;
   57; 5; 150; 48; 245; 55; 96; 130; 140; 201; 19; 74; 107; 29; 243; 251;
   143; 38; 151; 202; 145; 23; 1; 196; 50; 45; 110; 49; 149; 255; 217; 35;
   209; 0; 94; 121; 220; 68; 59; 26; 40; 197; 97; 87; 32; 144; 61; 131;
   185; 67; 190; 103; 210; 70; 66; 118; 192; 109; 91; 126; 178; 15; 22; 41;
   60; 169; 3; 84; 13; 218; 93; 223; 246; 183; 199; 98; 205; 141; 6; 211;
   105; 92; 134; 214; 20; 247; 165; 102; 117; 172; 177; 233; 69; 33; 112; 12;
   135; 159; 116; 164; 34; 76; 111; 191; 31; 86; 170; 46; 179; 120; 51; 80;
   176; 163; 146; 188; 207; 25; 28; 167; 99; 203; 30; 77; 62; 75; 27; 155;
   79; 231; 240; 238; 173; 58; 181; 89; 4; 234; 64; 85; 37; 81; 229; 122;
   137; 56; 104; 82; 123; 252; 39; 174; 215; 189; 250; 7; 244; 204; 142; 95;
   239; 53; 156; 132; 43; 21; 213; 119; 52; 73; 182; 18; 10; 127; 113; 136;
   253; 157; 24; 65; 125; 147; 216; 88; 44; 206; 254; 36; 175; 222; 184; 54;
   200; 161; 128; 166; 153; 152; 168; 47; 14; 129; 101; 115; 228; 194; 162; 138;
   212; 225; 17; 208; 8; 139; 42; 242; 237; 154; 100; 63; 193; 108; 249; 236].

Definition crcTable : list Z :=
  [0x00000000; 0x77073096; 0xEE0E612C; 0x990951BA; 0x076DC419; 0x706AF48F; 0xE963A535; 0x9E6495A3;
   0x0EDB8832; 0x79DCB8A4; 0xE0D5E91E; 0x97D2D988; 0x09B64C2B; 0x7EB17CBD; 0xE7B82D07; 0x90BF1D91;
   0x1DB71064; 0x6AB020F2; 0xF3B97148; 0x84BE41DE; 0x1ADAD47D; 0x6DDDE4EB; 0xF4D4B551; 0x83D385C7;
   0x136C9856; 0x646BA8C0; 0xFD62F97A; 0x8A65C9EC; 0x14015C4F; 0x63066CD9; 0xFA0F3D63; 0x8D080DF5;
   0x3B6E20C8; 0x4C69105E; 0xD56041E4; 0xA2677172; 0x3C03E4D1; 0x4B04D447; 0xD20D85FD; 0xA50AB56B;
   0x35B5A8FA; 0x42B2986C; 0xDBBBAD6D; 0xACBCB4DA; 0x32D86CE3; 0x45DF5C75; 0xDCD60DCF; 0xABD13D59;
   0x26D930AC; 0x51DE003A; 0xC8D75180; 0xBFD06116; 0x21B4F4B5; 0x56B3C423; 0xCFBA9599; 0xB8BDA50F;
   0x2802B89E; 0x5F058808; 0xC60CD9B2; 0xB10BE924; 0x2F6F7C87; 0x58684C11; 0xC1611DAB; 0xB6662D3D;
   0x76DC4190; 0x01DB7106; 0x98D220BC; 0xEFD5102A; 0x71B18589; 0x06B6B51F; 0x9FBFE4A5; 0xE8B8D433;
   0x7807C9A2; 0x0F00F934; 0x9609A88E; 0xE10E9818; 0x7F6A0DBB; 0x086D3D2D; 0x91646C97; 0xE6635C01;
   0x6B6B51F4; 0x1C6C6162; 0x856530D8; 0xF262004E; 0x6C0695ED; 0x1B01A57B; 0x8208F4C1; 0xF50FC457;
   0x65B0D9C6; 0x12B7E950; 0x8BBEB8EA; 0xFCB9887C; 0x62DD1DDF; 0x15DA2D49; 0x8CD37CF3; 0xFBD44C65;
   0x4DB26158; 0x3AB551CE; 0xA3BC0074; 0xD4BB30E2; 0x4ADFA541; 0x3DD895D7; 0xA4D1C46D; 0xD3D6F4FB;
   0x4369E96A; 0x346ED9FC; 0xAD678846; 0xDA60B8D0; 0x44042D73; 0x33031DE5; 0xAA0A4C5F; 0xDD0D7CC9;
   0x5005713C; 0x270241AA; 0xBE0B1010; 0xC90C2086; 0x5768B525; 0x206F85B3; 0xB966D409; 0xCE61E49F;
   0x5EDEF90E; 0x29D9C998; 0xB0D09822; 0xC7D7A8B4; 0x59B33D17; 0x2EB40D81; 0xB7BD5C3B; 0xC0BA6CAD;
   0xEDB88320; 0x9ABFB3B6; 0x03B6E20C; 0x74B1D29A; 0xEAD54739; 0x9DD277AF; 0x04DB2615; 0x73DC1683;
   0xE3630B12; 0x94643B84; 0x0D6D6A3E; 0x7A6A5AA8; 0xE40ECF0B; 0x9309FF9D; 0x0A00AE27; 0x7D079EB1;
   0xF00F9344; 0x8708A3D2; 0x1E01F268; 0x6906C2FE; 0xF762575D; 0x806567CB; 0x196C3671; 0x6E6B06E7;
   0xFED41B76; 0x89D32BE0; 0x10DA7A5A; 0x67DD4ACC; 0xF9B9DF6F; 0x8EBEEFF9; 0x17B7BE43; 0x60B08ED5;
   0xD6D6A3E8; 0xA1D1937E; 0x38D8C2C4; 0x4FDFF252; 0xD1BB67F1; 0xA6BC5767; 0x3FB506DD; 0x48B2364B;
   0xD80D2BDA; 0xAF0A1B4C; 0x36034AF6; 0x41047A60; 0xDF60EFC3; 0xA867DF55; 0x316E8EEF; 0x4669BE79;
   0xCB61B38C; 0xBC66831A; 0x256FD2A0; 0x5268E236; 0xCC0C7795; 0xBB0B4703; 0x220216B9; 0x5505262F;
   0xC5BA3BBE; 0xB2BD0B28; 0x2BB45A92; 0x5CB36A04; 0xC2D7FFA7; 0xB5D0CF31; 0x2CD99E8B; 0x5BDEAE1D;
   0x9B64C2B0; 0xEC63F226; 0x756AA39C; 0x026D930A; 0x9C0906A9; 0xEB0E363F; 0x72076785; 0x05005713;
   0x95BF4A82; 0xE2B87A14; 0x7BB12BAE; 0x0CB61B38; 0x92D28E9B; 0xE5D5BE0D; 0x7CDCEFB7; 0x0BDBDF21;
   0x86D3D2D4; 0xF1D4E242; 0x68DDB3F8; 0x1FDA836E; 0x81BE16CD; 0xF6B9265B; 0x6FB077E1; 0x18B74777;
   0x88085AE6; 0xFF0F6A70; 0x66063BCA; 0x11010B5C; 0x8F659EFF; 0xF862AE69; 0x616BFFD3; 0x166CCF45;
   0xA00AE278; 0xD70DD2EE; 0x4E048354; 0x3903B3C2; 0xA7672661; 0xD06016F7; 0x4969474D; 0x3E6E77DB;
   0xAED16A4A; 0xD9D65ADC; 0x40DF0B66; 0x37D83BF0; 0xA9BCAE53; 0xDEBBB4D5; 0x47B2CF7F; 0x30B5FFE9;
   0xBDBDF21C; 0xCABAC28A; 0x53B39330; 0x24B4A3A6; 0xBAD03605; 0xCDD70693; 0x54DE5729; 0x23D967BF;
   0xB3667A2E; 0xC4614AB8; 0x5D681B02; 0x2A6F2B94; 0xB40BBE37; 0xC30C8EA1; 0x5A05DF1B; 0x2D02EF8D].

(** Indexing a [256]-entry array by a byte never panics in Go. *)
Definition at256 (t : list Z) (b : Z) : Z := default 0 (t !! Z.to_nat b).

(** [for i, b := range data { data[i] = f(b) }], where the loop also carries
    the state [s] (the cyclic key word). *)
Fixpoint range_update {St} (step : St → Z → Z * St) (n i : nat) (s : St) (data : bytes) : bytes :=
  match n with
  | O => data
  | S n' =>
      let b := default 0 (data !! i) in
      let '(b', s') := step s b in
      range_update step n' (S i) s' (<[i := b']> data)
  end.

(** ** Ciphers *)
Definition PermuteEncode (data : bytes) : bytes := map (at256 table1) data.
Definition PermuteDecode (data : bytes) : bytes := map (at256 table3) data.
Definition PermuteDecodeInPlace (data : bytes) : bytes :=
  range_update (λ (_ : unit) b, (at256 table3 b, tt)) (length data) 0 tt data.

(** The body of the three cyclic loops, for the key word [w]. *)
Definition cyclic_byte (w b : Z) : Z :=
  let b := u8 (b + u8 w) in
  let b := at256 table1 b in
  let b := u8 (b + u8 (Z.shiftr w 8)) in
  let b := at256 table2 b in
  let b := u8 (b - u8 (Z.shiftr w 8)) in
  let b := at256 table3 b in
  u8 (b - u8 w).

Fixpoint cyclic_loop (w : Z) (data : bytes) : bytes :=
  match data with
  | [] => []
  | b :: r => cyclic_byte w b :: cyclic_loop (u16 (w + 1)) r
  end.

(** [w := uint16(key ^ (key >> 16))] *)
Definition cyclic_key (key : Z) : Z := u16 (Z.lxor key (Z.shiftr key 16)).

Definition CyclicEncode (data : bytes) (key : Z) : bytes := cyclic_loop (cyclic_key key) data.
Definition CyclicDecode (data : bytes) (key : Z) : bytes := cyclic_loop (cyclic_key key) data.
Definition CyclicDecodeInPlace (data : bytes) (key : Z) : bytes :=
  range_update (λ w b, (cyclic_byte w b, u16 (w + 1))) (length data) 0 (cyclic_key key) data.

Definition CryptMethodNone : Z := 0.
Definition CryptMethodPermute : Z := 1.
Definition CryptMethodCyclic : Z := 2.

Definition DecryptBlock (data : bytes) (method blockID : Z) : bytes :=
  if method =? CryptMethodNone then data
  else if method =? CryptMethodPermute then PermuteDecode data
  else if method =? CryptMethodCyclic then CyclicDecode data (u32 blockID)
  else data.

Definition DecryptBlockInPlace (data : bytes) (method blockID : Z) : bytes :=
  if method =? CryptMethodNone then data
  else if method =? CryptMethodPermute then PermuteDecodeInPlace data
  else if method =? CryptMethodCyclic then CyclicDecodeInPlace data (u32 blockID)
  else data.

(** [EncryptBlock] of [block_write.go]. *)
Definition EncryptBlock (data : bytes) (method blockID : Z) : bytes :=
  if method =? CryptMethodNone then data
  else if method =? CryptMethodPermute then PermuteEncode data
  else if method =? CryptMethodCyclic then CyclicEncode data (u32 blockID)
  else data.

(** ** CRC and signature *)
Definition crc_step (crc b : Z) : Z :=
  Z.lxor (at256 crcTable (Z.lxor (u8 crc) b)) (Z.shiftr crc 8).
Fixpoint crc_loop (crc : Z) (data : bytes) : Z :=
  match data with [] => crc | b :: r => crc_loop (crc_step crc b) r end.
Definition ComputeCRC (data : bytes) : Z := crc_loop 0 data.

Definition ComputeSignature (id address : Z) : Z :=
  let value := Z.lxor address id in
  Z.lxor (u16 (Z.shiftr value 16)) (u16 value).

(** ** The tables *)
Lemma at256_byte t b :
  forallb (λ x, bool_decide (is_byte x)) t = true → is_byte (at256 t b).
Proof.
  intros Ht. unfold at256. destruct (t !! Z.to_nat b) as [x|] eqn:E; cbn; [|unfold is_byte; lia].
  rewrite forallb_forall in Ht. apply list_elem_of_lookup_2, list_elem_of_In, Ht in E.
  by apply bool_decide_eq_true in E.
Qed.
Lemma table1_byte b : is_byte (at256 table1 b).
Proof. by apply at256_byte; vm_compute. Qed.
Lemma table2_byte b : is_byte (at256 table2 b).
Proof. by apply at256_byte; vm_compute. Qed.
Lemma table3_byte b : is_byte (at256 table3 b).
Proof. by apply at256_byte; vm_compute. Qed.
#[export] Hint Resolve table1_byte table2_byte table3_byte : pst.

Lemma table31 b : is_byte b → at256 table3 (at256 table1 b) = b.
Proof.
  intros Hb. apply Z.eqb_eq.
  by apply (byte_forall (λ b, at256 table3 (at256 table1 b) =? b)); [vm_compute|].
Qed.
Lemma table13 b : is_byte b → at256 table1 (at256 table3 b) = b.
Proof.
  intros Hb. apply Z.eqb_eq.
  by apply (byte_forall (λ b, at256 table1 (at256 table3 b) =? b)); [vm_compute|].
Qed.

(** ** Loops that rewrite a buffer in place *)
Lemma range_update_app {St} (step : St → Z → Z * St) (f : St → bytes → bytes) :
  (∀ s, f s [] = []) →
  (∀ s b r, f s (b :: r) = (step s b).1 :: f (step s b).2 r) →
  ∀ data pre s, range_update step (length data) (length pre) s (pre ++ data) = pre ++ f s data.
Proof.
  intros Hnil Hcons. induction data as [|b r IH]; intros pre s; cbn [length range_update].
  { by rewrite Hnil. }
  rewrite list_lookup_middle by done. change (default 0 (Some b)) with b.
  rewrite Hcons. destruct (step s b) as [b' s']. cbn [fst snd].
  assert (<[length pre:=b']> (pre ++ b :: r : list Z) = (pre ++ [b']) ++ r) as ->.
  { rewrite <- app_assoc. cbn. rewrite <- (Nat.add_0_r (length pre)). by rewrite insert_app_r. }
  replace (S (length pre)) with (length (pre ++ [b'])) by (rewrite length_app; cbn; lia).
  rewrite IH. by rewrite <- app_assoc.
Qed.

Lemma PermuteDecodeInPlace_eq data : PermuteDecodeInPlace data = PermuteDecode data.
Proof.
  exact (range_update_app (λ (_ : unit) b, (at256 table3 b, tt)) (λ _, map (at256 table3))
           (λ _, eq_refl) (λ _ _ _, eq_refl) data [] tt).
Qed.
Lemma CyclicDecodeInPlace_eq data key : CyclicDecodeInPlace data key = CyclicDecode data key.
Proof.
  exact (range_update_app (λ w b, (cyclic_byte w b, u16 (w + 1))) cyclic_loop
           (λ _, eq_refl) (λ _ _ _, eq_refl) data [] (cyclic_key key)).
Qed.

(** ** The permutative cipher *)
Lemma PermuteDecode_Encode data : bytes_ok data → PermuteDecode (PermuteEncode data) = data.
Proof.
  intros H. unfold PermuteDecode, PermuteEncode. rewrite map_map.
  induction H as [|b r Hb Hr IH]; cbn; [done|]. by rewrite table31, IH.
Qed.
Lemma bytes_ok_map (f : Z → Z) (data : bytes) : (∀ b, is_byte (f b)) → bytes_ok (map f data).
Proof. intros H. induction data; cbn; constructor; auto. Qed.
Lemma blen_cyclic_loop w data : blen (cyclic_loop w data) = blen data.
Proof.
  revert w. induction data as [|b r IH]; intros w; cbn; [done|].
  by rewrite !blen_cons, IH.
Qed.
Lemma bytes_ok_cyclic w data : bytes_ok (cyclic_loop w data).
Proof.
  revert w. induction data as [|b r IH]; intros w; cbn; constructor; auto.
  unfold cyclic_byte. apply u8_range.
Qed.

(** ** The cyclic cipher *)

(** Byte that the loop feeds to [table2] for key word [w] and input [b]. *)
Definition cyclic_mid (w b : Z) : Z :=
  u8 (at256 table1 (u8 (b + u8 w)) + u8 (Z.shiftr w 8)).

(** [table2] undoes itself on [x]. *)
Definition table2_invol (x : Z) : bool := at256 table2 (at256 table2 x) =? x.

Lemma cyclic_byte_twice w b :
  is_byte b →
  cyclic_byte w (cyclic_byte w b)
  = u8 (at256 table3 (u8 (at256 table2 (at256 table2 (cyclic_mid w b)) - u8 (Z.shiftr w 8))) - u8 w).
Proof.
  intros Hb. unfold cyclic_byte at 1. cbv zeta.
  assert (∀ x y, is_byte x → u8 (u8 (x - y) + y) = x) as Hback.
  { intros x y Hx. unfold u8. rewrite Zplus_mod_idemp_l, Z.sub_add. by apply u8_small. }
  assert (u8 (cyclic_byte w b + u8 w)
          = at256 table3 (u8 (at256 table2 (cyclic_mid w b) - u8 (Z.shiftr w 8)))) as ->.
  { unfold cyclic_byte. cbv zeta. apply Hback. auto with pst. }
  rewrite table13 by apply u8_range. rewrite Hback by auto with pst. done.
Qed.

Lemma u8_sub_inj a b c : is_byte a → is_byte b → u8 (a - c) = u8 (b - c) → a = b.
Proof.
  unfold is_byte, u8. intros Ha Hb H.
  apply (f_equal (λ x, (x + c) mod 256)) in H. rewrite !Zplus_mod_idemp_l, !Z.sub_add in H.
  by rewrite !Z.mod_small in H by lia.
Qed.
Lemma u8_add_sub a c : is_byte a → u8 (u8 (a + c) - c) = a.
Proof.
  intros. unfold u8. rewrite Zminus_mod_idemp_l. rewrite Z.add_simpl_r. by apply u8_small.
Qed.
Lemma table3_inj a b : is_byte a → is_byte b → at256 table3 a = at256 table3 b → a = b.
Proof. intros Ha Hb H. rewrite <- (table13 a), <- (table13 b) by done. by rewrite H. Qed.

Lemma cyclic_byte_id w b :
  is_byte b → cyclic_byte w (cyclic_byte w b) = b ↔ table2_invol (cyclic_mid w b) = true.
Proof.
  intros Hb. rewrite cyclic_byte_twice by done. unfold table2_invol. rewrite Z.eqb_eq.
  assert (b = u8 (at256 table3 (u8 (cyclic_mid w b - u8 (Z.shiftr w 8))) - u8 w)) as Hid.
  { unfold cyclic_mid. rewrite u8_add_sub by auto with pst.
    rewrite table31 by apply u8_range. by rewrite u8_add_sub. }
  assert (is_byte (cyclic_mid w b)) as Hm by apply u8_range.
  split; [|intros ->; done].
  intros H. rewrite Hid in H at 2.
  apply u8_sub_inj, table3_inj, u8_sub_inj in H; auto with pst.
Qed.

(** ** The CRC *)

(** The reflected CRC-32 of the format, one bit at a time. *)
Definition crc_bit (c : Z) : Z :=
  if Z.testbit c 0 then Z.lxor (Z.shiftr c 1) 0xEDB88320 else Z.shiftr c 1.
Definition crc_entry (i : Z) : Z := Nat.iter 8 crc_bit i.

Definition table_word (t : list Z) : bool :=
  forallb (λ x, bool_decide (fits 32 x)) t && bool_decide (NoDup (map (λ x, Z.shiftr x 24) t))
  && bool_decide (length t = 256%nat).

Lemma at256_fits t i : table_word t = true → is_byte i → fits 32 (at256 t i).
Proof.
  intros Ht Hi. unfold table_word in Ht. apply andb_prop in Ht as [[Ha Hb]%andb_prop Hl].
  apply bool_decide_eq_true in Hl. unfold is_byte in Hi.
  destruct (lookup_lt_is_Some_2 t (Z.to_nat i)) as [x Hx]; [lia|].
  unfold at256. rewrite Hx. cbn. rewrite forallb_forall in Ha.
  apply (bool_decide_eq_true _), Ha, list_elem_of_In. by eapply list_elem_of_lookup_2.
Qed.
Lemma at256_top_inj t i j :
  table_word t = true → is_byte i → is_byte j →
  Z.shiftr (at256 t i) 24 = Z.shiftr (at256 t j) 24 → i = j.
Proof.
  intros Ht Hi Hj. unfold table_word in Ht. apply andb_prop in Ht as [[_ Hb]%andb_prop Hl].
  apply bool_decide_eq_true in Hl, Hb. unfold is_byte in *.
  destruct (lookup_lt_is_Some_2 t (Z.to_nat i)) as [x Hx]; [lia|].
  destruct (lookup_lt_is_Some_2 t (Z.to_nat j)) as [y Hy]; [lia|].
  unfold at256. rewrite Hx, Hy. cbn [default from_option]. unfold id. intros Heq.
  rewrite NoDup_alt in Hb. specialize (Hb (Z.to_nat i) (Z.to_nat j) (Z.shiftr x 24)).
  rewrite !list_lookup_fmap, Hx, Hy in Hb. cbn in Hb. rewrite Heq in Hb.
  specialize (Hb eq_refl eq_refl). lia.
Qed.

(** A step of a table-driven CRC, for any table; [Rtf] runs it on its own. *)
Section table_crc.
Context (t : list Z) (Ht : table_word t = true).

Definition tcrc_step (crc b : Z) : Z :=
  Z.lxor (at256 t (Z.lxor (u8 crc) b)) (Z.shiftr crc 8).
Fixpoint tcrc_loop (crc : Z) (data : bytes) : Z :=
  match data with [] => crc | b :: r => tcrc_loop (tcrc_step crc b) r end.

Lemma tcrc_index_byte crc b : is_byte b → is_byte (Z.lxor (u8 crc) b).
Proof. intros. apply (fits_lxor 8); [lia|apply u8_range|done]. Qed.
Lemma tcrc_step_fits crc b : fits 32 crc → is_byte b → fits 32 (tcrc_step crc b).
Proof.
  intros. apply fits_lxor; [lia| |apply fits_shiftr; [lia|done]].
  by apply at256_fits, tcrc_index_byte.
Qed.
Lemma tcrc_loop_fits data : ∀ crc, fits 32 crc → bytes_ok data → fits 32 (tcrc_loop crc data).
Proof.
  induction data as [|b r IH]; intros crc Hc Hd; cbn [tcrc_loop]; [done|].
  apply Forall_cons in Hd as [? ?]. by apply IH; [apply tcrc_step_fits|].
Qed.

(** The top byte of the new CRC is the top byte of the table entry used. *)
Lemma tcrc_step_top crc b :
  fits 32 crc → Z.shiftr (tcrc_step crc b) 24 = Z.shiftr (at256 t (Z.lxor (u8 crc) b)) 24.
Proof.
  intros [? ?]. unfold tcrc_step. rewrite Z.shiftr_lxor, Z.shiftr_shiftr by lia.
  replace (Z.shiftr crc (8 + 24)) with 0; [by rewrite Z.lxor_0_r|].
  rewrite Z.shiftr_div_pow2, Z.div_small by lia. done.
Qed.
Lemma tcrc_step_inj crc crc' b b' :
  fits 32 crc → fits 32 crc' → is_byte b → is_byte b' →
  tcrc_step crc b = tcrc_step crc' b' →
  Z.lxor (u8 crc) b = Z.lxor (u8 crc') b' ∧ Z.shiftr crc 8 = Z.shiftr crc' 8.
Proof.
  intros Hc Hc' Hb Hb' E. pose proof (f_equal (λ x, Z.shiftr x 24) E) as E'.
  cbv beta in E'. rewrite !tcrc_step_top in E' by done.
  apply at256_top_inj in E'; [|done|by apply tcrc_index_byte..]. split; [done|].
  unfold tcrc_step in E. rewrite E' in E.
  apply (f_equal (Z.lxor (at256 t (Z.lxor (u8 crc') b')))) in E.
  by rewrite <- !Z.lxor_assoc, Z.lxor_nilpotent, !Z.lxor_0_l in E.
Qed.
Lemma tcrc_loop_inj data : ∀ crc crc',
  fits 32 crc → fits 32 crc' → bytes_ok data →
  tcrc_loop crc data = tcrc_loop crc' data → crc = crc'.
Proof.
  induction data as [|b r IH]; intros crc crc' Hc Hc' Hd; cbn [tcrc_loop]; [done|].
  apply Forall_cons in Hd as [Hb Hr]. intros E.
  apply IH in E; [|by apply tcrc_step_fits|by apply tcrc_step_fits|done].
  apply tcrc_step_inj in E as [E1 E2]; [|done..].
  apply (f_equal (λ x, Z.lxor x b)) in E1.
  rewrite !Z.lxor_assoc, Z.lxor_nilpotent, !Z.lxor_0_r in E1. unfold u8 in E1.
  rewrite !Z.shiftr_div_pow2 in E2 by lia.
  rewrite (Z.div_mod crc 256), (Z.div_mod crc' 256) by lia.
  change (2 ^ 8) with 256 in E2. lia.
Qed.
Lemma tcrc_loop_app l k crc : tcrc_loop crc (l ++ k) = tcrc_loop (tcrc_loop crc l) k.
Proof. revert crc. induction l; intros; cbn; auto. Qed.
Lemma tcrc_detects pre suf b b' crc :
  fits 32 crc → bytes_ok pre → bytes_ok suf → is_byte b → is_byte b' → b ≠ b' →
  tcrc_loop crc (pre ++ b :: suf) ≠ tcrc_loop crc (pre ++ b' :: suf).
Proof.
  intros Hc Hp Hs Hb Hb' Hne E. rewrite !tcrc_loop_app in E. cbn [tcrc_loop] in E.
  pose proof (tcrc_loop_fits pre crc Hc Hp).
  apply tcrc_loop_inj in E; [|by apply tcrc_step_fits|by apply tcrc_step_fits|done].
  apply tcrc_step_inj in E as [E _]; [|done..]. apply Hne.
  apply (f_equal (Z.lxor (u8 (tcrc_loop crc pre)))) in E.
  by rewrite <- !Z.lxor_assoc, Z.lxor_nilpotent, !Z.lxor_0_l in E.
Qed.
End table_crc.

Lemma crcTable_word : table_word crcTable = true.
Proof. by vm_compute. Qed.
Lemma ComputeCRC_tcrc data : ComputeCRC data = tcrc_loop crcTable 0 data.
Proof.
  unfold ComputeCRC. generalize 0. induction data as [|b r IH]; intros c; [done|apply IH].
Qed.
Lemma ComputeCRC_fits data : bytes_ok data → fits 32 (ComputeCRC data).
Proof.
  intros. rewrite ComputeCRC_tcrc. apply tcrc_loop_fits; [apply crcTable_word| |done].
  unfold fits. lia.
Qed.
Lemma ComputeCRC_detects_one_byte pre suf b b' :
  bytes_ok pre → bytes_ok suf → is_byte b → is_byte b' → b ≠ b' →
  ComputeCRC (pre ++ b :: suf) ≠ ComputeCRC (pre ++ b' :: suf).
Proof.
  intros. rewrite !ComputeCRC_tcrc. apply tcrc_detects; [apply crcTable_word| |done..].
  unfold fits; lia.
Qed.
Lemma ComputeCRC_insert data i b :
  bytes_ok data → is_byte b → (i < length data)%nat → data !! i ≠ Some b →
  ComputeCRC data ≠ ComputeCRC (<[i := b]> data).
Proof.
  intros Hd Hb Hi Hne Heq. destruct (lookup_lt_is_Some_2 data i Hi) as [x Hx].
  rewrite insert_take_drop in Heq by done.
  rewrite <- (take_drop_middle data i x Hx) in Heq at 1.
  revert Heq. apply ComputeCRC_detects_one_byte;
    [by apply Forall_take|by apply Forall_drop| |done|congruence].
  rewrite Forall_lookup in Hd. by eapply Hd.
Qed.
Lemma ComputeSignature_range id address : 0 ≤ ComputeSignature id address < 65536.
Proof. apply (fits_lxor 16); [lia|apply u16_range|apply u16_range]. Qed.

(** ** Properties *)

(** Decrypting what [EncryptBlock] produced gives the plain bytes back for
    every method byte except the cyclic one, and the in-place variant computes
    the same bytes as the allocating one for every method. *)
Theorem decrypt_inverts_encrypt data method blockID :
  bytes_ok data → method ≠ CryptMethodCyclic →
  DecryptBlock (EncryptBlock data method blockID) method blockID = data ∧
  DecryptBlockInPlace (EncryptBlock data method blockID) method blockID = data.
Proof.
  intros Hd Hm. unfold DecryptBlock, DecryptBlockInPlace, EncryptBlock.
  rewrite PermuteDecodeInPlace_eq, CyclicDecodeInPlace_eq.
  destruct (method =? CryptMethodNone); [done|].
  destruct (method =? CryptMethodPermute); [by rewrite PermuteDecode_Encode|].
  destruct (Z.eqb_spec method CryptMethodCyclic); done.
Qed.
Lemma decrypt_inverts_encrypt_witness :
  DecryptBlock (EncryptBlock [0; 17; 255] 1 4) 1 4 = [0; 17; 255] ∧
  DecryptBlockInPlace (EncryptBlock [0; 17; 255] 1 4) 1 4 = [0; 17; 255].
Proof.
  apply (decrypt_inverts_encrypt [0; 17; 255] 1 4).
  - by repeat constructor.
  - done.
Defined.

Lemma cyclic_loop_id w data :
  0 ≤ w < 65536 → bytes_ok data →
  cyclic_loop w (cyclic_loop w data) = data ↔
  ∀ i b, data !! i = Some b →
         table2_invol (cyclic_mid (u16 (w + Z.of_nat i)) b) = true.
Proof.
  revert w. induction data as [|b r IH]; intros w Hw Hd; cbn [cyclic_loop].
  { split; [|done]. intros _ i b Hi. done. }
  apply Forall_cons in Hd as [Hb Hr].
  assert (∀ i, u16 (w + Z.of_nat (S i)) = u16 (u16 (w + 1) + Z.of_nat i)) as Hs.
  { intros i. unfold u16. rewrite Zplus_mod_idemp_l. f_equal. lia. }
  specialize (IH (u16 (w + 1)) (u16_range _) Hr). split.
  - intros [= Hbyte Hrest]. apply cyclic_byte_id in Hbyte; [|done].
    intros [|i] b' Hi.
    + cbn in Hi. injection Hi as <-. by rewrite Z.add_0_r, u16_small.
    + rewrite Hs. by apply (proj1 IH Hrest).
  - intros H. f_equal.
    + apply cyclic_byte_id; [done|]. specialize (H 0%nat b eq_refl).
      by rewrite Z.add_0_r, u16_small in H.
    + apply IH. intros i b' Hi. rewrite <- Hs. by apply H.
Qed.

(** [CyclicDecode] recovers the plain bytes exactly when, at every
    position, [table2] undoes itself on the byte the loop looks up there; only
    11 of the 256 byte values have that property. *)
Theorem cyclic_roundtrip_iff data key :
  bytes_ok data →
  (CyclicDecode (CyclicEncode data key) key = data ↔
   ∀ i b, data !! i = Some b →
          table2_invol (cyclic_mid (u16 (cyclic_key key + Z.of_nat i)) b) = true) ∧
  List.filter table2_invol all_bytes = [0; 2; 11; 12; 13; 15; 20; 21; 22; 23; 249].
Proof.
  intros Hd. split; [|by vm_compute]. apply cyclic_loop_id; [apply u16_range|done].
Qed.
Lemma cyclic_roundtrip_iff_witness :
  CyclicDecode (CyclicEncode [67; 0] 0) 0 = [67; 0] ↔
  ∀ i b, [67; 0] !! i = Some b →
         table2_invol (cyclic_mid (u16 (cyclic_key 0 + Z.of_nat i)) b) = true.
Proof. apply (cyclic_roundtrip_iff [67; 0] 0). by repeat constructor. Defined.

(** Changing any single byte of a buffer changes its [ComputeCRC], which is
    a 32-bit word. *)
Theorem crc_detects_single_byte pre suf b b' :
  bytes_ok pre → bytes_ok suf → is_byte b → is_byte b' → b ≠ b' →
  ComputeCRC (pre ++ b :: suf) ≠ ComputeCRC (pre ++ b' :: suf) ∧
  fits 32 (ComputeCRC (pre ++ b :: suf)).
Proof.
  intros. split; [by apply ComputeCRC_detects_one_byte|].
  apply ComputeCRC_fits. apply Forall_app. auto.
Qed.
Lemma crc_detects_single_byte_witness :
  ComputeCRC ([1; 2] ++ 3 :: [4]) ≠ ComputeCRC ([1; 2] ++ 7 :: [4]) ∧
  fits 32 (ComputeCRC ([1; 2] ++ 3 :: [4])).
Proof.
  apply (crc_detects_single_byte [1; 2] [4] 3 7); try (by repeat constructor); done.
Defined.

(** The CRC table of [pkg/disk] is the table of the reflected polynomial
    0xEDB88320 at every index except 42, 43 and 237. *)
Theorem crcTable_wrong_entries i :
  is_byte i → at256 crcTable i = crc_entry i ↔ i ∉ [42; 43; 237].
Proof.
  intros Hi.
  pose proof (byte_forall
    (λ i, Bool.eqb (at256 crcTable i =? crc_entry i) (bool_decide (i ∉ [42; 43; 237])))
    ltac:(by vm_compute) i Hi) as H; cbv beta in H.
  apply Bool.eqb_prop in H. rewrite <- Z.eqb_eq, H. apply bool_decide_eq_true.
Qed.
Lemma crcTable_wrong_entries_witness :
  at256 crcTable 42 = crc_entry 42 ↔ 42 ∉ [42; 43; 237].
Proof. apply (crcTable_wrong_entries 42). unfold is_byte; lia. Defined.
