(* ===== verification/Codec.v ===== *)
(** * Fixed-size entry codecs

    The pages and blocks of both layers are arrays of fixed-size entries.  The
    class [EntryCodec] states what an entry codec promises to the code that
    lays arrays out and reads them back; [Page] and [Block] instantiate it. *)
From S2P Require Import Prelude Format.

(** A format the readers and writers agree on. *)
Definition known (format : PSTFormat) : Prop := format ≠ FormatUnknown.

(** Width in bits of the IDs and offsets that a format stores. *)
Definition id_width (format : PSTFormat) : Z := if is_Unicode format then 64 else 32.

(** Rest of an entry window that the writers leave zero: they size the window
    for Unicode unless the format is ANSI, and fill in 32-bit fields unless it
    is Unicode. *)
Definition unused_pad (format : PSTFormat) (n : Z) : bytes := zeros (if is_ANSI format then 0 else n).

(** [for i := 0; i < n; i++ { entries[i] = f(base + i*entrySize) }], where [off]
    starts at [base]. *)
Fixpoint parse_entries {A} (f : Z → result A) (n : nat) (off entrySize : Z) : result (list A) :=
  match n with
  | O => mret []
  | S n => e ← f off; r ← parse_entries f n (off + entrySize) entrySize; mret (e :: r)
  end.

Class EntryCodec (A : Type) := {
  ec_enc : PSTFormat → A → bytes;
  ec_dec : bytes → PSTFormat → Z → result A;
  ec_size : PSTFormat → Z;
  ec_wf : PSTFormat → A → Prop;
  ec_size_pos f : 0 < ec_size f;
  ec_enc_len f e : known f → blen (ec_enc f e) = ec_size f;
  ec_dec_enc f e data off :
    known f → ec_wf f e → 0 ≤ off → off + ec_size f ≤ blen data →
    sub data off (ec_size f) = ec_enc f e → ec_dec data f off = Ok e;
}.

Section codec.
Context `{EntryCodec A} (f : PSTFormat) (Hf : known f).

Lemma blen_enc_entries (es : list A) :
  blen (concat (map (ec_enc f) es)) = blen es * ec_size f.
Proof.
  induction es as [|e es IH]; cbn [map concat]; [done|].
  rewrite blen_app, blen_cons, ec_enc_len, IH by done. lia.
Qed.

Lemma parse_entries_enc (es : list A) data : ∀ off,
  Forall (ec_wf f) es → 0 ≤ off → off + blen es * ec_size f ≤ blen data →
  sub data off (blen es * ec_size f) = concat (map (ec_enc f) es) →
  parse_entries (ec_dec data f) (length es) off (ec_size f) = Ok es.
Proof.
  induction es as [|e es IH]; intros off Hwf Hoff Hlen Hsub; cbn [length parse_entries]; [done|].
  apply Forall_cons in Hwf as [He Hes]. rewrite blen_cons in *.
  pose proof (ec_size_pos f). pose proof (blen_nonneg es).
  cbn [map concat] in Hsub. pose proof (ec_enc_len f e Hf) as Hl.
  assert (sub data off (ec_size f) = ec_enc f e) as He1.
  { apply (f_equal (λ l, sub l 0 (ec_size f))) in Hsub.
    rewrite sub_sub, sub_app_l, sub_0_all, Z.add_0_r in Hsub by nia. done. }
  assert (sub data (off + ec_size f) (blen es * ec_size f) = concat (map (ec_enc f) es)) as He2.
  { apply (f_equal (λ l, sub l (ec_size f) (blen es * ec_size f))) in Hsub.
    rewrite sub_sub, sub_app_r in Hsub by nia. rewrite Hsub.
    apply sub_all; [lia|]. by rewrite blen_enc_entries. }
  rewrite (ec_dec_enc f e), bind_Ok by (done || nia).
  rewrite IH by (done || nia). done.
Qed.
End codec.

(** The array parser on a buffer of length [len]: it succeeds when the array is
    inside, and panics when it is not. *)
Lemma parse_entries_total {A} (f : Z → result A) len sz n : ∀ off,
  0 < sz → 0 ≤ off →
  (∀ o, 0 ≤ o → o + sz ≤ len → ∃ a, f o = Ok a) →
  off + Z.of_nat n * sz ≤ len → ∃ es, parse_entries f n off sz = Ok es.
Proof.
  induction n as [|n IH]; intros off Hsz Hoff Hf Hl; cbn [parse_entries]; [by eexists|].
  destruct (Hf off) as [a ->]; [lia|nia|]. rewrite bind_Ok.
  destruct (IH (off + sz)) as [es ->]; [lia|lia|done|nia|]. by eexists.
Qed.
Lemma parse_entries_panic {A} (f : Z → result A) len sz n : ∀ off,
  0 < sz → 0 ≤ off → off ≤ len →
  (∀ o, 0 ≤ o → o + sz ≤ len → ∃ a, f o = Ok a) →
  (∀ o, 0 ≤ o → len < o + sz → f o = Panic) →
  len < off + Z.of_nat n * sz → parse_entries f n off sz = Panic.
Proof.
  induction n as [|n IH]; intros off Hsz Hoff Hle Hf Hp Hl; cbn [parse_entries]; [lia|].
  destruct (decide (off + sz ≤ len)) as [Hin|Hout].
  - destruct (Hf off) as [a ->]; [lia|done|]. rewrite bind_Ok.
    rewrite IH; [done|lia|lia|lia|done|done|nia].
  - by rewrite Hp by lia.
Qed.

(** Arrays of little-endian integers of [k] bytes. *)
Lemma blen_array k l : blen (concat (map (le_enc k) l)) = Z.of_nat k * blen l.
Proof. induction l as [|v l IH]; cbn [map concat]; [rewrite blen_nil; lia|]. rewrite blen_app, blen_cons, IH, blen_le_enc. lia. Qed.
Lemma parse_array_map {A} (g : Z → A) k data l : ∀ off,
  0 ≤ off → off + Z.of_nat k * blen l ≤ blen data → sub data off (Z.of_nat k * blen l) = concat (map (le_enc k) l) →
  Forall (fits (8 * Z.of_nat k)) l → parse_entries (λ o, g <$> rd k o data) (length l) off (Z.of_nat k) = Ok (map g l).
Proof.
  induction l as [|v l IH]; intros off Hoff Hlen Hsub Hf; [done|]. rewrite blen_cons in *.
  apply Forall_cons in Hf as [Hv Hf]. pose proof (blen_nonneg l). cbn [length parse_entries]. cbn [map concat] in Hsub.
  assert (sub data off (Z.of_nat k) = le_enc k v) as E1.
  { apply (f_equal (λ b, sub b 0 (Z.of_nat k))) in Hsub. rewrite sub_sub, Z.add_0_r in Hsub by lia.
    rewrite Hsub. rewrite sub_app_l by (rewrite ?blen_le_enc; lia). apply sub_0_all. by rewrite blen_le_enc. }
  assert (sub data (off + Z.of_nat k) (Z.of_nat k * blen l) = concat (map (le_enc k) l)) as E2.
  { apply (f_equal (λ b, sub b (Z.of_nat k) (Z.of_nat k * blen l))) in Hsub. rewrite sub_sub in Hsub by lia.
    rewrite Hsub. rewrite sub_app_r by (rewrite ?blen_le_enc; lia). apply sub_all; rewrite ?blen_le_enc, ?blen_array; lia. }
  rewrite rd_Ok by lia. rewrite E1, le_dec_enc_fits by done. change (g <$> Ok v) with (Ok (g v)). rewrite bind_Ok.
  rewrite IH by (done || lia). done.
Qed.
Lemma parse_array k data l off :
  0 ≤ off → off + Z.of_nat k * blen l ≤ blen data → sub data off (Z.of_nat k * blen l) = concat (map (le_enc k) l) →
  Forall (fits (8 * Z.of_nat k)) l → parse_entries (λ o, rd k o data) (length l) off (Z.of_nat k) = Ok l.
Proof.
  intros H1 H2 H3 H4. rewrite <- (map_id l) at 2. rewrite <- (parse_array_map (λ z, z) k data l off H1 H2 H3 H4).
  clear. revert off. induction (length l) as [|n IH]; intros off; [done|]. cbn [parse_entries].
  destruct (rd k off data); cbn; [by rewrite IH|done|done].
Qed.

(** Decide one field of an entry from the bytes of its window. *)
Ltac field_read Hw sz :=
  repeat first
    [ rewrite (rd_within _ _ _ _ sz _ Hw) by lia
    | rewrite (rd_within0 _ _ _ sz _ Hw) by lia
    | rewrite bind_Ok ].
Ltac drop_pad Hw :=
  repeat change (unused_pad FormatANSI _) with (@nil Z) in Hw; rewrite ?app_nil_r in Hw.
Ltac solve_codec Hw sz :=
  field_read Hw sz; buf_fields; rewrite ?le_dec_enc_fits by done; try done.
