(* ===== verification/Fields.v ===== *)
(** * Records laid out as fields

    A run of [binary.LittleEndian.PutUintN(buf[off:off+n], v)] statements as a
    list of fields, and what a later read of the buffer sees: the last write
    that covers the window, or the old contents. *)
From S2P Require Import Prelude.

(** A field: width in bytes, offset, value. *)
Abbreviation field := (nat * Z * Z)%type (only parsing).

Fixpoint puts (fs : list field) (buf : bytes) : result bytes :=
  match fs with
  | [] => Ok buf
  | (n, off, v) :: fs => buf ← put n off v buf; puts fs buf
  end.

(** No field of [fs] touches the [k] bytes at [p]. *)
Definition clear (p : Z) (k : nat) (fs : list field) : bool :=
  forallb (λ '(n, off, _), (off + Z.of_nat n <=? p) || (p + Z.of_nat k <=? off)) fs.
(** Every field of [fs] lies in a buffer of [len] bytes. *)
Definition in_bounds (len : Z) (fs : list field) : bool :=
  forallb (λ '(n, off, _), (0 <=? off) && (off + Z.of_nat n <=? len)) fs.

(** The value the [k] bytes at [p] hold after the writes [fs], when the last
    field that touches them covers them. *)
Fixpoint written (fs : list field) (p : Z) (k : nat) : option Z :=
  match fs with
  | [] => None
  | (n, off, v) :: fs =>
    match written fs p k with
    | Some x => Some x
    | None =>
      if (off <=? p) && (p + Z.of_nat k <=? off + Z.of_nat n) && clear p k fs
      then Some ((v / 256 ^ (p - off)) mod 256 ^ Z.of_nat k) else None
    end
  end.

Lemma puts_app fs gs buf : puts (fs ++ gs) buf = (buf ← puts fs buf; puts gs buf).
Proof.
  revert buf. induction fs as [|[[n off] v] fs IH]; intros buf; [done|].
  cbn [app puts]. destruct (put n off v buf); [apply IH|done|done].
Qed.

Lemma puts_Ok fs : ∀ buf, in_bounds (blen buf) fs = true →
  ∃ buf', puts fs buf = Ok buf' ∧ blen buf' = blen buf.
Proof.
  induction fs as [|[[n off] v] fs IH]; intros buf Hin; [by eexists|].
  cbn [in_bounds forallb] in Hin. apply andb_prop in Hin as [Hb Hin].
  apply andb_prop in Hb as [?%Z.leb_le ?%Z.leb_le]. cbn [puts].
  rewrite put_Ok, bind_Ok by lia. destruct (IH (splice off (le_enc n v) buf)) as (b & Hb & Hl).
  { by rewrite blen_splice. }
  exists b. by rewrite Hl, blen_splice.
Qed.

Lemma put_inv n off v buf b :
  put n off v buf = Ok b →
  0 ≤ off ∧ off + Z.of_nat n ≤ blen buf ∧ b = splice off (le_enc n v) buf.
Proof.
  unfold put, put_bytes. rewrite blen_le_enc. repeat case_bool_decide; cbn; intros; simplify_eq; done.
Qed.
Lemma blen_put n off v buf b : put n off v buf = Ok b → blen b = blen buf.
Proof. intros (_ & _ & ->)%put_inv. apply blen_splice. Qed.
Lemma blen_puts fs : ∀ buf b, puts fs buf = Ok b → blen b = blen buf.
Proof.
  induction fs as [|[[n off] v] fs IH]; cbn [puts]; intros buf b H; [by simplify_eq|].
  apply bind_Ok_inv in H as (b1 & H1 & H2). rewrite (IH _ _ H2). by eapply blen_put.
Qed.

Lemma bytes_ok_puts fs : ∀ buf b, puts fs buf = Ok b → bytes_ok buf → bytes_ok b.
Proof.
  induction fs as [|[[n off] v] fs IH]; cbn [puts]; intros buf b H Hb; [by simplify_eq|].
  apply bind_Ok_inv in H as (b1 & H1 & H2). eapply IH; [done|].
  apply put_inv in H1 as (_ & _ & ->). auto with pst.
Qed.

Lemma put_sub_clear n off v buf b p k :
  put n off v buf = Ok b → 0 ≤ p → 0 ≤ k → off + Z.of_nat n ≤ p ∨ p + k ≤ off →
  sub b p k = sub buf p k.
Proof.
  intros (H1 & H2 & ->)%put_inv ?? [?|?].
  - rewrite sub_splice_after by (rewrite ?blen_le_enc; lia). done.
  - rewrite sub_splice_before by (rewrite ?blen_le_enc; lia). done.
Qed.
Lemma puts_sub_clear fs p k : ∀ buf b,
  puts fs buf = Ok b → 0 ≤ p → clear p k fs = true → sub b p (Z.of_nat k) = sub buf p (Z.of_nat k).
Proof.
  induction fs as [|[[n off] v] fs IH]; cbn [puts clear forallb]; intros buf b H Hp Hc; [by simplify_eq|].
  apply bind_Ok_inv in H as (b1 & H1 & H2). apply andb_prop in Hc as [Hc Hcs].
  rewrite (IH _ _ H2) by done. eapply put_sub_clear; [done|done|lia|].
  apply orb_prop in Hc as [?%Z.leb_le|?%Z.leb_le]; auto.
Qed.

(** A window of a little-endian integer. *)
Lemma sub_le_enc n v a k :
  (a + k ≤ n)%nat →
  sub (le_enc n v) (Z.of_nat a) (Z.of_nat k) = le_enc k (v / 256 ^ Z.of_nat a).
Proof.
  revert n v. induction a as [|a IH]; intros n v Hle.
  - rewrite Z.pow_0_r, Z.div_1_r. revert n v Hle. induction k as [|k IHk]; intros n v Hle.
    { unfold sub. by rewrite firstn_O. }
    destruct n as [|n]; [lia|]. specialize (IHk n (v / 256) ltac:(lia)).
    unfold sub in *. rewrite Nat2Z.id in *. change (Z.to_nat (Z.of_nat 0)) with 0%nat in *.
    cbn [le_enc drop take firstn skipn] in *. by rewrite <- IHk.
  - destruct n as [|n]; [lia|]. specialize (IH n (v / 256) ltac:(lia)).
    unfold sub in *. rewrite !Nat2Z.id in *. cbn [le_enc drop skipn].
    rewrite IH. f_equal. rewrite Z.div_div by lia. f_equal.
    rewrite Nat2Z.inj_succ, Z.pow_succ_r by lia. lia.
Qed.

Lemma puts_written fs p k x : ∀ buf b,
  puts fs buf = Ok b → written fs p k = Some x → rd k p b = Ok x.
Proof.
  induction fs as [|[[n off] v] fs IH]; cbn [puts written]; intros buf b H Hw; [done|].
  apply bind_Ok_inv in H as (b1 & H1 & H2).
  destruct (written fs p k) as [y|] eqn:E; [simplify_eq; by eapply IH|].
  destruct (_ && clear p k fs) eqn:Hc; [|done]. apply andb_prop in Hc as [Hr Hc].
  apply andb_prop in Hr as [?%Z.leb_le ?%Z.leb_le]. simplify_eq.
  pose proof (blen_puts _ _ _ H2) as L. pose proof (blen_put _ _ _ _ _ H1) as L1.
  apply put_inv in H1 as (? & ? & ->).
  rewrite rd_Ok by lia. rewrite (puts_sub_clear _ _ _ _ _ H2) by (done || lia).
  replace (sub _ p (Z.of_nat k)) with (sub (le_enc n v) (p - off) (Z.of_nat k)).
  2:{ replace p with (off + (p - off)) at 2 by lia.
      rewrite <- (sub_sub _ off (Z.of_nat n)) by lia.
      by rewrite sub_splice_eq by (rewrite ?blen_le_enc; lia). }
  replace (p - off) with (Z.of_nat (Z.to_nat (p - off))) by lia.
  rewrite sub_le_enc by lia. by rewrite le_dec_enc.
Qed.

(** A field read back whole. *)
Lemma puts_field fs p k v buf b :
  puts fs buf = Ok b → written fs p k = Some ((v / 256 ^ 0) mod 256 ^ Z.of_nat k) →
  fits (8 * Z.of_nat k) v → rd k p b = Ok v.
Proof.
  intros H Hw Hv. rewrite (puts_written _ _ _ _ _ _ H Hw). f_equal.
  rewrite Z.pow_0_r, Z.div_1_r. apply Z.mod_small. unfold fits in Hv. by rewrite Z.pow_mul_r in Hv by lia.
Qed.
(** A window no field touches. *)
Lemma puts_clear fs p k len b :
  puts fs (zeros len) = Ok b → clear p k fs = true → 0 ≤ p → p + Z.of_nat k ≤ len → rd k p b = Ok 0.
Proof.
  intros H Hc Hp Hl. pose proof (blen_puts _ _ _ H) as L. rewrite blen_zeros in L.
  rewrite rd_Ok by lia. rewrite (puts_sub_clear _ _ _ _ _ H) by done.
  by rewrite sub_zeros, le_dec_zeros by lia.
Qed.

(** A read of two adjacent windows. *)
Lemma le_dec_app l k : le_dec (l ++ k) = le_dec l + 256 ^ blen l * le_dec k.
Proof.
  induction l as [|b l IH]; [rewrite (@blen_nil Z), Z.pow_0_r; cbn; lia|]. cbn [app le_dec].
  rewrite IH, blen_cons, Z.pow_add_r by (pose proof (blen_nonneg l); lia). lia.
Qed.
Lemma sub_split {A} (l : list A) a n m :
  0 ≤ a → 0 ≤ n → 0 ≤ m → sub l a (n + m) = sub l a n ++ sub l (a + n) m.
Proof.
  intros. unfold sub. rewrite !Z2Nat.inj_add, <- drop_drop by lia.
  symmetry. apply take_take_drop.
Qed.
Lemma rd_split k1 k2 p buf x y :
  0 ≤ p → rd k1 p buf = Ok x → rd k2 (p + Z.of_nat k1) buf = Ok y →
  rd (k1 + k2) p buf = Ok (x + 256 ^ Z.of_nat k1 * y).
Proof.
  intros Hp H1 H2.
  destruct (decide (p + Z.of_nat (k1 + k2) ≤ blen buf)).
  2:{ rewrite rd_Panic in H2 by lia. done. }
  rewrite rd_Ok in H1, H2 by lia. simplify_eq. rewrite rd_Ok by lia.
  rewrite Nat2Z.inj_add, sub_split, le_dec_app, blen_sub by lia. done.
Qed.
