(* ===== verification/State.v ===== *)
(** * Stateful calls

    A Go method on a shared object is a function from the object's state to its
    new state and an outcome: a call that returns an error, or panics, keeps
    the writes it made before. *)
From S2P Require Import Prelude.

Definition ST (S A : Type) : Type := S → S * result A.

#[export] Instance ST_ret {S} : MRet (ST S) := λ A a s, (s, Ok a).
#[export] Instance ST_bind {S} : MBind (ST S) := λ A B f m s,
  match m s with
  | (s, Ok a) => f a s
  | (s, Err e) => (s, Err e)
  | (s, Panic) => (s, Panic)
  end.

Definition get {S} : ST S S := λ s, (s, Ok s).
Definition modify {S} (f : S → S) : ST S unit := λ s, (f s, Ok tt).
Definition fail {S A} (e : error) : ST S A := λ s, (s, Err e).
Definition lift {S A} (r : result A) : ST S A := λ s, (s, r).
(** [if err != nil { return fmt.Errorf(ctx + ": %w", err) }] *)
Definition wrap {S A} (ctx : string) (m : ST S A) : ST S A := λ s, let '(s, r) := m s in (s, wrap_err ctx r).
(** [_ = err] *)
Definition ignore_err {S A} (m : ST S A) : ST S unit := λ s,
  match m s with (s, Panic) => (s, Panic) | (s, _) => (s, Ok tt) end.
(** Run a call on a part of the state. *)
Definition zoom {S T A} (proj : S → T) (upd : S → T → S) (m : ST T A) : ST S A := λ s,
  let '(t, r) := m (proj s) in (upd s t, r).

Notation "'do' x <- m ; k" := (mbind (λ x, k) m) (at level 100, x name, m at level 90, k at level 200, only parsing).
Notation "m ';;' k" := (mbind (λ _, k) m) (at level 100, k at level 200, right associativity, only parsing).

Section laws.
Context {S : Type}.
Lemma st_bind_Ok {A B} (m : ST S A) (f : A → ST S B) s s' a :
  m s = (s', Ok a) → (m ≫= f) s = f a s'.
Proof. intros H. unfold mbind, ST_bind. by rewrite H. Qed.
Lemma st_bind_Err {A B} (m : ST S A) (f : A → ST S B) s s' e :
  m s = (s', Err e) → (m ≫= f) s = (s', Err e).
Proof. intros H. unfold mbind, ST_bind. by rewrite H. Qed.
Lemma st_bind_Panic {A B} (m : ST S A) (f : A → ST S B) s s' :
  m s = (s', Panic) → (m ≫= f) s = (s', Panic).
Proof. intros H. unfold mbind, ST_bind. by rewrite H. Qed.
Lemma st_bind_inv {A B} (m : ST S A) (f : A → ST S B) s s2 b :
  (m ≫= f) s = (s2, Ok b) → ∃ s1 a, m s = (s1, Ok a) ∧ f a s1 = (s2, Ok b).
Proof. unfold mbind, ST_bind. destruct (m s) as [s1 [a|e|]]; intros; simplify_eq; eauto. Qed.
Lemma st_get_bind {A} (f : S → ST S A) s : (get ≫= f) s = f s s.
Proof. done. Qed.
Lemma st_modify_bind {A} g (f : unit → ST S A) s : (modify g ≫= f) s = f tt (g s).
Proof. done. Qed.
Lemma st_ret_bind {A B} (a : A) (f : A → ST S B) s : (mret a ≫= f) s = f a s.
Proof. done. Qed.
End laws.

(** How a call moves the state, whatever its outcome: [R] relates the state
    before to the state after.  For a reflexive and transitive relation the
    property follows the structure of the call. *)
Definition moves {S A} (R : S → S → Prop) (m : ST S A) : Prop := ∀ s, R s (m s).1.

Section moves.
Context {S : Type} (R : S → S → Prop) `{!PreOrder R}.
Lemma moves_ret {A} (a : A) : moves R (mret a).
Proof. intros s. done. Qed.
Lemma moves_get : moves R get.
Proof. intros s. done. Qed.
Lemma moves_lift {A} (r : result A) : moves R (lift r).
Proof. intros s. done. Qed.
Lemma moves_fail {A} e : moves R (fail (A:=A) e).
Proof. intros s. done. Qed.
Lemma moves_modify f : (∀ s, R s (f s)) → moves R (modify f).
Proof. intros H s. apply H. Qed.
Lemma moves_bind {A B} (m : ST S A) (f : A → ST S B) : moves R m → (∀ a, moves R (f a)) → moves R (m ≫= f).
Proof.
  intros Hm Hf s. specialize (Hm s). unfold mbind, ST_bind. destruct (m s) as [s1 [a|e|]]; cbn in *; try done.
  etrans; [exact Hm|apply Hf].
Qed.
(** The same when the rest relies on what the first call returns. *)
Lemma moves_bind_post {A B} (P : A → Prop) (m : ST S A) (f : A → ST S B) :
  moves R m → (∀ s s' a, m s = (s', Ok a) → P a) → (∀ a, P a → moves R (f a)) → moves R (m ≫= f).
Proof.
  intros Hm HP Hf s. specialize (Hm s). unfold mbind, ST_bind. destruct (m s) as [s1 [a|e|]] eqn:E; cbn in *; try done.
  etrans; [exact Hm|]. apply Hf. by eapply HP.
Qed.
Lemma moves_wrap {A} c (m : ST S A) : moves R m → moves R (wrap c m).
Proof. intros H s. specialize (H s). unfold wrap. by destruct (m s) as [s1 r]. Qed.
Lemma moves_ignore {A} (m : ST S A) : moves R m → moves R (ignore_err m).
Proof. intros H s. specialize (H s). unfold ignore_err. by destruct (m s) as [s1 [| |]]. Qed.
(** Two calls whose states are related only together. *)
Lemma moves_bind2 {A B C} (m : ST S A) (n : A → ST S B) (k : A → ST S C) s :
  R s ((do x <- m; n x) s).1 → (∀ x, moves R (k x)) → R s ((do x <- m; (n x ;; k x)) s).1.
Proof.
  intros Hmn Hk. unfold mbind, ST_bind in *. destruct (m s) as [s1 [a|e|]]; [|done..].
  destruct (n a s1) as [s2 [b|e|]]; cbn in *; [|done..]. etrans; [exact Hmn|apply Hk].
Qed.
End moves.
Lemma moves_zoom {S T A} (R : S → S → Prop) (Q : T → T → Prop) proj upd (m : ST T A) :
  moves Q m → (∀ s t, Q (proj s) t → R s (upd s t)) → moves R (zoom proj upd m).
Proof. intros Hm H s. specialize (Hm (proj s)). unfold zoom. destruct (m (proj s)) as [t r]. by apply H. Qed.
(** Split a call into its parts. *)
Ltac moves_step := repeat (lazymatch goal with
  | |- moves _ (mbind _ _) => apply moves_bind; [apply _| |intro; cbv beta]
  | |- moves _ (wrap _ _) => apply moves_wrap
  | |- moves _ (mret _) => apply moves_ret; apply _
  | |- moves _ get => apply moves_get; apply _
  | |- moves _ (lift _) => apply moves_lift; apply _
  | |- moves _ (fail _) => apply moves_fail; apply _
  end).

(** ** Loops *)
Fixpoint mapM_st {S A B} (f : A → ST S B) (l : list A) : ST S (list B) :=
  match l with
  | [] => mret []
  | x :: l => do y <- f x; do ys <- mapM_st f l; mret (y :: ys)
  end.

(** A loop whose every step succeeds: [I] is kept, [R] relates the states, and
    what a step establishes survives later ones. *)
Lemma mapM_st_Ok {St A B} (f : A → ST St B) (I : St → Prop) (R : St → St → Prop) `{!PreOrder R} (Q : A → B → St → Prop) l :
  (∀ x s, x ∈ l → I s → ∃ s' y, f x s = (s', Ok y) ∧ I s' ∧ R s s' ∧ Q x y s') →
  (∀ x y s s', R s s' → Q x y s → Q x y s') →
  ∀ s, I s → ∃ s' ys, mapM_st f l s = (s', Ok ys) ∧ I s' ∧ R s s' ∧ Forall2 (λ x y, Q x y s') l ys.
Proof.
  intros Hf HQ. induction l as [|x l IH]; intros s Hs; [by exists s, []|].
  destruct (Hf x s) as (s1 & y & E1 & Hs1 & R1 & Q1); [by left|done|].
  destruct (IH (λ z s Hz, Hf z s (list_elem_of_further _ _ _ Hz)) s1 Hs1) as (s2 & ys & E2 & Hs2 & R2 & F2).
  exists s2, (y :: ys). cbn [mapM_st]. rewrite (st_bind_Ok _ _ _ _ _ E1), (st_bind_Ok _ _ _ _ _ E2).
  split; [done|]. split; [done|]. split; [by etrans|]. constructor; [by eapply HQ|done].
Qed.
