(* ===== verification/Page.v ===== *)
(** * Pages ([pkg/disk/page.go], [pkg/disk/page_write.go])

    Page trailers, B-tree pages and their parser, the page builders and the
    trailer validation. *)
From S2P Require Import Prelude Format Codec Crypt.

(** ** Data *)
Record BlockReference := mkBRef { BR_BID : Z; BR_IB : Z }.
Record PageTrailer := mkPageTrailer {
  PT_PageType : Z; PT_PageTypeRepeat : Z; PT_Signature : Z; PT_CRC : Z; PT_BID : Z }.
Record BTPageHeader := mkBTPageHeader {
  BH_NumEntries : Z; BH_NumEntriesMax : Z; BH_EntrySize : Z; BH_Level : Z }.
Record NBTLeafEntry := mkNBTLeaf { NE_NID : Z; NE_DataBID : Z; NE_SubBID : Z; NE_ParentNID : Z }.
Record BBTLeafEntry := mkBBTLeaf { BE_BRef : BlockReference; BE_Size : Z; BE_RefCount : Z }.
Record BTNonleafEntry := mkNonleaf { KE_Key : Z; KE_Ref : BlockReference }.
Record BTPage := mkBTPage {
  BP_Trailer : PageTrailer; BP_Header : BTPageHeader; BP_Level : Z;
  BP_NBTEntries : list NBTLeafEntry; BP_BBTEntries : list BBTLeafEntry;
  BP_NonleafEntries : list BTNonleafEntry }.

#[export] Instance BlockReference_eq_dec : EqDecision BlockReference.
Proof. solve_decision. Defined.
#[export] Instance NBTLeafEntry_eq_dec : EqDecision NBTLeafEntry.
Proof. solve_decision. Defined.
#[export] Instance BBTLeafEntry_eq_dec : EqDecision BBTLeafEntry.
Proof. solve_decision. Defined.

Definition IsLeaf (p : BTPage) : bool := BP_Level p =? 0.

(** ** Trailers *)
Definition ParsePageTrailerUnicode (data : bytes) : result PageTrailer :=
  pt ← rd 1 0 data; ptr ← rd 1 1 data; sig ← rd 2 2 data;
  crc ← rd 4 4 data; bid ← rd 8 8 data; mret (mkPageTrailer pt ptr sig crc bid).
Definition ParsePageTrailerANSI (data : bytes) : result PageTrailer :=
  pt ← rd 1 0 data; ptr ← rd 1 1 data; sig ← rd 2 2 data;
  bid ← rd 4 4 data; crc ← rd 4 8 data; mret (mkPageTrailer pt ptr sig crc bid).

(** [trailerSize] as the writers compute it: only [FormatANSI] is 12 bytes. *)
Definition pageTrailerSize (format : PSTFormat) : Z :=
  if is_ANSI format then PageTrailerSizeANSI else PageTrailerSizeUnicode.

(** ** Parsing a B-tree page *)

Definition parseNBTLeafEntry (data : bytes) (format : PSTFormat) (offset : Z) : result NBTLeafEntry :=
  if is_Unicode format then
    nid ← rd 8 offset data; d ← rd 8 (offset + 8) data; s ← rd 8 (offset + 16) data;
    p ← rd 4 (offset + 24) data; mret (mkNBTLeaf nid d s p)
  else
    nid ← rd 4 offset data; d ← rd 4 (offset + 4) data; s ← rd 4 (offset + 8) data;
    p ← rd 4 (offset + 12) data; mret (mkNBTLeaf nid d s p).
Definition parseBBTLeafEntry (data : bytes) (format : PSTFormat) (offset : Z) : result BBTLeafEntry :=
  if is_Unicode format then
    b ← rd 8 offset data; ib ← rd 8 (offset + 8) data; sz ← rd 2 (offset + 16) data;
    rc ← rd 2 (offset + 18) data; mret (mkBBTLeaf (mkBRef b ib) sz rc)
  else
    b ← rd 4 offset data; ib ← rd 4 (offset + 4) data; sz ← rd 2 (offset + 8) data;
    rc ← rd 2 (offset + 10) data; mret (mkBBTLeaf (mkBRef b ib) sz rc).
Definition parseBTNonleafEntry (data : bytes) (format : PSTFormat) (offset : Z) : result BTNonleafEntry :=
  if is_Unicode format then
    k ← rd 8 offset data; b ← rd 8 (offset + 8) data; ib ← rd 8 (offset + 16) data;
    mret (mkNonleaf k (mkBRef b ib))
  else
    k ← rd 4 offset data; b ← rd 4 (offset + 4) data; ib ← rd 4 (offset + 8) data;
    mret (mkNonleaf k (mkBRef b ib)).

Definition page_entries {A} (f : Z → result A) (h : BTPageHeader) : result (list A) :=
  parse_entries f (Z.to_nat (BH_NumEntries h)) 0 (BH_EntrySize h).

Definition parseNBTLeafPage (t : PageTrailer) (h : BTPageHeader) (data : bytes) (format : PSTFormat) : result BTPage :=
  es ← page_entries (parseNBTLeafEntry data format) h; mret (mkBTPage t h (BH_Level h) es [] []).
Definition parseBBTLeafPage (t : PageTrailer) (h : BTPageHeader) (data : bytes) (format : PSTFormat) : result BTPage :=
  es ← page_entries (parseBBTLeafEntry data format) h; mret (mkBTPage t h (BH_Level h) [] es []).
Definition parseBTNonleafPage (t : PageTrailer) (h : BTPageHeader) (data : bytes) (format : PSTFormat) : result BTPage :=
  es ← page_entries (parseBTNonleafEntry data format) h; mret (mkBTPage t h (BH_Level h) [] [] es).

(** The header is before a 4-byte padding and the trailer in Unicode pages,
    directly before the trailer otherwise. *)
Definition parseHeaderOffset (format : PSTFormat) : Z :=
  if is_Unicode format then PageSize - PageTrailerSizeUnicode - 4 - 4
  else PageSize - PageTrailerSizeANSI - 4.

Definition ParseBTPage (data : bytes) (format : PSTFormat) (pageType : Z) : result BTPage :=
  if negb (blen data =? PageSize)
  then Err (EFmt "invalid page size: got %d, expected %d" [blen data; PageSize]) else
  t ← (if is_Unicode format
       then tr ← slice data (PageSize - PageTrailerSizeUnicode) (blen data); ParsePageTrailerUnicode tr
       else tr ← slice data (PageSize - PageTrailerSizeANSI) (blen data); ParsePageTrailerANSI tr);
  if negb (PT_PageType t =? pageType)
  then Err (EFmt "unexpected page type: got %v, expected %v" [PT_PageType t; pageType])
  else if negb (PT_PageType t =? PT_PageTypeRepeat t)
  then Err (EFmt "page type mismatch: %v != %v" [PT_PageType t; PT_PageTypeRepeat t])
  else
  let off := parseHeaderOffset format in
  n ← index data off; m ← index data (off + 1); sz ← index data (off + 2); lv ← index data (off + 3);
  let h := mkBTPageHeader n m sz lv in
  if lv =? 0 then
    if pageType =? PageTypeNBT then parseNBTLeafPage t h data format
    else if pageType =? PageTypeBBT then parseBBTLeafPage t h data format
    else mret (mkBTPage t h lv [] [] [])
  else parseBTNonleafPage t h data format.

(** ** Building pages *)
Definition BuildPage (data : bytes) (pageType bid offset : Z) (format : PSTFormat) : result bytes :=
  let trailerSize := pageTrailerSize format in
  let maxDataSize := PageSize - trailerSize in
  if maxDataSize <? blen data
  then Err (EFmt "page data too large: %d bytes (max %d)" [blen data; maxDataSize]) else
  let buf := splice 0 data (zeros PageSize) in
  pre ← slice buf 0 (PageSize - trailerSize);
  let crc := ComputeCRC pre in
  let sig := ComputeSignature bid offset in
  let tr := PageSize - trailerSize in
  buf ← put8 tr pageType buf; buf ← put8 (tr + 1) pageType buf; buf ← put 2 (tr + 2) sig buf;
  if is_Unicode format then
    buf ← put 4 (tr + 4) crc buf; put 8 (tr + 8) bid buf
  else
    buf ← put 4 (tr + 4) (u32 bid) buf; put 4 (tr + 8) crc buf.

(** The entries of a page are laid out back to back; each occupies
    [entrySize] bytes of a zeroed buffer, so the Unicode padding is zero. *)
Definition enc_NBTLeaf (format : PSTFormat) (e : NBTLeafEntry) : bytes :=
  if is_Unicode format then
    le_enc 8 (NE_NID e) ++ le_enc 8 (NE_DataBID e) ++ le_enc 8 (NE_SubBID e)
    ++ le_enc 4 (NE_ParentNID e) ++ zeros 4
  else
    le_enc 4 (u32 (NE_NID e)) ++ le_enc 4 (u32 (NE_DataBID e)) ++ le_enc 4 (u32 (NE_SubBID e))
    ++ le_enc 4 (NE_ParentNID e) ++ unused_pad format 16.
Definition enc_BBTLeaf (format : PSTFormat) (e : BBTLeafEntry) : bytes :=
  if is_Unicode format then
    le_enc 8 (BR_BID (BE_BRef e)) ++ le_enc 8 (BR_IB (BE_BRef e)) ++ le_enc 2 (BE_Size e)
    ++ le_enc 2 (BE_RefCount e) ++ zeros 4
  else
    le_enc 4 (u32 (BR_BID (BE_BRef e))) ++ le_enc 4 (u32 (BR_IB (BE_BRef e))) ++ le_enc 2 (BE_Size e)
    ++ le_enc 2 (BE_RefCount e) ++ unused_pad format 12.
Definition enc_Nonleaf (format : PSTFormat) (e : BTNonleafEntry) : bytes :=
  if is_Unicode format then
    le_enc 8 (KE_Key e) ++ le_enc 8 (BR_BID (KE_Ref e)) ++ le_enc 8 (BR_IB (KE_Ref e))
  else
    le_enc 4 (u32 (KE_Key e)) ++ le_enc 4 (u32 (BR_BID (KE_Ref e))) ++ le_enc 4 (u32 (BR_IB (KE_Ref e)))
    ++ unused_pad format 12.

Definition serializeNBTLeafEntries (entries : list NBTLeafEntry) (format : PSTFormat) : bytes * Z :=
  (concat (map (enc_NBTLeaf format) entries),
   if is_ANSI format then NBTLeafEntrySizeANSI else NBTLeafEntrySizeUnicode).
Definition serializeBBTLeafEntries (entries : list BBTLeafEntry) (format : PSTFormat) : bytes * Z :=
  (concat (map (enc_BBTLeaf format) entries),
   if is_ANSI format then BBTLeafEntrySizeANSI else BBTLeafEntrySizeUnicode).
Definition serializeNonleafEntries (entries : list BTNonleafEntry) (format : PSTFormat) : bytes * Z :=
  (concat (map (enc_Nonleaf format) entries), if is_ANSI format then 12 else 24).

Definition BuildBTPage (page : BTPage) (format : PSTFormat) : result bytes :=
  let trailerSize := pageTrailerSize format in
  let dataAreaSize := PageSize - trailerSize - 4 in
  let pt := PT_PageType (BP_Trailer page) in
  let '(entriesData, entrySize) :=
    if IsLeaf page then
      if pt =? PageTypeNBT then serializeNBTLeafEntries (BP_NBTEntries page) format
      else serializeBBTLeafEntries (BP_BBTEntries page) format
    else serializeNonleafEntries (BP_NonleafEntries page) format in
  if dataAreaSize <? blen entriesData
  then Err (EFmt "too many entries for page: %d bytes (max %d)" [blen entriesData; dataAreaSize]) else
  let data := splice 0 entriesData (zeros (PageSize - trailerSize)) in
  let headerOffset := PageSize - trailerSize - 4 in
  let numEntries := blen (BP_NBTEntries page) in
  let numEntries := if pt =? PageTypeBBT then blen (BP_BBTEntries page) else numEntries in
  let numEntries := if negb (IsLeaf page) then blen (BP_NonleafEntries page) else numEntries in
  let maxEntries := Z.min (dataAreaSize / entrySize) 255 in
  data ← put8 headerOffset (u8 numEntries) data;
  data ← put8 (headerOffset + 1) (u8 maxEntries) data;
  data ← put8 (headerOffset + 2) (u8 entrySize) data;
  data ← put8 (headerOffset + 3) (u8 (BP_Level page)) data;
  BuildPage data pt (PT_BID (BP_Trailer page)) (PT_BID (BP_Trailer page)) format.

Definition NewNBTLeafPage (entries : list NBTLeafEntry) (bid : Z) : BTPage :=
  mkBTPage (mkPageTrailer PageTypeNBT PageTypeNBT 0 0 bid) (mkBTPageHeader 0 0 0 0) 0 entries [] [].
Definition NewBBTLeafPage (entries : list BBTLeafEntry) (bid : Z) : BTPage :=
  mkBTPage (mkPageTrailer PageTypeBBT PageTypeBBT 0 0 bid) (mkBTPageHeader 0 0 0 0) 0 [] entries [].
Definition NewBTNonleafPage (entries : list BTNonleafEntry) (level pageType bid : Z) : BTPage :=
  mkBTPage (mkPageTrailer pageType pageType 0 0 bid) (mkBTPageHeader 0 0 0 (u8 level)) level [] [] entries.

(** ** The density list page *)
Record DListEntry := mkDList { DL_PageNum : Z; DL_FreeSlots : Z }.
Definition enc_DList (e : DListEntry) : bytes :=
  le_enc 4 (Z.lor (Z.land (DL_PageNum e) 0xFFFFF) (u32 (Z.shiftl (Z.land (DL_FreeSlots e) 0xFFF) 20))).
Definition BuildDListPage (entries : list DListEntry) (bid offset : Z) (format : PSTFormat) : result bytes :=
  let trailerSize := pageTrailerSize format in
  let headerSize := if is_ANSI format then 2 else 4 in
  let maxEntries := (PageSize - trailerSize - headerSize) / 4 in
  if maxEntries <? blen entries
  then Err (EFmt "too many DList entries: %d (max %d)" [blen entries; maxEntries]) else
  let data := zeros (PageSize - trailerSize) in
  data ← put8 0 0 data; data ← put8 1 (u8 (blen entries)) data;
  data ← put_bytes headerSize (concat (map enc_DList entries)) data;
  BuildPage data PageTypeDList bid offset format.

(** ** Validating a trailer *)
Definition ValidatePageTrailer (pageData : bytes) (trailer : PageTrailer) (offset : Z)
    (format : PSTFormat) : result unit :=
  let trailerSize := pageTrailerSize format in
  if negb (PT_PageType trailer =? PT_PageTypeRepeat trailer)
  then Err (EFmt "page type mismatch: %v != %v" [PT_PageType trailer; PT_PageTypeRepeat trailer]) else
  pre ← slice pageData 0 (PageSize - trailerSize);
  let expectedCRC := ComputeCRC pre in
  if negb (PT_CRC trailer =? expectedCRC)
  then Err (EFmt "CRC mismatch: got 0x%08X, expected 0x%08X" [PT_CRC trailer; expectedCRC]) else
  let expectedSig := ComputeSignature (PT_BID trailer) offset in
  if negb (PT_Signature trailer =? expectedSig)
  then Err (EFmt "signature mismatch: got 0x%04X, expected 0x%04X" [PT_Signature trailer; expectedSig])
  else mret tt.

(** ** The layout of a built page *)
Definition enc_pageTrailer (format : PSTFormat) (pageType bid sig crc : Z) : bytes :=
  [pageType; pageType] ++ le_enc 2 sig ++
  (if is_Unicode format then le_enc 4 crc ++ le_enc 8 bid else le_enc 4 (u32 bid) ++ le_enc 4 crc).

Lemma BuildPage_layout data pageType bid offset format :
  known format → blen data ≤ PageSize - pageTrailerSize format →
  let payload := data ++ zeros (PageSize - pageTrailerSize format - blen data) in
  BuildPage data pageType bid offset format
  = Ok (payload ++ enc_pageTrailer format pageType bid (ComputeSignature bid offset) (ComputeCRC payload)).
Proof.
  intros Hk Hl payload. pose proof (blen_nonneg data) as Hd. unfold BuildPage.
  destruct format; [done|cbn [is_ANSI is_Unicode pageTrailerSize enc_pageTrailer] in *..].
  all: unfold PageSize, PageTrailerSizeANSI, PageTrailerSizeUnicode in *; cbn in Hl.
  all: rewrite (proj2 (Z.ltb_ge _ _)) by lia.
  all: rewrite splice_0_zeros by lia.
  all: rewrite slice_Ok by blia; rewrite bind_Ok.
  - replace (zeros (512 - blen data)) with (zeros (512 - 12 - blen data) ++ zeros 12)
      by (unfold zeros; rewrite <- replicate_add; f_equal; lia).
    rewrite app_assoc. fold payload.
    assert (blen payload = 500) as Hp by (subst payload; blia).
    rewrite sub_app_l, sub_0_all by blia. buf_write.
    change (zeros 12) with (zeros 1 ++ zeros 1 ++ zeros 2 ++ zeros 4 ++ zeros 4).
    buf_layout. done.
  - replace (zeros (512 - blen data)) with (zeros (512 - 16 - blen data) ++ zeros 16)
      by (unfold zeros; rewrite <- replicate_add; f_equal; lia).
    rewrite app_assoc. fold payload.
    assert (blen payload = 496) as Hp by (subst payload; blia).
    rewrite sub_app_l, sub_0_all by blia. buf_write.
    change (zeros 16) with (zeros 1 ++ zeros 1 ++ zeros 2 ++ zeros 4 ++ zeros 8).
    buf_layout. done.
Qed.

(** ** Reading a built page *)
Lemma blen_enc_pageTrailer format pt bid sig crc :
  known format → blen (enc_pageTrailer format pt bid sig crc) = pageTrailerSize format.
Proof. intros. by destruct format. Qed.

Lemma parse_page_trailer format pt bid sig crc :
  known format → fits 8 pt → fits (id_width format) bid → fits 16 sig → fits 32 crc →
  (if is_Unicode format then ParsePageTrailerUnicode else ParsePageTrailerANSI)
    (enc_pageTrailer format pt bid sig crc)
  = Ok (mkPageTrailer pt pt sig crc bid).
Proof.
  intros Hk Hpt Hbid Hsig Hcrc.
  destruct format; [done|cbn [is_Unicode id_width enc_pageTrailer] in *..].
  - unfold ParsePageTrailerANSI, enc_pageTrailer. cbn [is_Unicode].
    rewrite u32_small by done. change [pt; pt] with ([pt] ++ [pt]). rewrite <- !app_assoc.
    buf_parse. buf_fields. rewrite !le_dec_enc_fits by done. cbn [le_dec].
    by rewrite !Z.mul_0_r, !Z.add_0_r.
  - unfold ParsePageTrailerUnicode, enc_pageTrailer. cbn [is_Unicode].
    change [pt; pt] with ([pt] ++ [pt]). rewrite <- !app_assoc.
    buf_parse. buf_fields. rewrite !le_dec_enc_fits by done. cbn [le_dec].
    by rewrite !Z.mul_0_r, !Z.add_0_r.
Qed.

(** Everything a reader needs from a page of known layout. *)
Lemma page_layout_parts format (payload : bytes) pt bid sig crc :
  known format → blen payload = PageSize - pageTrailerSize format →
  let raw := payload ++ enc_pageTrailer format pt bid sig crc in
  blen raw = PageSize ∧
  sub raw 0 (PageSize - pageTrailerSize format) = payload ∧
  slice raw (PageSize - pageTrailerSize format) (blen raw)
  = Ok (enc_pageTrailer format pt bid sig crc).
Proof.
  intros Hk Hp raw. pose proof (blen_enc_pageTrailer format pt bid sig crc Hk) as Ht.
  assert (0 ≤ pageTrailerSize format ≤ PageSize) by (destruct format; cbv; done).
  assert (blen raw = PageSize) as Hr by (subst raw; autorewrite with blen; lia).
  repeat split; [done| |].
  - subst raw. by rewrite sub_app_l, sub_0_all by lia.
  - rewrite Hr, slice_Ok by lia. subst raw. f_equal.
    rewrite sub_app_r by lia. rewrite sub_all; [done|lia|lia].
Qed.

Lemma ValidatePageTrailer_ok payload suffix trailer offset format :
  blen payload = PageSize - pageTrailerSize format →
  PT_PageType trailer = PT_PageTypeRepeat trailer →
  PT_CRC trailer = ComputeCRC payload →
  PT_Signature trailer = ComputeSignature (PT_BID trailer) offset →
  ValidatePageTrailer (payload ++ suffix) trailer offset format = Ok tt.
Proof.
  intros Hp H1 H2 H3. unfold ValidatePageTrailer.
  assert (0 ≤ PageSize - pageTrailerSize format) by (destruct format; cbv; done).
  pose proof (blen_nonneg suffix).
  rewrite H1, Z.eqb_refl. cbn [negb]. rewrite slice_Ok by blia.
  rewrite bind_Ok, Z.sub_0_r, sub_app_l, sub_0_all by blia.
  by rewrite H2, H3, !Z.eqb_refl.
Qed.
Lemma ValidatePageTrailer_crc_mismatch payload suffix trailer offset format :
  blen payload = PageSize - pageTrailerSize format →
  PT_PageType trailer = PT_PageTypeRepeat trailer →
  PT_CRC trailer ≠ ComputeCRC payload →
  ValidatePageTrailer (payload ++ suffix) trailer offset format
  = Err (EFmt "CRC mismatch: got 0x%08X, expected 0x%08X" [PT_CRC trailer; ComputeCRC payload]).
Proof.
  intros Hp H1 H2. unfold ValidatePageTrailer.
  assert (0 ≤ PageSize - pageTrailerSize format) by (destruct format; cbv; done).
  pose proof (blen_nonneg suffix).
  rewrite H1, Z.eqb_refl. cbn [negb]. rewrite slice_Ok by blia.
  rewrite bind_Ok, Z.sub_0_r, sub_app_l, sub_0_all by blia.
  by rewrite (proj2 (Z.eqb_neq _ _) H2).
Qed.

(** The trailer a reader of the given format parses off a page. *)
Definition parse_trailer_of (format : PSTFormat) (raw : bytes) : result PageTrailer :=
  tr ← slice raw (PageSize - pageTrailerSize format) (blen raw);
  (if is_Unicode format then ParsePageTrailerUnicode else ParsePageTrailerANSI) tr.

(** A page written by [BuildPage] carries a trailer that parses back to
    the page type and BID it was given and that [ValidatePageTrailer] accepts at
    the offset it was built for; overwriting any one payload byte makes the
    validation fail with a CRC error. *)
Theorem BuildPage_integrity data pageType bid offset format :
  known format → bytes_ok data → blen data ≤ PageSize - pageTrailerSize format →
  fits 8 pageType → fits (id_width format) bid →
  ∃ raw t, BuildPage data pageType bid offset format = Ok raw ∧ blen raw = PageSize ∧
    parse_trailer_of format raw = Ok t ∧
    PT_PageType t = pageType ∧ PT_PageTypeRepeat t = pageType ∧ PT_BID t = bid ∧
    ValidatePageTrailer raw t offset format = Ok tt ∧
    ∀ i b, 0 ≤ i < PageSize - pageTrailerSize format → is_byte b →
           raw !! Z.to_nat i ≠ Some b →
           ∃ args, ValidatePageTrailer (<[Z.to_nat i := b]> raw) t offset format
                   = Err (EFmt "CRC mismatch: got 0x%08X, expected 0x%08X" args).
Proof.
  intros Hk Hd Hl Hpt Hbid.
  set (payload := data ++ zeros (PageSize - pageTrailerSize format - blen data)).
  set (crc := ComputeCRC payload). set (sig := ComputeSignature bid offset).
  assert (blen payload = PageSize - pageTrailerSize format) as Hp by (subst payload; blia).
  assert (bytes_ok payload) as Hpb by (apply Forall_app; split; auto with pst).
  destruct (page_layout_parts format payload pageType bid sig crc Hk Hp) as (Hr & _ & Htr).
  eexists _, _. split; [by apply BuildPage_layout|]. fold payload. fold crc. fold sig.
  split; [exact Hr|]. split.
  { unfold parse_trailer_of. rewrite Htr, bind_Ok.
    apply parse_page_trailer; [done..|apply ComputeSignature_range|by apply ComputeCRC_fits]. }
  cbn [PT_PageType PT_PageTypeRepeat PT_BID]. split_and!; [done..| |].
  { by apply ValidatePageTrailer_ok. }
  intros i b Hi Hb Hne. eexists.
  assert (Z.to_nat i < length payload)%nat as Hlt by (unfold blen in Hp; lia).
  rewrite insert_app_l by done.
  apply ValidatePageTrailer_crc_mismatch; [unfold blen in *; by rewrite length_insert|done|].
  cbn [PT_CRC]. intros Heq.
  rewrite lookup_app_l in Hne by done.
  by eapply (ComputeCRC_insert payload (Z.to_nat i) b).
Qed.
Lemma BuildPage_integrity_witness :
  ∃ raw t, BuildPage [1; 2; 3] PageTypeAMap 0 17408 FormatUnicode = Ok raw ∧ blen raw = PageSize ∧
    parse_trailer_of FormatUnicode raw = Ok t ∧
    PT_PageType t = PageTypeAMap ∧ PT_PageTypeRepeat t = PageTypeAMap ∧ PT_BID t = 0 ∧
    ValidatePageTrailer raw t 17408 FormatUnicode = Ok tt ∧
    ∀ i b, 0 ≤ i < PageSize - pageTrailerSize FormatUnicode → is_byte b →
           raw !! Z.to_nat i ≠ Some b →
           ∃ args, ValidatePageTrailer (<[Z.to_nat i := b]> raw) t 17408 FormatUnicode
                   = Err (EFmt "CRC mismatch: got 0x%08X, expected 0x%08X" args).
Proof.
  apply (BuildPage_integrity [1; 2; 3] PageTypeAMap 0 17408 FormatUnicode); try (by vm_compute).
  repeat constructor; by vm_compute.
Defined.

(** ** Entry codecs of the three page kinds *)
Definition NBTLeaf_wf (f : PSTFormat) (e : NBTLeafEntry) : Prop :=
  fits (id_width f) (NE_NID e) ∧ fits (id_width f) (NE_DataBID e) ∧
  fits (id_width f) (NE_SubBID e) ∧ fits 32 (NE_ParentNID e).
Definition BBTLeaf_wf (f : PSTFormat) (e : BBTLeafEntry) : Prop :=
  fits (id_width f) (BR_BID (BE_BRef e)) ∧ fits (id_width f) (BR_IB (BE_BRef e)) ∧
  fits 16 (BE_Size e) ∧ fits 16 (BE_RefCount e).
Definition Nonleaf_wf (f : PSTFormat) (e : BTNonleafEntry) : Prop :=
  fits (id_width f) (KE_Key e) ∧ fits (id_width f) (BR_BID (KE_Ref e)) ∧
  fits (id_width f) (BR_IB (KE_Ref e)).

#[export] Program Instance NBTLeaf_codec : EntryCodec NBTLeafEntry := {|
  ec_enc := enc_NBTLeaf; ec_dec := parseNBTLeafEntry;
  ec_size f := if is_Unicode f then 32 else 16; ec_wf := NBTLeaf_wf |}.
Next Obligation. by destruct f. Qed.
Next Obligation. by destruct f. Qed.
Next Obligation.
  intros f e data off Hk (H1 & H2 & H3 & H4) Hoff Hlen Hw. destruct e as [nid d s p]. cbn in *.
  destruct f; [done|unfold parseNBTLeafEntry, enc_NBTLeaf, id_width in *; cbn [is_Unicode] in *..].
  - rewrite !u32_small in Hw by done. drop_pad Hw. solve_codec Hw 16.
  - solve_codec Hw 32.
Qed.

#[export] Program Instance BBTLeaf_codec : EntryCodec BBTLeafEntry := {|
  ec_enc := enc_BBTLeaf; ec_dec := parseBBTLeafEntry;
  ec_size f := if is_Unicode f then 24 else 12; ec_wf := BBTLeaf_wf |}.
Next Obligation. by destruct f. Qed.
Next Obligation. by destruct f. Qed.
Next Obligation.
  intros f e data off Hk (H1 & H2 & H3 & H4) Hoff Hlen Hw. destruct e as [[b ib] s p]. cbn in *.
  destruct f; [done|unfold parseBBTLeafEntry, enc_BBTLeaf, id_width in *; cbn [is_Unicode] in *..].
  - rewrite !u32_small in Hw by done. drop_pad Hw. solve_codec Hw 12.
  - solve_codec Hw 24.
Qed.

#[export] Program Instance Nonleaf_codec : EntryCodec BTNonleafEntry := {|
  ec_enc := enc_Nonleaf; ec_dec := parseBTNonleafEntry;
  ec_size f := if is_Unicode f then 24 else 12; ec_wf := Nonleaf_wf |}.
Next Obligation. by destruct f. Qed.
Next Obligation. by destruct f. Qed.
Next Obligation.
  intros f e data off Hk (H1 & H2 & H3) Hoff Hlen Hw. destruct e as [k [b ib]]. cbn in *.
  destruct f; [done|unfold parseBTNonleafEntry, enc_Nonleaf, id_width in *; cbn [is_Unicode] in *..].
  - rewrite !u32_small in Hw by done. drop_pad Hw. solve_codec Hw 12.
  - solve_codec Hw 24.
Qed.

(** ** The layout of a built B-tree page *)

(** The payload of a B-tree page: entries, zeroes up to the four header bytes
    that the writer puts directly before the trailer. *)
Definition btpayload (format : PSTFormat) (entriesData : bytes) (n esz level : Z) : bytes :=
  let area := PageSize - pageTrailerSize format - 4 in
  entriesData ++ zeros (area - blen entriesData) ++
  [u8 n; u8 (Z.min (area / esz) 255); u8 esz; u8 level].

(** What [BuildBTPage] serialises: the entry bytes, their count and size. *)
Definition page_data (page : BTPage) (format : PSTFormat) : bytes * Z :=
  if IsLeaf page then
    if PT_PageType (BP_Trailer page) =? PageTypeNBT
    then serializeNBTLeafEntries (BP_NBTEntries page) format
    else serializeBBTLeafEntries (BP_BBTEntries page) format
  else serializeNonleafEntries (BP_NonleafEntries page) format.
Definition page_count (page : BTPage) : Z :=
  if negb (IsLeaf page) then blen (BP_NonleafEntries page)
  else if PT_PageType (BP_Trailer page) =? PageTypeBBT then blen (BP_BBTEntries page)
  else blen (BP_NBTEntries page).

Lemma BuildBTPage_layout page format :
  known format →
  blen (page_data page format).1 ≤ PageSize - pageTrailerSize format - 4 →
  let payload := btpayload format (page_data page format).1 (page_count page)
                   (page_data page format).2 (BP_Level page) in
  let bid := PT_BID (BP_Trailer page) in
  blen payload = PageSize - pageTrailerSize format ∧
  BuildBTPage page format
  = Ok (payload ++ enc_pageTrailer format (PT_PageType (BP_Trailer page)) bid
                     (ComputeSignature bid bid) (ComputeCRC payload)).
Proof.
  intros Hk Hl payload bid.
  destruct (page_data page format) as [ed esz] eqn:Hpd. cbn [fst snd] in *.
  pose proof (blen_nonneg ed).
  assert (blen payload = PageSize - pageTrailerSize format) as Hp by (subst payload; unfold btpayload; blia).
  split; [done|].
  assert (0 ≤ PageSize - pageTrailerSize format - 4) by (destruct format; cbv; done).
  unfold BuildBTPage. fold (page_data page format). rewrite Hpd.
  rewrite (proj2 (Z.ltb_ge _ _)) by lia.
  rewrite splice_0_zeros by lia.
  replace (zeros (PageSize - pageTrailerSize format - blen ed))
    with (zeros (PageSize - pageTrailerSize format - 4 - blen ed)
            ++ zeros 1 ++ zeros 1 ++ zeros 1 ++ zeros 1)
    by (unfold zeros; rewrite <- !replicate_add; f_equal; lia).
  buf_write. buf_layout. rewrite <- ?app_assoc. cbn [app].
  fold bid.
  replace (if negb (IsLeaf page) then _ else _) with (page_count page).
  2:{ unfold page_count. by destruct (negb (IsLeaf page)). }
  fold (btpayload format ed (page_count page) esz (BP_Level page)). fold payload.
  rewrite BuildPage_layout by (done || lia).
  rewrite Hp, Z.sub_diag. change (zeros 0) with (@nil Z). by rewrite app_nil_r.
Qed.

(** ** Reading a built B-tree page back *)

(** The pages the writers construct: one kind of entries, fields that fit the
    format, at most the documented number of entries. *)
Inductive btpage_wf (f : PSTFormat) : BTPage → Prop :=
| wf_nbt_leaf t h es :
    PT_PageType t = PageTypeNBT → fits (id_width f) (PT_BID t) → Forall (NBTLeaf_wf f) es →
    blen es ≤ (if is_Unicode f then MaxBTPageEntriesNBTUnicode else MaxBTPageEntriesNBTANSI) →
    btpage_wf f (mkBTPage t h 0 es [] [])
| wf_bbt_leaf t h es :
    PT_PageType t = PageTypeBBT → fits (id_width f) (PT_BID t) → Forall (BBTLeaf_wf f) es →
    blen es ≤ (if is_Unicode f then MaxBTPageEntriesBBTUnicode else MaxBTPageEntriesBBTANSI) →
    btpage_wf f (mkBTPage t h 0 [] es [])
| wf_nonleaf t h lv es :
    PT_PageType t = PageTypeNBT ∨ PT_PageType t = PageTypeBBT →
    fits (id_width f) (PT_BID t) → 0 < lv < 256 → Forall (Nonleaf_wf f) es →
    blen es ≤ (if is_Unicode f then MaxBTPageEntriesNonleafUnicode else MaxBTPageEntriesNonleafANSI) →
    btpage_wf f (mkBTPage t h lv [] [] es).

(** The header a reader finds at offset [off] of a page. *)
Lemma header_at (raw : bytes) off n m sz lv :
  0 ≤ off → off + 4 ≤ blen raw → sub raw off 4 = [n; m; sz; lv] →
  index raw off = Ok n ∧ index raw (off + 1) = Ok m ∧
  index raw (off + 2) = Ok sz ∧ index raw (off + 3) = Ok lv.
Proof.
  intros Ho Hl Hs.
  assert (∀ k, 0 ≤ k < 4 → sub raw (off + k) 1 = sub [n; m; sz; lv] k 1) as Hk.
  { intros k Hk. rewrite <- Hs. by rewrite sub_sub by lia. }
  rewrite <- (Z.add_0_r off) at 1. rewrite !index_total by lia. rewrite !Hk by lia.
  change (sub [n; m; sz; lv] 0 1) with [n]. change (sub [n; m; sz; lv] 1 1) with [m].
  change (sub [n; m; sz; lv] 2 1) with [sz]. change (sub [n; m; sz; lv] 3 1) with [lv].
  by rewrite !le_dec_1.
Qed.

(** The first steps of [ParseBTPage], up to the dispatch on the page level. *)
Lemma ParseBTPage_open f payload pt bid sig crc n m sz lv :
  known f → blen payload = PageSize - pageTrailerSize f →
  fits 8 pt → fits (id_width f) bid → fits 16 sig → fits 32 crc →
  sub payload (parseHeaderOffset f) 4 = [n; m; sz; lv] →
  let raw := payload ++ enc_pageTrailer f pt bid sig crc in
  let t := mkPageTrailer pt pt sig crc bid in
  let h := mkBTPageHeader n m sz lv in
  ParseBTPage raw f pt
  = if lv =? 0 then
      if pt =? PageTypeNBT then parseNBTLeafPage t h raw f
      else if pt =? PageTypeBBT then parseBBTLeafPage t h raw f
      else mret (mkBTPage t h lv [] [] [])
    else parseBTNonleafPage t h raw f.
Proof.
  intros Hk Hp Hpt Hbid Hsig Hcrc Hh raw t h.
  destruct (page_layout_parts f payload pt bid sig crc Hk Hp) as (Hr & Hpre & Htr).
  unfold ParseBTPage. fold raw in Hr, Htr, Hpre.
  rewrite Hr, Z.eqb_refl. cbn [negb].
  assert ((if is_Unicode f
           then tr ← slice raw (PageSize - PageTrailerSizeUnicode) PageSize; ParsePageTrailerUnicode tr
           else tr ← slice raw (PageSize - PageTrailerSizeANSI) PageSize; ParsePageTrailerANSI tr) = Ok t) as ->.
  { rewrite Hr in Htr. pose proof (parse_page_trailer f pt bid sig crc Hk Hpt Hbid Hsig Hcrc) as Hpp.
    unfold pageTrailerSize in Htr.
    destruct f; [done|cbn [is_Unicode is_ANSI] in *..]; by rewrite Htr, bind_Ok. }
  rewrite bind_Ok. unfold t at 1 2. cbn [PT_PageType PT_PageTypeRepeat].
  rewrite !Z.eqb_refl. cbn [negb].
  destruct (header_at raw (parseHeaderOffset f) n m sz lv) as (E1 & E2 & E3 & E4).
  { destruct f; cbv; done. }
  { rewrite Hr. destruct f; cbv; done. }
  { rewrite <- Hh, <- Hpre, sub_sub; [done|..]; destruct f; cbv; done. }
  by rewrite E1, bind_Ok, E2, bind_Ok, E3, bind_Ok, E4, bind_Ok.
Qed.

Lemma btpage_wf_size f page :
  known f → btpage_wf f page →
  blen (page_data page f).1 = page_count page * (page_data page f).2 ∧
  0 ≤ page_count page < 256 ∧ 0 < (page_data page f).2 < 256 ∧
  blen (page_data page f).1 ≤ (if is_Unicode f then 480 else 496) ∧
  fits 8 (BP_Level page) ∧ fits (id_width f) (PT_BID (BP_Trailer page)) ∧
  fits 8 (PT_PageType (BP_Trailer page)) ∧
  (PT_PageType (BP_Trailer page) = PageTypeNBT ∨ PT_PageType (BP_Trailer page) = PageTypeBBT).
Proof.
  intros Hk [t h es Ht Hb Hw Hl|t h es Ht Hb Hw Hl|t h lv es Ht Hb Hlv Hw Hl].
  - unfold page_data, page_count, IsLeaf. cbn [BP_Level BP_Trailer BP_NBTEntries]. rewrite Ht. cbn.
    pose proof (blen_enc_entries f Hk es) as E. cbn in E. rewrite E.
    pose proof (blen_nonneg es). destruct f; [done|..]; cbn in *; unfold fits in *;
      unfold MaxBTPageEntriesNBTANSI, MaxBTPageEntriesNBTUnicode, PageTypeNBT,
        NBTLeafEntrySizeANSI, NBTLeafEntrySizeUnicode in *; split_and!; auto; lia.
  - unfold page_data, page_count, IsLeaf. cbn [BP_Level BP_Trailer BP_BBTEntries]. rewrite Ht. cbn.
    pose proof (blen_enc_entries f Hk es) as E. cbn in E. rewrite E.
    pose proof (blen_nonneg es). destruct f; [done|..]; cbn in *; unfold fits in *;
      unfold MaxBTPageEntriesBBTANSI, MaxBTPageEntriesBBTUnicode, PageTypeBBT,
        BBTLeafEntrySizeANSI, BBTLeafEntrySizeUnicode in *; split_and!; auto; lia.
  - unfold page_data, page_count, IsLeaf. cbn [BP_Level BP_Trailer BP_NonleafEntries].
    rewrite (proj2 (Z.eqb_neq lv 0)) by lia. cbn [negb fst snd serializeNonleafEntries].
    pose proof (blen_enc_entries f Hk es) as E. cbn in E. rewrite E.
    pose proof (blen_nonneg es). assert (fits 8 (PT_PageType t)) by (destruct Ht as [-> | ->]; done).
    destruct f; [done|..]; cbn in *; unfold fits in *;
      unfold MaxBTPageEntriesNonleafANSI, MaxBTPageEntriesNonleafUnicode in *; split_and!; auto; lia.
Qed.

(** What [ParseBTPage] sees of a page that [BuildBTPage] wrote, in terms of
    the four payload bytes where it looks for the header. *)
Lemma BuildBTPage_Parse f page n m sz lv :
  known f → btpage_wf f page →
  let payload := btpayload f (page_data page f).1 (page_count page) (page_data page f).2 (BP_Level page) in
  let pt := PT_PageType (BP_Trailer page) in
  sub payload (parseHeaderOffset f) 4 = [n; m; sz; lv] →
  ∃ raw t, BuildBTPage page f = Ok raw ∧ blen raw = PageSize ∧ PT_BID t = PT_BID (BP_Trailer page) ∧
    sub raw 0 (PageSize - pageTrailerSize f) = payload ∧
    ParseBTPage raw f pt
    = (let h := mkBTPageHeader n m sz lv in
       if lv =? 0 then
         if pt =? PageTypeNBT then parseNBTLeafPage t h raw f
         else if pt =? PageTypeBBT then parseBBTLeafPage t h raw f
         else mret (mkBTPage t h lv [] [] [])
       else parseBTNonleafPage t h raw f).
Proof.
  intros Hk Hwf payload pt Hh.
  destruct (btpage_wf_size f page Hk Hwf) as (_ & _ & _ & Hlen & _ & Hbid & Hpt & _).
  destruct (BuildBTPage_layout page f Hk) as [Hp Hb].
  { destruct f; [done|..]; cbn in *; unfold PageSize, PageTrailerSizeANSI, PageTrailerSizeUnicode; lia. }
  fold payload in Hp, Hb. set (bid := PT_BID (BP_Trailer page)) in *.
  eexists _, _. split; [exact Hb|].
  assert (fits 32 (ComputeCRC payload)) as Hcrc.
  { apply ComputeCRC_fits. subst payload. unfold btpayload.
    apply Forall_app; split; [|apply Forall_app; split; [auto with pst|]].
    - unfold page_data. repeat case_match; cbn [fst serializeNBTLeafEntries serializeBBTLeafEntries
        serializeNonleafEntries]; apply Forall_concat, Forall_map, Forall_true; intros;
        unfold enc_NBTLeaf, enc_BBTLeaf, enc_Nonleaf, unused_pad; case_match;
        repeat (apply Forall_app; split); auto with pst.
    - repeat constructor; apply u8_range. }
  destruct (page_layout_parts f payload pt bid (ComputeSignature bid bid) (ComputeCRC payload) Hk Hp)
    as (Hr & Hpre & _).
  split; [exact Hr|]. split; [|split; [exact Hpre|]].
  2: apply (ParseBTPage_open f payload pt bid); try done; apply ComputeSignature_range.
  done.
Qed.

(** The window where the ANSI parser looks is the header just written; the
    Unicode parser looks four bytes earlier, where no entry ever reaches. *)
Lemma btpayload_header f page :
  known f → btpage_wf f page →
  sub (btpayload f (page_data page f).1 (page_count page) (page_data page f).2 (BP_Level page))
      (parseHeaderOffset f) 4
  = if is_Unicode f then [0; 0; 0; 0]
    else [page_count page; Z.min (496 / (page_data page f).2) 255; (page_data page f).2; BP_Level page].
Proof.
  intros Hk Hwf. destruct (btpage_wf_size f page Hk Hwf) as (_ & Hc & Hs & Hlen & Hlv & _).
  unfold btpayload. pose proof (blen_nonneg (page_data page f).1).
  destruct f; [done|cbn [is_Unicode parseHeaderOffset pageTrailerSize is_ANSI] in *..];
    unfold PageSize, PageTrailerSizeANSI, PageTrailerSizeUnicode, fits in *.
  - buf_fields. rewrite !u8_small; [done|lia|lia| |lia].
    split; [|lia]. apply Z.min_glb; [apply Z.div_pos; lia|lia].
  - rewrite sub_app_r by blia. rewrite sub_app_l by blia. rewrite sub_zeros by blia. done.
Qed.

(** Entries of a page at the start of its payload. *)
Lemma page_entries_back `{EntryCodec A} f (es : list A) raw n m lv payload :
  known f → Forall (ec_wf f) es → n = blen es →
  sub raw 0 (blen payload) = payload → blen payload ≤ blen raw →
  (∃ rest, payload = concat (map (ec_enc f) es) ++ rest) →
  page_entries (ec_dec raw f) (mkBTPageHeader n m (ec_size f) lv) = Ok es.
Proof.
  intros Hk Hw -> Hs Hl [rest Hr]. unfold page_entries. cbn [BH_NumEntries BH_EntrySize].
  unfold blen at 1. rewrite Nat2Z.id.
  assert (blen payload = blen es * ec_size f + blen rest) as Hpl
    by (rewrite Hr, blen_app, blen_enc_entries; done).
  pose proof (blen_nonneg rest). pose proof (blen_nonneg es). pose proof (ec_size_pos f).
  apply parse_entries_enc; [done|done|lia|lia|].
  apply (f_equal (λ l, sub l 0 (blen es * ec_size f))) in Hs.
  rewrite sub_sub, Z.add_0_l in Hs by nia. rewrite Hs, Hr.
  rewrite sub_app_l by (rewrite ?blen_enc_entries by done; nia).
  apply sub_all; [done|by rewrite blen_enc_entries].
Qed.

Lemma ansi_btpage_back page :
  btpage_wf FormatANSI page →
  ∃ raw p, BuildBTPage page FormatANSI = Ok raw ∧ blen raw = PageSize ∧
    ParseBTPage raw FormatANSI (PT_PageType (BP_Trailer page)) = Ok p ∧
    BP_Level p = BP_Level page ∧ BP_NBTEntries p = BP_NBTEntries page ∧
    BP_BBTEntries p = BP_BBTEntries page ∧ BP_NonleafEntries p = BP_NonleafEntries page ∧
    PT_BID (BP_Trailer p) = PT_BID (BP_Trailer page).
Proof.
  intros Hwf. assert (known FormatANSI) as Hk by done.
  destruct (BuildBTPage_Parse _ page _ _ _ _ Hk Hwf (btpayload_header _ _ Hk Hwf))
    as (raw & t & Hb & Hr & Hbid & Hpre & Hparse).
  set (payload := btpayload _ _ _ _ _) in Hpre.
  assert (blen payload = PageSize - pageTrailerSize FormatANSI) as Hp.
  { rewrite <- Hpre. apply blen_sub; cbn; rewrite ?Hr; cbv; done. }
  rewrite <- Hp in Hpre. assert (blen payload ≤ blen raw) as Hle by (rewrite Hp, Hr; cbv; done).
  destruct Hwf as [t0 h es Ht Hb0 Hw Hl|t0 h es Ht Hb0 Hw Hl|t0 h lv es Ht Hb0 Hlv Hw Hl];
    cbn [BP_Trailer BP_Level BP_NBTEntries BP_BBTEntries BP_NonleafEntries] in *.
  - rewrite Ht in Hparse. cbn in Hparse. exists raw. eexists. rewrite Ht. split; [done|].
    split; [done|]. split.
    + rewrite Hparse. unfold parseNBTLeafPage.
      pose proof (page_entries_back (A := NBTLeafEntry) FormatANSI es raw) as Hpe. cbn in Hpe.
      unfold page_data, page_count, IsLeaf. cbn [BP_Level BP_Trailer BP_NBTEntries]. rewrite Ht. cbn.
      erewrite Hpe; [by rewrite bind_Ok|done|done|done|exact Hpre|exact Hle|].
      subst payload. unfold btpayload, page_data, IsLeaf. cbn. rewrite Ht. cbn. eauto.
    + cbn. done.
  - rewrite Ht in Hparse. cbn in Hparse. exists raw. eexists. rewrite Ht. split; [done|].
    split; [done|]. split.
    + rewrite Hparse. unfold parseBBTLeafPage.
      pose proof (page_entries_back (A := BBTLeafEntry) FormatANSI es raw) as Hpe. cbn in Hpe.
      unfold page_data, page_count, IsLeaf. cbn [BP_Level BP_Trailer BP_BBTEntries]. rewrite Ht. cbn.
      erewrite Hpe; [by rewrite bind_Ok|done|done|done|exact Hpre|exact Hle|].
      subst payload. unfold btpayload, page_data, IsLeaf. cbn. rewrite Ht. cbn. eauto.
    + cbn. done.
  - rewrite (proj2 (Z.eqb_neq lv 0)) in Hparse by lia. exists raw. eexists. split; [done|].
    split; [done|]. split.
    + rewrite Hparse. unfold parseBTNonleafPage.
      pose proof (page_entries_back (A := BTNonleafEntry) FormatANSI es raw) as Hpe. cbn in Hpe.
      unfold page_data, page_count, IsLeaf. cbn [BP_Level BP_Trailer BP_NonleafEntries].
      rewrite (proj2 (Z.eqb_neq lv 0)) by lia. cbn.
      erewrite Hpe; [by rewrite bind_Ok|done|done|done|exact Hpre|exact Hle|].
      subst payload. unfold btpayload, page_data, IsLeaf. cbn.
      rewrite (proj2 (Z.eqb_neq lv 0)) by lia. cbn. eauto.
    + cbn. done.
Qed.
(** Every ANSI B-tree page (leaf of either tree, or inner page) that the
    writers construct is parsed back with the same level, entries and BID. *)
Theorem ansi_btpage_roundtrip page :
  btpage_wf FormatANSI page →
  ∃ raw p, BuildBTPage page FormatANSI = Ok raw ∧ blen raw = PageSize ∧
    ParseBTPage raw FormatANSI (PT_PageType (BP_Trailer page)) = Ok p ∧
    BP_Level p = BP_Level page ∧ BP_NBTEntries p = BP_NBTEntries page ∧
    BP_BBTEntries p = BP_BBTEntries page ∧ BP_NonleafEntries p = BP_NonleafEntries page ∧
    PT_BID (BP_Trailer p) = PT_BID (BP_Trailer page).
Proof. apply ansi_btpage_back. Qed.
Lemma ansi_btpage_roundtrip_witness :
  ∃ raw p, BuildBTPage (NewNBTLeafPage [mkNBTLeaf 33 8 0 0; mkNBTLeaf 290 12 18 290] 17920) FormatANSI = Ok raw ∧
    blen raw = PageSize ∧ ParseBTPage raw FormatANSI PageTypeNBT = Ok p ∧ BP_Level p = 0 ∧
    BP_NBTEntries p = [mkNBTLeaf 33 8 0 0; mkNBTLeaf 290 12 18 290] ∧
    BP_BBTEntries p = [] ∧ BP_NonleafEntries p = [] ∧ PT_BID (BP_Trailer p) = 17920.
Proof.
  apply (ansi_btpage_roundtrip (NewNBTLeafPage [mkNBTLeaf 33 8 0 0; mkNBTLeaf 290 12 18 290] 17920)).
  constructor; [done|by vm_compute| |by vm_compute]. repeat constructor; by vm_compute.
Defined.

(** Whatever B-tree page the writers construct in the Unicode format, the
    parser reads it back as an empty leaf: the writer puts the page header
    directly before the trailer, the parser expects it four bytes earlier. *)
Theorem unicode_btpage_reads_empty page :
  btpage_wf FormatUnicode page →
  ∃ raw p, BuildBTPage page FormatUnicode = Ok raw ∧ blen raw = PageSize ∧
    ParseBTPage raw FormatUnicode (PT_PageType (BP_Trailer page)) = Ok p ∧
    IsLeaf p = true ∧ BP_NBTEntries p = [] ∧ BP_BBTEntries p = [] ∧ BP_NonleafEntries p = [].
Proof.
  intros Hwf. assert (known FormatUnicode) as Hk by done.
  destruct (btpage_wf_size _ page Hk Hwf) as (_ & _ & _ & _ & _ & _ & _ & Hpt).
  destruct (BuildBTPage_Parse _ page _ _ _ _ Hk Hwf (btpayload_header _ _ Hk Hwf))
    as (raw & t & Hb & Hr & Hbid & Hpre & Hparse).
  exists raw, (mkBTPage t (mkBTPageHeader 0 0 0 0) 0 [] [] []).
  split; [done|]. split; [done|]. split; [|done].
  rewrite Hparse. by destruct Hpt as [-> | ->].
Qed.
Lemma unicode_btpage_reads_empty_witness :
  ∃ raw p, BuildBTPage (NewNBTLeafPage [mkNBTLeaf 33 8 0 0; mkNBTLeaf 290 12 18 290] 17920) FormatUnicode = Ok raw ∧
    blen raw = PageSize ∧ ParseBTPage raw FormatUnicode PageTypeNBT = Ok p ∧
    IsLeaf p = true ∧ BP_NBTEntries p = [] ∧ BP_BBTEntries p = [] ∧ BP_NonleafEntries p = [].
Proof.
  apply (unicode_btpage_reads_empty (NewNBTLeafPage [mkNBTLeaf 33 8 0 0; mkNBTLeaf 290 12 18 290] 17920)).
  constructor; [done|by vm_compute| |by vm_compute]. repeat constructor; by vm_compute.
Defined.
