(* ===== verification/Block.v ===== *)
(** * Blocks ([pkg/disk/block.go], [pkg/disk/block_write.go])

    Block trailers, data blocks with padding and obfuscation, extended blocks
    (XBLOCK/XXBLOCK) and subnode blocks, their parsers and builders. *)
From S2P Require Import Prelude Format Codec Crypt Ids.

(** ** Data *)
Record BlockTrailer := mkBlockTrailer { BT_Size : Z; BT_Signature : Z; BT_CRC : Z; BT_BID : Z }.
Record ExtendedBlock := mkExtended {
  EB_BlockType : Z; EB_Level : Z; EB_Count : Z; EB_TotalSize : Z; EB_BIDs : list Z }.
Record SubnodeLeafEntry := mkSubLeaf { SE_NID : Z; SE_DataBID : Z; SE_SubBID : Z }.
Record SubnodeNonleafEntry := mkSubNonleaf { SK_Key : Z; SK_SubBID : Z }.
Record SubnodeBlock := mkSubnode {
  SB_BlockType : Z; SB_Level : Z; SB_Count : Z;
  SB_LeafEntries : list SubnodeLeafEntry; SB_NonleafEntries : list SubnodeNonleafEntry }.
Definition SB_IsLeaf (sb : SubnodeBlock) : bool := SB_Level sb =? 0.

(** ** Trailers *)
Definition ParseBlockTrailerUnicode (data : bytes) : result BlockTrailer :=
  sz ← rd 2 0 data; sig ← rd 2 2 data; crc ← rd 4 4 data; bid ← rd 8 8 data;
  mret (mkBlockTrailer sz sig crc bid).
Definition ParseBlockTrailerANSI (data : bytes) : result BlockTrailer :=
  sz ← rd 2 0 data; sig ← rd 2 2 data; bid ← rd 4 4 data; crc ← rd 4 8 data;
  mret (mkBlockTrailer sz sig crc bid).
Definition blockTrailerSize (format : PSTFormat) : Z :=
  if is_ANSI format then BlockTrailerSizeANSI else BlockTrailerSizeUnicode.

(** ** Parsing internal blocks

    [data] is the slice the caller passes, [spare] the bytes between its length
    and its capacity: reslicing may reach into them, indexing may not. *)
Definition parse_bid (buf : bytes) (format : PSTFormat) (off : Z) : result Z :=
  if is_Unicode format then rd 8 off buf else rd 4 off buf.
Definition bidSize (format : PSTFormat) : Z := if is_ANSI format then 4 else 8.

Definition ParseExtendedBlock (data spare : bytes) (format : PSTFormat) : result ExtendedBlock :=
  if blen data <? 8 then Err (EFmt "data too small for extended block header" []) else
  let buf := data ++ spare in
  bt ← index data 0; lv ← index data 1; count ← rd 2 2 buf; total ← rd 4 4 buf;
  if negb (bt =? BlockTypeExtended)
  then Err (EFmt "invalid extended block type: got 0x%02X, expected 0x%02X" [bt; BlockTypeExtended])
  else
  bids ← parse_entries (parse_bid buf format) (Z.to_nat count) 8 (bidSize format);
  mret (mkExtended bt lv count total bids).

Definition parseSubnodeLeaf (buf : bytes) (format : PSTFormat) (offset : Z) : result SubnodeLeafEntry :=
  if is_Unicode format then
    n ← rd 8 offset buf; d ← rd 8 (offset + 8) buf; s ← rd 8 (offset + 16) buf; mret (mkSubLeaf n d s)
  else
    n ← rd 4 offset buf; d ← rd 4 (offset + 4) buf; s ← rd 4 (offset + 8) buf; mret (mkSubLeaf n d s).
Definition parseSubnodeNonleaf (buf : bytes) (format : PSTFormat) (offset : Z) : result SubnodeNonleafEntry :=
  if is_Unicode format then
    k ← rd 8 offset buf; s ← rd 8 (offset + 8) buf; mret (mkSubNonleaf k s)
  else
    k ← rd 4 offset buf; s ← rd 4 (offset + 4) buf; mret (mkSubNonleaf k s).

Definition ParseSubnodeBlock (data spare : bytes) (format : PSTFormat) : result SubnodeBlock :=
  if blen data <? 4 then Err (EFmt "data too small for subnode block header" []) else
  let buf := data ++ spare in
  bt ← index data 0; lv ← index data 1; count ← rd 2 2 buf;
  if negb (bt =? BlockTypeSubnode)
  then Err (EFmt "invalid subnode block type: got 0x%02X, expected 0x%02X" [bt; BlockTypeSubnode])
  else
  let offset := if is_Unicode format then 8 else 4 in
  if lv =? 0 then
    es ← parse_entries (parseSubnodeLeaf buf format) (Z.to_nat count) offset
           (if is_Unicode format then 24 else 12);
    mret (mkSubnode bt lv count es [])
  else
    es ← parse_entries (parseSubnodeNonleaf buf format) (Z.to_nat count) offset
           (if is_Unicode format then 16 else 8);
    mret (mkSubnode bt lv count [] es).

(** ** Sizes *)
Definition BlockDataSize (dataSize : Z) (format : PSTFormat) : Z :=
  let alignedSize := AlignDisk dataSize in
  if is_Unicode format then u64 (alignedSize + BlockTrailerSizeUnicode)
  else u64 (alignedSize + BlockTrailerSizeANSI).
Definition CalculateBlockDiskSize (dataSize : Z) (format : PSTFormat) : Z :=
  let alignedSize := AlignDisk dataSize in
  if is_Unicode format then u64 (alignedSize + BlockTrailerSizeUnicode)
  else u64 (alignedSize + BlockTrailerSizeANSI).

(** ** Building blocks *)
Definition BuildBlock (data : bytes) (bid offset : Z) (format : PSTFormat) (crypt : Z) : result bytes :=
  let dataSize := blen data in
  if MaxDataBlockSizeUnicode <? dataSize
  then Err (EFmt "block data too large: %d bytes (max %d)" [dataSize; MaxDataBlockSizeUnicode]) else
  let alignedDataSize := AlignDisk dataSize in
  let totalSize := alignedDataSize + blockTrailerSize format in
  let buf := zeros totalSize in
  let isInternal := negb (Z.land bid 0x2 =? 0) in
  let buf :=
    if negb (crypt =? CryptMethodNone) && negb isInternal
    then splice 0 (EncryptBlock data crypt bid) buf
    else splice 0 data buf in
  pre ← slice buf 0 alignedDataSize;
  let crc := ComputeCRC pre in
  let sig := ComputeSignature bid offset in
  let tr := alignedDataSize in
  buf ← put 2 tr (u16 dataSize) buf; buf ← put 2 (tr + 2) sig buf;
  if is_Unicode format then
    buf ← put 4 (tr + 4) crc buf; put 8 (tr + 8) bid buf
  else
    buf ← put 4 (tr + 4) (u32 bid) buf; put 4 (tr + 8) crc buf.

Definition enc_bid (format : PSTFormat) (bid : Z) : bytes :=
  if is_Unicode format then le_enc 8 bid else le_enc 4 (u32 bid).
Definition enc_ref (format : PSTFormat) (bid : Z) : bytes :=
  enc_bid format bid ++ (if is_Unicode format then [] else unused_pad format 4).
Definition enc_SubLeaf (format : PSTFormat) (e : SubnodeLeafEntry) : bytes :=
  enc_bid format (SE_NID e) ++ enc_bid format (SE_DataBID e) ++ enc_bid format (SE_SubBID e)
  ++ (if is_Unicode format then [] else unused_pad format 12).
Definition enc_SubNonleaf (format : PSTFormat) (e : SubnodeNonleafEntry) : bytes :=
  enc_bid format (SK_Key e) ++ enc_bid format (SK_SubBID e)
  ++ (if is_Unicode format then [] else unused_pad format 8).

(** The builders write each entry into its own window of a zeroed buffer of
    exactly [header + n * entrySize] bytes. *)
Definition BuildExtendedBlock (level : Z) (bids : list Z) (totalSize bid offset : Z)
    (format : PSTFormat) : result bytes :=
  let maxEntries := if is_ANSI format then MaxXBlockEntriesANSI else MaxXBlockEntriesUnicode in
  if maxEntries <? blen bids
  then Err (EFmt "too many BIDs for extended block: %d (max %d)" [blen bids; maxEntries]) else
  let data := zeros (8 + blen bids * bidSize format) in
  data ← put8 0 BlockTypeExtended data; data ← put8 1 level data;
  data ← put 2 2 (u16 (blen bids)) data; data ← put 4 4 totalSize data;
  data ← put_bytes 8 (concat (map (enc_ref format) bids)) data;
  BuildBlock data (Z.lor bid 0x2) offset format CryptMethodNone.

Definition BuildSubnodeLeafBlock (entries : list SubnodeLeafEntry) (bid offset : Z)
    (format : PSTFormat) : result bytes :=
  let maxEntries := if is_ANSI format then MaxSubnodeLeafEntriesANSI else MaxSubnodeLeafEntriesUnicode in
  if maxEntries <? blen entries
  then Err (EFmt "too many subnode entries: %d (max %d)" [blen entries; maxEntries]) else
  let entrySize := if is_ANSI format then 12 else 24 in
  let headerSize := if is_ANSI format then 4 else 8 in
  let data := zeros (headerSize + blen entries * entrySize) in
  data ← put8 0 BlockTypeSubnode data; data ← put8 1 0 data;
  data ← put 2 2 (u16 (blen entries)) data;
  data ← put_bytes headerSize (concat (map (enc_SubLeaf format) entries)) data;
  BuildBlock data (Z.lor bid 0x2) offset format CryptMethodNone.

Definition BuildSubnodeNonleafBlock (entries : list SubnodeNonleafEntry) (level bid offset : Z)
    (format : PSTFormat) : result bytes :=
  let entrySize := if is_ANSI format then 8 else 16 in
  let headerSize := if is_ANSI format then 4 else 8 in
  let data := zeros (headerSize + blen entries * entrySize) in
  data ← put8 0 BlockTypeSubnode data; data ← put8 1 level data;
  data ← put 2 2 (u16 (blen entries)) data;
  data ← put_bytes headerSize (concat (map (enc_SubNonleaf format) entries)) data;
  BuildBlock data (Z.lor bid 0x2) offset format CryptMethodNone.

(** ** Validating a trailer *)
Definition ValidateBlockTrailer (data : bytes) (trailer : BlockTrailer) (bid offset : Z) : result unit :=
  let alignedSize := AlignDisk (BT_Size trailer) in
  pre ← slice data 0 alignedSize;
  let expectedCRC := ComputeCRC pre in
  if negb (BT_CRC trailer =? expectedCRC)
  then Err (EFmt "CRC mismatch: got 0x%08X, expected 0x%08X" [BT_CRC trailer; expectedCRC]) else
  let expectedSig := ComputeSignature bid offset in
  if negb (BT_Signature trailer =? expectedSig)
  then Err (EFmt "signature mismatch: got 0x%04X, expected 0x%04X" [BT_Signature trailer; expectedSig]) else
  if negb (BT_BID trailer =? bid)
  then Err (EFmt "BID mismatch: got 0x%X, expected 0x%X" [BT_BID trailer; bid])
  else mret tt.

(** ** Entry codecs *)
Definition SubLeaf_wf (f : PSTFormat) (e : SubnodeLeafEntry) : Prop :=
  fits (id_width f) (SE_NID e) ∧ fits (id_width f) (SE_DataBID e) ∧ fits (id_width f) (SE_SubBID e).
Definition SubNonleaf_wf (f : PSTFormat) (e : SubnodeNonleafEntry) : Prop :=
  fits (id_width f) (SK_Key e) ∧ fits (id_width f) (SK_SubBID e).

#[export] Program Instance bid_codec : EntryCodec Z := {|
  ec_enc := enc_ref; ec_dec := parse_bid; ec_size := bidSize; ec_wf f b := fits (id_width f) b |}.
Next Obligation. by destruct f. Qed.
Next Obligation. by destruct f. Qed.
Next Obligation.
  intros f e data off Hk H1 Hoff Hlen Hw. cbn in *.
  destruct f; [done|unfold parse_bid, enc_ref, enc_bid, id_width, bidSize in *; cbn [is_Unicode is_ANSI] in *..].
  - rewrite u32_small in Hw by done. drop_pad Hw. solve_codec Hw 4.
  - rewrite app_nil_r in Hw. solve_codec Hw 8.
Qed.

#[export] Program Instance SubLeaf_codec : EntryCodec SubnodeLeafEntry := {|
  ec_enc := enc_SubLeaf; ec_dec := parseSubnodeLeaf;
  ec_size f := if is_Unicode f then 24 else 12; ec_wf := SubLeaf_wf |}.
Next Obligation. by destruct f. Qed.
Next Obligation. by destruct f. Qed.
Next Obligation.
  intros f e data off Hk (H1 & H2 & H3) Hoff Hlen Hw. destruct e as [n d s]. cbn in *.
  destruct f; [done|unfold parseSubnodeLeaf, enc_SubLeaf, enc_bid, id_width in *; cbn [is_Unicode] in *..].
  - rewrite !u32_small in Hw by done. drop_pad Hw. solve_codec Hw 12.
  - rewrite app_nil_r in Hw. solve_codec Hw 24.
Qed.

#[export] Program Instance SubNonleaf_codec : EntryCodec SubnodeNonleafEntry := {|
  ec_enc := enc_SubNonleaf; ec_dec := parseSubnodeNonleaf;
  ec_size f := if is_Unicode f then 16 else 8; ec_wf := SubNonleaf_wf |}.
Next Obligation. by destruct f. Qed.
Next Obligation. by destruct f. Qed.
Next Obligation.
  intros f e data off Hk (H1 & H2) Hoff Hlen Hw. destruct e as [k s]. cbn in *.
  destruct f; [done|unfold parseSubnodeNonleaf, enc_SubNonleaf, enc_bid, id_width in *; cbn [is_Unicode] in *..].
  - rewrite !u32_small in Hw by done. drop_pad Hw. solve_codec Hw 8.
  - rewrite app_nil_r in Hw. solve_codec Hw 16.
Qed.

(** ** The layout of a built block *)
Definition enc_blockTrailer (format : PSTFormat) (size sig bid crc : Z) : bytes :=
  le_enc 2 size ++ le_enc 2 sig ++
  (if is_Unicode format then le_enc 4 crc ++ le_enc 8 bid else le_enc 4 (u32 bid) ++ le_enc 4 crc).

(** The bytes stored for [data]: obfuscated only in external blocks. *)
Definition stored (data : bytes) (bid crypt : Z) : bytes :=
  if negb (crypt =? CryptMethodNone) && IsExternal bid then EncryptBlock data crypt bid else data.

Lemma blen_EncryptBlock data m bid : blen (EncryptBlock data m bid) = blen data.
Proof.
  unfold EncryptBlock, PermuteEncode, CyclicEncode. repeat case_match; rewrite ?blen_map, ?blen_cyclic_loop; done.
Qed.
Lemma blen_stored data bid crypt : blen (stored data bid crypt) = blen data.
Proof. unfold stored. case_match; [apply blen_EncryptBlock|done]. Qed.
#[export] Hint Rewrite blen_stored : blen.
Lemma bytes_ok_stored data bid crypt : bytes_ok data → bytes_ok (stored data bid crypt).
Proof.
  intros. unfold stored, EncryptBlock. repeat case_match; try done.
  - apply bytes_ok_map. auto with pst.
  - apply bytes_ok_cyclic.
Qed.

Lemma AlignDisk_block n :
  0 ≤ n ≤ MaxDataBlockSizeUnicode → n ≤ AlignDisk n ≤ 8192 ∧ AlignDisk n mod 64 = 0.
Proof.
  unfold MaxDataBlockSizeUnicode. intros. destruct (AlignDisk_spec n) as [? ?]; [lia..|].
  pose proof (Z_div_mod_eq_full (AlignDisk n) 64). split; [lia|done].
Qed.

Lemma splice_zeros_split (data : bytes) n m :
  blen data ≤ n → 0 ≤ m →
  splice 0 data (zeros (n + m)) = (data ++ zeros (n - blen data)) ++ zeros m.
Proof.
  intros. rewrite splice_0_zeros by lia. rewrite <- app_assoc. f_equal. unfold zeros.
  rewrite <- replicate_add. f_equal. pose proof (blen_nonneg data). lia.
Qed.

Lemma BuildBlock_layout data bid offset format crypt :
  known format → blen data ≤ MaxDataBlockSizeUnicode →
  let s := stored data bid crypt in
  let payload := s ++ zeros (AlignDisk (blen data) - blen data) in
  blen payload = AlignDisk (blen data) ∧
  BuildBlock data bid offset format crypt
  = Ok (payload ++ enc_blockTrailer format (blen data) (ComputeSignature bid offset) bid (ComputeCRC payload)).
Proof.
  intros Hk Hl s payload. pose proof (blen_nonneg data).
  destruct (AlignDisk_block (blen data)) as [Ha _]; [lia|].
  assert (blen payload = AlignDisk (blen data)) as Hp by (subst payload s; blia).
  split; [done|]. unfold BuildBlock. rewrite (proj2 (Z.ltb_ge _ _)) by lia.
  rewrite u16_small by (unfold MaxDataBlockSizeUnicode in *; lia).
  replace (if negb (crypt =? CryptMethodNone) && negb (negb (Z.land bid 0x2 =? 0)) then _ else _)
    with (payload ++ zeros (blockTrailerSize format)).
  2:{ subst payload s. unfold stored, IsExternal, BlockIDInternalBit. rewrite negb_involutive.
      assert (0 ≤ blockTrailerSize format) by (destruct format; cbv; done).
      destruct (_ && _); rewrite splice_zeros_split by (rewrite ?blen_EncryptBlock; lia);
        by rewrite ?blen_EncryptBlock. }
  rewrite slice_Ok by blia. rewrite bind_Ok, Z.sub_0_r, sub_app_l, sub_0_all by blia.
  assert (blen (payload ++ zeros (blockTrailerSize format)) = AlignDisk (blen data) + blockTrailerSize format) as Hb.
  { autorewrite with blen. rewrite Hp. assert (0 ≤ blockTrailerSize format) by (destruct format; cbv; done). lia. }
  destruct format; [done|cbn [is_Unicode blockTrailerSize is_ANSI] in *..].
  - unfold BlockTrailerSizeANSI in *. buf_write. unfold enc_blockTrailer. cbn [is_Unicode]. f_equal.
    change (zeros 12) with (zeros 2 ++ zeros 2 ++ zeros 4 ++ zeros 4). buf_layout. done.
  - unfold BlockTrailerSizeUnicode in *. buf_write. unfold enc_blockTrailer. cbn [is_Unicode]. f_equal.
    change (zeros 16) with (zeros 2 ++ zeros 2 ++ zeros 4 ++ zeros 8). buf_layout. done.
Qed.

(** ** Reading a built block *)

(** The trailer a reader of the given format parses at [off] in a block. *)
Definition parse_block_trailer_of (format : PSTFormat) (raw : bytes) (off : Z) : result BlockTrailer :=
  tr ← slice raw off (blen raw);
  (if is_Unicode format then ParseBlockTrailerUnicode else ParseBlockTrailerANSI) tr.

(** The last step of [ReadBlockDataFromInfo] ([pkg/ndb/database.go]). *)
Definition decryptData (data : bytes) (bid crypt : Z) : bytes :=
  if negb (IsInternal bid) && negb (crypt =? CryptMethodNone) then DecryptBlock data crypt bid else data.

Lemma parse_block_trailer format size sig bid crc :
  known format → fits 16 size → fits (id_width format) bid → fits 16 sig → fits 32 crc →
  (if is_Unicode format then ParseBlockTrailerUnicode else ParseBlockTrailerANSI)
    (enc_blockTrailer format size sig bid crc)
  = Ok (mkBlockTrailer size sig crc bid).
Proof.
  intros Hk Hs Hbid Hsig Hcrc.
  destruct format; [done|cbn [is_Unicode id_width enc_blockTrailer] in *..].
  - unfold ParseBlockTrailerANSI, enc_blockTrailer. cbn [is_Unicode]. rewrite u32_small by done.
    buf_parse. buf_fields. by rewrite !le_dec_enc_fits by done.
  - unfold ParseBlockTrailerUnicode, enc_blockTrailer. cbn [is_Unicode].
    buf_parse. buf_fields. by rewrite !le_dec_enc_fits by done.
Qed.

Lemma ValidateBlockTrailer_ok payload suffix t bid offset :
  blen payload = AlignDisk (BT_Size t) → BT_CRC t = ComputeCRC payload →
  BT_Signature t = ComputeSignature bid offset → BT_BID t = bid →
  ValidateBlockTrailer (payload ++ suffix) t bid offset = Ok tt.
Proof.
  intros Hp H1 H2 H3. unfold ValidateBlockTrailer. pose proof (blen_nonneg suffix).
  pose proof (blen_nonneg payload). rewrite slice_Ok by blia.
  rewrite bind_Ok, Z.sub_0_r, sub_app_l, sub_0_all by lia.
  by rewrite H1, H2, H3, !Z.eqb_refl.
Qed.
Lemma ValidateBlockTrailer_crc payload suffix t bid offset :
  blen payload = AlignDisk (BT_Size t) → BT_CRC t ≠ ComputeCRC payload →
  ValidateBlockTrailer (payload ++ suffix) t bid offset
  = Err (EFmt "CRC mismatch: got 0x%08X, expected 0x%08X" [BT_CRC t; ComputeCRC payload]).
Proof.
  intros Hp H1. unfold ValidateBlockTrailer. pose proof (blen_nonneg suffix).
  pose proof (blen_nonneg payload). rewrite slice_Ok by blia.
  rewrite bind_Ok, Z.sub_0_r, sub_app_l, sub_0_all by lia.
  by rewrite (proj2 (Z.eqb_neq _ _) H1).
Qed.

Lemma decryptData_stored data bid crypt :
  bytes_ok data → crypt ≠ CryptMethodCyclic ∨ IsInternal bid = true →
  decryptData (stored data bid crypt) bid crypt = data.
Proof.
  intros Hd Hc. unfold decryptData, stored, IsInternal, IsExternal in *.
  destruct (Z.land bid BlockIDInternalBit =? 0) eqn:E; cbn [negb andb] in *; [|by rewrite andb_false_r].
  rewrite andb_true_r. destruct (crypt =? CryptMethodNone) eqn:En; [done|]. cbn [negb].
  destruct Hc as [Hc|]; [|done]. unfold DecryptBlock, EncryptBlock. rewrite En.
  destruct (crypt =? CryptMethodPermute); [by apply PermuteDecode_Encode|].
  by destruct (Z.eqb_spec crypt CryptMethodCyclic).
Qed.

Lemma CalculateBlockDiskSize_block n format :
  known format → 0 ≤ n ≤ MaxDataBlockSizeUnicode →
  CalculateBlockDiskSize n format = AlignDisk n + blockTrailerSize format.
Proof.
  intros Hk Hn. destruct (AlignDisk_block n Hn) as [? _].
  unfold CalculateBlockDiskSize. destruct format; [done|..]; cbn; apply u64_small;
    unfold BlockTrailerSizeANSI, BlockTrailerSizeUnicode; lia.
Qed.

(** A block written by [BuildBlock] has the size [CalculateBlockDiskSize]
    announces, its trailer parses back to the data size and BID and validates
    at the offset it was built for, reading and decrypting its data gives the
    original bytes (unless the block is external and cyclic), and overwriting
    any one of its data or padding bytes makes the validation fail with a CRC
    error. *)
Theorem BuildBlock_roundtrip data bid offset format crypt :
  known format → bytes_ok data → blen data ≤ MaxDataBlockSizeUnicode →
  fits (id_width format) bid →
  ∃ raw t, BuildBlock data bid offset format crypt = Ok raw ∧
    blen raw = CalculateBlockDiskSize (blen data) format ∧
    parse_block_trailer_of format raw (AlignDisk (blen data)) = Ok t ∧
    BT_Size t = blen data ∧ BT_BID t = bid ∧
    ValidateBlockTrailer raw t bid offset = Ok tt ∧
    (crypt ≠ CryptMethodCyclic ∨ IsInternal bid = true →
     decryptData (sub raw 0 (blen data)) bid crypt = data) ∧
    ∀ i b, 0 ≤ i < AlignDisk (blen data) → is_byte b → raw !! Z.to_nat i ≠ Some b →
      ∃ args, ValidateBlockTrailer (<[Z.to_nat i := b]> raw) t bid offset
              = Err (EFmt "CRC mismatch: got 0x%08X, expected 0x%08X" args).
Proof.
  intros Hk Hd Hl Hbid. pose proof (blen_nonneg data).
  destruct (BuildBlock_layout data bid offset format crypt Hk Hl) as [Hp Hb].
  destruct (AlignDisk_block (blen data)) as [Ha _]; [lia|].
  set (payload := stored _ _ _ ++ _) in *. set (sig := ComputeSignature bid offset) in *.
  assert (bytes_ok payload) as Hpb.
  { apply Forall_app; split; [by apply bytes_ok_stored|auto with pst]. }
  assert (blen (enc_blockTrailer format (blen data) sig bid (ComputeCRC payload)) = blockTrailerSize format) as Ht
    by (by destruct format).
  assert (fits 16 (blen data)) as Hsz by (unfold fits, MaxDataBlockSizeUnicode in *; lia).
  eexists _, (mkBlockTrailer (blen data) sig (ComputeCRC payload) bid). split; [exact Hb|].
  assert (blen (payload ++ enc_blockTrailer format (blen data) sig bid (ComputeCRC payload))
          = AlignDisk (blen data) + blockTrailerSize format) as Hr by (rewrite blen_app; lia).
  assert (0 ≤ blockTrailerSize format) by (destruct format; cbv; done).
  split; [rewrite Hr; symmetry; apply CalculateBlockDiskSize_block; [done|lia]|].
  split; [|split; [done|split; [done|split; [by apply ValidateBlockTrailer_ok|split]]]].
  - unfold parse_block_trailer_of. rewrite slice_Ok by lia. rewrite bind_Ok, sub_app_r, Hp by lia.
    rewrite sub_all by lia.
    apply parse_block_trailer; [done..|apply ComputeSignature_range|by apply ComputeCRC_fits].
  - intros Hc. rewrite sub_app_l by lia. subst payload. rewrite sub_app_l by blia.
    rewrite sub_all by blia. by apply decryptData_stored.
  - intros i b Hi Hby Hne. eexists.
    assert (Z.to_nat i < length payload)%nat as Hlt by (unfold blen in *; lia).
    rewrite insert_app_l by done.
    apply ValidateBlockTrailer_crc; [unfold blen in *; by rewrite length_insert|].
    cbn [BT_CRC]. intros Heq. rewrite lookup_app_l in Hne by done.
    by eapply (ComputeCRC_insert payload (Z.to_nat i) b).
Qed.
Lemma BuildBlock_roundtrip_witness :
  ∃ raw t, BuildBlock [1; 2; 250] 4 17920 FormatANSI CryptMethodPermute = Ok raw ∧
    blen raw = CalculateBlockDiskSize 3 FormatANSI ∧
    parse_block_trailer_of FormatANSI raw (AlignDisk 3) = Ok t ∧
    BT_Size t = 3 ∧ BT_BID t = 4 ∧ ValidateBlockTrailer raw t 4 17920 = Ok tt ∧
    (CryptMethodPermute ≠ CryptMethodCyclic ∨ IsInternal 4 = true →
     decryptData (sub raw 0 3) 4 CryptMethodPermute = [1; 2; 250]) ∧
    ∀ i b, 0 ≤ i < AlignDisk 3 → is_byte b → raw !! Z.to_nat i ≠ Some b →
      ∃ args, ValidateBlockTrailer (<[Z.to_nat i := b]> raw) t 4 17920
              = Err (EFmt "CRC mismatch: got 0x%08X, expected 0x%08X" args).
Proof.
  apply (BuildBlock_roundtrip [1; 2; 250] 4 17920 FormatANSI CryptMethodPermute); try (by vm_compute).
  repeat constructor; by vm_compute.
Defined.

(** ** Internal blocks *)

(** Header and entries of an internal block: type, level, count, then
    [rest] (the total size, the Unicode padding or nothing). *)
Definition internal_data (ty level count : Z) (rest entries : bytes) : bytes :=
  ([ty; level] ++ le_enc 2 count ++ rest) ++ entries.

(** Data of an internal block read off the built block. *)
Definition read_internal (raw : bytes) (size : Z) : bytes := sub raw 0 size.

Lemma BuildBlock_internal data bid offset format :
  known format → blen data ≤ MaxDataBlockSizeUnicode →
  ∃ raw, BuildBlock data (Z.lor bid 0x2) offset format CryptMethodNone = Ok raw ∧
         read_internal raw (blen data) = data.
Proof.
  intros Hk Hl. pose proof (blen_nonneg data).
  destruct (BuildBlock_layout data (Z.lor bid 0x2) offset format CryptMethodNone Hk Hl) as [Hp Hb].
  cbn [stored CryptMethodNone Z.eqb negb andb] in *.
  eexists. split; [exact Hb|]. unfold read_internal.
  rewrite sub_app_l by (rewrite ?Hp; destruct (AlignDisk_block (blen data)); lia).
  rewrite sub_app_l by lia. by rewrite sub_all.
Qed.

Lemma BuildExtendedBlock_data level bids total bid offset format :
  known format → blen bids ≤ (if is_ANSI format then MaxXBlockEntriesANSI else MaxXBlockEntriesUnicode) →
  BuildExtendedBlock level bids total bid offset format
  = BuildBlock (internal_data BlockTypeExtended level (blen bids) (le_enc 4 total) (concat (map (enc_ref format) bids)))
      (Z.lor bid 0x2) offset format CryptMethodNone.
Proof.
  intros Hk Hl. unfold BuildExtendedBlock. pose proof (blen_nonneg bids).
  rewrite (proj2 (Z.ltb_ge _ _)) by lia.
  assert (blen bids ≤ 2040) by
    (unfold MaxXBlockEntriesANSI, MaxXBlockEntriesUnicode in Hl; destruct (is_ANSI format); lia).
  rewrite u16_small by lia.
  pose proof (blen_enc_entries format Hk bids) as E. cbn in E.
  assert (0 < bidSize format) by (destruct format; cbv; done).
  assert (0 ≤ blen bids * bidSize format) by nia.
  replace (zeros (8 + blen bids * bidSize format))
    with (zeros 1 ++ zeros 1 ++ zeros 2 ++ zeros 4 ++ zeros (blen bids * bidSize format))
    by (unfold zeros; rewrite <- !replicate_add; f_equal; lia).
  buf_write. unfold internal_data. rewrite <- !app_assoc. f_equal.
  repeat first [rewrite splice_head by blia | rewrite splice_skip by blia].
  rewrite splice_all by blia. done.
Qed.

Lemma BuildSubnode_data {A} (encs : list A) (enc : A → bytes) esz level format bid offset (hdr : Z) :
  hdr = (if is_ANSI format then 4 else 8) → 0 ≤ esz → blen encs < 65536 →
  blen (concat (map enc encs)) = blen encs * esz →
  (let data := zeros (hdr + blen encs * esz) in
   data ← put8 0 BlockTypeSubnode data; data ← put8 1 level data;
   data ← put 2 2 (u16 (blen encs)) data;
   data ← put_bytes hdr (concat (map enc encs)) data;
   BuildBlock data bid offset format CryptMethodNone)
  = BuildBlock (internal_data BlockTypeSubnode level (blen encs) (zeros (hdr - 4)) (concat (map enc encs)))
      bid offset format CryptMethodNone.
Proof.
  intros Hh Hs Hl E. pose proof (blen_nonneg encs). rewrite u16_small by lia.
  assert (hdr = 4 ∨ hdr = 8) by (destruct (is_ANSI format); auto).
  assert (0 ≤ blen encs * esz) by nia. cbv zeta.
  replace (zeros (hdr + blen encs * esz))
    with (zeros 1 ++ zeros 1 ++ zeros 2 ++ zeros (hdr - 4) ++ zeros (blen encs * esz))
    by (unfold zeros; rewrite <- !replicate_add; f_equal; lia).
  buf_write. unfold internal_data. rewrite <- !app_assoc. f_equal.
  repeat first [rewrite splice_head by blia | rewrite splice_skip by blia].
  rewrite splice_all by blia. done.
Qed.

(** The header fields and the entry array of an internal block. *)
Lemma blen_internal ty level count rest entries :
  blen (internal_data ty level count rest entries) = 4 + blen rest + blen entries.
Proof. unfold internal_data. blia. Qed.
Lemma internal_header ty level count rest entries spare :
  blen rest = 0 ∨ blen rest = 4 → fits 16 count →
  let data := internal_data ty level count rest entries in
  index data 0 = Ok ty ∧ index data 1 = Ok level ∧ rd 2 2 (data ++ spare) = Ok count.
Proof.
  intros Hr Hc data. pose proof (blen_nonneg entries). pose proof (blen_nonneg spare).
  split; [done|split; [done|]].
  rewrite rd_Ok; [|done|subst data; rewrite blen_app, blen_internal; lia].
  subst data. unfold internal_data. change [ty; level] with ([ty] ++ [level]).
  rewrite <- !app_assoc. buf_fields. by rewrite le_dec_enc_fits by done.
Qed.
Lemma internal_entries `{EntryCodec A} f ty level count rest (es : list A) spare :
  known f → blen rest = 0 ∨ blen rest = 4 → Forall (ec_wf f) es →
  let data := internal_data ty level count rest (concat (map (ec_enc f) es)) in
  parse_entries (ec_dec (data ++ spare) f) (Z.to_nat (blen es)) (4 + blen rest) (ec_size f) = Ok es.
Proof.
  intros Hk Hr Hw data. pose proof (blen_enc_entries f Hk es) as E.
  pose proof (blen_nonneg es). pose proof (blen_nonneg spare). pose proof (ec_size_pos f).
  assert (blen data = 4 + blen rest + blen es * ec_size f) as Hd
    by (subst data; rewrite blen_internal; lia).
  unfold blen at 1. rewrite Nat2Z.id. apply parse_entries_enc; [done|done|lia|rewrite blen_app; lia|].
  rewrite sub_app_l by nia. subst data. unfold internal_data in *.
  rewrite sub_app_r by blia. apply sub_all; blia.
Qed.

(** The data size a reader of an extended block of [n] BIDs works with: the
    size field of its trailer. *)
Definition extended_size (n : Z) (format : PSTFormat) : Z := 8 + n * bidSize format.

Lemma ParseExtendedBlock_internal level total bids format spare :
  known format → fits 32 total → blen bids < 65536 → Forall (fits (id_width format)) bids →
  ParseExtendedBlock
    (internal_data BlockTypeExtended level (blen bids) (le_enc 4 total) (concat (map (enc_ref format) bids)))
    spare format
  = Ok (mkExtended BlockTypeExtended level (blen bids) total bids).
Proof.
  intros Hk Ht Hl Hw. pose proof (blen_nonneg bids). pose proof (blen_nonneg spare).
  set (es := concat _).
  pose proof (blen_nonneg es).
  destruct (internal_header BlockTypeExtended level (blen bids) (le_enc 4 total) es spare)
    as (Hty & Hlev & Hcnt); [by right|unfold fits; lia|].
  assert (parse_entries (parse_bid (internal_data BlockTypeExtended level (blen bids) (le_enc 4 total) es ++ spare) format)
            (Z.to_nat (blen bids)) 8 (bidSize format) = Ok bids) as He.
  { exact (internal_entries (A:=Z) format BlockTypeExtended level (blen bids) (le_enc 4 total) bids spare Hk
             (or_intror eq_refl) Hw). }
  unfold ParseExtendedBlock. rewrite blen_internal, blen_le_enc, (proj2 (Z.ltb_ge _ _)) by lia.
  rewrite Hty, Hlev, !bind_Ok, Hcnt, bind_Ok.
  rewrite rd_Ok by (rewrite ?blen_app, ?blen_internal, ?blen_le_enc; lia).
  replace (sub _ 4 _) with (le_enc 4 total).
  2:{ unfold internal_data. change [BlockTypeExtended; level] with ([BlockTypeExtended] ++ [level]).
      rewrite <- !app_assoc. buf_fields. done. }
  rewrite bind_Ok, le_dec_enc_fits, Z.eqb_refl by done. cbn [negb].
  rewrite He. done.
Qed.

Lemma extended_room format n :
  known format → n ≤ (if is_ANSI format then MaxXBlockEntriesANSI else MaxXBlockEntriesUnicode) →
  n < 65536 ∧ 8 + n * bidSize format ≤ MaxDataBlockSizeUnicode.
Proof. intros Hk. destruct format; [done|..]; cbv -[Z.le Z.lt Z.add Z.mul]; lia. Qed.

(** An extended block built for at most the announced number of BIDs can be
    read back from the block's data, whatever follows that data in memory: the
    parser returns the level, the total size and exactly the BIDs written. *)
Theorem extended_block_roundtrip level bids total bid offset format spare :
  known format → fits 32 total → Forall (fits (id_width format)) bids →
  blen bids ≤ (if is_ANSI format then MaxXBlockEntriesANSI else MaxXBlockEntriesUnicode) →
  ∃ raw, BuildExtendedBlock level bids total bid offset format = Ok raw ∧
    ParseExtendedBlock (read_internal raw (extended_size (blen bids) format)) spare format
    = Ok (mkExtended BlockTypeExtended level (blen bids) total bids).
Proof.
  intros Hk Ht Hw Hl. destruct (extended_room format (blen bids) Hk Hl) as [Hc Hs].
  rewrite BuildExtendedBlock_data by done. set (data := internal_data _ _ _ _ _).
  assert (blen data = extended_size (blen bids) format) as Hd.
  { subst data. pose proof (blen_enc_entries (A:=Z) format Hk bids) as E. cbn in E.
    rewrite blen_internal, blen_le_enc. unfold extended_size. lia. }
  destruct (BuildBlock_internal data bid offset format Hk) as (raw & Hr & Hi).
  { rewrite Hd. done. }
  exists raw. split; [done|]. rewrite <- Hd, Hi. by apply ParseExtendedBlock_internal.
Qed.
Lemma extended_block_roundtrip_witness :
  ∃ raw, BuildExtendedBlock 1 [4; 8; 12] 20000 6 17920 FormatANSI = Ok raw ∧
    ParseExtendedBlock (read_internal raw (extended_size (blen [4; 8; 12]) FormatANSI)) [] FormatANSI
    = Ok (mkExtended BlockTypeExtended 1 (blen [4; 8; 12]) 20000 [4; 8; 12]).
Proof.
  refine (extended_block_roundtrip 1 [4; 8; 12] 20000 6 17920 FormatANSI [] _ _ _ _).
  - done.
  - by vm_compute.
  - repeat constructor; by vm_compute.
  - by vm_compute.
Defined.

Definition subnodeHeaderSize (format : PSTFormat) : Z := if is_ANSI format then 4 else 8.
Definition subnodeEntrySize (leaf : bool) (format : PSTFormat) : Z :=
  if leaf then (if is_ANSI format then 12 else 24) else (if is_ANSI format then 8 else 16).

Lemma ParseSubnodeBlock_leaf es format spare :
  known format → blen es < 65536 → Forall (SubLeaf_wf format) es →
  ParseSubnodeBlock (internal_data BlockTypeSubnode 0 (blen es) (zeros (subnodeHeaderSize format - 4))
      (concat (map (enc_SubLeaf format) es))) spare format
  = Ok (mkSubnode BlockTypeSubnode 0 (blen es) es []).
Proof.
  intros Hk Hl Hw. pose proof (blen_nonneg es). pose proof (blen_nonneg spare).
  assert (blen (zeros (subnodeHeaderSize format - 4)) = 0 ∨ blen (zeros (subnodeHeaderSize format - 4)) = 4)
    as Hp by (destruct format; [done|by left|by right]).
  pose proof (internal_entries (A:=SubnodeLeafEntry) format BlockTypeSubnode 0 (blen es) _ es spare Hk Hp Hw) as He.
  cbn -[internal_data parse_entries zeros] in He. set (ents := concat _) in *.
  destruct (internal_header BlockTypeSubnode 0 (blen es) _ ents spare Hp) as (Hty & Hlev & Hcnt);
    [unfold fits; lia|].
  pose proof (blen_nonneg ents).
  unfold ParseSubnodeBlock. rewrite blen_internal, (proj2 (Z.ltb_ge _ _)) by lia.
  rewrite Hty, Hlev, !bind_Ok, Hcnt, bind_Ok. cbn [negb Z.eqb Pos.eqb BlockTypeSubnode].
  replace (if is_Unicode format then 8 else 4) with (4 + blen (zeros (subnodeHeaderSize format - 4)))
    by (by destruct format).
  change (0 =? 0) with true. cbv iota. rewrite He. done.
Qed.

Lemma ParseSubnodeBlock_nonleaf level es format spare :
  known format → level ≠ 0 → blen es < 65536 → Forall (SubNonleaf_wf format) es →
  ParseSubnodeBlock (internal_data BlockTypeSubnode level (blen es) (zeros (subnodeHeaderSize format - 4))
      (concat (map (enc_SubNonleaf format) es))) spare format
  = Ok (mkSubnode BlockTypeSubnode level (blen es) [] es).
Proof.
  intros Hk Hn Hl Hw. pose proof (blen_nonneg es). pose proof (blen_nonneg spare).
  assert (blen (zeros (subnodeHeaderSize format - 4)) = 0 ∨ blen (zeros (subnodeHeaderSize format - 4)) = 4)
    as Hp by (destruct format; [done|by left|by right]).
  pose proof (internal_entries (A:=SubnodeNonleafEntry) format BlockTypeSubnode level (blen es) _ es spare Hk Hp Hw) as He.
  cbn -[internal_data parse_entries zeros] in He. set (ents := concat _) in *.
  destruct (internal_header BlockTypeSubnode level (blen es) _ ents spare Hp) as (Hty & Hlev & Hcnt);
    [unfold fits; lia|].
  pose proof (blen_nonneg ents).
  unfold ParseSubnodeBlock. rewrite blen_internal, (proj2 (Z.ltb_ge _ _)) by lia.
  rewrite Hty, Hlev, !bind_Ok, Hcnt, bind_Ok. cbn [negb Z.eqb Pos.eqb BlockTypeSubnode].
  replace (if is_Unicode format then 8 else 4) with (4 + blen (zeros (subnodeHeaderSize format - 4)))
    by (by destruct format).
  rewrite (proj2 (Z.eqb_neq _ _) Hn), He. done.
Qed.

(** Subnode blocks round trip: a leaf block (up to the announced number of
    entries) and a non-leaf block (of any level but 0 that fits in a block)
    read back from the built block's data as exactly the entries written. *)
Theorem subnode_block_roundtrip leaves nodes level bid offset format spare :
  known format → level ≠ 0 →
  Forall (SubLeaf_wf format) leaves → Forall (SubNonleaf_wf format) nodes →
  blen leaves ≤ (if is_ANSI format then MaxSubnodeLeafEntriesANSI else MaxSubnodeLeafEntriesUnicode) →
  subnodeHeaderSize format + blen nodes * subnodeEntrySize false format ≤ MaxDataBlockSizeUnicode →
  (∃ raw, BuildSubnodeLeafBlock leaves bid offset format = Ok raw ∧
     ParseSubnodeBlock (read_internal raw
         (subnodeHeaderSize format + blen leaves * subnodeEntrySize true format)) spare format
     = Ok (mkSubnode BlockTypeSubnode 0 (blen leaves) leaves [])) ∧
  (∃ raw, BuildSubnodeNonleafBlock nodes level bid offset format = Ok raw ∧
     ParseSubnodeBlock (read_internal raw
         (subnodeHeaderSize format + blen nodes * subnodeEntrySize false format)) spare format
     = Ok (mkSubnode BlockTypeSubnode level (blen nodes) [] nodes)).
Proof.
  intros Hk Hlv Hwl Hwn Hll Hln. pose proof (blen_nonneg leaves). pose proof (blen_nonneg nodes).
  assert (subnodeHeaderSize format = if is_ANSI format then 4 else 8) as Hh by done.
  pose proof (blen_enc_entries (A:=SubnodeLeafEntry) format Hk leaves) as El.
  pose proof (blen_enc_entries (A:=SubnodeNonleafEntry) format Hk nodes) as En.
  change (ec_enc format) with (enc_SubLeaf format) in El. change (ec_enc format) with (enc_SubNonleaf format) in En.
  replace (ec_size format) with (subnodeEntrySize true format) in El by (by destruct format).
  replace (ec_size format) with (subnodeEntrySize false format) in En by (by destruct format).
  assert (blen leaves < 65536 ∧ subnodeHeaderSize format + blen leaves * subnodeEntrySize true format
      ≤ MaxDataBlockSizeUnicode) as [Hcl Hsl] by (destruct format; [done|cbv -[Z.le Z.lt Z.add Z.mul blen] in *; lia..]).
  assert (blen nodes < 65536) as Hcn by (destruct format; [done|cbv -[Z.le Z.lt Z.add Z.mul blen] in *; lia..]).
  assert (∀ {B} lv (es : list B) (enc : B → bytes) sz,
    blen (concat (map enc es)) = blen es * sz →
    blen (internal_data BlockTypeSubnode lv (blen es) (zeros (subnodeHeaderSize format - 4)) (concat (map enc es)))
    = subnodeHeaderSize format + blen es * sz) as Hd.
  { intros B lv es enc sz E. rewrite blen_internal, E, blen_zeros. destruct format; [done|..]; cbn; lia. }
  split.
  - assert (BuildSubnodeLeafBlock leaves bid offset format
      = BuildBlock (internal_data BlockTypeSubnode 0 (blen leaves) (zeros (subnodeHeaderSize format - 4))
          (concat (map (enc_SubLeaf format) leaves))) (Z.lor bid 2) offset format CryptMethodNone) as ->.
    { unfold BuildSubnodeLeafBlock. rewrite (proj2 (Z.ltb_ge _ _)) by lia.
      apply (BuildSubnode_data leaves (enc_SubLeaf format) (subnodeEntrySize true format) 0 format);
        [done|by destruct format|done|done]. }
    rewrite <- (Hd _ 0 leaves (enc_SubLeaf format)) in * by done.
    destruct (BuildBlock_internal _ bid offset format Hk Hsl) as (raw & Hr & Hi).
    exists raw. split; [done|]. rewrite Hi. by apply ParseSubnodeBlock_leaf.
  - assert (BuildSubnodeNonleafBlock nodes level bid offset format
      = BuildBlock (internal_data BlockTypeSubnode level (blen nodes) (zeros (subnodeHeaderSize format - 4))
          (concat (map (enc_SubNonleaf format) nodes))) (Z.lor bid 2) offset format CryptMethodNone) as ->.
    { unfold BuildSubnodeNonleafBlock.
      apply (BuildSubnode_data nodes (enc_SubNonleaf format) (subnodeEntrySize false format) level format);
        [done|by destruct format|done|done]. }
    rewrite <- (Hd _ level nodes (enc_SubNonleaf format)) in * by done.
    destruct (BuildBlock_internal _ bid offset format Hk Hln) as (raw & Hr & Hi).
    exists raw. split; [done|]. rewrite Hi. by apply ParseSubnodeBlock_nonleaf.
Qed.
Lemma subnode_block_roundtrip_witness :
  (∃ raw, BuildSubnodeLeafBlock [mkSubLeaf 1649 12 0] 6 17920 FormatUnicode = Ok raw ∧
     ParseSubnodeBlock (read_internal raw
         (subnodeHeaderSize FormatUnicode + blen [mkSubLeaf 1649 12 0] * subnodeEntrySize true FormatUnicode))
         [] FormatUnicode
     = Ok (mkSubnode BlockTypeSubnode 0 (blen [mkSubLeaf 1649 12 0]) [mkSubLeaf 1649 12 0] [])) ∧
  (∃ raw, BuildSubnodeNonleafBlock [mkSubNonleaf 1649 6] 1 6 17920 FormatUnicode = Ok raw ∧
     ParseSubnodeBlock (read_internal raw
         (subnodeHeaderSize FormatUnicode + blen [mkSubNonleaf 1649 6] * subnodeEntrySize false FormatUnicode))
         [] FormatUnicode
     = Ok (mkSubnode BlockTypeSubnode 1 (blen [mkSubNonleaf 1649 6]) [] [mkSubNonleaf 1649 6])).
Proof.
  refine (subnode_block_roundtrip [mkSubLeaf 1649 12 0] [mkSubNonleaf 1649 6] 1 6 17920 FormatUnicode [] _ _ _ _ _ _).
  - done.
  - done.
  - repeat constructor; by vm_compute.
  - repeat constructor; by vm_compute.
  - by vm_compute.
  - by vm_compute.
Defined.

Lemma rd_cases n off l :
  0 ≤ off → (∃ v, off + Z.of_nat n ≤ blen l ∧ rd n off l = Ok v) ∨ (blen l < off + Z.of_nat n ∧ rd n off l = Panic).
Proof.
  intros. destruct (decide (off + Z.of_nat n ≤ blen l)).
  - left. eexists. split; [done|]. by apply rd_Ok.
  - right. split; [lia|]. apply rd_Panic; lia.
Qed.

(** On data of at least eight bytes that starts with the extended-block
    type, the parser panics exactly when the announced number of BIDs does not
    fit in the capacity of the slice it is given: the count, which comes from
    the file, is never compared with the length of the data. *)
Theorem ParseExtendedBlock_panic_iff data spare format count :
  known format → 8 ≤ blen data → index data 0 = Ok BlockTypeExtended → rd 2 2 data = Ok count →
  0 ≤ count →
  ParseExtendedBlock data spare format = Panic ↔ blen data + blen spare < 8 + count * bidSize format.
Proof.
  intros Hk Hl Hty Hc Hp. pose proof (blen_nonneg spare). unfold ParseExtendedBlock.
  rewrite (proj2 (Z.ltb_ge _ _)) by lia. rewrite Hty, index_total, !bind_Ok by lia.
  assert (rd 2 2 (data ++ spare) = Ok count) as ->.
  { rewrite <- Hc, !rd_Ok by (rewrite ?blen_app; lia). by rewrite sub_app_l by lia. }
  rewrite bind_Ok, rd_Ok by (rewrite ?blen_app; lia). rewrite bind_Ok, Z.eqb_refl. cbn [negb].
  set (buf := data ++ spare). assert (blen buf = blen data + blen spare) as Hb by apply blen_app.
  assert (0 < bidSize format) by (by destruct format).
  assert (∀ o, 0 ≤ o → o + bidSize format ≤ blen buf → ∃ a, parse_bid buf format o = Ok a) as Hok.
  { intros o Ho Hi. destruct format; [done|..]; eexists; apply rd_Ok; done. }
  assert (∀ o, 0 ≤ o → blen buf < o + bidSize format → parse_bid buf format o = Panic) as Hpa.
  { intros o Ho Hi. destruct format; [done|..]; apply rd_Panic; done. }
  rewrite <- Hb. split; intros Hx.
  - destruct (decide (blen buf < 8 + count * bidSize format)); [done|].
    destruct (parse_entries_total (parse_bid buf format) (blen buf) (bidSize format) (Z.to_nat count) 8)
      as [es Hes]; [done|done|done|rewrite Z2Nat.id; lia|]. by rewrite Hes in Hx.
  - by rewrite (parse_entries_panic _ (blen buf)) by (done || rewrite ?Z2Nat.id; lia).
Qed.
Lemma ParseExtendedBlock_panic_iff_witness :
  ParseExtendedBlock [1; 1; 2; 0; 0; 0; 0; 0; 9; 0; 0; 0] [] FormatANSI = Panic ↔ 12 + 0 < 8 + 2 * 4.
Proof.
  apply (ParseExtendedBlock_panic_iff [1; 1; 2; 0; 0; 0; 0; 0; 9; 0; 0; 0] [] FormatANSI 2); done || lia.
Defined.

(** The on-disk size of a block exceeds the format's 8192-byte maximum for
    exactly the data sizes above 8128 that [BuildBlock] still accepts. *)
Theorem block_disk_size_bound n format :
  known format → 0 ≤ n ≤ MaxDataBlockSizeUnicode →
  n + blockTrailerSize format ≤ CalculateBlockDiskSize n format ∧
  (MaxBlockDiskSize < CalculateBlockDiskSize n format ↔ MaxBlockDiskSize - 64 < n).
Proof.
  intros Hk Hn. rewrite CalculateBlockDiskSize_block by done. pose proof (AlignDisk_block n Hn) as [Hb Hm].
  destruct (AlignDisk_spec n) as [Ha _]; [lia|unfold MaxDataBlockSizeUnicode in *; lia|].
  pose proof (Z_div_mod_eq_full (AlignDisk n) 64).
  destruct format; [done|..]; cbn [blockTrailerSize is_ANSI];
    unfold MaxBlockDiskSize, BlockTrailerSizeANSI, BlockTrailerSizeUnicode; lia.
Qed.
Lemma block_disk_size_bound_witness :
  8176 + 16 ≤ CalculateBlockDiskSize 8176 FormatUnicode ∧
  (MaxBlockDiskSize < CalculateBlockDiskSize 8176 FormatUnicode ↔ MaxBlockDiskSize - 64 < 8176).
Proof. apply (block_disk_size_bound 8176 FormatUnicode); done. Defined.
