(* ===== verification/Header.v ===== *)
(** * The file header ([pkg/disk/header.go], [pkg/disk/header_write.go])

    The header record, its two parsers and two serializers, and the accessors
    the transaction layer uses. *)
From S2P Require Import Prelude Format Crypt Fields Page.

(** ** Data *)
Record Root := mkRoot {
  COrphans : Z; IBFileEOF : Z; IBAMapLast : Z; CBAMapFree : Z; CBPMapFree : Z;
  BRefNBT : BlockReference; BRefBBT : BlockReference;
  FAMapValid : Z; BARVec : Z; CARVec : Z }.
Record Header := mkHeader {
  DWMagic : Z; DWCRCPartial : Z; WMagicClient : Z; WVer : Z; WVerClient : Z;
  BPlatformCreate : Z; BPlatformAccess : Z; DWOpenDBID : Z; DWOpenClaimID : Z;
  HFormat : PSTFormat; HRoot : Root; BCryptMethod : Z;
  BidNextB : Z; DWCRCFull : Z; BidNextP : Z; DWUnique : Z }.

(** ** Parsing *)
Definition parseRootUnicode (buf : bytes) (o : Z) : result Root :=
  orph ← rd 4 o buf; eof ← rd 8 (o + 4) buf; last ← rd 8 (o + 12) buf;
  af ← rd 8 (o + 20) buf; pf ← rd 8 (o + 28) buf;
  nbid ← rd 8 (o + 36) buf; nib ← rd 8 (o + 44) buf;
  bbid ← rd 8 (o + 52) buf; bib ← rd 8 (o + 60) buf;
  valid ← rd 1 (o + 68) buf; bar ← rd 1 (o + 69) buf; car ← rd 2 (o + 70) buf;
  mret (mkRoot orph eof last af pf (mkBRef nbid nib) (mkBRef bbid bib) valid bar car).
Definition parseRootANSI (buf : bytes) (o : Z) : result Root :=
  orph ← rd 4 o buf; eof ← rd 4 (o + 4) buf; last ← rd 4 (o + 8) buf;
  af ← rd 4 (o + 12) buf; pf ← rd 4 (o + 16) buf;
  nbid ← rd 4 (o + 20) buf; nib ← rd 4 (o + 24) buf;
  bbid ← rd 4 (o + 28) buf; bib ← rd 4 (o + 32) buf;
  valid ← rd 1 (o + 36) buf; bar ← rd 1 (o + 37) buf; car ← rd 2 (o + 38) buf;
  mret (mkRoot orph eof last af pf (mkBRef nbid nib) (mkBRef bbid bib) valid bar car).

(** The fields [ReadHeader] fills before it knows the format. *)
Record Common := mkCommon {
  C_Magic : Z; C_CRC : Z; C_Client : Z; C_Ver : Z; C_VerClient : Z;
  C_Create : Z; C_Access : Z; C_DBID : Z; C_ClaimID : Z }.
Definition parseCommon (buf : bytes) : result Common :=
  magic ← rd 4 0 buf; crc ← rd 4 4 buf; client ← rd 2 8 buf; ver ← rd 2 10 buf;
  verc ← rd 2 12 buf; pc ← rd 1 14 buf; pa ← rd 1 15 buf; db ← rd 4 16 buf; cl ← rd 4 20 buf;
  mret (mkCommon magic crc client ver verc pc pa db cl).
Definition header_of (c : Common) (f : PSTFormat) (r : Root) (crypt nextB full nextP unique : Z) : Header :=
  mkHeader (C_Magic c) (C_CRC c) (C_Client c) (C_Ver c) (C_VerClient c) (C_Create c) (C_Access c)
    (C_DBID c) (C_ClaimID c) f r crypt nextB full nextP unique.

Definition parseUnicodeHeader (c : Common) (buf : bytes) : result Header :=
  nextP ← rd 8 32 buf; unique ← rd 4 40 buf;
  root ← parseRootUnicode buf 180;
  crypt ← rd 1 513 buf; nextB ← rd 8 516 buf; full ← rd 4 524 buf;
  mret (header_of c FormatUnicode root crypt nextB full nextP unique).
Definition parseANSIHeader (c : Common) (buf : bytes) : result Header :=
  nextB ← rd 4 24 buf; nextP ← rd 4 28 buf; unique ← rd 4 32 buf;
  root ← parseRootANSI buf 164;
  crypt ← rd 1 461 buf;
  mret (header_of c FormatANSI root crypt nextB 0 nextP unique).

(** [ReadHeader] on a file of the given contents: [ReadAt] fills the front of a
    zeroed 564-byte buffer and reports how much it read. *)
Definition ReadHeader (file : bytes) : result Header :=
  let got := sub file 0 HeaderSizeUnicode in
  let n := blen got in
  let buf := splice 0 got (zeros HeaderSizeUnicode) in
  if n <? HeaderSizeANSI
  then Err (EFmt "file too small for PST header: got %d bytes, need at least %d" [n; HeaderSizeANSI]) else
  c ← parseCommon buf;
  if negb (C_Magic c =? PSTMagic)
  then Err (EFmt "invalid PST magic: got 0x%08X, expected 0x%08X" [C_Magic c; PSTMagic]) else
  if negb (C_Client c =? ClientMagicPST) && negb (C_Client c =? ClientMagicOST)
  then Err (EFmt "invalid client magic: got 0x%04X" [C_Client c]) else
  if (DatabaseFormatUnicodeMin <=? C_Ver c) && (C_Ver c <=? DatabaseFormatUnicodeMax) then
    if n <? HeaderSizeUnicode
    then Err (EFmt "file too small for Unicode header: got %d bytes, need %d" [n; HeaderSizeUnicode])
    else parseUnicodeHeader c buf
  else if (DatabaseFormatANSIMin <=? C_Ver c) && (C_Ver c <=? DatabaseFormatANSIMax)
  then parseANSIHeader c buf
  else Err (EFmt "unsupported PST version: %d" [C_Ver c]).

Definition IsPST (h : Header) : bool := WMagicClient h =? ClientMagicPST.
Definition IsOST (h : Header) : bool := WMagicClient h =? ClientMagicOST.
Definition IsUnicode (h : Header) : bool := is_Unicode (HFormat h).
Definition IsANSI (h : Header) : bool := is_ANSI (HFormat h).
Definition CryptMethod (h : Header) : Z := BCryptMethod h.
Definition NBTRoot (h : Header) : BlockReference := BRefNBT (HRoot h).
Definition BBTRoot (h : Header) : BlockReference := BRefBBT (HRoot h).

(** ** Serializing *)
Definition common_fields (h : Header) : list (nat * Z * Z) :=
  [(4%nat, 0, DWMagic h); (4%nat, 4, DWCRCPartial h); (2%nat, 8, WMagicClient h);
   (2%nat, 10, WVer h); (2%nat, 12, WVerClient h); (1%nat, 14, BPlatformCreate h);
   (1%nat, 15, BPlatformAccess h); (4%nat, 16, DWOpenDBID h); (4%nat, 20, DWOpenClaimID h)].
Definition serializeRootUnicode (o : Z) (r : Root) : list (nat * Z * Z) :=
  [(4%nat, o, COrphans r); (8%nat, o + 8, IBFileEOF r); (8%nat, o + 16, IBAMapLast r);
   (8%nat, o + 24, CBAMapFree r); (8%nat, o + 32, CBPMapFree r);
   (8%nat, o + 40, BR_BID (BRefNBT r)); (8%nat, o + 48, BR_IB (BRefNBT r));
   (8%nat, o + 56, BR_BID (BRefBBT r)); (8%nat, o + 64, BR_IB (BRefBBT r));
   (1%nat, o + 72, FAMapValid r); (1%nat, o + 73, BARVec r); (2%nat, o + 74, CARVec r)].
Definition serializeRootANSI (o : Z) (r : Root) : list (nat * Z * Z) :=
  [(4%nat, o, COrphans r); (4%nat, o + 4, u32 (IBFileEOF r)); (4%nat, o + 8, u32 (IBAMapLast r));
   (4%nat, o + 12, u32 (CBAMapFree r)); (4%nat, o + 16, u32 (CBPMapFree r));
   (4%nat, o + 20, u32 (BR_BID (BRefNBT r))); (4%nat, o + 24, u32 (BR_IB (BRefNBT r)));
   (4%nat, o + 28, u32 (BR_BID (BRefBBT r))); (4%nat, o + 32, u32 (BR_IB (BRefBBT r)));
   (1%nat, o + 36, FAMapValid r); (1%nat, o + 37, BARVec r); (2%nat, o + 38, CARVec r)].

Definition set_crc (h : Header) (partial full : Z) : Header :=
  mkHeader (DWMagic h) partial (WMagicClient h) (WVer h) (WVerClient h) (BPlatformCreate h)
    (BPlatformAccess h) (DWOpenDBID h) (DWOpenClaimID h) (HFormat h) (HRoot h) (BCryptMethod h)
    (BidNextB h) full (BidNextP h) (DWUnique h).

(** The serializers also store the checksums in the header they are given, so
    they return it with the bytes. *)
Definition unicode_fields (h : Header) : list (nat * Z * Z) :=
  common_fields h ++ [(8%nat, 32, BidNextP h); (4%nat, 40, DWUnique h)]
  ++ serializeRootUnicode 172 (HRoot h)
  ++ [(1%nat, 508, 0x80); (1%nat, 509, BCryptMethod h); (8%nat, 512, BidNextB h)].
Definition SerializeHeaderUnicode (h : Header) : result (bytes * Header) :=
  buf ← puts (unicode_fields h) (zeros HeaderSizeUnicode);
  pre ← slice buf 8 524;
  let partial := ComputeCRC pre in
  buf ← put 4 4 partial buf;
  pre ← slice buf 8 520;
  let full := ComputeCRC pre in
  buf ← put 4 520 full buf;
  mret (buf, set_crc h partial full).

Definition ansi_fields (h : Header) : list (nat * Z * Z) :=
  common_fields h ++ [(4%nat, 24, u32 (BidNextB h)); (4%nat, 28, u32 (BidNextP h)); (4%nat, 32, DWUnique h)]
  ++ serializeRootANSI 164 (HRoot h)
  ++ [(1%nat, 460, 0x80); (1%nat, 461, BCryptMethod h)].
Definition SerializeHeaderANSI (h : Header) : result (bytes * Header) :=
  buf ← puts (ansi_fields h) (zeros HeaderSizeANSI);
  pre ← slice buf 8 472;
  let partial := ComputeCRC pre in
  buf ← put 4 4 partial buf;
  mret (buf, set_crc h partial (DWCRCFull h)).

Definition SerializeHeader (h : Header) : result (bytes * Header) :=
  if is_Unicode (HFormat h) then SerializeHeaderUnicode h else SerializeHeaderANSI h.

(** [WriteHeader] to a file of the given contents: [WriteAt] overwrites the
    front and extends a shorter file.  The I/O errors are the writer's. *)
Definition write_at (off : Z) (data file : bytes) : bytes :=
  splice off data (file ++ zeros (off + blen data - blen file)).
Definition WriteHeader (file : bytes) (h : Header) : result (bytes * Header) :=
  '(data, h) ← wrap_err "failed to serialize header" (SerializeHeader h);
  mret (write_at 0 data file, h).

(** ** Construction and updates *)
Definition NewHeader (format : PSTFormat) (clientType : Z) : Header :=
  mkHeader PSTMagic 0 clientType
    (if is_Unicode format then DatabaseFormatUnicodeMax else DatabaseFormatANSIMax) 19 1 1 0 0 format
    (mkRoot 0 0 0 0 0 (mkBRef 0 0) (mkBRef 0 0) AMapStatusValid 0 0) CryptMethodPermute 0 0 0 0.

Definition set_root (h : Header) (r : Root) : Header :=
  mkHeader (DWMagic h) (DWCRCPartial h) (WMagicClient h) (WVer h) (WVerClient h) (BPlatformCreate h)
    (BPlatformAccess h) (DWOpenDBID h) (DWOpenClaimID h) (HFormat h) r (BCryptMethod h)
    (BidNextB h) (DWCRCFull h) (BidNextP h) (DWUnique h).
Definition set_counters (h : Header) (nextB unique : Z) : Header :=
  mkHeader (DWMagic h) (DWCRCPartial h) (WMagicClient h) (WVer h) (WVerClient h) (BPlatformCreate h)
    (BPlatformAccess h) (DWOpenDBID h) (DWOpenClaimID h) (HFormat h) (HRoot h) (BCryptMethod h)
    nextB (DWCRCFull h) (BidNextP h) unique.

Definition SetAMapStatus (h : Header) (status : Z) : Header :=
  let r := HRoot h in
  set_root h (mkRoot (COrphans r) (IBFileEOF r) (IBAMapLast r) (CBAMapFree r) (CBPMapFree r)
    (BRefNBT r) (BRefBBT r) status (BARVec r) (CARVec r)).
Definition GetAMapStatus (h : Header) : Z := FAMapValid (HRoot h).
Definition UpdateBTreeRoots (h : Header) (nbtRef bbtRef : BlockReference) : Header :=
  let r := HRoot h in
  set_root h (mkRoot (COrphans r) (IBFileEOF r) (IBAMapLast r) (CBAMapFree r) (CBPMapFree r)
    nbtRef bbtRef (FAMapValid r) (BARVec r) (CARVec r)).
Definition UpdateFileSize (h : Header) (size : Z) : Header :=
  let r := HRoot h in
  set_root h (mkRoot (COrphans r) size (IBAMapLast r) (CBAMapFree r) (CBPMapFree r)
    (BRefNBT r) (BRefBBT r) (FAMapValid r) (BARVec r) (CARVec r)).
Definition UpdateNextBlockID (h : Header) (bid : Z) : Header := set_counters h bid (DWUnique h).
Definition IncrementUnique (h : Header) : Header := set_counters h (BidNextB h) (u32 (DWUnique h + 1)).

(** ** The buffer [ReadHeader] works on *)
Definition header_buf (file : bytes) : bytes :=
  splice 0 (sub file 0 HeaderSizeUnicode) (zeros HeaderSizeUnicode).

Lemma blen_sub_min {A} (l : list A) n : 0 ≤ n → blen (sub l 0 n) = Z.min n (blen l).
Proof. intros. unfold blen, sub. rewrite length_take, drop_0. lia. Qed.
Lemma blen_header_buf file : blen (header_buf file) = 564.
Proof. unfold header_buf. by rewrite blen_splice. Qed.

Lemma header_buf_rd file n p :
  0 ≤ p → p + Z.of_nat n ≤ blen file → p + Z.of_nat n ≤ 564 → rd n p (header_buf file) = rd n p file.
Proof.
  intros Hp Hl H. rewrite !rd_Ok by (rewrite ?blen_header_buf; lia). do 2 f_equal.
  unfold header_buf. rewrite splice_0_zeros by (rewrite blen_sub_min by done; lia).
  rewrite sub_app_l by (rewrite ?blen_sub_min by done; unfold HeaderSizeUnicode; lia).
  by rewrite sub_sub by (done || lia).
Qed.
Lemma header_buf_app data rest n p x :
  0 ≤ p → p + Z.of_nat n ≤ 564 → rd n p data = Ok x → rd n p (header_buf (data ++ rest)) = Ok x.
Proof.
  intros Hp H Hx. destruct (decide (p + Z.of_nat n ≤ blen data)); [|by rewrite rd_Panic in Hx by lia].
  rewrite header_buf_rd by (rewrite ?blen_app; pose proof (blen_nonneg rest); lia).
  rewrite <- Hx, !rd_Ok by (rewrite ?blen_app; pose proof (blen_nonneg rest); lia).
  by rewrite sub_app_l by lia.
Qed.

(** ** What the serializers write *)
Definition root_wf (w : Z) (r : Root) : Prop :=
  fits 32 (COrphans r) ∧ fits w (IBFileEOF r) ∧ fits w (IBAMapLast r) ∧ fits w (CBAMapFree r) ∧
  fits w (CBPMapFree r) ∧ fits w (BR_BID (BRefNBT r)) ∧ fits w (BR_IB (BRefNBT r)) ∧
  fits w (BR_BID (BRefBBT r)) ∧ fits w (BR_IB (BRefBBT r)) ∧ fits 8 (FAMapValid r) ∧
  fits 8 (BARVec r) ∧ fits 16 (CARVec r).
(** A header whose fields are in the range of their Go types (in ANSI files:
    of their 32-bit slots) and that the reader's checks accept. *)
Definition header_wf (w : Z) (h : Header) : Prop :=
  DWMagic h = PSTMagic ∧ (WMagicClient h = ClientMagicPST ∨ WMagicClient h = ClientMagicOST) ∧
  fits 16 (WVer h) ∧ fits 16 (WVerClient h) ∧ fits 8 (BPlatformCreate h) ∧ fits 8 (BPlatformAccess h) ∧
  fits 32 (DWOpenDBID h) ∧ fits 32 (DWOpenClaimID h) ∧ root_wf w (HRoot h) ∧ fits 8 (BCryptMethod h) ∧
  fits w (BidNextB h) ∧ fits w (BidNextP h) ∧ fits 32 (DWUnique h).

#[export] Instance header_wf_dec w h : Decision (header_wf w h).
Proof. unfold header_wf, root_wf. apply _. Defined.

Lemma SerializeHeaderANSI_fields h :
  ∃ data crc, SerializeHeaderANSI h = Ok (data, set_crc h crc (DWCRCFull h)) ∧
    puts (ansi_fields h ++ [(4%nat, 4, crc)]) (zeros 512) = Ok data ∧
    blen data = 512 ∧ crc = ComputeCRC (sub data 8 464).
Proof.
  destruct (puts_Ok (ansi_fields h) (zeros 512)) as (b & Hb & Hl); [reflexivity|].
  rewrite blen_zeros in Hl. change (Z.max 0 512) with 512 in Hl.
  unfold SerializeHeaderANSI. change HeaderSizeANSI with 512. rewrite Hb, bind_Ok.
  rewrite slice_Ok, bind_Ok by lia. change (472 - 8) with 464. set (crc := ComputeCRC _).
  rewrite put_Ok, bind_Ok, mret_Ok by lia.
  eexists _, crc. split; [done|]. rewrite puts_app, Hb, bind_Ok. cbn [puts].
  rewrite put_Ok, bind_Ok by lia. split; [done|]. rewrite blen_splice. split; [done|].
  subst crc. rewrite sub_splice_after by (rewrite ?blen_le_enc; lia). done.
Qed.

Lemma SerializeHeaderUnicode_fields h :
  ∃ data partial full, SerializeHeaderUnicode h = Ok (data, set_crc h partial full) ∧
    puts (unicode_fields h ++ [(4%nat, 4, partial); (4%nat, 520, full)]) (zeros 564) = Ok data ∧
    blen data = 564 ∧ fits 32 partial ∧ full = ComputeCRC (sub data 8 512).
Proof.
  destruct (puts_Ok (unicode_fields h) (zeros 564)) as (b & Hb & Hl); [reflexivity|].
  pose proof (bytes_ok_puts _ _ _ Hb (bytes_ok_zeros _)) as Hok.
  rewrite blen_zeros in Hl. change (Z.max 0 564) with 564 in Hl.
  unfold SerializeHeaderUnicode. change HeaderSizeUnicode with 564. rewrite Hb, bind_Ok.
  rewrite slice_Ok, bind_Ok by lia. set (partial := ComputeCRC _).
  rewrite put_Ok, bind_Ok by lia. rewrite slice_Ok, bind_Ok by (rewrite ?blen_splice; lia).
  change (520 - 8) with 512. set (full := ComputeCRC _).
  rewrite put_Ok, bind_Ok, mret_Ok by (rewrite ?blen_splice; lia).
  eexists _, partial, full. split; [done|]. rewrite puts_app, Hb, bind_Ok. cbn [puts].
  rewrite put_Ok, bind_Ok by lia. rewrite put_Ok, bind_Ok by (rewrite ?blen_splice; lia).
  split; [done|]. rewrite !blen_splice. split; [done|].
  split; [apply ComputeCRC_fits; auto with pst|]. subst full. by rewrite (sub_splice_before 520) by (rewrite ?blen_splice, ?blen_le_enc; lia).
Qed.

(** Every read of a serialized header sees the last field written there. *)
Definition reads (len : Z) (fs : list (nat * Z * Z)) (buf : bytes) : Prop :=
  (∀ n p x, written fs p n = Some x → 0 ≤ p → p + Z.of_nat n ≤ 564 → rd n p buf = Ok x) ∧
  (∀ n p, clear p n fs = true → 0 ≤ p → p + Z.of_nat n ≤ len → rd n p buf = Ok 0).

Lemma reads_header fs len data rest :
  len ≤ 564 → puts fs (zeros len) = Ok data → reads len fs (header_buf (data ++ rest)).
Proof.
  intros Hlen Hp. split; intros.
  - apply header_buf_app; [lia|lia|]. by eapply puts_written.
  - apply header_buf_app; [lia|lia|]. eapply puts_clear; [done|done|lia|lia].
Qed.
Lemma reads_field len fs buf n p v :
  reads len fs buf → written fs p n = Some ((v / 256 ^ 0) mod 256 ^ Z.of_nat n) →
  fits (8 * Z.of_nat n) v → 0 ≤ p → p + Z.of_nat n ≤ 564 →
  rd n p buf = Ok v.
Proof.
  intros [H _] Hw Hv Hp Hl. rewrite (H _ _ _ Hw) by done. f_equal.
  rewrite Z.pow_0_r, Z.div_1_r. apply Z.mod_small. unfold fits in Hv. by rewrite Z.pow_mul_r in Hv by lia.
Qed.

Lemma fits_magic : fits 32 PSTMagic.
Proof. by vm_compute. Qed.

Lemma reads_clear len fs buf n p :
  reads len fs buf → clear p n fs = true → 0 ≤ p → p + Z.of_nat n ≤ len → rd n p buf = Ok 0.
Proof. intros [_ H]. apply H. Qed.

(** Read the fields of a header known by [H : reads ..]. *)
Ltac read_fields H :=
  repeat match goal with |- context [rd ?n ?p _] =>
    first
      [ erewrite (reads_field _ _ _ n p _ H); [|reflexivity|assumption|lia|lia]
      | rewrite (reads_clear _ _ _ n p H) by first [reflexivity|lia] ]
  end;
  repeat first [rewrite bind_Ok | rewrite mret_Ok].

Lemma ansi_header_back h rest :
  HFormat h = FormatANSI → header_wf 32 h → DatabaseFormatANSIMin ≤ WVer h ≤ DatabaseFormatANSIMax →
  DWCRCFull h = 0 →
  ∃ data crc, SerializeHeader h = Ok (data, set_crc h crc 0) ∧ blen data = HeaderSizeANSI ∧
    crc = ComputeCRC (sub data 8 464) ∧ ReadHeader (data ++ rest) = Ok (set_crc h crc 0).
Proof.
  intros Hf Hw Hv Hfull. destruct (SerializeHeaderANSI_fields h) as (data & crc & Hs & Hp & Hl & Hc).
  rewrite Hfull in Hs. exists data, crc. unfold SerializeHeader. rewrite Hf. split; [done|].
  split; [done|split; [done|]].
  pose proof (bytes_ok_puts _ _ _ Hp (bytes_ok_zeros _)) as Hb.
  assert (fits 32 crc) as Hcrc by (rewrite Hc; apply ComputeCRC_fits; auto with pst).
  clear Hc Hb Hs. pose proof fits_magic.
  apply (reads_header _ _ _ rest) in Hp; [|lia]. unfold ReadHeader. fold (header_buf (data ++ rest)).
  rewrite blen_sub_min, blen_app, Hl by done. pose proof (blen_nonneg rest).
  unfold HeaderSizeUnicode, HeaderSizeANSI. rewrite (proj2 (Z.ltb_ge _ _)) by lia.
  set (buf := header_buf (data ++ rest)) in *. clearbody buf. clear Hl.
  destruct h as [magic crc0 client ver verc pc pa db cl f r crypt nextB full nextP uniq].
  destruct r as [orph eof last af pf [nbid nib] [bbid bib] valid bar car].
  unfold header_wf, root_wf in Hw. cbn -[reads Z.add u32] in Hf, Hw, Hv, Hp, Hfull. destruct_and!. subst.
  rewrite !u32_small in Hp by assumption.
  assert (fits 16 client) by (destruct H5 as [-> | ->]; by vm_compute).
  unfold parseCommon. 
  read_fields Hp. cbn [C_Magic C_Client C_Ver].
  rewrite Z.eqb_refl. cbn [negb].
  replace (negb (client =? ClientMagicPST) && negb (client =? ClientMagicOST)) with false
    by (by destruct H5 as [-> | ->]).
  unfold DatabaseFormatANSIMin, DatabaseFormatANSIMax, DatabaseFormatUnicodeMin, DatabaseFormatUnicodeMax in *.
  rewrite (proj2 (Z.leb_gt 20 ver)), (proj2 (Z.leb_le 14 ver)), (proj2 (Z.leb_le ver 15)) by lia.
  cbn [andb]. unfold parseANSIHeader, parseRootANSI. read_fields Hp. done.
Qed.

(** A version 14 or 15 header whose values fit their ANSI slots survives
    being written and read back, whatever follows it in the file: every field
    is the one written, and the stored checksum is the CRC of bytes 8 to 471. *)
Theorem ansi_header_roundtrip h rest :
  HFormat h = FormatANSI → header_wf 32 h → DatabaseFormatANSIMin ≤ WVer h ≤ DatabaseFormatANSIMax →
  DWCRCFull h = 0 →
  ∃ data crc, SerializeHeader h = Ok (data, set_crc h crc 0) ∧ blen data = HeaderSizeANSI ∧
    crc = ComputeCRC (sub data 8 464) ∧ ReadHeader (data ++ rest) = Ok (set_crc h crc 0).
Proof. apply ansi_header_back. Qed.

Definition sample_header (format : PSTFormat) : Header :=
  set_counters (UpdateFileSize (SetAMapStatus (UpdateBTreeRoots (NewHeader format ClientMagicPST)
    (mkBRef 12 0x4600) (mkBRef 16 0x4800)) AMapStatusInvalid) 0x46000) 0x1234 7.
Lemma ansi_header_roundtrip_witness :
  ∃ data crc, SerializeHeader (sample_header FormatANSI) = Ok (data, set_crc (sample_header FormatANSI) crc 0) ∧
    blen data = HeaderSizeANSI ∧ crc = ComputeCRC (sub data 8 464) ∧
    ReadHeader (data ++ [1; 2; 3]) = Ok (set_crc (sample_header FormatANSI) crc 0).
Proof.
  refine (ansi_header_roundtrip (sample_header FormatANSI) [1; 2; 3] _ _ _ _).
  - done.
  - apply (bool_decide_unpack _). by vm_compute.
  - by vm_compute.
  - done.
Defined.

(** ** Unicode headers *)

(** The low half of [b] above the high half of [a]: what a 64-bit read sees at
    four bytes past the start of [a] when [b] follows it. *)
Definition straddle (a b : Z) : Z := a / 2 ^ 32 + 2 ^ 32 * (b mod 2 ^ 32).

(** What the parser makes of a header the serializer wrote: it expects a
    72-byte root at 180 where the serializer put an 80-byte root at 172. *)
Definition unicode_reread (h : Header) (full : Z) : Header :=
  let r := HRoot h in
  mkHeader (DWMagic h) (DWCRCPartial h) (WMagicClient h) (WVer h) (WVerClient h) (BPlatformCreate h)
    (BPlatformAccess h) (DWOpenDBID h) (DWOpenClaimID h) FormatUnicode
    (mkRoot (IBFileEOF r mod 2 ^ 32) (straddle (IBFileEOF r) (IBAMapLast r))
      (straddle (IBAMapLast r) (CBAMapFree r)) (straddle (CBAMapFree r) (CBPMapFree r))
      (straddle (CBPMapFree r) (BR_BID (BRefNBT r)))
      (mkBRef (straddle (BR_BID (BRefNBT r)) (BR_IB (BRefNBT r)))
              (straddle (BR_IB (BRefNBT r)) (BR_BID (BRefBBT r))))
      (mkBRef (straddle (BR_BID (BRefBBT r)) (BR_IB (BRefBBT r)))
              (BR_IB (BRefBBT r) / 2 ^ 32
               + 2 ^ 32 * (FAMapValid r + 256 * (BARVec r + 256 * CARVec r))))
      AMapStatusValid 0 0)
    ((BidNextB h / 256) mod 256) (straddle (BidNextB h) full) 0 (BidNextP h) (DWUnique h).

Lemma reads_part len fs buf n p v a :
  reads len fs buf → written fs p n = Some ((v / 256 ^ a) mod 256 ^ Z.of_nat n) → 0 ≤ p → p + Z.of_nat n ≤ 564 →
  rd n p buf = Ok ((v / 256 ^ a) mod 256 ^ Z.of_nat n).
Proof. intros [H _] Hw Hp Hl. by apply H. Qed.

(** A read across the boundary of two adjacent 8-byte fields. *)
Lemma reads_straddle len fs buf p a b :
  reads len fs buf → written fs p 4 = Some ((a / 256 ^ 4) mod 256 ^ 4) →
  written fs (p + 4) 4 = Some ((b / 256 ^ 0) mod 256 ^ 4) → fits 64 a →
  0 ≤ p → p + 8 ≤ 564 → rd 8 p buf = Ok (straddle a b).
Proof.
  intros H Ha Hb Hf Hp Hl.
  erewrite (rd_split 4 4); [|lia|eapply reads_part; [done|exact Ha|lia|lia]
                             |eapply reads_part; [done|exact Hb|lia|lia]].
  unfold straddle. do 2 f_equal.
  - change (256 ^ 4) with (2 ^ 32). apply Z.mod_small. unfold fits in Hf.
    split; [apply Z.div_pos; lia|]. apply Z.div_lt_upper_bound; lia.
  - by rewrite Z.pow_0_r, Z.div_1_r.
Qed.

Ltac read_straddle H :=
  match goal with |- context [rd 8 ?p _] =>
    erewrite (reads_straddle _ _ _ p _ _ H); [|reflexivity|reflexivity|assumption|lia|lia] end.

Lemma reads_tail3 len fs buf p x v b c :
  reads len fs buf → written fs p 4 = Some ((x / 256 ^ 4) mod 256 ^ 4) → fits 64 x →
  written fs (p + 4) 1 = Some ((v / 256 ^ 0) mod 256 ^ 1) → fits 8 v →
  written fs (p + 5) 1 = Some ((b / 256 ^ 0) mod 256 ^ 1) → fits 8 b →
  written fs (p + 6) 2 = Some ((c / 256 ^ 0) mod 256 ^ 2) → fits 16 c →
  0 ≤ p → p + 8 ≤ 564 → rd 8 p buf = Ok (x / 2 ^ 32 + 2 ^ 32 * (v + 256 * (b + 256 * c))).
Proof.
  intros H Hx Fx Hv Fv Hb Fb Hc Fc Hp Hl.
  pose proof (reads_field _ _ _ _ _ _ H Hv Fv ltac:(lia) ltac:(lia)) as Rv.
  pose proof (reads_field _ _ _ _ _ _ H Hb Fb ltac:(lia) ltac:(lia)) as Rb.
  pose proof (reads_field _ _ _ _ _ _ H Hc Fc ltac:(lia) ltac:(lia)) as Rc.
  pose proof (reads_part _ _ _ _ _ _ _ H Hx ltac:(lia) ltac:(lia)) as Rx.
  replace (p + 6) with (p + 5 + Z.of_nat 1) in Rc by lia.
  pose proof (rd_split 1 2 (p + 5) buf _ _ ltac:(lia) Rb Rc) as Rbc.
  replace (p + 5) with (p + 4 + Z.of_nat 1) in Rbc by lia.
  pose proof (rd_split 1 3 (p + 4) buf _ _ ltac:(lia) Rv Rbc) as Rvbc.
  pose proof (rd_split 4 4 p buf _ _ Hp Rx Rvbc) as R. cbn [Nat.add] in R. rewrite R. f_equal.
  change (256 ^ Z.of_nat 4) with (2 ^ 32). change (256 ^ 4) with (2 ^ 32).
  change (256 ^ Z.of_nat 1) with 256. f_equal.
  apply Z.mod_small. unfold fits in Fx.
  split; [apply Z.div_pos; lia|]. apply Z.div_lt_upper_bound; lia.
Qed.

(** A Unicode header, once written and read back, keeps its common fields,
    its page counter and its unique value, but its root, its encryption method
    and its block counter come from the wrong offsets: the reader's AMap status
    is [Valid] whatever status was written, so a status the commit protocol sets
    cannot be seen by recovery. *)
Theorem unicode_header_reread h rest :
  HFormat h = FormatUnicode → header_wf 64 h → DatabaseFormatUnicodeMin ≤ WVer h ≤ DatabaseFormatUnicodeMax →
  ∃ data partial full, SerializeHeader h = Ok (data, set_crc h partial full) ∧
    blen data = HeaderSizeUnicode ∧ full = ComputeCRC (sub data 8 512) ∧
    ReadHeader (data ++ rest) = Ok (unicode_reread (set_crc h partial full) full).
Proof.
  intros Hf Hw Hv. destruct (SerializeHeaderUnicode_fields h) as (data & partial & full & Hs & Hp & Hl & Hpart & Hc).
  exists data, partial, full. unfold SerializeHeader. rewrite Hf. split; [done|].
  split; [done|split; [done|]].
  pose proof (bytes_ok_puts _ _ _ Hp (bytes_ok_zeros _)) as Hb.
  assert (fits 32 full) as Hfull by (rewrite Hc; apply ComputeCRC_fits; auto with pst).
  clear Hc Hb Hs. pose proof fits_magic.
  apply (reads_header _ _ _ rest) in Hp; [|lia]. unfold ReadHeader. fold (header_buf (data ++ rest)).
  rewrite blen_sub_min, blen_app, Hl by done. pose proof (blen_nonneg rest).
  unfold HeaderSizeUnicode, HeaderSizeANSI. rewrite (proj2 (Z.ltb_ge _ _)) by lia.
  rewrite (proj2 (Z.ltb_ge _ 564)) by lia.
  set (buf := header_buf (data ++ rest)) in *. clearbody buf. clear Hl.
  destruct h as [magic crc0 client ver verc pc pa db cl f r crypt nextB full0 nextP uniq].
  destruct r as [orph eof last af pf [nbid nib] [bbid bib] valid bar car].
  unfold header_wf, root_wf in Hw. cbn -[reads Z.add u32] in Hf, Hw, Hv, Hp. destruct_and!. subst.
  assert (fits 16 client) by (destruct H5 as [-> | ->]; by vm_compute).
  unfold parseCommon. read_fields Hp. cbn [C_Magic C_Client C_Ver].
  rewrite Z.eqb_refl. cbn [negb].
  replace (negb (client =? ClientMagicPST) && negb (client =? ClientMagicOST)) with false
    by (by destruct H5 as [-> | ->]).
  unfold DatabaseFormatUnicodeMin, DatabaseFormatUnicodeMax in *.
  rewrite (proj2 (Z.leb_le 20 ver)), (proj2 (Z.leb_le ver 23)) by lia.
  cbn [andb]. unfold parseUnicodeHeader, parseRootUnicode.
  erewrite (reads_tail3 _ _ _ (180 + 60) bib valid bar car Hp); [|reflexivity|done|reflexivity|done|reflexivity|done|reflexivity|done|lia|lia].
  repeat read_straddle Hp.
  rewrite (reads_part _ _ _ 4 180 eof 0 Hp) by first [reflexivity|lia].
  rewrite (reads_part _ _ _ 1 513 nextB 1 Hp) by first [reflexivity|lia].
  read_fields Hp. rewrite Z.pow_0_r, Z.div_1_r. done.
Qed.
Lemma unicode_header_reread_witness :
  ∃ data partial full,
    SerializeHeader (sample_header FormatUnicode) = Ok (data, set_crc (sample_header FormatUnicode) partial full) ∧
    blen data = HeaderSizeUnicode ∧ full = ComputeCRC (sub data 8 512) ∧
    ReadHeader (data ++ []) = Ok (unicode_reread (set_crc (sample_header FormatUnicode) partial full) full).
Proof.
  refine (unicode_header_reread (sample_header FormatUnicode) [] _ _ _).
  - done.
  - apply (bool_decide_unpack _). by vm_compute.
  - by vm_compute.
Defined.

(** ** What the reader accepts *)
Definition header_accepted (file : bytes) : Prop :=
  HeaderSizeANSI ≤ blen file ∧ rd 4 0 file = Ok PSTMagic ∧
  (rd 2 8 file = Ok ClientMagicPST ∨ rd 2 8 file = Ok ClientMagicOST) ∧
  ∃ ver, rd 2 10 file = Ok ver ∧
    (DatabaseFormatANSIMin ≤ ver ≤ DatabaseFormatANSIMax ∨
     DatabaseFormatUnicodeMin ≤ ver ≤ DatabaseFormatUnicodeMax ∧ HeaderSizeUnicode ≤ blen file).

Lemma rd_header_buf file n p :
  0 ≤ p → p + Z.of_nat n ≤ 564 → ∃ v, rd n p (header_buf file) = Ok v.
Proof. intros. eexists. apply rd_Ok; rewrite ?blen_header_buf; lia. Qed.

(** Name the results of all reads of the header buffer. *)
Ltac name_reads file :=
  repeat match goal with |- context [rd ?n ?p (header_buf file)] =>
    let v := fresh "v" in let H := fresh "Hrd" in
    destruct (rd_header_buf file n p) as [v H]; [lia|lia|]; rewrite H in *
  end.

Lemma parse_formats_total file c :
  (∃ h, parseUnicodeHeader c (header_buf file) = Ok h ∧ HFormat h = FormatUnicode ∧ WVer h = C_Ver c) ∧
  (∃ h, parseANSIHeader c (header_buf file) = Ok h ∧ HFormat h = FormatANSI ∧ WVer h = C_Ver c).
Proof.
  unfold parseUnicodeHeader, parseANSIHeader, parseRootUnicode, parseRootANSI.
  split; name_reads file; (eexists; split; [reflexivity|done]).
Qed.

(** [ReadHeader] returns on every file, never by a panic: it yields a header
    exactly when the file holds the header of a known version with the magic
    numbers in place, that header's format is the one its version announces,
    and every other file gives an error. *)
Theorem ReadHeader_total file :
  (∃ h, ReadHeader file = Ok h ∧ header_accepted file ∧
     (HFormat h = FormatANSI ∧ DatabaseFormatANSIMin ≤ WVer h ≤ DatabaseFormatANSIMax ∨
      HFormat h = FormatUnicode ∧ DatabaseFormatUnicodeMin ≤ WVer h ≤ DatabaseFormatUnicodeMax)) ∨
  (∃ e, ReadHeader file = Err e ∧ ¬ header_accepted file).
Proof.
  unfold ReadHeader. fold (header_buf file). unfold header_accepted.
  rewrite blen_sub_min by done. pose proof (blen_nonneg file).
  destruct (Z.ltb_spec (HeaderSizeUnicode `min` blen file) HeaderSizeANSI) as [Hs|Hs];
    unfold HeaderSizeANSI, HeaderSizeUnicode in *.
  { right. eexists. split; [done|]. lia. }
  rewrite <- (header_buf_rd file 4 0), <- (header_buf_rd file 2 8), <- (header_buf_rd file 2 10) by lia.
  unfold parseCommon. name_reads file. repeat first [rewrite bind_Ok | rewrite mret_Ok]. cbn [C_Magic C_Client C_Ver].
  set (c := mkCommon _ _ _ _ _ _ _ _ _). destruct (parse_formats_total file c) as [(hu & Hu & Fu & Vu) (ha & Ha & Fa & Va)].
  rewrite Hu, Ha. cbn [C_Ver c] in Vu, Va. clear Hu Ha. clearbody c.
  unfold DatabaseFormatANSIMin, DatabaseFormatANSIMax, DatabaseFormatUnicodeMin, DatabaseFormatUnicodeMax in *.
  destruct (Z.eqb_spec v7 PSTMagic); cbn [negb]; [|right; eexists; split; [done|naive_solver]].
  destruct (Z.eqb_spec v5 ClientMagicPST), (Z.eqb_spec v5 ClientMagicOST); cbn [negb andb];
    try (right; eexists; split; [done|naive_solver]);
    (destruct (Z.leb_spec 20 v4), (Z.leb_spec v4 23), (Z.leb_spec 14 v4), (Z.leb_spec v4 15); cbn [andb]; try lia;
     try (destruct (Z.ltb_spec (564 `min` blen file) 564));
     first
      [ left; eexists; split; [done|]; rewrite ?Vu, ?Va; (split; [|first [left; split; [done|lia]|right; split; [done|lia]]]);
        split_and!; [lia|congruence|first [left; congruence|right; congruence]|eexists; split; [done|lia]]
      | right; eexists; split; [done|]; intros (_ & _ & _ & ver & [= <-] & Hr); lia ]).
Qed.
