(* ===== verification/AMap.v ===== *)
(** * Allocation map ([pkg/disk/amap.go])

    Pages of 496 bitmap bytes, one bit per 64-byte slot, and the manager that
    allocates and frees runs of slots over them. *)
From S2P Require Import Prelude Format Codec Crypt Fields Page Header.

(** ** Data *)
Record AMapPage := mkAMapPage {
  AP_Offset : Z; AP_BitMap : bytes; AP_Trailer : PageTrailer; AP_FreeSlots : Z; AP_format : PSTFormat }.
Record allocation := mkAlloc { al_offset : Z; al_size : Z }.
Record AMapManager := mkAMap {
  AM_pages : list AMapPage; AM_format : PSTFormat; AM_fileSize : Z; AM_freeBytes : Z;
  AM_pendingAllocs : list allocation }.

Definition bitmapLen : Z := 496.
Definition bytesPerAMap : Z := 496 * 512.
#[export] Hint Unfold bitmapLen bytesPerAMap : pst_consts.

(** ** Bits *)
(** [b&(1<<i) == 0] *)
Definition bit_clear (b i : Z) : bool := Z.land b (Z.shiftl 1 i) =? 0.
Definition bit_indices : list Z := [0; 1; 2; 3; 4; 5; 6; 7].

(** The bits of the bitmap in the order the nested loops visit them: slot index
    and whether the slot is free. *)
Definition byte_slots (byteIdx b : Z) : list (Z * bool) :=
  map (λ bitIdx, (byteIdx * 8 + bitIdx, bit_clear b bitIdx)) bit_indices.
Fixpoint slots_from (byteIdx : Z) (bm : bytes) : list (Z * bool) :=
  match bm with [] => [] | b :: bm => byte_slots byteIdx b ++ slots_from (byteIdx + 1) bm end.
Definition slots_of (bm : bytes) : list (Z * bool) := slots_from 0 bm.

Definition countFree (bm : bytes) : Z :=
  foldl (λ n '(_, free), if (free : bool) then n + 1 else n) 0 (slots_of bm).
Definition set_bitmap (p : AMapPage) (bm : bytes) (free : Z) : AMapPage :=
  mkAMapPage (AP_Offset p) bm (AP_Trailer p) free (AP_format p).
Definition countFreeSlots (p : AMapPage) : AMapPage := set_bitmap p (AP_BitMap p) (countFree (AP_BitMap p)).

Definition calculateFreeSpace (pages : list AMapPage) : Z :=
  foldl (λ n p, u64 (n + u64 (u64 (AP_FreeSlots p) * BytesPerSlot))) 0 pages.

(** First byte of the area a page describes. *)
Definition baseOffset (p : AMapPage) : Z :=
  if AP_Offset p =? FirstAMapPageLocation then FirstAMapPageLocation + PageSize
  else u64 (AP_Offset p + PageSize).

(** ** Searching a page *)
Fixpoint find_run (slotsNeeded : Z) (ss : list (Z * bool)) (consecutiveFree startSlot : Z) : option Z :=
  match ss with
  | [] => None
  | (slotIdx, free) :: ss =>
    if (free : bool) then
      let startSlot := if consecutiveFree =? 0 then slotIdx else startSlot in
      let consecutiveFree := consecutiveFree + 1 in
      if slotsNeeded <=? consecutiveFree then Some startSlot
      else find_run slotsNeeded ss consecutiveFree startSlot
    else find_run slotsNeeded ss 0 (-1)
  end.
Definition findContiguousFree (p : AMapPage) (slotsNeeded : Z) : option Z :=
  if AP_FreeSlots p <? slotsNeeded then None else
  match find_run slotsNeeded (slots_of (AP_BitMap p)) 0 (-1) with
  | Some startSlot => Some (u64 (baseOffset p + startSlot * BytesPerSlot))
  | None => None
  end.

(** ** Marking slots *)
(** [for i := 0; i < slots; i++ { .. }] from [slotIdx], where [upd] changes the
    byte and [d] the count of free slots. *)
Fixpoint mark_slots (upd : Z → Z → Z) (d : Z) (slots : nat) (slotIdx : Z) (bm : bytes) (free : Z) : bytes * Z :=
  match slots with
  | O => (bm, free)
  | S slots =>
    let byteIdx := slotIdx / 8 in
    let bitIdx := slotIdx mod 8 in
    if byteIdx <? blen bm
    then mark_slots upd d slots (slotIdx + 1) (alter (λ b, upd b bitIdx) (Z.to_nat byteIdx) bm) (free + d)
    else mark_slots upd d slots (slotIdx + 1) bm free
  end.
Definition set_bit (b i : Z) : Z := Z.lor b (Z.shiftl 1 i).
Definition clear_bit (b i : Z) : Z := Z.ldiff b (Z.shiftl 1 i).

Definition startSlot (p : AMapPage) (offset : Z) : Z := u64 (offset - baseOffset p) / BytesPerSlot.
Definition markAllocated (p : AMapPage) (offset slots : Z) : AMapPage :=
  let '(bm, free) := mark_slots set_bit (-1) (Z.to_nat slots) (startSlot p offset) (AP_BitMap p) (AP_FreeSlots p) in
  set_bitmap p bm free.
Definition markFree (p : AMapPage) (offset slots : Z) : AMapPage :=
  let '(bm, free) := mark_slots clear_bit 1 (Z.to_nat slots) (startSlot p offset) (AP_BitMap p) (AP_FreeSlots p) in
  set_bitmap p bm free.

(** ** The manager *)
(** [for _, page := range m.pages { if ok { .. return } }]: the first page with
    room and the offset found in it. *)
Fixpoint find_page (ps : list AMapPage) (slotsNeeded : Z) : option (nat * Z) :=
  match ps with
  | [] => None
  | p :: ps =>
    match findContiguousFree p slotsNeeded with
    | Some offset => Some (0%nat, offset)
    | None => '(i, offset) ← find_page ps slotsNeeded; Some (S i, offset)
    end
  end.

Definition Allocate (m : AMapManager) (size : Z) : result (Z * AMapManager) :=
  if size =? 0 then Err (EFmt "cannot allocate zero bytes" []) else
  let alignedSize := AlignDisk size in
  let slotsNeeded := alignedSize / BytesPerSlot in
  match find_page (AM_pages m) slotsNeeded with
  | Some (i, offset) =>
    mret (offset, mkAMap (alter (λ p, markAllocated p offset slotsNeeded) i (AM_pages m)) (AM_format m)
      (AM_fileSize m) (u64 (AM_freeBytes m - alignedSize))
      (AM_pendingAllocs m ++ [mkAlloc offset alignedSize]))
  | None =>
    let newOffset := AM_fileSize m in
    mret (newOffset, mkAMap (AM_pages m) (AM_format m) (u64 (AM_fileSize m + alignedSize)) (AM_freeBytes m)
      (AM_pendingAllocs m ++ [mkAlloc newOffset alignedSize]))
  end.

Definition covers (p : AMapPage) (offset : Z) : bool :=
  let pageBase := baseOffset p in
  let pageEnd := u64 (pageBase + bytesPerAMap) in
  (pageBase <=? offset) && (offset <? pageEnd).
Fixpoint findPageForOffset (ps : list AMapPage) (offset : Z) : option nat :=
  match ps with
  | [] => None
  | p :: ps => if covers p offset then Some 0%nat else S <$> findPageForOffset ps offset
  end.

Definition Free (m : AMapManager) (offset size : Z) : result AMapManager :=
  let alignedSize := AlignDisk size in
  let slotsToFree := alignedSize / BytesPerSlot in
  match findPageForOffset (AM_pages m) offset with
  | None => Err (EFmt "no AMap page found for offset 0x%X" [offset])
  | Some i =>
    mret (mkAMap (alter (λ p, markFree p offset slotsToFree) i (AM_pages m)) (AM_format m) (AM_fileSize m)
      (u64 (AM_freeBytes m + alignedSize)) (AM_pendingAllocs m))
  end.
Definition FreeSpace (m : AMapManager) : Z := AM_freeBytes m.
Definition FileSize (m : AMapManager) : Z := AM_fileSize m.
Definition PendingAllocations (m : AMapManager) : list allocation := AM_pendingAllocs m.
Definition ClearPending (m : AMapManager) : AMapManager :=
  mkAMap (AM_pages m) (AM_format m) (AM_fileSize m) (AM_freeBytes m) [].

(** ** Rebuilding from the B-trees *)
Record BlockAllocation := mkBlockAlloc { ba_Offset : Z; ba_Size : Z }.
Definition ba_le (a b : BlockAllocation) : Prop := ba_Offset a ≤ ba_Offset b.
#[export] Instance ba_le_dec : RelDecision ba_le.
Proof. intros a b. unfold ba_le. apply _. Defined.

Definition clear_page (p : AMapPage) : AMapPage :=
  countFreeSlots (set_bitmap p (map (λ _, 0) (AP_BitMap p)) (AP_FreeSlots p)).
Definition mark_block (ps : list AMapPage) (block : BlockAllocation) : list AMapPage :=
  match findPageForOffset ps (ba_Offset block) with
  | None => ps
  | Some i =>
    let slots := AlignDisk (ba_Size block) / BytesPerSlot in
    alter (λ p, markAllocated p (ba_Offset block) slots) i ps
  end.
Definition RebuildFromBTrees (m : AMapManager) (allocatedBlocks : list BlockAllocation) : AMapManager :=
  let ps := foldl mark_block (map clear_page (AM_pages m)) (merge_sort ba_le allocatedBlocks) in
  mkAMap ps (AM_format m) (AM_fileSize m) (calculateFreeSpace ps) (AM_pendingAllocs m).

(** ** Pages on disk *)
Definition amapTrailerOffset (format : PSTFormat) : Z :=
  if is_ANSI format then PageSize - PageTrailerSizeANSI else PageSize - PageTrailerSizeUnicode.

Definition Serialize (p : AMapPage) : result bytes :=
  let buf := splice 0 (AP_BitMap p) (zeros PageSize) in
  let o := amapTrailerOffset (AP_format p) in
  pre ← slice buf 0 o;
  let crc := ComputeCRC pre in
  let sig := ComputeSignature (PT_BID (AP_Trailer p)) (AP_Offset p) in
  puts ([(1%nat, o, PageTypeAMap); (1%nat, o + 1, PageTypeAMap); (2%nat, o + 2, sig)]
        ++ (if is_Unicode (AP_format p)
            then [(4%nat, o + 4, crc); (8%nat, o + 8, PT_BID (AP_Trailer p))]
            else [(4%nat, o + 4, u32 (PT_BID (AP_Trailer p))); (4%nat, o + 8, crc)])) buf.

(** [readAMapPage] from a file of the given contents; [ReadAt] rejects an
    offset that is negative as an [int64] and stops at the end of the file. *)
Definition readAMapPage (file : bytes) (format : PSTFormat) (offset : Z) : result AMapPage :=
  if 2 ^ 63 <=? offset then Err (EFmt "negative offset" []) else
  let buf := sub file offset PageSize in
  if negb (blen buf =? PageSize)
  then Err (EFmt "incomplete AMap page read: got %d bytes" [blen buf]) else
  tr ← slice buf (amapTrailerOffset format) PageSize;
  trailer ← (if is_Unicode format then ParsePageTrailerUnicode tr else ParsePageTrailerANSI tr);
  if negb (PT_PageType trailer =? PageTypeAMap)
  then Err (EFmt "invalid AMap page type: got 0x%02X" [PT_PageType trailer])
  else mret (countFreeSlots (mkAMapPage offset (sub buf 0 bitmapLen) trailer 0 format)).

(** The loop of [loadAMapPages], from [offset]. *)
Fixpoint load_pages (fuel : nat) (file : bytes) (format : PSTFormat) (ibAMapLast offset : Z)
    : option (result (list AMapPage)) :=
  match fuel with
  | O => None
  | S fuel =>
    if offset <=? ibAMapLast then
      match wrap_err "failed to read AMap page at 0x%X" (readAMapPage file format offset) with
      | Ok page =>
        match load_pages fuel file format ibAMapLast (u64 (offset + bytesPerAMap)) with
        | Some (Ok ps) => Some (Ok (page :: ps))
        | r => r
        end
      | Err e => Some (Err e)
      | Panic => Some Panic
      end
    else Some (Ok [])
  end.
(** Every page read lies in the file, so the file's length bounds the loop. *)
Definition load_fuel (file : bytes) : nat := S (S (Z.to_nat (blen file / bytesPerAMap))).
Definition loadAMapPages (file : bytes) (format : PSTFormat) (ibAMapLast : Z) : option (result (list AMapPage)) :=
  load_pages (load_fuel file) file format ibAMapLast FirstAMapPageLocation.
Definition NewAMapManager (file : bytes) (h : Header) : option (result AMapManager) :=
  match loadAMapPages file (HFormat h) (IBAMapLast (HRoot h)) with
  | None => None
  | Some r => Some (ps ← wrap_err "failed to load AMap pages" r;
      mret (mkAMap ps (HFormat h) (IBFileEOF (HRoot h)) (calculateFreeSpace ps) []))
  end.

(** [CreateNewAMapManager]: the slots before the end of the first AMap page are
    marked through the loop over [i]. *)
Definition initialSlots : Z := (FirstAMapPageLocation + PageSize) / BytesPerSlot.
Definition CreateNewAMapManager (format : PSTFormat) : AMapManager :=
  let bm := (mark_slots set_bit 0 (Z.to_nat (Z.min initialSlots (496 * 8))) 0 (zeros bitmapLen) 0).1 in
  let page := countFreeSlots
    (mkAMapPage FirstAMapPageLocation bm (mkPageTrailer PageTypeAMap PageTypeAMap 0 0 0) 0 format) in
  mkAMap [page] format (FirstAMapPageLocation + PageSize) (calculateFreeSpace [page]) [].

(** ** Bits of a bitmap *)

(** Slot [i] of a bitmap is free. *)
Definition free_at (bm : bytes) (i : Z) : bool :=
  match bm !! Z.to_nat (i / 8) with Some b => bit_clear b (i mod 8) | None => false end.

Lemma testbit_shiftl_1 i j : 0 ≤ i → 0 ≤ j → Z.testbit (Z.shiftl 1 i) j = (i =? j).
Proof. intros. rewrite Z.shiftl_mul_pow2, Z.mul_1_l by done. by apply Z.pow2_bits_eqb. Qed.
Lemma bit_clear_testbit b i : 0 ≤ i → bit_clear b i = negb (Z.testbit b i).
Proof.
  intros Hi. unfold bit_clear. destruct (Z.testbit b i) eqn:E; cbn [negb].
  - apply Z.eqb_neq. intros H. apply (f_equal (λ x, Z.testbit x i)) in H.
    rewrite Z.land_spec, testbit_shiftl_1, Z.eqb_refl, E, Z.bits_0 in H by done. done.
  - apply Z.eqb_eq. apply Z.bits_inj'. intros j Hj. rewrite Z.land_spec, Z.bits_0, testbit_shiftl_1 by done.
    destruct (Z.eqb_spec i j) as [<-|]; [by rewrite E|apply andb_false_r].
Qed.
Lemma bit_clear_set b i j : 0 ≤ i → 0 ≤ j → bit_clear (set_bit b i) j = if i =? j then false else bit_clear b j.
Proof.
  intros. rewrite !bit_clear_testbit by done. unfold set_bit. rewrite Z.lor_spec, testbit_shiftl_1 by done.
  destruct (i =? j); [by rewrite orb_true_r|by rewrite orb_false_r].
Qed.
Lemma bit_clear_clear b i j : 0 ≤ i → 0 ≤ j → bit_clear (clear_bit b i) j = if i =? j then true else bit_clear b j.
Proof.
  intros. rewrite !bit_clear_testbit by done. unfold clear_bit. rewrite Z.ldiff_spec, testbit_shiftl_1 by done.
  destruct (i =? j); [by rewrite andb_false_r|by rewrite andb_true_r].
Qed.
Lemma is_byte_upd (upd : Z → Z → Z) :
  forallb (λ b, forallb (λ i, (0 <=? upd b i) && (upd b i <? 256)) bit_indices) all_bytes = true →
  ∀ b i, is_byte b → 0 ≤ i < 8 → is_byte (upd b i).
Proof.
  intros H b i Hb Hi. apply (byte_forall _ H) in Hb. rewrite forallb_forall in Hb.
  specialize (Hb i). unfold is_byte. assert (In i bit_indices) as Hin by (cbn; lia).
  specialize (Hb Hin). apply andb_prop in Hb as [?%Z.leb_le ?%Z.ltb_lt]. lia.
Qed.
Lemma is_byte_set b i : is_byte b → 0 ≤ i < 8 → is_byte (set_bit b i).
Proof. apply is_byte_upd. by vm_compute. Qed.
Lemma is_byte_clear b i : is_byte b → 0 ≤ i < 8 → is_byte (clear_bit b i).
Proof. apply is_byte_upd. by vm_compute. Qed.

(** Runs of slots by index. *)
Definition slots_by (f : Z → bool) (s : Z) (n : nat) : list (Z * bool) := map (λ i, (i, f i)) (seqZ s (Z.of_nat n)).

Lemma slots_by_S f s n : slots_by f s (S n) = (s, f s) :: slots_by f (s + 1) n.
Proof.
  unfold slots_by. rewrite seqZ_cons by lia. cbn [map].
  replace (Z.succ s) with (s + 1) by lia. by replace (Z.pred (Z.of_nat (S n))) with (Z.of_nat n) by lia.
Qed.
Lemma slots_by_ext f g s n :
  (∀ i, s ≤ i < s + Z.of_nat n → f i = g i) → slots_by f s n = slots_by g s n.
Proof. intros H. unfold slots_by. apply map_ext_in. intros i Hi%list_elem_of_In%elem_of_seqZ. by rewrite H by lia. Qed.

Lemma free_at_cons b bm i :
  free_at (b :: bm) i = if (0 <=? i) && (i <? 8) then bit_clear b i else if i <? 0 then free_at (b :: bm) i else free_at bm (i - 8).
Proof.
  destruct (Z.leb_spec 0 i), (Z.ltb_spec i 8), (Z.ltb_spec i 0); cbn [andb]; try done; try lia.
  - unfold free_at. rewrite Z.div_small, Z.mod_small by lia. done.
  - unfold free_at. replace (i / 8) with ((i - 8) / 8 + 1) by (rewrite <- Z.div_add by lia; f_equal; lia).
    assert (0 ≤ (i - 8) / 8) by (apply Z.div_pos; lia).
    rewrite Z2Nat.inj_add, Nat.add_1_r by lia. cbn [lookup list_lookup]. change (Z.to_nat 1) with 1%nat.
    replace (i mod 8) with ((i - 8) mod 8); [done|].
    rewrite <- (Z_mod_plus_full (i - 8) 1 8). f_equal. lia.
Qed.

Lemma free_at_low b bm i : 0 ≤ i < 8 → free_at (b :: bm) i = bit_clear b i.
Proof. intros. rewrite free_at_cons. destruct (Z.leb_spec 0 i), (Z.ltb_spec i 8); done || lia. Qed.
Lemma free_at_high b bm i : 8 ≤ i → free_at (b :: bm) i = free_at bm (i - 8).
Proof.
  intros. rewrite free_at_cons. destruct (Z.leb_spec 0 i), (Z.ltb_spec i 8), (Z.ltb_spec i 0); done || lia.
Qed.
Lemma free_at_range bm i : 0 ≤ i → free_at bm i = true → i < 8 * blen bm.
Proof.
  unfold free_at. intros Hi. destruct (bm !! _) eqn:E; [|done]. intros _.
  apply lookup_lt_Some in E. unfold blen. pose proof (Z_div_mod_eq_full i 8).
  pose proof (Z.mod_pos_bound i 8). assert (0 ≤ i / 8) by (apply Z.div_pos; lia). lia.
Qed.

Lemma slots_from_by bm : ∀ k, slots_from k bm = slots_by (λ i, free_at bm (i - 8 * k)) (8 * k) (8 * length bm).
Proof.
  induction bm as [|b bm IH]; intros k; [done|]. cbn [slots_from length].
  replace (8 * S (length bm))%nat with (8 + 8 * length bm)%nat by lia.
  rewrite IH. unfold byte_slots, bit_indices. cbn [map app].
  cbn [Nat.add]. rewrite !slots_by_S.
  rewrite !free_at_low by lia.
  repeat (f_equal; [f_equal; [lia|f_equal; lia]|]).
  replace (8 * k + 1 + 1 + 1 + 1 + 1 + 1 + 1 + 1) with (8 * (k + 1)) by lia.
  apply slots_by_ext. intros i Hi. rewrite free_at_high by lia. f_equal. lia.
Qed.
Lemma slots_of_by bm : slots_of bm = slots_by (free_at bm) 0 (8 * length bm).
Proof. unfold slots_of. rewrite slots_from_by. apply slots_by_ext. intros. f_equal. lia. Qed.

(** ** Counting *)
Fixpoint cnt (f : Z → bool) (s : Z) (n : nat) : Z :=
  match n with O => 0 | S n => (if f s then 1 else 0) + cnt f (s + 1) n end.

Lemma cnt_ext f g n : ∀ s, (∀ i, s ≤ i < s + Z.of_nat n → f i = g i) → cnt f s n = cnt g s n.
Proof. induction n as [|n IH]; intros s H; cbn; [done|]. rewrite H by lia. rewrite (IH (s + 1)); [done|]. intros. apply H. lia. Qed.
Lemma cnt_app f n m : ∀ s, cnt f s (n + m) = cnt f s n + cnt f (s + Z.of_nat n) m.
Proof.
  induction n as [|n IH]; intros s; cbn [cnt Nat.add]; [by rewrite Z.add_0_r|].
  rewrite IH. rewrite Nat2Z.inj_succ. replace (s + 1 + Z.of_nat n) with (s + Z.succ (Z.of_nat n)) by lia. lia.
Qed.
Lemma cnt_const (f : Z → bool) v n : ∀ s, (∀ i, s ≤ i < s + Z.of_nat n → f i = v) →
  cnt f s n = if v then Z.of_nat n else 0.
Proof.
  induction n as [|n IH]; intros s H; cbn [cnt]; [by destruct v|].
  rewrite H by lia. rewrite IH by (intros; apply H; lia). destruct v; lia.
Qed.
Lemma cnt_bound f n : ∀ s, 0 ≤ cnt f s n ≤ Z.of_nat n.
Proof. induction n as [|n IH]; intros s; cbn [cnt]; [lia|]. specialize (IH (s + 1)). destruct (f s); lia. Qed.
(** Replacing a window of one value by the other. *)
Lemma cnt_window f g v n s k :
  0 ≤ s → s + Z.of_nat k ≤ Z.of_nat n →
  (∀ i, s ≤ i < s + Z.of_nat k → f i = v ∧ g i = negb v) →
  (∀ i, 0 ≤ i < Z.of_nat n → ¬ s ≤ i < s + Z.of_nat k → g i = f i) →
  cnt g 0 n = cnt f 0 n + if v then - Z.of_nat k else Z.of_nat k.
Proof.
  intros Hs Hk Hin Hout. replace n with (Z.to_nat s + (k + (n - Z.to_nat s - k)))%nat by lia.
  rewrite !cnt_app. rewrite !Z.add_0_l, Z2Nat.id by lia.
  rewrite (cnt_ext g f (Z.to_nat s)) by (intros; apply Hout; lia).
  rewrite (cnt_ext g f (n - Z.to_nat s - k)) by (intros; apply Hout; lia).
  rewrite (cnt_const g (negb v) k) by (intros; by apply Hin).
  rewrite (cnt_const f v k) by (intros; by apply Hin). destruct v; cbn [negb]; lia.
Qed.

Lemma countFree_cnt bm : countFree bm = cnt (free_at bm) 0 (8 * length bm).
Proof.
  unfold countFree. rewrite slots_of_by.
  assert (∀ f n s a, foldl (λ n '(_, free), if (free : bool) then n + 1 else n) a (slots_by f s n) = a + cnt f s n) as H.
  { intros f n. induction n as [|n IH]; intros s a; [change (slots_by f s 0) with (@nil (Z * bool)); cbn [foldl cnt]; lia|].
    rewrite slots_by_S. cbn [foldl cnt]. rewrite IH. destruct (f s); lia. }
  rewrite H. lia.
Qed.

(** ** First fit *)

(** Slots [s .. s+n-1] are all free. *)
Definition run (f : Z → bool) (s n : Z) : Prop := ∀ i, s ≤ i < s + n → f i = true.

Lemma find_run_spec f needed : 1 ≤ needed → ∀ n s c st,
  0 ≤ c < needed → 0 ≤ s - c → (c ≠ 0 → st = s - c) → run f (s - c) c →
  (∀ r, 0 ≤ r < s - c → ∃ j, r ≤ j < r + needed ∧ f j = false) →
  match find_run needed (slots_by f s n) c st with
  | Some r => 0 ≤ r ∧ r + needed ≤ s + Z.of_nat n ∧ run f r needed ∧
      ∀ r', 0 ≤ r' < r → ¬ run f r' needed
  | None => ∀ r, 0 ≤ r → r + needed ≤ s + Z.of_nat n → ¬ run f r needed
  end.
Proof.
  intros Hn n. induction n as [|n IH]; intros s c st Hc Hsc Hst Hrun Hblk.
  { change (slots_by f s 0) with (@nil (Z * bool)). cbn [find_run]. intros r Hr Hle H.
    destruct (Hblk r) as (j & Hj & Hf); [lia|]. by rewrite H in Hf. }
  rewrite slots_by_S. cbn [find_run]. replace (s + Z.of_nat (S n)) with (s + 1 + Z.of_nat n) by lia.
  destruct (f s) eqn:Ef.
  - set (st' := if c =? 0 then s else st).
    assert (st' = s - c) as Hst' by (subst st'; destruct (Z.eqb_spec c 0); [lia|auto]).
    assert (run f (s - c) (c + 1)) as Hrun'.
    { intros i Hi. destruct (decide (i = s)) as [->|]; [done|]. apply Hrun. lia. }
    destruct (Z.leb_spec needed (c + 1)).
    + assert (c + 1 = needed) by lia. split; [lia|split; [lia|split; [by rewrite Hst'; subst needed|]]].
      intros r' Hr' H'. destruct (Hblk r') as (j & Hj & Hf); [lia|]. by rewrite H' in Hf.
    + apply IH; [lia|lia|lia| |].
      * by replace (s + 1 - (c + 1)) with (s - c) by lia.
      * intros r Hr. apply Hblk. lia.
  - apply IH; [lia|lia|lia| |].
    + intros i Hi. lia.
    + intros r Hr. destruct (decide (r < s - c)); [apply Hblk; lia|]. exists s. split; [lia|done].
Qed.

(** ** Marking *)
Lemma blen_alter {A} (f : A → A) i l : blen (alter f i l) = blen l.
Proof. unfold blen. by rewrite length_alter. Qed.

Lemma free_at_alter upd bm k i (v : bool) :
  (∀ b a j, 0 ≤ a → 0 ≤ j → bit_clear (upd b a) j = if a =? j then v else bit_clear b j) →
  0 ≤ k < 8 * blen bm → 0 ≤ i →
  free_at (alter (λ b, upd b (k mod 8)) (Z.to_nat (k / 8)) bm) i = if i =? k then v else free_at bm i.
Proof.
  intros Hu Hk Hi. unfold free_at.
  pose proof (Z_div_mod_eq_full k 8). pose proof (Z_div_mod_eq_full i 8).
  pose proof (Z.mod_pos_bound k 8 ltac:(lia)). pose proof (Z.mod_pos_bound i 8 ltac:(lia)).
  assert (0 ≤ k / 8) by (apply Z.div_pos; lia). assert (0 ≤ i / 8) by (apply Z.div_pos; lia).
  destruct (decide (i / 8 = k / 8)) as [E|E].
  - rewrite E, list_lookup_alter. destruct (lookup_lt_is_Some_2 bm (Z.to_nat (k / 8))) as [b Hb].
    { unfold blen in *. lia. }
    rewrite Hb, decide_True by done. cbn -[bit_clear Z.modulo Z.eqb]. rewrite Hu by lia.
    destruct (Z.eqb_spec (k mod 8) (i mod 8)), (Z.eqb_spec i k); done || lia.
  - rewrite list_lookup_alter_ne by lia. destruct (Z.eqb_spec i k); [congruence|done].
Qed.

(** The number of slots of a run that lie in a bitmap of [len] bytes. *)
Definition clipped (s : Z) (n : nat) (len : Z) : Z := Z.max 0 (Z.min (s + Z.of_nat n) (8 * len) - s).

Lemma mark_slots_spec upd d (v : bool) :
  (∀ b a j, 0 ≤ a → 0 ≤ j → bit_clear (upd b a) j = if a =? j then v else bit_clear b j) →
  (∀ b i, is_byte b → 0 ≤ i < 8 → is_byte (upd b i)) →
  ∀ n s bm free, 0 ≤ s → bytes_ok bm →
  let '(bm', free') := mark_slots upd d n s bm free in
  blen bm' = blen bm ∧ bytes_ok bm' ∧ free' = free + d * clipped s n (blen bm) ∧
  ∀ i, 0 ≤ i → free_at bm' i
     = if (s <=? i) && (i <? s + Z.of_nat n) && (i <? 8 * blen bm) then v else free_at bm i.
Proof.
  intros Hu Hbyte n. induction n as [|n IH]; intros s bm free Hs Hok; cbn [mark_slots].
  { unfold clipped. split; [done|split; [done|split; [nia|]]]. intros i Hi.
    destruct (Z.leb_spec s i), (Z.ltb_spec i (s + Z.of_nat 0)); cbn [andb]; done || lia. }
  pose proof (Z_div_mod_eq_full s 8). pose proof (Z.mod_pos_bound s 8 ltac:(lia)).
  assert (0 ≤ s / 8) by (apply Z.div_pos; lia).
  destruct (Z.ltb_spec (s / 8) (blen bm)) as [Hin|Hout].
  - assert (bytes_ok (alter (λ b, upd b (s mod 8)) (Z.to_nat (s / 8)) bm)) as Hok'.
    { apply Forall_alter; [done|]. intros b Hb Hx. apply Hbyte; [done|lia]. }
    specialize (IH (s + 1) _ (free + d) ltac:(lia) Hok'). destruct (mark_slots _ _ _ _ _ _) as [bm' free'].
    rewrite !blen_alter in IH. destruct IH as (L1 & L2 & L3 & L4).
    split; [done|split; [done|split]].
    + rewrite L3. unfold clipped. rewrite <- Z.add_assoc. f_equal.
      replace (Z.max 0 (Z.min (s + Z.of_nat (S n)) (8 * blen bm) - s))
        with (1 + Z.max 0 (Z.min (s + 1 + Z.of_nat n) (8 * blen bm) - (s + 1))) by lia. lia.
    + intros i Hi. rewrite L4, (free_at_alter upd bm s i v) by (done || lia).
      destruct (Z.leb_spec (s + 1) i), (Z.leb_spec s i), (Z.ltb_spec i (s + 1 + Z.of_nat n)),
        (Z.ltb_spec i (s + Z.of_nat (S n))), (Z.ltb_spec i (8 * blen bm)), (Z.eqb_spec i s);
        cbn [andb]; done || lia.
  - specialize (IH (s + 1) bm free ltac:(lia) Hok). destruct (mark_slots _ _ _ _ _ _) as [bm' free'].
    destruct IH as (L1 & L2 & L3 & L4). split; [done|split; [done|split]].
    + rewrite L3. unfold clipped. f_equal. f_equal. lia.
    + intros i Hi. rewrite L4 by done.
      destruct (Z.leb_spec (s + 1) i), (Z.leb_spec s i), (Z.ltb_spec i (s + 1 + Z.of_nat n)),
        (Z.ltb_spec i (s + Z.of_nat (S n))), (Z.ltb_spec i (8 * blen bm)); cbn [andb]; done || lia.
Qed.

(** ** Well-formed pages *)
Definition amapSlots : Z := 3968.
#[export] Hint Unfold amapSlots : pst_consts.
Definition page_wf (p : AMapPage) : Prop :=
  blen (AP_BitMap p) = bitmapLen ∧ bytes_ok (AP_BitMap p) ∧
  AP_FreeSlots p = countFree (AP_BitMap p) ∧ 0 ≤ AP_Offset p < 2 ^ 62.
#[export] Instance page_wf_dec p : Decision (page_wf p).
Proof. unfold page_wf. apply _. Defined.

(** File offset of a slot, and whether it is free. *)
Definition slot_addr (p : AMapPage) (s : Z) : Z := AP_Offset p + PageSize + BytesPerSlot * s.
Definition slot_free (p : AMapPage) (s : Z) : bool := free_at (AP_BitMap p) s.

Lemma baseOffset_wf p : page_wf p → baseOffset p = AP_Offset p + PageSize.
Proof.
  intros (_ & _ & _ & H). unfold baseOffset. destruct (Z.eqb_spec (AP_Offset p) FirstAMapPageLocation) as [->|]; [done|].
  apply u64_small. unfold PageSize. lia.
Qed.
Lemma startSlot_addr p s : page_wf p → 0 ≤ s < amapSlots → startSlot p (slot_addr p s) = s.
Proof.
  intros Hp Hs. unfold startSlot. rewrite baseOffset_wf by done. unfold slot_addr, BytesPerSlot, amapSlots in *.
  replace (_ - _) with (s * 64) by lia. rewrite u64_small by lia. by apply Z.div_mul.
Qed.
Lemma page_count p : page_wf p → AP_FreeSlots p = cnt (slot_free p) 0 (Z.to_nat amapSlots).
Proof.
  intros (Hl & _ & -> & _). rewrite countFree_cnt. unfold blen, bitmapLen, amapSlots in *.
  replace (8 * length (AP_BitMap p))%nat with (Z.to_nat 3968) by lia. done.
Qed.

Lemma run_cnt f s n N : 0 ≤ s → 0 ≤ n → s + n ≤ Z.of_nat N → run f s n → n ≤ cnt f 0 N.
Proof.
  intros Hs Hn Hle Hr. replace N with (Z.to_nat s + (Z.to_nat n + (N - Z.to_nat s - Z.to_nat n)))%nat by lia.
  rewrite !cnt_app. rewrite (cnt_const f true (Z.to_nat n)) by (intros; apply Hr; lia).
  pose proof (cnt_bound f (Z.to_nat s) 0).
  pose proof (cnt_bound f (N - Z.to_nat s - Z.to_nat n) (0 + Z.of_nat (Z.to_nat s) + Z.of_nat (Z.to_nat n))). lia.
Qed.

Lemma findContiguousFree_spec p n : page_wf p → 1 ≤ n →
  match findContiguousFree p n with
  | Some off => ∃ s, off = slot_addr p s ∧ 0 ≤ s ∧ s + n ≤ amapSlots ∧ run (slot_free p) s n ∧
                     ∀ r, 0 ≤ r < s → ¬ run (slot_free p) r n
  | None => ∀ r, 0 ≤ r → r + n ≤ amapSlots → ¬ run (slot_free p) r n
  end.
Proof.
  intros Hp Hn. unfold findContiguousFree. pose proof (page_count p Hp) as Hc.
  destruct (Z.ltb_spec (AP_FreeSlots p) n) as [Hlt|Hge].
  { intros r Hr Hle Hrun. apply (run_cnt _ _ _ (Z.to_nat amapSlots)) in Hrun; [lia|lia|lia|]. unfold amapSlots in *. lia. }
  pose proof (find_run_spec (slot_free p) n Hn (8 * length (AP_BitMap p)) 0 0 (-1)) as H.
  rewrite slots_of_by. fold (slot_free p).
  assert (Z.of_nat (8 * length (AP_BitMap p)) = amapSlots) as HL.
  { destruct Hp as (Hl & _). unfold blen, bitmapLen, amapSlots in *. lia. }
  rewrite HL in H. unfold slot_free in *.
  destruct (find_run _ _ _ _) as [s|].
  - destruct H as (H1 & H2 & H3 & H4); [lia|lia|lia|intros ? ?; lia|intros; lia|].
    exists s. split; [|done]. rewrite baseOffset_wf by done. unfold slot_addr, BytesPerSlot, PageSize, amapSlots in *.
    destruct Hp as (_ & _ & _ & Ho). rewrite u64_small; lia.
  - intros r Hr Hle. apply H; [lia|lia|lia|intros ? ?; lia|intros; lia|lia|lia].
Qed.

(** Marking a run of slots of a page. *)
Definition marked (v : bool) (s n : Z) (p p' : AMapPage) : Prop :=
  page_wf p' ∧ AP_Offset p' = AP_Offset p ∧ AP_format p' = AP_format p ∧ AP_Trailer p' = AP_Trailer p ∧
  ∀ i, 0 ≤ i → slot_free p' i = if (s <=? i) && (i <? s + n) then v else slot_free p i.

Lemma mark_page upd d v p s n :
  (∀ b a j, 0 ≤ a → 0 ≤ j → bit_clear (upd b a) j = if a =? j then v else bit_clear b j) →
  (∀ b i, is_byte b → 0 ≤ i < 8 → is_byte (upd b i)) → d = (if v then 1 else -1) →
  page_wf p → 0 ≤ s → 0 ≤ n → s + n ≤ amapSlots →
  (∀ i, s ≤ i < s + n → slot_free p i = negb v) →
  marked v s n p (let '(bm, free) := mark_slots upd d (Z.to_nat n) s (AP_BitMap p) (AP_FreeSlots p) in
                  set_bitmap p bm free).
Proof.
  intros Hu Hb Hd Hp Hs Hn Hle Hall. pose proof (page_count p Hp) as Hc. pose proof Hp as (Hl & Hok & Hf & Ho).
  pose proof (mark_slots_spec upd d v Hu Hb (Z.to_nat n) s (AP_BitMap p) (AP_FreeSlots p) Hs Hok) as H.
  destruct (mark_slots _ _ _ _ _ _) as [bm free]. destruct H as (L1 & L2 & L3 & L4).
  rewrite Z2Nat.id in L4 by done. unfold clipped in L3. rewrite Hl in L1, L3, L4. unfold bitmapLen, amapSlots in *.
  assert (∀ i, 0 ≤ i → free_at bm i = if (s <=? i) && (i <? s + n) then v else slot_free p i) as Hbits.
  { intros i Hi. rewrite L4 by done. destruct (Z.leb_spec s i), (Z.ltb_spec i (s + n)), (Z.ltb_spec i (8 * 496)); cbn; done || lia. }
  split; [|done]. split; [done|split; [done|split; [|done]]]. cbn [set_bitmap AP_FreeSlots AP_BitMap].
  rewrite countFree_cnt. replace (8 * length bm)%nat with (Z.to_nat 3968) by (unfold blen in L1; lia).
  rewrite (cnt_window (slot_free p) (free_at bm) (negb v) (Z.to_nat 3968) s (Z.to_nat n)); [|lia|lia| |].
  - rewrite <- Hc, L3. subst d. destruct v; cbn [negb]; lia.
  - intros i Hi. rewrite Hbits, negb_involutive by lia. split; [apply Hall; lia|].
    destruct (Z.leb_spec s i), (Z.ltb_spec i (s + n)); done || lia.
  - intros i Hi Hout. rewrite Hbits by lia. destruct (Z.leb_spec s i), (Z.ltb_spec i (s + n)); cbn; done || lia.
Qed.

Lemma markAllocated_spec p s n :
  page_wf p → 0 ≤ s → 1 ≤ n → s + n ≤ amapSlots → run (slot_free p) s n →
  marked false s n p (markAllocated p (slot_addr p s) n).
Proof.
  intros. unfold markAllocated. rewrite startSlot_addr by (done || unfold amapSlots in *; lia).
  apply mark_page; auto using is_byte_set, bit_clear_set with lia.
Qed.
Lemma markFree_spec p s n :
  page_wf p → 0 ≤ s → 1 ≤ n → s + n ≤ amapSlots → (∀ i, s ≤ i < s + n → slot_free p i = false) →
  marked true s n p (markFree p (slot_addr p s) n).
Proof.
  intros. unfold markFree. rewrite startSlot_addr by (done || unfold amapSlots in *; lia).
  apply mark_page; auto using is_byte_clear, bit_clear_clear with lia.
Qed.

Lemma marked_free v s n p p' :
  page_wf p → 0 ≤ s → 0 ≤ n → s + n ≤ amapSlots → (∀ i, s ≤ i < s + n → slot_free p i = negb v) →
  marked v s n p p' → AP_FreeSlots p' = AP_FreeSlots p + if v then n else - n.
Proof.
  intros Hp Hs Hn Hle Hall (Hp' & _ & _ & _ & Hbits). rewrite !page_count by done. unfold amapSlots in *.
  rewrite (cnt_window (slot_free p) (slot_free p') (negb v) _ s (Z.to_nat n)); [|lia|lia| |].
  - destruct v; cbn [negb]; lia.
  - intros i Hi. rewrite Hbits, negb_involutive by lia. split; [apply Hall; lia|].
    destruct (Z.leb_spec s i), (Z.ltb_spec i (s + n)); done || lia.
  - intros i Hi Hout. rewrite Hbits by lia. destruct (Z.leb_spec s i), (Z.ltb_spec i (s + n)); cbn; done || lia.
Qed.

(** ** Well-formed managers *)
Definition total (ps : list AMapPage) : Z := foldr (λ p n, AP_FreeSlots p + n) 0 ps.
(** Pages in file order, each past the area the one before it describes. *)
Definition apart (ps : list AMapPage) : Prop :=
  ∀ i j p q, (i < j)%nat → ps !! i = Some p → ps !! j = Some q → AP_Offset p + bytesPerAMap ≤ AP_Offset q.
Definition amap_wf (m : AMapManager) : Prop :=
  Forall page_wf (AM_pages m) ∧ apart (AM_pages m) ∧
  AM_freeBytes m = BytesPerSlot * total (AM_pages m) ∧ fits 64 (AM_freeBytes m).

Lemma total_alter (f : AMapPage → AMapPage) ps : ∀ i p, ps !! i = Some p →
  total (alter f i ps) = total ps - AP_FreeSlots p + AP_FreeSlots (f p).
Proof.
  induction ps as [|q ps IH]; intros i p Hi; [done|]. destruct i as [|i].
  - injection Hi as ->. change (alter f 0%nat (p :: ps)) with (f p :: ps). cbn [total foldr]. unfold total. lia.
  - change (alter f (S i) (q :: ps)) with (q :: alter f i ps). cbn [total foldr].
    fold (total (alter f i ps)) (total ps). rewrite (IH _ _ Hi). lia.
Qed.
Lemma page_wf_free p : page_wf p → 0 ≤ AP_FreeSlots p ≤ amapSlots.
Proof. intros Hp. rewrite page_count by done. pose proof (cnt_bound (slot_free p) (Z.to_nat amapSlots) 0). unfold amapSlots in *. lia. Qed.
Lemma total_ge ps i p : Forall page_wf ps → ps !! i = Some p → AP_FreeSlots p ≤ total ps.
Proof.
  intros Hw Hi. revert i Hi. induction Hw as [|q ps Hq Hw IH]; intros i Hi; [done|].
  pose proof (page_wf_free q Hq). cbn [total foldr]. fold (total ps).
  assert (0 ≤ total ps).
  { clear -Hw. induction Hw as [|q ps Hq Hw IH]; cbn [total foldr]; [lia|]. fold (total ps).
    pose proof (page_wf_free q Hq). lia. }
  destruct i as [|i]; [injection Hi as ->; lia|]. specialize (IH i Hi). lia.
Qed.
Lemma Forall_alter_1 {A} (P : A → Prop) f i (l : list A) :
  Forall P l → (∀ x, l !! i = Some x → P (f x)) → Forall P (alter f i l).
Proof. intros Hl Hf. apply Forall_alter; [done|]. auto. Qed.
Lemma apart_alter f i ps : (∀ p, ps !! i = Some p → AP_Offset (f p) = AP_Offset p) → apart ps → apart (alter f i ps).
Proof.
  intros Hf Ha j k p q Hjk Hj Hk.
  assert (∀ n r, alter f i ps !! n = Some r → ∃ r', ps !! n = Some r' ∧ AP_Offset r' = AP_Offset r) as H.
  { intros n r Hr. destruct (decide (n = i)) as [->|Hne].
    - rewrite list_lookup_alter, decide_True in Hr by done. destruct (ps !! i) as [r'|] eqn:E; [|done].
      cbn in Hr. injection Hr as <-. exists r'. split; [done|]. symmetry. by apply Hf.
    - rewrite list_lookup_alter_ne in Hr by done. by exists r. }
  destruct (H _ _ Hj) as (p' & Hp' & <-), (H _ _ Hk) as (q' & Hq' & <-). by eapply Ha.
Qed.

Lemma find_page_spec n ps :
  match find_page ps n with
  | Some (i, off) => ∃ p, ps !! i = Some p ∧ findContiguousFree p n = Some off ∧
      ∀ j q, (j < i)%nat → ps !! j = Some q → findContiguousFree q n = None
  | None => ∀ j q, ps !! j = Some q → findContiguousFree q n = None
  end.
Proof.
  induction ps as [|p ps IH]; cbn [find_page]; [done|].
  destruct (findContiguousFree p n) as [off|] eqn:E.
  { exists p. split; [done|split; [done|]]. intros j q Hj. lia. }
  destruct (find_page ps n) as [[i off]|]; cbn.
  - destruct IH as (q & H1 & H2 & H3). exists q. split; [done|split; [done|]].
    intros [|j] r Hj Hr; [by injection Hr as <-|]. apply (H3 j); [lia|done].
  - intros [|j] r Hr; [by injection Hr as <-|]. by apply (IH j).
Qed.

(** The number of slots a request for [size] bytes takes. *)
Definition slots_for (size : Z) : Z := AlignDisk size / BytesPerSlot.
Lemma slots_for_spec size :
  0 < size → size + 63 < 2 ^ 64 →
  1 ≤ slots_for size ∧ BytesPerSlot * slots_for size = AlignDisk size ∧
  size ≤ BytesPerSlot * slots_for size < size + 64.
Proof.
  intros H1 H2. destruct (AlignDisk_spec size) as [Ha Hm]; [lia|lia|].
  unfold slots_for, BytesPerSlot. pose proof (Z_div_mod_eq_full (AlignDisk size) 64). lia.
Qed.

(** [i]-th page of [m], slots [s .. s+n-1]: the first free run of [n] slots. *)
Definition first_fit (ps : list AMapPage) (n : Z) (i : nat) (p : AMapPage) (s : Z) : Prop :=
  ps !! i = Some p ∧ 0 ≤ s ∧ s + n ≤ amapSlots ∧ run (slot_free p) s n ∧
  (∀ r, 0 ≤ r < s → ¬ run (slot_free p) r n) ∧
  ∀ j q r, (j < i)%nat → ps !! j = Some q → 0 ≤ r → r + n ≤ amapSlots → ¬ run (slot_free q) r n.
Definition no_fit (ps : list AMapPage) (n : Z) : Prop :=
  ∀ j q r, ps !! j = Some q → 0 ≤ r → r + n ≤ amapSlots → ¬ run (slot_free q) r n.

(** [Allocate] took slots [s ..] of page [i]. *)
Record placed (m : AMapManager) (size off : Z) (m' : AMapManager) (i : nat) (p : AMapPage) (s : Z) : Prop := {
  pl_fit : first_fit (AM_pages m) (slots_for size) i p s;
  pl_off : off = slot_addr p s;
  pl_pages : AM_pages m' = alter (λ p, markAllocated p off (slots_for size)) i (AM_pages m);
  pl_marked : marked false s (slots_for size) p (markAllocated p off (slots_for size));
  pl_rest : AM_format m' = AM_format m ∧ AM_fileSize m' = AM_fileSize m ∧
    AM_freeBytes m' = AM_freeBytes m - BytesPerSlot * slots_for size ∧
    AM_pendingAllocs m' = AM_pendingAllocs m ++ [mkAlloc off (AlignDisk size)] }.
(** [Allocate] extended the file. *)
Record extended (m : AMapManager) (size off : Z) (m' : AMapManager) : Prop := {
  ex_nofit : no_fit (AM_pages m) (slots_for size);
  ex_off : off = AM_fileSize m;
  ex_pages : AM_pages m' = AM_pages m;
  ex_rest : AM_format m' = AM_format m ∧ AM_fileSize m' = u64 (AM_fileSize m + AlignDisk size) ∧
    AM_freeBytes m' = AM_freeBytes m ∧
    AM_pendingAllocs m' = AM_pendingAllocs m ++ [mkAlloc off (AlignDisk size)] }.

Lemma find_none_no_run p n : page_wf p → 1 ≤ n → findContiguousFree p n = None →
  ∀ r, 0 ≤ r → r + n ≤ amapSlots → ¬ run (slot_free p) r n.
Proof. intros Hp Hn H. pose proof (findContiguousFree_spec p n Hp Hn) as Hs. by rewrite H in Hs. Qed.

Lemma Allocate_cases m size :
  amap_wf m → 0 < size → size + 63 < 2 ^ 64 →
  ∃ off m', Allocate m size = Ok (off, m') ∧ amap_wf m' ∧
    ((∃ i p s, placed m size off m' i p s) ∨ extended m size off m').
Proof.
  intros (Hw & Ha & Hfb & Hfit) H0 Hmax. destruct (slots_for_spec size H0 Hmax) as (Hn & Hal & _).
  unfold Allocate. rewrite (proj2 (Z.eqb_neq size 0)) by lia. fold (slots_for size).
  pose proof (find_page_spec (slots_for size) (AM_pages m)) as Hfp.
  destruct (find_page _ _) as [[i off]|].
  - destruct Hfp as (p & Hi & Hf & Hbefore).
    pose proof (Forall_lookup_1 _ _ _ _ Hw Hi) as Hp.
    pose proof (findContiguousFree_spec p (slots_for size) Hp Hn) as Hs. rewrite Hf in Hs.
    destruct Hs as (s & -> & Hs0 & Hs1 & Hrun & Hmin).
    pose proof (markAllocated_spec p s (slots_for size) Hp Hs0 Hn Hs1 Hrun) as Hm.
    pose proof (marked_free false s (slots_for size) p _ Hp Hs0 ltac:(lia) Hs1 Hrun Hm) as Hfree.
    pose proof (total_ge _ _ _ Hw Hi) as Htot. pose proof (page_wf_free _ (proj1 Hm)).
    unfold fits, BytesPerSlot in *.
    assert (u64 (AM_freeBytes m - AlignDisk size) = AM_freeBytes m - AlignDisk size) as Hu by (apply u64_small; lia).
    eexists _, _. split; [done|]. split.
    + split; [|split; [|split]]; cbn [AM_pages AM_freeBytes].
      * apply Forall_alter_1; [done|]. intros x Hx. rewrite Hi in Hx. injection Hx as <-. apply Hm.
      * apply apart_alter; [|done]. intros x Hx. rewrite Hi in Hx. injection Hx as <-. apply Hm.
      * rewrite (total_alter _ _ _ _ Hi), Hfree, Hu. unfold BytesPerSlot. lia.
      * unfold fits. rewrite Hu. lia.
    + left. exists i, p, s. split; [|done|done|done|].
      * split_and!; [done..|]. intros j q r Hj Hq. apply find_none_no_run; [|done|by eapply Hbefore].
        by eapply Forall_lookup_1.
      * cbn. split_and!; [done|done| |done]. unfold BytesPerSlot. lia.
  - eexists _, _. split; [done|]. split; [done|]. right. split; [|done..].
    intros j q r Hq. apply find_none_no_run; [|done|by eapply Hfp]. by eapply Forall_lookup_1.
Qed.

(** C32: On a well-formed map, [Allocate] of a size the counters can hold always
    succeeds: it takes the first run of free slots, in page order, that is long
    enough, marks exactly those slots, and lowers the free counters by what it
    took; only when no page has such a run does it extend the file.  The map
    stays well formed either way; a zero size is an error. *)
Theorem Allocate_first_fit m size :
  amap_wf m → 0 ≤ size → size + 63 < 2 ^ 64 →
  (size = 0 ∧ ∃ e, Allocate m size = Err e) ∨
  ∃ off m', Allocate m size = Ok (off, m') ∧ amap_wf m' ∧
    ((∃ i p s, placed m size off m' i p s) ∨ extended m size off m').
Proof.
  intros Hw H0 Hm. destruct (decide (size = 0)) as [->|]; [left; split; [done|by eexists]|].
  right. apply Allocate_cases; [done|lia|done].
Qed.

Lemma total_single p : total [p] = AP_FreeSlots p.
Proof. cbn. lia. Qed.
Definition CreateNew_page (format : PSTFormat) : AMapPage :=
  countFreeSlots (mkAMapPage FirstAMapPageLocation
    (mark_slots set_bit 0 (Z.to_nat (Z.min initialSlots (496 * 8))) 0 (zeros bitmapLen) 0).1
    (mkPageTrailer PageTypeAMap PageTypeAMap 0 0 0) 0 format).
(** The map after an allocation. *)
Definition Allocate_map (m : AMapManager) (size : Z) : AMapManager :=
  match Allocate m size with Ok (_, m') => m' | _ => m end.
Lemma CreateNew_wf format : amap_wf (CreateNewAMapManager format).
Proof.
  set (p := mkAMapPage FirstAMapPageLocation
    (mark_slots set_bit 0 (Z.to_nat (Z.min initialSlots (496 * 8))) 0 (zeros bitmapLen) 0).1
    (mkPageTrailer PageTypeAMap PageTypeAMap 0 0 0) 3688 format).
  assert (AM_pages (CreateNewAMapManager format) = [p]) as Hp.
  { unfold CreateNewAMapManager, countFreeSlots, set_bitmap. subst p. cbn [AM_pages AP_Offset AP_BitMap AP_Trailer AP_format].
    do 2 f_equal. }
  assert (AM_freeBytes (CreateNewAMapManager format) = 64 * 3688) as Hf by (destruct format; by vm_compute).
  assert (page_wf p) as Hw.
  { subst p. unfold page_wf. cbn [AP_BitMap AP_FreeSlots AP_Offset].
    split; [vm_compute; reflexivity|split; [apply bytes_okb_true; vm_compute; reflexivity|]].
    split; [vm_compute; reflexivity|unfold FirstAMapPageLocation; lia]. }
  assert (total [p] = 3688) as Ht by (rewrite total_single; reflexivity).
  clearbody p. unfold amap_wf. rewrite Hp, Hf, Ht. clear Hp Hf Ht.
  split; [by apply Forall_singleton|split; [|done]].
  intros [|] [|] q r Hlt Hq Hr; done || lia.
Qed.
Lemma Allocate_first_fit_witness :
  (100 = 0 ∧ ∃ e, Allocate (CreateNewAMapManager FormatUnicode) 100 = Err e) ∨
  ∃ off m', Allocate (CreateNewAMapManager FormatUnicode) 100 = Ok (off, m') ∧ amap_wf m' ∧
    ((∃ i p s, placed (CreateNewAMapManager FormatUnicode) 100 off m' i p s) ∨
     extended (CreateNewAMapManager FormatUnicode) 100 off m').
Proof. apply (Allocate_first_fit (CreateNewAMapManager FormatUnicode) 100); [apply CreateNew_wf|done|done]. Defined.

(** ** Freeing what was allocated *)
Lemma bitmap_ext bm bm' :
  blen bm = blen bm' → bytes_ok bm → bytes_ok bm' → (∀ i, 0 ≤ i → free_at bm i = free_at bm' i) → bm = bm'.
Proof.
  intros Hl Hb Hb' Hf. apply list_eq. intros k.
  destruct (bm !! k) as [b|] eqn:E, (bm' !! k) as [b'|] eqn:E'; try done.
  - f_equal. pose proof (Forall_lookup_1 _ _ _ _ Hb E) as B. pose proof (Forall_lookup_1 _ _ _ _ Hb' E') as B'.
    apply Z.bits_inj'. intros j Hj. destruct (decide (j < 8)).
    + specialize (Hf (8 * Z.of_nat k + j) ltac:(lia)). unfold free_at in Hf.
      replace ((8 * Z.of_nat k + j) / 8) with (Z.of_nat k) in Hf
        by (rewrite Z.mul_comm, Z.div_add_l, Z.div_small by lia; lia).
      replace ((8 * Z.of_nat k + j) mod 8) with j in Hf
        by (rewrite Z.add_comm, Z.mul_comm, Z_mod_plus_full, Z.mod_small by lia; done).
      rewrite Nat2Z.id, E, E', !bit_clear_testbit in Hf by done.
      by destruct (Z.testbit b j), (Z.testbit b' j).
    + unfold is_byte in *. rewrite <- (Z.mod_small b (2 ^ 8)), <- (Z.mod_small b' (2 ^ 8)) by lia.
      by rewrite !Z.mod_pow2_bits_high by lia.
  - apply lookup_lt_Some in E. apply lookup_ge_None in E'. unfold blen in *. lia.
  - apply lookup_lt_Some in E'. apply lookup_ge_None in E. unfold blen in *. lia.
Qed.
Lemma page_ext p q :
  page_wf p → page_wf q → AP_Offset p = AP_Offset q → AP_Trailer p = AP_Trailer q → AP_format p = AP_format q →
  (∀ i, 0 ≤ i → slot_free p i = slot_free q i) → p = q.
Proof.
  intros (L1 & B1 & F1 & _) (L2 & B2 & F2 & _) HO HT HF Hs.
  assert (AP_BitMap p = AP_BitMap q) as E by (apply bitmap_ext; [congruence|done|done|done]).
  destruct p, q; cbn in *. congruence.
Qed.

Lemma covers_wf p off : page_wf p →
  covers p off = (AP_Offset p + PageSize <=? off) && (off <? AP_Offset p + PageSize + bytesPerAMap).
Proof.
  intros Hp. unfold covers. rewrite baseOffset_wf by done. destruct Hp as (_ & _ & _ & Ho).
  rewrite u64_small; [done|]. unfold PageSize, bytesPerAMap. lia.
Qed.
Lemma findPage_addr ps : ∀ i p s, Forall page_wf ps → apart ps → ps !! i = Some p → 0 ≤ s < amapSlots →
  findPageForOffset ps (slot_addr p s) = Some i.
Proof.
  induction ps as [|q ps IH]; intros i p s Hw Ha Hi Hs; [done|]. apply Forall_cons in Hw as [Hq Hw].
  cbn [findPageForOffset]. rewrite covers_wf by done.
  assert (apart ps) as Ha' by (intros j k x y Hjk Hx Hy; apply (Ha (S j) (S k)); [lia|done|done]).
  unfold slot_addr, PageSize, BytesPerSlot, amapSlots, bytesPerAMap in *. destruct i as [|i].
  - injection Hi as ->. destruct (Z.leb_spec (AP_Offset p + 512) (AP_Offset p + 512 + 64 * s)),
      (Z.ltb_spec (AP_Offset p + 512 + 64 * s) (AP_Offset p + 512 + 496 * 512)); cbn; done || lia.
  - pose proof (Ha 0%nat (S i) q p ltac:(lia) eq_refl Hi) as Hlt.
    destruct (Z.ltb_spec (AP_Offset p + 512 + 64 * s) (AP_Offset q + 512 + 496 * 512)); unfold bytesPerAMap in *; [lia|].
    rewrite andb_false_r. by rewrite (IH i p s).
Qed.

Lemma placed_page m size off m' i p s :
  amap_wf m → placed m size off m' i p s →
  AM_pages m' !! i = Some (markAllocated p off (slots_for size)).
Proof.
  intros Hw []. rewrite pl_pages0. rewrite list_lookup_alter, decide_True by done.
  destruct pl_fit0 as (-> & _). done.
Qed.

Lemma alter_alter_id {A} (f g : A → A) (i : nat) (l : list A) x :
  l !! i = Some x → g (f x) = x → alter g i (alter f i l) = l.
Proof.
  revert i. induction l as [|y l IH]; intros i Hi Hg; [done|]. destruct i as [|i].
  - injection Hi as ->. change (alter g 0%nat (alter f 0%nat (x :: l))) with (g (f x) :: l). by rewrite Hg.
  - change (alter g (S i) (alter f (S i) (y :: l))) with (y :: alter g i (alter f i l)). by rewrite IH.
Qed.

Lemma apart_cons p ps : apart (p :: ps) → apart ps.
Proof. intros Ha j k x y Hjk Hx Hy. apply (Ha (S j) (S k)); [lia|done|done]. Qed.
Lemma apart_span ps : ∀ lo, apart ps → Forall page_wf ps → (∀ p, ps !! 0%nat = Some p → lo ≤ AP_Offset p) →
  lo < 2 ^ 62 → lo + bytesPerAMap * (blen ps - 1) < 2 ^ 62.
Proof.
  induction ps as [|p ps IH]; intros lo Ha Hw Hlo Hmax; [unfold bytesPerAMap, blen; cbn; lia|].
  apply Forall_cons in Hw as [Hp Hw]. specialize (Hlo p eq_refl). rewrite blen_cons.
  destruct ps as [|q ps]; [unfold bytesPerAMap, blen; cbn; lia|].
  pose proof (Ha 0%nat 1%nat p q ltac:(lia) eq_refl eq_refl).
  pose proof (Forall_inv Hw) as (_ & _ & _ & Hq).
  specialize (IH (lo + bytesPerAMap) (apart_cons _ _ Ha) Hw). rewrite blen_cons in *.
  assert (lo + bytesPerAMap + bytesPerAMap * (1 + blen ps - 1) < 2 ^ 62); [|lia].
  apply IH; [|lia]. intros x [= <-]. lia.
Qed.
Lemma total_bound ps : Forall page_wf ps → 0 ≤ total ps ≤ amapSlots * blen ps.
Proof.
  induction 1 as [|p ps Hp Hw IH]; [done|]. rewrite blen_cons. cbn [total foldr]. fold (total ps).
  pose proof (page_wf_free p Hp). unfold amapSlots in *. lia.
Qed.
(** The free-space counter of a well-formed page list cannot overflow. *)
Lemma total_fits ps : Forall page_wf ps → apart ps → fits 64 (BytesPerSlot * total ps).
Proof.
  intros Hw Ha. pose proof (total_bound ps Hw). pose proof (apart_span ps 0 Ha Hw).
  unfold fits, BytesPerSlot, amapSlots, bytesPerAMap in *.
  assert (0 + 496 * 512 * (blen ps - 1) < 2 ^ 62); [|lia].
  match goal with H : _ → _ → _ |- _ => apply H; [|lia] end. intros p Hp.
  pose proof (Forall_lookup_1 _ _ _ _ Hw Hp) as (_ & _ & _ & ?). lia.
Qed.

Lemma Free_spec m size i p s :
  amap_wf m → 0 < size → size + 63 < 2 ^ 64 → AM_pages m !! i = Some p → 0 ≤ s → s + slots_for size ≤ amapSlots →
  (∀ j, s ≤ j < s + slots_for size → slot_free p j = false) →
  ∃ m2, Free m (slot_addr p s) size = Ok m2 ∧ amap_wf m2 ∧
    marked true s (slots_for size) p (markFree p (slot_addr p s) (slots_for size)) ∧
    AM_pages m2 = alter (λ q, markFree q (slot_addr p s) (slots_for size)) i (AM_pages m) ∧
    AM_freeBytes m2 = AM_freeBytes m + BytesPerSlot * slots_for size.
Proof.
  intros (Hw & Ha & Hfb & Hfit) H0 Hmax Hi Hs0 Hs1 Hused. destruct (slots_for_spec size H0 Hmax) as (Hn & Hal & _).
  pose proof (Forall_lookup_1 _ _ _ _ Hw Hi) as Hp.
  pose proof (markFree_spec p s (slots_for size) Hp Hs0 Hn Hs1 Hused) as Hm.
  pose proof (marked_free true s (slots_for size) p _ Hp Hs0 ltac:(lia) Hs1 Hused Hm) as Hfree.
  unfold Free. fold (slots_for size). rewrite (findPage_addr _ i p s Hw Ha Hi) by lia.
  set (ps := alter _ i (AM_pages m)).
  assert (Forall page_wf ps) as Hw2.
  { apply Forall_alter_1; [done|]. intros x Hx. rewrite Hi in Hx. injection Hx as <-. apply Hm. }
  assert (apart ps) as Ha2.
  { apply apart_alter; [|done]. intros x Hx. rewrite Hi in Hx. injection Hx as <-. apply Hm. }
  assert (total ps = total (AM_pages m) + slots_for size) as Ht.
  { subst ps. rewrite (total_alter _ _ _ _ Hi), Hfree. lia. }
  pose proof (total_fits ps Hw2 Ha2) as Hfits2.
  assert (u64 (AM_freeBytes m + AlignDisk size) = BytesPerSlot * total ps) as Hu.
  { rewrite Hfb, <- Hal, Ht, <- Z.mul_add_distr_l, <- Ht. by apply u64_small. }
  eexists. split; [done|]. unfold amap_wf. cbn [AM_pages AM_freeBytes]. rewrite Hu.
  split; [split_and!; done|split; [done|split; [done|rewrite Ht; lia]]].
Qed.

(** Freeing an allocation that came from a map page gives back exactly the
    map before it: the same pages, bit for bit, and the same free space. *)
Theorem free_allocate m size off m' :
  amap_wf m → 0 < size → size + 63 < 2 ^ 64 →
  Allocate m size = Ok (off, m') → ¬ no_fit (AM_pages m) (slots_for size) →
  ∃ m2, Free m' off size = Ok m2 ∧ AM_pages m2 = AM_pages m ∧ AM_freeBytes m2 = AM_freeBytes m ∧ amap_wf m2.
Proof.
  intros Hw H0 Hmax HA Hfit. destruct (Allocate_cases m size Hw H0 Hmax) as (off' & m1 & HA' & Hw1 & Hc).
  rewrite HA in HA'. injection HA' as <- <-. destruct Hc as [(i & p & s & Hpl)|[Hno]]; [|done].
  pose proof (placed_page m size off m' i p s Hw Hpl) as Hi'. destruct Hpl as [Hff -> Hpg Hmk Hrest].
  destruct Hff as (Hi & Hs0 & Hs1 & Hrun & _). set (n := slots_for size) in *.
  pose proof (Forall_lookup_1 _ _ _ _ (proj1 Hw) Hi) as Hp.
  set (q := markAllocated p (slot_addr p s) n) in *. destruct Hmk as (Hq & HO & HF & HT & Hbits).
  assert (slot_addr q s = slot_addr p s) as Hsa by (unfold slot_addr; by rewrite HO).
  destruct (Free_spec m' size i q s Hw1 H0 Hmax Hi' Hs0 Hs1) as (m2 & HFr & Hw2 & Hmf & Hpg2 & Hfb2).
  { intros j Hj. fold n in Hj. rewrite Hbits by lia. destruct (Z.leb_spec s j), (Z.ltb_spec j (s + n)); done || lia. }
  fold n in Hmf, Hpg2, Hfb2. rewrite Hsa in *. exists m2. split; [done|].
  assert (markFree q (slot_addr p s) n = p) as Hback.
  { destruct Hmf as (Hq2 & HO2 & HF2 & HT2 & Hbits2). apply page_ext; [done|done|congruence|congruence|congruence|].
    intros j Hj. rewrite Hbits2, Hbits by done.
    destruct (Z.leb_spec s j), (Z.ltb_spec j (s + n)); cbn; try done. symmetry. apply Hrun. lia. }
  rewrite Hpg2, Hpg, (alter_alter_id (λ p', markAllocated p' (slot_addr p s) n)
    (λ q, markFree q (slot_addr p s) n) i _ p Hi Hback). destruct Hrest as (_ & _ & Hr & _). fold n in Hr.
  split; [done|split; [lia|done]].
Qed.
Lemma CreateNew_room format : ¬ no_fit (AM_pages (CreateNewAMapManager format)) (slots_for 100).
Proof.
  intros H. apply (H 0%nat (CreateNew_page format) 300); [reflexivity|done|by vm_compute|].
  intros i Hi. assert (i = 300 ∨ i = 301) as [-> | ->] by (change (slots_for 100) with 2 in Hi; lia); by vm_compute.
Qed.
Lemma free_allocate_witness :
  ∃ m2, Free (Allocate_map (CreateNewAMapManager FormatANSI) 100) 35840 100 = Ok m2 ∧
    AM_pages m2 = AM_pages (CreateNewAMapManager FormatANSI) ∧
    AM_freeBytes m2 = AM_freeBytes (CreateNewAMapManager FormatANSI) ∧ amap_wf m2.
Proof.
  apply (free_allocate (CreateNewAMapManager FormatANSI) 100 35840).
  - apply CreateNew_wf.
  - done.
  - done.
  - vm_compute. reflexivity.
  - apply CreateNew_room.
Defined.

(** ** Sequences of allocations and frees *)

(** The map and the allocations handed out and not yet freed: offset and number
    of slots. *)
Record astate := mkAState { a_map : AMapManager; a_live : list (Z * Z) }.

Inductive astep : astate → astate → Prop :=
| step_alloc m live size off m' :
    0 < size → size + 63 < 2 ^ 64 → Allocate m size = Ok (off, m') →
    ¬ no_fit (AM_pages m) (slots_for size) →
    astep (mkAState m live) (mkAState m' ((off, slots_for size) :: live))
| step_free m l1 l2 off size m' :
    0 < size → size + 63 < 2 ^ 64 → Free m off size = Ok m' →
    astep (mkAState m (l1 ++ (off, slots_for size) :: l2)) (mkAState m' (l1 ++ l2)).

(** Two runs of slots share no byte. *)
Definition disjoint_runs (a b : Z * Z) : Prop :=
  a.1 + BytesPerSlot * a.2 ≤ b.1 ∨ b.1 + BytesPerSlot * b.2 ≤ a.1.
Definition pairwise_disjoint (live : list (Z * Z)) : Prop :=
  ∀ i j a b, i ≠ j → live !! i = Some a → live !! j = Some b → disjoint_runs a b.

(** A live allocation is a run of used slots of some page. *)
Definition backed (ps : list AMapPage) (a : Z * Z) : Prop :=
  ∃ i p s, ps !! i = Some p ∧ a.1 = slot_addr p s ∧ 0 ≤ s ∧ 1 ≤ a.2 ∧ s + a.2 ≤ amapSlots ∧
    ∀ j, s ≤ j < s + a.2 → slot_free p j = false.
Definition astate_ok (st : astate) : Prop :=
  amap_wf (a_map st) ∧ pairwise_disjoint (a_live st) ∧ Forall (backed (AM_pages (a_map st))) (a_live st).

Lemma disjoint_pages ps i j p q s t n k :
  apart ps → i ≠ j → ps !! i = Some p → ps !! j = Some q →
  0 ≤ s → s + n ≤ amapSlots → 0 ≤ t → t + k ≤ amapSlots →
  disjoint_runs (slot_addr p s, n) (slot_addr q t, k).
Proof.
  intros Ha Hij Hi Hj ????. unfold disjoint_runs, slot_addr, PageSize, BytesPerSlot, amapSlots in *. cbn.
  destruct (decide (i < j)%nat).
  - pose proof (Ha i j p q ltac:(lia) Hi Hj). unfold bytesPerAMap in *. lia.
  - pose proof (Ha j i q p ltac:(lia) Hj Hi). unfold bytesPerAMap in *. lia.
Qed.
Lemma disjoint_slots p s t n k (f : Z → bool) :
  1 ≤ n → 1 ≤ k → (∀ x, s ≤ x < s + n → f x = true) → (∀ x, t ≤ x < t + k → f x = false) →
  s + n ≤ t ∨ t + k ≤ s → disjoint_runs (slot_addr p s, n) (slot_addr p t, k).
Proof. unfold disjoint_runs, slot_addr, BytesPerSlot. cbn. lia. Qed.
Lemma run_apart f s t n k :
  1 ≤ n → 1 ≤ k → (∀ x, s ≤ x < s + n → f x = true) → (∀ x, t ≤ x < t + k → f x = false) →
  s + n ≤ t ∨ t + k ≤ s.
Proof.
  intros Hn Hk Hs Ht. destruct (decide (s + n ≤ t)); [by left|]. destruct (decide (t + k ≤ s)); [by right|].
  exfalso. specialize (Hs (Z.max s t) ltac:(lia)). specialize (Ht (Z.max s t) ltac:(lia)). congruence.
Qed.

(** Marking a run of one page keeps the allocations it does not touch. *)
Lemma backed_alter ps f i p v s n a :
  ps !! i = Some p → marked v s n p (f p) → backed ps a →
  (∀ q t, ps !! i = Some q → a.1 = slot_addr q t → v = true → s + n ≤ t ∨ t + a.2 ≤ s) →
  backed (alter f i ps) a.
Proof.
  intros Hi (_ & HO & _ & _ & Hbits) (j & q & t & Hj & Ha & Ht & Hn & Hle & Hused) Hd.
  destruct (decide (i = j)) as [<-|Hne].
  - rewrite Hi in Hj. injection Hj as <-. exists i, (f p), t.
    rewrite list_lookup_alter, decide_True, Hi by done.
    split; [done|split; [unfold slot_addr; by rewrite HO|split; [done|split; [done|split; [done|]]]]].
    intros x Hx. rewrite Hbits by lia. destruct v; [|destruct (_ && _); [done|by apply Hused]].
    specialize (Hd p t Hi Ha eq_refl).
    destruct (Z.leb_spec s x), (Z.ltb_spec x (s + n)); cbn; try (by apply Hused). lia.
  - exists j, q, t. rewrite list_lookup_alter_ne by congruence. done.
Qed.

Lemma slot_addr_eq p q s : AP_Offset q = AP_Offset p → slot_addr p s = slot_addr q s.
Proof. unfold slot_addr. lia. Qed.

Lemma alloc_ok m live size off m' :
  astate_ok (mkAState m live) → 0 < size → size + 63 < 2 ^ 64 →
  Allocate m size = Ok (off, m') → ¬ no_fit (AM_pages m) (slots_for size) →
  astate_ok (mkAState m' ((off, slots_for size) :: live)).
Proof.
  intros (Hw & Hd & Hb) H0 Hmax HA Hfit. cbn [a_map a_live] in *.
  destruct (Allocate_cases m size Hw H0 Hmax) as (o & m1 & HA' & Hw1 & Hc).
  rewrite HA in HA'. injection HA' as <- <-. destruct Hc as [(i & p & s & Hpl)|[Hno]]; [|done].
  pose proof (placed_page m size off m' i p s Hw Hpl) as Hi'. destruct Hpl as [Hff -> Hpg Hmk Hrest].
  destruct Hff as (Hi & Hs0 & Hs1 & Hrun & _). set (n := slots_for size) in *.
  destruct (slots_for_spec size H0 Hmax) as (Hn & _). fold n in Hn.
  assert (∀ k a, live !! k = Some a → disjoint_runs (slot_addr p s, n) a) as Hnew.
  { intros k a Hk. rewrite Forall_lookup in Hb. destruct (Hb k a Hk) as (j & q & t & Hj & Ha & Ht & Hna & Hle & Hused).
    destruct a as [ao an]. cbn [fst snd] in *. subst ao. destruct (decide (i = j)) as [<-|Hne].
    - rewrite Hi in Hj. injection Hj as <-. pose proof (run_apart _ s t n an Hn Hna Hrun Hused).
      by eapply disjoint_slots.
    - eapply disjoint_pages; [apply Hw|done..]. }
  split; [done|split]; cbn [a_map a_live].
  - intros [|a] [|b] x y Hab Hx Hy; cbn in Hx, Hy.
    + done.
    + injection Hx as <-. by eapply Hnew.
    + injection Hy as <-. destruct (Hnew a x Hx) as [|]; [by right|by left].
    + eapply (Hd a b); [congruence|done|done].
  - apply Forall_cons. split.
    + exists i, (markAllocated p (slot_addr p s) n), s. destruct Hmk as (_ & HO & _ & _ & Hbits). cbn [fst snd].
      split_and!; [done|by apply slot_addr_eq|done|done|done|].
      intros x Hx. rewrite Hbits by lia. destruct (Z.leb_spec s x), (Z.ltb_spec x (s + n)); done || lia.
    + rewrite Hpg. eapply Forall_impl; [exact Hb|]. intros a Ha.
      by eapply (backed_alter _ (λ q, markAllocated q (slot_addr p s) n) i p false s n).
Qed.

Lemma Forall_app_cons {A} (P : A → Prop) l1 x l2 : Forall P (l1 ++ x :: l2) → P x ∧ Forall P (l1 ++ l2).
Proof. rewrite !Forall_app, Forall_cons. tauto. Qed.

Lemma lookup_skip {A} (l1 l2 : list A) x k a :
  (l1 ++ l2) !! k = Some a → ∃ k', k' ≠ length l1 ∧ (l1 ++ x :: l2) !! k' = Some a ∧
    k' = if decide (k < length l1)%nat then k else S k.
Proof.
  intros H. destruct (decide (k < length l1)%nat).
  - exists k. split; [lia|]. rewrite lookup_app_l in H by done. by rewrite lookup_app_l.
  - exists (S k). split; [lia|]. rewrite lookup_app_r in H by lia. rewrite lookup_app_r by lia.
    by replace (S k - length l1)%nat with (S (k - length l1))%nat by lia.
Qed.

Lemma free_ok m l1 l2 off size m' :
  astate_ok (mkAState m (l1 ++ (off, slots_for size) :: l2)) → 0 < size → size + 63 < 2 ^ 64 →
  Free m off size = Ok m' → astate_ok (mkAState m' (l1 ++ l2)).
Proof.
  intros (Hw & Hd & Hb) H0 Hmax HF. cbn [a_map a_live] in *.
  apply Forall_app_cons in Hb as [(i & p & s & Hi & Hoff & Hs0 & Hn & Hs1 & Hused) Hb]. cbn [fst snd] in *. subst off.
  destruct (Free_spec m size i p s Hw H0 Hmax Hi Hs0 Hs1 Hused) as (m2 & HF' & Hw2 & Hmk & Hpg & _).
  rewrite HF in HF'. injection HF' as <-. set (n := slots_for size) in *.
  split; [done|split]; cbn [a_map a_live].
  - intros a b x y Hab Hx Hy. destruct (lookup_skip l1 l2 (slot_addr p s, n) a x Hx) as (a' & Ha' & Hxa & Ea).
    destruct (lookup_skip l1 l2 (slot_addr p s, n) b y Hy) as (b' & Hb' & Hyb & Eb).
    eapply (Hd a' b'); [|done|done]. destruct (decide (a < length l1)%nat), (decide (b < length l1)%nat); lia.
  - rewrite Hpg. rewrite Forall_lookup in Hb |- *. intros k a Hk. pose proof (Hb k a Hk) as Ha.
    eapply (backed_alter _ (λ q, markFree q (slot_addr p s) n) i p true s n); [done|done|done|].
    intros q t Hq Hat _. rewrite Hi in Hq. injection Hq as <-.
    destruct (lookup_skip l1 l2 (slot_addr p s, n) k a Hk) as (k' & Hk' & Hka & _).
    assert ((l1 ++ (slot_addr p s, n) :: l2) !! length l1 = Some (slot_addr p s, n)) as Hl
      by (rewrite lookup_app_r, Nat.sub_diag by lia; done).
    destruct (Hd (length l1) k' _ _ (not_eq_sym Hk') Hl Hka) as [Hx|Hx]; cbn [fst snd] in Hx; rewrite Hat in Hx;
      unfold slot_addr, BytesPerSlot in Hx; [left|right]; lia.
Qed.


(** ** Extending the file *)

(** A new map hands out overlapping space.  Its file size is the end of the
    first map page, which is also where that page's own slots begin, so a
    request the page cannot hold is placed at 0x4600 and a later small request
    is placed inside it. *)
Theorem file_extension_overlaps format :
  ∃ off1 m1 off2 m2, Allocate (CreateNewAMapManager format) 253952 = Ok (off1, m1) ∧
    Allocate m1 64 = Ok (off2, m2) ∧ off1 < off2 ∧ off2 + 64 < off1 + 253952.
Proof. destruct format; (do 4 eexists; split; [vm_compute; reflexivity|split; [vm_compute; reflexivity|lia]]). Qed.

(** A page whose last eight slots are its only free ones. *)
Definition almost_full_page (offset : Z) (format : PSTFormat) : AMapPage :=
  mkAMapPage offset (replicate 495 255 ++ [0]) (mkPageTrailer PageTypeAMap PageTypeAMap 0 0 0) 8 format.

(** The area a map page hands out runs over the next map page: when only
    the last eight slots of the [k]-th page are free, a request for them gets
    exactly the 512 bytes at which the loader expects the page after it. *)
Theorem page_area_meets_next_map k format :
  0 ≤ k < 2 ^ 40 →
  let p := almost_full_page (FirstAMapPageLocation + k * bytesPerAMap) format in
  page_wf p ∧ findContiguousFree p 8 = Some (FirstAMapPageLocation + (k + 1) * bytesPerAMap).
Proof.
  intros Hk p. assert (page_wf p) as Hp.
  { unfold p, page_wf, almost_full_page, FirstAMapPageLocation, bytesPerAMap. cbn [AP_BitMap AP_FreeSlots AP_Offset].
    split; [vm_compute; reflexivity|split; [apply bytes_okb_true; vm_compute; reflexivity|]].
    split; [vm_compute; reflexivity|lia]. }
  split; [done|]. unfold findContiguousFree. rewrite baseOffset_wf by done.
  subst p. cbn [almost_full_page AP_BitMap AP_FreeSlots AP_Offset].
  replace (find_run _ _ _ _) with (Some 3960) by (vm_compute; reflexivity).
  change (8 <? 8) with false. cbv iota. f_equal.
  unfold FirstAMapPageLocation, bytesPerAMap, PageSize, BytesPerSlot. rewrite u64_small; lia.
Qed.
Lemma page_area_meets_next_map_witness :
  page_wf (almost_full_page (FirstAMapPageLocation + 0 * bytesPerAMap) FormatUnicode) ∧
  findContiguousFree (almost_full_page (FirstAMapPageLocation + 0 * bytesPerAMap) FormatUnicode) 8
  = Some (FirstAMapPageLocation + (0 + 1) * bytesPerAMap).
Proof. apply (page_area_meets_next_map 0 FormatUnicode). lia. Defined.

(** ** Rebuilding *)

(** The slots of page [i] that the block covers. *)
Definition block_covers (ps : list AMapPage) (i : nat) (p : AMapPage) (s : Z) (b : BlockAllocation) : bool :=
  match findPageForOffset ps (ba_Offset b) with
  | Some j => bool_decide (i = j) && (startSlot p (ba_Offset b) <=? s)
              && (s <? startSlot p (ba_Offset b) + AlignDisk (ba_Size b) / BytesPerSlot)
  | None => false
  end.
(** How much the block lowers the free-slot count of page [i]. *)
Definition block_slots (ps : list AMapPage) (i : nat) (p : AMapPage) (b : BlockAllocation) : Z :=
  match findPageForOffset ps (ba_Offset b) with
  | Some j => if decide (i = j)
      then clipped (startSlot p (ba_Offset b)) (Z.to_nat (AlignDisk (ba_Size b) / BytesPerSlot)) bitmapLen else 0
  | None => 0
  end.

Definition same_offsets (ps qs : list AMapPage) : Prop := AP_Offset <$> ps = AP_Offset <$> qs.
Lemma startSlot_offset p q o : AP_Offset p = AP_Offset q → startSlot p o = startSlot q o.
Proof. intros H. unfold startSlot, baseOffset. by rewrite H. Qed.
Lemma findPage_offsets ps : ∀ qs o, same_offsets ps qs → findPageForOffset ps o = findPageForOffset qs o.
Proof.
  induction ps as [|p ps IH]; intros [|q qs] o H; try done. injection H as H1 H2.
  cbn [findPageForOffset]. rewrite (IH qs) by done. unfold covers, baseOffset. by rewrite H1.
Qed.
Lemma markAllocated_Offset p o n : AP_Offset (markAllocated p o n) = AP_Offset p.
Proof. unfold markAllocated. by destruct (mark_slots _ _ _ _ _ _). Qed.
Lemma same_offsets_mark ps b : same_offsets (mark_block ps b) ps.
Proof.
  unfold mark_block, same_offsets. destruct (findPageForOffset ps (ba_Offset b)) as [i|]; [|done].
  apply list_eq. intros j. rewrite !list_lookup_fmap, list_lookup_alter.
  destruct (decide (i = j)) as [->|]; [|done]. destruct (ps !! j); cbn; [by rewrite markAllocated_Offset|done].
Qed.

(** The bitmap of a page is a bitmap. *)
Definition bitmap_ok (p : AMapPage) : Prop := blen (AP_BitMap p) = bitmapLen ∧ bytes_ok (AP_BitMap p).

Lemma startSlot_nonneg p o : 0 ≤ startSlot p o.
Proof. unfold startSlot, BytesPerSlot. apply Z.div_pos; [apply u64_range|lia]. Qed.

Lemma markAllocated_raw p o n : bitmap_ok p →
  bitmap_ok (markAllocated p o n) ∧
  AP_FreeSlots (markAllocated p o n) = AP_FreeSlots p - clipped (startSlot p o) (Z.to_nat n) bitmapLen ∧
  ∀ s, 0 ≤ s < amapSlots → slot_free (markAllocated p o n) s
    = if (startSlot p o <=? s) && (s <? startSlot p o + n) then false else slot_free p s.
Proof.
  intros [Hl Hok]. unfold markAllocated.
  pose proof (mark_slots_spec set_bit (-1) false bit_clear_set is_byte_set (Z.to_nat n) (startSlot p o)
    (AP_BitMap p) (AP_FreeSlots p) (startSlot_nonneg p o) Hok) as H.
  destruct (mark_slots _ _ _ _ _ _) as [bm free]. destruct H as (L1 & L2 & L3 & L4).
  rewrite Hl in *. unfold bitmap_ok, slot_free, set_bitmap. cbn [AP_BitMap AP_FreeSlots].
  split; [done|split; [lia|]]. intros s Hs. rewrite L4 by lia. unfold amapSlots, bitmapLen in *.
  destruct (Z.leb_spec (startSlot p o) s), (Z.ltb_spec s (startSlot p o + Z.of_nat (Z.to_nat n))),
    (Z.ltb_spec s (startSlot p o + n)), (Z.ltb_spec s (8 * 496)); cbn [andb]; done || lia.
Qed.

Lemma mark_block_spec ps b i p :
  ps !! i = Some p → bitmap_ok p →
  ∃ p', mark_block ps b !! i = Some p' ∧ AP_Offset p' = AP_Offset p ∧ bitmap_ok p' ∧
    AP_FreeSlots p' = AP_FreeSlots p - block_slots ps i p b ∧
    ∀ s, 0 ≤ s < amapSlots → slot_free p' s = if block_covers ps i p s b then false else slot_free p s.
Proof.
  intros Hi Hp. unfold mark_block, block_slots, block_covers.
  destruct (findPageForOffset ps (ba_Offset b)) as [j|]; [|exists p; split; [done|split; [done|split; [done|split; [lia|done]]]]].
  destruct (decide (i = j)) as [<-|Hne].
  - rewrite list_lookup_alter, decide_True, Hi by done. eexists. split; [done|].
    destruct (markAllocated_raw p (ba_Offset b) (AlignDisk (ba_Size b) / BytesPerSlot) Hp) as (H1 & H2 & H3).
    rewrite markAllocated_Offset. rewrite (bool_decide_true (i = i)) by done. split; [done|split; [done|split; [done|]]].
    intros s Hs. by rewrite H3.
  - rewrite list_lookup_alter_ne by congruence. exists p. rewrite bool_decide_false by done.
    split; [done|split; [done|split; [done|split; [lia|done]]]].
Qed.

Lemma mark_blocks_spec bs : ∀ ps i p,
  ps !! i = Some p → bitmap_ok p →
  ∃ p', foldl mark_block ps bs !! i = Some p' ∧ AP_Offset p' = AP_Offset p ∧
    AP_FreeSlots p' = AP_FreeSlots p - foldr (λ b n, block_slots ps i p b + n) 0 bs ∧
    ∀ s, 0 ≤ s < amapSlots →
      slot_free p' s = if existsb (block_covers ps i p s) bs then false else slot_free p s.
Proof.
  induction bs as [|b bs IH]; intros ps i p Hi Hp; cbn [foldl foldr existsb].
  { exists p. split; [done|split; [done|split; [lia|done]]]. }
  destruct (mark_block_spec ps b i p Hi Hp) as (q & Hq & HO & Hok & Hf & Hbits).
  destruct (IH _ _ _ Hq Hok) as (p' & Hp' & HO' & Hf' & Hbits').
  exists p'. split; [done|split; [congruence|]].
  assert (∀ c, block_slots (mark_block ps b) i q c = block_slots ps i p c) as E1.
  { intros c. unfold block_slots. rewrite (findPage_offsets _ _ _ (same_offsets_mark ps b)).
    by rewrite (startSlot_offset q p). }
  assert (∀ s c, block_covers (mark_block ps b) i q s c = block_covers ps i p s c) as E2.
  { intros s c. unfold block_covers. rewrite (findPage_offsets _ _ _ (same_offsets_mark ps b)).
    by rewrite (startSlot_offset q p). }
  split.
  - rewrite Hf', Hf. clear -E1. assert (∀ l, foldr (λ c n, block_slots (mark_block ps b) i q c + n) 0 l
      = foldr (λ c n, block_slots ps i p c + n) 0 l) as E.
    { induction l as [|c l IHl]; [done|]. cbn [foldr]. by rewrite IHl, E1. }
    rewrite E. lia.
  - intros s Hs. rewrite Hbits', Hbits by done.
    replace (existsb (block_covers (mark_block ps b) i q s) bs) with (existsb (block_covers ps i p s) bs).
    2:{ clear -E2. induction bs as [|c l IHl]; [done|]. cbn [existsb]. by rewrite E2, IHl. }
    destruct (block_covers ps i p s b), (existsb _ bs); done.
Qed.

Lemma existsb_Permutation {A} (f : A → bool) l k : l ≡ₚ k → existsb f l = existsb f k.
Proof.
  induction 1; cbn [existsb]; [done|congruence| |congruence]. by rewrite !orb_assoc, (orb_comm (f y)).
Qed.
Lemma sum_Permutation {A} (f : A → Z) l k : l ≡ₚ k → foldr (λ b n, f b + n) 0 l = foldr (λ b n, f b + n) 0 k.
Proof. induction 1; cbn [foldr]; lia. Qed.

Lemma map_const_zeros (l : bytes) : map (λ _, 0) l = zeros (blen l).
Proof. unfold zeros, blen. rewrite Nat2Z.id. by induction l as [|x l IH]; cbn; [|rewrite IH]. Qed.
Lemma clear_page_facts p : blen (AP_BitMap p) = bitmapLen →
  bitmap_ok (clear_page p) ∧ AP_FreeSlots (clear_page p) = amapSlots ∧
  ∀ s, 0 ≤ s < amapSlots → slot_free (clear_page p) s = true.
Proof.
  intros Hl. unfold clear_page, countFreeSlots, set_bitmap, bitmap_ok, slot_free. cbn [AP_BitMap AP_FreeSlots].
  rewrite map_const_zeros, Hl. split; [split; [done|apply bytes_ok_zeros]|split; [by vm_compute|]].
  intros s Hs. unfold free_at, zeros, bitmapLen, amapSlots in *.
  rewrite lookup_replicate_2; [|assert (s / 8 < 496) by (apply Z.div_lt_upper_bound; lia);
    assert (0 ≤ s / 8) by (apply Z.div_pos; lia); lia].
  rewrite bit_clear_testbit, Z.bits_0 by (apply Z.mod_pos_bound; lia). done.
Qed.

(** Rebuilding gives each page the bitmap in which exactly the slots some
    listed block covers are used, whatever the bitmap was before and in
    whatever order the blocks are listed, and lowers its free count by the
    slots of each block that lie in the page (so once per block for slots that
    two blocks share). *)
Theorem RebuildFromBTrees_exact m blocks i p :
  AM_pages m !! i = Some p → blen (AP_BitMap p) = bitmapLen →
  ∃ p', AM_pages (RebuildFromBTrees m blocks) !! i = Some p' ∧ AP_Offset p' = AP_Offset p ∧
    AP_FreeSlots p' = amapSlots - foldr (λ b n, block_slots (AM_pages m) i p b + n) 0 blocks ∧
    ∀ s, 0 ≤ s < amapSlots → slot_free p' s = negb (existsb (block_covers (AM_pages m) i p s) blocks).
Proof.
  intros Hi Hl. destruct (clear_page_facts p Hl) as (Hok & Hf & Hfree).
  set (ps := map clear_page (AM_pages m)).
  assert (ps !! i = Some (clear_page p)) as Hi' by (subst ps; rewrite list_lookup_fmap, Hi; done).
  assert (same_offsets ps (AM_pages m)) as Hso.
  { subst ps. unfold same_offsets. clear. induction (AM_pages m) as [|q qs IH]; [done|]. cbn. f_equal. apply IH. }
  destruct (mark_blocks_spec (merge_sort ba_le blocks) ps i _ Hi' Hok) as (p' & H1 & H2 & H3 & H4).
  exists p'. split; [done|split; [done|]]. pose proof (merge_sort_Permutation ba_le blocks) as Hperm.
  split.
  - rewrite H3, Hf. rewrite (sum_Permutation _ _ _ Hperm). f_equal.
    clear -Hso. induction blocks as [|b bs IH]; [done|]. cbn [foldr]. rewrite IH. f_equal.
    unfold block_slots. rewrite (findPage_offsets _ _ _ Hso). by rewrite (startSlot_offset (clear_page p) p).
  - intros s Hs. rewrite H4, Hfree by done. rewrite (existsb_Permutation _ _ _ Hperm).
    replace (existsb (block_covers ps i (clear_page p) s) blocks)
      with (existsb (block_covers (AM_pages m) i p s) blocks); [by destruct (existsb _ _)|].
    clear -Hso. induction blocks as [|b bs IH]; [done|]. cbn [existsb]. rewrite IH. f_equal.
    unfold block_covers. rewrite (findPage_offsets _ _ _ Hso). by rewrite (startSlot_offset (clear_page p) p).
Qed.
Lemma RebuildFromBTrees_exact_witness :
  let m := CreateNewAMapManager FormatANSI in
  ∃ p', AM_pages (RebuildFromBTrees m [mkBlockAlloc 18048 100]) !! 0%nat = Some p' ∧
    AP_Offset p' = AP_Offset (CreateNew_page FormatANSI) ∧
    AP_FreeSlots p' = amapSlots
      - foldr (λ b n, block_slots (AM_pages m) 0 (CreateNew_page FormatANSI) b + n) 0 [mkBlockAlloc 18048 100] ∧
    ∀ s, 0 ≤ s < amapSlots → slot_free p' s
      = negb (existsb (block_covers (AM_pages m) 0 (CreateNew_page FormatANSI) s) [mkBlockAlloc 18048 100]).
Proof.
  intros m. apply (RebuildFromBTrees_exact m [mkBlockAlloc 18048 100] 0 (CreateNew_page FormatANSI)); reflexivity.
Defined.

(** ** Pages on disk *)

Definition amapTrailer_fields (format : PSTFormat) (sig bid crc : Z) : list (nat * Z * Z) :=
  let o := amapTrailerOffset format in
  [(1%nat, o, PageTypeAMap); (1%nat, o + 1, PageTypeAMap); (2%nat, o + 2, sig)]
  ++ (if is_Unicode format then [(4%nat, o + 4, crc); (8%nat, o + 8, bid)]
      else [(4%nat, o + 4, u32 bid); (4%nat, o + 8, crc)]).

Lemma Serialize_fields p :
  known (AP_format p) → blen (AP_BitMap p) = bitmapLen → bytes_ok (AP_BitMap p) →
  ∃ raw sig crc, Serialize p = Ok raw ∧
    puts (amapTrailer_fields (AP_format p) sig (PT_BID (AP_Trailer p)) crc) (splice 0 (AP_BitMap p) (zeros PageSize))
    = Ok raw ∧ fits 16 sig ∧ fits 32 crc.
Proof.
  intros Hk Hl Hok. set (buf := splice 0 (AP_BitMap p) (zeros PageSize)).
  assert (blen buf = 512) as Hb by (subst buf; by rewrite blen_splice).
  assert (bytes_ok buf) as Hbok by (subst buf; auto with pst).
  set (o := amapTrailerOffset (AP_format p)).
  assert (o = 500 ∨ o = 496) as Ho by (subst o; destruct (AP_format p); [done|by left|by right]).
  set (crc := ComputeCRC (sub buf 0 (o - 0))). set (sig := ComputeSignature (PT_BID (AP_Trailer p)) (AP_Offset p)).
  assert (in_bounds (blen buf) (amapTrailer_fields (AP_format p) sig (PT_BID (AP_Trailer p)) crc) = true) as Hin
    by (rewrite Hb; by destruct (AP_format p)).
  destruct (puts_Ok _ _ Hin) as (raw & Hp & _). exists raw, sig, crc. split; [|split; [done|split]].
  - unfold Serialize. fold buf o sig. rewrite slice_Ok, bind_Ok by lia. fold crc. exact Hp.
  - apply ComputeSignature_range.
  - apply ComputeCRC_fits. auto with pst.
Qed.

Lemma rd_sub n a l o len : 0 ≤ o → 0 ≤ a → a + Z.of_nat n ≤ len → o + len ≤ blen l →
  rd n a (sub l o len) = rd n (o + a) l.
Proof. intros. rewrite !rd_Ok by (rewrite ?blen_sub; lia). by rewrite sub_sub by lia. Qed.

(** The trailer of a serialized page. *)
Lemma amap_trailer p raw sig crc :
  known (AP_format p) → fits (id_width (AP_format p)) (PT_BID (AP_Trailer p)) → fits 16 sig → fits 32 crc →
  puts (amapTrailer_fields (AP_format p) sig (PT_BID (AP_Trailer p)) crc) (splice 0 (AP_BitMap p) (zeros PageSize))
  = Ok raw →
  (tr ← slice raw (amapTrailerOffset (AP_format p)) PageSize;
   if is_Unicode (AP_format p) then ParsePageTrailerUnicode tr else ParsePageTrailerANSI tr)
  = Ok (mkPageTrailer PageTypeAMap PageTypeAMap sig crc (PT_BID (AP_Trailer p))).
Proof.
  intros Hk Hbid Hsig Hcrc Hp.
  pose proof (blen_puts _ _ _ Hp) as Hr. rewrite blen_splice, blen_zeros in Hr. change (Z.max 0 PageSize) with 512 in Hr.
  destruct (AP_format p); [done|..]; cbn [is_Unicode id_width] in *;
    unfold amapTrailer_fields in Hp; cbn [is_Unicode app] in Hp; rewrite ?u32_small in Hp by done.
  - change (amapTrailerOffset FormatANSI) with 500 in *. rewrite slice_Ok, bind_Ok by (rewrite ?Hr; done).
    unfold ParsePageTrailerANSI. change (PageSize - 500) with 12. rewrite !rd_sub by (lia || rewrite Hr; lia).
    erewrite !(puts_field _ _ _ _ _ _ Hp); [reflexivity|first [reflexivity|assumption|by vm_compute]..].
  - change (amapTrailerOffset FormatUnicode) with 496 in *. rewrite slice_Ok, bind_Ok by (rewrite ?Hr; done).
    unfold ParsePageTrailerUnicode. change (PageSize - 496) with 16. rewrite !rd_sub by (lia || rewrite Hr; lia).
    erewrite !(puts_field _ _ _ _ _ _ Hp); [reflexivity|first [reflexivity|assumption|by vm_compute]..].
Qed.

(** A map page written to its offset is read back as the same page with its
    free slots recounted, whatever surrounds it in the file. *)
Theorem amap_page_roundtrip p before after :
  known (AP_format p) → bitmap_ok p → fits (id_width (AP_format p)) (PT_BID (AP_Trailer p)) →
  blen before = AP_Offset p → AP_Offset p < 2 ^ 63 →
  ∃ raw q, Serialize p = Ok raw ∧ blen raw = PageSize ∧
    readAMapPage (before ++ raw ++ after) (AP_format p) (AP_Offset p) = Ok q ∧
    AP_Offset q = AP_Offset p ∧ AP_BitMap q = AP_BitMap p ∧ AP_format q = AP_format p ∧
    AP_FreeSlots q = countFree (AP_BitMap p) ∧ PT_BID (AP_Trailer q) = PT_BID (AP_Trailer p) ∧
    PT_PageType (AP_Trailer q) = PageTypeAMap.
Proof.
  intros Hk [Hl Hok] Hbid Hbef Hmax. pose proof (blen_nonneg before). pose proof (blen_nonneg after).
  destruct (Serialize_fields p Hk Hl Hok) as (raw & sig & crc & HS & Hp & Hsig & Hcrc).
  pose proof (blen_puts _ _ _ Hp) as Hr. rewrite blen_splice, blen_zeros in Hr. change (Z.max 0 PageSize) with 512 in Hr.
  assert (sub raw 0 bitmapLen = AP_BitMap p) as Hbm.
  { change bitmapLen with (Z.of_nat 496). rewrite (puts_sub_clear _ _ _ _ _ Hp) by (done || by destruct (AP_format p)).
    rewrite splice_0_zeros by (rewrite Hl; done). rewrite sub_app_l by (rewrite ?Hl; done). by apply sub_0_all. }
  assert (sub (before ++ raw ++ after) (AP_Offset p) PageSize = raw) as Hsub.
  { unfold PageSize. rewrite sub_app_r, sub_app_l by lia. apply sub_all; lia. }
  eexists raw, _. split; [exact HS|split; [done|]]. split.
  { unfold readAMapPage. rewrite (proj2 (Z.leb_gt _ _)) by done. rewrite Hsub, Hr, Z.eqb_refl. cbn [negb].
    destruct (bind_Ok_inv _ _ _ (amap_trailer p raw sig crc Hk Hbid Hsig Hcrc Hp)) as (tr & Htr & Hpt).
    rewrite Htr, bind_Ok, Hpt, bind_Ok.
    cbn [PT_PageType]. rewrite Z.eqb_refl. cbn [negb]. rewrite mret_Ok, Hbm. reflexivity. }
  done.
Qed.
Lemma amap_page_roundtrip_witness :
  let p := almost_full_page 0 FormatANSI in
  ∃ raw q, Serialize p = Ok raw ∧ blen raw = PageSize ∧
    readAMapPage ([] ++ raw ++ [7]) (AP_format p) (AP_Offset p) = Ok q ∧
    AP_Offset q = AP_Offset p ∧ AP_BitMap q = AP_BitMap p ∧ AP_format q = AP_format p ∧
    AP_FreeSlots q = countFree (AP_BitMap p) ∧ PT_BID (AP_Trailer q) = PT_BID (AP_Trailer p) ∧
    PT_PageType (AP_Trailer q) = PageTypeAMap.
Proof.
  intros p. apply (amap_page_roundtrip p [] [7]).
  - done.
  - split; [reflexivity|apply bytes_okb_true; vm_compute; reflexivity].
  - by vm_compute.
  - reflexivity.
  - by vm_compute.
Defined.

(** ** Loading the map *)
Lemma readAMapPage_inv file format offset p :
  0 ≤ offset → readAMapPage file format offset = Ok p →
  AP_Offset p = offset ∧ offset + PageSize ≤ blen file ∧ AP_FreeSlots p = countFree (AP_BitMap p) ∧
  AP_BitMap p = sub file offset bitmapLen.
Proof.
  intros Ho. unfold readAMapPage. destruct (2 ^ 63 <=? offset); [done|].
  destruct (Z.eqb_spec (blen (sub file offset PageSize)) PageSize) as [Hl|]; [|done]. cbn [negb].
  intros H. apply bind_Ok_inv in H as (tr & _ & H). apply bind_Ok_inv in H as (t & _ & H).
  destruct (PT_PageType t =? PageTypeAMap); [|done]. injection H as <-.
  cbn [countFreeSlots set_bitmap AP_Offset AP_FreeSlots AP_BitMap].
  assert (offset + PageSize ≤ blen file).
  { unfold sub, blen, PageSize in *. rewrite length_take, length_drop in Hl. lia. }
  split_and!; [done|done|done|]. rewrite sub_sub by (unfold PageSize, bitmapLen in *; lia). by rewrite Z.add_0_r.
Qed.
Lemma readAMapPage_wf file format offset p :
  bytes_ok file → 0 ≤ offset < 2 ^ 62 → readAMapPage file format offset = Ok p → page_wf p.
Proof.
  intros Hb Ho H. apply readAMapPage_inv in H as (H1 & H2 & H3 & H4); [|lia].
  unfold page_wf. rewrite H4, H1 in *. unfold PageSize, bitmapLen in *.
  split; [apply blen_sub; lia|split; [auto with pst|split; [done|lia]]].
Qed.

Lemma load_pages_spec file format last : blen file < 2 ^ 62 → ∀ fuel offset,
  0 ≤ offset → (0 < fuel)%nat → blen file - offset < bytesPerAMap * (Z.of_nat fuel - 1) →
  offset < 2 ^ 62 + bytesPerAMap →
  ∃ r, load_pages fuel file format last offset = Some r ∧
    ∀ ps, r = Ok ps → last < offset + bytesPerAMap * blen ps ∧
      ∀ i p, ps !! i = Some p → AP_Offset p = offset + bytesPerAMap * Z.of_nat i ∧ AP_Offset p ≤ last ∧
        AP_Offset p < 2 ^ 62 ∧ readAMapPage file format (AP_Offset p) = Ok p.
Proof.
  intros Hfile fuel. induction fuel as [|fuel IH]; intros offset Ho Hpos Hf Hmax; [lia|]. cbn [load_pages].
  destruct (Z.leb_spec offset last) as [Hle|Hgt].
  2:{ eexists. split; [done|]. intros ps [= <-]. split; [rewrite (@blen_nil AMapPage); lia|]. by intros i p Hi. }
  destruct (readAMapPage file format offset) as [p|e|] eqn:E; cbn [wrap_err]; [|by eexists..].
  pose proof (readAMapPage_inv _ _ _ _ Ho E) as (HO & Hin & _). unfold PageSize, bytesPerAMap in *.
  rewrite u64_small by lia.
  destruct (IH (offset + 496 * 512)) as (r & Hr & Hps); [lia|destruct fuel; lia|lia|lia|].
  rewrite Hr. destruct r as [ps|e|]; [|by eexists..]. eexists. split; [done|]. intros ? [= <-].
  destruct (Hps ps eq_refl) as [Hlast Hall]. rewrite blen_cons. split; [lia|].
  intros [|i] q Hi.
  - injection Hi as <-. rewrite HO. split_and!; [lia|lia|lia|done].
  - destruct (Hall i q Hi) as (H1 & H2 & H3 & H4). split_and!; [lia|done|done|done].
Qed.

Lemma calculateFreeSpace_total ps : Forall page_wf ps → apart ps → calculateFreeSpace ps = BytesPerSlot * total ps.
Proof.
  intros Hw Ha. pose proof (total_fits ps Hw Ha) as Hfit. unfold calculateFreeSpace.
  assert (∀ l n, Forall page_wf l → 0 ≤ n → n + BytesPerSlot * total l < 2 ^ 64 →
    foldl (λ n p, u64 (n + u64 (u64 (AP_FreeSlots p) * BytesPerSlot))) n l = n + BytesPerSlot * total l) as H.
  { clear. induction l as [|p l IH]; intros n Hw Hn Hm; [cbn; lia|]. apply Forall_cons in Hw as [Hp Hw].
    pose proof (page_wf_free p Hp). pose proof (total_bound l Hw) as Hb.
    change (total (p :: l)) with (AP_FreeSlots p + total l) in *. cbn [foldl]. unfold BytesPerSlot, amapSlots in *.
    rewrite (u64_small (AP_FreeSlots p)), (u64_small (_ * 64)), u64_small by lia. rewrite IH by (done || lia). lia. }
  unfold fits in Hfit. rewrite H by (done || lia). lia.
Qed.

(** C34: Loading the map of a file always ends; when it succeeds, the manager is
    well formed, its pages are those found every 253952 bytes from 0x4400 up to
    the last one the header names, and each is what the reader returns there. *)
Theorem NewAMapManager_wf file h :
  bytes_ok file → blen file < 2 ^ 62 →
  ∃ r, NewAMapManager file h = Some r ∧
    ∀ m, r = Ok m → amap_wf m ∧ AM_fileSize m = IBFileEOF (HRoot h) ∧
      IBAMapLast (HRoot h) < FirstAMapPageLocation + bytesPerAMap * blen (AM_pages m) ∧
      ∀ i p, AM_pages m !! i = Some p →
        AP_Offset p = FirstAMapPageLocation + bytesPerAMap * Z.of_nat i ∧ AP_Offset p ≤ IBAMapLast (HRoot h) ∧
        readAMapPage file (HFormat h) (AP_Offset p) = Ok p.
Proof.
  intros Hb Hl. unfold NewAMapManager, loadAMapPages. pose proof (blen_nonneg file).
  destruct (load_pages_spec file (HFormat h) (IBAMapLast (HRoot h)) Hl (load_fuel file) FirstAMapPageLocation)
    as (r & Hr & Hps).
  - done.
  - unfold load_fuel. lia.
  - unfold load_fuel, FirstAMapPageLocation. pose proof (Z_div_mod_eq_full (blen file) bytesPerAMap).
    pose proof (Z.mod_pos_bound (blen file) bytesPerAMap ltac:(done)).
    assert (0 ≤ blen file / bytesPerAMap) by (apply Z.div_pos; done).
    rewrite !Nat2Z.inj_succ, Z2Nat.id by done. unfold bytesPerAMap in *. lia.
  - done.
  - rewrite Hr. eexists. split; [done|]. intros m Hm. destruct r as [ps|e|]; cbn in Hm; [|done|done].
    injection Hm as <-. destruct (Hps ps eq_refl) as [Hlast Hall]. cbn [AM_pages AM_fileSize].
    assert (Forall page_wf ps) as Hw.
    { apply Forall_lookup. intros i p Hi. destruct (Hall i p Hi) as (H1 & H2 & H3 & H4).
      eapply readAMapPage_wf; [done| |done]. unfold FirstAMapPageLocation, bytesPerAMap in *. lia. }
    assert (apart ps) as Ha.
    { intros i j p q Hij Hi Hj. destruct (Hall i p Hi) as (-> & _), (Hall j q Hj) as (-> & _).
      unfold bytesPerAMap. lia. }
    split; [|split; [done|split; [done|]]].
    + split; [done|split; [done|]]. cbn [AM_pages AM_freeBytes]. rewrite calculateFreeSpace_total by done.
      split; [done|]. by apply total_fits.
    + intros i p Hi. by destruct (Hall i p Hi) as (H1 & H2 & _ & H4).
Qed.
Lemma NewAMapManager_wf_witness :
  ∃ r, NewAMapManager [1; 2] (NewHeader FormatANSI ClientMagicPST) = Some r ∧
    ∀ m, r = Ok m → amap_wf m ∧ AM_fileSize m = IBFileEOF (HRoot (NewHeader FormatANSI ClientMagicPST)) ∧
      IBAMapLast (HRoot (NewHeader FormatANSI ClientMagicPST))
        < FirstAMapPageLocation + bytesPerAMap * blen (AM_pages m) ∧
      ∀ i p, AM_pages m !! i = Some p →
        AP_Offset p = FirstAMapPageLocation + bytesPerAMap * Z.of_nat i ∧
        AP_Offset p ≤ IBAMapLast (HRoot (NewHeader FormatANSI ClientMagicPST)) ∧
        readAMapPage [1; 2] (HFormat (NewHeader FormatANSI ClientMagicPST)) (AP_Offset p) = Ok p.
Proof.
  apply (NewAMapManager_wf [1; 2] (NewHeader FormatANSI ClientMagicPST)).
  - apply bytes_okb_true. reflexivity.
  - by vm_compute.
Defined.

(** Loading depends on the windows of the loaded pages only. *)
Lemma readAMapPage_frame file file' format offset p :
  sub file' offset PageSize = sub file offset PageSize → readAMapPage file format offset = Ok p →
  readAMapPage file' format offset = Ok p.
Proof. intros Hs. unfold readAMapPage. by rewrite Hs. Qed.
Lemma load_pages_frame file file' format last : ∀ fuel fuel' offset ps,
  0 ≤ offset → (fuel ≤ fuel')%nat → load_pages fuel file format last offset = Some (Ok ps) →
  (∀ p, p ∈ ps →
    sub file' (AP_Offset p) PageSize = sub file (AP_Offset p) PageSize) →
  load_pages fuel' file' format last offset = Some (Ok ps).
Proof.
  induction fuel as [|fuel IH]; intros fuel' offset ps Ho Hf HL Hw; [done|]. destruct fuel' as [|fuel']; [lia|].
  cbn [load_pages] in *. destruct (offset <=? last); [|done].
  destruct (readAMapPage file format offset) as [p|e|] eqn:E; cbn [wrap_err] in *; [|done..].
  destruct (load_pages fuel file format last _) as [[ps'|e|]|] eqn:EL; [|done..]. injection HL as <-.
  destruct (readAMapPage_inv _ _ _ _ Ho E) as (HO & _).
  rewrite (readAMapPage_frame file file' format offset p); [|rewrite <- HO; apply Hw; left|done].
  cbn [wrap_err]. rewrite (IH fuel' _ ps'); [done|apply u64_range|lia|done|].
  intros q Hq. apply Hw. by right.
Qed.
Lemma NewAMapManager_frame file file' h h' m :
  HFormat h' = HFormat h → IBAMapLast (HRoot h') = IBAMapLast (HRoot h) → blen file ≤ blen file' →
  NewAMapManager file h = Some (Ok m) →
  (∀ p, p ∈ AM_pages m → sub file' (AP_Offset p) PageSize = sub file (AP_Offset p) PageSize) →
  ∃ m', NewAMapManager file' h' = Some (Ok m') ∧ AM_pages m' = AM_pages m.
Proof.
  intros Hf Hl Hlen HN Hw. unfold NewAMapManager, loadAMapPages in *. rewrite Hf, Hl.
  destruct (load_pages _ file _ _ _) as [[ps|e|]|] eqn:EL; [|done..]. injection HN as <-. cbn [AM_pages] in *.
  erewrite load_pages_frame; [|done| |exact EL|exact Hw]; [by eexists|].
  unfold load_fuel. pose proof (Z.div_le_mono (blen file) (blen file') bytesPerAMap ltac:(done) Hlen). lia.
Qed.
(** Where the loaded pages are. *)
Lemma load_pages_located file format last : ∀ fuel offset ps, FirstAMapPageLocation ≤ offset →
  load_pages fuel file format last offset = Some (Ok ps) → blen file < 2 ^ 62 →
  ∀ p, p ∈ ps → FirstAMapPageLocation ≤ AP_Offset p ∧ AP_Offset p + PageSize ≤ blen file.
Proof.
  induction fuel as [|fuel IH]; intros offset ps Ho HL Hb p Hp; [done|]. cbn [load_pages] in HL.
  destruct (offset <=? last); [|by injection HL as <-; apply not_elem_of_nil in Hp].
  destruct (readAMapPage file format offset) as [q|e|] eqn:E; cbn [wrap_err] in *; [|done..].
  destruct (load_pages fuel file format last _) as [[ps'|e|]|] eqn:EL; [|done..]. injection HL as <-.
  unfold FirstAMapPageLocation in *.
  destruct (readAMapPage_inv file format offset q ltac:(lia) E) as (HO & Hin & _).
  apply elem_of_cons in Hp as [->|Hp]; [lia|]. eapply IH; [|exact EL|done|done].
  unfold PageSize, bytesPerAMap in *. rewrite u64_small; lia.
Qed.
