(* ===== verification/Rtf.v ===== *)
(** * Compressed RTF ([pkg/rtf/decompress.go])

    The LZFu decompressor with its 4096-byte ring dictionary, and the checksum
    of the format. *)
From S2P Require Import Prelude Crypt.

(** ** Constants *)
Definition MagicCompressed : Z := 0x75465A4C.
Definition MagicUncompressed : Z := 0x414C454D.
Definition headerSize : Z := 16.
Definition preloadSize : Z := 207.
Definition maxDictSize : Z := 4096.
Definition dictWriteOffset : Z := preloadSize.
#[export] Hint Unfold headerSize preloadSize maxDictSize dictWriteOffset : pst_consts.

Definition preloadedDictionary : bytes :=
  string_bytes "{\rtf1\ansi\mac\deff0\deftab720{\fonttbl;}"
  ++ string_bytes "{\f0\fnil \froman \fswiss \fmodern \fscript "
  ++ string_bytes "\fdecor MS Sans SerifSymbolArialTimes New RomanCourier"
  ++ string_bytes "{\colortbl\red0\green0\blue0" ++ [13; 10] ++ string_bytes "\par "
  ++ string_bytes "\pard\plain\f0\fs20\b\i\u\tab\tx".

(** ** The header *)
Record RtfHeader := mkRtfHeader { CompSize : Z; RawSize : Z; CompType : Z; RtfCRC : Z }.

Definition ParseHeader (data : bytes) : result RtfHeader :=
  if blen data <? headerSize then Err (EFmt "rtf: invalid compressed RTF header" []) else
  cs ← rd 4 0 data; rs ← rd 4 4 data; ct ← rd 4 8 data; crc ← rd 4 12 data;
  mret (mkRtfHeader cs rs ct crc).
Definition h_IsCompressed (h : RtfHeader) : bool := CompType h =? MagicCompressed.
Definition h_IsUncompressed (h : RtfHeader) : bool := CompType h =? MagicUncompressed.
Definition IsCompressed (data : bytes) : result bool :=
  if blen data <? headerSize then mret false else magic ← rd 4 8 data; mret (magic =? MagicCompressed).
Definition IsUncompressed (data : bytes) : result bool :=
  if blen data <? headerSize then mret false else magic ← rd 4 8 data; mret (magic =? MagicUncompressed).

(** ** Decompression *)
Record lz := mkLz { lz_dict : bytes; lz_pos : Z; lz_out : bytes; lz_in : bytes }.

(** [output.WriteByte(b); dict[pos] = b; pos = (pos + 1) % maxDictSize] *)
Definition emit (st : lz) (b : Z) : result lz :=
  d ← put8 (lz_pos st) b (lz_dict st);
  mret (mkLz d ((lz_pos st + 1) mod maxDictSize) (lz_out st ++ [b]) (lz_in st)).
Definition with_in (st : lz) (inp : bytes) : lz := mkLz (lz_dict st) (lz_pos st) (lz_out st) inp.

(** The copy loop: [n] iterations left, [i] done. *)
Fixpoint copy_ref (raw : Z) (n : nat) (offset i : Z) (st : lz) : result lz :=
  match n with
  | O => mret st
  | S n =>
    if blen (lz_out st) <? raw then
      b ← index (lz_dict st) ((offset + i) mod maxDictSize);
      st ← emit st b;
      copy_ref raw n offset (i + 1) st
    else mret st
  end.

(** The loop over the bits of a control byte, on the bits left.  [break] leaves
    this loop only. *)
Fixpoint process_bits (raw control : Z) (bits : list Z) (st : lz) : result lz :=
  match bits with
  | [] => mret st
  | bit :: bits =>
    if blen (lz_out st) <? raw then
      if Z.land control (Z.shiftl 1 bit) =? 0 then
        match lz_in st with
        | [] => mret st
        | b :: rest => st ← emit (with_in st rest) b; process_bits raw control bits st
        end
      else
        match lz_in st with
        | [] => mret st
        | [b1] => mret (with_in st [])
        | b1 :: b2 :: rest =>
          let st := with_in st rest in
          let offset := Z.lor (Z.shiftl b1 4) (Z.shiftr b2 4) in
          let length := Z.land b2 0x0F + 2 in
          if offset =? lz_pos st then mret st
          else st ← copy_ref raw (Z.to_nat length) offset 0 st; process_bits raw control bits st
        end
    else mret st
  end.
Definition bit_order : list Z := [0; 1; 2; 3; 4; 5; 6; 7].

(** The outer loop; every iteration consumes a control byte, so the length of
    the input bounds it. *)
Fixpoint lz_loop (fuel : nat) (raw : Z) (st : lz) : option (result lz) :=
  match fuel with
  | O => None
  | S fuel =>
    if blen (lz_out st) <? raw then
      match lz_in st with
      | [] => Some (mret st)
      | control :: rest =>
        match process_bits raw control bit_order (with_in st rest) with
        | Ok st => lz_loop fuel raw st
        | r => Some r
        end
      end
    else Some (mret st)
  end.
Definition lz_init (input : bytes) : lz :=
  mkLz (splice 0 preloadedDictionary (zeros maxDictSize)) dictWriteOffset [] input.
Definition decompressLZFu (compressed : bytes) (header : RtfHeader) : option (result bytes) :=
  let input := drop (Z.to_nat headerSize) compressed in
  match lz_loop (S (length input)) (RawSize header) (lz_init input) with
  | Some r => Some (lz_out <$> r)
  | None => None
  end.

Definition Decompress (compressed : bytes) : option (result bytes) :=
  match ParseHeader compressed with
  | Err e => Some (Err e)
  | Panic => Some Panic
  | Ok header =>
    if (blen compressed <? CompSize header + 4) && (blen compressed <? CompSize header)
    then Some (Err (EFmt "rtf: data truncated" []))
    else if CompType header =? MagicUncompressed then
      let start := headerSize in
      let end_ := start + RawSize header in
      let end_ := if blen compressed <? end_ then blen compressed else end_ in
      Some (slice compressed start end_)
    else if CompType header =? MagicCompressed then decompressLZFu compressed header
    else Some (Err (EFmt "rtf: invalid magic bytes: 0x%08X" [CompType header]))
  end.

(** ** The checksum *)
Definition crcTable : list Z :=
  [0x00000000; 0x77073096; 0xEE0E612C; 0x990951BA; 0x076DC419; 0x706AF48F; 0xE963A535; 0x9E6495A3;
   0x0EDB8832; 0x79DCB8A4; 0xE0D5E91E; 0x97D2D988; 0x09B64C2B; 0x7EB17CBD; 0xE7B82D07; 0x90BF1D91;
   0x1DB71064; 0x6AB020F2; 0xF3B97148; 0x84BE41DE; 0x1ADAD47D; 0x6DDDE4EB; 0xF4D4B551; 0x83D385C7;
   0x136C9856; 0x646BA8C0; 0xFD62F97A; 0x8A65C9EC; 0x14015C4F; 0x63066CD9; 0xFA0F3D63; 0x8D080DF5;
   0x3B6E20C8; 0x4C69105E; 0xD56041E4; 0xA2677172; 0x3C03E4D1; 0x4B04D447; 0xD20D85FD; 0xA50AB56B;
   0x35B5A8FA; 0x42B2986C; 0xDBBBC9D6; 0xACBCF940; 0x32D86CE3; 0x45DF5C75; 0xDCD60DCF; 0xABD13D59;
   0x26D930AC; 0x51DE003A; 0xC8D75180; 0xBFD06116; 0x21B4F4B5; 0x56B3C423; 0xCFBA9599; 0xB8BDA50F;
   0x2802B89E; 0x5F058808; 0xC60CD9B2; 0xB10BE924; 0x2F6F7C87; 0x58684C11; 0xC1611DAB; 0xB6662D3D;
   0x76DC4190; 0x01DB7106; 0x98D220BC; 0xEFD5102A; 0x71B18589; 0x06B6B51F; 0x9FBFE4A5; 0xE8B8D433;
   0x7807C9A2; 0x0F00F934; 0x9609A88E; 0xE10E9818; 0x7F6A0DBB; 0x086D3D2D; 0x91646C97; 0xE6635C01;
   0x6B6B51F4; 0x1C6C6162; 0x856530D8; 0xF262004E; 0x6C0695ED; 0x1B01A57B; 0x8208F4C1; 0xF50FC457;
   0x65B0D9C6; 0x12B7E950; 0x8BBEB8EA; 0xFCB9887C; 0x62DD1DDF; 0x15DA2D49; 0x8CD37CF3; 0xFBD44C65;
   0x4DB26158; 0x3AB551CE; 0xA3BC0074; 0xD4BB30E2; 0x4ADFA541; 0x3DD895D7; 0xA4D1C46D; 0xD3D6F4FB;
   0x4369E96A; 0x346ED9FC; 0xAD678846; 0xDA60B8D0; 0x44042D73; 0x33031DE5; 0xAA0A4C5F; 0xDD0D7CC9;
   0x5005713C; 0x270241AA; 0xBE0B1010; 0xC90C2086; 0x5768B525; 0x206F85B3; 0xB966D409; 0xCE61E49F;
   0x5EDEF90E; 0x29D9C998; 0xB0D09822; 0xC7D7A8B4; 0x59B33D17; 0x2EB40D81; 0xB7BD5C3B; 0xC0BA6CAD;
   0xEDB88320; 0x9ABFB3B6; 0x03B6E20C; 0x74B1D29A; 0xEAD54739; 0x9DD277AF; 0x04DB2615; 0x73DC1683;
   0xE3630B12; 0x94643B84; 0x0D6D6A3E; 0x7A6A5AA8; 0xE40ECF0B; 0x9309FF9D; 0x0A00AE27; 0x7D079EB1;
   0xF00F9344; 0x8708A3D2; 0x1E01F268; 0x6906C2FE; 0xF762575D; 0x806567CB; 0x196C3671; 0x6E6B06E7;
   0xFED41B76; 0x89D32BE0; 0x10DA7A5A; 0x67DD4ACC; 0xF9B9DF6F; 0x8EBEEFF9; 0x17B7BE43; 0x60B08ED5;
   0xD6D6A3E8; 0xA1D1937E; 0x38D8C2C4; 0x4FDFF252; 0xD1BB67F1; 0xA6BC5767; 0x3FB506DD; 0x48B2364B;
   0xD80D2BDA; 0xAF0A1B4C; 0x36034AF6; 0x41047A60; 0xDF60EFC3; 0xA867DF55; 0x316E8EEF; 0x4669BE79;
   0xCB61B38C; 0xBC66831A; 0x256FD2A0; 0x5268E236; 0xCC0C7795; 0xBB0B4703; 0x220216B9; 0x5505262F;
   0xC5BA3BBE; 0xB2BD0B28; 0x2BB45A92; 0x5CB36A04; 0xC2D7FFA7; 0xB5D0CF31; 0x2CD99E8B; 0x5BDEAE1D;
   0x9B64C2B0; 0xEC63F226; 0x756AA39C; 0x026D930A; 0x9C0906A9; 0xEB0E363F; 0x72076785; 0x05005713;
   0x95BF4A82; 0xE2B87A14; 0x7BB12BAE; 0x0CB61B38; 0x92D28E9B; 0xE5D5BE0D; 0x7CDCEFB7; 0x0BDBDF21;
   0x86D3D2D4; 0xF1D4E242; 0x68DDB3F8; 0x1FDA836E; 0x81BE16CD; 0xF6B9265B; 0x6FB077E1; 0x18B74777;
   0x88085AE6; 0xFF0F6A70; 0x66063BCA; 0x11010B5C; 0x8F659EFF; 0xF862AE69; 0x616BFFD3; 0x166CCF45;
   0xA00AE278; 0xD70DD2EE; 0x4E048354; 0x3903B3C2; 0xA7672661; 0xD06016F7; 0x4969474D; 0x3E6E77DB;
   0xAED16A4A; 0xD9D65ADC; 0x40DF0B66; 0x37D83BF0; 0xA9BCAE53; 0xDEBB9EC5; 0x47B2CF7F; 0x30B5FFE9;
   0xBDBDF21C; 0xCABAC28A; 0x53B39330; 0x24B4A3A6; 0xBAD03605; 0xCDD70693; 0x54DE5729; 0x23D967BF;
   0xB3667A2E; 0xC4614AB8; 0x5D681B02; 0x2A6F2B94; 0xB40BBE37; 0xC30C8EA1; 0x5A05DF1B; 0x2D02EF8D].
Definition ComputeCRC (data : bytes) : Z :=
  foldl (λ crc b, Z.lxor (Z.shiftr crc 8) (at256 crcTable (Z.land (Z.lxor crc b) 0xFF))) 0 data.

(** ** The reference decoder

    The same stream read over an unbounded history: 4096 bytes that stand for
    the initial dictionary, then the output.  A reference names a distance. *)
Definition init_history : bytes := zeros (maxDictSize - preloadSize) ++ preloadedDictionary.
Definition lookback (hist : bytes) (d : Z) : Z := default 0 (hist !! Z.to_nat (blen hist - d)).
(** Distance that an [offset] denotes after the given history. *)
Definition distance (hist : bytes) (offset : Z) : Z := (blen hist + preloadSize - offset) mod maxDictSize.
Definition ref_out (hist : bytes) : Z := blen hist - maxDictSize.

Fixpoint ref_copy (raw : Z) (n : nat) (d : Z) (hist : bytes) : bytes :=
  match n with
  | O => hist
  | S n => if ref_out hist <? raw then ref_copy raw n d (hist ++ [lookback hist d]) else hist
  end.
Fixpoint ref_bits (raw control : Z) (bits : list Z) (hist inp : bytes) : bytes * bytes :=
  match bits with
  | [] => (hist, inp)
  | bit :: bits =>
    if ref_out hist <? raw then
      if Z.land control (Z.shiftl 1 bit) =? 0 then
        match inp with [] => (hist, []) | b :: rest => ref_bits raw control bits (hist ++ [b]) rest end
      else
        match inp with
        | [] | [_] => (hist, [])
        | b1 :: b2 :: rest =>
          let d := distance hist (Z.lor (Z.shiftl b1 4) (Z.shiftr b2 4)) in
          if d =? 0 then (hist, rest)
          else ref_bits raw control bits (ref_copy raw (Z.to_nat (Z.land b2 0x0F + 2)) d hist) rest
        end
    else (hist, inp)
  end.
Fixpoint ref_loop (fuel : nat) (raw : Z) (hist inp : bytes) : option bytes :=
  match fuel with
  | O => None
  | S fuel =>
    if ref_out hist <? raw then
      match inp with
      | [] => Some hist
      | control :: rest => let '(hist, inp) := ref_bits raw control bit_order hist rest in ref_loop fuel raw hist inp
      end
    else Some hist
  end.

(** The ring holds the last 4096 bytes of the history. *)
Record rel (st : lz) (hist : bytes) : Prop := {
  rel_len : maxDictSize ≤ blen hist;
  rel_out : lz_out st = drop (Z.to_nat maxDictSize) hist;
  rel_pos : lz_pos st = (blen hist + preloadSize) mod maxDictSize;
  rel_dict : blen (lz_dict st) = maxDictSize;
  rel_ring : ∀ i, blen hist - maxDictSize ≤ i < blen hist →
    lz_dict st !! Z.to_nat ((i + preloadSize) mod maxDictSize) = hist !! Z.to_nat i }.

Lemma splice_single {A} pos (b : A) l : 0 ≤ pos < blen l → splice pos [b] l = <[Z.to_nat pos := b]> l.
Proof.
  intros H. rewrite splice_in by (rewrite ?blen_cons, ?blen_nil; lia).
  rewrite insert_take_drop by (unfold blen in *; lia). cbn [length app]. by rewrite Nat.add_1_r.
Qed.
Lemma rel_blen_out st hist : rel st hist → blen (lz_out st) = ref_out hist.
Proof.
  intros []. rewrite rel_out0. unfold ref_out, blen, maxDictSize in *. rewrite length_drop. lia.
Qed.
Lemma rel_in st hist inp : rel st hist → rel (with_in st inp) hist.
Proof. intros []. by constructor. Qed.

Lemma ring_ne a b : 0 < b - a < 4096 → (a + 207) mod 4096 ≠ (b + 207) mod 4096.
Proof. intros H E. Z.div_mod_to_equations. lia. Qed.

Lemma emit_rel st hist b :
  rel st hist → ∃ st', emit st b = Ok st' ∧ rel st' (hist ++ [b]) ∧ lz_in st' = lz_in st.
Proof.
  intros [Hl Ho Hp Hd Hr]. unfold maxDictSize, preloadSize in *.
  pose proof (Z.mod_pos_bound (blen hist + 207) 4096 ltac:(lia)).
  unfold emit. rewrite put8_Ok, bind_Ok, mret_Ok, splice_single by lia.
  eexists. split; [done|]. split; [|done].
  assert (blen (hist ++ [b]) = blen hist + 1) as Hb by (rewrite blen_app; done).
  constructor; cbn [lz_dict lz_pos lz_out]; unfold maxDictSize, preloadSize in *.
  - lia.
  - rewrite Ho. rewrite drop_app_le by (unfold blen in *; lia). done.
  - rewrite Hp, Hb, Zplus_mod_idemp_l. f_equal. lia.
  - unfold blen. rewrite length_insert. done.
  - intros i Hi. rewrite Hb in Hi. destruct (decide (i = blen hist)) as [->|Hne].
    + rewrite Hp. rewrite list_lookup_insert_eq by (unfold blen in *; lia).
      unfold blen. rewrite Nat2Z.id. rewrite lookup_app_r, Nat.sub_diag by lia. done.
    + rewrite Hp. rewrite list_lookup_insert_ne.
      * rewrite Hr by lia. rewrite lookup_app_l by (unfold blen in *; lia). done.
      * pose proof (ring_ne i (blen hist) ltac:(lia)). pose proof (Z.mod_pos_bound (i + 207) 4096 ltac:(lia)). lia.
Qed.

Lemma copy_ref_rel raw n d offset : 1 ≤ d < 4096 → ∀ st hist i,
  rel st hist → (offset + i) mod 4096 = (blen hist - d + 207) mod 4096 →
  ∃ st', copy_ref raw n offset i st = Ok st' ∧ rel st' (ref_copy raw n d hist) ∧ lz_in st' = lz_in st.
Proof.
  intros Hd. induction n as [|n IH]; intros st hist i Hrel Hoff; cbn [copy_ref ref_copy]; [by eexists|].
  rewrite (rel_blen_out st hist Hrel). destruct (ref_out hist <? raw); [|by eexists].
  pose proof (rel_len _ _ Hrel) as Hl. unfold maxDictSize in *.
  assert (lz_dict st !! Z.to_nat ((blen hist - d + 207) mod 4096) = hist !! Z.to_nat (blen hist - d)) as Hring
    by (apply (rel_ring _ _ Hrel); unfold maxDictSize; lia).
  destruct (lookup_lt_is_Some_2 hist (Z.to_nat (blen hist - d))) as [b Hb]; [unfold blen in *; lia|].
  rewrite Hoff, (index_Ok _ _ b) by first [apply Z.mod_pos_bound; lia|by rewrite Hring].
  rewrite bind_Ok. unfold lookback. rewrite Hb. cbn [default from_option id].
  destruct (emit_rel st hist b Hrel) as (st1 & -> & Hrel1 & Hin1). rewrite bind_Ok.
  destruct (IH st1 (hist ++ [b]) (i + 1) Hrel1) as (st2 & -> & Hrel2 & Hin2).
  { rewrite blen_app, blen_cons, blen_nil. rewrite Z.add_assoc, <- Zplus_mod_idemp_l, Hoff, Zplus_mod_idemp_l.
    f_equal. lia. }
  exists st2. split; [done|split; [done|congruence]].
Qed.

Lemma process_bits_rel raw control bits : ∀ st hist,
  rel st hist → bytes_ok (lz_in st) →
  ∃ st', process_bits raw control bits st = Ok st' ∧
    rel st' (ref_bits raw control bits hist (lz_in st)).1 ∧
    lz_in st' = (ref_bits raw control bits hist (lz_in st)).2 ∧
    bytes_ok (lz_in st') ∧ (length (lz_in st') ≤ length (lz_in st))%nat.
Proof.
  induction bits as [|bit bits IH]; intros st hist Hrel Hok; cbn [process_bits ref_bits].
  { exists st. cbn. split_and!; done. }
  rewrite (rel_blen_out st hist Hrel). destruct (ref_out hist <? raw); [|exists st; split_and!; done].
  destruct (Z.land control (Z.shiftl 1 bit) =? 0).
  - destruct (lz_in st) as [|b rest] eqn:E; [exists st; rewrite E; split_and!; done|].
    apply Forall_cons in Hok as [Hb Hok].
    destruct (emit_rel (with_in st rest) hist b (rel_in _ _ _ Hrel)) as (st1 & -> & Hrel1 & Hin1). rewrite bind_Ok.
    destruct (IH st1 (hist ++ [b]) Hrel1) as (st2 & -> & H1 & H2 & H3 & H4); [by rewrite Hin1|].
    rewrite Hin1 in H1, H2, H4. exists st2. split_and!; [done|done|done|done|cbn in *; lia].
  - destruct (lz_in st) as [|b1 [|b2 rest]] eqn:E; [exists st; rewrite E; split_and!; done| |].
    { eexists. split; [done|]. cbn. split_and!; [by apply rel_in|done|done|lia]. }
    apply Forall_cons in Hok as [Hb1 Hok]. apply Forall_cons in Hok as [Hb2 Hok].
    set (offset := Z.lor (Z.shiftl b1 4) (Z.shiftr b2 4)).
    assert (0 ≤ offset < 4096) as Hoff.
    { unfold offset, is_byte in *. rewrite Z.lor_comm, lor_shiftl.
      - rewrite shiftr_div by lia. change (2 ^ 4) with 16. assert (0 ≤ b2 / 16) by (apply Z.div_pos; lia).
        assert (b2 / 16 < 16) by (apply Z.div_lt_upper_bound; lia). lia.
      - lia.
      - rewrite shiftr_div by lia. change (2 ^ 4) with 16. split; [apply Z.div_pos; lia|apply Z.div_lt_upper_bound; lia]. }
    clearbody offset. cbn [with_in lz_pos]. pose proof (rel_pos _ _ Hrel) as Hp. unfold distance.
    unfold maxDictSize, preloadSize in *.
    assert (offset = lz_pos st ↔ (blen hist + 207 - offset) mod 4096 = 0) as Hend.
    { rewrite Hp. clear -Hoff. Z.div_mod_to_equations. lia. }
    destruct (Z.eqb_spec offset (lz_pos st)) as [He|He].
    { rewrite (proj2 (Z.eqb_eq _ 0)) by (by apply Hend). eexists. split; [done|]. cbn.
      split_and!; [by apply rel_in|done|done|lia]. }
    rewrite (proj2 (Z.eqb_neq _ 0)) by (by intros ?%Hend).
    set (d := (blen hist + 207 - offset) mod 4096) in *.
    assert (d ≠ 0) as Hd0 by (by intros ?%Hend). pose proof (Z.mod_pos_bound (blen hist + 207 - offset) 4096 ltac:(lia)).
    destruct (copy_ref_rel raw (Z.to_nat (Z.land b2 15 + 2)) d offset ltac:(lia) (with_in st rest) hist 0
      (rel_in _ _ _ Hrel)) as (st1 & -> & Hrel1 & Hin1).
    { subst d. clear -Hoff. Z.div_mod_to_equations. lia. }
    rewrite bind_Ok. destruct (IH st1 _ Hrel1) as (st2 & -> & H1 & H2 & H3 & H4); [by rewrite Hin1|].
    rewrite Hin1 in H1, H2, H4. exists st2. split_and!; [done|done|done|done|cbn in *; lia].
Qed.

Lemma lz_loop_rel raw : ∀ fuel st hist,
  rel st hist → bytes_ok (lz_in st) → (length (lz_in st) < fuel)%nat →
  ∃ st' hist', lz_loop fuel raw st = Some (Ok st') ∧ ref_loop fuel raw hist (lz_in st) = Some hist' ∧ rel st' hist'.
Proof.
  induction fuel as [|fuel IH]; intros st hist Hrel Hok Hf; [lia|]. cbn [lz_loop ref_loop].
  rewrite (rel_blen_out st hist Hrel). destruct (ref_out hist <? raw); [|by eexists _, _].
  destruct (lz_in st) as [|c rest] eqn:E; [by eexists _, _|]. apply Forall_cons in Hok as [_ Hok].
  destruct (process_bits_rel raw c bit_order (with_in st rest) hist (rel_in _ _ _ Hrel) Hok)
    as (st1 & -> & H1 & H2 & H3 & H4). cbn [with_in lz_in] in *.
  destruct (ref_bits raw c bit_order hist rest) as [h1 i1]. cbn [fst snd] in *.
  destruct (IH st1 h1 H1 H3) as (st2 & h2 & H5 & H6 & H7); [cbn in Hf; lia|].
  rewrite H2 in H6. by exists st2, h2.
Qed.

Lemma rel_init input : rel (lz_init input) init_history.
Proof.
  constructor; [by vm_compute..|]. intros i Hi. change (blen init_history) with 4096 in Hi. unfold maxDictSize in Hi.
  assert (forallb (λ i, bool_decide (lz_dict (lz_init []) !! Z.to_nat ((i + preloadSize) mod maxDictSize)
    = init_history !! Z.to_nat i)) (seqZ 0 4096) = true) as H by (vm_compute; reflexivity).
  rewrite forallb_forall in H. specialize (H i). rewrite <- list_elem_of_In, elem_of_seqZ in H.
  apply bool_decide_eq_true in H; [exact H|lia].
Qed.

(** The output never exceeds the announced size. *)
Lemma ref_copy_out raw n d : ∀ hist, ref_out hist ≤ Z.max 0 raw → ref_out (ref_copy raw n d hist) ≤ Z.max 0 raw.
Proof.
  induction n as [|n IH]; intros hist H; cbn [ref_copy]; [done|].
  destruct (Z.ltb_spec (ref_out hist) raw); [|done]. apply IH.
  unfold ref_out in *. rewrite blen_app, blen_cons, blen_nil. lia.
Qed.
Lemma ref_bits_out raw c bits : ∀ hist inp, ref_out hist ≤ Z.max 0 raw → ref_out (ref_bits raw c bits hist inp).1 ≤ Z.max 0 raw.
Proof.
  induction bits as [|bit bits IH]; intros hist inp H; cbn [ref_bits]; [done|].
  destruct (Z.ltb_spec (ref_out hist) raw); [|done].
  destruct (Z.land c (Z.shiftl 1 bit) =? 0).
  - destruct inp as [|b rest]; [done|]. apply IH. unfold ref_out in *. rewrite blen_app, blen_cons, blen_nil. lia.
  - destruct inp as [|b1 [|b2 rest]]; [done..|]. cbv zeta. destruct (_ =? 0); [done|]. apply IH. by apply ref_copy_out.
Qed.
Lemma ref_loop_out raw fuel : ∀ hist inp h, ref_out hist ≤ Z.max 0 raw → ref_loop fuel raw hist inp = Some h →
  ref_out h ≤ Z.max 0 raw.
Proof.
  induction fuel as [|fuel IH]; intros hist inp h H Hr; cbn [ref_loop] in Hr; [done|].
  destruct (ref_out hist <? raw); [|by simplify_eq]. destruct inp as [|c rest]; [by simplify_eq|].
  pose proof (ref_bits_out raw c bit_order hist rest H). destruct (ref_bits _ _ _ _ _) as [h1 i1]. by eapply IH.
Qed.

Lemma decompressLZFu_ref compressed header :
  bytes_ok compressed →
  ∃ hist, ref_loop (S (length (drop (Z.to_nat headerSize) compressed))) (RawSize header) init_history
            (drop (Z.to_nat headerSize) compressed) = Some hist ∧
    decompressLZFu compressed header = Some (Ok (drop (Z.to_nat maxDictSize) hist)) ∧
    blen (drop (Z.to_nat maxDictSize) hist) ≤ Z.max 0 (RawSize header).
Proof.
  intros Hok. unfold decompressLZFu. set (input := drop (Z.to_nat headerSize) compressed).
  destruct (lz_loop_rel (RawSize header) (S (length input)) (lz_init input) init_history (rel_init input))
    as (st & hist & H1 & H2 & H3); [by apply Forall_drop|cbn; lia|].
  change (lz_in (lz_init input)) with input in H2. exists hist. split; [done|]. rewrite H1. cbn [fmap result_fmap].
  rewrite (rel_out _ _ H3). split; [done|].
  assert (ref_out init_history ≤ Z.max 0 (RawSize header)) as H0 by (change (ref_out init_history) with 0; lia).
  pose proof (ref_loop_out _ _ _ _ _ H0 H2). pose proof (rel_blen_out _ _ H3) as Hb. rewrite (rel_out _ _ H3) in Hb. lia.
Qed.

(** C35: The ring-dictionary decompressor computes exactly what the sliding
    window does: it ends on every input, never indexes out of range, its output
    is the reference decoder's history past the initial dictionary, and it is
    never longer than the announced size. *)
Theorem lzfu_is_sliding_window compressed header :
  bytes_ok compressed →
  ∃ hist, ref_loop (S (length (drop (Z.to_nat headerSize) compressed))) (RawSize header) init_history
            (drop (Z.to_nat headerSize) compressed) = Some hist ∧
    decompressLZFu compressed header = Some (Ok (drop (Z.to_nat maxDictSize) hist)) ∧
    blen (drop (Z.to_nat maxDictSize) hist) ≤ Z.max 0 (RawSize header).
Proof. apply decompressLZFu_ref. Qed.
Lemma lzfu_is_sliding_window_witness :
  let c := zeros 16 ++ [6; 97; 12; 240; 13; 0] in
  ∃ hist, ref_loop (S (length (drop (Z.to_nat headerSize) c))) 20 init_history (drop (Z.to_nat headerSize) c)
          = Some hist ∧
    decompressLZFu c (mkRtfHeader 0 20 0 0) = Some (Ok (drop (Z.to_nat maxDictSize) hist)) ∧
    blen (drop (Z.to_nat maxDictSize) hist) ≤ Z.max 0 20.
Proof.
  intros c. apply (lzfu_is_sliding_window c (mkRtfHeader 0 20 0 0)). apply bytes_okb_true. vm_compute. reflexivity.
Defined.

Lemma ParseHeader_Ok data : headerSize ≤ blen data → ∃ h, ParseHeader data = Ok h ∧
  CompSize h = le_dec (sub data 0 4) ∧ RawSize h = le_dec (sub data 4 4) ∧
  CompType h = le_dec (sub data 8 4) ∧ RtfCRC h = le_dec (sub data 12 4).
Proof.
  unfold headerSize. intros H. unfold ParseHeader, headerSize. rewrite (proj2 (Z.ltb_ge _ _)) by done.
  rewrite !rd_Ok by lia. eexists. split; [reflexivity|done].
Qed.
Lemma rd_sub_bound data off n : bytes_ok data → 0 ≤ le_dec (sub data off n) .
Proof. intros. apply le_dec_bound. auto with pst. Qed.

(** C36: [Decompress] gives a result or an error on every byte string, never a
    panic and never an endless loop, and the result is never longer than the
    size the header announces. *)
Theorem Decompress_total compressed :
  bytes_ok compressed →
  (∃ e, Decompress compressed = Some (Err e)) ∨
  (∃ h out, ParseHeader compressed = Ok h ∧ Decompress compressed = Some (Ok out) ∧ blen out ≤ RawSize h ∧
     (CompType h = MagicCompressed ∨ CompType h = MagicUncompressed)).
Proof.
  intros Hok. unfold Decompress. destruct (Z.ltb_spec (blen compressed) headerSize) as [Hs|Hs].
  { left. unfold ParseHeader. rewrite (proj2 (Z.ltb_lt _ _)) by done. by eexists. }
  destruct (ParseHeader_Ok compressed Hs) as (h & -> & H1 & H2 & H3 & H4).
  assert (0 ≤ RawSize h) as Hraw by (rewrite H2; by apply rd_sub_bound).
  destruct (_ && _); [left; by eexists|].
  destruct (Z.eqb_spec (CompType h) MagicUncompressed) as [Hu|Hu].
  { right. exists h. unfold headerSize in *. cbv zeta. destruct (Z.ltb_spec (blen compressed) (16 + RawSize h)).
    - rewrite slice_Ok by lia. eexists. split; [done|split; [done|]]. split; [|by right]. rewrite blen_sub; lia.
    - rewrite slice_Ok by lia. eexists. split; [done|split; [done|]]. split; [|by right]. rewrite blen_sub; lia. }
  destruct (Z.eqb_spec (CompType h) MagicCompressed) as [Hc|Hc]; [|left; by eexists].
  destruct (decompressLZFu_ref compressed h Hok) as (hist & _ & Hd & Hl). right. exists h. rewrite Hd.
  eexists. split; [done|split; [done|]]. split; [lia|by left].
Qed.
Lemma Decompress_total_witness :
  (∃ e, Decompress [1; 2; 3] = Some (Err e)) ∨
  (∃ h out, ParseHeader [1; 2; 3] = Ok h ∧ Decompress [1; 2; 3] = Some (Ok out) ∧ blen out ≤ RawSize h ∧
     (CompType h = MagicCompressed ∨ CompType h = MagicUncompressed)).
Proof. apply (Decompress_total [1; 2; 3]). apply bytes_okb_true. reflexivity. Defined.

(** ** Literal streams *)

(** A stream of literals: a zero control byte before every eight bytes. *)
Fixpoint literal_stream (n : nat) (data : bytes) : bytes :=
  match n with
  | O => []
  | S n => match data with [] => [] | _ => 0 :: take 8 data ++ literal_stream n (drop 8 data) end
  end.
Definition literal_file (data : bytes) : bytes :=
  let s := literal_stream (length data) data in
  le_enc 4 (blen s + 12) ++ le_enc 4 (blen data) ++ le_enc 4 MagicCompressed ++ le_enc 4 (ComputeCRC s) ++ s.

Lemma ref_bits_literals raw xs : ∀ bits hist rest,
  (length xs ≤ length bits)%nat → ref_out hist + blen xs ≤ raw →
  length xs = length bits ∨ ref_out hist + blen xs = raw →
  ref_bits raw 0 bits hist (xs ++ rest) = (hist ++ xs, rest).
Proof.
  induction xs as [|x xs IH]; intros bits hist rest Hl Hr Hend.
  - rewrite app_nil_r. destruct bits as [|bit bits]; [done|]. cbn [ref_bits app].
    destruct Hend as [|Hend]; [done|]. rewrite (@blen_nil Z) in Hend.
    by rewrite (proj2 (Z.ltb_ge _ _)) by lia.
  - destruct bits as [|bit bits]; [cbn in Hl; lia|]. rewrite blen_cons in *. pose proof (blen_nonneg xs).
    cbn [ref_bits app]. rewrite (proj2 (Z.ltb_lt _ _)) by lia. rewrite Z.land_0_l. cbn [Z.eqb].
    assert (ref_out (hist ++ [x]) = ref_out hist + 1) as E
      by (unfold ref_out; rewrite blen_app, blen_cons, blen_nil; lia).
    rewrite IH by (cbn in *; rewrite ?E; lia). by rewrite <- app_assoc.
Qed.
Lemma ref_loop_literals raw n : ∀ data hist fuel,
  (length data ≤ n)%nat → (n < fuel)%nat → ref_out hist + blen data = raw →
  ref_loop fuel raw hist (literal_stream n data) = Some (hist ++ data).
Proof.
  induction n as [|n IH]; intros data hist fuel Hn Hf Hr; (destruct fuel as [|fuel]; [lia|]).
  - destruct data; [|cbn in Hn; lia]. rewrite (@blen_nil Z) in Hr. cbn [ref_loop literal_stream].
    rewrite (proj2 (Z.ltb_ge _ _)) by lia. by rewrite app_nil_r.
  - cbn [ref_loop literal_stream]. destruct data as [|x data].
    { rewrite (@blen_nil Z) in Hr. rewrite (proj2 (Z.ltb_ge _ _)) by lia. by rewrite app_nil_r. }
    pose proof (blen_nonneg data). rewrite (proj2 (Z.ltb_lt _ _)) by (rewrite blen_cons in Hr; lia).
    assert (blen (take 8 (x :: data)) + blen (drop 8 (x :: data)) = blen (x :: data)) as Hsplit
      by (rewrite <- blen_app, take_drop; done).
    pose proof (blen_nonneg (drop 8 (x :: data))).
    rewrite ref_bits_literals; [|rewrite length_take; cbn [length bit_order]; lia|lia|].
    + rewrite IH; [by rewrite <- app_assoc, take_drop|rewrite length_drop; cbn [length] in *; lia|lia|].
      unfold ref_out in *. rewrite blen_app. lia.
    + destruct (decide (8 ≤ length (x :: data))%nat).
      * left. rewrite length_take. cbn [bit_order length] in *. lia.
      * right. rewrite take_ge by lia. done.
Qed.
Lemma length_literal_stream n : ∀ data, (length data ≤ n)%nat → (length data ≤ length (literal_stream n data))%nat.
Proof.
  induction n as [|n IH]; intros data Hn; [lia|]. cbn [literal_stream]. destruct data as [|x data]; [cbn; lia|].
  specialize (IH (drop 8 (x :: data))). rewrite length_drop in IH.
  cbn [length]. rewrite (length_app (take 8 (x :: data))), length_take.
  cbn [length] in *. lia.
Qed.
Lemma literal_stream_ok n : ∀ data, bytes_ok data → bytes_ok (literal_stream n data).
Proof.
  induction n as [|n IH]; intros data Hd; cbn [literal_stream]; [done|]. destruct data; [done|].
  constructor; [done|]. apply Forall_app. split; [by apply Forall_take|apply IH; by apply Forall_drop].
Qed.

(** Data stored as literals is decompressed to itself. *)
Theorem literal_roundtrip data :
  bytes_ok data → blen (literal_file data) < 2 ^ 32 → Decompress (literal_file data) = Some (Ok data).
Proof.
  intros Hok Hmax. set (s := literal_stream (length data) data). pose proof (blen_nonneg s).
  assert (blen (literal_file data) = 16 + blen s) as Hl by (unfold literal_file; fold s; blia).
  pose proof (length_literal_stream (length data) data ltac:(lia)) as Hls. fold s in Hls.
  assert (blen data ≤ blen s) by (unfold blen; lia). pose proof (blen_nonneg data).
  unfold Decompress. destruct (ParseHeader_Ok (literal_file data)) as (h & -> & P1 & P2 & P3 & P4);
    [unfold headerSize; lia|].
  assert (CompSize h = blen s + 12) as E1.
  { rewrite P1. unfold literal_file. fold s. buf_fields. apply le_dec_enc_fits. unfold fits. lia. }
  assert (RawSize h = blen data) as E2.
  { rewrite P2. unfold literal_file. fold s. buf_fields. apply le_dec_enc_fits. unfold fits. lia. }
  assert (CompType h = MagicCompressed) as E3.
  { rewrite P3. unfold literal_file. fold s. buf_fields. by apply le_dec_enc_fits. }
  rewrite E1, E3, Hl, (proj2 (Z.ltb_ge _ (blen s + 12))), andb_false_r by lia.
  change (MagicCompressed =? MagicUncompressed) with false. rewrite Z.eqb_refl. cbv iota.
  assert (bytes_ok (literal_file data)) as Hf.
  { unfold literal_file. fold s. repeat (apply Forall_app; split); auto with pst. by apply literal_stream_ok. }
  destruct (decompressLZFu_ref (literal_file data) h Hf) as (hist & Hr & -> & _).
  assert (drop (Z.to_nat headerSize) (literal_file data) = s) as Hd.
  { unfold literal_file. fold s. rewrite !app_assoc. apply drop_app_length'.
    rewrite !length_app, !length_le_enc. done. }
  rewrite Hd, E2 in Hr. subst s. rewrite ref_loop_literals in Hr by (done || lia).
  assert (hist = init_history ++ data) as -> by (apply (f_equal (default [])) in Hr; symmetry; exact Hr).
  rewrite drop_app_length'; done.
Qed.
Lemma literal_roundtrip_witness :
  Decompress (literal_file [123; 92; 114; 116; 102; 49; 32; 104; 105; 125]) = Some (Ok [123; 92; 114; 116; 102; 49; 32; 104; 105; 125]).
Proof. apply (literal_roundtrip [123; 92; 114; 116; 102; 49; 32; 104; 105; 125]); [apply bytes_okb_true; reflexivity|by vm_compute]. Defined.

(** ** What the header fields do not do *)

(** The checksum field plays no part in decompression: any other value in
    bytes 12 to 15 of the input gives the same outcome. *)
Theorem checksum_ignored pre crc crc' rest :
  blen pre = 12 → blen crc = 4 → blen crc' = 4 →
  Decompress (pre ++ crc ++ rest) = Decompress (pre ++ crc' ++ rest).
Proof.
  intros Hp H1 H2. pose proof (blen_nonneg rest).
  assert (∀ c, blen c = 4 → ∃ h, ParseHeader (pre ++ c ++ rest) = Ok h ∧
    CompSize h = le_dec (sub pre 0 4) ∧ RawSize h = le_dec (sub pre 4 4) ∧ CompType h = le_dec (sub pre 8 4)) as HP.
  { intros c Hc. destruct (ParseHeader_Ok (pre ++ c ++ rest)) as (h & P1 & P2 & P3 & P4 & _);
      [unfold headerSize; rewrite !blen_app; lia|].
    exists h. split; [done|]. rewrite P2, P3, P4, !(sub_app_l pre) by lia. done. }
  destruct (HP crc H1) as (h & E & S1 & S2 & S3), (HP crc' H2) as (h' & E' & S1' & S2' & S3').
  unfold Decompress. rewrite E, E'. cbv iota beta zeta.
  assert (∀ c, blen c = 4 → drop (Z.to_nat headerSize) (pre ++ c ++ rest) = rest) as Hd.
  { intros c Hc. rewrite app_assoc. apply drop_app_length'. unfold headerSize, blen in *. rewrite length_app. lia. }
  assert (∀ c, blen c = 4 → blen (pre ++ c ++ rest) = 16 + blen rest) as Hl by (intros c Hc; rewrite !blen_app; lia).
  rewrite !Hl, S1, S1', S3, S3', S2, S2' by done.
  destruct (_ && _); [done|]. destruct (_ =? MagicUncompressed).
  - destruct (16 + blen rest <? _); unfold slice; rewrite !Hl by done;
    (destruct (_ && _); [|done];
    unfold sub; by rewrite !Hd by done).
  - destruct (_ =? MagicCompressed); [|done]. unfold decompressLZFu. by rewrite !Hd, S2, S2' by done.
Qed.
Lemma checksum_ignored_witness :
  Decompress ([18; 0; 0; 0; 1; 0; 0; 0; 76; 90; 70; 117] ++ [0; 0; 0; 0] ++ [0; 97])
  = Decompress ([18; 0; 0; 0; 1; 0; 0; 0; 76; 90; 70; 117] ++ [1; 2; 3; 4] ++ [0; 97]).
Proof. apply (checksum_ignored [18; 0; 0; 0; 1; 0; 0; 0; 76; 90; 70; 117] [0; 0; 0; 0] [1; 2; 3; 4] [0; 97]); done. Defined.

(** A reference to the write position: the end marker of the format. *)
Definition end_marker (pos : Z) : bytes := [Z.shiftr pos 4; Z.shiftl (Z.land pos 15) 4].

(** The end marker ends a group of eight tokens, not the stream: a literal
    in the group after it is still decoded. *)
Theorem end_marker_not_final b c :
  decompressLZFu (zeros 16 ++ [2; b] ++ end_marker 208 ++ [0; c]) (mkRtfHeader 0 2 MagicCompressed 0)
  = Some (Ok [b; c]).
Proof. vm_compute. reflexivity. Qed.

(** ** The checksum *)

(** CRC-32 one bit at a time. *)
Definition crc_serial (data : bytes) : Z := foldl (λ c b, Nat.iter 8 crc_bit (Z.lxor c b)) 0 data.

Lemma crc_bit_lxor a b : crc_bit (Z.lxor a b) = Z.lxor (crc_bit a) (crc_bit b).
Proof.
  unfold crc_bit. rewrite Z.lxor_spec, Z.shiftr_lxor.
  destruct (Z.testbit a 0), (Z.testbit b 0); cbn [xorb];
    apply Z.bits_inj'; intros i Hi; rewrite ?Z.lxor_spec; repeat destruct (Z.testbit _ _); done.
Qed.
Lemma crc_iter_lxor n a b : Nat.iter n crc_bit (Z.lxor a b) = Z.lxor (Nat.iter n crc_bit a) (Nat.iter n crc_bit b).
Proof. induction n as [|n IH]; [done|]. rewrite !Nat.iter_succ, IH. apply crc_bit_lxor. Qed.
Lemma crc_iter_shift n x : Nat.iter n crc_bit (Z.shiftl x (Z.of_nat n)) = x.
Proof.
  revert x. induction n as [|n IH]; intros x; [by rewrite Z.shiftl_0_r|].
  rewrite Nat.iter_succ_r. replace (crc_bit (Z.shiftl x (Z.of_nat (S n)))) with (Z.shiftl x (Z.of_nat n)); [apply IH|].
  unfold crc_bit. rewrite Z.shiftl_spec_low by lia. rewrite Z.shiftr_shiftl_l by lia. f_equal. lia.
Qed.
(** A byte-wide step of the register is a table lookup. *)
Lemma crc_iter_byte x : 0 ≤ x → Nat.iter 8 crc_bit x = Z.lxor (Z.shiftr x 8) (crc_entry (u8 x)).
Proof.
  intros Hx. unfold crc_entry.
  replace x with (Z.lxor (u8 x) (Z.shiftl (Z.shiftr x 8) 8)) at 1.
  - rewrite crc_iter_lxor. change 8 with (Z.of_nat 8) at 3. rewrite crc_iter_shift. apply Z.lxor_comm.
  - rewrite Z.lxor_lor by (apply land_shiftl_0; [lia|apply u8_range]).
    rewrite lor_shiftl by (done || apply u8_range). rewrite shiftr_div by done. unfold u8.
    pose proof (Z_div_mod_eq_full x 256). change (2 ^ 8) with 256. lia.
Qed.
Lemma rtf_table i : is_byte i → at256 crcTable i = crc_entry i.
Proof.
  intros Hi. pose proof (byte_forall (λ i, at256 crcTable i =? crc_entry i) ltac:(by vm_compute) i Hi) as H.
  by apply Z.eqb_eq.
Qed.

(** The table-driven checksum is the reflected CRC-32 with polynomial
    0xEDB88320, initial value 0 and no final inversion, of every byte string,
    and it fits in 32 bits. *)
Theorem rtf_crc_is_crc32 data :
  bytes_ok data → ComputeCRC data = crc_serial data ∧ fits 32 (ComputeCRC data).
Proof.
  intros Hd. unfold ComputeCRC, crc_serial.
  assert (∀ c, fits 32 c →
    foldl (λ crc b, Z.lxor (Z.shiftr crc 8) (at256 crcTable (Z.land (Z.lxor crc b) 255))) c data
    = foldl (λ c b, Nat.iter 8 crc_bit (Z.lxor c b)) c data ∧
    fits 32 (foldl (λ c b, Nat.iter 8 crc_bit (Z.lxor c b)) c data)) as H.
  2:{ destruct (H 0) as [-> ?]; [done|]. done. }
  induction Hd as [|b r Hb Hr IH]; intros c Hc; cbn [foldl]; [done|].
  assert (fits 32 (Z.lxor c b)) as Hx.
  { apply fits_lxor; [lia|done|]. unfold fits, is_byte in *. lia. }
  assert (is_byte (Z.land (Z.lxor c b) 255)) as Hi by (change 255 with (Z.ones 8); rewrite land_low by done; apply u8_range).
  replace (Z.lxor (Z.shiftr c 8) (at256 crcTable (Z.land (Z.lxor c b) 255))) with (Nat.iter 8 crc_bit (Z.lxor c b)).
  - apply IH. rewrite crc_iter_byte by apply Hx. apply fits_lxor; [lia|by apply fits_shiftr|].
    rewrite <- rtf_table by apply u8_range. apply at256_fits; [by vm_compute|apply u8_range].
  - rewrite crc_iter_byte by apply Hx. rewrite rtf_table by done. change 255 with (Z.ones 8).
    rewrite land_low by done. f_equal. rewrite Z.shiftr_lxor.
    replace (Z.shiftr b 8) with 0; [by rewrite Z.lxor_0_r|].
    symmetry. unfold is_byte in Hb. rewrite shiftr_div by done. by apply Z.div_small.
Qed.
Lemma rtf_crc_is_crc32_witness :
  ComputeCRC [123; 92; 114] = crc_serial [123; 92; 114] ∧ fits 32 (ComputeCRC [123; 92; 114]).
Proof. apply (rtf_crc_is_crc32 [123; 92; 114]). apply bytes_okb_true. reflexivity. Defined.
