(* ===== verification/Database.v ===== *)
(** * The open database ([pkg/ndb/database.go])

    The handle on an open file: its contents, the in-memory header, the lazily
    loaded B-tree roots, the lookup caches and the ID counters, with the
    lookups, block reads and low-level writes. *)
From S2P Require Import Prelude Format Codec Ids Crypt Page Block Header State.

(** ** Data *)
Record NodeInfo := mkNodeInfo { NI_NID : Z; NI_DataBID : Z; NI_SubBID : Z; NI_ParentNID : Z }.
Record BlockInfo := mkBlockInfo { BI_BID : Z; BI_Location : Z; BI_Size : Z; BI_RefCount : Z }.
#[export] Instance NodeInfo_eq_dec : EqDecision NodeInfo.
Proof. solve_decision. Defined.

(** A root page behind its [sync.Once]: whether the load ran, and the page
    pointer ([None] is nil). *)
Record Root_ := mkOnce { once_done : bool; once_page : option BTPage }.
Record Database := mkDB {
  db_file : bytes; db_header : Header;
  db_nbtRoot : Root_; db_bbtRoot : Root_;
  db_nodeCache : gmap Z NodeInfo; db_blockCache : gmap Z BlockInfo;
  db_readOnly : bool; db_dirty : bool; db_nextBID : Z; db_nextNID : Z }.

Definition set_file (db : Database) f := mkDB f (db_header db) (db_nbtRoot db) (db_bbtRoot db)
  (db_nodeCache db) (db_blockCache db) (db_readOnly db) (db_dirty db) (db_nextBID db) (db_nextNID db).
Definition set_header (db : Database) h := mkDB (db_file db) h (db_nbtRoot db) (db_bbtRoot db)
  (db_nodeCache db) (db_blockCache db) (db_readOnly db) (db_dirty db) (db_nextBID db) (db_nextNID db).
Definition set_roots (db : Database) n b := mkDB (db_file db) (db_header db) n b
  (db_nodeCache db) (db_blockCache db) (db_readOnly db) (db_dirty db) (db_nextBID db) (db_nextNID db).
Definition set_caches (db : Database) n b := mkDB (db_file db) (db_header db) (db_nbtRoot db) (db_bbtRoot db)
  n b (db_readOnly db) (db_dirty db) (db_nextBID db) (db_nextNID db).
Definition set_dirty (db : Database) d := mkDB (db_file db) (db_header db) (db_nbtRoot db) (db_bbtRoot db)
  (db_nodeCache db) (db_blockCache db) (db_readOnly db) d (db_nextBID db) (db_nextNID db).
Definition set_next (db : Database) b n := mkDB (db_file db) (db_header db) (db_nbtRoot db) (db_bbtRoot db)
  (db_nodeCache db) (db_blockCache db) (db_readOnly db) (db_dirty db) b n.

Inductive OpenMode := OpenModeReadOnly | OpenModeReadWrite.
Definition not_loaded : Root_ := mkOnce false None.

(** [OpenWithMode] on a file of the given contents that the system opened. *)
Definition OpenWithMode (file : bytes) (mode : OpenMode) : result Database :=
  header ← wrap_err "failed to read header" (ReadHeader file);
  mret (mkDB file header not_loaded not_loaded ∅ ∅
    (match mode with OpenModeReadOnly => true | OpenModeReadWrite => false end) false (BidNextB header) 0).

Definition db_Format (db : Database) : PSTFormat := HFormat (db_header db).
Definition db_CryptMethod (db : Database) : Z := BCryptMethod (db_header db).

(** ** Reading pages *)

(** [file.ReadAt(buf, int64(offset))] with a buffer of [n] bytes. *)
Definition read_at (file : bytes) (offset n : Z) : result bytes :=
  if 2 ^ 63 <=? offset then Err (EFmt "negative offset" []) else Ok (sub file offset n).
Definition readPage (file : bytes) (offset : Z) : result bytes :=
  buf ← wrap_err "failed to read page at offset %d" (read_at file offset PageSize);
  if negb (blen buf =? PageSize)
  then Err (EFmt "incomplete page read: got %d bytes, expected %d" [blen buf; PageSize]) else mret buf.
(** The pair of calls that every descent makes on a child reference. *)
Definition child_page (file : bytes) (format : PSTFormat) (pageType : Z) (ref : BlockReference) : result BTPage :=
  data ← readPage file (BR_IB ref); ParseBTPage data format pageType.

(** The root loaders: [Once.Do] runs its function at most once, and an error
    is reported to the first caller only. *)
Definition loadNBTRoot : ST Database unit := λ db,
  if once_done (db_nbtRoot db) then (db, Ok tt) else
  let ref := NBTRoot (db_header db) in
  match wrap_err "failed to read NBT root page" (readPage (db_file db) (BR_IB ref)) with
  | Ok data =>
    match wrap_err "failed to parse NBT root page" (ParseBTPage data (db_Format db) PageTypeNBT) with
    | Ok p => (set_roots db (mkOnce true (Some p)) (db_bbtRoot db), Ok tt)
    | Err e => (set_roots db (mkOnce true None) (db_bbtRoot db), Err e)
    | Panic => (set_roots db (mkOnce true (once_page (db_nbtRoot db))) (db_bbtRoot db), Panic)
    end
  | Err e => (set_roots db (mkOnce true (once_page (db_nbtRoot db))) (db_bbtRoot db), Err e)
  | Panic => (db, Panic)
  end.
Definition loadBBTRoot : ST Database unit := λ db,
  if once_done (db_bbtRoot db) then (db, Ok tt) else
  let ref := BBTRoot (db_header db) in
  match wrap_err "failed to read BBT root page" (readPage (db_file db) (BR_IB ref)) with
  | Ok data =>
    match wrap_err "failed to parse BBT root page" (ParseBTPage data (db_Format db) PageTypeBBT) with
    | Ok p => (set_roots db (db_nbtRoot db) (mkOnce true (Some p)), Ok tt)
    | Err e => (set_roots db (db_nbtRoot db) (mkOnce true None), Err e)
    | Panic => (set_roots db (db_nbtRoot db) (mkOnce true (once_page (db_bbtRoot db))), Panic)
    end
  | Err e => (set_roots db (db_nbtRoot db) (mkOnce true (once_page (db_bbtRoot db))), Err e)
  | Panic => (db, Panic)
  end.

(** ** Searching *)

(** The scan over the entries of a non-leaf page: index of the last entry before
    the first one whose key exceeds [id], [found] being the index so far. *)
Fixpoint scan_child (key : Z → Z) (entries : list BTNonleafEntry) (id : Z) (found : option BTNonleafEntry)
    : option BTNonleafEntry :=
  match entries with
  | [] => found
  | e :: entries => if key (KE_Key e) <=? id then scan_child key entries id (Some e) else found
  end.

Fixpoint find_NBT (entries : list NBTLeafEntry) (nid : Z) : result NodeInfo :=
  match entries with
  | [] => Err (EFmt "node not found: 0x%X" [nid])
  | e :: entries =>
    if NE_NID e =? nid then Ok (mkNodeInfo (u32 (NE_NID e)) (NE_DataBID e) (NE_SubBID e) (NE_ParentNID e))
    else find_NBT entries nid
  end.
(** [&^ 0x2] *)
Definition clear2 (bid : Z) : Z := Z.ldiff bid 0x2.
Fixpoint find_BBT (entries : list BBTLeafEntry) (bid : Z) : result BlockInfo :=
  match entries with
  | [] => Err (EFmt "block not found: 0x%X" [bid])
  | e :: entries =>
    if clear2 (BR_BID (BE_BRef e)) =? bid
    then Ok (mkBlockInfo (BR_BID (BE_BRef e)) (BR_IB (BE_BRef e)) (BE_Size e) (BE_RefCount e))
    else find_BBT entries bid
  end.

(** The recursive searches.  [depth] is the depth of the call stack: running out
    of it is the crash that unbounded recursion ends in. *)
Fixpoint searchNBT (depth : nat) (file : bytes) (format : PSTFormat) (page : BTPage) (nid : Z) : result NodeInfo :=
  match depth with
  | O => Panic
  | S depth =>
    if IsLeaf page then find_NBT (BP_NBTEntries page) nid
    else match scan_child (λ k, k) (BP_NonleafEntries page) nid None with
         | None => Err (EFmt "node not found: 0x%X (key less than all entries)" [nid])
         | Some e =>
           childPage ← child_page file format PageTypeNBT (KE_Ref e);
           searchNBT depth file format childPage nid
         end
  end.
Fixpoint searchBBT (depth : nat) (file : bytes) (format : PSTFormat) (page : BTPage) (bid : Z) : result BlockInfo :=
  match depth with
  | O => Panic
  | S depth =>
    if IsLeaf page then find_BBT (BP_BBTEntries page) bid
    else match scan_child clear2 (BP_NonleafEntries page) bid None with
         | None => Err (EFmt "block not found: 0x%X (key less than all entries)" [bid])
         | Some e =>
           childPage ← child_page file format PageTypeBBT (KE_Ref e);
           searchBBT depth file format childPage bid
         end
  end.

(** Dereferencing a nil page panics. *)
Definition deref {A} (p : option A) : result A := match p with Some p => Ok p | None => Panic end.

Section lookups.
(** Depth of the call stack. *)
Context (depth : nat).

Definition LookupNode (nid : Z) : ST Database NodeInfo :=
  do db <- get;
  match db_nodeCache db !! nid with
  | Some info => mret info
  | None =>
    loadNBTRoot ;;
    do db <- get;
    do page <- lift (deref (once_page (db_nbtRoot db)));
    do info <- lift (searchNBT depth (db_file db) (db_Format db) page nid);
    modify (λ db, set_caches db (<[nid := info]> (db_nodeCache db)) (db_blockCache db)) ;;
    mret info
  end.
Definition LookupBlock (bid : Z) : ST Database BlockInfo :=
  let lookupBID := clear2 bid in
  do db <- get;
  match db_blockCache db !! lookupBID with
  | Some info => mret info
  | None =>
    loadBBTRoot ;;
    do db <- get;
    do page <- lift (deref (once_page (db_bbtRoot db)));
    do info <- lift (searchBBT depth (db_file db) (db_Format db) page lookupBID);
    modify (λ db, set_caches db (db_nodeCache db) (<[lookupBID := info]> (db_blockCache db))) ;;
    mret info
  end.

(** ** Reading blocks *)
Definition ReadBlockDataFromInfo (db : Database) (info : BlockInfo) : result bytes :=
  let trailerSize := if is_Unicode (db_Format db) then BlockTrailerSizeUnicode else BlockTrailerSizeANSI in
  let alignedSize := AlignDisk (BI_Size info) in
  let totalSize := u64 (alignedSize + trailerSize) in
  buf ← wrap_err "failed to read block at offset %d" (read_at (db_file db) (BI_Location info) totalSize);
  if blen buf <? totalSize
  then Err (EFmt "incomplete block read: got %d bytes, expected %d" [blen buf; totalSize]) else
  data ← slice buf 0 (BI_Size info);
  mret (decryptData data (BI_BID info) (db_CryptMethod db)).
Definition ReadBlockData (bid : Z) : ST Database bytes :=
  do info <- LookupBlock bid;
  do db <- get;
  lift (ReadBlockDataFromInfo db info).
End lookups.

(** ** ID counters, caches *)
Definition AllocateBlockID : ST Database Z :=
  do db <- get;
  modify (λ db, set_next db (u64 (db_nextBID db + 4)) (db_nextNID db)) ;; mret (db_nextBID db).
Definition AllocateInternalBlockID : ST Database Z :=
  do db <- get;
  modify (λ db, set_next db (u64 (db_nextBID db + 4)) (db_nextNID db)) ;; mret (Z.lor (db_nextBID db) 0x2).
Definition NextBlockID (db : Database) : Z := db_nextBID db.
Definition InvalidateCache (db : Database) : Database := set_caches db ∅ ∅.
Definition ReloadBTrees (db : Database) : Database := set_roots db not_loaded not_loaded.

(** ** Writing *)
Definition WritePage (offset : Z) (data : bytes) : ST Database unit := λ db,
  if db_readOnly db then (db, Err (EFmt "database is read-only" [])) else
  if negb (blen data =? PageSize)
  then (db, Err (EFmt "invalid page size: got %d, expected %d" [blen data; PageSize])) else
  if 2 ^ 63 <=? offset then (db, Err (EWrap "failed to write page at offset %d" (EFmt "negative offset" []))) else
  (set_file db (write_at offset data (db_file db)), Ok tt).
Definition WriteBlock (offset : Z) (data : bytes) : ST Database unit := λ db,
  if db_readOnly db then (db, Err (EFmt "database is read-only" [])) else
  if 2 ^ 63 <=? offset then (db, Err (EWrap "failed to write block at offset %d" (EFmt "negative offset" []))) else
  (set_file db (write_at offset data (db_file db)), Ok tt).
(** [disk.WriteHeader(db.file, db.header)], which also updates the checksums of
    the shared header. *)
Definition writeHeader : ST Database unit := λ db,
  match WriteHeader (db_file db) (db_header db) with
  | Ok (f, h) => (set_header (set_file db f) h, Ok tt)
  | Err e => (db, Err e)
  | Panic => (db, Panic)
  end.

(** ** The search against the in-order entry list *)

(** Both searches are the same descent over different leaf entries; the section
    states it once.  [mk] is the record a hit returns, [none] and [below] the two
    errors. *)
Section search.
Context {E I : Type} (pt : Z) (leaf : BTPage → list E) (ekey : E → Z) (nkey : Z → Z)
  (mk : E → I) (none below : Z → error).

Definition lookup_entry (l : list E) (id : Z) : option E := List.find (λ x, ekey x =? id) l.
Definition found_or (l : list E) (id : Z) : result I :=
  match lookup_entry l id with Some x => Ok (mk x) | None => Err (none id) end.

Fixpoint bt_search (depth : nat) (file : bytes) (format : PSTFormat) (page : BTPage) (id : Z) : result I :=
  match depth with
  | O => Panic
  | S depth =>
    if IsLeaf page then found_or (leaf page) id
    else match scan_child nkey (BP_NonleafEntries page) id None with
         | None => Err (below id)
         | Some e => child ← child_page file format pt (KE_Ref e); bt_search depth file format child id
         end
  end.

(** [tree n p l]: the pages reachable from [p] form a tree of height at most
    [n] whose leaf entries in order are [l], and every non-leaf key is a lower
    bound of the entries below it and exceeds all entries to its left. *)
Inductive tree (file : bytes) (format : PSTFormat) : nat → BTPage → list E → Prop :=
| tree_leaf n p : IsLeaf p = true → tree file format (S n) p (leaf p)
| tree_node n p ls : IsLeaf p = false → kids file format n (BP_NonleafEntries p) ls →
    tree file format (S n) p (concat ls)
with kids (file : bytes) (format : PSTFormat) : nat → list BTNonleafEntry → list (list E) → Prop :=
| kids_nil n : kids file format n [] []
| kids_cons n e es c l ls :
    child_page file format pt (KE_Ref e) = Ok c → tree file format n c l → kids file format n es ls →
    (∀ x, x ∈ l → nkey (KE_Key e) ≤ ekey x) →
    (∀ x e', x ∈ l → e' ∈ es → ekey x < nkey (KE_Key e')) →
    (∀ e', e' ∈ es → nkey (KE_Key e) < nkey (KE_Key e')) →
    kids file format n (e :: es) (l :: ls).

Lemma lookup_app l k id :
  lookup_entry (l ++ k) id = match lookup_entry l id with Some x => Some x | None => lookup_entry k id end.
Proof. unfold lookup_entry. induction l as [|x l IH]; cbn; [done|]. by destruct (ekey x =? id). Qed.
Lemma lookup_none l id : (∀ x, x ∈ l → ekey x ≠ id) → lookup_entry l id = None.
Proof.
  unfold lookup_entry. induction l as [|x l IH]; intros H; cbn; [done|].
  rewrite (proj2 (Z.eqb_neq _ _)) by (apply H; left). apply IH. intros y Hy. apply H. by right.
Qed.

(** Entries of later children are at or above the later keys. *)
Lemma kids_above file format n es ls k :
  kids file format n es ls → (∀ e, e ∈ es → k < nkey (KE_Key e)) → ∀ x, x ∈ concat ls → k < ekey x.
Proof.
  intros Hk. induction Hk as [|n e es c l ls Hc Ht Hk IH Hlow Hup Hkeys]; intros H x Hx; [by apply not_elem_of_nil in Hx|].
  cbn [concat] in Hx. apply elem_of_app in Hx as [Hx|Hx].
  - specialize (H e ltac:(left)). specialize (Hlow x Hx). lia.
  - apply IH; [|done]. intros e' He'. apply H. by right.
Qed.

Lemma kids_scan file format n es ls id found :
  kids file format n es ls →
  match scan_child nkey es id found with
  | Some e => (Some e = found ∧ lookup_entry (concat ls) id = None) ∨
      (e ∈ es ∧ nkey (KE_Key e) ≤ id) ∧
      ∃ c l, child_page file format pt (KE_Ref e) = Ok c ∧ tree file format n c l ∧
        lookup_entry (concat ls) id = lookup_entry l id
  | None => found = None ∧ lookup_entry (concat ls) id = None
  end.
Proof.
  intros Hk. revert found.
  induction Hk as [n|n e es c l ls Hc Ht Hk IH Hlow Hup Hkeys]; intros found.
  { cbn [scan_child]. destruct found; [by left|done]. }
  cbn [scan_child concat]. destruct (Z.leb_spec (nkey (KE_Key e)) id) as [Hle|Hgt].
  - specialize (IH (Some e)). destruct (scan_child nkey es id (Some e)) as [e'|] eqn:Es; [|naive_solver].
    right. destruct IH as [[[= ->] Hno]|([Hin Hle'] & c' & l' & Hc' & Ht' & Heq)].
    + split; [split; [left|done]|]. exists c, l. split; [done|split; [done|]].
      rewrite lookup_app, Hno. by destruct (lookup_entry l id).
    + split; [split; [by right|done]|]. exists c', l'. split; [done|split; [done|]]. rewrite lookup_app.
      rewrite lookup_none; [done|]. intros x Hx <-. specialize (Hup x e' Hx Hin). lia.
  - assert (lookup_entry (l ++ concat ls) id = None) as Hno.
    { apply lookup_none. intros x Hx <-. apply elem_of_app in Hx as [Hx|Hx].
      - specialize (Hlow x Hx). lia.
      - assert (nkey (KE_Key e) < ekey x); [|lia]. by eapply kids_above. }
    destruct found; [by left|done].
Qed.

Lemma bt_search_tree file format n p l :
  tree file format n p l → ∀ depth id, (n ≤ depth)%nat →
  match lookup_entry l id with
  | Some x => bt_search depth file format p id = Ok (mk x)
  | None => bt_search depth file format p id = Err (none id) ∨ bt_search depth file format p id = Err (below id)
  end.
Proof.
  revert p l. induction n as [|n IH]; intros p l Ht depth id Hd; [inversion Ht|].
  destruct depth as [|depth]; [lia|]. inversion Ht as [n' p' Hl|n' p' ls Hl Hk]; subst; cbn [bt_search]; rewrite Hl.
  - unfold found_or. destruct (lookup_entry (leaf p) id); [done|by left].
  - pose proof (kids_scan _ _ _ _ _ id None Hk) as Hs.
    destruct (scan_child nkey (BP_NonleafEntries p) id None) as [e|].
    + destruct Hs as [[]|(_ & c & k & Hc & Htc & ->)]; [done|]. rewrite Hc, bind_Ok.
      apply IH; [done|lia].
    + destruct Hs as [_ ->]. by right.
Qed.
End search.

Definition nbt_info (e : NBTLeafEntry) : NodeInfo :=
  mkNodeInfo (u32 (NE_NID e)) (NE_DataBID e) (NE_SubBID e) (NE_ParentNID e).
Definition bbt_info (e : BBTLeafEntry) : BlockInfo :=
  mkBlockInfo (BR_BID (BE_BRef e)) (BR_IB (BE_BRef e)) (BE_Size e) (BE_RefCount e).
Definition bbt_key (e : BBTLeafEntry) : Z := clear2 (BR_BID (BE_BRef e)).
Definition nbt_tree : bytes → PSTFormat → nat → BTPage → list NBTLeafEntry → Prop :=
  tree PageTypeNBT BP_NBTEntries NE_NID (λ k, k).
Definition bbt_tree : bytes → PSTFormat → nat → BTPage → list BBTLeafEntry → Prop :=
  tree PageTypeBBT BP_BBTEntries bbt_key clear2.

Lemma find_NBT_found l nid :
  find_NBT l nid = found_or NE_NID nbt_info (λ id, EFmt "node not found: 0x%X" [id]) l nid.
Proof. unfold found_or, lookup_entry. induction l as [|e l IH]; cbn; [done|]. by destruct (NE_NID e =? nid). Qed.
Lemma find_BBT_found l bid :
  find_BBT l bid = found_or bbt_key bbt_info (λ id, EFmt "block not found: 0x%X" [id]) l bid.
Proof.
  unfold found_or, lookup_entry. induction l as [|e l IH]; cbn; [done|]. unfold bbt_key at 1.
  by destruct (clear2 (BR_BID (BE_BRef e)) =? bid).
Qed.
Lemma searchNBT_bt depth file format : ∀ p nid, searchNBT depth file format p nid
  = bt_search PageTypeNBT BP_NBTEntries NE_NID (λ k, k) nbt_info (λ id, EFmt "node not found: 0x%X" [id])
      (λ id, EFmt "node not found: 0x%X (key less than all entries)" [id]) depth file format p nid.
Proof.
  induction depth as [|d IH]; intros p nid; cbn [searchNBT bt_search]; [done|]. rewrite find_NBT_found.
  destruct (IsLeaf p); [done|]. destruct (scan_child _ _ _ _); [|done].
  destruct (child_page _ _ _ _); cbn; [apply IH|done|done].
Qed.
Lemma searchBBT_bt depth file format : ∀ p bid, searchBBT depth file format p bid
  = bt_search PageTypeBBT BP_BBTEntries bbt_key clear2 bbt_info (λ id, EFmt "block not found: 0x%X" [id])
      (λ id, EFmt "block not found: 0x%X (key less than all entries)" [id]) depth file format p bid.
Proof.
  induction depth as [|d IH]; intros p bid; cbn [searchBBT bt_search]; [done|]. rewrite find_BBT_found.
  destruct (IsLeaf p); [done|]. destruct (scan_child _ _ _ _); [|done].
  destruct (child_page _ _ _ _); cbn; [apply IH|done|done].
Qed.


(** A small tree in a file: two leaf pages under a root. *)
Definition ok_or {A} (d : A) (r : result A) : A := match r with Ok a => a | _ => d end.
Definition sample_nbt_file : bytes :=
  ok_or [] (BuildBTPage (NewNBTLeafPage [mkNBTLeaf 33 4 0 0; mkNBTLeaf 65 8 0 33] 0) FormatANSI)
  ++ ok_or [] (BuildBTPage (NewNBTLeafPage [mkNBTLeaf 97 12 0 33] 512) FormatANSI).
Definition sample_bbt_file : bytes :=
  ok_or [] (BuildBTPage (NewBBTLeafPage [mkBBTLeaf (mkBRef 4 0x4600) 10 1; mkBBTLeaf (mkBRef 10 0x4800) 20 1] 0) FormatANSI)
  ++ ok_or [] (BuildBTPage (NewBBTLeafPage [mkBBTLeaf (mkBRef 14 0x4a00) 30 1] 512) FormatANSI).
Definition sample_root (pt k0 k1 : Z) : BTPage :=
  NewBTNonleafPage [mkNonleaf k0 (mkBRef 0 0); mkNonleaf k1 (mkBRef 512 512)] 1 pt 1024.
Definition sample_child (file : bytes) (pt off : Z) : BTPage :=
  ok_or (NewNBTLeafPage [] 0) (child_page file FormatANSI pt (mkBRef off off)).

(** Check a property of the members of closed lists. *)
Ltac check_elems :=
  intros; cbn [NewBTNonleafPage sample_root BP_NonleafEntries] in *;
  repeat match goal with
    | H : _ ∈ _ :: _ |- _ => apply elem_of_cons in H as [->|H]
    | H : _ ∈ [] |- _ => by apply not_elem_of_nil in H
    end; by vm_compute.

Lemma sample_nbt_tree :
  nbt_tree sample_nbt_file FormatANSI 2 (sample_root PageTypeNBT 33 97)
    [mkNBTLeaf 33 4 0 0; mkNBTLeaf 65 8 0 33; mkNBTLeaf 97 12 0 33].
Proof.
  change [mkNBTLeaf 33 4 0 0; mkNBTLeaf 65 8 0 33; mkNBTLeaf 97 12 0 33]
    with (concat [[mkNBTLeaf 33 4 0 0; mkNBTLeaf 65 8 0 33]; [mkNBTLeaf 97 12 0 33]]).
  assert (∀ off l, IsLeaf (sample_child sample_nbt_file PageTypeNBT off) = true →
    BP_NBTEntries (sample_child sample_nbt_file PageTypeNBT off) = l →
    nbt_tree sample_nbt_file FormatANSI 1 (sample_child sample_nbt_file PageTypeNBT off) l) as Hl.
  { intros off l Hlf <-. by apply tree_leaf. }
  apply tree_node; [done|]. eapply kids_cons; [vm_compute; reflexivity|apply (Hl 0); vm_compute; reflexivity| | | |].
  - eapply kids_cons; [vm_compute; reflexivity|apply (Hl 512); vm_compute; reflexivity|apply kids_nil| | |]; check_elems.
  - check_elems.
  - check_elems.
  - check_elems.
Qed.

Lemma sample_bbt_tree :
  bbt_tree sample_bbt_file FormatANSI 2 (sample_root PageTypeBBT 4 14)
    [mkBBTLeaf (mkBRef 4 0x4600) 10 1; mkBBTLeaf (mkBRef 10 0x4800) 20 1; mkBBTLeaf (mkBRef 14 0x4a00) 30 1].
Proof.
  change [mkBBTLeaf (mkBRef 4 0x4600) 10 1; mkBBTLeaf (mkBRef 10 0x4800) 20 1; mkBBTLeaf (mkBRef 14 0x4a00) 30 1]
    with (concat [[mkBBTLeaf (mkBRef 4 0x4600) 10 1; mkBBTLeaf (mkBRef 10 0x4800) 20 1];
                  [mkBBTLeaf (mkBRef 14 0x4a00) 30 1]]).
  assert (∀ off l, IsLeaf (sample_child sample_bbt_file PageTypeBBT off) = true →
    BP_BBTEntries (sample_child sample_bbt_file PageTypeBBT off) = l →
    bbt_tree sample_bbt_file FormatANSI 1 (sample_child sample_bbt_file PageTypeBBT off) l) as Hl.
  { intros off l Hlf <-. by apply tree_leaf. }
  apply tree_node; [done|]. eapply kids_cons; [vm_compute; reflexivity|apply (Hl 0); vm_compute; reflexivity| | | |].
  - eapply kids_cons; [vm_compute; reflexivity|apply (Hl 512); vm_compute; reflexivity|apply kids_nil| | |]; check_elems.
  - check_elems.
  - check_elems.
  - check_elems.
Qed.

(** C21: On a node B-tree whose non-leaf keys are the minimum keys of their
    subtrees, the search agrees with a linear search of the in-order leaf
    entries: it returns the first entry with the node ID when there is one and
    an error otherwise, with a call stack no deeper than the tree. *)
Theorem searchNBT_complete file format n page l depth nid :
  nbt_tree file format n page l → (n ≤ depth)%nat →
  match lookup_entry NE_NID l nid with
  | Some e => searchNBT depth file format page nid = Ok (nbt_info e)
  | None => ∃ e, searchNBT depth file format page nid = Err e
  end.
Proof.
  intros Ht Hd. rewrite searchNBT_bt.
  pose proof (bt_search_tree PageTypeNBT BP_NBTEntries NE_NID (λ k, k) nbt_info (λ id, EFmt "node not found: 0x%X" [id])
      (λ id, EFmt "node not found: 0x%X (key less than all entries)" [id]) file format n page l Ht depth nid Hd) as H.
  destruct (lookup_entry _ _ _); [done|]. destruct H as [-> | ->]; by eexists.
Qed.

Lemma searchNBT_complete_witness :
  match lookup_entry NE_NID [mkNBTLeaf 33 4 0 0; mkNBTLeaf 65 8 0 33; mkNBTLeaf 97 12 0 33] 65 with
  | Some e => searchNBT 2 sample_nbt_file FormatANSI (sample_root PageTypeNBT 33 97) 65 = Ok (nbt_info e)
  | None => ∃ e, searchNBT 2 sample_nbt_file FormatANSI (sample_root PageTypeNBT 33 97) 65 = Err e
  end.
Proof. exact (searchNBT_complete _ _ _ _ _ 2 65 sample_nbt_tree (le_n 2)). Defined.

(** The block search likewise agrees with a linear search by block ID with
    the internal bit cleared. *)
Theorem searchBBT_complete file format n page l depth bid :
  bbt_tree file format n page l → (n ≤ depth)%nat →
  match lookup_entry bbt_key l bid with
  | Some e => searchBBT depth file format page bid = Ok (bbt_info e)
  | None => ∃ e, searchBBT depth file format page bid = Err e
  end.
Proof.
  intros Ht Hd. rewrite searchBBT_bt.
  pose proof (bt_search_tree PageTypeBBT BP_BBTEntries bbt_key clear2 bbt_info (λ id, EFmt "block not found: 0x%X" [id])
      (λ id, EFmt "block not found: 0x%X (key less than all entries)" [id]) file format n page l Ht depth bid Hd) as H.
  destruct (lookup_entry _ _ _); [done|]. destruct H as [-> | ->]; by eexists.
Qed.
Lemma searchBBT_complete_witness :
  match lookup_entry bbt_key
      [mkBBTLeaf (mkBRef 4 0x4600) 10 1; mkBBTLeaf (mkBRef 10 0x4800) 20 1; mkBBTLeaf (mkBRef 14 0x4a00) 30 1] 8 with
  | Some e => searchBBT 2 sample_bbt_file FormatANSI (sample_root PageTypeBBT 4 14) 8 = Ok (bbt_info e)
  | None => ∃ e, searchBBT 2 sample_bbt_file FormatANSI (sample_root PageTypeBBT 4 14) 8 = Err e
  end.
Proof. exact (searchBBT_complete _ _ _ _ _ 2 8 sample_bbt_tree (le_n 2)). Defined.

(** ** Failing loads and cyclic pages *)

(** When the root page of the node tree cannot be read or parsed, the first
    lookup reports the error and the next one, for any node not in the cache,
    dereferences the nil root and panics: the load runs only once. *)
Theorem failed_root_load_then_panic db depth nid nid' e db1 :
  db_nbtRoot db = not_loaded → db_nodeCache db !! nid = None → db_nodeCache db !! nid' = None →
  loadNBTRoot db = (db1, Err e) →
  LookupNode depth nid db = (db1, Err e) ∧ LookupNode depth nid' db1 = (db1, Panic).
Proof.
  intros Hr Hn Hn' He.
  assert (db_nodeCache db1 = db_nodeCache db ∧ db_nbtRoot db1 = mkOnce true None) as [Hc1 Hr1].
  { revert He. unfold loadNBTRoot. rewrite Hr. cbn [once_done not_loaded once_page].
    destruct (wrap_err _ _); [destruct (wrap_err _ _)|..]; intros; by simplify_eq. }
  unfold LookupNode. split.
  - rewrite (st_bind_Ok _ _ db db db) by done. cbv beta. rewrite Hn. by apply st_bind_Err.
  - rewrite (st_bind_Ok _ _ db1 db1 db1) by done. cbv beta. rewrite Hc1, Hn'.
    rewrite (st_bind_Ok _ _ db1 db1 tt); [|unfold loadNBTRoot; by rewrite Hr1].
    rewrite (st_bind_Ok _ _ db1 db1 db1) by done. cbv beta. rewrite Hr1. done.
Qed.
Definition sample_db (file : bytes) (h : Header) : Database :=
  mkDB file h not_loaded not_loaded ∅ ∅ false false 4 0.
Lemma failed_root_load_then_panic_witness :
  let db := sample_db [1; 2; 3] (NewHeader FormatANSI ClientMagicPST) in
  let db1 := set_roots db (mkOnce true None) not_loaded in
  let e := EWrap "failed to read NBT root page" (EFmt "incomplete page read: got %d bytes, expected %d" [3; 512]) in
  LookupNode 5 33 db = (db1, Err e) ∧ LookupNode 5 65 db1 = (db1, Panic).
Proof.
  intros db db1 e. apply (failed_root_load_then_panic db 5 33 65 e db1); [done|done|done|vm_compute; reflexivity].
Defined.

(** A non-leaf page that the search reaches again through the reference it
    selects is searched without end: no call stack is deep enough. *)
Theorem search_cycle_diverges file format page nid e depth :
  IsLeaf page = false → scan_child (λ k, k) (BP_NonleafEntries page) nid None = Some e →
  child_page file format PageTypeNBT (KE_Ref e) = Ok page →
  searchNBT depth file format page nid = Panic.
Proof.
  intros Hl Hs Hc. induction depth as [|d IH]; cbn [searchNBT]; [done|]. by rewrite Hl, Hs, Hc, bind_Ok.
Qed.
Definition cyclic_page : BTPage := NewBTNonleafPage [mkNonleaf 0 (mkBRef 0 0)] 1 PageTypeNBT 0.
Definition cyclic_file : bytes := ok_or [] (BuildBTPage cyclic_page FormatANSI).
Lemma search_cycle_diverges_witness :
  let page := ok_or cyclic_page (child_page cyclic_file FormatANSI PageTypeNBT (mkBRef 0 0)) in
  searchNBT 1000 cyclic_file FormatANSI page 33 = Panic.
Proof.
  intros page. apply (search_cycle_diverges cyclic_file FormatANSI page 33 (mkNonleaf 0 (mkBRef 0 0)));
    vm_compute; reflexivity.
Defined.

(** ** Blocks in the file *)
Lemma read_write_at off data file :
  0 ≤ off → sub (write_at off data file) off (blen data) = data.
Proof.
  intros Ho. unfold write_at. pose proof (blen_nonneg data). pose proof (blen_nonneg file).
  apply sub_splice_eq; [done| |done]. rewrite blen_app, blen_zeros. lia.
Qed.
Lemma blen_write_at off data file :
  0 ≤ off → blen (write_at off data file) = Z.max (blen file) (off + blen data).
Proof.
  intros Ho. unfold write_at. rewrite blen_splice, blen_app, blen_zeros.
  pose proof (blen_nonneg data). lia.
Qed.
(** Windows a write does not touch. *)
Lemma write_at_frame off data file a n :
  0 ≤ off → 0 ≤ a → 0 ≤ n → a + n ≤ blen file → a + n ≤ off ∨ off + blen data ≤ a →
  sub (write_at off data file) a n = sub file a n.
Proof.
  intros Ho Ha Hn Hl Hd. unfold write_at. pose proof (blen_nonneg data). pose proof (blen_nonneg file).
  assert (blen (file ++ zeros (off + blen data - blen file)) = Z.max (blen file) (off + blen data)) as E
    by (rewrite blen_app, blen_zeros; lia).
  destruct Hd.
  - rewrite sub_splice_before by lia. by apply sub_app_l.
  - rewrite sub_splice_after by lia. by apply sub_app_l.
Qed.

(** Size of a block on disk as the reader computes it. *)
Definition read_span (db : Database) (info : BlockInfo) : Z :=
  u64 (AlignDisk (BI_Size info) + if is_Unicode (db_Format db) then BlockTrailerSizeUnicode else BlockTrailerSizeANSI).

(** Reading a block depends on its window of the file only. *)
Lemma ReadBlockDataFromInfo_window db db' info :
  db_header db' = db_header db →
  sub (db_file db') (BI_Location info) (read_span db info) = sub (db_file db) (BI_Location info) (read_span db info) →
  ReadBlockDataFromInfo db' info = ReadBlockDataFromInfo db info.
Proof.
  intros Hh Hs. unfold ReadBlockDataFromInfo, read_at, read_span, db_Format, db_CryptMethod in *. rewrite Hh.
  destruct (2 ^ 63 <=? BI_Location info); [done|]. cbn [wrap_err]. rewrite !bind_Ok. by rewrite Hs.
Qed.

(** A block built for an offset and written there is read back, and
    decrypted, as the data it was built from, and every other block of the file
    whose bytes it does not overlap reads as before.  (Cyclic encryption of
    external blocks is the exception: its decoder does not invert it.) *)
Theorem block_write_read db data bid off rc raw :
  db_readOnly db = false → 0 ≤ off < 2 ^ 63 → known (db_Format db) →
  bytes_ok data → blen data ≤ MaxDataBlockSizeUnicode →
  db_CryptMethod db ≠ CryptMethodCyclic ∨ IsInternal bid = true →
  BuildBlock data bid off (db_Format db) (db_CryptMethod db) = Ok raw →
  ∃ db', WriteBlock off raw db = (db', Ok tt) ∧
    ReadBlockDataFromInfo db' (mkBlockInfo bid off (blen data) rc) = Ok data ∧
    ∀ info, 0 ≤ BI_Location info → BI_Location info + read_span db info ≤ blen (db_file db) →
      BI_Location info + read_span db info ≤ off ∨ off + blen raw ≤ BI_Location info →
      ReadBlockDataFromInfo db' info = ReadBlockDataFromInfo db info.
Proof.
  intros Hro Hoff Hk Hd Hl Hc HB. pose proof (blen_nonneg data).
  unfold WriteBlock. rewrite Hro, (proj2 (Z.leb_gt _ _)) by lia. eexists. split; [done|].
  destruct (BuildBlock_layout data bid off (db_Format db) (db_CryptMethod db) Hk Hl) as [Hp HB'].
  rewrite HB in HB'. injection HB' as ->.
  set (payload := stored _ _ _ ++ _) in *. set (tr := enc_blockTrailer _ _ _ _ _) in *.
  destruct (AlignDisk_block (blen data)) as [Ha _]; [lia|].
  assert (blen tr = blockTrailerSize (db_Format db)) as Ht by (subst tr; destruct (db_Format db); done).
  assert (blen (payload ++ tr) = AlignDisk (blen data) + blockTrailerSize (db_Format db)) as Hr by (rewrite blen_app; lia).
  assert ((if is_Unicode (db_Format db) then BlockTrailerSizeUnicode else BlockTrailerSizeANSI)
          = blockTrailerSize (db_Format db)) as Etr by (destruct (db_Format db); done).
  assert (0 < blockTrailerSize (db_Format db) < 100) as Hpos by (destruct (db_Format db); done).
  assert (∀ info, 0 ≤ read_span db info) as Hspan by (intros; apply u64_range).
  split.
  - unfold ReadBlockDataFromInfo. cbn [BI_Size BI_BID BI_Location set_file db_Format db_header db_file].
    unfold db_CryptMethod, db_Format in *. cbn [set_file db_header]. rewrite Etr, u64_small by lia.
    unfold read_at. rewrite (proj2 (Z.leb_gt _ _)) by lia. cbn [wrap_err]. rewrite bind_Ok.
    rewrite <- Hr, read_write_at by lia. rewrite (proj2 (Z.ltb_ge _ _)) by lia.
    rewrite slice_Ok by lia. rewrite bind_Ok, mret_Ok, Z.sub_0_r. f_equal.
    rewrite sub_app_l by lia. unfold payload. rewrite sub_app_l by blia.
    rewrite sub_all by blia. by apply decryptData_stored.
  - intros info H0 Hin Hdis. apply ReadBlockDataFromInfo_window; [done|]. cbn [set_file db_file].
    apply write_at_frame; [lia|lia|apply Hspan|lia|done].
Qed.
Lemma block_write_read_witness :
  let db := sample_db (zeros 64) (NewHeader FormatANSI ClientMagicPST) in
  let raw := ok_or [] (BuildBlock [1; 2; 250] 4 64 FormatANSI CryptMethodPermute) in
  ∃ db', WriteBlock 64 raw db = (db', Ok tt) ∧
    ReadBlockDataFromInfo db' (mkBlockInfo 4 64 (blen [1; 2; 250]) 1) = Ok [1; 2; 250] ∧
    ∀ info, 0 ≤ BI_Location info → BI_Location info + read_span db info ≤ blen (db_file db) →
      BI_Location info + read_span db info ≤ 64 ∨ 64 + blen raw ≤ BI_Location info →
      ReadBlockDataFromInfo db' info = ReadBlockDataFromInfo db info.
Proof.
  intros db raw. apply (block_write_read db [1; 2; 250] 4 64 1 raw).
  - done.
  - by vm_compute.
  - done.
  - apply bytes_okb_true. reflexivity.
  - by vm_compute.
  - left. done.
  - vm_compute. reflexivity.
Defined.

(** ** The caches *)
Lemma loadNBTRoot_Ok db p :
  db_nbtRoot db = not_loaded → child_page (db_file db) (db_Format db) PageTypeNBT (NBTRoot (db_header db)) = Ok p →
  loadNBTRoot db = (set_roots db (mkOnce true (Some p)) (db_bbtRoot db), Ok tt).
Proof.
  intros Hr. unfold child_page, loadNBTRoot. rewrite Hr. cbn [once_done not_loaded].
  destruct (readPage _ _) as [d|e|]; cbn [wrap_err]; [|done..]. rewrite bind_Ok. by intros ->.
Qed.
Lemma loadBBTRoot_Ok db p :
  db_bbtRoot db = not_loaded → child_page (db_file db) (db_Format db) PageTypeBBT (BBTRoot (db_header db)) = Ok p →
  loadBBTRoot db = (set_roots db (db_nbtRoot db) (mkOnce true (Some p)), Ok tt).
Proof.
  intros Hr. unfold child_page, loadBBTRoot. rewrite Hr. cbn [once_done not_loaded].
  destruct (readPage _ _) as [d|e|]; cbn [wrap_err]; [|done..]. rewrite bind_Ok. by intros ->.
Qed.

(** A database whose roots, loaded or not, are the given pages, and whose caches
    hold only what the trees hold. *)
Definition root_is (r : Root_) (found : result BTPage) (p : BTPage) : Prop :=
  r = not_loaded ∧ found = Ok p ∨ r = mkOnce true (Some p).
Record coherent (depth : nat) (np bp : BTPage) (db : Database) : Prop := {
  co_nbt : root_is (db_nbtRoot db) (child_page (db_file db) (db_Format db) PageTypeNBT (NBTRoot (db_header db))) np;
  co_bbt : root_is (db_bbtRoot db) (child_page (db_file db) (db_Format db) PageTypeBBT (BBTRoot (db_header db))) bp;
  co_nodes : ∀ k i, db_nodeCache db !! k = Some i → searchNBT depth (db_file db) (db_Format db) np k = Ok i;
  co_blocks : ∀ k i, db_blockCache db !! k = Some i → searchBBT depth (db_file db) (db_Format db) bp k = Ok i }.
(** What lookups leave alone. *)
Definition same_store (db db' : Database) : Prop :=
  db_file db' = db_file db ∧ db_header db' = db_header db ∧ db_readOnly db' = db_readOnly db ∧
  db_dirty db' = db_dirty db ∧ db_nextBID db' = db_nextBID db ∧ db_nextNID db' = db_nextNID db.
#[export] Instance same_store_preorder : PreOrder same_store.
Proof. split; [by intros ?|]. intros x y z (?&?&?&?&?&?) (?&?&?&?&?&?). unfold same_store. split_and!; congruence. Qed.

Lemma LookupBlock_coherent depth np bp bid db :
  coherent depth np bp db →
  ∃ db', LookupBlock depth bid db = (db', searchBBT depth (db_file db) (db_Format db) bp (clear2 bid)) ∧
    coherent depth np bp db' ∧ same_store db db'.
Proof.
  intros Hc. pose proof Hc as [Hn Hb Hcn Hcb]. unfold LookupBlock. cbv zeta.
  rewrite (st_bind_Ok get _ db db db) by done. cbv beta.
  destruct (db_blockCache db !! clear2 bid) as [i|] eqn:E; [by exists db; rewrite (Hcb _ _ E)|].
  assert (∃ db1, loadBBTRoot db = (db1, Ok tt) ∧ db_bbtRoot db1 = mkOnce true (Some bp) ∧ same_store db db1 ∧
    db_nbtRoot db1 = db_nbtRoot db ∧ db_nodeCache db1 = db_nodeCache db ∧ db_blockCache db1 = db_blockCache db)
    as (db1 & Hl & Hr & Hs & E1 & E2 & E3).
  { destruct Hb as [[Hb Hp]|Hb].
    - rewrite (loadBBTRoot_Ok db bp Hb Hp). eexists. split; [reflexivity|]. done.
    - exists db. split; [unfold loadBBTRoot; by rewrite Hb|]. done. }
  pose proof Hs as (F1 & F2 & _). assert (db_Format db1 = db_Format db) as F3 by (unfold db_Format; by rewrite F2).
  assert (coherent depth np bp db1) as Hc1.
  { split; rewrite ?F1, ?F3, ?F2, ?E1, ?E2, ?E3; [done|by right|done|done]. }
  rewrite (st_bind_Ok _ _ db db1 tt) by done. rewrite (st_bind_Ok get _ db1 db1 db1) by done. cbv beta.
  rewrite Hr. rewrite (st_bind_Ok _ _ db1 db1 bp) by done. rewrite F1, F3.
  destruct (searchBBT depth (db_file db) (db_Format db) bp (clear2 bid)) as [i|e|] eqn:ES; [|by exists db1..].
  rewrite (st_bind_Ok _ _ db1 db1 i) by done. eexists. split; [reflexivity|]. split; [|done].
  destruct Hc1 as [C1 C2 C3 C4]. split; [done..|]. cbn. intros k j [[<- <-]|[_ H]]%lookup_insert_Some.
  - change (searchBBT depth (db_file db1) (db_Format db1) bp (clear2 bid) = Ok i). by rewrite F1, F3.
  - by apply C4.
Qed.
Lemma LookupNode_coherent depth np bp nid db :
  coherent depth np bp db →
  ∃ db', LookupNode depth nid db = (db', searchNBT depth (db_file db) (db_Format db) np nid) ∧
    coherent depth np bp db' ∧ same_store db db'.
Proof.
  intros Hc. pose proof Hc as [Hn Hb Hcn Hcb]. unfold LookupNode.
  rewrite (st_bind_Ok get _ db db db) by done. cbv beta.
  destruct (db_nodeCache db !! nid) as [i|] eqn:E; [by exists db; rewrite (Hcn _ _ E)|].
  assert (∃ db1, loadNBTRoot db = (db1, Ok tt) ∧ db_nbtRoot db1 = mkOnce true (Some np) ∧ same_store db db1 ∧
    db_bbtRoot db1 = db_bbtRoot db ∧ db_nodeCache db1 = db_nodeCache db ∧ db_blockCache db1 = db_blockCache db)
    as (db1 & Hl & Hr & Hs & E1 & E2 & E3).
  { destruct Hn as [[Hn Hp]|Hn].
    - rewrite (loadNBTRoot_Ok db np Hn Hp). eexists. split; [reflexivity|]. done.
    - exists db. split; [unfold loadNBTRoot; by rewrite Hn|]. done. }
  pose proof Hs as (F1 & F2 & _). assert (db_Format db1 = db_Format db) as F3 by (unfold db_Format; by rewrite F2).
  assert (coherent depth np bp db1) as Hc1.
  { split; rewrite ?F1, ?F3, ?F2, ?E1, ?E2, ?E3; [by right|done|done|done]. }
  rewrite (st_bind_Ok _ _ db db1 tt) by done. rewrite (st_bind_Ok get _ db1 db1 db1) by done. cbv beta.
  rewrite Hr. rewrite (st_bind_Ok _ _ db1 db1 np) by done. rewrite F1, F3.
  destruct (searchNBT depth (db_file db) (db_Format db) np nid) as [i|e|] eqn:ES; [|by exists db1..].
  rewrite (st_bind_Ok _ _ db1 db1 i) by done. eexists. split; [reflexivity|]. split; [|done].
  destruct Hc1 as [C1 C2 C3 C4]. split; [done..| |done]. cbn. intros k j [[<- <-]|[_ H]]%lookup_insert_Some.
  - change (searchNBT depth (db_file db1) (db_Format db1) np nid = Ok i). by rewrite F1, F3.
  - by apply C3.
Qed.

(** One lookup of a sequence. *)
Inductive lookup_step (depth : nat) : Database → Database → Prop :=
  | step_node db nid : lookup_step depth db (LookupNode depth nid db).1
  | step_block db bid : lookup_step depth db (LookupBlock depth bid db).1.

(** The caches are transparent: starting from a freshly opened database
    whose root pages can be read, any sequence of node and block lookups, hits
    and misses, leaves every further lookup answering exactly as a search of the
    tree in the file, and changes nothing but the caches and the loaded roots. *)
Theorem caches_transparent depth np bp db db' nid bid :
  db_nbtRoot db = not_loaded → db_bbtRoot db = not_loaded → db_nodeCache db = ∅ → db_blockCache db = ∅ →
  child_page (db_file db) (db_Format db) PageTypeNBT (NBTRoot (db_header db)) = Ok np →
  child_page (db_file db) (db_Format db) PageTypeBBT (BBTRoot (db_header db)) = Ok bp →
  rtc (lookup_step depth) db db' →
  (LookupNode depth nid db').2 = searchNBT depth (db_file db) (db_Format db) np nid ∧
  (LookupBlock depth bid db').2 = searchBBT depth (db_file db) (db_Format db) bp (clear2 bid) ∧
  same_store db db'.
Proof.
  intros Hn Hb Hnc Hbc Hnp Hbp Hs.
  assert (coherent depth np bp db) as Hc.
  { split; [by left|by left|rewrite Hnc; done|rewrite Hbc; done]. }
  assert (coherent depth np bp db' ∧ same_store db db') as [Hc' Hss].
  { clear - Hs Hc. induction Hs as [|x y z Hxy _ IH]; [done|].
    assert (coherent depth np bp y ∧ same_store x y) as [Hy Hxy'].
    { destruct Hxy as [x nid|x bid].
      - by destruct (LookupNode_coherent depth np bp nid x Hc) as (y & -> & ? & ?).
      - by destruct (LookupBlock_coherent depth np bp bid x Hc) as (y & -> & ? & ?). }
    destruct (IH Hy) as [? ?]. split; [done|]. by etrans. }
  pose proof Hss as (F1 & F2 & _). unfold db_Format in *.
  destruct (LookupNode_coherent depth np bp nid db' Hc') as (y & -> & _).
  destruct (LookupBlock_coherent depth np bp bid db' Hc') as (z & -> & _).
  unfold db_Format. by rewrite F1, F2.
Qed.
(** Two one-page trees in a file. *)
Definition sample_leaves_file : bytes :=
  ok_or [] (BuildBTPage (NewNBTLeafPage [mkNBTLeaf 33 4 0 0; mkNBTLeaf 65 8 0 33] 0) FormatANSI)
  ++ ok_or [] (BuildBTPage (NewBBTLeafPage [mkBBTLeaf (mkBRef 4 0x4600) 10 1; mkBBTLeaf (mkBRef 10 0x4800) 20 1] 512) FormatANSI).
Definition sample_leaves_db : Database :=
  sample_db sample_leaves_file (UpdateBTreeRoots (NewHeader FormatANSI ClientMagicPST) (mkBRef 0 0) (mkBRef 512 512)).
Lemma caches_transparent_witness :
  let np := sample_child sample_leaves_file PageTypeNBT 0 in
  let bp := sample_child sample_leaves_file PageTypeBBT 512 in
  let db' := (LookupNode 1 33 sample_leaves_db).1 in
  (LookupNode 1 65 db').2 = searchNBT 1 sample_leaves_file FormatANSI np 65 ∧
  (LookupBlock 1 11 db').2 = searchBBT 1 sample_leaves_file FormatANSI bp (clear2 11) ∧ same_store sample_leaves_db db'.
Proof.
  intros np bp db'. refine (caches_transparent 1 np bp sample_leaves_db db' 65 11 _ _ _ _ _ _ _).
  - done.
  - done.
  - done.
  - done.
  - vm_compute; reflexivity.
  - vm_compute; reflexivity.
  - apply rtc_once. apply (step_node 1 sample_leaves_db 33).
Defined.
