(* ===== verification/BTree.v ===== *)
(** * Rebuilding the B-trees ([pkg/ndb/btree_write.go])

    Queued inserts and deletes of both trees, the collection of the current
    entries, their merge, and the bottom-up construction of new pages. *)
From S2P Require Import Prelude Format Codec Ids Page Header AMap State Database.

(** ** The writer

    [w_db] and [w_amap] are the database and the map the writer shares with its
    transaction. *)
Record BTWriter := mkBTWriter {
  w_db : Database; w_amap : AMapManager;
  w_nbtInserts : gmap Z NodeInfo; w_nbtDeletes : gset Z;
  w_bbtInserts : gmap Z BlockInfo; w_bbtDeletes : gset Z;
  w_newNBTRoot : option BTPage; w_newBBTRoot : option BTPage }.
Definition NewBTWriter (db : Database) (amap : AMapManager) : BTWriter := mkBTWriter db amap ∅ ∅ ∅ ∅ None None.

Definition w_set_db (w : BTWriter) db := mkBTWriter db (w_amap w) (w_nbtInserts w) (w_nbtDeletes w)
  (w_bbtInserts w) (w_bbtDeletes w) (w_newNBTRoot w) (w_newBBTRoot w).
Definition w_set_amap (w : BTWriter) m := mkBTWriter (w_db w) m (w_nbtInserts w) (w_nbtDeletes w)
  (w_bbtInserts w) (w_bbtDeletes w) (w_newNBTRoot w) (w_newBBTRoot w).
Definition w_set_nbt (w : BTWriter) i d := mkBTWriter (w_db w) (w_amap w) i d
  (w_bbtInserts w) (w_bbtDeletes w) (w_newNBTRoot w) (w_newBBTRoot w).
Definition w_set_bbt (w : BTWriter) i d := mkBTWriter (w_db w) (w_amap w) (w_nbtInserts w) (w_nbtDeletes w)
  i d (w_newNBTRoot w) (w_newBBTRoot w).
Definition w_set_roots (w : BTWriter) n b := mkBTWriter (w_db w) (w_amap w) (w_nbtInserts w) (w_nbtDeletes w)
  (w_bbtInserts w) (w_bbtDeletes w) n b.

Definition on_db {A} (m : ST Database A) : ST BTWriter A := zoom w_db w_set_db m.
(** [w.amap.Allocate(size)] *)
Definition allocate (size : Z) : ST BTWriter Z := λ w,
  match Allocate (w_amap w) size with
  | Ok (off, m) => (w_set_amap w m, Ok off)
  | Err e => (w, Err e)
  | Panic => (w, Panic)
  end.

(** ** Queuing changes *)
Definition InsertNode (info : NodeInfo) : ST BTWriter unit := λ w,
  let nid := NI_NID info in
  match w_nbtInserts w !! nid with
  | Some _ => (w, Err (EFmt "node 0x%X already queued for insertion" [nid]))
  | None =>
    let d := if decide (nid ∈ w_nbtDeletes w) then w_nbtDeletes w ∖ {[nid]} else w_nbtDeletes w in
    (w_set_nbt w (<[nid := info]> (w_nbtInserts w)) d, Ok tt)
  end.
Definition DeleteNode (nid : Z) : ST BTWriter unit := λ w,
  if decide (nid ∈ w_nbtDeletes w) then (w, Err (EFmt "node 0x%X already queued for deletion" [nid])) else
  match w_nbtInserts w !! nid with
  | Some _ => (w_set_nbt w (delete nid (w_nbtInserts w)) (w_nbtDeletes w), Ok tt)
  | None => (w_set_nbt w (w_nbtInserts w) ({[nid]} ∪ w_nbtDeletes w), Ok tt)
  end.
Definition InsertBlock (info : BlockInfo) : ST BTWriter unit := λ w,
  let lookupBID := clear2 (BI_BID info) in
  match w_bbtInserts w !! lookupBID with
  | Some _ => (w, Err (EFmt "block 0x%X already queued for insertion" [BI_BID info]))
  | None =>
    let d := if decide (lookupBID ∈ w_bbtDeletes w) then w_bbtDeletes w ∖ {[lookupBID]} else w_bbtDeletes w in
    (w_set_bbt w (<[lookupBID := info]> (w_bbtInserts w)) d, Ok tt)
  end.
Definition DeleteBlock (bid : Z) : ST BTWriter unit := λ w,
  let lookupBID := clear2 bid in
  if decide (lookupBID ∈ w_bbtDeletes w) then (w, Err (EFmt "block 0x%X already queued for deletion" [bid])) else
  match w_bbtInserts w !! lookupBID with
  | Some _ => (w_set_bbt w (delete lookupBID (w_bbtInserts w)) (w_bbtDeletes w), Ok tt)
  | None => (w_set_bbt w (w_bbtInserts w) ({[lookupBID]} ∪ w_bbtDeletes w), Ok tt)
  end.
Definition HasChanges (w : BTWriter) : bool :=
  negb (bool_decide (w_nbtInserts w = ∅ ∧ w_nbtDeletes w = ∅ ∧ w_bbtInserts w = ∅ ∧ w_bbtDeletes w = ∅)).
Definition Reset (w : BTWriter) : BTWriter := mkBTWriter (w_db w) (w_amap w) ∅ ∅ ∅ ∅ None None.

(** ** Collecting the current entries *)
Fixpoint collectNBTEntries (depth : nat) (file : bytes) (format : PSTFormat) (page : BTPage) : result (list NBTLeafEntry) :=
  match depth with
  | O => Panic
  | S depth =>
    if IsLeaf page then mret (BP_NBTEntries page)
    else foldl (λ acc child,
           entries ← acc;
           childPage ← child_page file format PageTypeNBT (KE_Ref child);
           childEntries ← collectNBTEntries depth file format childPage;
           mret (entries ++ childEntries)) (mret []) (BP_NonleafEntries page)
  end.
Fixpoint collectBBTEntries (depth : nat) (file : bytes) (format : PSTFormat) (page : BTPage) : result (list BBTLeafEntry) :=
  match depth with
  | O => Panic
  | S depth =>
    if IsLeaf page then mret (BP_BBTEntries page)
    else foldl (λ acc child,
           entries ← acc;
           childPage ← child_page file format PageTypeBBT (KE_Ref child);
           childEntries ← collectBBTEntries depth file format childPage;
           mret (entries ++ childEntries)) (mret []) (BP_NonleafEntries page)
  end.

(** ** Merging the changes

    The source appends the queued inserts in map order, which Go leaves
    unspecified, and sorts; [inserts] is that order. *)
Definition entry_of_node (info : NodeInfo) : NBTLeafEntry :=
  mkNBTLeaf (NI_NID info) (NI_DataBID info) (NI_SubBID info) (NI_ParentNID info).
Definition entry_of_block (info : BlockInfo) : BBTLeafEntry :=
  mkBBTLeaf (mkBRef (BI_BID info) (BI_Location info)) (BI_Size info) (BI_RefCount info).
Definition nid_le (a b : NBTLeafEntry) : Prop := NE_NID a ≤ NE_NID b.
Definition bid_le (a b : BBTLeafEntry) : Prop := BR_BID (BE_BRef a) ≤ BR_BID (BE_BRef b).
#[export] Instance nid_le_dec : RelDecision nid_le.
Proof. intros a b. unfold nid_le. apply _. Defined.
#[export] Instance bid_le_dec : RelDecision bid_le.
Proof. intros a b. unfold bid_le. apply _. Defined.

Definition merge_nbt (entries : list NBTLeafEntry) (deletes : gset Z) (inserts : list NodeInfo) : list NBTLeafEntry :=
  merge_sort nid_le (filter (λ e, u32 (NE_NID e) ∉ deletes) entries ++ map entry_of_node inserts).
Definition merge_bbt (entries : list BBTLeafEntry) (deletes : gset Z) (inserts : list BlockInfo) : list BBTLeafEntry :=
  merge_sort bid_le (filter (λ e, clear2 (BR_BID (BE_BRef e)) ∉ deletes) entries ++ map entry_of_block inserts).

(** ** Building pages *)
(** Allocate a page, build it at that offset and write it there. *)
Definition place_page (mk : Z → BTPage) : ST BTWriter (BTPage * BlockReference) :=
  do offset <- allocate PageSize;
  let bid := offset in
  let page := mk bid in
  do w <- get;
  do pageData <- lift (BuildBTPage page (db_Format (w_db w)));
  on_db (WritePage offset pageData) ;;
  mret (page, mkBRef bid offset).
Definition createNBTLeafPage (entries : list NBTLeafEntry) : ST BTWriter BlockReference :=
  do r <- place_page (NewNBTLeafPage entries);
  modify (λ w, w_set_roots w (Some r.1) (w_newBBTRoot w)) ;; mret r.2.
Definition createBBTLeafPage (entries : list BBTLeafEntry) : ST BTWriter BlockReference :=
  do r <- place_page (NewBBTLeafPage entries);
  modify (λ w, w_set_roots w (w_newNBTRoot w) (Some r.1)) ;; mret r.2.

(** A page reference with the key its parent files it under: the maximum key of
    the subtree. *)
Definition keyed : Type := BlockReference * Z.
Definition nonleaf_entry (c : keyed) : BTNonleafEntry := mkNonleaf c.2 c.1.
Definition last_key (l : list keyed) : Z := match last l with Some c => c.2 | None => 0 end.

(** The recursion over levels; each level is shorter, [depth] bounds it. *)
Fixpoint buildNonleafLevels (depth : nat) (pageType : Z) (children : list keyed) (level : Z) : ST BTWriter BlockReference :=
  match depth with
  | O => lift Panic
  | S depth =>
    match children with
    | [c] => mret c.1
    | _ =>
      do w <- get;
      let maxEntriesPerPage :=
        if is_ANSI (db_Format (w_db w)) then MaxBTPageEntriesNonleafANSI else MaxBTPageEntriesNonleafUnicode in
      do parents <- mapM_st (λ group,
          do r <- place_page (NewBTNonleafPage (map nonleaf_entry group) level pageType);
          mret (r.2, last_key group)) (chunks maxEntriesPerPage children);
      buildNonleafLevels depth pageType parents (level + 1)
    end
  end.
Definition buildNBTNonleafLevels depth := buildNonleafLevels depth PageTypeNBT.
Definition buildBBTNonleafLevels depth := buildNonleafLevels depth PageTypeBBT.

Definition last_nid (es : list NBTLeafEntry) : Z := match last es with Some e => NE_NID e | None => 0 end.
Definition last_bid (es : list BBTLeafEntry) : Z := match last es with Some e => BR_BID (BE_BRef e) | None => 0 end.
Definition buildNBTTree (depth : nat) (entries : list NBTLeafEntry) (maxPerPage : Z) : ST BTWriter BlockReference :=
  do leaves <- mapM_st (λ es, do ref <- createNBTLeafPage es; mret (ref, last_nid es)) (chunks maxPerPage entries);
  buildNBTNonleafLevels depth leaves 1.
Definition buildBBTTree (depth : nat) (entries : list BBTLeafEntry) (maxPerPage : Z) : ST BTWriter BlockReference :=
  do leaves <- mapM_st (λ es, do ref <- createBBTLeafPage es; mret (ref, last_bid es)) (chunks maxPerPage entries);
  buildBBTNonleafLevels depth leaves 1.

Definition rebuildNBT (depth : nat) (entries : list NBTLeafEntry) : ST BTWriter BlockReference :=
  do w <- get;
  let maxEntriesPerPage :=
    if is_ANSI (db_Format (w_db w)) then MaxBTPageEntriesNBTANSI else MaxBTPageEntriesNBTUnicode in
  if blen entries <=? maxEntriesPerPage then createNBTLeafPage entries
  else buildNBTTree depth entries maxEntriesPerPage.
Definition rebuildBBT (depth : nat) (entries : list BBTLeafEntry) : ST BTWriter BlockReference :=
  do w <- get;
  let maxEntriesPerPage :=
    if is_ANSI (db_Format (w_db w)) then MaxBTPageEntriesBBTANSI else MaxBTPageEntriesBBTUnicode in
  if blen entries <=? maxEntriesPerPage then createBBTLeafPage entries
  else buildBBTTree depth entries maxEntriesPerPage.

(** ** Applying *)
Definition applyNBTChanges (depth : nat) : ST BTWriter BlockReference :=
  do w <- get;
  if bool_decide (w_nbtInserts w = ∅) && bool_decide (w_nbtDeletes w = ∅)
  then mret (NBTRoot (db_header (w_db w)))
  else
  on_db loadNBTRoot ;;
  do w <- get;
  do root <- lift (deref (once_page (db_nbtRoot (w_db w))));
  do entries <- lift (collectNBTEntries depth (db_file (w_db w)) (db_Format (w_db w)) root);
  rebuildNBT depth (merge_nbt entries (w_nbtDeletes w) (map_to_list (w_nbtInserts w)).*2).
Definition applyBBTChanges (depth : nat) : ST BTWriter BlockReference :=
  do w <- get;
  if bool_decide (w_bbtInserts w = ∅) && bool_decide (w_bbtDeletes w = ∅)
  then mret (BBTRoot (db_header (w_db w)))
  else
  on_db loadBBTRoot ;;
  do w <- get;
  do root <- lift (deref (once_page (db_bbtRoot (w_db w))));
  do entries <- lift (collectBBTEntries depth (db_file (w_db w)) (db_Format (w_db w)) root);
  rebuildBBT depth (merge_bbt entries (w_bbtDeletes w) (map_to_list (w_bbtInserts w)).*2).
Definition Apply (depth : nat) : ST BTWriter (BlockReference * BlockReference) :=
  do nbtRef <- wrap "failed to apply NBT changes" (applyNBTChanges depth);
  do bbtRef <- wrap "failed to apply BBT changes" (applyBBTChanges depth);
  mret (nbtRef, bbtRef).

(** ** Collecting is the in-order listing *)
Section collect.
Context {E : Type} (pt : Z) (leaf : BTPage → list E) (ekey : E → Z) (nkey : Z → Z).
Fixpoint bt_collect (depth : nat) (file : bytes) (format : PSTFormat) (page : BTPage) : result (list E) :=
  match depth with
  | O => Panic
  | S depth =>
    if IsLeaf page then mret (leaf page)
    else foldl (λ acc child,
           entries ← acc;
           childPage ← child_page file format pt (KE_Ref child);
           childEntries ← bt_collect depth file format childPage;
           mret (entries ++ childEntries)) (mret []) (BP_NonleafEntries page)
  end.
Lemma fold_kids file format n es ls coll :
  kids pt leaf ekey nkey file format n es ls →
  (∀ c k, tree pt leaf ekey nkey file format n c k → coll c = Ok k) → ∀ acc,
  foldl (λ acc child,
    entries ← acc;
    childPage ← child_page file format pt (KE_Ref child);
    childEntries ← coll childPage;
    mret (entries ++ childEntries)) (Ok acc) es = Ok (acc ++ concat ls).
Proof.
  intros Hk Hc. induction Hk as [|m e es c k ls' Hp Htc Hk IHk Hlow Hup Hkeys]; intros acc; cbn [foldl concat].
  { by rewrite app_nil_r. }
  rewrite bind_Ok, Hp, bind_Ok. rewrite (Hc c k Htc), bind_Ok, mret_Ok, app_assoc. by apply IHk.
Qed.
Lemma bt_collect_tree file format n : ∀ p l depth,
  tree pt leaf ekey nkey file format n p l → (n ≤ depth)%nat → bt_collect depth file format p = Ok l.
Proof.
  induction n as [|n IH]; intros p l depth Ht Hd; [inversion Ht|]. destruct depth as [|depth]; [lia|].
  inversion Ht as [n' p' Hl|n' p' ls Hl Hk]; subst; cbn [bt_collect]; rewrite Hl; [done|].
  rewrite mret_Ok. apply (fold_kids file format n _ ls (bt_collect depth file format) Hk). intros c k Hc. apply (IH c k depth Hc). lia.
Qed.
End collect.

Lemma foldl_ext_f {A B} (f g : A → B → A) l : (∀ a b, f a b = g a b) → ∀ a, foldl f a l = foldl g a l.
Proof. intros H. induction l as [|x l IH]; intros a; cbn; [done|]. by rewrite H. Qed.
Lemma collectNBT_bt depth file format : ∀ p, collectNBTEntries depth file format p
  = bt_collect PageTypeNBT BP_NBTEntries depth file format p.
Proof.
  induction depth as [|d IH]; intros p; cbn [collectNBTEntries bt_collect]; [done|]. destruct (IsLeaf p); [done|].
  apply foldl_ext_f. intros a b. destruct a; cbn; [|done..]. destruct (child_page _ _ _ _); cbn; [|done..]. by rewrite IH.
Qed.
Lemma collectBBT_bt depth file format : ∀ p, collectBBTEntries depth file format p
  = bt_collect PageTypeBBT BP_BBTEntries depth file format p.
Proof.
  induction depth as [|d IH]; intros p; cbn [collectBBTEntries bt_collect]; [done|]. destruct (IsLeaf p); [done|].
  apply foldl_ext_f. intros a b. destruct a; cbn; [|done..]. destruct (child_page _ _ _ _); cbn; [|done..]. by rewrite IH.
Qed.

(** On well-keyed trees the collectors return exactly the leaf entries in
    order, with a call stack no deeper than the tree. *)
Theorem collect_entries_exact file format n np nl m bp bl depth :
  nbt_tree file format n np nl → bbt_tree file format m bp bl → (n ≤ depth)%nat → (m ≤ depth)%nat →
  collectNBTEntries depth file format np = Ok nl ∧ collectBBTEntries depth file format bp = Ok bl.
Proof.
  intros Hn Hb Hd Hd'. rewrite collectNBT_bt, collectBBT_bt. split.
  - exact (bt_collect_tree PageTypeNBT BP_NBTEntries NE_NID (λ k, k) file format n np nl depth Hn Hd).
  - exact (bt_collect_tree PageTypeBBT BP_BBTEntries bbt_key clear2 file format m bp bl depth Hb Hd').
Qed.
Lemma leaf_bbt_tree file format l t h : bbt_tree file format 1 (mkBTPage t h 0 [] l []) l.
Proof. by apply (tree_leaf PageTypeBBT BP_BBTEntries bbt_key clear2 file format 0 (mkBTPage t h 0 [] l [])). Qed.
Lemma collect_entries_exact_witness :
  let bl := [mkBBTLeaf (mkBRef 4 0x4600) 10 1] in
  collectNBTEntries 2 sample_nbt_file FormatANSI (sample_root PageTypeNBT 33 97)
  = Ok [mkNBTLeaf 33 4 0 0; mkNBTLeaf 65 8 0 33; mkNBTLeaf 97 12 0 33] ∧
  collectBBTEntries 2 sample_nbt_file FormatANSI (NewBBTLeafPage bl 0) = Ok bl.
Proof.
  intros bl. apply (collect_entries_exact sample_nbt_file FormatANSI 2 _ _ 1 _ _ 2 sample_nbt_tree
    (leaf_bbt_tree _ _ _ _ _)); lia.
Defined.

(** ** The merge *)
Lemma merge_nbt_Permutation entries deletes inserts :
  merge_nbt entries deletes inserts
  ≡ₚ filter (λ e, u32 (NE_NID e) ∉ deletes) entries ++ map entry_of_node inserts.
Proof. apply merge_sort_Permutation. Qed.
#[export] Instance nid_le_total : Total nid_le.
Proof. intros a b. unfold nid_le. lia. Qed.
#[export] Instance nid_le_trans : Transitive nid_le.
Proof. intros a b c. unfold nid_le. lia. Qed.

Section lookup.
Context {E : Type} (ekey : E → Z).
Lemma lookup_entry_Some l id x :
  NoDup (map ekey l) → lookup_entry ekey l id = Some x ↔ x ∈ l ∧ ekey x = id.
Proof.
  unfold lookup_entry. induction l as [|y m IH]; intros Hm; cbn.
  - split; [done|]. by intros [?%not_elem_of_nil _].
  - cbn in Hm. apply NoDup_cons in Hm as [Hny Hm]. specialize (IH Hm).
    destruct (Z.eqb_spec (ekey y) id) as [He|He].
    + split; [intros [= ->]; split; [left|done]|]. intros [Hin Hx]. apply elem_of_cons in Hin as [->|Hin]; [done|].
      exfalso. apply Hny. rewrite He, <- Hx. apply list_elem_of_In, in_map, list_elem_of_In, Hin.
    + rewrite IH. split; [intros [? ?]; split; [by right|done]|].
      intros [Hin Hx]. apply elem_of_cons in Hin as [->|Hin]; [done|done].
Qed.
Lemma lookup_Permutation l k id :
  NoDup (map ekey l) → l ≡ₚ k → lookup_entry ekey l id = lookup_entry ekey k id.
Proof.
  intros Hd Hp. assert (NoDup (map ekey k)) as Hd' by (by rewrite <- Hp).
  apply option_eq. intros x. rewrite !lookup_entry_Some by done. by rewrite Hp.
Qed.
End lookup.

Lemma NoDup_map_filter {A B} (f : A → B) (P : A → Prop) `{!∀ x, Decision (P x)} (l : list A) :
  NoDup (map f l) → NoDup (map f (filter P l)).
Proof.
  induction l as [|x l IH]; [done|]. intros [Hx Hl]%NoDup_cons.
  destruct (decide (P x)); [rewrite filter_cons_True by done|rewrite filter_cons_False by done; by apply IH]. cbn [map]. apply NoDup_cons. split; [|by apply IH].
  intros (y & Hy & [_ Hin]%list_elem_of_filter)%list_elem_of_fmap. apply Hx. rewrite Hy. by apply list_elem_of_fmap_2.
Qed.
(** The values of a map that stores each value under its own key. *)
Lemma NoDup_map_key {V} (key : V → Z) (m : gmap Z V) :
  (∀ k v, m !! k = Some v → key v = k) → NoDup (map key (map_to_list m).*2).
Proof.
  intros Hk. replace (map key (map_to_list m).*2) with (map_to_list m).*1; [apply NoDup_fst_map_to_list|].
  assert (∀ kv, kv ∈ map_to_list m → key kv.2 = kv.1) as H.
  { intros [k v] H%elem_of_map_to_list. by apply Hk. }
  revert H. generalize (map_to_list m). intros l. induction l as [|kv l IH]; intros H; [done|]. cbn.
  rewrite (H kv) by left. f_equal. apply IH. intros kv' Hin. apply H. by right.
Qed.

(** The merge is a keyed update: when the current entries have distinct
    32-bit node IDs and no queued insert collides with an entry that survives
    the deletions, the merged list is sorted without duplicates and looking up
    any ID gives the queued insert, nothing for a deleted node, and the current
    entry otherwise. *)
Theorem merge_nbt_lookup entries deletes (inserts : gmap Z NodeInfo) :
  NoDup (map NE_NID entries) → Forall (λ e, fits 32 (NE_NID e)) entries →
  (∀ nid i, inserts !! nid = Some i → NI_NID i = nid) →
  (∀ e, e ∈ entries → NE_NID e ∉ deletes → inserts !! NE_NID e = None) →
  let l := merge_nbt entries deletes (map_to_list inserts).*2 in
  StronglySorted nid_le l ∧ NoDup (map NE_NID l) ∧
  ∀ id, lookup_entry NE_NID l id =
    match inserts !! id with
    | Some i => Some (entry_of_node i)
    | None => if decide (id ∈ deletes) then None else lookup_entry NE_NID entries id
    end.
Proof.
  intros Hd Hf Hk Hc l.
  set (kept := filter (λ e, u32 (NE_NID e) ∉ deletes) entries).
  set (new := map entry_of_node (map_to_list inserts).*2).
  assert (∀ e, e ∈ kept ↔ e ∈ entries ∧ NE_NID e ∉ deletes) as Hkept.
  { intros e. unfold kept. rewrite list_elem_of_filter. rewrite Forall_forall in Hf.
    split; intros [H1 H2]; rewrite ?u32_small in * by (apply Hf; done); done. }
  assert (∀ e, e ∈ new ↔ ∃ i, inserts !! NE_NID e = Some i ∧ e = entry_of_node i) as Hnew.
  { intros e. unfold new. rewrite list_elem_of_In, in_map_iff. setoid_rewrite <- list_elem_of_In.
    setoid_rewrite list_elem_of_fmap. split.
    - intros (i & <- & [k j] & -> & Hj%elem_of_map_to_list). exists j. cbn in *. by rewrite (Hk _ _ Hj).
    - intros (i & Hi & ->). exists i. split; [done|]. exists (NI_NID i, i). split; [done|].
      by apply elem_of_map_to_list. }
  assert (NoDup (map NE_NID (kept ++ new))) as Hnd.
  { rewrite map_app. apply NoDup_app. split; [by apply NoDup_map_filter|split].
    - intros k Hk1 Hk2. apply list_elem_of_fmap in Hk1 as (e & -> & He%Hkept), Hk2 as (e' & Hee & He'%Hnew).
      destruct He as [He Hde], He' as (i & Hi & _). rewrite <- Hee in Hi. by rewrite (Hc e He Hde) in Hi.
    - unfold new. rewrite map_map. apply (NoDup_map_key NI_NID inserts Hk). }
  assert (l ≡ₚ kept ++ new) as Hp by apply merge_nbt_Permutation.
  split; [|split].
  - apply (StronglySorted_merge_sort nid_le).
  - by rewrite Hp.
  - intros id. rewrite (lookup_Permutation NE_NID l (kept ++ new) id) by (by rewrite ?Hp).
    apply option_eq. intros x. rewrite lookup_entry_Some, elem_of_app, Hkept, Hnew by done.
    destruct (inserts !! id) as [i|] eqn:Hi.
    + split.
      * intros [[[H1 H2]|(j & Hj & ->)] H]; [specialize (Hc x H1 H2); congruence|]. congruence.
      * intros [= <-]. split; [right; exists i|by apply Hk]. cbn. by rewrite (Hk _ _ Hi).
    + destruct (decide (id ∈ deletes)) as [Hin|Hin].
      * split; [|done]. intros [[[H1 H2]|(j & Hj & ->)] H]; [congruence|]. cbn in *. congruence.
      * rewrite lookup_entry_Some by done. split; [|naive_solver].
        intros [[[H1 H2]|(j & Hj & ->)] H]; [done|]. cbn in *. congruence.
Qed.
Lemma merge_nbt_lookup_witness :
  let entries := [mkNBTLeaf 33 4 0 0; mkNBTLeaf 65 8 0 33] in
  let inserts : gmap Z NodeInfo := {[ 97 := mkNodeInfo 97 12 0 33; 65 := mkNodeInfo 65 16 0 33 ]} in
  let deletes : gset Z := {[ 65 ]} in
  let l := merge_nbt entries deletes (map_to_list inserts).*2 in
  StronglySorted nid_le l ∧ NoDup (map NE_NID l) ∧
  ∀ id, lookup_entry NE_NID l id =
    match inserts !! id with
    | Some i => Some (entry_of_node i)
    | None => if decide (id ∈ deletes) then None else lookup_entry NE_NID entries id
    end.
Proof.
  intros entries inserts deletes. apply (merge_nbt_lookup entries deletes inserts).
  - apply (bool_decide_unpack _). by vm_compute.
  - repeat constructor; by vm_compute.
  - intros nid i H. unfold inserts in H. apply lookup_insert_Some in H as [[<- <-]|[_ H]]; [done|].
    apply lookup_singleton_Some in H as [<- <-]. done.
  - intros e He Hd. apply elem_of_cons in He as [->|He]; [by vm_compute|].
    apply list_elem_of_singleton in He as ->. exfalso. apply Hd. by apply elem_of_singleton.
Defined.

(** ** The queues as pending changes

    What a queue promises for one key: the change that [Apply] should make. *)
Inductive change (I : Type) := Put (i : I) | Del.
Arguments Put {I}. Arguments Del {I}.
Definition pending {I} (inserts : gmap Z I) (deletes : gset Z) (id : Z) : option (change I) :=
  match inserts !! id with Some i => Some (Put i) | None => if decide (id ∈ deletes) then Some Del else None end.
Definition pending_node (w : BTWriter) := pending (w_nbtInserts w) (w_nbtDeletes w).
Definition pending_block (w : BTWriter) := pending (w_bbtInserts w) (w_bbtDeletes w).
(** The specification of queuing on a map of pending changes: an insert is
    refused over a queued insert and replaces a queued delete; a delete is
    refused over a queued delete and cancels a queued insert. *)
Definition spec_put {I} (m : Z → option (change I)) (id : Z) (i : I) : option (Z → option (change I)) :=
  match m id with Some (Put _) => None | _ => Some (λ k, if decide (k = id) then Some (Put i) else m k) end.
Definition spec_del {I} (m : Z → option (change I)) (id : Z) : option (Z → option (change I)) :=
  match m id with
  | Some Del => None
  | Some (Put _) => Some (λ k, if decide (k = id) then None else m k)
  | None => Some (λ k, if decide (k = id) then Some Del else m k)
  end.
(** Outcome of a queuing call against the specification: refusal is an error
    that leaves the writer alone; success moves the pending map as specified. *)
Definition implements {I} (abs : BTWriter → Z → option (change I)) (w : BTWriter)
    (r : BTWriter * result unit) (spec : option (Z → option (change I))) : Prop :=
  match spec with
  | None => r.1 = w ∧ ∃ e, r.2 = Err e
  | Some m => r.2 = Ok tt ∧ ∀ k, abs r.1 k = m k
  end.

Definition queues_wf (w : BTWriter) : Prop :=
  (∀ id i, w_nbtInserts w !! id = Some i → NI_NID i = id) ∧
  (∀ id i, w_bbtInserts w !! id = Some i → clear2 (BI_BID i) = id) ∧
  dom (w_nbtInserts w) ## w_nbtDeletes w ∧ dom (w_bbtInserts w) ## w_bbtDeletes w.

Section queue.
Context {I : Type} (inserts : gmap Z I) (deletes : gset Z).
Lemma pending_put id i k :
  pending (<[id := i]> inserts) (if decide (id ∈ deletes) then deletes ∖ {[id]} else deletes) k
  = if decide (k = id) then Some (Put i) else pending inserts deletes k.
Proof.
  unfold pending. destruct (decide (k = id)) as [->|Hk]; [by rewrite lookup_insert_eq|].
  rewrite lookup_insert_ne by done. destruct (inserts !! k); [done|].
  destruct (decide (id ∈ deletes)); repeat case_decide; set_solver.
Qed.
Lemma pending_cancel id k :
  id ∉ deletes → pending (delete id inserts) deletes k = if decide (k = id) then None else pending inserts deletes k.
Proof.
  intros Hd. unfold pending. destruct (decide (k = id)) as [->|Hk].
  - by rewrite lookup_delete_eq, decide_False by done.
  - by rewrite lookup_delete_ne by done.
Qed.
Lemma pending_del id k :
  inserts !! id = None →
  pending inserts ({[id]} ∪ deletes) k = if decide (k = id) then Some Del else pending inserts deletes k.
Proof.
  intros Hi. unfold pending. destruct (decide (k = id)) as [->|Hk].
  - rewrite Hi, decide_True by set_solver. done.
  - destruct (inserts !! k); [done|]. repeat case_decide; set_solver.
Qed.
Lemma queue_put id i :
  dom inserts ## deletes →
  dom (<[id := i]> inserts) ## (if decide (id ∈ deletes) then deletes ∖ {[id]} else deletes).
Proof. intros H. rewrite dom_insert. case_decide; set_solver. Qed.
Lemma queue_cancel id : dom inserts ## deletes → dom (delete id inserts) ## deletes.
Proof. rewrite dom_delete. set_solver. Qed.
Lemma spec_put_new id i : inserts !! id = None →
  spec_put (pending inserts deletes) id i
  = Some (λ k, if decide (k = id) then Some (Put i) else pending inserts deletes k).
Proof. intros H. unfold spec_put, pending at 1. rewrite H. by case_decide. Qed.
Lemma spec_put_old id i j : inserts !! id = Some j → spec_put (pending inserts deletes) id i = None.
Proof. intros H. unfold spec_put, pending at 1. by rewrite H. Qed.
Lemma spec_del_queued id : dom inserts ## deletes → id ∈ deletes → spec_del (pending inserts deletes) id = None.
Proof.
  intros Hd H. unfold spec_del, pending at 1. rewrite decide_True by done.
  destruct (inserts !! id) eqn:E; [|done]. apply elem_of_dom_2 in E. set_solver.
Qed.
Lemma spec_del_put id i : inserts !! id = Some i →
  spec_del (pending inserts deletes) id = Some (λ k, if decide (k = id) then None else pending inserts deletes k).
Proof. intros H. unfold spec_del, pending at 1. by rewrite H. Qed.
Lemma spec_del_new id : inserts !! id = None → id ∉ deletes →
  spec_del (pending inserts deletes) id = Some (λ k, if decide (k = id) then Some Del else pending inserts deletes k).
Proof. intros H Hd. unfold spec_del, pending at 1. by rewrite H, decide_False by done. Qed.
Lemma queue_del id : inserts !! id = None → dom inserts ## deletes → dom inserts ## {[id]} ∪ deletes.
Proof. intros H%not_elem_of_dom. set_solver. Qed.
End queue.

(** C5: The node and block queues refine the pending-change map: each call
    succeeds or is refused as the specification says, with exactly the specified
    change of the pending map, and keeps the queues well-keyed and disjoint. *)
Theorem queues_refine w info binfo nid bid :
  queues_wf w →
  (implements pending_node w (InsertNode info w) (spec_put (pending_node w) (NI_NID info) info) ∧
   implements pending_node w (DeleteNode nid w) (spec_del (pending_node w) nid) ∧
   implements pending_block w (InsertBlock binfo w) (spec_put (pending_block w) (clear2 (BI_BID binfo)) binfo) ∧
   implements pending_block w (DeleteBlock bid w) (spec_del (pending_block w) (clear2 bid))) ∧
  queues_wf (InsertNode info w).1 ∧ queues_wf (DeleteNode nid w).1 ∧
  queues_wf (InsertBlock binfo w).1 ∧ queues_wf (DeleteBlock bid w).1.
Proof.
  intros (Kn & Kb & Dn & Db). unfold InsertNode, DeleteNode, InsertBlock, DeleteBlock, pending_node, pending_block.
  split; [split; [|split; [|split]]|split; [|split; [|split]]].
  - destruct (_ !! _) eqn:E.
    + rewrite (spec_put_old _ _ _ _ _ E). split; eauto.
    + rewrite (spec_put_new _ _ _ _ E). split; [done|apply pending_put].
  - case_decide as Hd.
    + rewrite (spec_del_queued _ _ _ Dn Hd). split; eauto.
    + destruct (_ !! _) eqn:E.
      * rewrite (spec_del_put _ _ _ _ E). split; [done|]. by intros; apply pending_cancel.
      * rewrite (spec_del_new _ _ _ E Hd). split; [done|]. by intros; apply pending_del.
  - destruct (_ !! _) eqn:E.
    + rewrite (spec_put_old _ _ _ _ _ E). split; eauto.
    + rewrite (spec_put_new _ _ _ _ E). split; [done|apply pending_put].
  - case_decide as Hd.
    + rewrite (spec_del_queued _ _ _ Db Hd). split; eauto.
    + destruct (_ !! _) eqn:E.
      * rewrite (spec_del_put _ _ _ _ E). split; [done|]. by intros; apply pending_cancel.
      * rewrite (spec_del_new _ _ _ E Hd). split; [done|]. by intros; apply pending_del.
  - destruct (_ !! _) eqn:E; (split; [|split; [done|split; [|done]]]); [done..| |by apply queue_put].
    cbn [fst w_set_nbt w_set_bbt w_nbtInserts w_bbtInserts]; intros id i [[<- <-]|[_ H]]%lookup_insert_Some; [done|by apply Kn].
  - case_decide as Hd; [done|]. destruct (_ !! _) eqn:E; (split; [|split; [done|split; [|done]]]);
      [|by apply queue_cancel|done|by apply queue_del].
    cbn [fst w_set_nbt w_set_bbt w_nbtInserts w_bbtInserts]; intros id i [_ H]%lookup_delete_Some. by apply Kn.
  - destruct (_ !! _) eqn:E; (split; [done|split; [|split; [done|]]]); [done..| |by apply queue_put].
    cbn [fst w_set_nbt w_set_bbt w_nbtInserts w_bbtInserts]; intros id i [[<- <-]|[_ H]]%lookup_insert_Some; [done|by apply Kb].
  - case_decide as Hd; [done|]. destruct (_ !! _) eqn:E; (split; [done|split; [|split; [done|]]]);
      [|by apply queue_cancel|done|by apply queue_del].
    cbn [fst w_set_nbt w_set_bbt w_nbtInserts w_bbtInserts]; intros id i [_ H]%lookup_delete_Some. by apply Kb.
Qed.
Lemma queues_refine_witness :
  let w := w_set_nbt (NewBTWriter (sample_db [] (NewHeader FormatANSI ClientMagicPST)) (CreateNewAMapManager FormatANSI))
    {[ 33 := mkNodeInfo 33 4 0 0 ]} {[ 65 ]} in
  implements pending_node w (DeleteNode 33 w) (spec_del (pending_node w) 33).
Proof.
  intros w. refine (proj1 (proj2 (proj1 (queues_refine w (mkNodeInfo 97 0 0 0) (mkBlockInfo 4 0 0 0) 33 4 _)))).
  split; [|split; [|split]].
  - intros id i H. cbn [w w_set_nbt w_nbtInserts] in H. apply lookup_singleton_Some in H as [<- <-]. done.
  - intros id i H. done.
  - cbn [w w_set_nbt w_nbtInserts w_nbtDeletes]. rewrite dom_singleton. apply disjoint_singleton_l, not_elem_of_singleton. done.
  - cbn. set_solver.
Defined.

(** Replacing a node in one transaction, the delete-then-insert that
    [MoveNode], [UpdateNodeData] and [UpdateNodeSubnodes] perform, leaves the old
    entry in the tree: the insert cancels the queued delete, and the merged list
    contains the old entry and the new one under the same ID. *)
Theorem replaced_node_duplicated w entries old info w1 w2 :
  let nid := NI_NID info in
  nid ∉ w_nbtDeletes w → w_nbtInserts w !! nid = None →
  old ∈ entries → u32 (NE_NID old) = nid →
  DeleteNode nid w = (w1, Ok tt) → InsertNode info w1 = (w2, Ok tt) →
  let l := merge_nbt entries (w_nbtDeletes w2) (map_to_list (w_nbtInserts w2)).*2 in
  old ∈ l ∧ entry_of_node info ∈ l ∧
  (old ≠ entry_of_node info → NE_NID old = nid → ¬ NoDup (map NE_NID l)).
Proof.
  intros nid Hd Hi Ho Hn HD HI l.
  unfold DeleteNode in HD. rewrite decide_False, Hi in HD by done. injection HD as <-.
  unfold InsertNode in HI. cbn [w_set_nbt w_nbtInserts w_nbtDeletes] in HI. fold nid in HI.
  rewrite Hi, decide_True in HI by set_solver. injection HI as <-.
  cbn [w_set_nbt w_nbtInserts w_nbtDeletes] in l.
  assert (l ≡ₚ filter (λ e, u32 (NE_NID e) ∉ ({[nid]} ∪ w_nbtDeletes w) ∖ {[nid]}) entries
            ++ map entry_of_node (map_to_list (<[nid := info]> (w_nbtInserts w))).*2) as Hp by apply merge_nbt_Permutation.
  assert (old ∈ l) as H1.
  { rewrite Hp. apply elem_of_app. left. apply list_elem_of_filter. split; [|done]. rewrite Hn. set_solver. }
  assert (entry_of_node info ∈ l) as H2.
  { rewrite Hp. apply elem_of_app. right. apply list_elem_of_fmap. exists info. split; [done|].
    apply list_elem_of_fmap. exists (nid, info). split; [done|]. apply elem_of_map_to_list. apply lookup_insert_eq. }
  split; [done|split; [done|]]. intros Hne Hk Hnd. apply Hne.
  assert (lookup_entry NE_NID l nid = Some old) by (by apply lookup_entry_Some).
  assert (lookup_entry NE_NID l nid = Some (entry_of_node info)) by (by apply lookup_entry_Some). congruence.
Qed.
Lemma replaced_node_duplicated_witness :
  let w := NewBTWriter (sample_db [] (NewHeader FormatANSI ClientMagicPST)) (CreateNewAMapManager FormatANSI) in
  let info := mkNodeInfo 65 8 0 290 in
  let w2 := (InsertNode info (DeleteNode 65 w).1).1 in
  let l := merge_nbt [mkNBTLeaf 33 4 0 0; mkNBTLeaf 65 8 0 33] (w_nbtDeletes w2) (map_to_list (w_nbtInserts w2)).*2 in
  mkNBTLeaf 65 8 0 33 ∈ l ∧ entry_of_node info ∈ l ∧
  (mkNBTLeaf 65 8 0 33 ≠ entry_of_node info → 65 = 65 → ¬ NoDup (map NE_NID l)).
Proof.
  intros w info w2.
  apply (replaced_node_duplicated w [mkNBTLeaf 33 4 0 0; mkNBTLeaf 65 8 0 33] (mkNBTLeaf 65 8 0 33) info (DeleteNode 65 w).1 w2).
  - apply not_elem_of_empty.
  - done.
  - right. left.
  - done.
  - done.
  - done.
Defined.

(** ** Pages the writer makes, as the readers see them *)
Lemma loadNBTRoot_frame db :
  let db1 := (loadNBTRoot db).1 in
  db_file db1 = db_file db ∧ db_header db1 = db_header db ∧ db_readOnly db1 = db_readOnly db.
Proof. unfold loadNBTRoot. destruct (once_done _); [done|]. by repeat destruct (wrap_err _ _). Qed.

(** One page: allocated, built, written, and read back at the same reference. *)
Lemma place_page_back w mk off m :
  db_readOnly (w_db w) = false → db_Format (w_db w) = FormatANSI → 0 ≤ off < 2 ^ 63 →
  Allocate (w_amap w) PageSize = Ok (off, m) → btpage_wf FormatANSI (mk off) →
  ∃ raw p, blen raw = PageSize ∧
    let w' := w_set_db (w_set_amap w m) (set_file (w_db w) (write_at off raw (db_file (w_db w)))) in
    place_page mk w = (w', Ok (mk off, mkBRef off off)) ∧
    child_page (db_file (w_db w')) FormatANSI (PT_PageType (BP_Trailer (mk off))) (mkBRef off off) = Ok p ∧
    BP_Level p = BP_Level (mk off) ∧ BP_NBTEntries p = BP_NBTEntries (mk off) ∧
    BP_BBTEntries p = BP_BBTEntries (mk off) ∧ BP_NonleafEntries p = BP_NonleafEntries (mk off).
Proof.
  intros Hro Hf Hoff HA Hwf. destruct (ansi_btpage_back _ Hwf) as (raw & p & HB & Hr & HP & Hlv & Hn & Hb & Hnl & _).
  exists raw, p. split; [done|]. cbv zeta. split; [|split; [|done]].
  - unfold place_page, allocate. rewrite (st_bind_Ok _ _ w (w_set_amap w m) off) by (by rewrite HA).
    cbv beta zeta. rewrite (st_bind_Ok get _ _ (w_set_amap w m) (w_set_amap w m)) by done. cbn [w_set_amap w_db]. rewrite Hf.
    rewrite (st_bind_Ok _ _ _ (w_set_amap w m) raw) by (unfold lift; by rewrite HB).
    unfold mbind, ST_bind, on_db, zoom, WritePage. cbn [w_set_amap w_db].
    rewrite Hro, Hr, Z.eqb_refl, (proj2 (Z.leb_gt _ _)) by lia. done.
  - cbn [w_set_db w_db set_file db_file]. unfold child_page, readPage, read_at. cbn [BR_IB].
    rewrite (proj2 (Z.leb_gt _ _)) by lia. cbn [wrap_err]. rewrite bind_Ok.
    rewrite <- Hr, read_write_at, Z.eqb_refl by lia. exact HP.
Qed.

(** Applying queued node changes to a database of the ANSI format whose
    merged entries fit one page: the call succeeds, and the page at the returned
    reference reads back as a one-page tree of exactly the merged entries; the
    rest of the file is left alone. *)
Theorem applyNBT_one_page w depth n root entries off m :
  db_readOnly (w_db w) = false → db_Format (w_db w) = FormatANSI → 0 ≤ off < 2 ^ 32 →
  ¬ (w_nbtInserts w = ∅ ∧ w_nbtDeletes w = ∅) →
  (loadNBTRoot (w_db w)).2 = Ok tt → once_page (db_nbtRoot (loadNBTRoot (w_db w)).1) = Some root →
  nbt_tree (db_file (w_db w)) FormatANSI n root entries → (n ≤ depth)%nat →
  Allocate (w_amap w) PageSize = Ok (off, m) →
  let merged := merge_nbt entries (w_nbtDeletes w) (map_to_list (w_nbtInserts w)).*2 in
  Forall (NBTLeaf_wf FormatANSI) merged → blen merged ≤ MaxBTPageEntriesNBTANSI →
  ∃ w' p, applyNBTChanges depth w = (w', Ok (mkBRef off off)) ∧
    child_page (db_file (w_db w')) FormatANSI PageTypeNBT (mkBRef off off) = Ok p ∧
    nbt_tree (db_file (w_db w')) FormatANSI 1 p merged ∧
    ∀ a k, 0 ≤ a → 0 ≤ k → a + k ≤ blen (db_file (w_db w)) → a + k ≤ off ∨ off + PageSize ≤ a →
      sub (db_file (w_db w')) a k = sub (db_file (w_db w)) a k.
Proof.
  intros Hro Hf Hoff Hch Hload Hroot Ht Hd HA merged Hwf Hlen.
  destruct (loadNBTRoot_frame (w_db w)) as (F1 & F2 & F3). unfold nbt_tree in Ht.
  unfold applyNBTChanges. rewrite (st_bind_Ok get _ _ w w) by done. cbv beta.
  replace (bool_decide (w_nbtInserts w = ∅) && bool_decide (w_nbtDeletes w = ∅)) with false
    by (repeat case_bool_decide; try done; naive_solver).
  set (db1 := (loadNBTRoot (w_db w)).1) in *. set (w1 := w_set_db w db1).
  rewrite (st_bind_Ok _ _ w w1 tt).
  2:{ unfold on_db, zoom. destruct (loadNBTRoot (w_db w)) as [? ?]. cbn in *. by subst. }
  rewrite (st_bind_Ok get _ w1 w1 w1) by done. cbv beta. change (w_db w1) with db1. rewrite Hroot.
  rewrite (st_bind_Ok _ _ w1 w1 root) by done. unfold db_Format in *. rewrite F1, F2, Hf.
  assert (collectNBTEntries depth (db_file (w_db w)) FormatANSI root = Ok entries) as Hcol.
  { rewrite collectNBT_bt. by apply (bt_collect_tree PageTypeNBT BP_NBTEntries NE_NID (λ k, k) _ _ n). }
  rewrite (st_bind_Ok _ _ w1 w1 entries) by (unfold lift; by rewrite Hcol).
  change (w_nbtDeletes w1) with (w_nbtDeletes w). change (w_nbtInserts w1) with (w_nbtInserts w). fold merged.
  unfold rebuildNBT. rewrite (st_bind_Ok get _ w1 w1 w1) by done. cbv beta. unfold db_Format.
  change (w_db w1) with db1. rewrite F2, Hf. cbn [is_ANSI]. rewrite (proj2 (Z.leb_le _ _)) by done.
  destruct (place_page_back w1 (NewNBTLeafPage merged) off m) as (raw & p & Hr & Hp & Hc & Hlv & Hn & _).
  { cbn. by rewrite F3. } { unfold db_Format. cbn. by rewrite F2. } { lia. } { done. }
  { constructor; [done|cbn; unfold fits; lia|done|done]. }
  unfold createNBTLeafPage. rewrite (st_bind_Ok _ _ _ _ _ Hp). eexists _, p. split; [reflexivity|].
  cbn [w_set_roots w_set_db w_set_amap w_db set_file db_file w1] in *. split; [exact Hc|split].
  - change merged with (BP_NBTEntries (NewNBTLeafPage merged off)). rewrite <- Hn. apply tree_leaf. unfold IsLeaf. by rewrite Hlv.
  - intros a k Ha Hk Hin Hdis. rewrite F1. apply write_at_frame; rewrite ?Hr; done || lia.
Qed.
Definition one_leaf_file : bytes :=
  ok_or [] (BuildBTPage (NewNBTLeafPage [mkNBTLeaf 33 4 0 0; mkNBTLeaf 65 8 0 33] 0) FormatANSI).
Definition sample_writer : BTWriter :=
  w_set_nbt (NewBTWriter (sample_db one_leaf_file (NewHeader FormatANSI ClientMagicPST)) (CreateNewAMapManager FormatANSI))
    {[ 97 := mkNodeInfo 97 12 0 33 ]} {[ 65 ]}.
Definition sample_leaf : BTPage :=
  ok_or (NewNBTLeafPage [] 0) (child_page one_leaf_file FormatANSI PageTypeNBT (mkBRef 0 0)).
Definition alloc_map (m : AMapManager) (size : Z) : AMapManager :=
  match Allocate m size with Ok (_, m') => m' | _ => m end.
Lemma sample_leaf_tree :
  nbt_tree (db_file (w_db sample_writer)) FormatANSI 1 sample_leaf [mkNBTLeaf 33 4 0 0; mkNBTLeaf 65 8 0 33].
Proof.
  replace [mkNBTLeaf 33 4 0 0; mkNBTLeaf 65 8 0 33] with (BP_NBTEntries sample_leaf) by (vm_compute; reflexivity).
  apply tree_leaf. vm_compute; reflexivity.
Qed.
Lemma applyNBT_one_page_witness :
  let merged := merge_nbt [mkNBTLeaf 33 4 0 0; mkNBTLeaf 65 8 0 33] (w_nbtDeletes sample_writer)
    (map_to_list (w_nbtInserts sample_writer)).*2 in
  ∃ w' p, applyNBTChanges 1 sample_writer = (w', Ok (mkBRef 35840 35840)) ∧
    child_page (db_file (w_db w')) FormatANSI PageTypeNBT (mkBRef 35840 35840) = Ok p ∧
    nbt_tree (db_file (w_db w')) FormatANSI 1 p merged ∧
    ∀ a k, 0 ≤ a → 0 ≤ k → a + k ≤ blen (db_file (w_db sample_writer)) → a + k ≤ 35840 ∨ 35840 + PageSize ≤ a →
      sub (db_file (w_db w')) a k = sub (db_file (w_db sample_writer)) a k.
Proof.
  refine (applyNBT_one_page sample_writer 1 1 sample_leaf [mkNBTLeaf 33 4 0 0; mkNBTLeaf 65 8 0 33] 35840
    (alloc_map (w_amap sample_writer) PageSize) _ _ _ _ _ _ sample_leaf_tree (le_n 1) _ _ _).
  - done.
  - vm_compute; reflexivity.
  - lia.
  - intros [H _]. vm_compute in H. discriminate H.
  - vm_compute; reflexivity.
  - vm_compute; reflexivity.
  - vm_compute; reflexivity.
  - replace (merge_nbt _ _ _) with [mkNBTLeaf 33 4 0 0; mkNBTLeaf 97 12 0 33] by (vm_compute; reflexivity).
    repeat constructor; by vm_compute.
  - by vm_compute.
Defined.

(** ** Keys of the pages the writer makes *)

(** A page that the writer files under key [KE_Key e]: a leaf whose last entry
    has that key. *)
Definition max_leaf (file : bytes) (format : PSTFormat) (e : BTNonleafEntry) (l : list NBTLeafEntry) : Prop :=
  ∃ c x, child_page file format PageTypeNBT (KE_Ref e) = Ok c ∧ IsLeaf c = true ∧ BP_NBTEntries c = l ∧
    last l = Some x ∧ NE_NID x = KE_Key e.

Lemma max_leaf_scan file format es ls nid :
  Forall2 (max_leaf file format) es ls → StronglySorted Z.lt (map NE_NID (concat ls)) → ∀ found,
  (scan_child (λ k, k) es nid found = found ∧ ∀ l x, l ∈ ls → last l = Some x → nid < NE_NID x) ∨
  ∃ e l x, scan_child (λ k, k) es nid found = Some e ∧ max_leaf file format e l ∧ l ∈ ls ∧ last l = Some x ∧
    NE_NID x ≤ nid ∧ ∀ l' x', l' ∈ ls → last l' = Some x' → NE_NID x' ≤ NE_NID x ∨ nid < NE_NID x'.
Proof.
  intros Hf. induction Hf as [|e l es ls He Hf IH]; intros Hs found; [left; split; [done|by intros ? ? ?%not_elem_of_nil]|].
  cbn [concat] in Hs. rewrite map_app in Hs. apply StronglySorted_app in Hs as (Hlt & Hs1 & Hs2).
  pose proof He as (c & x & _ & _ & _ & Hlast & Hkey).
  assert (∀ l' x', l' ∈ ls → last l' = Some x' → NE_NID x < NE_NID x') as Hgt.
  { intros l' x' Hl' Hx'. apply Hlt; apply list_elem_of_fmap_2; [by apply last_Some_elem_of|].
    by eapply elem_concat, last_Some_elem_of. }
  cbn [scan_child]. destruct (Z.leb_spec (KE_Key e) nid) as [Hle|Hgt'].
  - right. destruct (IH Hs2 (Some e)) as [[-> Hno]|(e' & l' & x' & -> & H1 & H2 & H3 & H4 & H5)].
    + exists e, l, x. split; [done|split; [done|split; [left|split; [done|split; [lia|]]]]].
      intros l' x' [->|Hl']%elem_of_cons Hx'; [left; by simplify_eq|right; by eapply Hno].
    + exists e', l', x'. split; [done|split; [done|split; [by right|split; [done|split; [done|]]]]].
      intros l2 x2 [->|Hl2]%elem_of_cons Hx2; [|by eapply H5]. left. simplify_eq. specialize (Hgt l' x' H2 H3). lia.
  - left. split; [done|]. intros l' x' [->|Hl']%elem_of_cons Hx'; [simplify_eq; lia|].
    specialize (Hgt l' x' Hl' Hx'). lia.
Qed.
Lemma StronglySorted_last (l : list NBTLeafEntry) x :
  StronglySorted Z.lt (map NE_NID l) → last l = Some x → ∀ y, y ∈ l → y = x ∨ NE_NID y < NE_NID x.
Proof.
  intros Hs Hl y Hy. apply last_Some in Hl as [k ->]. rewrite map_app in Hs.
  apply StronglySorted_app in Hs as (H & _ & _). apply elem_of_app in Hy as [Hy| ->%list_elem_of_singleton]; [right|by left].
  apply H; [by apply list_elem_of_fmap_2|left].
Qed.
Lemma collect_max_leaves file format page ls d :
  IsLeaf page = false → Forall2 (max_leaf file format) (BP_NonleafEntries page) ls →
  bt_collect PageTypeNBT BP_NBTEntries (S (S d)) file format page = Ok (concat ls).
Proof.
  intros Hlf Hf. remember (S d) as d1 eqn:Ed. cbn [bt_collect]. rewrite Hlf, mret_Ok.
  assert (∀ acc, foldl (λ acc child, entries ← acc; childPage ← child_page file format PageTypeNBT (KE_Ref child);
      childEntries ← bt_collect PageTypeNBT BP_NBTEntries d1 file format childPage; mret (entries ++ childEntries))
    (Ok acc) (BP_NonleafEntries page) = Ok (acc ++ concat ls)) as H; [|apply (H [])].
  induction Hf as [|e l es ls (c & x & Hc & Hl & Hn & _) Hf IH]; intros acc; cbn [foldl concat].
  { by rewrite app_nil_r. }
  rewrite bind_Ok, Hc, bind_Ok. subst d1. cbn [bt_collect]. rewrite Hl, Hn. rewrite app_assoc. apply (IH (acc ++ l)).
Qed.

(** The writer files each page under its largest key, the search descends
    by smallest keys.  In a two-level tree of the shape [buildNBTTree] makes,
    with all keys in order, the collector still lists every entry, and a search
    finds exactly the nodes that are last in their leaf. *)
Theorem max_keys_hide_entries file format page ls depth nid info :
  IsLeaf page = false → Forall2 (max_leaf file format) (BP_NonleafEntries page) ls →
  StronglySorted Z.lt (map NE_NID (concat ls)) → (2 ≤ depth)%nat →
  collectNBTEntries depth file format page = Ok (concat ls) ∧
  (searchNBT depth file format page nid = Ok info ↔
   ∃ l x, l ∈ ls ∧ last l = Some x ∧ NE_NID x = nid ∧ info = nbt_info x).
Proof.
  intros Hlf Hf Hs Hd. destruct depth as [|[|d]]; [lia..|]. split.
  - rewrite collectNBT_bt. by apply (collect_max_leaves file format page ls d).
  - cbn [searchNBT]. rewrite Hlf.
    destruct (max_leaf_scan file format _ ls nid Hf Hs None) as [[-> Hno]|(e & l & x & -> & Hm & Hl & Hx & Hle & Hoth)].
    { split; [done|]. intros (l & x & Hl & Hx & <- & _). specialize (Hno l x Hl Hx). lia. }
    destruct Hm as (c & x0 & Hc & Hcl & Hn & Hlast & Hkey). rewrite Hlast in Hx. injection Hx as ->.
    rewrite Hc, bind_Ok, Hcl, Hn, find_NBT_found. unfold found_or.
    pose proof (sorted_concat NE_NID ls l Hl Hs) as Hsl. pose proof (sorted_NoDup _ Hsl) as Hnd.
    split.
    + destruct (lookup_entry NE_NID l nid) as [y|] eqn:E; [|done]. intros [= <-].
      apply lookup_entry_Some in E as [Hy Hny]; [|done].
      destruct (StronglySorted_last l x Hsl Hlast y Hy) as [->|]; [by exists l, x|lia].
    + intros (l' & x' & Hl' & Hx' & Hn' & ->). destruct (Hoth l' x' Hl' Hx'); [|lia].
      assert (NE_NID x = NE_NID x') as Hxx by lia.
      assert (x' = x) as ->.
      { assert (∀ k, lookup_entry NE_NID (concat ls) nid = Some k ↔ k ∈ concat ls ∧ NE_NID k = nid) as Hlk.
        { intros k. apply lookup_entry_Some. by apply sorted_NoDup. }
        assert (∀ k z, k ∈ ls → last k = Some z → z ∈ concat ls) as Hcc.
        { intros k z Hk Hz. by eapply elem_concat, last_Some_elem_of. }
        pose proof (proj2 (Hlk x') (conj (Hcc _ _ Hl' Hx') Hn')) as H1.
        pose proof (proj2 (Hlk x) (conj (Hcc _ _ Hl Hlast) (eq_trans Hxx Hn'))) as H2. congruence. }
      rewrite (proj2 (lookup_entry_Some NE_NID l nid x Hnd)); [done|]. split; [by apply last_Some_elem_of|done].
Qed.
(** Thirty-three entries: two leaves under a root. *)
Definition many_entries : list NBTLeafEntry := map (λ i, mkNBTLeaf (32 * i + 1) (4 * i) 0 0) (seqZ 1 33).
Definition many_tree : BTWriter * result BlockReference := rebuildNBT 3 many_entries sample_writer.
Definition many_file : bytes := db_file (w_db many_tree.1).
Definition many_root : BTPage := Eval vm_compute in
  ok_or (NewNBTLeafPage [] 0) (child_page (db_file (w_db many_tree.1)) FormatANSI PageTypeNBT (mkBRef 36864 36864)).
Example many_tree_built : many_tree.2 = Ok (mkBRef 36864 36864).
Proof. vm_compute; reflexivity. Qed.
Lemma max_keys_hide_entries_witness :
  collectNBTEntries 2 many_file FormatANSI many_root = Ok many_entries ∧
  (searchNBT 2 many_file FormatANSI many_root 33 = Ok (mkNodeInfo 33 4 0 0) ↔
   ∃ l x, l ∈ [take 31 many_entries; drop 31 many_entries] ∧ last l = Some x ∧ NE_NID x = 33 ∧
     mkNodeInfo 33 4 0 0 = nbt_info x).
Proof.
  change many_entries with (concat [take 31 many_entries; drop 31 many_entries]) at 1.
  apply (max_keys_hide_entries many_file FormatANSI many_root [take 31 many_entries; drop 31 many_entries] 2 33).
  - vm_compute; reflexivity.
  - repeat constructor; (eexists _, _; split; [vm_compute; reflexivity|]); vm_compute; repeat split.
  - apply Sorted_StronglySorted; [apply _|]. replace (map _ _) with (map (λ i, 32 * i + 1) (seqZ 1 33)) by (vm_compute; reflexivity).
    vm_compute. repeat constructor.
  - lia.
Defined.

(** ** What the writer may change in the file

    Every write of the writer goes to an area recorded in the map's list of
    pending allocations. *)
Definition w_file (w : BTWriter) : bytes := db_file (w_db w).
Definition w_allocs (w : BTWriter) : list allocation := AM_pendingAllocs (w_amap w).
Definition clear_of (a k : Z) (al : allocation) : Prop := a + k ≤ al_offset al ∨ al_offset al + al_size al ≤ a.
(** Windows from [lo] on that meet no allocation are as before. *)
Definition untouched (lo : Z) (allocs : list allocation) (f f' : bytes) : Prop :=
  blen f ≤ blen f' ∧ ∀ a k, lo ≤ a → 0 ≤ k → a + k ≤ blen f → Forall (clear_of a k) allocs → sub f' a k = sub f a k.

(** One move of the writer: [H] relates the headers. *)
Definition wstep (H : relation Header) (lo : Z) (w w' : BTWriter) : Prop :=
  0 ≤ AM_fileSize (w_amap w) →
  0 ≤ AM_fileSize (w_amap w') ∧ H (db_header (w_db w)) (db_header (w_db w')) ∧
  w_allocs w ⊆ w_allocs w' ∧ untouched lo (w_allocs w') (w_file w) (w_file w').

#[export] Instance wstep_preorder H lo `{!PreOrder H} : PreOrder (wstep H lo).
Proof.
  split.
  - intros w Hfs. split; [done|]. split; [done|]. split; [done|]. split; [lia|done].
  - intros w1 w2 w3 H12 H23 Hfs. destruct (H12 Hfs) as (Hfs2 & Hh & Ha & Hl & Hu).
    destruct (H23 Hfs2) as (Hfs3 & Hh' & Ha' & Hl' & Hu'). split; [done|]. split; [by etrans|]. split; [by etrans|].
    split; [lia|]. intros a k H1 H2 H3 H4. rewrite Hu' by (done || lia). apply Hu; [done..|].
    rewrite Forall_forall in *. intros x Hx. by apply H4, Ha'.
Qed.
Lemma wstep_same H lo w w' `{!PreOrder H} :
  w_amap w' = w_amap w → H (db_header (w_db w)) (db_header (w_db w')) → w_file w' = w_file w → wstep H lo w w'.
Proof.
  intros H1 H2 H3 Hfs. unfold w_allocs. rewrite H1, H3. split; [done|]. split; [done|]. split; [done|]. split; [lia|done].
Qed.

Lemma Allocate_pending m size off m' :
  0 ≤ AM_fileSize m → Allocate m size = Ok (off, m') →
  0 ≤ off ∧ 0 ≤ AM_fileSize m' ∧ AM_pendingAllocs m' = AM_pendingAllocs m ++ [mkAlloc off (AlignDisk size)].
Proof.
  intros Hfs. unfold Allocate. destruct (size =? 0); [done|].
  destruct (find_page _ _) as [[i o]|] eqn:E; intros [= <- <-]; cbn.
  - split; [|done]. revert i o E. induction (AM_pages m) as [|p ps IH]; intros i o E; [done|]. cbn in E.
    destruct (findContiguousFree p _) as [o'|] eqn:Ef.
    + injection E as _ <-. unfold findContiguousFree in Ef. destruct (_ <? _); [done|].
      destruct (find_run _ _ _ _); [|done]. injection Ef as <-. apply u64_range.
    + destruct (find_page ps _) as [[j o']|] eqn:Ep; [|done]. injection E as _ <-. by apply (IH j).
  - split; [done|]. split; [apply u64_range|done].
Qed.

Lemma place_page_moves mk : moves (wstep eq 0) (place_page mk).
Proof.
  intros w Hfs. unfold place_page.
  destruct (Allocate (w_amap w) PageSize) as [[off m]|e|] eqn:EA.
  2:{ rewrite (st_bind_Err _ _ w w e) by (unfold allocate; by rewrite EA). by apply wstep_same; [apply _|..]. }
  2:{ rewrite (st_bind_Panic _ _ w w) by (unfold allocate; by rewrite EA). by apply wstep_same; [apply _|..]. }
  destruct (Allocate_pending _ _ _ _ Hfs EA) as (Hoff & Hfs' & Hp). set (w1 := w_set_amap w m).
  assert (wstep eq 0 w w1) as Hw1.
  { intros _. split; [done|]. split; [done|]. unfold w_allocs. cbn. rewrite Hp. split; [by apply list_subseteq_app_l|]. split; [done|done]. }
  rewrite (st_bind_Ok _ _ w w1 off) by (unfold allocate; by rewrite EA). cbv beta zeta.
  rewrite (st_bind_Ok get _ w1 w1 w1) by done. cbv beta.
  destruct (BuildBTPage (mk off) (db_Format (w_db w1))) as [raw|e|] eqn:EB.
  2:{ rewrite (st_bind_Err _ _ w1 w1 e) by done. by apply Hw1. }
  2:{ rewrite (st_bind_Panic _ _ w1 w1) by done. by apply Hw1. }
  rewrite (st_bind_Ok _ _ w1 w1 raw) by done. cbv beta.
  assert (wstep eq 0 w1 (on_db (WritePage off raw) w1).1) as Hw2.
  { unfold on_db, zoom, WritePage. destruct (db_readOnly _); [by apply wstep_same; [apply _|..]|].
    destruct (Z.eqb_spec (blen raw) PageSize) as [Hr|]; cbn [negb]; [|by apply wstep_same; [apply _|..]].
    destruct (2 ^ 63 <=? off); [by apply wstep_same; [apply _|..]|].
    intros _. split; [done|]. split; [done|]. split; [done|]. unfold w_file. cbn [fst w_set_db w_db set_file db_file].
    split; [rewrite blen_write_at by done; lia|]. intros a k H1 H2 H3 H4. apply write_at_frame; try (done || lia).
    rewrite Forall_forall in H4. specialize (H4 (mkAlloc off (AlignDisk PageSize))). unfold clear_of in H4. cbn in H4.
    rewrite Hr. change (AlignDisk PageSize) with PageSize in H4. apply H4. unfold w_allocs. cbn. rewrite Hp.
    apply elem_of_app. right. left. }
  assert (wstep eq 0 w (on_db (WritePage off raw) w1).1) as Hw3 by (by etrans).
  unfold mbind, ST_bind. destruct (on_db (WritePage off raw) w1) as [w2 [u|e|]]; by apply Hw3.
Qed.
Lemma mapM_moves {S A B} (R : S → S → Prop) `{!PreOrder R} (f : A → ST S B) l :
  (∀ x, moves R (f x)) → moves R (mapM_st f l).
Proof. intros Hf. induction l as [|x l IH]; cbn [mapM_st]; moves_step; [apply Hf|apply IH]. Qed.
Lemma set_roots_moves (f : BTWriter → option BTPage) g :
  moves (wstep eq 0) (modify (λ w, w_set_roots w (f w) (g w))).
Proof. apply moves_modify. intros w. by apply wstep_same; [apply _|..]. Qed.
Lemma buildNonleafLevels_moves depth pt : ∀ children level, moves (wstep eq 0) (buildNonleafLevels depth pt children level).
Proof.
  induction depth as [|depth IH]; intros children level; cbn [buildNonleafLevels]; [moves_step|].
  destruct children as [|c [|c' children]]; moves_step; try apply IH; apply mapM_moves; try apply _; intros;
    moves_step; apply place_page_moves.
Qed.
Lemma createNBTLeafPage_moves es : moves (wstep eq 0) (createNBTLeafPage es).
Proof. unfold createNBTLeafPage. moves_step; [apply place_page_moves|apply (set_roots_moves (λ _, _) w_newBBTRoot)]. Qed.
Lemma createBBTLeafPage_moves es : moves (wstep eq 0) (createBBTLeafPage es).
Proof. unfold createBBTLeafPage. moves_step; [apply place_page_moves|apply (set_roots_moves w_newNBTRoot (λ _, _))]. Qed.
Lemma rebuildNBT_moves depth es : moves (wstep eq 0) (rebuildNBT depth es).
Proof.
  unfold rebuildNBT. moves_step. destruct (_ <=? _); [apply createNBTLeafPage_moves|]. unfold buildNBTTree.
  moves_step; [|apply buildNonleafLevels_moves]. apply mapM_moves; [apply _|]. intros. moves_step. apply createNBTLeafPage_moves.
Qed.
Lemma rebuildBBT_moves depth es : moves (wstep eq 0) (rebuildBBT depth es).
Proof.
  unfold rebuildBBT. moves_step. destruct (_ <=? _); [apply createBBTLeafPage_moves|]. unfold buildBBTTree.
  moves_step; [|apply buildNonleafLevels_moves]. apply mapM_moves; [apply _|]. intros. moves_step. apply createBBTLeafPage_moves.
Qed.
Lemma load_moves (m : ST Database unit) :
  (∀ db, db_file (m db).1 = db_file db ∧ db_header (m db).1 = db_header db) → moves (wstep eq 0) (on_db m).
Proof.
  intros Hm w. specialize (Hm (w_db w)). unfold on_db, zoom. destruct (m (w_db w)) as [db r]. destruct Hm as [H1 H2]. cbn in *.
  by apply wstep_same; [apply _|..].
Qed.
Lemma loadBBTRoot_frame db :
  db_file (loadBBTRoot db).1 = db_file db ∧ db_header (loadBBTRoot db).1 = db_header db.
Proof. unfold loadBBTRoot. destruct (once_done _); [done|]. by repeat destruct (wrap_err _ _). Qed.
Lemma Apply_moves depth : moves (wstep eq 0) (Apply depth).
Proof.
  unfold Apply. moves_step.
  - unfold applyNBTChanges. moves_step. destruct (_ && _); [moves_step|]. moves_step; [|apply rebuildNBT_moves].
    apply load_moves. intros db. by destruct (loadNBTRoot_frame db) as (? & ? & _).
  - unfold applyBBTChanges. moves_step. destruct (_ && _); [moves_step|]. moves_step; [|apply rebuildBBT_moves].
    apply load_moves. apply loadBBTRoot_frame.
Qed.
