(* ===== verification/Node.v ===== *)
(** * Reading nodes ([pkg/ndb/node.go])

    A node's data over simple and extended blocks, reads at an offset, its
    subnode tree, and the stream reader on top. *)
From S2P Require Import Prelude Format Codec Ids Crypt Page Block Header State Database.

(** ** Nodes

    The fields behind [dataOnce] and [subOnce]: absent until the load ran, then
    its error, blocks and size, or its error and block. *)
Record NodeData := mkNodeData { nd_err : option error; nd_blocks : list bytes; nd_size : Z }.
Record NodeSub := mkNodeSub { ns_err : option error; ns_block : option SubnodeBlock }.
Record Node := mkNode { n_info : NodeInfo; n_data : option NodeData; n_sub : option NodeSub }.
Definition newNode (info : NodeInfo) : Node := mkNode info None None.
Definition HasData (n : Node) : bool := negb (NI_DataBID (n_info n) =? 0).
Definition HasSubnodes (n : Node) : bool := negb (NI_SubBID (n_info n) =? 0).

(** ** Blocks with their spare capacity *)

(** The bytes between length and capacity of the slice that
    [ReadBlockDataFromInfo] returns: the rest of the buffer, unless decryption
    made a fresh slice. *)
Definition block_spare (db : Database) (info : BlockInfo) : bytes :=
  if negb (IsInternal (BI_BID info)) &&
     ((db_CryptMethod db =? CryptMethodPermute) || (db_CryptMethod db =? CryptMethodCyclic))
  then [] else sub (db_file db) (BI_Location info + BI_Size info) (read_span db info - BI_Size info).

Section reading.
(** Depth of the call stack. *)
Context (depth : nat).

Definition read_block (bid : Z) : ST Database (bytes * bytes) :=
  do info <- LookupBlock depth bid;
  do db <- get;
  do data <- lift (ReadBlockDataFromInfo db info);
  mret (data, block_spare db info).

(** The loop over the children of an extended block: blocks and total size. *)
Fixpoint read_children (read : Z → ST Database (list bytes * Z)) (bids : list Z) (blocks : list bytes) (totalSize : Z)
    : ST Database (list bytes * Z) :=
  match bids with
  | [] => mret (blocks, totalSize)
  | childBID :: bids =>
    do r <- read childBID;
    read_children read bids (blocks ++ r.1) (u64 (totalSize + r.2))
  end.
Definition read_data_block (bid : Z) : ST Database (list bytes * Z) :=
  do childData <- ReadBlockData depth bid; mret ([childData], blen childData).
(** [levels] bounds the recursion over extended blocks. *)
Fixpoint readNodeData (levels : nat) (bid : Z) : ST Database (list bytes * Z) :=
  match levels with
  | O => lift Panic
  | S levels =>
    do r <- read_block bid;
    if IsInternal bid then
      do db <- get;
      do eb <- lift (ParseExtendedBlock r.1 r.2 (db_Format db));
      if EB_Level eb =? 0 then read_children read_data_block (EB_BIDs eb) [] 0
      else read_children (readNodeData levels) (EB_BIDs eb) [] 0
    else mret ([r.1], blen r.1)
  end.
End reading.

(** ** The node's data *)
Definition NState : Type := Database * Node.
Definition n_db {A} (m : ST Database A) : ST NState A := zoom fst (λ s db, (db, s.2)) m.
Definition set_data (d : NodeData) : ST NState unit := modify (λ s, (s.1, mkNode (n_info s.2) (Some d) (n_sub s.2))).
Definition set_sub (d : NodeSub) : ST NState unit := modify (λ s, (s.1, mkNode (n_info s.2) (n_data s.2) (Some d))).
(** The node's error, if any, as the outcome of a call. *)
Definition or_err {A} (e : option error) (a : A) : result A := match e with Some e => Err e | None => Ok a end.

Definition loadData (depth levels : nat) : ST NState NodeData := λ s,
  match n_data s.2 with
  | Some d => (s, or_err (nd_err d) d)
  | None =>
    let bid := NI_DataBID (n_info s.2) in
    if bid =? 0 then (set_data (mkNodeData None [] 0) ;; mret (mkNodeData None [] 0)) s
    else match n_db (readNodeData depth levels bid) s with
         | (s, Ok r) => (set_data (mkNodeData None r.1 r.2) ;; mret (mkNodeData None r.1 r.2)) s
         | (s, Err e) => (set_data (mkNodeData (Some e) [] 0) ;; fail e) s
         | (s, Panic) => (set_data (mkNodeData None [] 0) ;; lift Panic) s
         end
  end.

Section data.
Context (depth levels : nat).
Definition NodeSize : ST NState Z := do d <- loadData depth levels; mret (nd_size d).
Definition BlockCount : ST NState Z := do d <- loadData depth levels; mret (blen (nd_blocks d)).
Definition ReadAll : ST NState bytes :=
  do d <- loadData depth levels;
  match nd_blocks d with
  | [] => mret []
  | [b] => mret b
  | bs => mret (concat bs)
  end.
Definition GetBlock (index : Z) : ST NState bytes :=
  do d <- loadData depth levels;
  if (index <? 0) || (blen (nd_blocks d) <=? index)
  then fail (EFmt "block index out of range: %d (have %d blocks)" [index; blen (nd_blocks d)])
  else lift (match nd_blocks d !! Z.to_nat index with Some b => Ok b | None => Panic end).

(** The block loop of [Read], from the block at [currentOffset]. *)
Fixpoint read_blocks (blocks : list bytes) (offset currentOffset remaining : Z) (acc : bytes) : result bytes :=
  match blocks with
  | [] => Ok acc
  | block :: blocks =>
    let blockSize := blen block in
    if u64 (currentOffset + blockSize) <=? offset
    then read_blocks blocks offset (u64 (currentOffset + blockSize)) remaining acc
    else
      let blockStart := if currentOffset <? offset then u64 (offset - currentOffset) else 0 in
      let blockEnd := if u64 (blockStart + remaining) <? blockSize then u64 (blockStart + remaining) else blockSize in
      part ← slice block blockStart blockEnd;
      let remaining := u64 (remaining - u64 (blockEnd - blockStart)) in
      if remaining =? 0 then Ok (acc ++ part)
      else read_blocks blocks offset (u64 (currentOffset + blockSize)) remaining (acc ++ part)
  end.
(** Go's [make] panics for a capacity beyond the address space. *)
Definition maxAlloc : Z := 2 ^ 48.
Definition Read (offset size : Z) : ST NState bytes :=
  do d <- loadData depth levels;
  if nd_size d <=? offset then mret [] else
  let size := if nd_size d <? u64 (offset + size) then u64 (nd_size d - offset) else size in
  if maxAlloc <? size then lift Panic else lift (read_blocks (nd_blocks d) offset 0 size []).
End data.

(** ** Subnodes *)
Definition sub_info (e : SubnodeLeafEntry) : NodeInfo := mkNodeInfo (u32 (SE_NID e)) (SE_DataBID e) (SE_SubBID e) 0.
Definition read_subnode_block (depth : nat) (bid : Z) : ST Database SubnodeBlock :=
  do r <- read_block depth bid;
  do db <- get;
  lift (ParseSubnodeBlock r.1 r.2 (db_Format db)).
Definition loadSubnodes (depth : nat) : ST NState (option SubnodeBlock) := λ s,
  match n_sub s.2 with
  | Some d => (s, or_err (ns_err d) (ns_block d))
  | None =>
    let bid := NI_SubBID (n_info s.2) in
    if bid =? 0 then (set_sub (mkNodeSub None None) ;; mret None) s
    else match n_db (read_subnode_block depth bid) s with
         | (s, Ok b) => (set_sub (mkNodeSub None (Some b)) ;; mret (Some b)) s
         | (s, Err e) => (set_sub (mkNodeSub (Some e) None) ;; fail e) s
         | (s, Panic) => (set_sub (mkNodeSub None None) ;; lift Panic) s
         end
  end.

Fixpoint find_subnode (entries : list SubnodeLeafEntry) (nid : Z) : result NodeInfo :=
  match entries with
  | [] => Err (EFmt "subnode not found: 0x%X" [nid])
  | e :: entries => if SE_NID e =? nid then Ok (sub_info e) else find_subnode entries nid
  end.
(** The child under the first key at or above [nid], else under the last key. *)
Fixpoint choose_child (entries : list SubnodeNonleafEntry) (nid : Z) : Z :=
  match entries with
  | [] => 0
  | e :: entries => if nid <=? SK_Key e then SK_SubBID e else choose_child entries nid
  end.
Definition subnode_child (entries : list SubnodeNonleafEntry) (nid : Z) : Z :=
  let childBID := choose_child entries nid in
  if childBID =? 0 then match last entries with Some e => SK_SubBID e | None => 0 end else childBID.
Fixpoint searchSubnode (depth levels : nat) (block : SubnodeBlock) (nid : Z) : ST Database NodeInfo :=
  match levels with
  | O => lift Panic
  | S levels =>
    if SB_IsLeaf block then lift (find_subnode (SB_LeafEntries block) nid)
    else
      let childBID := subnode_child (SB_NonleafEntries block) nid in
      if childBID =? 0 then fail (EFmt "subnode not found: 0x%X" [nid])
      else do child <- read_subnode_block depth childBID; searchSubnode depth levels child nid
  end.
Definition LookupSubnode (depth levels : nat) (nid : Z) : ST NState Node :=
  do b <- loadSubnodes depth;
  match b with
  | None => fail (EFmt "subnode not found: 0x%X (no subnodes)" [nid])
  | Some block => do info <- n_db (searchSubnode depth levels block nid); mret (newNode info)
  end.

(** The iterator over a subnode block.  [yield] is the consumer's loop body: it
    says whether to go on; [run_db] runs a database call in its state. *)
Section iterate.
Context {St : Type} (run_db : ∀ A, ST Database A → ST St A) (yield : result NodeInfo → ST St bool).
Fixpoint yield_entries (es : list SubnodeLeafEntry) : ST St bool :=
  match es with
  | [] => mret true
  | e :: es => do more <- yield (Ok (sub_info e)); if (more : bool) then yield_entries es else mret false
  end.
Fixpoint iterateSubnodes (depth levels : nat) (block : SubnodeBlock) : ST St bool :=
  match levels with
  | O => lift Panic
  | S levels =>
    if SB_IsLeaf block then yield_entries (SB_LeafEntries block)
    else (fix children (es : list SubnodeNonleafEntry) : ST St bool := λ s,
      match es with
      | [] => (s, Ok true)
      | e :: es =>
        match run_db _ (read_subnode_block depth (SK_SubBID e)) s with
        | (s, Err err) => (yield (Err err) ;; mret false) s
        | (s, Panic) => (s, Panic)
        | (s, Ok child) =>
          (do more <- iterateSubnodes depth levels child; if (more : bool) then children es else mret false) s
        end
      end) (SB_NonleafEntries block)
  end.
(** [Subnodes] on a node whose subnode block was loaded with outcome [r]. *)
Definition Subnodes (depth levels : nat) (r : result (option SubnodeBlock)) : ST St unit :=
  match r with
  | Err e => yield (Err e) ;; mret tt
  | Panic => lift Panic
  | Ok None => mret tt
  | Ok (Some block) => iterateSubnodes depth levels block ;; mret tt
  end.
End iterate.
(** The list a consumer that never stops sees. *)
Definition SubnodeList (depth levels : nat) (node : Node) : ST Database (list (result NodeInfo)) := λ db,
  let '((db, _), r) := loadSubnodes depth (db, node) in
  let run_db A (m : ST Database A) : ST (Database * list (result NodeInfo)) A := zoom fst (λ s db, (db, s.2)) m in
  let '((db, l), r) := Subnodes run_db (λ y, modify (λ s, (s.1, s.2 ++ [y])) ;; mret true) depth levels r (db, []) in
  (db, match r with Ok _ => Ok l | Err e => Err e | Panic => Panic end).
Definition GetNode (depth : nat) (nid : Z) : ST Database Node := do info <- LookupNode depth nid; mret (newNode info).

(** ** The stream reader

    A read returns the bytes it copied into the buffer of the given length, or
    [EOF]. *)
Record NodeReader := mkReader { nr_offset : Z }.
Inductive Whence := SeekStart | SeekCurrent | SeekEnd.
Section reader.
Context (depth levels : nat).
Definition EOF : error := EFmt "EOF" [].
Definition ReaderRead (len : Z) : ST (NState * NodeReader) bytes := λ s,
  match NodeSize depth levels s.1 with
  | (n, Ok size) =>
    if size <=? nr_offset s.2 then ((n, s.2), Err EOF) else
    match Read depth levels (nr_offset s.2) len n with
    | (n, Ok data) =>
      let k := Z.min len (blen data) in
      let r := mkReader (u64 (nr_offset s.2 + k)) in
      if k =? 0 then ((n, r), Err EOF) else ((n, r), Ok (take (Z.to_nat len) data))
    | (n, Err e) => ((n, s.2), Err e)
    | (n, Panic) => ((n, s.2), Panic)
    end
  | (n, Err e) => ((n, s.2), Err e)
  | (n, Panic) => ((n, s.2), Panic)
  end.
(** [int64(v)] *)
Definition Seek (offset : Z) (whence : Whence) : ST (NState * NodeReader) Z := λ s,
  match NodeSize depth levels s.1 with
  | (n, Ok size) =>
    let newOffset := match whence with
      | SeekStart => offset
      | SeekCurrent => i64 (i64 (nr_offset s.2) + offset)
      | SeekEnd => i64 (i64 size + offset)
      end in
    if newOffset <? 0 then ((n, s.2), Err (EFmt "negative seek position: %d" [newOffset]))
    else ((n, mkReader (u64 newOffset)), Ok newOffset)
  | (n, Err e) => ((n, s.2), Err e)
  | (n, Panic) => ((n, s.2), Panic)
  end.
End reader.

(** ** Reading as a function of the file

    On a coherent database the reads depend on the file and the block tree
    only. *)
Section stored.
Context (depth : nat) (np bp : BTPage).

Definition pure_block (db : Database) (bid : Z) : result (bytes * bytes) :=
  info ← searchBBT depth (db_file db) (db_Format db) bp (clear2 bid);
  data ← ReadBlockDataFromInfo db info;
  mret (data, block_spare db info).
Lemma pure_block_same db db' bid : same_store db db' → pure_block db' bid = pure_block db bid.
Proof.
  intros (F1 & F2 & _). unfold pure_block, ReadBlockDataFromInfo, block_spare, read_span, db_Format, db_CryptMethod.
  by rewrite F1, F2.
Qed.
Lemma read_block_coherent bid db : coherent depth np bp db →
  ∃ db', read_block depth bid db = (db', pure_block db bid) ∧ coherent depth np bp db' ∧ same_store db db'.
Proof.
  intros Hc. destruct (LookupBlock_coherent depth np bp bid db Hc) as (db1 & HL & Hc1 & Hs).
  pose proof (pure_block_same db db1 bid Hs) as Hp. destruct Hs as (F1 & F2 & Hs). unfold read_block, pure_block in *.
  unfold db_Format in *. rewrite F1, F2 in Hp.
  destruct (searchBBT depth (db_file db) (HFormat (db_header db)) bp (clear2 bid)) as [info|e|]; exists db1; (split; [|done]).
  2: by apply st_bind_Err. 2: by apply st_bind_Panic.
  rewrite (st_bind_Ok _ _ db db1 info) by done. rewrite (st_bind_Ok get _ db1 db1 db1) by done. cbv beta.
  rewrite <- Hp. rewrite bind_Ok. by destruct (ReadBlockDataFromInfo db1 info).
Qed.
Lemma ReadBlockData_pure bid db : coherent depth np bp db →
  ∃ db', ReadBlockData depth bid db = (db', fst <$> pure_block db bid) ∧ coherent depth np bp db' ∧ same_store db db'.
Proof.
  intros Hc. destruct (read_block_coherent bid db Hc) as (db' & HR & Hc' & Hs). exists db'. split; [|done].
  unfold read_block in HR. unfold ReadBlockData. destruct (LookupBlock depth bid db) as [db1 [info|e|]] eqn:EL.
  - rewrite (st_bind_Ok _ _ db db1 info) in HR by done. rewrite (st_bind_Ok _ _ db db1 info) by done. rewrite (st_bind_Ok get _ db1 db1 db1) in HR by done. rewrite (st_bind_Ok get _ db1 db1 db1) by done.
    cbv beta in *. unfold mbind, ST_bind, lift in *. destruct (ReadBlockDataFromInfo db1 info); injection HR as <- <-; done.
  - rewrite (st_bind_Err _ _ db db1 e) in HR by done. rewrite (st_bind_Err _ _ db db1 e) by done. by injection HR as <- <-.
  - rewrite (st_bind_Panic _ _ db db1) in HR by done. rewrite (st_bind_Panic _ _ db db1) by done. by injection HR as <- <-.
Qed.

(** [stored_as db n bid blocks]: the blocks that the tree of extended blocks of
    height at most [n] under [bid] leads to, in order. *)
Inductive stored_as (db : Database) : nat → Z → list bytes → Prop :=
  | stored_simple n bid data spare :
      IsInternal bid = false → pure_block db bid = Ok (data, spare) → stored_as db (S n) bid [data]
  | stored_level0 n bid data spare eb blocks :
      IsInternal bid = true → pure_block db bid = Ok (data, spare) →
      ParseExtendedBlock data spare (db_Format db) = Ok eb → EB_Level eb = 0 →
      Forall2 (λ b d, ∃ sp, pure_block db b = Ok (d, sp)) (EB_BIDs eb) blocks →
      stored_as db (S n) bid blocks
  | stored_above n bid data spare eb bss :
      IsInternal bid = true → pure_block db bid = Ok (data, spare) →
      ParseExtendedBlock data spare (db_Format db) = Ok eb → EB_Level eb ≠ 0 →
      stored_list db n (EB_BIDs eb) bss → stored_as db (S n) bid (concat bss)
with stored_list (db : Database) : nat → list Z → list (list bytes) → Prop :=
  | stored_nil n : stored_list db n [] []
  | stored_cons n bid bids blocks bss :
      stored_as db n bid blocks → stored_list db n bids bss → stored_list db n (bid :: bids) (blocks :: bss).

(** A child read that returns its blocks and their size, on any coherent
    database with the same file. *)
Definition reads_as (db : Database) (read : Z → ST Database (list bytes * Z)) (bid : Z) (blocks : list bytes) : Prop :=
  ∀ db1, coherent depth np bp db1 → same_store db db1 →
    ∃ db2, read bid db1 = (db2, Ok (blocks, blen (concat blocks))) ∧ coherent depth np bp db2 ∧ same_store db db2.
Lemma read_children_exact db read bids bss :
  Forall2 (reads_as db read) bids bss → ∀ acc total db1,
  coherent depth np bp db1 → same_store db db1 → total = blen (concat acc) →
  blen (concat acc) + blen (concat (concat bss)) < 2 ^ 64 →
  ∃ db2, read_children read bids acc total db1
    = (db2, Ok (acc ++ concat bss, blen (concat (acc ++ concat bss)))) ∧ coherent depth np bp db2 ∧ same_store db db2.
Proof.
  induction 1 as [|bid blocks bids bss Hr Hf IH]; intros acc total db1 Hc Hs -> Hlt; cbn [read_children concat].
  { exists db1. by rewrite app_nil_r. }
  destruct (Hr db1 Hc Hs) as (db2 & HR & Hc2 & Hs2). rewrite (st_bind_Ok _ _ db1 db2 _ HR). cbn [fst snd].
  cbn [concat] in Hlt. rewrite concat_app, blen_app in Hlt.
  pose proof (blen_nonneg (concat acc)). pose proof (blen_nonneg (concat blocks)).
  pose proof (blen_nonneg (concat (concat bss))).
  rewrite u64_small by lia. rewrite app_assoc.
  apply (IH (acc ++ blocks)); [done|done|by rewrite concat_app, blen_app|rewrite concat_app, blen_app; lia].
Qed.

Lemma concat_singletons {A} (l : list A) : concat (map (λ x, [x]) l) = l.
Proof. induction l as [|x l IH]; cbn; [done|]. by f_equal. Qed.

Lemma readNodeData_stored db n : ∀ bid blocks levels,
  stored_as db n bid blocks → (n ≤ levels)%nat → blen (concat blocks) < 2 ^ 64 →
  reads_as db (readNodeData depth levels) bid blocks.
Proof.
  induction n as [|n IH]; intros bid blocks levels Hst Hl Hlt; [inversion Hst|]. destruct levels as [|levels]; [lia|].
  intros db1 Hc Hs. cbn [readNodeData]. pose proof Hs as (_ & F2 & _).
  destruct (read_block_coherent bid db1 Hc) as (db2 & HR & Hc2 & Hs2). rewrite (pure_block_same db db1) in HR by done.
  assert (same_store db db2) as Hs3 by (by etrans).
  assert (db_Format db2 = db_Format db) as F3 by (unfold db_Format; by destruct Hs3 as (_ & -> & _)).
  inversion Hst as [n' bid' data spare Hi Hp|n' bid' data spare eb bs Hi Hp HP Hlv Hf
    |n' bid' data spare eb bss Hi Hp HP Hlv Hf]; subst; rewrite Hp in HR; rewrite (st_bind_Ok _ _ _ _ _ HR);
    cbn [fst snd]; rewrite Hi.
  - exists db2. cbn [concat]. by rewrite app_nil_r.
  - rewrite (st_bind_Ok get _ db2 db2 db2) by done. cbv beta. rewrite F3.
    rewrite (st_bind_Ok _ _ db2 db2 eb) by (unfold lift; by rewrite HP). rewrite Hlv. cbn [Z.eqb].
    pose proof (read_children_exact db (read_data_block depth) (EB_BIDs eb) (map (λ x, [x]) blocks)) as H.
    rewrite concat_singletons in H. apply (λ HF, H HF [] 0 db2 Hc2 Hs3 eq_refl Hlt).
    clear - Hf. induction Hf as [|b d bids ds (sp & Hb) Hf IHf]; constructor; [|done].
    intros db1 Hc1 Hs1. destruct (ReadBlockData_pure b db1 Hc1) as (db2 & HR & Hc2 & Hs2).
    rewrite (pure_block_same db db1), Hb in HR by done. exists db2. unfold read_data_block.
    rewrite (st_bind_Ok _ _ db1 db2 d) by done. cbn [concat]. rewrite app_nil_r. split; [done|]. split; [done|by etrans].
  - rewrite (st_bind_Ok get _ db2 db2 db2) by done. cbv beta. rewrite F3.
    rewrite (st_bind_Ok _ _ db2 db2 eb) by (unfold lift; by rewrite HP). rewrite (proj2 (Z.eqb_neq _ _) Hlv).
    apply (λ HF, read_children_exact db (readNodeData depth levels) (EB_BIDs eb) bss HF [] 0 db2 Hc2 Hs3 eq_refl Hlt).
    clear - Hf IH Hlt Hl. revert Hlt. induction Hf as [|m b bids blocks bss Hb Hf IHf]; intros Hlt; constructor.
    + apply (IH _ _ levels Hb); [lia|]. cbn in Hlt. rewrite concat_app, blen_app in Hlt. pose proof (blen_nonneg (concat (concat bss))). lia.
    + apply IHf; [done|lia|]. cbn in Hlt. rewrite concat_app, blen_app in Hlt. pose proof (blen_nonneg (concat blocks)). lia.
Qed.
End stored.

(** ** Reads at an offset *)
Lemma sub_app_split {A} (l k : list A) a n :
  0 ≤ a ≤ blen l → blen l - a ≤ n → sub (l ++ k) a n = sub l a (blen l - a) ++ sub k 0 (n - (blen l - a)).
Proof.
  intros Ha Hn. unfold sub, blen in *. rewrite drop_app_le by lia. rewrite take_app_ge by (rewrite length_drop; lia).
  rewrite length_drop. rewrite (take_ge (drop _ _)) by (rewrite length_drop; lia). rewrite drop_0. f_equal. f_equal. lia.
Qed.
Lemma read_blocks_spec blocks : ∀ offset cur remaining acc,
  0 ≤ cur → 0 ≤ offset → 0 ≤ remaining → cur + blen (concat blocks) < 2 ^ 62 → offset < 2 ^ 62 →
  Z.max cur offset + remaining ≤ cur + blen (concat blocks) →
  read_blocks blocks offset cur remaining acc = Ok (acc ++ sub (concat blocks) (Z.max cur offset - cur) remaining).
Proof.
  induction blocks as [|b blocks IH]; intros offset cur remaining acc Hc Ho Hr Ht Hof Hin; cbn [read_blocks concat] in *.
  { rewrite (@blen_nil Z) in Hin. assert (remaining = 0) as -> by lia. unfold sub. cbn [Z.to_nat take]. by rewrite app_nil_r. }
  rewrite blen_app in Ht, Hin. pose proof (blen_nonneg b). pose proof (blen_nonneg (concat blocks)).
  rewrite (u64_small (cur + blen b)) by lia. destruct (Z.leb_spec (cur + blen b) offset) as [Hskip|Hhit].
  { rewrite IH by lia. do 2 f_equal. rewrite sub_app_r by lia. f_equal. lia. }
  set (s := if cur <? offset then u64 (offset - cur) else 0).
  assert (s = Z.max cur offset - cur) as Hs.
  { subst s. destruct (Z.ltb_spec cur offset); [rewrite u64_small by lia|]; lia. }
  clearbody s. rewrite <- Hs. rewrite (u64_small (s + remaining)) by lia.
  destruct (Z.ltb_spec (s + remaining) (blen b)) as [Hfit|Hover].
  - rewrite slice_Ok by lia. rewrite bind_Ok. replace (s + remaining - s) with remaining by lia.
    rewrite (u64_small remaining), Z.sub_diag by lia. cbn [Z.eqb u64]. by rewrite sub_app_l by lia.
  - rewrite slice_Ok by lia. rewrite bind_Ok. rewrite (u64_small (blen b - s)), (u64_small (remaining - _)) by lia.
    rewrite sub_app_split by lia. destruct (Z.eqb_spec (remaining - (blen b - s)) 0) as [->|Hne].
    + unfold sub at 3. cbn [Z.to_nat take]. by rewrite app_nil_r.
    + rewrite IH by lia. rewrite <- app_assoc. do 3 f_equal. f_equal. lia.
Qed.

(** A node whose data is loaded: its blocks and their total size. *)
Definition loaded (s : NState) (blocks : list bytes) : Prop :=
  n_data s.2 = Some (mkNodeData None blocks (blen (concat blocks))).
Lemma loadData_loaded depth levels s blocks : loaded s blocks →
  loadData depth levels s = (s, Ok (mkNodeData None blocks (blen (concat blocks)))).
Proof. intros H. unfold loadData. by rewrite H. Qed.
Lemma Read_loaded depth levels s blocks offset size :
  loaded s blocks → blen (concat blocks) < maxAlloc → 0 ≤ offset → 0 ≤ size → offset + size < 2 ^ 64 →
  Read depth levels offset size s = (s, Ok (sub (concat blocks) offset size)).
Proof.
  intros Hl Hmax Ho Hs Hov. unfold Read. rewrite (st_bind_Ok _ _ _ _ _ (loadData_loaded depth levels s blocks Hl)).
  cbn [nd_size nd_blocks]. set (total := blen (concat blocks)) in *. unfold maxAlloc in *.
  destruct (Z.leb_spec total offset) as [Hge|Hlt].
  { unfold sub. rewrite drop_ge by (unfold total, blen in *; lia). by rewrite take_nil. }
  rewrite (u64_small (offset + size)) by lia.
  assert ((if total <? offset + size then u64 (total - offset) else size) = Z.min size (total - offset)) as ->.
  { destruct (Z.ltb_spec total (offset + size)); [rewrite u64_small by lia|]; lia. }
  rewrite (proj2 (Z.ltb_ge _ _)) by lia. unfold lift. f_equal. rewrite read_blocks_spec by lia. cbn [app]. f_equal.
  rewrite Z.max_r, Z.sub_0_r by lia. destruct (Z.leb_spec size (total - offset)); [by rewrite Z.min_l by lia|].
  rewrite Z.min_r by lia. unfold sub, total, blen in *. rewrite !take_ge by (rewrite length_drop; lia). done.
Qed.

(** C22: Reading a node: over any tree of extended blocks, [ReadAll] returns the
    data blocks in order and joined, [Size] their total length, and [Read] at
    any offset exactly that window of the joined data, cut at its end. *)
Theorem node_reads_exact depth levels np bp db n info blocks offset size :
  coherent depth np bp db → NI_DataBID info ≠ 0 → stored_as depth bp db n (NI_DataBID info) blocks → (n ≤ levels)%nat →
  blen (concat blocks) < maxAlloc → 0 ≤ offset → 0 ≤ size → offset + size < 2 ^ 64 →
  (ReadAll depth levels (db, newNode info)).2 = Ok (concat blocks) ∧
  (NodeSize depth levels (db, newNode info)).2 = Ok (blen (concat blocks)) ∧
  (Read depth levels offset size (db, newNode info)).2 = Ok (sub (concat blocks) offset size).
Proof.
  intros Hc Hb Hst Hl Hmax Ho Hs Hov. unfold maxAlloc in Hmax.
  destruct (readNodeData_stored depth np bp db n _ _ levels Hst Hl ltac:(lia) db Hc ltac:(done)) as (db1 & HR & _ & _).
  set (d := mkNodeData None blocks (blen (concat blocks))).
  set (s := (db1, mkNode info (Some d) None)).
  assert (loadData depth levels (db, newNode info) = (s, Ok d)) as HL.
  { unfold loadData. cbn [newNode n_data snd n_info]. rewrite (proj2 (Z.eqb_neq _ _) Hb). unfold n_db, zoom. cbn [fst].
    by rewrite HR. }
  assert (loaded s blocks) as Hld by done.
  assert (∀ A (k : NodeData → ST NState A), (loadData depth levels ≫= k) (db, newNode info) = (loadData depth levels ≫= k) s) as Hk.
  { intros A k. rewrite (st_bind_Ok _ _ _ _ _ HL). by rewrite (st_bind_Ok _ _ _ _ _ (loadData_loaded depth levels s blocks Hld)). }
  split_and!.
  - unfold ReadAll. rewrite (st_bind_Ok _ _ _ _ _ HL). cbn [d nd_blocks]. destruct blocks as [|b [|b' bs]]; [done| |done].
    cbn [concat]. by rewrite app_nil_r.
  - unfold NodeSize. by rewrite (st_bind_Ok _ _ _ _ _ HL).
  - unfold Read. rewrite Hk. change (snd (Read depth levels offset size s) = Ok (sub (concat blocks) offset size)).
    by rewrite (Read_loaded depth levels s blocks) by done.
Qed.
(** Two data blocks under an extended block, in a file with both trees. *)
Definition sample_blocks_header : Header :=
  UpdateBTreeRoots (NewHeader FormatANSI ClientMagicPST) (mkBRef 0 0) (mkBRef 512 512).
Definition sample_blocks_file : bytes :=
  write_at 1280 (ok_or [] (BuildExtendedBlock 1 [4; 8] 5 14 1280 FormatANSI))
  (write_at 1152 (ok_or [] (BuildBlock [4; 5] 8 1152 FormatANSI CryptMethodPermute))
  (write_at 1024 (ok_or [] (BuildBlock [1; 2; 3] 4 1024 FormatANSI CryptMethodPermute))
  (ok_or [] (BuildBTPage (NewNBTLeafPage [mkNBTLeaf 33 14 0 0] 0) FormatANSI)
   ++ ok_or [] (BuildBTPage (NewBBTLeafPage [mkBBTLeaf (mkBRef 4 1024) 3 1; mkBBTLeaf (mkBRef 8 1152) 2 1;
                                              mkBBTLeaf (mkBRef 14 1280) 16 1] 512) FormatANSI)))).
Definition sample_blocks_db : Database := sample_db sample_blocks_file sample_blocks_header.
Lemma sample_blocks_coherent :
  coherent 1 (sample_child sample_blocks_file PageTypeNBT 0) (sample_child sample_blocks_file PageTypeBBT 512) sample_blocks_db.
Proof.
  split; [left; split; [done|vm_compute; reflexivity]..| |]; intros k i H; done.
Qed.
Lemma node_reads_exact_witness :
  let s := (sample_blocks_db, newNode (mkNodeInfo 33 14 0 0)) in
  (ReadAll 1 2 s).2 = Ok [1; 2; 3; 4; 5] ∧ (NodeSize 1 2 s).2 = Ok 5 ∧ (Read 1 2 2 2 s).2 = Ok [3; 4].
Proof.
  refine (node_reads_exact 1 2 _ _ sample_blocks_db 2 (mkNodeInfo 33 14 0 0) [[1; 2; 3]; [4; 5]] 2 2 sample_blocks_coherent _ _ (le_n 2) _ _ _ _).
  - done.
  - eapply (stored_above 1 _ sample_blocks_db 1 14 _ _ _ [[[1; 2; 3]]; [[4; 5]]]).
    + done.
    + vm_compute; reflexivity.
    + vm_compute; reflexivity.
    + done.
    + repeat constructor; eapply stored_simple; [done|vm_compute; reflexivity|done|vm_compute; reflexivity].
  - by vm_compute.
  - done.
  - done.
  - done.
Defined.

(** ** Streaming *)

Definition is_EOF (e : error) : bool := match e with EFmt s [] => bool_decide (s = "EOF"%string) | _ => false end.
(** Read with a buffer of [k] bytes until [EOF]. *)
Fixpoint drain (fuel : nat) (depth levels : nat) (k : Z) (s : NState * NodeReader) (acc : bytes) : option (result bytes) :=
  match fuel with
  | O => None
  | S fuel =>
    match ReaderRead depth levels k s with
    | (s, Ok data) => drain fuel depth levels k s (acc ++ data)
    | (_, Err e) => if is_EOF e then Some (Ok acc) else Some (Err e)
    | (_, Panic) => Some Panic
    end
  end.
Lemma NodeSize_loaded depth levels s blocks : loaded s blocks → NodeSize depth levels s = (s, Ok (blen (concat blocks))).
Proof. intros H. unfold NodeSize. by rewrite (st_bind_Ok _ _ _ _ _ (loadData_loaded depth levels s blocks H)). Qed.
Lemma ReaderRead_loaded depth levels s blocks k off :
  loaded s blocks → blen (concat blocks) < maxAlloc → 0 < k < 2 ^ 62 → 0 ≤ off < blen (concat blocks) →
  ReaderRead depth levels k (s, mkReader off) =
    ((s, mkReader (off + Z.min k (blen (concat blocks) - off))), Ok (sub (concat blocks) off k)).
Proof.
  intros Hl Hmax Hk Ho. unfold ReaderRead. cbn [fst snd nr_offset]. rewrite (NodeSize_loaded _ _ _ _ Hl).
  rewrite (proj2 (Z.leb_gt _ _)) by lia. unfold maxAlloc in Hmax. rewrite (Read_loaded _ _ _ _ _ _ Hl) by (unfold maxAlloc; lia).
  set (total := blen (concat blocks)) in *.
  assert (blen (sub (concat blocks) off k) = Z.min k (total - off)) as Hlen.
  { unfold sub, blen, total in *. rewrite length_take, length_drop. unfold blen in *. lia. }
  rewrite Hlen. rewrite (proj2 (Z.eqb_neq _ _)) by lia. rewrite (Z.min_r k) by lia. rewrite u64_small by lia.
  rewrite take_ge; [done|]. unfold blen in Hlen. lia.
Qed.

(** C31: The stream reader delivers the whole node: reading with any positive
    buffer size from any position up to the end, until [EOF], ends after at most
    one read per buffer of remaining data and returns exactly the rest of the
    joined blocks. *)
Theorem reader_drains fuel depth levels s blocks k off acc :
  loaded s blocks → blen (concat blocks) < maxAlloc → 0 < k < 2 ^ 62 → 0 ≤ off ≤ blen (concat blocks) →
  (blen (concat blocks) - off + k - 1) / k + 1 ≤ Z.of_nat fuel →
  drain fuel depth levels k (s, mkReader off) acc = Some (Ok (acc ++ drop (Z.to_nat off) (concat blocks))).
Proof.
  intros Hl Hmax Hk. set (total := blen (concat blocks)) in *. revert off acc.
  induction fuel as [|fuel IH]; intros off acc Ho Hf.
  { assert (0 ≤ (total - off + k - 1) / k) by (apply Z.div_pos; lia). lia. }
  cbn [drain]. destruct (decide (off = total)) as [->|Hne].
  - unfold ReaderRead. cbn [fst snd nr_offset]. rewrite (NodeSize_loaded _ _ _ _ Hl). fold total.
    rewrite Z.leb_refl. cbn [is_EOF EOF]. rewrite bool_decide_eq_true_2 by done. rewrite drop_ge by (unfold total, blen; lia). by rewrite app_nil_r.
  - rewrite (ReaderRead_loaded _ _ _ _ k off Hl) by (done || lia). fold total.
    destruct (Z.leb_spec k (total - off)) as [Hle|Hgt].
    + rewrite Z.min_l by lia. rewrite IH; [| lia|].
      * rewrite <- app_assoc. do 3 f_equal. unfold sub. rewrite <- (take_drop (Z.to_nat k) (drop (Z.to_nat off) (concat blocks))) at 2.
        f_equal. rewrite drop_drop. f_equal. lia.
      * replace (total - off + k - 1) with ((total - (off + k) + k - 1) + 1 * k) in Hf by lia. rewrite Z.div_add in Hf by lia. lia.
    + rewrite Z.min_r by lia. replace (off + (total - off)) with total by lia. rewrite IH; [|lia|].
      * rewrite (drop_ge _ (Z.to_nat total)) by (unfold total, blen; lia). rewrite app_nil_r. do 3 f_equal.
        unfold sub. apply take_ge. rewrite length_drop. unfold total, blen in *. lia.
      * rewrite Z.sub_diag, (Z.div_small (0 + k - 1)) by lia.
        replace (total - off + k - 1) with ((total - off - 1) + 1 * k) in Hf by lia. rewrite Z.div_add in Hf by lia.
        assert (0 ≤ (total - off - 1) / k) by (apply Z.div_pos; lia). lia.
Qed.
Lemma reader_drains_witness :
  let s : NState := (sample_blocks_db, mkNode (mkNodeInfo 33 14 0 0) (Some (mkNodeData None [[1; 2; 3]; [4; 5]] 5)) None) in
  drain 4 1 1 2 (s, mkReader 1) [] = Some (Ok ([] ++ drop 1 (concat [[1; 2; 3]; [4; 5]]))).
Proof.
  intros s. apply (reader_drains 4 1 1 s [[1; 2; 3]; [4; 5]] 2 1 []).
  - done.
  - by vm_compute.
  - lia.
  - split; by vm_compute.
  - by vm_compute.
Defined.

(** ** Subnode trees *)
Definition pure_subnode (depth : nat) (bp : BTPage) (db : Database) (bid : Z) : result SubnodeBlock :=
  r ← pure_block depth bp db bid; ParseSubnodeBlock r.1 r.2 (db_Format db).
Lemma read_subnode_pure depth np bp db bid :
  coherent depth np bp db → ∃ db', read_subnode_block depth bid db = (db', pure_subnode depth bp db bid).
Proof.
  intros Hco. destruct (read_block_coherent depth np bp bid db Hco) as (db' & HR & _ & (_ & F2 & _)).
  unfold read_subnode_block, pure_subnode. exists db'.
  destruct (pure_block depth bp db bid) as [r|e|].
  - rewrite (st_bind_Ok _ _ _ _ _ HR). rewrite (st_bind_Ok get _ db' db' db') by done. cbv beta. unfold lift, db_Format.
    by rewrite F2.
  - by rewrite (st_bind_Err _ _ _ _ _ HR).
  - by rewrite (st_bind_Panic _ _ _ _ HR).
Qed.
(** An entry of a SIBLOCK filed under the first key of its leaf block. *)
Definition first_key_leaf (depth : nat) (bp : BTPage) (db : Database) (e : SubnodeNonleafEntry) (l : list SubnodeLeafEntry) : Prop :=
  SK_SubBID e ≠ 0 ∧ ∃ c x, pure_subnode depth bp db (SK_SubBID e) = Ok c ∧ SB_IsLeaf c = true ∧ SB_LeafEntries c = l ∧
    head l = Some x ∧ SE_NID x = SK_Key e.

Lemma find_subnode_Some l nid info :
  NoDup (map SE_NID l) → find_subnode l nid = Ok info ↔ ∃ x, x ∈ l ∧ SE_NID x = nid ∧ info = sub_info x.
Proof.
  induction l as [|y l IH]; intros Hd; cbn.
  { split; [done|]. by intros (x & ?%not_elem_of_nil & _). }
  apply NoDup_cons in Hd as [Hy Hd]. specialize (IH Hd). destruct (Z.eqb_spec (SE_NID y) nid) as [He|He].
  - split; [intros [= <-]; exists y; split; [left|done]|]. intros (x & [->|Hx]%elem_of_cons & Hn & ->); [done|].
    exfalso. apply Hy. rewrite He, <- Hn. by apply (list_elem_of_fmap_2 SE_NID).
  - rewrite IH. split; [intros (x & Hx & H); exists x; split; [by right|done]|].
    intros (x & [->|Hx]%elem_of_cons & Hn & ->); [done|by exists x].
Qed.
(** Which leaf the search enters: the first whose key is at or above the ID,
    or the last one. *)
Lemma subnode_child_spec (es : list SubnodeNonleafEntry) nid :
  Forall (λ e, SK_SubBID e ≠ 0) es → es ≠ [] →
  ∃ pre e post, es = pre ++ e :: post ∧ subnode_child es nid = SK_SubBID e ∧ Forall (λ e', SK_Key e' < nid) pre ∧
    (nid ≤ SK_Key e ∨ post = [] ∧ SK_Key e < nid).
Proof.
  intros Hnz Hne.
  assert ((∃ pre e post, es = pre ++ e :: post ∧ choose_child es nid = SK_SubBID e ∧ Forall (λ e', SK_Key e' < nid) pre ∧ nid ≤ SK_Key e) ∨
    choose_child es nid = 0 ∧ Forall (λ e', SK_Key e' < nid) es) as [(pre & e & post & He & Hc & Hp & Hk)|[Hc Hall]].
  { clear Hnz Hne. induction es as [|e es IH]; [by right|]. cbn. destruct (Z.leb_spec nid (SK_Key e)).
    - left. exists [], e, es. by split_and!.
    - destruct IH as [(pre & e' & post & -> & Hc & Hp & Hk)|[Hc Hall]].
      + left. exists (e :: pre), e', post. split; [done|]. split; [done|]. split; [by constructor|done].
      + right. split; [done|by constructor]. }
  - exists pre, e, post. split; [done|]. unfold subnode_child. rewrite Hc.
    rewrite (proj2 (Z.eqb_neq _ _)); [split_and!; [done|done|by left]|].
    rewrite He in Hnz. apply Forall_app in Hnz as [_ Hnz]. by apply Forall_cons in Hnz as [? _].
  - destruct (exists_last Hne) as (pre & e & ->). exists pre, e, []. split; [done|].
    unfold subnode_child. rewrite Hc. cbn [Z.eqb]. rewrite last_snoc. apply Forall_app in Hall as [Hp He].
    split; [done|]. split; [done|]. right. split; [done|]. by apply Forall_cons in He as [? _].
Qed.

(** The subnode search takes the keys of a SIBLOCK for the last node IDs of
    its leaf blocks.  In a two-level tree keyed by first node IDs, the
    convention of the file format and of the v2 writer, it finds exactly the
    first subnode of every leaf block and the subnodes of the last one. *)
Theorem subnode_first_keys_missed depth np bp db block ls levels nid info :
  coherent depth np bp db → SB_IsLeaf block = false → ls ≠ [] →
  Forall2 (first_key_leaf depth bp db) (SB_NonleafEntries block) ls →
  StronglySorted Z.lt (map SE_NID (concat ls)) → (2 ≤ levels)%nat →
  (searchSubnode depth levels block nid db).2 = Ok info ↔
  ∃ l x, l ∈ ls ∧ x ∈ l ∧ SE_NID x = nid ∧ info = sub_info x ∧ (head l = Some x ∨ last ls = Some l).
Proof.
  intros Hco Hlf Hne Hf Hs Hlv. destruct levels as [|[|levels]]; [lia..|]. set (es := SB_NonleafEntries block) in *.
  assert (Forall (λ e, SK_SubBID e ≠ 0) es) as Hnz.
  { apply Forall_forall. intros e [i Hi]%list_elem_of_lookup. destruct (Forall2_lookup_l _ _ _ _ _ Hf Hi) as (l & _ & H & _). done. }
  assert (es ≠ []) as Hes by (intros E; rewrite E in Hf; by inversion Hf; subst).
  destruct (subnode_child_spec es nid Hnz Hes) as (pre & e & post & He & Hch & Hpre & Hk).
  rewrite He in Hf. apply Forall2_app_inv_l in Hf as (lpre & lrest & Hf1 & Hf2 & ->).
  apply Forall2_cons_inv_l in Hf2 as (l & lpost & Hl & Hf3 & ->).
  pose proof Hl as (He0 & c & x0 & Hp & Hcl & Hcl' & Hhd & Hx0).
  remember (S levels) as lv eqn:Elv.
  assert ((searchSubnode depth (S lv) block nid db).2 = find_subnode l nid) as ->.
  { cbn [searchSubnode]. rewrite Hlf. cbv zeta. fold es. rewrite Hch, (proj2 (Z.eqb_neq _ _) He0).
    destruct (read_subnode_pure depth np bp db (SK_SubBID e) Hco) as (db' & HR). rewrite Hp in HR.
    rewrite (st_bind_Ok _ _ _ _ _ HR). subst lv. cbn [searchSubnode]. by rewrite Hcl, Hcl'. }
  rewrite concat_app, map_app in Hs. cbn [concat] in Hs. rewrite map_app in Hs.
  apply StronglySorted_app in Hs as (Hs1 & _ & Hs2). apply StronglySorted_app in Hs2 as (Hs3 & Hs4 & Hs5).
  assert (∀ k z, k ∈ lpost → z ∈ k → ∀ y, y ∈ l → SE_NID y < SE_NID z) as Hafter.
  { intros k z Hk1 Hz y Hy. apply Hs3; apply list_elem_of_fmap_2; [done|]. by eapply elem_concat. }
  assert (x0 ∈ l) as Hx0l by (by apply head_Some_elem_of).
  assert (∀ k z, k ∈ lpre → z ∈ k → SE_NID z < SE_NID x0) as Hbefore.
  { intros k z Hk1 Hz. apply Hs1; [apply list_elem_of_fmap_2; by eapply elem_concat|].
    apply elem_of_app. left. by apply list_elem_of_fmap_2. }
  assert (∀ y, y ∈ l → y = x0 ∨ SE_NID x0 < SE_NID y) as Hfirst.
  { clear - Hhd Hs4. destruct l as [|z l]; [done|]. injection Hhd as ->. cbn in Hs4. apply StronglySorted_cons in Hs4 as [Hz _].
    rewrite Forall_forall in Hz. intros y [->|Hy]%elem_of_cons; [by left|right]. apply Hz. by apply list_elem_of_fmap_2. }
  rewrite find_subnode_Some by (by apply sorted_NoDup). split.
  - intros (x & Hx & Hn & ->). exists l, x. split; [apply elem_of_app; right; left|]. split; [done|]. split; [done|].
    split; [done|]. destruct Hk as [Hk|[-> Hk]].
    + left. destruct (Hfirst x Hx) as [->|]; [done|lia].
    + right. inversion Hf3; subst. by rewrite last_snoc.
  - intros (k & x & Hkin & Hx & Hn & -> & Hcase). exists x. split; [|done].
    apply elem_of_app in Hkin as [Hkin|[->|Hkin]%elem_of_cons]; [|done|].
    + exfalso. specialize (Hbefore k x Hkin Hx). destruct Hcase as [Hh|Hlast].
      * destruct (list_elem_of_lookup_1 _ _ Hkin) as [i Hi]. destruct (Forall2_lookup_r _ _ _ _ _ Hf1 Hi) as (e' & He' & _ & c' & x' & _ & _ & _ & Hh' & Hx').
        rewrite Hh in Hh'. injection Hh' as <-. rewrite Forall_forall in Hpre. specialize (Hpre e' (list_elem_of_lookup_2 _ _ _ He')). lia.
      * rewrite last_app_cons in Hlast. apply last_Some_elem_of in Hlast. apply elem_of_cons in Hlast as [->|Hpost].
        -- destruct (Hfirst x Hx) as [->|]; lia.
        -- specialize (Hafter k x Hpost Hx x0 Hx0l). lia.
    + exfalso. specialize (Hafter k x Hkin Hx x0 Hx0l). destruct Hk as [Hk|[-> _]]; [lia|].
      inversion Hf3; subst. by apply not_elem_of_nil in Hkin.
Qed.
(** A SIBLOCK over two SLBLOCKs, keyed by first node IDs. *)
Definition sample_subnodes_file : bytes :=
  write_at 1152 (ok_or [] (BuildSubnodeLeafBlock [mkSubLeaf 97 4 0] 10 1152 FormatANSI))
  (write_at 1024 (ok_or [] (BuildSubnodeLeafBlock [mkSubLeaf 33 4 0; mkSubLeaf 65 4 0] 6 1024 FormatANSI))
  (ok_or [] (BuildBTPage (NewNBTLeafPage [mkNBTLeaf 33 0 0 0] 0) FormatANSI)
   ++ ok_or [] (BuildBTPage (NewBBTLeafPage [mkBBTLeaf (mkBRef 6 1024) 28 1; mkBBTLeaf (mkBRef 10 1152) 16 1] 512) FormatANSI))).
Definition sample_subnodes_db : Database := sample_db sample_subnodes_file sample_blocks_header.
Definition sample_siblock : SubnodeBlock := mkSubnode 2 1 2 [] [mkSubNonleaf 33 6; mkSubNonleaf 97 10].
Lemma subnode_first_keys_missed_witness :
  let ls := [[mkSubLeaf 33 4 0; mkSubLeaf 65 4 0]; [mkSubLeaf 97 4 0]] in
  (searchSubnode 1 2 sample_siblock 65 sample_subnodes_db).2 = Ok (mkNodeInfo 65 4 0 0) ↔
  ∃ l x, l ∈ ls ∧ x ∈ l ∧ SE_NID x = 65 ∧ mkNodeInfo 65 4 0 0 = sub_info x ∧ (head l = Some x ∨ last ls = Some l).
Proof.
  refine (subnode_first_keys_missed 1 (sample_child sample_subnodes_file PageTypeNBT 0)
    (sample_child sample_subnodes_file PageTypeBBT 512) sample_subnodes_db sample_siblock _ 2 65 _ _ _ _ _ _ _).
  - split; [left; split; [done|vm_compute; reflexivity]..| |]; intros k i H; done.
  - done.
  - done.
  - repeat constructor; try done; (eexists _, _; split; [vm_compute; reflexivity|]); vm_compute; repeat split.
  - vm_compute. repeat constructor.
  - lia.
Defined.
