(* ===== verification/Transaction.v ===== *)
(** * Write transactions ([pkg/ndb/transaction.go])

    A transaction queues blocks and tree changes; [Commit] writes them between
    two header updates.  The mutex is not modelled: every call holds it. *)
From S2P Require Import Prelude Format Codec Ids Page Block Header AMap State Database BTree.

(** ** State *)
Inductive TransactionState :=
  | TransactionStateIdle | TransactionStateActive | TransactionStateCommitting | TransactionStateCompleting.
#[export] Instance TransactionState_eq_dec : EqDecision TransactionState.
Proof. solve_decision. Defined.
(** The constants in order, for [t.state >= TransactionStateCommitting]. *)
Definition state_rank (s : TransactionState) : Z :=
  match s with
  | TransactionStateIdle => 0 | TransactionStateActive => 1
  | TransactionStateCommitting => 2 | TransactionStateCompleting => 3
  end.

Record pendingBlock := mkPending { pb_bid : Z; pb_offset : Z; pb_data : bytes; pb_size : Z }.
(** [t_w] holds the database and the map, which the transaction shares with its
    B-tree writer. *)
Record WriteTransaction := mkTxn {
  t_w : BTWriter; t_state : TransactionState;
  t_pendingBlocks : list pendingBlock; t_pendingNodes : list NodeInfo;
  t_newNBTRoot : option BlockReference; t_newBBTRoot : option BlockReference;
  t_originalHeader : Header }.
Definition t_db (t : WriteTransaction) : Database := w_db (t_w t).
Definition t_amap (t : WriteTransaction) : AMapManager := w_amap (t_w t).

Definition t_set_w (t : WriteTransaction) w := mkTxn w (t_state t) (t_pendingBlocks t) (t_pendingNodes t)
  (t_newNBTRoot t) (t_newBBTRoot t) (t_originalHeader t).
Definition t_set_state (t : WriteTransaction) s := mkTxn (t_w t) s (t_pendingBlocks t) (t_pendingNodes t)
  (t_newNBTRoot t) (t_newBBTRoot t) (t_originalHeader t).
Definition t_set_pending (t : WriteTransaction) b n := mkTxn (t_w t) (t_state t) b n
  (t_newNBTRoot t) (t_newBBTRoot t) (t_originalHeader t).
Definition t_set_newroots (t : WriteTransaction) n b := mkTxn (t_w t) (t_state t) (t_pendingBlocks t) (t_pendingNodes t)
  n b (t_originalHeader t).
Definition t_set_db (t : WriteTransaction) db := t_set_w t (w_set_db (t_w t) db).

Definition on_w {A} (m : ST BTWriter A) : ST WriteTransaction A := zoom t_w t_set_w m.
Definition on_tdb {A} (m : ST Database A) : ST WriteTransaction A := zoom t_db t_set_db m.
Definition add_pending (pb : pendingBlock) : ST WriteTransaction unit :=
  modify (λ t, t_set_pending t (t_pendingBlocks t ++ [pb]) (t_pendingNodes t)).

(** ** Beginning *)
Definition BeginWrite (db : Database) : option (result WriteTransaction) :=
  if db_readOnly db then Some (Err (EFmt "database is read-only" [])) else
  r ← NewAMapManager (db_file db) (db_header db);
  Some (amap ← wrap_err "failed to create AMap manager" r;
        mret (mkTxn (NewBTWriter db amap) TransactionStateActive [] [] None None (db_header db))).

(** ** Queuing *)
Definition when_active {A} (m : ST WriteTransaction A) : ST WriteTransaction A :=
  do t <- get;
  if decide (t_state t = TransactionStateActive) then m else fail (EFmt "transaction is not active" []).
Definition maxDataSize (format : PSTFormat) : Z :=
  if is_ANSI format then MaxDataBlockSizeANSI else MaxDataBlockSizeUnicode.

Definition WriteBlockData (data : bytes) : ST WriteTransaction Z :=
  when_active (
  on_tdb (modify (λ db, set_dirty db true)) ;;
  do t <- get;
  let format := db_Format (t_db t) in
  if maxDataSize format <? blen data
  then fail (EFmt "data too large for single block: %d bytes (max %d)" [blen data; maxDataSize format]) else
  do bid <- on_tdb AllocateBlockID;
  let diskSize := CalculateBlockDiskSize (blen data) format in
  do offset <- wrap "failed to allocate space" (on_w (allocate diskSize));
  add_pending (mkPending bid offset data (u16 (blen data))) ;;
  on_w (InsertBlock (mkBlockInfo bid offset (u16 (blen data)) 1)) ;;
  mret bid).

(** The chunk loop of [WriteExtendedBlockData]. *)
Definition write_chunks (maxSize : Z) (data : bytes) : ST WriteTransaction (list Z) :=
  mapM_st WriteBlockData (chunks maxSize data).
Definition WriteExtendedBlockData (data : bytes) : ST WriteTransaction Z :=
  when_active (
  do t <- get;
  let format := db_Format (t_db t) in
  let maxSize := maxDataSize format in
  if blen data <=? maxSize then WriteBlockData data else
  do dataBlockBIDs <- write_chunks maxSize data;
  do xblockBID <- on_tdb AllocateInternalBlockID;
  let xblockDiskSize := CalculateBlockDiskSize (u64 (8 + blen dataBlockBIDs * 8)) format in
  do xblockOffset <- on_w (allocate xblockDiskSize);
  do xblockData <- lift (BuildExtendedBlock 1 dataBlockBIDs (u32 (blen data)) xblockBID xblockOffset format);
  add_pending (mkPending xblockBID xblockOffset xblockData (u16 (blen xblockData))) ;;
  on_w (InsertBlock (mkBlockInfo xblockBID xblockOffset (u16 (8 + blen dataBlockBIDs * 8)) 1)) ;;
  mret xblockBID).

Definition CreateNode (nidType parentNID dataBID subBID : Z) : ST WriteTransaction NodeInfo :=
  when_active (
  on_tdb (modify (λ db, set_next db (db_nextBID db) (u32 (db_nextNID db + 1)))) ;;
  do t <- get;
  let nid := MakeNID nidType (db_nextNID (t_db t)) in
  let info := mkNodeInfo nid dataBID subBID parentNID in
  on_w (InsertNode info) ;;
  modify (λ t, t_set_pending t (t_pendingBlocks t) (t_pendingNodes t ++ [info])) ;;
  mret info).
Definition TxnDeleteNode (nid : Z) : ST WriteTransaction unit := when_active (on_w (DeleteNode nid)).
(** [t.amap.Free], whose error is dropped. *)
Definition free_quietly (offset size : Z) : ST WriteTransaction unit := λ t,
  match Free (t_amap t) offset size with
  | Ok m => (t_set_w t (w_set_amap (t_w t) m), Ok tt)
  | Err _ => (t, Ok tt)
  | Panic => (t, Panic)
  end.
Definition TxnDeleteBlock (depth : nat) (bid : Z) : ST WriteTransaction unit :=
  when_active (λ t,
    match on_tdb (LookupBlock depth bid) t with
    | (t, Ok info) =>
      (free_quietly (BI_Location info) (CalculateBlockDiskSize (BI_Size info) (db_Format (t_db t))) ;;
       on_w (DeleteBlock bid)) t
    | (t, Err _) => on_w (DeleteBlock bid) t
    | (t, Panic) => (t, Panic)
    end).

(** ** Committing *)
Definition startWrite : ST WriteTransaction unit :=
  on_tdb (modify (λ db, set_header db (IncrementUnique (SetAMapStatus (db_header db) AMapStatusInvalid))) ;; writeHeader).
Definition write_pending (pb : pendingBlock) : ST WriteTransaction unit :=
  do t <- get;
  do blockData <- wrap "failed to build block 0x%X"
    (lift (BuildBlock (pb_data pb) (pb_bid pb) (pb_offset pb) (db_Format (t_db t)) (db_CryptMethod (t_db t))));
  wrap "failed to write block 0x%X" (on_tdb (WriteBlock (pb_offset pb) blockData)).
Fixpoint write_blocks (pbs : list pendingBlock) : ST WriteTransaction unit :=
  match pbs with [] => mret tt | pb :: pbs => write_pending pb ;; write_blocks pbs end.
(** [finishWrite] on the header: roots when set, file size, next block ID, free
    space, status. *)
Definition finish_header (t : WriteTransaction) : Header :=
  let h := db_header (t_db t) in
  let h := UpdateBTreeRoots h (default (BRefNBT (HRoot h)) (t_newNBTRoot t)) (default (BRefBBT (HRoot h)) (t_newBBTRoot t)) in
  let h := UpdateNextBlockID (UpdateFileSize h (FileSize (t_amap t))) (NextBlockID (t_db t)) in
  let r := HRoot h in
  let h := set_root h (mkRoot (COrphans r) (IBFileEOF r) (IBAMapLast r) (FreeSpace (t_amap t)) (CBPMapFree r)
    (BRefNBT r) (BRefBBT r) (FAMapValid r) (BARVec r) (CARVec r)) in
  SetAMapStatus h AMapStatusValid2.
Definition finishWrite : ST WriteTransaction unit :=
  modify (λ t, t_set_db t (set_header (t_db t) (finish_header t))) ;;
  on_tdb writeHeader.
(** The body between the two phases. *)
Definition commit_data (depth : nat) : ST WriteTransaction unit :=
  do t <- get;
  write_blocks (t_pendingBlocks t) ;;
  do roots <- wrap "failed to apply B-tree changes" (on_w (Apply depth));
  modify (λ t, t_set_newroots t (Some roots.1) (Some roots.2)).
Definition Commit (depth : nat) : ST WriteTransaction unit :=
  when_active (
  wrap "commit phase 1 failed" startWrite ;;
  modify (λ t, t_set_state t TransactionStateCommitting) ;;
  commit_data depth ;;
  modify (λ t, t_set_state t TransactionStateCompleting) ;;
  wrap "commit phase 2 failed" finishWrite ;;
  on_tdb (modify (λ db, ReloadBTrees (InvalidateCache (set_dirty db false)))) ;;
  modify (λ t, t_set_state t TransactionStateIdle)).

Definition Rollback : ST WriteTransaction unit :=
  do t <- get;
  if decide (t_state t = TransactionStateIdle) then mret tt else
  (if 2 <=? state_rank (t_state t)
   then modify (λ t, t_set_db t (set_header (t_db t) (t_originalHeader t))) ;;
        wrap "failed to restore header" (on_tdb writeHeader)
   else mret tt) ;;
  modify (λ t, t_set_state (t_set_newroots (t_set_pending (t_set_w t (Reset (t_w t))) [] []) None None)
                 TransactionStateIdle).

(** ** What a commit may change *)
Definition t_file (t : WriteTransaction) : bytes := db_file (t_db t).
Definition t_allocs (t : WriteTransaction) : list allocation := AM_pendingAllocs (t_amap t).

(** What no step of a commit changes in the header. *)
Definition hdr_keep (h h' : Header) : Prop :=
  HFormat h' = HFormat h ∧ BCryptMethod h' = BCryptMethod h ∧ IBAMapLast (HRoot h') = IBAMapLast (HRoot h).
#[export] Instance hdr_keep_preorder : PreOrder hdr_keep.
Proof. split; [by intros h|]. intros h1 h2 h3 (? & ? & ?) (? & ? & ?). unfold hdr_keep. split_and!; congruence. Qed.
Definition tstep (H : relation Header) (lo : Z) (t t' : WriteTransaction) : Prop := wstep H lo (t_w t) (t_w t').
#[export] Instance tstep_preorder H lo `{!PreOrder H} : PreOrder (tstep H lo).
Proof. unfold tstep. split; [by intros t|]. intros x y z ? ?. by etrans. Qed.
Lemma wstep_weaken (H H' : relation Header) lo lo' w w' :
  (∀ h h', H h h' → H' h h') → lo ≤ lo' → wstep H lo w w' → wstep H' lo' w w'.
Proof.
  intros HH Hlo Hw Hfs. destruct (Hw Hfs) as (H1 & H2 & H3 & H4 & H5). split; [done|]. split; [by apply HH|].
  split; [done|]. split; [done|]. intros a k Ha. apply H5. lia.
Qed.
Lemma eq_hdr_keep h h' : h = h' → hdr_keep h h'.
Proof. by intros ->. Qed.

(** The area reserved for a pending block holds the block that [BuildBlock]
    makes of it. *)
Definition covered (format : PSTFormat) (allocs : list allocation) (pb : pendingBlock) : Prop :=
  0 ≤ pb_offset pb ∧ ∃ al, al ∈ allocs ∧ al_offset al = pb_offset pb ∧
    AlignDisk (blen (pb_data pb)) + blockTrailerSize format ≤ al_size al.
Lemma covered_subseteq format l l' pb : l ⊆ l' → covered format l pb → covered format l' pb.
Proof. intros Hl (Ho & al & Hal & H1 & H2). split; [done|]. exists al. split; [by apply Hl|done]. Qed.

Lemma blen_BuildBlock data bid off format crypt raw :
  known format → BuildBlock data bid off format crypt = Ok raw →
  blen raw = AlignDisk (blen data) + blockTrailerSize format.
Proof.
  intros Hk HB. destruct (decide (blen data ≤ MaxDataBlockSizeUnicode)) as [Hl|Hl].
  - destruct (BuildBlock_layout data bid off format crypt Hk Hl) as [Hp HB']. rewrite HB in HB'. injection HB' as ->.
    rewrite blen_app, Hp. f_equal. by destruct format.
  - unfold BuildBlock in HB. rewrite (proj2 (Z.ltb_lt _ _)) in HB by lia. done.
Qed.

Lemma on_w_moves {A} H lo (m : ST BTWriter A) : moves (wstep H lo) m → moves (tstep H lo) (on_w m).
Proof. intros Hm. apply (moves_zoom _ _ _ _ _ Hm). intros t w Hw. exact Hw. Qed.
Lemma modify_moves H lo `{!PreOrder H} (f : WriteTransaction → WriteTransaction) :
  (∀ t, w_amap (t_w (f t)) = w_amap (t_w t) ∧ H (db_header (t_db t)) (db_header (t_db (f t))) ∧ t_file (f t) = t_file t) →
  moves (tstep H lo) (modify f).
Proof. intros Hf. apply moves_modify. intros t. destruct (Hf t) as (H1 & H2 & H3). by apply wstep_same; [apply _|..]. Qed.

Lemma write_pending_moves pb t :
  known (db_Format (t_db t)) → covered (db_Format (t_db t)) (t_allocs t) pb →
  tstep eq 0 t (write_pending pb t).1.
Proof.
  intros Hk (Ho & al & Hal & Hao & Has). unfold write_pending.
  rewrite (st_bind_Ok get _ t t t) by done. cbv beta.
  destruct (BuildBlock (pb_data pb) (pb_bid pb) (pb_offset pb) (db_Format (t_db t)) (db_CryptMethod (t_db t)))
    as [raw|e|] eqn:EB; [|done|done].
  rewrite (st_bind_Ok _ _ t t raw) by done.
  pose proof (blen_BuildBlock _ _ _ _ _ _ Hk EB) as Hr.
  unfold wrap, on_tdb, zoom, WriteBlock. destruct (db_readOnly _); [done|]. destruct (2 ^ 63 <=? _); [done|].
  intros Hfs. split; [done|]. split; [done|]. split; [done|]. unfold w_file, t_db in *.
  cbn [fst t_set_db t_set_w t_w w_set_db w_db set_file db_file].
  split; [rewrite blen_write_at by done; lia|]. intros a k H1 H2 H3 H4. apply write_at_frame; try (done || lia).
  rewrite Forall_forall in H4. specialize (H4 al Hal). unfold clear_of in H4. rewrite Hao in H4. lia.
Qed.
Lemma write_blocks_moves pbs : ∀ t,
  known (db_Format (t_db t)) → 0 ≤ AM_fileSize (t_amap t) → Forall (covered (db_Format (t_db t)) (t_allocs t)) pbs →
  tstep eq 0 t (write_blocks pbs t).1.
Proof.
  induction pbs as [|pb pbs IH]; intros t Hk Hfs Hc; [done|]. apply Forall_cons in Hc as [Hc1 Hc2]. cbn [write_blocks].
  pose proof (write_pending_moves pb t Hk Hc1) as Hs. unfold mbind, ST_bind.
  destruct (write_pending pb t) as [t1 [u|e|]]; cbn [fst] in Hs; [|done|done].
  destruct (Hs Hfs) as (Hfs1 & Hh & Ha & _). etrans; [exact Hs|].
  assert (db_Format (t_db t1) = db_Format (t_db t)) as Hf by (unfold db_Format, t_db; by rewrite Hh).
  apply IH; rewrite ?Hf; [done|done|]. apply (Forall_impl _ _ _ Hc2). intros x. by apply covered_subseteq.
Qed.

(** ** The header writes *)
Definition header_size (f : PSTFormat) : Z := if is_Unicode f then HeaderSizeUnicode else HeaderSizeANSI.
Lemma SerializeHeader_Ok h : ∃ data p f, SerializeHeader h = Ok (data, set_crc h p f) ∧ blen data = header_size (HFormat h).
Proof.
  unfold SerializeHeader, header_size. destruct (is_Unicode (HFormat h)).
  - destruct (SerializeHeaderUnicode_fields h) as (d & p & f & H & _ & Hl & _). eauto.
  - destruct (SerializeHeaderANSI_fields h) as (d & p & H & _ & Hl & _). eauto.
Qed.
(** The transaction after a header write: [data] at the front of the file. *)
Definition with_header (t : WriteTransaction) (data : bytes) (h : Header) : WriteTransaction :=
  t_set_db t (set_header (set_file (t_db t) (write_at 0 data (t_file t))) h).
Definition start_header (t : WriteTransaction) : Header :=
  IncrementUnique (SetAMapStatus (db_header (t_db t)) AMapStatusInvalid).
Lemma writeHeader_eq t h : ∃ data p f,
  on_tdb writeHeader (t_set_db t (set_header (t_db t) h)) = (with_header t data (set_crc h p f), Ok tt) ∧
  SerializeHeader h = Ok (data, set_crc h p f) ∧ blen data = header_size (HFormat h).
Proof.
  destruct (SerializeHeader_Ok h) as (data & p & f & HS & Hl). exists data, p, f. split; [|done].
  unfold on_tdb, zoom, writeHeader, WriteHeader. cbn [t_db t_set_db t_set_w t_w w_set_db w_db set_header db_header db_file].
  rewrite HS. done.
Qed.
Lemma startWrite_eq t : ∃ data p f, let h := start_header t in
  startWrite t = (with_header t data (set_crc h p f), Ok tt) ∧
  SerializeHeader h = Ok (data, set_crc h p f) ∧ blen data = header_size (HFormat h).
Proof. destruct (writeHeader_eq t (start_header t)) as (data & p & f & H & HS & Hl). by exists data, p, f. Qed.
Lemma finishWrite_eq t : ∃ data p f, let h := finish_header t in
  finishWrite t = (with_header t data (set_crc h p f), Ok tt) ∧
  SerializeHeader h = Ok (data, set_crc h p f) ∧ blen data = header_size (HFormat h).
Proof. destruct (writeHeader_eq t (finish_header t)) as (data & p & f & H & HS & Hl). by exists data, p, f. Qed.

Lemma with_header_step t data h :
  blen data ≤ HeaderSizeUnicode → hdr_keep (db_header (t_db t)) h →
  tstep hdr_keep HeaderSizeUnicode t (with_header t data h).
Proof.
  intros Hl Hh Hfs. split; [done|]. split; [done|]. split; [done|]. unfold w_file, with_header, t_file, t_db in *.
  cbn [t_set_db t_set_w t_w w_set_db w_db set_header set_file db_file].
  split; [rewrite blen_write_at by done; lia|]. intros a k H1 H2 H3 H4.
  apply write_at_frame; unfold HeaderSizeUnicode in *; done || lia.
Qed.
Lemma header_size_le f : header_size f ≤ HeaderSizeUnicode.
Proof. by destruct f. Qed.

(** The transaction after the first phase. *)
Definition started (t : WriteTransaction) : WriteTransaction := t_set_state (startWrite t).1 TransactionStateCommitting.
Lemma Commit_unfold depth t :
  t_state t = TransactionStateActive →
  Commit depth t = (commit_data depth ;;
    modify (λ t, t_set_state t TransactionStateCompleting) ;;
    wrap "commit phase 2 failed" finishWrite ;;
    on_tdb (modify (λ db, ReloadBTrees (InvalidateCache (set_dirty db false)))) ;;
    modify (λ t, t_set_state t TransactionStateIdle)) (started t).
Proof.
  intros Hs. unfold Commit, when_active. rewrite (st_bind_Ok get _ t t t) by done. cbv beta.
  rewrite decide_True by done. destruct (startWrite_eq t) as (data & p & f & H & _). unfold started.
  rewrite (st_bind_Ok _ _ t (startWrite t).1 tt) by (unfold wrap; by rewrite H). by cbv beta.
Qed.
Lemma started_step t : tstep hdr_keep HeaderSizeUnicode t (started t).
Proof.
  unfold started. destruct (startWrite_eq t) as (data & p & f & -> & _ & Hl). cbn [fst].
  etrans; [apply (with_header_step t data (set_crc (start_header t) p f))|done]; [rewrite Hl; apply header_size_le|done].
Qed.
Lemma started_same t :
  t_pendingBlocks (started t) = t_pendingBlocks t ∧ t_amap (started t) = t_amap t ∧
  db_Format (t_db (started t)) = db_Format (t_db t).
Proof. unfold started. by destruct (startWrite_eq t) as (data & p & f & -> & _ & Hl). Qed.

Lemma commit_data_moves depth t :
  known (db_Format (t_db t)) → 0 ≤ AM_fileSize (t_amap t) →
  Forall (covered (db_Format (t_db t)) (t_allocs t)) (t_pendingBlocks t) →
  tstep eq 0 t (commit_data depth t).1.
Proof.
  intros Hk Hfs Hc. unfold commit_data. rewrite (st_bind_Ok get _ t t t) by done. cbv beta.
  pose proof (write_blocks_moves (t_pendingBlocks t) t Hk Hfs Hc) as Hs. unfold mbind at 1, ST_bind.
  destruct (write_blocks (t_pendingBlocks t) t) as [t1 [u|e|]]; cbn [fst] in Hs; [|done|done].
  etrans; [exact Hs|]. clear. revert t1. change (moves (tstep eq 0) (do roots <- wrap "failed to apply B-tree changes" (on_w (Apply depth));
    modify (λ t, t_set_newroots t (Some roots.1) (Some roots.2)))).
  moves_step; [apply on_w_moves, Apply_moves|]. by apply modify_moves; [apply _|].
Qed.
Lemma completing_moves : moves (tstep hdr_keep HeaderSizeUnicode) (
  modify (λ t, t_set_state t TransactionStateCompleting) ;;
  wrap "commit phase 2 failed" finishWrite ;;
  on_tdb (modify (λ db, ReloadBTrees (InvalidateCache (set_dirty db false)))) ;;
  modify (λ t, t_set_state t TransactionStateIdle)).
Proof.
  moves_step.
  - by apply modify_moves; [apply _|].
  - intros t. destruct (finishWrite_eq t) as (data & p & f & -> & _ & Hl).
    apply with_header_step; [rewrite Hl; apply header_size_le|done].
  - intros t. by apply wstep_same; [apply _|..].
  - by apply modify_moves; [apply _|].
Qed.
Lemma Commit_moves depth t :
  known (db_Format (t_db t)) → 0 ≤ AM_fileSize (t_amap t) →
  Forall (covered (db_Format (t_db t)) (t_allocs t)) (t_pendingBlocks t) →
  tstep hdr_keep HeaderSizeUnicode t (Commit depth t).1.
Proof.
  intros Hk Hfs Hc. destruct (decide (t_state t = TransactionStateActive)) as [Hs|Hs].
  2:{ unfold Commit, when_active. rewrite (st_bind_Ok get _ t t t) by done. cbv beta. by rewrite decide_False. }
  rewrite Commit_unfold by done. destruct (started_same t) as (Hp & Ha & Hf).
  pose proof (commit_data_moves depth (started t)) as Hd. unfold t_allocs in Hd. rewrite Hp, Ha, Hf in Hd.
  specialize (Hd Hk Hfs Hc). etrans; [apply started_step|].
  assert (tstep hdr_keep HeaderSizeUnicode (started t) (commit_data depth (started t)).1) as Hd'.
  { by eapply wstep_weaken; [apply eq_hdr_keep| |exact Hd]. }
  unfold mbind at 1, ST_bind. destruct (commit_data depth (started t)) as [t1 [u|e|]]; cbn [fst] in Hd'; [|done|done].
  etrans; [exact Hd'|apply completing_moves].
Qed.

(** C3: Whatever its outcome, a commit changes the file only in the header and
    in the areas that the map handed out to this transaction: any byte window
    outside both is as before, and the file never shrinks.  (It relies on each
    queued block fitting the area reserved for it, which [WriteBlockData]
    ensures.) *)
Theorem commit_writes_only_allocated t depth :
  known (db_Format (t_db t)) → 0 ≤ AM_fileSize (t_amap t) →
  Forall (covered (db_Format (t_db t)) (t_allocs t)) (t_pendingBlocks t) →
  let t' := (Commit depth t).1 in
  t_allocs t ⊆ t_allocs t' ∧ blen (t_file t) ≤ blen (t_file t') ∧
  ∀ a k, HeaderSizeUnicode ≤ a → 0 ≤ k → a + k ≤ blen (t_file t) → Forall (clear_of a k) (t_allocs t') →
    sub (t_file t') a k = sub (t_file t) a k.
Proof.
  intros Hk Hfs Hc t'. destruct (Commit_moves depth t Hk Hfs Hc Hfs) as (_ & _ & H1 & H2 & H3). done.
Qed.

(** ** A small file *)

(** An ANSI file with one map page, a node tree holding node 33 without data,
    and an empty block tree. *)
Definition sample_map : AMapManager := alloc_map (alloc_map (CreateNewAMapManager FormatANSI) PageSize) PageSize.
Definition sample_map_page : AMapPage :=
  default (mkAMapPage 0 [] (mkPageTrailer 0 0 0 0 0) 0 FormatANSI) (head (AM_pages sample_map)).
Definition sample_file_header : Header :=
  set_counters (set_root (NewHeader FormatANSI ClientMagicPST)
    (mkRoot 0 (AM_fileSize sample_map) FirstAMapPageLocation (AM_freeBytes sample_map) 0
      (mkBRef 35840 35840) (mkBRef 36352 36352) AMapStatusValid 0 0)) 4 0.
Definition sample_file : bytes :=
  write_at 36352 (ok_or [] (BuildBTPage (NewBBTLeafPage [] 36352) FormatANSI))
  (write_at 35840 (ok_or [] (BuildBTPage (NewNBTLeafPage [mkNBTLeaf 33 0 0 0] 35840) FormatANSI))
  (write_at FirstAMapPageLocation (ok_or [] (Serialize sample_map_page))
    (ok_or [] (r ← WriteHeader [] sample_file_header; mret r.1)))).
Definition empty_txn (db : Database) : WriteTransaction :=
  mkTxn (NewBTWriter db (CreateNewAMapManager FormatANSI)) TransactionStateIdle [] [] None None (db_header db).
Definition begin_write (db : Database) : WriteTransaction :=
  match BeginWrite db with Some (Ok t) => t | _ => empty_txn db end.
Lemma begin_write_Ok db :
  match BeginWrite db with Some (Ok _) => true | _ => false end = true → BeginWrite db = Some (Ok (begin_write db)).
Proof. unfold begin_write. by destruct (BeginWrite db) as [[t|e|]|]. Qed.
Definition open_sample : Database :=
  ok_or (sample_db [] sample_file_header) (OpenWithMode sample_file OpenModeReadWrite).
(** A transaction with one queued block. *)
Definition sample_txn : WriteTransaction := (WriteBlockData [1; 2; 3] (begin_write open_sample)).1.
Lemma sample_txn_covered :
  Forall (covered (db_Format (t_db sample_txn)) (t_allocs sample_txn)) (t_pendingBlocks sample_txn).
Proof.
  replace (db_Format (t_db sample_txn)) with FormatANSI by (vm_compute; reflexivity).
  replace (t_allocs sample_txn) with [mkAlloc 36864 128] by (vm_compute; reflexivity).
  replace (t_pendingBlocks sample_txn) with [mkPending 4 36864 [1; 2; 3] 3] by (vm_compute; reflexivity).
  constructor; [|constructor]. split; [done|]. exists (mkAlloc 36864 128).
  split; [left|]. split; [done|]. by vm_compute.
Qed.
Lemma commit_writes_only_allocated_witness :
  let t' := (Commit 2 sample_txn).1 in
  t_allocs sample_txn ⊆ t_allocs t' ∧ blen (t_file sample_txn) ≤ blen (t_file t') ∧
  ∀ a k, HeaderSizeUnicode ≤ a → 0 ≤ k → a + k ≤ blen (t_file sample_txn) → Forall (clear_of a k) (t_allocs t') →
    sub (t_file t') a k = sub (t_file sample_txn) a k.
Proof.
  refine (commit_writes_only_allocated sample_txn 2 _ _ sample_txn_covered).
  - by vm_compute.
  - by vm_compute.
Defined.

(** ** Queuing keeps the transaction fit to commit *)

(** What [commit_writes_only_allocated] needs of a transaction. *)
Definition txn_wf (t : WriteTransaction) : Prop :=
  known (db_Format (t_db t)) ∧ 0 ≤ AM_fileSize (t_amap t) ∧
  Forall (covered (db_Format (t_db t)) (t_allocs t)) (t_pendingBlocks t).
Definition qstep (t t' : WriteTransaction) : Prop :=
  (txn_wf t → txn_wf t') ∧ t_file t' = t_file t ∧ db_header (t_db t') = db_header (t_db t) ∧ t_state t' = t_state t.
#[export] Instance qstep_preorder : PreOrder qstep.
Proof. split; [by intros t|]. intros x y z (Hx & ? & ? & ?) (Hy & ? & ? & ?). split; [auto|split_and!; congruence]. Qed.
(** A step that changes neither the map nor the pending blocks nor the file. *)
Lemma qstep_same t t' :
  t_amap t' = t_amap t → t_pendingBlocks t' = t_pendingBlocks t → t_file t' = t_file t →
  db_header (t_db t') = db_header (t_db t) → t_state t' = t_state t → qstep t t'.
Proof.
  intros H1 H2 H3 H4 H5. split; [|done]. unfold txn_wf, t_allocs, db_Format. by rewrite H1, H2, H4.
Qed.
Lemma on_w_queue {A} (m : ST BTWriter A) :
  (∀ w, w_amap (m w).1 = w_amap w ∧ w_db (m w).1 = w_db w) → moves qstep (on_w m).
Proof.
  intros Hm t. specialize (Hm (t_w t)). unfold on_w, zoom. destruct (m (t_w t)) as [w r]. destruct Hm as [H1 H2].
  cbn in *. apply qstep_same; try done; unfold t_file, t_db; cbn; by rewrite H2.
Qed.
Lemma on_tdb_queue {A} (m : ST Database A) :
  (∀ db, db_file (m db).1 = db_file db ∧ db_header (m db).1 = db_header db) → moves qstep (on_tdb m).
Proof.
  intros Hm t. specialize (Hm (t_db t)). unfold on_tdb, zoom. destruct (m (t_db t)) as [db r]. destruct Hm as [H1 H2].
  by apply qstep_same.
Qed.
Lemma modify_queue (f : WriteTransaction → WriteTransaction) :
  (∀ t, t_w (f t) = t_w t ∧ t_pendingBlocks (f t) = t_pendingBlocks t ∧ t_state (f t) = t_state t) → moves qstep (modify f).
Proof.
  intros Hf t. destruct (Hf t) as (H1 & H2 & H3). by apply qstep_same; cbn; unfold t_amap, t_file, t_db; rewrite ?H1.
Qed.
Lemma when_active_queue {A} (m : ST WriteTransaction A) : moves qstep m → moves qstep (when_active m).
Proof. intros Hm. unfold when_active. moves_step. destruct (decide _); [done|moves_step]. Qed.
Lemma InsertNode_queue info : moves qstep (on_w (InsertNode info)).
Proof. apply on_w_queue. intros w. unfold InsertNode. by destruct (_ !! _). Qed.
Lemma DeleteNode_queue nid : moves qstep (on_w (DeleteNode nid)).
Proof. apply on_w_queue. intros w. unfold DeleteNode. destruct (decide _); [done|]. by destruct (_ !! _). Qed.
Lemma InsertBlock_queue info : moves qstep (on_w (InsertBlock info)).
Proof. apply on_w_queue. intros w. unfold InsertBlock. by destruct (_ !! _). Qed.
Lemma DeleteBlock_queue bid : moves qstep (on_w (DeleteBlock bid)).
Proof. apply on_w_queue. intros w. unfold DeleteBlock. destruct (decide _); [done|]. by destruct (_ !! _). Qed.
Lemma LookupBlock_queue depth bid : moves qstep (on_tdb (LookupBlock depth bid)).
Proof.
  apply on_tdb_queue. intros db.
  assert (moves (λ db db', db_file db' = db_file db ∧ db_header db' = db_header db) (LookupBlock depth bid)) as H; [|apply H].
  assert (PreOrder (λ db db', db_file db' = db_file db ∧ db_header db' = db_header db)) as HP.
  { split; [by intros ?|]. intros ? ? ? [] []. split; congruence. }
  unfold LookupBlock. moves_step. destruct (_ !! _); moves_step; [intros ?; apply loadBBTRoot_frame|]. by apply moves_modify.
Qed.
Lemma free_queue off size : moves qstep (free_quietly off size).
Proof.
  intros t. unfold free_quietly, Free. destruct (findPageForOffset _ _); [|done]. cbn.
  split; [|done]. intros (H1 & H2 & H3). split; [done|]. split; [done|]. exact H3.
Qed.

(** The block that [WriteBlockData] queues fits the area it allocates for it. *)
Lemma allocate_block_covered t size bid data :
  0 ≤ blen data ≤ MaxDataBlockSizeANSI → size = CalculateBlockDiskSize (blen data) (db_Format (t_db t)) →
  qstep t ((do offset <- wrap "failed to allocate space" (on_w (allocate size));
            add_pending (mkPending bid offset data (u16 (blen data)))) t).1.
Proof.
  intros Hl ->. unfold wrap, on_w, zoom, allocate, mbind, ST_bind.
  change (w_amap (t_w t)) with (t_amap t).
  destruct (Allocate (t_amap t) _) as [[off m]|e|] eqn:EA; cbn [wrap_err]; [|by apply qstep_same..].
  split; [|done]. intros (Hk & Hfs & Hc). destruct (Allocate_pending _ _ _ _ Hfs EA) as (Hoff & Hfs' & Hp).
  split; [done|]. split; [done|]. unfold t_allocs, db_Format. cbn. fold (t_db t).
  rewrite Hp. apply Forall_app. split.
  - apply (Forall_impl _ _ _ Hc). intros pb. apply covered_subseteq. by apply list_subseteq_app_l.
  - constructor; [|done]. split; [done|]. eexists. split; [apply elem_of_app; right; left|]. split; [done|]. cbn.
    unfold MaxDataBlockSizeANSI in Hl. destruct (AlignDisk_spec (blen data)) as [Ha _]; [lia..|].
    set (d := HFormat (db_header (t_db t))). change (db_Format (t_db t)) with d in *. change (HFormat (db_header (w_db (t_w t)))) with d. 
    assert (0 ≤ blockTrailerSize d ≤ 16) as Ht by (destruct d; cbv; split; discriminate).
    replace (CalculateBlockDiskSize (blen data) d) with (AlignDisk (blen data) + blockTrailerSize d).
    + destruct (AlignDisk_spec (AlignDisk (blen data) + blockTrailerSize d)) as [Hb _]; lia.
    + unfold CalculateBlockDiskSize. destruct d; [done|..]; cbn [is_Unicode blockTrailerSize is_ANSI] in *; rewrite u64_small; unfold BlockTrailerSizeUnicode, BlockTrailerSizeANSI in *; try done; lia.
Qed.
Lemma WriteBlockData_queue data : moves qstep (WriteBlockData data).
Proof.
  unfold WriteBlockData. apply when_active_queue. apply moves_bind; [apply _|by apply on_tdb_queue|intros _].
  intros t. rewrite (st_bind_Ok get _ t t t) by done. cbv beta zeta.
  destruct (Z.ltb_spec (maxDataSize (db_Format (t_db t))) (blen data)) as [|Hle]; [done|].
  destruct (on_tdb_queue AllocateBlockID (λ db, conj eq_refl eq_refl) t) as (Hw & Hrest). revert Hw Hrest.
  set (t1 := t_set_db t (set_next (t_db t) (u64 (db_nextBID (t_db t) + 4)) (db_nextNID (t_db t)))).
  change (on_tdb AllocateBlockID t).1 with t1. intros Hw Hrest.
  rewrite (st_bind_Ok _ _ t t1 (db_nextBID (t_db t))) by done. cbv beta. etrans; [split; [exact Hw|exact Hrest]|].
  apply moves_bind2; [apply _|apply allocate_block_covered|].
  - split; [apply blen_nonneg|]. etrans; [exact Hle|]. by destruct (db_Format (t_db t)).
  - done.
  - intros off. moves_step. apply InsertBlock_queue.
Qed.
Lemma CreateNode_queue ty parent dbid sbid : moves qstep (CreateNode ty parent dbid sbid).
Proof.
  unfold CreateNode. apply when_active_queue. moves_step; cbv zeta; moves_step; [by apply on_tdb_queue|apply InsertNode_queue|].
  by apply modify_queue.
Qed.
Lemma TxnDeleteBlock_queue depth bid : moves qstep (TxnDeleteBlock depth bid).
Proof.
  unfold TxnDeleteBlock. apply when_active_queue. intros t. pose proof (LookupBlock_queue depth bid t) as H.
  destruct (on_tdb (LookupBlock depth bid) t) as [t1 [info|e|]]; cbn [fst] in H; (etrans; [exact H|]);
    [|apply DeleteBlock_queue|done].
  apply moves_bind; [apply _|apply free_queue|intros _; apply DeleteBlock_queue].
Qed.

(** The calls that queue work, on blocks small enough for one write. *)
Inductive queued (depth : nat) : WriteTransaction → WriteTransaction → Prop :=
  | queued_block t data : queued depth t (WriteBlockData data t).1
  | queued_node t ty parent dbid sbid : queued depth t (CreateNode ty parent dbid sbid t).1
  | queued_del_node t nid : queued depth t (TxnDeleteNode nid t).1
  | queued_del_block t bid : queued depth t (TxnDeleteBlock depth bid t).1.


(** ** The map is not written back *)

(** A commit never writes the allocation map.  After a successful commit
    that kept clear of the map pages, the next transaction loads the very pages
    the previous one started from, and is handed the areas that the previous
    one was handed: the blocks and tree pages it committed are overwritten. *)
Theorem map_not_persisted t depth t' m0 :
  txn_wf t → blen (t_file t) < 2 ^ 62 →
  Commit depth t = (t', Ok tt) → db_readOnly (t_db t') = false →
  NewAMapManager (t_file t) (db_header (t_db t)) = Some (Ok m0) →
  (∀ p, p ∈ AM_pages m0 → Forall (clear_of (AP_Offset p) PageSize) (t_allocs t')) →
  ∃ t2, BeginWrite (t_db t') = Some (Ok t2) ∧ AM_pages (t_amap t2) = AM_pages m0 ∧
    ∀ size i off, size ≠ 0 → find_page (AM_pages m0) (AlignDisk size / BytesPerSlot) = Some (i, off) →
      ∃ m m2, Allocate m0 size = Ok (off, m) ∧ Allocate (t_amap t2) size = Ok (off, m2).
Proof.
  intros (Hk & Hfs & Hc) Hlen HC Hro HN Hclear.
  destruct (Commit_moves depth t Hk Hfs Hc Hfs) as (_ & (Hf & _ & Hl) & _ & Hblen & Hu). rewrite HC in *. cbn [fst] in *.
  destruct (NewAMapManager_frame (t_file t) (t_file t') (db_header (t_db t)) (db_header (t_db t')) m0) as (m' & HN' & Hpg).
  - done.
  - done.
  - done.
  - done.
  - intros p Hp. unfold NewAMapManager, loadAMapPages in HN.
    destruct (load_pages _ (t_file t) _ _ _) as [[ps|e|]|] eqn:EL; [|done..]. injection HN as <-. cbn [AM_pages] in *.
    destruct (load_pages_located _ _ _ _ _ _ (Z.le_refl _) EL Hlen p Hp) as [H1 H2].
    apply Hu; [unfold FirstAMapPageLocation, HeaderSizeUnicode in *; lia|done|done|by apply Hclear].
  - unfold BeginWrite. rewrite Hro. unfold t_file in HN'. rewrite HN'. eexists. split; [reflexivity|].
    unfold t_amap. cbn [t_w w_amap NewBTWriter]. split; [done|]. intros size i off Hs Hfp.
    unfold Allocate. rewrite (proj2 (Z.eqb_neq _ _) Hs), Hpg, Hfp. by eexists _, _.
Qed.
Lemma run_Ok {S} (m : ST S unit) s : (m s).2 = Ok tt → m s = ((m s).1, Ok tt).
Proof. destruct (m s) as [s' r]. cbn. by intros ->. Qed.
Lemma run_val {S A} (m : ST S A) s a : (m s).2 = Ok a → m s = ((m s).1, Ok a).
Proof. destruct (m s) as [s1 r]. cbn. by intros ->. Qed.
Lemma map_not_persisted_witness :
  let t' := (Commit 2 sample_txn).1 in
  ∃ t2, BeginWrite (t_db t') = Some (Ok t2) ∧ AM_pages (t_amap t2) = AM_pages (t_amap (begin_write open_sample)) ∧
    ∀ size i off, size ≠ 0 →
      find_page (AM_pages (t_amap (begin_write open_sample))) (AlignDisk size / BytesPerSlot) = Some (i, off) →
      ∃ m m2, Allocate (t_amap (begin_write open_sample)) size = Ok (off, m) ∧ Allocate (t_amap t2) size = Ok (off, m2).
Proof.
  refine (map_not_persisted sample_txn 2 _ (t_amap (begin_write open_sample)) (conj _ (conj _ sample_txn_covered)) _ _ _ _ _).
  - by vm_compute.
  - by vm_compute.
  - by vm_compute.
  - apply run_Ok. vm_compute; reflexivity.
  - vm_compute; reflexivity.
  - vm_compute; reflexivity.
  - replace (t_allocs (Commit 2 sample_txn).1) with [mkAlloc 36864 128; mkAlloc 36992 512] by (vm_compute; reflexivity).
    intros p Hp. assert (AP_Offset p = FirstAMapPageLocation) as ->.
    { apply (list_elem_of_fmap_2 AP_Offset) in Hp. replace (AP_Offset <$> _) with [FirstAMapPageLocation] in Hp by (vm_compute; reflexivity).
      by apply list_elem_of_singleton in Hp. }
    repeat constructor; unfold clear_of; cbn; by vm_compute.
Defined.
(** The outcome on the small file: after a second transaction committed its
    block 8, block 4 of the first one reads back as the data of block 8. *)
Example second_commit_overwrites :
  let t1 := (Commit 2 sample_txn).1 in
  let t2 := (Commit 2 (WriteBlockData [7; 8; 9] (begin_write (t_db t1))).1).1 in
  (ReadBlockData 2 4 (t_db t1)).2 = Ok [1; 2; 3] ∧
  (ReadBlockData 2 8 (t_db t2)).2 = Ok [7; 8; 9] ∧ (ReadBlockData 2 4 (t_db t2)).2 = Ok [7; 8; 9].
Proof. vm_compute. done. Qed.

(** ** Crashes *)

(** The states a crash in the middle of a commit can leave: after the first
    header write and any number of blocks, or after the tree changes, in part
    or in full. *)
Inductive crash_point (depth : nat) (t : WriteTransaction) : WriteTransaction → Prop :=
  | crash_blocks n : crash_point depth t (write_blocks (take n (t_pendingBlocks t)) (started t)).1
  | crash_data : crash_point depth t (commit_data depth (started t)).1.

(** An ANSI header that the reader gets back as written. *)
Definition ansi_header_ok (h : Header) : Prop :=
  HFormat h = FormatANSI ∧ header_wf 32 h ∧ DatabaseFormatANSIMin ≤ WVer h ≤ DatabaseFormatANSIMax ∧ DWCRCFull h = 0.
#[export] Instance ansi_header_ok_dec h : Decision (ansi_header_ok h).
Proof. unfold ansi_header_ok. apply _. Defined.
Lemma header_in_file h data p f file :
  ansi_header_ok h → SerializeHeader h = Ok (data, set_crc h p f) → sub file 0 HeaderSizeANSI = data → blen data = HeaderSizeANSI →
  ReadHeader file = Ok (set_crc h p 0).
Proof.
  intros (H1 & H2 & H3 & H4) HS Hd Hl.
  destruct (ansi_header_back h (drop (Z.to_nat HeaderSizeANSI) file) H1 H2 H3 H4) as (data' & crc & HS' & _ & _ & HR).
  rewrite HS in HS'. injection HS' as <- -> _.
  replace file with (data ++ drop (Z.to_nat HeaderSizeANSI) file); [exact HR|]. rewrite <- Hd. unfold sub. cbn [Z.to_nat drop].
  by rewrite take_drop.
Qed.
Lemma start_header_ok t : ansi_header_ok (db_header (t_db t)) → ansi_header_ok (start_header t).
Proof.
  intros (H1 & H2 & H3 & H4). split; [done|]. split; [|done].
  unfold header_wf, root_wf, start_header in *. cbn in *. destruct_and!. split_and!; try done.
  apply u32_range.
Qed.
Lemma header_at_front h data p f t :
  ansi_header_ok h → SerializeHeader h = Ok (data, set_crc h p f) → blen data = header_size (HFormat h) →
  blen data = HeaderSizeANSI ∧ sub (t_file (with_header t data (set_crc h p f))) 0 HeaderSizeANSI = data ∧
  HeaderSizeANSI ≤ blen (t_file (with_header t data (set_crc h p f))).
Proof.
  intros (Hf & _) HS Hl. unfold header_size in Hl. rewrite Hf in Hl. cbn in Hl. split; [done|].
  change (t_file (with_header t data _)) with (write_at 0 data (t_file t)). split.
  - replace HeaderSizeANSI with (blen data) by done. by apply read_write_at.
  - rewrite blen_write_at by done. lia.
Qed.

Lemma crash_step depth t s : txn_wf t → crash_point depth t s → tstep eq 0 (started t) s.
Proof.
  intros (Hk & Hfs & Hc) Hcp. destruct (started_same t) as (Hp & Ha & Hf). destruct Hcp as [n|].
  - apply write_blocks_moves; rewrite ?Hf, ?Ha; [done|done|]. unfold t_allocs. rewrite Ha. by apply Forall_take.
  - apply commit_data_moves; rewrite ?Hf, ?Ha; [done|done|]. unfold t_allocs. by rewrite Ha, Hp.
Qed.


(** ** The end of a transaction *)
Lemma write_blocks_state pbs : ∀ t, t_state (write_blocks pbs t).1 = t_state t.
Proof.
  assert (PreOrder (λ t t', t_state t' = t_state t)) as HP by (split; [by intros ?|intros ? ? ?; congruence]).
  change (moves (λ t t', t_state t' = t_state t) (write_blocks pbs)).
  induction pbs as [|pb pbs IH]; cbn [write_blocks]; moves_step; [|apply IH]. unfold write_pending. moves_step.
  intros t. unfold on_tdb, zoom. by destruct (WriteBlock _ _ _).
Qed.
Lemma on_w_state {A} (m : ST BTWriter A) t : t_state (on_w m t).1 = t_state t.
Proof. unfold on_w, zoom. by destruct (m (t_w t)). Qed.
Lemma commit_data_state depth t : t_state (commit_data depth t).1 = t_state t.
Proof.
  assert (PreOrder (λ t t', t_state t' = t_state t)) as HP by (split; [by intros ?|intros ? ? ?; congruence]).
  revert t. change (moves (λ t t', t_state t' = t_state t) (commit_data depth)). unfold commit_data.
  moves_step; [intros t; apply write_blocks_state|intros t; apply on_w_state|]. by apply moves_modify.
Qed.
(** A successful commit in its stages. *)
Lemma Commit_Ok_inv depth t t' :
  t_state t = TransactionStateActive → Commit depth t = (t', Ok tt) →
  ∃ t1, commit_data depth (started t) = (t1, Ok tt) ∧ ∃ data p f,
    SerializeHeader (finish_header t1) = Ok (data, set_crc (finish_header t1) p f) ∧
    blen data = header_size (HFormat (finish_header t1)) ∧
    let t2 := with_header (t_set_state t1 TransactionStateCompleting) data (set_crc (finish_header t1) p f) in
    t' = t_set_state (t_set_db t2 (ReloadBTrees (InvalidateCache (set_dirty (t_db t2) false)))) TransactionStateIdle.
Proof.
  intros Hs HC. rewrite Commit_unfold in HC by done. apply st_bind_inv in HC as (t1 & [] & H1 & H2).
  exists t1. split; [done|]. rewrite (st_bind_Ok _ _ t1 (t_set_state t1 TransactionStateCompleting) tt) in H2 by done.
  destruct (finishWrite_eq (t_set_state t1 TransactionStateCompleting)) as (data & p & f & Hw & HS & Hl).
  exists data, p, f. split; [done|]. split; [done|]. intros t2.
  rewrite (st_bind_Ok _ _ _ t2 tt) in H2 by (unfold wrap; by rewrite Hw). injection H2 as <-. done.
Qed.

(** A transaction is used once: whatever a commit returns, the transaction
    is no longer active afterwards, and every later queuing call, and every
    later commit, is refused and changes nothing. *)
Theorem commit_ends_transaction depth t :
  t_state t = TransactionStateActive →
  let t' := (Commit depth t).1 in
  t_state t' ≠ TransactionStateActive ∧
  ((Commit depth t).2 = Ok tt ↔ t_state t' = TransactionStateIdle) ∧
  (∀ data, WriteBlockData data t' = (t', Err (EFmt "transaction is not active" []))) ∧
  (∀ data, WriteExtendedBlockData data t' = (t', Err (EFmt "transaction is not active" []))) ∧
  (∀ ty p d s, CreateNode ty p d s t' = (t', Err (EFmt "transaction is not active" []))) ∧
  (∀ nid, TxnDeleteNode nid t' = (t', Err (EFmt "transaction is not active" []))) ∧
  (∀ bid, TxnDeleteBlock depth bid t' = (t', Err (EFmt "transaction is not active" []))) ∧
  Commit depth t' = (t', Err (EFmt "transaction is not active" [])).
Proof.
  intros Hs t'.
  assert (t_state t' ≠ TransactionStateActive ∧ ((Commit depth t).2 = Ok tt ↔ t_state t' = TransactionStateIdle)) as [Hn Hi].
  { subst t'. rewrite Commit_unfold by done. pose proof (commit_data_state depth (started t)) as H1.
    match goal with |- context [(commit_data depth ≫= ?k) (started t)] => set (K := k) end.
    unfold mbind, ST_bind. destruct (commit_data depth (started t)) as [t1 [[]|e|]]; cbn [fst snd] in *; subst K.
    2-3: change (t_state (started t)) with TransactionStateCommitting in H1; rewrite H1; (split; [done|by split]).
    clear. cbv beta. set (t2 := t_set_state t1 TransactionStateCompleting).
    rewrite (st_bind_Ok _ _ t1 t2 tt) by done.
    destruct (finishWrite_eq t2) as (data & p & f & Hw & _).
    rewrite (st_bind_Ok _ _ t2 (with_header t2 data (set_crc (finish_header t2) p f)) tt) by (unfold wrap; by rewrite Hw). split; [done|by split]. }
  split; [done|]. split; [done|]. clearbody t'. clear Hs Hi.
  assert (∀ A (m : ST WriteTransaction A), when_active m t' = (t', Err (EFmt "transaction is not active" []))) as Hw.
  { intros A m. unfold when_active. rewrite (st_bind_Ok get _ t' t' t') by done. cbv beta. by rewrite decide_False. }
  split_and!; intros; apply Hw.
Qed.
Lemma commit_ends_transaction_witness :
  let t' := (Commit 2 sample_txn).1 in t_state t' ≠ TransactionStateActive.
Proof. refine (proj1 (commit_ends_transaction 2 sample_txn _)). vm_compute; reflexivity. Defined.
Lemma ansi_header_ok_crc h data p f :
  ansi_header_ok (set_crc h p f) → SerializeHeader h = Ok (data, set_crc h p f) → ansi_header_ok h ∧ f = 0.
Proof.
  intros (O1 & O2 & O3 & O4) HS. cbn in O1, O3, O4. subst f. split; [|done]. split; [done|]. split; [done|]. split; [done|].
  unfold SerializeHeader in HS. rewrite O1 in HS. cbn [is_Unicode] in HS.
  destruct (SerializeHeaderANSI_fields h) as (d & c & HS' & _). rewrite HS in HS'. injection HS' as _ _ HF. by symmetry.
Qed.

(** C1: What a successful ANSI commit leaves on disk: a header that reads back
    with the status [Valid2], the roots the tree writer returned, the next block
    ID and the file size of the map; the transaction is idle and the database
    has no cached page, entry or dirty mark. *)
Theorem commit_publishes depth t t' :
  t_state t = TransactionStateActive → Commit depth t = (t', Ok tt) → ansi_header_ok (db_header (t_db t')) →
  ∃ t1 n b h, commit_data depth (started t) = (t1, Ok tt) ∧
    t_newNBTRoot t1 = Some n ∧ t_newBBTRoot t1 = Some b ∧
    ReadHeader (t_file t') = Ok h ∧ GetAMapStatus h = AMapStatusValid2 ∧ NBTRoot h = n ∧ BBTRoot h = b ∧
    BidNextB h = db_nextBID (t_db t1) ∧ IBFileEOF (HRoot h) = AM_fileSize (t_amap t1) ∧
    h = db_header (t_db t') ∧ t_state t' = TransactionStateIdle ∧ db_dirty (t_db t') = false ∧
    db_nbtRoot (t_db t') = not_loaded ∧ db_bbtRoot (t_db t') = not_loaded ∧
    db_nodeCache (t_db t') = ∅ ∧ db_blockCache (t_db t') = ∅.
Proof.
  intros Hs HC Hok. destruct (Commit_Ok_inv depth t t' Hs HC) as (t1 & H1 & data & p & f & HS & Hl & Ht').
  assert (∃ n b, t_newNBTRoot t1 = Some n ∧ t_newBBTRoot t1 = Some b) as (n & b & Hn & Hb).
  { unfold commit_data in H1. rewrite (st_bind_Ok get _ _ (started t) (started t)) in H1 by done. cbv beta in H1.
    apply st_bind_inv in H1 as (s1 & [] & _ & H1). apply st_bind_inv in H1 as (s2 & r & _ & H1). injection H1 as <-.
    by exists r.1, r.2. }
  assert (db_header (t_db t') = set_crc (finish_header t1) p f) as Hh by (by rewrite Ht').
  assert (ansi_header_ok (finish_header t1) ∧ f = 0) as [Hok1 ->].
  { rewrite Hh in Hok. by apply (ansi_header_ok_crc _ data p). }
  destruct (header_at_front _ data p 0 (t_set_state t1 TransactionStateCompleting) Hok1 HS Hl) as (Hd & Hsub & _).
  set (t2 := with_header _ data _) in *. assert (t_file t' = t_file t2) as Hfile by (by rewrite Ht').
  exists t1, n, b, (set_crc (finish_header t1) p 0). split; [done|]. split; [done|]. split; [done|].
  split; [rewrite Hfile; by apply (header_in_file (finish_header t1) data p 0)|].
  split; [done|]. split; [unfold finish_header, NBTRoot; by rewrite Hn, Hb|].
  split; [unfold finish_header, BBTRoot; by rewrite Hn, Hb|]. split; [done|]. split; [done|]. split; [done|].
  rewrite Ht'. clear. done.
Qed.
Lemma commit_publishes_witness :
  let t' := (Commit 2 sample_txn).1 in
  ∃ t1 n b h, commit_data 2 (started sample_txn) = (t1, Ok tt) ∧
    t_newNBTRoot t1 = Some n ∧ t_newBBTRoot t1 = Some b ∧
    ReadHeader (t_file t') = Ok h ∧ GetAMapStatus h = AMapStatusValid2 ∧ NBTRoot h = n ∧ BBTRoot h = b ∧
    BidNextB h = db_nextBID (t_db t1) ∧ IBFileEOF (HRoot h) = AM_fileSize (t_amap t1) ∧
    h = db_header (t_db t') ∧ t_state t' = TransactionStateIdle ∧ db_dirty (t_db t') = false ∧
    db_nbtRoot (t_db t') = not_loaded ∧ db_bbtRoot (t_db t') = not_loaded ∧
    db_nodeCache (t_db t') = ∅ ∧ db_blockCache (t_db t') = ∅.
Proof.
  refine (commit_publishes 2 sample_txn _ _ _ _).
  - vm_compute; reflexivity.
  - apply run_Ok. vm_compute; reflexivity.
  - apply (bool_decide_unpack _). by vm_compute.
Defined.

(** ** Blocks the queue accepts and the commit cannot write *)
Lemma write_pending_oversized pb t :
  MaxDataBlockSizeUnicode < blen (pb_data pb) → ∃ e, write_pending pb t = (t, Err e).
Proof.
  intros Hl. unfold write_pending. rewrite (st_bind_Ok get _ t t t) by done. cbv beta. unfold BuildBlock.
  rewrite (proj2 (Z.ltb_lt _ _)) by done. by eexists.
Qed.
Lemma write_pending_no_panic pb t : known (db_Format (t_db t)) →
  ∃ t1 r, write_pending pb t = (t1, r) ∧ r ≠ Panic ∧ db_Format (t_db t1) = db_Format (t_db t).
Proof.
  intros Hk. destruct (decide (blen (pb_data pb) ≤ MaxDataBlockSizeUnicode)) as [Hl|Hl].
  2:{ destruct (write_pending_oversized pb t) as [e He]; [lia|]. by exists t, (Err e). }
  unfold write_pending. rewrite (st_bind_Ok get _ t t t) by done. cbv beta.
  destruct (BuildBlock_layout (pb_data pb) (pb_bid pb) (pb_offset pb) (db_Format (t_db t)) (db_CryptMethod (t_db t)) Hk Hl) as [_ HB].
  rewrite HB. set (raw := _ ++ enc_blockTrailer _ _ _ _ _). rewrite (st_bind_Ok _ _ t t raw) by done.
  unfold wrap, on_tdb, zoom, WriteBlock. destruct (db_readOnly _); [by eexists _, _|].
  destruct (2 ^ 63 <=? _); by eexists _, _.
Qed.
Lemma write_blocks_oversized pbs pb : pb ∈ pbs → MaxDataBlockSizeUnicode < blen (pb_data pb) →
  ∀ t, known (db_Format (t_db t)) → ∃ t1 e, write_blocks pbs t = (t1, Err e).
Proof.
  intros Hin Hl. induction pbs as [|q pbs IH]; [by apply not_elem_of_nil in Hin|]. intros t Hk. cbn [write_blocks].
  apply elem_of_cons in Hin as [<-|Hin].
  - destruct (write_pending_oversized pb t Hl) as [e He]. exists t, e. by apply st_bind_Err.
  - destruct (write_pending_no_panic q t Hk) as (t1 & r & Hr & Hp & Hf). destruct r as [u|e|]; [|by exists t1, e; apply st_bind_Err|done].
    rewrite (st_bind_Ok _ _ t t1 u) by done. apply IH; [done|by rewrite Hf].
Qed.
Lemma WriteBlockData_inv data t t1 bid : WriteBlockData data t = (t1, Ok bid) →
  ∃ off, t_pendingBlocks t1 = t_pendingBlocks t ++ [mkPending bid off data (u16 (blen data))] ∧
    t_allocs t1 = t_allocs t ++ [mkAlloc off (AlignDisk (CalculateBlockDiskSize (blen data) (db_Format (t_db t))))] ∧
    db_header (t_db t1) = db_header (t_db t) ∧ t_state t = TransactionStateActive ∧ t_state t1 = TransactionStateActive ∧
    bid = db_nextBID (t_db t) ∧ db_nextBID (t_db t1) = u64 (db_nextBID (t_db t) + 4).
Proof.
  unfold WriteBlockData, when_active. rewrite (st_bind_Ok get _ t t t) by done. cbv beta.
  destruct (decide (t_state t = TransactionStateActive)) as [Ha|]; [|done]. intros H.
  apply st_bind_inv in H as (s1 & [] & [= <-] & H).
  rewrite (st_bind_Ok get _ _ _ _) in H by done. cbv beta zeta in H. destruct (_ <? _); [done|].
  apply st_bind_inv in H as (s2 & b & [= <- <-] & H). apply st_bind_inv in H as (s3 & off & HA & H).
  unfold wrap, on_w, zoom, allocate in HA. cbn -[CalculateBlockDiskSize Allocate] in HA. destruct (Allocate _ _) as [[o m]|e|] eqn:EA; [|done..].
  cbn in HA. injection HA as <- <-.
  apply st_bind_inv in H as (s4 & [] & [= <-] & H). apply st_bind_inv in H as (s5 & [] & HI & H). injection H as <- <-.
  unfold on_w, zoom, InsertBlock in HI. destruct (_ !! _); [done|]. cbn in HI. injection HI as <-.
  exists o. unfold t_allocs. cbn. split; [done|]. split; [|done].
  unfold Allocate in EA. destruct (_ =? 0); [done|]. by destruct (find_page _ _) as [[]|]; injection EA as <- <-.
Qed.

(** In an ANSI file the queue accepts data of 8177 to 8180 bytes, and the
    commit of a transaction that queued such a block always fails, after the
    header on disk was marked [Invalid]: the transaction stays committing. *)
Theorem accepted_block_fails_commit depth data t t1 bid :
  db_Format (t_db t) = FormatANSI → MaxDataBlockSizeUnicode < blen data ≤ MaxDataBlockSizeANSI →
  WriteBlockData data t = (t1, Ok bid) →
  ∃ t2 e, Commit depth t1 = (t2, Err e) ∧ t_state t2 = TransactionStateCommitting.
Proof.
  intros Hf Hl HW. destruct (WriteBlockData_inv _ _ _ _ HW) as (off & Hp & _ & Hh & _ & Hs & _).
  rewrite Commit_unfold by done. destruct (started_same t1) as (Hp1 & _ & Hf1).
  destruct (write_blocks_oversized (t_pendingBlocks t1) (mkPending bid off data (u16 (blen data)))) with (started t1) as (t2 & e & Hw).
  { rewrite Hp. apply elem_of_app. right. left. } { cbn. lia. }
  { rewrite Hf1. unfold db_Format in *. by rewrite Hh, Hf. }
  exists t2, e. assert (commit_data depth (started t1) = (t2, Err e)) as Hd.
  { unfold commit_data. rewrite (st_bind_Ok get _ (started t1) (started t1) (started t1)) by done. cbv beta.
    rewrite Hp1. by apply st_bind_Err. }
  split; [by apply st_bind_Err|]. pose proof (commit_data_state depth (started t1)) as H. by rewrite Hd in H.
Qed.
Lemma accepted_block_fails_commit_witness :
  let t1 := (WriteBlockData (zeros 8177) (begin_write open_sample)).1 in
  ∃ t2 e, Commit 2 t1 = (t2, Err e) ∧ t_state t2 = TransactionStateCommitting.
Proof.
  refine (accepted_block_fails_commit 2 (zeros 8177) (begin_write open_sample) _ 4 _ _ _).
  - vm_compute; reflexivity.
  - split; by vm_compute.
  - apply run_val. vm_compute; reflexivity.
Defined.

(** ** The extended block is built twice *)
Lemma BuildExtendedBlock_size level bids total bid off format raw :
  known format → BuildExtendedBlock level bids total bid off format = Ok raw →
  blen bids ≤ (if is_ANSI format then MaxXBlockEntriesANSI else MaxXBlockEntriesUnicode) ∧
  blen raw = AlignDisk (8 + blen bids * bidSize format) + blockTrailerSize format.
Proof.
  intros Hk. unfold BuildExtendedBlock. destruct (Z.ltb_spec (if is_ANSI format then MaxXBlockEntriesANSI else MaxXBlockEntriesUnicode) (blen bids)) as [|Hn]; [done|].
  intros H. split; [done|]. pose proof (blen_nonneg bids).
  assert (∀ n v off d d', put n off v d = Ok d' → blen d' = blen d) as Hput.
  { intros n v o d d'. unfold put, put_bytes. destruct (_ && _); [|done]. intros [= <-]. apply blen_splice. }
  assert (∀ v off d d', put8 off v d = Ok d' → blen d' = blen d) as Hput8.
  { intros v o d d'. unfold put8, put_bytes. destruct (_ && _); [|done]. intros [= <-]. apply blen_splice. }
  apply bind_Ok_inv in H as (d1 & H1%Hput8 & H). apply bind_Ok_inv in H as (d2 & H2%Hput8 & H).
  apply bind_Ok_inv in H as (d3 & H3%Hput & H). apply bind_Ok_inv in H as (d4 & H4%Hput & H).
  apply bind_Ok_inv in H as (d5 & H5 & H). apply (blen_BuildBlock _ _ _ _ _ _ Hk) in H. rewrite H. f_equal. f_equal.
  unfold put_bytes in H5. destruct (_ && _); [|done]. injection H5 as <-. rewrite blen_splice, H4, H3, H2, H1, blen_zeros.
  assert (0 ≤ bidSize format) by (by destruct format). nia.
Qed.
Lemma write_chunks_queue n data : moves qstep (write_chunks n data).
Proof. unfold write_chunks. apply mapM_moves; [apply _|]. intros. apply WriteBlockData_queue. Qed.

(** For data over several blocks of a Unicode file, the queued extended
    block holds a block that is already built, which the commit builds again:
    the result is longer than the area allocated for it, so that writing it
    runs over the bytes that follow the area. *)
Theorem extended_block_overruns data t t1 bid :
  db_Format (t_db t) = FormatUnicode → MaxDataBlockSizeUnicode < blen data →
  WriteExtendedBlockData data t = (t1, Ok bid) →
  ∃ pb al, last (t_pendingBlocks t1) = Some pb ∧ last (t_allocs t1) = Some al ∧
    pb_bid pb = bid ∧ pb_offset pb = al_offset al ∧
    al_size al < AlignDisk (blen (pb_data pb)) + blockTrailerSize FormatUnicode ∧
    ∀ raw, BuildBlock (pb_data pb) bid (pb_offset pb) FormatUnicode (db_CryptMethod (t_db t1)) = Ok raw →
      al_size al < blen raw.
Proof.
  intros Hf Hl. unfold WriteExtendedBlockData, when_active. rewrite (st_bind_Ok get _ t t t) by done. cbv beta.
  destruct (decide _) as [Ha|]; [|done]. rewrite (st_bind_Ok get _ t t t) by done. cbv beta zeta.
  rewrite Hf. cbn [maxDataSize is_ANSI]. rewrite (proj2 (Z.leb_gt _ _)) by done. intros H.
  apply st_bind_inv in H as (s1 & bids & Hc & H). apply st_bind_inv in H as (s2 & xbid & [= <- <-] & H).
  apply st_bind_inv in H as (s3 & off & HA & H). unfold on_w, zoom, allocate in HA.
  cbn -[CalculateBlockDiskSize Allocate Z.mul Z.add] in HA. destruct (Allocate _ _) as [[o m]|e|] eqn:EA; [|done..].
  cbn in HA. injection HA as <- <-.
  apply st_bind_inv in H as (s4 & xd & HB & H). unfold lift in HB. injection HB as <- HB.
  assert (known FormatUnicode) as Hk by done.
  destruct (BuildExtendedBlock_size _ _ _ _ _ _ _ Hk HB) as [Hn Hx]. cbn [is_ANSI] in Hn.
  apply st_bind_inv in H as (s5 & [] & [= <-] & H). apply st_bind_inv in H as (s6 & [] & HI & H). injection H as <- <-.
  unfold on_w, zoom, InsertBlock in HI. destruct (_ !! _); [done|]. cbn in HI. injection HI as <-.
  set (size := CalculateBlockDiskSize _ _) in EA.
  eexists _, (mkAlloc o (AlignDisk size)). unfold t_allocs. cbn -[size].
  split; [apply last_snoc|]. split.
  { unfold Allocate in EA. destruct (_ =? 0); [done|]. destruct (find_page _ _) as [[]|]; injection EA as <- <-; apply last_snoc. }
  split; [done|]. split; [done|].
  assert (AlignDisk size < AlignDisk (blen xd) + blockTrailerSize FormatUnicode) as Hov.
  { pose proof (blen_nonneg bids). unfold MaxXBlockEntriesUnicode in Hn. rewrite Hx. subst size. unfold CalculateBlockDiskSize.
    cbn [is_Unicode blockTrailerSize bidSize is_ANSI] in *. unfold BlockTrailerSizeUnicode.
    rewrite (u64_small (8 + _)) by lia. set (k := 8 + blen bids * 8) in *. assert (0 ≤ k ≤ 8168) by lia.
    rewrite !AlignDisk_arith; rewrite ?AlignDisk_arith; rewrite ?u64_small; try lia.
    all: pose proof (Z_div_mod_eq_full (k + 63) 64); pose proof (Z.mod_pos_bound (k + 63) 64 ltac:(lia)); try lia. }
  split; [exact Hov|]. intros raw Hraw. by rewrite (blen_BuildBlock _ _ _ _ _ _ Hk Hraw).
Qed.
Definition unicode_txn : WriteTransaction :=
  mkTxn (NewBTWriter (sample_db [] (NewHeader FormatUnicode ClientMagicPST)) (CreateNewAMapManager FormatUnicode))
    TransactionStateActive [] [] None None (NewHeader FormatUnicode ClientMagicPST).
Lemma extended_block_overruns_witness :
  let t1 := (WriteExtendedBlockData (zeros 8177) unicode_txn).1 in
  ∃ pb al, last (t_pendingBlocks t1) = Some pb ∧ last (t_allocs t1) = Some al ∧
    pb_bid pb = 14 ∧ pb_offset pb = al_offset al ∧
    al_size al < AlignDisk (blen (pb_data pb)) + blockTrailerSize FormatUnicode ∧
    ∀ raw, BuildBlock (pb_data pb) 14 (pb_offset pb) FormatUnicode (db_CryptMethod (t_db t1)) = Ok raw →
      al_size al < blen raw.
Proof.
  refine (extended_block_overruns (zeros 8177) unicode_txn _ 14 _ _ _).
  - done.
  - by vm_compute.
  - apply run_val. vm_compute; reflexivity.
Defined.

(** ** New node IDs *)
Lemma CreateNode_inv ty parent dbid sbid t t1 info : CreateNode ty parent dbid sbid t = (t1, Ok info) →
  info = mkNodeInfo (MakeNID ty (u32 (db_nextNID (t_db t) + 1))) dbid sbid parent ∧
  w_nbtInserts (t_w t) !! NI_NID info = None ∧
  w_nbtInserts (t_w t1) = <[NI_NID info := info]> (w_nbtInserts (t_w t)) ∧
  NI_NID info ∉ w_nbtDeletes (t_w t1).
Proof.
  unfold CreateNode, when_active. rewrite (st_bind_Ok get _ t t t) by done. cbv beta.
  destruct (decide _); [|done]. intros H. apply st_bind_inv in H as (s1 & [] & [= <-] & H).
  rewrite (st_bind_Ok get _ _ _ _) in H by done. cbv beta zeta in H.
  apply st_bind_inv in H as (s2 & [] & HI & H). apply st_bind_inv in H as (s3 & [] & [= <-] & H). injection H as <- <-.
  unfold on_w, zoom, InsertNode in HI. cbn -[decide MakeNID] in HI.
  set (nid := MakeNID _ _) in *. destruct (w_nbtInserts (t_w t) !! nid) eqn:E; [done|]. injection HI as <-.
  cbn -[decide]. split; [done|]. split; [done|]. split; [done|]. case_decide; set_solver.
Qed.

(** Node indexes start from 1 in every opened file, whatever nodes it has:
    the first node that a transaction creates gets index 1 of its type, and when
    the tree already has that node, applying the changes keeps the old entry and
    adds the new one under the same ID. *)
Theorem first_node_id_ignores_tree file mode db t t1 ty parent dbid sbid info entries old :
  OpenWithMode file mode = Ok db → BeginWrite db = Some (Ok t) →
  CreateNode ty parent dbid sbid t = (t1, Ok info) →
  NI_NID info = MakeNID ty 1 ∧
  (old ∈ entries → u32 (NE_NID old) = MakeNID ty 1 →
   let l := merge_nbt entries (w_nbtDeletes (t_w t1)) (map_to_list (w_nbtInserts (t_w t1))).*2 in
   old ∈ l ∧ entry_of_node info ∈ l).
Proof.
  intros HO HB HC. destruct (CreateNode_inv _ _ _ _ _ _ _ HC) as (Hi & _ & Hins & Hdel).
  assert (db_nextNID db = 0) as Hn.
  { unfold OpenWithMode in HO. apply bind_Ok_inv in HO as (h & _ & HO). by injection HO as <-. }
  assert (db_nextNID (t_db t) = 0) as Hn'.
  { unfold BeginWrite in HB. destruct (db_readOnly db); [done|]. destruct (NewAMapManager _ _) as [[m|e|]|]; cbn in HB; [|done..].
    by injection HB as <-. }
  rewrite Hn' in Hi. change (u32 (0 + 1)) with 1 in Hi. split; [by rewrite Hi|]. intros Hin Hu l.
  pose proof (merge_nbt_Permutation entries (w_nbtDeletes (t_w t1)) (map_to_list (w_nbtInserts (t_w t1))).*2) as Hp.
  fold l in Hp. split; rewrite Hp; apply elem_of_app.
  - left. apply list_elem_of_filter. split; [|done]. rewrite Hu. by rewrite Hi in Hdel.
  - right. rewrite Hins. apply list_elem_of_fmap. exists info. split; [done|]. apply list_elem_of_fmap.
    exists (NI_NID info, info). split; [done|]. apply elem_of_map_to_list, lookup_insert_eq.
Qed.
Lemma first_node_id_ignores_tree_witness :
  let t := begin_write open_sample in
  let t1 := (CreateNode 1 0 4 0 t).1 in
  let info := mkNodeInfo 33 4 0 0 in
  NI_NID info = MakeNID 1 1 ∧
  (mkNBTLeaf 33 0 0 0 ∈ [mkNBTLeaf 33 0 0 0] → u32 33 = MakeNID 1 1 →
   let l := merge_nbt [mkNBTLeaf 33 0 0 0] (w_nbtDeletes (t_w t1)) (map_to_list (w_nbtInserts (t_w t1))).*2 in
   mkNBTLeaf 33 0 0 0 ∈ l ∧ entry_of_node info ∈ l).
Proof.
  refine (first_node_id_ignores_tree sample_file OpenModeReadWrite open_sample _ _ 1 0 4 0 _ _ (mkNBTLeaf 33 0 0 0) _ _ _).
  - unfold open_sample. assert (match OpenWithMode sample_file OpenModeReadWrite with Ok _ => true | _ => false end = true) as H
      by (vm_compute; reflexivity).
    revert H. generalize (OpenWithMode sample_file OpenModeReadWrite). by intros [db|e|].
  - apply begin_write_Ok. vm_compute; reflexivity.
  - apply run_val. vm_compute; reflexivity.
Defined.

(** ** Rolling back *)

(** Rolling back: an idle transaction is left alone; an active one drops its
    queues without touching file or header; after a commit that failed the
    header in memory is the one of [BeginWrite] and it is written back to the
    file, where (ANSI) it reads back as it was, and nothing else of the file
    changes.  In every case the call succeeds and the transaction ends idle with
    empty queues. *)
Theorem rollback_restores t :
  ansi_header_ok (t_originalHeader t) →
  let t' := (Rollback t).1 in
  (Rollback t).2 = Ok tt ∧ t_state t' = TransactionStateIdle ∧
  (t_state t = TransactionStateIdle → t' = t) ∧
  (t_state t = TransactionStateActive → t_db t' = t_db t) ∧
  (t_state t ≠ TransactionStateIdle → HasChanges (t_w t') = false ∧ t_pendingBlocks t' = []) ∧
  (2 ≤ state_rank (t_state t) → ∃ p,
     db_header (t_db t') = set_crc (t_originalHeader t) p 0 ∧ ReadHeader (t_file t') = Ok (db_header (t_db t')) ∧
     ∀ a k, HeaderSizeANSI ≤ a → 0 ≤ k → a + k ≤ blen (t_file t) → sub (t_file t') a k = sub (t_file t) a k).
Proof.
  intros Hok t'. subst t'. unfold Rollback. rewrite (st_bind_Ok get _ t t t) by done. cbv beta.
  destruct (decide (t_state t = TransactionStateIdle)) as [Hi|Hi]; [by rewrite Hi|].
  destruct (Z.leb_spec 2 (state_rank (t_state t))) as [Hr|Hr].
  - destruct (writeHeader_eq t (t_originalHeader t)) as (data & p & f & Hw & HS & Hl).
    destruct (header_at_front _ data p f t Hok HS Hl) as (Hd & Hsub & _).
    assert (f = 0) as ->.
    { destruct (SerializeHeaderANSI_fields (t_originalHeader t)) as (d' & c' & HS' & _). destruct Hok as (O1 & _ & _ & O4).
      unfold SerializeHeader in HS. rewrite O1 in HS. cbn [is_Unicode] in HS. rewrite HS in HS'. injection HS' as _ _ HF. congruence. }
    set (t1 := with_header t data _) in *.
    rewrite (st_bind_Ok _ _ t t1 tt).
    2:{ rewrite (st_bind_Ok _ _ t (t_set_db t (set_header (t_db t) (t_originalHeader t))) tt) by done. unfold wrap. by rewrite Hw. }
    cbn [fst snd modify]. split; [done|]. split; [done|]. split; [done|].
    split; [intros E; by rewrite E in Hr|]. split; [done|]. intros _. exists p. split; [done|]. split.
    + apply (header_in_file _ data p 0); done.
    + intros a k H1 H2 H3. change (sub (write_at 0 data (t_file t)) a k = sub (t_file t) a k).
      apply write_at_frame; [done| |done|done|right; rewrite Hd; lia]. unfold HeaderSizeANSI in *. lia.
  - rewrite (st_bind_Ok _ _ t t tt) by done. cbn [fst snd modify]. split; [done|]. split; [done|]. split; [done|].
    split; [done|]. split; [done|]. lia.
Qed.
Lemma rollback_restores_witness :
  let t := (Commit 2 (WriteBlockData (zeros 8177) (begin_write open_sample)).1).1 in
  (Rollback t).2 = Ok tt ∧ t_state (Rollback t).1 = TransactionStateIdle.
Proof.
  intros t. assert (ansi_header_ok (t_originalHeader t)) as H.
  { apply (bool_decide_unpack _). vm_compute. done. }
  destruct (rollback_restores t H) as (H1 & H2 & _). exact (conj H1 H2).
Defined.
