(* ===== verification/NodeWrite.v ===== *)
(** * Writing nodes ([pkg/ndb/node_write.go])

    The builders of nodes and subnode blocks, and the operations that replace,
    copy, move and delete nodes, over a write transaction. *)
From S2P Require Import Prelude Format Codec Ids Page Block Header AMap State Database BTree Node Transaction.

(** Data of any length: one block if it fits, an extended block otherwise. *)
Definition write_data (data : bytes) : ST WriteTransaction Z :=
  do t <- get;
  if blen data <=? maxDataSize (db_Format (t_db t)) then WriteBlockData data else WriteExtendedBlockData data.

(** ** Nodes *)
Record NodeBuilder := mkNodeBuilder {
  nb_nidType : Z; nb_parentNID : Z; nb_dataBID : Z; nb_subBID : Z; nb_data : bytes }.
Definition NewNodeBuilder (nidType : Z) : NodeBuilder := mkNodeBuilder nidType 0 0 0 [].
Definition WithParent (b : NodeBuilder) parentNID := mkNodeBuilder (nb_nidType b) parentNID (nb_dataBID b) (nb_subBID b) (nb_data b).
Definition WithData (b : NodeBuilder) data := mkNodeBuilder (nb_nidType b) (nb_parentNID b) (nb_dataBID b) (nb_subBID b) data.
Definition WithDataBID (b : NodeBuilder) bid := mkNodeBuilder (nb_nidType b) (nb_parentNID b) bid (nb_subBID b) (nb_data b).
Definition WithSubnodeBID (b : NodeBuilder) bid := mkNodeBuilder (nb_nidType b) (nb_parentNID b) (nb_dataBID b) bid (nb_data b).
Definition Build (b : NodeBuilder) : ST WriteTransaction NodeInfo :=
  do dataBID <- (if 0 <? blen (nb_data b) then wrap "failed to write node data" (write_data (nb_data b)) else mret (nb_dataBID b));
  CreateNode (nb_nidType b) (nb_parentNID b) dataBID (nb_subBID b).

(** ** Subnode blocks *)
Definition AddSubnode (entries : list SubnodeLeafEntry) (nid : Z) (data : bytes) : ST WriteTransaction (list SubnodeLeafEntry) :=
  do dataBID <- (if 0 <? blen data then wrap "failed to write subnode data" (write_data data) else mret 0);
  mret (entries ++ [mkSubLeaf nid dataBID 0]).
Definition AddSubnodeWithBID (entries : list SubnodeLeafEntry) (nid dataBID : Z) : list SubnodeLeafEntry :=
  entries ++ [mkSubLeaf nid dataBID 0].
Definition BuildSubnodes (entries : list SubnodeLeafEntry) : ST WriteTransaction Z :=
  if blen entries =? 0 then mret 0 else
  do bid <- on_tdb AllocateInternalBlockID;
  do t <- get;
  let format := db_Format (t_db t) in
  let entrySize := if is_ANSI format then 12 else 24 in
  let headerSize := if is_ANSI format then 4 else 8 in
  let dataSize := u64 (headerSize + blen entries * entrySize) in
  let diskSize := CalculateBlockDiskSize dataSize format in
  do offset <- wrap "failed to allocate subnode block" (on_w (allocate diskSize));
  do blockData <- wrap "failed to build subnode block" (lift (BuildSubnodeLeafBlock entries bid offset format));
  add_pending (mkPending bid offset blockData (u16 (blen blockData))) ;;
  on_w (InsertBlock (mkBlockInfo bid offset (u16 dataSize) 1)) ;;
  mret bid.

(** ** Changing nodes *)
Section changes.
(** Depth of the call stack of the searches. *)
Context (depth : nat).
Definition lookup_node (nid : Z) : ST WriteTransaction NodeInfo :=
  wrap "node not found" (on_tdb (LookupNode depth nid)).
Definition delete_block_if (bid : Z) : ST WriteTransaction unit :=
  if negb (bid =? 0) then ignore_err (TxnDeleteBlock depth bid) else mret tt.
(** The delete-then-insert of the three operations that replace an entry. *)
Definition replace_entry (newInfo : NodeInfo) : ST WriteTransaction unit :=
  on_w (DeleteNode (NI_NID newInfo)) ;; on_w (InsertNode newInfo).

Definition UpdateNodeData (nid : Z) (data : bytes) : ST WriteTransaction unit :=
  do info <- lookup_node nid;
  delete_block_if (NI_DataBID info) ;;
  do newBID <- (if 0 <? blen data then wrap "failed to write new data" (write_data data) else mret 0);
  replace_entry (mkNodeInfo nid newBID (NI_SubBID info) (NI_ParentNID info)).
Definition UpdateNodeSubnodes (nid subBID : Z) : ST WriteTransaction unit :=
  do info <- lookup_node nid;
  delete_block_if (NI_SubBID info) ;;
  replace_entry (mkNodeInfo nid (NI_DataBID info) subBID (NI_ParentNID info)).
Definition MoveNode (nid newParentNID : Z) : ST WriteTransaction unit :=
  do info <- lookup_node nid;
  replace_entry (mkNodeInfo nid (NI_DataBID info) (NI_SubBID info) newParentNID).
Definition CopyNode (sourceNID newType newParentNID : Z) : ST WriteTransaction NodeInfo :=
  do sourceInfo <- wrap "source node not found" (on_tdb (LookupNode depth sourceNID));
  CreateNode newType newParentNID (NI_DataBID sourceInfo) (NI_SubBID sourceInfo).

(** Load the subnode block of a fresh node for [info]. *)
Definition load_node_subnodes (info : NodeInfo) : ST WriteTransaction (result (option SubnodeBlock)) :=
  on_tdb (λ db, let '((db, _), r) := loadSubnodes depth (db, newNode info) in (db, Ok r)).
(** [levels] bounds the recursion over nodes and over subnode blocks. *)
Fixpoint DeleteNodeRecursive (levels : nat) (nid : Z) : ST WriteTransaction unit :=
  match levels with
  | O => lift Panic
  | S levels => λ t,
    match on_tdb (LookupNode depth nid) t with
    | (t, Err _) => (t, Ok tt)
    | (t, Panic) => (t, Panic)
    | (t, Ok info) =>
      ((if negb (NI_SubBID info =? 0) then
          (λ t, match on_tdb (LookupNode depth nid) t with
            | (t, Ok info) =>
              (do r <- load_node_subnodes info;
               Subnodes (@on_tdb) (λ y,
                 match y with
                 | Ok sub => ignore_err (DeleteNodeRecursive levels (NI_NID sub)) ;; mret true
                 | _ => mret true
                 end) depth levels r) t
            | (t, Err _) => (t, Ok tt)
            | (t, Panic) => (t, Panic)
            end) ;;
          ignore_err (TxnDeleteBlock depth (NI_SubBID info))
        else mret tt) ;;
       delete_block_if (NI_DataBID info) ;;
       TxnDeleteNode nid) t
    end
  end.
End changes.

(** ** Composite nodes *)
Definition CreateFolderNode (parentNID : Z) (folderData : bytes) : ST WriteTransaction NodeInfo :=
  do folder <- wrap "failed to create folder node"
    (Build (WithData (WithParent (NewNodeBuilder NIDTypeNormalFolder) parentNID) folderData));
  wrap "failed to create hierarchy table" (Build (WithParent (NewNodeBuilder NIDTypeHierarchyTable) (NI_NID folder))) ;;
  wrap "failed to create contents table" (Build (WithParent (NewNodeBuilder NIDTypeContentsTable) (NI_NID folder))) ;;
  mret folder.
Definition CreateMessageNode (parentNID : Z) (messageData : bytes) : ST WriteTransaction NodeInfo :=
  Build (WithData (WithParent (NewNodeBuilder NIDTypeNormalMessage) parentNID) messageData).
