(* ===== verification/Recovery.v ===== *)
(** * Recovery ([pkg/ndb/recovery.go])

    What opening a file after a crash repairs: the status check, the rebuild of
    the allocation map from the trees, and the integrity report. *)
From S2P Require Import Prelude Format Codec Ids Page Block Header AMap State Database BTree Transaction.

Record RecoveryResult := mkRecovery {
  WasCorrupted : bool; PreviousStatus : Z; RecoveredBlocks : Z; RecoveryError : option error }.

(** ** Collecting allocations *)
Definition block_alloc (format : PSTFormat) (e : BBTLeafEntry) : BlockAllocation :=
  mkBlockAlloc (BR_IB (BE_BRef e)) (u16 (CalculateBlockDiskSize (BE_Size e) format)).
Fixpoint collectAllocatedBlocks (depth : nat) (file : bytes) (format : PSTFormat) (page : BTPage)
    : result (list BlockAllocation) :=
  match depth with
  | O => Panic
  | S depth =>
    if IsLeaf page then mret (map (block_alloc format) (BP_BBTEntries page))
    else foldl (λ acc child,
           allocs ← acc;
           childPage ← child_page file format PageTypeBBT (KE_Ref child);
           childAllocs ← collectAllocatedBlocks depth file format childPage;
           mret (allocs ++ childAllocs)) (mret []) (BP_NonleafEntries page)
  end.
Fixpoint collectBTreePageAllocations (depth : nat) (file : bytes) (format : PSTFormat) (page : BTPage) (pageType : Z)
    : result (list BlockAllocation) :=
  match depth with
  | O => Panic
  | S depth =>
    if IsLeaf page then mret []
    else foldl (λ acc child,
           allocs ← acc;
           childPage ← child_page file format pageType (KE_Ref child);
           childAllocs ← collectBTreePageAllocations depth file format childPage pageType;
           mret (allocs ++ mkBlockAlloc (BR_IB (KE_Ref child)) PageSize :: childAllocs)) (mret []) (BP_NonleafEntries page)
  end.
Definition collectPageAllocations (depth : nat) (db : Database) (nbtRoot bbtRoot : option BTPage)
    : result (list BlockAllocation) :=
  np ← deref nbtRoot;
  nbtAllocs ← collectBTreePageAllocations depth (db_file db) (db_Format db) np PageTypeNBT;
  bp ← deref bbtRoot;
  bbtAllocs ← collectBTreePageAllocations depth (db_file db) (db_Format db) bp PageTypeBBT;
  mret (nbtAllocs ++ bbtAllocs).

(** [getAMapPages] returns no page, whatever the manager holds. *)
Definition getAMapPages (m : AMapManager) : list AMapPage := [].

(** ** The repair

    The state is the database and the result under construction. *)
Definition RState : Type := Database * RecoveryResult.
Definition r_db {A} (m : ST Database A) : ST RState A := zoom fst (λ s db, (db, s.2)) m.
Definition set_recovered (n : Z) : ST RState unit :=
  modify (λ s, (s.1, mkRecovery (WasCorrupted s.2) (PreviousStatus s.2) n (RecoveryError s.2))).
Fixpoint write_amap_pages (pages : list AMapPage) : ST RState unit :=
  match pages with
  | [] => mret tt
  | page :: pages =>
    do pageData <- wrap "failed to serialize AMap page" (lift (Serialize page));
    wrap "failed to write AMap page" (r_db (WritePage (AP_Offset page) pageData)) ;;
    write_amap_pages pages
  end.
Definition recovered_header (h : Header) (m : AMapManager) : Header :=
  let r := HRoot h in
  SetAMapStatus (set_root h (mkRoot (COrphans r) (FileSize m) (IBAMapLast r) (FreeSpace m) (CBPMapFree r)
    (BRefNBT r) (BRefBBT r) (FAMapValid r) (BARVec r) (CARVec r))) AMapStatusValid.
Definition performRecovery (depth : nat) : ST RState unit :=
  wrap "failed to load NBT root" (r_db loadNBTRoot) ;;
  wrap "failed to load BBT root" (r_db loadBBTRoot) ;;
  do s <- get;
  let db := s.1 in
  do allocatedBlocks <- wrap "failed to collect allocated blocks" (lift (
      root ← deref (once_page (db_bbtRoot db));
      collectAllocatedBlocks depth (db_file db) (db_Format db) root));
  set_recovered (blen allocatedBlocks) ;;
  do pageBlocks <- wrap "failed to collect page allocations"
    (lift (collectPageAllocations depth db (once_page (db_nbtRoot db)) (once_page (db_bbtRoot db))));
  let amap := RebuildFromBTrees (CreateNewAMapManager (db_Format db)) (allocatedBlocks ++ pageBlocks) in
  write_amap_pages (getAMapPages amap) ;;
  r_db (modify (λ db, set_header db (recovered_header (db_header db) amap))) ;;
  wrap "failed to write header" (r_db writeHeader).

(** ** Entry points: the result and the error that the functions return *)
Definition Outcome : Type := option RecoveryResult * option error.
Definition run_recovery (depth : nat) (ctx : error → error) (res : RecoveryResult) : ST Database Outcome := λ db,
  match performRecovery depth (db, res) with
  | ((db, res), Ok _) => (db, Ok (Some res, None))
  | ((db, res), Err e) => (db, Ok (Some res, Some (ctx e)))
  | ((db, res), Panic) => (db, Panic)
  end.
Definition normalizeAMapStatus : ST Database unit :=
  modify (λ db, set_header db (SetAMapStatus (db_header db) AMapStatusValid)) ;; writeHeader.
Definition CheckAndRecover (depth : nat) : ST Database Outcome := λ db,
  if db_readOnly db then (db, Ok (None, Some (EFmt "cannot recover read-only database" []))) else
  let status := GetAMapStatus (db_header db) in
  if status =? AMapStatusValid then (db, Ok (Some (mkRecovery false status 0 None), None))
  else if status =? AMapStatusValid2 then
    match normalizeAMapStatus db with
    | (db, Ok _) => (db, Ok (Some (mkRecovery false status 0 None), None))
    | (db, Err e) => (db, Ok (Some (mkRecovery false status 0 None), Some (EWrap "failed to normalize AMap status" e)))
    | (db, Panic) => (db, Panic)
    end
  else if status =? AMapStatusInvalid then
    run_recovery depth (EWrap "recovery failed") (mkRecovery true status 0 None) db
  else run_recovery depth (EWrap "recovery failed")
         (mkRecovery true status 0 (Some (EFmt "unknown AMap status: 0x%02X" [status]))) db.
Definition RepairCorruption (depth : nat) : ST Database Outcome := λ db,
  run_recovery depth (λ e, e) (mkRecovery true (GetAMapStatus (db_header db)) 0 None) db.

(** ** The integrity report *)
Fixpoint validateBTreeIntegrity (depth : nat) (file : bytes) (format : PSTFormat) (page : BTPage) (pageType : Z)
    : result (list error) :=
  match depth with
  | O => Panic
  | S depth =>
    let t := BP_Trailer page in
    let issues :=
      (if negb (PT_PageType t =? pageType) then [EFmt "Page type mismatch" [pageType; PT_PageType t]] else []) ++
      (if negb (PT_PageType t =? PT_PageTypeRepeat t)
       then [EFmt "Page type repeat mismatch" [PT_PageType t; PT_PageTypeRepeat t]] else []) in
    if IsLeaf page then mret issues
    else foldl (λ acc child,
           issues ← acc;
           match readPage file (BR_IB (KE_Ref child)) with
           | Err e => mret (issues ++ [EWrap "Failed to read child page" e])
           | Panic => Panic
           | Ok childData =>
             match ParseBTPage childData format pageType with
             | Err e => mret (issues ++ [EWrap "Failed to parse child page" e])
             | Panic => Panic
             | Ok childPage =>
               let issues := if BP_Level page <=? BP_Level childPage
                 then issues ++ [EFmt "Child level %d >= parent level %d" [BP_Level childPage; BP_Level page]] else issues in
               childIssues ← validateBTreeIntegrity depth file format childPage pageType;
               mret (issues ++ childIssues)
             end
           end) (mret issues) (BP_NonleafEntries page)
  end.
(** One tree of [ValidateIntegrity]: load, then validate. *)
Definition validate_tree (depth : nat) (load : ST Database unit) (root : Database → Root_) (ctx : string) (pageType : Z)
    : ST Database (list error) := λ db,
  match load db with
  | (db, Err e) => (db, Ok [EWrap ctx e])
  | (db, Panic) => (db, Panic)
  | (db, Ok _) => (db, p ← deref (once_page (root db)); validateBTreeIntegrity depth (db_file db) (db_Format db) p pageType)
  end.
Definition ValidateIntegrity (depth : nat) : ST Database (list error) :=
  do db <- get;
  let issues := if GetAMapStatus (db_header db) =? AMapStatusInvalid
    then [EFmt "AMap status is Invalid - file may be corrupted" []] else [] in
  do nbtIssues <- validate_tree depth loadNBTRoot db_nbtRoot "Failed to load NBT root" PageTypeNBT;
  do bbtIssues <- validate_tree depth loadBBTRoot db_bbtRoot "Failed to load BBT root" PageTypeBBT;
  do db <- get;
  mret (issues ++ nbtIssues ++ bbtIssues
    ++ if IBFileEOF (HRoot (db_header db)) =? 0 then [EFmt "File size in header is zero" []] else []).

(** ** What recovery does *)
Lemma collectAllocatedBlocks_map depth file format : ∀ p,
  collectAllocatedBlocks depth file format p = map (block_alloc format) <$> collectBBTEntries depth file format p.
Proof.
  induction depth as [|d IH]; intros p; cbn [collectAllocatedBlocks collectBBTEntries]; [done|].
  destruct (IsLeaf p); [done|].
  assert (∀ es acc, foldl (λ acc child, allocs ← acc; childPage ← child_page file format PageTypeBBT (KE_Ref child);
        childAllocs ← collectAllocatedBlocks d file format childPage; mret (allocs ++ childAllocs))
      (map (block_alloc format) <$> acc) es =
    map (block_alloc format) <$> foldl (λ acc child, entries ← acc; childPage ← child_page file format PageTypeBBT (KE_Ref child);
        childEntries ← collectBBTEntries d file format childPage; mret (entries ++ childEntries)) acc es) as H.
  { induction es as [|e es IHes]; intros acc; cbn [foldl]; [done|]. rewrite <- IHes. f_equal.
    destruct acc as [l|e'|]; cbn; [|done..]. destruct (child_page _ _ _ _); cbn; [|done..]. rewrite IH.
    destruct (collectBBTEntries d file format _); cbn; [|done..]. by rewrite map_app. }
  apply (H (BP_NonleafEntries p) (Ok [])).
Qed.

(** The page collector lists every page below the root of a tree: the pages
    that the tree reaches, each by the reference its parent holds. *)
Section pages.
Context {E : Type} (pt : Z) (leaf : BTPage → list E) (ekey : E → Z) (nkey : Z → Z).
Lemma collect_pages_tree file format n : ∀ p l depth,
  tree pt leaf ekey nkey file format n p l → (n ≤ depth)%nat →
  ∃ allocs, collectBTreePageAllocations depth file format p pt = Ok allocs ∧
    ∀ e, e ∈ BP_NonleafEntries p → IsLeaf p = false → mkBlockAlloc (BR_IB (KE_Ref e)) PageSize ∈ allocs.
Proof.
  induction n as [|n IH]; intros p l depth Ht Hd; [inversion Ht|]. destruct depth as [|depth]; [lia|].
  inversion Ht as [n' p' Hl|n' p' ls Hl Hk]; subst; cbn [collectBTreePageAllocations]; rewrite Hl.
  { exists []. by split. }
  rewrite mret_Ok. clear Ht.
  assert (∀ acc, ∃ allocs, foldl (λ acc child, allocs ← acc; childPage ← child_page file format pt (KE_Ref child);
      childAllocs ← collectBTreePageAllocations depth file format childPage pt;
      mret (allocs ++ mkBlockAlloc (BR_IB (KE_Ref child)) PageSize :: childAllocs)) (Ok acc) (BP_NonleafEntries p) = Ok allocs ∧
    acc ⊆ allocs ∧ ∀ e, e ∈ BP_NonleafEntries p → mkBlockAlloc (BR_IB (KE_Ref e)) PageSize ∈ allocs) as H.
  { clear Hl. induction Hk as [|m e es c k ls' Hp Htc Hk IHk Hlow Hup Hkeys]; intros acc; cbn [foldl].
    { exists acc. split; [done|]. split; [done|]. by intros e ?%not_elem_of_nil. }
    rewrite bind_Ok, Hp, bind_Ok. destruct (IH c k depth Htc ltac:(lia)) as (ca & -> & _). rewrite bind_Ok, mret_Ok.
    destruct (IHk IH Hd (acc ++ mkBlockAlloc (BR_IB (KE_Ref e)) PageSize :: ca)) as (allocs & -> & H1 & H2).
    exists allocs. split; [done|]. split; [set_solver|]. intros e' [->|He']%elem_of_cons; [set_solver|by apply H2]. }
  destruct (H []) as (allocs & Ha & _ & Hin). exists allocs. split; [exact Ha|]. intros e He _. by apply Hin.
Qed.
End pages.

(** C37: Recovery of a file left [Invalid] by a crash, with both trees readable:
    it succeeds and reports the number of blocks of the block tree, the status
    becomes [Valid] and the roots stay; but the file size is set to that of a
    new one-page map (17920) whatever the file holds, and no byte beyond the
    header changes: the map pages on disk are not rebuilt. *)
Theorem recovery_outcome depth db n m np nl bp bl :
  db_readOnly db = false → GetAMapStatus (db_header db) = AMapStatusInvalid →
  db_nbtRoot db = not_loaded → db_bbtRoot db = not_loaded →
  child_page (db_file db) (db_Format db) PageTypeNBT (NBTRoot (db_header db)) = Ok np →
  child_page (db_file db) (db_Format db) PageTypeBBT (BBTRoot (db_header db)) = Ok bp →
  nbt_tree (db_file db) (db_Format db) n np nl → bbt_tree (db_file db) (db_Format db) m bp bl →
  (n ≤ depth)%nat → (m ≤ depth)%nat →
  ∃ db', CheckAndRecover depth db = (db', Ok (Some (mkRecovery true AMapStatusInvalid (blen bl) None), None)) ∧
    GetAMapStatus (db_header db') = AMapStatusValid ∧
    NBTRoot (db_header db') = NBTRoot (db_header db) ∧ BBTRoot (db_header db') = BBTRoot (db_header db) ∧
    IBFileEOF (HRoot (db_header db')) = FirstAMapPageLocation + PageSize ∧
    ∀ a k, HeaderSizeUnicode ≤ a → 0 ≤ k → a + k ≤ blen (db_file db) → sub (db_file db') a k = sub (db_file db) a k.
Proof.
  intros Hro Hst Hn Hb Hnp Hbp Htn Htb Hd1 Hd2.
  unfold CheckAndRecover. rewrite Hro, Hst. cbn [Z.eqb AMapStatusInvalid AMapStatusValid AMapStatusValid2 Pos.eqb].
  unfold run_recovery, performRecovery. set (res := mkRecovery true 1 0 None).
  set (db1 := set_roots db (mkOnce true (Some np)) (db_bbtRoot db)).
  set (db2 := set_roots db1 (db_nbtRoot db1) (mkOnce true (Some bp))).
  rewrite (st_bind_Ok _ _ _ (db1, res) tt) by (unfold wrap, r_db, zoom; cbn [fst snd]; by rewrite (loadNBTRoot_Ok db np)).
  rewrite (st_bind_Ok _ _ _ (db2, res) tt) by (unfold wrap, r_db, zoom; cbn [fst snd]; by rewrite (loadBBTRoot_Ok db1 bp)).
  rewrite (st_bind_Ok get _ _ (db2, res) (db2, res)) by done. cbv beta zeta. cbn [fst snd].
  rewrite (st_bind_Ok _ _ _ (db2, res) (map (block_alloc (db_Format db)) bl)).
  2:{ unfold wrap, lift. cbn [once_page db_bbtRoot set_roots db2 deref]. rewrite bind_Ok, collectAllocatedBlocks_map, collectBBT_bt.
      change (db_file db2) with (db_file db). change (db_Format db2) with (db_Format db).
      by rewrite (bt_collect_tree PageTypeBBT BP_BBTEntries bbt_key clear2 _ _ m bp bl depth Htb Hd2). }
  rewrite blen_map. set (res2 := mkRecovery true 1 (blen bl) None).
  rewrite (st_bind_Ok _ _ _ (db2, res2) tt) by done.
  destruct (collect_pages_tree _ _ _ _ _ _ _ _ _ depth Htn Hd1) as (na & Hna & _).
  destruct (collect_pages_tree _ _ _ _ _ _ _ _ _ depth Htb Hd2) as (ba & Hba & _).
  rewrite (st_bind_Ok _ _ _ (db2, res2) (na ++ ba)).
  2:{ unfold wrap, lift, collectPageAllocations. cbn [once_page db_bbtRoot db_nbtRoot set_roots db2 db1 deref].
      change (db_file db2) with (db_file db). change (db_Format db2) with (db_Format db).
      rewrite bind_Ok, Hna, bind_Ok. cbn. by rewrite Hba. }
  cbv beta. cbn [getAMapPages write_amap_pages]. rewrite (st_bind_Ok (mret tt) _ _ (db2, res2) tt) by done. cbv beta.
  set (amap := RebuildFromBTrees _ _). set (h := recovered_header (db_header db) amap).
  rewrite (st_bind_Ok _ _ _ (set_header db2 h, res2) tt) by done.
  destruct (SerializeHeader_Ok h) as (data & p & f & HS & Hl).
  unfold wrap, r_db, zoom, writeHeader, WriteHeader. cbn [fst snd set_header db_header db_file].
  rewrite HS. cbn [wrap_err mbind result_bind mret result_ret].
  eexists. split; [reflexivity|]. cbn [db_header set_header set_file db_file].
  change (db_file db2) with (db_file db). split; [done|]. split; [done|]. split; [done|]. split; [done|].
  intros a k H1 H2 H3. pose proof (header_size_le (HFormat h)).
  apply write_at_frame; [done|unfold HeaderSizeUnicode in *; lia|done|done|right; lia].
Qed.
Definition crashed_db : Database :=
  sample_db sample_file (SetAMapStatus sample_file_header AMapStatusInvalid).
Definition sample_root_page (pt off : Z) : BTPage :=
  ok_or (NewNBTLeafPage [] 0) (child_page sample_file FormatANSI pt (mkBRef off off)).
Lemma recovery_outcome_witness :
  ∃ db', CheckAndRecover 1 crashed_db = (db', Ok (Some (mkRecovery true AMapStatusInvalid 0 None), None)) ∧
    GetAMapStatus (db_header db') = AMapStatusValid ∧
    NBTRoot (db_header db') = NBTRoot (db_header crashed_db) ∧ BBTRoot (db_header db') = BBTRoot (db_header crashed_db) ∧
    IBFileEOF (HRoot (db_header db')) = FirstAMapPageLocation + PageSize ∧
    ∀ a k, HeaderSizeUnicode ≤ a → 0 ≤ k → a + k ≤ blen (db_file crashed_db) →
      sub (db_file db') a k = sub (db_file crashed_db) a k.
Proof.
  refine (recovery_outcome 1 crashed_db 1 1 (sample_root_page PageTypeNBT 35840) [mkNBTLeaf 33 0 0 0]
    (sample_root_page PageTypeBBT 36352) [] _ _ _ _ _ _ _ _ (le_n 1) (le_n 1)).
  - done.
  - done.
  - done.
  - done.
  - vm_compute; reflexivity.
  - vm_compute; reflexivity.
  - replace [mkNBTLeaf 33 0 0 0] with (BP_NBTEntries (sample_root_page PageTypeNBT 35840)) by (vm_compute; reflexivity).
    apply tree_leaf. vm_compute; reflexivity.
  - replace (@nil BBTLeafEntry) with (BP_BBTEntries (sample_root_page PageTypeBBT 36352)) by (vm_compute; reflexivity).
    apply tree_leaf. vm_compute; reflexivity.
Defined.

(** ** The integrity report *)

(** What the report promises of a tree: every page reachable from the root is
    readable, has the right type twice, and lies below its parent. *)
Inductive sound_page (file : bytes) (format : PSTFormat) (pt : Z) : BTPage → Prop :=
  | sound_intro p :
      PT_PageType (BP_Trailer p) = pt → PT_PageTypeRepeat (BP_Trailer p) = pt →
      (IsLeaf p = false → sound_kids file format pt (BP_Level p) (BP_NonleafEntries p)) → sound_page file format pt p
with sound_kids (file : bytes) (format : PSTFormat) (pt : Z) : Z → list BTNonleafEntry → Prop :=
  | sound_nil lv : sound_kids file format pt lv []
  | sound_cons lv e es c :
      child_page file format pt (KE_Ref e) = Ok c → BP_Level c < lv → sound_page file format pt c →
      sound_kids file format pt lv es → sound_kids file format pt lv (e :: es).

(** The report over children starts from the issues found so far and only adds. *)
Lemma validate_kids file format pt depth lv : ∀ es acc,
  (∀ p, validateBTreeIntegrity depth file format p pt = Ok [] → sound_page file format pt p) →
  foldl (λ acc child,
    issues ← acc;
    match readPage file (BR_IB (KE_Ref child)) with
    | Err e => mret (issues ++ [EWrap "Failed to read child page" e])
    | Panic => Panic
    | Ok childData =>
      match ParseBTPage childData format pt with
      | Err e => mret (issues ++ [EWrap "Failed to parse child page" e])
      | Panic => Panic
      | Ok childPage =>
        let issues := if lv <=? BP_Level childPage
          then issues ++ [EFmt "Child level %d >= parent level %d" [BP_Level childPage; lv]] else issues in
        childIssues ← validateBTreeIntegrity depth file format childPage pt;
        mret (issues ++ childIssues)
      end
    end) acc es = Ok [] → acc = Ok [] ∧ sound_kids file format pt lv es.
Proof.
  induction es as [|e es IH]; intros acc Hc; cbn [foldl]; [intros ->; split; [done|constructor]|].
  intros H. apply IH in H as [H Hk]; [|done]. destruct acc as [l|e'|]; cbn [mbind result_bind] in H; [|done..].
  destruct (readPage file (BR_IB (KE_Ref e))) as [d|e'|] eqn:Er; [|injection H as H; by apply app_nil in H as [_ H]|done].
  destruct (ParseBTPage d format pt) as [c|e'|] eqn:Ep; [|injection H as H; by apply app_nil in H as [_ H]|done].
  destruct (validateBTreeIntegrity depth file format c pt) as [ci|e'|] eqn:Ev; [|done..].
  injection H as H. apply app_nil in H as [H ->]. destruct (Z.leb_spec lv (BP_Level c)); [by apply app_nil in H as [_ H]|].
  subst l. split; [done|]. apply (sound_cons _ _ _ _ _ _ c); [|done|by apply Hc|done].
  unfold child_page. by rewrite Er, bind_Ok, Ep.
Qed.

(** An integrity report without issues is sound: when the validation of a
    tree returns no issue, every page reachable from its root can be read, has
    the page type of the tree in both places, and has a smaller level than its
    parent. *)
Theorem no_issues_sound depth file format pt : ∀ p,
  validateBTreeIntegrity depth file format p pt = Ok [] → sound_page file format pt p.
Proof.
  induction depth as [|depth IH]; intros p H; [done|]. cbn [validateBTreeIntegrity] in H. cbv zeta in H.
  set (issues := _ ++ _) in H.
  assert (issues = [] ∧ (IsLeaf p = false → sound_kids file format pt (BP_Level p) (BP_NonleafEntries p))) as [Hi Hk].
  { destruct (IsLeaf p) eqn:El; [by injection H|]. apply validate_kids in H as [H Hk]; [|done]. by injection H. }
  subst issues. apply app_nil in Hi as [H1 H2].
  destruct (Z.eqb_spec (PT_PageType (BP_Trailer p)) pt) as [Ht|]; [|done].
  destruct (Z.eqb_spec (PT_PageType (BP_Trailer p)) (PT_PageTypeRepeat (BP_Trailer p))) as [Ht'|]; [|done].
  constructor; [done|congruence|done].
Qed.
Lemma no_issues_sound_witness : sound_page sample_nbt_file FormatANSI PageTypeNBT (sample_root PageTypeNBT 33 97).
Proof. apply (no_issues_sound 2). vm_compute; reflexivity. Defined.
