(* ===== verification/Heap.v ===== *)
(** * Heap-on-node

    Models [pkg/ltp/heap.go] and [pkg/ltp/heap_write.go]: the pages of a heap,
    reading an allocation by its heap ID, and the single-page writer. *)
From S2P Require Import Prelude Format Codec Ids State Database Node.

Definition HeapSignature : Z := 0xEC.
Definition HeapSigTC : Z := 0x7C.
Definition HeapSigBTH : Z := 0xB5.
Definition HeapSigPC : Z := 0xBC.
Definition HeapMaxAllocSize : Z := 3580.
#[export] Hint Unfold HeapSignature HeapSigTC HeapSigBTH HeapSigPC HeapMaxAllocSize : pst_consts.

(** ** Reading *)
Record heapBlock := mkHeapBlock {
  hb_data : bytes; hb_pageMapOff : Z; hb_numAllocs : Z; hb_allocations : list Z }.
Record HeapFirstHeader := mkHeapHeader {
  PageMapOffset : Z; H_Signature : Z; H_ClientSignature : Z; H_RootID : Z; FillLevels : bytes }.
(** [HeapOnNode]; the node it came from is kept by its users. *)
Definition HeapOnNode : Type := list heapBlock.

Definition parseFirstHeader (data : bytes) : result HeapFirstHeader :=
  off ← rd 2 0 data; sig ← index data 2; client ← index data 3; root ← rd 4 4 data; fill ← slice data 8 12;
  mret (mkHeapHeader off sig client root fill).
Definition parseBlock (idx : Z) (data : bytes) : result heapBlock :=
  if blen data <? 4 then Err (EFmt "heap block too small: %d bytes" [blen data]) else
  pageMapOff ←
    (if idx =? 0 then
       if blen data <? 12 then Err (EFmt "first heap block too small: %d bytes" [blen data]) else
       header ← parseFirstHeader data;
       if negb (H_Signature header =? HeapSignature)
       then Err (EFmt "invalid heap signature: got 0x%02X, expected 0x%02X" [H_Signature header; HeapSignature])
       else mret (PageMapOffset header)
     else rd 2 0 data);
  if blen data - 2 <=? pageMapOff
  then Err (EFmt "page map offset out of bounds: %d >= %d" [pageMapOff; blen data - 2]) else
  pageMap ← slice data pageMapOff (blen data);
  if blen pageMap <? 4 then Err (EFmt "page map too small" []) else
  numAllocs ← rd 2 0 pageMap;
  let numOffsets := numAllocs + 1 in
  if blen pageMap <? 4 + numOffsets * 2
  then Err (EFmt "page map truncated: need %d bytes, have %d" [4 + numOffsets * 2; blen pageMap]) else
  allocations ← parse_entries (λ off, rd 2 off pageMap) (Z.to_nat numOffsets) 4 2;
  mret (mkHeapBlock data pageMapOff numAllocs allocations).

(** The loop over the node's blocks, [n] to go from block [i]. *)
Fixpoint load_heap (depth levels n : nat) (i : Z) : ST NState HeapOnNode :=
  match n with
  | O => mret []
  | S n =>
    do data <- wrap "failed to get block %d" (GetBlock depth levels i);
    do block <- wrap "failed to parse heap block %d" (lift (parseBlock i data));
    do rest <- load_heap depth levels n (i + 1);
    mret (block :: rest)
  end.
Definition NewHeapOnNode (depth levels : nat) : ST NState HeapOnNode :=
  do count <- wrap "failed to get block count" (BlockCount depth levels);
  load_heap depth levels (Z.to_nat count) 0.

Definition RootID (h : HeapOnNode) : result Z :=
  match h with
  | [] => Ok 0
  | b :: _ => if blen (hb_data b) <? 8 then Ok 0 else rd 4 4 (hb_data b)
  end.
Definition ClientSignature (h : HeapOnNode) : result Z :=
  match h with
  | [] => Ok 0
  | b :: _ => if blen (hb_data b) <? 4 then Ok 0 else index (hb_data b) 3
  end.

(** The block and the offsets of an allocation. *)
Definition alloc_bounds (h : HeapOnNode) (hid : Z) : result (heapBlock * Z * Z) :=
  let pageIndex := PageIndex hid in
  let allocIndex := AllocIndex hid in
  if blen h <=? pageIndex then Err (EFmt "heap page index out of bounds: %d >= %d" [pageIndex; blen h]) else
  block ← index h pageIndex;
  if hb_numAllocs block <=? allocIndex
  then Err (EFmt "heap alloc index out of bounds: %d >= %d" [allocIndex; hb_numAllocs block]) else
  start ← index (hb_allocations block) allocIndex;
  stop ← index (hb_allocations block) (u16 (allocIndex + 1));
  mret (block, start, stop).
Definition HeapRead (h : HeapOnNode) (hid : Z) : result bytes :=
  if hid =? 0 then Ok [] else
  '(block, start, stop) ← alloc_bounds h hid;
  if (stop <? start) || (blen (hb_data block) <? stop)
  then Err (EFmt "invalid allocation bounds: start=%d, end=%d, block size=%d" [start; stop; blen (hb_data block)])
  else slice (hb_data block) start stop.
Definition HeapSize (h : HeapOnNode) (hid : Z) : result Z :=
  if hid =? 0 then Ok 0 else
  '(_, start, stop) ← alloc_bounds h hid; mret (u16 (stop - start)).

(** ** Writing *)
Record heapAllocation := mkHeapAlloc { ha_hid : Z; ha_data : bytes }.
Record HeapWriter := mkHeapWriter {
  hw_clientSig : Z; hw_rootHID : Z; hw_allocations : list heapAllocation; hw_nextAllocID : Z; hw_format : PSTFormat }.
Definition NewHeapWriter (clientSig : Z) (format : PSTFormat) : HeapWriter := mkHeapWriter clientSig 0 [] 1 format.
Definition CreatePropertyContextHeap := NewHeapWriter HeapSigPC.
Definition CreateTableContextHeap := NewHeapWriter HeapSigTC.
Definition CreateBTHHeap := NewHeapWriter HeapSigBTH.

Definition HeapAllocate (data : bytes) : ST HeapWriter Z := λ w,
  if HeapMaxAllocSize <? blen data
  then (w, Err (EFmt "allocation too large: %d bytes (max %d)" [blen data; HeapMaxAllocSize])) else
  let hid := MakeHeapID 0 (hw_nextAllocID w) in
  (mkHeapWriter (hw_clientSig w) (hw_rootHID w) (hw_allocations w ++ [mkHeapAlloc hid data])
     (u16 (hw_nextAllocID w + 1)) (hw_format w), Ok hid).
Definition SetRoot (hid : Z) : ST HeapWriter unit :=
  modify (λ w, mkHeapWriter (hw_clientSig w) hid (hw_allocations w) (hw_nextAllocID w) (hw_format w)).

(** The loop over the allocations: the buffer and the offsets. *)
Fixpoint write_allocs (currentOffset : Z) (allocs : list bytes) (buf : bytes) : bytes * list Z :=
  match allocs with
  | [] => (buf, [u16 currentOffset])
  | a :: allocs =>
    let '(buf, offsets) := write_allocs (currentOffset + blen a) allocs (splice currentOffset a buf) in
    (buf, u16 currentOffset :: offsets)
  end.
Fixpoint put_offsets (at_ : Z) (offsets : list Z) (buf : bytes) : result bytes :=
  match offsets with
  | [] => Ok buf
  | off :: offsets => buf ← put 2 at_ off buf; put_offsets (at_ + 2) offsets buf
  end.
Definition HeapBuild (w : HeapWriter) : result bytes :=
  let allocs := map ha_data (hw_allocations w) in
  let headerSize := 12 in
  let pageMapSize := 2 + blen allocs * 2 + 2 in
  let totalDataSize := blen (concat allocs) in
  let totalSize := headerSize + totalDataSize + pageMapSize in
  let maxSize := if is_ANSI (hw_format w) then MaxDataBlockSizeANSI else MaxDataBlockSizeUnicode in
  if maxSize <? totalSize then Err (EFmt "heap too large for single block: %d bytes" [totalSize]) else
  let pageMapOffset := headerSize + totalDataSize in
  buf ← put 2 0 (u16 pageMapOffset) (zeros totalSize);
  buf ← put8 2 HeapSignature buf; buf ← put8 3 (hw_clientSig w) buf; buf ← put 4 4 (hw_rootHID w) buf;
  let '(buf, offsets) := write_allocs headerSize allocs buf in
  buf ← put 2 pageMapOffset (u16 (blen allocs)) buf;
  put_offsets (pageMapOffset + 2) offsets buf.

(** The writer of several blocks collects them. *)
Record HeapBlockWriter := mkHeapBlockWriter { hbw_clientSig : Z; hbw_blocks : list bytes; hbw_format : PSTFormat }.
Definition NewHeapBlockWriter (clientSig : Z) (format : PSTFormat) : HeapBlockWriter := mkHeapBlockWriter clientSig [] format.
Definition AddBlock (data : bytes) (w : HeapBlockWriter) : HeapBlockWriter * Z :=
  (mkHeapBlockWriter (hbw_clientSig w) (hbw_blocks w ++ [data]) (hbw_format w), blen (hbw_blocks w ++ [data]) - 1).
Definition BuildBlocks (w : HeapBlockWriter) : list bytes := hbw_blocks w.

Definition SerializeHeapID (hid : Z) : bytes := le_enc 4 hid.
Definition ParseHeapID (data : bytes) : result Z := if blen data <? 4 then Ok 0 else rd 4 0 data.

(** ** The page format the reader expects

    A header, the allocations back to back, then the page map: the number of
    allocations, the number of freed ones, and the offsets of the allocations
    followed by their end. *)
Fixpoint alloc_offsets (off : Z) (allocs : list bytes) : list Z :=
  match allocs with
  | [] => [off]
  | a :: allocs => off :: alloc_offsets (off + blen a) allocs
  end.
Definition hn_map (off : Z) (allocs : list bytes) : bytes := concat (map (le_enc 2) (alloc_offsets off allocs)).
Definition hn_page (hdr : bytes) (allocs : list bytes) (cFree : Z) : bytes :=
  le_enc 2 (2 + blen hdr + blen (concat allocs)) ++ hdr ++ concat allocs
  ++ le_enc 2 (blen allocs) ++ le_enc 2 cFree ++ hn_map (2 + blen hdr) allocs.
Definition hn_block (hdr : bytes) (allocs : list bytes) (cFree : Z) : heapBlock :=
  mkHeapBlock (hn_page hdr allocs cFree) (2 + blen hdr + blen (concat allocs)) (blen allocs)
    (alloc_offsets (2 + blen hdr) allocs).
(** The first page starts with the heap signature and is long enough. *)
Definition hn_header (idx : Z) (hdr : bytes) : Prop := idx = 0 → 10 ≤ blen hdr ∧ sub hdr 0 1 = [HeapSignature].

Lemma blen_alloc_offsets off allocs : blen (alloc_offsets off allocs) = blen allocs + 1.
Proof. revert off. induction allocs as [|a allocs IH]; intros; cbn [alloc_offsets]; autorewrite with blen; rewrite ?IH; lia. Qed.
Lemma blen_words l : blen (concat (map (le_enc 2) l)) = 2 * blen l.
Proof. apply (blen_array 2). Qed.
Lemma blen_hn_map off allocs : blen (hn_map off allocs) = 2 * (blen allocs + 1).
Proof. unfold hn_map. by rewrite blen_words, blen_alloc_offsets. Qed.
Lemma blen_hn_page hdr allocs cFree :
  blen (hn_page hdr allocs cFree) = 2 + blen hdr + blen (concat allocs) + 6 + 2 * blen allocs.
Proof. unfold hn_page. rewrite !blen_app, blen_hn_map, !blen_le_enc. lia. Qed.

Lemma alloc_offsets_lookup allocs : ∀ off j a, allocs !! j = Some a →
  alloc_offsets off allocs !! j = Some (off + blen (concat (take j allocs))) ∧
  alloc_offsets off allocs !! S j = Some (off + blen (concat (take j allocs)) + blen a).
Proof.
  induction allocs as [|b allocs IH]; intros off [|j] a Ha; [done..| |].
  - injection Ha as ->. cbn. rewrite Z.add_0_r. split; [done|]. destruct allocs; done.
  - cbn [lookup list_lookup] in Ha. destruct (IH (off + blen b) j a Ha) as [E1 E2].
    cbn [alloc_offsets take concat lookup list_lookup]. rewrite blen_app, !Z.add_assoc. split; [exact E1|exact E2].
Qed.
Lemma sub_concat_lookup (ls : list bytes) : ∀ j a, ls !! j = Some a →
  sub (concat ls) (blen (concat (take j ls))) (blen a) = a.
Proof.
  intros j a Ha. rewrite <- (take_drop_middle _ _ _ Ha) at 1. rewrite concat_app. cbn [concat].
  pose proof (blen_nonneg (concat (take j ls))). pose proof (blen_nonneg a).
  rewrite sub_app_r by lia. rewrite Z.sub_diag. rewrite sub_app_l by lia. by apply sub_0_all.
Qed.
Lemma concat_take_le (ls : list bytes) j a : ls !! j = Some a →
  blen (concat (take j ls)) + blen a ≤ blen (concat ls).
Proof.
  intros Ha. assert (concat ls = concat (take j ls ++ a :: drop (S j) ls)) as -> by (by rewrite take_drop_middle).
  rewrite concat_app. cbn [concat]. rewrite !blen_app. pose proof (blen_nonneg (concat (drop (S j) ls))). lia.
Qed.
Lemma alloc_offsets_bound allocs : ∀ off, 0 ≤ off →
  Forall (λ v, off ≤ v ≤ off + blen (concat allocs)) (alloc_offsets off allocs).
Proof.
  induction allocs as [|a allocs IH]; intros off Hoff; cbn [alloc_offsets concat].
  - rewrite blen_nil. constructor; [lia|done].
  - pose proof (blen_nonneg a). rewrite blen_app. pose proof (blen_nonneg (concat allocs)).
    constructor; [lia|]. eapply Forall_impl; [apply IH; lia|]. cbn. intros. lia.
Qed.
(** Reading an array of 16-bit words. *)
Lemma parse_words data l off :
  0 ≤ off → off + 2 * blen l ≤ blen data → sub data off (2 * blen l) = concat (map (le_enc 2) l) →
  Forall (fits 16) l → parse_entries (λ o, rd 2 o data) (length l) off 2 = Ok l.
Proof. apply (parse_array 2). Qed.

Lemma parseBlock_page idx hdr allocs cFree :
  hn_header idx hdr → blen (hn_page hdr allocs cFree) ≤ 65536 → fits 16 cFree →
  parseBlock idx (hn_page hdr allocs cFree) = Ok (hn_block hdr allocs cFree).
Proof.
  intros Hh Hl Hc. pose proof (blen_hn_page hdr allocs cFree) as Hlen. unfold parseBlock. set (page := hn_page _ _ _) in *.
  pose proof (blen_nonneg hdr). pose proof (blen_nonneg (concat allocs)). pose proof (blen_nonneg allocs).
  set (ib := 2 + blen hdr + blen (concat allocs)) in *.
  assert (rd 2 0 page = Ok ib) as Hib.
  { rewrite rd_Ok by lia. subst page. unfold hn_page. rewrite sub_app_l by (rewrite ?blen_le_enc; lia).
    rewrite sub_0_all by (by rewrite blen_le_enc). by rewrite le_dec_enc_fits by (unfold fits; lia). }
  rewrite (proj2 (Z.ltb_ge _ _)) by lia.
  assert ((if idx =? 0 then
       if blen page <? 12 then Err (EFmt "first heap block too small: %d bytes" [blen page]) else
       header ← parseFirstHeader page;
       if negb (H_Signature header =? HeapSignature)
       then Err (EFmt "invalid heap signature: got 0x%02X, expected 0x%02X" [H_Signature header; HeapSignature])
       else mret (PageMapOffset header)
     else rd 2 0 page) = Ok ib) as ->.
  { destruct (Z.eqb_spec idx 0) as [Hi|]; [|done]. destruct (Hh Hi) as [Hh1 Hh2].
    rewrite (proj2 (Z.ltb_ge _ _)) by lia. unfold parseFirstHeader. rewrite Hib, bind_Ok. buf_parse.
    assert (sub page 2 1 = [HeapSignature]) as ->.
    { subst page. unfold hn_page. rewrite sub_app_r by (rewrite ?blen_le_enc; lia). rewrite blen_le_enc.
      by rewrite sub_app_l by lia. }
    done. }
  rewrite bind_Ok. rewrite (proj2 (Z.leb_gt _ _)) by lia.
  assert (slice page ib (blen page) = Ok (le_enc 2 (blen allocs) ++ le_enc 2 cFree ++ hn_map (2 + blen hdr) allocs)) as ->.
  { rewrite slice_Ok by lia. f_equal. replace (blen page - ib) with (6 + 2 * blen allocs) by lia. subst page. unfold hn_page.
    rewrite sub_app_r by (rewrite ?blen_le_enc; lia). rewrite blen_le_enc.
    rewrite sub_app_r by lia. rewrite sub_app_r by lia. apply sub_all; [lia|].
    rewrite !blen_app, blen_hn_map, !blen_le_enc. lia. }
  rewrite bind_Ok. set (pm := le_enc 2 (blen allocs) ++ _).
  assert (blen pm = 6 + 2 * blen allocs) as Hpm.
  { subst pm. rewrite !blen_app, blen_hn_map, !blen_le_enc. lia. }
  rewrite (proj2 (Z.ltb_ge _ _)) by lia.
  rewrite rd_Ok, bind_Ok by lia. change (Z.of_nat 2) with 2.
  assert (le_dec (sub pm 0 2) = blen allocs) as ->.
  { subst pm. rewrite sub_app_l by (rewrite ?blen_le_enc; lia).
    rewrite sub_0_all by (by rewrite blen_le_enc). apply le_dec_enc_fits. unfold fits. lia. }
  rewrite (proj2 (Z.ltb_ge _ _)) by lia.
  assert (parse_entries (λ off, rd 2 off pm) (Z.to_nat (blen allocs + 1)) 4 2 =
          Ok (alloc_offsets (2 + blen hdr) allocs)) as ->; [|done].
  pose proof (blen_alloc_offsets (2 + blen hdr) allocs) as Ha.
  replace (Z.to_nat (blen allocs + 1)) with (length (alloc_offsets (2 + blen hdr) allocs)) by (unfold blen in *; lia).
  apply parse_words; [lia|lia| |].
  - rewrite Ha. subst pm. rewrite app_assoc. rewrite sub_app_r by (rewrite ?blen_app, ?blen_le_enc; lia).
    apply sub_all; [by rewrite blen_app, !blen_le_enc|]. unfold hn_map. rewrite blen_words. lia.
  - eapply Forall_impl; [apply alloc_offsets_bound; lia|]. cbn. unfold fits. intros. lia.
Qed.

(** Block and allocation index of a heap ID. *)
Lemma MakeHeapID_split i j : 0 ≤ i < 65536 → 0 ≤ j < 2047 →
  PageIndex (MakeHeapID i j) = i ∧ AllocIndex (MakeHeapID i j) = j ∧ MakeHeapID i j ≠ 0.
Proof.
  intros Hi Hj. assert (MakeHeapID i j = (j + 1) * 32 + i * 65536) as E.
  { rewrite MakeHeapID_arith by (unfold fits; lia). rewrite Z.mod_small, Z.div_small, Z.lor_0_r by lia. done. }
  split; [|split].
  - unfold PageIndex. rewrite BlockIndex_arith by (rewrite E; unfold fits; lia). rewrite E.
    rewrite Z.div_add, Z.div_small by lia. lia.
  - rewrite AllocIndex_arith, E. replace (i * 65536) with (i * 2048 * 32) by lia.
    rewrite Z.div_add, Z.div_mul by lia. rewrite Z_mod_plus_full, Z.mod_small by lia.
    destruct (Z.eqb_spec (j + 1) 0); lia.
  - lia.
Qed.
Lemma HeapRead_page (h : HeapOnNode) i j hdr allocs cFree a :
  0 ≤ i < 65536 → 0 ≤ j < 2047 → blen (hn_page hdr allocs cFree) ≤ 65536 →
  h !! Z.to_nat i = Some (hn_block hdr allocs cFree) → allocs !! Z.to_nat j = Some a →
  HeapRead h (MakeHeapID i j) = Ok a.
Proof.
  intros Hi Hj Hl Hb Ha. destruct (MakeHeapID_split i j Hi Hj) as (E1 & E2 & E3). unfold HeapRead, alloc_bounds.
  rewrite (proj2 (Z.eqb_neq _ _)), E1, E2 by done.
  pose proof (lookup_lt_Some _ _ _ Hb). pose proof (lookup_lt_Some _ _ _ Ha).
  rewrite (proj2 (Z.leb_gt _ _)) by (unfold blen; lia). rewrite (index_Ok _ _ _ (proj1 Hi) Hb), bind_Ok.
  cbn [hn_block hb_numAllocs hb_allocations hb_data]. rewrite (proj2 (Z.leb_gt _ _)) by (unfold blen; lia).
  rewrite u16_small by lia.
  destruct (alloc_offsets_lookup allocs (2 + blen hdr) _ _ Ha) as [F1 F2].
  rewrite (index_Ok _ j _ ltac:(lia) F1), bind_Ok.
  replace (S (Z.to_nat j)) with (Z.to_nat (j + 1)) in F2 by lia.
  rewrite (index_Ok _ (j + 1) _ ltac:(lia) F2), !bind_Ok.
  pose proof (concat_take_le _ _ _ Ha). pose proof (blen_hn_page hdr allocs cFree). pose proof (blen_nonneg a).
  pose proof (blen_nonneg hdr). pose proof (blen_nonneg (concat (take (Z.to_nat j) allocs))).
  pose proof (blen_nonneg allocs). change (hb_data _) with (hn_page hdr allocs cFree).
  rewrite (proj2 (Z.ltb_ge _ _)) by lia. rewrite (proj2 (Z.ltb_ge _ _)) by lia. cbn [orb].
  rewrite slice_Ok by lia. f_equal. unfold hn_page.
  rewrite sub_app_r by (rewrite ?blen_le_enc; lia). rewrite blen_le_enc. rewrite sub_app_r by lia.
  rewrite sub_app_l by lia. etrans; [|by apply sub_concat_lookup]. f_equal; lia.
Qed.

(** ** Properties *)
Lemma write_allocs_app allocs : ∀ pre old post,
  blen old = blen (concat allocs) →
  write_allocs (blen pre) allocs (pre ++ old ++ post) =
    (pre ++ concat allocs ++ post, map u16 (alloc_offsets (blen pre) allocs)).
Proof.
  induction allocs as [|a allocs IH]; intros pre old post Hl.
  - destruct old; [done|]. cbn [concat] in Hl. autorewrite with blen in Hl. pose proof (blen_nonneg old). lia.
  - cbn [concat] in *. rewrite blen_app in Hl. cbn [write_allocs alloc_offsets map].
    pose proof (blen_nonneg a). pose proof (blen_nonneg (concat allocs)).
    rewrite <- (take_drop (length a) old). assert (length a ≤ length old)%nat by (unfold blen in *; lia).
    rewrite <- (app_assoc (take _ _)), (splice_app pre (take (length a) old) a) by (unfold blen; rewrite ?length_take; lia).
    rewrite (app_assoc pre a), <- blen_app.
    rewrite (IH (pre ++ a) (drop (length a) old) post) by (unfold blen in *; rewrite length_drop; lia).
    by rewrite <- !app_assoc.
Qed.
Lemma put_offsets_app offsets : ∀ pre old post,
  blen old = 2 * blen offsets →
  put_offsets (blen pre) offsets (pre ++ old ++ post) = Ok (pre ++ concat (map (le_enc 2) offsets) ++ post).
Proof.
  induction offsets as [|v offsets IH]; intros pre old post Hl.
  - destruct old; [done|]. autorewrite with blen in Hl. pose proof (blen_nonneg old). lia.
  - rewrite blen_cons in Hl. cbn [put_offsets map concat]. pose proof (blen_nonneg offsets). pose proof (blen_nonneg pre).
    assert (2 ≤ length old)%nat by (unfold blen in *; lia).
    rewrite <- (take_drop 2 old), <- (app_assoc (take _ _)).
    rewrite put_Ok by (rewrite ?blen_app; unfold blen; rewrite ?length_take; lia).
    rewrite bind_Ok, (splice_app pre (take 2 old) (le_enc 2 v)) by (unfold blen; rewrite ?length_le_enc, ?length_take; lia).
    replace (blen pre + 2) with (blen (pre ++ le_enc 2 v)) by (rewrite blen_app, blen_le_enc; lia).
    rewrite (app_assoc pre (le_enc 2 v)).
    rewrite (IH (pre ++ le_enc 2 v) (drop 2 old) post) by (unfold blen in *; rewrite length_drop; lia).
    by rewrite <- !app_assoc.
Qed.

Definition built_heap (w : HeapWriter) : bytes :=
  let allocs := map ha_data (hw_allocations w) in
  le_enc 2 (12 + blen (concat allocs)) ++ [HeapSignature; hw_clientSig w] ++ le_enc 4 (hw_rootHID w) ++ zeros 4
  ++ concat allocs ++ le_enc 2 (blen allocs) ++ hn_map 12 allocs.
Lemma HeapBuild_layout w data :
  HeapBuild w = Ok data → data = built_heap w ∧ blen data ≤ MaxDataBlockSizeANSI.
Proof.
  unfold HeapBuild, built_heap. set (allocs := map ha_data (hw_allocations w)).
  pose proof (blen_nonneg (concat allocs)). pose proof (blen_nonneg allocs). cbv zeta.
  set (total := 12 + blen (concat allocs) + (2 + blen allocs * 2 + 2)).
  assert ((if is_ANSI (hw_format w) then MaxDataBlockSizeANSI else MaxDataBlockSizeUnicode) ≤ MaxDataBlockSizeANSI)
    by (destruct (is_ANSI _); vm_compute; done).
  destruct (Z.ltb_spec (if is_ANSI (hw_format w) then MaxDataBlockSizeANSI else MaxDataBlockSizeUnicode) total); [done|].
  assert (MaxDataBlockSizeANSI = 8180) by done. intros HB.
  assert (zeros total = zeros 2 ++ zeros 1 ++ zeros 1 ++ zeros 4 ++ zeros 4 ++ zeros (blen (concat allocs))
            ++ zeros 2 ++ zeros (2 * (blen allocs + 1)) ++ []) as Hz.
  { unfold zeros. rewrite app_nil_r, <- !replicate_add. f_equal. lia. }
  rewrite Hz in HB. repeat rewrite put_Ok, bind_Ok in HB by blia.
  rewrite splice_head in HB by blia.
  rewrite put8_Ok, bind_Ok in HB by blia. rewrite splice_skip, splice_head in HB by blia.
  rewrite put8_Ok, bind_Ok in HB by blia. do 2 rewrite splice_skip in HB by blia. rewrite splice_head in HB by blia.
  rewrite put_Ok, bind_Ok in HB by blia. do 3 rewrite splice_skip in HB by blia. rewrite splice_head in HB by blia.
  pose (pre := le_enc 2 (u16 (12 + blen (concat allocs))) ++ [HeapSignature] ++ [hw_clientSig w] ++ le_enc 4 (hw_rootHID w) ++ zeros 4).
  assert (blen pre = 12) as Hpre by (subst pre; blia).
  match type of HB with context [write_allocs 12 allocs ?b] =>
    replace b with (pre ++ zeros (blen (concat allocs)) ++ zeros 2 ++ zeros (2 * (blen allocs + 1)) ++ []) in HB
      by (subst pre; by rewrite <- !app_assoc) end.
  rewrite <- Hpre in HB at 1.
  rewrite (write_allocs_app allocs pre (zeros (blen (concat allocs)))) in HB by (rewrite blen_zeros; lia).
  rewrite put_Ok, bind_Ok in HB by (subst pre; blia).
  rewrite (app_assoc pre (concat allocs)) in HB.
  rewrite (splice_app (pre ++ concat allocs) (zeros 2)) in HB by (subst pre; blia).
  rewrite (app_assoc _ (le_enc 2 _)) in HB.
  replace (12 + blen (concat allocs) + 2) with (blen ((pre ++ concat allocs) ++ le_enc 2 (u16 (blen allocs)))) in HB by (subst pre; blia).
  assert (map u16 (alloc_offsets 12 allocs) = alloc_offsets 12 allocs) as Hoff.
  { rewrite <- (map_id (alloc_offsets 12 allocs)) at 2. apply map_ext_Forall. eapply Forall_impl; [apply alloc_offsets_bound; lia|]. cbn. intros v Hv. apply u16_small. lia. }
  rewrite Hpre, Hoff in HB. rewrite put_offsets_app in HB by (rewrite blen_alloc_offsets, blen_zeros; lia).
  apply (f_equal (λ r, match r with Ok d => d | _ => [] end)) in HB. cbv beta iota in HB.
  rewrite app_nil_r in HB. fold (hn_map 12 allocs) in HB. rewrite (u16_small (blen allocs)) in HB by lia. subst pre data.
  rewrite u16_small by lia. split; [by rewrite <- !app_assoc|].
  rewrite !blen_app, blen_hn_map, !blen_le_enc, blen_zeros. autorewrite with blen. lia.
Qed.

(** C30: No heap that [HeapWriter] builds can be read back.  Its page map leaves
    out the count of freed allocations, so it is two bytes shorter than the
    reader requires: whatever was allocated, parsing the built page fails with
    "page map truncated". *)
Theorem heap_never_reads_back w data :
  HeapBuild w = Ok data →
  parseBlock 0 data =
    Err (EFmt "page map truncated: need %d bytes, have %d"
          [4 + (blen (hw_allocations w) + 1) * 2; 2 + (blen (hw_allocations w) + 1) * 2]).
Proof.
  intros [-> Hmax]%HeapBuild_layout. revert Hmax. unfold built_heap. rewrite <- (blen_map ha_data).
  set (allocs := map ha_data _). change MaxDataBlockSizeANSI with 8180.
  set (page := le_enc 2 _ ++ _). intros Hmax.
  pose proof (blen_nonneg (concat allocs)). pose proof (blen_nonneg allocs).
  assert (blen page = 12 + blen (concat allocs) + (2 + (blen allocs + 1) * 2)) as Hl.
  { subst page. rewrite !blen_app, blen_hn_map, !blen_le_enc, blen_zeros. autorewrite with blen. lia. }
  unfold parseBlock. rewrite (proj2 (Z.ltb_ge _ _)) by lia. cbn [Z.eqb]. rewrite (proj2 (Z.ltb_ge _ _)) by lia.
  unfold parseFirstHeader. buf_parse.
  assert (sub page 2 1 = [HeapSignature]) as -> by (subst page; rewrite sub_app_r by blia; by rewrite sub_app_l by blia).
  assert (le_dec (sub page 0 2) = 12 + blen (concat allocs)) as E.
  { subst page. rewrite sub_app_l, sub_0_all by blia. apply le_dec_enc_fits. unfold fits. lia. }
  cbn [H_Signature PageMapOffset]. change (le_dec [HeapSignature]) with HeapSignature. rewrite Z.eqb_refl. cbn [negb].
  change (Z.of_nat 2) with 2. rewrite bind_Ok, E. rewrite (proj2 (Z.leb_gt _ _)) by lia.
  assert (slice page (12 + blen (concat allocs)) (blen page) = Ok (le_enc 2 (blen allocs) ++ hn_map 12 allocs)) as ->.
  { rewrite slice_Ok by lia. f_equal.
    replace (blen page - (12 + blen (concat allocs))) with (2 + (blen allocs + 1) * 2) by lia. subst page.
    rewrite !app_assoc. rewrite <- (app_assoc _ (le_enc 2 (blen allocs))). rewrite sub_app_r by blia.
    apply sub_all; [blia|]. rewrite blen_app, blen_le_enc, blen_hn_map. lia. }
  rewrite bind_Ok. set (pm := le_enc 2 (blen allocs) ++ _).
  assert (blen pm = 2 + (blen allocs + 1) * 2) as Hpm by (subst pm; rewrite blen_app, blen_le_enc, blen_hn_map; lia).
  rewrite (proj2 (Z.ltb_ge _ _)) by lia. buf_parse.
  assert (le_dec (sub pm 0 (Z.of_nat 2)) = blen allocs) as ->.
  { subst pm. rewrite sub_app_l, sub_0_all by blia. apply le_dec_enc_fits. unfold fits. lia. }
  rewrite (proj2 (Z.ltb_lt _ _)) by lia. by rewrite Hpm.
Qed.
Lemma heap_never_reads_back_witness :
  ∃ data, HeapBuild (HeapAllocate [1; 2; 3] (NewHeapWriter HeapSigPC FormatUnicode)).1 = Ok data ∧
    parseBlock 0 data = Err (EFmt "page map truncated: need %d bytes, have %d" [8; 6]).
Proof.
  eexists. split; [reflexivity|].
  apply (heap_never_reads_back (HeapAllocate [1; 2; 3] (NewHeapWriter HeapSigPC FormatUnicode)).1). reflexivity.
Defined.

(** A call on a heap writer. *)
Inductive heap_step : HeapWriter → HeapWriter → Prop :=
  | heap_allocate w data : heap_step w (HeapAllocate data w).1
  | heap_set_root w hid : heap_step w (SetRoot hid w).1.
(** The IDs handed out so far and the next one. *)
Definition heap_next (w : HeapWriter) : Prop :=
  hw_nextAllocID w = u16 (1 + blen (hw_allocations w)) ∧
  ∀ i a, hw_allocations w !! i = Some a → ha_hid a = MakeHeapID 0 (u16 (1 + Z.of_nat i)).
Lemma heap_next_new sig format : heap_next (NewHeapWriter sig format).
Proof. by split. Qed.
Lemma heap_step_next w w' : heap_step w w' → heap_next w → heap_next w' ∧ hw_allocations w `prefix_of` hw_allocations w'.
Proof.
  unfold heap_next. intros [? data|] H; [|done]. unfold HeapAllocate. destruct (_ <? _); [done|]. cbn. destruct H as [H Hids]. repeat split.
  - rewrite H, blen_app. unfold u16. rewrite Zplus_mod_idemp_l. f_equal. autorewrite with blen. lia.
  - intros i a [Ha|[Hi Ha]]%lookup_app_Some; [by apply Hids|].
    apply list_lookup_singleton_Some in Ha as [Hi0 <-]. cbn. rewrite H. do 2 f_equal. unfold blen. lia.
  - by eexists.
Qed.
Lemma heap_steps_next w w' : rtc heap_step w w' → heap_next w → heap_next w' ∧ hw_allocations w `prefix_of` hw_allocations w'.
Proof.
  induction 1 as [|w w1 w2 H1 _ IH]; [done|]. intros Hw. destruct (heap_step_next _ _ H1 Hw) as [Hn Hp].
  destruct (IH Hn) as [Hn2 Hp2]. split; [done|]. by etrans.
Qed.

(** The IDs that [HeapWriter] hands out are one too far: the writer counts
    allocations from 1 and [MakeHeapID] adds 1 again.  In a page laid out the
    way the reader expects, the ID returned for an allocation reads the next
    allocation, and the last one's ID is out of bounds. *)
Theorem writer_ids_one_too_far sig format w data w1 hid w2 hdr cFree :
  rtc heap_step (NewHeapWriter sig format) w → HeapAllocate data w = (w1, Ok hid) → rtc heap_step w1 w2 →
  let allocs := map ha_data (hw_allocations w2) in
  blen allocs < 2047 → blen (hn_page hdr allocs cFree) ≤ 65536 →
  allocs !! length (hw_allocations w) = Some data ∧
  match allocs !! S (length (hw_allocations w)) with
  | Some a => HeapRead [hn_block hdr allocs cFree] hid = Ok a
  | None => ∃ e, HeapRead [hn_block hdr allocs cFree] hid = Err e
  end.
Proof.
  intros Hw Ha Hw2 allocs Hn Hl. destruct (heap_steps_next _ _ Hw) as [Hnext _]; [apply heap_next_new|].
  assert (heap_step w w1) as Hs by (pose proof (heap_allocate w data) as Hs; by rewrite Ha in Hs).
  destruct (heap_step_next _ _ Hs Hnext) as [Hnext1 _]. destruct (heap_steps_next _ _ Hw2 Hnext1) as [_ [rest Hrest]].
  unfold HeapAllocate in Ha. destruct (_ <? _); [done|]. injection Ha as <- <-. cbn [hw_allocations] in Hrest.
  assert (allocs = map ha_data (hw_allocations w) ++ data :: map ha_data rest) as E.
  { subst allocs. by rewrite Hrest, <- app_assoc, map_app. }
  assert (length (hw_allocations w) = length (map ha_data (hw_allocations w))) as El by (by rewrite length_map).
  split; [by rewrite E, El, list_lookup_middle|]. pose proof (blen_nonneg (hw_allocations w)).
  assert (blen (hw_allocations w) + 1 ≤ blen allocs) as Hk.
  { rewrite E. autorewrite with blen. pose proof (blen_nonneg rest). lia. }
  destruct Hnext as [Hnext _]. rewrite Hnext, u16_small by (unfold blen in *; lia).
  destruct (allocs !! S (length (hw_allocations w))) as [a|] eqn:Hnxt.
  - apply (HeapRead_page _ 0 _ hdr allocs cFree); [lia|lia|done|done|]. rewrite <- Hnxt. f_equal. unfold blen. lia.
  - apply lookup_ge_None in Hnxt. destruct (MakeHeapID_split 0 (1 + blen (hw_allocations w))) as (E1 & E2 & E3); [lia|lia|].
    unfold HeapRead, alloc_bounds. rewrite (proj2 (Z.eqb_neq _ _)), E1, E2 by done.
    change (blen [_] <=? 0) with false. rewrite (index_Ok _ 0 (hn_block hdr allocs cFree)), bind_Ok by done.
    change (hb_numAllocs _) with (blen allocs). rewrite (proj2 (Z.leb_le _ _)) by (unfold blen in *; lia). by eexists.
Qed.
Lemma writer_ids_one_too_far_witness :
  let w1 := (HeapAllocate [7] (NewHeapWriter HeapSigPC FormatUnicode)).1 in
  let w2 := (HeapAllocate [8; 9] w1).1 in
  HeapRead [hn_block [HeapSignature; 0xBC; 0; 0; 0; 0; 0; 0; 0; 0] (map ha_data (hw_allocations w2)) 0] (MakeHeapID 0 1) = Ok [8; 9].
Proof.
  intros w1 w2.
  refine (proj2 (writer_ids_one_too_far HeapSigPC FormatUnicode (NewHeapWriter HeapSigPC FormatUnicode) [7] w1 _ w2
    [HeapSignature; 0xBC; 0; 0; 0; 0; 0; 0; 0; 0] 0 _ _ _ _ _)).
  - apply rtc_refl.
  - reflexivity.
  - apply rtc_once, heap_allocate.
  - by vm_compute.
  - by vm_compute.
Defined.
