(* ===== verification/BTH.v ===== *)
(** * BTree-on-heap

    Models [pkg/ltp/bth.go] and [pkg/ltp/bth_write.go]: search and iteration in
    a tree stored in heap allocations, and the writer that builds one.  The
    reader uses its heap only through [Read], the class [HeapReader]. *)
From S2P Require Import Prelude Format Codec Ids State BTree Heap.

(** [heap.Read(hid)] *)
Class HeapReader (H : Type) := hread : H → Z → result bytes.
#[export] Instance HeapOnNode_reader : HeapReader HeapOnNode := HeapRead.

Record BTHHeader := mkBTHHeader { BTH_Signature : Z; KeySize : Z; EntrySize : Z; NumLevels : Z; BTH_RootID : Z }.
Record BTHEntry := mkBTHEntry { BE_Key : bytes; BE_Value : bytes }.

(** [compareKeys] and [compareBytes]: byte-wise, a proper prefix is smaller. *)
Fixpoint compareKeys (a b : bytes) : Z :=
  match a, b with
  | x :: a, y :: b => if x <? y then -1 else if y <? x then 1 else compareKeys a b
  | [], [] => 0
  | [], _ => -1
  | _, [] => 1
  end.
Definition compareBytes := compareKeys.

(** ** Reading *)
Section reader.
Context {H : Type} `{HeapReader H}.

Record BTH := mkBTH { bth_heap : H; bth_header : BTHHeader }.

Definition NewBTH (heap : H) (rootHID : Z) : result BTH :=
  data ← wrap_err "failed to read BTH header" (hread heap rootHID);
  if blen data <? 8 then Err (EFmt "BTH header too small: %d bytes" [blen data]) else
  sig ← index data 0; keySize ← index data 1; entrySize ← index data 2; levels ← index data 3; root ← rd 4 4 data;
  if negb (sig =? HeapSigBTH)
  then Err (EFmt "invalid BTH signature: got 0x%02X, expected 0x%02X" [sig; HeapSigBTH])
  else mret (mkBTH heap (mkBTHHeader sig keySize entrySize levels root)).
Definition BTH_IsEmpty (b : BTH) : bool := BTH_RootID (bth_header b) =? 0.
Definition BTH_KeySize (b : BTH) : Z := KeySize (bth_header b).
Definition BTH_ValueSize (b : BTH) : Z := EntrySize (bth_header b).

(** The leaf scan over the entries from offset [offset] on, [n] to go. *)
Fixpoint scan_leaf (keySize valueSize : Z) (data key : bytes) (n : nat) (offset : Z) : result bytes :=
  match n with
  | O => Err (EFmt "key not found in BTH" [])
  | S n =>
    entryKey ← slice data offset (offset + keySize);
    if compareKeys key entryKey =? 0
    then slice data (offset + keySize) (offset + keySize + valueSize)
    else scan_leaf keySize valueSize data key n (offset + (keySize + valueSize))
  end.
(** [len(data) / entrySize] *)
Definition numEntries (data : bytes) (entrySize : Z) : result Z :=
  if entrySize =? 0 then Panic else Ok (blen data / entrySize).
Definition searchLeaf (b : BTH) (data key : bytes) : result bytes :=
  let keySize := BTH_KeySize b in
  let valueSize := BTH_ValueSize b in
  n ← numEntries data (keySize + valueSize);
  scan_leaf keySize valueSize data key (Z.to_nat n) 0.

Fixpoint scan_index (keySize : Z) (data key : bytes) (n : nat) (offset : Z) : result (option Z) :=
  match n with
  | O => Ok None
  | S n =>
    entryKey ← slice data offset (offset + keySize);
    if compareKeys key entryKey <=? 0
    then hid ← rd 4 (offset + keySize) data; mret (Some hid)
    else scan_index keySize data key n (offset + (keySize + 4))
  end.
Definition findChild (b : BTH) (data key : bytes) : result Z :=
  let keySize := BTH_KeySize b in
  let entrySize := keySize + 4 in
  n ← numEntries data entrySize;
  found ← scan_index keySize data key (Z.to_nat n) 0;
  match found with
  | Some hid => mret hid
  | None => if 0 <? n then rd 4 ((n - 1) * entrySize + keySize) data else Err (EFmt "BTH node has no entries" [])
  end.

Fixpoint search (b : BTH) (hid : Z) (level : nat) (key : bytes) : result bytes :=
  data ← wrap_err "failed to read BTH node" (hread (bth_heap b) hid);
  match level with
  | O => searchLeaf b data key
  | S level => childHID ← findChild b data key; search b childHID level key
  end.
Definition BTH_Lookup (b : BTH) (key : bytes) : result bytes :=
  if BTH_IsEmpty b then Err (EFmt "key not found: BTH is empty" []) else
  if negb (blen key =? KeySize (bth_header b))
  then Err (EFmt "invalid key size: got %d, expected %d" [blen key; KeySize (bth_header b)])
  else search b (BTH_RootID (bth_header b)) (Z.to_nat (NumLevels (bth_header b))) key.
Definition LookupUint16 (b : BTH) (key : Z) : result bytes := BTH_Lookup b (le_enc 2 key).
Definition LookupUint32 (b : BTH) (key : Z) : result bytes := BTH_Lookup b (le_enc 4 key).

(** ** Iterating

    The iterator changes nothing, so what its consumer sees is a prefix of a
    list: entries, and a last item that is the error, if a node cannot be read. *)
Fixpoint leaf_items (keySize valueSize : Z) (data : bytes) (n : nat) (offset : Z) : list (result BTHEntry) :=
  match n with
  | O => []
  | S n =>
    (k ← slice data offset (offset + keySize);
     v ← slice data (offset + keySize) (offset + keySize + valueSize);
     mret (mkBTHEntry k v)) :: leaf_items keySize valueSize data n (offset + (keySize + valueSize))
  end.
(** The loop over the children, [visit] being the recursive call. *)
Fixpoint iterate_children (visit : Z → list (result BTHEntry) * bool) (keySize : Z) (data : bytes) (n : nat) (offset : Z)
    : list (result BTHEntry) * bool :=
  match n with
  | O => ([], true)
  | S n =>
    match rd 4 (offset + keySize) data with
    | Ok childHID =>
      let '(items, more) := visit childHID in
      if (more : bool)
      then let '(items', more) := iterate_children visit keySize data n (offset + (keySize + 4)) in (items ++ items', more)
      else (items, false)
    | _ => ([Panic], false)
    end
  end.
Fixpoint iterateNode (b : BTH) (hid : Z) (level : nat) : list (result BTHEntry) * bool :=
  let keySize := BTH_KeySize b in
  let valueSize := BTH_ValueSize b in
  match hread (bth_heap b) hid with
  | Err e => ([Err e], false)
  | Panic => ([Panic], false)
  | Ok data =>
    match level with
    | O =>
      match numEntries data (keySize + valueSize) with
      | Ok n => (leaf_items keySize valueSize data (Z.to_nat n) 0, true)
      | _ => ([Panic], false)
      end
    | S level =>
      match numEntries data (keySize + 4) with
      | Ok n => iterate_children (λ childHID, iterateNode b childHID level) keySize data (Z.to_nat n) 0
      | _ => ([Panic], false)
      end
    end
  end.
Definition Entries (b : BTH) : list (result BTHEntry) :=
  if BTH_IsEmpty b then []
  else (iterateNode b (BTH_RootID (bth_header b)) (Z.to_nat (NumLevels (bth_header b)))).1.
End reader.
Arguments BTH H : clear implicits.

(** ** Writing *)
Record BTHWriter := mkBTHWriter { bw_keySize : Z; bw_dataSize : Z; bw_entries : list (bytes * bytes); bw_format : PSTFormat }.
Definition NewBTHWriter (keySize dataSize : Z) (format : PSTFormat) : BTHWriter := mkBTHWriter keySize dataSize [] format.
Definition CreatePropertyContextBTH := NewBTHWriter 2 6.
Definition CreateRowIndexBTH := NewBTHWriter 4 4.
Definition set_entries (w : BTHWriter) (es : list (bytes * bytes)) : BTHWriter :=
  mkBTHWriter (bw_keySize w) (bw_dataSize w) es (bw_format w).
Definition BTH_Count (w : BTHWriter) : Z := blen (bw_entries w).

(** The scan for an entry with the key: the list with its data replaced. *)
Fixpoint update_entry (key data : bytes) (es : list (bytes * bytes)) : option (list (bytes * bytes)) :=
  match es with
  | [] => None
  | (k, d) :: es =>
    if compareBytes k key =? 0 then Some ((k, data) :: es)
    else match update_entry key data es with Some es => Some ((k, d) :: es) | None => None end
  end.
Fixpoint delete_entry (key : bytes) (es : list (bytes * bytes)) : option (list (bytes * bytes)) :=
  match es with
  | [] => None
  | (k, d) :: es =>
    if compareBytes k key =? 0 then Some es
    else match delete_entry key es with Some es => Some ((k, d) :: es) | None => None end
  end.
Definition BTHInsert (key data : bytes) : ST BTHWriter unit := λ w,
  if negb (blen key =? bw_keySize w)
  then (w, Err (EFmt "key size mismatch: got %d, expected %d" [blen key; bw_keySize w])) else
  if negb (blen data =? bw_dataSize w)
  then (w, Err (EFmt "data size mismatch: got %d, expected %d" [blen data; bw_dataSize w])) else
  match update_entry key data (bw_entries w) with
  | Some es => (set_entries w es, Ok tt)
  | None => (set_entries w (bw_entries w ++ [(key, data)]), Ok tt)
  end.
Definition InsertUint16Key (key : Z) (data : bytes) : ST BTHWriter unit := BTHInsert (le_enc 2 key) data.
Definition InsertUint32Key (key : Z) (data : bytes) : ST BTHWriter unit := BTHInsert (le_enc 4 key) data.
Definition BTHDelete (key : bytes) : ST BTHWriter unit := λ w,
  match delete_entry key (bw_entries w) with
  | Some es => (set_entries w es, Ok tt)
  | None => (w, Err (EFmt "key not found" []))
  end.
Definition DeleteUint16Key (key : Z) : ST BTHWriter unit := BTHDelete (le_enc 2 key).

Definition entry_le (a b : bytes * bytes) : Prop := compareBytes a.1 b.1 ≤ 0.
#[export] Instance entry_le_dec : RelDecision entry_le.
Proof. intros a b. unfold entry_le. apply _. Defined.

(** [copy(buf[off:], bs)] *)
Definition copy_at (off : Z) (bs buf : bytes) : result bytes :=
  if blen buf <? off then Panic else Ok (splice off bs buf).
(** The entries packed every [entrySize] bytes, the data [keySize] after the key. *)
Fixpoint pack_entries (keySize entrySize : Z) (es : list (bytes * bytes)) (offset : Z) (buf : bytes) : result bytes :=
  match es with
  | [] => Ok buf
  | (k, d) :: es =>
    buf ← copy_at offset k buf; buf ← copy_at (offset + keySize) d buf;
    pack_entries keySize entrySize es (offset + entrySize) buf
  end.
Definition bth_header_bytes (keySize dataSize levels root : Z) : bytes :=
  [0xB5; keySize; dataSize; levels] ++ le_enc 4 root.

(** The writer with the heap it allocates in. *)
Definition BuildState : Type := BTHWriter * HeapWriter.
Definition on_heap {A} (m : ST HeapWriter A) : ST BuildState A := zoom snd (λ s h, (s.1, h)) m.
Definition place_header (levels root : Z) : ST BuildState Z :=
  do s <- get;
  do hid <- on_heap (HeapAllocate (bth_header_bytes (bw_keySize s.1) (bw_dataSize s.1) levels root));
  on_heap (SetRoot hid) ;; mret hid.
Definition createEmptyBTH : ST BuildState Z := place_header 0 0.
Definition place_leaf (es : list (bytes * bytes)) : ST BuildState Z :=
  do s <- get;
  let entrySize := u8 (bw_keySize s.1 + bw_dataSize s.1) in
  do leafData <- lift (pack_entries (bw_keySize s.1) entrySize es 0 (zeros (blen es * entrySize)));
  on_heap (HeapAllocate leafData).
Definition buildSingleLevel : ST BuildState Z :=
  do s <- get; do leafHID <- place_leaf (bw_entries s.1); place_header 0 leafHID.

(** The child's ID with its maximum key. *)
Abbreviation bth_child := (Z * bytes)%type (only parsing).
Definition last_entry_key (es : list (bytes * bytes)) : bytes := match last es with Some e => e.1 | None => [] end.
Definition last_child_key (cs : list bth_child) : bytes := match last cs with Some c => c.2 | None => [] end.
Definition place_index (cs : list bth_child) : ST BuildState Z :=
  do s <- get;
  let intEntrySize := bw_keySize s.1 + 4 in
  do blockData <- lift (pack_entries (bw_keySize s.1) intEntrySize (map (λ c, (c.2, le_enc 4 c.1)) cs) 0
                          (zeros (blen cs * intEntrySize)));
  on_heap (HeapAllocate blockData).
(** [depth] bounds the recursion. *)
Fixpoint buildIntermediateLevel (depth : nat) (children : list bth_child) (level : Z) : ST BuildState Z :=
  match depth with
  | O => lift Panic
  | S depth =>
    match children with
    | [c] => place_header (u8 level) c.1
    | _ =>
      do s <- get;
      do parents <- mapM_st (λ cs, do hid <- place_index cs; mret (hid, last_child_key cs))
        (chunks (HeapMaxAllocSize / (bw_keySize s.1 + 4)) children);
      buildIntermediateLevel depth parents (level + 1)
    end
  end.
Definition buildMultiLevel (depth : nat) (maxPerBlock : Z) : ST BuildState Z :=
  do s <- get;
  do leaves <- mapM_st (λ es, do hid <- place_leaf es; mret (hid, last_entry_key es)) (chunks maxPerBlock (bw_entries s.1));
  buildIntermediateLevel depth leaves 1.
Definition BTHBuild (depth : nat) : ST BuildState Z :=
  do s <- get;
  match bw_entries s.1 with
  | [] => createEmptyBTH
  | _ =>
    modify (λ s, (set_entries s.1 (merge_sort entry_le (bw_entries s.1)), s.2)) ;;
    let entrySize := u8 (bw_keySize s.1 + bw_dataSize s.1) in
    if entrySize =? 0 then lift Panic else
    let maxEntriesPerBlock := HeapMaxAllocSize / entrySize in
    if blen (bw_entries s.1) <=? maxEntriesPerBlock then buildSingleLevel
    else buildMultiLevel depth maxEntriesPerBlock
  end.

(** ** Key orders

    What a comparison of keys must promise to a tree: it is a total order on the
    keys that occur. *)
Class KeyOrder (cmp : bytes → bytes → Z) (dom : bytes → Prop) := {
  ko_eq a b : dom a → dom b → cmp a b = 0 ↔ a = b;
  ko_antisym a b : dom a → dom b → cmp b a = - cmp a b;
  ko_trans a b c : dom a → dom b → dom c → cmp a b ≤ 0 → cmp b c < 0 → cmp a c < 0;
}.
Lemma compareKeys_eq a : ∀ b, compareKeys a b = 0 ↔ a = b.
Proof.
  induction a as [|x a IH]; intros [|y b]; cbn; try (split; intros; done).
  destruct (Z.ltb_spec x y); [split; intros; simplify_eq; lia|].
  destruct (Z.ltb_spec y x); [split; intros; simplify_eq; lia|].
  assert (x = y) as -> by lia. rewrite IH. split; intros; simplify_eq; done.
Qed.
Lemma compareKeys_antisym a : ∀ b, compareKeys b a = - compareKeys a b.
Proof.
  induction a as [|x a IH]; intros [|y b]; cbn; try done.
  destruct (Z.ltb_spec x y), (Z.ltb_spec y x); try lia. apply IH.
Qed.
Lemma compareKeys_trans a : ∀ b c, compareKeys a b ≤ 0 → compareKeys b c < 0 → compareKeys a c < 0.
Proof.
  induction a as [|x a IH]; intros [|y b] [|z c]; cbn; try lia.
  destruct (Z.ltb_spec x y), (Z.ltb_spec y x), (Z.ltb_spec y z), (Z.ltb_spec z y), (Z.ltb_spec x z), (Z.ltb_spec z x);
    try lia. apply IH.
Qed.
#[export] Instance compareKeys_order : KeyOrder compareKeys (λ _, True).
Proof.
  split; intros.
  - apply compareKeys_eq.
  - apply compareKeys_antisym.
  - by eapply compareKeys_trans.
Qed.

Definition lookup_key (key : bytes) (es : list (bytes * bytes)) : option bytes :=
  snd <$> List.find (λ e, bool_decide (e.1 = key)) es.
Lemma lookup_key_app key l k : lookup_key key (l ++ k) = match lookup_key key l with Some v => Some v | None => lookup_key key k end.
Proof.
  unfold lookup_key. induction l as [|e l IH]; [done|]. cbn [app List.find]. case_bool_decide; [done|exact IH].
Qed.
Lemma lookup_key_None key l : Forall (λ e, e.1 ≠ key) l → lookup_key key l = None.
Proof.
  unfold lookup_key. induction 1 as [|e l He _ IH]; [done|]. cbn [List.find]. by rewrite bool_decide_false.
Qed.
Lemma lookup_key_Some key v l : NoDup l.*1 → lookup_key key l = Some v ↔ (key, v) ∈ l.
Proof.
  unfold lookup_key. induction l as [|[k d] l IH]; cbn [fmap list_fmap List.find].
  - split; [done|]. intros Hin. by apply elem_of_nil in Hin.
  - intros [Hk Hn]%NoDup_cons. rewrite elem_of_cons. case_bool_decide as Hd; cbn in Hd; [subst k|].
    + cbn. split; [intros [= ->]; by left|]. intros [[= ->]|Hin]; [done|]. exfalso. apply Hk. apply list_elem_of_fmap. by exists (key, v).
    + rewrite (IH Hn). split; [by right|]. intros [[= -> ->]|?]; done.
Qed.

Section choice.
Context (cmp : bytes → bytes → Z) (dom : bytes → Prop) `{!KeyOrder cmp dom}.
Definition key_lt (a b : bytes * bytes) : Prop := cmp a.1 b.1 < 0.
(** The child a search descends to: the first whose key is not below, else the last. *)
Definition chosen (key : bytes) (cs : list bth_child) : option bth_child :=
  match List.find (λ c, cmp key c.2 <=? 0) cs with Some c => Some c | None => last cs end.

Lemma last_key_ge l : StronglySorted key_lt l → l ≠ [] → Forall (λ e, dom e.1) l →
  Forall (λ e, cmp e.1 (last_entry_key l) ≤ 0) l ∧ dom (last_entry_key l).
Proof.
  intros Hs Hne Hd. destruct l as [|x l _] using rev_ind; [done|]. unfold last_entry_key. rewrite last_snoc.
  apply Forall_app in Hd as [Hd Hx]. apply Forall_cons in Hx as [Hx _]. split; [|done].
  apply Forall_app. split.
  - apply Forall_forall. intros e He. apply Z.lt_le_incl.
    by eapply (StronglySorted_app_1_elem_of key_lt l [x]), list_elem_of_singleton.
  - constructor; [|done]. apply Z.eq_le_incl. by apply (proj2 (ko_eq _ _ Hx Hx)).
Qed.

(** A search need only look at the chosen child. *)
Lemma lookup_chosen key cs ls :
  cs ≠ [] → Forall2 (λ c l, last_entry_key l = c.2 ∧ l ≠ []) cs ls →
  StronglySorted key_lt (concat ls) → dom key → Forall (λ e, dom e.1) (concat ls) →
  ∃ c l i, cs !! i = Some c ∧ ls !! i = Some l ∧ chosen key cs = Some c ∧ lookup_key key (concat ls) = lookup_key key l.
Proof.
  intros Hne H2. revert Hne. induction H2 as [|c l cs ls [Hc Hl] H2 IH]; [done|]. intros _ Hs Hk Hd. cbn [concat] in *.
  apply Forall_app in Hd as [Hd1 Hd2].
  pose proof (StronglySorted_app_1_l _ _ _ Hs) as Hs1. pose proof (StronglySorted_app_1_r _ _ _ Hs) as Hs2.
  destruct (last_key_ge l Hs1 Hl Hd1) as [Hge Hdl]. rewrite Hc in *. unfold chosen. cbn [List.find].
  rewrite lookup_key_app. destruct (Z.leb_spec (cmp key c.2) 0) as [Hle|Hgt].
  - exists c, l, O. do 3 (split; [done|]). destruct (lookup_key key l); [done|]. apply lookup_key_None, Forall_forall.
    intros e He <-. destruct l as [|x l _] using rev_ind; [done|]. unfold last_entry_key in Hc. rewrite last_snoc in Hc.
    assert (cmp x.1 e.1 < 0) as Hlt.
    { apply (StronglySorted_app_1_elem_of key_lt _ _ _ _ Hs); [apply elem_of_app; right; by apply list_elem_of_singleton|done]. }
    rewrite Hc in Hlt. rewrite (ko_antisym _ _ Hdl Hk) in Hle. lia.
  - assert (lookup_key key l = None) as Hn.
    { apply lookup_key_None. eapply Forall_impl; [exact Hge|]. cbn. intros e He <-. lia. }
    rewrite Hn. destruct cs as [|c' cs].
    + apply Forall2_nil_inv_l in H2 as ->. exists c, l, O. do 3 (split; [done|]). by rewrite Hn.
    + destruct IH as (c1 & l1 & i & E1 & E2 & E3 & E4); [done|done|done|done|]. exists c1, l1, (S i). do 2 (split; [done|]).
      split; [|done]. rewrite <- E3. unfold chosen. done.
Qed.
End choice.

(** ** Trees in a heap *)
Definition leaf_data (es : list (bytes * bytes)) : bytes := concat (map (λ e, e.1 ++ e.2) es).
Definition index_data (cs : list bth_child) : bytes := leaf_data (map (λ c, (c.2, le_enc 4 c.1)) cs).
Definition entry_wf (ks vs : Z) (e : bytes * bytes) : Prop := blen e.1 = ks ∧ blen e.2 = vs.

Section trees.
(** [stores hid data]: the allocation [hid] holds [data]. *)
Context (stores : Z → bytes → Prop) (ks vs : Z).
(** The tree of height [n] under [hid], with its entries in order; a child is
    filed under the last key below it. *)
Fixpoint bth_tree (n : nat) (hid : Z) (es : list (bytes * bytes)) : Prop :=
  match n with
  | O => stores hid (leaf_data es) ∧ Forall (entry_wf ks vs) es
  | S n => ∃ cs ls, stores hid (index_data cs) ∧ cs ≠ [] ∧ es = concat ls ∧
      Forall2 (λ c l, bth_tree n c.1 l ∧ fits 32 c.1 ∧ last_entry_key l = c.2 ∧ l ≠ []) cs ls
  end.
End trees.
Lemma bth_tree_mono (S1 S2 : Z → bytes → Prop) ks vs n : (∀ hid data, S1 hid data → S2 hid data) →
  ∀ hid es, bth_tree S1 ks vs n hid es → bth_tree S2 ks vs n hid es.
Proof.
  intros HS. induction n as [|n IH]; intros hid es; cbn [bth_tree]; [naive_solver|].
  intros (cs & ls & Hd & Hne & E & H2). exists cs, ls. split; [by apply HS|]. do 2 (split; [done|]).
  eapply Forall2_impl; [exact H2|]. cbn. naive_solver.
Qed.

Section packed.
Context (ks vs : Z) (Hks : 0 ≤ ks) (Hvs : 0 ≤ vs).
Lemma blen_leaf_data es : Forall (entry_wf ks vs) es → blen (leaf_data es) = blen es * (ks + vs).
Proof.
  unfold leaf_data. induction 1 as [|e es [E1 E2] _ IH]; [done|]. cbn [map concat]. rewrite !blen_app, blen_cons, IH. lia.
Qed.
Lemma numEntries_data es : 0 < ks + vs → Forall (entry_wf ks vs) es → numEntries (leaf_data es) (ks + vs) = Ok (blen es).
Proof.
  intros Hpos Hf. unfold numEntries. rewrite (proj2 (Z.eqb_neq _ _)) by lia. rewrite blen_leaf_data by done.
  by rewrite Z.div_mul by lia.
Qed.
(** The slices of the entry after [pre]. *)
Lemma packed_key (pre k d rest : bytes) : blen k = ks →
  slice (pre ++ (k ++ d) ++ rest) (blen pre) (blen pre + ks) = Ok k.
Proof.
  intros E. pose proof (blen_nonneg pre). pose proof (blen_nonneg rest). pose proof (blen_nonneg d).
  rewrite slice_Ok by (autorewrite with blen; lia). f_equal. rewrite sub_app_r, <- app_assoc, sub_app_l by lia. apply sub_all; lia.
Qed.
Lemma packed_value (pre k d rest : bytes) : blen k = ks → blen d = vs →
  slice (pre ++ (k ++ d) ++ rest) (blen pre + ks) (blen pre + ks + vs) = Ok d.
Proof.
  intros E E2. pose proof (blen_nonneg pre). pose proof (blen_nonneg rest).
  rewrite slice_Ok by (autorewrite with blen; lia). f_equal.
  rewrite sub_app_r, <- app_assoc, sub_app_r, sub_app_l by lia. apply sub_all; lia.
Qed.
Lemma packed_skip (pre k d rest : bytes) : blen k = ks → blen d = vs →
  pre ++ (k ++ d) ++ rest = (pre ++ k ++ d) ++ rest ∧ blen pre + (ks + vs) = blen (pre ++ k ++ d).
Proof. intros E E2. split; [by rewrite <- !app_assoc|]. autorewrite with blen. lia. Qed.

Lemma scan_leaf_data key es : ∀ pre, Forall (entry_wf ks vs) es →
  scan_leaf ks vs (pre ++ leaf_data es) key (length es) (blen pre) =
    match lookup_key key es with Some v => Ok v | None => Err (EFmt "key not found in BTH" []) end.
Proof.
  induction es as [|[k d] es IH]; intros pre Hf; [done|]. apply Forall_cons in Hf as [[E1 E2] Hf]. cbn in E1, E2.
  unfold leaf_data. cbn [map concat length scan_leaf]. rewrite packed_key, bind_Ok by done.
  unfold lookup_key. cbn [List.find fst snd]. destruct (Z.eqb_spec (compareKeys key k) 0) as [Heq|Hne].
  - apply compareKeys_eq in Heq as <-. cbn. rewrite bool_decide_true by done. by apply packed_value.
  - rewrite bool_decide_false by (cbn; intros ->; by apply Hne, compareKeys_eq).
    fold (leaf_data es). destruct (packed_skip pre k d (leaf_data es) E1 E2) as [-> ->]. by apply IH.
Qed.
Lemma leaf_items_data es : ∀ pre, Forall (entry_wf ks vs) es →
  leaf_items ks vs (pre ++ leaf_data es) (length es) (blen pre) = map (λ e, Ok (mkBTHEntry e.1 e.2)) es.
Proof.
  induction es as [|[k d] es IH]; intros pre Hf; [done|]. apply Forall_cons in Hf as [[E1 E2] Hf]. cbn in E1, E2.
  unfold leaf_data. cbn [map concat length leaf_items fst snd]. rewrite packed_key, bind_Ok, packed_value, bind_Ok by done. f_equal.
  fold (leaf_data es). destruct (packed_skip pre k d (leaf_data es) E1 E2) as [-> ->]. by apply IH.
Qed.
End packed.

Section index.
Context (ks : Z) (Hks : 0 ≤ ks).
Definition child_wf (c : bth_child) : Prop := fits 32 c.1 ∧ blen c.2 = ks.
Lemma child_entry_wf cs : Forall child_wf cs → Forall (entry_wf ks 4) (map (λ c, (c.2, le_enc 4 c.1)) cs).
Proof. intros Hf. apply Forall_map. eapply Forall_impl; [exact Hf|]. intros c [_ E]. split; [done|]. apply blen_le_enc. Qed.
(** The child ID of the entry after [pre]. *)
Lemma packed_child (pre k : bytes) hid rest : blen k = ks → fits 32 hid →
  rd 4 (blen pre + ks) (pre ++ (k ++ le_enc 4 hid) ++ rest) = Ok hid.
Proof.
  intros E Hf. pose proof (blen_nonneg pre). pose proof (blen_nonneg rest).
  rewrite rd_Ok by (autorewrite with blen; lia). f_equal. change (Z.of_nat 4) with 4.
  rewrite sub_app_r by lia. rewrite <- app_assoc. rewrite sub_app_r by lia.
  rewrite sub_app_l by (rewrite ?blen_le_enc; lia). rewrite sub_all by (rewrite ?blen_le_enc; lia). by apply le_dec_enc_fits.
Qed.
Lemma scan_index_data key cs : ∀ pre, Forall child_wf cs →
  scan_index ks (pre ++ index_data cs) key (length cs) (blen pre) =
    Ok (fst <$> List.find (λ c, compareKeys key c.2 <=? 0) cs).
Proof.
  induction cs as [|[hid k] cs IH]; intros pre Hf; [done|]. apply Forall_cons in Hf as [[E1 E2] Hf]. cbn in E1, E2.
  unfold index_data, leaf_data. cbn [map concat length scan_index fst snd]. rewrite packed_key, bind_Ok by done. cbn [List.find fst snd].
  destruct (compareKeys key k <=? 0).
  - by rewrite packed_child, bind_Ok.
  - change (concat _) with (index_data cs). destruct (packed_skip ks 4 pre k (le_enc 4 hid) (index_data cs) E2 ltac:(by rewrite blen_le_enc)) as [-> ->]. by apply IH.
Qed.
Lemma findChild_data `{HeapReader H} (b : BTH H) key cs : BTH_KeySize b = ks → cs ≠ [] → Forall child_wf cs →
  findChild b (index_data cs) key = Ok (match chosen compareKeys key cs with Some c => c.1 | None => 0 end).
Proof.
  intros Eks Hne Hf. assert (numEntries (index_data cs) (ks + 4) = Ok (blen cs)) as Hn.
  { unfold index_data. rewrite (numEntries_data ks 4) by (done || lia || by apply child_entry_wf). by rewrite blen_map. }
  unfold findChild. rewrite Eks. cbv zeta. rewrite Hn, bind_Ok.
  pose proof (scan_index_data key cs [] Hf) as Hs. cbn [app] in Hs.
  replace (Z.to_nat (blen cs)) with (length cs) by (unfold blen; lia). change (blen (@nil Z)) with 0 in Hs. rewrite Hs, bind_Ok. unfold chosen.
  destruct (List.find (λ c, compareKeys key c.2 <=? 0) cs) as [c|]; [done|].
  change (fst <$> None) with (@None Z). cbv iota.
  destruct cs as [|c cs _] using rev_ind; [done|]. rewrite last_snoc.
  pose proof (blen_nonneg cs). rewrite (proj2 (Z.ltb_lt _ _)) by (autorewrite with blen; lia).
  apply Forall_app in Hf as [Hf1 Hf2]. apply Forall_cons in Hf2 as [[Hc1 Hc2] _].
  unfold index_data, leaf_data. rewrite map_app, map_app, concat_app. fold (leaf_data (map (λ c, (c.2, le_enc 4 c.1)) cs)).
  pose proof (blen_leaf_data ks 4 _ (child_entry_wf cs Hf1)) as Hl. rewrite blen_map in Hl.
  replace ((blen (cs ++ [c]) - 1) * (ks + 4) + ks) with (blen (leaf_data (map (λ c, (c.2, le_enc 4 c.1)) cs)) + ks)
    by (rewrite Hl; autorewrite with blen; ring).
  cbn [map concat fst snd]. by apply packed_child.
Qed.
Lemma iterate_children_data visit cs ls : ∀ pre, Forall child_wf cs →
  Forall2 (λ c l, visit c.1 = (map (λ e, Ok (mkBTHEntry e.1 e.2)) l, true)) cs ls →
  iterate_children visit ks (pre ++ index_data cs) (length cs) (blen pre) =
    (map (λ e, Ok (mkBTHEntry e.1 e.2)) (concat ls), true).
Proof.
  intros pre Hcw H2. revert pre Hcw. induction H2 as [|[hid k] l cs ls Hv _ IH]; intros pre Hcw; [done|].
  apply Forall_cons in Hcw as [[Hc1 Hc2] Hcw]. cbn in Hc1, Hc2, Hv.
  unfold index_data, leaf_data. cbn [map concat length iterate_children fst snd].
  rewrite packed_child by done. change (concat (map (λ e : bytes * bytes, e.1 ++ e.2) _)) with (index_data cs).
  destruct (packed_skip ks 4 pre k (le_enc 4 hid) (index_data cs) Hc2 ltac:(by rewrite blen_le_enc)) as [-> ->].
  rewrite Hv, IH by done. by rewrite map_app.
Qed.
End index.

Section search.
Context {H : Type} `{HeapReader H} (b : BTH H) (ks vs : Z).
Context (Hks : 0 ≤ ks) (Hvs : 0 ≤ vs) (Hpos : 0 < ks + vs) (Eks : BTH_KeySize b = ks) (Evs : BTH_ValueSize b = vs).
Local Abbreviation tree := (bth_tree (λ hid data, hread (bth_heap b) hid = Ok data) ks vs).

Lemma bth_tree_wf n : ∀ hid es, tree n hid es → Forall (entry_wf ks vs) es.
Proof.
  induction n as [|n IH]; intros hid es; cbn [bth_tree]; [by intros []|]. intros (cs & ls & _ & _ & -> & H2).
  induction H2 as [|c l cs ls (Ht & _) _ IH2]; [done|]. cbn [concat]. apply Forall_app. split; [by eapply IH|done].
Qed.
Lemma children_wf n cs ls :
  Forall2 (λ c l, tree n c.1 l ∧ fits 32 c.1 ∧ last_entry_key l = c.2 ∧ l ≠ []) cs ls → Forall (child_wf ks) cs.
Proof.
  induction 1 as [|c l cs ls (Ht & Hf & El & Hl) _ IH]; [done|]. constructor; [|done]. split; [done|]. rewrite <- El.
  apply bth_tree_wf in Ht. destruct l as [|e l _] using rev_ind; [done|]. unfold last_entry_key. rewrite last_snoc.
  apply Forall_app in Ht as [_ He]. by apply Forall_cons in He as [[? _] _].
Qed.

Lemma search_tree n key : ∀ hid es, tree n hid es → StronglySorted (key_lt compareKeys) es →
  search b hid n key = match lookup_key key es with Some v => Ok v | None => Err (EFmt "key not found in BTH" []) end.
Proof.
  induction n as [|n IH]; intros hid es Ht Hs; cbn [bth_tree search] in *.
  - destruct Ht as [-> Hf]. cbn [wrap_err]. rewrite bind_Ok. unfold searchLeaf. rewrite Eks, Evs. cbv zeta.
    rewrite (numEntries_data ks vs), bind_Ok by done. replace (Z.to_nat (blen es)) with (length es) by (unfold blen; lia).
    by apply (scan_leaf_data ks vs Hks Hvs key es []).
  - destruct Ht as (cs & ls & Hr & Hne & -> & H2). rewrite Hr. cbn [wrap_err]. rewrite bind_Ok.
    rewrite (findChild_data ks Hks), bind_Ok by (done || by eapply children_wf).
    destruct (lookup_chosen compareKeys (λ _, True) key cs ls) as (c & l & i & E1 & E2 & E3 & E4); [done| |done|done| |].
    { eapply Forall2_impl; [exact H2|]. cbn. by intros ?? (_ & _ & ? & ?). }
    { by apply Forall_true. }
    destruct (Forall2_lookup_lr _ _ _ _ _ _ H2 E1 E2) as (Ht & _). rewrite E3, E4. apply IH; [done|].
    rewrite <- (take_drop_middle _ _ _ E2), concat_app in Hs. cbn [concat] in Hs.
    apply StronglySorted_app_1_r in Hs. by apply StronglySorted_app_1_l in Hs.
Qed.

Lemma iterate_tree n : ∀ hid es, tree n hid es → iterateNode b hid n = (map (λ e, Ok (mkBTHEntry e.1 e.2)) es, true).
Proof.
  induction n as [|n IH]; intros hid es Ht; cbn [bth_tree iterateNode] in *; rewrite Eks, ?Evs.
  - destruct Ht as [-> Hf]. rewrite (numEntries_data ks vs) by done.
    replace (Z.to_nat (blen es)) with (length es) by (unfold blen; lia).
    pose proof (leaf_items_data ks vs Hks Hvs es [] Hf) as Hi. cbn [app] in Hi. change (blen (@nil Z)) with 0 in Hi. by rewrite Hi.
  - destruct Ht as (cs & ls & -> & Hne & -> & H2). pose proof (children_wf _ _ _ H2) as Hcw. unfold index_data at 1.
    rewrite (numEntries_data ks 4) by (lia || by apply child_entry_wf).
    rewrite blen_map. unfold blen at 1. rewrite Nat2Z.id.
    apply (iterate_children_data ks Hks _ cs ls [] Hcw).
    eapply Forall2_impl; [exact H2|]. cbn. intros c l (Ht & _). by apply IH.
Qed.
End search.

(** ** What the writer builds *)
Lemma copy_at_Ok off bs buf : off ≤ blen buf → copy_at off bs buf = Ok (splice off bs buf).
Proof. intros. unfold copy_at. by rewrite (proj2 (Z.ltb_ge _ _)). Qed.
Lemma pack_entries_app ks vs es : ∀ pre old, 0 ≤ ks → 0 ≤ vs →
  Forall (entry_wf ks vs) es → blen old = blen es * (ks + vs) →
  pack_entries ks (ks + vs) es (blen pre) (pre ++ old) = Ok (pre ++ leaf_data es).
Proof.
  induction es as [|[k d] es IH]; intros pre old Hks Hvs Hf Hl.
  - destruct old; [done|]. autorewrite with blen in Hl. pose proof (blen_nonneg old). lia.
  - apply Forall_cons in Hf as [[E1 E2] Hf]. cbn in E1, E2. rewrite blen_cons in Hl. pose proof (blen_nonneg es).
    pose proof (blen_nonneg pre).
    assert (∃ o1 o2 o3, old = o1 ++ o2 ++ o3 ∧ blen o1 = ks ∧ blen o2 = vs ∧ blen o3 = blen es * (ks + vs)) as (o1 & o2 & o3 & -> & F1 & F2 & F3).
    { exists (take (Z.to_nat ks) old), (take (Z.to_nat vs) (drop (Z.to_nat ks) old)), (drop (Z.to_nat vs) (drop (Z.to_nat ks) old)).
      split; [by rewrite !take_drop|]. unfold blen in *. rewrite !length_take, !length_drop. nia. }
    cbn [pack_entries]. rewrite copy_at_Ok by (autorewrite with blen; nia). rewrite bind_Ok.
    rewrite (splice_app pre o1 k) by (unfold blen in *; lia).
    rewrite copy_at_Ok by (autorewrite with blen; nia). rewrite bind_Ok.
    rewrite (app_assoc pre k). replace (blen pre + ks) with (blen (pre ++ k)) by (autorewrite with blen; lia).
    rewrite (splice_app (pre ++ k) o2 d) by (unfold blen in *; lia). rewrite (app_assoc (pre ++ k) d).
    replace (blen pre + (ks + vs)) with (blen ((pre ++ k) ++ d)) by (autorewrite with blen; lia).
    rewrite IH by (done || lia). unfold leaf_data. cbn [map concat fst snd]. by rewrite <- !app_assoc.
Qed.
Lemma pack_entries_Ok ks vs es : 0 ≤ ks → 0 ≤ vs → Forall (entry_wf ks vs) es →
  pack_entries ks (ks + vs) es 0 (zeros (blen es * (ks + vs))) = Ok (leaf_data es).
Proof.
  intros. pose proof (blen_nonneg es). apply (pack_entries_app ks vs es [] (zeros (blen es * (ks + vs)))); [done..|].
  rewrite blen_zeros. nia.
Qed.

Definition in_heap (h : HeapWriter) (hid : Z) (data : bytes) : Prop := mkHeapAlloc hid data ∈ hw_allocations h.
(** A heap writer with room for 11-bit indexes. *)
Definition heap_grows (h h' : HeapWriter) : Prop := hw_allocations h `prefix_of` hw_allocations h' ∧ (heap_next h → heap_next h').
#[export] Instance heap_grows_preorder : PreOrder heap_grows.
Proof. split; [by split|]. intros h1 h2 h3 [P1 N1] [P2 N2]. split; [by etrans|by auto]. Qed.
Lemma in_heap_grows h h' hid data : heap_grows h h' → in_heap h hid data → in_heap h' hid data.
Proof. intros [[k E] _] Hin. unfold in_heap in *. rewrite E. apply elem_of_app. by left. Qed.
Lemma MakeHeapID_fits a : fits 32 (MakeHeapID 0 a).
Proof.
  unfold MakeHeapID. change (u32 (Z.shiftl 0 heapIDBlockIndexShift)) with 0. rewrite Z.lor_0_l. apply u32_range.
Qed.
Lemma HeapAllocate_Ok data h : blen data ≤ HeapMaxAllocSize →
  ∃ h', HeapAllocate data h = (h', Ok (MakeHeapID 0 (hw_nextAllocID h))) ∧ heap_grows h h' ∧
    in_heap h' (MakeHeapID 0 (hw_nextAllocID h)) data.
Proof.
  intros Hl. unfold HeapAllocate. rewrite (proj2 (Z.ltb_ge _ _)) by done. eexists. split; [done|]. split.
  - pose proof (heap_allocate h data) as Hs. unfold HeapAllocate in Hs. rewrite (proj2 (Z.ltb_ge _ _)) in Hs by done.
    split; [cbn; by eexists|]. intros Hn. by destruct (heap_step_next _ _ Hs Hn).
  - unfold in_heap. cbn. apply elem_of_app. right. by apply list_elem_of_singleton.
Qed.
Lemma SetRoot_grows hid h : heap_grows h (SetRoot hid h).1.
Proof. by split. Qed.

Section build.
Context (ks vs : Z) (Hks : 0 < ks) (Hvs : 0 ≤ vs) (Hsum : ks + vs < 256) (w : BTHWriter).
Context (Ew1 : bw_keySize w = ks) (Ew2 : bw_dataSize w = vs).

Lemma place_leaf_Ok es h : Forall (entry_wf ks vs) es → blen es * (ks + vs) ≤ HeapMaxAllocSize →
  ∃ h' hid, place_leaf es (w, h) = ((w, h'), Ok hid) ∧ heap_grows h h' ∧ in_heap h' hid (leaf_data es) ∧
    fits 32 hid ∧ hid = MakeHeapID 0 (hw_nextAllocID h).
Proof.
  intros Hf Hl. unfold place_leaf. rewrite (st_bind_Ok get _ _ (w, h) (w, h)) by done. cbn [fst]. rewrite Ew1, Ew2, u8_small by lia.
  rewrite pack_entries_Ok by (done || lia).
  rewrite (st_bind_Ok _ _ _ (w, h) (leaf_data es)) by done.
  destruct (HeapAllocate_Ok (leaf_data es) h) as (h' & EA & Hg & Hi); [by rewrite (blen_leaf_data ks vs)|].
  exists h', (MakeHeapID 0 (hw_nextAllocID h)). unfold on_heap, zoom. cbn [snd]. rewrite EA.
  split; [done|]. split; [done|]. split; [done|]. split; [apply MakeHeapID_fits|done].
Qed.
Lemma place_index_Ok cs h : Forall (child_wf ks) cs → blen cs * (ks + 4) ≤ HeapMaxAllocSize →
  ∃ h' hid, place_index cs (w, h) = ((w, h'), Ok hid) ∧ heap_grows h h' ∧ in_heap h' hid (index_data cs) ∧ fits 32 hid.
Proof.
  intros Hf Hl. pose proof (child_entry_wf ks cs Hf) as He. unfold place_index.
  rewrite (st_bind_Ok get _ _ (w, h) (w, h)) by done. cbn [fst]. rewrite Ew1.
  rewrite <- (blen_map (λ c, (c.2, le_enc 4 c.1)) cs) in Hl |- *.
  rewrite pack_entries_Ok by (done || lia).
  rewrite (st_bind_Ok _ _ _ (w, h) (index_data cs)) by done.
  destruct (HeapAllocate_Ok (index_data cs) h) as (h' & EA & Hg & Hi).
  { unfold index_data. by rewrite (blen_leaf_data ks 4). }
  exists h', (MakeHeapID 0 (hw_nextAllocID h)). unfold on_heap, zoom. cbn [snd]. rewrite EA.
  split; [done|]. split; [done|]. split; [done|]. apply MakeHeapID_fits.
Qed.
Lemma place_header_Ok levels root h : 0 ≤ levels →
  ∃ h' hid, place_header levels root (w, h) = ((w, h'), Ok hid) ∧ heap_grows h h' ∧
    in_heap h' hid (bth_header_bytes ks vs levels root).
Proof.
  intros Hl. unfold place_header. rewrite (st_bind_Ok get _ _ (w, h) (w, h)) by done. cbn [fst]. rewrite Ew1, Ew2.
  destruct (HeapAllocate_Ok (bth_header_bytes ks vs levels root) h) as (h' & EA & Hg & Hi); [by vm_compute|].
  rewrite (st_bind_Ok (on_heap _) _ _ (w, h') (MakeHeapID 0 (hw_nextAllocID h))).
  2: { unfold on_heap, zoom. cbn [snd]. by rewrite EA. }
  exists (SetRoot (MakeHeapID 0 (hw_nextAllocID h)) h').1, (MakeHeapID 0 (hw_nextAllocID h)).
  split; [done|]. split; [etrans; [exact Hg|apply SetRoot_grows]|]. exact (in_heap_grows _ _ _ _ (SetRoot_grows _ _) Hi).
Qed.

(** A child of height [n] with the entries below it. *)
Definition child_of (h : HeapWriter) (n : nat) (c : bth_child) (l : list (bytes * bytes)) : Prop :=
  bth_tree (in_heap h) ks vs n c.1 l ∧ fits 32 c.1 ∧ last_entry_key l = c.2 ∧ l ≠ [].
Lemma child_of_grows h h' n c l : heap_grows h h' → child_of h n c l → child_of h' n c l.
Proof. intros Hg (Ht & ?). split; [|done]. eapply bth_tree_mono; [|exact Ht]. intros hid d. by apply in_heap_grows. Qed.
Lemma child_of_wf h n c l : child_of h n c l → child_wf ks c.
Proof.
  intros (Ht & Hf & El & Hl). split; [done|]. rewrite <- El.
  assert (∀ n hid es, bth_tree (in_heap h) ks vs n hid es → Forall (entry_wf ks vs) es) as Hwf.
  { clear. intros n. induction n as [|n IH]; intros hid es; cbn [bth_tree]; [by intros []|].
    intros (cs & ls & _ & _ & -> & H2). induction H2 as [|c l cs ls (Ht & _) _ IH2]; [done|]. cbn [concat].
    apply Forall_app. split; [by eapply IH|done]. }
  apply Hwf in Ht. destruct l as [|e l _] using rev_ind; [done|]. unfold last_entry_key. rewrite last_snoc.
  apply Forall_app in Ht as [_ He]. by apply Forall_cons in He as [[? _] _].
Qed.
Lemma last_concat cs ls : cs ≠ [] → Forall2 (λ (c : bth_child) l, last_entry_key l = c.2 ∧ l ≠ []) cs ls →
  last_entry_key (concat ls) = last_child_key cs ∧ concat ls ≠ [].
Proof.
  intros Hne H2. destruct cs as [|c cs _] using rev_ind; [done|]. apply Forall2_app_inv_l in H2 as (ls1 & ls2 & _ & H2 & ->).
  apply Forall2_cons_inv_l in H2 as (l & ls' & [Hl1 Hl2] & ->%Forall2_nil_inv_l & ->).
  rewrite concat_app. cbn [concat]. rewrite app_nil_r. unfold last_child_key. rewrite last_snoc, <- Hl1.
  destruct l as [|e l _] using rev_ind; [done|]. unfold last_entry_key. rewrite app_assoc, !last_snoc.
  split; [done|]. intros [_ E]%app_nil. done.
Qed.
Lemma Forall2_concat_inv {A B} (P : A → B → Prop) css : ∀ ls, Forall2 P (concat css) ls →
  ∃ lss, Forall2 (Forall2 P) css lss ∧ ls = concat lss.
Proof.
  induction css as [|cs css IH]; intros ls; cbn [concat].
  - intros ->%Forall2_nil_inv_l. by exists [].
  - intros (l1 & l2 & H1 & H2 & ->)%Forall2_app_inv_l. destruct (IH _ H2) as (lss & H3 & ->).
    exists (l1 :: lss). split; [by constructor|done].
Qed.

Lemma concat_concat {A} (lss : list (list (list A))) : concat (map (@concat A) lss) = concat (concat lss).
Proof. induction lss as [|ls lss IH]; [done|]. cbn [map concat]. by rewrite concat_app, IH. Qed.

(** One level of the tree, the children of one node being a chunk. *)
Lemma place_parent n cs ls h : cs ≠ [] → blen cs ≤ HeapMaxAllocSize / (ks + 4) → Forall2 (child_of h n) cs ls →
  ∃ h' c, (do hid <- place_index cs; mret (hid, last_child_key cs)) (w, h) = ((w, h'), Ok c) ∧
    heap_grows h h' ∧ child_of h' (S n) c (concat ls).
Proof.
  intros Hne Hl H2.
  assert (Forall (child_wf ks) cs) as Hcw.
  { apply Forall_forall. intros c Hc. apply list_elem_of_lookup in Hc as [i Hi].
    destruct (Forall2_lookup_l _ _ _ _ _ H2 Hi) as (l & _ & Hcl). by eapply child_of_wf. }
  destruct (place_index_Ok cs h Hcw) as (h' & hid & E & Hg & Hin & Hf).
  { pose proof (blen_nonneg cs). assert (0 < ks + 4) by lia. pose proof (Z.mul_div_le HeapMaxAllocSize (ks + 4)). nia. }
  exists h', (hid, last_child_key cs). rewrite (st_bind_Ok _ _ _ _ _ E). do 2 (split; [done|]).
  destruct (last_concat cs ls Hne) as [El Hne'].
  { eapply Forall2_impl; [exact H2|]. intros c l (_ & _ & ? & ?). done. }
  split; [|done]. cbn [fst bth_tree]. exists cs, ls. do 3 (split; [done|]).
  eapply Forall2_impl; [exact H2|]. intros c l Hc. by eapply child_of_grows.
Qed.
Lemma place_level n css : ∀ lss h, Forall2 (Forall2 (child_of h n)) css lss →
  Forall (λ cs, cs ≠ [] ∧ blen cs ≤ HeapMaxAllocSize / (ks + 4)) css →
  ∃ h' ps, mapM_st (λ cs, do hid <- place_index cs; mret (hid, last_child_key cs)) css (w, h) = ((w, h'), Ok ps) ∧
    heap_grows h h' ∧ Forall2 (child_of h' (S n)) ps (map (@concat _) lss) ∧ length ps = length css.
Proof.
  induction css as [|cs css IH]; intros lss h H2 Hf.
  - apply Forall2_nil_inv_l in H2 as ->. exists h, []. split; [done|]. split; [done|]. split; [constructor|done].
  - apply Forall2_cons_inv_l in H2 as (ls & lss' & H1 & H2 & ->). apply Forall_cons in Hf as [[Hne Hl] Hf]. rename lss' into lss0.
    destruct (place_parent n cs ls h Hne Hl H1) as (h1 & c & E1 & G1 & C1).
    destruct (IH lss0 h1) as (h2 & ps & E2 & G2 & C2 & L2); [|done|].
    { eapply Forall2_impl; [exact H2|]. intros. eapply Forall2_impl; [done|]. intros. by eapply child_of_grows. }
    exists h2, (c :: ps). cbn [mapM_st]. rewrite (st_bind_Ok _ _ _ _ _ E1), (st_bind_Ok _ _ _ _ _ E2).
    split; [done|]. split; [by etrans|]. split; [|cbn; by rewrite L2]. cbn [map]. constructor; [by eapply child_of_grows|done].
Qed.
Lemma buildIntermediate_Ok depth : ∀ n cs ls level h, cs ≠ [] → (length cs ≤ depth)%nat → 0 ≤ level → Forall2 (child_of h n) cs ls →
  ∃ h' hid m root, buildIntermediateLevel depth cs level (w, h) = ((w, h'), Ok hid) ∧ heap_grows h h' ∧ (n ≤ m)%nat ∧
    in_heap h' hid (bth_header_bytes ks vs (u8 (level + Z.of_nat (m - n))) root) ∧
    bth_tree (in_heap h') ks vs m root (concat ls) ∧ fits 32 root ∧ (2 ≤ length cs → n < m)%nat.
Proof.
  induction depth as [|depth IH]; intros n cs ls level h Hne Hd Hlv H2; [destruct cs; [done|cbn in Hd; lia]|].
  cbn [buildIntermediateLevel]. destruct cs as [|c [|c2 cs]]; [done| |].
  - apply Forall2_cons_inv_l in H2 as (l & ls' & Hc & ->%Forall2_nil_inv_l & ->).
    destruct (place_header_Ok (u8 level) c.1 h) as (h' & hid & E & Hg & Hin); [apply u8_range|].
    exists h', hid, n, c.1. split; [done|]. split; [done|]. split; [lia|]. rewrite Nat.sub_diag, Z.add_0_r.
    split; [done|]. cbn [concat]. rewrite app_nil_r. destruct (child_of_grows _ _ _ _ _ Hg Hc) as (? & ? & _).
    split; [done|]. split; [done|]. cbn. lia.
  - set (cs' := c :: c2 :: cs) in *. rewrite (st_bind_Ok get _ _ (w, h) (w, h)) by done. cbn [fst]. rewrite Ew1.
    set (mx := HeapMaxAllocSize / (ks + 4)).
    assert (2 ≤ mx) as Hmx by (subst mx; apply Z.div_le_lower_bound; unfold HeapMaxAllocSize; lia).
    assert (concat (chunks mx cs') = cs') as Ech by (apply chunks_concat; lia).
    rewrite <- Ech in H2. apply Forall2_concat_inv in H2 as (lss & H2 & ->).
    destruct (place_level n (chunks mx cs') lss h H2) as (h1 & ps & E1 & G1 & C1 & L1).
    { apply chunks_each. lia. }
    rewrite (st_bind_Ok _ _ _ _ _ E1).
    pose proof (chunks_shrink mx cs' Hmx ltac:(subst cs'; cbn; lia)) as Hshr.
    destruct (IH (S n) ps (map (@concat _) lss) (level + 1) h1) as (h2 & hid & m & root & E2 & G2 & Hm & Hin & Ht & Hf & _).
    + intros ->. apply (chunks_nonempty mx cs'); [done|]. by apply nil_length_inv.
    + lia.
    + lia.
    + done.
    + exists h2, hid, m, root. split; [done|]. split; [by etrans|]. split; [lia|].
      replace (level + Z.of_nat (m - n)) with (level + 1 + Z.of_nat (m - S n)) by lia. split; [done|].
      split; [by rewrite <- concat_concat|]. split; [done|]. intros _. lia.
Qed.
End build.

#[export] Instance entry_le_total : Total entry_le.
Proof. intros a b. unfold entry_le, compareBytes. rewrite (compareKeys_antisym a.1 b.1). lia. Qed.
#[export] Instance entry_le_trans : Transitive entry_le.
Proof.
  intros a b c Hab Hbc. unfold entry_le, compareBytes in *.
  destruct (Z.eq_dec (compareKeys b.1 c.1) 0) as [E|E].
  - by apply compareKeys_eq in E as <-.
  - apply Z.lt_le_incl, (compareKeys_trans _ b.1); lia.
Qed.
Lemma sort_strict es : NoDup es.*1 → StronglySorted (key_lt compareKeys) (merge_sort entry_le es).
Proof.
  intros Hn. assert (NoDup (merge_sort entry_le es).*1) as Hn2 by (by rewrite merge_sort_Permutation).
  pose proof (StronglySorted_merge_sort entry_le es) as Hs. revert Hn2. clear Hn. induction Hs as [|e l Hs IH Hf]; [constructor|].
  cbn. intros [He Hn]%NoDup_cons. constructor; [by apply IH|]. apply Forall_forall. intros x Hx.
  rewrite Forall_forall in Hf. specialize (Hf x Hx). unfold entry_le, compareBytes in Hf. unfold key_lt.
  destruct (Z.eq_dec (compareKeys e.1 x.1) 0) as [E|E]; [|lia]. apply compareKeys_eq in E. exfalso. apply He. rewrite E.
  by apply list_elem_of_fmap_2.
Qed.

(** A writer whose entries have distinct keys and the declared sizes, which fit
    the byte they are declared in. *)
Record bth_wf (w : BTHWriter) : Prop := {
  bw_keys : NoDup (bw_entries w).*1;
  bw_sizes : Forall (entry_wf (bw_keySize w) (bw_dataSize w)) (bw_entries w);
  bw_range : 0 < bw_keySize w ∧ 0 ≤ bw_dataSize w ∧ bw_keySize w + bw_dataSize w < 256;
}.
Definition max_leaf_entries (w : BTHWriter) : Z := HeapMaxAllocSize / (bw_keySize w + bw_dataSize w).
Definition sorted_entries (w : BTHWriter) : list (bytes * bytes) := merge_sort entry_le (bw_entries w).

Lemma place_leaves w ks vs ess : bw_keySize w = ks → bw_dataSize w = vs → 0 < ks → 0 ≤ vs → ks + vs < 256 →
  ∀ h, Forall (λ es, es ≠ [] ∧ blen es ≤ HeapMaxAllocSize / (ks + vs) ∧ Forall (entry_wf ks vs) es) ess →
  ∃ h' cs, mapM_st (λ es, do hid <- place_leaf es; mret (hid, last_entry_key es)) ess (w, h) = ((w, h'), Ok cs) ∧
    heap_grows h h' ∧ Forall2 (child_of ks vs h' 0) cs ess.
Proof.
  intros Ek Ev Hk Hv Hs h Hf. induction Hf as [|es ess (Hne & Hl & He) Hf IH] in h |- *.
  - exists h, []. split; [done|]. split; [done|constructor].
  - destruct (place_leaf_Ok ks vs Hk Hv Hs w Ek Ev es h He) as (h1 & hid & E & G & Hin & Hfit & _).
    { pose proof (blen_nonneg es). assert (0 < ks + vs) by lia. pose proof (Z.mul_div_le HeapMaxAllocSize (ks + vs)). nia. }
    destruct (IH h1) as (h2 & cs & E2 & G2 & C2).
    exists h2, ((hid, last_entry_key es) :: cs). cbn [mapM_st].
    rewrite (st_bind_Ok _ _ (w, h) (w, h1) (hid, last_entry_key es)) by (by rewrite (st_bind_Ok _ _ _ _ _ E)).
    rewrite (st_bind_Ok _ _ _ _ _ E2). split; [done|]. split; [by etrans|]. constructor; [|done].
    split; [|done]. cbn [bth_tree fst]. split; [exact (in_heap_grows _ _ _ _ G2 Hin)|done].
Qed.
Lemma Forall_chunks {A} (P : A → Prop) n (l : list A) : 0 < n → Forall P l →
  Forall (λ c, c ≠ [] ∧ blen c ≤ n ∧ Forall P c) (chunks n l).
Proof.
  intros Hn Hl. rewrite <- (chunks_concat n l Hn), Forall_concat in Hl. pose proof (chunks_each n l Hn) as He.
  rewrite Forall_forall in Hl, He |- *. naive_solver.
Qed.

Lemma BTHBuild_Ok depth w h : bth_wf w → bw_entries w ≠ [] → (length (bw_entries w) ≤ depth)%nat →
  ∃ h' hid m root, BTHBuild depth (w, h) = ((set_entries w (sorted_entries w), h'), Ok hid) ∧ heap_grows h h' ∧
    in_heap h' hid (bth_header_bytes (bw_keySize w) (bw_dataSize w)
      (if blen (bw_entries w) <=? max_leaf_entries w then 0 else u8 (1 + Z.of_nat m)) root) ∧
    bth_tree (in_heap h') (bw_keySize w) (bw_dataSize w) m root (sorted_entries w) ∧ fits 32 root ∧
    (if blen (bw_entries w) <=? max_leaf_entries w then m = O else (1 ≤ m)%nat).
Proof.
  intros [Hn Hf (Hk & Hv & Hs)] Hne Hd. unfold BTHBuild. rewrite (st_bind_Ok get _ _ (w, h) (w, h)) by done. cbn [fst].
  set (es := sorted_entries w). set (w' := set_entries w es).
  assert (Forall (entry_wf (bw_keySize w) (bw_dataSize w)) es) as Hfe by (unfold es, sorted_entries; by rewrite merge_sort_Permutation).
  assert (blen es = blen (bw_entries w)) as Hle by (unfold es, sorted_entries, blen; by rewrite merge_sort_Permutation).
  destruct (bw_entries w) as [|e0 rest] eqn:Ee; [done|]. rewrite <- Ee in *.
  rewrite (st_bind_Ok _ _ (w, h) (w', h) tt) by (unfold modify, w', es, sorted_entries; cbn; by rewrite Ee).
  rewrite u8_small by lia. rewrite (proj2 (Z.eqb_neq _ _)) by lia. fold (max_leaf_entries w).
  assert (1 ≤ max_leaf_entries w) by (unfold max_leaf_entries; apply Z.div_le_lower_bound; unfold HeapMaxAllocSize; lia).
  destruct (Z.leb_spec (blen (bw_entries w)) (max_leaf_entries w)) as [Hl|Hl].
  - unfold buildSingleLevel. rewrite (st_bind_Ok get _ _ (w', h) (w', h)) by done. cbn [fst].
    destruct (place_leaf_Ok (bw_keySize w) (bw_dataSize w) Hk Hv Hs w' eq_refl eq_refl es h Hfe) as (h1 & root & E & G & Hin & Hfit & _).
    { pose proof (blen_nonneg es). unfold max_leaf_entries in *.
      assert (0 < bw_keySize w + bw_dataSize w) by lia. pose proof (Z.mul_div_le HeapMaxAllocSize (bw_keySize w + bw_dataSize w)). nia. }
    change (bw_entries w') with es. rewrite (st_bind_Ok _ _ _ _ _ E).
    destruct (place_header_Ok (bw_keySize w) (bw_dataSize w) w' eq_refl eq_refl 0 root h1) as (h2 & hid & E2 & G2 & Hin2); [lia|].
    exists h2, hid, O, root. split; [exact E2|]. split; [by etrans|]. split; [done|].
    split; [split; [exact (in_heap_grows _ _ _ _ G2 Hin)|done]|done].
  - unfold buildMultiLevel. rewrite (st_bind_Ok get _ _ (w', h) (w', h)) by done. cbn [fst]. change (bw_entries w') with es.
    destruct (place_leaves w' (bw_keySize w) (bw_dataSize w) (chunks (max_leaf_entries w) es) eq_refl eq_refl Hk Hv Hs h)
      as (h1 & cs & E & G & C); [apply Forall_chunks; [lia|done]|].
    rewrite (st_bind_Ok _ _ _ _ _ E). pose proof (Forall2_length _ _ _ C) as Hlen.
    assert (es ≠ []) as Hes by (intros E0; assert (blen es = 0) by (by rewrite E0); lia).
    destruct (chunks_fuel_spec (length es) (Z.to_nat (max_leaf_entries w)) es) as (_ & _ & Hcl & _); [lia|lia|].
    fold (chunks (max_leaf_entries w) es) in Hcl.
    assert (2 ≤ length cs)%nat as H2.
    { rewrite Hlen. destruct (chunks (max_leaf_entries w) es) as [|c1 [|c2 r]] eqn:Ec; [by apply chunks_nonempty in Ec| |cbn; lia].
      pose proof (chunks_concat (max_leaf_entries w) es ltac:(lia)) as Ecc. rewrite Ec in Ecc. cbn in Ecc. rewrite app_nil_r in Ecc.
      pose proof (chunks_each (max_leaf_entries w) es ltac:(lia)) as Hce. rewrite Ec in Hce. apply Forall_cons in Hce as [[_ Hb] _].
      rewrite Ecc in Hb. lia. }
    destruct (buildIntermediate_Ok (bw_keySize w) (bw_dataSize w) Hk Hv Hs w' eq_refl eq_refl depth O cs (chunks (max_leaf_entries w) es) 1 h1) as
      (h2 & hid & m & root & E2 & G2 & _ & Hin & Ht & Hfit & Hm); [by destruct cs; cbn in H2; [lia|]| |lia|exact C|].
    { unfold blen in Hle. lia. }
    exists h2, hid, m, root. split; [exact E2|]. split; [by etrans|]. rewrite Nat.sub_0_r in Hin. split; [done|].
    rewrite chunks_concat in Ht by lia. split; [done|]. split; [done|]. by apply Hm.
Qed.

Lemma NewBTH_header {H} `{HeapReader H} (heap : H) hid ks vs lv root :
  hread heap hid = Ok (bth_header_bytes ks vs lv root) → fits 32 root →
  NewBTH heap hid = Ok (mkBTH heap (mkBTHHeader HeapSigBTH ks vs lv root)).
Proof.
  intros Hr Hf. unfold NewBTH. rewrite Hr. cbn [wrap_err]. rewrite bind_Ok.
  change (blen (bth_header_bytes ks vs lv root) <? 8) with false. cbv iota.
  change (index (bth_header_bytes ks vs lv root) 0) with (Ok 0xB5).
  change (index (bth_header_bytes ks vs lv root) 1) with (Ok ks).
  change (index (bth_header_bytes ks vs lv root) 2) with (Ok vs).
  change (index (bth_header_bytes ks vs lv root) 3) with (Ok lv). rewrite !bind_Ok.
  rewrite rd_Ok by done. rewrite bind_Ok. change (negb (0xB5 =? HeapSigBTH)) with false. cbv iota. unfold bth_header_bytes.
  rewrite sub_app_r by (vm_compute; done). rewrite sub_all by done. by rewrite le_dec_enc_fits.
Qed.

(** A heap that gives back what a heap writer allocated. *)
Definition holds {H} `{HeapReader H} (heap : H) (h : HeapWriter) : Prop :=
  Forall (λ a, hread heap (ha_hid a) = Ok (ha_data a)) (hw_allocations h).
Lemma holds_in {H} `{HeapReader H} (heap : H) h hid data : holds heap h → in_heap h hid data → hread heap hid = Ok data.
Proof. unfold holds, in_heap. rewrite Forall_forall. intros Hh Hin. by apply (Hh _ Hin). Qed.
Lemma tree_root_nonzero ks vs h m root es :
  heap_next h → blen (hw_allocations h) < 2046 → bth_tree (in_heap h) ks vs m root es → root ≠ 0.
Proof.
  intros [_ Hids] Hl Ht. assert (∃ data, in_heap h root data) as [data Hin].
  { destruct m; cbn [bth_tree] in Ht; [destruct Ht as [? _]|destruct Ht as (? & ? & ? & _)]; by eexists. }
  apply list_elem_of_lookup in Hin as [i Hi]. pose proof (Hids i _ Hi) as E. cbn in E. subst root.
  pose proof (lookup_lt_Some _ _ _ Hi). unfold blen in Hl. rewrite u16_small by lia. apply MakeHeapID_split; lia.
Qed.

(** The map a writer holds. *)
Definition bw_map (w : BTHWriter) : gmap (list Z) (list Z) := list_to_map (bw_entries w).
Lemma lookup_key_map key es : lookup_key key es = (list_to_map es : gmap (list Z) (list Z)) !! key.
Proof.
  unfold lookup_key. induction es as [|[k d] es IH]; [done|]. cbn [List.find list_to_map foldr fst snd].
  case_bool_decide as Hd; cbn in Hd.
  - subst k. by rewrite lookup_insert_eq.
  - by rewrite lookup_insert_ne, IH.
Qed.
Lemma lookup_key_sorted w key : bth_wf w → lookup_key key (sorted_entries w) = bw_map w !! key.
Proof.
  intros [Hn _ _]. rewrite lookup_key_map. unfold bw_map, sorted_entries. f_equal. apply list_to_map_proper; [|apply merge_sort_Permutation].
  by rewrite merge_sort_Permutation.
Qed.
Lemma update_entry_spec key data es :
  match update_entry key data es with
  | Some es' => es'.*1 = es.*1 ∧ (list_to_map es' : gmap (list Z) (list Z)) = <[key:=data]> (list_to_map es)
  | None => key ∉ es.*1
  end.
Proof.
  induction es as [|[k d] es IH]; cbn [update_entry]; [apply not_elem_of_nil|]. unfold compareBytes in *.
  destruct (Z.eqb_spec (compareKeys k key) 0) as [E|E].
  - apply compareKeys_eq in E as ->. split; [done|]. cbn. by rewrite insert_insert_eq.
  - assert (k ≠ key) as Hne by (intros ->; by apply E, compareKeys_eq). destruct (update_entry key data es) as [es'|].
    + destruct IH as [E1 E2]. split; [cbn; by rewrite E1|]. cbn. rewrite E2. by rewrite insert_insert_ne.
    + cbn. by apply not_elem_of_cons.
Qed.
Lemma delete_entry_spec key es : NoDup es.*1 →
  match delete_entry key es with
  | Some es' => es' `sublist_of` es ∧ (list_to_map es' : gmap (list Z) (list Z)) = delete key (list_to_map es) ∧ key ∈ es.*1
  | None => key ∉ es.*1
  end.
Proof.
  induction es as [|[k d] es IH]; cbn [delete_entry]; [intros _; apply not_elem_of_nil|]. unfold compareBytes in *.
  cbn [fmap list_fmap fst]. intros [Hk Hn]%NoDup_cons. destruct (Z.eqb_spec (compareKeys k key) 0) as [E|E].
  - apply compareKeys_eq in E as ->. split; [by apply sublist_cons|]. split; [|by left]. cbn. rewrite delete_insert_id; [done|].
    by apply not_elem_of_list_to_map_1.
  - assert (k ≠ key) as Hne by (intros ->; by apply E, compareKeys_eq). specialize (IH Hn). destruct (delete_entry key es) as [es'|].
    + destruct IH as (E1 & E2 & E3). split; [by apply sublist_skip|]. split; [|by right]. cbn. rewrite E2. by rewrite delete_insert_ne.
    + by apply not_elem_of_cons.
Qed.

(** ** Properties *)

Lemma bth_reads_tree_aux {H} `{HeapReader H} (b : BTH H) ks vs n es :
  bth_header b = mkBTHHeader HeapSigBTH ks vs (Z.of_nat n) (BTH_RootID (bth_header b)) →
  BTH_RootID (bth_header b) ≠ 0 → 0 ≤ ks → 0 ≤ vs → 0 < ks + vs →
  bth_tree (λ hid data, hread (bth_heap b) hid = Ok data) ks vs n (BTH_RootID (bth_header b)) es →
  StronglySorted (key_lt compareKeys) es →
  (∀ key, blen key = ks → BTH_Lookup b key =
     match lookup_key key es with Some v => Ok v | None => Err (EFmt "key not found in BTH" []) end) ∧
  (∀ key, blen key ≠ ks → ∃ e, BTH_Lookup b key = Err e) ∧
  Entries b = map (λ e, Ok (mkBTHEntry e.1 e.2)) es.
Proof.
  intros Eh Hr Hk Hv Hp Ht Hs.
  assert (BTH_KeySize b = ks) as Ek by (unfold BTH_KeySize; by rewrite Eh).
  assert (BTH_ValueSize b = vs) as Ev by (unfold BTH_ValueSize; by rewrite Eh).
  assert (NumLevels (bth_header b) = Z.of_nat n) as En by (by rewrite Eh).
  unfold BTH_Lookup, Entries, BTH_IsEmpty. rewrite (proj2 (Z.eqb_neq _ _)) by done. fold (BTH_KeySize b).
  rewrite Ek, En, Nat2Z.id. split; [|split].
  - intros key ->. rewrite Z.eqb_refl. cbn [negb]. by apply (search_tree b ks vs).
  - intros key Hne. rewrite (proj2 (Z.eqb_neq _ _)) by done. by eexists.
  - rewrite (iterate_tree b ks vs Hk Hv Hp Ek Ev n _ es Ht). done.
Qed.


(** C23: Search and iteration agree with the list of entries: in a tree whose
    nodes file each child under its last key and whose keys are in byte order,
    [Lookup] returns the value of the entry with the key, or "key not found",
    for every key of the right size, refuses every other key, and [Entries]
    yields exactly the entries in order. *)
Theorem bth_reads_tree {H} `{HeapReader H} (b : BTH H) ks vs n es :
  bth_header b = mkBTHHeader HeapSigBTH ks vs (Z.of_nat n) (BTH_RootID (bth_header b)) →
  BTH_RootID (bth_header b) ≠ 0 → 0 ≤ ks → 0 ≤ vs → 0 < ks + vs →
  bth_tree (λ hid data, hread (bth_heap b) hid = Ok data) ks vs n (BTH_RootID (bth_header b)) es →
  StronglySorted (key_lt compareKeys) es →
  (∀ key, blen key = ks → BTH_Lookup b key =
     match lookup_key key es with Some v => Ok v | None => Err (EFmt "key not found in BTH" []) end) ∧
  (∀ key, blen key ≠ ks → ∃ e, BTH_Lookup b key = Err e) ∧
  Entries b = map (λ e, Ok (mkBTHEntry e.1 e.2)) es.
Proof. apply bth_reads_tree_aux. Qed.

Lemma BTHInsert_spec w key data : bth_wf w →
  if (blen key =? bw_keySize w) && (blen data =? bw_dataSize w)
  then ∃ w', BTHInsert key data w = (w', Ok tt) ∧ bth_wf w' ∧ bw_map w' = <[key:=data]> (bw_map w) ∧
    bw_keySize w' = bw_keySize w ∧ bw_dataSize w' = bw_dataSize w
  else ∃ e, BTHInsert key data w = (w, Err e).
Proof.
  intros [Hn Hf Hr]. unfold BTHInsert. destruct (Z.eqb_spec (blen key) (bw_keySize w)) as [E1|]; cbn [negb andb]; [|by eexists].
  destruct (Z.eqb_spec (blen data) (bw_dataSize w)) as [E2|]; cbn [negb]; [|by eexists].
  pose proof (update_entry_spec key data (bw_entries w)) as Hu. destruct (update_entry key data (bw_entries w)) as [es'|] eqn:Eu.
  + destruct Hu as [F1 F2]. eexists. split; [done|]. split; [|done]. split; cbn; [by rewrite F1| |done].
    clear Hn F1 F2. revert es' Eu. induction Hf as [|[k d] es He Hf IH]; intros es'; cbn [update_entry]; [done|].
    destruct (_ =? 0); [intros [= <-]; constructor; [split; [apply He|done]|done]|].
    destruct (update_entry key data es) as [es2|]; intros [= <-]. constructor; [done|by apply IH].
  + eexists. split; [done|]. split; [|].
    * split; cbn; [|apply Forall_app; by repeat constructor|done]. rewrite fmap_app. apply NoDup_app. split; [done|].
      split; [|apply NoDup_singleton]. intros x Hx ->%list_elem_of_singleton. done.
    * unfold bw_map. cbn. rewrite list_to_map_app. cbn. rewrite insert_empty, <- insert_union_singleton_r; [done|].
      by apply not_elem_of_list_to_map_1.
Qed.
(** The BTH writer implements a finite map: on a writer whose entries have
    the declared sizes and distinct keys, [Insert] adds or replaces the value of
    a key and refuses keys and values of other sizes, [Delete] removes a present
    key and fails on an absent one, and both keep the writer well-formed. *)
Theorem bth_writer_refines w key data :
  bth_wf w →
  (if (blen key =? bw_keySize w) && (blen data =? bw_dataSize w)
   then ∃ w', BTHInsert key data w = (w', Ok tt) ∧ bth_wf w' ∧ bw_map w' = <[key:=data]> (bw_map w)
   else ∃ e, BTHInsert key data w = (w, Err e)) ∧
  match bw_map w !! key with
  | Some _ => ∃ w', BTHDelete key w = (w', Ok tt) ∧ bth_wf w' ∧ bw_map w' = delete key (bw_map w)
  | None => BTHDelete key w = (w, Err (EFmt "key not found" []))
  end.
Proof.
  intros [Hn Hf Hr]. split.
  - pose proof (BTHInsert_spec w key data ltac:(by split)) as Hi. destruct (_ && _); [|done].
    destruct Hi as (w' & ? & ? & ? & _). by exists w'.
  - unfold BTHDelete. pose proof (delete_entry_spec key (bw_entries w) Hn) as Hd.
    destruct (delete_entry key (bw_entries w)) as [es'|] eqn:Ed.
    + destruct Hd as (F1 & F2 & F3). unfold bw_map. destruct (list_to_map (bw_entries w) !! key) eqn:El.
      * eexists. split; [done|]. split; [|done]. split; cbn; [| |done].
        -- eapply sublist_NoDup; [exact Hn|]. by apply fmap_sublist.
        -- rewrite Forall_forall in Hf |- *. intros e He. apply Hf. by eapply elem_of_sublist.
      * exfalso. by apply not_elem_of_list_to_map_2 in El.
    + unfold bw_map. by rewrite (not_elem_of_list_to_map_1 (bw_entries w) key Hd).
Qed.

(** A heap given by its allocations. *)
#[export] Instance alloc_reader : HeapReader (list heapAllocation) := λ l hid,
  match List.find (λ a, ha_hid a =? hid) l with
  | Some a => Ok (ha_data a)
  | None => Err (EFmt "heap alloc index out of bounds: %d >= %d" [hid; blen l])
  end.
Definition sample_bth : BTHWriter := mkBTHWriter 2 6 [([9; 15], [31; 0; 64; 0; 0; 0]); ([1; 48], [3; 0; 5; 0; 0; 0])] FormatUnicode.
Lemma sample_bth_wf : bth_wf sample_bth.
Proof. split; cbn; [|by repeat constructor|lia]. by apply (bool_decide_unpack _); vm_compute. Qed.

Lemma bth_reads_tree_witness :
  let heap := [mkHeapAlloc 64 [1; 48; 3; 0; 5; 0; 0; 0; 9; 15; 31; 0; 64; 0; 0; 0]] in
  let b := mkBTH heap (mkBTHHeader HeapSigBTH 2 6 0 64) in
  BTH_Lookup b [9; 15] = Ok [31; 0; 64; 0; 0; 0].
Proof.
  intros heap b.
  refine (proj1 (bth_reads_tree b 2 6 0 [([1; 48], [3; 0; 5; 0; 0; 0]); ([9; 15], [31; 0; 64; 0; 0; 0])] _ _ _ _ _ _ _) [9; 15] _).
  - done.
  - done.
  - done.
  - done.
  - done.
  - split; [done|]. by repeat constructor.
  - by repeat constructor.
  - done.
Defined.
Lemma bth_writer_refines_witness :
  ∃ w', BTHDelete [9; 15] sample_bth = (w', Ok tt) ∧ bth_wf w' ∧ bw_map w' = delete [9; 15] (bw_map sample_bth).
Proof. exact (proj2 (bth_writer_refines sample_bth [9; 15] [] sample_bth_wf)). Defined.

(** A leaf and a header are two allocations. *)
Lemma HeapAllocate_count data h : blen (hw_allocations (HeapAllocate data h).1) ≤ blen (hw_allocations h) + 1.
Proof. unfold HeapAllocate. destruct (_ <? _); cbn; autorewrite with blen; lia. Qed.
Lemma place_leaf_count es w h : blen (hw_allocations (place_leaf es (w, h)).1.2) ≤ blen (hw_allocations h) + 1 ∧ (place_leaf es (w, h)).1.1 = w.
Proof.
  unfold place_leaf. rewrite (st_bind_Ok get _ _ (w, h) (w, h)) by done. destruct (pack_entries _ _ _ _ _) as [d|e|] eqn:E.
  - rewrite (st_bind_Ok _ _ _ (w, h) d) by done. pose proof (HeapAllocate_count d h). unfold on_heap, zoom. cbn [snd].
    by destruct (HeapAllocate d h).
  - rewrite (st_bind_Err _ _ _ (w, h) e) by done. split; [cbn [fst snd]; lia|done].
  - rewrite (st_bind_Panic _ _ _ (w, h)) by done. split; [cbn [fst snd]; lia|done].
Qed.
Lemma place_header_count lv root w h : blen (hw_allocations (place_header lv root (w, h)).1.2) ≤ blen (hw_allocations h) + 1.
Proof.
  unfold place_header. rewrite (st_bind_Ok get _ _ (w, h) (w, h)) by done. set (d := bth_header_bytes _ _ _ _).
  pose proof (HeapAllocate_count d h) as Hc.
  destruct (HeapAllocate d h) as [h' r] eqn:E. assert (on_heap (HeapAllocate d) (w, h) = ((w, h'), r)) as E' by (unfold on_heap, zoom; cbn [snd]; by rewrite E).
  unfold mbind, ST_bind. rewrite E'. by destruct r.
Qed.
Lemma BTHBuild_count depth w h : bth_wf w → blen (bw_entries w) ≤ max_leaf_entries w →
  blen (hw_allocations (BTHBuild depth (w, h)).1.2) ≤ blen (hw_allocations h) + 2.
Proof.
  intros Hw Hl. destruct (bw_range w Hw) as (? & ? & ?). unfold BTHBuild. rewrite (st_bind_Ok get _ _ (w, h) (w, h)) by done. cbn [fst].
  destruct (bw_entries w) as [|e0 rest] eqn:Ee; [pose proof (place_header_count 0 0 w h); unfold createEmptyBTH; lia|]. rewrite <- Ee in *.
  set (w' := set_entries w (merge_sort entry_le (bw_entries w))). rewrite (st_bind_Ok _ _ (w, h) (w', h) tt) by done.
  rewrite u8_small, (proj2 (Z.eqb_neq _ _)) by lia. fold (max_leaf_entries w). rewrite (proj2 (Z.leb_le _ _) Hl).
  unfold buildSingleLevel. rewrite (st_bind_Ok get _ _ (w', h) (w', h)) by done. cbn [fst].
  destruct (place_leaf_count (bw_entries w') w' h) as [Hc Hw']. unfold mbind, ST_bind.
  destruct (place_leaf _ _) as [[w2 h2] [hid|e|]]; cbn [fst snd] in *; subst w2; [|lia|lia].
  pose proof (place_header_count 0 hid w' h2). lia.
Qed.
Lemma bth_build_lookup_aux w h depth :
  bth_wf w → bw_entries w ≠ [] → blen (bw_entries w) ≤ max_leaf_entries w → (length (bw_entries w) ≤ depth)%nat →
  heap_next h →
  ∃ h' hid, BTHBuild depth (w, h) = ((set_entries w (sorted_entries w), h'), Ok hid) ∧
    heap_grows h h' ∧ blen (hw_allocations h') ≤ blen (hw_allocations h) + 2 ∧
    (blen (hw_allocations h') < 2046 →
     ∀ (Hp : Type) (Hrd : HeapReader Hp) (heap : Hp), holds heap h' →
     ∃ b, NewBTH heap hid = Ok b ∧ Entries b = map (λ e, Ok (mkBTHEntry e.1 e.2)) (sorted_entries w) ∧
       ∀ key, blen key = bw_keySize w → BTH_Lookup b key =
         match bw_map w !! key with Some v => Ok v | None => Err (EFmt "key not found in BTH" []) end).
Proof.
  intros Hw Hne Hl Hd Hh. destruct (BTHBuild_Ok depth w h Hw Hne Hd) as (h' & hid & m & root & E & Hg & Hin & Ht & Hf & Hm).
  rewrite (proj2 (Z.leb_le _ _) Hl) in Hin, Hm. subst m. exists h', hid. split; [done|]. split; [done|].
  pose proof (BTHBuild_count depth w h Hw Hl) as Hc. rewrite E in Hc. split; [done|]. intros Hn Hp Hrd heap Hh'.
  pose proof (tree_root_nonzero _ _ _ _ _ _ (proj2 Hg Hh) Hn Ht) as Hr.
  exists (mkBTH heap (mkBTHHeader HeapSigBTH (bw_keySize w) (bw_dataSize w) 0 root)).
  split; [apply NewBTH_header; [by eapply holds_in|done]|].
  destruct (bw_range w Hw) as (? & ? & ?).
  destruct (bth_reads_tree_aux (mkBTH heap (mkBTHHeader HeapSigBTH (bw_keySize w) (bw_dataSize w) 0 root))
    (bw_keySize w) (bw_dataSize w) 0 (sorted_entries w)) as (HL & _ & HE); [done|done|lia|done|lia| | |].
  - eapply bth_tree_mono; [|exact Ht]. intros hid' d. by apply holds_in.
  - apply sort_strict, Hw.
  - split; [done|]. intros key Hk. rewrite HL by done. by rewrite lookup_key_sorted.
Qed.

(** C24: What the writer builds is what the reader finds: for a writer with at
    most one leaf of entries, building succeeds in any heap writer, and in
    every heap that gives back the allocations the tree under the returned ID
    opens and answers every lookup from the map of the writer. *)
Theorem bth_build_lookup w h depth :
  bth_wf w → bw_entries w ≠ [] → blen (bw_entries w) ≤ max_leaf_entries w → (length (bw_entries w) ≤ depth)%nat →
  heap_next h →
  ∃ h' hid, BTHBuild depth (w, h) = ((set_entries w (sorted_entries w), h'), Ok hid) ∧
    (blen (hw_allocations h') < 2046 →
     ∀ (Hp : Type) (Hrd : HeapReader Hp) (heap : Hp), holds heap h' →
     ∃ b, NewBTH heap hid = Ok b ∧ Entries b = map (λ e, Ok (mkBTHEntry e.1 e.2)) (sorted_entries w) ∧
       ∀ key, blen key = bw_keySize w → BTH_Lookup b key =
         match bw_map w !! key with Some v => Ok v | None => Err (EFmt "key not found in BTH" []) end).
Proof.
  intros Hw Hne Hl Hd Hh. destruct (bth_build_lookup_aux w h depth Hw Hne Hl Hd Hh) as (h' & hid & E & _ & _ & H). by exists h', hid.
Qed.
Lemma bth_build_lookup_witness :
  ∃ h' hid, BTHBuild 2 (sample_bth, NewHeapWriter HeapSigPC FormatUnicode) = ((set_entries sample_bth (sorted_entries sample_bth), h'), Ok hid) ∧
    (blen (hw_allocations h') < 2046 →
     ∀ (Hp : Type) (Hrd : HeapReader Hp) (heap : Hp), holds heap h' →
     ∃ b, NewBTH heap hid = Ok b ∧ Entries b = map (λ e, Ok (mkBTHEntry e.1 e.2)) (sorted_entries sample_bth) ∧
       ∀ key, blen key = 2 → BTH_Lookup b key =
         match bw_map sample_bth !! key with Some v => Ok v | None => Err (EFmt "key not found in BTH" []) end).
Proof.
  refine (bth_build_lookup sample_bth (NewHeapWriter HeapSigPC FormatUnicode) 2 sample_bth_wf _ _ _ _).
  - done.
  - by vm_compute.
  - done.
  - apply heap_next_new.
Defined.

(** With more entries than one leaf holds, the header the writer builds is
    wrong: the tree under its root has some height [m] of at least one and all
    the entries, but the header counts [m + 1] levels, so a search goes on from
    a leaf as if it were an index node. *)
Theorem bth_level_one_too_many w h depth :
  bth_wf w → max_leaf_entries w < blen (bw_entries w) → (length (bw_entries w) ≤ depth)%nat →
  ∃ h' hid m root, BTHBuild depth (w, h) = ((set_entries w (sorted_entries w), h'), Ok hid) ∧ (1 ≤ m)%nat ∧
    bth_tree (in_heap h') (bw_keySize w) (bw_dataSize w) m root (sorted_entries w) ∧
    ∀ (Hp : Type) (Hrd : HeapReader Hp) (heap : Hp), holds heap h' →
      NewBTH heap hid = Ok (mkBTH heap (mkBTHHeader HeapSigBTH (bw_keySize w) (bw_dataSize w) (u8 (1 + Z.of_nat m)) root)).
Proof.
  intros Hw Hl Hd. assert (bw_entries w ≠ []) as Hne.
  { intros E. rewrite E in Hl. change (blen []) with 0 in Hl. destruct (bw_range w Hw) as (? & ? & ?).
    assert (0 ≤ max_leaf_entries w) by (apply Z.div_pos; unfold HeapMaxAllocSize; lia). lia. }
  destruct (BTHBuild_Ok depth w h Hw Hne Hd) as (h' & hid & m & root & E & Hg & Hin & Ht & Hf & Hm).
  rewrite (proj2 (Z.leb_gt _ _) Hl) in Hin, Hm. exists h', hid, m, root. do 3 (split; [done|]).
  intros Hp Hrd heap Hh. apply NewBTH_header; [by eapply holds_in|done].
Qed.
(** 448 properties: one more than a leaf holds. *)
Definition many_props : BTHWriter :=
  mkBTHWriter 2 6 (map (λ i, (le_enc 2 (Z.of_nat i), zeros 6)) (seq 1 448)) FormatUnicode.
Lemma many_props_wf : bth_wf many_props.
Proof.
  split.
  - apply (bool_decide_unpack _). by vm_compute.
  - apply (bool_decide_unpack _). by vm_compute.
  - by vm_compute.
Qed.
Lemma bth_level_one_too_many_witness :
  ∃ h' hid m root,
    BTHBuild 448 (many_props, NewHeapWriter HeapSigPC FormatUnicode) = ((set_entries many_props (sorted_entries many_props), h'), Ok hid) ∧
    (1 ≤ m)%nat ∧ bth_tree (in_heap h') 2 6 m root (sorted_entries many_props) ∧
    ∀ (Hp : Type) (Hrd : HeapReader Hp) (heap : Hp), holds heap h' →
      NewBTH heap hid = Ok (mkBTH heap (mkBTHHeader HeapSigBTH 2 6 (u8 (1 + Z.of_nat m)) root)).
Proof.
  refine (bth_level_one_too_many many_props (NewHeapWriter HeapSigPC FormatUnicode) 448 many_props_wf _ _).
  - by vm_compute.
  - by vm_compute.
Defined.
(** The search then fails on a property that is there. *)
Example many_props_lookup :
  match BTHBuild 448 (many_props, NewHeapWriter HeapSigPC FormatUnicode) with
  | ((w, h), Ok hid) =>
    match NewBTH (hw_allocations h) hid with
    | Ok b => bool_decide (bw_map w !! le_enc 2 7 = Some (zeros 6)) && match LookupUint16 b 7 with Err _ => true | _ => false end
    | _ => false
    end
  | _ => false
  end = true.
Proof. by vm_compute. Qed.
