(* ===== verification/Text.v ===== *)
(** * Strings and UTF-16

    Models [encodeUTF16LE] and [decodeUTF16LE] of [pkg/ltp] with what they use
    of Go: the conversions between strings and runes (UTF-8) and the package
    [unicode/utf16].  A Go string is its bytes. *)
From S2P Require Import Prelude.

Definition runeError : Z := 0xFFFD.
Definition maxRune : Z := 0x10FFFF.
(** A Unicode scalar value: what a rune of a valid string is. *)
Definition scalar (r : Z) : Prop := 0 ≤ r < 0xD800 ∨ 0xE000 ≤ r ≤ maxRune.
Definition scalarb (r : Z) : bool := ((0 <=? r) && (r <? 0xD800)) || ((0xE000 <=? r) && (r <=? maxRune)).
Lemma scalarb_spec r : scalarb r = true ↔ scalar r.
Proof. unfold scalarb, scalar. lia. Qed.

(** ** UTF-8: [[]rune(s)] and [string(runes)] *)

Definition cont (b : Z) : bool := (0x80 <=? b) && (b <=? 0xBF).
(** The first rune of a string with its width; an invalid byte counts as one
    [runeError]. *)
Definition decode_rune (b0 : Z) (s : bytes) : Z * nat :=
  let bad := (runeError, 1%nat) in
  if b0 <? 0x80 then (b0, 1%nat)
  else if (0xC0 <=? b0) && (b0 <? 0xE0) then
    match s with
    | b1 :: _ => if cont b1 then let r := b0 mod 32 * 64 + b1 mod 64 in if 0x7F <? r then (r, 2%nat) else bad else bad
    | _ => bad
    end
  else if (0xE0 <=? b0) && (b0 <? 0xF0) then
    match s with
    | b1 :: b2 :: _ =>
      if cont b1 && cont b2 then
        let r := b0 mod 16 * 4096 + b1 mod 64 * 64 + b2 mod 64 in
        if (0x7FF <? r) && negb ((0xD800 <=? r) && (r <=? 0xDFFF)) then (r, 3%nat) else bad
      else bad
    | _ => bad
    end
  else if (0xF0 <=? b0) && (b0 <? 0xF8) then
    match s with
    | b1 :: b2 :: b3 :: _ =>
      if cont b1 && cont b2 && cont b3 then
        let r := b0 mod 8 * 262144 + b1 mod 64 * 4096 + b2 mod 64 * 64 + b3 mod 64 in
        if (0xFFFF <? r) && (r <=? maxRune) then (r, 4%nat) else bad
      else bad
    | _ => bad
    end
  else bad.
(** [skip]: bytes of the current rune still to pass over. *)
Fixpoint runes_from (skip : nat) (s : bytes) : list Z :=
  match s with
  | [] => []
  | b :: s =>
    match skip with
    | S k => runes_from k s
    | O => let '(r, w) := decode_rune b s in r :: runes_from (pred w) s
    end
  end.
Definition to_runes : bytes → list Z := runes_from 0.

Definition encode_rune (r : Z) : bytes :=
  if (0 <=? r) && (r <? 0x80) then [r]
  else if (0 <=? r) && (r <? 0x800) then [0xC0 + r / 64; 0x80 + r mod 64]
  else
    let r := if scalarb r then r else runeError in
    if r <? 0x10000 then [0xE0 + r / 4096; 0x80 + r / 64 mod 64; 0x80 + r mod 64]
    else [0xF0 + r / 262144; 0x80 + r / 4096 mod 64; 0x80 + r / 64 mod 64; 0x80 + r mod 64].
Definition of_runes (rs : list Z) : bytes := concat (map encode_rune rs).

(** ** [unicode/utf16] *)
Definition utf16_rune (r : Z) : list Z :=
  if negb (scalarb r) then [runeError]
  else if r <? 0x10000 then [r]
  else [0xD800 + (r - 0x10000) / 1024; 0xDC00 + (r - 0x10000) mod 1024].
Definition utf16_encode (rs : list Z) : list Z := concat (map utf16_rune rs).
Definition high_surrogate (u : Z) : bool := (0xD800 <=? u) && (u <? 0xDC00).
Definition low_surrogate (u : Z) : bool := (0xDC00 <=? u) && (u <? 0xE000).
Fixpoint utf16_decode (us : list Z) : list Z :=
  match us with
  | [] => []
  | u :: us =>
    if (u <? 0xD800) || (0xE000 <=? u) then u :: utf16_decode us
    else if high_surrogate u then
      match us with
      | v :: us' => if low_surrogate v then (u - 0xD800) * 1024 + (v - 0xDC00) + 0x10000 :: utf16_decode us'
                    else runeError :: utf16_decode us
      | [] => runeError :: utf16_decode us
      end
    else runeError :: utf16_decode us
  end.

(** ** UTF-16LE with a terminator *)
Definition encodeUTF16LE (s : bytes) : bytes :=
  let u16s := utf16_encode (to_runes s) ++ [0] in
  concat (map (le_enc 2) u16s).
(** The words of the buffer; an odd last byte is dropped. *)
Fixpoint words16 (data : bytes) : list Z :=
  match data with
  | a :: b :: data => le_dec [a; b] :: words16 data
  | _ => []
  end.
Definition strip_nul (us : list Z) : list Z :=
  match last us with
  | Some u => if u =? 0 then removelast us else us
  | None => us
  end.
Definition decodeUTF16LE (data : bytes) : bytes := of_runes (utf16_decode (strip_nul (words16 data))).
Definition hasNullTerminator16 (data : bytes) : result bool :=
  if blen data <? 2 then Ok false else
  a ← index data (blen data - 2); b ← index data (blen data - 1); mret ((a =? 0) && (b =? 0)).

(** ** UTF-8 round trip *)
Lemma decode_encode_rune r s : scalar r →
  ∃ b bs, encode_rune r = b :: bs ∧ decode_rune b (bs ++ s) = (r, S (length bs)).
Proof.
  intros Hr. unfold encode_rune. rewrite (proj2 (scalarb_spec r) Hr). unfold scalar, maxRune in Hr.
  destruct (Z.ltb_spec r 0x80); [zdecide; eexists _, _; split; [done|]; cbn [app length]; unfold decode_rune; by zdecide|].
  destruct (Z.ltb_spec r 0x800); [|destruct (Z.ltb_spec r 0x10000)].
  - zdecide. eexists _, _. split; [done|]. cbn [app length]. unfold decode_rune, cont. zdecide.
    replace ((0xC0 + r / 64) mod 32 * 64 + (0x80 + r mod 64) mod 64) with r by divlia. by zdecide.
  - zdecide. eexists _, _. split; [done|]. cbn [app length]. unfold decode_rune, cont. zdecide.
    replace ((0xE0 + r / 4096) mod 16 * 4096 + (0x80 + r / 64 mod 64) mod 64 * 64 + (0x80 + r mod 64) mod 64) with r by divlia.
    replace ((0xD800 <=? r) && (r <=? 0xDFFF)) with false by lia. by zdecide.
  - zdecide. eexists _, _. split; [done|]. cbn [app length]. unfold decode_rune, cont. zdecide.
    replace ((0xF0 + r / 262144) mod 8 * 262144 + (0x80 + r / 4096 mod 64) mod 64 * 4096 +
             (0x80 + r / 64 mod 64) mod 64 * 64 + (0x80 + r mod 64) mod 64) with r by divlia.
    unfold maxRune. by zdecide.
Qed.
Lemma runes_from_skip l s : runes_from (length l) (l ++ s) = to_runes s.
Proof. induction l as [|b l IH]; [done|]. cbn [length app runes_from]. done. Qed.
Lemma to_of_runes rs : Forall scalar rs → to_runes (of_runes rs) = rs.
Proof.
  induction 1 as [|r rs Hr _ IH]; [done|]. unfold of_runes in *. cbn [map concat].
  destruct (decode_encode_rune r (concat (map encode_rune rs)) Hr) as (b & bs & -> & E).
  unfold to_runes. cbn [app runes_from]. rewrite E. cbn [pred]. by rewrite runes_from_skip, IH.
Qed.
(** Whatever the bytes, the runes of a string are scalar values. *)
Lemma decode_rune_scalar b s : 0 ≤ b → scalar (decode_rune b s).1.
Proof.
  intros Hb. assert (scalar (runeError, 1%nat).1) by (by right).
  unfold decode_rune. cbv zeta. destruct (Z.ltb_spec b 0x80); [left; cbn [fst]; lia|].
  destruct ((0xC0 <=? b) && (b <? 0xE0)); [|destruct ((0xE0 <=? b) && (b <? 0xF0)); [|destruct ((0xF0 <=? b) && (b <? 0xF8)); [|done]]].
  - destruct s as [|b1 s]; [done|]. destruct (cont b1); [|done].
    destruct (Z.ltb_spec 0x7F (b mod 32 * 64 + b1 mod 64)); [left; cbn [fst]; divlia|done].
  - destruct s as [|b1 [|b2 s]]; [done|done|]. destruct (cont b1 && cont b2); [|done]. set (r := _ + b2 mod 64).
    destruct ((0x7FF <? r) && _) eqn:E; [|done]. assert (r ≤ 0xFFFF) by (subst r; clear E; divlia). unfold scalar, maxRune. cbn [fst]. lia.
  - destruct s as [|b1 [|b2 [|b3 s]]]; [done|done|done|]. destruct (cont b1 && cont b2 && cont b3); [|done].
    destruct ((0xFFFF <? _) && (_ <=? _)) eqn:E; [|done]. right. cbn [fst]. lia.
Qed.
Lemma runes_scalar s : bytes_ok s → ∀ skip, Forall scalar (runes_from skip s).
Proof.
  induction 1 as [|b s Hb _ IH]; intros skip; [constructor|]. cbn [runes_from]. destruct skip as [|k]; [|apply IH].
  pose proof (decode_rune_scalar b s ltac:(destruct Hb; lia)) as Hr. destruct (decode_rune b s) as [r w]. by constructor.
Qed.

(** ** UTF-16 round trip *)
Lemma utf16_rune_decode r us : scalar r → utf16_decode (utf16_rune r ++ us) = r :: utf16_decode us.
Proof.
  intros Hr. unfold utf16_rune. rewrite (proj2 (scalarb_spec r) Hr). cbn [negb]. unfold scalar, maxRune in Hr.
  destruct (Z.ltb_spec r 0x10000); cbn [app utf16_decode].
  - by replace ((r <? 0xD800) || (0xE000 <=? r)) with true by divlia.
  - assert (0 ≤ (r - 0x10000) / 1024 < 1024) by divlia. pose proof (Z.mod_pos_bound (r - 0x10000) 1024 ltac:(lia)).
    unfold high_surrogate, low_surrogate. zdecide. f_equal. divlia.
Qed.
Lemma utf16_roundtrip rs : Forall scalar rs → utf16_decode (utf16_encode rs) = rs.
Proof.
  unfold utf16_encode. induction 1 as [|r rs Hr _ IH]; [done|]. cbn [map concat]. by rewrite utf16_rune_decode, IH.
Qed.
Lemma utf16_rune_words r : scalar r → Forall (fits 16) (utf16_rune r).
Proof.
  intros Hr. unfold utf16_rune. rewrite (proj2 (scalarb_spec r) Hr). cbn [negb]. unfold scalar, maxRune in Hr.
  destruct (Z.ltb_spec r 0x10000); repeat constructor; unfold fits; divlia.
Qed.
Lemma utf16_words rs : Forall scalar rs → Forall (fits 16) (utf16_encode rs).
Proof.
  unfold utf16_encode. induction 1 as [|r rs Hr _ IH]; [constructor|]. cbn [map concat]. apply Forall_app.
  split; [by apply utf16_rune_words|done].
Qed.
Lemma words16_enc us : Forall (fits 16) us → words16 (concat (map (le_enc 2) us)) = us.
Proof.
  induction 1 as [|u us Hu _ IH]; [done|]. cbn [map concat]. change (le_enc 2 u) with [u mod 256; u / 256 mod 256] at 1.
  cbn [app words16]. f_equal; [|done]. change (le_dec (le_enc 2 u) = u). by apply le_dec_enc_fits.
Qed.
Lemma strip_nul_snoc us : strip_nul (us ++ [0]) = us.
Proof. unfold strip_nul. rewrite last_snoc. cbn. apply removelast_last. Qed.

Lemma encode_decode_UTF16LE s : bytes_ok s → decodeUTF16LE (encodeUTF16LE s) = of_runes (to_runes s).
Proof.
  intros Hs. pose proof (runes_scalar s Hs 0) as Hr. unfold decodeUTF16LE, encodeUTF16LE. rewrite words16_enc.
  - rewrite strip_nul_snoc. by rewrite utf16_roundtrip.
  - apply Forall_app. split; [by apply utf16_words|]. by repeat constructor.
Qed.

