(* ===== verification/PropType.v ===== *)
(** * Property types, property IDs and FILETIME

    Models [pkg/ltp/property.go]. *)
From S2P Require Import Prelude.

(** ** Property types *)
Definition PropTypeUnspecified : Z := 0x0000.
Definition PropTypeNull : Z := 0x0001.
Definition PropTypeInt16 : Z := 0x0002.
Definition PropTypeInt32 : Z := 0x0003.
Definition PropTypeFloat32 : Z := 0x0004.
Definition PropTypeFloat64 : Z := 0x0005.
Definition PropTypeCurrency : Z := 0x0006.
Definition PropTypeAppTime : Z := 0x0007.
Definition PropTypeError : Z := 0x000A.
Definition PropTypeBool : Z := 0x000B.
Definition PropTypeObject : Z := 0x000D.
Definition PropTypeInt64 : Z := 0x0014.
Definition PropTypeString8 : Z := 0x001E.
Definition PropTypeString : Z := 0x001F.
Definition PropTypeSysTime : Z := 0x0040.
Definition PropTypeGUID : Z := 0x0048.
Definition PropTypeBinary : Z := 0x0102.
Definition PropTypeMVInt16 : Z := 0x1002.
Definition PropTypeMVInt32 : Z := 0x1003.
Definition PropTypeMVFloat32 : Z := 0x1004.
Definition PropTypeMVFloat64 : Z := 0x1005.
Definition PropTypeMVCurrency : Z := 0x1006.
Definition PropTypeMVAppTime : Z := 0x1007.
Definition PropTypeMVInt64 : Z := 0x1014.
Definition PropTypeMVString8 : Z := 0x101E.
Definition PropTypeMVString : Z := 0x101F.
Definition PropTypeMVSysTime : Z := 0x1040.
Definition PropTypeMVGUID : Z := 0x1048.
Definition PropTypeMVBinary : Z := 0x1102.

Definition IsMultiValued (pt : Z) : bool := negb (Z.land pt 0x1000 =? 0).
Definition BaseType (pt : Z) : Z := Z.ldiff pt 0x1000.
Definition FixedSize (pt : Z) : Z :=
  let b := BaseType pt in
  if (b =? PropTypeInt16) || (b =? PropTypeBool) || (b =? PropTypeError) then 2
  else if (b =? PropTypeInt32) || (b =? PropTypeFloat32) then 4
  else if (b =? PropTypeFloat64) || (b =? PropTypeCurrency) || (b =? PropTypeAppTime) || (b =? PropTypeInt64) || (b =? PropTypeSysTime) then 8
  else if b =? PropTypeGUID then 16
  else 0.
Definition IsVariable (pt : Z) : bool := FixedSize pt =? 0.
Definition IsFixedSize (pt : Z) : bool := 0 <? FixedSize pt.

(** ** Property IDs *)
Definition PidTagSubject : Z := 0x0037.
Definition PidTagSubjectPrefix : Z := 0x003D.
Definition PidTagNormalizedSubject : Z := 0x0E1D.
Definition PidTagBody : Z := 0x1000.
Definition PidTagHtmlBody : Z := 0x1013.
Definition PidTagRtfCompressed : Z := 0x1009.
Definition PidTagImportance : Z := 0x0017.
Definition PidTagPriority : Z := 0x0026.
Definition PidTagSensitivity : Z := 0x0036.
Definition PidTagMessageClass : Z := 0x001A.
Definition PidTagMessageFlags : Z := 0x0E07.
Definition PidTagMessageSize : Z := 0x0E08.
Definition PidTagMessageStatus : Z := 0x0E17.
Definition PidTagHasAttachments : Z := 0x0E1B.
Definition PidTagCreationTime : Z := 0x3007.
Definition PidTagLastModificationTime : Z := 0x3008.
Definition PidTagMessageDeliveryTime : Z := 0x0E06.
Definition PidTagClientSubmitTime : Z := 0x0039.
Definition PidTagSentRepresentingName : Z := 0x0042.
Definition PidTagSentRepresentingEmailAddress : Z := 0x0065.
Definition PidTagSenderName : Z := 0x0C1A.
Definition PidTagSenderEmailAddress : Z := 0x0C1F.
Definition PidTagSenderAddressType : Z := 0x0C1E.
Definition PidTagDisplayTo : Z := 0x0E04.
Definition PidTagDisplayCc : Z := 0x0E03.
Definition PidTagDisplayBcc : Z := 0x0E02.
Definition PidTagConversationTopic : Z := 0x0070.
Definition PidTagConversationIndex : Z := 0x0071.
Definition PidTagInternetMessageId : Z := 0x1035.
Definition PidTagDisplayName : Z := 0x3001.
Definition PidTagContentCount : Z := 0x3602.
Definition PidTagContentUnreadCount : Z := 0x3603.
Definition PidTagSubfolders : Z := 0x360A.
Definition PidTagContainerClass : Z := 0x3613.
Definition PidTagFolderType : Z := 0x3601.
Definition PidTagDepth : Z := 0x3005.
Definition PidTagAttachFilename : Z := 0x3704.
Definition PidTagAttachLongFilename : Z := 0x3707.
Definition PidTagAttachExtension : Z := 0x3703.
Definition PidTagAttachSize : Z := 0x0E20.
Definition PidTagAttachMethod : Z := 0x3705.
Definition PidTagAttachDataBinary : Z := 0x3701.
Definition PidTagAttachDataObject : Z := 0x3701.
Definition PidTagAttachMimeTag : Z := 0x370E.
Definition PidTagAttachContentId : Z := 0x3712.
Definition PidTagAttachNumber : Z := 0x0E21.
Definition PidTagRenderingPosition : Z := 0x370B.
Definition PidTagRecipientType : Z := 0x0C15.
Definition PidTagEmailAddress : Z := 0x3003.
Definition PidTagSmtpAddress : Z := 0x39FE.
Definition PidTagAddressType : Z := 0x3002.
Definition PidTagRecipientDisplayName : Z := 0x5FF6.
Definition PidTagRowId : Z := 0x3000.
Definition PidTagLtpRowId : Z := 0x67F2.
Definition PidTagLtpRowVer : Z := 0x67F3.
Definition NamedPropertyRangeStart : Z := 0x8000.
Definition NamedPropertyRangeEnd : Z := 0xFFFE.

Definition PropID_names : list (Z * string) :=
  [ (PidTagSubject, "PidTagSubject"%string);
    (PidTagBody, "PidTagBody"%string);
    (PidTagHtmlBody, "PidTagHtmlBody"%string);
    (PidTagMessageClass, "PidTagMessageClass"%string);
    (PidTagCreationTime, "PidTagCreationTime"%string);
    (PidTagLastModificationTime, "PidTagLastModificationTime"%string);
    (PidTagDisplayName, "PidTagDisplayName"%string);
    (PidTagContentCount, "PidTagContentCount"%string);
    (PidTagAttachFilename, "PidTagAttachFilename"%string);
    (PidTagAttachSize, "PidTagAttachSize"%string);
    (PidTagEmailAddress, "PidTagEmailAddress"%string);
    (PidTagSenderName, "PidTagSenderName"%string) ].
Definition PropID_String (id : Z) : string :=
  match List.find (λ p, p.1 =? id) PropID_names with Some p => p.2 | None => EmptyString end.
Definition IsNamedProperty (id : Z) : bool := (NamedPropertyRangeStart <=? id) && (id <=? NamedPropertyRangeEnd).

(** ** FILETIME *)
(** A [time.Time] in UTC: nanoseconds since the Unix epoch.  The zero Time is the
    first instant of the year 1. *)
Abbreviation Time := Z (only parsing).
Definition zeroTime : Time := - 62135596800 * 10 ^ 9.
Definition IsZero (t : Time) : bool := t =? zeroTime.
(** [UnixNano] wraps outside of the years 1678 to 2262. *)
Definition UnixNano (t : Time) : Z := i64 t.
Definition filetimeEpochDiff : Z := 116444736000000000.
Definition FileTimeToTime (ft : Z) : Time :=
  if ft <? filetimeEpochDiff then zeroTime
  else i64 (i64 (i64 ft - filetimeEpochDiff) * 100).
Definition TimeToFileTime (t : Time) : Z :=
  if IsZero t then 0
  else u64 (i64 (Z.quot (UnixNano t) 100 + filetimeEpochDiff)).

Lemma i64_range z : - 2 ^ 63 ≤ i64 z < 2 ^ 63.
Proof. unfold i64. pose proof (Z.mod_pos_bound (z + 2 ^ 63) (2 ^ 64)). lia. Qed.
Lemma i64_small z : - 2 ^ 63 ≤ z < 2 ^ 63 → i64 z = z.
Proof. intros. unfold i64. rewrite Z.mod_small by lia. lia. Qed.
Lemma i64_eq z : ∃ k, i64 z = z + k * 2 ^ 64.
Proof. unfold i64. exists (- ((z + 2 ^ 63) / 2 ^ 64)). rewrite Z.mod_eq by lia. lia. Qed.
Lemma i64_idem z : i64 (i64 z) = i64 z.
Proof. apply i64_small, i64_range. Qed.

(** C28: A FILETIME survives the conversion to a time and back exactly when it
    is zero or lies between the Unix epoch and the end of the 64-bit nanosecond
    range in 2262: every other one, such as any date before 1970, is lost. *)
Theorem filetime_roundtrip_iff ft :
  fits 64 ft → TimeToFileTime (FileTimeToTime ft) = ft ↔
    ft = 0 ∨ filetimeEpochDiff ≤ ft ∧ (ft - filetimeEpochDiff) * 100 < 2 ^ 63.
Proof.
  intros [H0 H1]. unfold FileTimeToTime, TimeToFileTime, UnixNano. destruct (Z.ltb_spec ft filetimeEpochDiff) as [Hlt|Hge].
  - change (IsZero zeroTime) with true. cbv iota. lia.
  - unfold IsZero. pose proof (i64_range (i64 (i64 ft - filetimeEpochDiff) * 100)) as Hr.
    rewrite (proj2 (Z.eqb_neq _ _)) by (unfold zeroTime; lia). rewrite i64_idem.
    unfold filetimeEpochDiff in *. set (n := i64 (i64 (i64 ft - 116444736000000000) * 100)) in *.
    rewrite (i64_small (Z.quot n 100 + _)) by (Z.to_euclidean_division_equations; lia).
    destruct (i64_eq ft) as [a Ea]. destruct (i64_eq (i64 ft - 116444736000000000)) as [b Eb].
    destruct (i64_eq (i64 (i64 ft - 116444736000000000) * 100)) as [c Ec]. fold n in Ec.
    pose proof (i64_range ft). pose proof (i64_range (i64 ft - 116444736000000000)).
    unfold u64. change 18446744073709551616 with (2 ^ 64). split.
    + intros E. right. split; [lia|]. pose proof (Z.mod_eq (Z.quot n 100 + 116444736000000000) (2 ^ 64) ltac:(lia)) as Hm. rewrite E in Hm.
      Z.to_euclidean_division_equations. lia.
    + intros [->|[_ Hlt]]; [lia|]. assert (n = (ft - 116444736000000000) * 100) as ->.
      { subst n. rewrite (i64_small ft) by lia. rewrite (i64_small (ft - _)) by lia. apply i64_small. lia. }
      rewrite Z.quot_mul by lia. rewrite Z.mod_small by lia. lia.
Qed.
Lemma filetime_roundtrip_iff_witness :
  TimeToFileTime (FileTimeToTime 133000000000000000) = 133000000000000000 ↔
    133000000000000000 = 0 ∨ filetimeEpochDiff ≤ 133000000000000000 ∧ (133000000000000000 - filetimeEpochDiff) * 100 < 2 ^ 63.
Proof. apply (filetime_roundtrip_iff 133000000000000000). split; [done|reflexivity]. Defined.
