(* ===== verification/PropBag.v ===== *)
(** * Property contexts

    Models [pkg/ltp/propbag.go] and [pkg/ltp/propbag_write.go]: the properties of
    a node, read through a B-tree on its heap, and the writer that builds such a
    heap.  Floats are their bits. *)
From S2P Require Import Prelude Format Codec Ids State Database BTree Node Heap BTH Text PropType.

Record PropertyEntry := mkPropertyEntry { PE_PropID : Z; PE_PropType : Z; PE_Value : Z }.

(** ** Reading *)
Section bag.
Context {H : Type} `{HeapReader H} (depth levels : nat).
(** The node of the bag is the state of the calls. *)
Record PropertyBag := mkPropertyBag { pb_heap : H; pb_bth : BTH H }.

Definition Exists (pb : PropertyBag) (id : Z) : result bool :=
  match LookupUint16 (pb_bth pb) id with Ok _ => Ok true | Err _ => Ok false | Panic => Panic end.
Definition GetPropertyEntry (pb : PropertyBag) (id : Z) : result PropertyEntry :=
  match LookupUint16 (pb_bth pb) id with
  | Err _ => Err (EFmt "property not found: 0x%04X" [id])
  | Panic => Panic
  | Ok data =>
    if blen data <? 6 then Err (EFmt "property entry too small: %d bytes" [blen data]) else
    pt ← rd 2 0 data; v ← rd 4 2 data; mret (mkPropertyEntry id pt v)
  end.
(** The loop over the entries; errors are passed over. *)
Fixpoint property_ids (entries : list (result BTHEntry)) : result (list Z) :=
  match entries with
  | [] => Ok []
  | Err _ :: entries => property_ids entries
  | Panic :: _ => Panic
  | Ok e :: entries =>
    if 2 <=? blen (BE_Key e)
    then id ← rd 2 0 (BE_Key e); props ← property_ids entries; mret (id :: props)
    else property_ids entries
  end.
Definition Properties (pb : PropertyBag) : result (list Z) := property_ids (Entries (pb_bth pb)).
Definition GetType (pb : PropertyBag) (id : Z) : result Z := entry ← GetPropertyEntry pb id; mret (PE_PropType entry).

(** [subnode.ReadAll()] on the subnode that the lookup returns. *)
Definition read_subnode (nid : Z) : ST NState bytes :=
  do subnode <- wrap "failed to find subnode 0x%X" (LookupSubnode depth levels nid);
  zoom (λ s : Database * Node, (s.1, subnode)) (λ s t : Database * Node, (t.1, s.2)) (ReadAll depth levels).
Definition readPropertyValue (pb : PropertyBag) (entry : PropertyEntry) : ST NState bytes :=
  let fixedSize := FixedSize (PE_PropType entry) in
  let hnid := PE_Value entry in
  if (0 <? fixedSize) && (fixedSize <=? 4) then lift (slice (le_enc 4 hnid) 0 fixedSize)
  else if IsHeapID hnid then lift (hread (pb_heap pb) (ToHeapID hnid))
  else read_subnode (ToNodeID hnid).
Definition GetRaw (pb : PropertyBag) (id : Z) : ST NState bytes :=
  do entry <- lift (GetPropertyEntry pb id); readPropertyValue pb entry.

(** [n] bytes of the value as an unsigned integer. *)
Definition get_fixed (n : nat) (what : string) (pb : PropertyBag) (id : Z) : ST NState Z :=
  do data <- GetRaw pb id;
  if blen data <? Z.of_nat n then fail (EFmt what [id]) else lift (rd n 0 data).
Definition GetInt16 (pb : PropertyBag) (id : Z) : ST NState Z :=
  do v <- get_fixed 2 "property 0x%04X: insufficient data for int16" pb id; mret (i16 v).
Definition GetInt32 (pb : PropertyBag) (id : Z) : ST NState Z :=
  do v <- get_fixed 4 "property 0x%04X: insufficient data for int32" pb id; mret (i32 v).
Definition GetInt64 (pb : PropertyBag) (id : Z) : ST NState Z :=
  do v <- get_fixed 8 "property 0x%04X: insufficient data for int64" pb id; mret (i64 v).
Definition GetBool (pb : PropertyBag) (id : Z) : ST NState bool :=
  do v <- get_fixed 2 "property 0x%04X: insufficient data for bool" pb id; mret (negb (v =? 0)).
Definition GetTime : PropertyBag → Z → ST NState Z := get_fixed 8 "property 0x%04X: insufficient data for FILETIME".
Definition GetFloat32 : PropertyBag → Z → ST NState Z := get_fixed 4 "property 0x%04X: insufficient data for float32".
Definition GetFloat64 : PropertyBag → Z → ST NState Z := get_fixed 8 "property 0x%04X: insufficient data for float64".
Definition GetCurrency (pb : PropertyBag) (id : Z) : ST NState Z :=
  do v <- get_fixed 8 "property 0x%04X: insufficient data for currency" pb id; mret (i64 v).
Definition GetTimeValue (pb : PropertyBag) (id : Z) : ST NState Time := do ft <- GetTime pb id; mret (FileTimeToTime ft).
Definition GetBinary : PropertyBag → Z → ST NState bytes := GetRaw.
Definition GetGUID (pb : PropertyBag) (id : Z) : ST NState GUID :=
  do data <- GetRaw pb id;
  if blen data <? 16 then fail (EFmt "property 0x%04X: insufficient data for GUID" [id]) else lift (GUIDFromBytes data).
Definition GetString (pb : PropertyBag) (id : Z) : ST NState bytes :=
  do entry <- lift (GetPropertyEntry pb id);
  do data <- readPropertyValue pb entry;
  if PE_PropType entry =? PropTypeString then mret (decodeUTF16LE data)
  else if PE_PropType entry =? PropTypeString8 then mret data
  else if blen data mod 2 =? 0 then
    do nul <- lift (hasNullTerminator16 data); mret (if nul : bool then decodeUTF16LE data else data)
  else mret data.

(** The type and the data of a multi-valued property. *)
Definition get_multi (pb : PropertyBag) (id : Z) : ST NState (Z * bytes) :=
  do entry <- lift (GetPropertyEntry pb id);
  if negb (IsMultiValued (PE_PropType entry)) then fail (EFmt "property 0x%04X: not a multi-value type" [id]) else
  do data <- readPropertyValue pb entry; mret (PE_PropType entry, data).
(** A count followed by values of [size] bytes. *)
Definition fixed_values {A} (what : string) (size : Z) (read : Z → result A) (data : bytes) : result (list A) :=
  if blen data <? 4 then Err (EFmt (what +:+ ": insufficient data for count") []) else
  count ← rd 4 0 data;
  if blen data <? 4 + count * size then Err (EFmt (what +:+ ": insufficient data for values") []) else
  parse_entries read (Z.to_nat count) 4 size.
Definition GetInt32Slice (pb : PropertyBag) (id : Z) : ST NState (list Z) :=
  do d <- get_multi pb id; lift (fixed_values "multi-value int32" 4 (λ off, i32 <$> rd 4 off d.2) d.2).
Definition GetInt64Slice (pb : PropertyBag) (id : Z) : ST NState (list Z) :=
  do d <- get_multi pb id; lift (fixed_values "multi-value int64" 8 (λ off, i64 <$> rd 8 off d.2) d.2).
Definition GetTimeSlice (pb : PropertyBag) (id : Z) : ST NState (list Time) :=
  do d <- get_multi pb id; lift (fixed_values "multi-value time" 8 (λ off, FileTimeToTime <$> rd 8 off d.2) d.2).
Definition GetGUIDSlice (pb : PropertyBag) (id : Z) : ST NState (list GUID) :=
  do d <- get_multi pb id;
  lift (fixed_values "multi-value GUID" 16 (λ off, g ← slice d.2 off (blen d.2); GUIDFromBytes g) d.2).

(** The values between the offsets of a table; [None] where they are out of
    order or out of range. *)
Fixpoint value_ranges (data : bytes) (offsets : list Z) : list (option bytes) :=
  match offsets with
  | [] => []
  | start :: offsets =>
    let stop := match offsets with next :: _ => next | [] => blen data end in
    (if (blen data <=? start) || (blen data <? stop) || (stop <? start) then None else Some (sub data start (stop - start)))
    :: value_ranges data offsets
  end.
(** A count, a table of offsets from the start of the data, the values. *)
Definition variable_values (what : string) (data : bytes) : result (list (option bytes)) :=
  if blen data <? 4 then Err (EFmt (what +:+ ": insufficient data for count") []) else
  count ← rd 4 0 data;
  if count =? 0 then Ok [] else
  if blen data <? 4 + 4 * count then Err (EFmt (what +:+ ": insufficient data for offsets") []) else
  offsets ← parse_entries (λ off, rd 4 off data) (Z.to_nat count) 4 4;
  Ok (value_ranges data offsets).
Definition GetBinarySlice (pb : PropertyBag) (id : Z) : ST NState (list bytes) :=
  do d <- get_multi pb id;
  do vs <- lift (variable_values "multi-value binary" d.2); mret (map (default []) vs).
Definition parseMultiValueStrings (data : bytes) (propType : Z) : result (list bytes) :=
  vs ← variable_values "multi-value string" data;
  mret (map (λ v, match v with
    | None => []
    | Some d => if BaseType propType =? PropTypeString then decodeUTF16LE d else strip_nul d
    end) vs).
Definition GetStringSlice (pb : PropertyBag) (id : Z) : ST NState (list bytes) :=
  do d <- get_multi pb id; lift (parseMultiValueStrings d.2 d.1).
End bag.
Arguments PropertyBag H : clear implicits.

Definition NewPropertyBag (depth levels : nat) : ST NState (PropertyBag HeapOnNode) :=
  do heap <- wrap "failed to create heap" (NewHeapOnNode depth levels);
  do clientSig <- lift (ClientSignature heap);
  if negb (clientSig =? HeapSigPC) then fail (EFmt "invalid PC signature: got 0x%02X, expected 0x%02X" [clientSig; HeapSigPC]) else
  do rootID <- lift (RootID heap);
  do bth <- wrap "failed to create BTH" (lift (NewBTH heap rootID));
  mret (mkPropertyBag heap bth).

(** ** Writing *)
Record propertyData := mkPropertyData { pd_type : Z; pd_value : bytes; pd_hid : Z }.
Record PropertyBagWriter := mkPropertyBagWriter {
  pw_heap : HeapWriter; pw_bth : BTHWriter; pw_format : PSTFormat; pw_properties : gmap Z propertyData }.
Definition NewPropertyBagWriter (format : PSTFormat) : PropertyBagWriter :=
  mkPropertyBagWriter (CreatePropertyContextHeap format) (CreatePropertyContextBTH format) format ∅.
Definition set_props (w : PropertyBagWriter) (ps : gmap Z propertyData) : PropertyBagWriter :=
  mkPropertyBagWriter (pw_heap w) (pw_bth w) (pw_format w) ps.

Definition setFixedProperty (id propType : Z) (value : bytes) : ST PropertyBagWriter unit :=
  modify (λ w, set_props w (<[id := mkPropertyData propType value 0]> (pw_properties w))).
Definition setVariableProperty (id propType : Z) (value : bytes) : ST PropertyBagWriter unit :=
  modify (λ w, set_props w (<[id := mkPropertyData propType value 0]> (pw_properties w))).
Definition SetInt16 (id value : Z) := setFixedProperty id PropTypeInt16 (le_enc 2 (u16 value)).
Definition SetInt32 (id value : Z) := setFixedProperty id PropTypeInt32 (le_enc 4 (u32 value)).
Definition SetInt64 (id value : Z) := setVariableProperty id PropTypeInt64 (le_enc 8 (u64 value)).
Definition SetBool (id : Z) (value : bool) := setFixedProperty id PropTypeBool (le_enc 2 (if value then 1 else 0)).
Definition SetString (id : Z) (value : bytes) := setVariableProperty id PropTypeString (encodeUTF16LE value).
Definition SetString8 (id : Z) (value : bytes) := setVariableProperty id PropTypeString8 (value ++ [0]).
Definition SetBinary (id : Z) (value : bytes) := setVariableProperty id PropTypeBinary value.
Definition SetTime (id : Z) (value : Time) := setVariableProperty id PropTypeSysTime (le_enc 8 (TimeToFileTime value)).
Definition SetFloat32 (id bits : Z) := setFixedProperty id PropTypeFloat32 (le_enc 4 bits).
Definition SetFloat64 (id bits : Z) := setVariableProperty id PropTypeFloat64 (le_enc 8 bits).
Definition SetGUID (id : Z) (value : GUID) : ST PropertyBagWriter unit :=
  do data <- lift (GUID_Bytes value); setVariableProperty id PropTypeGUID data.
Definition DeleteProperty (id : Z) : ST PropertyBagWriter unit := modify (λ w, set_props w (delete id (pw_properties w))).
Definition PropertyCount (w : PropertyBagWriter) : Z := Z.of_nat (size (pw_properties w)).

(** [!prop.propType.IsFixedSize() || len(prop.value) > 4] *)
Definition out_of_line (p : propertyData) : bool := negb (IsFixedSize (pd_type p)) || (4 <? blen (pd_value p)).
Definition on_pheap {A} (m : ST HeapWriter A) : ST PropertyBagWriter A :=
  zoom pw_heap (λ w h, mkPropertyBagWriter h (pw_bth w) (pw_format w) (pw_properties w)) m.
(** The body of the first loop. *)
Definition alloc_property (id : Z) : ST PropertyBagWriter unit :=
  do w <- get;
  match pw_properties w !! id with
  | None => mret tt
  | Some p =>
    if out_of_line p then
      do hid <- wrap "failed to allocate property 0x%04X" (on_pheap (HeapAllocate (pd_value p)));
      modify (λ w, set_props w (<[id := mkPropertyData (pd_type p) (pd_value p) hid]> (pw_properties w)))
    else mret tt
  end.
Definition inline_value (value : bytes) : Z :=
  match value with
  | [a] => a
  | [a; b] => le_dec [a; b]
  | [a; b; c; d] => le_dec [a; b; c; d]
  | _ => 0
  end.
Definition property_record (p : propertyData) : bytes :=
  le_enc 2 (pd_type p) ++ le_enc 4 (if out_of_line p then pd_hid p else inline_value (pd_value p)).
(** The body of the second loop. *)
Definition insert_property (id : Z) : ST PropertyBagWriter unit :=
  do w <- get;
  match pw_properties w !! id with
  | None => mret tt
  | Some p =>
    wrap "failed to insert property 0x%04X"
      (zoom pw_bth (λ w b, mkPropertyBagWriter (pw_heap w) b (pw_format w) (pw_properties w)) (InsertUint16Key id (property_record p)))
  end.
Fixpoint each {S A} (f : A → ST S unit) (l : list A) : ST S unit :=
  match l with [] => mret tt | x :: l => f x ;; each f l end.
(** The two loops range over the map: [order1] and [order2] are the orders in
    which they see its keys. *)
Definition build_tree (depth : nat) (order1 order2 : list Z) : ST PropertyBagWriter Z :=
  each alloc_property order1 ;;
  each insert_property order2 ;;
  wrap "failed to build BTH"
    (zoom (λ w, (pw_bth w, pw_heap w)) (λ w s, mkPropertyBagWriter s.2 s.1 (pw_format w) (pw_properties w)) (BTHBuild depth)).
Definition PropertyBagBuild (depth : nat) (order1 order2 : list Z) : ST PropertyBagWriter bytes :=
  build_tree depth order1 order2 ;; do w <- get; lift (HeapBuild (pw_heap w)).

(** [now] is [time.Now()]. *)
Definition CreateMessagePropertyBag (format : PSTFormat) (subject body : bytes) (sentTime now : Time) : PropertyBagWriter :=
  fst ((SetString PidTagMessageClass (string_bytes "IPM.Note") ;; SetString PidTagSubject subject ;; SetString PidTagBody body ;;
   SetTime PidTagClientSubmitTime sentTime ;; SetTime PidTagCreationTime now ;; SetTime PidTagLastModificationTime now)
  (NewPropertyBagWriter format)).
Definition CreateFolderPropertyBag (format : PSTFormat) (displayName : bytes) (now : Time) : PropertyBagWriter :=
  fst ((SetString PidTagDisplayName displayName ;; SetInt32 PidTagContentCount 0 ;; SetInt32 PidTagContentUnreadCount 0 ;;
   SetBool PidTagSubfolders false ;; SetTime PidTagCreationTime now ;; SetTime PidTagLastModificationTime now)
  (NewPropertyBagWriter format)).

(** ** What a built context holds *)

Record prop_wf (p : propertyData) : Prop := {
  pd_type_fits : fits 16 (pd_type p);
  pd_bytes : bytes_ok (pd_value p);
  pd_fixed : 0 < FixedSize (pd_type p) → blen (pd_value p) = FixedSize (pd_type p);
}.
(** A writer before [Build]: nothing is allocated yet. *)
Record unbuilt (w : PropertyBagWriter) : Prop := {
  ub_next : heap_next (pw_heap w);
  ub_allocs : hw_allocations (pw_heap w) = [];
  ub_entries : bw_entries (pw_bth w) = [];
  ub_key : bw_keySize (pw_bth w) = 2;
  ub_data : bw_dataSize (pw_bth w) = 6;
  ub_props : map_Forall (λ id p, fits 16 id ∧ prop_wf p) (pw_properties w);
}.
Lemma unbuilt_new format : unbuilt (NewPropertyBagWriter format).
Proof. by split. Qed.
Lemma unbuilt_set w id pt value :
  unbuilt w → fits 16 id → prop_wf (mkPropertyData pt value 0) →
  unbuilt (set_props w (<[id := mkPropertyData pt value 0]> (pw_properties w))).
Proof. intros [] Hid Hp. split; try done. cbn. by apply map_Forall_insert_2. Qed.

(** What a property is after its value was given a place in heap [h]. *)
Definition allocated (h : HeapWriter) (p p' : propertyData) : Prop :=
  pd_type p' = pd_type p ∧ pd_value p' = pd_value p ∧ (out_of_line p = true → in_heap h (pd_hid p') (pd_value p)).
Lemma alloc_property_Ok w id p :
  pw_properties w !! id = Some p → (out_of_line p = true → blen (pd_value p) ≤ HeapMaxAllocSize) →
  ∃ h' p', alloc_property id w = (mkPropertyBagWriter h' (pw_bth w) (pw_format w) (<[id := p']> (pw_properties w)), Ok tt) ∧
    heap_grows (pw_heap w) h' ∧ blen (hw_allocations h') ≤ blen (hw_allocations (pw_heap w)) + 1 ∧ allocated h' p p'.
Proof.
  intros Hp Hl. unfold alloc_property. rewrite (st_bind_Ok get _ _ w w) by done. rewrite Hp. destruct (out_of_line p) eqn:Eo.
  - destruct (HeapAllocate_Ok (pd_value p) (pw_heap w)) as (h' & EA & Hg & Hi); [by apply Hl|].
    pose proof (HeapAllocate_count (pd_value p) (pw_heap w)) as Hc. rewrite EA in Hc.
    rewrite (st_bind_Ok (wrap _ _) _ w (mkPropertyBagWriter h' (pw_bth w) (pw_format w) (pw_properties w)) (MakeHeapID 0 (hw_nextAllocID (pw_heap w)))).
    2: { unfold wrap, on_pheap, zoom. by rewrite EA. }
    exists h', (mkPropertyData (pd_type p) (pd_value p) (MakeHeapID 0 (hw_nextAllocID (pw_heap w)))).
    split; [done|]. split; [done|]. split; [done|]. by split.
  - exists (pw_heap w), p. rewrite insert_id by done. split; [by destruct w|]. split; [done|]. split; [lia|]. split; [done|].
    split; [done|]. by rewrite Eo.
Qed.
Lemma allocated_grows h h' p p' : heap_grows h h' → allocated h p p' → allocated h' p p'.
Proof. intros Hg (? & ? & Hi). do 2 (split; [done|]). intros Ho. eapply in_heap_grows; [done|by apply Hi]. Qed.

Lemma alloc_all_Ok order : ∀ w, NoDup order →
  (∀ id, id ∈ order → ∃ p, pw_properties w !! id = Some p ∧ (out_of_line p = true → blen (pd_value p) ≤ HeapMaxAllocSize)) →
  ∃ h' ps', each alloc_property order w = (mkPropertyBagWriter h' (pw_bth w) (pw_format w) ps', Ok tt) ∧
    heap_grows (pw_heap w) h' ∧ blen (hw_allocations h') ≤ blen (hw_allocations (pw_heap w)) + blen order ∧
    ∀ id, if decide (id ∈ order) then option_Forall2 (allocated h') (pw_properties w !! id) (ps' !! id)
          else ps' !! id = pw_properties w !! id.
Proof.
  induction order as [|id order IH]; intros w Hn Hp.
  - exists (pw_heap w), (pw_properties w). split; [by destruct w|]. split; [done|]. split; [autorewrite with blen; lia|].
    intros id. by rewrite decide_False by apply not_elem_of_nil.
  - apply NoDup_cons in Hn as [Hid Hn]. destruct (Hp id) as (p & Ep & Hl); [by left|].
    destruct (alloc_property_Ok w id p Ep Hl) as (h1 & p1 & E1 & G1 & C1 & A1).
    set (w1 := mkPropertyBagWriter h1 _ _ _) in E1. destruct (IH w1 Hn) as (h2 & ps2 & E2 & G2 & C2 & A2).
    { intros id' Hid'. cbn. rewrite lookup_insert_ne by (by intros ->). apply Hp. by right. }
    exists h2, ps2. cbn [each]. rewrite (st_bind_Ok _ _ _ _ _ E1). split; [done|]. split; [by etrans|].
    split; [cbn [w1 pw_heap] in C2; autorewrite with blen; lia|]. intros id'. specialize (A2 id'). cbn [w1 pw_properties] in A2.
    destruct (decide (id' = id)) as [->|Hne].
    + rewrite (decide_False _ _ Hid), lookup_insert_eq in A2. rewrite decide_True by (by left). rewrite Ep, A2. constructor.
      by eapply allocated_grows.
    + rewrite lookup_insert_ne in A2 by done. destruct (decide (id' ∈ order)).
      * by rewrite decide_True by (by right).
      * rewrite decide_False; [done|]. by intros [?|?]%elem_of_cons.
Qed.

Lemma insert_property_Ok w id p :
  pw_properties w !! id = Some p → bth_wf (pw_bth w) → bw_keySize (pw_bth w) = 2 → bw_dataSize (pw_bth w) = 6 →
  ∃ b', insert_property id w = (mkPropertyBagWriter (pw_heap w) b' (pw_format w) (pw_properties w), Ok tt) ∧
    bth_wf b' ∧ bw_map b' = <[le_enc 2 id := property_record p]> (bw_map (pw_bth w)) ∧ bw_keySize b' = 2 ∧ bw_dataSize b' = 6.
Proof.
  intros Hp Hw Ek Ed. unfold insert_property. rewrite (st_bind_Ok get _ _ w w) by done. rewrite Hp.
  pose proof (BTHInsert_spec (pw_bth w) (le_enc 2 id) (property_record p) Hw) as Hi. rewrite Ek, Ed in Hi.
  destruct Hi as (b' & E & ? & ? & ? & ?). exists b'. split; [|done]. unfold wrap, zoom, InsertUint16Key. by rewrite E.
Qed.
Lemma insert_all_Ok order : ∀ w, NoDup order →
  (∀ id, id ∈ order → fits 16 id ∧ is_Some (pw_properties w !! id)) →
  bth_wf (pw_bth w) → bw_keySize (pw_bth w) = 2 → bw_dataSize (pw_bth w) = 6 →
  ∃ b', each insert_property order w = (mkPropertyBagWriter (pw_heap w) b' (pw_format w) (pw_properties w), Ok tt) ∧
    bth_wf b' ∧ bw_keySize b' = 2 ∧ bw_dataSize b' = 6 ∧ (size (bw_map b') ≤ size (bw_map (pw_bth w)) + length order)%nat ∧
    ∀ id, fits 16 id → bw_map b' !! le_enc 2 id =
      if decide (id ∈ order) then property_record <$> pw_properties w !! id else bw_map (pw_bth w) !! le_enc 2 id.
Proof.
  induction order as [|id order IH]; intros w Hn Hp Hw Ek Ed.
  - exists (pw_bth w). split; [by destruct w|]. do 3 (split; [done|]). split; [cbn; lia|]. intros id _.
    by rewrite decide_False by apply not_elem_of_nil.
  - apply NoDup_cons in Hn as [Hid Hn]. destruct (Hp id) as [Hf [p Ep]]; [by left|].
    destruct (insert_property_Ok w id p Ep Hw Ek Ed) as (b1 & E1 & W1 & M1 & K1 & D1).
    set (w1 := mkPropertyBagWriter _ b1 _ _) in E1.
    destruct (IH w1 Hn) as (b2 & E2 & W2 & K2 & D2 & C2 & M2); [|done|done|done|].
    { intros id' Hid'. apply Hp. by right. }
    exists b2. cbn [each]. rewrite (st_bind_Ok _ _ _ _ _ E1). split; [done|]. do 3 (split; [done|]). split.
    + cbn [w1 pw_bth length] in *. rewrite M1, map_size_insert in C2. destruct (bw_map (pw_bth w) !! le_enc 2 id); simpl in C2; lia.
    + intros id' Hf'. rewrite (M2 id' Hf'). cbn [w1 pw_bth pw_properties]. rewrite M1. destruct (decide (id' = id)) as [->|Hne].
      * rewrite (decide_False _ _ Hid), decide_True by (by left). by rewrite lookup_insert_eq, Ep.
      * destruct (decide (id' ∈ order)).
        -- by rewrite decide_True by (by right).
        -- rewrite decide_False by (by intros [?|?]%elem_of_cons). apply lookup_insert_ne. intros E.
           apply (f_equal le_dec) in E. by rewrite !le_dec_enc_fits in E.
Qed.
Lemma bw_map_size b : bth_wf b → size (bw_map b) = length (bw_entries b).
Proof.
  intros [Hn _ _]. unfold bw_map. rewrite <- length_map_to_list. by rewrite map_to_list_to_map.
Qed.

(** An order in which a range loop may see the keys of the properties. *)
Definition range_order (w : PropertyBagWriter) (order : list Z) : Prop := order ≡ₚ (map_to_list (pw_properties w)).*1.
Lemma range_order_spec w order : range_order w order →
  NoDup order ∧ (∀ id, id ∈ order ↔ is_Some (pw_properties w !! id)) ∧ length order = size (pw_properties w).
Proof.
  unfold range_order. intros Ho. split; [rewrite Ho; apply NoDup_fst_map_to_list|]. split.
  - intros id. rewrite Ho, list_elem_of_fmap. split.
    + intros ([i p] & -> & Hin%elem_of_map_to_list). by exists p.
    + intros [p Hp]. exists (id, p). split; [done|]. by apply elem_of_map_to_list.
  - rewrite Ho, length_fmap. apply length_map_to_list.
Qed.

(** [build_tree] on a fresh writer: the tree built maps every property to the
    record of its type and its value or place. *)
Lemma build_tree_Ok depth w order1 order2 :
  unbuilt w → range_order w order1 → range_order w order2 → pw_properties w ≠ ∅ → (size (pw_properties w) ≤ 447)%nat →
  (size (pw_properties w) ≤ depth)%nat → map_Forall (λ _ p, out_of_line p = true → blen (pd_value p) ≤ HeapMaxAllocSize) (pw_properties w) →
  ∃ w' root (ps' : gmap Z propertyData), build_tree depth order1 order2 w = (w', Ok root) ∧ heap_next (pw_heap w') ∧
    (∀ id, option_Forall2 (allocated (pw_heap w')) (pw_properties w !! id) (ps' !! id)) ∧
    ∀ (Hp : Type) (Hrd : HeapReader Hp) (heap : Hp), holds heap (pw_heap w') →
    ∃ b, NewBTH heap root = Ok b ∧ ∀ id, fits 16 id → BTH_Lookup b (le_enc 2 id) =
      match ps' !! id with Some p => Ok (property_record p) | None => Err (EFmt "key not found in BTH" []) end.
Proof.
  intros Hu O1 O2 Hne Hsz Hd Hsm. apply range_order_spec in O1 as (N1 & I1 & L1), O2 as (N2 & I2 & L2).
  destruct (alloc_all_Ok order1 w N1) as (h1 & ps & E1 & G1 & C1 & A1).
  { intros id [p Hp]%I1. exists p. split; [done|]. by apply (Hsm id). }
  assert (∀ id, option_Forall2 (allocated h1) (pw_properties w !! id) (ps !! id)) as A.
  { intros id. specialize (A1 id). destruct (decide (id ∈ order1)) as [?|Hid]; [done|]. rewrite A1. rewrite I1 in Hid.
    apply eq_None_not_Some in Hid as ->. constructor. }
  set (w1 := mkPropertyBagWriter h1 _ _ _) in E1.
  assert (bth_wf (pw_bth w)) as Hbw by (destruct Hu; split; [rewrite ub_entries0; constructor|rewrite ub_entries0; constructor|lia]).
  assert (bw_map (pw_bth w) = ∅) as Hbm by (unfold bw_map; by rewrite (ub_entries w Hu)).
  destruct (insert_all_Ok order2 w1 N2) as (b1 & E2 & W2 & K2 & D2 & C2 & M2); [|done|apply Hu|apply Hu|].
  { intros id [p Hp]%I2. destruct (ub_props w Hu id p Hp) as [? _]. split; [done|]. cbn [w1 pw_properties].
    specialize (A id). rewrite Hp in A. by inversion A. }
  cbn [w1 pw_bth pw_properties pw_heap] in *. rewrite Hbm, map_size_empty in C2. rewrite bw_map_size in C2 by done.
  destruct (bth_build_lookup_aux b1 h1 depth W2) as (h2 & root & E3 & G3 & C3 & R3).
  - intros Ee. destruct (map_choose _ Hne) as (id & p & Hp). destruct (ub_props w Hu id p Hp) as [Hid _].
    specialize (M2 id Hid). rewrite decide_True in M2 by (apply I2; by exists p). unfold bw_map in M2. rewrite Ee in M2. cbn in M2.
    rewrite lookup_empty in M2. specialize (A id). rewrite Hp in A. destruct (ps !! id); [done|by inversion A].
  - unfold max_leaf_entries. rewrite K2, D2. change (HeapMaxAllocSize / (2 + 6)) with 447. unfold blen. lia.
  - lia.
  - apply G1, Hu.
  - rewrite (ub_allocs w Hu) in C1. unfold blen in C1, C3. cbn [length] in C1.
    exists (mkPropertyBagWriter h2 (set_entries b1 (sorted_entries b1)) (pw_format w) ps), root, ps.
    split; [|split; [|split]].
    + unfold build_tree. rewrite (st_bind_Ok _ _ _ _ _ E1), (st_bind_Ok _ _ _ _ _ E2). unfold wrap, zoom. cbn [pw_bth pw_heap].
      by rewrite E3.
    + cbn. apply G3, G1, Hu.
    + intros id. cbn [pw_heap]. destruct (A id); constructor. by eapply allocated_grows.
    + intros Hp Hrd heap Hh. cbn [pw_heap] in Hh. destruct (R3 ltac:(unfold blen; lia) Hp Hrd heap Hh) as (b & Eb & _ & Lb).
      exists b. split; [done|]. intros id Hid. rewrite Lb by (by rewrite K2). rewrite (M2 id Hid), Hbm, lookup_empty.
      destruct (decide (id ∈ order2)) as [Hin|Hin]; [by destruct (ps !! id)|]. rewrite I2 in Hin. apply eq_None_not_Some in Hin.
      specialize (A id). rewrite Hin in A. by inversion A.
Qed.

(** ** Reading what was built *)
Lemma heap_next_IsHeapID h hid data : heap_next h → in_heap h hid data → IsHeapID hid = true.
Proof.
  intros [_ Hids] (i & Hi)%list_elem_of_lookup. specialize (Hids i _ Hi). cbn in Hids. subst hid. unfold IsHeapID.
  pose proof (u16_range (1 + Z.of_nat i)). set (a := u16 _) in *. destruct (decide (a = 65535)) as [->|]; [done|].
  change 0x1F with (Z.ones 5). rewrite land_low by done. rewrite MakeHeapID_arith by (done || lia).
  rewrite (proj2 (Z.eqb_eq _ _)); [done|]. set (x := (_ + 1) mod 2048). set (y := Z.lor _ _).
  replace (x * 32 + y * 65536) with ((x + y * 2048) * 2 ^ 5) by lia. by apply Z.mod_mul.
Qed.
Lemma FixedSize_cases pt : FixedSize pt ∈ [0; 2; 4; 8; 16].
Proof. unfold FixedSize. cbv zeta. repeat case_match; set_solver. Qed.
Lemma inline_value_back value n : bytes_ok value → blen value = n → n = 2 ∨ n = 4 →
  slice (le_enc 4 (inline_value value)) 0 n = Ok value.
Proof.
  intros Hb Hl Hn. rewrite slice_Ok by (rewrite ?blen_le_enc; lia).
  destruct Hn as [->| ->]; unfold blen in Hl; destruct value as [|a [|b [|c [|d [|e v]]]]]; cbn [length] in Hl; try lia; f_equal.
  - cbn [inline_value]. pose proof (le_enc_dec _ Hb) as E. cbn [length] in E. rewrite <- E at 2.
    pose proof (le_dec_bound _ Hb) as Hr. change (blen [a; b]) with 2 in Hr. cbn [le_enc]. unfold sub. done.
  - exact (le_enc_dec _ Hb).
Qed.
Lemma property_record_entry p : fits 16 (pd_type p) → fits 32 (if out_of_line p then pd_hid p else inline_value (pd_value p)) →
  blen (property_record p) = 6 ∧ rd 2 0 (property_record p) = Ok (pd_type p) ∧
  rd 4 2 (property_record p) = Ok (if out_of_line p then pd_hid p else inline_value (pd_value p)).
Proof.
  intros Ht Hv. unfold property_record. split; [done|]. split.
  - rewrite rd_Ok by done. rewrite sub_app_l by done. rewrite sub_all by done. by rewrite le_dec_enc_fits.
  - rewrite rd_Ok by done. rewrite sub_app_r by done. rewrite sub_all by done. by rewrite le_dec_enc_fits.
Qed.
Lemma inline_value_fits value : bytes_ok value → fits 32 (inline_value value).
Proof.
  intros Hb. unfold inline_value. destruct value as [|a [|b [|c [|d [|e v]]]]]; try (split; done).
  - apply Forall_cons in Hb as [[? ?] _]. unfold fits. lia.
  - pose proof (le_dec_bound _ Hb) as Hr. change (256 ^ blen [a; b]) with 65536 in Hr. unfold fits. lia.
  - exact (le_dec_bound _ Hb).
Qed.

(** What the bag of a built context returns for a property. *)
Definition bag_holds {H} `{HeapReader H} (pb : PropertyBag H) (ps : gmap Z propertyData) : Prop :=
  ∀ id, fits 16 id →
    match ps !! id with
    | Some p =>
      (∃ hnid, GetPropertyEntry pb id = Ok (mkPropertyEntry id (pd_type p) hnid)) ∧
      ∀ depth levels s, GetRaw depth levels pb id s = (s, Ok (pd_value p))
    | None =>
      GetPropertyEntry pb id = Err (EFmt "property not found: 0x%04X" [id]) ∧
      ∀ depth levels s, GetRaw depth levels pb id s = (s, Err (EFmt "property not found: 0x%04X" [id]))
    end.
Lemma read_allocated {H} `{HeapReader H} (pb : PropertyBag H) h p p' id :
  holds (pb_heap pb) h → heap_next h → prop_wf p → allocated h p p' → ∀ depth levels s,
  readPropertyValue depth levels pb (mkPropertyEntry id (pd_type p) (if out_of_line p' then pd_hid p' else inline_value (pd_value p'))) s
  = (s, Ok (pd_value p)).
Proof.
  intros Hh Hn [Ht Hb Hf] (Et & Ev & Hi) depth levels s. unfold readPropertyValue. cbn [PE_PropType PE_Value].
  assert (out_of_line p' = out_of_line p) as -> by (unfold out_of_line; by rewrite Et, Ev). rewrite Ev.
  pose proof (FixedSize_cases (pd_type p)) as Hc. destruct (out_of_line p) eqn:Eo.
  - rewrite (proj2 (andb_false_iff _ _)).
    2: { unfold out_of_line, IsFixedSize in Eo. destruct (Z.ltb_spec 0 (FixedSize (pd_type p))); [right|by left]. specialize (Hf ltac:(done)). lia. }
    specialize (Hi eq_refl). rewrite (heap_next_IsHeapID h _ (pd_value p)) by done. unfold lift, ToHeapID. by rewrite (holds_in _ h _ (pd_value p)).
  - unfold out_of_line, IsFixedSize in Eo. destruct (Z.ltb_spec 0 (FixedSize (pd_type p))) as [Hp|Hp]; [|done]. specialize (Hf Hp).
    rewrite (proj2 (Z.leb_le _ _)) by lia. cbn [andb]. unfold lift. rewrite inline_value_back; [done|done|done|].
    rewrite !elem_of_cons, elem_of_nil in Hc. lia.
Qed.
Lemma bag_of_tree {H} `{HeapReader H} (pb : PropertyBag H) h ps ps' :
  holds (pb_heap pb) h → heap_next h → map_Forall (λ id p, fits 16 id ∧ prop_wf p) ps →
  (∀ id : Z, option_Forall2 (allocated h) (ps !! id) (ps' !! id)) →
  (∀ id, fits 16 id → BTH_Lookup (pb_bth pb) (le_enc 2 id) =
    match (ps' : gmap Z propertyData) !! id with Some p => Ok (property_record p) | None => Err (EFmt "key not found in BTH" []) end) →
  bag_holds pb ps.
Proof.
  intros Hh Hn Hwf Ha Hl id Hid. specialize (Ha id). specialize (Hl id Hid). fold (LookupUint16 (pb_bth pb) id) in Hl.
  unfold GetRaw, GetPropertyEntry. destruct (ps !! id) as [p|] eqn:Ep; inversion Ha as [? p' Hal E1 E2|E1 E2]; rewrite <- ?E2 in Hl; rewrite Hl.
  - destruct (Hwf id p Ep) as [_ Hp]. destruct (property_record_entry p') as (Hb & H1 & H2).
    + destruct Hal as (-> & _). apply Hp.
    + destruct Hal as (Et & Ev & Hi). destruct (out_of_line p') eqn:Eo; [|rewrite Ev; apply inline_value_fits, Hp].
      destruct (out_of_line p) eqn:Eo2.
      * specialize (Hi eq_refl). destruct Hn as [_ Hids]. apply list_elem_of_lookup in Hi as [i Hi]. specialize (Hids i _ Hi).
        cbn in Hids. rewrite Hids. apply MakeHeapID_fits.
      * unfold out_of_line in Eo, Eo2. rewrite Et, Ev in Eo. congruence.
    + rewrite Hb, H1, H2. rewrite (proj2 (Z.ltb_ge 6 6)) by done. rewrite !bind_Ok, mret_Ok. destruct Hal as (Et & Hal). split.
      * eexists. by rewrite Et.
      * intros depth levels s. unfold mbind, ST_bind, lift. rewrite Et. apply (read_allocated pb h p p' id); try done.
  - split; [done|]. by intros.
Qed.

(** ** Properties *)

Definition buildable (w : PropertyBagWriter) (depth : nat) (order1 order2 : list Z) : Prop :=
  unbuilt w ∧ range_order w order1 ∧ range_order w order2 ∧ pw_properties w ≠ ∅ ∧ (size (pw_properties w) ≤ 447)%nat ∧
  (size (pw_properties w) ≤ depth)%nat ∧ map_Forall (λ _ p, out_of_line p = true → blen (pd_value p) ≤ HeapMaxAllocSize) (pw_properties w).
Lemma propbag_build_get_aux depth w order1 order2 :
  buildable w depth order1 order2 →
  ∃ w' root, build_tree depth order1 order2 w = (w', Ok root) ∧
    ∀ (Hp : Type) (Hrd : HeapReader Hp) (heap : Hp), holds heap (pw_heap w') →
    ∃ b, NewBTH heap root = Ok b ∧ bag_holds (mkPropertyBag heap b) (pw_properties w).
Proof.
  intros (Hu & O1 & O2 & Hne & Hsz & Hd & Hsm).
  destruct (build_tree_Ok depth w order1 order2 Hu O1 O2 Hne Hsz Hd Hsm) as (w' & root & ps' & E & Hn & Ha & Hr).
  exists w', root. split; [done|]. intros Hp Hrd heap Hh. destruct (Hr Hp Hrd heap Hh) as (b & Eb & Hb). exists b. split; [done|].
  by apply (bag_of_tree (mkPropertyBag heap b) (pw_heap w') (pw_properties w) ps'); [| |apply Hu| |].
Qed.

(** C25: A property context holds what was put into it: for a writer of one to
    447 properties whose values fit heap allocations, whatever orders the loops
    of [Build] see the map in, building the tree succeeds, and over every heap
    that gives back the allocations the bag opens, each property has its type
    and its value as set, inline or out of line, and every other ID is reported
    missing. *)
Theorem propbag_build_get depth w order1 order2 :
  buildable w depth order1 order2 →
  ∃ w' root, build_tree depth order1 order2 w = (w', Ok root) ∧
    ∀ (Hp : Type) (Hrd : HeapReader Hp) (heap : Hp), holds heap (pw_heap w') →
    ∃ b, NewBTH heap root = Ok b ∧ bag_holds (mkPropertyBag heap b) (pw_properties w).
Proof. apply propbag_build_get_aux. Qed.
Definition sample_bag : PropertyBagWriter :=
  CreateFolderPropertyBag FormatUnicode (string_bytes "Inbox") 1700000000000000000.
Definition sample_order : list Z := (map_to_list (pw_properties sample_bag)).*1.
#[export] Instance prop_wf_dec p : Decision (prop_wf p).
Proof.
  destruct (decide (fits 16 (pd_type p) ∧ bytes_ok (pd_value p) ∧ (0 < FixedSize (pd_type p) → blen (pd_value p) = FixedSize (pd_type p))))
    as [Hp|Hp]; [left; destruct Hp as (? & ? & ?); by split|right; intros []; by apply Hp].
Defined.
Lemma sample_buildable : buildable sample_bag 6 sample_order sample_order.
Proof.
  split; [|split; [by unfold range_order|split; [by unfold range_order|split; [|split; [|split]]]]].
  - split; try done. apply (bool_decide_unpack _). by vm_compute.
  - intros E. by apply (f_equal size) in E.
  - apply (bool_decide_unpack _). by vm_compute.
  - apply (bool_decide_unpack _). by vm_compute.
  - apply (bool_decide_unpack _). by vm_compute.
Qed.
Lemma propbag_build_get_witness :
  ∃ w' root, build_tree 6 sample_order sample_order sample_bag = (w', Ok root) ∧
    ∀ (Hp : Type) (Hrd : HeapReader Hp) (heap : Hp), holds heap (pw_heap w') →
    ∃ b, NewBTH heap root = Ok b ∧ bag_holds (mkPropertyBag heap b) (pw_properties sample_bag).
Proof. exact (propbag_build_get 6 sample_bag sample_order sample_order sample_buildable). Defined.

(** The values the setters take, with what the getter of the kind returns for
    them: a string with its invalid bytes replaced, an ANSI string with the
    terminator that was added, a time rounded to FILETIME. *)
Inductive PropertyValue :=
| VInt16 (z : Z) | VInt32 (z : Z) | VInt64 (z : Z) | VBool (b : bool) | VString (s : bytes) | VString8 (s : bytes)
| VBinary (b : bytes) | VTime (t : Time) | VFloat32 (bits : Z) | VFloat64 (bits : Z) | VGUID (g : GUID).
Definition SetValue (id : Z) (v : PropertyValue) : ST PropertyBagWriter unit :=
  match v with
  | VInt16 z => SetInt16 id z | VInt32 z => SetInt32 id z | VInt64 z => SetInt64 id z | VBool b => SetBool id b
  | VString s => SetString id s | VString8 s => SetString8 id s | VBinary b => SetBinary id b | VTime t => SetTime id t
  | VFloat32 z => SetFloat32 id z | VFloat64 z => SetFloat64 id z | VGUID g => SetGUID id g
  end.
Definition GetValue {H} `{HeapReader H} (depth levels : nat) (pb : PropertyBag H) (id : Z) (kind : PropertyValue) : ST NState PropertyValue :=
  match kind with
  | VInt16 _ => do v <- GetInt16 depth levels pb id; mret (VInt16 v)
  | VInt32 _ => do v <- GetInt32 depth levels pb id; mret (VInt32 v)
  | VInt64 _ => do v <- GetInt64 depth levels pb id; mret (VInt64 v)
  | VBool _ => do v <- GetBool depth levels pb id; mret (VBool v)
  | VString _ => do v <- GetString depth levels pb id; mret (VString v)
  | VString8 _ => do v <- GetString depth levels pb id; mret (VString8 v)
  | VBinary _ => do v <- GetBinary depth levels pb id; mret (VBinary v)
  | VTime _ => do v <- GetTimeValue depth levels pb id; mret (VTime v)
  | VFloat32 _ => do v <- GetFloat32 depth levels pb id; mret (VFloat32 v)
  | VFloat64 _ => do v <- GetFloat64 depth levels pb id; mret (VFloat64 v)
  | VGUID _ => do v <- GetGUID depth levels pb id; mret (VGUID v)
  end.
Definition value_ok (v : PropertyValue) : Prop :=
  match v with
  | VInt16 z => - 2 ^ 15 ≤ z < 2 ^ 15
  | VInt32 z => - 2 ^ 31 ≤ z < 2 ^ 31
  | VInt64 z => - 2 ^ 63 ≤ z < 2 ^ 63
  | VBool _ | VTime _ => True
  | VString s | VString8 s | VBinary s => bytes_ok s
  | VFloat32 z => fits 32 z
  | VFloat64 z => fits 64 z
  | VGUID g => guid_wf g
  end.
Definition read_back (v : PropertyValue) : PropertyValue :=
  match v with
  | VString s => VString (of_runes (to_runes s))
  | VString8 s => VString8 (s ++ [0])
  | VTime t => VTime (FileTimeToTime (TimeToFileTime t))
  | _ => v
  end.
Lemma get_fixed_Ok {H} `{HeapReader H} depth levels n what (pb : PropertyBag H) id v s :
  (∀ s, GetRaw depth levels pb id s = (s, Ok (le_enc n v))) → fits (8 * Z.of_nat n) v →
  get_fixed depth levels n what pb id s = (s, Ok v).
Proof.
  intros Hr Hv. unfold get_fixed. rewrite (st_bind_Ok _ _ _ _ _ (Hr s)). rewrite blen_le_enc, (proj2 (Z.ltb_ge _ _)) by lia.
  unfold lift. rewrite rd_Ok by (rewrite ?blen_le_enc; lia). rewrite sub_all by (rewrite ?blen_le_enc; lia).
  by rewrite le_dec_enc_fits.
Qed.
Lemma i16_u16 z : - 2 ^ 15 ≤ z < 2 ^ 15 → i16 (u16 z) = z.
Proof. intros. unfold i16, u16. Z.to_euclidean_division_equations. lia. Qed.
Lemma i32_u32 z : - 2 ^ 31 ≤ z < 2 ^ 31 → i32 (u32 z) = z.
Proof. intros. unfold i32, u32. Z.to_euclidean_division_equations. lia. Qed.
Lemma i64_u64 z : - 2 ^ 63 ≤ z < 2 ^ 63 → i64 (u64 z) = z.
Proof. intros. unfold i64, u64. Z.to_euclidean_division_equations. lia. Qed.
Lemma bytes_ok_words us : bytes_ok (concat (map (le_enc 2) us)).
Proof. induction us as [|u us IH]; [constructor|]. cbn [map concat]. apply Forall_app. split; [apply bytes_ok_le_enc|done]. Qed.
Lemma TimeToFileTime_fits t : fits 64 (TimeToFileTime t).
Proof. unfold TimeToFileTime. destruct (IsZero t); [done|]. apply u64_range. Qed.

(** Each setter stores a value from which its getter reads the value back. *)
Lemma SetValue_Ok w id v : value_ok v →
  ∃ pt value, SetValue id v w = (set_props w (<[id := mkPropertyData pt value 0]> (pw_properties w)), Ok tt) ∧
    prop_wf (mkPropertyData pt value 0) ∧
    ∀ (H : Type) (Hrd : HeapReader H) depth levels (pb : PropertyBag H) hnid s,
      GetPropertyEntry pb id = Ok (mkPropertyEntry id pt hnid) → (∀ s, GetRaw depth levels pb id s = (s, Ok value)) →
      GetValue depth levels pb id v s = (s, Ok (read_back v)).
Proof.
  assert (∀ H (Hrd : HeapReader H) depth levels (pb : PropertyBag H) pt value hnid s,
    GetPropertyEntry pb id = Ok (mkPropertyEntry id pt hnid) → (∀ s, GetRaw depth levels pb id s = (s, Ok value)) →
    GetString depth levels pb id s = (if pt =? PropTypeString then mret (decodeUTF16LE value)
      else if pt =? PropTypeString8 then mret value else GetString depth levels pb id) s) as Hstr.
  { intros H Hrd depth levels pb pt value hnid s He Hr. unfold GetRaw in Hr. unfold GetString at 1.
    assert (lift (GetPropertyEntry pb id) s = (s, Ok (mkPropertyEntry id pt hnid))) as El by (unfold lift; by rewrite He).
    specialize (Hr s). rewrite (st_bind_Ok _ _ _ _ _ El) in Hr. rewrite (st_bind_Ok _ _ _ _ _ El), (st_bind_Ok _ _ _ _ _ Hr). cbn [PE_PropType].
    destruct (pt =? PropTypeString) eqn:E1; [done|]. destruct (pt =? PropTypeString8) eqn:E2; [done|].
    unfold GetString. rewrite (st_bind_Ok _ _ _ _ _ El), (st_bind_Ok _ _ _ _ _ Hr). cbn [PE_PropType]. by rewrite E1, E2. }
  assert (∀ pt n z, fits 16 pt → (0 < FixedSize pt → Z.of_nat n = FixedSize pt) → prop_wf (mkPropertyData pt (le_enc n z) 0)) as Hwf.
  { intros pt n z ? Hf. split; cbn; [done|apply bytes_ok_le_enc|]. rewrite blen_le_enc. done. }
  intros Hv. destruct v as [z|z|z|b|s|s|b|t|z|z|g]; cbn [value_ok] in Hv; cbn [SetValue GetValue read_back].
  1-4, 8-10: eexists _, _; split; [reflexivity|]; split; [by apply Hwf|]; intros H Hrd depth levels pb hnid s' He Hr.
  - unfold GetInt16, mbind, ST_bind. rewrite (get_fixed_Ok _ _ _ _ _ _ _ _ Hr) by apply u16_range. cbn. by rewrite i16_u16.
  - unfold GetInt32, mbind, ST_bind. rewrite (get_fixed_Ok _ _ _ _ _ _ _ _ Hr) by apply u32_range. cbn. by rewrite i32_u32.
  - unfold GetInt64, mbind, ST_bind. rewrite (get_fixed_Ok _ _ _ _ _ _ _ _ Hr) by apply u64_range. cbn. by rewrite i64_u64.
  - unfold GetBool, mbind, ST_bind. rewrite (get_fixed_Ok _ _ _ _ _ _ _ _ Hr) by (by destruct b). by destruct b.
  - unfold GetTimeValue, GetTime, mbind, ST_bind. by rewrite (get_fixed_Ok _ _ _ _ _ _ _ _ Hr) by apply TimeToFileTime_fits.
  - unfold GetFloat32, mbind, ST_bind. by rewrite (get_fixed_Ok _ _ _ _ _ _ _ _ Hr).
  - unfold GetFloat64, mbind, ST_bind. by rewrite (get_fixed_Ok _ _ _ _ _ _ _ _ Hr).
  - eexists _, _. split; [reflexivity|]. split; [split; [done|apply bytes_ok_words|done]|]. intros H Hrd depth levels pb hnid s' He Hr.
    unfold mbind, ST_bind. rewrite (Hstr _ _ _ _ _ _ _ _ _ He Hr). cbn. by rewrite encode_decode_UTF16LE.
  - eexists _, _. split; [reflexivity|]. split; [split; [done|apply Forall_app; by repeat constructor|done]|].
    intros H Hrd depth levels pb hnid s' He Hr. unfold mbind, ST_bind. by rewrite (Hstr _ _ _ _ _ _ _ _ _ He Hr).
  - eexists _, _. split; [reflexivity|]. split; [by split|]. intros H Hrd depth levels pb hnid s' He Hr.
    unfold GetBinary, mbind, ST_bind. by rewrite Hr.
  - destruct (guid_roundtrip g Hv) as (data & Eg & Hl & _ & Hg). eexists _, data. unfold SetGUID. rewrite Eg. split; [reflexivity|].
    split; [split; cbn [pd_type pd_value]; [done| |by rewrite Hl]|].
    + replace data with (le_enc 4 (Data1 g) ++ le_enc 2 (Data2 g) ++ le_enc 2 (Data3 g) ++ Data4 g)
        by (pose proof (GUID_Bytes_app g Hv); congruence).
      destruct Hv as (_ & _ & _ & _ & Hb). repeat (apply Forall_app_2; [apply bytes_ok_le_enc|]). exact Hb.
    + intros H Hrd depth levels pb hnid s' He Hr. unfold GetGUID, mbind, ST_bind. rewrite Hr, Hl. cbn -[GUIDFromBytes]. unfold lift. by rewrite Hg.
Qed.


(** A multi-valued property of 2- or 4-byte values can not be read: its
    values are taken to be inline, like those of its base type, so the getter
    of 32-bit slices returns an error or no values, whatever the node holds. *)
Theorem small_slices_unreadable {H} `{HeapReader H} depth levels (pb : PropertyBag H) id entry s :
  GetPropertyEntry pb id = Ok entry → FixedSize (PE_PropType entry) = 2 ∨ FixedSize (PE_PropType entry) = 4 →
  ∃ r, GetInt32Slice depth levels pb id s = (s, r) ∧ match r with Ok l => l = [] | Err _ => True | Panic => False end.
Proof.
  intros He Hf. unfold GetInt32Slice, get_multi, mbind, ST_bind, lift. rewrite He.
  destruct (negb (IsMultiValued (PE_PropType entry))); [by eexists|].
  unfold readPropertyValue, lift. set (n := FixedSize (PE_PropType entry)) in *.
  replace ((0 <? n) && (n <=? 4)) with true by (destruct Hf as [->| ->]; done).
  rewrite slice_Ok by (rewrite ?blen_le_enc; lia). cbn [mret ST_ret snd]. eexists. split; [reflexivity|]. unfold fixed_values.
  rewrite blen_sub by (rewrite ?blen_le_enc; lia).
  destruct Hf as [->| ->]; [done|]. rewrite (proj2 (Z.ltb_ge (4 - 0) 4)) by done. rewrite rd_Ok by (rewrite ?blen_sub by (rewrite ?blen_le_enc; lia); lia).
  rewrite bind_Ok. set (count := le_dec _). assert (0 ≤ count) by (apply le_dec_bound; auto with pst).
  destruct (Z.ltb_spec (4 - 0) (4 + count * 4)) as [?|Hc]; [done|]. assert (count = 0) as -> by lia. done.
Qed.
Lemma small_slices_unreadable_witness :
  let heap := [mkHeapAlloc 64 [85; 104; 3; 16; 96; 0; 0; 0]; mkHeapAlloc 96 [1; 0; 0; 0; 7; 0; 0; 0]] in
  let pb := mkPropertyBag heap (mkBTH heap (mkBTHHeader HeapSigBTH 2 6 0 64)) in
  ∃ r, GetInt32Slice 1 1 pb 0x6855 (sample_blocks_db, newNode (mkNodeInfo 33 8 0 0)) = ((sample_blocks_db, newNode (mkNodeInfo 33 8 0 0)), r)
    ∧ match r with Ok l => l = [] | Err _ => True | Panic => False end.
Proof.
  intros heap pb. refine (small_slices_unreadable 1 1 pb 0x6855 (mkPropertyEntry 0x6855 PropTypeMVInt32 96) _ _ _).
  - reflexivity.
  - by right.
Defined.

(** ** Multi-valued properties of variable size

    The layout of the format: a count, the offsets of the values from the start
    of the data, the values. *)
Definition mv_offsets (vs : list bytes) : list Z := removelast (alloc_offsets (4 + 4 * blen vs) vs).
Definition mv_data (vs : list bytes) : bytes :=
  le_enc 4 (blen vs) ++ concat (map (le_enc 4) (mv_offsets vs)) ++ concat vs.
Lemma alloc_offsets_cons off vs : ∃ l, alloc_offsets off vs = off :: l.
Proof. destruct vs; by eexists. Qed.
Lemma removelast_offsets off a vs :
  removelast (alloc_offsets off (a :: vs)) = off :: removelast (alloc_offsets (off + blen a) vs).
Proof. cbn [alloc_offsets]. destruct (alloc_offsets_cons (off + blen a) vs) as [l E]. by rewrite E. Qed.
Lemma value_ranges_exact vs : ∀ pre,
  map (default []) (value_ranges (pre ++ concat vs) (removelast (alloc_offsets (blen pre) vs))) = vs ∧
  Forall2 (λ r v, r = Some v ∨ r = None ∧ v = []) (value_ranges (pre ++ concat vs) (removelast (alloc_offsets (blen pre) vs))) vs.
Proof.
  induction vs as [|a vs IH]; intros pre; [by repeat constructor|]. rewrite removelast_offsets.
  cbn [value_ranges map concat]. specialize (IH (pre ++ a)). rewrite blen_app, <- app_assoc in IH. destruct IH as [IH1 IH2].
  set (data := pre ++ a ++ concat vs) in *.
  assert (match removelast (alloc_offsets (blen pre + blen a) vs) with next :: _ => next | [] => blen data end = blen pre + blen a) as ->.
  { destruct vs as [|b vs]; [|by rewrite removelast_offsets]. subst data. cbn. autorewrite with blen. lia. }
  pose proof (blen_nonneg pre). pose proof (blen_nonneg a).
  assert (blen data = blen pre + blen a + blen (concat vs)) as Hl by (subst data; autorewrite with blen; lia).
  pose proof (blen_nonneg (concat vs)).
  rewrite (proj2 (Z.ltb_ge (blen data) _)), (proj2 (Z.ltb_ge (blen pre + blen a) _)), !orb_false_r by lia.
  assert (sub data (blen pre) (blen pre + blen a - blen pre) = a) as Hs.
  { subst data. rewrite sub_app_r by lia. rewrite sub_app_l by lia. apply sub_all; lia. }
  destruct (Z.leb_spec (blen data) (blen pre)).
  - assert (a = []) as -> by (apply nil_length_inv; unfold blen in *; lia). cbn [default]. split; [by f_equal|].
    constructor; [by right|done].
  - rewrite Hs. cbn [default]. split; [by f_equal|]. constructor; [by left|done].
Qed.
Lemma blen_mv_offsets vs : blen (mv_offsets vs) = blen vs.
Proof.
  unfold mv_offsets. generalize (4 + 4 * blen vs). induction vs as [|a vs IH]; intros off; [done|].
  rewrite removelast_offsets, !blen_cons. by rewrite IH.
Qed.
Lemma mv_offsets_bound vs : Forall (λ v, 0 ≤ v ≤ 4 + 4 * blen vs + blen (concat vs)) (mv_offsets vs).
Proof.
  pose proof (blen_nonneg vs). pose proof (alloc_offsets_bound vs (4 + 4 * blen vs) ltac:(lia)) as Hb. unfold mv_offsets.
  rewrite Forall_forall in Hb |- *. intros x Hx. specialize (Hb x).
  assert (∀ l : list Z, x ∈ removelast l → x ∈ l) as Hin.
  { clear. induction l as [|y [|z l] IH]; [done|by intros ?%not_elem_of_nil|]. intros [->|Hx]%elem_of_cons; [by left|right; by apply IH]. }
  specialize (Hb (Hin _ Hx)). cbn in Hb. lia.
Qed.
Lemma blen_mv_data vs : blen (mv_data vs) = 4 + 4 * blen vs + blen (concat vs).
Proof. unfold mv_data. rewrite !blen_app, blen_le_enc, blen_array, blen_mv_offsets. lia. Qed.
Lemma variable_values_exact what vs : blen (mv_data vs) < 2 ^ 32 →
  ∃ rs, variable_values what (mv_data vs) = Ok rs ∧ map (default []) rs = vs ∧ Forall2 (λ r v, r = Some v ∨ r = None ∧ v = []) rs vs.
Proof.
  intros Hl. pose proof (blen_mv_data vs) as Hb. pose proof (blen_nonneg vs). pose proof (blen_nonneg (concat vs)). unfold variable_values.
  rewrite (proj2 (Z.ltb_ge _ _)) by lia. rewrite rd_Ok by lia. rewrite bind_Ok. change (Z.of_nat 4) with 4.
  assert (sub (mv_data vs) 0 4 = le_enc 4 (blen vs)) as ->.
  { unfold mv_data. rewrite sub_app_l by (rewrite ?blen_le_enc; lia). by apply sub_all. }
  rewrite le_dec_enc_fits by (unfold fits; lia). destruct (Z.eqb_spec (blen vs) 0) as [E|E].
  { exists []. assert (vs = []) as -> by (apply nil_length_inv; unfold blen in E; lia). by repeat constructor. }
  rewrite (proj2 (Z.ltb_ge _ _)) by lia.
  replace (Z.to_nat (blen vs)) with (length (mv_offsets vs)) by (pose proof (blen_mv_offsets vs); unfold blen in *; lia).
  rewrite (parse_array 4).
  - rewrite bind_Ok. destruct (value_ranges_exact vs (le_enc 4 (blen vs) ++ concat (map (le_enc 4) (mv_offsets vs)))) as [H1 H2].
    rewrite blen_app, blen_le_enc, blen_array, blen_mv_offsets, <- app_assoc in H1, H2. eexists. split; [reflexivity|]. done.
  - lia.
  - rewrite blen_mv_offsets. lia.
  - rewrite blen_mv_offsets. unfold mv_data. rewrite sub_app_r by (rewrite ?blen_le_enc; lia). rewrite blen_le_enc, Z.sub_diag.
    rewrite sub_app_l by (rewrite ?blen_array, ?blen_mv_offsets; lia). apply sub_all; [done|]. by rewrite blen_array, blen_mv_offsets.
  - eapply Forall_impl; [apply mv_offsets_bound|]. cbn. unfold fits. intros. lia.
Qed.

(** The slices of a multi-valued property laid out as the format says are
    exactly its values: binaries as they are, Unicode strings as encoded (with
    invalid bytes replaced), 64-bit integers in two's complement. *)
Theorem slices_exact {H} `{HeapReader H} depth levels (pb : PropertyBag H) id pt hnid data s :
  GetPropertyEntry pb id = Ok (mkPropertyEntry id pt hnid) → IsMultiValued pt = true →
  (∀ s, GetRaw depth levels pb id s = (s, Ok data)) → blen data < 2 ^ 32 →
  (∀ vs, data = mv_data vs → GetBinarySlice depth levels pb id s = (s, Ok vs)) ∧
  (∀ strs, data = mv_data (map encodeUTF16LE strs) → Forall (λ s, bytes_ok s) strs → BaseType pt = PropTypeString →
    GetStringSlice depth levels pb id s = (s, Ok (map (λ s, of_runes (to_runes s)) strs))) ∧
  (∀ zs, data = le_enc 4 (blen zs) ++ concat (map (le_enc 8) (map u64 zs)) → Forall (λ z, - 2 ^ 63 ≤ z < 2 ^ 63) zs →
    GetInt64Slice depth levels pb id s = (s, Ok zs)).
Proof.
  intros He Hm Hr Hl. assert (get_multi depth levels pb id s = (s, Ok (pt, data))) as Hg.
  { unfold get_multi. unfold GetRaw in Hr. assert (lift (GetPropertyEntry pb id) s = (s, Ok (mkPropertyEntry id pt hnid))) as El by (unfold lift; by rewrite He).
    specialize (Hr s). rewrite (st_bind_Ok _ _ _ _ _ El) in Hr. rewrite (st_bind_Ok _ _ _ _ _ El). cbn [PE_PropType]. rewrite Hm. cbn [negb].
    by rewrite (st_bind_Ok _ _ _ _ _ Hr). }
  split; [|split].
  - intros vs ->. unfold GetBinarySlice. rewrite (st_bind_Ok _ _ _ _ _ Hg). cbn [snd].
    destruct (variable_values_exact "multi-value binary" vs Hl) as (rs & E & Hd & _). unfold mbind, ST_bind, lift. rewrite E. cbn.
    by rewrite Hd.
  - intros strs -> Hs Hb. unfold GetStringSlice. rewrite (st_bind_Ok _ _ _ _ _ Hg). cbn [fst snd]. unfold lift, parseMultiValueStrings.
    destruct (variable_values_exact "multi-value string" (map encodeUTF16LE strs) Hl) as (rs & -> & _ & H2). rewrite bind_Ok. cbn [mret result_ret].
    rewrite Hb. rewrite (proj2 (Z.eqb_eq _ _)) by done. do 2 f_equal. clear -H2 Hs. revert rs H2.
    induction Hs as [|st strs Hst _ IH]; intros rs H2; cbn [map] in H2.
    + by apply Forall2_nil_inv_r in H2 as ->.
    + apply Forall2_cons_inv_r in H2 as (r & rs' & Hrv & H2 & ->). cbn [map]. f_equal; [|by apply IH].
      destruct Hrv as [->|[_ E]]; [by apply encode_decode_UTF16LE|].
      exfalso. unfold encodeUTF16LE in E. rewrite map_app, concat_app in E. by apply app_nil in E as [_ ?].
  - intros zs -> Hz. unfold GetInt64Slice. rewrite (st_bind_Ok _ _ _ _ _ Hg). cbn [snd]. unfold lift, fixed_values.
    assert (blen (concat (map (le_enc 8) (map u64 zs))) = 8 * blen zs) as Hb by (by rewrite blen_array, blen_map).
    rewrite blen_app, Hb, blen_le_enc in Hl |- *. pose proof (blen_nonneg zs). rewrite (proj2 (Z.ltb_ge _ _)) by lia.
    rewrite rd_Ok by (rewrite ?blen_app, ?blen_le_enc, ?Hb; lia). change (Z.of_nat 4) with 4. rewrite bind_Ok.
    rewrite sub_app_l, sub_all by (rewrite ?blen_le_enc; lia). rewrite le_dec_enc_fits by (unfold fits; lia).
    rewrite (proj2 (Z.ltb_ge _ _)) by lia. do 2 f_equal. replace (Z.to_nat (blen zs)) with (length (map u64 zs)) by (rewrite length_map; unfold blen; lia).
    rewrite (parse_array_map i64 8).
    + f_equal. rewrite map_map. rewrite <- (map_id zs) at 2. apply map_ext_Forall. eapply Forall_impl; [exact Hz|]. cbn. intros. by apply i64_u64.
    + lia.
    + rewrite blen_app, blen_le_enc, Hb, blen_map. lia.
    + rewrite sub_app_r by (rewrite ?blen_le_enc, ?blen_map; lia). rewrite blen_le_enc. apply sub_all; [lia|]. by rewrite Hb, blen_map.
    + apply Forall_map, Forall_forall. intros x _. apply u64_range.
Qed.
Definition sample_mv : list bytes := [string_bytes "red"; string_bytes "blue"].
Definition sample_mv_bag : PropertyBag (list heapAllocation) :=
  let heap := [mkHeapAlloc 64 [0; 128; 31; 16; 96; 0; 0; 0]; mkHeapAlloc 96 (mv_data (map encodeUTF16LE sample_mv))] in
  mkPropertyBag heap (mkBTH heap (mkBTHHeader HeapSigBTH 2 6 0 64)).
Lemma slices_exact_witness :
  let s := (sample_blocks_db, newNode (mkNodeInfo 33 8 0 0)) in
  GetStringSlice 1 1 sample_mv_bag 0x8000 s = (s, Ok (map (λ s, of_runes (to_runes s)) sample_mv)).
Proof.
  intros s. refine (proj1 (proj2 (slices_exact 1 1 sample_mv_bag 0x8000 PropTypeMVString 96 (mv_data (map encodeUTF16LE sample_mv)) s _ _ _ _)) sample_mv _ _ _).
  - reflexivity.
  - reflexivity.
  - intros s'. reflexivity.
  - reflexivity.
  - reflexivity.
  - repeat constructor; done.
  - reflexivity.
Defined.
