(* ===== verification/Table.v ===== *)
(** * Table contexts

    Models [pkg/ltp/table.go] and [pkg/ltp/table_write.go]: the rows of a node,
    found by a B-tree from row IDs to places in a matrix, with their cells, and
    the writer that builds such a heap. *)
From S2P Require Import Prelude Format Codec Ids State Database BTree Node Heap BTH Text PropType PropBag.

(** ** Reading *)
Record ColumnDescriptor := mkColumn { C_PropType : Z; C_PropID : Z; C_Offset : Z; C_Size : Z; C_BitOffset : Z }.
Record TCHeader := mkTCHeader {
  TC_Signature : Z; NumColumns : Z; SizeOffsets : list Z; RowBTHID : Z; RowMatrixHNID : Z; TC_Columns : list ColumnDescriptor }.

Definition parse_column (data : bytes) (off : Z) : result ColumnDescriptor :=
  pt ← rd 2 off data; id ← rd 2 (off + 2) data; ib ← rd 2 (off + 4) data; cb ← index data (off + 6); bit ← index data (off + 7);
  mret (mkColumn pt id ib cb bit).
(** The loop over the columns, [n] to go from column [i]. *)
Fixpoint parse_columns (data : bytes) (n : nat) (i colOffset : Z) : result (list ColumnDescriptor) :=
  match n with
  | O => Ok []
  | S n =>
    if blen data <? colOffset + 8 then Err (EFmt "TC header truncated at column %d" [i]) else
    c ← parse_column data colOffset; cs ← parse_columns data n (i + 1) (colOffset + 8); mret (c :: cs)
  end.
Definition parseTCHeader (data : bytes) : result TCHeader :=
  if blen data <? 22 then Err (EFmt "TC header too small: %d bytes" [blen data]) else
  sig ← index data 0; cols ← index data 1;
  if negb (sig =? HeapSigTC) then Err (EFmt "invalid TC signature: 0x%02X" [sig]) else
  offsets ← parse_entries (λ off, rd 2 off data) 4 2 2;
  rowBTH ← rd 4 10 data; matrix ← rd 4 14 data;
  columns ← parse_columns data (Z.to_nat cols) 0 22;
  mret (mkTCHeader sig cols offsets rowBTH matrix columns).

Definition FindColumn_in (columns : list ColumnDescriptor) (propID : Z) : option ColumnDescriptor :=
  List.find (λ c, C_PropID c =? propID) columns.

Section table.
Context {H : Type} `{HeapReader H} (depth levels : nat).
(** The table's node and the subnode of the row matrix are in the state. *)
Record Table := mkTable { tb_heap : H; tb_header : TCHeader; tb_rowBTH : BTH H; tb_rowMatrix : option bytes }.
Record TState := mkTState { ts_db : Database; ts_node : Node; ts_matrix : option Node }.
Definition on_tnode {A} (m : ST NState A) : ST TState A :=
  zoom (λ s, (ts_db s, ts_node s)) (λ s n, mkTState n.1 n.2 (ts_matrix s)) m.
Record TableRow := mkTableRow { r_rowID : Z; r_rowData : bytes }.

(** [loadRowMatrix]: the matrix of the table and, in the state, its subnode. *)
Definition loadRowMatrix (heap : H) (header : TCHeader) : ST TState (option bytes) :=
  let hnid := RowMatrixHNID header in
  if hnid =? 0 then mret None
  else if IsHeapID hnid then do data <- lift (hread heap (ToHeapID hnid)); mret (Some data)
  else
    do subnode <- wrap "failed to find row matrix subnode 0x%X" (on_tnode (LookupSubnode depth levels (ToNodeID hnid)));
    modify (λ s, mkTState (ts_db s) (ts_node s) (Some subnode)) ;; mret None.

Fixpoint count_entries (entries : list (result BTHEntry)) : result Z :=
  match entries with
  | [] => Ok 0
  | Ok _ :: entries => n ← count_entries entries; mret (n + 1)
  | Err _ :: entries => count_entries entries
  | Panic :: _ => Panic
  end.
Definition RowCount (t : Table) : result Z := count_entries (Entries (tb_rowBTH t)).
Definition ColumnCount (t : Table) : Z := NumColumns (tb_header t).
Definition Columns (t : Table) : list ColumnDescriptor := TC_Columns (tb_header t).
Definition FindColumn (t : Table) (propID : Z) : option ColumnDescriptor := FindColumn_in (TC_Columns (tb_header t)) propID.
Definition RowSize (t : Table) : result Z := index (SizeOffsets (tb_header t)) 3.

Definition getRow (t : Table) (rowID rowIndex : Z) : ST TState TableRow :=
  do rowSize <- lift (RowSize t);
  let offset := rowIndex * rowSize in
  do s <- get;
  match ts_matrix s with
  | Some node =>
    do rowData <- wrap "failed to read row data"
      (zoom (λ s : TState, (ts_db s, node)) (λ s (n : Database * Node), mkTState n.1 (ts_node s) (Some n.2)) (Read depth levels offset rowSize));
    mret (mkTableRow rowID rowData)
  | None =>
    match tb_rowMatrix t with
    | Some m =>
      if blen m <? offset + rowSize then fail (EFmt "row index out of bounds: %d" [rowIndex])
      else do rowData <- lift (slice m offset (offset + rowSize)); mret (mkTableRow rowID rowData)
    | None => fail (EFmt "table has no row data" [])
    end
  end.
(** The loop over the entries of the row index, as a consumer that never stops
    sees it. *)
Fixpoint yield_rows (t : Table) (entries : list (result BTHEntry)) : ST TState (list (result TableRow)) := λ s,
  match entries with
  | [] => (s, Ok [])
  | Err e :: _ => (s, Ok [Err e])
  | Panic :: _ => (s, Panic)
  | Ok e :: entries =>
    if (blen (BE_Key e) <? 4) || (blen (BE_Value e) <? 4) then yield_rows t entries s else
    match rd 4 0 (BE_Key e), rd 4 0 (BE_Value e) with
    | Ok rowID, Ok rowIndex =>
      match getRow t rowID rowIndex s with
      | (s, Ok row) => let '(s, rows) := yield_rows t entries s in (s, (λ l, Ok row :: l) <$> rows)
      | (s, Err e) => (s, Ok [Err e])
      | (s, Panic) => (s, Panic)
      end
    | _, _ => (s, Panic)
    end
  end.
Definition Rows (t : Table) : ST TState (list (result TableRow)) := yield_rows t (Entries (tb_rowBTH t)).
Definition GetRow (t : Table) (rowID : Z) : ST TState TableRow :=
  match BTH_Lookup (tb_rowBTH t) (le_enc 4 rowID) with
  | Err _ => fail (EFmt "row not found: %d" [rowID])
  | Panic => lift Panic
  | Ok value => do rowIndex <- lift (rd 4 0 value); getRow t rowID rowIndex
  end.

Definition HasProperty (t : Table) (r : TableRow) (propID : Z) : result bool :=
  match FindColumn t propID with
  | None => Ok false
  | Some col =>
    bitmapOffset ← index (SizeOffsets (tb_header t)) 2;
    if blen (r_rowData r) <=? bitmapOffset then Ok false else
    let byteIndex := C_BitOffset col / 8 in
    let bitIndex := C_BitOffset col mod 8 in
    if blen (r_rowData r) <=? bitmapOffset + byteIndex then Ok false else
    b ← index (r_rowData r) (bitmapOffset + byteIndex);
    mret (negb (Z.land b (Z.shiftl 1 bitIndex) =? 0))
  end.
Definition Row_GetRaw (t : Table) (r : TableRow) (propID : Z) : result bytes :=
  match FindColumn t propID with
  | None => Err (EFmt "column not found: 0x%04X" [propID])
  | Some col =>
    has ← HasProperty t r propID;
    if negb has then Err (EFmt "property not present in row: 0x%04X" [propID]) else
    if blen (r_rowData r) <? C_Offset col + C_Size col then Err (EFmt "column data out of bounds" [])
    else slice (r_rowData r) (C_Offset col) (C_Offset col + C_Size col)
  end.
Definition Row_GetInt32 (t : Table) (r : TableRow) (propID : Z) : result Z :=
  data ← Row_GetRaw t r propID; if blen data <? 4 then Err (EFmt "insufficient data for int32" []) else i32 <$> rd 4 0 data.
Definition Row_GetInt64 (t : Table) (r : TableRow) (propID : Z) : result Z :=
  data ← Row_GetRaw t r propID; if blen data <? 8 then Err (EFmt "insufficient data for int64" []) else i64 <$> rd 8 0 data.
Definition GetHNID (t : Table) (r : TableRow) (propID : Z) : result Z :=
  data ← Row_GetRaw t r propID; if blen data <? 4 then Err (EFmt "insufficient data for HNID" []) else rd 4 0 data.
Definition Row_GetBinary (t : Table) (r : TableRow) (propID : Z) : ST TState bytes :=
  do hnid <- lift (GetHNID t r propID);
  if hnid =? 0 then mret []
  else if IsHeapID hnid then lift (hread (tb_heap t) (ToHeapID hnid))
  else on_tnode (read_subnode depth levels (ToNodeID hnid)).
Definition Row_GetString (t : Table) (r : TableRow) (propID : Z) : ST TState bytes :=
  match FindColumn t propID with
  | None => fail (EFmt "column not found: 0x%04X" [propID])
  | Some col =>
    do data <- Row_GetBinary t r propID;
    mret (if C_PropType col =? PropTypeString then decodeUTF16LE data else data)
  end.
End table.
Arguments Table H : clear implicits.

Definition NewTable (depth levels : nat) : ST TState (Table HeapOnNode) :=
  do heap <- wrap "failed to create heap" (on_tnode (NewHeapOnNode depth levels));
  do clientSig <- lift (ClientSignature heap);
  if negb (clientSig =? HeapSigTC) then fail (EFmt "invalid TC signature: got 0x%02X, expected 0x%02X" [clientSig; HeapSigTC]) else
  do rootID <- lift (RootID heap);
  do headerData <- wrap "failed to read TC header" (lift (HeapRead heap rootID));
  do header <- wrap "failed to parse TC header" (lift (parseTCHeader headerData));
  do rowBTH <- wrap "failed to create row BTH" (lift (NewBTH heap (RowBTHID header)));
  do matrix <- wrap "failed to load row matrix" (loadRowMatrix depth levels heap header);
  mret (mkTable heap header rowBTH matrix).

(** ** Writing *)
Record ColumnDef := mkColumnDef { CD_PropID : Z; CD_PropType : Z; CD_Size : Z; CD_Offset : Z }.
Record tableRow := mkRow { tr_rowID : Z; tr_values : gmap Z bytes }.
Record TableWriter := mkTableWriter {
  tw_heap : HeapWriter; tw_rowBTH : BTHWriter; tw_format : PSTFormat; tw_columns : list ColumnDef; tw_rows : list tableRow; tw_nextRowID : Z }.
Definition NewTableWriter (format : PSTFormat) : TableWriter :=
  mkTableWriter (CreateTableContextHeap format) (CreateRowIndexBTH format) format [] [] 1.
Definition set_columns (w : TableWriter) (cs : list ColumnDef) : TableWriter :=
  mkTableWriter (tw_heap w) (tw_rowBTH w) (tw_format w) cs (tw_rows w) (tw_nextRowID w).
Definition set_rows (w : TableWriter) (rs : list tableRow) : TableWriter :=
  mkTableWriter (tw_heap w) (tw_rowBTH w) (tw_format w) (tw_columns w) rs (tw_nextRowID w).
Definition AddColumn (propID propType : Z) : ST TableWriter unit :=
  let size := if FixedSize propType =? 0 then 4 else FixedSize propType in
  modify (λ w, set_columns w (tw_columns w ++ [mkColumnDef propID propType size 0])).
Definition AddRow : ST TableWriter Z := λ w,
  (mkTableWriter (tw_heap w) (tw_rowBTH w) (tw_format w) (tw_columns w) (tw_rows w ++ [mkRow (tw_nextRowID w) ∅]) (u32 (tw_nextRowID w + 1)),
   Ok (tw_nextRowID w)).
(** The first row with the ID. *)
Fixpoint set_value (rowID propID : Z) (value : bytes) (rows : list tableRow) : option (list tableRow) :=
  match rows with
  | [] => None
  | row :: rows =>
    if tr_rowID row =? rowID then Some (mkRow rowID (<[propID := value]> (tr_values row)) :: rows)
    else cons row <$> set_value rowID propID value rows
  end.
Definition SetRowValue (rowID propID : Z) (value : bytes) : ST TableWriter unit := λ w,
  match set_value rowID propID value (tw_rows w) with
  | Some rows => (set_rows w rows, Ok tt)
  | None => (w, Err (EFmt "row %d not found" [rowID]))
  end.
Definition SetRowInt32 (rowID propID value : Z) := SetRowValue rowID propID (le_enc 4 (u32 value)).
Definition SetRowInt64 (rowID propID value : Z) := SetRowValue rowID propID (le_enc 8 (u64 value)).
Definition SetRowString (rowID propID : Z) (value : bytes) := SetRowValue rowID propID (encodeUTF16LE value).
Definition SetRowBinary (rowID propID : Z) (value : bytes) := SetRowValue rowID propID value.
Fixpoint remove_row (rowID : Z) (rows : list tableRow) : list tableRow :=
  match rows with
  | [] => []
  | row :: rows => if tr_rowID row =? rowID then rows else row :: remove_row rowID rows
  end.
Definition DeleteRow (rowID : Z) : ST TableWriter unit := modify (λ w, set_rows w (remove_row rowID (tw_rows w))).
Definition Writer_RowCount (w : TableWriter) : Z := blen (tw_rows w).
Definition Writer_ColumnCount (w : TableWriter) : Z := blen (tw_columns w).

Fixpoint column_offsets (offset : Z) (cols : list ColumnDef) : list ColumnDef :=
  match cols with
  | [] => []
  | c :: cols =>
    let size := if CD_Size c =? 0 then 4 else CD_Size c in
    mkColumnDef (CD_PropID c) (CD_PropType c) size offset :: column_offsets (u16 (offset + u16 size)) cols
  end.
Definition calculateColumnOffsets : ST TableWriter unit := modify (λ w, set_columns w (column_offsets 0 (tw_columns w))).
Definition calculateRowSize (w : TableWriter) : Z := foldr (λ c n, CD_Size c + n) 0 (tw_columns w).
Definition column_descriptor (i : Z) (c : ColumnDef) : bytes :=
  le_enc 2 (CD_PropType c) ++ le_enc 2 (CD_PropID c) ++ le_enc 2 (CD_Offset c) ++ [u8 (CD_Size c); u8 i].
Definition buildColumnDescriptors (w : TableWriter) : bytes := concat (imap (λ i c, column_descriptor (Z.of_nat i) c) (tw_columns w)).
Definition buildTCInfo (w : TableWriter) (rowBTHHID rowMatrixHNID rowSize : Z) : bytes :=
  [HeapSigTC; u8 (blen (tw_columns w))] ++ le_enc 2 0 ++ le_enc 2 (u16 rowSize) ++ le_enc 2 (u16 rowSize) ++ le_enc 2 (u16 rowSize)
  ++ le_enc 4 rowBTHHID ++ le_enc 4 rowMatrixHNID ++ zeros 4.

Definition on_theap {A} (m : ST HeapWriter A) : ST TableWriter A :=
  zoom tw_heap (λ w h, mkTableWriter h (tw_rowBTH w) (tw_format w) (tw_columns w) (tw_rows w) (tw_nextRowID w)) m.
Definition on_rowBTH {A} (m : ST BuildState A) : ST TableWriter A :=
  zoom (λ w, (tw_rowBTH w, tw_heap w)) (λ w s, mkTableWriter s.2 s.1 (tw_format w) (tw_columns w) (tw_rows w) (tw_nextRowID w)) m.
(** [bitmap[i / 8] |= 1 << (i % 8)] *)
Definition set_bit (i : Z) (bitmap : bytes) : result bytes :=
  b ← index bitmap (i / 8); put8 (i / 8) (Z.lor b (Z.shiftl 1 (i mod 8))) bitmap.
(** The cells of a row from column [colIdx]: the matrix and the bitmap. *)
Fixpoint write_cells (row : tableRow) (base : Z) (cols : list ColumnDef) (colIdx : Z) (rowMatrix bitmap : bytes) : ST TableWriter (bytes * bytes) :=
  match cols with
  | [] => mret (rowMatrix, bitmap)
  | col :: cols =>
    match tr_values row !! CD_PropID col with
    | None => write_cells row base cols (colIdx + 1) rowMatrix bitmap
    | Some value =>
      do bitmap <- lift (set_bit colIdx bitmap);
      let valueOffset := base + CD_Offset col in
      do rowMatrix <-
        (if IsFixedSize (CD_PropType col)
         then lift (copy_at valueOffset (take (Z.to_nat (Z.min (CD_Size col) (blen value))) value) rowMatrix)
         else do hid <- wrap "failed to allocate row value" (on_theap (HeapAllocate value)); lift (put 4 valueOffset hid rowMatrix));
      write_cells row base cols (colIdx + 1) rowMatrix bitmap
    end
  end.
(** The rows from row [i], each of [rowSize] bytes with its bitmap in front. *)
Fixpoint write_rows (cols : list ColumnDef) (rowSize bitmapSize : Z) (rows : list tableRow) (i : Z) (rowMatrix : bytes) : ST TableWriter bytes :=
  match rows with
  | [] => mret rowMatrix
  | row :: rows =>
    let rowOffset := i * (rowSize + bitmapSize) in
    do r <- write_cells row (rowOffset + bitmapSize) cols 0 rowMatrix (zeros bitmapSize);
    do rowMatrix <- lift (copy_at rowOffset r.2 r.1);
    wrap "failed to insert row %d into BTH" (on_rowBTH (zoom fst (λ s b, (b, s.2)) (InsertUint32Key (tr_rowID row) (le_enc 4 (u32 i))))) ;;
    write_rows cols rowSize bitmapSize rows (i + 1) rowMatrix
  end.
Definition TableBuild (depth : nat) : ST TableWriter bytes :=
  do w <- get;
  if blen (tw_columns w) =? 0 then fail (EFmt "table must have at least one column" []) else
  calculateColumnOffsets ;;
  do w <- get;
  let rowSize := calculateRowSize w in
  let bitmapSize := (blen (tw_columns w) + 7) / 8 in
  do rowMatrix <- write_rows (tw_columns w) rowSize bitmapSize (tw_rows w) 0 (zeros (blen (tw_rows w) * (rowSize + bitmapSize)));
  if HeapMaxAllocSize <? blen rowMatrix then fail (EFmt "row matrix too large for heap: %d bytes" [blen rowMatrix]) else
  do rowMatrixHNID <- wrap "failed to allocate row matrix" (on_theap (HeapAllocate rowMatrix));
  do rowBTHHID <- wrap "failed to build row BTH" (on_rowBTH (BTHBuild depth));
  do colDescHID <- wrap "failed to allocate column descriptors" (on_theap (HeapAllocate (buildColumnDescriptors w)));
  do tcInfoHID <- wrap "failed to allocate TCINFO" (on_theap (HeapAllocate (buildTCInfo w rowBTHHID rowMatrixHNID (rowSize + bitmapSize))));
  on_theap (SetRoot tcInfoHID) ;;
  do w <- get; lift (HeapBuild (tw_heap w)).

Fixpoint add_columns (cols : list (Z * Z)) : ST TableWriter unit :=
  match cols with [] => mret tt | (id, pt) :: cols => AddColumn id pt ;; add_columns cols end.
Definition CreateHierarchyTable (format : PSTFormat) : TableWriter :=
  fst (add_columns [(PidTagRowId, PropTypeInt32); (PidTagDisplayName, PropTypeString); (PidTagContentCount, PropTypeInt32);
    (PidTagContentUnreadCount, PropTypeInt32); (PidTagSubfolders, PropTypeBool); (PidTagDepth, PropTypeInt32)] (NewTableWriter format)).
Definition CreateContentsTable (format : PSTFormat) : TableWriter :=
  fst (add_columns [(PidTagRowId, PropTypeInt32); (PidTagSubject, PropTypeString); (PidTagMessageClass, PropTypeString);
    (PidTagClientSubmitTime, PropTypeSysTime); (PidTagMessageSize, PropTypeInt32); (PidTagMessageFlags, PropTypeInt32);
    (PidTagHasAttachments, PropTypeBool)] (NewTableWriter format)).
Definition CreateRecipientTable (format : PSTFormat) : TableWriter :=
  fst (add_columns [(PidTagRowId, PropTypeInt32); (PidTagRecipientType, PropTypeInt32); (PidTagDisplayName, PropTypeString);
    (PidTagEmailAddress, PropTypeString); (PidTagAddressType, PropTypeString)] (NewTableWriter format)).
Definition CreateAttachmentTable (format : PSTFormat) : TableWriter :=
  fst (add_columns [(PidTagRowId, PropTypeInt32); (PidTagAttachNumber, PropTypeInt32); (PidTagAttachMethod, PropTypeInt32);
    (PidTagAttachFilename, PropTypeString); (PidTagAttachSize, PropTypeInt32); (PidTagAttachMimeTag, PropTypeString)] (NewTableWriter format)).

(** ** Rows and cells *)

Lemma land_bit b k : 0 ≤ k → negb (Z.land b (Z.shiftl 1 k) =? 0) = Z.testbit b k.
Proof.
  intros Hk. rewrite Z.shiftl_1_l. destruct (Z.testbit b k) eqn:E.
  - destruct (Z.eqb_spec (Z.land b (2 ^ k)) 0) as [E0|]; [|done]. apply (f_equal (λ z, Z.testbit z k)) in E0.
    rewrite Z.land_spec, Z.pow2_bits_true, E, Z.bits_0 in E0 by done. done.
  - apply negb_false_iff, Z.eqb_eq, Z.bits_inj'. intros i Hi. rewrite Z.land_spec, Z.bits_0, Z.pow2_bits_eqb by done.
    destruct (Z.eqb_spec k i) as [<-|]; [by rewrite E|apply andb_false_r].
Qed.

(** A cell reads as its bit in the existence bitmap says, on every header and
    every row of bytes: without a column of the ID the reads say so; with its bit
    clear, or the bitmap cut off, the cell is absent; with its bit set the raw
    value is the window of the row at the column's offset, refused if it runs
    over the end.  No access panics. *)
Theorem cell_access {H} `{HeapReader H} (t : Table H) r propID r0 r1 bm rs :
  SizeOffsets (tb_header t) = [r0; r1; bm; rs] → 0 ≤ bm → bytes_ok (r_rowData r) →
  Forall (λ c, 0 ≤ C_Offset c ∧ 0 ≤ C_Size c ∧ 0 ≤ C_BitOffset c) (TC_Columns (tb_header t)) →
  match FindColumn t propID with
  | None => HasProperty t r propID = Ok false ∧ Row_GetRaw t r propID = Err (EFmt "column not found: 0x%04X" [propID])
  | Some c =>
    let byte := bm + C_BitOffset c / 8 in
    let has := (byte <? blen (r_rowData r)) && Z.testbit (nth (Z.to_nat byte) (r_rowData r) 0) (C_BitOffset c mod 8) in
    HasProperty t r propID = Ok has ∧
    Row_GetRaw t r propID =
      if negb has then Err (EFmt "property not present in row: 0x%04X" [propID])
      else if blen (r_rowData r) <? C_Offset c + C_Size c then Err (EFmt "column data out of bounds" [])
      else Ok (sub (r_rowData r) (C_Offset c) (C_Size c))
  end.
Proof.
  intros Eo Hbm Hr Hc. unfold Row_GetRaw, HasProperty. destruct (FindColumn t propID) as [c|] eqn:Ec; [|done].
  assert (0 ≤ C_Offset c ∧ 0 ≤ C_Size c ∧ 0 ≤ C_BitOffset c) as (H1 & H2 & H3).
  { unfold FindColumn, FindColumn_in in Ec. apply find_some in Ec as [Hin _]. rewrite Forall_forall in Hc. by apply Hc, list_elem_of_In. }
  cbv zeta. set (data := r_rowData r) in *. set (byte := bm + C_BitOffset c / 8).
  assert (bm ≤ byte) by (subst byte; pose proof (Z.div_pos (C_BitOffset c) 8); lia).
  set (hasp := (bitmapOffset ← index (SizeOffsets (tb_header t)) 2; _)).
  set (has := (byte <? blen data) && Z.testbit (nth (Z.to_nat byte) data 0) (C_BitOffset c mod 8)).
  assert (hasp = Ok has) as ->.
  { subst hasp has. rewrite Eo. change (index [r0; r1; bm; rs] 2) with (Ok bm). rewrite bind_Ok.
    destruct (Z.leb_spec (blen data) bm); [by rewrite (proj2 (Z.ltb_ge _ _)) by lia|]. fold byte.
    destruct (Z.leb_spec (blen data) byte); [by rewrite (proj2 (Z.ltb_ge _ _)) by lia|]. rewrite (proj2 (Z.ltb_lt _ _)) by lia.
    destruct (lookup_lt_is_Some_2 data (Z.to_nat byte)) as [b Hb]; [unfold blen in *; lia|].
    rewrite (index_Ok _ _ b) by (done || lia). rewrite bind_Ok. cbn [andb mret result_ret]. f_equal.
    rewrite land_bit by (apply Z.mod_pos_bound; lia). f_equal. symmetry. rewrite nth_lookup. by rewrite Hb. }
  split; [done|]. rewrite bind_Ok. destruct (negb has); [done|]. destruct (Z.ltb_spec (blen data) (C_Offset c + C_Size c)); [done|].
  rewrite slice_Ok by lia. f_equal. f_equal. lia.
Qed.
Definition sample_table : Table (list heapAllocation) :=
  let heap := [mkHeapAlloc 64 [33; 0; 0; 0; 0; 0; 0; 0; 65; 0; 0; 0; 1; 0; 0; 0]; mkHeapAlloc 96 [7; 0; 0; 0; 1; 9; 0; 0; 0; 0]] in
  mkTable heap (mkTCHeader HeapSigTC 1 [4; 4; 4; 5] 0 96 [mkColumn PropTypeInt32 PidTagContentCount 0 4 0])
    (mkBTH heap (mkBTHHeader HeapSigBTH 4 4 0 64)) (Some [7; 0; 0; 0; 1; 9; 0; 0; 0; 0]).
Lemma cell_access_witness :
  HasProperty sample_table (mkTableRow 33 [7; 0; 0; 0; 1]) PidTagContentCount = Ok true ∧
  Row_GetRaw sample_table (mkTableRow 33 [7; 0; 0; 0; 1]) PidTagContentCount = Ok [7; 0; 0; 0].
Proof.
  refine (cell_access sample_table (mkTableRow 33 [7; 0; 0; 0; 1]) PidTagContentCount 4 4 4 5 _ _ _ _).
  - reflexivity.
  - done.
  - by repeat constructor.
  - by repeat constructor.
Defined.

(** The row that entry [e] of the index names in matrix [m]. *)
Definition row_of (m : bytes) (rowSize : Z) (e : bytes * bytes) : TableRow :=
  mkTableRow (le_dec e.1) (sub m (le_dec e.2 * rowSize) rowSize).
Lemma getRow_matrix {H} `{HeapReader H} depth levels (t : Table H) m rowID i rowSize s :
  tb_rowMatrix t = Some m → ts_matrix s = None → RowSize t = Ok rowSize → 0 ≤ i → 0 ≤ rowSize → i * rowSize + rowSize ≤ blen m →
  getRow depth levels t rowID i s = (s, Ok (mkTableRow rowID (sub m (i * rowSize) rowSize))).
Proof.
  intros Hm Hs Hr Hi Hz Hl. unfold getRow, mbind, ST_bind, lift, get. rewrite Hr, Hs, Hm. rewrite (proj2 (Z.ltb_ge _ _)) by lia.
  rewrite slice_Ok by nia. by replace (i * rowSize + rowSize - i * rowSize) with rowSize by lia.
Qed.
Lemma yield_rows_matrix {H} `{HeapReader H} depth levels (t : Table H) m rowSize s es :
  tb_rowMatrix t = Some m → ts_matrix s = None → RowSize t = Ok rowSize → 0 ≤ rowSize →
  Forall (λ e, bytes_ok e.1 ∧ bytes_ok e.2 ∧ blen e.1 = 4 ∧ blen e.2 = 4 ∧ le_dec e.2 * rowSize + rowSize ≤ blen m) es →
  yield_rows depth levels t (map (λ e : bytes * bytes, Ok (mkBTHEntry e.1 e.2)) es) s = (s, Ok (map (λ e, Ok (row_of m rowSize e)) es)).
Proof.
  intros Hm Hs Hr Hz Hf. induction Hf as [|e es (Hb1 & Hb2 & H1 & H2 & Hl) _ IH]; [done|]. cbn [map yield_rows BE_Key BE_Value].
  rewrite H1, H2. change ((4 <? 4) || (4 <? 4)) with false. cbv iota.
  rewrite !rd_Ok by lia. rewrite !sub_all by (done || lia).
  rewrite (getRow_matrix depth levels t m _ (le_dec e.2) rowSize s) by (done || apply le_dec_bound; done). by rewrite IH.
Qed.

(** The rows of a table are those of its index: with the row matrix in the
    heap and a row index whose entries point inside it, [Rows] yields one row
    for each entry in order, its data the window of the matrix that the entry
    names, [GetRow] returns the row of an ID and nothing for other IDs, and
    [RowCount] counts the entries. *)
Theorem rows_follow_index {H} `{HeapReader H} depth levels (t : Table H) n es m rowSize s :
  bth_header (tb_rowBTH t) = mkBTHHeader HeapSigBTH 4 4 (Z.of_nat n) (BTH_RootID (bth_header (tb_rowBTH t))) →
  BTH_RootID (bth_header (tb_rowBTH t)) ≠ 0 →
  bth_tree (λ hid data, hread (bth_heap (tb_rowBTH t)) hid = Ok data) 4 4 n (BTH_RootID (bth_header (tb_rowBTH t))) es →
  StronglySorted (key_lt compareKeys) es →
  tb_rowMatrix t = Some m → ts_matrix s = None → RowSize t = Ok rowSize → 0 ≤ rowSize →
  Forall (λ e, bytes_ok e.1 ∧ bytes_ok e.2 ∧ blen e.1 = 4 ∧ blen e.2 = 4 ∧ le_dec e.2 * rowSize + rowSize ≤ blen m) es →
  Rows depth levels t s = (s, Ok (map (λ e, Ok (row_of m rowSize e)) es)) ∧
  (∀ id, fits 32 id → GetRow depth levels t id s =
    match lookup_key (le_enc 4 id) es with
    | Some v => (s, Ok (row_of m rowSize (le_enc 4 id, v)))
    | None => (s, Err (EFmt "row not found: %d" [id]))
    end) ∧
  RowCount t = Ok (blen es).
Proof.
  intros Eh Hr Ht Hs Hm Hn Hrs Hz Hf.
  destruct (bth_reads_tree_aux (tb_rowBTH t) 4 4 n es Eh Hr) as (HL & _ & HE); [done..|].
  split; [|split].
  - unfold Rows. rewrite HE. by apply yield_rows_matrix.
  - intros id Hid. unfold GetRow. rewrite HL by done. destruct (lookup_key (le_enc 4 id) es) as [v|] eqn:El; [|done].
    unfold lookup_key in El. destruct (List.find _ es) as [e|] eqn:Ef; [|done]. injection El as <-. apply find_some in Ef as [Hin Hk].
    rewrite Forall_forall in Hf. destruct (Hf e) as (Hb1 & Hb2 & H1 & H2 & Hl); [by apply list_elem_of_In|].
    unfold mbind, ST_bind, lift. rewrite rd_Ok by lia. rewrite sub_all by (done || lia). cbn [fst snd].
    rewrite (getRow_matrix depth levels t m id (le_dec e.2) rowSize s) by (done || apply le_dec_bound; done).
    unfold row_of. cbn [fst snd]. by rewrite le_dec_enc_fits.
  - unfold RowCount. rewrite HE. clear. induction es as [|e es IH]; [done|]. cbn [map count_entries]. rewrite IH, bind_Ok. cbn.
    f_equal. rewrite blen_cons. lia.
Qed.
Lemma rows_follow_index_witness :
  let s := mkTState sample_blocks_db (newNode (mkNodeInfo 33 8 0 0)) None in
  Rows 1 1 sample_table s = (s, Ok [Ok (mkTableRow 33 [7; 0; 0; 0; 1]); Ok (mkTableRow 65 [9; 0; 0; 0; 0])]).
Proof.
  intros s.
  refine (proj1 (rows_follow_index 1 1 sample_table 0 [([33; 0; 0; 0], [0; 0; 0; 0]); ([65; 0; 0; 0], [1; 0; 0; 0])]
    [7; 0; 0; 0; 1; 9; 0; 0; 0; 0] 5 s _ _ _ _ _ _ _ _ _)).
  - done.
  - done.
  - split; [done|]. by repeat constructor.
  - by repeat constructor.
  - done.
  - done.
  - done.
  - done.
  - repeat constructor; done.
Defined.

(** A row index with values of fewer than four bytes, as ANSI files have it,
    is not usable: [Rows] yields nothing although the index has entries, and
    [GetRow] panics on every ID that the index has. *)
Theorem narrow_index_unusable {H} `{HeapReader H} depth levels (t : Table H) n es vs s :
  0 ≤ vs < 4 →
  bth_header (tb_rowBTH t) = mkBTHHeader HeapSigBTH 4 vs (Z.of_nat n) (BTH_RootID (bth_header (tb_rowBTH t))) →
  BTH_RootID (bth_header (tb_rowBTH t)) ≠ 0 →
  bth_tree (λ hid data, hread (bth_heap (tb_rowBTH t)) hid = Ok data) 4 vs n (BTH_RootID (bth_header (tb_rowBTH t))) es →
  StronglySorted (key_lt compareKeys) es → Forall (entry_wf 4 vs) es →
  Rows depth levels t s = (s, Ok []) ∧
  ∀ id v, lookup_key (le_enc 4 id) es = Some v → GetRow depth levels t id s = (s, Panic).
Proof.
  intros Hv Eh Hr Ht Hs Hw.
  destruct (bth_reads_tree_aux (tb_rowBTH t) 4 vs n es Eh Hr) as (HL & _ & HE); [lia|lia|lia|done|done|]. split.
  - unfold Rows. rewrite HE. clear -Hw Hv. induction Hw as [|e es [H1 H2] _ IH]; [done|]. cbn [map yield_rows BE_Key BE_Value].
    rewrite H1, H2. by rewrite (proj2 (Z.ltb_lt vs 4)), orb_true_r by lia.
  - intros id v El. unfold GetRow. rewrite HL by done. rewrite El. unfold lookup_key in El.
    destruct (List.find _ es) as [e|] eqn:Ef; [|done]. injection El as <-. apply find_some in Ef as [Hin _].
    rewrite Forall_forall in Hw. destruct (Hw e) as [_ H2]; [by apply list_elem_of_In|].
    unfold mbind, ST_bind, lift. by rewrite rd_Panic by lia.
Qed.
Definition ansi_table : Table (list heapAllocation) :=
  let heap := [mkHeapAlloc 64 [33; 0; 0; 0; 0; 0]] in
  mkTable heap (mkTCHeader HeapSigTC 1 [4; 4; 4; 5] 0 96 [mkColumn PropTypeInt32 PidTagContentCount 0 4 0])
    (mkBTH heap (mkBTHHeader HeapSigBTH 4 2 0 64)) (Some [7; 0; 0; 0; 1]).
Lemma narrow_index_unusable_witness :
  let s := mkTState sample_blocks_db (newNode (mkNodeInfo 33 8 0 0)) None in
  Rows 1 1 ansi_table s = (s, Ok []) ∧
  ∀ id v, lookup_key (le_enc 4 id) [([33; 0; 0; 0], [0; 0])] = Some v → GetRow 1 1 ansi_table id s = (s, Panic).
Proof.
  intros s. refine (narrow_index_unusable 1 1 ansi_table 0 [([33; 0; 0; 0], [0; 0])] 2 s _ _ _ _ _ _).
  - done.
  - done.
  - done.
  - split; [done|]. by repeat constructor.
  - by repeat constructor.
  - by repeat constructor.
Defined.

(** ** What the writer builds *)
Lemma blen_column_offsets cols : ∀ off, blen (column_offsets off cols) = blen cols.
Proof. induction cols as [|c cols IH]; intros off; [done|]. cbn [column_offsets]. by rewrite !blen_cons, IH. Qed.
Lemma on_theap_allocate data w w' hid : on_theap (HeapAllocate data) w = (w', Ok hid) → in_heap (tw_heap w') hid data.
Proof.
  unfold on_theap, zoom, HeapAllocate. destruct (_ <? _); [by intros [= <-]|]. cbv zeta. intros [= <- <-]. cbn [tw_heap]. unfold in_heap. cbn.
  apply elem_of_app. right. by apply list_elem_of_singleton.
Qed.
Lemma wrap_Ok_inv {S A} ctx (m : ST S A) s s' a : wrap ctx m s = (s', Ok a) → m s = (s', Ok a).
Proof. unfold wrap. destruct (m s) as [s1 [b|e|]]; cbn; congruence. Qed.

(** C29: No table that [TableWriter] builds can be opened: the TCINFO that [Build]
    makes the root of the heap announces the columns and ends before the first
    descriptor, so the parser reports a truncated header, for every table whose
    column count is not a multiple of 256. *)
Theorem table_never_opens depth w w' page :
  u8 (blen (tw_columns w)) ≠ 0 → TableBuild depth w = (w', Ok page) →
  ∃ info, in_heap (tw_heap w') (hw_rootHID (tw_heap w')) info ∧
    parseTCHeader info = Err (EFmt "TC header truncated at column %d" [0]).
Proof.
  intros Hc HB. unfold TableBuild in HB. apply st_bind_inv in HB as (? & ? & [= <- <-] & HB).
  destruct (blen (tw_columns w) =? 0); [done|]. apply st_bind_inv in HB as (w1 & [] & E1 & HB).
  apply st_bind_inv in HB as (? & ? & [= <- <-] & HB). apply st_bind_inv in HB as (w2 & m & _ & HB).
  destruct (_ <? blen m); [done|]. apply st_bind_inv in HB as (w3 & mhid & _ & HB). apply st_bind_inv in HB as (w4 & bhid & _ & HB).
  apply st_bind_inv in HB as (w5 & chid & _ & HB). apply st_bind_inv in HB as (w6 & ihid & E6%wrap_Ok_inv & HB).
  apply st_bind_inv in HB as (w7 & [] & E7 & HB). apply st_bind_inv in HB as (? & ? & [= <- <-] & HB).
  apply on_theap_allocate in E6. injection HB as <- _. injection E7 as <-. cbn [tw_heap hw_rootHID SetRoot modify].
  eexists. split; [exact E6|]. injection E1 as <-. clear E6. unfold buildTCInfo. cbn [tw_columns set_columns].
  rewrite blen_column_offsets. set (info := [HeapSigTC; _] ++ _). unfold parseTCHeader.
  assert (blen info = 22) as Hl by done. rewrite Hl. change (22 <? 22) with false. cbv iota.
  change (index info 0) with (Ok HeapSigTC). change (index info 1) with (Ok (u8 (blen (tw_columns w)))). rewrite !bind_Ok.
  change (negb (HeapSigTC =? HeapSigTC)) with false. cbv iota.
  destruct (parse_entries_total (λ off, rd 2 off info) 22 2 4 2) as [offs ->]; [lia|lia| |lia|].
  { intros o H1 H2. rewrite rd_Ok by lia. by eexists. }
  rewrite bind_Ok. rewrite !rd_Ok by lia. rewrite !bind_Ok.
  destruct (Z.to_nat (u8 (blen (tw_columns w)))) as [|k] eqn:Ek; [pose proof (u8_range (blen (tw_columns w))); lia|].
  cbn [parse_columns]. rewrite Hl. done.
Qed.
Lemma table_never_opens_witness :
  ∃ w' info, in_heap (tw_heap w') (hw_rootHID (tw_heap w')) info ∧ parseTCHeader info = Err (EFmt "TC header truncated at column %d" [0]).
Proof.
  destruct (TableBuild 8 (CreateHierarchyTable FormatUnicode)) as [w' [page|e|]] eqn:E; [|by vm_compute in E..].
  exists w'. refine (table_never_opens 8 (CreateHierarchyTable FormatUnicode) w' page _ E). by vm_compute.
Defined.
