(* ===== verification/NamedProp.v ===== *)
(** * Named properties

    Models [pkg/ltp/namedprop.go]: the map between named properties and the IDs
    from 0x8000 on, read from the streams of the name-to-ID node. *)
From S2P Require Import Prelude Format Codec Ids State Database BTree Node Heap BTH Text PropType PropBag.

#[export] Instance GUID_eq_dec : EqDecision GUID.
Proof. solve_decision. Defined.
#[export] Program Instance GUID_countable : Countable GUID :=
  inj_countable' (λ g, (Data1 g, Data2 g, Data3 g, Data4 g)) (λ t, mkGUID t.1.1.1 t.1.1.2 t.1.2 t.2) _.
Next Obligation. by intros []. Qed.

Definition MNID_ID : Z := 0.
Definition MNID_STRING : Z := 1.
Record NamedProperty := mkNamedProperty { NP_GUID : GUID; NP_Kind : Z; NP_ID : Z; NP_Name : bytes; NP_PropID : Z }.
Record NamedPropertyMap := mkNamedPropertyMap {
  npm_entries : gmap Z NamedProperty;
  byGUIDAndID : gmap GUID (gmap Z NamedProperty);
  byGUIDAndName : gmap GUID (gmap (list Z) NamedProperty) }.
Definition emptyMap : NamedPropertyMap := mkNamedPropertyMap ∅ ∅ ∅.

(** [m[k1][k2] = v], making the inner map when it is missing. *)
Definition insert2 {K} `{Countable K} (g : GUID) (k : K) (v : NamedProperty) (m : gmap GUID (gmap K NamedProperty)) :=
  <[g := <[k := v]> (default ∅ (m !! g))]> m.
Definition addEntry (npm : NamedPropertyMap) (np : NamedProperty) : NamedPropertyMap :=
  let entries := <[NP_PropID np := np]> (npm_entries npm) in
  if NP_Kind np =? MNID_ID
  then mkNamedPropertyMap entries (insert2 (NP_GUID np) (NP_ID np) np (byGUIDAndID npm)) (byGUIDAndName npm)
  else mkNamedPropertyMap entries (byGUIDAndID npm) (insert2 (NP_GUID np) (NP_Name np) np (byGUIDAndName npm)).

Fixpoint parse_guids (data : bytes) (n : nat) (i : Z) : result (list GUID) :=
  match n with
  | O => Ok []
  | S n => d ← slice data (i * 16) (blen data); g ← GUIDFromBytes d; gs ← parse_guids data n (i + 1); mret (g :: gs)
  end.
Definition parseGUIDStream (data : bytes) : result (list GUID) :=
  if negb (blen data mod 16 =? 0) then Err (EFmt "invalid GUID stream length: %d" [blen data])
  else parse_guids data (Z.to_nat (blen data / 16)) 0.
Definition readStringFromStream (data : bytes) (offset : Z) : result bytes :=
  if blen data <=? offset then Ok [] else
  if blen data <? offset + 4 then Ok [] else
  strLen ← rd 4 offset data;
  let start := offset + 4 in
  let stop := if blen data <? start + strLen then blen data else start + strLen in
  strData ← slice data start stop; mret (decodeUTF16LE strData).
(** The GUID of an index: 0 and 1 are predefined, the others are in the stream. *)
Definition guid_at (guids : list GUID) (guidIndex : Z) : option GUID :=
  if guidIndex =? 0 then Some PS_MAPI
  else if guidIndex =? 1 then Some PS_PUBLIC_STRINGS
  else guids !! Z.to_nat (guidIndex - 2).
(** One entry of the stream; [None]: it is skipped. *)
Definition parse_entry (entry : bytes) (guids : list GUID) (stringData : bytes) : result (option NamedProperty) :=
  dwPropertyID ← rd 4 0 entry; wGuid ← rd 2 4 entry; wPropIdx ← rd 2 6 entry;
  let kind := Z.land wGuid 1 in
  match guid_at guids (Z.shiftr wGuid 1) with
  | None => Ok None
  | Some guid =>
    let propID := u16 (0x8000 + wPropIdx) in
    if kind =? MNID_ID then Ok (Some (mkNamedProperty guid kind dwPropertyID [] propID)) else
    name ← (if dwPropertyID <? blen stringData then readStringFromStream stringData dwPropertyID else Ok []);
    Ok (Some (mkNamedProperty guid kind 0 name propID))
  end.
Fixpoint parse_named (entryData : bytes) (guids : list GUID) (stringData : bytes) (n : nat) (i : Z) (npm : NamedPropertyMap)
    : result NamedPropertyMap :=
  match n with
  | O => Ok npm
  | S n =>
    entry ← slice entryData (i * 8) (i * 8 + 8);
    np ← parse_entry entry guids stringData;
    parse_named entryData guids stringData n (i + 1) (match np with Some np => addEntry npm np | None => npm end)
  end.
Definition parseEntries (entryData : bytes) (guids : list GUID) (stringData : bytes) (npm : NamedPropertyMap) : result NamedPropertyMap :=
  if negb (blen entryData mod 8 =? 0) then Err (EFmt "invalid entry stream length: %d" [blen entryData])
  else parse_named entryData guids stringData (Z.to_nat (blen entryData / 8)) 0 npm.

(** [x, err := m]: the error is a value. *)
Definition try {S A} (m : ST S A) : ST S (A + error) := λ s,
  match m s with (s, Ok a) => (s, Ok (inl a)) | (s, Err e) => (s, Ok (inr e)) | (s, Panic) => (s, Panic) end.
Definition NewNamedPropertyMap (depth levels : nat) : ST NState NamedPropertyMap :=
  do pb <- wrap "failed to create property bag" (NewPropertyBag depth levels);
  do guidData <- try (GetBinary depth levels pb 2);
  match guidData with
  | inr _ => mret emptyMap
  | inl guidData =>
    do guids <- wrap "failed to parse GUID stream" (lift (parseGUIDStream guidData));
    do entryData <- try (GetBinary depth levels pb 3);
    match entryData with
    | inr _ => mret emptyMap
    | inl entryData =>
      do stringData <- try (GetBinary depth levels pb 4);
      wrap "failed to parse named property entries"
        (lift (parseEntries entryData guids (match stringData with inl d => d | inr _ => [] end) emptyMap))
    end
  end.

Definition Lookup2 {K} `{Countable K} (m : gmap GUID (gmap K NamedProperty)) (guid : GUID) (k : K) : option NamedProperty :=
  m !! guid ≫= λ inner, inner !! k.
Definition LookupNamed (npm : NamedPropertyMap) (guid : GUID) (id : Z) : option NamedProperty := Lookup2 (byGUIDAndID npm) guid id.
Definition LookupByName (npm : NamedPropertyMap) (guid : GUID) (name : bytes) : option NamedProperty := Lookup2 (byGUIDAndName npm) guid name.
Definition LookupByPropID (npm : NamedPropertyMap) (propID : Z) : option NamedProperty := npm_entries npm !! propID.
Definition GetPropID (npm : NamedPropertyMap) (guid : GUID) (id : Z) : option Z := NP_PropID <$> LookupNamed npm guid id.
Definition GetPropIDByName (npm : NamedPropertyMap) (guid : GUID) (name : bytes) : option Z := NP_PropID <$> LookupByName npm guid name.
(** The iteration order of the map is left open. *)
Definition NamedEntries (npm : NamedPropertyMap) : list NamedProperty := (map_to_list (npm_entries npm)).*2.
Definition NamedCount (npm : NamedPropertyMap) : Z := Z.of_nat (size (npm_entries npm)).

(** ** The maps against the list of entries *)

(** The last named property that satisfies [P]. *)
Definition last_such (P : NamedProperty → bool) (nps : list NamedProperty) : option NamedProperty := List.find P (rev nps).
Lemma last_such_snoc P nps np : last_such P (nps ++ [np]) = if P np then Some np else last_such P nps.
Proof. unfold last_such. by rewrite rev_app_distr. Qed.
Definition is_numeric (guid : GUID) (id : Z) (np : NamedProperty) : bool :=
  (NP_Kind np =? MNID_ID) && bool_decide (NP_GUID np = guid) && bool_decide (NP_ID np = id).
Definition is_named (guid : GUID) (name : bytes) (np : NamedProperty) : bool :=
  negb (NP_Kind np =? MNID_ID) && bool_decide (NP_GUID np = guid) && bool_decide (NP_Name np = name).

Lemma Lookup2_insert2 {K} `{Countable K} (m : gmap GUID (gmap K NamedProperty)) g k v g' k' :
  Lookup2 (insert2 g k v m) g' k' = if bool_decide (g = g') && bool_decide (k = k') then Some v else Lookup2 m g' k'.
Proof.
  unfold Lookup2, insert2. case_bool_decide as Hg; cbn [andb].
  - subst g'. rewrite lookup_insert_eq. cbn [mbind option_bind]. case_bool_decide as Hk.
    + subst k'. by rewrite lookup_insert_eq.
    + rewrite lookup_insert_ne by done. by destruct (m !! g).
  - by rewrite lookup_insert_ne.
Qed.
Lemma addEntries_lookup nps : let npm := fold_left addEntry nps emptyMap in
  (∀ guid id, LookupNamed npm guid id = last_such (is_numeric guid id) nps) ∧
  (∀ guid name, LookupByName npm guid name = last_such (is_named guid name) nps) ∧
  (∀ p, LookupByPropID npm p = last_such (λ np, bool_decide (NP_PropID np = p)) nps).
Proof.
  induction nps as [|np nps IH] using rev_ind; [done|]. cbv zeta in *.
  rewrite fold_left_app. cbn [fold_left]. set (m := fold_left addEntry nps emptyMap) in *. destruct IH as (I1 & I2 & I3).
  split; [|split].
  - intros guid id. rewrite last_such_snoc, <- I1. unfold addEntry, is_numeric, LookupNamed. destruct (NP_Kind np =? MNID_ID); [|done].
    cbn [byGUIDAndID andb]. by rewrite Lookup2_insert2.
  - intros guid name. rewrite last_such_snoc, <- I2. unfold addEntry, is_named, LookupByName. destruct (NP_Kind np =? MNID_ID); [done|].
    cbn [byGUIDAndName andb negb]. by rewrite Lookup2_insert2.
  - intros p. rewrite last_such_snoc, <- I3. unfold LookupByPropID.
    assert (npm_entries (addEntry m np) = <[NP_PropID np := np]> (npm_entries m)) as -> by (unfold addEntry; by destruct (_ =? _)).
    case_bool_decide as E; [by rewrite <- E, lookup_insert_eq|by rewrite lookup_insert_ne].
Qed.

(** The entries of the stream as the format lays them out. *)
Record NameId := mkNameId { ni_id : Z; ni_kind : Z; ni_guid : Z; ni_index : Z }.
Definition nameid_wf (e : NameId) : Prop :=
  fits 32 (ni_id e) ∧ (ni_kind e = MNID_ID ∨ ni_kind e = MNID_STRING) ∧ fits 15 (ni_guid e) ∧ fits 16 (ni_index e).
Definition enc_nameid (e : NameId) : bytes := le_enc 4 (ni_id e) ++ le_enc 2 (ni_guid e * 2 + ni_kind e) ++ le_enc 2 (ni_index e).
(** A counted string at an offset of the string stream; reads beyond the stream
    give the empty string or what is left. *)
Definition string_at (strings : bytes) (off : Z) : bytes :=
  if blen strings <? off + 4 then []
  else decodeUTF16LE (take (Z.to_nat (le_dec (sub strings off 4))) (drop (Z.to_nat (off + 4)) strings)).
Definition named_of (guids : list GUID) (strings : bytes) (e : NameId) : option NamedProperty :=
  guid ← (PS_MAPI :: PS_PUBLIC_STRINGS :: guids) !! Z.to_nat (ni_guid e);
  let propID := u16 (0x8000 + ni_index e) in
  if ni_kind e =? MNID_ID then Some (mkNamedProperty guid MNID_ID (ni_id e) [] propID)
  else Some (mkNamedProperty guid MNID_STRING 0 (string_at strings (ni_id e)) propID).

Lemma guid_at_lookup guids i : 0 ≤ i → guid_at guids i = (PS_MAPI :: PS_PUBLIC_STRINGS :: guids) !! Z.to_nat i.
Proof.
  intros Hi. unfold guid_at. destruct (Z.eqb_spec i 0) as [->|]; [done|]. destruct (Z.eqb_spec i 1) as [->|]; [done|].
  replace (Z.to_nat i) with (S (S (Z.to_nat (i - 2)))) by lia. done.
Qed.
Lemma readString_at strings off : bytes_ok strings → 0 ≤ off → off < blen strings → readStringFromStream strings off = Ok (string_at strings off).
Proof.
  intros Hb Ho Hl. unfold readStringFromStream, string_at. rewrite (proj2 (Z.leb_gt _ _)) by done.
  destruct (Z.ltb_spec (blen strings) (off + 4)); [done|]. rewrite rd_Ok by lia. rewrite bind_Ok. change (Z.of_nat 4) with 4.
  set (n := le_dec _). assert (0 ≤ n) by (apply le_dec_bound; auto with pst). cbv zeta.
  rewrite slice_Ok by (repeat case_match; lia). rewrite bind_Ok. cbn [mret result_ret]. do 2 f_equal. unfold sub.
  destruct (Z.ltb_spec (blen strings) (off + 4 + n)) as [Hlt|Hge].
  - rewrite !take_ge; [done|unfold blen in *; rewrite length_drop; lia|unfold blen in *; rewrite length_drop; lia].
  - f_equal. lia.
Qed.
Lemma parse_entry_exact e guids strings : bytes_ok strings → nameid_wf e →
  parse_entry (enc_nameid e) guids strings = Ok (named_of guids strings e).
Proof.
  intros Hb (H1 & Hk & H3 & H4). unfold parse_entry. assert (fits 16 (ni_guid e * 2 + ni_kind e)) as H2.
  { unfold fits, MNID_ID, MNID_STRING in *. destruct Hk as [->| ->]; lia. }
  assert (rd 4 0 (enc_nameid e) = Ok (ni_id e)) as ->.
  { unfold enc_nameid. rewrite rd_Ok by done. by rewrite sub_app_l, sub_all, le_dec_enc_fits. }
  assert (rd 2 4 (enc_nameid e) = Ok (ni_guid e * 2 + ni_kind e)) as ->.
  { unfold enc_nameid. rewrite rd_Ok by done. by rewrite sub_app_r, sub_app_l, sub_all, le_dec_enc_fits. }
  assert (rd 2 6 (enc_nameid e) = Ok (ni_index e)) as ->.
  { unfold enc_nameid. rewrite rd_Ok by done. by rewrite sub_app_r, sub_app_r, sub_all, le_dec_enc_fits. }
  rewrite !bind_Ok. rewrite shiftr_div by done. change (2 ^ 1) with 2.
  assert ((ni_guid e * 2 + ni_kind e) / 2 = ni_guid e) as ->.
  { unfold MNID_ID, MNID_STRING in *. Z.to_euclidean_division_equations. lia. }
  assert (Z.land (ni_guid e * 2 + ni_kind e) 1 = ni_kind e) as ->.
  { change 1 with (Z.ones 1). rewrite land_low by done. unfold MNID_ID, MNID_STRING in *. change (2 ^ 1) with 2. Z.to_euclidean_division_equations. lia. }
  unfold named_of. rewrite guid_at_lookup by apply H3. destruct (_ !! Z.to_nat (ni_guid e)) as [guid|]; [|done]. cbn [mbind option_bind].
  destruct Hk as [-> | ->]; [done|]. change (MNID_STRING =? MNID_ID) with false. cbv iota. destruct (Z.ltb_spec (ni_id e) (blen strings)).
  - rewrite readString_at by (done || apply H1). done.
  - rewrite bind_Ok. unfold string_at. by rewrite (proj2 (Z.ltb_lt _ _)) by lia.
Qed.
Lemma blen_enc_nameids es : blen (concat (map enc_nameid es)) = 8 * blen es.
Proof.
  induction es as [|e es IH]; [done|]. cbn [map concat]. rewrite blen_app, IH, blen_cons. unfold enc_nameid. autorewrite with blen. lia.
Qed.
Lemma parse_named_exact guids strings es : ∀ pre npm, bytes_ok strings → Forall nameid_wf es →
  parse_named (concat (map enc_nameid pre) ++ concat (map enc_nameid es)) guids strings (length es) (blen pre) npm =
    Ok (fold_left addEntry (omap (named_of guids strings) es) npm).
Proof.
  induction es as [|e es IH]; intros pre npm Hb Hf; [done|]. apply Forall_cons in Hf as [He Hf]. cbn [length parse_named].
  pose proof (blen_nonneg pre). pose proof (blen_nonneg es).
  assert (blen (enc_nameid e) = 8) as H8 by (unfold enc_nameid; autorewrite with blen; lia).
  rewrite slice_Ok by (rewrite ?blen_app, ?blen_enc_nameids, ?blen_cons; lia).
  assert (sub (concat (map enc_nameid pre) ++ concat (map enc_nameid (e :: es))) (blen pre * 8) (blen pre * 8 + 8 - blen pre * 8) = enc_nameid e) as ->.
  { rewrite sub_app_r by (rewrite ?blen_enc_nameids; lia). rewrite blen_enc_nameids. cbn [map concat].
    rewrite sub_app_l by lia. apply sub_all; lia. }
  rewrite bind_Ok, parse_entry_exact, bind_Ok by done.
  specialize (IH (pre ++ [e])). rewrite map_app, concat_app, <- app_assoc, blen_app in IH. cbn [map concat] in IH |- *.
  rewrite app_nil_r in IH. change (blen [e]) with 1 in IH. rewrite IH by done. f_equal. cbn [omap list_omap].
  by destruct (named_of guids strings e).
Qed.

(** C27: The named properties of a file are those of its entry stream: parsing a
    stream of entries succeeds, and the lookups by GUID and number, by GUID and
    name, and by property ID each find the last entry that matches, where an
    entry stands for the GUID its index names and, for a name, the counted string
    at its offset; entries with an index beyond the GUID stream are left out. *)
Theorem named_lookups_exact es guids strings :
  Forall nameid_wf es → bytes_ok strings →
  let nps := omap (named_of guids strings) es in
  ∃ npm, parseEntries (concat (map enc_nameid es)) guids strings emptyMap = Ok npm ∧
    (∀ guid id, LookupNamed npm guid id = last_such (is_numeric guid id) nps) ∧
    (∀ guid name, LookupByName npm guid name = last_such (is_named guid name) nps) ∧
    (∀ p, LookupByPropID npm p = last_such (λ np, bool_decide (NP_PropID np = p)) nps).
Proof.
  intros Hf Hb nps. exists (fold_left addEntry nps emptyMap). split; [|apply addEntries_lookup].
  unfold parseEntries. rewrite blen_enc_nameids. rewrite Z.mul_comm, Z.mod_mul by done. cbn [Z.eqb negb]. rewrite Z.div_mul by done.
  replace (Z.to_nat (blen es)) with (length es) by (unfold blen; lia). exact (parse_named_exact guids strings es [] emptyMap Hb Hf).
Qed.
Definition sample_names : bytes := le_enc 4 6 ++ [75; 0; 101; 0; 121; 0].
Definition sample_entries : list NameId := [mkNameId 0x8205 MNID_ID 2 0; mkNameId 0 MNID_STRING 1 1; mkNameId 0x8205 MNID_ID 2 2].
Lemma named_lookups_exact_witness :
  ∃ npm, parseEntries (concat (map enc_nameid sample_entries)) [PSETID_Appointment] sample_names emptyMap = Ok npm ∧
    (∀ guid id, LookupNamed npm guid id = last_such (is_numeric guid id) (omap (named_of [PSETID_Appointment] sample_names) sample_entries)) ∧
    (∀ guid name, LookupByName npm guid name = last_such (is_named guid name) (omap (named_of [PSETID_Appointment] sample_names) sample_entries)) ∧
    (∀ p, LookupByPropID npm p = last_such (λ np, bool_decide (NP_PropID np = p)) (omap (named_of [PSETID_Appointment] sample_names) sample_entries)).
Proof.
  refine (named_lookups_exact sample_entries [PSETID_Appointment] sample_names _ _).
  - repeat constructor; done.
  - by repeat constructor.
Defined.
Example sample_entries_names :
  omap (named_of [PSETID_Appointment] sample_names) sample_entries =
    [mkNamedProperty PSETID_Appointment MNID_ID 0x8205 [] 0x8000; mkNamedProperty PS_PUBLIC_STRINGS MNID_STRING 0 (string_bytes "Key") 0x8001;
     mkNamedProperty PSETID_Appointment MNID_ID 0x8205 [] 0x8002].
Proof. by vm_compute. Qed.
