(* ===== verification/V2Base.v ===== *)
(** * Writer v2: errors, constants, geometry, sizes

    [src/writer/v2/errors.go], [spec.go], [geometry.go], [codec.go] and the
    block-identifier helpers of [bid.go] (the counters are in Ids.v).  Offsets
    are [uint64]: every sum and product wraps. *)
From S2P Require Import Prelude Ids Crypt.

(** ** Errors

    A [*Error] of the package carries its code, the MS-PST section (empty for
    contract errors), the field and the detail.  The detail keeps its format
    string and its integer arguments; the section names printed by a trailing
    [%s] are left out. *)
Definition CodeInvariant : string := "invariant".
Definition CodeUnsupported : string := "unsupported".
Definition CodeLimit : string := "limit".
Definition CodeInvalidArg : string := "invalid-argument".
Definition CodeIO : string := "io".
Definition CodeClosed : string := "closed".
Definition CodeAdopt : string := "adopt".

Definition v2error (code section field fmt : string) (args : list Z) : error :=
  EWrap code (EWrap section (EWrap field (EFmt fmt args))).
Definition invariant {A} (section field fmt : string) (args : list Z) : result A :=
  Err (v2error CodeInvariant section field fmt args).
Definition limitErr {A} (field fmt : string) (args : list Z) : result A :=
  Err (v2error CodeLimit EmptyString field fmt args).
Definition invalidArg {A} (field fmt : string) (args : list Z) : result A :=
  Err (v2error CodeInvalidArg EmptyString field fmt args).
Definition unsupported {A} (feature detail : string) : result A :=
  Err (v2error CodeUnsupported EmptyString feature detail []).
Definition ioErr {A} (field fmt : string) (args : list Z) : result A :=
  Err (v2error CodeIO EmptyString field fmt args).
(** [e.Code] and the parts of an error that a caller inspects. *)
Definition error_code (e : error) : string :=
  match e with EWrap c _ => c | EFmt _ _ => EmptyString end.
Definition error_field (e : error) : string :=
  match e with EWrap _ (EWrap _ (EWrap f _)) => f | _ => EmptyString end.
(** [rollbackErr]: both errors are kept when both are there. *)
Definition rollbackErr (op rb : option error) : option error :=
  match op, rb with
  | None, _ => rb
  | _, None => op
  | Some e, Some r => Some (EWrap "rollback" (EWrap (error_code r) e))
  end.

(** ** Constants ([spec.go]) *)
Definition UnicodePageTrailer : Z := 16.
Definition UnicodeBlockTrailer : Z := 16.
Definition BytesPerSlot : Z := 64.
Definition AMapBitmapBytes : Z := 496.
Definition SlotsPerAMap : Z := AMapBitmapBytes * 8.
Definition AMapCoverageBytes : Z := SlotsPerAMap * BytesPerSlot.
Definition PageSize : Z := 512.
Definition PMapCoverageBytes : Z := SlotsPerAMap * PageSize.
Definition AMapsPerPMap : Z := PMapCoverageBytes / AMapCoverageBytes.
Definition FMapHeaderAMaps : Z := 128.
Definition FMapPageAMaps : Z := AMapBitmapBytes.
Definition FPMapHeaderPMaps : Z := 128 * 8.
Definition FPMapPagePMaps : Z := AMapBitmapBytes * 8.
Definition FirstAMapPageOffset : Z := 0x4400.
Definition FirstPMapPageOffset : Z := 0x4600.
Definition DListPageOffset : Z := 0x4200.
Definition DListMaxEntries : Z := 119.
Definition MaxDataBlockCB : Z := 8176.
Definition MaxAllocBytes : Z := 8192.
Definition FirstAllocBID : Z := 4.
Definition CryptNone : Z := 0.
Definition CryptPermute : Z := 1.
Definition CryptCyclic : Z := 2.
Definition CryptWIP : Z := 0x10.
Definition PageBBT : Z := 0x80.
Definition PageNBT : Z := 0x81.
Definition PageFMap : Z := 0x82.
Definition PagePMap : Z := 0x83.
Definition PageAMap : Z := 0x84.
Definition PageFPMap : Z := 0x85.
Definition PageDList : Z := 0x86.

(** ** Node identifiers *)
Definition NIDTypeOf (nid : Z) : Z := u8 (Z.land nid 0x1F).
Definition NIDIndexOf (nid : Z) : Z := Z.shiftr nid 5.
Definition RelatedNID (folder nidType : Z) : Z := MakeNID nidType (NIDIndexOf folder).

(** ** Sizes *)
Definition Align64 (size : Z) : Z := Z.ldiff (u64 (size + 63)) 63.
Definition BlockDiskSize (cb : Z) : Z := Align64 (u64 (cb + UnicodeBlockTrailer)).
Definition PagePayloadMax : Z := PageSize - UnicodePageTrailer.
Definition ValidateBlockCB (cb : Z) : result Z :=
  if MaxDataBlockCB <? cb
  then invalidArg "cb" "block data %d exceeds Unicode max %d (MS-PST %s)" [cb; MaxDataBlockCB] else
  let disk := BlockDiskSize cb in
  if MaxAllocBytes <? disk then limitErr "size" "on-disk block %d exceeds MS-PST max %d" [disk; MaxAllocBytes] else
  if negb (disk mod BytesPerSlot =? 0)
  then invariant "2.2.2.8" "alignment" "on-disk block size %d is not a multiple of %d" [disk; BytesPerSlot] else
  if disk <? UnicodeBlockTrailer
  then invariant "2.2.2.8.1" "size" "on-disk block %d shorter than trailer" [disk]
  else mret disk.

(** ** Obfuscation *)
Definition knownCrypt (method : Z) : bool :=
  (method =? CryptNone) || (method =? CryptPermute) || (method =? CryptCyclic).
Definition cryptData (data : bytes) (method bid : Z) : result bytes :=
  if method =? CryptNone then mret data
  else if method =? CryptPermute then mret (PermuteEncode data)
  else if method =? CryptCyclic then mret (CyclicEncode data (u32 bid))
  else if method =? CryptWIP then unsupported "wip-crypt" "WIP crypt is not implemented"
  else invalidArg "crypt" "unknown method 0x%02x (MS-PST %s)" [method].
Definition decryptData (data : bytes) (method bid : Z) : result bytes :=
  if method =? CryptNone then mret data
  else if method =? CryptPermute then mret (PermuteDecode data)
  else if method =? CryptCyclic then mret (CyclicDecode data (u32 bid))
  else if method =? CryptWIP then unsupported "wip-crypt" "WIP crypt is not implemented"
  else invalidArg "crypt" "unknown method 0x%02x (MS-PST %s)" [method].

(** ** Page types *)
Definition allocatedPageBID (pageType : Z) : bool :=
  (pageType =? PageBBT) || (pageType =? PageNBT) || (pageType =? PageDList).
Definition zeroSigPageType (pageType : Z) : bool :=
  (pageType =? PageAMap) || (pageType =? PagePMap) || (pageType =? PageFMap) || (pageType =? PageFPMap).
Definition knownPageType (t : Z) : bool :=
  (t =? PageBBT) || (t =? PageNBT) || (t =? PageFMap) || (t =? PagePMap) || (t =? PageAMap)
  || (t =? PageFPMap) || (t =? PageDList).

(** ** Geometry: the regions of the file and their map pages *)
Definition AMapOffset (index : Z) : Z := u64 (FirstAMapPageOffset + u64 (index * AMapCoverageBytes)).
Definition AMapIndexForOffset (ib : Z) : option Z :=
  if ib <? FirstAMapPageOffset then None else Some ((ib - FirstAMapPageOffset) / AMapCoverageBytes).
Definition AMapRegionStart (index : Z) : Z := AMapOffset index.
Definition AMapRegionEnd (index : Z) : Z := u64 (AMapOffset index + AMapCoverageBytes).
Definition PMapOffset (index : Z) : Z := u64 (FirstPMapPageOffset + u64 (index * PMapCoverageBytes)).
Definition PMapIndexForAMap (amapIndex : Z) : Z := amapIndex / AMapsPerPMap.
Definition slotIndex (ib amapIndex : Z) : Z := u64 (ib - AMapRegionStart amapIndex) / BytesPerSlot.
Definition slotOffset (amapIndex slot : Z) : Z := u64 (AMapRegionStart amapIndex + slot * BytesPerSlot).
Definition slotsForSize (size : Z) : result Z :=
  if size =? 0 then invalidArg "size" "cannot allocate zero bytes" [] else
  if negb (size mod BytesPerSlot =? 0)
  then invalidArg "size" "allocation %d is not a multiple of %d (MS-PST %s)" [size; BytesPerSlot] else
  let n := size / BytesPerSlot in
  if SlotsPerAMap <? n
  then limitErr "size" "allocation %d exceeds one AMap region (%d bytes)" [size; AMapCoverageBytes]
  else mret n.

Record MapPage := mkMapPage { MP_Type : Z; MP_Offset : Z }.
#[export] Instance MapPage_eq_dec : EqDecision MapPage.
Proof. solve_decision. Defined.
Definition fmapPageIndex (amapIndex : Z) : bool :=
  if amapIndex <? FMapHeaderAMaps then false else (amapIndex - FMapHeaderAMaps) mod FMapPageAMaps =? 0.
Definition fpmapPageIndex (amapIndex : Z) : bool :=
  if negb (amapIndex mod AMapsPerPMap =? 0) then false else
  let pmap := amapIndex / AMapsPerPMap in
  if pmap <? FPMapHeaderPMaps then false else (pmap - FPMapHeaderPMaps) mod FPMapPagePMaps =? 0.
Definition RegionMapPages (index : Z) : list MapPage :=
  let off := AMapOffset index in
  let shift0 := PageSize in
  let pmap := index mod AMapsPerPMap =? 0 in
  let shift1 := if pmap then shift0 + PageSize else shift0 in
  let shift2 := if fmapPageIndex index then shift1 + PageSize else shift1 in
  [mkMapPage PageAMap off]
  ++ (if pmap then [mkMapPage PagePMap (u64 (off + shift0))] else [])
  ++ (if fmapPageIndex index then [mkMapPage PageFMap (u64 (off + shift1))] else [])
  ++ (if fpmapPageIndex index then [mkMapPage PageFPMap (u64 (off + shift2))] else []).
(** The first page of type [t] among [ps], [0] when there is none. *)
Definition page_of_type (t : Z) (ps : list MapPage) : Z :=
  match filter (λ p, MP_Type p = t) ps with p :: _ => MP_Offset p | [] => 0 end.
Definition FMapPageOffset (k : Z) : Z :=
  page_of_type PageFMap (RegionMapPages (u64 (FMapHeaderAMaps + u64 (k * FMapPageAMaps)))).
Definition FPMapPageOffset (k : Z) : Z :=
  let pmap := u64 (FPMapHeaderPMaps + u64 (k * FPMapPagePMaps)) in
  page_of_type PageFPMap (RegionMapPages (u64 (pmap * AMapsPerPMap))).

(** ** Theorems: sizes *)
Lemma Align64_spec n : 0 ≤ n → n + 63 < 2 ^ 64 → Align64 n = (n + 63) / 64 * 64.
Proof.
  intros H1 H2. unfold Align64. rewrite u64_small by lia.
  change 63 with (Z.ones 6) at 2. rewrite Z.ldiff_ones_r by lia.
  rewrite Z.shiftr_div_pow2, Z.shiftl_mul_pow2 by lia. done.
Qed.

Lemma BlockDiskSize_spec cb : 0 ≤ cb → cb < 2 ^ 63 → BlockDiskSize cb = (cb + 79) / 64 * 64.
Proof.
  intros. unfold BlockDiskSize, UnicodeBlockTrailer. rewrite u64_small by lia.
  rewrite Align64_spec by lia. do 2 f_equal. lia.
Qed.

Lemma BlockDiskSize_bounds cb : 0 ≤ cb ≤ MaxDataBlockCB →
  cb + 16 ≤ BlockDiskSize cb ≤ 8192 ∧ BlockDiskSize cb mod 64 = 0 ∧ BlockDiskSize cb < cb + 80.
Proof.
  unfold MaxDataBlockCB. intros. rewrite BlockDiskSize_spec by lia. divlia.
Qed.

(** The three checks after the first never fail. *)
Lemma ValidateBlockCB_Ok cb : 0 ≤ cb ≤ MaxDataBlockCB → ValidateBlockCB cb = Ok (BlockDiskSize cb).
Proof.
  intros H. pose proof (BlockDiskSize_bounds cb H) as (H1 & H2 & H3).
  unfold ValidateBlockCB, MaxAllocBytes, BytesPerSlot, UnicodeBlockTrailer in *.
  repeat match goal with |- context [?a <? ?b] => destruct (Z.ltb_spec a b); [lia|] end.
  by rewrite H2.
Qed.
Lemma ValidateBlockCB_inv cb d : 0 ≤ cb → ValidateBlockCB cb = Ok d → cb ≤ MaxDataBlockCB ∧ d = BlockDiskSize cb.
Proof.
  intros H Hv. destruct (decide (cb ≤ MaxDataBlockCB)).
  - rewrite ValidateBlockCB_Ok in Hv by lia. by simplify_eq.
  - unfold ValidateBlockCB in Hv. destruct (Z.ltb_spec MaxDataBlockCB cb); [done|lia].
Qed.

Lemma decrypt_crypt data m bid c :
  bytes_ok data → cryptData data m bid = Ok c →
  blen c = blen data ∧ bytes_ok c ∧ (m ≠ CryptCyclic → decryptData c m bid = Ok data).
Proof.
  intros Hd. unfold cryptData, decryptData.
  destruct (m =? CryptNone). { by intros [= <-]. }
  destruct (m =? CryptPermute).
  { intros [= <-]. rewrite PermuteDecode_Encode by done. unfold PermuteEncode.
    rewrite blen_map. split_and!; [done| |done]. apply bytes_ok_map. apply table1_byte. }
  destruct (Z.eqb_spec m CryptCyclic).
  { intros [= <-]. unfold CyclicEncode. rewrite blen_cyclic_loop. split_and!; [done|apply bytes_ok_cyclic|done]. }
  destruct (m =? CryptWIP); discriminate.
Qed.

(** ** Theorems: geometry *)
Lemma AMapOffset_small i : 0 ≤ i → AMapOffset i = 0x4400 + i * 253952 ∨ 2 ^ 64 ≤ 0x4400 + i * 253952.
Proof.
  intros. destruct (decide (0x4400 + i * 253952 < 2 ^ 64)); [left|right; lia].
  unfold AMapOffset, AMapCoverageBytes, FirstAMapPageOffset. change (SlotsPerAMap * BytesPerSlot) with 253952.
  rewrite !u64_small by (rewrite ?u64_small; lia). done.
Qed.

(** A region that the 64-bit offsets reach. *)
Definition region_ok (i : Z) : Prop := 0 ≤ i ∧ 0x4400 + (i + 1) * 253952 < 2 ^ 64.

Lemma AMapOffset_ok i : region_ok i → AMapOffset i = 0x4400 + i * 253952.
Proof. intros [H1 H2]. destruct (AMapOffset_small i H1); lia. Qed.
Lemma AMapRegionEnd_ok i : region_ok i → AMapRegionEnd i = 0x4400 + (i + 1) * 253952.
Proof.
  intros H. unfold AMapRegionEnd. rewrite AMapOffset_ok by done. destruct H.
  change AMapCoverageBytes with 253952. rewrite u64_small; lia.
Qed.
Lemma slotOffset_ok i s : region_ok i → 0 ≤ s < 3968 → slotOffset i s = 0x4400 + i * 253952 + s * 64.
Proof.
  intros H Hs. unfold slotOffset, AMapRegionStart. rewrite AMapOffset_ok by done. destruct H.
  unfold BytesPerSlot. rewrite u64_small; lia.
Qed.
Lemma AMapIndex_at i o : region_ok i → 0 ≤ o < 253952 → AMapIndexForOffset (0x4400 + i * 253952 + o) = Some i.
Proof.
  intros [H1 H2] Ho. unfold AMapIndexForOffset, FirstAMapPageOffset. destruct (Z.ltb_spec (0x4400 + i * 253952 + o) 0x4400); [lia|].
  change AMapCoverageBytes with 253952. f_equal. divlia.
Qed.
Lemma slotIndex_at i o : region_ok i → 0 ≤ o < 253952 → slotIndex (0x4400 + i * 253952 + o) i = o / 64.
Proof.
  intros H Ho. unfold slotIndex, AMapRegionStart, BytesPerSlot. rewrite AMapOffset_ok by done.
  rewrite u64_small by lia. f_equal. lia.
Qed.

(** The 64-byte slots of the regions partition the mapped part of the file:
    every slot address belongs to its own region and slot, and every aligned
    address from the first AMap on is the address of its region and slot. *)
Theorem slots_partition i s ib :
  region_ok i → 0 ≤ s < SlotsPerAMap →
  AMapIndexForOffset (slotOffset i s) = Some i ∧ slotIndex (slotOffset i s) i = s ∧
  (∀ j, AMapIndexForOffset ib = Some j → region_ok j → ib mod 64 = 0 →
   0 ≤ slotIndex ib j < SlotsPerAMap ∧ slotOffset j (slotIndex ib j) = ib).
Proof.
  change SlotsPerAMap with 3968. intros Hi Hs. rewrite slotOffset_ok by done.
  rewrite AMapIndex_at, slotIndex_at by (try done; lia). split_and!; [done|divlia|].
  intros j Hj Hr Ha. unfold AMapIndexForOffset, FirstAMapPageOffset in Hj.
  destruct (Z.ltb_spec ib 0x4400); [done|]. change AMapCoverageBytes with 253952 in Hj. injection Hj as Hj.
  assert (ib = 0x4400 + j * 253952 + (ib - 0x4400) mod 253952) as -> by divlia.
  rewrite slotIndex_at by (try done; divlia). rewrite slotOffset_ok by (try done; divlia). split; divlia.
Qed.
Lemma slots_partition_witness :
  AMapIndexForOffset (slotOffset 2 9) = Some 2 ∧ slotIndex (slotOffset 2 9) 2 = 9 ∧
  (∀ j, AMapIndexForOffset 0x4800 = Some j → region_ok j → 0x4800 mod 64 = 0 →
   0 ≤ slotIndex 0x4800 j < SlotsPerAMap ∧ slotOffset j (slotIndex 0x4800 j) = 0x4800).
Proof. apply (slots_partition 2 9 0x4800); unfold region_ok; vm_compute; intuition congruence. Defined.

(** At most one of the two extra map pages shares a region with the PMap. *)
Lemma fmap_is_pmap i : fmapPageIndex i = true → i mod 8 = 0.
Proof.
  unfold fmapPageIndex. change FMapHeaderAMaps with 128. change FMapPageAMaps with 496.
  destruct (i <? 128); [done|]. intros H%Z.eqb_eq. divlia.
Qed.
Lemma fpmap_not_fmap i : fpmapPageIndex i = true → fmapPageIndex i = false ∧ i mod 8 = 0.
Proof.
  unfold fmapPageIndex, fpmapPageIndex. change FMapHeaderAMaps with 128. change FMapPageAMaps with 496.
  change AMapsPerPMap with 8. change FPMapHeaderPMaps with 1024. change FPMapPagePMaps with 3968.
  destruct (Z.eqb_spec (i mod 8) 0); [|done]. cbn [negb]. destruct (i / 8 <? 1024); [done|]. intros H%Z.eqb_eq.
  split; [|done]. destruct (i <? 128); [done|]. apply Z.eqb_neq. divlia.
Qed.

(** The address of page [k] of a region. *)
Definition map_page_at (i : Z) (k : nat) : Z := 0x4400 + i * 253952 + Z.of_nat k * 512.

Ltac page_eq :=
  repeat match goal with
  | |- _ :: _ = _ :: _ => f_equal
  | |- mkMapPage _ _ = mkMapPage _ _ => f_equal
  end; first [done | lia].

Lemma RegionMapPages_shape i : region_ok i →
  RegionMapPages i =
    imap (λ k t, mkMapPage t (map_page_at i k))
      (PageAMap :: (if i mod 8 =? 0 then [PagePMap] else [])
       ++ (if fmapPageIndex i then [PageFMap] else []) ++ (if fpmapPageIndex i then [PageFPMap] else [])).
Proof.
  intros H. unfold RegionMapPages. change AMapsPerPMap with 8. rewrite AMapOffset_ok by done. destruct H as [H1 H2].
  unfold PageSize. pose proof (fmap_is_pmap i). pose proof (fpmap_not_fmap i).
  destruct (Z.eqb_spec (i mod 8) 0) as [E|E].
  - destruct (fmapPageIndex i), (fpmapPageIndex i); [naive_solver|..];
      clear E H H0; cbn; unfold map_page_at; rewrite ?u64_small by lia; page_eq.
  - destruct (fmapPageIndex i); [naive_solver|]. destruct (fpmapPageIndex i); [naive_solver|].
    cbn. unfold map_page_at. page_eq.
Qed.

(** The map pages of a region lie one after the other from its start, the AMap
    first, inside the region, at most three of them. *)
Lemma RegionMapPages_in i p : region_ok i → p ∈ RegionMapPages i →
  ∃ k, (k < 3)%nat ∧ MP_Offset p = map_page_at i k ∧ (k = 0%nat → MP_Type p = PageAMap).
Proof.
  intros H. rewrite RegionMapPages_shape by done. intros (k & Hk)%list_elem_of_lookup.
  rewrite list_lookup_imap in Hk. apply fmap_Some in Hk as (t & Ht & ->).
  exists k. cbn [MP_Offset MP_Type]. split_and!; [|done|intros ->; by injection Ht].
  apply lookup_lt_Some in Ht. pose proof (fmap_is_pmap i). pose proof (fpmap_not_fmap i).
  destruct (i mod 8 =? 0), (fmapPageIndex i), (fpmapPageIndex i); cbn in Ht; try lia; exfalso; naive_solver.
Qed.

Lemma FMapPage_at k i : i = 128 + k * 496 → 0 ≤ k → region_ok i → FMapPageOffset k = map_page_at i 2.
Proof.
  intros Hi Hk Hr. unfold FMapPageOffset. change FMapHeaderAMaps with 128. change FMapPageAMaps with 496.
  unfold region_ok in *. rewrite u64_small by (rewrite u64_small; lia). rewrite u64_small by lia.
  rewrite RegionMapPages_shape by (unfold region_ok; lia). rewrite <- Hi.
  replace (i mod 8 =? 0) with true by (symmetry; apply Z.eqb_eq; divlia).
  assert (fmapPageIndex i = true) as ->.
  { unfold fmapPageIndex. change FMapHeaderAMaps with 128. change FMapPageAMaps with 496.
    destruct (Z.ltb_spec i 128); [lia|]. apply Z.eqb_eq. divlia. }
  by destruct (fpmapPageIndex i).
Qed.
Lemma FPMapPage_at k j : j = 8 * (1024 + k * 3968) → 0 ≤ k → region_ok j → FPMapPageOffset k = map_page_at j 2.
Proof.
  intros Hj Hk Hr. unfold FPMapPageOffset. change FPMapHeaderPMaps with 1024. change FPMapPagePMaps with 3968.
  change AMapsPerPMap with 8. unfold region_ok in *. cbv zeta. rewrite !(u64_small (k * _)), !(u64_small (_ + _)), u64_small by lia.
  rewrite RegionMapPages_shape by (unfold region_ok; lia).
  replace ((1024 + k * 3968) * 8) with j by lia.
  replace (j mod 8 =? 0) with true by (symmetry; apply Z.eqb_eq; divlia).
  assert (fpmapPageIndex j = true) as Hj'.
  { unfold fpmapPageIndex. change AMapsPerPMap with 8. change FPMapHeaderPMaps with 1024. change FPMapPagePMaps with 3968.
    replace (j mod 8 =? 0) with true by (symmetry; apply Z.eqb_eq; divlia). cbn [negb].
    destruct (Z.ltb_spec (j / 8) 1024); [divlia|]. apply Z.eqb_eq. divlia. }
  destruct (fpmap_not_fmap j Hj') as [-> _]. by rewrite Hj'.
Qed.

(** The extra FMap and FPMap pages are where the region walk places them: the
    third page of their region, never absent. *)
Theorem extra_map_pages k i j :
  i = 128 + k * 496 → j = 8 * (1024 + k * 3968) → 0 ≤ k → region_ok j →
  FMapPageOffset k = map_page_at i 2 ∧ FPMapPageOffset k = map_page_at j 2.
Proof.
  intros Hi Hj Hk Hr. split; [apply FMapPage_at|apply FPMapPage_at]; (done || unfold region_ok in *; lia).
Qed.
Lemma extra_map_pages_witness :
  FMapPageOffset 1 = map_page_at 624 2 ∧ FPMapPageOffset 1 = map_page_at 39936 2.
Proof. apply (extra_map_pages 1 624 39936); unfold region_ok; lia. Defined.
