(* ===== verification/V2Disk.v ===== *)
(** * Writer v2: pages and blocks on disk

    [src/writer/v2/inspect_page.go] and [inspect_block.go]: the encoders of
    Unicode pages and blocks, the inspectors that validate an image, and how
    [pkg/ndb] reads the blocks.
    [crc32PST] and [signature] are [ComputeCRC] and [ComputeSignature]. *)
From S2P Require Import Prelude Format Ids Crypt Codec Block Header Database V2Base.

Definition crc32PST (data : bytes) : Z := ComputeCRC data.
Definition signature (id address : Z) : Z := ComputeSignature id address.

(** ** Pages *)
Record PageView := mkPageView {
  PV_Type : Z; PV_TypeRep : Z; PV_Sig : Z; PV_CRC : Z; PV_BID : Z; PV_Offset : Z; PV_Payload : bytes; PV_Raw : bytes }.

Definition EncodePage (payload : bytes) (pageType bid offset : Z) : result bytes :=
  let max := PageSize - UnicodePageTrailer in
  if max <? blen payload then invalidArg "payload" "page payload %d exceeds %d" [blen payload; max] else
  if negb (knownPageType pageType) then invalidArg "ptype" "unknown page type 0x%02x" [pageType] else
  if allocatedPageBID pageType && (bid =? 0)
  then invalidArg "bid" "NBT/BBT/DList page BID must be allocated from bidNextP, not null (MS-PST %s)" [] else
  let buf := splice 0 payload (zeros PageSize) in
  pre ← slice buf 0 max;
  let crc := crc32PST pre in
  let pageBID := if zeroSigPageType pageType then offset else bid in
  let sig := if zeroSigPageType pageType then 0 else signature bid offset in
  buf ← put8 max pageType buf; buf ← put8 (max + 1) pageType buf; buf ← put 2 (max + 2) sig buf;
  buf ← put 4 (max + 4) crc buf; put 8 (max + 8) pageBID buf.

Definition InspectPage (raw : bytes) (offset : Z) : result PageView :=
  if negb (blen raw =? PageSize) then invariant "2.2.2.7.1" "size" "page is %d bytes, need %d" [blen raw; PageSize] else
  let max := PageSize - UnicodePageTrailer in
  tr ← slice raw max (blen raw);
  ptype ← index tr 0; repeat ← index tr 1;
  if negb (ptype =? repeat)
  then invariant "2.2.2.7.1" "ptypeRepeat" "ptype 0x%02x != ptypeRepeat 0x%02x" [ptype; repeat] else
  if negb (knownPageType ptype) then invariant "2.2.2.7.1" "ptype" "unknown 0x%02x" [ptype] else
  gotCRC ← rd 4 4 tr; pre ← slice raw 0 max;
  let wantCRC := crc32PST pre in
  if negb (gotCRC =? wantCRC)
  then invariant "2.2.2.7.1" "dwCRC" "got 0x%08x want 0x%08x over first %d bytes (MS-PST %s)" [gotCRC; wantCRC; max] else
  bid ← rd 8 8 tr; gotSig ← rd 2 2 tr;
  _ ← (if zeroSigPageType ptype then
         if negb (gotSig =? 0) then invariant "2.2.2.7.1" "wSig" "map page wSig 0x%04x want 0 (MS-PST %s)" [gotSig] else
         if negb (bid =? offset) then invariant "2.2.2.7.1" "bid" "map page bid 0x%x want IB 0x%x (MS-PST %s)" [bid; offset]
         else mret tt
       else
         if bid =? 0 then invariant "2.2.2.2" "bid" "NBT/BBT/DList page BID is null; allocate from bidNextP" [] else
         let wantSig := signature bid offset in
         if negb (gotSig =? wantSig)
         then invariant "5.5" "wSig" "got 0x%04x want 0x%04x for bid=0x%x ib=0x%x" [gotSig; wantSig; bid; offset]
         else mret tt);
  mret (mkPageView ptype repeat gotSig gotCRC bid offset pre raw).

(** ** Blocks *)
Record BlockView := mkBlockView {
  BV_CB : Z; BV_Sig : Z; BV_CRC : Z; BV_BID : Z; BV_Offset : Z; BV_Internal : bool; BV_Crypt : Z;
  BV_Data : bytes; BV_Plain : bytes; BV_DiskLen : Z; BV_Raw : bytes }.

(** Pad and frame the bytes to store. *)
Definition frame_block (onDisk : bytes) (bid offset : Z) : result bytes :=
  let cb := blen onDisk in
  disk ← ValidateBlockCB cb;
  let buf := splice 0 onDisk (zeros disk) in
  let crc := crc32PST onDisk in
  let sig := signature bid offset in
  let tr := disk - UnicodeBlockTrailer in
  buf ← put 2 tr (u16 cb) buf; buf ← put 2 (tr + 2) sig buf; buf ← put 4 (tr + 4) crc buf; put 8 (tr + 8) bid buf.
Definition encodeBlock (data : bytes) (bid offset crypt : Z) (internal : bool) : result bytes :=
  if bid =? 0 then invalidArg "bid" "null BID (MS-PST %s)" [] else
  if BIDHasReserved bid then invalidArg "bid" "reserved bit must be 0 (MS-PST %s)" [] else
  let bid' := if internal then MakeInternalBID bid else bid in
  let crypt' := if internal then CryptNone else crypt in
  onDisk ← cryptData data crypt' bid'; frame_block onDisk bid' offset.
Definition EncodeExternalBlock (data : bytes) (bid offset crypt : Z) : result bytes :=
  if BIDIsInternal bid then invalidArg "bid" "external block has bidInternal set (MS-PST %s)" []
  else encodeBlock data bid offset crypt false.
Definition EncodeBlock (data : bytes) (bid offset : Z) : result bytes := EncodeExternalBlock data bid offset CryptNone.
Definition EncodeInternalBlock (data : bytes) (bid offset : Z) : result bytes := encodeBlock data bid offset CryptNone true.

(** A size or limit failure on a disk image is reported as an invariant. *)
Definition as_invariant {A} (m : result A) : result A :=
  match m with
  | Err e => if bool_decide (error_code e = CodeInvariant) then Err e else invariant "2.2.2.8.1" (error_field e) "%s" []
  | _ => m
  end.
(** The payload of an external block is decrypted on request, that of an
    internal block never. *)
Definition open_payload (data : bytes) (bid crypt : Z) (decrypt : bool) : result (bytes * Z) :=
  if decrypt && negb (BIDIsInternal bid) then
    if negb (knownCrypt crypt) then
      if crypt =? CryptWIP then unsupported "wip-crypt" "WIP crypt is not implemented"
      else invalidArg "crypt" "unknown method 0x%02x (MS-PST %s)" [crypt]
    else dec ← decryptData data crypt bid; mret (dec, crypt)
  else mret (data, CryptNone).
Definition inspectBlock (raw : bytes) (offset crypt : Z) (decrypt : bool) : result BlockView :=
  if blen raw <? UnicodeBlockTrailer
  then invariant "2.2.2.8.1" "size" "block is %d bytes, shorter than trailer" [blen raw] else
  if negb (blen raw mod BytesPerSlot =? 0)
  then invariant "2.2.2.8" "alignment" "on-disk block size %d is not a multiple of 64" [blen raw] else
  tr ← slice raw (blen raw - UnicodeBlockTrailer) (blen raw);
  cb ← rd 2 0 tr;
  wantDisk ← as_invariant (ValidateBlockCB cb);
  if negb (blen raw =? wantDisk)
  then invariant "2.2.2.8.1" "size" "disk size %d != Align64(cb=%d + trailer %d)=%d" [blen raw; cb; UnicodeBlockTrailer; wantDisk] else
  if blen raw - UnicodeBlockTrailer <? cb then invariant "2.2.2.8.1" "cb" "cb %d exceeds data region" [cb] else
  data ← slice raw 0 cb;
  gotCRC ← rd 4 4 tr;
  let wantCRC := crc32PST data in
  if negb (gotCRC =? wantCRC)
  then invariant "2.2.2.8.1" "dwCRC" "got 0x%08x want 0x%08x over cb=%d data bytes, not padding (MS-PST %s)" [gotCRC; wantCRC; cb] else
  bid ← rd 8 8 tr;
  if bid =? 0 then invariant "2.2.2.2" "bid" "null BID" [] else
  if BIDHasReserved bid then invariant "2.2.2.2" "bid" "reserved bit must be 0" [] else
  gotSig ← rd 2 2 tr;
  let wantSig := signature bid offset in
  if negb (gotSig =? wantSig)
  then invariant "5.5" "wSig" "got 0x%04x want 0x%04x for bid=0x%x ib=0x%x" [gotSig; wantSig; bid; offset] else
  '(plain, usedCrypt) ← open_payload data bid crypt decrypt;
  mret (mkBlockView cb gotSig gotCRC bid offset (BIDIsInternal bid) usedCrypt data plain (blen raw) raw).
Definition InspectBlock (raw : bytes) (offset : Z) : result BlockView := inspectBlock raw offset CryptNone false.
Definition InspectBlockCrypt (raw : bytes) (offset crypt : Z) : result BlockView := inspectBlock raw offset crypt true.

(** ** The layout of a page *)
Definition page_tail (pageType sig crc bid : Z) : bytes :=
  [pageType] ++ [pageType] ++ le_enc 2 sig ++ le_enc 4 crc ++ le_enc 8 bid.
Definition page_sig (pageType bid offset : Z) : Z := if zeroSigPageType pageType then 0 else signature bid offset.
Definition page_bid (pageType bid offset : Z) : Z := if zeroSigPageType pageType then offset else bid.
Definition page_image (payload : bytes) (pageType bid offset : Z) : bytes :=
  payload ++ page_tail pageType (page_sig pageType bid offset) (crc32PST payload) (page_bid pageType bid offset).
Definition page_accepts (pageType bid : Z) : Prop :=
  knownPageType pageType = true ∧ (allocatedPageBID pageType = true → bid ≠ 0).

Lemma blen_page_tail t s c b : blen (page_tail t s c b) = 16.
Proof. done. Qed.
Lemma known_byte t : knownPageType t = true → fits 8 t.
Proof.
  unfold knownPageType, PageBBT, PageNBT, PageFMap, PagePMap, PageAMap, PageFPMap, PageDList, fits.
  intros. lia.
Qed.
(** Each page type is either allocated or identified by its address. *)
Lemma page_kinds t : knownPageType t = true → allocatedPageBID t = negb (zeroSigPageType t).
Proof.
  unfold knownPageType, allocatedPageBID, zeroSigPageType, PageBBT, PageNBT, PageFMap, PagePMap, PageAMap, PageFPMap, PageDList.
  intros. lia.
Qed.

Lemma EncodePage_Ok payload t bid offset :
  blen payload ≤ 496 → page_accepts t bid →
  EncodePage payload t bid offset = Ok (page_image (payload ++ zeros (496 - blen payload)) t bid offset).
Proof.
  intros Hl [Hk Hb]. pose proof (blen_nonneg payload). unfold EncodePage, PageSize, UnicodePageTrailer.
  change (512 - 16) with 496. rewrite (proj2 (Z.ltb_ge _ _)) by lia. rewrite Hk. cbn [negb].
  assert (allocatedPageBID t && (bid =? 0) = false) as ->.
  { destruct (allocatedPageBID t); [|done]. apply Z.eqb_neq. auto. }
  rewrite splice_0_zeros by lia. rewrite slice_Ok by blia. rewrite bind_Ok.
  replace (zeros (512 - blen payload)) with (zeros (496 - blen payload) ++ zeros 16)
    by (unfold zeros; rewrite <- replicate_add; f_equal; lia).
  rewrite app_assoc. set (p := payload ++ zeros (496 - blen payload)).
  assert (blen p = 496) as Hp by (subst p; blia).
  rewrite sub_app_l, sub_0_all by blia. buf_write.
  change (zeros 16) with (zeros 1 ++ zeros 1 ++ zeros 2 ++ zeros 4 ++ zeros 8).
  buf_layout. done.
Qed.
Lemma EncodePage_inv payload t bid offset raw :
  EncodePage payload t bid offset = Ok raw → blen payload ≤ 496 ∧ page_accepts t bid.
Proof.
  unfold EncodePage, PageSize, UnicodePageTrailer. change (512 - 16) with 496.
  destruct (Z.ltb_spec 496 (blen payload)); [done|]. destruct (knownPageType t) eqn:E; [|done]. cbn [negb].
  destruct (allocatedPageBID t) eqn:Ea, (Z.eqb_spec bid 0); try done; intros _;
    (split; [lia|split; [done|congruence || done]]).
Qed.

(** What the inspector reads from the fields of a page: it accepts exactly the
    consistent ones, and reports every other as an error. *)
Definition page_consistent (payload : bytes) (t r sig crc bid offset : Z) : Prop :=
  r = t ∧ knownPageType t = true ∧ crc = crc32PST payload ∧ sig = page_sig t bid offset ∧
  bid = page_bid t bid offset ∧ (zeroSigPageType t = false → bid ≠ 0).

Lemma InspectPage_fields raw payload t r sig crc bid offset :
  raw = payload ++ [t] ++ [r] ++ le_enc 2 sig ++ le_enc 4 crc ++ le_enc 8 bid → blen payload = 496 → fits 8 t → fits 8 r → fits 16 sig → fits 32 crc → fits 64 bid →
  match InspectPage raw offset with
  | Ok v => page_consistent payload t r sig crc bid offset ∧ v = mkPageView t r sig crc bid offset payload raw
  | Err _ => ¬ page_consistent payload t r sig crc bid offset
  | Panic => False
  end.
Proof.
  intros Eraw Hp Ht Hr Hs Hc Hb. unfold InspectPage. assert (blen raw = 512) as Hraw by (subst raw; blia).
  rewrite Hraw. unfold PageSize, UnicodePageTrailer. rewrite Z.eqb_refl. cbn [negb]. change (512 - 16) with 496.
  rewrite (slice_Ok raw 496) by lia. rewrite bind_Ok.
  assert (sub raw 496 (512 - 496) = [t] ++ [r] ++ le_enc 2 sig ++ le_enc 4 crc ++ le_enc 8 bid) as ->.
  { subst raw. rewrite sub_app_r by lia. rewrite Hp. apply sub_all; [done|]. blia. }
  assert (sub raw 0 (496 - 0) = payload) as Hpre by (subst raw; rewrite sub_app_l by blia; apply sub_0_all; lia).
  buf_parse. rewrite Hpre. buf_fields. rewrite !le_dec_1, !le_dec_enc_fits by done.
  unfold page_consistent, page_sig, page_bid, invariant.
  destruct (Z.eqb_spec t r); [subst r|naive_solver]. cbn [negb].
  destruct (knownPageType t); [|naive_solver]. cbn [negb].
  destruct (Z.eqb_spec crc (crc32PST payload)); [|naive_solver]. cbn [negb].
  destruct (zeroSigPageType t).
  - destruct (Z.eqb_spec sig 0), (Z.eqb_spec bid offset); cbn [negb];
      rewrite ?mret_Ok, ?bind_Ok, ?bind_Err; naive_solver.
  - destruct (Z.eqb_spec bid 0), (Z.eqb_spec sig (signature bid offset)); cbn [negb];
      rewrite ?mret_Ok, ?bind_Ok, ?bind_Err; naive_solver.
Qed.

Lemma page_image_fields raw : bytes_ok raw → blen raw = 512 →
  ∃ payload t r sig crc bid, raw = payload ++ [t] ++ [r] ++ le_enc 2 sig ++ le_enc 4 crc ++ le_enc 8 bid ∧
    blen payload = 496 ∧ fits 8 t ∧ fits 8 r ∧ fits 16 sig ∧ fits 32 crc ∧ fits 64 bid.
Proof.
  intros Hb Hl. pose proof (sub_cut raw 496 ltac:(lia)) as Hs. rewrite Hl in Hs.
  set (payload := sub raw 0 496) in *. assert (blen payload = 496) as Hp by (apply blen_sub; lia).
  assert (bytes_ok (sub raw 496 (512 - 496))) as H0 by by apply bytes_ok_sub.
  assert (blen (sub raw 496 (512 - 496)) = 16) as L0 by (rewrite blen_sub; lia).
  destruct (field_split 1 _ H0 ltac:(lia)) as (t & r1 & E1 & F1 & H1 & L1).
  destruct (field_split 1 r1 H1 ltac:(lia)) as (r & r2 & E2 & F2 & H2 & L2).
  destruct (field_split 2 r2 H2 ltac:(lia)) as (sig & r3 & E3 & F3 & H3 & L3).
  destruct (field_split 4 r3 H3 ltac:(lia)) as (crc & r4 & E4 & F4 & H4 & L4).
  destruct (field_split 8 r4 H4 ltac:(lia)) as (bid & r5 & E5 & F5 & H5 & L5).
  assert (r5 = []) as -> by (destruct r5; [done|unfold blen in *; cbn [length] in *; lia]).
  exists payload, t, r, sig, crc, bid. split_and!; try done.
  rewrite Hs at 1. f_equal. rewrite E1, E2, E3, E4, E5, app_nil_r. cbn [le_enc]. 
  by rewrite (Z.mod_small t 256), (Z.mod_small r 256) by (unfold fits in *; lia).
Qed.

Lemma InspectPage_image p t bid offset :
  blen p = 496 → bytes_ok p → page_accepts t bid → fits 64 bid → fits 64 offset →
  let raw := page_image p t bid offset in
  InspectPage raw offset = Ok (mkPageView t t (page_sig t bid offset) (crc32PST p) (page_bid t bid offset) offset p raw).
Proof.
  intros Hp Hpb [Hk Ha] Hf Hoff raw.
  assert (fits 16 (page_sig t bid offset)) as Hs.
  { unfold page_sig. destruct (zeroSigPageType t); [done|apply ComputeSignature_range]. }
  assert (fits 64 (page_bid t bid offset)) as Hpb' by (unfold page_bid; by destruct (zeroSigPageType t)).
  assert (page_consistent p t t (page_sig t bid offset) (crc32PST p) (page_bid t bid offset) offset) as Hcons.
  { unfold page_consistent, page_sig, page_bid. rewrite page_kinds in Ha by done.
    destruct (zeroSigPageType t); naive_solver. }
  pose proof (InspectPage_fields raw p t t _ _ _ offset eq_refl Hp
    (known_byte t Hk) (known_byte t Hk) Hs (ComputeCRC_fits p Hpb) Hpb') as H0.
  destruct (InspectPage _ offset) as [v|e|]; [|done..]. by destruct H0 as [_ ->].
Qed.
Lemma InspectPage_inv raw offset v : bytes_ok raw → InspectPage raw offset = Ok v →
  raw = page_image (PV_Payload v) (PV_Type v) (PV_BID v) offset ∧ blen (PV_Payload v) = 496 ∧ bytes_ok (PV_Payload v) ∧
  page_accepts (PV_Type v) (PV_BID v) ∧ fits 64 (PV_BID v) ∧ PV_BID v = page_bid (PV_Type v) (PV_BID v) offset.
Proof.
  intros Hb Hv. destruct (decide (blen raw = 512)) as [Hl|Hl].
  2:{ unfold InspectPage, PageSize in Hv. by rewrite (proj2 (Z.eqb_neq _ _) Hl) in Hv. }
  destruct (page_image_fields raw Hb Hl) as (p & t & r & sig & crc & bid & -> & Hp & Ht & Hr & Hs & Hc & Hbid).
  pose proof (InspectPage_fields _ p t r sig crc bid offset eq_refl Hp Ht Hr Hs Hc Hbid) as HF. rewrite Hv in HF.
  destruct HF as [(-> & Hk & -> & -> & E & Hz) ->]. cbn [PV_Payload PV_Type PV_BID].
  apply Forall_app in Hb as [Hb _]. split_and!; try done.
  - unfold page_image, page_tail. by rewrite <- E.
  - split; [done|]. intros Ha. rewrite page_kinds in Ha by done. destruct (zeroSigPageType t); [done|auto].
Qed.
Lemma InspectPage_total raw offset : bytes_ok raw → InspectPage raw offset ≠ Panic.
Proof.
  intros Hb. destruct (decide (blen raw = 512)) as [Hl|Hl].
  - destruct (page_image_fields raw Hb Hl) as (p & t & r & sig & crc & bid & -> & ? & ? & ? & ? & ? & ?).
    pose proof (InspectPage_fields _ p t r sig crc bid offset eq_refl) as HF. intros E. rewrite E in HF. by apply HF.
  - unfold InspectPage, PageSize. by rewrite (proj2 (Z.eqb_neq _ _) Hl).
Qed.

(** The inspector accepts exactly the pages the encoder writes: whatever it
    encodes is accepted, with the padded payload, the type and the BID (the
    address for a map page) read back, and a page it accepts is the encoding of
    what it read.  It never panics. *)
Theorem page_inspect_exact raw offset :
  bytes_ok raw → fits 64 offset →
  InspectPage raw offset ≠ Panic ∧
  (∀ v, InspectPage raw offset = Ok v →
     EncodePage (PV_Payload v) (PV_Type v) (PV_BID v) offset = Ok raw) ∧
  (∀ payload t bid, bytes_ok payload → fits 64 bid → EncodePage payload t bid offset = Ok raw →
     ∃ v, InspectPage raw offset = Ok v ∧ PV_Payload v = payload ++ zeros (496 - blen payload) ∧
          PV_Type v = t ∧ PV_BID v = page_bid t bid offset).
Proof.
  intros Hb Hoff. split_and!; [by apply InspectPage_total| |].
  - intros v Hv. destruct (InspectPage_inv raw offset v Hb Hv) as (Er & Hp & _ & Ha & _ & _).
    rewrite EncodePage_Ok by (done || lia). rewrite Hp. change (zeros (496 - 496)) with (@nil Z).
    by rewrite app_nil_r, <- Er.
  - intros payload t bid Hpo Hf He. destruct (EncodePage_inv _ _ _ _ _ He) as [Hl Ha].
    rewrite EncodePage_Ok in He by done. injection He as <-. pose proof (blen_nonneg payload).
    rewrite InspectPage_image; try done; [by eexists|blia|]. apply Forall_app; auto with pst.
Qed.
Lemma page_inspect_exact_witness :
  let raw := page_image (zeros 496) PageAMap 0 0x4400 in
  InspectPage raw 0x4400 ≠ Panic ∧
  (∀ v, InspectPage raw 0x4400 = Ok v → EncodePage (PV_Payload v) (PV_Type v) (PV_BID v) 0x4400 = Ok raw) ∧
  (∀ payload t bid, bytes_ok payload → fits 64 bid → EncodePage payload t bid 0x4400 = Ok raw →
     ∃ v, InspectPage raw 0x4400 = Ok v ∧ PV_Payload v = payload ++ zeros (496 - blen payload) ∧
          PV_Type v = t ∧ PV_BID v = page_bid t bid 0x4400).
Proof.
  intros raw. apply (page_inspect_exact raw 0x4400); [|unfold fits; lia].
  apply bytes_okb_true. by vm_compute.
Defined.

(** ** The layout of a block *)
Definition block_tail (cb sig crc bid : Z) : bytes := le_enc 2 cb ++ le_enc 2 sig ++ le_enc 4 crc ++ le_enc 8 bid.
(** Bytes between the data and the trailer. *)
Definition block_pad (cb : Z) : Z := BlockDiskSize cb - 16 - cb.
Definition block_image (onDisk pad : bytes) (bid offset : Z) : bytes :=
  (onDisk ++ pad) ++ block_tail (blen onDisk) (signature bid offset) (crc32PST onDisk) bid.
Definition block_bid_ok (bid : Z) : Prop := bid ≠ 0 ∧ BIDHasReserved bid = false.

Lemma frame_block_Ok onDisk bid offset :
  blen onDisk ≤ MaxDataBlockCB →
  frame_block onDisk bid offset = Ok (block_image onDisk (zeros (block_pad (blen onDisk))) bid offset).
Proof.
  intros Hl. pose proof (blen_nonneg onDisk). unfold frame_block.
  rewrite ValidateBlockCB_Ok by done. rewrite bind_Ok.
  pose proof (BlockDiskSize_bounds (blen onDisk) ltac:(done)) as (H1 & H2 & H3).
  set (d := BlockDiskSize (blen onDisk)) in *. unfold UnicodeBlockTrailer, MaxDataBlockCB in *.
  rewrite u16_small by lia. rewrite splice_0_zeros by lia.
  replace (zeros (d - blen onDisk)) with (zeros (block_pad (blen onDisk)) ++ zeros 16)
    by (unfold zeros, block_pad; fold d; rewrite <- replicate_add; f_equal; lia).
  rewrite app_assoc. set (p := onDisk ++ zeros (block_pad (blen onDisk))).
  assert (blen p = d - 16) as Hp by (subst p; unfold block_pad; fold d; blia).
  buf_write. change (zeros 16) with (zeros 2 ++ zeros 2 ++ zeros 4 ++ zeros 8). buf_layout. done.
Qed.
Lemma frame_block_inv onDisk bid offset raw : frame_block onDisk bid offset = Ok raw → blen onDisk ≤ MaxDataBlockCB.
Proof.
  unfold frame_block. pose proof (blen_nonneg onDisk).
  destruct (ValidateBlockCB (blen onDisk)) eqn:E; [|done..]. intros _. by eapply ValidateBlockCB_inv.
Qed.

Lemma blen_block_tail cb sig crc bid : blen (block_tail cb sig crc bid) = 16.
Proof. done. Qed.
#[local] Hint Rewrite blen_page_tail blen_block_tail : blen.

Definition block_consistent (body : bytes) (cb sig crc bid offset : Z) : Prop :=
  cb ≤ MaxDataBlockCB ∧ blen body = BlockDiskSize cb - 16 ∧ crc = crc32PST (sub body 0 cb) ∧
  block_bid_ok bid ∧ sig = signature bid offset.

Lemma inspectBlock_fields raw body cb sig crc bid offset crypt decrypt :
  raw = body ++ block_tail cb sig crc bid → fits 16 cb → fits 16 sig → fits 32 crc → fits 64 bid →
  match inspectBlock raw offset crypt decrypt with
  | Ok v => block_consistent body cb sig crc bid offset ∧ ∃ plain used,
      open_payload (sub body 0 cb) bid crypt decrypt = Ok (plain, used) ∧
      v = mkBlockView cb sig crc bid offset (BIDIsInternal bid) used (sub body 0 cb) plain (blen raw) raw
  | Err e => ¬ block_consistent body cb sig crc bid offset ∨ open_payload (sub body 0 cb) bid crypt decrypt = Err e
  | Panic => False
  end.
Proof.
  intros Er Hcb Hs Hc Hb. pose proof (blen_nonneg body). unfold inspectBlock.
  assert (blen raw = blen body + 16) as Hr by (subst raw; blia).
  unfold UnicodeBlockTrailer, BytesPerSlot, block_consistent, block_bid_ok, invariant.
  set (data := sub body 0 cb).
  destruct (Z.ltb_spec (blen raw) 16); [lia|]. assert (0 ≤ cb) by (unfold fits in Hcb; lia).
  pose proof (BlockDiskSize_bounds cb) as HB.
  destruct (Z.eqb_spec (blen raw mod 64) 0) as [Ha|Ha]; cbn [negb].
  2:{ left. intros (? & Hbd & _). destruct HB as (_ & HB & _); [lia|]. apply Ha. rewrite <- HB. f_equal. lia. }
  rewrite (slice_Ok raw (blen raw - 16)) by lia. rewrite bind_Ok.
  assert (sub raw (blen raw - 16) (blen raw - (blen raw - 16)) = block_tail cb sig crc bid) as ->.
  { subst raw. rewrite sub_app_r by lia. apply sub_all; blia. }
  unfold block_tail. rewrite (rd_Ok 2 0) by blia. rewrite bind_Ok. buf_fields. rewrite !le_dec_enc_fits by done.
  destruct (decide (cb ≤ MaxDataBlockCB)) as [Hm|Hm].
  2:{ unfold ValidateBlockCB. destruct (Z.ltb_spec MaxDataBlockCB cb); [|lia]. left. naive_solver. }
  rewrite ValidateBlockCB_Ok by lia. cbn [as_invariant]. rewrite bind_Ok.
  destruct HB as (B1 & B2 & B3); [lia|].
  destruct (Z.eqb_spec (blen raw) (BlockDiskSize cb)) as [Hd|Hd]; cbn [negb]; [|left; intros (? & ? & _); lia].
  destruct (Z.ltb_spec (blen raw - 16) cb); [lia|].
  rewrite (slice_Ok raw 0) by lia. rewrite bind_Ok, Z.sub_0_r.
  assert (sub raw 0 cb = data) as -> by (subst raw; apply sub_app_l; lia).
  buf_parse. buf_fields. rewrite !le_dec_enc_fits by done.
  destruct (Z.eqb_spec crc (crc32PST data)); cbn [negb]; [|left; naive_solver].
  destruct (Z.eqb_spec bid 0); [left; naive_solver|].
  destruct (BIDHasReserved bid); [left; naive_solver|].
  destruct (Z.eqb_spec sig (signature bid offset)); cbn [negb]; [|left; naive_solver].
  destruct (open_payload data bid crypt decrypt) as [[plain used]|err|] eqn:Eo.
  - rewrite bind_Ok, mret_Ok. split; [split_and!; done || lia|]. by exists plain, used.
  - rewrite bind_Err. by right.
  - unfold open_payload, decryptData in Eo. repeat case_match; done.
Qed.

Lemma block_split raw : bytes_ok raw → 16 ≤ blen raw →
  ∃ body cb sig crc bid, raw = body ++ block_tail cb sig crc bid ∧
    bytes_ok body ∧ fits 16 cb ∧ fits 16 sig ∧ fits 32 crc ∧ fits 64 bid.
Proof.
  intros Hb Hl. pose proof (sub_cut raw (blen raw - 16) ltac:(lia)) as Hs.
  set (body := sub raw 0 (blen raw - 16)) in *. set (tail := sub raw (blen raw - 16) (blen raw - (blen raw - 16))) in *.
  assert (bytes_ok tail) as H0 by by apply bytes_ok_sub.
  assert (blen tail = 16) as L0 by (subst tail; rewrite blen_sub; lia).
  destruct (field_split 2 tail H0 ltac:(lia)) as (cb & r1 & E1 & F1 & H1 & L1).
  destruct (field_split 2 r1 H1 ltac:(lia)) as (sig & r2 & E2 & F2 & H2 & L2).
  destruct (field_split 4 r2 H2 ltac:(lia)) as (crc & r3 & E3 & F3 & H3 & L3).
  destruct (field_split 8 r3 H3 ltac:(lia)) as (bid & r4 & E4 & F4 & H4 & L4).
  assert (r4 = []) as -> by (destruct r4; [done|unfold blen in *; cbn [length] in *; lia]).
  exists body, cb, sig, crc, bid. split_and!; try done; [|by apply bytes_ok_sub].
  rewrite Hs. f_equal. by rewrite E1, E2, E3, E4, app_nil_r.
Qed.

Lemma BIDIsInternal_bit b : BIDIsInternal b = Z.testbit b 1.
Proof.
  unfold BIDIsInternal, BIDInternal. change 2 with (2 ^ 1).
  destruct (Z.testbit b 1) eqn:E.
  - destruct (Z.eqb_spec (Z.land b (2 ^ 1)) 0) as [H|]; [|done].
    apply (f_equal (λ z, Z.testbit z 1)) in H. rewrite Z.land_spec, E in H. by rewrite Z.bits_0 in H.
  - replace (Z.land b (2 ^ 1)) with 0; [done|]. symmetry. apply Z.bits_inj'. intros n Hn.
    rewrite Z.land_spec, Z.bits_0, Z.pow2_bits_eqb by lia. destruct (Z.eqb_spec 1 n); [by subst; rewrite E|by rewrite andb_false_r].
Qed.
Lemma BIDHasReserved_bit b : BIDHasReserved b = Z.testbit b 0.
Proof.
  unfold BIDHasReserved, BIDReserved. change 1 with (Z.ones 1) at 1. rewrite Z.land_ones by lia.
  change (2 ^ 1) with 2. rewrite <- Z.bit0_mod. by destruct (Z.testbit b 0).
Qed.
Lemma MakeInternalBID_ok b : 0 ≤ b → block_bid_ok (MakeInternalBID b) ∧ BIDIsInternal (MakeInternalBID b) = true.
Proof.
  intros Hb. unfold block_bid_ok. rewrite BIDHasReserved_bit, BIDIsInternal_bit.
  assert (Z.testbit (MakeInternalBID b) 1 = true) as H1.
  { unfold MakeInternalBID. by rewrite Z.lor_spec, orb_true_r. }
  split_and!; [intros H0; by rewrite H0, Z.bits_0 in H1| |done].
  unfold MakeInternalBID. by rewrite Z.lor_spec, Z.ldiff_spec, andb_false_r.
Qed.
Lemma MakeInternalBID_arith b : 0 ≤ b → MakeInternalBID b = 4 * (b / 4) + 2.
Proof.
  intros Hb. unfold MakeInternalBID. change (Z.lor BIDReserved BIDInternal) with (Z.ones 2).
  rewrite ldiff_low by lia. change (2 ^ 2) with 4. change BIDInternal with 2.
  rewrite <- Z.lxor_lor, <- Z.add_nocarry_lxor; try done; rewrite Z.mul_comm.
  all: change 4 with (2 ^ 2) at 2; rewrite <- Z.shiftl_mul_pow2 by lia; rewrite Z.land_comm; by apply land_shiftl_0.
Qed.
Lemma MakeInternalBID_fits b : fits 64 b → fits 64 (MakeInternalBID b).
Proof.
  unfold fits. intros H. rewrite MakeInternalBID_arith by lia. change (2 ^ 64) with 18446744073709551616 in *. divlia.
Qed.

Lemma cryptData_known data m bid c : cryptData data m bid = Ok c → knownCrypt m = true ∧ c = EncryptBlock data m bid.
Proof.
  unfold cryptData, knownCrypt, EncryptBlock.
  change CryptMethodNone with CryptNone. change CryptMethodPermute with CryptPermute. change CryptMethodCyclic with CryptCyclic.
  destruct (m =? CryptNone), (m =? CryptPermute), (m =? CryptCyclic), (m =? CryptWIP);
    first [by intros [= <-] | discriminate].
Qed.

(** The stored form of a block: identifier and obfuscated data. *)
Definition stored_bid (bid : Z) (internal : bool) : Z := if internal then MakeInternalBID bid else bid.
Definition stored_data (data : bytes) (bid crypt : Z) (internal : bool) : bytes :=
  if internal then data else EncryptBlock data crypt bid.

Lemma encodeBlock_inv data bid offset crypt internal raw :
  encodeBlock data bid offset crypt internal = Ok raw →
  let onDisk := stored_data data bid crypt internal in
  block_bid_ok bid ∧ (internal = false → knownCrypt crypt = true) ∧ blen data ≤ MaxDataBlockCB ∧ blen onDisk = blen data ∧
  raw = block_image onDisk (zeros (block_pad (blen onDisk))) (stored_bid bid internal) offset.
Proof.
  unfold encodeBlock, block_bid_ok, stored_bid, stored_data.
  destruct (Z.eqb_spec bid 0); [done|]. destruct (BIDHasReserved bid); [done|].
  intros (c & Hc & Hf)%bind_Ok_inv.
  pose proof (frame_block_inv _ _ _ _ Hf) as Hl. rewrite frame_block_Ok in Hf by done. injection Hf as <-.
  apply cryptData_known in Hc as [Hk ->]. 
  rewrite blen_EncryptBlock in Hl. destruct internal.
  - change (EncryptBlock data CryptNone (MakeInternalBID bid)) with data. by split_and!.
  - split_and!; try done. apply blen_EncryptBlock.
Qed.

(** What a block written by the encoder reads back as. *)
Lemma block_reads_back data bid offset crypt internal raw :
  bytes_ok data → fits 64 bid → encodeBlock data bid offset crypt internal = Ok raw →
  (internal = false → BIDIsInternal bid = false ∧ crypt ≠ CryptCyclic) →
  ∃ v, InspectBlockCrypt raw offset crypt = Ok v ∧ BV_Plain v = data ∧ BV_CB v = blen data ∧
       BV_BID v = stored_bid bid internal ∧ BV_Data v = stored_data data bid crypt internal.
Proof.
  intros Hd Hf He Hi. apply encodeBlock_inv in He as (Hbid & Hk & Hl & Hlen & ->).
  set (c := stored_data data bid crypt internal) in *. set (b := stored_bid bid internal).
  assert (bytes_ok c) as Hc.
  { subst c. unfold stored_data, EncryptBlock. destruct internal; [done|]. repeat case_match; try done;
      [apply bytes_ok_map, table1_byte|apply bytes_ok_cyclic]. }
  pose proof (blen_nonneg data). rewrite <- Hlen in Hl. 
  pose proof (BlockDiskSize_bounds (blen c) ltac:(lia)) as (B1 & B2 & B3).
  assert (blen (c ++ zeros (block_pad (blen c))) = BlockDiskSize (blen c) - 16) as Hbody by (unfold block_pad; blia).
  assert (sub (c ++ zeros (block_pad (blen c))) 0 (blen c) = c) as Hsub by (rewrite sub_app_l by lia; apply sub_0_all; done).
  assert (fits 64 b ∧ block_bid_ok b ∧ BIDIsInternal b = internal) as (Fb & Ob & Ib).
  { subst b. unfold stored_bid. destruct internal; [|naive_solver].
    destruct (MakeInternalBID_ok bid); [unfold fits in Hf; lia|]. split_and!; try done. by apply MakeInternalBID_fits. }
  pose proof (inspectBlock_fields (block_image c (zeros (block_pad (blen c))) b offset) (c ++ zeros (block_pad (blen c)))
    (blen c) (signature b offset) (crc32PST c) b offset crypt true eq_refl) as HF.
  assert (open_payload c b crypt true = Ok (data, if internal then CryptNone else crypt)) as Ho.
  { unfold open_payload. rewrite Ib. destruct internal; cbn [negb andb]; [done|]. rewrite Hk by done. cbn [negb].
    subst c b. unfold stored_data, stored_bid in *. destruct (Hi eq_refl) as [_ Hcy].
    assert (cryptData data crypt bid = Ok (EncryptBlock data crypt bid)) as Hcd.
    { specialize (Hk eq_refl). unfold cryptData, knownCrypt, EncryptBlock in *.
      change CryptMethodNone with CryptNone. change CryptMethodPermute with CryptPermute. change CryptMethodCyclic with CryptCyclic.
      by destruct (crypt =? CryptNone), (crypt =? CryptPermute), (crypt =? CryptCyclic). }
    destruct (decrypt_crypt data crypt bid _ Hd Hcd) as (_ & _ & ->); done. }
  unfold InspectBlockCrypt. rewrite Hsub, Ho in HF. unfold MaxDataBlockCB in *.
  assert (block_consistent (c ++ zeros (block_pad (blen c))) (blen c) (signature b offset) (crc32PST c) b offset) as Hcons.
  { unfold block_consistent. rewrite Hsub. split_and!; done. }
  destruct (inspectBlock _ offset crypt true) as [v|e|].
  - destruct HF as (_ & plain & used & [= <- <-] & ->); try done; [unfold fits; lia|apply ComputeSignature_range|by apply ComputeCRC_fits|].
    eexists. split_and!; done.
  - destruct HF as [HF|HF]; try done; [unfold fits; lia|apply ComputeSignature_range|by apply ComputeCRC_fits].
  - destruct HF; try done; [unfold fits; lia|apply ComputeSignature_range|by apply ComputeCRC_fits].
Qed.

(** The block inspector is exact up to padding: it never panics; a block it
    accepts is the frame of its stored data around some padding, so re-framing
    the data it read gives the same block with zero padding; and it reads every
    block the encoder writes back as the data that was encoded, internal blocks
    always and external ones unless the method is cyclic. *)
Theorem block_inspect_exact raw offset crypt :
  bytes_ok raw →
  InspectBlockCrypt raw offset crypt ≠ Panic ∧
  (∀ v, InspectBlockCrypt raw offset crypt = Ok v →
     ∃ pad, raw = block_image (BV_Data v) pad (BV_BID v) offset ∧ blen pad = block_pad (BV_CB v) ∧
            BV_CB v = blen (BV_Data v) ∧
            frame_block (BV_Data v) (BV_BID v) offset = Ok (block_image (BV_Data v) (zeros (blen pad)) (BV_BID v) offset)) ∧
  (∀ data bid internal, bytes_ok data → fits 64 bid → encodeBlock data bid offset crypt internal = Ok raw →
     (internal = false → BIDIsInternal bid = false ∧ crypt ≠ CryptCyclic) →
     ∃ v, InspectBlockCrypt raw offset crypt = Ok v ∧ BV_Plain v = data ∧ BV_CB v = blen data ∧
          BV_BID v = stored_bid bid internal ∧ BV_Data v = stored_data data bid crypt internal).
Proof.
  intros Hb. destruct (decide (16 ≤ blen raw)) as [Hl|Hl].
  2:{ unfold InspectBlockCrypt, inspectBlock, UnicodeBlockTrailer. rewrite (proj2 (Z.ltb_lt _ _)) by lia.
      split_and!; [done|done|]. intros data bid internal Hd Hf He Hi. exfalso. apply encodeBlock_inv in He as (_ & _ & _ & _ & ->).
      apply Hl. unfold block_image. rewrite blen_app, blen_block_tail. pose proof (blen_nonneg (stored_data data bid crypt internal ++ zeros (block_pad (blen (stored_data data bid crypt internal))))). lia. }
  split_and!; [| |intros; by apply block_reads_back].
  - destruct (block_split raw Hb Hl) as (body & cb & sig & crc & bid & Er & _ & F1 & F2 & F3 & F4).
    pose proof (inspectBlock_fields raw body cb sig crc bid offset crypt true Er F1 F2 F3 F4) as HF.
    unfold InspectBlockCrypt. by destruct (inspectBlock _ _ _ _).
  - intros v Hv. destruct (block_split raw Hb Hl) as (body & cb & sig & crc & bid & Er & _ & F1 & F2 & F3 & F4).
    pose proof (inspectBlock_fields raw body cb sig crc bid offset crypt true Er F1 F2 F3 F4) as HF.
    unfold InspectBlockCrypt in Hv. rewrite Hv in HF. destruct HF as ((Hm & Hbd & -> & _ & ->) & plain & used & _ & ->).
    cbn [BV_Data BV_BID BV_CB]. assert (0 ≤ cb) by (unfold fits in F1; lia).
    pose proof (BlockDiskSize_bounds cb ltac:(lia)) as (B1 & _).
    assert (blen (sub body 0 cb) = cb) as Hs by (apply blen_sub; lia).
    exists (sub body cb (blen body - cb)). split_and!; [| |done|].
    + unfold block_image. rewrite <- sub_cut, Hs by done. done.
    + unfold block_pad. rewrite blen_sub by lia. lia.
    + rewrite frame_block_Ok by lia. rewrite Hs, blen_sub by lia. unfold block_pad. do 3 f_equal. lia.
Qed.

Lemma block_inspect_exact_witness :
  let raw := match encodeBlock [1; 2; 3] 4 17408 CryptPermute false with Ok r => r | _ => [] end in
  InspectBlockCrypt raw 17408 CryptPermute ≠ Panic ∧
  (∀ v, InspectBlockCrypt raw 17408 CryptPermute = Ok v →
     ∃ pad, raw = block_image (BV_Data v) pad (BV_BID v) 17408 ∧ blen pad = block_pad (BV_CB v) ∧
            BV_CB v = blen (BV_Data v) ∧
            frame_block (BV_Data v) (BV_BID v) 17408 = Ok (block_image (BV_Data v) (zeros (blen pad)) (BV_BID v) 17408)) ∧
  (∀ data bid internal, bytes_ok data → fits 64 bid → encodeBlock data bid 17408 CryptPermute internal = Ok raw →
     (internal = false → BIDIsInternal bid = false ∧ CryptPermute ≠ CryptCyclic) →
     ∃ v, InspectBlockCrypt raw 17408 CryptPermute = Ok v ∧ BV_Plain v = data ∧ BV_CB v = blen data ∧
          BV_BID v = stored_bid bid internal ∧ BV_Data v = stored_data data bid CryptPermute internal).
Proof. intros raw. apply block_inspect_exact. apply bytes_okb_true. by vm_compute. Defined.

(** ** The blocks in the reader of [pkg/ndb] *)
Lemma stored_data_reader data bid crypt internal :
  (internal = false → BIDIsInternal bid = false) → 0 ≤ bid →
  stored_data data bid crypt internal = stored data (stored_bid bid internal) crypt.
Proof.
  intros Hi Hb. unfold stored_data, stored, stored_bid, IsExternal.
  destruct internal.
  - assert (Z.land (MakeInternalBID bid) BlockIDInternalBit =? 0 = false) as ->.
    { destruct (MakeInternalBID_ok bid Hb) as [_ H]. unfold BIDIsInternal in H.
      change BlockIDInternalBit with BIDInternal. by destruct (_ =? 0). }
    by rewrite andb_false_r.
  - specialize (Hi eq_refl). unfold BIDIsInternal in Hi. change BlockIDInternalBit with BIDInternal.
    destruct (Z.land bid BIDInternal =? 0); [|done]. rewrite andb_true_r.
    unfold EncryptBlock. by destruct (crypt =? CryptMethodNone) eqn:E; rewrite ?E.
Qed.

