(* ===== verification/V2Entries.v ===== *)
(** * Writer v2: arrays of keyed entries

    The B-tree pages ([btree.go]) and the subnode blocks ([subnode.go]) are
    arrays of fixed-size entries that both sides validate one by one: every
    entry passes a check and its key is above the key before it.  The class
    [KeyedEntry] states what an entry type promises to the array code; the
    instances are the five entry types. *)
From S2P Require Import Prelude Format Ids Codec Block Page V2Base.

Class KeyedEntry (A : Type) := {
  ke_size : Z;
  ke_enc : A → bytes;
  ke_dec : bytes → Z → result A;
  ke_key : A → Z;
  ke_check_enc : A → result unit;
  ke_check_dec : A → result unit;
  ke_order_enc : Z → Z → error;
  ke_order_dec : Z → Z → error;
  ke_wf : A → Prop;
  ke_size_pos : 0 < ke_size;
  ke_enc_len e : blen (ke_enc e) = ke_size;
  ke_enc_ok e : bytes_ok (ke_enc e);
  ke_dec_enc e data off : ke_wf e → 0 ≤ off → off + ke_size ≤ blen data →
    sub data off ke_size = ke_enc e → ke_dec data off = Ok e;
  ke_dec_total data off : bytes_ok data → 0 ≤ off → off + ke_size ≤ blen data →
    match ke_dec data off with Ok e => ke_wf e | Err _ => True | Panic => False end;
  ke_check_same e : ke_check_enc e = Ok tt ↔ ke_check_dec e = Ok tt;
  ke_check_total e : ke_check_enc e ≠ Panic ∧ ke_check_dec e ≠ Panic;
}.

(** [if i > 0 && k <= prev] *)
Definition order_bad (prev : option Z) (k : Z) : option Z :=
  match prev with Some p => if k <=? p then Some p else None | None => None end.

Section arrays.
Context `{KeyedEntry A}.

Fixpoint encode_entries (prev : option Z) (es : list A) : result bytes :=
  match es with
  | [] => mret []
  | e :: es =>
    _ ← ke_check_enc e;
    match order_bad prev (ke_key e) with
    | Some p => Err (ke_order_enc p (ke_key e))
    | None => rest ← encode_entries (Some (ke_key e)) es; mret (ke_enc e ++ rest)
    end
  end.
Fixpoint inspect_entries (data : bytes) (prev : option Z) (n : nat) (off : Z) : result (list A) :=
  match n with
  | O => mret []
  | S n =>
    e ← ke_dec data off;
    _ ← ke_check_dec e;
    match order_bad prev (ke_key e) with
    | Some p => Err (ke_order_dec p (ke_key e))
    | None => rest ← inspect_entries data (Some (ke_key e)) n (off + ke_size); mret (e :: rest)
    end
  end.

Definition valid (e : A) : Prop := ke_check_enc e = Ok tt.
(** The keys are strictly increasing, and above [prev]. *)
Definition keys_from (prev : option Z) (es : list A) : Prop :=
  StronglySorted Z.lt (option_list prev ++ map ke_key es).

Lemma keys_from_cons prev e es : keys_from prev (e :: es) ↔ order_bad prev (ke_key e) = None ∧ keys_from (Some (ke_key e)) es.
Proof.
  unfold keys_from, order_bad. destruct prev as [p|]; cbn [option_list app map].
  - destruct (Z.leb_spec (ke_key e) p) as [Hle|Hlt].
    + split; [|by intros []]. intros Hs. apply StronglySorted_inv in Hs as [_ Hf]. apply Forall_cons in Hf as [? _]. lia.
    + split; [intros Hs; by apply StronglySorted_inv in Hs as [? _]|]. intros [_ Hs]. constructor; [done|].
      apply Forall_cons. split; [done|]. apply StronglySorted_inv in Hs as [_ Hf]. eapply Forall_impl; [exact Hf|].
      intros x Hx. cbn in Hx. lia.
  - naive_solver.
Qed.

Lemma encode_entries_Ok es : ∀ prev, Forall valid es → keys_from prev es →
  encode_entries prev es = Ok (concat (map ke_enc es)).
Proof.
  induction es as [|e es IH]; intros prev Hv Hk; [done|]. apply Forall_cons in Hv as [He Hv].
  apply keys_from_cons in Hk as [Ho Hk]. cbn [encode_entries]. rewrite He, bind_Ok, Ho, IH by done. done.
Qed.
Lemma encode_entries_inv es : ∀ prev bs, encode_entries prev es = Ok bs →
  Forall valid es ∧ keys_from prev es ∧ bs = concat (map ke_enc es).
Proof.
  induction es as [|e es IH]; intros prev bs Hb; cbn [encode_entries] in Hb.
  { injection Hb as <-. split_and!; [done| |done]. unfold keys_from. cbn. destruct prev; cbn; repeat constructor. }
  apply bind_Ok_inv in Hb as ([] & He & Hb). destruct (order_bad prev (ke_key e)) eqn:Eo; [done|].
  apply bind_Ok_inv in Hb as (rest & Hr & Hb). injection Hb as <-. apply IH in Hr as (Hv & Hk & ->).
  split_and!; [by constructor|by apply keys_from_cons|done].
Qed.
Lemma blen_entries es : blen (concat (map ke_enc es)) = blen es * ke_size.
Proof.
  induction es as [|e es IH]; [done|]. cbn [map concat]. rewrite blen_app, blen_cons, ke_enc_len, IH. lia.
Qed.

Lemma inspect_entries_back es data : ∀ prev off,
  Forall (λ e, ke_wf e ∧ valid e) es → keys_from prev es → 0 ≤ off → off + blen es * ke_size ≤ blen data →
  sub data off (blen es * ke_size) = concat (map ke_enc es) →
  inspect_entries data prev (length es) off = Ok es.
Proof.
  induction es as [|e es IH]; intros prev off Hw Hk Hoff Hlen Hsub; [done|].
  apply Forall_cons in Hw as [[He Hv] Hw]. apply keys_from_cons in Hk as [Ho Hk]. rewrite blen_cons in *.
  pose proof ke_size_pos. pose proof (blen_nonneg es). cbn [length inspect_entries]. cbn [map concat] in Hsub.
  assert (sub data off ke_size = ke_enc e) as E1.
  { apply (f_equal (λ l, sub l 0 ke_size)) in Hsub. rewrite sub_sub, Z.add_0_r in Hsub by nia.
    rewrite Hsub, sub_app_l by (rewrite ?ke_enc_len; lia). apply sub_0_all. by rewrite ke_enc_len. }
  assert (sub data (off + ke_size) (blen es * ke_size) = concat (map ke_enc es)) as E2.
  { apply (f_equal (λ l, sub l ke_size (blen es * ke_size))) in Hsub. rewrite sub_sub in Hsub by nia.
    rewrite Hsub, sub_app_r by (rewrite ?ke_enc_len; nia). apply sub_all; rewrite ?ke_enc_len, ?blen_entries; lia. }
  rewrite (ke_dec_enc e) by (done || nia). rewrite bind_Ok. apply ke_check_same in Hv. rewrite Hv, bind_Ok, Ho.
  rewrite IH by (done || nia). done.
Qed.

Lemma inspect_entries_spec data n : ∀ prev off, bytes_ok data → 0 ≤ off → off + Z.of_nat n * ke_size ≤ blen data →
  match inspect_entries data prev n off with
  | Ok es => length es = n ∧ Forall (λ e, ke_wf e ∧ valid e) es ∧ keys_from prev es
  | Err _ => True
  | Panic => False
  end.
Proof.
  induction n as [|n IH]; intros prev off Hb Hoff Hlen; cbn [inspect_entries].
  { split_and!; [done..|]. unfold keys_from. cbn. destruct prev; cbn; repeat constructor. }
  pose proof ke_size_pos. rewrite Nat2Z.inj_succ in Hlen.
  assert (off + ke_size ≤ blen data ∧ off + ke_size + Z.of_nat n * ke_size ≤ blen data) as [Hin Hrest] by nia.
  pose proof (ke_dec_total data off Hb Hoff Hin) as Hd.
  destruct (ke_dec data off) as [e| |]; [|done..]. rewrite bind_Ok.
  destruct (ke_check_dec e) as [[]| |] eqn:Ec; [|done|by apply (ke_check_total e) in Ec]. rewrite bind_Ok.
  destruct (order_bad prev (ke_key e)) eqn:Eo; [done|].
  assert (0 ≤ off + ke_size) as Hoff' by lia. specialize (IH (Some (ke_key e)) _ Hb Hoff' Hrest).
  destruct (inspect_entries data _ n _) as [es| |]; [|done..]. rewrite bind_Ok, mret_Ok. destruct IH as (IH1 & IH2 & IH3).
  split_and!; [cbn; lia| |by apply keys_from_cons]. constructor; [|done]. split; [done|]. by apply ke_check_same.
Qed.
End arrays.

(** ** The entry types *)
Record BREF := mkBREF { BREF_BID : Z; BREF_IB : Z }.
Record NBTEntry := mkNBTEntry { N_NID : Z; N_DataBID : Z; N_SubBID : Z; N_ParentNID : Z }.
Record BBTEntry := mkBBTEntry { B_BID : Z; B_IB : Z; B_CB : Z; B_RefCount : Z }.
Record BTEntry := mkBTEntry { K_Key : Z; K_Ref : BREF }.
Record SLEntry := mkSLEntry { SL_NID : Z; SL_DataBID : Z; SL_SubBID : Z }.
Record SIEntry := mkSIEntry { SI_Key : Z; SI_Ref : Z }.
#[export] Instance BREF_eq_dec : EqDecision BREF.
Proof. solve_decision. Defined.
#[export] Instance NBTEntry_eq_dec : EqDecision NBTEntry.
Proof. solve_decision. Defined.
#[export] Instance BBTEntry_eq_dec : EqDecision BBTEntry.
Proof. solve_decision. Defined.
#[export] Instance BTEntry_eq_dec : EqDecision BTEntry.
Proof. solve_decision. Defined.
#[export] Instance SLEntry_eq_dec : EqDecision SLEntry.
Proof. solve_decision. Defined.

Definition high_bits (nid : Z) : bool := negb (Z.shiftr nid 32 =? 0).

Definition enc_NBTEntry (e : NBTEntry) : bytes :=
  le_enc 8 (N_NID e) ++ le_enc 8 (N_DataBID e) ++ le_enc 8 (N_SubBID e) ++ le_enc 4 (N_ParentNID e) ++ zeros 4.
Definition dec_NBTEntry (b : bytes) (off : Z) : result NBTEntry :=
  n ← rd 8 off b; d ← rd 8 (off + 8) b; s ← rd 8 (off + 16) b; p ← rd 4 (off + 24) b; mret (mkNBTEntry n d s p).
Definition check_NBTEntry (e : NBTEntry) : result unit :=
  if N_NID e =? 0 then invalidArg "nid" "null NID (MS-PST %s)" [] else
  if high_bits (N_NID e) then invalidArg "nid" "Unicode NID high bits must be 0, got 0x%x" [N_NID e] else mret tt.
Definition inspect_NBTEntry (e : NBTEntry) : result unit :=
  if (N_NID e =? 0) || high_bits (N_NID e) then invariant "2.2.2.7.7.4" "nid" "invalid NID 0x%x" [N_NID e] else mret tt.

Definition enc_BBTEntry (e : BBTEntry) : bytes :=
  le_enc 8 (B_BID e) ++ le_enc 8 (B_IB e) ++ le_enc 2 (B_CB e) ++ le_enc 2 (B_RefCount e) ++ le_enc 4 0.
Definition dec_BBTEntry (b : bytes) (off : Z) : result BBTEntry :=
  bid ← rd 8 off b; ib ← rd 8 (off + 8) b; cb ← rd 2 (off + 16) b; rc ← rd 2 (off + 18) b; pad ← rd 4 (off + 20) b;
  if negb (pad =? 0) then invariant "2.2.2.7.7.3" "dwPadding" "got 0x%08x want 0 (MS-PST %s)" [pad]
  else mret (mkBBTEntry bid ib cb rc).
Definition check_BBTEntry (e : BBTEntry) : result unit :=
  if B_BID e =? 0 then invalidArg "bid" "null BBT BID (MS-PST %s)" [] else
  if BIDHasReserved (B_BID e) then invalidArg "bid" "reserved bit must be 0 (MS-PST %s)" [] else
  if B_RefCount e =? 0 then invalidArg "cRef" "BBT cRef must be at least 1 for the BBTENTRY (MS-PST %s)" [] else mret tt.
Definition inspect_BBTEntry (e : BBTEntry) : result unit :=
  if (B_BID e =? 0) || BIDHasReserved (B_BID e) then invariant "2.2.2.7.7.3" "bid" "invalid BID 0x%x" [B_BID e] else
  if B_RefCount e =? 0 then invariant "2.2.2.7.7.3.1" "cRef" "cRef is 0 for BID 0x%x" [B_BID e] else mret tt.

Definition enc_BTEntry (e : BTEntry) : bytes :=
  le_enc 8 (K_Key e) ++ le_enc 8 (BREF_BID (K_Ref e)) ++ le_enc 8 (BREF_IB (K_Ref e)).
Definition dec_BTEntry (b : bytes) (off : Z) : result BTEntry :=
  k ← rd 8 off b; bid ← rd 8 (off + 8) b; ib ← rd 8 (off + 16) b; mret (mkBTEntry k (mkBREF bid ib)).
Definition check_BTEntry (e : BTEntry) : result unit :=
  if BREF_BID (K_Ref e) =? 0 then invalidArg "bid" "child page BID is null (MS-PST %s)" [] else mret tt.
Definition inspect_BTEntry (e : BTEntry) : result unit :=
  if BREF_BID (K_Ref e) =? 0 then invariant "2.2.2.7.7.2" "bid" "null child BID" [] else mret tt.

Definition enc_SLEntry (e : SLEntry) : bytes := le_enc 8 (SL_NID e) ++ le_enc 8 (SL_DataBID e) ++ le_enc 8 (SL_SubBID e).
Definition dec_SLEntry (b : bytes) (off : Z) : result SLEntry :=
  n ← rd 8 off b; d ← rd 8 (off + 8) b; s ← rd 8 (off + 16) b; mret (mkSLEntry n d s).
Definition checkSLEntry (e : SLEntry) : result unit :=
  if (SL_NID e =? 0) || high_bits (SL_NID e)
  then invalidArg "nid" "invalid SLENTRY NID 0x%x (MS-PST %s)" [SL_NID e] else
  if BIDHasReserved (SL_DataBID e) || BIDHasReserved (SL_SubBID e)
  then invalidArg "bid" "reserved bit set on SLENTRY BID (MS-PST %s)" [] else mret tt.
Definition inspect_SLEntry (e : SLEntry) : result unit :=
  if (SL_NID e =? 0) || high_bits (SL_NID e) || BIDHasReserved (SL_DataBID e) || BIDHasReserved (SL_SubBID e)
  then invariant "2.2.2.8.3.3.1" "nid" "invalid SLENTRY %+v" [SL_NID e; SL_DataBID e; SL_SubBID e] else mret tt.

Definition enc_SIEntry (e : SIEntry) : bytes := le_enc 8 (SI_Key e) ++ le_enc 8 (SI_Ref e).
Definition dec_SIEntry (b : bytes) (off : Z) : result SIEntry :=
  k ← rd 8 off b; r ← rd 8 (off + 8) b; mret (mkSIEntry k r).
Definition check_SIEntry (e : SIEntry) : result unit :=
  if (SI_Key e =? 0) || high_bits (SI_Key e)
  then invalidArg "nid" "invalid SIENTRY key 0x%x (MS-PST %s)" [SI_Key e] else
  if (SI_Ref e =? 0) || BIDHasReserved (SI_Ref e) || negb (BIDIsInternal (SI_Ref e))
  then invalidArg "bid" "SIENTRY child 0x%x must be an internal BID (MS-PST %s)" [SI_Ref e] else mret tt.
Definition inspect_SIEntry (e : SIEntry) : result unit :=
  if (SI_Key e =? 0) || high_bits (SI_Key e) || (SI_Ref e =? 0) || BIDHasReserved (SI_Ref e) || negb (BIDIsInternal (SI_Ref e))
  then invariant "2.2.2.8.3.3.2" "nid" "invalid SIENTRY %+v" [SI_Key e; SI_Ref e] else mret tt.

Definition page_order (p k : Z) : error :=
  v2error CodeInvalidArg EmptyString "btkey" "entries must be strictly increasing (prev=0x%x key=0x%x, MS-PST %s)" [p; k].
Definition page_disorder (p k : Z) : error :=
  v2error CodeInvariant "2.2.2.7.7.1" "btkey" "entries not strictly increasing (prev=0x%x key=0x%x)" [p; k].

Definition fmt_nid_order (p k : Z) : error :=
  v2error CodeInvalidArg EmptyString "nid" "SLENTRY keys must be strictly increasing (prev=0x%x key=0x%x, MS-PST %s)" [p; k].
Definition sl_disorder (p k : Z) : error := v2error CodeInvariant "2.2.2.8.3.3.1" "nid" "keys not strictly increasing" [].
Definition si_order (p k : Z) : error :=
  v2error CodeInvalidArg EmptyString "nid" "SIENTRY keys must be strictly increasing (prev=0x%x key=0x%x)" [p; k].
Definition si_disorder (p k : Z) : error := v2error CodeInvariant "2.2.2.8.3.3.2" "nid" "keys not strictly increasing" [].

Lemma rd_fits n off data : bytes_ok data → 0 ≤ off → off + Z.of_nat n ≤ blen data →
  ∃ v, rd n off data = Ok v ∧ fits (8 * Z.of_nat n) v.
Proof.
  intros Hb H0 H1. rewrite rd_Ok by lia. eexists. split; [done|].
  pose proof (le_dec_bound (sub data off (Z.of_nat n)) ltac:(by apply bytes_ok_sub)) as Hd.
  rewrite blen_sub in Hd by lia. unfold fits. by rewrite Z.pow_mul_r by lia.
Qed.

#[local] Obligation Tactic := idtac.
(** The laws of an entry type, from the ranges of its fields. *)
Ltac entry_read Hw sz := field_read Hw sz; buf_fields; rewrite ?le_dec_enc_fits by done.
Ltac entry_total Hb :=
  repeat match goal with
  | |- context [rd ?n ?o ?d] =>
    let v := fresh "v" in let E := fresh "E" in let F := fresh "F" in
    destruct (rd_fits n o d Hb) as (v & E & F); [lia|lia|]; rewrite E, bind_Ok; clear E
  end.
Ltac check_cases :=
  cbv beta; unfold invalidArg, invariant;
  repeat match goal with
  | |- context [?a =? ?b] => destruct (a =? b)
  | |- context [high_bits ?a] => destruct (high_bits a)
  | |- context [BIDHasReserved ?a] => destruct (BIDHasReserved a)
  | |- context [BIDIsInternal ?a] => destruct (BIDIsInternal a)
  end; cbn [orb negb]; split; done.

#[export] Program Instance NBTEntry_keyed : KeyedEntry NBTEntry := {|
  ke_size := 32; ke_enc := enc_NBTEntry; ke_dec := dec_NBTEntry; ke_key := N_NID;
  ke_check_enc := check_NBTEntry; ke_check_dec := inspect_NBTEntry; ke_order_enc := page_order; ke_order_dec := page_disorder;
  ke_wf e := fits 64 (N_NID e) ∧ fits 64 (N_DataBID e) ∧ fits 64 (N_SubBID e) ∧ fits 32 (N_ParentNID e) |}.
Next Obligation. done. Qed.
Next Obligation. done. Qed.
Next Obligation. intros e. unfold enc_NBTEntry. repeat (apply Forall_app; split); auto with pst. Qed.
Next Obligation.
  intros [n d s p] data off Hwf Hoff Hlen Hw. cbv beta in *. unfold dec_NBTEntry, enc_NBTEntry in *.
  cbn [N_NID N_DataBID N_SubBID N_ParentNID] in *. destruct Hwf as (H1 & H2 & H3 & H4). entry_read Hw 32. done.
Qed.
Next Obligation. intros data off Hb Hoff Hlen. unfold dec_NBTEntry. entry_total Hb. rewrite mret_Ok. split_and!; assumption. Qed.
Next Obligation. intros e. unfold check_NBTEntry, inspect_NBTEntry. check_cases. Qed.
Next Obligation. intros e. unfold check_NBTEntry, inspect_NBTEntry. check_cases. Qed.

#[export] Program Instance BBTEntry_keyed : KeyedEntry BBTEntry := {|
  ke_size := 24; ke_enc := enc_BBTEntry; ke_dec := dec_BBTEntry; ke_key := B_BID;
  ke_check_enc := check_BBTEntry; ke_check_dec := inspect_BBTEntry; ke_order_enc := page_order; ke_order_dec := page_disorder;
  ke_wf e := fits 64 (B_BID e) ∧ fits 64 (B_IB e) ∧ fits 16 (B_CB e) ∧ fits 16 (B_RefCount e) |}.
Next Obligation. done. Qed.
Next Obligation. done. Qed.
Next Obligation. intros e. unfold enc_BBTEntry. repeat (apply Forall_app; split); auto with pst. Qed.
Next Obligation.
  intros [b ib cb rc] data off Hwf Hoff Hlen Hw. cbv beta in *. unfold dec_BBTEntry, enc_BBTEntry in *.
  cbn [B_BID B_IB B_CB B_RefCount] in *. destruct Hwf as (H1 & H2 & H3 & H4). entry_read Hw 24. done.
Qed.
Next Obligation.
  intros data off Hb Hoff Hlen. unfold dec_BBTEntry. entry_total Hb. destruct (negb _); [done|]. rewrite mret_Ok. split_and!; assumption.
Qed.
Next Obligation. intros e. unfold check_BBTEntry, inspect_BBTEntry. check_cases. Qed.
Next Obligation. intros e. unfold check_BBTEntry, inspect_BBTEntry. check_cases. Qed.

#[export] Program Instance BTEntry_keyed : KeyedEntry BTEntry := {|
  ke_size := 24; ke_enc := enc_BTEntry; ke_dec := dec_BTEntry; ke_key := K_Key;
  ke_check_enc := check_BTEntry; ke_check_dec := inspect_BTEntry; ke_order_enc := page_order; ke_order_dec := page_disorder;
  ke_wf e := fits 64 (K_Key e) ∧ fits 64 (BREF_BID (K_Ref e)) ∧ fits 64 (BREF_IB (K_Ref e)) |}.
Next Obligation. done. Qed.
Next Obligation. done. Qed.
Next Obligation. intros e. unfold enc_BTEntry. repeat (apply Forall_app; split); auto with pst. Qed.
Next Obligation.
  intros [k [b ib]] data off Hwf Hoff Hlen Hw. cbv beta in *. unfold dec_BTEntry, enc_BTEntry in *.
  cbn [K_Key K_Ref BREF_BID BREF_IB] in *. destruct Hwf as (H1 & H2 & H3). entry_read Hw 24. done.
Qed.
Next Obligation. intros data off Hb Hoff Hlen. unfold dec_BTEntry. entry_total Hb. rewrite mret_Ok. split_and!; assumption. Qed.
Next Obligation. intros e. unfold check_BTEntry, inspect_BTEntry. check_cases. Qed.
Next Obligation. intros e. unfold check_BTEntry, inspect_BTEntry. check_cases. Qed.

#[export] Program Instance SLEntry_keyed : KeyedEntry SLEntry := {|
  ke_size := 24; ke_enc := enc_SLEntry; ke_dec := dec_SLEntry; ke_key := SL_NID;
  ke_check_enc := checkSLEntry; ke_check_dec := inspect_SLEntry; ke_order_enc := fmt_nid_order; ke_order_dec := sl_disorder;
  ke_wf e := fits 64 (SL_NID e) ∧ fits 64 (SL_DataBID e) ∧ fits 64 (SL_SubBID e) |}.
Next Obligation. done. Qed.
Next Obligation. done. Qed.
Next Obligation. intros e. unfold enc_SLEntry. repeat (apply Forall_app; split); auto with pst. Qed.
Next Obligation.
  intros [n d s] data off Hwf Hoff Hlen Hw. cbv beta in *. unfold dec_SLEntry, enc_SLEntry in *.
  cbn [SL_NID SL_DataBID SL_SubBID] in *. destruct Hwf as (H1 & H2 & H3). entry_read Hw 24. done.
Qed.
Next Obligation. intros data off Hb Hoff Hlen. unfold dec_SLEntry. entry_total Hb. rewrite mret_Ok. split_and!; assumption. Qed.
Next Obligation. intros e. unfold checkSLEntry, inspect_SLEntry. check_cases. Qed.
Next Obligation. intros e. unfold checkSLEntry, inspect_SLEntry. check_cases. Qed.

#[export] Program Instance SIEntry_keyed : KeyedEntry SIEntry := {|
  ke_size := 16; ke_enc := enc_SIEntry; ke_dec := dec_SIEntry; ke_key := SI_Key;
  ke_check_enc := check_SIEntry; ke_check_dec := inspect_SIEntry; ke_order_enc := si_order; ke_order_dec := si_disorder;
  ke_wf e := fits 64 (SI_Key e) ∧ fits 64 (SI_Ref e) |}.
Next Obligation. done. Qed.
Next Obligation. done. Qed.
Next Obligation. intros e. unfold enc_SIEntry. repeat (apply Forall_app; split); auto with pst. Qed.
Next Obligation.
  intros [k r] data off Hwf Hoff Hlen Hw. cbv beta in *. unfold dec_SIEntry, enc_SIEntry in *.
  cbn [SI_Key SI_Ref] in *. destruct Hwf as (H1 & H2). entry_read Hw 16. done.
Qed.
Next Obligation. intros data off Hb Hoff Hlen. unfold dec_SIEntry. entry_total Hb. rewrite mret_Ok. split_and!; assumption. Qed.
Next Obligation. intros e. unfold check_SIEntry, inspect_SIEntry. check_cases. Qed.
Next Obligation. intros e. unfold check_SIEntry, inspect_SIEntry. check_cases. Qed.
