(* ===== verification/V2Pages.v ===== *)
(** * Writer v2: B-tree pages ([src/writer/v2/btree.go])

    Encoding and validation of NBT and BBT pages, the descent choice, and the
    pages as the reader of [pkg/disk] parses them. *)
From S2P Require Import Prelude Format Ids Crypt Codec Page V2Base V2Disk V2Entries.

Record BTPageView := mkBTPageView {
  BTV_Type : Z; BTV_Level : Z; BTV_Count : Z; BTV_Max : Z; BTV_EntSize : Z;
  BTV_NBT : list NBTEntry; BTV_BBT : list BBTEntry; BTV_Kids : list BTEntry; BTV_Page : PageView }.

Definition UnicodeBTEntriesBytes : Z := 488.
Definition UnicodeBTHeaderOff : Z := 488.
Definition UnicodeBTPaddingOff : Z := 492.
Definition NBTLeafEntrySize : Z := 32.
Definition BBTLeafEntrySize : Z := 24.
Definition BTNonleafEntrySize : Z := 24.
Definition MaxNBTLeafEntries : Z := UnicodeBTEntriesBytes / NBTLeafEntrySize.
Definition MaxBBTLeafEntries : Z := UnicodeBTEntriesBytes / BBTLeafEntrySize.
Definition MaxBTNonleafEntries : Z := UnicodeBTEntriesBytes / BTNonleafEntrySize.

Definition btEntSize (pageType level : Z) : result Z :=
  if (pageType =? PageNBT) && (level =? 0) then mret NBTLeafEntrySize
  else if (pageType =? PageBBT) && (level =? 0) then mret BBTLeafEntrySize
  else if ((pageType =? PageNBT) || (pageType =? PageBBT)) && (0 <? level) then mret BTNonleafEntrySize
  else invalidArg "ptype" "not an NBT/BBT page 0x%02x level %d (MS-PST %s)" [pageType; level].
Definition btEntMax (entSize : Z) : Z := UnicodeBTEntriesBytes / entSize.

(** A page payload of [n] entries of [entSize] bytes, written by [ents]. *)
Definition array_page (n entSize level : Z) (ents : result bytes) : result bytes :=
  let max := btEntMax entSize in
  if max <? n then invalidArg "cEnt" "page has %d entries, max %d (MS-PST %s)" [n; max] else
  if 255 <? n then invalidArg "cEnt" "cEnt %d exceeds BYTE" [n] else
  ents ← ents;
  buf ← put_bytes 0 ents (zeros PagePayloadMax);
  buf ← put8 UnicodeBTHeaderOff (u8 n) buf; buf ← put8 (UnicodeBTHeaderOff + 1) (u8 max) buf;
  buf ← put8 (UnicodeBTHeaderOff + 2) (u8 entSize) buf; put8 (UnicodeBTHeaderOff + 3) level buf.
Definition encodeBTPayload (pageType level : Z) (nbt : list NBTEntry) (bbt : list BBTEntry) (kids : list BTEntry) : result bytes :=
  entSize ← btEntSize pageType level;
  if (level =? 0) && (pageType =? PageNBT) then array_page (blen nbt) entSize level (encode_entries None nbt)
  else if (level =? 0) && (pageType =? PageBBT) then array_page (blen bbt) entSize level (encode_entries None bbt)
  else array_page (blen kids) entSize level (encode_entries None kids).

Definition EncodeNBTLeaf (entries : list NBTEntry) (bid ib : Z) : result bytes :=
  payload ← encodeBTPayload PageNBT 0 entries [] []; EncodePage payload PageNBT bid ib.
Definition EncodeBBTLeaf (entries : list BBTEntry) (bid ib : Z) : result bytes :=
  payload ← encodeBTPayload PageBBT 0 [] entries []; EncodePage payload PageBBT bid ib.
Definition EncodeBTNonleaf (pageType level : Z) (kids : list BTEntry) (bid ib : Z) : result bytes :=
  if level =? 0 then invalidArg "cLevel" "nonleaf page must have cLevel > 0 (MS-PST %s)" [] else
  payload ← encodeBTPayload pageType level [] [] kids; EncodePage payload pageType bid ib.

Definition InspectBTPage (raw : bytes) (offset : Z) : result BTPageView :=
  pg ← InspectPage raw offset;
  let pt := PV_Type pg in
  if negb (pt =? PageNBT) && negb (pt =? PageBBT)
  then invariant "2.2.2.7.7.1" "ptype" "got 0x%02x want NBT or BBT" [pt] else
  let b := PV_Payload pg in
  if blen b <? PagePayloadMax then invariant "2.2.2.7.7.1" "size" "payload %d want %d" [blen b; PagePayloadMax] else
  cEnt ← index b UnicodeBTHeaderOff; cEntMax ← index b (UnicodeBTHeaderOff + 1);
  cbEnt ← index b (UnicodeBTHeaderOff + 2); cLevel ← index b (UnicodeBTHeaderOff + 3);
  match btEntSize pt cLevel with
  | Panic => Panic
  | Err _ => invariant "2.2.2.7.7.1" "cbEnt" "%v" []
  | Ok wantSize =>
  if negb (cbEnt =? wantSize) then invariant "2.2.2.7.7.1" "cbEnt" "got %d want %d (MS-PST %s)" [cbEnt; wantSize] else
  let wantMax := btEntMax cbEnt in
  if negb (cEntMax =? wantMax) then invariant "2.2.2.7.7.1" "cEntMax" "got %d want %d" [cEntMax; wantMax] else
  if cEntMax <? cEnt then invariant "2.2.2.7.7.1" "cEnt" "got %d > cEntMax %d" [cEnt; cEntMax] else
  if UnicodeBTEntriesBytes <? cEnt * cbEnt then invariant "2.2.2.7.7.1" "cEnt" "entries overflow rgentries" [] else
  pad ← rd 4 UnicodeBTPaddingOff b;
  if negb (pad =? 0) then invariant "2.2.2.7.7.1" "dwPadding" "got 0x%08x want 0" [pad] else
  let view := mkBTPageView pt cLevel cEnt cEntMax cbEnt in
  if (cLevel =? 0) && (pt =? PageNBT) then
    es ← inspect_entries b None (Z.to_nat cEnt) 0; mret (view es [] [] pg)
  else if (cLevel =? 0) && (pt =? PageBBT) then
    es ← inspect_entries b None (Z.to_nat cEnt) 0; mret (view [] es [] pg)
  else
    es ← inspect_entries b None (Z.to_nat cEnt) 0; mret (view [] [] es pg)
  end.

Definition firstKey (v : BTPageView) : result Z :=
  if BTV_Count v =? 0 then invariant "2.2.2.7.7.2" "btkey" "child page is empty" [] else
  if (BTV_Level v =? 0) && (BTV_Type v =? PageNBT)
  then match BTV_NBT v with e :: _ => mret (N_NID e) | [] => Panic end
  else if (BTV_Level v =? 0) && (BTV_Type v =? PageBBT)
  then match BTV_BBT v with e :: _ => mret (B_BID e) | [] => Panic end
  else match BTV_Kids v with e :: _ => mret (K_Key e) | [] => Panic end.

(** The largest [i] with [kids[i].Key <= key]. *)
Fixpoint choose_from (kids : list BTEntry) (key : Z) (j i : nat) : nat :=
  match kids with
  | [] => i
  | k :: kids => choose_from kids key (S j) (if K_Key k <=? key then j else i)
  end.
Definition chooseChild (kids : list BTEntry) (key : Z) : option nat :=
  match kids with
  | [] => None
  | k :: rest => if key <? K_Key k then None else Some (choose_from rest key 1 0)
  end.

(** ** The layout of a page payload *)
Definition array_payload `{KeyedEntry A} (es : list A) (level : Z) : bytes :=
  concat (map ke_enc es) ++ zeros (488 - blen es * ke_size) ++
  [blen es] ++ [btEntMax ke_size] ++ [ke_size] ++ [level] ++ zeros 4.
Definition room `{KeyedEntry A} (es : list A) : Prop := blen es ≤ btEntMax ke_size.

(** The sizes of the entries of a page. *)
Definition page_entry_size (sz : Z) : Prop := sz = 32 ∨ sz = 24.
Lemma room_size `{KeyedEntry A} (es : list A) :
  page_entry_size ke_size → room es → blen es * ke_size ≤ 488 ∧ blen es ≤ 20 ∧ btEntMax ke_size ≤ 20.
Proof.
  unfold room, btEntMax, UnicodeBTEntriesBytes. intros [E|E]; rewrite E;
    [change (488 / 32) with 15|change (488 / 24) with 20]; lia.
Qed.

Lemma blen_array_payload `{KeyedEntry A} (es : list A) level :
  page_entry_size ke_size → room es → blen (array_payload es level) = 496.
Proof.
  intros Hs Hr. destruct (room_size es Hs Hr) as (? & ? & ?). unfold array_payload.
  rewrite !blen_app, blen_entries. blia.
Qed.
Lemma bytes_ok_array_payload `{KeyedEntry A} (es : list A) level :
  page_entry_size ke_size → room es → fits 8 level → bytes_ok (array_payload es level).
Proof.
  intros Hs Hr Hl. destruct (room_size es Hs Hr) as (? & ? & ?). pose proof (blen_nonneg es). unfold array_payload.
  assert (0 ≤ btEntMax ke_size ∧ 0 ≤ ke_size < 256) as [? ?]
    by (unfold btEntMax, UnicodeBTEntriesBytes; destruct Hs as [-> | ->]; done).
  unfold fits in Hl. repeat (apply Forall_app; split); auto with pst; try (repeat constructor; unfold is_byte; lia).
  apply Forall_concat, Forall_map, Forall_true. intros e. apply ke_enc_ok.
Qed.

Lemma put_array `{KeyedEntry A} (es : list A) level :
  page_entry_size ke_size → room es → fits 8 level →
  (buf ← put_bytes 0 (concat (map ke_enc es)) (zeros PagePayloadMax);
   buf ← put8 UnicodeBTHeaderOff (u8 (blen es)) buf; buf ← put8 (UnicodeBTHeaderOff + 1) (u8 (btEntMax ke_size)) buf;
   buf ← put8 (UnicodeBTHeaderOff + 2) (u8 ke_size) buf; put8 (UnicodeBTHeaderOff + 3) level buf)
  = Ok (array_payload es level).
Proof.
  intros Hs Hr Hl. destruct (room_size es Hs Hr) as (Hle & Hn & Hmx). pose proof (blen_entries es) as He.
  pose proof (blen_nonneg es). change PagePayloadMax with 496. unfold UnicodeBTHeaderOff.
  assert (0 ≤ btEntMax ke_size ∧ 0 ≤ ke_size < 256) as [? ?]
    by (unfold btEntMax, UnicodeBTEntriesBytes; destruct Hs as [-> | ->]; done).
  unfold fits in Hl. rewrite !u8_small by lia.
  set (ents := concat (map ke_enc es)) in *.
  assert (zeros 496 = zeros (blen ents) ++ zeros (488 - blen ents) ++ zeros 1 ++ zeros 1 ++ zeros 1 ++ zeros 1 ++ zeros 4) as ->.
  { unfold zeros. rewrite <- !replicate_add. f_equal. lia. }
  rewrite put_bytes_Ok by blia. rewrite bind_Ok.
  rewrite splice_head by blia. buf_write. unfold array_payload. fold ents. rewrite He. f_equal. buf_layout. done.
Qed.

(** The entry array and the header read off a payload. *)
Lemma array_payload_reads `{KeyedEntry A} (es : list A) level :
  page_entry_size ke_size → room es → fits 8 level → Forall (λ e, ke_wf e ∧ valid e) es → keys_from None es →
  let b := array_payload es level in
  index b 488 = Ok (blen es) ∧ index b 489 = Ok (btEntMax ke_size) ∧ index b 490 = Ok ke_size ∧ index b 491 = Ok level ∧
  rd 4 492 b = Ok 0 ∧ inspect_entries b None (Z.to_nat (blen es)) 0 = Ok es.
Proof.
  intros Hs Hr Hl Hw Hk b. destruct (room_size es Hs Hr) as (Hle & Hn & Hmx). pose proof (blen_entries es) as He.
  pose proof (blen_nonneg es). pose proof (blen_array_payload es level Hs Hr) as Hb. fold b in Hb.
  set (pre := concat (map ke_enc es) ++ zeros (488 - blen es * ke_size)).
  assert (blen pre = 488) as Hp by (subst pre; rewrite blen_app, He; blia).
  assert (b = pre ++ [blen es] ++ [btEntMax ke_size] ++ [ke_size] ++ [level] ++ zeros 4) as Eb
    by (subst b pre; unfold array_payload; by rewrite <- !app_assoc).
  rewrite !index_total by lia. rewrite rd_Ok by lia. rewrite !Eb. buf_fields. rewrite !le_dec_1. split_and!; try done.
  rewrite <- Eb. unfold blen at 1. rewrite Nat2Z.id. apply inspect_entries_back; try done; [lia|].
  pose proof (blen_nonneg (concat (map ke_enc es))).
  subst b. unfold array_payload. rewrite sub_app_l by lia. apply sub_0_all. lia.
Qed.

(** ** Encoding and inspecting the three kinds of pages *)
Inductive tree_page :=
| NBTPage (es : list NBTEntry)
| BBTPage (es : list BBTEntry)
| KidsPage (pageType level : Z) (es : list BTEntry).
Definition encode_page (p : tree_page) (bid ib : Z) : result bytes :=
  match p with
  | NBTPage es => EncodeNBTLeaf es bid ib
  | BBTPage es => EncodeBBTLeaf es bid ib
  | KidsPage pt level es => EncodeBTNonleaf pt level es bid ib
  end.
Definition tp_type (p : tree_page) : Z :=
  match p with NBTPage _ => PageNBT | BBTPage _ => PageBBT | KidsPage pt _ _ => pt end.
Definition tp_level (p : tree_page) : Z := match p with KidsPage _ level _ => level | _ => 0 end.
Definition tp_count (p : tree_page) : Z := match p with NBTPage es => blen es | BBTPage es => blen es | KidsPage _ _ es => blen es end.
Definition tp_wf (p : tree_page) : Prop :=
  match p with
  | NBTPage es => Forall ke_wf es
  | BBTPage es => Forall ke_wf es
  | KidsPage _ level es => fits 8 level ∧ Forall ke_wf es
  end.
(** What the encoders require of a page. *)
Definition page_ok `{KeyedEntry A} (es : list A) : Prop := room es ∧ Forall valid es ∧ keys_from None es.
Definition tp_ok (p : tree_page) : Prop :=
  match p with
  | NBTPage es => page_ok es
  | BBTPage es => page_ok es
  | KidsPage pt level es => (pt = PageNBT ∨ pt = PageBBT) ∧ 0 < level ∧ page_ok es
  end.
Definition tp_payload (p : tree_page) : bytes :=
  match p with
  | NBTPage es => array_payload es 0
  | BBTPage es => array_payload es 0
  | KidsPage _ level es => array_payload es level
  end.
Definition view_page (v : BTPageView) : tree_page :=
  if BTV_Level v =? 0
  then if BTV_Type v =? PageNBT then NBTPage (BTV_NBT v) else BBTPage (BTV_BBT v)
  else KidsPage (BTV_Type v) (BTV_Level v) (BTV_Kids v).

Lemma encode_array `{KeyedEntry A} (es : list A) level :
  page_entry_size ke_size → fits 8 level →
  let r := array_page (blen es) ke_size level (encode_entries None es) in
  (page_ok es → r = Ok (array_payload es level)) ∧ (∀ bs, r = Ok bs → page_ok es).
Proof.
  intros Hs Hl r. subst r. unfold array_page, page_ok, room in *.
  destruct (Z.ltb_spec (btEntMax ke_size) (blen es)) as [Hlt|Hle].
  { split; [intros [? _]; lia|done]. }
  destruct (room_size es Hs Hle) as (? & ? & ?). rewrite (proj2 (Z.ltb_ge 255 _)) by lia. split.
  - intros (_ & Hv & Hk). rewrite encode_entries_Ok by done. rewrite bind_Ok. by apply put_array.
  - intros bs (ents & He & _)%bind_Ok_inv. apply encode_entries_inv in He. naive_solver.
Qed.

Lemma payload_nbt es b k : encodeBTPayload PageNBT 0 es b k = array_page (blen es) (ke_size (A:=NBTEntry)) 0 (encode_entries None es).
Proof. reflexivity. Qed.
Lemma payload_bbt n es k : encodeBTPayload PageBBT 0 n es k = array_page (blen es) (ke_size (A:=BBTEntry)) 0 (encode_entries None es).
Proof. reflexivity. Qed.

Lemma encode_payload p : tp_wf p →
  let r := encodeBTPayload (tp_type p) (tp_level p)
    (match p with NBTPage es => es | _ => [] end) (match p with BBTPage es => es | _ => [] end)
    (match p with KidsPage _ _ es => es | _ => [] end) in
  (match p with KidsPage _ level _ => level ≠ 0 | _ => True end) →
  (tp_ok p → r = Ok (tp_payload p)) ∧ (∀ bs, r = Ok bs → tp_ok p).
Proof.
  intros Hw r Hlv. subst r. destruct p as [es|es|pt level es]; cbn [tp_type tp_level tp_ok tp_payload].
  - rewrite payload_nbt. apply (encode_array es 0); [by left|done].
  - rewrite payload_bbt. apply (encode_array es 0); [by right|done].
  - unfold encodeBTPayload, btEntSize. destruct Hw as [Hl Hw]. rewrite (proj2 (Z.eqb_neq level 0)) by done. rewrite !andb_false_r.
    unfold fits in Hl. rewrite (proj2 (Z.ltb_lt 0 level)) by lia. rewrite andb_true_r.
    destruct ((pt =? PageNBT) || (pt =? PageBBT)) eqn:E.
    2:{ split; [|done]. intros [[-> | ->] _]; done. }
    assert (pt = PageNBT ∨ pt = PageBBT) as Hpt by (unfold PageNBT, PageBBT in *; lia).
    destruct (encode_array es level) as [H1 H2]; [by right|done|].
    rewrite mret_Ok, bind_Ok. cbn [andb]. split.
    + intros (_ & _ & Hok). by apply H1.
    + intros bs Hb. split_and!; [done|lia|]. by eapply H2.
Qed.

(** ** The pages in the reader of [pkg/disk] *)
Definition nbt_leaf (e : NBTEntry) : NBTLeafEntry := mkNBTLeaf (N_NID e) (N_DataBID e) (N_SubBID e) (N_ParentNID e).
Definition bbt_leaf (e : BBTEntry) : BBTLeafEntry := mkBBTLeaf (mkBRef (B_BID e) (B_IB e)) (B_CB e) (B_RefCount e).
Definition bt_nonleaf (e : BTEntry) : BTNonleafEntry := mkNonleaf (K_Key e) (mkBRef (BREF_BID (K_Ref e)) (BREF_IB (K_Ref e))).
Definition reads_page (p : tree_page) (bp : BTPage) : Prop :=
  BP_Level bp = tp_level p ∧
  match p with
  | NBTPage es => BP_NBTEntries bp = map nbt_leaf es
  | BBTPage es => BP_BBTEntries bp = map bbt_leaf es
  | KidsPage _ _ es => BP_NonleafEntries bp = map bt_nonleaf es
  end.

Lemma reader_entries `{KeyedEntry A} `{EntryCodec B} (conv : A → B) (es : list A) level raw m lv :
  ec_size FormatUnicode = ke_size → (∀ e, ec_enc FormatUnicode (conv e) = ke_enc e) →
  (∀ e, ke_wf e → ec_wf FormatUnicode (conv e)) → Forall ke_wf es →
  page_entry_size ke_size → room es → sub raw 0 496 = array_payload es level → 496 ≤ blen raw →
  page_entries (ec_dec raw FormatUnicode) (mkBTPageHeader (blen es) m ke_size lv) = Ok (map conv es).
Proof.
  intros Hsz Henc Hwf Hw Hs Hr Hraw Hl. rewrite <- Hsz.
  assert (blen (array_payload es level) = 496) as Hb by by apply blen_array_payload.
  apply (page_entries_back FormatUnicode (map conv es) raw (blen es) m lv (array_payload es level)); try done.
  - apply Forall_map. eapply Forall_impl; [exact Hw|]. auto.
  - by rewrite blen_map.
  - by rewrite Hb.
  - lia.
  - assert (map (ec_enc FormatUnicode) (map conv es) = map ke_enc es) as ->.
    { rewrite map_map. apply map_ext. done. }
    unfold array_payload. by eexists.
Qed.

Lemma payload_header `{KeyedEntry A} (es : list A) level :
  page_entry_size ke_size → room es → sub (array_payload es level) 488 4 = [blen es; btEntMax ke_size; ke_size; level].
Proof.
  intros Hs Hr. destruct (room_size es Hs Hr) as (Hle & _ & _). pose proof (blen_entries es) as He.
  pose proof (blen_nonneg (concat (map ke_enc es))). unfold array_payload. rewrite sub_app_r by lia. rewrite sub_app_r by blia.
  rewrite He. replace (488 - blen es * ke_size - blen (zeros (488 - blen es * ke_size))) with 0 by blia. done.
Qed.

Lemma pkg_parses p bid ib : tp_wf p → tp_ok p → fits 64 bid → bid ≠ 0 →
  ∃ bp, ParseBTPage (page_image (tp_payload p) (tp_type p) bid ib) FormatUnicode (tp_type p) = Ok bp ∧ reads_page p bp.
Proof.
  intros Hw Hok Hb Hz.
  assert (blen (tp_payload p) = 496 ∧ bytes_ok (tp_payload p)) as [Hl Hpb].
  { destruct p as [es|es|pt level es]; cbn [tp_payload tp_ok tp_wf] in *.
    - destruct Hok. split; [by apply blen_array_payload; [left|]|by apply bytes_ok_array_payload; [left| |]].
    - destruct Hok. split; [by apply blen_array_payload; [right|]|by apply bytes_ok_array_payload; [right| |]].
    - destruct Hok as (_ & _ & []), Hw. split; [by apply blen_array_payload; [right|]|by apply bytes_ok_array_payload; [right| |]]. }
  assert ((tp_type p = PageNBT ∨ tp_type p = PageBBT) ∧ zeroSigPageType (tp_type p) = false) as [Ht Hzs].
  { destruct p as [es|es|pt level es]; cbn [tp_type tp_ok] in *; [by split; [left|]|by split; [right|]|].
    destruct Hok as ([-> | ->] & _); (split; [auto|done]). }
  set (raw := page_image (tp_payload p) (tp_type p) bid ib).
  assert (raw = tp_payload p ++ enc_pageTrailer FormatUnicode (tp_type p) bid (signature bid ib) (crc32PST (tp_payload p))) as Eraw.
  { subst raw. unfold page_image, page_tail, page_sig, page_bid. by rewrite Hzs. }
  assert (fits 8 (tp_type p)) as Hf8 by (destruct Ht as [-> | ->]; done).
  assert (blen raw = 512) as Hrl by (rewrite Eraw, blen_app, Hl; done).
  assert (sub raw 0 496 = tp_payload p) as Hpre by (rewrite Eraw, sub_app_l by lia; by apply sub_0_all).
  assert (∀ n m sz lv, sub (tp_payload p) 488 4 = [n; m; sz; lv] →
    ParseBTPage raw FormatUnicode (tp_type p)
    = let t := mkPageTrailer (tp_type p) (tp_type p) (signature bid ib) (crc32PST (tp_payload p)) bid in
      let h := mkBTPageHeader n m sz lv in
      if lv =? 0 then
        if tp_type p =? PageTypeNBT then parseNBTLeafPage t h raw FormatUnicode
        else if tp_type p =? PageTypeBBT then parseBBTLeafPage t h raw FormatUnicode
        else mret (mkBTPage t h lv [] [] [])
      else parseBTNonleafPage t h raw FormatUnicode) as Hopen.
  { intros n m sz lv Hh. rewrite Eraw.
    apply (ParseBTPage_open FormatUnicode (tp_payload p) (tp_type p) bid (signature bid ib) (crc32PST (tp_payload p)) n m sz lv);
      try done; [apply ComputeSignature_range|by apply ComputeCRC_fits]. }
  destruct p as [es|es|pt level es]; cbn [tp_payload tp_ok tp_wf tp_type] in *.
  - destruct Hok as (Hr & _ & _). rewrite (Hopen _ _ _ _ (payload_header es 0 ltac:(by left) Hr)).
    cbv zeta. rewrite Z.eqb_refl. change (PageNBT =? PageTypeNBT) with true. cbv iota. unfold parseNBTLeafPage.
    assert (page_entries (parseNBTLeafEntry raw FormatUnicode) (mkBTPageHeader (blen es) (btEntMax (ke_size (A:=NBTEntry))) (ke_size (A:=NBTEntry)) 0) = Ok (map nbt_leaf es)) as ->.
    { pose proof (reader_entries (A:=NBTEntry) (B:=NBTLeafEntry) nbt_leaf es 0 raw (btEntMax (ke_size (A:=NBTEntry))) 0) as HH.
      cbn [ec_size ec_enc ec_dec ec_wf NBTLeaf_codec] in HH. apply HH; try done; [by left|lia]. }
    rewrite bind_Ok, mret_Ok. by eexists.
  - destruct Hok as (Hr & _ & _). rewrite (Hopen _ _ _ _ (payload_header es 0 ltac:(by right) Hr)).
    cbv zeta. rewrite Z.eqb_refl. change (PageBBT =? PageTypeNBT) with false. change (PageBBT =? PageTypeBBT) with true.
    cbv iota. unfold parseBBTLeafPage.
    assert (page_entries (parseBBTLeafEntry raw FormatUnicode) (mkBTPageHeader (blen es) (btEntMax (ke_size (A:=BBTEntry))) (ke_size (A:=BBTEntry)) 0) = Ok (map bbt_leaf es)) as ->.
    { pose proof (reader_entries (A:=BBTEntry) (B:=BBTLeafEntry) bbt_leaf es 0 raw (btEntMax (ke_size (A:=BBTEntry))) 0) as HH.
      cbn [ec_size ec_enc ec_dec ec_wf BBTLeaf_codec] in HH. apply HH; try done; [by right|lia]. }
    rewrite bind_Ok, mret_Ok. by eexists.
  - destruct Hok as (_ & Hlv & Hr & _ & _), Hw as [_ Hw]. rewrite (Hopen _ _ _ _ (payload_header es level ltac:(by right) Hr)).
    cbv zeta. rewrite (proj2 (Z.eqb_neq level 0)) by lia. unfold parseBTNonleafPage.
    assert (page_entries (parseBTNonleafEntry raw FormatUnicode) (mkBTPageHeader (blen es) (btEntMax (ke_size (A:=BTEntry))) (ke_size (A:=BTEntry)) level) = Ok (map bt_nonleaf es)) as ->.
    { pose proof (reader_entries (A:=BTEntry) (B:=BTNonleafEntry) bt_nonleaf es level raw (btEntMax (ke_size (A:=BTEntry))) level) as HH.
      cbn [ec_size ec_enc ec_dec ec_wf Nonleaf_codec] in HH. apply HH; try done; [by right|lia]. }
    rewrite bind_Ok, mret_Ok. by eexists.
Qed.

(** ** Reading a page back *)
Lemma tp_facts p : tp_wf p → tp_ok p →
  blen (tp_payload p) = 496 ∧ bytes_ok (tp_payload p) ∧ (tp_type p = PageNBT ∨ tp_type p = PageBBT) ∧
  fits 8 (tp_level p).
Proof.
  intros Hw Hok. destruct p as [es|es|pt level es]; cbn [tp_payload tp_type tp_level tp_ok tp_wf] in *.
  - destruct Hok. split_and!; [by apply blen_array_payload; [left|]|by apply bytes_ok_array_payload; [left| |]|by left|done].
  - destruct Hok. split_and!; [by apply blen_array_payload; [right|]|by apply bytes_ok_array_payload; [right| |]|by right|done].
  - destruct Hok as (? & _ & []), Hw.
    split_and!; [by apply blen_array_payload; [right|]|by apply bytes_ok_array_payload; [right| |]|done|done].
Qed.

Lemma InspectBTPage_image p bid ib : tp_wf p → tp_ok p → fits 64 bid → fits 64 ib → bid ≠ 0 →
  ∃ v, InspectBTPage (page_image (tp_payload p) (tp_type p) bid ib) ib = Ok v ∧ view_page v = p ∧ PV_BID (BTV_Page v) = bid ∧
       BTV_Type v = tp_type p ∧ BTV_Level v = tp_level p ∧ BTV_Count v = tp_count p.
Proof.
  intros Hw Hok Hb Hib Hz. destruct (tp_facts p Hw Hok) as (Hl & Hpb & Ht & _).
  unfold InspectBTPage. rewrite InspectPage_image; try done.
  2:{ destruct Ht as [-> | ->]; split; done. }
  rewrite bind_Ok. cbn [PV_Type PV_Payload].
  assert ((negb (tp_type p =? PageNBT) && negb (tp_type p =? PageBBT)) = false) as -> by (destruct Ht as [-> | ->]; done).
  rewrite Hl. change PagePayloadMax with 496. rewrite Z.ltb_irrefl.
  unfold UnicodeBTHeaderOff, UnicodeBTPaddingOff. change (488 + 1) with 489. change (488 + 2) with 490. change (488 + 3) with 491.
  unfold UnicodeBTEntriesBytes.
  destruct p as [es|es|pt level es]; cbn [tp_payload tp_type tp_ok tp_wf tp_level] in *.
  - destruct Hok as (Hr & Hv & Hk). destruct (room_size es ltac:(by left) Hr) as (Hle & Hn & Hmx).
    destruct (array_payload_reads es 0 ltac:(by left) Hr ltac:(done)) as (E1 & E2 & E3 & E4 & E5 & E6); [by apply Forall_and|done|].
    rewrite E1, bind_Ok, E2, bind_Ok, E3, bind_Ok, E4, bind_Ok. change (btEntSize PageNBT 0) with (Ok (A:=Z) (ke_size (A:=NBTEntry))).
    cbv iota. rewrite !Z.eqb_refl. cbn [negb]. rewrite (proj2 (Z.ltb_ge _ (blen es))) by done.
    rewrite (proj2 (Z.ltb_ge 488 _)) by done. rewrite E5, bind_Ok. change (0 =? 0) with true. cbn [negb andb].
    rewrite E6, bind_Ok, mret_Ok. by eexists.
  - destruct Hok as (Hr & Hv & Hk). destruct (room_size es ltac:(by right) Hr) as (Hle & Hn & Hmx).
    destruct (array_payload_reads es 0 ltac:(by right) Hr ltac:(done)) as (E1 & E2 & E3 & E4 & E5 & E6); [by apply Forall_and|done|].
    rewrite E1, bind_Ok, E2, bind_Ok, E3, bind_Ok, E4, bind_Ok. change (btEntSize PageBBT 0) with (Ok (A:=Z) (ke_size (A:=BBTEntry))).
    cbv iota. rewrite !Z.eqb_refl. cbn [negb]. rewrite (proj2 (Z.ltb_ge _ (blen es))) by done.
    rewrite (proj2 (Z.ltb_ge 488 _)) by done. rewrite E5, bind_Ok. change (0 =? 0) with true.
    change (PageBBT =? PageNBT) with false. cbn [negb andb]. rewrite E6, bind_Ok, mret_Ok. by eexists.
  - destruct Hok as (_ & Hlv & Hr & Hv & Hk), Hw as [Hf Hw]. destruct (room_size es ltac:(by right) Hr) as (Hle & Hn & Hmx).
    destruct (array_payload_reads es level ltac:(by right) Hr ltac:(done)) as (E1 & E2 & E3 & E4 & E5 & E6); [by apply Forall_and|done|].
    rewrite E1, bind_Ok, E2, bind_Ok, E3, bind_Ok, E4, bind_Ok.
    assert ((level =? 0) = false) as Hl0 by (apply Z.eqb_neq; lia).
    assert (btEntSize pt level = Ok (ke_size (A:=BTEntry))) as ->.
    { unfold btEntSize. rewrite Hl0, !andb_false_r. rewrite (proj2 (Z.ltb_lt 0 level)) by done.
      destruct Ht as [-> | ->]; done. }
    rewrite !Z.eqb_refl. cbn [negb]. rewrite (proj2 (Z.ltb_ge _ (blen es))) by done.
    rewrite (proj2 (Z.ltb_ge 488 _)) by done. rewrite E5, bind_Ok. change (0 =? 0) with true.
    rewrite Hl0. cbn [negb andb]. rewrite E6, bind_Ok, mret_Ok. eexists. split; [done|].
    unfold view_page. cbn [BTV_Level BTV_Type BTV_Kids BTV_Page PV_BID]. rewrite Hl0.
    destruct Ht as [-> | ->]; by split_and!.
Qed.

Lemma encode_page_inv p bid ib raw : tp_wf p → fits 64 bid → encode_page p bid ib = Ok raw →
  tp_ok p ∧ bid ≠ 0 ∧ raw = page_image (tp_payload p) (tp_type p) bid ib.
Proof.
  intros Hw Hb He.
  assert (∀ payload, EncodePage payload (tp_type p) bid ib = Ok raw → tp_ok p → payload = tp_payload p →
    tp_ok p ∧ bid ≠ 0 ∧ raw = page_image (tp_payload p) (tp_type p) bid ib) as Hend.
  { intros payload Hp Hok ->. destruct (tp_facts p Hw Hok) as (Hl & _ & Ht & _).
    destruct (EncodePage_inv _ _ _ _ _ Hp) as [_ Ha]. rewrite EncodePage_Ok in Hp by (done || lia).
    rewrite Hl in Hp. change (zeros (496 - 496)) with (@nil Z) in Hp. rewrite app_nil_r in Hp. injection Hp as <-.
    split_and!; [done| |done]. destruct Ha as [_ Hbid]. apply Hbid. by destruct Ht as [-> | ->]. }
  destruct (encode_payload p Hw) as [H1 H2]; [destruct p as [| |pt level es]; try done|].
  { cbn in He. unfold EncodeBTNonleaf in He. by destruct (Z.eqb_spec level 0). }
  destruct p as [es|es|pt level es]; cbn [encode_page] in He.
  1,2: unfold EncodeNBTLeaf, EncodeBBTLeaf in He; apply bind_Ok_inv in He as (payload & Hp & He);
    apply (Hend payload He); [by eapply H2|]; cbn [tp_type tp_level] in *; rewrite H1 in Hp by (by eapply H2); congruence.
  unfold EncodeBTNonleaf in He. destruct (Z.eqb_spec level 0); [done|]. apply bind_Ok_inv in He as (payload & Hp & He).
  apply (Hend payload He); [by eapply H2|]. cbn [tp_type tp_level] in *. rewrite H1 in Hp by (by eapply H2). congruence.
Qed.

Lemma EncodePage_payload p bid ib : tp_wf p → tp_ok p → bid ≠ 0 →
  EncodePage (tp_payload p) (tp_type p) bid ib = Ok (page_image (tp_payload p) (tp_type p) bid ib).
Proof.
  intros Hw Hok Hz. destruct (tp_facts p Hw Hok) as (Hl & _ & Ht & _). rewrite EncodePage_Ok; [|lia|destruct Ht as [-> | ->]; by split].
  rewrite Hl. change (zeros (496 - 496)) with (@nil Z). by rewrite app_nil_r.
Qed.
Lemma encode_page_Ok p bid ib : tp_wf p → tp_ok p → bid ≠ 0 →
  encode_page p bid ib = Ok (page_image (tp_payload p) (tp_type p) bid ib).
Proof.
  intros Hw Hok Hz. pose proof (EncodePage_payload p bid ib Hw Hok Hz) as E.
  destruct (encode_payload p Hw) as [H1 _]; [destruct p as [| |pt level es]; try done; cbn in Hok; lia|]. specialize (H1 Hok).
  destruct p as [es|es|pt level es]; cbn [encode_page tp_type tp_level] in *;
    unfold EncodeNBTLeaf, EncodeBBTLeaf, EncodeBTNonleaf; [by rewrite H1, bind_Ok..|].
  rewrite (proj2 (Z.eqb_neq level 0)) by (cbn in Hok; lia). by rewrite H1, bind_Ok.
Qed.

(** What the inspector accepts is a page the encoders would write. *)
Lemma inspect_array `{KeyedEntry A} (b : bytes) n : page_entry_size ke_size → bytes_ok b → blen b = 496 →
  0 ≤ n ≤ btEntMax ke_size →
  match inspect_entries b None (Z.to_nat n) 0 with
  | Ok es => Forall ke_wf es ∧ page_ok es | Err _ => True | Panic => False end.
Proof.
  intros Hs Hb Hl Hn.
  assert (0 + Z.of_nat (Z.to_nat n) * ke_size ≤ blen b) as Hin.
  { rewrite Hl, Z2Nat.id by lia. unfold btEntMax, UnicodeBTEntriesBytes in Hn.
    destruct Hs as [E|E]; rewrite E in *; [change (488 / 32) with 15 in *|change (488 / 24) with 20 in *]; lia. }
  pose proof (inspect_entries_spec b (Z.to_nat n) None 0 Hb ltac:(lia) Hin) as Hi.
  destruct (inspect_entries b None (Z.to_nat n) 0) as [es| |]; [|done..]. destruct Hi as (Hlen & Hw & Hk).
  apply Forall_and in Hw as [Hw Hv]. split; [done|]. split_and!; try done. unfold room, blen. lia.
Qed.

Lemma btEntSize_cases pt lv s : 0 ≤ lv → btEntSize pt lv = Ok s →
  (pt = PageNBT ∧ lv = 0 ∧ s = 32) ∨ (pt = PageBBT ∧ lv = 0 ∧ s = 24) ∨ ((pt = PageNBT ∨ pt = PageBBT) ∧ 0 < lv ∧ s = 24).
Proof.
  intros Hlv. unfold btEntSize, NBTLeafEntrySize, BBTLeafEntrySize, BTNonleafEntrySize.
  destruct (Z.eqb_spec pt PageNBT), (Z.eqb_spec pt PageBBT), (Z.eqb_spec lv 0), (Z.ltb_spec 0 lv); cbn [andb orb];
    try lia; (done || (injection 1 as <-; intuition auto)).
Qed.

Lemma InspectBTPage_spec raw offset : bytes_ok raw →
  match InspectBTPage raw offset with
  | Ok v => tp_wf (view_page v) ∧ tp_ok (view_page v) ∧ tp_type (view_page v) = BTV_Type v ∧
            tp_level (view_page v) = BTV_Level v ∧ PV_BID (BTV_Page v) ≠ 0 ∧ fits 64 (PV_BID (BTV_Page v))
  | Err _ => True
  | Panic => False
  end.
Proof.
  intros Hb. unfold InspectBTPage. destruct (InspectPage raw offset) as [pg| |] eqn:Epg; [|done|by apply InspectPage_total in Epg].
  rewrite bind_Ok. destruct (InspectPage_inv raw offset pg Hb Epg) as (_ & Hp & Hpb & [_ Ha] & Hf & _).
  set (pt := PV_Type pg) in *. set (b := PV_Payload pg) in *.
  destruct (negb (pt =? PageNBT) && negb (pt =? PageBBT)) eqn:Ept; [done|].
  assert (PV_BID pg ≠ 0) as Hz.
  { apply Ha. apply andb_false_iff in Ept as [E|E]; apply negb_false_iff, Z.eqb_eq in E; by rewrite E. }
  rewrite Hp. change (496 <? PagePayloadMax) with false. cbv iota.
  unfold UnicodeBTHeaderOff, UnicodeBTPaddingOff, UnicodeBTEntriesBytes.
  change (488 + 1) with 489. change (488 + 2) with 490. change (488 + 3) with 491.
  rewrite !index_total by lia. rewrite !bind_Ok. rewrite rd_Ok by lia.
  assert (fits 8 (le_dec (sub b 488 1)) ∧ fits 8 (le_dec (sub b 491 1))) as [Hn Hlv]
    by (split; apply le_dec_sub_fits; (done || lia)).
  set (n := le_dec (sub b 488 1)) in *. set (m := le_dec (sub b 489 1)). set (sz := le_dec (sub b 490 1)).
  set (lv := le_dec (sub b 491 1)) in *. unfold fits in Hn, Hlv.
  destruct (btEntSize pt lv) as [want| |] eqn:Ew; [|done|by revert Ew; unfold btEntSize; repeat case_match].
  apply btEntSize_cases in Ew; [|lia].
  destruct (Z.eqb_spec sz want) as [Es|]; [|done]. destruct (Z.eqb_spec m (btEntMax sz)) as [Em|]; [|done].
  destruct (Z.ltb_spec m n) as [|Hle]; [done|]. destruct (488 <? n * sz); [done|]. rewrite bind_Ok. cbn [negb].
  destruct (le_dec _ =? 0); [|done]. cbn [negb]. rewrite Em, Es in Hle.
  destruct Ew as [(-> & -> & ->)|[(-> & -> & ->)|(Hpt & Hpos & ->)]].
  - pose proof (inspect_array (A:=NBTEntry) b n ltac:(by left) Hpb Hp (conj (proj1 Hn) Hle)) as Hi.
    change (0 =? 0) with true. change (PageNBT =? PageNBT) with true. cbn [andb].
    destruct (inspect_entries (A:=NBTEntry) b None (Z.to_nat n) 0) as [es| |]; [|done..]. destruct Hi. by split_and!.
  - pose proof (inspect_array (A:=BBTEntry) b n ltac:(by right) Hpb Hp (conj (proj1 Hn) Hle)) as Hi.
    change (0 =? 0) with true. change (PageBBT =? PageNBT) with false. change (PageBBT =? PageBBT) with true. cbn [andb].
    destruct (inspect_entries (A:=BBTEntry) b None (Z.to_nat n) 0) as [es| |]; [|done..]. destruct Hi. by split_and!.
  - pose proof (inspect_array (A:=BTEntry) b n ltac:(by right) Hpb Hp (conj (proj1 Hn) Hle)) as Hi.
    rewrite (proj2 (Z.eqb_neq lv 0)) by lia. cbn [andb].
    destruct (inspect_entries (A:=BTEntry) b None (Z.to_nat n) 0) as [es| |]; [|done..]. destruct Hi as [Hw Hok].
    rewrite bind_Ok, mret_Ok. unfold view_page. cbn [BTV_Level BTV_Type BTV_Kids BTV_Page].
    rewrite (proj2 (Z.eqb_neq lv 0)) by lia. by split_and!.
Qed.

(** C39: A B-tree page written by the encoders is read back entry for entry by the
    inspector and by the page parser of [pkg/disk]; what the inspector accepts,
    the encoders write; and it never faults. *)
Theorem btpage_exact raw offset : bytes_ok raw → fits 64 offset →
  InspectBTPage raw offset ≠ Panic ∧
  (∀ v, InspectBTPage raw offset = Ok v →
     tp_type (view_page v) = BTV_Type v ∧ tp_level (view_page v) = BTV_Level v ∧
     ∃ raw', encode_page (view_page v) (PV_BID (BTV_Page v)) offset = Ok raw') ∧
  (∀ p bid, tp_wf p → fits 64 bid → encode_page p bid offset = Ok raw →
     (∃ v, InspectBTPage raw offset = Ok v ∧ view_page v = p ∧ PV_BID (BTV_Page v) = bid) ∧
     (∃ bp, ParseBTPage raw FormatUnicode (tp_type p) = Ok bp ∧ reads_page p bp)).
Proof.
  intros Hb Ho. pose proof (InspectBTPage_spec raw offset Hb) as Hs. split_and!.
  - intros E. by rewrite E in Hs.
  - intros v Hv. rewrite Hv in Hs. destruct Hs as (Hw & Hok & Ht & Hl & Hz & _). split_and!; [done..|].
    eexists. by apply encode_page_Ok.
  - intros p bid Hw Hf He. destruct (encode_page_inv p bid offset raw Hw Hf He) as (Hok & Hz & ->). split.
    + destruct (InspectBTPage_image p bid offset) as (v & ? & ? & ? & _); eauto.
    + by apply pkg_parses.
Qed.
Definition sample_leaf : tree_page := NBTPage [mkNBTEntry 0x21 4 0 0; mkNBTEntry 0x122 8 6 0].
Lemma btpage_exact_witness :
  let raw := page_image (tp_payload sample_leaf) PageNBT 4 0x4600 in
  encode_page sample_leaf 4 0x4600 = Ok raw ∧
  InspectBTPage raw 0x4600 ≠ Panic ∧
  (∀ v, InspectBTPage raw 0x4600 = Ok v →
     tp_type (view_page v) = BTV_Type v ∧ tp_level (view_page v) = BTV_Level v ∧
     ∃ raw', encode_page (view_page v) (PV_BID (BTV_Page v)) 0x4600 = Ok raw') ∧
  (∀ p bid, tp_wf p → fits 64 bid → encode_page p bid 0x4600 = Ok raw →
     (∃ v, InspectBTPage raw 0x4600 = Ok v ∧ view_page v = p ∧ PV_BID (BTV_Page v) = bid) ∧
     (∃ bp, ParseBTPage raw FormatUnicode (tp_type p) = Ok bp ∧ reads_page p bp)).
Proof.
  intros raw. split; [by vm_compute|]. apply (btpage_exact raw 0x4600); [|unfold fits; lia].
  apply bytes_okb_true. by vm_compute.
Defined.

(** ** The descent *)
Lemma choose_from_spec kids key : ∀ j i, (i < j)%nat →
  StronglySorted Z.lt (map K_Key kids) →
  let c := choose_from kids key j i in
  (∀ a k, kids !! a = Some k → (K_Key k ≤ key ↔ (j + a ≤ c)%nat)) ∧ (c = i ∨ (j ≤ c < j + length kids)%nat).
Proof.
  induction kids as [|x kids IH]; intros j i Hi Hs c; [split; [done|by left]|].
  cbn [map] in Hs. apply StronglySorted_inv in Hs as [Hs Hx]. subst c. cbn [choose_from length].
  destruct (Z.leb_spec (K_Key x) key) as [Hle|Hgt].
  - destruct (IH (S j) j ltac:(lia) Hs) as [H1 H2]. split; [|lia]. intros [|a] k Hk; cbn in Hk.
    + injection Hk as <-. lia.
    + rewrite (H1 a k Hk). lia.
  - destruct (IH (S j) i ltac:(lia) Hs) as [H1 H2].
    assert (∀ k, k ∈ kids → key < K_Key k) as Hbig.
    { intros k Hk. rewrite Forall_forall in Hx. specialize (Hx (K_Key k)). cut (K_Key x < K_Key k); [lia|].
      apply Hx. apply list_elem_of_fmap. by exists k. }
    assert (choose_from kids key (S j) i = i) as E.
    { destruct H2 as [->|Hc]; [done|]. destruct (lookup_lt_is_Some_2 kids (choose_from kids key (S j) i - S j)%nat) as [k Hk]; [lia|].
      pose proof (proj2 (H1 _ k Hk) ltac:(lia)). assert (key < K_Key k) by (apply Hbig; by eapply list_elem_of_lookup_2). lia. }
    rewrite E. split; [|by left]. intros a k Hk. split; [|lia]. intros Hk'.
    destruct a as [|a]; cbn in Hk; [injection Hk as <-; lia|].
    assert (key < K_Key k) by (apply Hbig; by eapply list_elem_of_lookup_2). lia.
Qed.

(** Descending from a page whose keys are increasing: no child is chosen
    exactly when every key is above the one sought; otherwise the child chosen
    is the last whose key is not above it. *)
Theorem chooseChild_exact kids key : StronglySorted Z.lt (map K_Key kids) →
  match chooseChild kids key with
  | None => ∀ k, k ∈ kids → key < K_Key k
  | Some c => (c < length kids)%nat ∧ ∀ a k, kids !! a = Some k → (K_Key k ≤ key ↔ (a ≤ c)%nat)
  end.
Proof.
  intros Hs. destruct kids as [|x kids]; cbn [chooseChild]; [by intros k ?%not_elem_of_nil|].
  cbn [map] in Hs. apply StronglySorted_inv in Hs as [Hs Hx].
  destruct (Z.ltb_spec key (K_Key x)) as [Hlt|Hge].
  - intros k [->|Hk]%elem_of_cons; [done|]. rewrite Forall_forall in Hx. specialize (Hx (K_Key k)).
    cut (K_Key x < K_Key k); [lia|]. apply Hx, list_elem_of_fmap. by exists k.
  - destruct (choose_from_spec kids key 1 0 ltac:(lia) Hs) as [H1 H2]. split; [cbn [length]; lia|].
    intros [|a] k Hk; cbn in Hk; [injection Hk as <-; lia|]. rewrite (H1 a k Hk). lia.
Qed.
Lemma chooseChild_exact_witness :
  let kids := [mkBTEntry 0x21 (mkBREF 4 0x4600); mkBTEntry 0x122 (mkBREF 8 0x4800)] in
  chooseChild kids 0x60 = Some 0%nat ∧
  match chooseChild kids 0x60 with
  | None => ∀ k, k ∈ kids → 0x60 < K_Key k
  | Some c => (c < length kids)%nat ∧ ∀ a k, kids !! a = Some k → (K_Key k ≤ 0x60 ↔ (a ≤ c)%nat)
  end.
Proof.
  intros kids. split; [reflexivity|]. apply (chooseChild_exact kids 0x60). subst kids. cbn.
  repeat constructor; lia.
Defined.
