(* ===== verification/V2Blocks.v ===== *)
(** * Writer v2: the payloads of internal blocks ([xblock.go], [subnode.go])

    XBLOCK and XXBLOCK payloads, SLBLOCK and SIBLOCK payloads: their encoders,
    their inspectors, and the same bytes in the parsers of [pkg/disk]. *)
From S2P Require Import Prelude Format Ids Codec Block Page V2Base V2Entries.

Definition XBlockHeaderSize : Z := 8.
Definition SLBlockHeaderSize : Z := 8.
Definition SIBlockHeaderSize : Z := 8.
Definition SLEntrySize : Z := 24.
Definition SIEntrySize : Z := 16.
Definition MaxXBlockEntries : Z := (MaxDataBlockCB - XBlockHeaderSize) / 8.
Definition MaxSLBlockEntries : Z := (MaxDataBlockCB - SLBlockHeaderSize) / SLEntrySize.
Definition MaxSIBlockEntries : Z := (MaxDataBlockCB - SIBlockHeaderSize) / SIEntrySize.
Definition BlockTypeXBlock : Z := 1.
Definition V2BlockTypeSubnode : Z := 2.
Definition XBlockLevel : Z := 1.
Definition XXBlockLevel : Z := 2.
Definition SIBlockLevel : Z := 1.

(** ** Extended blocks *)
Record XBlockView := mkXBlockView { XV_Type : Z; XV_Level : Z; XV_Count : Z; XV_Total : Z; XV_BIDs : list Z }.

(** The loop over the BIDs to encode; [seen] are those before. *)
Fixpoint check_rgbid (level : Z) (seen : list Z) (i : Z) (bids : list Z) : result unit :=
  match bids with
  | [] => mret tt
  | bid :: bids =>
    if bid =? 0 then invalidArg "rgbid" "null BID at %d (MS-PST %s)" [i] else
    if BIDHasReserved bid then invalidArg "rgbid" "reserved bit set on BID 0x%x (MS-PST %s)" [bid] else
    if (level =? XBlockLevel) && BIDIsInternal bid
    then invalidArg "rgbid" "XBLOCK child 0x%x is internal (MS-PST %s)" [bid] else
    if (level =? XXBlockLevel) && negb (BIDIsInternal bid)
    then invalidArg "rgbid" "XXBLOCK child 0x%x is not internal (MS-PST %s)" [bid] else
    if bool_decide (bid ∈ seen) then invalidArg "rgbid" "duplicate BID 0x%x (MS-PST %s)" [bid] else
    check_rgbid level (bid :: seen) (i + 1) bids
  end.
Definition EncodeXBlock (level total : Z) (bids : list Z) : result bytes :=
  if negb (level =? XBlockLevel) && negb (level =? XXBlockLevel)
  then invalidArg "cLevel" "extended block level %d want 1 or 2 (MS-PST %s)" [level] else
  if blen bids =? 0 then invalidArg "cEnt" "extended block has no entries (MS-PST %s)" [] else
  if MaxXBlockEntries <? blen bids
  then limitErr "cEnt" "extended block has %d BIDs, max %d (MS-PST %s)" [blen bids; MaxXBlockEntries] else
  _ ← check_rgbid level [] 0 bids;
  let buf := zeros (XBlockHeaderSize + 8 * blen bids) in
  buf ← put8 0 BlockTypeXBlock buf; buf ← put8 1 level buf; buf ← put 2 2 (u16 (blen bids)) buf;
  buf ← put 4 4 total buf; put_bytes 8 (concat (map (le_enc 8) bids)) buf.

(** The loop of the inspector over [n] BIDs from index [i]. *)
Fixpoint inspect_rgbid (data : bytes) (level : Z) (seen : list Z) (n : nat) (i : Z) : result (list Z) :=
  match n with
  | O => mret []
  | S n =>
    bid ← rd 8 (8 + i * 8) data;
    if (bid =? 0) || BIDHasReserved bid then invariant "2.2.2.8.3.1" "rgbid" "invalid BID 0x%x at %d" [bid; i] else
    if (level =? XBlockLevel) && BIDIsInternal bid
    then invariant "2.2.2.8.3.1" "rgbid" "XBLOCK child 0x%x is internal" [bid] else
    if (level =? XXBlockLevel) && negb (BIDIsInternal bid)
    then invariant "2.2.2.8.3.2" "rgbid" "XXBLOCK child 0x%x is not internal" [bid] else
    if bool_decide (bid ∈ seen) then invariant "2.2.2.8.3.1" "rgbid" "duplicate BID 0x%x" [bid] else
    bids ← inspect_rgbid data level (bid :: seen) n (i + 1); mret (bid :: bids)
  end.
Definition InspectXBlock (data : bytes) : result XBlockView :=
  if blen data <? XBlockHeaderSize then invariant "2.2.2.8.3.1" "size" "payload is %d bytes, need header" [blen data] else
  ty ← index data 0; level ← index data 1; count ← rd 2 2 data; total ← rd 4 4 data;
  if negb (ty =? BlockTypeXBlock) then invariant "2.2.2.8.3.1" "btype" "got 0x%02x want 0x%02x" [ty; BlockTypeXBlock] else
  if negb (level =? XBlockLevel) && negb (level =? XXBlockLevel)
  then invariant "2.2.2.8.3.1" "cLevel" "got %d want 1 or 2 (MS-PST %s)" [level] else
  if (count =? 0) || (MaxXBlockEntries <? count)
  then invariant "2.2.2.8.3.1" "cEnt" "got %d, want 1..%d" [count; MaxXBlockEntries] else
  let need := XBlockHeaderSize + 8 * count in
  if blen data <? need
  then invariant "2.2.2.8.3.1" "size" "payload %d bytes, need %d for cEnt=%d" [blen data; need; count] else
  bids ← inspect_rgbid data level [] (Z.to_nat count) 0;
  mret (mkXBlockView ty level count total bids).

(** ** Subnode blocks *)
Record SubnodeView := mkSubnodeView {
  SV_Type : Z; SV_Level : Z; SV_Count : Z; SV_Leaves : list SLEntry; SV_Kids : list SIEntry }.

Definition subnode_header (level count : Z) (buf : bytes) : result bytes :=
  buf ← put8 0 V2BlockTypeSubnode buf; buf ← put8 1 level buf; put 2 2 (u16 count) buf.
Definition EncodeSLBlock (entries : list SLEntry) : result bytes :=
  if blen entries =? 0 then invalidArg "cEnt" "SLBLOCK has no entries (MS-PST %s)" [] else
  if MaxSLBlockEntries <? blen entries
  then limitErr "cEnt" "SLBLOCK has %d entries, max %d (MS-PST %s)" [blen entries; MaxSLBlockEntries] else
  buf ← subnode_header 0 (blen entries) (zeros (SLBlockHeaderSize + SLEntrySize * blen entries));
  ents ← encode_entries None entries; put_bytes SLBlockHeaderSize ents buf.
Definition EncodeSIBlock (level : Z) (kids : list SIEntry) : result bytes :=
  if negb (level =? SIBlockLevel) then invalidArg "cLevel" "SIBLOCK cLevel must be 0x01 (MS-PST %s)" [] else
  if blen kids =? 0 then invalidArg "cEnt" "SIBLOCK has no entries (MS-PST %s)" [] else
  if MaxSIBlockEntries <? blen kids
  then limitErr "cEnt" "SIBLOCK has %d entries, max %d (MS-PST %s)" [blen kids; MaxSIBlockEntries] else
  buf ← subnode_header level (blen kids) (zeros (SIBlockHeaderSize + SIEntrySize * blen kids));
  ents ← encode_entries None kids; put_bytes SIBlockHeaderSize ents buf.

Definition InspectSubnodeBlock (data : bytes) : result SubnodeView :=
  if blen data <? 4 then invariant "2.2.2.8.3.3" "size" "payload is %d bytes, need header" [blen data] else
  ty ← index data 0; level ← index data 1; count ← rd 2 2 data;
  if negb (ty =? V2BlockTypeSubnode) then invariant "2.2.2.8.3.3" "btype" "got 0x%02x want 0x%02x" [ty; V2BlockTypeSubnode] else
  if count =? 0 then invariant "2.2.2.8.3.3" "cEnt" "subnode block is empty" [] else
  if blen data <? 8 then invariant "2.2.2.8.3.3" "dwPadding" "Unicode subnode header is 8 bytes" [] else
  pad ← rd 4 4 data;
  if negb (pad =? 0) then invariant "2.2.2.8.3.3" "dwPadding" "got 0x%08x want 0" [pad] else
  if level =? 0 then
    if MaxSLBlockEntries <? count then invariant "2.2.2.8.3.3.1" "cEnt" "got %d max %d" [count; MaxSLBlockEntries] else
    let need := SLBlockHeaderSize + SLEntrySize * count in
    if blen data <? need then invariant "2.2.2.8.3.3.1" "size" "payload %d need %d" [blen data; need] else
    es ← inspect_entries data None (Z.to_nat count) SLBlockHeaderSize; mret (mkSubnodeView ty level count es [])
  else
    if negb (level =? SIBlockLevel) then invariant "2.2.2.8.3.3.2" "cLevel" "got %d want 0x01 (MS-PST %s)" [level] else
    if MaxSIBlockEntries <? count then invariant "2.2.2.8.3.3.2" "cEnt" "got %d max %d" [count; MaxSIBlockEntries] else
    let need := SIBlockHeaderSize + SIEntrySize * count in
    if blen data <? need then invariant "2.2.2.8.3.3.2" "size" "payload %d need %d" [blen data; need] else
    es ← inspect_entries data None (Z.to_nat count) SIBlockHeaderSize; mret (mkSubnodeView ty level count [] es).

(** ** What an extended block accepts *)
Definition child_ok (level bid : Z) : Prop :=
  bid ≠ 0 ∧ BIDHasReserved bid = false ∧ BIDIsInternal bid = (level =? XXBlockLevel).
Definition xlevel (level : Z) : Prop := level = XBlockLevel ∨ level = XXBlockLevel.
Definition xblock_ok (level : Z) (bids : list Z) : Prop :=
  xlevel level ∧ 0 < blen bids ≤ MaxXBlockEntries ∧ Forall (child_ok level) bids ∧ NoDup bids.
Definition xblock_data (level total : Z) (bids : list Z) : bytes :=
  internal_data BlockTypeExtended level (blen bids) (le_enc 4 total) (concat (map (enc_ref FormatUnicode) bids)).

Lemma NoDup_middle (bid : Z) (bids seen : list Z) :
  NoDup (bids ++ bid :: seen) ↔ NoDup (bid :: bids ++ seen).
Proof. split; apply NoDup_Permutation_proper; by rewrite Permutation_middle. Qed.

Lemma check_rgbid_spec level bids : xlevel level → ∀ seen i, NoDup seen →
  check_rgbid level seen i bids ≠ Panic ∧
  ((check_rgbid level seen i bids = Ok tt) ↔ Forall (child_ok level) bids ∧ NoDup (bids ++ seen)).
Proof.
  intros Hl. induction bids as [|bid bids IH]; intros seen i Hs; cbn [check_rgbid]; [by repeat split|].
  assert (child_ok level bid ↔ bid ≠ 0 ∧ BIDHasReserved bid = false ∧ BIDIsInternal bid = (level =? XXBlockLevel)) as Hc by done.
  rewrite Forall_cons, Hc. cbn [app]. unfold invalidArg. clear Hc.
  assert ((level =? XBlockLevel) = negb (level =? XXBlockLevel)) as Hx by (by destruct Hl as [-> | ->]).
  specialize (IH (bid :: seen) (i + 1)). rewrite NoDup_middle in IH.
  destruct (Z.eqb_spec bid 0); [naive_solver|]. destruct (BIDHasReserved bid) eqn:Er; [naive_solver|].
  destruct (BIDIsInternal bid) eqn:Ei, (level =? XXBlockLevel) eqn:El; rewrite Hx; cbn [andb negb]; try naive_solver.
  all: destruct (bool_decide_reflect (bid ∈ seen)) as [Hin|Hin].
  1,3: rewrite NoDup_cons, elem_of_app; naive_solver.
  all: destruct IH as [H1 H2]; [by constructor|]; split; [done|]; rewrite H2; naive_solver.
Qed.

Lemma enc_refs (bids : list Z) : concat (map (le_enc 8) bids) = concat (map (enc_ref FormatUnicode) bids).
Proof. f_equal. Qed.
Lemma blen_refs (bids : list Z) : blen (concat (map (le_enc 8) bids)) = 8 * blen bids.
Proof. induction bids as [|b bids IH]; [done|]. cbn [map concat]. rewrite blen_app, blen_le_enc, IH, blen_cons. lia. Qed.

Lemma EncodeXBlock_exact level total bids data :
  (EncodeXBlock level total bids = Ok data) ↔ xblock_ok level bids ∧ data = xblock_data level total bids.
Proof.
  unfold EncodeXBlock, xblock_ok. pose proof (blen_nonneg bids). unfold invalidArg, limitErr.
  destruct (Z.eqb_spec level XBlockLevel) as [E1|E1], (Z.eqb_spec level XXBlockLevel) as [E2|E2]; cbn [negb andb].
  4:{ split; [done|]. intros [[[?|?] _] _]; done. }
  all: destruct (Z.eqb_spec (blen bids) 0); [split; [done|]; intros [(_ & ? & _) _]; lia|].
  all: destruct (Z.ltb_spec MaxXBlockEntries (blen bids)); [split; [done|]; intros [(_ & ? & _) _]; lia|].
  all: assert (xlevel level) as Hl by (unfold xlevel; auto).
  all: destruct (check_rgbid_spec level bids Hl [] 0) as [Hp Hc]; [constructor|]; rewrite app_nil_r in Hc.
  all: destruct (check_rgbid level [] 0 bids) as [[]| |]; [|split; [done|]; intros [(_ & _ & Hf) _]; by apply Hc in Hf|done].
  all: rewrite bind_Ok; change MaxXBlockEntries with 1021 in *; unfold XBlockHeaderSize; rewrite u16_small by lia.
  all: replace (zeros (8 + 8 * blen bids)) with (zeros 1 ++ zeros 1 ++ zeros 2 ++ zeros 4 ++ zeros (8 * blen bids))
    by (unfold zeros; rewrite <- !replicate_add; f_equal; lia).
  all: pose proof (blen_refs bids); set (ents := concat (map (le_enc 8) bids)) in *; buf_write.
  all: repeat first [rewrite splice_head by blia | rewrite splice_skip by blia].
  all: rewrite splice_all by blia; unfold xblock_data, internal_data; rewrite <- enc_refs; fold ents; rewrite <- !app_assoc.
  all: split; [intros [= <-]; split; [|done]; split_and!; try done; try lia; by apply Hc|by intros [_ ->]].
Qed.

(** Reading BIDs off data that holds them. *)
Lemma inspect_rgbid_back data level bids : xlevel level → ∀ seen i,
  Forall (child_ok level) bids → NoDup (bids ++ seen) → Forall (fits 64) bids → 0 ≤ i →
  8 + (i + blen bids) * 8 ≤ blen data → sub data (8 + i * 8) (blen bids * 8) = concat (map (le_enc 8) bids) →
  inspect_rgbid data level seen (length bids) i = Ok bids.
Proof.
  intros Hl. induction bids as [|bid bids IH]; intros seen i Hc Hd Hf Hi Hlen Hsub; [done|].
  rewrite blen_cons in *. pose proof (blen_nonneg bids). cbn [length inspect_rgbid map concat] in *.
  apply Forall_cons in Hc as [(Hz & Hr & Hint) Hc]. apply Forall_cons in Hf as [Hb Hf].
  apply NoDup_cons in Hd as [Hn Hd].
  assert (sub data (8 + i * 8) 8 = le_enc 8 bid) as E1.
  { apply (f_equal (λ l, sub l 0 8)) in Hsub. rewrite sub_sub, Z.add_0_r in Hsub by lia.
    rewrite Hsub, sub_app_l by (rewrite ?blen_le_enc; lia). by apply sub_0_all. }
  assert (sub data (8 + (i + 1) * 8) (blen bids * 8) = concat (map (le_enc 8) bids)) as E2.
  { apply (f_equal (λ l, sub l 8 (blen bids * 8))) in Hsub. rewrite sub_sub in Hsub by lia.
    replace (8 + (i + 1) * 8) with (8 + i * 8 + 8) by lia.
    rewrite Hsub, sub_app_r by (rewrite ?blen_le_enc; lia). rewrite blen_le_enc.
    apply sub_all; [lia|]. rewrite blen_refs. lia. }
  rewrite rd_Ok by lia. change (Z.of_nat 8) with 8. rewrite E1, bind_Ok, le_dec_enc_fits by done.
  rewrite (proj2 (Z.eqb_neq bid 0)) by done. rewrite Hr, Hint. cbn [orb].
  assert ((level =? XBlockLevel) = negb (level =? XXBlockLevel)) as -> by (by destruct Hl as [-> | ->]).
  destruct (level =? XXBlockLevel); cbn [andb negb].
  all: rewrite bool_decide_false by (intros ?; apply Hn, elem_of_app; auto).
  all: rewrite IH; [done|done| |done|lia|lia|done]; apply NoDup_middle, NoDup_cons; auto.
Qed.
Lemma inspect_rgbid_spec data level n : xlevel level → bytes_ok data → ∀ seen i, NoDup seen → 0 ≤ i →
  8 + (i + Z.of_nat n) * 8 ≤ blen data →
  match inspect_rgbid data level seen n i with
  | Ok bids => length bids = n ∧ Forall (child_ok level) bids ∧ NoDup (bids ++ seen) ∧
               concat (map (le_enc 8) bids) = sub data (8 + i * 8) (Z.of_nat n * 8)
  | Err _ => True
  | Panic => False
  end.
Proof.
  intros Hl Hb. induction n as [|n IH]; intros seen i Hs Hi Hlen; cbn [inspect_rgbid]; [by split_and!|].
  rewrite rd_Ok by lia. rewrite bind_Ok. change (Z.of_nat 8) with 8.
  pose proof (bytes_ok_sub data (8 + i * 8) 8 Hb) as Hw. pose proof (blen_sub data (8 + i * 8) 8 ltac:(lia) ltac:(lia) ltac:(lia)) as Hwl.
  pose proof (le_enc_dec _ Hw) as Henc. replace (length (sub data (8 + i * 8) 8)) with 8%nat in Henc by (unfold blen in Hwl; lia).
  set (bid := le_dec (sub data (8 + i * 8) 8)) in *.
  destruct (Z.eqb_spec bid 0); [done|]. destruct (BIDHasReserved bid) eqn:Er; [done|]. cbn [orb].
  assert ((level =? XBlockLevel) = negb (level =? XXBlockLevel)) as -> by (by destruct Hl as [-> | ->]).
  destruct (BIDIsInternal bid) eqn:Ei, (level =? XXBlockLevel) eqn:El; cbn [andb negb]; try done.
  all: destruct (bool_decide_reflect (bid ∈ seen)) as [Hin|Hin]; [done|].
  all: specialize (IH (bid :: seen) (i + 1) ltac:(by constructor) ltac:(lia) ltac:(lia)).
  all: destruct (inspect_rgbid data level (bid :: seen) n (i + 1)) as [bids| |]; [|done..].
  all: destruct IH as (H1 & H2 & H3 & H4); rewrite bind_Ok, mret_Ok; rewrite NoDup_middle in H3.
  all: split_and!; [cbn; lia|constructor; [|done]; unfold child_ok; by rewrite Ei, El|done|].
  all: cbn [map concat]; rewrite Henc, H4; unfold sub; rewrite <- (take_drop (Z.to_nat 8) (take (Z.to_nat (Z.of_nat (S n) * 8)) _)).
  all: rewrite take_take, skipn_firstn_comm, drop_drop; f_equal; [f_equal; lia|f_equal; [lia|f_equal; lia]].
Qed.

(** ** The header of an internal block *)
Definition block_fields (ty level count x : Z) (body : bytes) : bytes :=
  [ty] ++ [level] ++ le_enc 2 count ++ le_enc 4 x ++ body.
Lemma block_fields_split data : bytes_ok data → 8 ≤ blen data →
  ∃ ty level count x body, data = block_fields ty level count x body ∧ fits 8 ty ∧ fits 8 level ∧ fits 16 count ∧ fits 32 x ∧
    bytes_ok body ∧ blen body = blen data - 8.
Proof.
  intros Hb Hl.
  destruct (field_split 1 data Hb) as (ty & r1 & -> & Ht & Hb1 & E1); [lia|].
  destruct (field_split 1 r1 Hb1) as (lv & r2 & -> & Hlv & Hb2 & E2); [lia|].
  destruct (field_split 2 r2 Hb2) as (n & r3 & -> & Hn & Hb3 & E3); [lia|].
  destruct (field_split 4 r3 Hb3) as (x & body & -> & Hx & Hb4 & E4); [lia|].
  exists ty, lv, n, x, body. split; [|split_and!; try done; lia]. unfold block_fields, fits in *. cbn [le_enc app].
  rewrite !Z.mod_small by lia. done.
Qed.
Lemma block_fields_read ty level count x body : fits 16 count → fits 32 x →
  let data := block_fields ty level count x body in
  blen data = 8 + blen body ∧ index data 0 = Ok ty ∧ index data 1 = Ok level ∧ rd 2 2 data = Ok count ∧ rd 4 4 data = Ok x ∧
  (∀ a n, 8 ≤ a → 0 ≤ n → sub data a n = sub body (a - 8) n).
Proof.
  intros Hn Hx data. pose proof (blen_nonneg body).
  assert (blen data = 8 + blen body) as Hl by (subst data; unfold block_fields; blia).
  split_and!; [done|done|done| | |].
  - rewrite rd_Ok by lia. subst data. unfold block_fields. buf_fields. by rewrite le_dec_enc_fits by done.
  - rewrite rd_Ok by lia. subst data. unfold block_fields. buf_fields. by rewrite le_dec_enc_fits by done.
  - intros a n Ha Hn'. subst data. unfold block_fields. rewrite !app_assoc.
    rewrite sub_app_r by blia. by f_equal.
Qed.
Lemma internal_block_fields ty level count x entries :
  internal_data ty level count (le_enc 4 x) entries = block_fields ty level count x entries.
Proof. unfold internal_data, block_fields. by rewrite <- !app_assoc. Qed.

Lemma InspectXBlock_data level total bids rest : xblock_ok level bids → Forall (fits 64) bids → fits 32 total →
  InspectXBlock (xblock_data level total bids ++ rest) = Ok (mkXBlockView BlockTypeXBlock level (blen bids) total bids).
Proof.
  intros (Hl & Hn & Hc & Hd) Hf Ht. unfold xblock_data. rewrite internal_block_fields. unfold block_fields.
  rewrite <- !app_assoc. fold (block_fields BlockTypeExtended level (blen bids) total (concat (map (enc_ref FormatUnicode) bids) ++ rest)).
  rewrite <- enc_refs. pose proof (blen_refs bids) as Hr. pose proof (blen_nonneg rest). change MaxXBlockEntries with 1021 in Hn.
  destruct (block_fields_read BlockTypeExtended level (blen bids) total (concat (map (le_enc 8) bids) ++ rest))
    as (E0 & E1 & E2 & E3 & E4 & E5); [unfold fits; lia|done|].
  rewrite blen_app in E0. unfold InspectXBlock. change XBlockHeaderSize with 8. rewrite E0, (proj2 (Z.ltb_ge _ 8)) by lia.
  rewrite E1, E2, E3, E4, !bind_Ok. change MaxXBlockEntries with 1021. cbn [negb BlockTypeExtended Z.eqb Pos.eqb BlockTypeXBlock].
  assert ((negb (level =? XBlockLevel) && negb (level =? XXBlockLevel)) = false) as -> by (by destruct Hl as [-> | ->]).
  rewrite (proj2 (Z.eqb_neq (blen bids) 0)), (proj2 (Z.ltb_ge 1021 _)) by lia. cbn [orb].
  rewrite (proj2 (Z.ltb_ge _ (8 + 8 * _))) by lia. replace (Z.to_nat (blen bids)) with (length bids) by (unfold blen; lia).
  rewrite inspect_rgbid_back; try done; [by rewrite app_nil_r|rewrite E0; lia|].
  rewrite E5 by lia. buf_fields. done.
Qed.

Lemma InspectXBlock_spec data : bytes_ok data →
  match InspectXBlock data with
  | Ok v => XV_Type v = BlockTypeXBlock ∧ XV_Count v = blen (XV_BIDs v) ∧ xblock_ok (XV_Level v) (XV_BIDs v) ∧
            ∃ rest, data = xblock_data (XV_Level v) (XV_Total v) (XV_BIDs v) ++ rest
  | Err _ => True
  | Panic => False
  end.
Proof.
  intros Hb. unfold InspectXBlock. change XBlockHeaderSize with 8. destruct (Z.ltb_spec (blen data) 8) as [|Hl]; [done|].
  destruct (block_fields_split data Hb Hl) as (ty & level & n & x & body & -> & Ht & Hlv & Hn & Hx & Hbo & Hbl).
  destruct (block_fields_read ty level n x body Hn Hx) as (E0 & E1 & E2 & E3 & E4 & E5).
  set (data := block_fields ty level n x body) in *. rewrite E1, E2, E3, E4, !bind_Ok.
  destruct (Z.eqb_spec ty BlockTypeXBlock) as [->|]; [|done]. cbn [negb].
  destruct (negb (level =? XBlockLevel) && negb (level =? XXBlockLevel)) eqn:El; [done|].
  assert (xlevel level) as Hxl by (unfold xlevel; lia).
  destruct (Z.eqb_spec n 0); [done|]. destruct (Z.ltb_spec MaxXBlockEntries n); [done|]. cbn [orb].
  destruct (Z.ltb_spec (blen data) (8 + 8 * n)); [done|]. unfold fits in Hn.
  pose proof (inspect_rgbid_spec data level (Z.to_nat n) Hxl Hb [] 0 ltac:(constructor) ltac:(lia) ltac:(lia)) as Hi.
  destruct (inspect_rgbid data level [] (Z.to_nat n) 0) as [bids| |]; [|done..]. destruct Hi as (H1 & H2 & H3 & H4).
  rewrite bind_Ok, mret_Ok. cbn [XV_Type XV_Count XV_Level XV_BIDs XV_Total]. rewrite app_nil_r in H3.
  assert (blen bids = n) as Hn' by (unfold blen; lia).
  split_and!; [done|done|split_and!; (done || lia)|]. unfold xblock_data. rewrite internal_block_fields, <- enc_refs, H4, Hn'.
  exists (drop (Z.to_nat (n * 8)) body). unfold block_fields. rewrite <- !app_assoc. subst data. unfold block_fields.
  do 4 f_equal. rewrite E5 by lia. unfold sub. cbn [Z.sub Z.mul Z.add]. rewrite <- (take_drop (Z.to_nat (n * 8)) body) at 1.
  f_equal. change (8 + 0 * 8 - 8) with 0. rewrite drop_0. f_equal. lia.
Qed.

(** Extended blocks: the inspector reads back exactly what was encoded,
    whatever bytes follow it, and so does the parser of [pkg/disk]; what the
    inspector accepts starts with the encoding of what it reports; it never
    faults. *)
Theorem xblock_exact data : bytes_ok data →
  InspectXBlock data ≠ Panic ∧
  (∀ v, InspectXBlock data = Ok v → XV_Count v = blen (XV_BIDs v) ∧
     ∃ d rest, data = d ++ rest ∧ EncodeXBlock (XV_Level v) (XV_Total v) (XV_BIDs v) = Ok d) ∧
  (∀ level total bids d rest, fits 32 total → Forall (fits 64) bids → EncodeXBlock level total bids = Ok d → data = d ++ rest →
     InspectXBlock data = Ok (mkXBlockView BlockTypeXBlock level (blen bids) total bids) ∧
     ParseExtendedBlock d rest FormatUnicode = Ok (mkExtended BlockTypeXBlock level (blen bids) total bids)).
Proof.
  intros Hb. pose proof (InspectXBlock_spec data Hb) as Hs. split_and!.
  - intros E. by rewrite E in Hs.
  - intros v Hv. rewrite Hv in Hs. destruct Hs as (_ & Hc & Hok & rest & E). split; [done|].
    exists (xblock_data (XV_Level v) (XV_Total v) (XV_BIDs v)), rest. split; [done|]. by apply EncodeXBlock_exact.
  - intros level total bids d rest Ht Hf (Hok & ->)%EncodeXBlock_exact ->. split; [by apply InspectXBlock_data|].
    destruct Hok as (_ & Hn & _). change MaxXBlockEntries with 1021 in Hn.
    apply ParseExtendedBlock_internal; [done|done|lia|done].
Qed.
Lemma xblock_exact_witness :
  let data := xblock_data 1 16352 [4; 8] ++ [0; 0] in
  InspectXBlock data ≠ Panic ∧
  (∀ v, InspectXBlock data = Ok v → XV_Count v = blen (XV_BIDs v) ∧
     ∃ d rest, data = d ++ rest ∧ EncodeXBlock (XV_Level v) (XV_Total v) (XV_BIDs v) = Ok d) ∧
  (∀ level total bids d rest, fits 32 total → Forall (fits 64) bids → EncodeXBlock level total bids = Ok d → data = d ++ rest →
     InspectXBlock data = Ok (mkXBlockView BlockTypeXBlock level (blen bids) total bids) ∧
     ParseExtendedBlock d rest FormatUnicode = Ok (mkExtended BlockTypeXBlock level (blen bids) total bids)).
Proof. intros data. apply xblock_exact. apply bytes_okb_true. by vm_compute. Defined.

(** ** Subnode blocks *)
Definition subnode_data `{KeyedEntry A} (level : Z) (es : list A) : bytes :=
  block_fields V2BlockTypeSubnode level (blen es) 0 (concat (map ke_enc es)).
Definition entries_ok `{KeyedEntry A} (max : Z) (es : list A) : Prop :=
  0 < blen es ≤ max ∧ Forall valid es ∧ keys_from None es.

Lemma encode_subnode `{KeyedEntry A} level (es : list A) ents : blen es < 65536 → blen ents = blen es * ke_size →
  (buf ← subnode_header level (blen es) (zeros (8 + ke_size * blen es)); put_bytes 8 ents buf)
  = Ok (block_fields V2BlockTypeSubnode level (blen es) 0 ents).
Proof.
  intros Hn He. pose proof (blen_nonneg es). pose proof ke_size_pos. assert (0 ≤ ke_size * blen es) by nia. unfold subnode_header. rewrite u16_small by lia.
  replace (zeros (8 + ke_size * blen es)) with (zeros 1 ++ zeros 1 ++ zeros 2 ++ zeros 4 ++ zeros (ke_size * blen es))
    by (unfold zeros; rewrite <- !replicate_add; f_equal; lia).
  buf_write. repeat first [rewrite splice_head by blia | rewrite splice_skip by blia].
  rewrite splice_all by blia. done.
Qed.

Lemma EncodeSLBlock_exact es data :
  (EncodeSLBlock es = Ok data) ↔ entries_ok MaxSLBlockEntries es ∧ data = subnode_data 0 es.
Proof.
  unfold EncodeSLBlock, entries_ok, invalidArg, limitErr. pose proof (blen_nonneg es). pose proof (blen_entries es) as Hb.
  destruct (Z.eqb_spec (blen es) 0); [split; [done|]; intros [(? & _) _]; lia|].
  destruct (Z.ltb_spec MaxSLBlockEntries (blen es)); [split; [done|]; intros [(? & _) _]; lia|].
  change MaxSLBlockEntries with 340 in *. unfold SLBlockHeaderSize, SLEntrySize. split.
  - intros (buf & Hbuf & (ents & He & Hp)%bind_Ok_inv)%bind_Ok_inv. apply encode_entries_inv in He as (Hv & Hk & ->).
    split; [split_and!; (done || lia)|].
    pose proof (encode_subnode 0 es _ ltac:(lia) Hb) as E. change (ke_size (A:=SLEntry)) with 24 in E.
    rewrite Hbuf, bind_Ok, Hp in E. by injection E.
  - intros [(_ & Hv & Hk) ->]. rewrite encode_entries_Ok by done.
    exact (encode_subnode 0 es _ ltac:(lia) Hb).
Qed.
Lemma EncodeSIBlock_exact level es data :
  (EncodeSIBlock level es = Ok data) ↔ level = SIBlockLevel ∧ entries_ok MaxSIBlockEntries es ∧ data = subnode_data level es.
Proof.
  unfold EncodeSIBlock, entries_ok, invalidArg, limitErr. pose proof (blen_nonneg es). pose proof (blen_entries es) as Hb.
  destruct (Z.eqb_spec level SIBlockLevel) as [->|]; cbn [negb]; [|split; [done|]; intros (? & _); done].
  destruct (Z.eqb_spec (blen es) 0); [split; [done|]; intros (_ & (? & _) & _); lia|].
  destruct (Z.ltb_spec MaxSIBlockEntries (blen es)); [split; [done|]; intros (_ & (? & _) & _); lia|].
  change MaxSIBlockEntries with 510 in *. unfold SIBlockHeaderSize, SIEntrySize. split.
  - intros (buf & Hbuf & (ents & He & Hp)%bind_Ok_inv)%bind_Ok_inv. apply encode_entries_inv in He as (Hv & Hk & ->).
    split_and!; [done|lia|lia|done|done|].
    pose proof (encode_subnode SIBlockLevel es _ ltac:(lia) Hb) as E. change (ke_size (A:=SIEntry)) with 16 in E.
    rewrite Hbuf, bind_Ok, Hp in E. by injection E.
  - intros (_ & (_ & Hv & Hk) & ->). rewrite encode_entries_Ok by done.
    exact (encode_subnode SIBlockLevel es _ ltac:(lia) Hb).
Qed.

Lemma subnode_entries_read `{KeyedEntry A} level (es : list A) rest :
  Forall ke_wf es → Forall valid es → keys_from None es →
  inspect_entries (block_fields V2BlockTypeSubnode level (blen es) 0 (concat (map ke_enc es) ++ rest)) None (length es) 8 = Ok es.
Proof.
  intros Hw Hv Hk. pose proof (blen_nonneg es). pose proof (blen_nonneg rest). pose proof (blen_entries es) as He. pose proof ke_size_pos.
  assert (0 ≤ blen es * ke_size) by nia. set (ents := concat (map ke_enc es)) in *.
  assert (∀ a n, 8 ≤ a → 0 ≤ n → sub (block_fields V2BlockTypeSubnode level (blen es) 0 (ents ++ rest)) a n = sub (ents ++ rest) (a - 8) n) as Hsub.
  { intros a n Ha Hn. unfold block_fields. rewrite !app_assoc. rewrite <- (app_assoc _ ents rest).
    rewrite sub_app_r by blia. by f_equal. }
  apply inspect_entries_back; [by apply Forall_and|done|lia| |].
  - unfold block_fields. autorewrite with blen. lia.
  - rewrite Hsub by lia. buf_fields. done.
Qed.

Lemma InspectSubnode_SL es rest : Forall ke_wf es → entries_ok MaxSLBlockEntries es →
  InspectSubnodeBlock (subnode_data 0 es ++ rest) = Ok (mkSubnodeView V2BlockTypeSubnode 0 (blen es) es []).
Proof.
  intros Hw (Hn & Hv & Hk). unfold subnode_data, block_fields. rewrite <- !app_assoc. pose proof (blen_nonneg rest). pose proof (blen_entries es) as He.
  change (ke_size (A:=SLEntry)) with 24 in He. change MaxSLBlockEntries with 340 in Hn.
  fold (block_fields V2BlockTypeSubnode 0 (blen es) 0 (concat (map ke_enc es) ++ rest)).
  destruct (block_fields_read V2BlockTypeSubnode 0 (blen es) 0 (concat (map ke_enc es) ++ rest)) as (E0 & E1 & E2 & E3 & E4 & _);
    [unfold fits; lia|done|]. rewrite blen_app in E0. unfold InspectSubnodeBlock. rewrite E0.
  rewrite (proj2 (Z.ltb_ge _ 4)), (proj2 (Z.ltb_ge _ 8)) by lia. rewrite E1, E2, E3, E4, !bind_Ok.
  rewrite (proj2 (Z.eqb_neq (blen es) 0)) by lia. change (V2BlockTypeSubnode =? V2BlockTypeSubnode) with true. change (0 =? 0) with true. cbn [negb].
  change MaxSLBlockEntries with 340. unfold SLBlockHeaderSize, SLEntrySize. rewrite !(proj2 (Z.ltb_ge _ _)) by lia.
  replace (Z.to_nat (blen es)) with (length es) by (unfold blen; lia). by rewrite subnode_entries_read.
Qed.
Lemma InspectSubnode_SI es rest : Forall ke_wf es → entries_ok MaxSIBlockEntries es →
  InspectSubnodeBlock (subnode_data SIBlockLevel es ++ rest) = Ok (mkSubnodeView V2BlockTypeSubnode SIBlockLevel (blen es) [] es).
Proof.
  intros Hw (Hn & Hv & Hk). unfold subnode_data, block_fields. rewrite <- !app_assoc. pose proof (blen_nonneg rest). pose proof (blen_entries es) as He.
  change (ke_size (A:=SIEntry)) with 16 in He. change MaxSIBlockEntries with 510 in Hn.
  fold (block_fields V2BlockTypeSubnode SIBlockLevel (blen es) 0 (concat (map ke_enc es) ++ rest)).
  destruct (block_fields_read V2BlockTypeSubnode SIBlockLevel (blen es) 0 (concat (map ke_enc es) ++ rest)) as (E0 & E1 & E2 & E3 & E4 & _);
    [unfold fits; lia|done|]. rewrite blen_app in E0. unfold InspectSubnodeBlock. rewrite E0.
  rewrite (proj2 (Z.ltb_ge _ 4)), (proj2 (Z.ltb_ge _ 8)) by lia. rewrite E1, E2, E3, E4, !bind_Ok.
  rewrite (proj2 (Z.eqb_neq (blen es) 0)) by lia. change (V2BlockTypeSubnode =? V2BlockTypeSubnode) with true.
  change (SIBlockLevel =? 0) with false. change (SIBlockLevel =? SIBlockLevel) with true. change (0 =? 0) with true. cbn [negb].
  change MaxSIBlockEntries with 510. unfold SIBlockHeaderSize, SIEntrySize. rewrite !(proj2 (Z.ltb_ge _ _)) by lia.
  replace (Z.to_nat (blen es)) with (length es) by (unfold blen; lia). by rewrite subnode_entries_read.
Qed.

Lemma InspectSubnodeBlock_spec data : bytes_ok data →
  match InspectSubnodeBlock data with
  | Ok v => SV_Type v = V2BlockTypeSubnode ∧
      ((SV_Level v = 0 ∧ Forall ke_wf (SV_Leaves v) ∧ entries_ok MaxSLBlockEntries (SV_Leaves v) ∧ SV_Count v = blen (SV_Leaves v) ∧ SV_Kids v = []) ∨
       (SV_Level v = SIBlockLevel ∧ Forall ke_wf (SV_Kids v) ∧ entries_ok MaxSIBlockEntries (SV_Kids v) ∧ SV_Count v = blen (SV_Kids v) ∧ SV_Leaves v = []))
  | Err _ => True
  | Panic => False
  end.
Proof.
  intros Hb. unfold InspectSubnodeBlock. destruct (Z.ltb_spec (blen data) 4) as [|Hl4]; [done|].
  rewrite !index_total by lia. rewrite !bind_Ok. rewrite (rd_Ok 2 2 data) by lia. rewrite bind_Ok. change (Z.of_nat 2) with 2.
  destruct (Z.eqb_spec (le_dec (sub data 0 1)) V2BlockTypeSubnode) as [->|]; [|done]. cbn [negb].
  pose proof (le_dec_sub_fits data 2 2 16 Hb ltac:(done) ltac:(lia) ltac:(lia) ltac:(lia)) as Hn. unfold fits in Hn.
  set (n := le_dec (sub data 2 2)) in *. set (level := le_dec (sub data 1 1)).
  destruct (Z.eqb_spec n 0); [done|]. destruct (Z.ltb_spec (blen data) 8) as [|Hl8]; [done|].
  rewrite (rd_Ok 4 4 data) by lia. rewrite bind_Ok. destruct (le_dec (sub data 4 _) =? 0); [|done]. cbn [negb].
  destruct (Z.eqb_spec level 0) as [El|El].
  - destruct (Z.ltb_spec MaxSLBlockEntries n); [done|]. unfold SLBlockHeaderSize, SLEntrySize.
    destruct (Z.ltb_spec (blen data) (8 + 24 * n)); [done|].
    assert (8 + Z.of_nat (Z.to_nat n) * ke_size (A:=SLEntry) ≤ blen data) as Hin by (change (ke_size (A:=SLEntry)) with 24; lia).
    pose proof (inspect_entries_spec (A:=SLEntry) data (Z.to_nat n) None 8 Hb ltac:(lia) Hin) as Hi.
    destruct (inspect_entries (A:=SLEntry) data None (Z.to_nat n) 8) as [es| |]; [|done..]. destruct Hi as (Hlen & Hw & Hk).
    rewrite bind_Ok, mret_Ok. cbn [SV_Type SV_Level SV_Leaves SV_Kids SV_Count]. split; [done|left].
    apply Forall_and in Hw as [Hw Hv]. assert (blen es = n) as En by (unfold blen; lia).
    split_and!; try done; unfold entries_ok; split_and!; (done || lia).
  - destruct (Z.eqb_spec level SIBlockLevel) as [->|]; [|done]. cbn [negb].
    destruct (Z.ltb_spec MaxSIBlockEntries n); [done|]. unfold SIBlockHeaderSize, SIEntrySize.
    destruct (Z.ltb_spec (blen data) (8 + 16 * n)); [done|].
    assert (8 + Z.of_nat (Z.to_nat n) * ke_size (A:=SIEntry) ≤ blen data) as Hin by (change (ke_size (A:=SIEntry)) with 16; lia).
    pose proof (inspect_entries_spec (A:=SIEntry) data (Z.to_nat n) None 8 Hb ltac:(lia) Hin) as Hi.
    destruct (inspect_entries (A:=SIEntry) data None (Z.to_nat n) 8) as [es| |]; [|done..]. destruct Hi as (Hlen & Hw & Hk).
    rewrite bind_Ok, mret_Ok. cbn [SV_Type SV_Level SV_Leaves SV_Kids SV_Count]. split; [done|right].
    apply Forall_and in Hw as [Hw Hv]. assert (blen es = n) as En by (unfold blen; lia).
    split_and!; try done; unfold entries_ok; split_and!; (done || lia).
Qed.

Definition sub_leaf (e : SLEntry) : SubnodeLeafEntry := mkSubLeaf (SL_NID e) (SL_DataBID e) (SL_SubBID e).
Definition sub_nonleaf (e : SIEntry) : SubnodeNonleafEntry := mkSubNonleaf (SI_Key e) (SI_Ref e).
Lemma pkg_sub_leaf es rest : Forall ke_wf es → blen es ≤ MaxSLBlockEntries →
  ParseSubnodeBlock (subnode_data 0 es) rest FormatUnicode = Ok (mkSubnode V2BlockTypeSubnode 0 (blen es) (map sub_leaf es) []).
Proof.
  intros Hw Hl. change MaxSLBlockEntries with 340 in Hl.
  pose proof (ParseSubnodeBlock_leaf (map sub_leaf es) FormatUnicode rest ltac:(done)) as HP.
  rewrite blen_map in HP. etrans; [|apply HP; [lia|apply Forall_map; eapply Forall_impl; [exact Hw|by intros e (? & ? & ?)]]].
  unfold subnode_data. rewrite <- internal_block_fields. rewrite map_map. done.
Qed.
Lemma pkg_sub_nonleaf es rest : Forall ke_wf es → blen es ≤ MaxSIBlockEntries →
  ParseSubnodeBlock (subnode_data SIBlockLevel es) rest FormatUnicode
  = Ok (mkSubnode V2BlockTypeSubnode SIBlockLevel (blen es) [] (map sub_nonleaf es)).
Proof.
  intros Hw Hl. change MaxSIBlockEntries with 510 in Hl.
  pose proof (ParseSubnodeBlock_nonleaf SIBlockLevel (map sub_nonleaf es) FormatUnicode rest ltac:(done)) as HP.
  rewrite blen_map in HP. etrans; [|apply HP; [done|lia|apply Forall_map; eapply Forall_impl; [exact Hw|by intros e (? & ?)]]].
  unfold subnode_data. rewrite <- internal_block_fields. rewrite map_map. done.
Qed.

(** Subnode blocks: the inspector reads back exactly the leaf or index entries
    encoded, whatever bytes follow, and so does the parser of [pkg/disk]; what
    it accepts can be encoded again; it never faults. *)
Theorem subnode_block_exact data : bytes_ok data →
  InspectSubnodeBlock data ≠ Panic ∧
  (∀ v, InspectSubnodeBlock data = Ok v →
     (SV_Level v = 0 ∧ ∃ d, EncodeSLBlock (SV_Leaves v) = Ok d) ∨
     (SV_Level v = SIBlockLevel ∧ ∃ d, EncodeSIBlock (SV_Level v) (SV_Kids v) = Ok d)) ∧
  (∀ es d rest, Forall ke_wf es → EncodeSLBlock es = Ok d → data = d ++ rest →
     InspectSubnodeBlock data = Ok (mkSubnodeView V2BlockTypeSubnode 0 (blen es) es []) ∧
     ParseSubnodeBlock d rest FormatUnicode = Ok (mkSubnode V2BlockTypeSubnode 0 (blen es) (map sub_leaf es) [])) ∧
  (∀ level es d rest, Forall ke_wf es → EncodeSIBlock level es = Ok d → data = d ++ rest →
     InspectSubnodeBlock data = Ok (mkSubnodeView V2BlockTypeSubnode level (blen es) [] es) ∧
     ParseSubnodeBlock d rest FormatUnicode = Ok (mkSubnode V2BlockTypeSubnode level (blen es) [] (map sub_nonleaf es))).
Proof.
  intros Hb. pose proof (InspectSubnodeBlock_spec data Hb) as Hs. split_and!.
  - intros E. by rewrite E in Hs.
  - intros v Hv. rewrite Hv in Hs. destruct Hs as (_ & [(E & _ & Hok & _)|(E & _ & Hok & _)]); [left|right]; (split; [done|]).
    + eexists. by apply EncodeSLBlock_exact.
    + eexists. by apply EncodeSIBlock_exact.
  - intros es d rest Hw (Hok & ->)%EncodeSLBlock_exact ->. split; [by apply InspectSubnode_SL|].
    apply pkg_sub_leaf; [done|]. by destruct Hok as [[_ ?] _].
  - intros level es d rest Hw (-> & Hok & ->)%EncodeSIBlock_exact ->. split; [by apply InspectSubnode_SI|].
    apply pkg_sub_nonleaf; [done|]. by destruct Hok as [[_ ?] _].
Qed.
Lemma subnode_block_exact_witness :
  let data := subnode_data 0 [mkSLEntry 0x671 4 0; mkSLEntry 0x692 8 6] in
  InspectSubnodeBlock data ≠ Panic ∧
  (∀ v, InspectSubnodeBlock data = Ok v →
     (SV_Level v = 0 ∧ ∃ d, EncodeSLBlock (SV_Leaves v) = Ok d) ∨
     (SV_Level v = SIBlockLevel ∧ ∃ d, EncodeSIBlock (SV_Level v) (SV_Kids v) = Ok d)) ∧
  (∀ es d rest, Forall ke_wf es → EncodeSLBlock es = Ok d → data = d ++ rest →
     InspectSubnodeBlock data = Ok (mkSubnodeView V2BlockTypeSubnode 0 (blen es) es []) ∧
     ParseSubnodeBlock d rest FormatUnicode = Ok (mkSubnode V2BlockTypeSubnode 0 (blen es) (map sub_leaf es) [])) ∧
  (∀ level es d rest, Forall ke_wf es → EncodeSIBlock level es = Ok d → data = d ++ rest →
     InspectSubnodeBlock data = Ok (mkSubnodeView V2BlockTypeSubnode level (blen es) [] es) ∧
     ParseSubnodeBlock d rest FormatUnicode = Ok (mkSubnode V2BlockTypeSubnode level (blen es) [] (map sub_nonleaf es))).
Proof. intros data. apply subnode_block_exact. apply bytes_okb_true. by vm_compute. Defined.
