(* ===== verification/V2Header.v ===== *)
(** * Writer v2: the Unicode header ([src/writer/v2/inspect_header.go])

    The header and the ROOT structure: their drafts, encoders and inspectors,
    and the same bytes read by [pkg/disk].  A committed file must say
    VALID_AMAP2, so a header written while the body is in flux is rejected. *)
From S2P Require Import Prelude Format Ids Crypt Fields Page Header V2Base V2Disk.

Definition UnicodeHeaderSize : Z := 564.
Definition UnicodeRootSize : Z := 72.
Definition V2PSTMagic : Z := 0x4E444221.
Definition V2ClientMagicPST : Z := 0x4D53.
Definition V2ClientMagicOST : Z := 0x4F53.
Definition UnicodeWVer : Z := 23.
Definition UnicodeWVerWIP : Z := 37.
Definition ClientVerPST : Z := 19.
Definition AMapInvalid : Z := 0.
Definition AMapValid1 : Z := 1.
Definition AMapValid2 : Z := 2.
Definition V2Sentinel : Z := 0x80.
Definition PlatformWin32 : Z := 1.
Definition HeaderPartialCRCLen : Z := 471.
Definition HeaderFullCRCLen : Z := 516.
Definition NIDIndexDefault : Z := 0x400.
Definition NIDIndexSearchFolder : Z := 0x4000.
Definition NIDIndexNormalMessage : Z := 0x10000.
Definition NIDIndexAssocMessage : Z := 0x8000.
Definition NIDTypeAssocMessage : Z := 0x08.

Record RootDraft := mkRootDraft {
  RD_FileEOF : Z; RD_AMapLast : Z; RD_AMapFree : Z; RD_PMapFree : Z;
  RD_NBTBID : Z; RD_NBTIB : Z; RD_BBTBID : Z; RD_BBTIB : Z; RD_AMapValid : Z }.
Record HeaderDraft := mkHeaderDraft {
  HD_MagicClient : Z; HD_WVer : Z; HD_WVerClient : Z; HD_BidNextP : Z; HD_Unique : Z;
  HD_NIDs : list Z; HD_Root : RootDraft; HD_Crypt : Z; HD_BidNextB : Z }.
Record RootView := mkRootView {
  RV_Reserved : Z; RV_FileEOF : Z; RV_AMapLast : Z; RV_AMapFree : Z; RV_PMapFree : Z;
  RV_NBTBID : Z; RV_NBTIB : Z; RV_BBTBID : Z; RV_BBTIB : Z; RV_AMapValid : Z;
  RV_ARVec : Z; RV_CARVec : Z; RV_Raw : bytes }.
Record HeaderView := mkHeaderView {
  HV_Magic : Z; HV_CRCPartial : Z; HV_MagicClient : Z; HV_WVer : Z; HV_WVerClient : Z;
  HV_PlatformCreate : Z; HV_PlatformAccess : Z; HV_Reserved1 : Z; HV_Reserved2 : Z;
  HV_BidNextP : Z; HV_Unique : Z; HV_NIDs : list Z; HV_Root : RootView;
  HV_Sentinel : Z; HV_Crypt : Z; HV_BidNextB : Z; HV_CRCFull : Z; HV_Raw : bytes }.

(** The table of next node indexes of a blank file: 32 entries. *)
Definition DefaultRgNID : list Z :=
  let nids := replicate 32 NIDIndexDefault in
  let nids := <[Z.to_nat NIDTypeSearchFolder := NIDIndexSearchFolder]> nids in
  let nids := <[Z.to_nat NIDTypeNormalMessage := NIDIndexNormalMessage]> nids in
  <[Z.to_nat NIDTypeAssocMessage := NIDIndexAssocMessage]> nids.
Definition DefaultHeaderDraft : HeaderDraft :=
  mkHeaderDraft V2ClientMagicPST UnicodeWVer ClientVerPST FirstAllocBID 1 DefaultRgNID
    (mkRootDraft (FirstAMapPageOffset + PageSize) FirstAMapPageOffset 0 0 0 0 0 0 AMapValid2)
    CryptNone FirstAllocBID.

(** ** Encoding *)
Definition or_default (v d : Z) : Z := if v =? 0 then d else v.
Definition check_draft_amap (v : Z) : result unit :=
  if (v =? AMapValid2) || (v =? AMapInvalid) then mret tt
  else if v =? AMapValid1 then invalidArg "fAMapValid" "VALID_AMAP1 (0x01) is deprecated (MS-PST %s)" []
  else invalidArg "fAMapValid" "unknown 0x%02x (MS-PST %s)" [v].
Definition validateHeaderDraft (d : HeaderDraft) : result unit :=
  let client := or_default (HD_MagicClient d) V2ClientMagicPST in
  if client =? V2ClientMagicOST then unsupported "ost" "wMagicClient SO" else
  if negb (client =? V2ClientMagicPST)
  then invalidArg "wMagicClient" "got 0x%04x want 0x%04x (MS-PST %s)" [client; V2ClientMagicPST] else
  let wver := or_default (HD_WVer d) UnicodeWVer in
  if (14 <=? wver) && (wver <=? 15) then unsupported "ansi-pst" "wVer=%d (MS-PST %s: do not create new ANSI PST files)" else
  if wver =? UnicodeWVerWIP then unsupported "wip-crypt" "wVer=%d (MS-PST %s)" else
  if negb (wver =? UnicodeWVer)
  then invalidArg "wVer" "got %d, this writer emits wVer=%d so output round-trips through disk.ReadHeader (MS-PST %s)" [wver; UnicodeWVer] else
  let verClient := or_default (HD_WVerClient d) ClientVerPST in
  if negb (verClient =? ClientVerPST) then invalidArg "wVerClient" "got %d want %d (MS-PST %s)" [verClient; ClientVerPST] else
  if knownCrypt (HD_Crypt d) then check_draft_amap (RD_AMapValid (HD_Root d))
  else if HD_Crypt d =? CryptWIP then unsupported "wip-crypt" "bCryptMethod 0x10"
  else invalidArg "bCryptMethod" "unknown 0x%02x (MS-PST %s)" [HD_Crypt d].

Definition EncodeUnicodeRoot (r : RootDraft) : result bytes :=
  _ ← check_draft_amap (RD_AMapValid r);
  puts [(8%nat, 4, RD_FileEOF r); (8%nat, 12, RD_AMapLast r); (8%nat, 20, RD_AMapFree r); (8%nat, 28, RD_PMapFree r);
        (8%nat, 36, RD_NBTBID r); (8%nat, 44, RD_NBTIB r); (8%nat, 52, RD_BBTBID r); (8%nat, 60, RD_BBTIB r);
        (1%nat, 68, RD_AMapValid r)] (zeros UnicodeRootSize).

Definition writeHeaderCRC (buf : bytes) : result bytes :=
  pre ← slice buf 8 (8 + HeaderFullCRCLen);
  buf ← put 4 524 (crc32PST pre) buf;
  pre ← slice buf 8 (8 + HeaderPartialCRCLen);
  put 4 4 (crc32PST pre) buf.
Definition EncodeUnicodeHeader (d : HeaderDraft) : result bytes :=
  _ ← validateHeaderDraft d;
  root ← EncodeUnicodeRoot (HD_Root d);
  buf ← puts [(4%nat, 0, V2PSTMagic); (2%nat, 8, or_default (HD_MagicClient d) V2ClientMagicPST);
              (2%nat, 10, or_default (HD_WVer d) UnicodeWVer); (2%nat, 12, or_default (HD_WVerClient d) ClientVerPST);
              (1%nat, 14, PlatformWin32); (1%nat, 15, PlatformWin32); (8%nat, 32, HD_BidNextP d); (4%nat, 40, HD_Unique d)]
           (zeros UnicodeHeaderSize);
  buf ← put_bytes 44 (concat (map (le_enc 4) (HD_NIDs d))) buf;
  buf ← put_bytes 180 root buf;
  buf ← put_bytes 256 (replicate 256 0xFF) buf;
  buf ← put8 512 V2Sentinel buf; buf ← put8 513 (HD_Crypt d) buf;
  buf ← put 8 516 (HD_BidNextB d) buf;
  writeHeaderCRC buf.

(** ** Inspecting *)
Definition InspectRoot (raw : bytes) : result RootView :=
  if blen raw <? UnicodeRootSize then invariant "2.2.2.5" "size" "ROOT is %d bytes, need %d" [blen raw; UnicodeRootSize] else
  b ← slice raw 0 UnicodeRootSize;
  reserved ← rd 4 0 b;
  if negb (reserved =? 0) then invariant "2.2.2.5" "dwReserved" "got 0x%08x want 0 (MS-PST %s)" [reserved] else
  arvec ← index b 69;
  if negb (arvec =? 0) then invariant "2.2.2.5" "bReserved" "got 0x%02x want 0 (MS-PST %s)" [arvec] else
  car ← rd 2 70 b;
  if negb (car =? 0) then invariant "2.2.2.5" "wReserved" "got 0x%04x want 0 (MS-PST %s)" [car] else
  amap ← index b 68;
  if (amap =? AMapValid2) || (amap =? AMapInvalid) then
    eof ← rd 8 4 b; last ← rd 8 12 b; free ← rd 8 20 b; pfree ← rd 8 28 b;
    nbid ← rd 8 36 b; nib ← rd 8 44 b; bbid ← rd 8 52 b; bib ← rd 8 60 b;
    mret (mkRootView reserved eof last free pfree nbid nib bbid bib amap arvec car b)
  else if amap =? AMapValid1 then invariant "2.2.2.5" "fAMapValid" "VALID_AMAP1 (0x01) is deprecated (MS-PST %s)" []
  else invariant "2.2.2.5" "fAMapValid" "unknown 0x%02x" [amap].

(** The first byte from [i] on that is not 0xFF, among the next [n]. *)
Fixpoint first_not_ff (b : bytes) (i : Z) (n : nat) : result (option (Z * Z)) :=
  match n with
  | O => mret None
  | S n => x ← index b i; if negb (x =? 0xFF) then mret (Some (i, x)) else first_not_ff b (i + 1) n
  end.
Fixpoint read_nids (b : bytes) (off : Z) (n : nat) : result (list Z) :=
  match n with
  | O => mret []
  | S n => v ← rd 4 off b; vs ← read_nids b (off + 4) n; mret (v :: vs)
  end.
Definition InspectHeader (raw : bytes) : result HeaderView :=
  if blen raw <? UnicodeHeaderSize
  then invariant "2.2.2.6" "size" "header is %d bytes, need %d" [blen raw; UnicodeHeaderSize] else
  b ← slice raw 0 UnicodeHeaderSize;
  magic ← rd 4 0 b;
  if negb (magic =? V2PSTMagic) then invariant "2.2.2.6" "dwMagic" "got 0x%08x want 0x%08x" [magic; V2PSTMagic] else
  wver ← rd 2 10 b;
  if (14 <=? wver) && (wver <=? 15) then unsupported "ansi-pst" "wVer=%d (MS-PST %s: do not create new ANSI PST files)" else
  if wver =? UnicodeWVerWIP then unsupported "wip-crypt" "wVer=%d (MS-PST %s)" else
  if negb (wver =? UnicodeWVer)
  then invariant "2.2.2.6" "wVer" "got %d want %d (writer contract; existing reader max is %d)" [wver; UnicodeWVer; 23] else
  verClient ← rd 2 12 b;
  if negb (verClient =? ClientVerPST) then invariant "2.2.2.6" "wVerClient" "got %d want %d" [verClient; ClientVerPST] else
  client ← rd 2 8 b;
  if client =? V2ClientMagicOST then unsupported "ost" "wMagicClient SO" else
  if negb (client =? V2ClientMagicPST)
  then invariant "2.2.2.6" "wMagicClient" "got 0x%04x want 0x%04x" [client; V2ClientMagicPST] else
  create ← index b 14;
  if negb (create =? PlatformWin32) then invariant "2.2.2.6" "bPlatformCreate" "got 0x%02x want 0x%02x" [create; PlatformWin32] else
  access ← index b 15;
  if negb (access =? PlatformWin32) then invariant "2.2.2.6" "bPlatformAccess" "got 0x%02x want 0x%02x" [access; PlatformWin32] else
  sent ← index b 512;
  if negb (sent =? V2Sentinel) then invariant "2.2.2.6" "bSentinel" "got 0x%02x want 0x%02x" [sent; V2Sentinel] else
  crypt ← index b 513;
  if negb (knownCrypt crypt) then
    if crypt =? CryptWIP then unsupported "wip-crypt" "bCryptMethod 0x10"
    else invariant "2.2.2.6" "bCryptMethod" "unknown 0x%02x (MS-PST %s)" [crypt]
  else
  qw ← rd 8 172 b;
  if negb (qw =? 0) then invariant "2.2.2.6" "qwUnused" "got 0x%016x want 0" [qw] else
  align ← rd 4 252 b;
  if negb (align =? 0) then invariant "2.2.2.6" "dwAlign" "got 0x%08x want 0" [align] else
  rgb ← rd 2 514 b;
  if negb (rgb =? 0) then invariant "2.2.2.6" "rgbReserved" "got 0x%04x want 0" [rgb] else
  bad ← first_not_ff b 256 256;
  match bad with
  | Some (i, x) => invariant "2.2.2.6" (if 384 <=? i then "rgbFP" else "rgbFM") "byte %d is 0x%02x, MUST be 0xFF (MS-PST %s)" [i; x]
  | None =>
  pre ← slice b 8 (8 + HeaderPartialCRCLen);
  let wantPartial := crc32PST pre in
  gotPartial ← rd 4 4 b;
  if negb (gotPartial =? wantPartial)
  then invariant "2.2.2.6" "dwCRCPartial" "got 0x%08x want 0x%08x over %d bytes from offset 8 (MS-PST %s)" [gotPartial; wantPartial; HeaderPartialCRCLen] else
  pre ← slice b 8 (8 + HeaderFullCRCLen);
  let wantFull := crc32PST pre in
  gotFull ← rd 4 524 b;
  if negb (gotFull =? wantFull)
  then invariant "2.2.2.6" "dwCRCFull" "got 0x%08x want 0x%08x over %d bytes from offset 8 (MS-PST %s)" [gotFull; wantFull; HeaderFullCRCLen] else
  rootRaw ← slice b 180 (180 + UnicodeRootSize);
  root ← InspectRoot rootRaw;
  if negb (RV_AMapValid root =? AMapValid2)
  then invariant "2.2.2.5" "fAMapValid" "committed header MUST use VALID_AMAP2 0x02, got 0x%02x (MS-PST 2.6.1.3.7)" [RV_AMapValid root] else
  r1 ← rd 4 16 b; r2 ← rd 4 20 b; nextP ← rd 8 32 b; unique ← rd 4 40 b; nextB ← rd 8 516 b;
  nids ← read_nids b 44 32;
  mret (mkHeaderView magic gotPartial client wver verClient create access r1 r2 nextP unique nids root sent crypt nextB gotFull b)
  end.

(** ** The bytes of a header *)
Definition root_image (r : RootDraft) : bytes :=
  zeros 4 ++ le_enc 8 (RD_FileEOF r) ++ le_enc 8 (RD_AMapLast r) ++ le_enc 8 (RD_AMapFree r) ++ le_enc 8 (RD_PMapFree r) ++
  le_enc 8 (RD_NBTBID r) ++ le_enc 8 (RD_NBTIB r) ++ le_enc 8 (RD_BBTBID r) ++ le_enc 8 (RD_BBTIB r) ++
  le_enc 1 (RD_AMapValid r) ++ zeros 3 ++ [].
(** The 516 bytes both checksums start from. *)
Definition header_mid (d : HeaderDraft) : bytes :=
  le_enc 2 V2ClientMagicPST ++ le_enc 2 UnicodeWVer ++ le_enc 2 ClientVerPST ++ le_enc 1 PlatformWin32 ++ le_enc 1 PlatformWin32 ++
  zeros 4 ++ zeros 4 ++ zeros 8 ++ le_enc 8 (HD_BidNextP d) ++ le_enc 4 (HD_Unique d) ++
  concat (map (le_enc 4) (HD_NIDs d)) ++ zeros 8 ++ root_image (HD_Root d) ++ zeros 4 ++ replicate 256 0xFF ++
  [V2Sentinel] ++ [HD_Crypt d] ++ zeros 2 ++ le_enc 8 (HD_BidNextB d).
Definition header_image (d : HeaderDraft) : bytes :=
  le_enc 4 V2PSTMagic ++ le_enc 4 (crc32PST (sub (header_mid d) 0 471)) ++ header_mid d ++
  le_enc 4 (crc32PST (header_mid d)) ++ zeros 36.
Definition amap_ok (v : Z) : Prop := v = AMapValid2 ∨ v = AMapInvalid.
(** What the encoder accepts. *)
Definition draft_ok (d : HeaderDraft) : Prop :=
  or_default (HD_MagicClient d) V2ClientMagicPST = V2ClientMagicPST ∧ or_default (HD_WVer d) UnicodeWVer = UnicodeWVer ∧
  or_default (HD_WVerClient d) ClientVerPST = ClientVerPST ∧ knownCrypt (HD_Crypt d) = true ∧ amap_ok (RD_AMapValid (HD_Root d)).

Lemma blen_root_image r : blen (root_image r) = 72.
Proof. unfold root_image. blia. Qed.
Lemma blen_nids (l : list Z) : blen (concat (map (le_enc 4) l)) = 4 * blen l.
Proof. induction l as [|x l IH]; [done|]. cbn [map concat]. rewrite blen_app, blen_le_enc, IH, blen_cons. lia. Qed.
Lemma blen_ff n : blen (replicate n 0xFF) = Z.of_nat n.
Proof. unfold blen. by rewrite length_replicate. Qed.
Lemma bytes_ok_concat {A} (f : A → bytes) (l : list A) : (∀ x, bytes_ok (f x)) → bytes_ok (concat (map f l)).
Proof. intros H. apply Forall_concat, Forall_map, Forall_true. done. Qed.
Lemma blen_header_mid d : length (HD_NIDs d) = 32%nat → blen (header_mid d) = 516.
Proof.
  intros Hn. unfold header_mid. autorewrite with blen. rewrite blen_nids, blen_root_image. unfold blen at 1. rewrite Hn.
  by vm_compute.
Qed.
Lemma blen_header_image d : length (HD_NIDs d) = 32%nat → blen (header_image d) = 564.
Proof. intros Hn. unfold header_image. pose proof (blen_header_mid d Hn). blia. Qed.
Lemma bytes_ok_root_image r : bytes_ok (root_image r).
Proof. unfold root_image. repeat (apply Forall_app; split); auto with pst. Qed.
Lemma bytes_ok_header_mid d : fits 8 (HD_Crypt d) → bytes_ok (header_mid d).
Proof.
  intros Hc. unfold header_mid, fits in *. repeat (apply Forall_app; split); auto using bytes_ok_root_image with pst.
  all: first [by apply bytes_ok_concat; auto with pst|by apply Forall_replicate; split|repeat constructor; unfold V2Sentinel; lia].
Qed.
Lemma bytes_ok_header_image d : fits 8 (HD_Crypt d) → bytes_ok (header_image d).
Proof.
  intros Hc. pose proof (bytes_ok_header_mid d Hc). unfold header_image.
  set (m := header_mid d) in *. clearbody m. repeat (apply Forall_app; split); auto with pst.
Qed.

Lemma check_draft_amap_spec v : (check_draft_amap v = Ok tt ∧ amap_ok v) ∨ (∃ e, check_draft_amap v = Err e ∧ ¬ amap_ok v).
Proof.
  unfold check_draft_amap, amap_ok, AMapValid2, AMapInvalid, AMapValid1, invalidArg.
  destruct (Z.eqb_spec v 2) as [->|]; [by left; auto|]. destruct (Z.eqb_spec v 0) as [->|]; [by left; auto|]. cbn [orb].
  right. destruct (v =? 1); eexists; (split; [done|]); lia.
Qed.
Lemma validateHeaderDraft_spec d :
  (validateHeaderDraft d = Ok tt ∧ draft_ok d) ∨ (∃ e, validateHeaderDraft d = Err e ∧ ¬ draft_ok d).
Proof.
  unfold validateHeaderDraft, draft_ok, invalidArg, unsupported.
  destruct (Z.eqb_spec (or_default (HD_MagicClient d) V2ClientMagicPST) V2ClientMagicOST) as [E1|E1].
  { right. eexists. split; [done|]. rewrite E1. intros [? _]. done. }
  destruct (Z.eqb_spec (or_default (HD_MagicClient d) V2ClientMagicPST) V2ClientMagicPST) as [E2|E2]; cbn [negb]; [|right; naive_solver].
  destruct (Z.leb_spec 14 (or_default (HD_WVer d) UnicodeWVer)), (Z.leb_spec (or_default (HD_WVer d) UnicodeWVer) 15); cbn [andb].
  1:{ right. eexists. split; [done|]. intros (_ & E & _). rewrite E in *. unfold UnicodeWVer in *. lia. }
  all: destruct (Z.eqb_spec (or_default (HD_WVer d) UnicodeWVer) UnicodeWVerWIP) as [E3|E3];
    [right; eexists; (split; [done|]); rewrite E3; intros (_ & ? & _); done|].
  all: destruct (Z.eqb_spec (or_default (HD_WVer d) UnicodeWVer) UnicodeWVer) as [E4|E4]; cbn [negb]; [|right; naive_solver].
  all: destruct (Z.eqb_spec (or_default (HD_WVerClient d) ClientVerPST) ClientVerPST) as [E5|E5]; cbn [negb]; [|right; naive_solver].
  all: destruct (knownCrypt (HD_Crypt d)) eqn:Ek; [|right; destruct (HD_Crypt d =? CryptWIP); eexists; (split; [done|]); naive_solver].
  all: destruct (check_draft_amap_spec (RD_AMapValid (HD_Root d))) as [[-> ?]|(e & -> & ?)]; [left; by split_and!|right; naive_solver].
Qed.

Lemma EncodeUnicodeRoot_Ok r : amap_ok (RD_AMapValid r) → EncodeUnicodeRoot r = Ok (root_image r).
Proof.
  intros Ha. unfold EncodeUnicodeRoot. destruct (check_draft_amap_spec (RD_AMapValid r)) as [[-> _]|(e & _ & ?)]; [|done].
  rewrite bind_Ok. change (zeros UnicodeRootSize) with
    (zeros 4 ++ zeros 8 ++ zeros 8 ++ zeros 8 ++ zeros 8 ++ zeros 8 ++ zeros 8 ++ zeros 8 ++ zeros 8 ++ zeros 1 ++ zeros 1 ++ zeros 2).
  cbn [puts]. buf_write. unfold root_image. buf_layout. done.
Qed.

Lemma header_crcs client_to_nextB : blen client_to_nextB = 516 →
  writeHeaderCRC (le_enc 4 V2PSTMagic ++ zeros 4 ++ client_to_nextB ++ zeros 4 ++ zeros 36)
  = Ok (le_enc 4 V2PSTMagic ++ le_enc 4 (crc32PST (sub client_to_nextB 0 471)) ++ client_to_nextB ++
        le_enc 4 (crc32PST client_to_nextB) ++ zeros 36).
Proof.
  intros Hl. set (mid := client_to_nextB) in *. unfold writeHeaderCRC, HeaderFullCRCLen, HeaderPartialCRCLen.
  rewrite slice_Ok by blia. rewrite bind_Ok. replace (sub _ 8 _) with mid by (symmetry; buf_fields; done).
  buf_write. rewrite slice_Ok by blia. rewrite bind_Ok. buf_write. f_equal.
  rewrite (splice_skip (le_enc 4 V2PSTMagic)) by blia. rewrite (splice_skip (zeros 4)) by blia. rewrite (splice_skip mid) by blia.
  rewrite (splice_head (zeros 4)) by blia.
  replace (sub _ 8 _) with (sub mid 0 471) by (symmetry; buf_fields; f_equal; blia).
  rewrite splice_skip by blia. by rewrite splice_head by blia.
Qed.

Lemma EncodeUnicodeHeader_exact d raw : length (HD_NIDs d) = 32%nat →
  (EncodeUnicodeHeader d = Ok raw) ↔ draft_ok d ∧ raw = header_image d.
Proof.
  intros Hn. unfold EncodeUnicodeHeader. destruct (validateHeaderDraft_spec d) as [[-> Hok]|(e & -> & Hno)]; [|naive_solver].
  rewrite bind_Ok. pose proof Hok as (E1 & E2 & E3 & Ek & Ha). rewrite EncodeUnicodeRoot_Ok by done. rewrite bind_Ok, E1, E2, E3.
  pose proof (blen_root_image (HD_Root d)). pose proof (blen_nids (HD_NIDs d)) as Hc. pose proof (blen_ff 256).
  assert (blen (HD_NIDs d) = 32) as Hn' by (unfold blen; lia).
  set (ff := replicate 256 0xFF) in *. set (root := root_image (HD_Root d)) in *. set (nids := concat (map (le_enc 4) (HD_NIDs d))) in *.
  change (zeros UnicodeHeaderSize) with ([] ++ zeros (564 - 0)). cbn [puts].
  repeat first [rewrite (put_fill _ _ _ _ _ 564) by blia | rewrite (put8_fill _ _ _ _ 564) by blia
    | rewrite (put_bytes_fill _ _ _ _ 564) by blia | rewrite bind_Ok].
  rewrite <- !app_assoc.
  replace (44 + blen nids) with 172 by lia. replace (180 + blen root) with 252 by lia. replace (256 + blen ff) with 512 by lia.
  match goal with |- (writeHeaderCRC ?b = _) ↔ _ => assert (writeHeaderCRC b = Ok (header_image d)) as -> end.
  { etrans; [|exact (header_crcs (header_mid d) (blen_header_mid d Hn))]. f_equal. unfold header_mid. fold ff root nids.
    rewrite <- !app_assoc. reflexivity. }
  naive_solver.
Qed.

(** ** Reading a header back *)
Definition draft_wf (d : HeaderDraft) : Prop :=
  length (HD_NIDs d) = 32%nat ∧ Forall (fits 32) (HD_NIDs d) ∧ fits 64 (HD_BidNextP d) ∧ fits 32 (HD_Unique d) ∧
  fits 8 (HD_Crypt d) ∧ fits 64 (HD_BidNextB d) ∧
  let r := HD_Root d in
  fits 64 (RD_FileEOF r) ∧ fits 64 (RD_AMapLast r) ∧ fits 64 (RD_AMapFree r) ∧ fits 64 (RD_PMapFree r) ∧
  fits 64 (RD_NBTBID r) ∧ fits 64 (RD_NBTIB r) ∧ fits 64 (RD_BBTBID r) ∧ fits 64 (RD_BBTIB r).
#[export] Instance draft_wf_dec d : Decision (draft_wf d).
Proof. unfold draft_wf, fits. apply _. Defined.
Definition root_view (r : RootDraft) : RootView :=
  mkRootView 0 (RD_FileEOF r) (RD_AMapLast r) (RD_AMapFree r) (RD_PMapFree r) (RD_NBTBID r) (RD_NBTIB r)
    (RD_BBTBID r) (RD_BBTIB r) (RD_AMapValid r) 0 0 (root_image r).
Definition header_view (d : HeaderDraft) : HeaderView :=
  mkHeaderView V2PSTMagic (crc32PST (sub (header_mid d) 0 471)) V2ClientMagicPST UnicodeWVer ClientVerPST 1 1 0 0
    (HD_BidNextP d) (HD_Unique d) (HD_NIDs d) (root_view (HD_Root d)) V2Sentinel (HD_Crypt d) (HD_BidNextB d)
    (crc32PST (header_mid d)) (header_image d).

(** A field of a buffer, by the bytes before it. *)
Lemma rd_field (pre post : bytes) n v p : blen pre = p → fits (8 * Z.of_nat n) v → rd n p (pre ++ le_enc n v ++ post) = Ok v.
Proof.
  intros <- Hf. pose proof (blen_nonneg pre). pose proof (blen_nonneg post). rewrite rd_Ok by blia. buf_fields.
  by rewrite le_dec_enc_fits.
Qed.
Lemma rd_zero (pre post : bytes) n k p : blen pre ≤ p → p + Z.of_nat n ≤ blen pre + k → rd n p (pre ++ zeros k ++ post) = Ok 0.
Proof.
  intros Hp Hk. pose proof (blen_nonneg pre). pose proof (blen_nonneg post). rewrite rd_Ok by blia.
  rewrite sub_app_r by blia. rewrite sub_app_l by blia. rewrite sub_zeros by lia. by rewrite le_dec_zeros.
Qed.
Lemma rd_in (pre mid post : bytes) n p q : blen pre + q = p → 0 ≤ q → q + Z.of_nat n ≤ blen mid →
  rd n p (pre ++ mid ++ post) = rd n q mid.
Proof.
  intros <- Hq Hl. pose proof (blen_nonneg pre). pose proof (blen_nonneg post). rewrite !rd_Ok by blia.
  rewrite sub_app_r by blia. rewrite sub_app_l by blia. do 3 f_equal. lia.
Qed.
Lemma index_rd (b : bytes) i : 0 ≤ i < blen b → index b i = rd 1 i b.
Proof. intros Hi. rewrite index_total by done. rewrite rd_Ok by lia. done. Qed.
(** Bring the field at the front of the remaining buffer, skipping those before it. *)
Ltac read_field img n p v :=
  replace (rd n p img) with (Ok v)
    by (symmetry; unfold root_image; lazymatch goal with |- rd _ _ ?b = _ => change b with ([] ++ b) end;
        repeat first [apply rd_field; [blia|done] | rewrite app_assoc]).
Ltac read_zero img n p :=
  replace (rd n p img) with (Ok (A:=Z) 0)
    by (symmetry; unfold root_image; lazymatch goal with |- rd _ _ ?b = _ => change b with ([] ++ b) end;
        repeat first [apply rd_zero; [blia|blia] | rewrite app_assoc]).

Lemma InspectRoot_image r : (let r := r in
    fits 64 (RD_FileEOF r) ∧ fits 64 (RD_AMapLast r) ∧ fits 64 (RD_AMapFree r) ∧ fits 64 (RD_PMapFree r) ∧
    fits 64 (RD_NBTBID r) ∧ fits 64 (RD_NBTIB r) ∧ fits 64 (RD_BBTBID r) ∧ fits 64 (RD_BBTIB r)) →
  amap_ok (RD_AMapValid r) → InspectRoot (root_image r) = Ok (root_view r).
Proof.
  intros (H1 & H2 & H3 & H4 & H5 & H6 & H7 & H8) Ha. unfold InspectRoot. rewrite blen_root_image. change (72 <? UnicodeRootSize) with false.
  cbv iota. change UnicodeRootSize with 72. rewrite slice_Ok by (rewrite ?blen_root_image; lia). rewrite bind_Ok.
  rewrite sub_all by (rewrite ?blen_root_image; lia).
  rewrite (index_rd _ 69), (index_rd _ 68) by (rewrite ?blen_root_image; lia).
  assert (fits 8 (RD_AMapValid r)) as H9 by (destruct Ha as [-> | ->]; done).
  read_zero (root_image r) 4%nat 0. rewrite bind_Ok. change (negb (0 =? 0)) with false. cbv iota.
  read_zero (root_image r) 1%nat 69. rewrite bind_Ok. change (negb (0 =? 0)) with false. cbv iota.
  read_zero (root_image r) 2%nat 70. rewrite bind_Ok. change (negb (0 =? 0)) with false. cbv iota.
  read_field (root_image r) 1%nat 68 (RD_AMapValid r).
  rewrite bind_Ok. assert (((RD_AMapValid r =? AMapValid2) || (RD_AMapValid r =? AMapInvalid)) = true) as ->
    by (by destruct Ha as [-> | ->]).
  read_field (root_image r) 8%nat 4 (RD_FileEOF r). read_field (root_image r) 8%nat 12 (RD_AMapLast r).
  read_field (root_image r) 8%nat 20 (RD_AMapFree r). read_field (root_image r) 8%nat 28 (RD_PMapFree r).
  read_field (root_image r) 8%nat 36 (RD_NBTBID r). read_field (root_image r) 8%nat 44 (RD_NBTIB r).
  read_field (root_image r) 8%nat 52 (RD_BBTBID r). read_field (root_image r) 8%nat 60 (RD_BBTIB r).
  rewrite !bind_Ok. done.
Qed.

(** The header as one run of fields. *)
Definition header_fields (d : HeaderDraft) (cp cf : Z) (nids root ff : bytes) : bytes :=
  [] ++ le_enc 4 V2PSTMagic ++ le_enc 4 cp ++ le_enc 2 V2ClientMagicPST ++ le_enc 2 UnicodeWVer ++ le_enc 2 ClientVerPST ++
  le_enc 1 PlatformWin32 ++ le_enc 1 PlatformWin32 ++ zeros 8 ++ zeros 8 ++ le_enc 8 (HD_BidNextP d) ++ le_enc 4 (HD_Unique d) ++
  nids ++ zeros 8 ++ root ++ zeros 4 ++ ff ++ le_enc 1 V2Sentinel ++ le_enc 1 (HD_Crypt d) ++ zeros 2 ++ le_enc 8 (HD_BidNextB d) ++
  le_enc 4 cf ++ zeros 36.
Lemma header_image_fields d : fits 8 (HD_Crypt d) →
  header_image d = header_fields d (crc32PST (sub (header_mid d) 0 471)) (crc32PST (header_mid d))
    (concat (map (le_enc 4) (HD_NIDs d))) (root_image (HD_Root d)) (replicate 256 0xFF).
Proof.
  intros Hf. unfold header_image. set (cp := crc32PST (sub _ _ _)). set (cf := crc32PST (header_mid d)). unfold header_mid, header_fields.
  rewrite <- !app_assoc. assert (le_enc 1 (HD_Crypt d) = [HD_Crypt d]) as ->.
  { cbn [le_enc]. rewrite Z.mod_small; [done|exact Hf]. }
  reflexivity.
Qed.
(** What a reader finds in the header, field by field. *)
Record header_reads (d : HeaderDraft) (b : bytes) (cp cf : Z) : Prop := {
  hr_magic : rd 4 0 b = Ok V2PSTMagic; hr_cp : rd 4 4 b = Ok cp; hr_client : rd 2 8 b = Ok V2ClientMagicPST;
  hr_ver : rd 2 10 b = Ok UnicodeWVer; hr_verc : rd 2 12 b = Ok ClientVerPST; hr_create : rd 1 14 b = Ok PlatformWin32;
  hr_access : rd 1 15 b = Ok PlatformWin32; hr_r1 : rd 4 16 b = Ok 0; hr_r2 : rd 4 20 b = Ok 0;
  hr_nextp : rd 8 32 b = Ok (HD_BidNextP d); hr_unique : rd 4 40 b = Ok (HD_Unique d); hr_qw : rd 8 172 b = Ok 0;
  hr_align : rd 4 252 b = Ok 0; hr_sent : rd 1 512 b = Ok V2Sentinel; hr_crypt : rd 1 513 b = Ok (HD_Crypt d);
  hr_rgb : rd 2 514 b = Ok 0; hr_nextb : rd 8 516 b = Ok (HD_BidNextB d); hr_cf : rd 4 524 b = Ok cf;
  hr_nids : sub b 44 128 = concat (map (le_enc 4) (HD_NIDs d));
  hr_root : sub b 180 72 = root_image (HD_Root d);
  hr_ff : sub b 256 256 = replicate 256 0xFF;
  hr_len : blen b = 564 }.

Lemma header_fields_reads d cp cf nids root ff : draft_wf d → fits 32 cp → fits 32 cf →
  nids = concat (map (le_enc 4) (HD_NIDs d)) → root = root_image (HD_Root d) → ff = replicate 256 0xFF →
  header_reads d (header_fields d cp cf nids root ff) cp cf.
Proof.
  intros (Hn & _ & Hp & Hu & Hc & Hb & _) Hcp Hcf En Er Ef.
  assert (blen nids = 128) as Ln by (rewrite En, blen_nids; unfold blen; rewrite Hn; done).
  assert (blen root = 72) as Lr by (rewrite Er; apply blen_root_image).
  assert (blen ff = 256) as Lf by (rewrite Ef; apply blen_ff).
  unfold header_fields. split.
  1-7,10,11,14,15,17,18: repeat first [apply rd_field; [blia|done] | rewrite app_assoc].
  1-6: repeat first [apply rd_zero; [blia|blia] | rewrite app_assoc].
  - rewrite <- En. repeat first [rewrite sub_all by blia | rewrite sub_app_l by blia | rewrite sub_app_r by blia]. done.
  - rewrite <- Er. repeat first [rewrite sub_all by blia | rewrite sub_app_l by blia | rewrite sub_app_r by blia]. done.
  - rewrite <- Ef. repeat first [rewrite sub_all by blia | rewrite sub_app_l by blia | rewrite sub_app_r by blia]. done.
  - blia.
Qed.

Lemma read_nids_back (nids : list Z) b : ∀ off, Forall (fits 32) nids → 0 ≤ off → off + 4 * blen nids ≤ blen b →
  sub b off (4 * blen nids) = concat (map (le_enc 4) nids) → read_nids b off (length nids) = Ok nids.
Proof.
  induction nids as [|x nids IH]; intros off Hf Ho Hl Hs; [done|]. apply Forall_cons in Hf as [Hx Hf]. rewrite blen_cons in *.
  pose proof (blen_nonneg nids). cbn [length read_nids map concat] in *.
  assert (sub b off 4 = le_enc 4 x) as E1.
  { apply (f_equal (λ l, sub l 0 4)) in Hs. rewrite sub_sub, Z.add_0_r in Hs by lia.
    rewrite Hs, sub_app_l by (rewrite ?blen_le_enc; lia). by apply sub_0_all. }
  assert (sub b (off + 4) (4 * blen nids) = concat (map (le_enc 4) nids)) as E2.
  { apply (f_equal (λ l, sub l 4 (4 * blen nids))) in Hs. rewrite sub_sub in Hs by lia.
    rewrite Hs, sub_app_r by (rewrite ?blen_le_enc; lia). rewrite blen_le_enc.
    apply sub_all; [lia|]. by rewrite blen_nids. }
  rewrite rd_Ok by lia. change (Z.of_nat 4) with 4. rewrite E1, bind_Ok, le_dec_enc_fits by done. rewrite IH by (done || lia). done.
Qed.
Lemma first_not_ff_none n b : ∀ i, 0 ≤ i → i + Z.of_nat n ≤ blen b → sub b i (Z.of_nat n) = replicate n 0xFF → first_not_ff b i n = Ok None.
Proof.
  induction n as [|n IH]; intros i Hi Hl Hs; [done|]. cbn [first_not_ff].
  assert (sub b i 1 = [0xFF]) as E1.
  { apply (f_equal (λ l, sub l 0 1)) in Hs. rewrite sub_sub, Z.add_0_r in Hs by lia. by rewrite Hs. }
  assert (sub b (i + 1) (Z.of_nat n) = replicate n 0xFF) as E2.
  { apply (f_equal (λ l, sub l 1 (Z.of_nat n))) in Hs. rewrite sub_sub in Hs by lia. rewrite Hs.
    change (replicate (S n) 0xFF) with ([0xFF] ++ replicate n 0xFF). rewrite sub_app_r by (rewrite ?blen_cons, ?blen_nil; lia).
    apply sub_all; [done|]. by rewrite blen_ff. }
  rewrite index_total by lia. rewrite E1, bind_Ok. change (negb (le_dec [0xFF] =? 0xFF)) with false. cbv iota. apply IH; (done || lia).
Qed.

Lemma header_image_reads d : draft_wf d →
  header_reads d (header_image d) (crc32PST (sub (header_mid d) 0 471)) (crc32PST (header_mid d)).
Proof.
  intros Hw. pose proof Hw as (Hn & _ & _ & _ & Hc & _). rewrite header_image_fields by done.
  pose proof (bytes_ok_header_mid d Hc) as Hb.
  apply header_fields_reads; try done; apply ComputeCRC_fits; [by apply bytes_ok_sub|done].
Qed.
Lemma header_image_crcs d : draft_wf d →
  sub (header_image d) 8 471 = sub (header_mid d) 0 471 ∧ sub (header_image d) 8 516 = header_mid d.
Proof.
  intros (Hn & _). pose proof (blen_header_mid d Hn). unfold header_image. set (mid := header_mid d) in *.
  set (cp := le_enc 4 (crc32PST (sub mid 0 471))). assert (blen cp = 4) by (subst cp; blia). split; buf_fields; [f_equal; blia|done].
Qed.

(** The inspector on the bytes of a header. *)
Lemma InspectHeader_image d rest : draft_wf d → draft_ok d →
  InspectHeader (header_image d ++ rest) =
    if RD_AMapValid (HD_Root d) =? AMapValid2 then Ok (header_view d)
    else invariant "2.2.2.5" "fAMapValid" "committed header MUST use VALID_AMAP2 0x02, got 0x%02x (MS-PST 2.6.1.3.7)" [RD_AMapValid (HD_Root d)].
Proof.
  intros Hw (_ & _ & _ & Hk & Ha). destruct (header_image_reads d Hw) as [].
  destruct (header_image_crcs d Hw) as [Ec1 Ec2]. destruct Hw as (Hn & Hnf & _ & _ & _ & _ & Hroot).
  pose proof (blen_nonneg rest). unfold InspectHeader. rewrite blen_app, hr_len0.
  rewrite (proj2 (Z.ltb_ge (564 + blen rest) UnicodeHeaderSize)) by (unfold UnicodeHeaderSize; lia).
  rewrite slice_Ok by (rewrite ?blen_app, ?hr_len0; unfold UnicodeHeaderSize; lia).
  replace (sub (header_image d ++ rest) 0 (UnicodeHeaderSize - 0)) with (header_image d)
    by (symmetry; rewrite sub_app_l by (rewrite ?hr_len0; unfold UnicodeHeaderSize; lia); by apply sub_0_all).
  rewrite bind_Ok. set (b := header_image d) in *.
  rewrite (index_rd b 14), (index_rd b 15), (index_rd b 512), (index_rd b 513) by lia.
  rewrite hr_magic0, hr_ver0, hr_verc0, hr_client0, hr_create0, hr_access0, hr_sent0, hr_crypt0, hr_qw0, hr_align0, hr_rgb0, hr_cp0, hr_cf0,
    hr_r3, hr_r4, hr_nextp0, hr_unique0, hr_nextb0, !bind_Ok.
  rewrite (first_not_ff_none 256 b 256) by (done || lia). rewrite Hk.
  unfold HeaderPartialCRCLen, HeaderFullCRCLen, UnicodeRootSize. rewrite !slice_Ok by lia.
  change (8 + 471 - 8) with 471. change (8 + 516 - 8) with 516. change (180 + 72 - 180) with 72.
  rewrite Ec1, Ec2, hr_root0, !bind_Ok, !Z.eqb_refl. rewrite InspectRoot_image by done.
  assert (blen (HD_NIDs d) = 32) as Hbn by (unfold blen; by rewrite Hn).
  pose proof (read_nids_back (HD_NIDs d) b 44 Hnf ltac:(lia)) as HN. rewrite Hn, Hbn in HN.
  change (4 * 32) with 128 in HN. rewrite HN by (done || lia). rewrite !bind_Ok. cbn [root_view RV_AMapValid].
  change (UnicodeWVer) with 23. cbn -[crc32PST header_mid header_image root_image sub AMapValid2 RD_AMapValid header_view].
  destruct (RD_AMapValid (HD_Root d) =? AMapValid2); done.
Qed.

(** The reader of [pkg/disk] on the same bytes. *)
Definition disk_header (d : HeaderDraft) : Header :=
  let r := HD_Root d in
  mkHeader V2PSTMagic (crc32PST (sub (header_mid d) 0 471)) V2ClientMagicPST UnicodeWVer ClientVerPST 1 1 0 0 FormatUnicode
    (mkRoot 0 (RD_FileEOF r) (RD_AMapLast r) (RD_AMapFree r) (RD_PMapFree r) (mkBRef (RD_NBTBID r) (RD_NBTIB r))
      (mkBRef (RD_BBTBID r) (RD_BBTIB r)) (RD_AMapValid r) 0 0)
    (HD_Crypt d) (HD_BidNextB d) (crc32PST (header_mid d)) (HD_BidNextP d) (HD_Unique d).

Lemma rd_window n k b off w v : sub b off (blen w) = w → 0 ≤ off → off + blen w ≤ blen b → 0 ≤ k → k + Z.of_nat n ≤ blen w →
  rd n k w = Ok v → rd n (off + k) b = Ok v.
Proof.
  intros Hs Ho Hl Hk Hn Hr. rewrite rd_Ok in Hr by lia. rewrite rd_Ok by lia. rewrite <- Hr, <- Hs, sub_sub by lia. done.
Qed.

Lemma parseRootUnicode_image b r : sub b 180 72 = root_image r → 252 ≤ blen b →
  (fits 64 (RD_FileEOF r) ∧ fits 64 (RD_AMapLast r) ∧ fits 64 (RD_AMapFree r) ∧ fits 64 (RD_PMapFree r) ∧
   fits 64 (RD_NBTBID r) ∧ fits 64 (RD_NBTIB r) ∧ fits 64 (RD_BBTBID r) ∧ fits 64 (RD_BBTIB r)) → fits 8 (RD_AMapValid r) →
  parseRootUnicode b 180 = Ok (mkRoot 0 (RD_FileEOF r) (RD_AMapLast r) (RD_AMapFree r) (RD_PMapFree r)
    (mkBRef (RD_NBTBID r) (RD_NBTIB r)) (mkBRef (RD_BBTBID r) (RD_BBTIB r)) (RD_AMapValid r) 0 0).
Proof.
  intros Hs Hl (H1 & H2 & H3 & H4 & H5 & H6 & H7 & H8) H9. pose proof (blen_root_image r) as Hr.
  assert (∀ n k v, 0 ≤ k → k + Z.of_nat n ≤ 72 → rd n k (root_image r) = Ok v → rd n (180 + k) b = Ok v) as HW.
  { intros n k v Hk Hn Hv. apply (rd_window n k b 180 (root_image r)); rewrite ?Hr; (done || lia). }
  unfold parseRootUnicode. replace (rd 4 180 b) with (Ok (A:=Z) 0).
  2:{ symmetry. apply (HW 4%nat 0); [lia|lia|]. by read_zero (root_image r) 4%nat 0. }
  rewrite (HW 8%nat 4 (RD_FileEOF r)), (HW 8%nat 12 (RD_AMapLast r)), (HW 8%nat 20 (RD_AMapFree r)), (HW 8%nat 28 (RD_PMapFree r)),
    (HW 8%nat 36 (RD_NBTBID r)), (HW 8%nat 44 (RD_NBTIB r)), (HW 8%nat 52 (RD_BBTBID r)), (HW 8%nat 60 (RD_BBTIB r)),
    (HW 1%nat 68 (RD_AMapValid r)), (HW 1%nat 69 0), (HW 2%nat 70 0), !bind_Ok; try lia.
  1: done.
  2: by read_zero (root_image r) 2%nat 70.
  1: by read_zero (root_image r) 1%nat 69.
  1: by read_field (root_image r) 1%nat 68 (RD_AMapValid r).
  1: by read_field (root_image r) 8%nat 60 (RD_BBTIB r).
  1: by read_field (root_image r) 8%nat 52 (RD_BBTBID r).
  1: by read_field (root_image r) 8%nat 44 (RD_NBTIB r).
  1: by read_field (root_image r) 8%nat 36 (RD_NBTBID r).
  1: by read_field (root_image r) 8%nat 28 (RD_PMapFree r).
  1: by read_field (root_image r) 8%nat 20 (RD_AMapFree r).
  1: by read_field (root_image r) 8%nat 12 (RD_AMapLast r).
  by read_field (root_image r) 8%nat 4 (RD_FileEOF r).
Qed.

Lemma ReadHeader_image d rest : draft_wf d → draft_ok d → ReadHeader (header_image d ++ rest) = Ok (disk_header d).
Proof.
  intros Hw (_ & _ & _ & _ & Ha). destruct (header_image_reads d Hw) as []. destruct Hw as (_ & _ & _ & _ & _ & _ & Hroot).
  pose proof (blen_nonneg rest). unfold ReadHeader. unfold HeaderSizeUnicode.
  assert (sub (header_image d ++ rest) 0 564 = header_image d) as -> by (rewrite sub_app_l by lia; by apply sub_0_all).
  rewrite hr_len0. change (564 <? HeaderSizeANSI) with false. cbv iota. rewrite splice_0_zeros by lia.
  rewrite hr_len0. change (zeros (564 - 564)) with (@nil Z). rewrite app_nil_r. set (b := header_image d) in *.
  unfold parseCommon. rewrite hr_magic0, hr_cp0, hr_client0, hr_ver0, hr_verc0, hr_create0, hr_access0, hr_r3, hr_r4, !bind_Ok.
  cbn [C_Magic C_Client C_Ver]. change (negb (V2PSTMagic =? PSTMagic)) with false.
  change (negb (V2ClientMagicPST =? ClientMagicPST) && negb (V2ClientMagicPST =? ClientMagicOST)) with false.
  change ((DatabaseFormatUnicodeMin <=? UnicodeWVer) && (UnicodeWVer <=? DatabaseFormatUnicodeMax)) with true.
  change (564 <? 564) with false. cbv iota. unfold parseUnicodeHeader. rewrite hr_nextp0, hr_unique0, !bind_Ok.
  rewrite (parseRootUnicode_image b (HD_Root d)); [|done|lia|done|by destruct Ha as [-> | ->]].
  rewrite hr_crypt0, hr_nextb0, hr_cf0, !bind_Ok. done.
Qed.

Lemma slice_inner (b : bytes) x y : 0 ≤ x ≤ y → y ≤ blen b → slice b x y = Ok (sub b x (y - x)).
Proof. intros. apply slice_Ok; lia. Qed.
Lemma read_nids_total n b : ∀ off, 0 ≤ off → off + 4 * Z.of_nat n ≤ blen b → ∃ l, read_nids b off n = Ok l.
Proof.
  induction n as [|n IH]; intros off Ho Hl; cbn [read_nids]; [by eexists|]. rewrite rd_Ok by lia. rewrite bind_Ok.
  destruct (IH (off + 4)) as [l ->]; [lia|lia|]. by eexists.
Qed.
Lemma first_not_ff_total n b : ∀ i, 0 ≤ i → i + Z.of_nat n ≤ blen b → ∃ r, first_not_ff b i n = Ok r.
Proof.
  induction n as [|n IH]; intros i Hi Hl; cbn [first_not_ff]; [by eexists|]. rewrite index_total by lia. rewrite bind_Ok.
  case_match; [by eexists|]. apply IH; lia.
Qed.
Lemma InspectRoot_total raw : InspectRoot raw ≠ Panic.
Proof.
  unfold InspectRoot, UnicodeRootSize. destruct (Z.ltb_spec (blen raw) 72); [done|]. rewrite slice_Ok by lia. rewrite bind_Ok.
  pose proof (blen_sub raw 0 72 ltac:(lia) ltac:(lia) ltac:(lia)) as Hb. change (72 - 0) with 72. set (b := sub raw 0 72) in *.
  rewrite !index_total by lia. rewrite !rd_Ok by lia. rewrite !bind_Ok. repeat case_match; done.
Qed.
Lemma InspectHeader_total raw : InspectHeader raw ≠ Panic.
Proof.
  unfold InspectHeader, UnicodeHeaderSize. destruct (Z.ltb_spec (blen raw) 564); [done|]. rewrite slice_Ok by lia. rewrite bind_Ok.
  pose proof (blen_sub raw 0 564 ltac:(lia) ltac:(lia) ltac:(lia)) as Hb. change (564 - 0) with 564. set (b := sub raw 0 564) in *.
  unfold HeaderPartialCRCLen, HeaderFullCRCLen, UnicodeRootSize.
  rewrite !index_total by lia. rewrite !rd_Ok by lia. rewrite !slice_inner by lia. rewrite !bind_Ok.
  destruct (first_not_ff_total 256 b 256) as [r ->]; [lia|lia|]. destruct (read_nids_total 32 b 44) as [l ->]; [lia|lia|]. rewrite !bind_Ok.
  set (rr := sub b 180 (180 + 72 - 180)). pose proof (InspectRoot_total rr).
  destruct (InspectRoot rr) as [v| |]; [|repeat case_match; done|done]. rewrite bind_Ok. repeat case_match; done.
Qed.

(** C38: The header: what is encoded from a draft is inspected back field for field
    when it is marked VALID_AMAP2, rejected when it is marked INVALID, and in
    both cases read by [pkg/disk] with the same counters, ROOT and encryption
    method.  The inspector never faults, whatever the bytes. *)
Theorem header_exact d raw rest : draft_wf d → EncodeUnicodeHeader d = Ok raw →
  blen raw = UnicodeHeaderSize ∧ ReadHeader (raw ++ rest) = Ok (disk_header d) ∧
  (RD_AMapValid (HD_Root d) = AMapValid2 → InspectHeader (raw ++ rest) = Ok (header_view d)) ∧
  (RD_AMapValid (HD_Root d) ≠ AMapValid2 → ∃ e, InspectHeader (raw ++ rest) = Err e ∧ error_field e = "fAMapValid") ∧
  (∀ file, InspectHeader file ≠ Panic).
Proof.
  intros Hw He. pose proof Hw as (Hn & _). apply EncodeUnicodeHeader_exact in He as [Hok ->]; [|done].
  rewrite ReadHeader_image, InspectHeader_image by done. split_and!.
  - by apply blen_header_image.
  - done.
  - intros ->. done.
  - intros Hv. rewrite (proj2 (Z.eqb_neq _ _) Hv). by eexists.
  - apply InspectHeader_total.
Qed.
Definition sample_draft : HeaderDraft :=
  mkHeaderDraft 0 0 0 9 1 DefaultRgNID (mkRootDraft 0x42400 0x4400 0x3d000 0 5 0x4800 6 0x4a00 2) CryptPermute 0x1c.
Lemma header_exact_witness :
  let raw := header_image sample_draft in
  blen raw = UnicodeHeaderSize ∧ ReadHeader (raw ++ [7]) = Ok (disk_header sample_draft) ∧
  (RD_AMapValid (HD_Root sample_draft) = AMapValid2 → InspectHeader (raw ++ [7]) = Ok (header_view sample_draft)) ∧
  (RD_AMapValid (HD_Root sample_draft) ≠ AMapValid2 →
     ∃ e, InspectHeader (raw ++ [7]) = Err e ∧ error_field e = "fAMapValid") ∧
  (∀ file, InspectHeader file ≠ Panic).
Proof.
  intros raw. refine (header_exact sample_draft raw [7] _ _).
  - apply (bool_decide_unpack _). by vm_compute.
  - by vm_compute.
Defined.
