(* ===== verification/V2Bitmap.v ===== *)
(** * Writer v2: the bitmaps of the allocation map ([src/writer/v2/store.go])

    Setting, clearing, counting and searching bits, with the laws that let the
    store reason about slots instead of bytes. *)
From S2P Require Import Prelude V2Base.

(** ** Bits: bit [i] of byte [i / 8], the low bit first.  Every index used is
    below [8 * len(b)], where Go does not panic. *)
Definition bitmap_byte (b : bytes) (i : Z) : Z := default 0 (b !! Z.to_nat (i / 8)).
Definition bitIsSet (b : bytes) (i : Z) : bool := negb (Z.land (bitmap_byte b i) (Z.shiftl 1 (i mod 8)) =? 0).
Definition setBit (b : bytes) (i : Z) : bytes :=
  <[Z.to_nat (i / 8) := Z.lor (bitmap_byte b i) (Z.shiftl 1 (i mod 8))]> b.
Definition clearBit (b : bytes) (i : Z) : bytes :=
  <[Z.to_nat (i / 8) := Z.ldiff (bitmap_byte b i) (Z.shiftl 1 (i mod 8))]> b.
Definition bit_indexes (b : bytes) : list Z := seqZ 0 (8 * blen b).

(** The loops over all bits, low bit of the first byte first. *)
Definition countFree (b : bytes) : Z :=
  fold_left (λ n i, if bitIsSet b i then n else n + 1) (bit_indexes b) 0.
Fixpoint longest_scan (b : bytes) (ids : list Z) (max cur : Z) : Z :=
  match ids with
  | [] => max
  | i :: ids =>
    if negb (bitIsSet b i) then let cur := cur + 1 in longest_scan b ids (if max <? cur then cur else max) cur
    else longest_scan b ids max 0
  end.
Definition longestFree (b : bytes) : Z := longest_scan b (bit_indexes b) 0 0.
Fixpoint find_scan (b : bytes) (ids : list Z) (slots run start : Z) : option Z :=
  match ids with
  | [] => None
  | i :: ids =>
    if negb (bitIsSet b i) then
      let start := if run =? 0 then i else start in
      if slots <=? run + 1 then Some start else find_scan b ids slots (run + 1) start
    else find_scan b ids slots 0 start
  end.
Definition findContiguous (b : bytes) (slots : Z) : option Z := find_scan b (bit_indexes b) slots 0 0.

(** The first set bit of a run of [n] bits from [start]. *)
Fixpoint first_set (b : bytes) (start : Z) (n : nat) : option Z :=
  match n with O => None | S n => if bitIsSet b start then Some start else first_set b (start + 1) n end.
(** [firstFitAligned] in the bitmap of region [i]: one round per fuel, every
    round goes at least one slot on. *)
Fixpoint aligned_scan (fuel : nat) (b : bytes) (i slots align slot : Z) : option Z :=
  match fuel with
  | O => None
  | S fuel =>
    if slot + slots <=? SlotsPerAMap then
      if negb (slotOffset i slot mod align =? 0) then aligned_scan fuel b i slots align (slot + 1) else
      match first_set b slot (Z.to_nat slots) with
      | Some k => aligned_scan fuel b i slots align (k + 1)
      | None => Some slot
      end
    else None
  end.

(** The two loops of [mark] over a run of [n] bits: the check, with the bit
    that stops it, and the change. *)
Fixpoint first_clash (b : bytes) (alloc : bool) (start : Z) (n : nat) : option Z :=
  match n with
  | O => None
  | S n =>
    let set := bitIsSet b start in
    if (alloc && set) || (negb alloc && negb set) then Some start else first_clash b alloc (start + 1) n
  end.
Fixpoint mark_set (b : bytes) (alloc : bool) (start : Z) (n : nat) : bytes :=
  match n with
  | O => b
  | S n => mark_set (if alloc then setBit b start else clearBit b start) alloc (start + 1) n
  end.

(** ** Bits of a byte *)
Lemma byte_land_bit x k : 0 ≤ k → negb (Z.land x (Z.shiftl 1 k) =? 0) = Z.testbit x k.
Proof.
  intros Hk. rewrite Z.shiftl_1_l. destruct (Z.testbit x k) eqn:E.
  - assert (Z.testbit (Z.land x (2 ^ k)) k = true) as H by (by rewrite Z.land_spec, E, Z.pow2_bits_true).
    destruct (Z.eqb_spec (Z.land x (2 ^ k)) 0) as [H0|]; [|done]. by rewrite H0, Z.bits_0 in H.
  - assert (Z.land x (2 ^ k) = 0) as ->; [|done]. apply Z.bits_inj'. intros n Hn.
    rewrite Z.land_spec, Z.pow2_bits_eqb, Z.bits_0 by done. destruct (Z.eqb_spec k n) as [->|]; [by rewrite E|by rewrite andb_false_r].
Qed.

Lemma bitIsSet_testbit b i : 0 ≤ i → bitIsSet b i = Z.testbit (bitmap_byte b i) (i mod 8).
Proof. intros. unfold bitIsSet. apply byte_land_bit. divlia. Qed.

Lemma bitmap_byte_insert b i j x : 0 ≤ i < 8 * blen b → 0 ≤ j →
  bitmap_byte (<[Z.to_nat (i / 8) := x]> b) j = if i / 8 =? j / 8 then x else bitmap_byte b j.
Proof.
  intros Hi Hj. unfold bitmap_byte, blen in *. destruct (Z.eqb_spec (i / 8) (j / 8)) as [E|E].
  - rewrite <- E, list_lookup_insert_eq; [done|]. divlia.
  - rewrite list_lookup_insert_ne; [done|]. divlia.
Qed.

Lemma length_setBit b i : length (setBit b i) = length b.
Proof. apply length_insert. Qed.
Lemma length_clearBit b i : length (clearBit b i) = length b.
Proof. apply length_insert. Qed.

Lemma same_bit i j : 0 ≤ i → 0 ≤ j → i / 8 = j / 8 → (i mod 8 =? j mod 8) = (i =? j).
Proof. intros. destruct (Z.eqb_spec (i mod 8) (j mod 8)), (Z.eqb_spec i j); divlia. Qed.
Lemma other_byte i j : i / 8 ≠ j / 8 → (i =? j) = false.
Proof. intros. apply Z.eqb_neq. by intros ->. Qed.

Lemma bitIsSet_setBit b i j : 0 ≤ i < 8 * blen b → 0 ≤ j → bitIsSet (setBit b i) j = (i =? j) || bitIsSet b j.
Proof.
  intros Hi Hj. rewrite !bitIsSet_testbit by done. unfold setBit. rewrite bitmap_byte_insert by done.
  destruct (Z.eqb_spec (i / 8) (j / 8)) as [E|E]; [|by rewrite other_byte].
  rewrite Z.lor_spec, Z.shiftl_1_l, Z.pow2_bits_eqb by divlia. rewrite same_bit by lia.
  rewrite orb_comm. f_equal. unfold bitmap_byte. by rewrite E.
Qed.
Lemma bitIsSet_clearBit b i j : 0 ≤ i < 8 * blen b → 0 ≤ j → bitIsSet (clearBit b i) j = negb (i =? j) && bitIsSet b j.
Proof.
  intros Hi Hj. rewrite !bitIsSet_testbit by done. unfold clearBit. rewrite bitmap_byte_insert by done.
  destruct (Z.eqb_spec (i / 8) (j / 8)) as [E|E]; [|by rewrite other_byte].
  rewrite Z.ldiff_spec, Z.shiftl_1_l, Z.pow2_bits_eqb by divlia. rewrite same_bit by lia.
  rewrite andb_comm. f_equal. unfold bitmap_byte. by rewrite E.
Qed.

Lemma bit_byte_ok b i : bytes_ok b → is_byte (bitmap_byte b i).
Proof.
  intros H. unfold bitmap_byte. destruct (b !! Z.to_nat (i / 8)) as [x|] eqn:E; [|unfold is_byte; cbn; lia].
  cbn. by eapply (Forall_lookup_1 is_byte).
Qed.
Lemma shiftl_byte i : fits 8 (Z.shiftl 1 (i mod 8)).
Proof.
  rewrite Z.shiftl_1_l. unfold fits. assert (0 ≤ i mod 8 ≤ 7) by divlia.
  split; [apply Z.pow_nonneg; lia|]. apply Z.pow_lt_mono_r; lia.
Qed.
Lemma fits_byte_bits x : is_byte x ↔ 0 ≤ x ∧ ∀ n, 8 ≤ n → Z.testbit x n = false.
Proof.
  unfold is_byte. split.
  - intros H. split; [lia|]. intros n Hn. apply Z.testbit_false; [lia|].
    rewrite Z.div_small; [done|]. split; [lia|]. assert (2 ^ 8 ≤ 2 ^ n) by (apply Z.pow_le_mono_r; lia). lia.
  - intros [H0 H]. split; [done|]. destruct (decide (x < 256)); [done|]. exfalso.
    assert (8 ≤ Z.log2 x) as Hl by (apply (Z.log2_le_mono 256); lia).
    specialize (H _ Hl). rewrite Z.bit_log2 in H by lia. done.
Qed.
Lemma bytes_ok_setBit b i : bytes_ok b → bytes_ok (setBit b i).
Proof.
  intros H. apply Forall_insert; [done|]. pose proof (proj1 (fits_byte_bits _) (bit_byte_ok b i H)) as [H0 Hb].
  pose proof (proj1 (fits_byte_bits _) (shiftl_byte i)) as [H1 Hs].
  apply fits_byte_bits. split; [by apply Z.lor_nonneg|]. intros n Hn. by rewrite Z.lor_spec, Hb, Hs.
Qed.
Lemma bytes_ok_clearBit b i : bytes_ok b → bytes_ok (clearBit b i).
Proof.
  intros H. apply Forall_insert; [done|]. pose proof (proj1 (fits_byte_bits _) (bit_byte_ok b i H)) as [H0 Hb].
  apply fits_byte_bits. split; [apply Z.ldiff_nonneg; auto|]. intros n Hn. by rewrite Z.ldiff_spec, Hb.
Qed.

(** Bitmaps of the same length with the same bits are equal. *)
Lemma bits_ext a b : bytes_ok a → bytes_ok b → length a = length b →
  (∀ i, 0 ≤ i < 8 * blen a → bitIsSet a i = bitIsSet b i) → a = b.
Proof.
  intros Ha Hb Hl H. apply list_eq_same_length with (length a); [done|done|]. intros k x y Hk Hx Hy.
  apply Z.bits_inj'. intros n Hn. destruct (decide (n < 8)) as [Hs|Hs].
  - specialize (H (8 * Z.of_nat k + n)). unfold blen in H.
    rewrite !bitIsSet_testbit in H by lia. unfold bitmap_byte in H.
    replace ((8 * Z.of_nat k + n) / 8) with (Z.of_nat k) in H by divlia.
    replace ((8 * Z.of_nat k + n) mod 8) with n in H by divlia.
    rewrite Nat2Z.id, Hx, Hy in H. apply H. apply lookup_lt_Some in Hx. lia.
  - pose proof (Forall_lookup_1 _ _ _ _ Ha Hx) as [_ H1]%fits_byte_bits.
    pose proof (Forall_lookup_1 _ _ _ _ Hb Hy) as [_ H2]%fits_byte_bits.
    rewrite H1, H2 by lia. done.
Qed.

(** ** Marking a run *)
Lemma length_mark_set b alloc start n : length (mark_set b alloc start n) = length b.
Proof.
  revert b start. induction n as [|n IH]; intros b start; [done|]. cbn [mark_set]. rewrite IH.
  destruct alloc; [apply length_setBit|apply length_clearBit].
Qed.
Lemma bytes_ok_mark_set b alloc start n : bytes_ok b → bytes_ok (mark_set b alloc start n).
Proof.
  revert b start. induction n as [|n IH]; intros b start H; [done|]. cbn [mark_set]. apply IH.
  destruct alloc; [by apply bytes_ok_setBit|by apply bytes_ok_clearBit].
Qed.
Lemma bitIsSet_mark_set b alloc start n j : 0 ≤ start → start + Z.of_nat n ≤ 8 * blen b → 0 ≤ j →
  bitIsSet (mark_set b alloc start n) j = if (start <=? j) && (j <? start + Z.of_nat n) then alloc else bitIsSet b j.
Proof.
  revert b start. induction n as [|n IH]; intros b start H1 H2 Hj; cbn [mark_set].
  - destruct (Z.leb_spec start j), (Z.ltb_spec j (start + Z.of_nat 0)); cbn; try done; lia.
  - assert (blen (if alloc then setBit b start else clearBit b start) = blen b) as Hl.
    { unfold blen. destruct alloc; [by rewrite length_setBit|by rewrite length_clearBit]. }
    rewrite IH by lia.
    assert (bitIsSet (if alloc then setBit b start else clearBit b start) j = if start =? j then alloc else bitIsSet b j) as ->.
    { destruct alloc; [rewrite bitIsSet_setBit by lia|rewrite bitIsSet_clearBit by lia]; by destruct (start =? j). }
    repeat match goal with |- context [?x <=? ?y] => destruct (Z.leb_spec x y) | |- context [?x <? ?y] => destruct (Z.ltb_spec x y)
           | |- context [?x =? ?y] => destruct (Z.eqb_spec x y) end; cbn; try done; lia.
Qed.

(** All bits of a run have one value. *)
Definition run_is (b : bytes) (v : bool) (start n : Z) : Prop := ∀ k, start ≤ k < start + n → bitIsSet b k = v.
Abbreviation run_free b s n := (run_is b false s n).

Lemma first_clash_spec b alloc start n :
  match first_clash b alloc start n with
  | None => run_is b (negb alloc) start (Z.of_nat n)
  | Some k => start ≤ k < start + Z.of_nat n ∧ bitIsSet b k = alloc
  end.
Proof.
  revert start. induction n as [|n IH]; intros start; cbn [first_clash].
  { intros k Hk. lia. }
  specialize (IH (start + 1)).
  assert ((alloc && bitIsSet b start || negb alloc && negb (bitIsSet b start)) = eqb (bitIsSet b start) alloc) as ->
    by (by destruct alloc, (bitIsSet b start)).
  destruct (eqb (bitIsSet b start) alloc) eqn:E.
  - apply eqb_prop in E. split; [lia|done].
  - assert (bitIsSet b start = negb alloc) as Hs by (by destruct (bitIsSet b start), alloc).
    destruct (first_clash b alloc (start + 1) n) as [k|].
    + destruct IH. split; [lia|done].
    + intros k Hk. destruct (decide (k = start)) as [->|]; [done|]. apply IH. lia.
Qed.
Lemma first_clash_None b alloc start n : first_clash b alloc start n = None ↔ run_is b (negb alloc) start (Z.of_nat n).
Proof.
  pose proof (first_clash_spec b alloc start n) as H. destruct (first_clash b alloc start n) as [k|]; [|by split].
  split; [done|]. intros Hr. destruct H as [Hk Hb]. rewrite (Hr k Hk) in Hb. by destruct alloc.
Qed.

(** Marking a run and marking it back is the identity. *)
Lemma mark_set_undo b alloc start n : bytes_ok b → 0 ≤ start → start + Z.of_nat n ≤ 8 * blen b →
  run_is b (negb alloc) start (Z.of_nat n) →
  mark_set (mark_set b alloc start n) (negb alloc) start n = b.
Proof.
  intros Hb H1 H2 Hr.
  assert (blen (mark_set b alloc start n) = blen b) as Hl by (unfold blen; by rewrite length_mark_set).
  apply bits_ext; [by do 2 apply bytes_ok_mark_set|done|by rewrite !length_mark_set|].
  intros i Hi. rewrite !bitIsSet_mark_set by lia.
  destruct (Z.leb_spec start i), (Z.ltb_spec i (start + Z.of_nat n)); cbn [andb]; try done.
  by rewrite (Hr i) by lia.
Qed.

(** ** Counting *)
Definition count_unset (f : Z → bool) (l : list Z) : Z := fold_left (λ n i, if f i then n else n + 1) l 0.
Lemma fold_unset_plus (f : Z → bool) (l : list Z) (n : Z) :
  fold_left (λ n i, if f i then n else n + 1) l n = n + count_unset f l.
Proof.
  unfold count_unset. revert n. induction l as [|i l IH]; intros n; cbn [fold_left]; [lia|].
  rewrite (IH (if f i then n else n + 1)), (IH (if f i then 0 else 0 + 1)). destruct (f i); lia.
Qed.
Lemma count_unset_cons f i l : count_unset f (i :: l) = (if f i then 0 else 1) + count_unset f l.
Proof. unfold count_unset at 1. cbn [fold_left]. rewrite fold_unset_plus. by destruct (f i). Qed.
Lemma count_unset_ext f g l : (∀ i, i ∈ l → f i = g i) → count_unset f l = count_unset g l.
Proof.
  induction l as [|i l IH]; intros H; [done|]. rewrite !count_unset_cons, (H i), IH; [done| |by left].
  intros j Hj. apply H. by right.
Qed.
Lemma count_unset_flip f g l i : NoDup l → i ∈ l → f i = false → g i = true → (∀ j, j ≠ i → f j = g j) →
  count_unset g l = count_unset f l - 1.
Proof.
  induction l as [|j l IH]; intros Hn Hi Hf Hg He; [by apply not_elem_of_nil in Hi|].
  apply NoDup_cons in Hn as [Hj Hn]. rewrite !count_unset_cons. apply elem_of_cons in Hi as [->|Hi].
  - rewrite Hf, Hg, (count_unset_ext g f); [lia|]. intros k Hk. symmetry. apply He. by intros ->.
  - rewrite (He j) by (by intros ->). rewrite IH by done. lia.
Qed.

Lemma countFree_bounds b : 0 ≤ countFree b ≤ 8 * blen b.
Proof.
  unfold countFree. fold (count_unset (bitIsSet b) (bit_indexes b)).
  assert (∀ f l, 0 ≤ count_unset f l ≤ blen l) as H.
  { intros f l. induction l as [|i l IH]; [done|]. rewrite count_unset_cons, blen_cons. destruct (f i); lia. }
  specialize (H (bitIsSet b) (bit_indexes b)). unfold bit_indexes, blen in *. rewrite length_seqZ in H. lia.
Qed.
Lemma countFree_flip b c i : length c = length b → 0 ≤ i < 8 * blen b → bitIsSet b i = false → bitIsSet c i = true →
  (∀ j, 0 ≤ j → j ≠ i → bitIsSet b j = bitIsSet c j) → countFree c = countFree b - 1.
Proof.
  intros Hl Hi Hb Hc He. unfold countFree, bit_indexes. replace (blen c) with (blen b) by (unfold blen; by rewrite Hl).
  set (l := seqZ 0 (8 * blen b)). fold (count_unset (bitIsSet b) l) (count_unset (bitIsSet c) l).
  rewrite (count_unset_ext (bitIsSet c) (λ j, if j =? i then true else bitIsSet b j)).
  - apply (count_unset_flip _ _ _ i); [apply NoDup_seqZ|apply elem_of_seqZ; lia|done|by rewrite Z.eqb_refl|].
    intros j Hj. by rewrite (proj2 (Z.eqb_neq j i)).
  - intros j Hj. apply elem_of_seqZ in Hj. destruct (Z.eqb_spec j i) as [->|]; [done|]. symmetry. apply He; lia.
Qed.
(** Every slot a mark changes moves the free count by one. *)
Lemma countFree_mark_set b alloc start n : 0 ≤ start → start + Z.of_nat n ≤ 8 * blen b →
  run_is b (negb alloc) start (Z.of_nat n) →
  countFree (mark_set b alloc start n) = if alloc then countFree b - Z.of_nat n else countFree b + Z.of_nat n.
Proof.
  revert b start. induction n as [|n IH]; intros b start H1 H2 Hr; cbn [mark_set].
  { destruct alloc; lia. }
  set (c := if alloc then setBit b start else clearBit b start).
  assert (length c = length b) as Hl by (subst c; destruct alloc; [apply length_setBit|apply length_clearBit]).
  assert (∀ j, 0 ≤ j → bitIsSet c j = if start =? j then alloc else bitIsSet b j) as Hc.
  { intros j Hj. subst c. destruct alloc; [rewrite bitIsSet_setBit by lia|rewrite bitIsSet_clearBit by lia]; by destruct (start =? j). }
  assert (bitIsSet b start = negb alloc) as Hs by (apply Hr; lia).
  rewrite IH; [|lia|unfold blen in *; lia|].
  - assert (countFree c = if alloc then countFree b - 1 else countFree b + 1) as ->; [|destruct alloc; lia].
    destruct alloc.
    + apply (countFree_flip _ _ start); [done|lia|done|by rewrite Hc, Z.eqb_refl by lia|].
      intros j Hj Hn. rewrite Hc, (proj2 (Z.eqb_neq start j)) by (try done; congruence). done.
    + enough (countFree b = countFree c - 1) by lia.
      apply (countFree_flip _ _ start); [done|unfold blen in *; lia|by rewrite Hc, Z.eqb_refl by lia|done|].
      intros j Hj Hn. rewrite Hc, (proj2 (Z.eqb_neq start j)) by (try done; congruence). done.
  - intros k Hk. rewrite Hc, (proj2 (Z.eqb_neq start k)) by lia. apply Hr. lia.
Qed.

(** ** Searching *)

(** [s] is the first place for [n] free bits, within [limit] bits. *)
Definition first_free (b : bytes) (limit n : Z) (ok : Z → bool) (r : option Z) : Prop :=
  match r with
  | Some s => 0 ≤ s ∧ s + n ≤ limit ∧ ok s = true ∧ run_free b s n ∧ (∀ t, 0 ≤ t < s → ok t = true → ¬ run_free b t n)
  | None => ∀ t, 0 ≤ t → t + n ≤ limit → ok t = true → ¬ run_free b t n
  end.

Lemma find_scan_spec b slots m i run start : 1 ≤ slots → 0 ≤ run < slots → 0 ≤ i - run →
  (0 < run → start = i - run) → run_free b (i - run) run → (∀ t, 0 ≤ t < i - run → ¬ run_free b t slots) →
  first_free b (i + Z.of_nat m) slots (λ _, true) (find_scan b (seqZ i (Z.of_nat m)) slots run start).
Proof.
  revert i run start. induction m as [|m IH]; intros i run start Hs Hr Hi Hst Hf Hno.
  { cbn. intros t H1 H2 _ Hrun. destruct (decide (t < i - run)) as [Ht|Ht]; [apply (Hno t); [lia|done]|]. lia. }
  rewrite seqZ_cons by lia. replace (Z.pred (Z.of_nat (S m))) with (Z.of_nat m) by lia.
  replace (Z.succ i) with (i + 1) by lia. cbn [find_scan].
  replace (i + Z.of_nat (S m)) with (i + 1 + Z.of_nat m) by lia.
  destruct (bitIsSet b i) eqn:E; cbn [negb].
  - apply IH; [lia|lia|lia|lia|intros k Hk; lia|]. intros t Ht Hrun.
    destruct (decide (t < i - run)) as [Hlt|Hge]; [apply (Hno t); [lia|done]|].
    rewrite (Hrun i) in E by lia. done.
  - assert ((if run =? 0 then i else start) = i - run) as -> by (destruct (Z.eqb_spec run 0); [lia|by apply Hst; lia]).
    assert (run_free b (i - run) (run + 1)) as Hf1.
    { intros k Hk. destruct (decide (k = i)) as [->|]; [done|]. apply Hf. lia. }
    destruct (Z.leb_spec slots (run + 1)).
    + replace slots with (run + 1) in * by lia. split_and!; [lia|lia|done|done|]. intros t Ht _. by apply Hno.
    + apply IH; [lia|lia|lia| |by replace (i + 1 - (run + 1)) with (i - run) by lia|].
      * intros _. lia.
      * intros t Ht. apply Hno. lia.
Qed.
(** The first fit is the lowest run of free slots that is long enough. *)
Lemma findContiguous_spec b slots : 1 ≤ slots → first_free b (8 * blen b) slots (λ _, true) (findContiguous b slots).
Proof.
  intros H. unfold findContiguous, bit_indexes. pose proof (blen_nonneg b).
  pose proof (find_scan_spec b slots (Z.to_nat (8 * blen b)) 0 0 0 H ltac:(lia) ltac:(lia)) as HF.
  rewrite Z2Nat.id in HF by lia. apply HF; [lia|intros k Hk; lia|intros t Ht; lia].
Qed.

Lemma first_set_spec b start n :
  match first_set b start n with
  | Some k => start ≤ k < start + Z.of_nat n ∧ bitIsSet b k = true
  | None => run_free b start (Z.of_nat n)
  end.
Proof.
  revert start. induction n as [|n IH]; intros start; cbn [first_set]; [intros k Hk; lia|].
  specialize (IH (start + 1)). destruct (bitIsSet b start) eqn:E; [split; [lia|done]|].
  destruct (first_set b (start + 1) n).
  - destruct IH. split; [lia|done].
  - intros k Hk. destruct (decide (k = start)) as [->|]; [done|]. apply IH. lia.
Qed.

(** The same among the slots at aligned addresses. *)
Lemma aligned_scan_spec fuel b i slots align slot : 1 ≤ slots → 0 ≤ slot → SlotsPerAMap - slot ≤ Z.of_nat fuel →
  (∀ t, 0 ≤ t < slot → slotOffset i t mod align = 0 → ¬ run_free b t slots) →
  first_free b SlotsPerAMap slots (λ t, slotOffset i t mod align =? 0) (aligned_scan fuel b i slots align slot).
Proof.
  revert slot. induction fuel as [|fuel IH]; intros slot Hs H0 Hf Hno; cbn [aligned_scan].
  { intros t H1 H2 Ha%Z.eqb_eq. destruct (decide (t < slot)); [apply Hno; [lia|done]|lia]. }
  destruct (Z.leb_spec (slot + slots) SlotsPerAMap) as [Hl|Hl].
  2:{ intros t H1 H2 Ha%Z.eqb_eq. destruct (decide (t < slot)); [apply Hno; [lia|done]|lia]. }
  destruct (Z.eqb_spec (slotOffset i slot mod align) 0) as [Ha|Ha]; cbn [negb].
  - pose proof (first_set_spec b slot (Z.to_nat slots)) as HS. rewrite Z2Nat.id in HS by lia.
    destruct (first_set b slot (Z.to_nat slots)) as [k|].
    + destruct HS as [Hk Hb]. apply IH; [lia|lia|lia|]. intros t Ht Hat Hrun.
      destruct (decide (t < slot)); [apply (Hno t); [lia|done|done]|]. rewrite (Hrun k) in Hb by lia. done.
    + split_and!; [lia|lia|by apply Z.eqb_eq|done|]. intros t Ht Hat%Z.eqb_eq. by apply Hno.
  - apply IH; [lia|lia|lia|]. intros t Ht Hat. destruct (decide (t = slot)) as [->|]; [done|]. apply Hno; [lia|done].
Qed.

(** [longestFree] is the length of a longest run of free slots. *)
Lemma longest_scan_spec b m i max cur : 0 ≤ cur ≤ max → cur ≤ i →
  run_free b (i - cur) cur → (∃ s, 0 ≤ s ∧ s + max ≤ i ∧ run_free b s max) →
  (∀ t n, 0 ≤ t → 0 ≤ n → t + n ≤ i → run_free b t n → n ≤ max ∧ (t + n = i → n ≤ cur)) →
  let r := longest_scan b (seqZ i (Z.of_nat m)) max cur in
  (∃ s, 0 ≤ s ∧ s + r ≤ i + Z.of_nat m ∧ run_free b s r) ∧
  (∀ t n, 0 ≤ t → 0 ≤ n → t + n ≤ i + Z.of_nat m → run_free b t n → n ≤ r).
Proof.
  revert i max cur. induction m as [|m IH]; intros i max cur Hc Hi Hrun Hex Hall; cbn zeta.
  { cbn. rewrite Z.add_0_r. split; [done|]. intros. by apply (Hall t n). }
  rewrite seqZ_cons by lia. replace (Z.pred (Z.of_nat (S m))) with (Z.of_nat m) by lia.
  replace (Z.succ i) with (i + 1) by lia. cbn [longest_scan].
  replace (i + Z.of_nat (S m)) with (i + 1 + Z.of_nat m) by lia.
  destruct (bitIsSet b i) eqn:E; cbn [negb]; apply IH.
  - lia.
  - lia.
  - intros k Hk. lia.
  - destruct Hex as (s & H1 & H2 & H3). exists s. split_and!; [done|lia|done].
  - intros t n H1 H2 H3 H4. destruct (decide (t + n ≤ i)) as [Hle|Hgt].
    + pose proof (Hall t n H1 H2 Hle H4). lia.
    + destruct (decide (n = 0)) as [->|]; [lia|]. rewrite (H4 i) in E by lia. done.
  - destruct (Z.ltb_spec max (cur + 1)); lia.
  - lia.
  - replace (i + 1 - (cur + 1)) with (i - cur) by lia. intros k Hk. destruct (decide (k = i)) as [->|]; [done|]. apply Hrun. lia.
  - destruct (Z.ltb_spec max (cur + 1)).
    + exists (i - cur). split_and!; [lia|lia|]. intros k Hk. destruct (decide (k = i)) as [->|]; [done|]. apply Hrun. lia.
    + destruct Hex as (s & H1 & H2 & H3). exists s. split_and!; [done|lia|done].
  - intros t n H1 H2 H3 H4. destruct (decide (t + n ≤ i)) as [Hle|Hgt].
    + pose proof (Hall t n H1 H2 Hle H4). destruct (Z.ltb_spec max (cur + 1)); lia.
    + destruct (decide (n = 0)) as [->|]; [destruct (Z.ltb_spec max (cur + 1)); lia|].
      assert (run_free b t (n - 1)) as H5 by (intros k Hk; apply H4; lia).
      pose proof (Hall t (n - 1) H1 ltac:(lia) ltac:(lia) H5) as [H6 H7]. specialize (H7 ltac:(lia)).
      destruct (Z.ltb_spec max (cur + 1)); lia.
Qed.
Lemma longestFree_spec b :
  (∃ s, 0 ≤ s ∧ s + longestFree b ≤ 8 * blen b ∧ run_free b s (longestFree b)) ∧
  (∀ t n, 0 ≤ t → 0 ≤ n → t + n ≤ 8 * blen b → run_free b t n → n ≤ longestFree b).
Proof.
  unfold longestFree, bit_indexes. pose proof (blen_nonneg b).
  pose proof (longest_scan_spec b (Z.to_nat (8 * blen b)) 0 0 0 ltac:(lia) ltac:(lia)) as HF.
  rewrite Z2Nat.id in HF by lia. apply HF.
  - intros k Hk. lia.
  - exists 0. split_and!; [lia|lia|]. intros k Hk. lia.
  - intros t n H1 H2 H3 _. lia.
Qed.
