(* ===== verification/V2Store.v ===== *)
(** * Writer v2: the allocation map and the work spool ([src/writer/v2/store.go])

    The store keeps one bitmap per region of the file, the counters of the
    header, the bytes of the committed source, the bytes of the work spool and
    the undo journal of the running transaction.  The spool and the source are
    files that do not fail; which handle owns which file is not modelled.  A
    slot is named by its number: slot [k] is bit [k mod 3968] of region
    [k / 3968], at address [0x4400 + 64 * k]. *)
From S2P Require Import Prelude Ids Crypt State Header Database V2Base V2Disk V2Entries V2Header V2Bitmap.

(** ** The state *)
Record storeState := mkStoreState {
  ss_regions : list bytes; ss_lastAllocAMap : Z; ss_valid : Z; ss_unique : Z; ss_bidNextP : Z; ss_bidNextB : Z;
  ss_dlistBID : Z; ss_nbtRoot : BREF; ss_bbtRoot : BREF; ss_nids : list Z }.
Record undoLog := mkUndoLog { u_eof : Z; u_extents : list (Z * bytes) }.
Record Store := mkStore {
  st_state : storeState; st_io : option bytes; st_work : option bytes; st_undo : option undoLog }.

Definition set_regions (s : storeState) (r : list bytes) : storeState :=
  mkStoreState r (ss_lastAllocAMap s) (ss_valid s) (ss_unique s) (ss_bidNextP s) (ss_bidNextB s) (ss_dlistBID s)
    (ss_nbtRoot s) (ss_bbtRoot s) (ss_nids s).
Definition set_lastAlloc (s : storeState) (i : Z) : storeState :=
  mkStoreState (ss_regions s) i (ss_valid s) (ss_unique s) (ss_bidNextP s) (ss_bidNextB s) (ss_dlistBID s)
    (ss_nbtRoot s) (ss_bbtRoot s) (ss_nids s).
Definition set_valid (s : storeState) (v : Z) : storeState :=
  mkStoreState (ss_regions s) (ss_lastAllocAMap s) v (ss_unique s) (ss_bidNextP s) (ss_bidNextB s) (ss_dlistBID s)
    (ss_nbtRoot s) (ss_bbtRoot s) (ss_nids s).
Definition set_unique (s : storeState) (u : Z) : storeState :=
  mkStoreState (ss_regions s) (ss_lastAllocAMap s) (ss_valid s) u (ss_bidNextP s) (ss_bidNextB s) (ss_dlistBID s)
    (ss_nbtRoot s) (ss_bbtRoot s) (ss_nids s).
Definition set_bidNextP (s : storeState) (b : Z) : storeState :=
  mkStoreState (ss_regions s) (ss_lastAllocAMap s) (ss_valid s) (ss_unique s) b (ss_bidNextB s) (ss_dlistBID s)
    (ss_nbtRoot s) (ss_bbtRoot s) (ss_nids s).
Definition set_bidNextB (s : storeState) (b : Z) : storeState :=
  mkStoreState (ss_regions s) (ss_lastAllocAMap s) (ss_valid s) (ss_unique s) (ss_bidNextP s) b (ss_dlistBID s)
    (ss_nbtRoot s) (ss_bbtRoot s) (ss_nids s).
Definition set_treeRoots (s : storeState) (nbt bbt : BREF) : storeState :=
  mkStoreState (ss_regions s) (ss_lastAllocAMap s) (ss_valid s) (ss_unique s) (ss_bidNextP s) (ss_bidNextB s) (ss_dlistBID s)
    nbt bbt (ss_nids s).
Definition set_dlistBID (s : storeState) (b : Z) : storeState :=
  mkStoreState (ss_regions s) (ss_lastAllocAMap s) (ss_valid s) (ss_unique s) (ss_bidNextP s) (ss_bidNextB s) b
    (ss_nbtRoot s) (ss_bbtRoot s) (ss_nids s).
Definition set_nids (s : storeState) (n : list Z) : storeState :=
  mkStoreState (ss_regions s) (ss_lastAllocAMap s) (ss_valid s) (ss_unique s) (ss_bidNextP s) (ss_bidNextB s) (ss_dlistBID s)
    (ss_nbtRoot s) (ss_bbtRoot s) n.
Definition with_state (s : Store) (t : storeState) : Store := mkStore t (st_io s) (st_work s) (st_undo s).
Definition with_work (s : Store) (w : option bytes) : Store := mkStore (st_state s) (st_io s) w (st_undo s).
Definition with_undo (s : Store) (u : option undoLog) : Store := mkStore (st_state s) (st_io s) (st_work s) u.
Definition with_io (s : Store) (i : option bytes) : Store := mkStore (st_state s) i (st_work s) (st_undo s).
(** The fields the operations touch most. *)
Definition regions (s : Store) : list bytes := ss_regions (st_state s).
Definition with_regions (s : Store) (r : list bytes) : Store := with_state s (set_regions (st_state s) r).
Definition upd_state (f : storeState → storeState) : ST Store unit := modify (λ s, with_state s (f (st_state s))).

Definition RegionCount (s : Store) : Z := blen (regions s).
Definition FileEOF (s : Store) : Z :=
  if RegionCount s =? 0 then FirstAMapPageOffset else AMapRegionEnd (RegionCount s - 1).
Definition AMapLast (s : Store) : Z := if RegionCount s =? 0 then 0 else AMapOffset (RegionCount s - 1).
Definition AMapFree (s : Store) : Z := u64 (u64 (fold_left (λ n b, n + countFree b) (regions s) 0) * BytesPerSlot).
(** [reader]: the spool before the committed source. *)
Definition store_reader (s : Store) : option bytes := match st_work s with Some w => Some w | None => st_io s end.

(** The bitmap of the region that covers [ib], when there is one. *)
Definition region_of (s : Store) (ib : Z) : option (Z * bytes) :=
  match AMapIndexForOffset ib with
  | None => None
  | Some i => match regions s !! Z.to_nat i with Some b => Some (i, b) | None => None end
  end.

(** ** The undo journal *)
Fixpoint skip_scan (es : list (Z * bytes)) (pos next : Z) : bool * Z :=
  match es with
  | [] => (false, next)
  | (ib, orig) :: es =>
    let eEnd := u64 (ib + blen orig) in
    if (ib <=? pos) && (pos <? eEnd) then (true, eEnd)
    else skip_scan es pos (if (pos <? ib) && (ib <? next) then ib else next)
  end.
Definition skipCovered (u : undoLog) (pos stop : Z) : bool * Z := skip_scan (u_extents u) pos stop.

(** The walk over the slots of a range; [n] bounds the slots left. *)
Fixpoint range_free (s : Store) (n : nat) (off stop : Z) : bool :=
  match n with
  | O => stop <=? off
  | S n =>
    if stop <=? off then true else
    match region_of s off with
    | None => false
    | Some (i, b) =>
      let slot := off - off mod BytesPerSlot in
      if bitIsSet b (slotIndex slot i) then false else
      let next := u64 (slot + BytesPerSlot) in
      if next <=? off then false else range_free s n next stop
    end
  end.
Definition undoRangeFree (s : Store) (ib size : Z) : bool :=
  if size =? 0 then true else range_free s (S (Z.to_nat (size / BytesPerSlot + 1))) ib (u64 (ib + size)).

Definition readUndoBytes (s : Store) (ib size : Z) : result bytes :=
  if size <=? 0 then mret [] else
  match store_reader s with
  | None => if undoRangeFree s ib size then mret (zeros size) else invariant "2.2.2.8.1" "ib" "missing payload at 0x%x" [ib]
  | Some f =>
    let got := sub f ib size in
    if blen got =? size then mret got
    else if undoRangeFree s (u64 (ib + blen got)) (size - blen got) then mret (got ++ zeros (size - blen got))
    else Err (EFmt "EOF" [])
  end.

(** One round of the capture loop per fuel: the position advances each time.
    The extents captured before a failure stay in the journal. *)
Fixpoint note_loop (n : nat) (s : Store) (u : undoLog) (pos stop : Z) : undoLog * result unit :=
  match n with
  | O => (u, if pos <? stop then Panic else Ok tt)
  | S n =>
    if stop <=? pos then (u, Ok tt) else
    let '(covered, next) := skipCovered u pos stop in
    if covered then note_loop n s u next stop else
    match readUndoBytes s pos (next - pos) with
    | Ok orig => note_loop n s (mkUndoLog (u_eof u) (u_extents u ++ [(pos, orig)])) next stop
    | Err _ => (u, ioErr "snapshot" "undo capture 0x%x: %v" [pos])
    | Panic => (u, Panic)
    end
  end.
Definition noteUndo (off n : Z) : ST Store unit := λ s,
  match st_undo s with
  | None => (s, Ok tt)
  | Some u =>
    if n <=? 0 then (s, Ok tt) else
    let stop := u64 (off + n) in
    if u_eof u <=? off then (s, Ok tt) else
    let stop := if u_eof u <? stop then u_eof u else stop in
    let '(u, r) := note_loop (Z.to_nat (stop - off)) s u off stop in
    (with_undo s (Some u), r)
  end.
Definition beginUndo (s : Store) : Store := with_undo s (Some (mkUndoLog (FileEOF s) [])).
Definition endUndo (s : Store) : Store := with_undo s None.
Definition restoreUndo (s : Store) : Store :=
  match st_undo s, st_work s with
  | Some u, Some w => with_work s (Some (fold_left (λ w '(ib, orig), write_at ib orig w) (u_extents u) w))
  | _, _ => s
  end.

(** ** The spool *)
Definition ensureSpool (s : Store) : Store :=
  match st_work s with
  | Some _ => s
  | None => with_work s (Some (match st_io s with Some src => sub src 0 (FileEOF s) | None => [] end))
  end.
Definition writeExtent (ib : Z) (raw : bytes) : ST Store unit :=
  if blen raw =? 0 then mret tt else
  do s <- get;
  let stop := u64 (ib + blen raw) in
  if FileEOF s <? stop
  then lift (invariant "2.2.2.7.2" "ib" "write 0x%x+%d exceeds ibFileEof 0x%x" [ib; blen raw; FileEOF s]) else
  modify ensureSpool ;;
  noteUndo ib (blen raw) ;;
  modify (λ s, with_work s (Some (write_at ib raw (default [] (st_work s))))).
Definition readExtent (s : Store) (ib size : Z) : result bytes :=
  if size =? 0 then mret [] else
  let try (f : option bytes) := match f with Some f => let got := sub f ib size in if blen got =? size then Some got else None | None => None end in
  match try (st_work s) with
  | Some raw => mret raw
  | None =>
    match try (st_io s) with
    | Some raw => mret raw
    | None => invariant "2.2.2.8.1" "ib" "missing payload at 0x%x" [ib]
    end
  end.
(** The spool is cleared where slots change hands. *)
Definition clearBacking (ib size : Z) : ST Store unit :=
  if size =? 0 then mret tt else
  do s <- get;
  match st_work s with
  | None => mret tt
  | Some _ =>
    noteUndo ib size ;;
    modify (λ s, match st_work s with Some w => with_work s (Some (write_at ib (zeros size) w)) | None => s end)
  end.

(** ** Marking slots *)
Definition mark (ib size : Z) (alloc : bool) : ST Store unit :=
  do s <- get;
  match AMapIndexForOffset ib with
  | None => lift (invariant "2.2.2.7.2" "ib" "offset 0x%x is not AMap-mapped" [ib])
  | Some idx =>
  match regions s !! Z.to_nat idx with
  | None => lift (invariant "2.2.2.7.2" "ib" "offset 0x%x has no AMap page" [ib])
  | Some b =>
  if AMapRegionEnd idx <? u64 (ib + size)
  then lift (invariant "2.2.2.7.2" "size" "range 0x%x+%d crosses AMap boundary 0x%x" [ib; size; AMapRegionEnd idx]) else
  if negb (ib mod BytesPerSlot =? 0) || negb (size mod BytesPerSlot =? 0)
  then lift (invalidArg "size" "range 0x%x+%d is not slot-aligned" [ib; size]) else
  let start := slotIndex ib idx in
  let n := Z.to_nat (size / BytesPerSlot) in
  match first_clash b alloc start n with
  | Some k =>
    lift (invariant "2.2.2.7.2" "slot" (if alloc then "slot at 0x%x already allocated" else "slot at 0x%x already free")
            [slotOffset idx k])
  | None =>
    clearBacking ib size ;;
    modify (λ s, with_regions s (<[Z.to_nat idx := mark_set b alloc start n]> (regions s)))
  end end end.

(** A region that cannot hold its map pages is dropped again. *)
Fixpoint grow_pages (ps : list MapPage) : ST Store unit :=
  match ps with
  | [] => mret tt
  | p :: ps => λ s,
    match mark (MP_Offset p) PageSize true s with
    | (s, Ok _) => grow_pages ps s
    | (s, Err e) => (with_regions s (removelast (regions s)), Err e)
    | (s, Panic) => (s, Panic)
    end
  end.
Definition Grow : ST Store unit :=
  do s <- get;
  let idx := RegionCount s in
  modify (λ s, with_regions s (regions s ++ [zeros AMapBitmapBytes])) ;;
  grow_pages (RegionMapPages idx).

(** [takePageBID] and [mustGrow] turn an error into a panic. *)
Definition or_panic {S A} (m : ST S A) : ST S A := λ s, match m s with (s, Err _) => (s, Panic) | r => r end.
Definition take_pageBID : ST Store Z := λ s,
  match takeMonotonic (ss_bidNextP (st_state s)) PageBIDIncrement with
  | Ok (bid, next) => (with_state s (set_bidNextP (st_state s) next), Ok bid)
  | Err e => (s, Err e)
  | Panic => (s, Panic)
  end.
Definition takePageBID : ST Store Z := or_panic take_pageBID.
Definition mustGrow : ST Store unit := or_panic Grow.
Definition takeBlockBID : ST Store Z := λ s,
  match takeMonotonic (ss_bidNextB (st_state s)) BlockBIDIncrement with
  | Ok (bid, next) => (with_state s (set_bidNextB (st_state s) next), Ok bid)
  | Err e => (s, Err e)
  | Panic => (s, Panic)
  end.
Definition empty_store : Store :=
  mkStore (mkStoreState [] 0 AMapValid2 1 FirstAllocBID FirstAllocBID 0 (mkBREF 0 0) (mkBREF 0 0) DefaultRgNID) None None None.
Definition NewStore : Store * result unit :=
  (do bid <- takePageBID;
   upd_state (λ t, set_dlistBID t bid) ;;
   mustGrow) empty_store.

Definition store_HeaderDraft (s : Store) : HeaderDraft :=
  let t := st_state s in
  mkHeaderDraft (HD_MagicClient DefaultHeaderDraft) (HD_WVer DefaultHeaderDraft) (HD_WVerClient DefaultHeaderDraft)
    (ss_bidNextP t) (if ss_unique t =? 0 then 1 else ss_unique t) (ss_nids t)
    (mkRootDraft (FileEOF s) (AMapLast s) (AMapFree s) 0 (BREF_BID (ss_nbtRoot t)) (BREF_IB (ss_nbtRoot t))
       (BREF_BID (ss_bbtRoot t)) (BREF_IB (ss_bbtRoot t)) (ss_valid t))
    (HD_Crypt DefaultHeaderDraft) (ss_bidNextB t).
Definition noteBlockBID (bid : Z) : ST Store unit :=
  if (bid =? 0) || BIDHasReserved bid then lift (invalidArg "bid" "invalid block BID 0x%x (MS-PST %s)" [bid]) else
  let next := u64 (Z.ldiff bid BIDInternal + BlockBIDIncrement) in
  upd_state (λ t, if ss_bidNextB t <? next then set_bidNextB t next else t).
Definition SetTreeRoots (nbt bbt : BREF) : ST Store unit := upd_state (λ t, set_treeRoots t nbt bbt).
Definition SetAMapValid (v : Z) : ST Store unit :=
  if (v =? AMapValid2) || (v =? AMapInvalid) then upd_state (λ t, set_valid t v)
  else if v =? AMapValid1 then lift (invalidArg "fAMapValid" "VALID_AMAP1 (0x01) is deprecated (MS-PST %s)" [])
  else lift (invalidArg "fAMapValid" "unknown 0x%02x (MS-PST %s)" [v]).

(** ** Allocation *)
(** The first region that has a place, and its address. *)
Fixpoint scan_regions (find : Z → bytes → option Z) (i : Z) (rs : list bytes) : option Z :=
  match rs with
  | [] => None
  | b :: rs => match find i b with Some slot => Some (slotOffset i slot) | None => scan_regions find (i + 1) rs end
  end.
Definition firstFit (slots : Z) (s : Store) : option Z := scan_regions (λ _ b, findContiguous b slots) 0 (regions s).
Definition firstFitAligned (slots align : Z) (s : Store) : option Z :=
  scan_regions (λ i b, aligned_scan (Z.to_nat SlotsPerAMap) b i slots align 0) 0 (regions s).

(** The common end of [Allocate] and [AllocatePage]: take the first fit, after
    one more region when there is none. *)
Definition take_fit (find : Store → option Z) (size : Z) (e : error) : ST Store Z :=
  do s <- get;
  do ib <- match find s with
           | Some ib => mret ib
           | None => Grow ;; do s <- get; match find s with Some ib => mret ib | None => fail e end
           end;
  mark ib size true ;;
  upd_state (λ t, set_lastAlloc t (u32 (default 0 (AMapIndexForOffset ib)))) ;;
  mret ib.
Definition Allocate (size : Z) : ST Store Z :=
  if MaxAllocBytes <? size then lift (limitErr "size" "allocation %d exceeds MS-PST max %d" [size; MaxAllocBytes]) else
  modify ensureSpool ;;
  do slots <- lift (slotsForSize size);
  take_fit (firstFit slots) size
    (v2error CodeLimit EmptyString "size" "no contiguous %d-byte run in an AMap region (MS-PST %s)" [size]).
Definition AllocatePage : ST Store Z :=
  take_fit (firstFitAligned (PageSize / BytesPerSlot) PageSize) PageSize
    (v2error CodeLimit EmptyString "size" "no 512-aligned page slot in an AMap region (MS-PST %s)" []).
Definition Reserve (ib size : Z) : ST Store unit :=
  if MaxAllocBytes <? size then lift (limitErr "size" "reserve %d exceeds MS-PST max %d" [size; MaxAllocBytes]) else
  if negb (ib mod BytesPerSlot =? 0) then lift (invalidArg "ib" "offset 0x%x is not %d-byte aligned" [ib; BytesPerSlot]) else
  do _slots <- lift (slotsForSize size);
  do s <- get;
  match AMapIndexForOffset ib with
  | None => lift (invalidArg "ib" "offset 0x%x is before first AMap (MS-PST %s)" [ib])
  | Some idx =>
    if RegionCount s <=? idx then lift (invalidArg "ib" "offset 0x%x is beyond ibAMapLast" [ib]) else
    if AMapRegionEnd idx <? u64 (ib + size)
    then lift (invalidArg "size" "reserve 0x%x+%d crosses AMap region (MS-PST %s)" [ib; size])
    else mark ib size true
  end.
Definition metadataOffsets (s : Store) : list Z :=
  concat (map (λ i, map MP_Offset (RegionMapPages i)) (seqZ 0 (RegionCount s))).
Definition coversMetadata (s : Store) (ib size : Z) : bool :=
  let stop := u64 (ib + size) in
  existsb (λ p, (p <? stop) && (ib <? u64 (p + PageSize))) (metadataOffsets s).
Definition Free (ib size : Z) : ST Store unit :=
  if negb (ib mod BytesPerSlot =? 0) then lift (invalidArg "ib" "offset 0x%x is not %d-byte aligned" [ib; BytesPerSlot]) else
  do _slots <- lift (slotsForSize size);
  do s <- get;
  if coversMetadata s ib size then lift (invalidArg "ib" "cannot free metadata page at 0x%x (MS-PST %s)" [ib]) else
  modify ensureSpool ;;
  mark ib size false.

(** ** Queries *)
Definition allocatedRange (s : Store) (ib size : Z) : bool :=
  match region_of s ib with
  | None => false
  | Some (idx, b) =>
    if (AMapRegionEnd idx <? u64 (ib + size)) || negb (ib mod BytesPerSlot =? 0) || negb (size mod BytesPerSlot =? 0)
    then false
    else match first_clash b false (slotIndex ib idx) (Z.to_nat (size / BytesPerSlot)) with Some _ => false | None => true end
  end.
(** The walk over the slots of a range, [n] bounding the slots left. *)
Fixpoint any_set (b : bytes) (idx off stop : Z) (n : nat) : bool :=
  match n with
  | O => false
  | S n => if off <? stop then bitIsSet b (slotIndex off idx) || any_set b idx (off + BytesPerSlot) stop n else false
  end.
Definition anyAllocated (s : Store) (ib size : Z) : bool :=
  match region_of s ib with
  | None => false
  | Some (idx, b) =>
    let stop := u64 (ib + size) in
    let stop := if AMapRegionEnd idx <? stop then AMapRegionEnd idx else stop in
    let ib := if ib <? AMapRegionStart idx then AMapRegionStart idx else ib in
    any_set b idx ib stop (Z.to_nat (size / BytesPerSlot + 1))
  end.
Definition BitmapEqual (s o : Store) : bool := bool_decide (regions s = regions o).

(** ** Shrinking *)
Definition page_slots (p : MapPage) : list Z := map (λ i, MP_Offset p + i * BytesPerSlot) (seqZ 0 (PageSize / BytesPerSlot)).
Definition regionHasUserAlloc (s : Store) (idx : Z) : bool :=
  match regions s !! Z.to_nat idx with
  | None => false
  | Some b =>
    let meta := concat (map page_slots (RegionMapPages idx)) in
    existsb (λ slot, bitIsSet b slot && negb (bool_decide (slotOffset idx slot ∈ meta))) (seqZ 0 SlotsPerAMap)
  end.
Fixpoint shrink_regions (n : nat) (minRegions : Z) (s : Store) : Store :=
  match n with
  | O => s
  | S n =>
    if minRegions <? RegionCount s then
      if regionHasUserAlloc s (RegionCount s - 1) then s
      else shrink_regions n minRegions (with_regions s (removelast (regions s)))
    else s
  end.
Definition truncate_to (n : Z) (f : bytes) : bytes := sub (f ++ zeros (n - blen f)) 0 n.
Definition ShrinkTrailingEmpty (minRegions : Z) (s : Store) : Store :=
  let minRegions := if minRegions <? 1 then 1 else minRegions in
  let s := shrink_regions (length (regions s)) minRegions s in
  let s := if (0 <? u32 (RegionCount s)) && (u32 (RegionCount s) <=? ss_lastAllocAMap (st_state s))
           then with_state s (set_lastAlloc (st_state s) (u32 (RegionCount s - 1))) else s in
  match st_work s with
  | Some w => with_work s (Some (truncate_to (FileEOF s) w))
  | None => s
  end.
