(* ===== verification/V2Journal.v ===== *)
(** * Writer v2: the undo journal of the store ([src/writer/v2/store.go])

    The journal keeps the bytes a transaction is about to change, once each.
    Every call of the store that writes to the spool notes its range first, so
    the relation [journaled] is kept by all of them, and replaying the journal
    gives the spool its old contents, read with zeros past its end. *)
From S2P Require Import Prelude Ids Crypt State Header Database V2Base V2Bitmap V2Store.

(** ** Files read with zeros past their end *)
Definition byte_at (f : bytes) (p : Z) : Z := default 0 (f !! Z.to_nat p).

Lemma byte_at_app f g p : 0 ≤ p → byte_at (f ++ g) p = if p <? blen f then byte_at f p else byte_at g (p - blen f).
Proof.
  intros Hp. unfold byte_at, blen. destruct (Z.ltb_spec p (Z.of_nat (length f))).
  - by rewrite lookup_app_l by lia.
  - rewrite lookup_app_r by lia. do 2 f_equal. lia.
Qed.
Lemma byte_at_zeros n p : byte_at (zeros n) p = 0.
Proof.
  unfold byte_at, zeros. destruct (replicate (Z.to_nat n) 0 !! Z.to_nat p) as [x|] eqn:E; [|done].
  by apply lookup_replicate in E as [-> _].
Qed.
Lemma byte_at_beyond f p : blen f ≤ p → byte_at f p = 0.
Proof. intros. unfold byte_at, blen in *. by rewrite lookup_ge_None_2 by lia. Qed.
Lemma byte_at_take f n p : 0 ≤ p → byte_at (take n f) p = if p <? Z.of_nat n then byte_at f p else 0.
Proof.
  intros. unfold byte_at. destruct (Z.ltb_spec p (Z.of_nat n)); [by rewrite lookup_take_lt by lia|].
  by rewrite lookup_take_ge by lia.
Qed.
Lemma byte_at_drop f n p : 0 ≤ p → byte_at (drop n f) p = byte_at f (Z.of_nat n + p).
Proof. intros. unfold byte_at. rewrite lookup_drop. do 2 f_equal. lia. Qed.
Lemma byte_at_sub f a n p : 0 ≤ a → 0 ≤ p → byte_at (sub f a n) p = if p <? n then byte_at f (a + p) else 0.
Proof.
  intros. unfold sub. rewrite byte_at_take by done.
  destruct (Z.ltb_spec p (Z.of_nat (Z.to_nat n))), (Z.ltb_spec p n); [|lia..|done].
  rewrite byte_at_drop by done. f_equal. lia.
Qed.
Lemma byte_at_ext f g : blen f = blen g → (∀ p, 0 ≤ p < blen f → byte_at f p = byte_at g p) → f = g.
Proof.
  intros Hl H. apply list_eq_same_length with (length f); [unfold blen in Hl; lia|done|]. intros k x y Hk Hx Hy.
  specialize (H (Z.of_nat k)). unfold byte_at, blen in *. rewrite Nat2Z.id, Hx, Hy in H. apply H. lia.
Qed.
Lemma byte_at_write off raw f p : 0 ≤ off → 0 ≤ p →
  byte_at (write_at off raw f) p = if (off <=? p) && (p <? off + blen raw) then byte_at raw (p - off) else byte_at f p.
Proof.
  intros Ho Hp. unfold write_at. set (g := f ++ zeros _). pose proof (blen_nonneg raw). pose proof (blen_nonneg f).
  assert (blen g = Z.max (blen f) (off + blen raw)) as Hg by (subst g; rewrite blen_app, blen_zeros; lia).
  assert (byte_at g p = byte_at f p) as Hgp.
  { subst g. rewrite byte_at_app by done. destruct (Z.ltb_spec p (blen f)); [done|]. by rewrite byte_at_zeros, byte_at_beyond. }
  rewrite splice_in by lia. unfold blen in *. rewrite byte_at_app, byte_at_take by done. unfold blen. rewrite length_take.
  destruct (Z.leb_spec off p), (Z.ltb_spec p (off + Z.of_nat (length raw))); cbn [andb].
  - destruct (Z.ltb_spec p (Z.of_nat (Z.to_nat off `min` length g))); [lia|]. rewrite byte_at_app by lia. unfold blen.
    destruct (Z.ltb_spec (p - Z.of_nat (Z.to_nat off `min` length g)) (Z.of_nat (length raw))); [f_equal; lia|lia].
  - destruct (Z.ltb_spec p (Z.of_nat (Z.to_nat off `min` length g))); [lia|]. rewrite byte_at_app by lia. unfold blen.
    destruct (Z.ltb_spec (p - Z.of_nat (Z.to_nat off `min` length g)) (Z.of_nat (length raw))); [lia|].
    rewrite byte_at_drop by lia. rewrite <- Hgp. f_equal. lia.
  - destruct (Z.ltb_spec p (Z.of_nat (Z.to_nat off `min` length g))); [|lia].
    destruct (Z.ltb_spec p (Z.of_nat (Z.to_nat off))); [done|lia].
  - lia.
Qed.
Lemma blen_truncate n f : 0 ≤ n → blen (truncate_to n f) = n.
Proof.
  intros. unfold truncate_to. pose proof (blen_nonneg f). apply blen_sub; [lia|lia|]. rewrite blen_app, blen_zeros. lia.
Qed.
Lemma byte_at_truncate n f p : 0 ≤ p < n → byte_at (truncate_to n f) p = byte_at f p.
Proof.
  intros. unfold truncate_to. rewrite byte_at_sub by lia. destruct (Z.ltb_spec p n); [|lia].
  rewrite Z.add_0_l, byte_at_app by lia. destruct (Z.ltb_spec p (blen f)); [done|].
  by rewrite byte_at_zeros, byte_at_beyond by lia.
Qed.
(** Two files cut or padded to one size. *)
Lemma truncate_eq n f g : 0 ≤ n → (∀ p, 0 ≤ p < n → byte_at f p = byte_at g p) → truncate_to n f = truncate_to n g.
Proof.
  intros Hn H. apply byte_at_ext; rewrite ?blen_truncate by done; [done|].
  intros p Hp. rewrite !byte_at_truncate by done. by apply H.
Qed.

(** ** The journal *)
Definition covers (es : list (Z * bytes)) (p : Z) : Prop := ∃ ib o, (ib, o) ∈ es ∧ ib ≤ p < ib + blen o.
(** The extents lie below [eof] and hold the bytes [orig]; a byte that no extent
    holds is still as it was in the spool [w]. *)
Definition journal_ok (orig : Z → Z) (eof : Z) (u : undoLog) (w : bytes) : Prop :=
  u_eof u = eof ∧
  (∀ ib o, (ib, o) ∈ u_extents u → 0 ≤ ib ∧ ib + blen o ≤ eof ∧ ∀ p, ib ≤ p < ib + blen o → byte_at o (p - ib) = orig p) ∧
  (∀ p, 0 ≤ p < eof → ¬ covers (u_extents u) p → byte_at w p = orig p).
(** The state of the store while a journal runs. *)
Definition journal (orig : Z → Z) (eof : Z) (s : Store) : Prop :=
  ∃ u w, st_undo s = Some u ∧ st_work s = Some w ∧ fits 63 eof ∧ journal_ok orig eof u w.
Definition journaled (s s' : Store) : Prop := ∀ orig eof, journal orig eof s → journal orig eof s'.
#[export] Instance journaled_preorder : PreOrder journaled.
Proof. split; [by intros s orig eof|]. intros s1 s2 s3 H1 H2 orig eof H. by apply H2, H1. Qed.

(** What the scan of the journal finds at a position. *)
Lemma skip_scan_spec eof es pos next : fits 64 eof →
  (∀ ib o, (ib, o) ∈ es → 0 ≤ ib ∧ ib + blen o ≤ eof) → pos < next →
  match skip_scan es pos next with
  | (true, q) => pos < q ∧ ∀ p, pos ≤ p < q → covers es p
  | (false, q) => pos < q ≤ next ∧ ∀ p, pos ≤ p < q → ¬ covers es p
  end.
Proof.
  intros Hf. revert next. induction es as [|[ib o] es IH]; intros next Hes Hn; cbn [skip_scan].
  { split; [lia|]. intros p Hp (ib & o & Hin & _). by apply not_elem_of_nil in Hin. }
  destruct (Hes ib o) as [H0 H1]; [by left|]. pose proof (blen_nonneg o). unfold fits in Hf. rewrite u64_small by lia.
  destruct (Z.leb_spec ib pos), (Z.ltb_spec pos (ib + blen o)); cbn [andb].
  { split; [lia|]. intros p Hp. exists ib, o. split; [by left|lia]. }
  all: specialize (IH (if (pos <? ib) && (ib <? next) then ib else next)).
  all: destruct (Z.ltb_spec pos ib), (Z.ltb_spec ib next); cbn [andb] in *; try lia.
  all: match goal with |- context [skip_scan ?l ?x ?n] => destruct (skip_scan l x n) as [[|] q] end.
  all: destruct IH as [IH1 IH2]; [intros; apply (Hes _ o0); by right|lia|]; (split; [lia|]); intros p Hp.
  all: first [destruct (IH2 p Hp) as (ib' & o' & ? & ?); exists ib', o'; split; [by right|done]
             |intros (ib' & o' & [[= -> ->]|Hin]%elem_of_cons & Hr); [lia|]; apply (IH2 p Hp); by exists ib', o'].
Qed.

Lemma readUndoBytes_spec s w ib size r : st_work s = Some w → 0 ≤ ib → readUndoBytes s ib size = Ok r →
  blen r = Z.max 0 size ∧ ∀ p, 0 ≤ p < size → byte_at r p = byte_at w (ib + p).
Proof.
  intros Hw Hi. unfold readUndoBytes, store_reader. rewrite Hw.
  destruct (Z.leb_spec size 0). { intros [= <-]. split; [rewrite blen_nil; lia|intros; lia]. }
  set (got := sub w ib size).
  assert (blen got ≤ size) as Hle by (unfold got, sub, blen; rewrite length_take; lia).
  assert (∀ p, 0 ≤ p < blen got → byte_at got p = byte_at w (ib + p)) as Hgot.
  { intros p Hp. unfold got. rewrite byte_at_sub by lia. by rewrite (proj2 (Z.ltb_lt _ _)) by lia. }
  assert (blen got < size → blen w ≤ ib + blen got) as Hend.
  { unfold got, sub, blen. rewrite length_take, length_drop. lia. }
  destruct (Z.eqb_spec (blen got) size) as [E|E].
  { intros [= <-]. split; [lia|]. intros p Hp. apply Hgot. lia. }
  destruct (undoRangeFree _ _ _); [|done]. intros [= <-]. split; [rewrite blen_app, blen_zeros; lia|].
  intros p Hp. rewrite byte_at_app by lia. destruct (Z.ltb_spec p (blen got)); [apply Hgot; lia|].
  rewrite byte_at_zeros. symmetry. apply byte_at_beyond. lia.
Qed.

(** The capture loop keeps the journal right; when it ends without error the
    range is covered. *)
Lemma note_loop_spec orig eof n s u w pos stop u' r :
  st_work s = Some w → fits 64 eof → journal_ok orig eof u w → 0 ≤ pos → stop ≤ eof →
  note_loop n s u pos stop = (u', r) →
  journal_ok orig eof u' w ∧ (∀ p, covers (u_extents u) p → covers (u_extents u') p) ∧
  (r = Ok tt → ∀ p, pos ≤ p < stop → covers (u_extents u') p).
Proof.
  intros Hw Hf. revert u pos. induction n as [|n IH]; intros u pos HJ Hp Hs; cbn [note_loop].
  { intros [= <- <-]. split_and!; [done|done|]. destruct (Z.ltb_spec pos stop); [done|]. intros _ p Hpp. lia. }
  destruct (Z.leb_spec stop pos) as [Hle|Hlt]. { intros [= <- <-]. split_and!; [done|done|]. intros _ p Hpp. lia. }
  unfold skipCovered. destruct HJ as (He & Hex & Hun).
  pose proof (skip_scan_spec eof (u_extents u) pos stop Hf) as HS.
  destruct (skip_scan (u_extents u) pos stop) as [covered next].
  specialize (HS ltac:(intros ib o H; destruct (Hex ib o H) as (? & ? & _); done) Hlt). destruct covered.
  - destruct HS as [H1 H2]. intros (HA & HB & HC)%IH; [|by split_and!|lia|done]. split_and!; [done|done|].
    intros Hr p Hpp. destruct (decide (p < next)); [apply HB, H2; lia|]. apply HC; [done|lia].
  - destruct HS as [H1 H2]. destruct (readUndoBytes s pos (next - pos)) as [b|e|] eqn:Eb.
    2,3: intros [= <- <-]; split_and!; [done..|by intros|by intros].
    destruct (readUndoBytes_spec s w _ _ _ Hw Hp Eb) as [Hl Hb].
    intros (HA & HB & HC)%IH; cbn [u_extents u_eof] in *; [| |lia|done].
    2:{ split_and!; [done| |].
        - intros ib o [Hin|[[= -> ->]|?%not_elem_of_nil]%elem_of_cons]%elem_of_app; [by apply Hex| |done].
          split_and!; [lia|lia|]. intros p Hpp. rewrite Hb by lia. replace (pos + (p - pos)) with p by lia.
          apply Hun; [lia|]. apply H2. lia.
        - intros p Hpp Hnc. apply Hun; [done|]. intros (ib & o & Hin & Hr). apply Hnc. exists ib, o.
          split; [apply elem_of_app; by left|done]. }
    assert (∀ p, covers (u_extents u) p → covers (u_extents u ++ [(pos, b)]) p) as Hmono.
    { intros p (ib & o & Hin & Hr). exists ib, o. split; [apply elem_of_app; by left|done]. }
    split_and!; [done|by intros p ?; apply HB, Hmono|]. intros Hr p Hpp.
    destruct (decide (p < next)); [|apply HC; [done|lia]]. apply HB. exists pos, b.
    split; [apply elem_of_app; right; by left|lia].
Qed.

Lemma noteUndo_journaled off n s : 0 ≤ off →
  journaled s (noteUndo off n s).1 ∧
  st_work (noteUndo off n s).1 = st_work s ∧ st_state (noteUndo off n s).1 = st_state s ∧ st_io (noteUndo off n s).1 = st_io s ∧
  (∀ orig eof, journal orig eof s → n < 2 ^ 63 → (noteUndo off n s).2 = Ok tt →
     ∃ u, st_undo (noteUndo off n s).1 = Some u ∧ ∀ p, off ≤ p < off + n → p < eof → covers (u_extents u) p).
Proof.
  intros Ho. unfold noteUndo. destruct (st_undo s) as [u|] eqn:Eu.
  2:{ split_and!; [done..|]. intros orig eof (u & w & Hu & _). congruence. }
  destruct (Z.leb_spec n 0) as [Hn|Hn].
  { split_and!; [done..|]. intros orig eof (u' & w & Hu & _) _ _. exists u'. split; [done|]. intros; lia. }
  destruct (Z.leb_spec (u_eof u) off) as [He|He].
  { split_and!; [done..|]. intros orig eof (u' & w & Hu & _ & _ & HJ & _) _ _. exists u'. split; [done|].
    assert (u' = u) as -> by congruence. intros; lia. }
  set (stop := if u_eof u <? u64 (off + n) then u_eof u else u64 (off + n)).
  destruct (note_loop (Z.to_nat (stop - off)) s u off stop) as [u' r] eqn:E. cbn [fst snd].
  assert (∀ orig eof, journal orig eof s → ∃ w, st_work s = Some w ∧ fits 63 eof ∧ u_eof u = eof ∧
     journal_ok orig eof u' w ∧ (r = Ok tt → ∀ p, off ≤ p < stop → covers (u_extents u') p)) as HJ.
  { intros orig eof (u0 & w & Hu & Hw & Hf & Hok). assert (u0 = u) as -> by congruence. exists w.
    destruct (note_loop_spec orig eof (Z.to_nat (stop - off)) s u w off stop u' r Hw ltac:(unfold fits in *; lia) Hok Ho) as (HA & _ & HC); [|done|].
    - destruct Hok as (<- & _). subst stop. destruct (Z.ltb_spec (u_eof u) (u64 (off + n))); lia.
    - split_and!; try done. by destruct Hok. }
  split_and!; [|done..|].
  - intros orig eof H. destruct (HJ orig eof H) as (w & Hw & Hf & _ & Hok & _). by exists u', w.
  - intros orig eof H Hsm Hr. destruct (HJ orig eof H) as (w & Hw & Hf & Hee & _ & HC). exists u'. split; [done|].
    intros p Hp Hpe. apply HC; [done|]. subst stop. unfold fits in Hf. rewrite u64_small by lia.
    destruct (Z.ltb_spec (u_eof u) (off + n)); lia.
Qed.

(** A write into the spool whose range was noted. *)
Definition work_write (off : Z) (raw : bytes) (s : Store) : Store :=
  with_work s (Some (write_at off raw (default [] (st_work s)))).
Lemma noted_write off raw s : 0 ≤ off → blen raw < 2 ^ 63 →
  journaled s ((noteUndo off (blen raw) ;; modify (work_write off raw)) s).1.
Proof.
  intros Ho Hl. destruct (noteUndo_journaled off (blen raw) s Ho) as (HJ & Hw & _ & _ & HC).
  unfold mbind, ST_bind. destruct (noteUndo off (blen raw) s) as [s1 [[]|e|]]; cbn [fst snd] in *; [|done..].
  intros orig eof H. destruct (HC orig eof H Hl eq_refl) as (u & Hu & Hcov).
  destruct (HJ orig eof H) as (u1 & w & Hu1 & Hw1 & Hf & He & Hex & Hun). assert (u1 = u) as -> by congruence.
  exists u, (write_at off raw w). split_and!; [done| |done|split_and!; [done|done|]].
  - unfold modify, work_write. cbn [fst st_work with_work]. by rewrite Hw1.
  - intros p Hp Hnc. rewrite byte_at_write by lia.
    destruct (Z.leb_spec off p), (Z.ltb_spec p (off + blen raw)); cbn [andb]; try by apply Hun.
    destruct Hnc. apply Hcov; lia.
Qed.

Lemma journaled_state (s s' : Store) : st_undo s' = st_undo s → st_work s' = st_work s → journaled s s'.
Proof. intros Hu Hw orig eof (u & w & ? & ? & ?). exists u, w. by rewrite Hu, Hw. Qed.
Lemma ensureSpool_journaled s : journaled s (ensureSpool s).
Proof. intros orig eof H. pose proof H as (u & w & Hu & Hw & _). unfold ensureSpool. by rewrite Hw. Qed.

Lemma clearBacking_journaled ib size : 0 ≤ ib → size < 2 ^ 63 → moves journaled (clearBacking ib size).
Proof.
  intros Hi Hs s. unfold clearBacking. destruct (Z.eqb_spec size 0) as [|Hn]; [done|].
  rewrite st_get_bind.
  destruct (st_work s) as [w|] eqn:Ew; [|done].
  destruct (decide (0 ≤ size)) as [Hp|Hp].
  - pose proof (noted_write ib (zeros size) s Hi) as HN. rewrite blen_zeros, Z.max_r in HN by done.
    specialize (HN Hs). destruct (noteUndo_journaled ib size s Hi) as (_ & Hw & _).
    unfold mbind, ST_bind in *. destruct (noteUndo ib size s) as [s1 [[]|e|]]; cbn [fst snd] in *; [|done..].
    unfold modify, work_write in *. cbn [fst] in *. rewrite Hw, Ew in *. exact HN.
  - apply (moves_bind journaled); [intros s0; by apply noteUndo_journaled|]. intros []. apply moves_modify. intros s0.
    destruct (st_work s0) as [w0|] eqn:E0; [|done]. unfold zeros. replace (Z.to_nat size) with 0%nat by lia.
    intros orig eof (u & w1 & Hu & Hw & Hf & He & Hex & Hun). exists u, (write_at ib [] w0).
    split_and!; [done|done|done|split_and!; [done|done|]]. intros p Hp0 Hnc. assert (w1 = w0) as -> by congruence.
    rewrite byte_at_write by lia. rewrite (proj2 (andb_false_iff _ _)); [by apply Hun|].
    destruct (Z.leb_spec ib p); [right; apply Z.ltb_ge; rewrite blen_nil; lia|by left].
Qed.
Lemma writeExtent_journaled ib raw : 0 ≤ ib → blen raw < 2 ^ 63 → moves journaled (writeExtent ib raw).
Proof.
  intros Hi Hl s. unfold writeExtent. destruct (blen raw =? 0); [done|].
  rewrite st_get_bind. cbv zeta. destruct (_ <? _); [done|]. rewrite st_modify_bind.
  etrans; [apply ensureSpool_journaled|]. by apply noted_write.
Qed.
Lemma mark_journaled ib size alloc : size < 2 ^ 63 → moves journaled (mark ib size alloc).
Proof.
  intros Hs. unfold mark. apply (moves_bind journaled); [apply (moves_get journaled)|]. intros s.
  destruct (AMapIndexForOffset ib) as [idx|] eqn:E; [|apply (moves_lift journaled)].
  assert (0 ≤ ib) as Hi. { unfold AMapIndexForOffset, FirstAMapPageOffset in E. destruct (Z.ltb_spec ib 0x4400); [done|lia]. }
  destruct (regions s !! Z.to_nat idx); [|apply (moves_lift journaled)].
  destruct (_ <? _); [apply (moves_lift journaled)|]. destruct (_ || _); [apply (moves_lift journaled)|].
  destruct (first_clash _ _ _ _); [apply (moves_lift journaled)|].
  apply (moves_bind journaled); [by apply clearBacking_journaled|]. intros []. apply moves_modify. intros s0.
  by apply journaled_state.
Qed.
Lemma Grow_journaled : moves journaled Grow.
Proof.
  unfold Grow. apply (moves_bind journaled); [apply (moves_get journaled)|]. intros s. cbv zeta.
  apply (moves_bind journaled); [apply moves_modify; intros s0; by apply journaled_state|]. intros [].
  induction (RegionMapPages (RegionCount s)) as [|p ps IH]; [apply (moves_ret journaled)|]. intros s0. cbn [grow_pages].
  pose proof (mark_journaled (MP_Offset p) PageSize true ltac:(done) s0) as Hm.
  destruct (mark (MP_Offset p) PageSize true s0) as [s1 [[]|e|]]; cbn [fst] in *; [|by etrans; [exact Hm|]; apply journaled_state|done].
  etrans; [exact Hm|apply IH].
Qed.
Lemma take_fit_journaled find size e : size < 2 ^ 63 → moves journaled (take_fit find size e).
Proof.
  intros Hs. unfold take_fit. moves_step.
  - destruct (find _); [apply (moves_ret journaled)|]. moves_step; [apply Grow_journaled|].
    destruct (find _); [apply (moves_ret journaled)|apply (moves_fail journaled)].
  - by apply mark_journaled.
  - apply moves_modify. intros s. by apply journaled_state.
Qed.
Lemma Allocate_journaled size : moves journaled (Allocate size).
Proof.
  unfold Allocate, MaxAllocBytes. destruct (Z.ltb_spec 8192 size); [apply (moves_lift journaled)|]. moves_step.
  - apply moves_modify. apply ensureSpool_journaled.
  - apply take_fit_journaled. lia.
Qed.
Lemma AllocatePage_journaled : moves journaled AllocatePage.
Proof. by apply take_fit_journaled. Qed.
Lemma Reserve_journaled ib size : moves journaled (Reserve ib size).
Proof.
  unfold Reserve, MaxAllocBytes. destruct (Z.ltb_spec 8192 size); [apply (moves_lift journaled)|].
  destruct (negb _); [apply (moves_lift journaled)|]. moves_step.
  destruct (AMapIndexForOffset ib); [|apply (moves_lift journaled)].
  destruct (_ <=? _); [apply (moves_lift journaled)|]. destruct (_ <? _); [apply (moves_lift journaled)|].
  apply mark_journaled. lia.
Qed.
Lemma slotsForSize_bound size n : slotsForSize size = Ok n → size < 2 ^ 63 ∧ n = size / 64 ∧ size mod 64 = 0 ∧ n ≤ 3968 ∧ size ≠ 0.
Proof.
  unfold slotsForSize, BytesPerSlot. destruct (Z.eqb_spec size 0); [done|].
  destruct (Z.eqb_spec (size mod 64) 0); [|done]. cbn [negb]. change SlotsPerAMap with 3968.
  destruct (Z.ltb_spec 3968 (size / 64)); [done|]. intros [= <-]. split_and!; [divlia|done..].
Qed.
Lemma Free_journaled ib size : moves journaled (Free ib size).
Proof.
  unfold Free. destruct (negb _); [apply (moves_lift journaled)|].
  destruct (slotsForSize size) as [n|e|] eqn:E; [|intros s; done..].
  destruct (slotsForSize_bound _ _ E) as (Hs & _). moves_step.
  destruct (coversMetadata _ _ _); [apply (moves_lift journaled)|]. moves_step.
  - apply moves_modify. apply ensureSpool_journaled.
  - by apply mark_journaled.
Qed.

(** ** Replaying the journal *)
Lemma replay_covers orig eof es w :
  (∀ ib o, (ib, o) ∈ es → 0 ≤ ib ∧ ib + blen o ≤ eof ∧ ∀ p, ib ≤ p < ib + blen o → byte_at o (p - ib) = orig p) →
  ∀ p, 0 ≤ p < eof → covers es p ∨ byte_at w p = orig p →
  byte_at (fold_left (λ w '(ib, o), write_at ib o w) es w) p = orig p.
Proof.
  revert w. induction es as [|[ib o] es IH]; intros w Hes p Hp Hc; cbn [fold_left].
  { destruct Hc as [(ib & o & Hin & _)|]; [|done]. by apply not_elem_of_nil in Hin. }
  destruct (Hes ib o ltac:(by left)) as (H0 & H1 & H2). apply IH; [intros; apply Hes; by right|done|].
  rewrite byte_at_write by lia. destruct (decide (ib ≤ p < ib + blen o)) as [Hr|Hr].
  { right. rewrite (proj2 (Z.leb_le _ _)), (proj2 (Z.ltb_lt _ _)) by lia. by apply H2. }
  destruct Hc as [(ib' & o' & [[= -> ->]|Hin]%elem_of_cons & Hc)|Hc]; [lia|left; by exists ib', o'|right].
  destruct (Z.leb_spec ib p), (Z.ltb_spec p (ib + blen o)); cbn [andb]; (done || lia).
Qed.
(** [beginUndo], anything journaled, [restoreUndo]: below the end of the file
    the spool is as it was. *)
Lemma beginUndo_journal s w : st_work s = Some w → fits 63 (FileEOF s) → journal (byte_at w) (FileEOF s) (beginUndo s).
Proof.
  intros Hw Hf. exists (mkUndoLog (FileEOF s) []), w. split_and!; [done|done|done|]. split_and!; [done| |done].
  intros ib o H. by apply not_elem_of_nil in H.
Qed.
Lemma restoreUndo_back orig eof s : journal orig eof s →
  ∃ w, st_work (restoreUndo s) = Some w ∧ ∀ p, 0 ≤ p < eof → byte_at w p = orig p.
Proof.
  intros (u & w & Hu & Hw & Hf & He & Hex & Hun). unfold restoreUndo. rewrite Hu, Hw. eexists. split; [done|].
  intros p Hp. apply (replay_covers orig eof); [done|done|].
  destruct (decide (Exists (λ e, fst e ≤ p < fst e + blen (snd e)) (u_extents u))) as [H|H].
  - left. apply Exists_exists in H as ([ib o] & Hin & Hc). by exists ib, o.
  - right. apply Hun; [done|]. intros (ib & o & Hin & Hc). apply H. apply Exists_exists. by exists (ib, o).
Qed.
