(* ===== verification/V2Alloc.v ===== *)
(** * Writer v2: what the allocator promises ([src/writer/v2/store.go])

    The bitmaps of the regions are one sequence of slots.  A mark flips exactly
    a run of slots, an allocation takes the lowest run that fits, and freeing it
    gives the bitmaps back. *)
From S2P Require Import Prelude Ids Crypt State Header Database V2Base V2Entries V2Header V2Bitmap V2Store V2Journal.

(** ** Slots *)
Definition slot_addr (k : Z) : Z := 0x4400 + 64 * k.
Definition used (rs : list bytes) (k : Z) : bool :=
  match rs !! Z.to_nat (k / 3968) with Some b => bitIsSet b (k mod 3968) | None => false end.
(** The slots of the map pages at the start of a region. *)
Definition map_slots (idx : Z) : Z := 8 * blen (RegionMapPages idx).
Definition is_map_slot (k : Z) : Prop := k mod 3968 < map_slots (k / 3968).
Definition bitmap_ok (b : bytes) : Prop := length b = 496%nat ∧ bytes_ok b.
(** A run of slots inside one region of a store of [n] regions. *)
Definition in_region (n k len : Z) : Prop := 0 ≤ k ∧ 0 < len ∧ k mod 3968 + len ≤ 3968 ∧ k + len ≤ 3968 * n.
Definition run_used (rs : list bytes) (v : bool) (k len : Z) : Prop := ∀ j, k ≤ j < k + len → used rs j = v.
Definition set_run (rs : list bytes) (alloc : bool) (k len : Z) : list bytes :=
  match rs !! Z.to_nat (k / 3968) with
  | Some b => <[Z.to_nat (k / 3968) := mark_set b alloc (k mod 3968) (Z.to_nat len)]> rs
  | None => rs
  end.

Lemma slot_region k len n : in_region n k len → region_ok n → region_ok (k / 3968) ∧ 0 ≤ k / 3968 < n.
Proof. unfold in_region, region_ok. intros. split; [split|]; divlia. Qed.
Lemma slot_addr_region k : slot_addr k = 0x4400 + k / 3968 * 253952 + k mod 3968 * 64.
Proof. unfold slot_addr. divlia. Qed.
Lemma slotOffset_addr i s : region_ok i → 0 ≤ s < 3968 → slotOffset i s = slot_addr (3968 * i + s).
Proof. intros. rewrite slotOffset_ok by done. unfold slot_addr. lia. Qed.
Lemma region_of_addr s k o : region_ok (k / 3968) → 0 ≤ k → 0 ≤ o < 64 →
  region_of s (slot_addr k + o) = (b ← regions s !! Z.to_nat (k / 3968); Some (k / 3968, b)).
Proof.
  intros Hr Hk Ho. unfold region_of. rewrite slot_addr_region.
  rewrite <- Z.add_assoc, AMapIndex_at by (try done; divlia). by destruct (_ !! _).
Qed.
Lemma AMapIndex_addr k : 0 ≤ k → AMapIndexForOffset (slot_addr k) = Some (k / 3968).
Proof.
  intros Hk. unfold AMapIndexForOffset, FirstAMapPageOffset. rewrite (proj2 (Z.ltb_ge _ _)) by (unfold slot_addr; lia).
  change AMapCoverageBytes with 253952. f_equal. unfold slot_addr. divlia.
Qed.
Lemma slotIndex_addr k : region_ok (k / 3968) → 0 ≤ k → slotIndex (slot_addr k) (k / 3968) = k mod 3968.
Proof.
  intros Hr Hk. rewrite slot_addr_region. rewrite slotIndex_at by (try done; divlia). divlia.
Qed.

Section bitmaps.
Context (rs : list bytes) (Hrs : Forall bitmap_ok rs).
Local Abbreviation n := (blen rs).

Lemma run_region k len : in_region n k len → ∃ b, rs !! Z.to_nat (k / 3968) = Some b ∧ bitmap_ok b.
Proof.
  intros (H0 & H1 & H2 & H3). destruct (lookup_lt_is_Some_2 rs (Z.to_nat (k / 3968))) as [b Hb].
  { unfold blen in H3. divlia. }
  exists b. split; [done|]. by eapply Forall_lookup_1.
Qed.
Lemma run_used_bits v k len b : in_region n k len → rs !! Z.to_nat (k / 3968) = Some b →
  run_used rs v k len ↔ run_is b v (k mod 3968) len.
Proof.
  intros (H0 & H1 & H2 & H3) Hb. unfold run_used, run_is, used. split; intros H j Hj.
  - specialize (H (k / 3968 * 3968 + j) ltac:(divlia)).
    replace ((k / 3968 * 3968 + j) / 3968) with (k / 3968) in H by divlia. rewrite Hb in H.
    by replace ((k / 3968 * 3968 + j) mod 3968) with j in H by divlia.
  - replace (j / 3968) with (k / 3968) by divlia. rewrite Hb. apply H. divlia.
Qed.
Lemma blen_set_run alloc k len : blen (set_run rs alloc k len) = n.
Proof. unfold set_run. destruct (_ !! _); [|done]. unfold blen. by rewrite length_insert. Qed.
Lemma set_run_ok alloc k len : Forall bitmap_ok (set_run rs alloc k len).
Proof.
  unfold set_run. destruct (rs !! _) as [b|] eqn:E; [|done]. apply Forall_insert; [done|].
  destruct (Forall_lookup_1 _ _ _ _ Hrs E). split; [by rewrite length_mark_set|by apply bytes_ok_mark_set].
Qed.
Lemma used_set_run alloc k len j : in_region n k len → 0 ≤ j →
  used (set_run rs alloc k len) j = if (k <=? j) && (j <? k + len) then alloc else used rs j.
Proof.
  intros Hin Hj. destruct (run_region k len Hin) as (b & Hb & Hl & _). destruct Hin as (H0 & H1 & H2 & H3).
  unfold set_run. rewrite Hb. unfold used. destruct (decide (j / 3968 = k / 3968)) as [E|E].
  - rewrite E, list_lookup_insert_eq by (by eapply lookup_lt_Some). rewrite bitIsSet_mark_set by (unfold blen; divlia).
    rewrite Hb, Z2Nat.id by lia.
    repeat match goal with |- context [?x <=? ?y] => destruct (Z.leb_spec x y) | |- context [?x <? ?y] => destruct (Z.ltb_spec x y) end;
      cbn [andb]; (done || divlia).
  - rewrite list_lookup_insert_ne by divlia.
    destruct (Z.leb_spec k j), (Z.ltb_spec j (k + len)); cbn [andb]; try done. divlia.
Qed.
(** Marking a run and marking it back. *)
Lemma set_run_back alloc k len : in_region n k len → run_used rs (negb alloc) k len →
  set_run (set_run rs alloc k len) (negb alloc) k len = rs.
Proof.
  intros Hin Hr. destruct (run_region k len Hin) as (b & Hb & Hl & Hbo).
  rewrite (run_used_bits _ _ _ b Hin Hb) in Hr. destruct Hin as (H0 & H1 & H2 & H3).
  unfold set_run. rewrite Hb, list_lookup_insert_eq by (by eapply lookup_lt_Some).
  rewrite list_insert_insert_eq, mark_set_undo; [by apply list_insert_id|done|divlia|unfold blen; divlia|by rewrite Z2Nat.id by lia].
Qed.
(** Slot by slot, the bitmaps are determined. *)
Lemma used_ext rs' : Forall bitmap_ok rs' → blen rs' = n → (∀ j, 0 ≤ j < 3968 * n → used rs j = used rs' j) → rs = rs'.
Proof using Hrs.
  intros Hrs' Hl H. apply list_eq_same_length with (length rs); [unfold blen in Hl; lia|done|]. intros i b b' Hi Hb Hb'.
  destruct (Forall_lookup_1 _ _ _ _ Hrs Hb), (Forall_lookup_1 _ _ _ _ Hrs' Hb').
  apply bits_ext; [done|done|congruence|]. intros j Hj. unfold blen in *.
  specialize (H (Z.of_nat i * 3968 + j) ltac:(lia)). unfold used in H.
  replace ((Z.of_nat i * 3968 + j) / 3968) with (Z.of_nat i) in H by divlia.
  replace ((Z.of_nat i * 3968 + j) mod 3968) with j in H by divlia.
  by rewrite Nat2Z.id, Hb, Hb' in H.
Qed.
End bitmaps.

(** ** Noting a range succeeds when its bytes are free or in the files *)
Definition undo_wf (o : option undoLog) : Prop :=
  match o with
  | None => True
  | Some u => fits 63 (u_eof u) ∧ ∀ ib o, (ib, o) ∈ u_extents u → 0 ≤ ib ∧ ib + blen o ≤ u_eof u
  end.
Definition free_at (s : Store) (p : Z) : Prop :=
  ∃ i b, region_of s p = Some (i, b) ∧ bitIsSet b (slotIndex (p - p mod 64) i) = false.
Definition capturable (s : Store) (off n : Z) : Prop :=
  ∀ p, off ≤ p < off + n → free_at s p ∨ ∃ w, store_reader s = Some w ∧ p < blen w.

Lemma range_free_true n s off stop : (∀ p, off ≤ p < stop → free_at s p) → 0 ≤ off → stop < 2 ^ 64 - 64 →
  stop - (off - off mod 64) ≤ 64 * Z.of_nat n → range_free s n off stop = true.
Proof.
  revert off. induction n as [|n IH]; intros off Hf H0 Hs Hn; cbn [range_free].
  { apply Z.leb_le. divlia. }
  destruct (Z.leb_spec stop off); [done|]. destruct (Hf off ltac:(lia)) as (i & b & -> & Hb).
  unfold BytesPerSlot. rewrite Hb. assert (0 ≤ off mod 64 < 64) by divlia. rewrite u64_small by lia.
  destruct (Z.leb_spec (off - off mod 64 + 64) off); [lia|]. apply IH; [intros; apply Hf; lia|lia|lia|].
  replace ((off - off mod 64 + 64) mod 64) with 0 by divlia. lia.
Qed.
Lemma undoRangeFree_true s ib size : (∀ p, ib ≤ p < ib + size → free_at s p) → 0 ≤ ib → 0 ≤ size → ib + size < 2 ^ 64 - 64 →
  undoRangeFree s ib size = true.
Proof.
  intros Hf H0 H1 H2. unfold undoRangeFree. destruct (size =? 0); [done|]. rewrite u64_small by lia.
  apply range_free_true; [done|done|done|]. unfold BytesPerSlot. divlia.
Qed.
Lemma readUndoBytes_Ok s ib size : capturable s ib size → 0 ≤ ib → ib + size < 2 ^ 64 - 64 →
  ∃ r, readUndoBytes s ib size = Ok r ∧ blen r = Z.max 0 size.
Proof.
  intros Hc H0 H1. unfold readUndoBytes. destruct (Z.leb_spec size 0). { exists []. split; [done|rewrite blen_nil; lia]. }
  destruct (store_reader s) as [w|] eqn:Er.
  2:{ rewrite undoRangeFree_true; [|intros p Hp; destruct (Hc p Hp) as [|(w & Hw & _)]; [done|congruence]|lia..].
      eexists. split; [done|]. rewrite blen_zeros. lia. }
  set (got := sub w ib size). assert (0 ≤ blen got ≤ size ∧ (blen got < size → blen w ≤ ib + blen got)) as [Hg Hend].
  { unfold got, sub, blen. rewrite length_take, length_drop. lia. }
  destruct (Z.eqb_spec (blen got) size). { eexists. split; [done|lia]. }
  rewrite u64_small by lia. rewrite undoRangeFree_true.
  - eexists. split; [done|]. rewrite blen_app, blen_zeros. lia.
  - intros p Hp. destruct (Hc p ltac:(lia)) as [|(w' & Hw & Hlt)]; [done|]. assert (w' = w) as -> by congruence. lia.
  - lia.
  - lia.
  - lia.
Qed.
Lemma note_loop_Ok n s u pos stop : undo_wf (Some u) → capturable s pos (stop - pos) → 0 ≤ pos → stop ≤ u_eof u →
  stop - pos ≤ Z.of_nat n → ∃ u', note_loop n s u pos stop = (u', Ok tt) ∧ undo_wf (Some u').
Proof.
  revert u pos. induction n as [|n IH]; intros u pos Hu Hc H0 Hs Hn; cbn [note_loop].
  { exists u. rewrite (proj2 (Z.ltb_ge _ _)) by lia. done. }
  destruct (Z.leb_spec stop pos); [by exists u|]. destruct Hu as [Hf Hex]. unfold fits in Hf.
  pose proof (skip_scan_spec (u_eof u) (u_extents u) pos stop ltac:(unfold fits; lia) Hex ltac:(done)) as HS.
  unfold skipCovered. destruct (skip_scan (u_extents u) pos stop) as [[|] next]; destruct HS as [H1 _].
  - apply IH; [done| |lia|done|lia]. intros p Hp. apply Hc. lia.
  - destruct (readUndoBytes_Ok s pos (next - pos)) as (r & -> & Hr); [intros p Hp; apply Hc; lia|done|lia|].
    apply IH; cbn [u_extents u_eof]; [|intros p Hp; apply Hc; lia|lia|done|lia].
    split; [done|]. intros ib o [Hin|[[= -> ->]|?%not_elem_of_nil]%elem_of_cons]%elem_of_app; [by apply Hex| |done].
    cbn [u_eof]. lia.
Qed.
(** Without a journal nothing is noted. *)
Definition notable (s : Store) (off n : Z) : Prop := st_undo s = None ∨ capturable s off n.
Lemma noteUndo_Ok off n s : undo_wf (st_undo s) → notable s off n → 0 ≤ off → off + n < 2 ^ 64 - 64 →
  ∃ u, noteUndo off n s = (with_undo s u, Ok tt) ∧ undo_wf u.
Proof.
  intros Hu Hc H0 H1. unfold noteUndo. destruct s as [st io wk [u|]]; cbn [st_undo] in *; [|by exists None].
  destruct Hc as [|Hc]; [done|].
  destruct (Z.leb_spec n 0); [by exists (Some u)|]. destruct (Z.leb_spec (u_eof u) off); [by exists (Some u)|].
  rewrite u64_small by lia. set (stop := if u_eof u <? off + n then u_eof u else off + n).
  assert (stop ≤ u_eof u ∧ stop ≤ off + n) as [Hs1 Hs2] by (subst stop; destruct (Z.ltb_spec (u_eof u) (off + n)); lia).
  destruct (note_loop_Ok (Z.to_nat (stop - off)) (mkStore st io wk (Some u)) u off stop) as (u' & -> & Hu'); [done| |done|done|lia|].
  - intros p Hp. apply Hc. lia.
  - by exists (Some u').
Qed.

(** What marking does to the spool. *)
Definition cleared (w : option bytes) (ib size : Z) : option bytes := write_at ib (zeros size) <$> w.
Lemma clearBacking_Ok ib size s : undo_wf (st_undo s) → notable s ib size → 0 ≤ ib → ib + size < 2 ^ 64 - 64 → size ≠ 0 →
  ∃ u, clearBacking ib size s = (mkStore (st_state s) (st_io s) (cleared (st_work s) ib size) u, Ok tt) ∧ undo_wf u.
Proof.
  intros Hu Hc H0 H1 H2. unfold clearBacking. rewrite (proj2 (Z.eqb_neq _ _)) by done. rewrite st_get_bind.
  destruct s as [st io [w|] u]; cbn [st_work st_undo st_state st_io] in *; [|by exists u].
  destruct (noteUndo_Ok ib size (mkStore st io (Some w) u) Hu Hc H0 H1) as (u' & Hn & Hu'). exists u'. split; [|done].
  by rewrite (st_bind_Ok _ _ _ _ _ Hn).
Qed.

(** ** The invariant *)
Record maps_wf (s : Store) : Prop := mkMapsWf {
  wf_room : region_ok (RegionCount s);
  wf_maps : Forall bitmap_ok (regions s);
  wf_undo : undo_wf (st_undo s) }.
(** The map pages are never free. *)
Definition meta_used (s : Store) : Prop := ∀ k, 0 ≤ k < 3968 * RegionCount s → is_map_slot k → used (regions s) k = true.
Record store_wf (s : Store) : Prop := mkStoreWf { wf_maps_wf : maps_wf s; wf_meta : meta_used s }.

(** A call that changed the bitmaps to [rs], the files and the journal. *)
Definition marked (s s' : Store) (rs : list bytes) (w : option bytes) : Prop :=
  st_state s' = set_regions (st_state s) rs ∧ st_io s' = st_io s ∧ st_work s' = w ∧ undo_wf (st_undo s').

Lemma marked_regions s s' rs w : marked s s' rs w → regions s' = rs.
Proof. intros (H & _). unfold regions. by rewrite H. Qed.

Lemma addr_end k len : region_ok (k / 3968) → in_region (k / 3968 + 1) k len →
  (AMapRegionEnd (k / 3968) <? u64 (slot_addr k + 64 * len)) = false.
Proof.
  intros Hr (H0 & H1 & H2 & H3). rewrite AMapRegionEnd_ok by done. unfold region_ok in Hr. unfold slot_addr.
  apply Z.ltb_ge. rewrite u64_small by divlia. divlia.
Qed.
Lemma addr_aligned k len : ((slot_addr k mod BytesPerSlot =? 0) = true) ∧ ((64 * len mod BytesPerSlot =? 0) = true) ∧ 64 * len / BytesPerSlot = len.
Proof. unfold slot_addr, BytesPerSlot. split_and!; [apply Z.eqb_eq; divlia|apply Z.eqb_eq; divlia|divlia]. Qed.

Lemma mark_Ok s k len alloc : maps_wf s → in_region (RegionCount s) k len → run_used (regions s) (negb alloc) k len →
  notable s (slot_addr k) (64 * len) →
  ∃ s', mark (slot_addr k) (64 * len) alloc s = (s', Ok tt) ∧
    marked s s' (set_run (regions s) alloc k len) (cleared (st_work s) (slot_addr k) (64 * len)).
Proof.
  intros Hwf Hin Hr Hc. destruct (slot_region k len _ Hin (wf_room s Hwf)) as [Hrk Hi]. pose proof Hin as (H0 & H1 & H2 & H3).
  destruct (run_region _ (wf_maps s Hwf) k len Hin) as (b & Hb & Hbo).
  destruct (addr_aligned k len) as (Ha1 & Ha2 & Ha3).
  unfold mark. rewrite st_get_bind, AMapIndex_addr, Hb by done.
  rewrite addr_end by (try done; unfold in_region; divlia). rewrite Ha1, Ha2, Ha3. cbn [negb orb].
  rewrite slotIndex_addr by done. unfold RegionCount in *.
  rewrite (run_used_bits _ _ _ _ b Hin Hb) in Hr.
  rewrite (proj2 (first_clash_None _ _ _ _)) by (by rewrite Z2Nat.id by lia).
  assert (slot_addr k + 64 * len < 2 ^ 64 - 64) as Hsmall.
  { pose proof (wf_room s Hwf) as [_ Hroom]. unfold RegionCount, slot_addr in *. lia. }
  destruct (clearBacking_Ok (slot_addr k) (64 * len) s (wf_undo s Hwf) Hc ltac:(unfold slot_addr; lia) Hsmall ltac:(lia)) as (u & Hcl & Hu).
  eexists. rewrite (st_bind_Ok _ _ _ _ _ Hcl). split; [done|]. unfold set_run. rewrite Hb. by split_and!.
Qed.
(** A mark that succeeds flips a run that had the other value. *)
Lemma mark_inv s s' k len alloc : maps_wf s → 0 ≤ k → 0 < len → k mod 3968 + len ≤ 3968 →
  mark (slot_addr k) (64 * len) alloc s = (s', Ok tt) → in_region (RegionCount s) k len ∧ run_used (regions s) (negb alloc) k len.
Proof.
  intros Hwf H0 H1 H2. unfold mark. rewrite st_get_bind, AMapIndex_addr by done.
  destruct (regions s !! Z.to_nat (k / 3968)) as [b|] eqn:Hb; [|done].
  assert (in_region (RegionCount s) k len) as Hin.
  { apply lookup_lt_Some in Hb. unfold in_region, RegionCount, blen. split_and!; [done|done|done|divlia]. }
  destruct (slot_region k len _ Hin (wf_room s Hwf)) as [Hrk Hi].
  rewrite addr_end by (try done; unfold in_region; divlia). destruct (addr_aligned k len) as (-> & -> & ->). cbn [negb orb].
  rewrite slotIndex_addr by done. destruct (first_clash _ _ _ _) eqn:Ec; [done|]. intros _. split; [done|].
  apply first_clash_None in Ec. rewrite Z2Nat.id in Ec by lia. by apply (run_used_bits _ _ _ _ b Hin Hb).
Qed.

Lemma marked_wf s s' k len alloc w : maps_wf s → in_region (RegionCount s) k len →
  marked s s' (set_run (regions s) alloc k len) w →
  maps_wf s' ∧ RegionCount s' = RegionCount s ∧
  ∀ j, 0 ≤ j → used (regions s') j = if (k <=? j) && (j <? k + len) then alloc else used (regions s) j.
Proof.
  intros Hwf Hin Hm. pose proof (marked_regions _ _ _ _ Hm) as Hr. destruct Hm as (_ & _ & _ & Hu).
  assert (RegionCount s' = RegionCount s) as Hc by (unfold RegionCount; by rewrite Hr, blen_set_run).
  split_and!; [|done|].
  - split; [rewrite Hc; apply Hwf|rewrite Hr; apply set_run_ok, Hwf|done].
  - intros j Hj. rewrite Hr. apply used_set_run; [apply Hwf|done|done].
Qed.

(** Free slots can be noted whatever the files hold. *)
(** Slots in use stay in use and keep their bytes in the spool. *)
Record keeps_used (s s' : Store) : Prop := mkKeepsUsed {
  ku_used : ∀ k, 0 ≤ k → used (regions s) k = true → used (regions s') k = true;
  ku_work : ∀ w, st_work s = Some w → ∃ w', st_work s' = Some w' ∧ blen w ≤ blen w' ∧
    ∀ k p, 0 ≤ k → used (regions s) k = true → slot_addr k ≤ p < slot_addr k + 64 → byte_at w' p = byte_at w p }.
#[export] Instance keeps_used_preorder : PreOrder keeps_used.
Proof.
  split; [intros s; split; [done|]; intros w Hw; by exists w|]. intros s1 s2 s3 [U1 W1] [U2 W2]. split; [auto|].
  intros w (w2 & Hw2 & Hl2 & Hb2)%W1. destruct (W2 _ Hw2) as (w3 & Hw3 & Hl3 & Hb3). exists w3. split_and!; [done|lia|].
  intros k p Hk Hu Hp. rewrite (Hb3 k p) by auto. by apply (Hb2 k).
Qed.
Lemma keeps_used_same s s' : (∀ k, 0 ≤ k → used (regions s') k = used (regions s) k) → st_work s' = st_work s → keeps_used s s'.
Proof. intros Hr Hw. split; [intros k Hk; by rewrite Hr|]. intros w E. exists w. by rewrite Hw. Qed.
Lemma marked_keeps s s' k len : maps_wf s → in_region (RegionCount s) k len → run_used (regions s) false k len →
  marked s s' (set_run (regions s) true k len) (cleared (st_work s) (slot_addr k) (64 * len)) → keeps_used s s'.
Proof.
  intros Hwf Hin Hr Hm. pose proof (marked_regions _ _ _ _ Hm) as Hrs. destruct Hm as (_ & _ & Hw & _). pose proof Hin as (H0 & H1 & _).
  split.
  - intros j Hj Hu. rewrite Hrs, used_set_run by (try done; apply Hwf). by destruct (_ && _).
  - intros w E. rewrite E in Hw. exists (write_at (slot_addr k) (zeros (64 * len)) w). split; [done|].
    rewrite blen_write_at by (unfold slot_addr; lia). split; [lia|]. intros j p Hj Hu Hp.
    rewrite byte_at_write by (unfold slot_addr in *; lia). rewrite blen_zeros.
    destruct (Z.leb_spec (slot_addr k) p), (Z.ltb_spec p (slot_addr k + Z.max 0 (64 * len))); cbn [andb]; try done.
    assert (k ≤ j < k + len) as Hjk by (unfold slot_addr in *; lia). rewrite Hr in Hu by done. done.
Qed.

Lemma free_run_capturable s k len : maps_wf s → in_region (RegionCount s) k len → run_used (regions s) false k len →
  capturable s (slot_addr k) (64 * len).
Proof.
  intros Hwf Hin Hr p Hp. left. pose proof Hin as (H0 & H1 & H2 & H3).
  set (j := (p - 0x4400) / 64). assert (k ≤ j < k + len ∧ p = slot_addr j + (p - 0x4400) mod 64) as [Hj ->].
  { unfold slot_addr in *. subst j. divlia. }
  set (o := (p - 0x4400) mod 64). assert (0 ≤ o < 64) as Ho by (subst o; divlia).
  destruct (slot_region k len _ Hin (wf_room s Hwf)) as [Hrk Hi].
  assert (j / 3968 = k / 3968) as Ejk by divlia.
  destruct (run_region _ (wf_maps s Hwf) k len Hin) as (b & Hb & _).
  exists (j / 3968), b. rewrite region_of_addr by (rewrite ?Ejk; (done || lia)). rewrite Ejk, Hb. split; [done|].
  replace (slot_addr j + o - (slot_addr j + o) mod 64) with (slot_addr j) by (unfold slot_addr; divlia).
  rewrite <- Ejk, slotIndex_addr by (rewrite ?Ejk; (done || lia)).
  specialize (Hr j Hj). unfold used in Hr. by rewrite Ejk, Hb in Hr.
Qed.

Lemma FileEOF_ok s : region_ok (RegionCount s) → 1 ≤ RegionCount s → FileEOF s = slot_addr (3968 * RegionCount s).
Proof.
  intros Hr Hc. unfold FileEOF. rewrite (proj2 (Z.eqb_neq _ _)) by lia. unfold region_ok in Hr.
  rewrite AMapRegionEnd_ok by (unfold region_ok; lia). unfold slot_addr. lia.
Qed.

(** ** Growing by one region *)
Lemma used_app_new rs j : 0 ≤ j → used (rs ++ [zeros AMapBitmapBytes]) j = used rs j.
Proof.
  intros Hj. unfold used. destruct (decide (j / 3968 < blen rs)) as [Hl|Hl]; unfold blen in Hl.
  - by rewrite lookup_app_l by divlia.
  - rewrite lookup_app_r by divlia. rewrite (lookup_ge_None_2 rs) by divlia.
    destruct (_ !! _) as [b|] eqn:E; [|done]. apply list_lookup_singleton_Some in E as [_ <-].
    unfold bitIsSet, bitmap_byte, zeros. destruct (replicate _ 0 !! _) as [x|] eqn:E2; [|done].
    by apply lookup_replicate in E2 as [-> _].
Qed.
Lemma grow_pages_Ok i (ts : list Z) m s : maps_wf s → 0 ≤ i < RegionCount s → 8 * (Z.of_nat m + blen ts) ≤ 3968 →
  (∀ j, 3968 * i + 8 * Z.of_nat m ≤ j < 3968 * (i + 1) → used (regions s) j = false) →
  ∃ s', grow_pages (imap (λ k t, mkMapPage t (map_page_at i (m + k))) ts) s = (s', Ok tt) ∧ maps_wf s' ∧
    RegionCount s' = RegionCount s ∧ st_state s' = set_regions (st_state s) (regions s') ∧ st_io s' = st_io s ∧
    (st_work s' = None ↔ st_work s = None) ∧ keeps_used s s' ∧
    (∀ j, 0 ≤ j → used (regions s') j =
      (if (3968 * i + 8 * Z.of_nat m <=? j) && (j <? 3968 * i + 8 * (Z.of_nat m + blen ts)) then true else used (regions s) j)).
Proof.
  revert m s. induction ts as [|t ts IH]; intros m s Hwf Hi Hts Hfree.
  { exists s. cbn [imap grow_pages]. split_and!; try done; [by destruct s as [[]]|]. intros j Hj. rewrite blen_nil.
    destruct (Z.leb_spec (3968 * i + 8 * Z.of_nat m) j), (Z.ltb_spec j (3968 * i + 8 * (Z.of_nat m + 0))); cbn [andb]; (done || lia). }
  rewrite blen_cons in *. pose proof (blen_nonneg ts). cbn [imap grow_pages MP_Offset]. rewrite Nat.add_0_r.
  set (k := 3968 * i + 8 * Z.of_nat m).
  replace (map_page_at i m) with (slot_addr k) by (unfold map_page_at, slot_addr, k; lia).
  change PageSize with (64 * 8). assert (in_region (RegionCount s) k 8) as Hin by (unfold in_region, k; divlia).
  assert (run_used (regions s) false k 8) as Hr by (intros j Hj; apply Hfree; subst k; lia).
  destruct (mark_Ok s k 8 true Hwf Hin Hr) as (s1 & -> & Hm); [by right; apply free_run_capturable|].
  pose proof (marked_keeps _ _ _ _ Hwf Hin Hr Hm) as Hk1.
  destruct (marked_wf _ _ _ _ _ _ Hwf Hin Hm) as (Hwf1 & Hc1 & Hu1). destruct Hm as (Hst & Hio & Hw & _).
  destruct (IH (S m) s1) as (s' & Hg & Hwf' & Hc' & Hst' & Hio' & Hw' & Hk' & Hu'); [done|lia|lia| |].
  { intros j Hj. rewrite Hu1 by lia. destruct (Z.leb_spec k j), (Z.ltb_spec j (k + 8)); cbn [andb]; subst k; try lia; apply Hfree; lia. }
  exists s'. split_and!; [|done|lia|rewrite Hst', Hst; done|congruence| |by etrans|].
  2:{ rewrite Hw', Hw. unfold cleared. by destruct (st_work s). }
  - rewrite <- Hg. f_equal. apply imap_ext. intros k' t' _. cbn. f_equal. f_equal. lia.
  - intros j Hj. rewrite Hu', Hu1 by done. subst k.
    repeat match goal with |- context [?x <=? ?y] => destruct (Z.leb_spec x y) | |- context [?x <? ?y] => destruct (Z.ltb_spec x y) end;
      cbn [andb]; (done || lia).
Qed.

Lemma map_slots_bound i : region_ok i → 8 ≤ map_slots i ≤ 24.
Proof.
  intros H. unfold map_slots. rewrite RegionMapPages_shape by done. unfold blen. rewrite length_imap.
  pose proof (fmap_is_pmap i). pose proof (fpmap_not_fmap i).
  destruct (i mod 8 =? 0), (fmapPageIndex i), (fpmapPageIndex i); cbn; try lia; exfalso; naive_solver.
Qed.
Lemma Grow_Ok s : store_wf s → region_ok (RegionCount s + 1) →
  ∃ s', Grow s = (s', Ok tt) ∧ store_wf s' ∧ RegionCount s' = RegionCount s + 1 ∧
    st_state s' = set_regions (st_state s) (regions s') ∧ st_io s' = st_io s ∧ (st_work s' = None ↔ st_work s = None) ∧ keeps_used s s' ∧
    (∀ j, 0 ≤ j → used (regions s') j =
      (used (regions s) j || ((3968 * RegionCount s <=? j) && (j <? 3968 * RegionCount s + map_slots (RegionCount s))))).
Proof.
  intros [Hwf Hmeta] Hroom. unfold Grow. rewrite st_get_bind. cbv zeta. rewrite st_modify_bind.
  set (i := RegionCount s). set (s0 := with_regions s (regions s ++ [zeros AMapBitmapBytes])).
  assert (0 ≤ i) as Hi0 by apply blen_nonneg. pose proof (wf_room s Hwf) as Hri. fold i in Hri.
  assert (RegionCount s0 = i + 1) as Hc0 by (unfold RegionCount, s0; cbn; rewrite blen_app; done).
  assert (∀ j, 0 ≤ j → used (regions s0) j = used (regions s) j) as Hu0 by (intros j Hj; by apply used_app_new).
  assert (∀ j, 3968 * i ≤ j → used (regions s) j = false) as Hbey.
  { intros j Hj. unfold used. rewrite lookup_ge_None_2; [done|]. unfold i, RegionCount, blen in Hj. divlia. }
  assert (maps_wf s0) as Hwf0.
  { split; [rewrite Hc0; done| |apply Hwf]. cbn. apply Forall_app. split; [apply Hwf|]. constructor; [|done].
    split; [done|apply bytes_ok_zeros]. }
  pose proof (map_slots_bound i Hri) as Hms. unfold map_slots in Hms. rewrite RegionMapPages_shape in * by done.
  set (ts := PageAMap :: _) in *. assert (blen (imap (λ k t, mkMapPage t (map_page_at i k)) ts) = blen ts) as Hbl
    by (unfold blen; by rewrite length_imap). rewrite Hbl in Hms.
  destruct (grow_pages_Ok i ts 0 s0 Hwf0) as (s' & Hg & Hwf' & Hc' & Hst' & Hio' & Hw' & Hk' & Hu'); [lia|lia| |].
  { intros j Hj. rewrite Hu0 by lia. apply Hbey. lia. }
  exists s'. assert (∀ j, 0 ≤ j → used (regions s') j = used (regions s) j || ((3968 * i <=? j) && (j <? 3968 * i + map_slots i))) as Hu.
  { intros j Hj. rewrite Hu', Hu0 by done. unfold map_slots. rewrite RegionMapPages_shape by done. fold ts. rewrite Hbl.
    destruct (Z.leb_spec (3968 * i + 8 * Z.of_nat 0) j), (Z.ltb_spec j (3968 * i + 8 * (Z.of_nat 0 + blen ts))),
      (Z.leb_spec (3968 * i) j), (Z.ltb_spec j (3968 * i + 8 * blen ts)); cbn [andb]; try lia; by rewrite ?orb_true_r, ?orb_false_r. }
  split_and!; [exact Hg| |lia|rewrite Hst'; done|done|exact Hw'|etrans; [by apply (keeps_used_same s s0)|exact Hk']|exact Hu].
  split; [done|]. intros k Hk Hm. rewrite Hu by lia. destruct (decide (k < 3968 * i)) as [Hlt|Hge].
  - rewrite Hmeta; [done|lia|done].
  - unfold is_map_slot in Hm. replace (k / 3968) with i in Hm by (rewrite Hc', Hc0 in Hk; divlia).
    rewrite (proj2 (Z.leb_le _ _)), (proj2 (Z.ltb_lt _ _)) by divlia. by rewrite orb_true_r.
Qed.

(** ** First fit *)
(** A free run of [len] slots inside one region, at an address [ok] accepts. *)
Definition fits_at (rs : list bytes) (ok : Z → bool) (len k : Z) : Prop :=
  in_region (blen rs) k len ∧ ok k = true ∧ run_used rs false k len.
Definition no_fit (rs : list bytes) (ok : Z → bool) (len lo hi : Z) : Prop := ∀ k, lo ≤ k < hi → ¬ fits_at rs ok len k.
(** A search through one bitmap finds its lowest fit. *)
Definition find_ok (len : Z) (ok : Z → bool) (find : Z → bytes → option Z) : Prop :=
  ∀ i b, bitmap_ok b → region_ok i → first_free b 3968 len (λ s, ok (3968 * i + s)) (find i b).

Lemma scan_regions_spec rs ok len find i rs' pre : Forall bitmap_ok rs → region_ok (blen rs) → 0 < len → find_ok len ok find →
  rs = pre ++ rs' → i = blen pre →
  match scan_regions find i rs' with
  | Some ib => ∃ k, ib = slot_addr k ∧ 3968 * i ≤ k ∧ fits_at rs ok len k ∧ no_fit rs ok len (3968 * i) k
  | None => no_fit rs ok len (3968 * i) (3968 * blen rs)
  end.
Proof.
  intros Hrs Hroom Hlen Hfind. revert i pre. induction rs' as [|b rs' IH]; intros i pre E Hi; cbn [scan_regions].
  { intros k Hk. rewrite E, blen_app, blen_nil in Hk. lia. }
  pose proof (blen_nonneg pre). pose proof (blen_nonneg rs').
  assert (rs !! Z.to_nat i = Some b) as Hb.
  { rewrite E, Hi. unfold blen. rewrite Nat2Z.id. by apply list_lookup_middle. }
  assert (blen rs = i + 1 + blen rs') as Hl by (rewrite E, blen_app, blen_cons; lia).
  pose proof (Forall_lookup_1 _ _ _ _ Hrs Hb) as Hbo.
  assert (region_ok i) as Hri by (unfold region_ok in *; lia).
  specialize (Hfind i b Hbo Hri).
  assert (∀ s, 0 ≤ s → s + len ≤ 3968 → fits_at rs ok len (3968 * i + s) ↔ ok (3968 * i + s) = true ∧ run_free b s len) as Hfit.
  { intros s Hs0 Hs1. assert (in_region (blen rs) (3968 * i + s) len) as Hin by (unfold in_region; divlia).
    replace (Z.to_nat i) with (Z.to_nat ((3968 * i + s) / 3968)) in Hb by (f_equal; divlia).
    pose proof (run_used_bits rs false _ len b Hin Hb) as Hrb.
    replace ((3968 * i + s) mod 3968) with s in Hrb by divlia. unfold fits_at. rewrite Hrb. tauto. }
  assert (∀ k, 3968 * i ≤ k < 3968 * (i + 1) → fits_at rs ok len k → k - 3968 * i + len ≤ 3968) as Hend.
  { intros k Hk ((_ & _ & Hm & _) & _). divlia. }
  destruct (find i b) as [s|].
  - destruct Hfind as (H1 & H2 & H3 & H4 & H5). exists (3968 * i + s). split_and!; [apply slotOffset_addr; [done|lia]|lia| |].
    + apply Hfit; [lia|lia|done].
    + intros k Hk Hf. pose proof (Hend k ltac:(lia) Hf). replace k with (3968 * i + (k - 3968 * i)) in Hf by lia.
      apply Hfit in Hf as [Hok Hrun]; [|lia|lia]. exact (H5 (k - 3968 * i) ltac:(lia) Hok Hrun).
  - assert (no_fit rs ok len (3968 * i) (3968 * (i + 1))) as Hno.
    { intros k Hk Hf. pose proof (Hend k ltac:(lia) Hf). replace k with (3968 * i + (k - 3968 * i)) in Hf by lia.
      apply Hfit in Hf as [Hok Hrun]; [|lia|lia]. exact (Hfind (k - 3968 * i) ltac:(lia) ltac:(lia) Hok Hrun). }
    specialize (IH (i + 1) (pre ++ [b])). destruct (scan_regions find (i + 1) rs') as [ib|].
    + destruct IH as (k & -> & Hk & Hf & Hn); [by rewrite <- app_assoc|rewrite blen_app; unfold blen at 2; cbn; lia|].
      exists k. split_and!; [done|lia|done|]. intros k' Hk'. destruct (decide (k' < 3968 * (i + 1))); [apply Hno; lia|apply Hn; lia].
    + intros k Hk. destruct (decide (k < 3968 * (i + 1))); [apply Hno; lia|].
      apply IH; [by rewrite <- app_assoc|rewrite blen_app; unfold blen at 2; cbn; lia|lia].
Qed.

Definition any_slot (k : Z) : bool := true.
Definition page_slot (k : Z) : bool := slot_addr k mod 512 =? 0.
Lemma find_contiguous_ok len : 0 < len → find_ok len any_slot (λ _ b, findContiguous b len).
Proof.
  intros Hl i b [Hb _] _. pose proof (findContiguous_spec b len ltac:(lia)) as H.
  replace (8 * blen b) with 3968 in H by (unfold blen; lia). exact H.
Qed.
Lemma aligned_scan_ok len : 0 < len → find_ok len page_slot (λ i b, aligned_scan (Z.to_nat SlotsPerAMap) b i len PageSize 0).
Proof.
  intros Hl i b [Hb _] Hi. change SlotsPerAMap with 3968.
  pose proof (aligned_scan_spec (Z.to_nat 3968) b i len PageSize 0 ltac:(lia) ltac:(lia) ltac:(change SlotsPerAMap with 3968; lia) ltac:(intros; lia)) as H.
  change SlotsPerAMap with 3968 in H.
  destruct (aligned_scan _ _ _ _ _ _) as [s|]; unfold first_free, page_slot in *; change PageSize with 512 in *.
  - destruct H as (H1 & H2 & H3 & H4 & H5). rewrite slotOffset_addr in H3 by (try done; lia). split_and!; try done.
    intros t Ht Ha. apply H5; [done|]. rewrite slotOffset_addr by (try done; lia). done.
  - intros t H1 H2 Ha. apply H; [done|done|]. rewrite slotOffset_addr by (try done; lia). done.
Qed.

(** What an allocation of [len] slots does: the slot it returns is the lowest
    that fits, or the first after the map pages of one more region when none
    does; exactly its run (and those map pages) become used. *)
Record allocated (s s' : Store) (ok : Z → bool) (len k : Z) : Prop := mkAllocated {
  al_wf : store_wf s';
  al_run : in_region (RegionCount s') k len ∧ ok k = true;
  al_first : (fits_at (regions s) ok len k ∧ no_fit (regions s) ok len 0 k ∧ RegionCount s' = RegionCount s) ∨
             (no_fit (regions s) ok len 0 (3968 * RegionCount s) ∧ RegionCount s' = RegionCount s + 1 ∧
              k = 3968 * RegionCount s + map_slots (RegionCount s));
  al_used : ∀ j, 0 ≤ j → used (regions s') j = true ↔
              used (regions s) j = true ∨ k ≤ j < k + len ∨
              (RegionCount s ≤ j / 3968 < RegionCount s' ∧ is_map_slot j);
  al_rest : st_io s' = st_io s ∧
            st_state s' = set_lastAlloc (set_regions (st_state s) (regions s')) (u32 (k / 3968));
  al_spool : match st_work s' with Some w => slot_addr k + 64 * len ≤ blen w | None => st_work s = None end;
  al_keeps : keeps_used s s' }.

Lemma spool_cleared w k len w' : 0 ≤ k → 0 < len → cleared w (slot_addr k) (64 * len) = Some w' → slot_addr k + 64 * len ≤ blen w'.
Proof.
  unfold cleared. destruct w as [w|]; [|done]. intros Hk Hl. cbn. intros [= <-].
  rewrite blen_write_at by (unfold slot_addr; lia). rewrite blen_zeros. lia.
Qed.

Lemma take_fit_Ok s find ok len e : store_wf s → region_ok (RegionCount s + 1) → 0 < len ≤ 128 → find_ok len ok find →
  (∀ i, ok (3968 * i + map_slots i) = true) →
  ∃ s' k, take_fit (λ s, scan_regions find 0 (regions s)) (64 * len) e s = (s', Ok (slot_addr k)) ∧ allocated s s' ok len k ∧
    (st_work s' = None ↔ st_work s = None).
Proof.
  intros Hwf Hroom Hlen Hfind Hnew.
  assert (∀ s1 k, store_wf s1 → fits_at (regions s1) ok len k → no_fit (regions s1) ok len 0 k →
    (RegionCount s1 = RegionCount s ∧ s1 = s ∨
     RegionCount s1 = RegionCount s + 1 ∧ k = 3968 * RegionCount s + map_slots (RegionCount s) ∧
     no_fit (regions s) ok len 0 (3968 * RegionCount s)) →
    (∀ j, 0 ≤ j → used (regions s1) j = true ↔ used (regions s) j = true ∨ (RegionCount s ≤ j / 3968 < RegionCount s1 ∧ is_map_slot j)) →
    st_io s1 = st_io s → st_state s1 = set_regions (st_state s) (regions s1) → (st_work s1 = None ↔ st_work s = None) → keeps_used s s1 →
    ∃ s', (mark (slot_addr k) (64 * len) true ;; upd_state (λ t, set_lastAlloc t (u32 (default 0 (AMapIndexForOffset (slot_addr k))))) ;;
           mret (slot_addr k)) s1 = (s', Ok (slot_addr k)) ∧ allocated s s' ok len k ∧ (st_work s' = None ↔ st_work s = None)) as Htake.
  { intros s1 k [Hwf1 Hmeta1] (Hin & Hok & Hrun) Hno Hfirst Hused Hio Hst Hwk Hks.
    destruct (mark_Ok s1 k len true Hwf1 Hin Hrun) as (s2 & Hmk & Hm); [by right; apply free_run_capturable|].
    pose proof (marked_keeps _ _ _ _ Hwf1 Hin Hrun Hm) as Hk2.
    destruct (marked_wf _ _ _ _ _ _ Hwf1 Hin Hm) as (Hwf2 & Hc2 & Hu2). pose proof (marked_regions _ _ _ _ Hm) as Hr2.
    destruct Hm as (Hst2 & Hio2 & Hw2 & _). pose proof Hin as (H0 & _).
    rewrite (st_bind_Ok _ _ _ _ _ Hmk). eexists. split; [done|]. rewrite AMapIndex_addr by done. cbn [default from_option].
    split; [|cbn [st_work with_state]; rewrite Hw2, <- Hwk; unfold cleared; by destruct (st_work s1)].
    split.
    - split; [by split; apply Hwf2|]. intros j Hj Hmj. change (used (regions s2) j = true). rewrite Hu2 by lia.
      destruct (_ && _); [done|]. apply Hmeta1; [|done]. change (0 ≤ j < 3968 * RegionCount s2) in Hj. by rewrite Hc2 in Hj.
    - split; [|done]. change (in_region (RegionCount s2) k len). by rewrite Hc2.
    - change (RegionCount (with_state s2 _)) with (RegionCount s2). rewrite Hc2. destruct Hfirst as [[Hc ->]|(Hc & Hk & Hn)]; [left|right]; done.
    - intros j Hj. change (regions (with_state s2 _)) with (regions s2). change (RegionCount (with_state s2 _)) with (RegionCount s2).
      rewrite Hu2, Hc2 by done. specialize (Hused j Hj).
      destruct (Z.leb_spec k j), (Z.ltb_spec j (k + len)); cbn [andb]; rewrite ?Hused; intuition lia.
    - split; [cbn; congruence|]. change (regions (with_state s2 _)) with (regions s2). cbn [st_state with_state]. rewrite Hst2, Hr2, Hst. done.
    - cbn [st_work with_state]. destruct (st_work s2) as [w|]; symmetry in Hw2; [apply (spool_cleared _ k len _ H0) in Hw2; [done|lia]|].
      apply Hwk. unfold cleared in Hw2. by destruct (st_work s1).
    - etrans; [exact Hks|]. etrans; [exact Hk2|]. by apply keeps_used_same. }
  unfold take_fit. rewrite st_get_bind.
  pose proof (scan_regions_spec (regions s) ok len find 0 (regions s) [] (wf_maps s (wf_maps_wf s Hwf)) (wf_room s (wf_maps_wf s Hwf))
    ltac:(lia) Hfind eq_refl eq_refl) as HS.
  destruct (scan_regions find 0 (regions s)) as [ib|].
  - destruct HS as (k & -> & _ & Hf & Hn). rewrite st_ret_bind. destruct (Htake s k) as (s' & Hr & Ha); try done; [by left| | |].
    + intros j Hj. split; [by left|]. intros [?|[? _]]; [done|lia].
    + by destruct s as [[]].
    + by exists s', k.
  - destruct (Grow_Ok s Hwf Hroom) as (s1 & Hg & Hwf1 & Hc1 & Hst1 & Hio1 & Hw1 & Hks1 & Hu1).
    pose proof (scan_regions_spec (regions s1) ok len find 0 (regions s1) [] (wf_maps s1 (wf_maps_wf s1 Hwf1)) (wf_room s1 (wf_maps_wf s1 Hwf1))
      ltac:(lia) Hfind eq_refl eq_refl) as HS1.
    pose proof (wf_room s (wf_maps_wf s Hwf)) as Hr0. pose proof (map_slots_bound _ Hr0) as Hms. set (n := RegionCount s) in *.
    assert (0 ≤ n) as Hn0 by apply blen_nonneg.
    assert (fits_at (regions s1) ok len (3968 * n + map_slots n)) as Hnf.
    { split; [|split; [apply Hnew|]].
      - change (blen (regions s1)) with (RegionCount s1). unfold in_region. rewrite Hc1. divlia.
      - intros j Hj. rewrite Hu1 by lia. unfold used at 1. rewrite lookup_ge_None_2 by (unfold n, RegionCount, blen in *; divlia).
        destruct (Z.leb_spec (3968 * n) j), (Z.ltb_spec j (3968 * n + map_slots n)); cbn [orb andb]; (done || lia). }
    assert (∀ k, 0 ≤ k < 3968 * n + map_slots n → ¬ fits_at (regions s1) ok len k) as Hnone.
    { intros k Hk (Hin & Hok & Hrun). destruct (decide (k < 3968 * n)) as [Hlt|Hge].
      - apply (HS k); [by split; [lia|]|]. split; [|split; [done|]].
        + change (blen (regions s)) with n. unfold in_region in *. divlia.
        + intros j Hj. specialize (Hrun j Hj). rewrite Hu1 in Hrun by lia. by apply orb_false_iff in Hrun as [? _].
      - specialize (Hrun k ltac:(destruct Hin; lia)). rewrite Hu1 in Hrun by lia. apply orb_false_iff in Hrun as [_ Hrun].
        rewrite (proj2 (Z.leb_le _ _)), (proj2 (Z.ltb_lt _ _)) in Hrun by lia. done. }
    assert (∃ ib, scan_regions find 0 (regions s1) = Some ib ∧ ib = slot_addr (3968 * n + map_slots n)) as (ib & Eib & ->).
    { destruct (scan_regions find 0 (regions s1)) as [ib|]; [|exfalso; apply (HS1 (3968 * n + map_slots n)); [change (blen (regions s1)) with (RegionCount s1); rewrite Hc1; lia|done]].
      destruct HS1 as (k & -> & Hk0 & Hf & Hn1). eexists. split; [done|]. f_equal.
      destruct (Z.lt_trichotomy k (3968 * n + map_slots n)) as [Hlt|[?|Hgt]]; [by destruct (Hnone k ltac:(lia))|done|].
      by destruct (Hn1 (3968 * n + map_slots n) ltac:(lia)). }
    destruct (Htake s1 (3968 * n + map_slots n)) as (s' & Hr & Ha); try done; [right; split_and!; [done|done|exact HS]| |].
    + intros j Hj. rewrite Hu1, Hc1, orb_true_iff, andb_true_iff, Z.leb_le, Z.ltb_lt by done. apply or_iff_compat_l.
      unfold is_map_slot. split; intros H.
      * replace (j / 3968) with n by divlia. divlia.
      * destruct H as [H1 H2]. replace (j / 3968) with n in H2 by lia. divlia.
    + exists s', (3968 * n + map_slots n). split; [|exact Ha]. rewrite (st_bind_Ok _ _ s s1 (slot_addr (3968 * n + map_slots n))); [done|].
      rewrite (st_bind_Ok _ _ _ _ _ Hg), st_get_bind, Eib. done.
Qed.

(** ** Metadata and freeing *)
Lemma map_page_index i p : region_ok i → p ∈ RegionMapPages i →
  ∃ m, 0 ≤ m ∧ 8 * m + 8 ≤ map_slots i ∧ MP_Offset p = 0x4400 + i * 253952 + m * 512.
Proof.
  intros H Hp. unfold map_slots. rewrite RegionMapPages_shape in * by done. apply list_elem_of_lookup in Hp as (m & Hm).
  exists (Z.of_nat m). pose proof (lookup_lt_Some _ _ _ Hm) as Hl. rewrite list_lookup_imap in Hm.
  apply fmap_Some in Hm as (t & _ & ->). unfold blen. cbn [MP_Offset]. split_and!; [lia|lia|done].
Qed.
Lemma coversMetadata_false s k len : region_ok (RegionCount s) → in_region (RegionCount s) k len →
  (∀ j, k ≤ j < k + len → ¬ is_map_slot j) → coversMetadata s (slot_addr k) (64 * len) = false.
Proof.
  intros Hr Hin Hm. destruct (slot_region k len _ Hin Hr) as [Hrk Hi]. pose proof Hin as (H0 & H1 & H2 & H3).
  destruct (coversMetadata _ _ _) eqn:E; [|done]. exfalso. unfold coversMetadata in E.
  apply existsb_exists in E as (o & Ho & Hov). apply list_elem_of_In in Ho. unfold metadataOffsets in Ho.
  apply list_elem_of_In, in_concat in Ho as (l & Hl & Ho). apply in_map_iff in Hl as (i & <- & Hil%list_elem_of_In).
  apply elem_of_seqZ in Hil. apply in_map_iff in Ho as (p & <- & Hp%list_elem_of_In).
  assert (region_ok i) as Hri by (unfold region_ok in *; lia).
  destruct (map_page_index i p Hri Hp) as (m & Hm0 & Hm1 & Hpo). rewrite Hpo in Hov. pose proof (map_slots_bound i Hri).
  unfold PageSize in Hov. unfold region_ok in Hr. rewrite !u64_small in Hov by (unfold slot_addr; lia).
  apply andb_true_iff in Hov as [Ha%Z.ltb_lt Hb%Z.ltb_lt]. unfold slot_addr in *.
  assert (3968 * i + 8 * m < k + len) by lia. assert (k < 3968 * i + 8 * m + 8) by lia.
  assert (∃ j, k ≤ j < k + len ∧ 3968 * i + 8 * m ≤ j < 3968 * i + 8 * m + 8) as (j & Hj1 & Hj).
  { destruct (decide (k ≤ 3968 * i + 8 * m)); [exists (3968 * i + 8 * m)|exists k]; lia. }
  apply (Hm j Hj1). unfold is_map_slot. clear - Hj Hm0 Hm1 H Hil.
  replace (j / 3968) with i by divlia. divlia.
Qed.

Lemma slotsForSize_Ok len : 0 < len ≤ 3968 → slotsForSize (64 * len) = Ok len.
Proof.
  intros. unfold slotsForSize, BytesPerSlot. change SlotsPerAMap with 3968. rewrite (proj2 (Z.eqb_neq _ _)) by lia.
  replace (64 * len mod 64) with 0 by divlia. cbn [Z.eqb negb]. replace (64 * len / 64) with len by divlia.
  by rewrite (proj2 (Z.ltb_ge _ _)) by lia.
Qed.
Lemma ensureSpool_wf s : store_wf s → store_wf (ensureSpool s).
Proof. intros [[] ?]. unfold ensureSpool. destruct (st_work s); by split. Qed.
Lemma ensureSpool_regions s : regions (ensureSpool s) = regions s.
Proof. unfold ensureSpool. by destruct (st_work s). Qed.
Lemma ensureSpool_frame s : st_state (ensureSpool s) = st_state s ∧ st_io (ensureSpool s) = st_io s ∧ st_undo (ensureSpool s) = st_undo s.
Proof. unfold ensureSpool. by destruct (st_work s). Qed.

Lemma ensureSpool_work s : st_work (ensureSpool s) ≠ None.
Proof. unfold ensureSpool. destruct (st_work s) eqn:E; [congruence|done]. Qed.
Lemma Free_Ok s k len : store_wf s → in_region (RegionCount s) k len → run_used (regions s) true k len →
  (∀ j, k ≤ j < k + len → ¬ is_map_slot j) → notable (ensureSpool s) (slot_addr k) (64 * len) →
  ∃ s', Free (slot_addr k) (64 * len) s = (s', Ok tt) ∧ store_wf s' ∧ regions s' = set_run (regions s) false k len ∧
    st_state s' = set_regions (st_state s) (regions s') ∧ st_io s' = st_io s ∧
    st_work s' = cleared (st_work (ensureSpool s)) (slot_addr k) (64 * len).
Proof.
  intros Hwf Hin Hr Hm Hn. pose proof Hin as (H0 & H1 & H2 & H3). unfold Free.
  destruct (addr_aligned k len) as (-> & _). cbn [negb]. rewrite slotsForSize_Ok by divlia.
  rewrite (st_bind_Ok _ _ s s len), st_get_bind by done.
  rewrite coversMetadata_false by (try done; apply Hwf). rewrite st_modify_bind.
  pose proof (ensureSpool_wf s Hwf) as Hwf1. pose proof (ensureSpool_regions s) as Hr1. destruct (ensureSpool_frame s) as (Hs1 & Hi1 & Hu1).
  assert (RegionCount (ensureSpool s) = RegionCount s) as Hc1 by (unfold RegionCount; by rewrite Hr1).
  destruct (mark_Ok (ensureSpool s) k len false (wf_maps_wf _ Hwf1)) as (s' & Hmk & Hmd); [by rewrite Hc1|by rewrite Hr1|done|].
  destruct (marked_wf _ _ _ _ _ _ (wf_maps_wf _ Hwf1) ltac:(by rewrite Hc1) Hmd) as (Hwf2 & Hc2 & Hu2).
  pose proof (marked_regions _ _ _ _ Hmd) as Hr2. rewrite Hr1 in Hr2. destruct Hmd as (Hst & Hio & Hwk & _).
  exists s'. split_and!; [done| |done|by rewrite Hst, Hs1, Hr1, Hr2|congruence|done]. split; [done|].
  intros j Hj Hmj. rewrite Hu2, Hr1 by lia. destruct (Z.leb_spec k j), (Z.ltb_spec j (k + len)); cbn [andb];
    try (apply Hwf; [rewrite Hc2, Hc1 in Hj; lia|done]). by destruct (Hm j).
Qed.

(** The empty store and the one that [NewStore] returns. *)
Definition new_state : storeState :=
  mkStoreState [] 0 AMapValid2 1 5 FirstAllocBID 4 (mkBREF 0 0) (mkBREF 0 0) DefaultRgNID.
Lemma NewStore_wf : NewStore.2 = Ok tt ∧ store_wf NewStore.1 ∧ RegionCount NewStore.1 = 1 ∧
  st_state NewStore.1 = set_regions new_state (regions NewStore.1).
Proof.
  unfold NewStore. change (takePageBID empty_store) with (with_state empty_store (set_bidNextP (st_state empty_store) 5), @Ok Z 4).
  set (s0 := with_state empty_store new_state).
  assert (store_wf s0) as Hwf.
  { split; [split|]; [by unfold region_ok; cbn|constructor|done|]. intros k Hk. change (RegionCount s0) with 0 in Hk. lia. }
  destruct (Grow_Ok s0 Hwf) as (s' & Hg & Hwf' & Hc & Hst & _); [by unfold region_ok; cbn|].
  change ((_ empty_store).2 = Ok tt ∧ _) with (((mustGrow s0).2 = Ok tt) ∧ store_wf (mustGrow s0).1 ∧ RegionCount (mustGrow s0).1 = 1 ∧
    st_state (mustGrow s0).1 = set_regions new_state (regions (mustGrow s0).1)).
  unfold mustGrow, or_panic. by rewrite Hg.
Qed.

Lemma Allocate_Ok s len : store_wf s → region_ok (RegionCount s + 1) → 0 < len ≤ 128 →
  ∃ s' k, Allocate (64 * len) s = (s', Ok (slot_addr k)) ∧ allocated s s' any_slot len k ∧ st_work s' ≠ None ∧ keeps_used (ensureSpool s) s'.
Proof.
  intros Hwf Hroom Hlen.
  destruct (take_fit_Ok (ensureSpool s) (λ _ b, findContiguous b len) any_slot len
    (v2error CodeLimit EmptyString "size" "no contiguous %d-byte run in an AMap region (MS-PST %s)" [64 * len]))
    as (s' & k & Ht & Ha & _); [by apply ensureSpool_wf|by unfold RegionCount; rewrite ensureSpool_regions|done|apply find_contiguous_ok; lia|done|].
  exists s', k. split_and!.
  - unfold Allocate, MaxAllocBytes. rewrite (proj2 (Z.ltb_ge _ _)), st_modify_bind, slotsForSize_Ok by lia. exact Ht.
  - destruct (ensureSpool_frame s) as (E1 & E2 & _). destruct Ha as [A1 A2 A3 A4 A5 A6 A7].
    unfold RegionCount in *. rewrite ensureSpool_regions, ?E1, ?E2 in *. split; try done.
    + destruct (st_work s'); [done|]. by apply ensureSpool_work in A6.
    + etrans; [|exact A7]. split; [intros j; by rewrite ensureSpool_regions|]. intros w Hw. exists w. unfold ensureSpool. by rewrite Hw.
  - pose proof (al_spool _ _ _ _ _ Ha) as A6. intros E. rewrite E in A6. by apply ensureSpool_work in A6.
  - apply Ha.
Qed.
Lemma AllocatePage_Ok s : store_wf s → region_ok (RegionCount s + 1) →
  ∃ s' k, AllocatePage s = (s', Ok (slot_addr k)) ∧ allocated s s' page_slot 8 k ∧ (st_work s' = None ↔ st_work s = None).
Proof.
  intros Hwf Hroom.
  destruct (take_fit_Ok s (λ i b, aligned_scan (Z.to_nat SlotsPerAMap) b i 8 PageSize 0) page_slot 8
    (v2error CodeLimit EmptyString "size" "no 512-aligned page slot in an AMap region (MS-PST %s)" []))
    as (s' & k & Ht & Ha & Hw); [done|done|lia|apply aligned_scan_ok; lia| |by exists s', k].
  intros i. unfold page_slot, slot_addr, map_slots. apply Z.eqb_eq. divlia.
Qed.
(** What an allocation takes was free and is no map page. *)
Lemma allocated_fresh s s' ok len k j : store_wf s → allocated s s' ok len k → k ≤ j < k + len →
  used (regions s) j = false ∧ ¬ is_map_slot j.
Proof.
  intros [Hwf Hmeta] [_ [Hin _] Hfirst _ _ _ _] Hj. pose proof Hin as (H0 & H1 & H2 & H3).
  destruct Hfirst as [((Hin' & _ & Hr) & _ & Hc)|(_ & Hc & Hk)].
  - split; [by apply Hr|]. intros Hm. assert (used (regions s) j = true) as E; [|by rewrite Hr in E].
    apply Hmeta; [rewrite Hc in H3; lia|done].
  - set (n := RegionCount s) in *. assert (0 ≤ n) by apply blen_nonneg.
    pose proof (map_slots_bound n (wf_room s Hwf)). assert (j / 3968 = n) as Ej by divlia. split.
    + unfold used. rewrite lookup_ge_None_2; [done|]. unfold n, RegionCount, blen in *. lia.
    + unfold is_map_slot. rewrite Ej. divlia.
Qed.

(** C20: An allocation, of slots or of a page, always succeeds in a store with room:
    it takes the lowest free run that fits in a region, pages at addresses that
    are multiples of 512, and grows the file by one region only when no run
    fits; it uses exactly that run (and the map pages of the new region), which
    was free and no map page, so it never overlaps live data. *)
Theorem store_allocates s len : store_wf s → region_ok (RegionCount s + 1) → 0 < len ≤ 128 →
  (∃ s' k, Allocate (64 * len) s = (s', Ok (slot_addr k)) ∧ allocated s s' any_slot len k ∧
     ∀ j, k ≤ j < k + len → used (regions s) j = false ∧ ¬ is_map_slot j) ∧
  (∃ s' k, AllocatePage s = (s', Ok (slot_addr k)) ∧ allocated s s' page_slot 8 k ∧
     ∀ j, k ≤ j < k + 8 → used (regions s) j = false ∧ ¬ is_map_slot j).
Proof.
  intros Hwf Hroom Hlen. split.
  - destruct (Allocate_Ok s len Hwf Hroom Hlen) as (s' & k & Ha & HA & _). exists s', k. split_and!; [done|done|].
    intros j. by apply (allocated_fresh s s' any_slot).
  - destruct (AllocatePage_Ok s Hwf Hroom) as (s' & k & Ha & HA & _). exists s', k. split_and!; [done|done|].
    intros j. by apply (allocated_fresh s s' page_slot).
Qed.
Lemma store_allocates_witness : let s := NewStore.1 in
  (∃ s' k, Allocate (64 * 2) s = (s', Ok (slot_addr k)) ∧ allocated s s' any_slot 2 k ∧
     ∀ j, k ≤ j < k + 2 → used (regions s) j = false ∧ ¬ is_map_slot j) ∧
  (∃ s' k, AllocatePage s = (s', Ok (slot_addr k)) ∧ allocated s s' page_slot 8 k ∧
     ∀ j, k ≤ j < k + 8 → used (regions s) j = false ∧ ¬ is_map_slot j).
Proof.
  intros s. destruct NewStore_wf as (_ & Hwf & Hc & _). apply (store_allocates s 2 Hwf); [by subst s; rewrite Hc; unfold region_ok|lia].
Defined.

(** Freeing what was just allocated always succeeds and gives the bitmaps back,
    whatever the journal holds: the same slots are used as before, but for the
    map pages of a region the allocation added. *)
Theorem store_free_allocate s len s' ib : store_wf s → region_ok (RegionCount s + 1) → 0 < len ≤ 128 →
  Allocate (64 * len) s = (s', Ok ib) →
  ∃ s'', Free ib (64 * len) s' = (s'', Ok tt) ∧ store_wf s'' ∧ RegionCount s'' = RegionCount s' ∧
    (RegionCount s' = RegionCount s → regions s'' = regions s ∧ AMapFree s'' = AMapFree s) ∧
    (∀ j, 0 ≤ j → used (regions s'') j = true ↔
       used (regions s) j = true ∨ (RegionCount s ≤ j / 3968 < RegionCount s' ∧ is_map_slot j)).
Proof.
  intros Hwf Hroom Hlen Ha. destruct (Allocate_Ok s len Hwf Hroom Hlen) as (s1 & k & Ha' & HA & Hwk & _).
  rewrite Ha in Ha'. injection Ha' as -> ->. pose proof (λ j, allocated_fresh _ _ _ _ _ j Hwf HA) as Hfresh.
  destruct HA as [A1 [A2 _] A3 A4 A5 A6 _]. destruct A2 as (H0 & H1 & H2 & H3) eqn:EA2.
  destruct (Free_Ok s1 k len A1 A2) as (s2 & Hf & Hwf2 & Hr2 & _).
  - intros j Hj. apply A4; [lia|]. right. by left.
  - intros j Hj. by apply Hfresh.
  - right. intros p Hp. right. unfold ensureSpool. destruct (st_work s1) as [w|] eqn:E; [|done].
    exists w. unfold store_reader. rewrite E. split; [done|lia].
  - assert (∀ j, 0 ≤ j → used (regions s2) j = true ↔
       used (regions s) j = true ∨ (RegionCount s ≤ j / 3968 < RegionCount s1 ∧ is_map_slot j)) as Hu.
    { intros j Hj. rewrite Hr2, used_set_run by (try done; apply A1). specialize (A4 j Hj). specialize (Hfresh j).
      destruct (Z.leb_spec k j), (Z.ltb_spec j (k + len)); cbn [andb]; rewrite ?A4; intuition (try lia; congruence). }
    exists s2. assert (RegionCount s2 = RegionCount s1) as Hc2 by (unfold RegionCount; rewrite Hr2; apply blen_set_run).
    split_and!; [done|done|done| |done]. intros Hc. assert (regions s2 = regions s) as Hr.
    { apply used_ext; [apply Hwf2|apply Hwf|change (RegionCount s = RegionCount s2); lia|]. intros j Hj. specialize (Hu j ltac:(lia)).
      destruct (used (regions s2) j), (used (regions s) j); intuition (try congruence; try lia). }
    split; [done|]. unfold AMapFree. by rewrite Hr.
Qed.
Lemma store_free_allocate_witness : let s := NewStore.1 in let s' := (Allocate (64 * 2) s).1 in
  ∃ s'', Free 0x4800 (64 * 2) s' = (s'', Ok tt) ∧ store_wf s'' ∧ RegionCount s'' = RegionCount s' ∧
    (RegionCount s' = RegionCount s → regions s'' = regions s ∧ AMapFree s'' = AMapFree s) ∧
    (∀ j, 0 ≤ j → used (regions s'') j = true ↔
       used (regions s) j = true ∨ (RegionCount s ≤ j / 3968 < RegionCount s' ∧ is_map_slot j)).
Proof.
  intros s s'. destruct NewStore_wf as (_ & Hwf & Hc & _). apply (store_free_allocate s 2 s' 0x4800 Hwf); [by subst s; rewrite Hc; unfold region_ok|lia|].
  by vm_compute.
Defined.
