(* ===== verification/V2Image.v ===== *)
(** * Writer v2: the image of a store ([src/writer/v2/store.go], [tx.go],
    [inspect_map.go])

    The map pages and the density list a store serialises to, the writes of the
    two-phase commit in their order, and the loader that reads a store back.
    The calls on a sink are recorded as a trace; the sink does not fail and is
    neither the source nor the spool of the store. *)
From S2P Require Import Prelude Ids Crypt State Header Database V2Base V2Disk V2Entries V2Header V2Bitmap V2Store V2Journal V2Alloc.

(** ** Sinks *)
Inductive sink_op := SWrite (off : Z) (data : bytes) | STruncate (n : Z) | SSync.
Abbreviation trace := (list sink_op).
Definition apply_op (f : bytes) (op : sink_op) : bytes :=
  match op with SWrite off data => write_at off data f | STruncate n => truncate_to n f | SSync => f end.
Definition run_ops (f : bytes) (ops : trace) : bytes := fold_left apply_op ops f.
Definition emit (op : sink_op) : ST trace unit := modify (λ tr, tr ++ [op]).

(** [copyReaderAtFrom]: 64 KiB at a time, one chunk per fuel. *)
Definition copy_chunk : Z := 65536.
Fixpoint copy_loop (fuel : nat) (src : bytes) (off n : Z) : ST trace unit :=
  match fuel with
  | O => mret tt
  | S fuel =>
    if off <? n then
      let got := sub src off (Z.min copy_chunk (n - off)) in
      if blen got =? 0 then mret tt else emit (SWrite off got) ;; copy_loop fuel src (off + copy_chunk) n
    else mret tt
  end.
Definition copyReaderAtFrom (src : bytes) (from n : Z) : ST trace unit :=
  if (from <? 0) || (n <? 0) then lift (invalidArg "offset" "copy range from=%d n=%d" [from; n]) else
  if n <=? from then mret tt else copy_loop (Z.to_nat ((n - from) / copy_chunk + 1)) src from n.

(** ** Map pages *)
Definition encodePMap (s : Store) (pmapIndex : Z) : result bytes :=
  let start := u64 (FirstAMapPageOffset + u64 (pmapIndex * PMapCoverageBytes)) in
  let bm := fold_left (λ bm bit, if anyAllocated s (u64 (start + bit * PageSize)) PageSize then setBit bm bit else bm)
              (seqZ 0 SlotsPerAMap) (zeros AMapBitmapBytes) in
  let off := PMapOffset pmapIndex in
  EncodePage bm PagePMap off off.
Definition encodeFMap (s : Store) (k : Z) : result bytes :=
  let base := u64 (FMapHeaderAMaps + u64 (k * FMapPageAMaps)) in
  let payload := map (λ i, match regions s !! Z.to_nat (base + i) with
                           | Some b => if 255 <? longestFree b then 255 else longestFree b
                           | None => 0
                           end) (seqZ 0 FMapPageAMaps) in
  let off := FMapPageOffset k in
  EncodePage payload PageFMap off off.
Definition pMapHasFreePages (s : Store) (pmapIndex : Z) : bool :=
  let start := u64 (FirstAMapPageOffset + u64 (pmapIndex * PMapCoverageBytes)) in
  existsb (λ bit, let ib := u64 (start + bit * PageSize) in
                  negb (FileEOF s <? u64 (ib + PageSize)) && negb (anyAllocated s ib PageSize)) (seqZ 0 SlotsPerAMap).
Definition fpMapPayload (s : Store) (startPMap : Z) : bytes :=
  fold_left (λ payload bit, if pMapHasFreePages s (u64 (startPMap + bit)) then payload else setBit payload bit)
    (seqZ 0 SlotsPerAMap) (zeros AMapBitmapBytes).
Definition encodeFPMapAt (s : Store) (off : Z) : result bytes :=
  match AMapIndexForOffset off with
  | None => invalidArg "ib" "FPMap at 0x%x is outside AMap coverage" [off]
  | Some idx =>
    let pmap := PMapIndexForAMap idx in
    if pmap <? FPMapHeaderPMaps then invalidArg "ib" "FPMap at 0x%x is in HEADER.rgbFP range" [off] else
    let k := (pmap - FPMapHeaderPMaps) / FPMapPagePMaps in
    EncodePage (fpMapPayload s (FPMapHeaderPMaps + k * FPMapPagePMaps)) PageFPMap off off
  end.
Definition encodeMapPage (s : Store) (p : MapPage) : result bytes :=
  match AMapIndexForOffset (MP_Offset p) with
  | None => invalidArg "ib" "map page at 0x%x is outside AMap coverage" [MP_Offset p]
  | Some idx =>
    if MP_Type p =? PageAMap then b ← index (regions s) idx; EncodePage b PageAMap (MP_Offset p) (MP_Offset p)
    else if MP_Type p =? PagePMap then encodePMap s (PMapIndexForAMap idx)
    else if MP_Type p =? PageFMap then encodeFMap s (u64 (idx - FMapHeaderAMaps) / FMapPageAMaps)
    else if MP_Type p =? PageFPMap then encodeFPMapAt s (MP_Offset p)
    else invalidArg "ptype" "not a map page 0x%02x" [MP_Type p]
  end.
Fixpoint encode_map_pages (s : Store) (ps : list MapPage) : result (list (Z * bytes)) :=
  match ps with
  | [] => mret []
  | p :: ps => raw ← encodeMapPage s p; rest ← encode_map_pages s ps; mret ((MP_Offset p, raw) :: rest)
  end.
Definition encodeRegionPages (s : Store) (index : Z) : result (list (Z * bytes)) := encode_map_pages s (RegionMapPages index).

(** ** The density list: the regions with free slots, the most free first *)
Definition dl_le (a b : Z * Z) : Prop := b.2 < a.2 ∨ (a.2 = b.2 ∧ a.1 ≤ b.1).
#[export] Instance dl_le_dec a b : Decision (dl_le a b).
Proof. unfold dl_le. apply _. Defined.
Definition dl_entries (s : Store) : list (Z * Z) :=
  let ents := imap (λ i b, (u32 (Z.of_nat i), countFree b)) (regions s) in
  take (Z.to_nat DListMaxEntries) (merge_sort dl_le (filter (λ e, e.2 ≠ 0) ents)).
Definition DFLBackfillComplete : Z := 1.
Fixpoint put_entries (i : Z) (es : list (Z * Z)) (payload : bytes) : result bytes :=
  match es with
  | [] => mret payload
  | (pageNum, free) :: es =>
    payload ← put 4 (8 + i * 4) (Z.lor (Z.land pageNum 0xFFFFF) (u32 (Z.shiftl free 20))) payload;
    put_entries (i + 1) es payload
  end.
Definition encodeDList (s : Store) : result bytes :=
  let ents := dl_entries s in
  payload ← put8 0 DFLBackfillComplete (zeros AMapBitmapBytes);
  payload ← put8 1 (u8 (blen ents)) payload;
  payload ← put 4 4 (ss_lastAllocAMap (st_state s)) payload;
  payload ← put_entries 0 ents payload;
  EncodePage payload PageDList (ss_dlistBID (st_state s)) DListPageOffset.
Record DListView := mkDListView {
  DV_Flags : Z; DV_Count : Z; DV_Current : Z; DV_Entries : list (Z * Z); DV_Page : PageView }.
Fixpoint inspect_dlist_entries (b : bytes) (i : Z) (n : nat) (seen : list Z) : result (list (Z * Z)) :=
  match n with
  | O => mret []
  | S n =>
    v ← rd 4 (8 + i * 4) b;
    let pageNum := Z.land v 0xFFFFF in
    if bool_decide (pageNum ∈ seen) then invariant "2.2.2.7.4" "dwPageNum" "duplicate AMap index %d" [pageNum] else
    rest ← inspect_dlist_entries b (i + 1) n (pageNum :: seen);
    mret ((pageNum, Z.shiftr v 20) :: rest)
  end.
Definition InspectDList (raw : bytes) : result DListView :=
  pg ← InspectPage raw DListPageOffset;
  if negb (PV_Type pg =? PageDList) then invariant "2.2.2.7.4" "ptype" "got 0x%02x want DList" [PV_Type pg] else
  if PV_BID pg =? 0 then invariant "2.2.2.7.4" "bid" "DList BID is null; allocate from bidNextP (MS-PST %s)" [] else
  let b := PV_Payload pg in
  n ← index b 1;
  if DListMaxEntries <? n then invariant "2.2.2.7.4" "cEntDList" "got %d max %d" [n; DListMaxEntries] else
  ents ← inspect_dlist_entries b 0 (Z.to_nat n) [];
  flags ← index b 0; current ← rd 4 4 b;
  mret (mkDListView flags n current ents pg).
Definition InspectAMap (raw : bytes) (offset : Z) : result PageView :=
  if (offset <? FirstAMapPageOffset) || negb ((offset - FirstAMapPageOffset) mod AMapCoverageBytes =? 0)
  then invariant "2.2.2.7.2" "ib" "0x%x is not an AMap page offset" [offset] else
  pg ← InspectPage raw offset;
  if negb (PV_Type pg =? PageAMap) then invariant "2.2.2.7.2" "ptype" "got 0x%02x want AMap" [PV_Type pg] else
  x ← index (PV_Payload pg) 0;
  if negb (x =? 0xFF)
  then invariant "2.2.2.7.2" "rgbAMap" "AMap at 0x%x does not self-map (first byte 0x%02x)" [offset; x]
  else mret pg.

(** ** Writing *)
(** The runs of free slots of a bitmap from [slot], as offsets and sizes. *)
Fixpoint zero_runs (fuel : nat) (b : bytes) (i slot : Z) : ST trace unit :=
  match fuel with
  | O => mret tt
  | S fuel =>
    if slot <? SlotsPerAMap then
      if bitIsSet b slot then zero_runs fuel b i (slot + 1) else
      let stop := default SlotsPerAMap (first_set b slot (Z.to_nat (SlotsPerAMap - slot))) in
      emit (SWrite (slotOffset i slot) (zeros ((stop - slot) * BytesPerSlot))) ;; zero_runs fuel b i stop
    else mret tt
  end.
Fixpoint each_region (f : Z → bytes → ST trace unit) (i : Z) (rs : list bytes) : ST trace unit :=
  match rs with [] => mret tt | b :: rs => f i b ;; each_region f (i + 1) rs end.
Definition zeroFreeSlotsAt (s : Store) : ST trace unit :=
  each_region (λ i b, zero_runs (S (Z.to_nat SlotsPerAMap)) b i 0) 0 (regions s).
Fixpoint write_all (ws : list (Z * bytes)) : ST trace unit :=
  match ws with [] => mret tt | (off, raw) :: ws => emit (SWrite off raw) ;; write_all ws end.
Definition writeHeader (s : Store) (valid : Z) : ST trace unit :=
  do hdr <- lift (EncodeUnicodeHeader (store_HeaderDraft (with_state s (set_valid (st_state s) valid))));
  emit (SWrite 0 hdr).
Definition writeBody (s : Store) : ST trace unit :=
  let eof := FileEOF s in
  match store_reader s with Some src => copyReaderAtFrom src UnicodeHeaderSize eof | None => mret tt end ;;
  zeroFreeSlotsAt s ;;
  do dlist <- lift (encodeDList s);
  emit (SWrite DListPageOffset dlist) ;;
  each_region (λ i _, do pages <- lift (encodeRegionPages s i); write_all pages) 0 (regions s) ;;
  emit (STruncate eof).
(** MS-PST 2.6.1.3.7: INVALID, the body, VALID, each followed by a sync. *)
Definition writeTwoPhase (s : Store) (body : ST trace unit) : ST trace Store :=
  writeHeader s AMapInvalid ;; emit SSync ;;
  body ;; emit SSync ;;
  writeHeader s AMapValid2 ;; emit SSync ;;
  mret (with_state s (set_valid (st_state s) AMapValid2)).
Definition WriteTo (s : Store) : ST trace Store := writeTwoPhase s (writeBody s).
Definition EncodeFile (s : Store) : result bytes :=
  match WriteTo s [] with (tr, Ok _) => Ok (run_ops [] tr) | (_, Err e) => Err e | (_, Panic) => Panic end.
(** Copying a complete image over a destination. *)
Definition publishSink (s : Store) (stage : bytes) : ST trace unit :=
  let eof := FileEOF s in
  writeHeader s AMapInvalid ;; emit SSync ;;
  copyReaderAtFrom stage UnicodeHeaderSize eof ;;
  emit (STruncate eof) ;; emit SSync ;;
  writeHeader s AMapValid2 ;; emit SSync.

(** ** Loading *)
Definition readAtFull (r : bytes) (off n : Z) : result bytes :=
  let got := sub r off n in if blen got =? n then Ok got else Err (EFmt "EOF" []).
(** [readAtFull] whose error is reported under another name. *)
Definition read_or {A} (m : result A) (e : result A) : result A := match m with Err _ => e | r => r end.
Definition sectionForPage (t : Z) : string :=
  if t =? PageAMap then "2.2.2.7.2" else if t =? PagePMap then "2.2.2.7.3" else if t =? PageFMap then "2.2.2.7.5"
  else if t =? PageFPMap then "2.2.2.7.6" else if t =? PageDList then "2.2.2.7.4" else "2.2.2.7.1".
Fixpoint load_map_pages (r : bytes) (size : Z) (s : Store) (ps : list MapPage) : result unit :=
  match ps with
  | [] => mret tt
  | p :: ps =>
    let section := sectionForPage (MP_Type p) in
    if size <? u64 (MP_Offset p + PageSize) then invariant section "size" "truncated %s at 0x%x" [MP_Offset p] else
    raw ← read_or (readAtFull r (MP_Offset p) PageSize) (invariant section "size" "%s read at 0x%x: %v" [MP_Offset p]);
    mp ← InspectPage raw (MP_Offset p);
    if negb (PV_Type mp =? MP_Type p)
    then invariant section "ptype" "page at 0x%x is 0x%02x want 0x%02x" [MP_Offset p; PV_Type mp; MP_Type p] else
    if negb (allocatedRange s (MP_Offset p) PageSize)
    then invariant "2.2.2.7.2" "slot" "metadata %s at 0x%x marked free" [MP_Offset p]
    else load_map_pages r size s ps
  end.
Fixpoint load_regions (n : nat) (i : Z) (r : bytes) (size : Z) (s : Store) : result Store :=
  match n with
  | O => mret s
  | S n =>
    let off := AMapOffset i in
    if size <? u64 (off + PageSize) then invariant "2.2.2.7.2" "size" "truncated AMap at 0x%x" [off] else
    raw ← read_or (readAtFull r off PageSize) (invariant "2.2.2.7.2" "size" "AMap read at 0x%x: %v" [off]);
    pg ← InspectPage raw off;
    if negb (PV_Type pg =? PageAMap) then invariant "2.2.2.7.2" "ptype" "page at 0x%x is 0x%02x, want AMap" [off; PV_Type pg] else
    b ← slice (PV_Payload pg) 0 AMapBitmapBytes;
    let s := with_regions s (<[Z.to_nat i := b]> (regions s)) in
    x ← index (PV_Payload pg) 0;
    if negb (x =? 0xFF)
    then invariant "2.2.2.7.2" "rgbAMap" "AMap at 0x%x does not self-map (first byte 0x%02x want 0xFF)" [off; x] else
    _ ← load_map_pages r size s (RegionMapPages i);
    load_regions n (i + 1) r size s
  end.
Definition LoadStoreFrom (r : bytes) (size : Z) : result Store :=
  if size <? UnicodeHeaderSize then invariant "2.2.2.6" "size" "file is %d bytes, need header" [size] else
  hdr ← read_or (readAtFull r 0 UnicodeHeaderSize) (invariant "2.2.2.6" "size" "header read: %v" []);
  h ← InspectHeader hdr;
  let root := HV_Root h in
  if negb (u64 size =? RV_FileEOF root)
  then invariant "2.2.2.5" "ibFileEof" "file length %d != ibFileEof %d" [size; RV_FileEOF root] else
  if (RV_AMapLast root <? FirstAMapPageOffset) || negb ((RV_AMapLast root - FirstAMapPageOffset) mod AMapCoverageBytes =? 0)
  then invariant "2.2.2.5" "ibAMapLast" "0x%x is not an AMap page offset (MS-PST %s)" [RV_AMapLast root] else
  let last := (RV_AMapLast root - FirstAMapPageOffset) / AMapCoverageBytes in
  let wantEOF := AMapRegionEnd last in
  if negb (RV_FileEOF root =? wantEOF)
  then invariant "2.6.1.1.2" "ibFileEof" "got 0x%x want 0x%x (growth is whole AMap regions, MS-PST %s)" [RV_FileEOF root; wantEOF] else
  if negb (RV_PMapFree root =? 0)
  then invariant "2.2.2.5" "cbPMapFree" "got %d want 0 for new Unicode PST" [RV_PMapFree root] else
  if size <? DListPageOffset + PageSize
  then invariant "2.2.2.7.4" "size" "file too small for DList at 0x%x" [DListPageOffset] else
  dlistRaw ← read_or (readAtFull r DListPageOffset PageSize) (invariant "2.2.2.7.4" "size" "DList read: %v" []);
  dl ← InspectDList dlistRaw;
  if HV_BidNextP h <=? PV_BID (DV_Page dl)
  then invariant "2.2.2.2" "bidNextP" "got %d, not strictly beyond DList BID %d (MS-PST %s)" [HV_BidNextP h; PV_BID (DV_Page dl)] else
  match filter (λ e, last < e.1) (DV_Entries dl) with
  | e :: _ => invariant "2.2.2.7.4" "dwPageNum" "AMap index %d is beyond last AMap %d" [e.1; last]
  | [] =>
  if last <? DV_Current dl
  then invariant "2.2.2.7.4" "ulCurrentPage" "current AMap %d is beyond last AMap %d" [DV_Current dl; last] else
  if (HV_BidNextB h <? FirstAllocBID) || negb (Z.land (HV_BidNextB h) 3 =? 0)
  then invariant "2.2.2.2" "bidNextB" "got %d, want >= %d and 4-aligned (MS-PST %s)" [HV_BidNextB h; FirstAllocBID] else
  let s := mkStore (mkStoreState (replicate (Z.to_nat (last + 1)) (zeros AMapBitmapBytes)) (DV_Current dl)
                      (RV_AMapValid root) (HV_Unique h) (HV_BidNextP h) (HV_BidNextB h) (PV_BID (DV_Page dl))
                      (mkBREF (RV_NBTBID root) (RV_NBTIB root)) (mkBREF (RV_BBTBID root) (RV_BBTIB root)) (HV_NIDs h))
             None None None in
  s ← load_regions (Z.to_nat (last + 1)) 0 r size s;
  if negb (AMapFree s =? RV_AMapFree root)
  then invariant "2.2.2.5" "cbAMapFree" "bitmap free %d != ROOT %d" [AMapFree s; RV_AMapFree root]
  else mret (with_io s (Some r))
  end.
Definition LoadStore (file : bytes) : result Store := LoadStoreFrom file (blen file).

(** ** Traces *)
(** The call appends exactly these operations and returns [a]. *)
Definition produces {A} (m : ST trace A) (ops : trace) (a : A) : Prop := ∀ tr, m tr = (tr ++ ops, Ok a).
Lemma produces_ret {A} (a : A) : produces (mret a) [] a.
Proof. intros tr. by rewrite app_nil_r. Qed.
Lemma produces_emit op : produces (emit op) [op] tt.
Proof. by intros tr. Qed.
Lemma produces_bind {A B} (m : ST trace A) (f : A → ST trace B) o1 o2 a b :
  produces m o1 a → produces (f a) o2 b → produces (m ≫= f) (o1 ++ o2) b.
Proof. intros Hm Hf tr. rewrite (st_bind_Ok _ _ _ _ _ (Hm tr)), Hf. by rewrite app_assoc. Qed.
Lemma produces_lift {A} (r : result A) a : r = Ok a → produces (lift r) [] a.
Proof. intros -> tr. unfold lift. by rewrite app_nil_r. Qed.
Lemma produces_emit_bind {B} op (f : unit → ST trace B) ops b : produces (f tt) ops b → produces (emit op ≫= f) (op :: ops) b.
Proof. intros H. apply (produces_bind (emit op) f [op] ops tt b); [apply produces_emit|done]. Qed.

(** The last byte that is written at a position. *)
Definition op_byte (op : sink_op) (p : Z) : option Z :=
  match op with
  | SWrite off data => if (off <=? p) && (p <? off + blen data) then Some (byte_at data (p - off)) else None
  | _ => None
  end.
Definition written (ops : trace) (p : Z) : option Z :=
  fold_left (λ acc op, match op_byte op p with Some v => Some v | None => acc end) ops None.
(** The operations stay inside [lo, hi) and do not cut anything below [hi]. *)
Definition op_in (lo hi : Z) (op : sink_op) : Prop :=
  match op with SWrite off data => lo ≤ off ∧ off + blen data ≤ hi | STruncate n => hi ≤ n | SSync => True end.

Lemma written_acc ops p acc :
  fold_left (λ acc op, match op_byte op p with Some v => Some v | None => acc end) ops acc
  = match written ops p with Some v => Some v | None => acc end.
Proof.
  unfold written. revert acc. induction ops as [|op ops IH]; intros acc; cbn [fold_left]; [done|].
  rewrite IH, (IH (match op_byte op p with Some v => Some v | None => None end)).
  destruct (fold_left _ ops None), (op_byte op p); done.
Qed.
Lemma written_app a b p : written (a ++ b) p = match written b p with Some v => Some v | None => written a p end.
Proof. unfold written at 1. rewrite fold_left_app. apply written_acc. Qed.
Lemma written_cons op b p : written (op :: b) p = match written b p with Some v => Some v | None => op_byte op p end.
Proof. change (op :: b) with ([op] ++ b). rewrite written_app. unfold written at 2. cbn. by destruct (op_byte op p). Qed.
Lemma written_outside lo hi ops p : Forall (op_in lo hi) ops → p < lo ∨ hi ≤ p → written ops p = None.
Proof.
  induction 1 as [|op ops Ho Hos IH]; intros Hp; [done|]. rewrite written_cons, IH by done.
  destruct op as [off data| |]; cbn in *; try done.
  destruct (Z.leb_spec off p), (Z.ltb_spec p (off + blen data)); cbn; (done || lia).
Qed.
Lemma run_ops_byte lo hi ops f p : 0 ≤ lo → Forall (op_in lo hi) ops → 0 ≤ p < hi →
  byte_at (run_ops f ops) p = default (byte_at f p) (written ops p).
Proof.
  intros Hlo Hops Hp. revert f. induction Hops as [|op ops Ho Hops IH]; intros f; [done|]. cbn [run_ops fold_left].
  fold (run_ops (apply_op f op) ops). rewrite IH, written_cons.
  destruct (written ops p); [done|]. destruct op as [off data|n|]; cbn in *.
  - rewrite byte_at_write by lia. by destruct (_ && _).
  - rewrite byte_at_truncate by lia. done.
  - done.
Qed.
(** Writes inside [lo, hi), and nothing else. *)
Definition write_in (lo hi : Z) (op : sink_op) : Prop :=
  match op with SWrite off data => lo ≤ off ∧ off + blen data ≤ hi | _ => False end.
Lemma write_in_weaken lo hi lo' hi' ops : lo' ≤ lo → hi ≤ hi' → Forall (write_in lo hi) ops → Forall (write_in lo' hi') ops.
Proof. intros H1 H2 H. eapply Forall_impl; [exact H|]. intros []; cbn; lia. Qed.
Lemma write_in_op_in lo hi lo' hi' ops : lo' ≤ lo → hi ≤ hi' → Forall (write_in lo hi) ops → Forall (op_in lo' hi') ops.
Proof. intros H1 H2 H. eapply Forall_impl; [exact H|]. intros []; cbn; lia. Qed.
Lemma run_ops_app f a b : run_ops f (a ++ b) = run_ops (run_ops f a) b.
Proof. apply fold_left_app. Qed.
(** A window of a file, read byte by byte. *)
Lemma window_eq f off d : 0 ≤ off → off + blen d ≤ blen f → (∀ i, 0 ≤ i < blen d → byte_at f (off + i) = byte_at d i) →
  sub f off (blen d) = d.
Proof.
  intros Ho Hl H. pose proof (blen_nonneg d). apply byte_at_ext; rewrite blen_sub by lia; [done|]. intros p Hp.
  rewrite byte_at_sub by lia. rewrite (proj2 (Z.ltb_lt _ _)) by lia. by apply H.
Qed.

(** ** Copying *)
Lemma copy_loop_spec fuel src off n : 0 ≤ off → n - off ≤ copy_chunk * Z.of_nat fuel →
  ∃ ops, produces (copy_loop fuel src off n) ops tt ∧ Forall (write_in off n) ops ∧
    ∀ p, written ops p = if (off <=? p) && (p <? Z.min n (blen src)) then Some (byte_at src p) else None.
Proof.
  revert off. induction fuel as [|fuel IH]; intros off H0 Hf; cbn [copy_loop].
  { exists []. split_and!; [apply produces_ret|done|]. intros p. unfold copy_chunk in *.
    destruct (Z.leb_spec off p), (Z.ltb_spec p (Z.min n (blen src))); cbn; (done || lia). }
  destruct (Z.ltb_spec off n) as [Hlt|Hge].
  2:{ exists []. split_and!; [apply produces_ret|done|]. intros p.
      destruct (Z.leb_spec off p), (Z.ltb_spec p (Z.min n (blen src))); cbn; (done || lia). }
  set (got := sub src off (Z.min copy_chunk (n - off))).
  assert (blen got = Z.max 0 (Z.min (Z.min copy_chunk (n - off)) (blen src - off))) as Hg.
  { unfold got, sub, blen, copy_chunk. rewrite length_take, length_drop. lia. }
  destruct (Z.eqb_spec (blen got) 0) as [E|E].
  { exists []. split_and!; [apply produces_ret|done|]. intros p. unfold copy_chunk in *.
    destruct (Z.leb_spec off p), (Z.ltb_spec p (Z.min n (blen src))); cbn; (done || lia). }
  destruct (IH (off + copy_chunk)) as (ops & Hp & Hin & Hw); [unfold copy_chunk in *; lia..|].
  exists (SWrite off got :: ops). split_and!.
  - by apply produces_emit_bind.
  - constructor; [cbn; unfold copy_chunk in *; lia|]. eapply write_in_weaken; [..|exact Hin]; unfold copy_chunk; lia.
  - intros p. rewrite written_cons, Hw. cbn [op_byte]. rewrite Hg. unfold copy_chunk in *.
    repeat match goal with |- context [?x <=? ?y] => destruct (Z.leb_spec x y) | |- context [?x <? ?y] => destruct (Z.ltb_spec x y) end;
      cbn [andb]; try done; try lia.
    all: unfold got; rewrite byte_at_sub by lia; rewrite (proj2 (Z.ltb_lt _ _)) by lia; do 2 f_equal; lia.
Qed.
Lemma copyReaderAtFrom_spec src from n : 0 ≤ from → 0 ≤ n →
  ∃ ops, produces (copyReaderAtFrom src from n) ops tt ∧ Forall (write_in from n) ops ∧
    ∀ p, written ops p = if (from <=? p) && (p <? Z.min n (blen src)) then Some (byte_at src p) else None.
Proof.
  intros H1 H2. unfold copyReaderAtFrom. destruct (Z.ltb_spec from 0); [lia|]. destruct (Z.ltb_spec n 0); [lia|]. cbn [orb].
  destruct (Z.leb_spec n from).
  - exists []. split_and!; [apply produces_ret|done|]. intros p.
    destruct (Z.leb_spec from p), (Z.ltb_spec p (Z.min n (blen src))); cbn; (done || lia).
  - apply copy_loop_spec; [done|]. unfold copy_chunk. divlia.
Qed.

(** ** Zeroing the free slots *)
Definition free_byte (b : bytes) (i slot p : Z) : bool :=
  (slot_addr (3968 * i + slot) <=? p) && (p <? slot_addr (3968 * (i + 1))) && negb (bitIsSet b ((p - slot_addr (3968 * i)) / 64)).
Lemma byte_at_zeros_opt n off p :
  op_byte (SWrite off (zeros n)) p = if (off <=? p) && (p <? off + Z.max 0 n) then Some 0 else None.
Proof. cbn [op_byte]. rewrite blen_zeros. by destruct (_ && _); rewrite ?byte_at_zeros. Qed.

Ltac cmp_cases :=
  repeat match goal with |- context [?x <=? ?y] => destruct (Z.leb_spec x y) | |- context [?x <? ?y] => destruct (Z.ltb_spec x y) end;
  cbn [andb orb negb].

Lemma zero_runs_spec fuel b i slot : region_ok i → 0 ≤ slot ≤ 3968 → 3968 - slot < Z.of_nat fuel →
  ∃ ops, produces (zero_runs fuel b i slot) ops tt ∧
    Forall (write_in (slot_addr (3968 * i + slot)) (slot_addr (3968 * (i + 1)))) ops ∧
    ∀ p, written ops p = if free_byte b i slot p then Some 0 else None.
Proof.
  intros Hi. revert slot. induction fuel as [|fuel IH]; intros slot Hs Hf; [lia|]. cbn [zero_runs]. change SlotsPerAMap with 3968.
  destruct (Z.ltb_spec slot 3968) as [Hlt|Hge].
  2:{ exists []. split_and!; [apply produces_ret|done|]. intros p. unfold free_byte, slot_addr. cmp_cases; (done || lia). }
  destruct (bitIsSet b slot) eqn:E.
  - destruct (IH (slot + 1)) as (ops & Hp & Hin & Hw); [lia|lia|]. exists ops. split_and!; [done| |].
    + eapply write_in_weaken; [..|exact Hin]; unfold slot_addr; lia.
    + intros p. rewrite Hw. unfold free_byte, slot_addr. cmp_cases; try done; try lia.
      replace ((p - (17408 + 64 * (3968 * i))) / 64) with slot by divlia. by rewrite E.
  - pose proof (first_set_spec b slot (Z.to_nat (3968 - slot))) as HS. rewrite Z2Nat.id in HS by lia.
    set (stop := default 3968 (first_set b slot (Z.to_nat (3968 - slot)))).
    assert (slot < stop ≤ 3968 ∧ run_free b slot (stop - slot)) as [Hst Hrun].
    { subst stop. destruct (first_set b slot (Z.to_nat (3968 - slot))) as [k|] eqn:Ek; cbn [default from_option id].
      - destruct HS as [Hk Hb]. assert (k ≠ slot) by (intros ->; congruence). split; [lia|].
        intros j Hj. destruct (bitIsSet b j) eqn:Ej; [|done]. exfalso. clear - Ek Hj Ej Hk.
        remember (Z.to_nat (3968 - slot)) as m eqn:Em. clear Em. revert slot Ek Hj Hk. induction m as [|m IHm]; intros slot Ek Hj Hk; [done|].
        cbn [first_set] in Ek. destruct (bitIsSet b slot) eqn:E2; [injection Ek as <-; lia|].
        destruct (decide (j = slot)) as [->|]; [congruence|]. apply (IHm (slot + 1)); [done|lia|lia].
      - split; [lia|]. exact HS. }
    clearbody stop. clear HS. destruct (IH stop) as (ops & Hp & Hin & Hw); [lia|lia|].
    exists (SWrite (slotOffset i slot) (zeros ((stop - slot) * BytesPerSlot)) :: ops). unfold BytesPerSlot in *.
    rewrite slotOffset_addr by (try done; lia). split_and!.
    + apply produces_emit_bind. exact Hp.
    + constructor; [cbn; rewrite blen_zeros; unfold slot_addr; lia|]. eapply write_in_weaken; [..|exact Hin]; unfold slot_addr; lia.
    + intros p. rewrite written_cons, Hw, byte_at_zeros_opt. unfold free_byte, slot_addr.
      destruct (decide (17408 + 64 * (3968 * i + slot) ≤ p < 17408 + 64 * (3968 * i + stop))) as [Hr|Hr].
      * rewrite (Hrun ((p - (17408 + 64 * (3968 * i))) / 64)) by divlia. cmp_cases; (done || lia).
      * cmp_cases; first [done|lia|by destruct (negb _)].
Qed.

(** The loop over the regions writes what each region writes. *)
Lemma each_region_spec (f : Z → bytes → ST trace unit) (g : Z → bytes → Z → option Z) n i rs :
  0 ≤ i → n = i + blen rs →
  (∀ j b, i ≤ j → rs !! Z.to_nat (j - i) = Some b → ∃ ops, produces (f j b) ops tt ∧
     Forall (write_in (slot_addr (3968 * j)) (slot_addr (3968 * (j + 1)))) ops ∧ ∀ p, written ops p = g j b p) →
  ∃ ops, produces (each_region f i rs) ops tt ∧ Forall (write_in (slot_addr (3968 * i)) (slot_addr (3968 * n))) ops ∧
    ∀ p, written ops p =
      if slot_addr (3968 * i) <=? p then
        match rs !! Z.to_nat ((p - 0x4400) / 253952 - i) with Some b => g ((p - 0x4400) / 253952) b p | None => None end
      else None.
Proof.
  revert i. induction rs as [|b rs IH]; intros i H0 Hn Hf; cbn [each_region].
  { exists []. split_and!; [apply produces_ret|done|]. intros p. rewrite lookup_nil. by destruct (_ <=? _). }
  destruct (Hf i b) as (o1 & Hp1 & Hin1 & Hw1); [lia|by rewrite Z.sub_diag|].
  pose proof (blen_nonneg rs). rewrite blen_cons in Hn.
  destruct (IH (i + 1)) as (o2 & Hp2 & Hin2 & Hw2); [lia|lia| |].
  { intros j c Hj Hc. apply Hf; [lia|]. replace (Z.to_nat (j - i)) with (S (Z.to_nat (j - (i + 1)))) by lia. exact Hc. }
  exists (o1 ++ o2). split_and!.
  - by eapply produces_bind.
  - apply Forall_app. split; (eapply write_in_weaken; [..|eassumption]; unfold slot_addr; lia).
  - intros p. rewrite written_app, Hw2. set (q := (p - 0x4400) / 253952) in *.
    destruct (Z.leb_spec (slot_addr (3968 * (i + 1))) p) as [Hge|Hlt].
    + rewrite (proj2 (Z.leb_le _ _)) by (unfold slot_addr in *; lia).
      assert (written o1 p = None) as Hn1.
      { eapply written_outside; [by eapply write_in_op_in; [..|exact Hin1]|]. by right. }
      assert (i + 1 ≤ q) as Hq by (subst q; unfold slot_addr in Hge; divlia).
      replace (Z.to_nat (q - i)) with (S (Z.to_nat (q - (i + 1)))) by lia. cbn [lookup list_lookup].
      rewrite Hn1. destruct (rs !! _) as [c|]; [|done]. by destruct (g q c p).
    + rewrite Hw1. destruct (Z.leb_spec (slot_addr (3968 * i)) p) as [Hle|Hl2].
      * replace q with i by (subst q; unfold slot_addr in *; divlia). by rewrite Z.sub_diag.
      * rewrite <- Hw1. eapply written_outside; [by eapply write_in_op_in; [..|exact Hin1]|]. by left.
Qed.

(** ** The map pages of a store *)
Lemma fold_bitmap_ok {A} (g : bytes → A → bytes) l b : (∀ b x, bitmap_ok b → bitmap_ok (g b x)) → bitmap_ok b →
  bitmap_ok (fold_left g l b).
Proof. intros Hg. revert b. induction l as [|x l IH]; intros b Hb; [done|]. cbn [fold_left]. apply IH. by apply Hg. Qed.
Lemma setBit_bitmap_ok b x : bitmap_ok b → bitmap_ok (setBit b x).
Proof. intros [H1 H2]. split; [by rewrite length_setBit|by apply bytes_ok_setBit]. Qed.
Lemma zeros_bitmap_ok : bitmap_ok (zeros AMapBitmapBytes).
Proof. split; [done|apply bytes_ok_zeros]. Qed.
Lemma map_page_image payload t off : length payload = 496%nat → zeroSigPageType t = true →
  EncodePage payload t off off = Ok (page_image payload t off off).
Proof.
  intros Hl Ht. assert (blen payload = 496) as Hb by (unfold blen; lia). assert (page_accepts t off) as Ha.
  { assert (knownPageType t = true) as Hk.
    { unfold zeroSigPageType, knownPageType in *. by destruct (t =? PageAMap), (t =? PagePMap), (t =? PageFMap), (t =? PageFPMap), (t =? PageBBT), (t =? PageNBT), (t =? PageDList). }
    split; [done|]. rewrite page_kinds, Ht by done. done. }
  rewrite EncodePage_Ok by (done || lia). rewrite Hb. change (zeros (496 - 496)) with (@nil Z). by rewrite app_nil_r.
Qed.
Lemma RegionMapPages_cases i p : region_ok i → p ∈ RegionMapPages i →
  p = mkMapPage PageAMap (map_page_at i 0) ∨
  (i mod 8 = 0 ∧ p = mkMapPage PagePMap (map_page_at i 1)) ∨
  (fmapPageIndex i = true ∧ p = mkMapPage PageFMap (map_page_at i 2)) ∨
  (fpmapPageIndex i = true ∧ p = mkMapPage PageFPMap (map_page_at i 2)).
Proof.
  intros Hi Hp. rewrite RegionMapPages_shape in Hp by done. pose proof (fmap_is_pmap i) as Hf. pose proof (fpmap_not_fmap i) as Hq.
  destruct (Z.eqb_spec (i mod 8) 0) as [E|E], (fmapPageIndex i) eqn:E1, (fpmapPageIndex i) eqn:E2; cbn in Hp;
    try (destruct (Hq eq_refl); done); try (specialize (Hf eq_refl); done);
    repeat (apply elem_of_cons in Hp as [->|Hp]; [auto|]); by apply not_elem_of_nil in Hp.
Qed.
Lemma fpMapPayload_ok s start : bitmap_ok (fpMapPayload s start).
Proof.
  unfold fpMapPayload. generalize (seqZ 0 SlotsPerAMap). intros l. apply fold_bitmap_ok; [|apply zeros_bitmap_ok].
  intros bm x Hbm. destruct (pMapHasFreePages _ _); [done|by apply setBit_bitmap_ok].
Qed.
Lemma fmap_byte b : is_byte (if 255 <? longestFree b then 255 else longestFree b).
Proof.
  destruct (longestFree_spec b) as [_ Hlf]. pose proof (blen_nonneg b).
  assert (0 ≤ longestFree b) by (apply (Hlf 0 0); [lia..|intros k Hk; lia]).
  unfold is_byte. destruct (Z.ltb_spec 255 (longestFree b)); lia.
Qed.
(** Every map page is encoded, in its place; the payload of an AMap page is the
    bitmap of its region. *)
Lemma encodeMapPage_Ok s i p : maps_wf s → 0 ≤ i < RegionCount s → p ∈ RegionMapPages i →
  ∃ payload, encodeMapPage s p = Ok (page_image payload (MP_Type p) (MP_Offset p) (MP_Offset p)) ∧
    bitmap_ok payload ∧ zeroSigPageType (MP_Type p) = true ∧ (MP_Type p = PageAMap → regions s !! Z.to_nat i = Some payload).
Proof.
  intros Hwf Hi Hp. pose proof (wf_room s Hwf) as Hroom. assert (region_ok i) as Hri by (unfold region_ok in *; lia).
  destruct (lookup_lt_is_Some_2 (regions s) (Z.to_nat i)) as [b Hb]; [unfold RegionCount, blen in Hi; lia|].
  pose proof (Forall_lookup_1 _ _ _ _ (wf_maps s Hwf) Hb) as Hbo.
  assert (∀ k, (k < 3)%nat → AMapIndexForOffset (map_page_at i k) = Some i) as Hidx.
  { intros k Hk. unfold map_page_at. apply AMapIndex_at; [done|lia]. }
  assert (∀ payload t off, bitmap_ok payload → zeroSigPageType t = true → EncodePage payload t off off = Ok (page_image payload t off off)) as Henc.
  { intros payload t off [Hl _] Ht. by apply map_page_image. }
  destruct (RegionMapPages_cases i p Hri Hp) as [-> | [[E ->] | [[E ->] | [E ->]]]];
    unfold encodeMapPage; cbn [MP_Type MP_Offset]; rewrite Hidx by lia.
  - exists b. rewrite (index_Ok _ _ b) by (lia || done). rewrite bind_Ok, Henc by done. done.
  - change (PagePMap =? PageAMap) with false. change (PagePMap =? PagePMap) with true. cbn iota. unfold encodePMap.
    assert (PMapOffset (PMapIndexForAMap i) = map_page_at i 1) as ->.
    { unfold PMapOffset, PMapIndexForAMap, map_page_at. change AMapsPerPMap with 8. change PMapCoverageBytes with 2031616.
      unfold region_ok in Hri. unfold FirstPMapPageOffset. rewrite !u64_small by (rewrite ?u64_small by divlia; divlia). divlia. }
    eexists. split; [apply Henc; [|done]|split; [|done]]; (apply fold_bitmap_ok; [|apply zeros_bitmap_ok]);
      intros bm x Hbm; destruct (anyAllocated _ _ _); by try apply setBit_bitmap_ok.
  - change (PageFMap =? PageAMap) with false. change (PageFMap =? PagePMap) with false. change (PageFMap =? PageFMap) with true.
    cbn iota. unfold encodeFMap. unfold fmapPageIndex in E. change FMapHeaderAMaps with 128 in *. change FMapPageAMaps with 496 in *.
    destruct (Z.ltb_spec i 128); [done|]. apply Z.eqb_eq in E. unfold region_ok in Hri. rewrite (u64_small (i - 128)) by lia.
    rewrite (FMapPage_at ((i - 128) / 496) i) by (unfold region_ok; divlia).
    eexists. split; [apply Henc; [|done]|split; [|done]]; (split; [by rewrite length_map, length_seqZ|]; apply bytes_ok_map;
      intros x; case_match; [apply fmap_byte|done]).
  - change (PageFPMap =? PageAMap) with false. change (PageFPMap =? PagePMap) with false. change (PageFPMap =? PageFMap) with false.
    change (PageFPMap =? PageFPMap) with true. cbn iota. unfold encodeFPMapAt. rewrite Hidx by lia.
    unfold fpmapPageIndex in E. change AMapsPerPMap with 8 in *. destruct (negb _); [done|]. unfold PMapIndexForAMap. change AMapsPerPMap with 8.
    change FPMapHeaderPMaps with 1024 in *. destruct (_ <? 1024); [done|].
    eexists. split; [apply Henc; [apply fpMapPayload_ok|done]|split; [apply fpMapPayload_ok|done]].
Qed.

(** ** Writing the map pages *)
Abbreviation writes := (map (λ w : Z * bytes, SWrite w.1 w.2)).
Lemma write_all_produces ws : produces (write_all ws) (writes ws) tt.
Proof.
  induction ws as [|[off raw] ws IH]; [apply produces_ret|]. cbn [write_all map]. by apply produces_emit_bind.
Qed.
(** Writes to consecutive windows of 512 bytes. *)
Definition windows (base : Z) (ws : list (Z * bytes)) : Prop :=
  ∀ k w, ws !! k = Some w → w.1 = base + 512 * Z.of_nat k ∧ blen w.2 = 512.
Lemma windows_cons base w ws : windows base (w :: ws) → w.1 = base ∧ blen w.2 = 512 ∧ windows (base + 512) ws.
Proof.
  intros H. destruct (H 0%nat w eq_refl) as [H1 H2]. split_and!; [lia|done|]. intros k w' Hk.
  destruct (H (S k) w' Hk). split; [lia|done].
Qed.
Lemma windows_in base ws : windows base ws → Forall (write_in base (base + 512 * blen ws)) (writes ws).
Proof.
  revert base. induction ws as [|w ws IH]; intros base H; [constructor|]. apply windows_cons in H as (H1 & H2 & H3).
  cbn [map]. rewrite blen_cons. pose proof (blen_nonneg ws). constructor; [cbn; lia|].
  eapply write_in_weaken; [..|exact (IH _ H3)]; lia.
Qed.
Lemma windows_written base ws k w p : windows base ws → ws !! k = Some w → w.1 ≤ p < w.1 + 512 →
  written (writes ws) p = Some (byte_at w.2 (p - w.1)).
Proof.
  revert base k. induction ws as [|x ws IH]; intros base k H Hk Hp; [done|].
  pose proof (windows_cons _ _ _ H) as (H1 & H2 & H3). cbn [map]. rewrite written_cons. destruct k as [|k].
  - injection Hk as ->. cbn [op_byte]. rewrite (proj2 (Z.leb_le _ _)), (proj2 (Z.ltb_lt _ _)) by lia. cbn [andb].
    assert (written (writes ws) p = None) as ->; [|done].
    eapply written_outside; [eapply write_in_op_in; [..|by apply windows_in]; reflexivity|lia].
  - by rewrite (IH _ k H3 Hk Hp).
Qed.

(** What the writer puts where a map page belongs. *)
Definition page_bytes (s : Store) (p : MapPage) : bytes := match encodeMapPage s p with Ok raw => raw | _ => [] end.
Definition region_writes (s : Store) (i : Z) : list (Z * bytes) := map (λ p, (MP_Offset p, page_bytes s p)) (RegionMapPages i).
Lemma encodeMapPage_bytes s i p : maps_wf s → 0 ≤ i < RegionCount s → p ∈ RegionMapPages i →
  encodeMapPage s p = Ok (page_bytes s p) ∧ blen (page_bytes s p) = 512.
Proof.
  intros Hwf Hi Hp. destruct (encodeMapPage_Ok s i p Hwf Hi Hp) as (payload & He & [Hl _] & _). unfold page_bytes. rewrite He.
  split; [done|]. unfold page_image. rewrite blen_app, blen_page_tail. unfold blen. lia.
Qed.
Lemma encodeRegionPages_Ok s i : maps_wf s → 0 ≤ i < RegionCount s → encodeRegionPages s i = Ok (region_writes s i).
Proof.
  intros Hwf Hi. unfold encodeRegionPages, region_writes. assert (∀ p, p ∈ RegionMapPages i → encodeMapPage s p = Ok (page_bytes s p)) as H.
  { intros p Hp. by eapply encodeMapPage_bytes. }
  induction (RegionMapPages i) as [|p ps IH]; [done|]. cbn [encode_map_pages map]. rewrite H by left. rewrite bind_Ok, IH; [done|].
  intros q Hq. apply H. by right.
Qed.
Lemma region_windows s i : maps_wf s → 0 ≤ i < RegionCount s → windows (slot_addr (3968 * i)) (region_writes s i).
Proof.
  intros Hwf Hi k w Hk. pose proof (wf_room s Hwf). assert (region_ok i) as Hri by (unfold region_ok in *; lia).
  unfold region_writes in Hk. apply list_lookup_fmap_Some in Hk as (p & -> & Hk). cbn [fst snd]. split.
  - rewrite RegionMapPages_shape in Hk by done. rewrite list_lookup_imap in Hk. apply fmap_Some in Hk as (t & _ & ->).
    cbn [MP_Offset]. unfold map_page_at, slot_addr. lia.
  - apply (encodeMapPage_bytes s i); [done..|]. by eapply list_elem_of_lookup_2.
Qed.
Lemma region_writes_in s i : maps_wf s → 0 ≤ i < RegionCount s →
  Forall (write_in (slot_addr (3968 * i)) (slot_addr (3968 * i + map_slots i))) (writes (region_writes s i)).
Proof.
  intros Hwf Hi. pose proof (windows_in _ _ (region_windows s i Hwf Hi)) as H.
  eapply write_in_weaken; [..|exact H]; [done|]. unfold map_slots, slot_addr, region_writes. rewrite blen_map. lia.
Qed.

(** ** The density list *)
Definition dl_word (e : Z * Z) : Z := Z.lor (Z.land e.1 0xFFFFF) (u32 (Z.shiftl e.2 20)).
Definition dl_ok (e : Z * Z) : Prop := 0 ≤ e.1 < 2 ^ 20 ∧ 0 ≤ e.2 < 2 ^ 12.
Lemma dl_word_sum e : dl_ok e → dl_word e = e.1 + e.2 * 2 ^ 20.
Proof.
  intros [H1 H2]. unfold dl_word. change 0xFFFFF with (Z.ones 20). rewrite land_low, Z.mod_small by lia.
  rewrite Z.shiftl_mul_pow2, u32_small by lia. rewrite <- Z.shiftl_mul_pow2, lor_shiftl by lia.
  rewrite ?Z.shiftl_mul_pow2 by lia. lia.
Qed.
Lemma dl_word_back e : dl_ok e → fits 32 (dl_word e) ∧ Z.land (dl_word e) 0xFFFFF = e.1 ∧ Z.shiftr (dl_word e) 20 = e.2.
Proof.
  intros H. rewrite dl_word_sum by done. destruct H. unfold fits. split_and!; [lia|lia| |].
  - change 0xFFFFF with (Z.ones 20). rewrite land_low by lia. rewrite Z.mod_add, Z.mod_small by lia. done.
  - rewrite shiftr_div, Z.div_add, Z.div_small by lia. lia.
Qed.
Definition dl_bytes (es : list (Z * Z)) : bytes := concat (map (λ e, le_enc 4 (dl_word e)) es).
Lemma blen_dl_bytes es : blen (dl_bytes es) = 4 * blen es.
Proof. induction es as [|e es IH]; [done|]. unfold dl_bytes in *. cbn [map concat]. rewrite blen_app, IH, blen_cons, blen_le_enc. lia. Qed.
Lemma put_entries_Ok es i pre n : blen pre = 8 + i * 4 → 0 ≤ i → 8 + 4 * (i + blen es) ≤ n →
  put_entries i es (pre ++ zeros (n - (8 + i * 4))) = Ok (pre ++ dl_bytes es ++ zeros (n - (8 + 4 * (i + blen es)))).
Proof.
  revert i pre. induction es as [|[p f] es IH]; intros i pre Hp Hi Hn; cbn [put_entries].
  { rewrite (@blen_nil (Z * Z)). change (dl_bytes []) with (@nil Z). rewrite mret_Ok, app_nil_l. do 3 f_equal. lia. }
  rewrite blen_cons in *. pose proof (blen_nonneg es). rewrite (put_fill pre (8 + i * 4)) by lia. rewrite bind_Ok.
  rewrite Z.sub_diag. change (zeros 0) with (@nil Z). rewrite app_nil_l.
  replace (n - (8 + i * 4 + Z.of_nat 4)) with (n - (8 + (i + 1) * 4)) by lia.
  rewrite IH by (try rewrite blen_app, blen_le_enc; lia). f_equal. rewrite <- !app_assoc. f_equal.
  unfold dl_bytes. cbn [map concat]. rewrite <- app_assoc. do 3 f_equal. lia.
Qed.
Definition dlist_payload (s : Store) : bytes :=
  [1] ++ [blen (dl_entries s)] ++ zeros 2 ++ le_enc 4 (ss_lastAllocAMap (st_state s)) ++
  dl_bytes (dl_entries s) ++ zeros (488 - 4 * blen (dl_entries s)).

Lemma dl_entries_facts s : RegionCount s ≤ 2 ^ 20 → Forall bitmap_ok (regions s) →
  blen (dl_entries s) ≤ 119 ∧ Forall dl_ok (dl_entries s) ∧ NoDup (map fst (dl_entries s)) ∧
  ∀ e, e ∈ dl_entries s → e.1 < RegionCount s.
Proof.
  intros Hc Hm. unfold dl_entries. set (all := imap _ (regions s)). set (l := filter _ all).
  assert (∀ e, e ∈ all → dl_ok e ∧ e.1 < RegionCount s) as Hall.
  { intros e He. apply list_elem_of_lookup in He as (i & Hi). unfold all in Hi. rewrite list_lookup_imap in Hi.
    apply fmap_Some in Hi as (b & Hb & ->). pose proof (lookup_lt_Some _ _ _ Hb) as Hlt. destruct (Forall_lookup_1 _ _ _ _ Hm Hb) as [Hl _].
    pose proof (countFree_bounds b) as Hcf. unfold RegionCount, blen in *. unfold dl_ok. cbn [fst snd]. rewrite u32_small by lia. lia. }
  assert (NoDup (map fst all)) as Hnd.
  { enough (map fst all = map Z.of_nat (seq 0 (length (regions s)))) as ->.
    { apply NoDup_fmap_2; [intros x y ?; lia|]. apply NoDup_seq. }
    apply list_eq. intros k. unfold all.
    change (map fst ?x) with (fst <$> x). change (map Z.of_nat ?x) with (Z.of_nat <$> x).
    rewrite !list_lookup_fmap, list_lookup_imap. destruct (decide (k < length (regions s))%nat) as [Hk|Hk].
    - rewrite lookup_seq_lt by lia. destruct (lookup_lt_is_Some_2 _ _ Hk) as [b ->]. cbn.
      rewrite u32_small by (unfold RegionCount, blen in *; lia). done.
    - rewrite lookup_seq_ge by lia. by rewrite (lookup_ge_None_2 (regions s)) by lia. }
  pose proof (merge_sort_Permutation dl_le l) as Hperm.
  assert (∀ e, e ∈ take (Z.to_nat DListMaxEntries) (merge_sort dl_le l) → e ∈ all) as Hin.
  { intros e He. apply elem_of_take in He as (n & He & _).
    apply list_elem_of_lookup_2 in He. rewrite Hperm in He. unfold l in He. by apply list_elem_of_filter in He as [_ He]. }
  split_and!.
  - unfold blen. rewrite length_take. change (Z.to_nat DListMaxEntries) with 119%nat. lia.
  - apply Forall_forall. intros e He. by apply Hall, Hin.
  - eapply sublist_NoDup; [|apply fmap_sublist, sublist_take].
    rewrite (fmap_Permutation fst _ _ Hperm). eapply sublist_NoDup; [exact Hnd|]. apply fmap_sublist. apply sublist_filter.
  - intros e He. by apply Hall, Hin.
Qed.

Lemma encodeDList_Ok s : RegionCount s ≤ 2 ^ 20 → Forall bitmap_ok (regions s) → ss_dlistBID (st_state s) ≠ 0 →
  encodeDList s = Ok (page_image (dlist_payload s) PageDList (ss_dlistBID (st_state s)) DListPageOffset) ∧
  blen (dlist_payload s) = 496.
Proof.
  intros Hc Hm Hd. destruct (dl_entries_facts s Hc Hm) as (Hn & _ & _ & _). pose proof (blen_nonneg (dl_entries s)).
  assert (blen (dlist_payload s) = 496) as Hl.
  { unfold dlist_payload. rewrite !blen_app, blen_dl_bytes, blen_le_enc, !blen_zeros. change (blen [1]) with 1.
    change (blen [blen (dl_entries s)]) with 1. lia. }
  split; [|done]. unfold encodeDList. set (es := dl_entries s) in *.
  change (zeros AMapBitmapBytes) with ([] ++ zeros (496 - 0)).
  rewrite (put8_fill [] 0) by (done || lia). rewrite bind_Ok.
  change (([] ++ zeros (0 - 0) ++ [DFLBackfillComplete]) ++ zeros (496 - (0 + 1))) with ([1] ++ zeros (496 - 1)).
  rewrite (put8_fill [1] 1) by (done || lia). rewrite bind_Ok, (u8_small (blen es)) by lia.
  change (([1] ++ zeros (1 - 1) ++ [blen es]) ++ zeros (496 - (1 + 1))) with ([1; blen es] ++ zeros (496 - 2)).
  rewrite (put_fill [1; blen es] 2) by (done || lia). rewrite bind_Ok. change (4 - 2) with 2.
  replace (496 - (4 + Z.of_nat 4)) with (496 - (8 + 0 * 4)) by lia.
  rewrite put_entries_Ok by (rewrite ?blen_app, ?blen_le_enc, ?blen_cons, ?blen_nil, ?blen_zeros; lia). rewrite bind_Ok.
  replace (496 - (8 + 4 * (0 + blen es))) with (488 - 4 * blen es) by lia.
  match goal with |- EncodePage ?x _ _ _ = _ => replace x with (dlist_payload s) end.
  2:{ unfold dlist_payload. fold es. rewrite <- !app_assoc. done. }
  rewrite EncodePage_Ok; [|lia|split; [done|done]]. rewrite Hl. change (zeros (496 - 496)) with (@nil Z). by rewrite app_nil_r.
Qed.
Lemma dlist_payload_ok s : RegionCount s ≤ 2 ^ 20 → Forall bitmap_ok (regions s) → bytes_ok (dlist_payload s).
Proof.
  intros Hc Hm. destruct (dl_entries_facts s Hc Hm) as (Hn & _ & _ & _). pose proof (blen_nonneg (dl_entries s)).
  unfold dlist_payload. repeat apply Forall_app_2; auto with pst.
  - repeat constructor; unfold is_byte; lia.
  - repeat constructor; unfold is_byte; lia.
  - unfold dl_bytes. apply bytes_ok_concat. auto with pst.
Qed.
Lemma inspect_dlist_back (pre post : bytes) es i seen : Forall dl_ok es → NoDup (map fst es ++ seen) → blen pre = 8 + i * 4 → 0 ≤ i →
  inspect_dlist_entries (pre ++ dl_bytes es ++ post) i (length es) seen = Ok es.
Proof.
  revert pre i seen. induction es as [|e es IH]; intros pre i seen Hok Hnd Hp Hi; [done|]. cbn [length inspect_dlist_entries].
  apply Forall_cons in Hok as [He Hok]. destruct (dl_word_back e He) as (Hf & H1 & H2).
  unfold dl_bytes. cbn [map concat]. rewrite <- app_assoc. rewrite (rd_field pre _ 4 (dl_word e)) by (done || lia).
  rewrite bind_Ok, H1, H2. cbn [map app] in Hnd. apply NoDup_cons in Hnd as [Hni Hnd].
  rewrite bool_decide_eq_false_2 by (intros H; apply Hni, elem_of_app; by right).
  rewrite app_assoc. fold (dl_bytes es). rewrite IH; [destruct e; by rewrite bind_Ok|done| | |lia].
  - apply NoDup_app in Hnd as (Ha & Hb & Hc). apply NoDup_app. split_and!; [done| |].
    + intros x Hx [->|Hs]%elem_of_cons; [apply Hni, elem_of_app; by left|by apply (Hb x)].
    + apply NoDup_cons. split; [intros H; apply Hni, elem_of_app; by right|done].
  - rewrite blen_app, blen_le_enc. lia.
Qed.
Definition dlist_image (s : Store) : bytes := page_image (dlist_payload s) PageDList (ss_dlistBID (st_state s)) DListPageOffset.
Lemma InspectDList_back s : RegionCount s ≤ 2 ^ 20 → Forall bitmap_ok (regions s) → fits 64 (ss_dlistBID (st_state s)) →
  ss_dlistBID (st_state s) ≠ 0 → fits 32 (ss_lastAllocAMap (st_state s)) →
  ∃ dl, InspectDList (dlist_image s) = Ok dl ∧ DV_Entries dl = dl_entries s ∧ DV_Current dl = ss_lastAllocAMap (st_state s) ∧
    PV_BID (DV_Page dl) = ss_dlistBID (st_state s).
Proof.
  intros Hc Hm Hf Hd Hla. destruct (dl_entries_facts s Hc Hm) as (Hn & Hok & Hnd & _). pose proof (blen_nonneg (dl_entries s)).
  destruct (encodeDList_Ok s Hc Hm Hd) as [_ Hl]. unfold InspectDList, dlist_image.
  rewrite InspectPage_image; [|done|by apply dlist_payload_ok|split; done|done|done]. rewrite bind_Ok.
  cbn [PV_Type PV_BID PV_Payload]. change (PageDList =? PageDList) with true. cbn [negb].
  change (page_bid PageDList (ss_dlistBID (st_state s)) DListPageOffset) with (ss_dlistBID (st_state s)).
  rewrite (proj2 (Z.eqb_neq _ _) Hd).
  assert (index (dlist_payload s) 1 = Ok (blen (dl_entries s))) as -> by (by apply index_Ok).
  rewrite bind_Ok. unfold DListMaxEntries. rewrite (proj2 (Z.ltb_ge _ _)) by lia.
  assert (dlist_payload s = ([1] ++ [blen (dl_entries s)] ++ zeros 2 ++ le_enc 4 (ss_lastAllocAMap (st_state s))) ++
    dl_bytes (dl_entries s) ++ zeros (488 - 4 * blen (dl_entries s))) as Epay by (unfold dlist_payload; by rewrite <- !app_assoc).
  assert (inspect_dlist_entries (dlist_payload s) 0 (Z.to_nat (blen (dl_entries s))) [] = Ok (dl_entries s)) as ->.
  { rewrite Epay. unfold blen at 3. rewrite Nat2Z.id. apply inspect_dlist_back; [done|by rewrite app_nil_r| |lia].
    by rewrite !blen_app, blen_le_enc. }
  rewrite bind_Ok. assert (index (dlist_payload s) 0 = Ok 1) as -> by (by apply index_Ok). rewrite bind_Ok.
  assert (rd 4 4 (dlist_payload s) = Ok (ss_lastAllocAMap (st_state s))) as ->.
  { unfold dlist_payload. rewrite (app_assoc [1]), (app_assoc ([1] ++ _)). by apply rd_field. }
  rewrite bind_Ok. eexists. split_and!; [done|done|done|done].
Qed.

(** ** A store that can be saved *)
Record savable (s : Store) : Prop := mkSavable {
  sv_wf : store_wf s;
  sv_size : 1 ≤ RegionCount s ≤ 2 ^ 20;
  sv_last : 0 ≤ ss_lastAllocAMap (st_state s) < RegionCount s;
  sv_unique : 0 < ss_unique (st_state s) < 2 ^ 32;
  sv_pages : fits 64 (ss_bidNextP (st_state s)) ∧ 0 < ss_dlistBID (st_state s) < ss_bidNextP (st_state s);
  sv_blocks : fits 64 (ss_bidNextB (st_state s)) ∧ FirstAllocBID ≤ ss_bidNextB (st_state s) ∧ Z.land (ss_bidNextB (st_state s)) 3 = 0;
  sv_roots : fits 64 (BREF_BID (ss_nbtRoot (st_state s))) ∧ fits 64 (BREF_IB (ss_nbtRoot (st_state s))) ∧
             fits 64 (BREF_BID (ss_bbtRoot (st_state s))) ∧ fits 64 (BREF_IB (ss_bbtRoot (st_state s)));
  sv_nids : length (ss_nids (st_state s)) = 32%nat ∧ Forall (fits 32) (ss_nids (st_state s)) }.

Definition draft (s : Store) (valid : Z) : HeaderDraft := store_HeaderDraft (with_state s (set_valid (st_state s) valid)).
Lemma AMapLast_ok s : region_ok (RegionCount s) → 1 ≤ RegionCount s → AMapLast s = slot_addr (3968 * (RegionCount s - 1)).
Proof.
  intros Hr Hc. unfold AMapLast. rewrite (proj2 (Z.eqb_neq _ _)) by lia. unfold region_ok in Hr.
  rewrite AMapOffset_ok by (unfold region_ok; lia). unfold slot_addr. lia.
Qed.
Lemma draft_facts s valid : savable s → draft_wf (draft s valid) ∧ (amap_ok valid → draft_ok (draft s valid)).
Proof.
  intros H. pose proof (wf_room s (wf_maps_wf s (sv_wf s H))) as Hr. destruct (sv_size s H) as [Hc _].
  pose proof (sv_unique s H) as Hu. destruct (sv_pages s H) as [Hp _], (sv_blocks s H) as [Hb _], (sv_roots s H) as (Q1 & Q2 & Q3 & Q4), (sv_nids s H) as [N1 N2].
  split.
  - unfold draft, store_HeaderDraft, draft_wf. cbn -[FileEOF AMapLast AMapFree DefaultHeaderDraft fits].
    change (FileEOF (with_state s _)) with (FileEOF s). change (AMapLast (with_state s _)) with (AMapLast s).
    change (AMapFree (with_state s _)) with (AMapFree s). rewrite (proj2 (Z.eqb_neq (ss_unique _) 0)) by lia.
    rewrite FileEOF_ok, AMapLast_ok by assumption. unfold region_ok in Hr.
    split_and!; [exact N1|exact N2|exact Hp| | |exact Hb| | |apply u64_range| |exact Q1|exact Q2|exact Q3|exact Q4];
      unfold fits, slot_addr; first [lia|done].
  - intros Ha. split_and!; first [exact Ha|by vm_compute].
Qed.
Lemma writeHeader_produces s valid : savable s → amap_ok valid →
  produces (writeHeader s valid) [SWrite 0 (header_image (draft s valid))] tt ∧ blen (header_image (draft s valid)) = 564.
Proof.
  intros Hs Ha. destruct (draft_facts s valid Hs) as [Hw Hok]. specialize (Hok Ha). split.
  - unfold writeHeader. change [SWrite 0 (header_image (draft s valid))] with ([] ++ [SWrite 0 (header_image (draft s valid))]).
    eapply produces_bind; [apply produces_lift|apply produces_emit]. apply EncodeUnicodeHeader_exact; [apply Hw|done].
  - apply blen_header_image, Hw.
Qed.

(** ** The body *)
(** What the copy from the source leaves at a position. *)
Definition copied (s : Store) (p : Z) : option Z :=
  match store_reader s with Some src => if p <? blen src then Some (byte_at src p) else None | None => None end.
(** The byte the body leaves at a position of the file. *)
Definition body_byte (s : Store) (p : Z) : option Z :=
  if p <? DListPageOffset then copied s p
  else if p <? 0x4400 then Some (byte_at (dlist_image s) (p - DListPageOffset))
  else match written (writes (region_writes s ((p - 0x4400) / 253952))) p with
       | Some v => Some v
       | None => if used (regions s) ((p - 0x4400) / 64) then copied s p else Some 0
       end.

Lemma writeBody_produces s : savable s →
  ∃ ops, produces (writeBody s) (ops ++ [STruncate (FileEOF s)]) tt ∧ Forall (write_in 564 (FileEOF s)) ops ∧
    ∀ p, 564 ≤ p < FileEOF s → written ops p = body_byte s p.
Proof.
  intros Hs. destruct (sv_wf s Hs) as [Hwf Hmeta]. pose proof (wf_room s Hwf) as Hr. destruct (sv_size s Hs) as [Hc Hc2].
  set (n := RegionCount s) in *. set (eof := FileEOF s). assert (eof = slot_addr (3968 * n)) as Heof by (by apply FileEOF_ok).
  assert (0x4400 + 253952 ≤ eof) as Hbig by (rewrite Heof; unfold slot_addr; lia).
  assert (∃ o1, produces (match store_reader s with Some src => copyReaderAtFrom src UnicodeHeaderSize eof | None => mret tt end) o1 tt ∧
    Forall (write_in 564 eof) o1 ∧ ∀ p, 564 ≤ p < eof → written o1 p = copied s p) as (o1 & P1 & I1 & W1).
  { unfold copied. destruct (store_reader s) as [src|].
    - destruct (copyReaderAtFrom_spec src 564 eof) as (o & P & I & W); [lia|lia|]. exists o. split_and!; [done|done|].
      intros p Hp. rewrite W. cmp_cases; (done || lia).
    - exists []. split_and!; [apply produces_ret|done|done]. }
  destruct (each_region_spec (λ i b, zero_runs (S (Z.to_nat SlotsPerAMap)) b i 0) (λ i b p, if free_byte b i 0 p then Some 0 else None)
    n 0 (regions s)) as (o2 & P2 & I2 & W2); [lia|done| |].
  { intros j b Hj Hb. apply lookup_lt_Some in Hb.
    destruct (zero_runs_spec (S (Z.to_nat SlotsPerAMap)) b j 0) as (o & P & I & W).
    - unfold region_ok, n, RegionCount, blen in *. lia.
    - lia.
    - by vm_compute.
    - exists o. split_and!; [done| |done]. by rewrite Z.add_0_r in I. }
  destruct (encodeDList_Ok s) as [Hdl Hdll]; [done|apply Hwf|destruct (sv_pages s Hs); lia|].
  destruct (each_region_spec (λ i _, do pages <- lift (encodeRegionPages s i); write_all pages) (λ i _ p, written (writes (region_writes s i)) p)
    n 0 (regions s)) as (o3 & P3 & I3 & W3); [lia|done| |].
  { intros j b Hj Hb. apply lookup_lt_Some in Hb. assert (0 ≤ j < n) as Hjn by (unfold n, RegionCount, blen; lia).
    exists (writes (region_writes s j)). split_and!; [| |done].
    - change (writes (region_writes s j)) with ([] ++ writes (region_writes s j)).
      eapply produces_bind; [apply produces_lift; by apply encodeRegionPages_Ok|apply write_all_produces].
    - assert (region_ok j) as Hrj by (unfold region_ok in *; lia). pose proof (map_slots_bound j Hrj).
      eapply write_in_weaken; [..|by apply region_writes_in]; unfold slot_addr; lia. }
  assert (blen (dlist_image s) = 512) as Hdb by (unfold dlist_image, page_image; rewrite blen_app, blen_page_tail, Hdll; done).
  exists (o1 ++ o2 ++ [SWrite DListPageOffset (dlist_image s)] ++ o3). split_and!.
  - unfold writeBody. fold eof. rewrite <- !app_assoc.
    eapply produces_bind; [exact P1|]. cbv beta. eapply produces_bind; [exact P2|]. cbv beta.
    apply (produces_bind _ _ [] _ (dlist_image s)); [by apply produces_lift|]. apply produces_emit_bind.
    eapply produces_bind; [exact P3|apply produces_emit].
  - rewrite !Forall_app. split_and!; [done| |apply Forall_singleton; cbn [write_in]; rewrite Hdb; unfold DListPageOffset; lia|].
    all: eapply write_in_weaken; [..|eassumption]; rewrite ?Heof; unfold slot_addr; lia.
  - intros p Hp. rewrite !written_app, W1, W2, W3 by done. unfold body_byte, DListPageOffset. unfold slot_addr at 1 2.
    replace (17408 + 64 * (3968 * 0)) with 0x4400 by lia. rewrite !Z.sub_0_r.
    assert (written [SWrite 0x4200 (dlist_image s)] p = if (0x4200 <=? p) && (p <? 0x4400) then Some (byte_at (dlist_image s) (p - 0x4200)) else None) as ->.
    { unfold written. cbn [fold_left op_byte]. rewrite Hdb. by destruct (_ && _). }
    destruct (Z.leb_spec 0x4400 p) as [Hge|Hlt].
    + rewrite (proj2 (Z.ltb_ge p 0x4200)), (proj2 (Z.ltb_ge p 0x4400)), (proj2 (Z.leb_le 0x4200 p)) by lia. cbn [andb].
      set (i := (p - 0x4400) / 253952). assert (0 ≤ i < n) as Hi by (subst i; rewrite Heof in Hp; unfold slot_addr in Hp; divlia).
      destruct (lookup_lt_is_Some_2 (regions s) (Z.to_nat i)) as [b Hb]; [unfold n, RegionCount, blen in Hi; lia|]. rewrite Hb.
      destruct (written (writes (region_writes s i)) p); [done|].
      assert (used (regions s) ((p - 0x4400) / 64) = bitIsSet b ((p - slot_addr (3968 * i)) / 64)) as ->.
      { unfold used. replace ((p - 0x4400) / 64 / 3968) with i by (subst i; divlia). rewrite Hb. f_equal. unfold slot_addr. subst i. divlia. }
      unfold free_byte. rewrite (proj2 (Z.leb_le _ _)), (proj2 (Z.ltb_lt _ _)) by (unfold slot_addr; subst i; divlia). cbn [andb].
      by destruct (bitIsSet _ _).
    + rewrite (proj2 (Z.ltb_lt p 0x4400)) by lia. destruct (Z.leb_spec 0x4200 p); cbn [andb].
      * by rewrite (proj2 (Z.ltb_ge p 0x4200)) by lia.
      * by rewrite (proj2 (Z.ltb_lt p 0x4200)) by lia.
Qed.

(** ** The image *)
Definition image_ops (s : Store) (body : trace) : trace :=
  [SWrite 0 (header_image (draft s AMapInvalid)); SSync] ++ (body ++ [STruncate (FileEOF s)]) ++
  [SSync; SWrite 0 (header_image (draft s AMapValid2)); SSync].
Lemma WriteTo_produces s : savable s →
  ∃ body, produces (WriteTo s) (image_ops s body) (with_state s (set_valid (st_state s) AMapValid2)) ∧
    Forall (write_in 564 (FileEOF s)) body ∧ ∀ p, 564 ≤ p < FileEOF s → written body p = body_byte s p.
Proof.
  intros Hs. destruct (writeBody_produces s Hs) as (body & P & I & W). exists body. split_and!; [|done|done].
  destruct (writeHeader_produces s AMapInvalid Hs ltac:(by right)) as [H0 _].
  destruct (writeHeader_produces s AMapValid2 Hs ltac:(by left)) as [H2 _].
  unfold WriteTo, writeTwoPhase, image_ops.
  apply (produces_bind _ _ [SWrite 0 (header_image (draft s AMapInvalid))] _ tt); [done|]. apply produces_emit_bind.
  eapply produces_bind; [exact P|]. apply produces_emit_bind.
  apply (produces_bind _ _ [SWrite 0 (header_image (draft s AMapValid2))] [SSync] tt); [done|]. apply produces_emit_bind, produces_ret.
Qed.

Record is_image (s : Store) (f0 img : bytes) : Prop := mkIsImage {
  im_size : blen img = FileEOF s;
  im_header : sub img 0 564 = header_image (draft s AMapValid2);
  im_body : ∀ p, 564 ≤ p < FileEOF s → byte_at img p = default (byte_at f0 p) (body_byte s p) }.
Lemma FileEOF_big s : savable s → FileEOF s = slot_addr (3968 * RegionCount s) ∧ 0x4400 + 253952 ≤ FileEOF s < 2 ^ 63.
Proof.
  intros Hs. destruct (sv_size s Hs). rewrite FileEOF_ok by (try done; apply (sv_wf s Hs)). unfold slot_addr. lia.
Qed.
Lemma image_ops_image s f0 body : savable s → Forall (write_in 564 (FileEOF s)) body →
  (∀ p, 564 ≤ p < FileEOF s → written body p = body_byte s p) → is_image s f0 (run_ops f0 (image_ops s body)).
Proof.
  intros Hs Hin Hw. destruct (FileEOF_big s Hs) as [_ Hbig]. set (eof := FileEOF s) in *.
  destruct (writeHeader_produces s AMapInvalid Hs ltac:(by right)) as [_ L0].
  destruct (writeHeader_produces s AMapValid2 Hs ltac:(by left)) as [_ L2].
  set (h0 := header_image (draft s AMapInvalid)) in *. set (h2 := header_image (draft s AMapValid2)) in *.
  assert (Forall (op_in 0 eof) (image_ops s body)) as Hall.
  { unfold image_ops. fold h0 h2 eof. rewrite !Forall_app, !Forall_cons. cbn [op_in]. rewrite L0, L2.
    split_and!; try done; try lia. by eapply write_in_op_in; [..|exact Hin]. }
  unfold image_ops in *. fold h0 h2 eof in Hall |- *. split.
  - rewrite !run_ops_app. cbn [run_ops fold_left apply_op]. rewrite blen_write_at by lia. rewrite blen_truncate by lia. lia.
  - rewrite !run_ops_app. cbn [run_ops fold_left apply_op]. rewrite <- L2. by apply read_write_at.
  - intros p Hp. rewrite (run_ops_byte 0 eof _ f0 p ltac:(lia) Hall) by lia. f_equal.
    rewrite !written_app, Hw by done.
    assert (∀ h, blen h = 564 → op_byte (SWrite 0 h) p = None) as Hh.
    { intros h Hl. cbn [op_byte]. rewrite Hl. cmp_cases; (done || lia). }
    unfold written. cbn [fold_left]. rewrite !Hh by done. cbn [op_byte]. by destruct (body_byte s p).
Qed.

(** Reading the parts of an image back. *)
Section image.
Context (s : Store) (Hs : savable s) (f0 img : bytes) (Him : is_image s f0 img).

Lemma image_dlist : sub img DListPageOffset 512 = dlist_image s.
Proof using Hs Him.
  destruct (FileEOF_big s Hs) as [_ Hbig].
  assert (blen (dlist_image s) = 512) as Hl.
  { destruct (sv_size s Hs), (encodeDList_Ok s) as [_ Hl]; [done|apply (sv_wf s Hs)|destruct (sv_pages s Hs); lia|].
    unfold dlist_image, page_image. by rewrite blen_app, blen_page_tail, Hl. }
  rewrite <- Hl. apply window_eq; [done|rewrite Hl, (im_size _ _ _ Him); unfold DListPageOffset; lia|].
  intros i Hi. rewrite Hl in Hi. rewrite (im_body _ _ _ Him) by (unfold DListPageOffset; lia). unfold body_byte, DListPageOffset.
  rewrite (proj2 (Z.ltb_ge _ _)), (proj2 (Z.ltb_lt _ _)) by lia. cbn. f_equal. lia.
Qed.
Lemma image_page i p : 0 ≤ i < RegionCount s → p ∈ RegionMapPages i → sub img (MP_Offset p) 512 = page_bytes s p.
Proof using Hs Him.
  intros Hi Hp. destruct (FileEOF_big s Hs) as [He Hbig]. destruct (sv_wf s Hs) as [Hwf _]. pose proof (wf_room s Hwf).
  assert (region_ok i) as Hri by (unfold region_ok in *; lia). pose proof (map_slots_bound i Hri).
  destruct (encodeMapPage_bytes s i p Hwf Hi Hp) as [_ Hl]. destruct (map_page_index i p Hri Hp) as (m & Hm0 & Hm1 & Ho).
  rewrite <- Hl. apply window_eq; [lia|rewrite Hl, (im_size _ _ _ Him), He; unfold slot_addr; lia|].
  intros j Hj. rewrite Hl in Hj. rewrite (im_body _ _ _ Him) by (rewrite He; unfold slot_addr; lia). unfold body_byte, DListPageOffset.
  rewrite !(proj2 (Z.ltb_ge _ _)) by lia. replace ((MP_Offset p + j - 17408) / 253952) with i by divlia.
  pose proof Hp as (k & Hk)%list_elem_of_lookup.
  rewrite (windows_written _ _ k (MP_Offset p, page_bytes s p) _ (region_windows s i Hwf Hi)); [cbn; f_equal; lia| |cbn; lia].
  unfold region_writes. change (map ?f ?l) with (f <$> l). by rewrite list_lookup_fmap, Hk.
Qed.
End image.

Lemma readAtFull_Ok r off n d : sub r off n = d → blen d = n → readAtFull r off n = Ok d.
Proof. intros H1 H2. unfold readAtFull. by rewrite H1, (proj2 (Z.eqb_eq _ _)). Qed.

(** The first byte of a bitmap whose first slots are used. *)
Lemma first_byte_ff b : bitmap_ok b → (∀ k, 0 ≤ k < 8 → bitIsSet b k = true) → index b 0 = Ok 0xFF.
Proof.
  intros [Hl Hb] H. destruct b as [|x b]; [done|]. apply index_Ok; [done|]. change (Some x = Some 255). f_equal.
  apply Forall_cons in Hb as [Hx _]. pose proof (proj1 (fits_byte_bits x) Hx) as [H0 Hhi].
  apply Z.bits_inj'. intros n Hn. change 0xFF with (Z.ones 8). destruct (decide (n < 8)).
  - rewrite Z.ones_spec_low by lia. specialize (H n ltac:(lia)). rewrite bitIsSet_testbit in H by lia.
    rewrite Z.mod_small in H by lia. unfold bitmap_byte in H. by rewrite Z.div_small in H by lia.
  - rewrite Z.ones_spec_high, Hhi by lia. done.
Qed.
Lemma allocatedRange_true s i b k len : regions s !! Z.to_nat i = Some b → region_ok i → 0 ≤ i → i = k / 3968 → 0 < len →
  k mod 3968 + len ≤ 3968 → run_is b true (k mod 3968) len → allocatedRange s (slot_addr k) (64 * len) = true.
Proof.
  intros Hb Hi H0 -> Hl Hm Hr. unfold allocatedRange, region_of. rewrite AMapIndex_addr, Hb by divlia.
  rewrite addr_end by (try done; unfold in_region; divlia). destruct (addr_aligned k len) as (-> & -> & ->). cbn [negb orb].
  rewrite slotIndex_addr by (try done; divlia). rewrite (proj2 (first_clash_None _ _ _ _)); [done|]. by rewrite Z2Nat.id by lia.
Qed.

Lemma run_is_bits rs i b : rs !! Z.to_nat i = Some b → 0 ≤ i → ∀ k, 0 ≤ k < 3968 → used rs (3968 * i + k) = bitIsSet b k.
Proof.
  intros Hb Hi k Hk. unfold used. replace ((3968 * i + k) / 3968) with i by divlia. rewrite Hb. f_equal. divlia.
Qed.

Section load.
Context (s : Store) (Hs : savable s) (f0 img : bytes) (Him : is_image s f0 img).
Local Abbreviation size := (FileEOF s).

Lemma inspect_map_page i p : 0 ≤ i < RegionCount s → p ∈ RegionMapPages i →
  ∃ v, InspectPage (page_bytes s p) (MP_Offset p) = Ok v ∧ PV_Type v = MP_Type p ∧
       (MP_Type p = PageAMap → regions s !! Z.to_nat i = Some (PV_Payload v)).
Proof using Hs.
  intros Hi Hp. destruct (sv_wf s Hs) as [Hwf _]. destruct (encodeMapPage_Ok s i p Hwf Hi Hp) as (payload & He & [Hl Hb] & Hz & Ham).
  assert (page_bytes s p = page_image payload (MP_Type p) (MP_Offset p) (MP_Offset p)) as -> by (unfold page_bytes; by rewrite He).
  pose proof (wf_room s Hwf). assert (region_ok i) as Hri by (unfold region_ok in *; lia).
  destruct (map_page_index i p Hri Hp) as (m & Hm0 & Hm1 & Ho). pose proof (map_slots_bound i Hri).
  assert (fits 64 (MP_Offset p)) as Hf by (unfold fits, region_ok in *; lia).
  eexists. split; [apply InspectPage_image; [unfold blen; lia|done| |done|done]|done].
  pose proof (map_page_image payload (MP_Type p) (MP_Offset p) Hl Hz) as HE. by apply EncodePage_inv in HE as [_ Ha].
Qed.
Lemma map_page_alloc s' i b p : regions s !! Z.to_nat i = Some b → regions s' !! Z.to_nat i = Some b → 0 ≤ i < RegionCount s →
  p ∈ RegionMapPages i → allocatedRange s' (MP_Offset p) PageSize = true.
Proof using Hs.
  intros Hb Hb' Hi Hp. destruct (sv_wf s Hs) as [Hwf Hmeta]. pose proof (wf_room s Hwf).
  assert (region_ok i) as Hri by (unfold region_ok in *; lia).
  destruct (map_page_index i p Hri Hp) as (m & Hm0 & Hm1 & Ho). pose proof (map_slots_bound i Hri).
  replace (MP_Offset p) with (slot_addr (3968 * i + 8 * m)) by (rewrite Ho; unfold slot_addr; lia). change PageSize with (64 * 8).
  apply (allocatedRange_true s' i b); [done|done|lia|divlia|lia|divlia|].
  replace ((3968 * i + 8 * m) mod 3968) with (8 * m) by divlia. intros k Hk.
  rewrite <- (run_is_bits (regions s) i b) by (done || lia). apply Hmeta; [lia|]. unfold is_map_slot.
  replace ((3968 * i + k) / 3968) with i by divlia. divlia.
Qed.
Lemma page_in_file i p : 0 ≤ i < RegionCount s → p ∈ RegionMapPages i →
  (size <? u64 (MP_Offset p + PageSize)) = false ∧ readAtFull img (MP_Offset p) PageSize = Ok (page_bytes s p).
Proof using Hs Him.
  intros Hi Hp. destruct (sv_wf s Hs) as [Hwf Hmeta]. pose proof (wf_room s Hwf). destruct (FileEOF_big s Hs) as [He Hbig].
  assert (region_ok i) as Hri by (unfold region_ok in *; lia).
  destruct (map_page_index i p Hri Hp) as (m & Hm0 & Hm1 & Ho). pose proof (map_slots_bound i Hri).
  unfold PageSize. split.
  - apply Z.ltb_ge. unfold region_ok in *. rewrite u64_small by lia. rewrite He. unfold slot_addr. lia.
  - apply readAtFull_Ok; [by apply (image_page s Hs f0 img Him i)|by apply (encodeMapPage_bytes s i)].
Qed.
Lemma load_map_pages_Ok s' i b ps : regions s !! Z.to_nat i = Some b → regions s' !! Z.to_nat i = Some b → 0 ≤ i < RegionCount s →
  (∀ p, p ∈ ps → p ∈ RegionMapPages i) → load_map_pages img size s' ps = Ok tt.
Proof using Hs Him.
  intros Hb Hb' Hi. induction ps as [|p ps IH]; intros Hps; [done|]. cbn [load_map_pages].
  assert (p ∈ RegionMapPages i) as Hp by (apply Hps; by left).
  destruct (page_in_file i p Hi Hp) as [-> ->]. cbn [read_or]. rewrite bind_Ok.
  destruct (inspect_map_page i p Hi Hp) as (v & -> & Hty & _). rewrite bind_Ok, Hty, Z.eqb_refl. cbn [negb].
  rewrite (map_page_alloc s' i b) by done. cbn [negb]. apply IH. intros q Hq. apply Hps. by right.
Qed.
Lemma load_regions_Ok m i st : i + Z.of_nat m = RegionCount s → 0 ≤ i →
  load_regions m i img size (with_regions st (take (Z.to_nat i) (regions s) ++ replicate m (zeros AMapBitmapBytes))) = Ok (with_regions st (regions s)).
Proof using Hs Him.
  revert i. induction m as [|m IH]; intros i Him' Hi; cbn [load_regions].
  { cbn [replicate]. rewrite app_nil_r, take_ge; [done|unfold RegionCount, blen in Him'; lia]. }
  destruct (sv_wf s Hs) as [Hwf Hmeta]. pose proof (wf_room s Hwf) as Hr. assert (0 ≤ i < RegionCount s) as Hin by lia.
  assert (region_ok i) as Hri by (unfold region_ok in *; lia).
  set (p := mkMapPage PageAMap (AMapOffset i)). assert (p ∈ RegionMapPages i) as Hp by (unfold RegionMapPages; apply elem_of_app; left; by left).
  change (AMapOffset i) with (MP_Offset p). destruct (page_in_file i p Hin Hp) as [-> ->]. cbn [read_or]. rewrite bind_Ok.
  destruct (inspect_map_page i p Hin Hp) as (v & -> & Hty & Hpay). specialize (Hpay eq_refl). rewrite bind_Ok, Hty, Z.eqb_refl. cbn [negb].
  pose proof (Forall_lookup_1 _ _ _ _ (wf_maps s Hwf) Hpay) as Hbo. pose proof Hbo as [Hlen _].
  rewrite slice_Ok by (unfold AMapBitmapBytes, blen; lia). rewrite bind_Ok.
  rewrite sub_0_all by (unfold AMapBitmapBytes, blen; lia).
  rewrite first_byte_ff; [|done|].
  2:{ intros k Hk. rewrite <- (run_is_bits _ i _ Hpay) by lia. apply Hmeta; [lia|]. unfold is_map_slot. pose proof (map_slots_bound i Hri).
      replace ((3968 * i + k) / 3968) with i by divlia. divlia. }
  rewrite bind_Ok, Z.eqb_refl. cbn [negb].
  change (regions (with_regions st ?x)) with x. change (with_regions (with_regions st ?x) ?y) with (with_regions st y).
  assert (<[Z.to_nat i:=PV_Payload v]> (take (Z.to_nat i) (regions s) ++ replicate (S m) (zeros AMapBitmapBytes))
          = take (Z.to_nat (i + 1)) (regions s) ++ replicate m (zeros AMapBitmapBytes)) as ->.
  { assert (length (take (Z.to_nat i) (regions s)) = Z.to_nat i) as Hlt by (rewrite length_take; unfold RegionCount, blen in *; lia).
    rewrite insert_app_r_alt by lia. rewrite Hlt, Nat.sub_diag. cbn [replicate insert list_insert].
    replace (Z.to_nat (i + 1)) with (S (Z.to_nat i)) by lia. rewrite (take_S_r _ _ _ Hpay). by rewrite <- app_assoc. }
  rewrite (load_map_pages_Ok _ i (PV_Payload v)); [rewrite bind_Ok; apply IH; lia|done| |done|done].
  change (regions (with_regions st ?x)) with x. rewrite lookup_app_l, lookup_take_lt; [done|lia|].
  rewrite length_take. unfold RegionCount, blen in *. lia.
Qed.

(** What the loader returns for an image of [s]. *)
Definition loaded : Store := mkStore (set_valid (st_state s) AMapValid2) (Some img) None None.
Lemma LoadStore_image : LoadStore img = Ok loaded.
Proof using Hs Him.
  destruct (FileEOF_big s Hs) as [He Hbig]. destruct (sv_wf s Hs) as [Hwf Hmeta]. pose proof (wf_room s Hwf) as Hr.
  destruct (sv_size s Hs) as [Hc1 Hc2]. destruct (draft_facts s AMapValid2 Hs) as [Hdw Hdok]. specialize (Hdok ltac:(by left)).
  destruct (writeHeader_produces s AMapValid2 Hs ltac:(by left)) as [_ Hl2].
  destruct (sv_pages s Hs) as [Hpf Hpd], (sv_blocks s Hs) as (Hb1 & Hb2 & Hb3). pose proof (sv_last s Hs) as Hlast.
  unfold LoadStore, LoadStoreFrom. rewrite (im_size _ _ _ Him). change UnicodeHeaderSize with 564.
  rewrite (proj2 (Z.ltb_ge _ _)) by lia. rewrite (readAtFull_Ok _ _ _ _ (im_header _ _ _ Him) Hl2). cbn [read_or]. rewrite bind_Ok.
  pose proof (InspectHeader_image (draft s AMapValid2) [] Hdw Hdok) as Hh. rewrite app_nil_r in Hh. rewrite Hh.
  change (RD_AMapValid (HD_Root (draft s AMapValid2)) =? AMapValid2) with true. cbn iota. rewrite bind_Ok.
  unfold header_view. cbn [HV_Root HV_BidNextP HV_BidNextB HV_Unique HV_NIDs].
  unfold root_view. cbn [RV_FileEOF RV_AMapLast RV_PMapFree RV_AMapFree RV_NBTBID RV_NBTIB RV_BBTBID RV_BBTIB RV_AMapValid].
  unfold draft, store_HeaderDraft. cbn [HD_Root RD_FileEOF RD_AMapLast RD_AMapFree RD_PMapFree RD_NBTBID RD_NBTIB RD_BBTBID RD_BBTIB RD_AMapValid
    HD_BidNextP HD_BidNextB HD_Unique HD_NIDs].
  change (FileEOF (with_state s _)) with (FileEOF s). change (AMapLast (with_state s _)) with (AMapLast s).
  change (AMapFree (with_state s _)) with (AMapFree s).
  cbn [st_state with_state ss_unique ss_bidNextP ss_bidNextB ss_nbtRoot ss_bbtRoot ss_nids ss_valid set_valid].
  rewrite (u64_small (FileEOF s)), Z.eqb_refl by lia. cbn [negb].
  rewrite AMapLast_ok by done. unfold FirstAMapPageOffset. change AMapCoverageBytes with 253952.
  rewrite (proj2 (Z.ltb_ge _ _)) by (unfold slot_addr; lia). cbn [orb].
  replace ((slot_addr (3968 * (RegionCount s - 1)) - 17408) mod 253952) with 0 by (unfold slot_addr; divlia). cbn [Z.eqb negb].
  replace ((slot_addr (3968 * (RegionCount s - 1)) - 17408) / 253952) with (RegionCount s - 1) by (unfold slot_addr; divlia).
  rewrite AMapRegionEnd_ok by (unfold region_ok in *; lia).
  replace (FileEOF s =? 17408 + (RegionCount s - 1 + 1) * 253952) with true by (symmetry; apply Z.eqb_eq; rewrite He; unfold slot_addr; lia). cbn [negb].
  rewrite (proj2 (Z.ltb_ge _ (DListPageOffset + PageSize))) by (unfold DListPageOffset, PageSize; lia).
  destruct (encodeDList_Ok s Hc2 (wf_maps s Hwf) ltac:(lia)) as [_ Hdll].
  rewrite (readAtFull_Ok _ _ PageSize _ (image_dlist s Hs f0 img Him)) by (unfold dlist_image, page_image; by rewrite blen_app, blen_page_tail, Hdll).
  cbn [read_or]. rewrite bind_Ok.
  destruct (InspectDList_back s Hc2 (wf_maps s Hwf)) as (dl & -> & He1 & He2 & He3); [unfold fits in *; lia|lia|unfold fits; lia|].
  rewrite bind_Ok, He1, He2, He3. rewrite (proj2 (Z.leb_gt _ _)) by lia.
  destruct (dl_entries_facts s Hc2 (wf_maps s Hwf)) as (_ & _ & _ & Hlt).
  destruct (filter (λ e : Z * Z, RegionCount s - 1 < e.1) (dl_entries s)) as [|e es] eqn:Ef.
  2:{ assert (e ∈ filter (λ e : Z * Z, RegionCount s - 1 < e.1) (dl_entries s)) as Hin by (rewrite Ef; by left).
      apply list_elem_of_filter in Hin as [H1 H2]. specialize (Hlt e H2). lia. }
  rewrite (proj2 (Z.ltb_ge _ (ss_lastAllocAMap _))) by lia. rewrite (proj2 (Z.ltb_ge _ FirstAllocBID)) by done. rewrite Hb3. cbn [orb negb Z.eqb].
  set (t := mkStoreState _ _ _ _ _ _ _ _ _ _).
  pose proof (load_regions_Ok (Z.to_nat (RegionCount s - 1 + 1)) 0 (mkStore t None None None) ltac:(lia) ltac:(lia)) as HL.
  change (take (Z.to_nat 0) (regions s)) with (@nil bytes) in HL. cbn [app] in HL. unfold with_regions at 1 in HL.
  change (with_state (mkStore t None None None) (set_regions (st_state (mkStore t None None None)) (replicate (Z.to_nat (RegionCount s - 1 + 1)) (zeros AMapBitmapBytes))))
    with (mkStore t None None None) in HL. rewrite HL, bind_Ok.
  change (AMapFree (with_regions _ (regions s))) with (AMapFree s). rewrite Z.eqb_refl. cbn [negb]. rewrite mret_Ok.
  unfold loaded, t, with_io, with_regions, with_state. cbn [st_state st_work st_undo set_regions set_valid ss_lastAllocAMap ss_valid ss_unique ss_bidNextP ss_bidNextB ss_dlistBID ss_nbtRoot ss_bbtRoot ss_nids].
  pose proof (sv_unique s Hs). rewrite (proj2 (Z.eqb_neq (ss_unique _) 0)) by lia.
  unfold regions. by destruct (st_state s) as [? ? ? ? ? ? ? [] [] ?].
Qed.
End load.

(** ** Crashes: any prefix of a two-phase write *)
Definition keeps_header (op : sink_op) : Prop :=
  match op with SWrite off _ => 564 ≤ off | STruncate n => 564 ≤ n | SSync => True end.
Lemma header_survives f body : Forall keeps_header body → 564 ≤ blen f →
  sub (run_ops f body) 0 564 = sub f 0 564 ∧ 564 ≤ blen (run_ops f body).
Proof.
  intros Hb. revert f. induction Hb as [|op body Ho _ IH]; intros f Hf; [done|]. cbn [run_ops fold_left]. fold (run_ops (apply_op f op) body).
  assert (sub (apply_op f op) 0 564 = sub f 0 564 ∧ 564 ≤ blen (apply_op f op)) as [E L].
  { destruct op as [off data|n|]; cbn in *; [|unfold truncate_to|done].
    - pose proof (blen_nonneg data). rewrite write_at_frame, blen_write_at by lia. split; [done|lia].
    - pose proof (blen_nonneg f). rewrite sub_sub, Z.add_0_r, sub_app_l by lia. split; [done|].
      rewrite blen_sub by (rewrite ?blen_app, ?blen_zeros; lia). lia. }
  rewrite <- E. by apply IH.
Qed.
(** A file that still starts with the INVALID header is refused. *)
Lemma invalid_refused s f size : savable s → sub f 0 564 = header_image (draft s AMapInvalid) → ∃ e, LoadStoreFrom f size = Err e.
Proof.
  intros Hs Hh. destruct (draft_facts s AMapInvalid Hs) as [Hdw Hdok]. specialize (Hdok ltac:(by right)).
  destruct (writeHeader_produces s AMapInvalid Hs ltac:(by right)) as [_ Hl].
  unfold LoadStoreFrom. change UnicodeHeaderSize with 564. destruct (size <? 564); [by eexists|].
  rewrite (readAtFull_Ok _ _ _ _ Hh Hl). cbn [read_or]. rewrite bind_Ok.
  pose proof (InspectHeader_image (draft s AMapInvalid) [] Hdw Hdok) as H. rewrite app_nil_r in H. rewrite H.
  change (RD_AMapValid (HD_Root (draft s AMapInvalid)) =? AMapValid2) with false. by eexists.
Qed.
(** The states a crash can leave: the old file, one that is refused, or the file
    after the last header write. *)
Lemma two_phase_crash s f0 body pre post : savable s → Forall keeps_header body →
  pre ++ post = [SWrite 0 (header_image (draft s AMapInvalid)); SSync] ++ body ++ [SSync; SWrite 0 (header_image (draft s AMapValid2)); SSync] →
  run_ops f0 pre = f0 ∨ (∀ size, ∃ e, LoadStoreFrom (run_ops f0 pre) size = Err e) ∨ run_ops f0 pre = run_ops f0 (pre ++ post).
Proof.
  intros Hs Hb E. destruct (writeHeader_produces s AMapInvalid Hs ltac:(by right)) as [_ L0].
  set (h0 := header_image (draft s AMapInvalid)) in *. set (h2 := header_image (draft s AMapValid2)) in *.
  destruct pre as [|op pre]; [by left|]. cbn [app] in E. injection E as -> E. right.
  assert (∀ mid, Forall keeps_header mid → ∀ size, ∃ e, LoadStoreFrom (run_ops f0 (SWrite 0 h0 :: mid)) size = Err e) as Hmid.
  { intros mid Hm size. apply (invalid_refused s); [done|]. cbn [run_ops fold_left]. fold (run_ops (apply_op f0 (SWrite 0 h0)) mid).
    cbn [apply_op]. destruct (header_survives (write_at 0 h0 f0) mid Hm) as [-> _]; [rewrite blen_write_at; lia|].
    rewrite <- L0. by apply read_write_at. }
  change (SSync :: body ++ [SSync; SWrite 0 h2; SSync]) with ((SSync :: body) ++ [SSync; SWrite 0 h2; SSync]) in E.
  assert (Forall keeps_header (SSync :: body)) as Hb' by (by constructor).
  apply app_eq_inv in E as [(k & -> & E2) | (k & E1 & E2)].
  2:{ left. apply Hmid. rewrite E1 in Hb'. by apply Forall_app in Hb' as [? _]. }
  destruct k as [|x k]; [left; apply Hmid; by rewrite app_nil_r|]. injection E2 as <- E2.
  destruct k as [|y k]; [left; apply Hmid; apply Forall_app; split; [done|by repeat constructor]|]. injection E2 as <- E2.
  right. destruct k as [|z k].
  - cbn [app] in E2. subst post. rewrite (run_ops_app f0 (SWrite 0 h0 :: _) [SSync]). done.
  - injection E2 as <- E2. symmetry in E2. apply app_eq_nil in E2 as [-> ->]. by rewrite app_nil_r.
Qed.

(** Saving and loading. *)
Lemma not_map_byte s p : savable s → 0x4400 ≤ p < FileEOF s → ¬ is_map_slot ((p - 0x4400) / 64) →
  body_byte s p = if used (regions s) ((p - 0x4400) / 64) then copied s p else Some 0.
Proof.
  intros Hs Hp Hm. destruct (FileEOF_big s Hs) as [He _]. destruct (sv_wf s Hs) as [Hwf _]. unfold body_byte, DListPageOffset.
  rewrite !(proj2 (Z.ltb_ge p _)) by lia. set (i := (p - 0x4400) / 253952).
  assert (0 ≤ i < RegionCount s) as Hi by (subst i; rewrite He in Hp; unfold slot_addr in Hp; divlia).
  assert (written (writes (region_writes s i)) p = None) as ->; [|done].
  eapply written_outside; [eapply write_in_op_in; [..|by apply region_writes_in]; reflexivity|]. right.
  unfold is_map_slot in Hm. replace ((p - 17408) / 64 / 3968) with i in Hm by (subst i; divlia). unfold slot_addr. subst i. divlia.
Qed.


(** The operations of [publishSink], and that they leave the stage. *)
Lemma publish_produces s f1 stage f0 : savable s → is_image s f1 stage →
  ∃ ops, produces (publishSink s stage) ([SWrite 0 (header_image (draft s AMapInvalid)); SSync] ++ (ops ++ [STruncate (FileEOF s)]) ++
      [SSync; SWrite 0 (header_image (draft s AMapValid2)); SSync]) tt ∧
    Forall (write_in 564 (FileEOF s)) ops ∧
    run_ops f0 ([SWrite 0 (header_image (draft s AMapInvalid)); SSync] ++ (ops ++ [STruncate (FileEOF s)]) ++
      [SSync; SWrite 0 (header_image (draft s AMapValid2)); SSync]) = stage.
Proof.
  intros Hs Him. destruct (FileEOF_big s Hs) as [_ Hbig].
  destruct (writeHeader_produces s AMapInvalid Hs ltac:(by right)) as [P0 L0].
  destruct (writeHeader_produces s AMapValid2 Hs ltac:(by left)) as [P2 L2].
  destruct (copyReaderAtFrom_spec stage 564 (FileEOF s)) as (ops & P & I & W); [lia|lia|].
  pose proof (im_size _ _ _ Him) as Hsz. pose proof (im_header _ _ _ Him) as Hhd. set (eof := FileEOF s) in *.
  set (h0 := header_image (draft s AMapInvalid)) in *. set (h2 := header_image (draft s AMapValid2)) in *.
  exists ops. split_and!; [|done|].
  - unfold publishSink. apply (produces_bind _ _ [_] _ tt); [done|]. apply produces_emit_bind. rewrite <- app_assoc.
    eapply produces_bind; [exact P|]. cbn [app]. apply produces_emit_bind, produces_emit_bind.
    apply (produces_bind _ _ [_] _ tt); [done|]. apply produces_emit.
  - set (all := [SWrite 0 h0; SSync] ++ (ops ++ [STruncate eof]) ++ [SSync; SWrite 0 h2; SSync]).
    assert (Forall (op_in 0 eof) all) as Hall.
    { unfold all. rewrite !Forall_app, !Forall_cons. cbn [op_in]. rewrite L0, L2.
      split_and!; try done; try lia. by eapply write_in_op_in; [..|exact I]. }
    assert (∃ g, run_ops f0 all = write_at 0 h2 g ∧ blen g = eof) as (g & Hg & Hgl).
    { eexists. unfold all. rewrite !run_ops_app. cbn [run_ops fold_left apply_op]. split; [done|]. apply blen_truncate. lia. }
    apply byte_at_ext; [rewrite Hg, blen_write_at by lia; lia|]. intros p Hp. rewrite Hg, blen_write_at in Hp by lia.
    destruct (decide (p < 564)) as [Hlt|Hge].
    + assert (byte_at stage p = byte_at h2 p) as ->.
      { rewrite <- Hhd, byte_at_sub by lia. by rewrite (proj2 (Z.ltb_lt _ _)) by lia. }
      rewrite Hg, byte_at_write by lia. rewrite (proj2 (Z.leb_le _ _)), (proj2 (Z.ltb_lt _ _)) by lia. cbn [andb]. f_equal. lia.
    + rewrite (run_ops_byte 0 eof _ f0 p ltac:(lia) Hall) by lia.
      assert (written all p = Some (byte_at stage p)) as ->; [|done].
      assert (∀ h, blen h = 564 → op_byte (SWrite 0 h) p = None) as Hh.
      { intros h Hl. cbn [op_byte]. rewrite Hl. cmp_cases; (done || lia). }
      unfold all. rewrite !written_app, W. unfold written. cbn [fold_left]. rewrite !Hh by done. cbn [op_byte].
      rewrite (proj2 (Z.leb_le _ _)), (proj2 (Z.ltb_lt _ _)) by lia. done.
Qed.

Lemma EncodeFile_image s : savable s → ∃ img, EncodeFile s = Ok img ∧ is_image s [] img.
Proof.
  intros Hs. destruct (WriteTo_produces s Hs) as (body & P & I & W). exists (run_ops [] (image_ops s body)).
  split; [unfold EncodeFile; by rewrite P|by apply image_ops_image].
Qed.

(** C6: A two-phase commit is crash safe.  After any number of its operations, a
    destination that is written directly is untouched, refused by the loader,
    or loads as the store; one that a finished image is published over is
    untouched, refused, or that image. *)
Theorem store_commit_crash_safe s f0 pre post : savable s →
  ((WriteTo s []).1 = pre ++ post →
   run_ops f0 pre = f0 ∨ (∀ size, ∃ e, LoadStoreFrom (run_ops f0 pre) size = Err e) ∨
   LoadStore (run_ops f0 pre) = Ok (loaded s (run_ops f0 pre))) ∧
  (∀ stage, EncodeFile s = Ok stage → (publishSink s stage []).1 = pre ++ post →
   run_ops f0 pre = f0 ∨ (∀ size, ∃ e, LoadStoreFrom (run_ops f0 pre) size = Err e) ∨ run_ops f0 pre = stage).
Proof.
  intros Hs. destruct (FileEOF_big s Hs) as [_ Hbig].
  assert (∀ ops, Forall (write_in 564 (FileEOF s)) ops → Forall keeps_header (ops ++ [STruncate (FileEOF s)])) as Hkeep.
  { intros ops I. apply Forall_app. split; [|apply Forall_singleton; cbn; lia]. eapply Forall_impl; [exact I|]. intros []; cbn; lia. }
  split.
  - destruct (WriteTo_produces s Hs) as (body & P & I & W). rewrite P. intros Hpre. cbn [fst app] in Hpre.
    destruct (two_phase_crash s f0 (body ++ [STruncate (FileEOF s)]) pre post Hs (Hkeep _ I) (eq_sym Hpre)) as [H|[H|H]];
      [by left|by right; left|right; right].
    rewrite H, <- Hpre. apply (LoadStore_image s Hs f0). exact (image_ops_image s f0 body Hs I W).
  - intros stage He. destruct (EncodeFile_image s Hs) as (img & He' & Him). assert (img = stage) as -> by congruence.
    destruct (publish_produces s [] stage f0 Hs Him) as (ops & P & I & Hrun). rewrite P. intros Hpre. cbn [fst app] in Hpre.
    destruct (two_phase_crash s f0 (ops ++ [STruncate (FileEOF s)]) pre post Hs (Hkeep _ I) (eq_sym Hpre)) as [H|[H|H]];
      [by left|by right; left|right; right].
    rewrite H, <- Hpre. exact Hrun.
Qed.

Lemma NewStore_savable : savable NewStore.1.
Proof.
  destruct NewStore_wf as (_ & Hwf & Hc & Hst). split; rewrite ?Hc, ?Hst; [exact Hwf|lia|..]; clear; generalize (regions NewStore.1); intros r.
  1-5: by vm_compute.
  split; [done|]. apply (bool_decide_unpack _). by vm_compute.
Qed.
Lemma store_commit_crash_safe_witness : let s := NewStore.1 in ∃ stage, EncodeFile s = Ok stage ∧
  let pre := take 1 (WriteTo s []).1 in
  run_ops [1] pre = [1] ∨ (∀ size, ∃ e, LoadStoreFrom (run_ops [1] pre) size = Err e) ∨
  LoadStore (run_ops [1] pre) = Ok (loaded s (run_ops [1] pre)).
Proof.
  intros s. destruct (EncodeFile_image s NewStore_savable) as (stage & He & _). exists stage. split; [done|]. intros pre.
  refine (proj1 (store_commit_crash_safe s [1] pre (drop 1 (WriteTo s []).1) NewStore_savable) _). exact (eq_sym (take_drop 1 (WriteTo s []).1)).
Defined.
