(* ===== verification/V2Ndb.v ===== *)
(** * Writer v2: the node and block catalog ([src/writer/v2/ndb.go], [state.go], [tx.go])

    The catalog maps node IDs to node entries and block IDs to block entries
    and counts the references that trees of blocks hold; the store below it
    owns the bytes.  A range loop over a Go map sees the keys in the order of
    [MapOrder], which is any order. *)
From S2P Require Import Prelude Ids State V2Base V2Disk V2Entries V2Blocks V2Header V2Store.

(** ** The state *)
Record catalogState := mkCatalog {
  cs_ids : SequentialIDs; cs_nodes : gmap Z NBTEntry; cs_blocks : gmap Z BBTEntry;
  cs_dataTreeRefs : gmap Z Z; cs_subnodeRefs : gmap Z Z; cs_opaqueRefs : gmap Z Z; cs_livePages : list Z }.
Record NDB := mkNDB { n_store : Store; n_cat : catalogState }.

Definition cat_ids (c : catalogState) (i : SequentialIDs) : catalogState :=
  mkCatalog i (cs_nodes c) (cs_blocks c) (cs_dataTreeRefs c) (cs_subnodeRefs c) (cs_opaqueRefs c) (cs_livePages c).
Definition cat_nodes (m : gmap Z NBTEntry) (c : catalogState) : catalogState :=
  mkCatalog (cs_ids c) m (cs_blocks c) (cs_dataTreeRefs c) (cs_subnodeRefs c) (cs_opaqueRefs c) (cs_livePages c).
Definition cat_blocks (m : gmap Z BBTEntry) (c : catalogState) : catalogState :=
  mkCatalog (cs_ids c) (cs_nodes c) m (cs_dataTreeRefs c) (cs_subnodeRefs c) (cs_opaqueRefs c) (cs_livePages c).
Definition cat_pages (l : list Z) (c : catalogState) : catalogState :=
  mkCatalog (cs_ids c) (cs_nodes c) (cs_blocks c) (cs_dataTreeRefs c) (cs_subnodeRefs c) (cs_opaqueRefs c) l.
Definition cat_refs (d s o : gmap Z Z) (c : catalogState) : catalogState :=
  mkCatalog (cs_ids c) (cs_nodes c) (cs_blocks c) d s o (cs_livePages c).
Definition with_store (n : NDB) (s : Store) : NDB := mkNDB s (n_cat n).
Definition with_cat (n : NDB) (c : catalogState) : NDB := mkNDB (n_store n) c.
Definition upd_cat (f : catalogState → catalogState) : ST NDB unit := modify (λ n, with_cat n (f (n_cat n))).
Definition on_store {A} (m : ST Store A) : ST NDB A := zoom n_store with_store m.
Definition n_nodes (n : NDB) : gmap Z NBTEntry := cs_nodes (n_cat n).
Definition n_blocks (n : NDB) : gmap Z BBTEntry := cs_blocks (n_cat n).

(** The order of a range loop over a map. *)
Class MapOrder := {
  range {V} (m : gmap Z V) : list (Z * V);
  range_perm {V} (m : gmap Z V) : range m ≡ₚ map_to_list m }.

(** [sort.Slice]: in order of the key; equal keys come in some order. *)
Class SortSlice := {
  sort_by {A} (key : A → Z) (l : list A) : list A;
  sort_by_perm {A} (key : A → Z) (l : list A) : sort_by key l ≡ₚ l;
  sort_by_sorted {A} (key : A → Z) (l : list A) : StronglySorted Z.le (map key (sort_by key l)) }.

(** Loops that stop at the first error. *)
Fixpoint each {A} (f : A → result unit) (l : list A) : result unit :=
  match l with [] => mret tt | x :: l => f x ;; each f l end.
Fixpoint run_each {S A} (f : A → ST S unit) (l : list A) : ST S unit :=
  match l with [] => mret tt | x :: l => f x ;; run_each f l end.

Definition NewSequentialIDs : SequentialIDs := mkIDs NIDIndexDefault DefaultRgNID 4 4 1 0.
Definition ids_nextBlock (b : Z) (i : SequentialIDs) : SequentialIDs :=
  mkIDs (StartIndex i) (nid i) b (nextPage i) (unique i) (keys i).
Definition NewNDB : NDB := mkNDB NewStore.1 (mkCatalog NewSequentialIDs ∅ ∅ ∅ ∅ ∅ []).

(** ** Reference counts *)
Inductive extraRef := refDataTree | refSubnode.
#[export] Instance extraRef_eq_dec : EqDecision extraRef.
Proof. solve_decision. Defined.
Definition extraMap (kind : extraRef) (c : catalogState) : gmap Z Z :=
  match kind with refDataTree => cs_dataTreeRefs c | refSubnode => cs_subnodeRefs c end.
Definition cat_extra (kind : extraRef) (m : gmap Z Z) (c : catalogState) : catalogState :=
  match kind with
  | refDataTree => cat_refs m (cs_subnodeRefs c) (cs_opaqueRefs c) c
  | refSubnode => cat_refs (cs_dataTreeRefs c) m (cs_opaqueRefs c) c
  end.
Definition count_of (m : gmap Z Z) (bid : Z) : Z := default 0 (m !! bid).
Definition node_refs (bid : Z) (e : NBTEntry) : Z :=
  (if N_DataBID e =? bid then 1 else 0) + (if N_SubBID e =? bid then 1 else 0).
Definition nbtLiveRefs (c : catalogState) (bid : Z) : Z :=
  if bid =? 0 then 0 else map_fold (λ _ e n, node_refs bid e + n) 0 (cs_nodes c).
Definition extraLiveRefs (c : catalogState) (bid : Z) : Z :=
  count_of (cs_dataTreeRefs c) bid + count_of (cs_subnodeRefs c) bid + count_of (cs_opaqueRefs c) bid.
Definition computeRef (c : catalogState) (bid : Z) : Z := u16 (1 + nbtLiveRefs c bid + extraLiveRefs c bid).
Definition set_refcount (r : Z) (e : BBTEntry) : BBTEntry := mkBBTEntry (B_BID e) (B_IB e) (B_CB e) r.
Definition resyncRef (bid : Z) : ST NDB unit :=
  if bid =? 0 then mret tt else
  do n <- get;
  match n_blocks n !! bid with
  | None => lift (invalidArg "bid" "missing BID 0x%x" [bid])
  | Some e => upd_cat (cat_blocks (<[bid := set_refcount (computeRef (n_cat n) bid) e]> (n_blocks n)))
  end.
Definition addExtra (bid : Z) (kind : extraRef) : ST NDB unit :=
  do n <- get;
  match n_blocks n !! bid with
  | None => lift (invalidArg "bid" "data-tree/subnode ref to missing BID 0x%x" [bid])
  | Some _ =>
    let m := extraMap kind (n_cat n) in
    upd_cat (cat_extra kind (<[bid := count_of m bid + 1]> m)) ;; resyncRef bid
  end.
Definition AddDataTreeRef (bid : Z) : ST NDB unit := addExtra bid refDataTree.
Definition AddSubnodeRef (bid : Z) : ST NDB unit := addExtra bid refSubnode.

(** ** Payloads *)
Definition putPayload (e : BBTEntry) (data : bytes) : ST NDB unit :=
  if negb (B_CB e =? blen data) then lift (invalidArg "cb" "payload %d bytes, BBT cb %d" [blen data; B_CB e]) else
  do raw <- lift (if BIDIsInternal (B_BID e) then EncodeInternalBlock data (B_BID e) (B_IB e)
                  else EncodeBlock data (B_BID e) (B_IB e));
  on_store (writeExtent (B_IB e) raw).
Definition blockPayload (s : Store) (e : BBTEntry) : result bytes :=
  let size := BlockDiskSize (B_CB e) in
  if B_IB e =? 0 then invariant "2.2.2.8.1" "ib" "missing payload for BID 0x%x at 0x%x" [B_BID e; B_IB e] else
  raw ← readExtent s (B_IB e) size;
  v ← InspectBlock raw (B_IB e);
  if negb (BV_BID v =? B_BID e) then invariant "2.2.2.2" "bid" "payload BID 0x%x want 0x%x" [BV_BID v; B_BID e] else
  mret (BV_Plain v).

(** ** Allocating blocks *)
Definition noteBID (bid : Z) : ST NDB unit :=
  on_store (noteBlockBID bid) ;;
  modify (λ n, with_cat n (cat_ids (n_cat n) (ids_nextBlock (ss_bidNextB (st_state (n_store n))) (cs_ids (n_cat n))))).
Definition take_id (take : SequentialIDs → result (Z * SequentialIDs)) : ST NDB Z := λ n,
  match take (cs_ids (n_cat n)) with
  | Ok (bid, ids) => (with_cat n (cat_ids (n_cat n) ids), Ok bid)
  | Err e => (n, Err e)
  | Panic => (n, Panic)
  end.
(** [if err != nil { _ = undo(); return err }] *)
Definition or_undo {S A} (undo : ST S unit) (m : ST S A) : ST S A := λ s,
  match m s with
  | (s, Err e) => match undo s with (s, Panic) => (s, Panic) | (s, _) => (s, Err e) end
  | r => r
  end.
(** [AllocBlock] and [AllocInternalBlock] differ in the ID they take. *)
Definition alloc_block (take : SequentialIDs → result (Z * SequentialIDs)) (cb : Z) : ST NDB BBTEntry :=
  let size := BlockDiskSize cb in
  do ib <- on_store (Allocate size);
  do bid <- or_undo (on_store (Free ib size)) (take_id take);
  or_undo (on_store (Free ib size)) (noteBID bid) ;;
  let e := mkBBTEntry bid ib cb 1 in
  do n <- get;
  upd_cat (cat_blocks (<[bid := e]> (n_blocks n))) ;;
  mret e.
Definition AllocBlock (cb : Z) : ST NDB BBTEntry := alloc_block TakeBlockBID cb.
Definition AllocInternalBlock (cb : Z) : ST NDB BBTEntry := alloc_block TakeInternalBlockBID cb.

(** The tree a block is the root of: the children and how they are referenced. *)
Definition treeChildRefs (s : Store) (e : BBTEntry) : result (list (Z * extraRef)) :=
  if negb (BIDIsInternal (B_BID e)) then mret [] else
  match blockPayload s e with
  | Panic => Panic
  | Err _ => mret []
  | Ok data =>
    if blen data <? 2 then mret [] else
    ty ← index data 0;
    if ty =? BlockTypeXBlock then
      xb ← InspectXBlock data; mret (map (λ bid, (bid, refDataTree)) (XV_BIDs xb))
    else if ty =? V2BlockTypeSubnode then
      sn ← InspectSubnodeBlock data;
      mret (if SV_Level sn =? 0
            then concat (map (λ e, map (λ bid, (bid, refSubnode)) (filter (λ bid, bid ≠ 0) [SL_DataBID e; SL_SubBID e]))
                           (SV_Leaves sn))
            else map (λ k, (SI_Ref k, refSubnode)) (SV_Kids sn))
    else mret []
  end.
Definition freeBlockIB (e : BBTEntry) : ST NDB unit :=
  let size := BlockDiskSize (B_CB e) in
  if (B_IB e =? 0) || (size =? 0) then mret tt else
  do n <- get;
  if negb (allocatedRange (n_store n) (B_IB e) size)
  then lift (invariant "2.2.2.7.2" "ib" "reclaim of BID 0x%x at 0x%x+%d is not allocated" [B_BID e; B_IB e; size])
  else on_store (Free (B_IB e) size).

(** ** Releasing references

    A block without references is dropped, which releases its children: the
    calls recur over the tree, with the depth of call as fuel. *)
Section release.
Context (drop : Z → ST NDB unit).
Definition resync_drop (bid : Z) : ST NDB unit :=
  if bid =? 0 then mret tt else
  do n <- get;
  match n_blocks n !! bid with
  | None => mret tt
  | Some _ =>
    resyncRef bid ;;
    do n <- get;
    if (nbtLiveRefs (n_cat n) bid =? 0) && (extraLiveRefs (n_cat n) bid =? 0) then drop bid else mret tt
  end.
Definition release_extra (bid : Z) (kind : extraRef) : ST NDB unit :=
  do n <- get;
  let m := extraMap kind (n_cat n) in
  if count_of m bid <=? 0 then
    if 0 <? count_of (cs_opaqueRefs (n_cat n)) bid
    then lift (invalidArg "bid" "reopened extra refs for BID 0x%x are opaque until PST-006 reconstructs XBLOCK/SLENTRY (MS-PST %s)" [bid])
    else lift (invalidArg "bid" "no extra ref to drop for BID 0x%x" [bid])
  else
  upd_cat (cat_extra kind (if count_of m bid =? 1 then delete bid m else <[bid := count_of m bid - 1]> m)) ;;
  resync_drop bid.
Definition release_kid (k : Z * extraRef) : ST NDB unit :=
  do n <- get;
  if count_of (extraMap k.2 (n_cat n)) k.1 <=? 0 then mret tt else release_extra k.1 k.2.
End release.
Definition forget_block (bid : Z) (c : catalogState) : catalogState :=
  cat_refs (delete bid (cs_dataTreeRefs c)) (delete bid (cs_subnodeRefs c)) (delete bid (cs_opaqueRefs c))
    (cat_blocks (delete bid (cs_blocks c)) c).
Fixpoint drop_tree (fuel : nat) (bid : Z) : ST NDB unit :=
  match fuel with
  | O => lift Panic
  | S fuel =>
    do n <- get;
    match n_blocks n !! bid with
    | None => mret tt
    | Some e =>
      match treeChildRefs (n_store n) e with
      | Panic => lift Panic
      | kids =>
        upd_cat (forget_block bid) ;;
        freeBlockIB e ;;
        do kids <- lift kids;
        run_each (release_kid (drop_tree fuel)) kids
      end
    end
  end.
(** Every level of the recursion removes a block, so this depth is enough. *)
Definition dropBlock (bid : Z) : ST NDB unit := λ n, drop_tree (S (size (n_blocks n))) bid n.
Definition resyncAfterDrop (bid : Z) : ST NDB unit := resync_drop dropBlock bid.
Definition releaseExtra (bid : Z) (kind : extraRef) : ST NDB unit := release_extra dropBlock bid kind.
Definition ReleaseDataTreeRef (bid : Z) : ST NDB unit := releaseExtra bid refDataTree.
Definition ReleaseSubnodeRef (bid : Z) : ST NDB unit := releaseExtra bid refSubnode.

(** ** Nodes *)
Definition PutNode (e : NBTEntry) : ST NDB unit :=
  if (N_NID e =? 0) || negb (Z.shiftr (N_NID e) 32 =? 0)
  then lift (invalidArg "nid" "invalid NID 0x%x (MS-PST %s)" [N_NID e]) else
  do n <- get;
  lift (each (λ bid, if bid =? 0 then mret tt else
                     match n_blocks n !! bid with
                     | None => invalidArg "bid" "NBT references missing BID 0x%x (MS-PST %s)" [bid]
                     | Some _ => mret tt
                     end) [N_DataBID e; N_SubBID e]) ;;
  upd_cat (cat_nodes (<[N_NID e := e]> (n_nodes n))) ;;
  match n_nodes n !! N_NID e with
  | Some old => resyncAfterDrop (N_DataBID old) ;; resyncAfterDrop (N_SubBID old)
  | None => mret tt
  end ;;
  resyncRef (N_DataBID e) ;;
  resyncRef (N_SubBID e).
Definition NDB_DeleteNode (nid : Z) : ST NDB unit :=
  do n <- get;
  match n_nodes n !! nid with
  | None => lift (invalidArg "nid" "missing NID 0x%x" [nid])
  | Some old =>
    upd_cat (cat_nodes (delete nid (n_nodes n))) ;;
    resyncAfterDrop (N_DataBID old) ;;
    resyncAfterDrop (N_SubBID old)
  end.
Definition SetParent (nid parent : Z) : ST NDB unit :=
  do n <- get;
  match n_nodes n !! nid with
  | None => lift (invalidArg "nid" "missing NID 0x%x" [nid])
  | Some e => PutNode (mkNBTEntry (N_NID e) (N_DataBID e) (N_SubBID e) parent)
  end.

(** ** The whole catalog *)
Section loops.
Context `{!MapOrder}.
Definition overlaps (ib size oib osize : Z) : bool := (ib <? u64 (oib + osize)) && (oib <? u64 (ib + size)).
Definition occupyExtent (e : BBTEntry) : ST NDB unit :=
  if B_IB e =? 0 then lift (invalidArg "ib" "block IB is null (MS-PST %s)" []) else
  if negb (B_IB e mod BytesPerSlot =? 0)
  then lift (invalidArg "ib" "offset 0x%x is not %d-byte aligned" [B_IB e; BytesPerSlot]) else
  let size := BlockDiskSize (B_CB e) in
  if (size =? 0) || (MaxAllocBytes <? size)
  then lift (invalidArg "cb" "block disk size %d is invalid (cb=%d)" [size; B_CB e]) else
  do n <- get;
  if coversMetadata (n_store n) (B_IB e) size
  then lift (invalidArg "ib" "block at 0x%x overlaps metadata (MS-PST %s)" [B_IB e]) else
  lift (each (λ p, if overlaps (B_IB e) size p PageSize
                   then invalidArg "ib" "block at 0x%x overlaps tree page 0x%x" [B_IB e; p] else mret tt)
          (cs_livePages (n_cat n))) ;;
  lift (each (λ '(bid, o), if bid =? B_BID e then mret tt else
                if overlaps (B_IB e) size (B_IB o) (BlockDiskSize (B_CB o))
                then invalidArg "ib" "block 0x%x at 0x%x overlaps BID 0x%x at 0x%x" [B_BID e; B_IB e; B_BID o; B_IB o]
                else mret tt) (range (n_blocks n))) ;;
  (if allocatedRange (n_store n) (B_IB e) size then mret tt else on_store (Reserve (B_IB e) size)) ;;
  noteBID (B_BID e).
Definition PutBlock (e : BBTEntry) : ST NDB unit :=
  if (B_BID e =? 0) || BIDHasReserved (B_BID e)
  then lift (invalidArg "bid" "invalid block BID 0x%x (MS-PST %s)" [B_BID e]) else
  do n <- get;
  match n_blocks n !! B_BID e with
  | Some _ => lift (invalidArg "bid" "duplicate BBT BID 0x%x" [B_BID e])
  | None =>
    occupyExtent e ;;
    do n <- get;
    upd_cat (cat_blocks (<[B_BID e := set_refcount 1 e]> (n_blocks n)))
  end.
Definition unreferenced (c : catalogState) (bid : Z) : bool := (nbtLiveRefs c bid =? 0) && (extraLiveRefs c bid =? 0).
Definition reclaimOrphans : ST NDB unit :=
  do n <- get;
  run_each dropBlock (filter (λ bid, unreferenced (n_cat n) bid = true) (map fst (range (n_blocks n)))).
Definition CheckRefCounts (n : NDB) : result unit :=
  let c := n_cat n in
  each (λ '(bid, e),
    if negb (B_RefCount e =? computeRef c bid)
    then invariant "2.2.2.7.7.3.1" "cRef" "BID 0x%x cRef %d want %d" [bid; B_RefCount e; computeRef c bid] else
    if negb (B_BID e =? bid) then invariant "2.2.2.7.7.3" "bid" "map key 0x%x != entry 0x%x" [bid; B_BID e] else mret tt)
    (range (cs_blocks c)) ;;
  each (λ '(_, e), each (λ bid, if bid =? 0 then mret tt else
      match cs_blocks c !! bid with
      | None => invariant "2.2.2.7.7.3.1" "bid" "NBT 0x%x references missing BID 0x%x" [N_NID e; bid]
      | Some _ => mret tt
      end) [N_DataBID e; N_SubBID e]) (range (cs_nodes c)).
End loops.

(** ** Transactions *)
Record snapshot := mkSnapshot { sn_store : storeState; sn_cat : catalogState; sn_hadWork : bool }.
Definition capture (n : NDB) : snapshot :=
  mkSnapshot (st_state (n_store n)) (n_cat n) (bool_decide (is_Some (st_work (n_store n)))).
Definition restoreSource (snap : snapshot) (s : Store) : Store :=
  if sn_hadWork snap then
    let s := restoreUndo (ensureSpool s) in
    match st_work s with Some w => with_work s (Some (truncate_to (FileEOF s) w)) | None => s end
  else with_work s None.
Definition restore (snap : snapshot) (n : NDB) : NDB :=
  mkNDB (restoreSource snap (with_state (n_store n) (sn_store snap))) (sn_cat snap).
Definition beginTxn (snap : snapshot) (n : NDB) : NDB :=
  if sn_hadWork snap then with_store n (beginUndo (n_store n)) else n.
Definition end_txn (n : NDB) : NDB := with_store n (endUndo (n_store n)).
Definition runTxn {A} (fn : ST NDB A) : ST NDB A := λ n,
  let snap := capture n in
  match fn (beginTxn snap n) with
  | (n, Err e) => (end_txn (restore snap n), Err e)
  | (n, r) => (end_txn n, r)
  end.
