(* ===== verification/V2Txn.v ===== *)
(** * Writer v2: transactions of the catalog ([src/writer/v2/tx.go])

    Every operation of the catalog keeps what undoing it needs: the source is
    left alone and the journal covers every byte of the spool that changed.  So
    a transaction that fails leaves no trace, as long as no other transaction
    runs inside it. *)
From S2P Require Import Prelude Ids State V2Base V2Disk V2Entries V2Blocks V2Header V2Bitmap V2Store V2Journal V2Ndb.

(** ** What a store operation leaves alone *)
Definition keeps_io (s s' : Store) : Prop := st_io s' = st_io s ∧ journaled s s'.
#[export] Instance keeps_io_preorder : PreOrder keeps_io.
Proof. split; [by intros s|]. intros s1 s2 s3 [E1 J1] [E2 J2]. split; [congruence|by etrans]. Qed.
(** Only the bitmaps and the hint of the last allocation change. *)
Definition io_kept (s s' : Store) : Prop :=
  st_io s' = st_io s ∧ st_state s' = set_lastAlloc (set_regions (st_state s) (regions s')) (ss_lastAllocAMap (st_state s')).
#[export] Instance io_kept_preorder : PreOrder io_kept.
Proof.
  split; [intros s; destruct s as [[] ? ? ?]; by unfold io_kept|]. intros s1 s2 s3 [E1 S1] [E2 S2]. destruct s1 as [[] ? ? ?], s2 as [[] ? ? ?], s3 as [[] ? ? ?]. unfold io_kept, regions, set_lastAlloc, set_regions in *.
  cbn in *. split; congruence.
Qed.
Lemma io_kept_state s s' : st_io s' = st_io s → st_state s' = st_state s → io_kept s s'.
Proof. destruct s as [[] ? ? ?], s' as [[] ? ? ?]. unfold io_kept, regions, set_lastAlloc, set_regions. cbn. intros. split; congruence. Qed.
Lemma io_kept_regions s r : io_kept s (with_regions s r).
Proof. destruct s as [[] ? ? ?]. by split. Qed.
Lemma io_kept_last s i : io_kept s (with_state s (set_lastAlloc (st_state s) i)).
Proof. destruct s as [[] ? ? ?]. by split. Qed.

Lemma noteUndo_io off n : moves io_kept (noteUndo off n).
Proof.
  intros s. unfold noteUndo. destruct (st_undo s) as [u|]; [|done]. destruct (n <=? 0); [done|].
  destruct (u_eof u <=? off); [done|]. destruct (note_loop _ _ _ _ _) as [u' r]. by apply io_kept_state.
Qed.
Lemma ensureSpool_io s : io_kept s (ensureSpool s).
Proof. unfold ensureSpool. destruct (st_work s); [done|by apply io_kept_state]. Qed.
Lemma writeExtent_io ib raw : moves io_kept (writeExtent ib raw).
Proof.
  unfold writeExtent. destruct (blen raw =? 0); [apply (moves_ret io_kept)|]. moves_step.
  - destruct (_ <? _); [apply (moves_lift io_kept)|]. moves_step; [apply moves_modify, ensureSpool_io|apply noteUndo_io|].
    apply moves_modify. intros s. by apply io_kept_state.
Qed.
Lemma clearBacking_io ib size : moves io_kept (clearBacking ib size).
Proof.
  unfold clearBacking. destruct (size =? 0); [apply (moves_ret io_kept)|]. moves_step.
  destruct (st_work _); [|apply (moves_ret io_kept)]. moves_step; [apply noteUndo_io|].
  apply moves_modify. intros s. destruct (st_work s); [by apply io_kept_state|done].
Qed.
Lemma mark_io ib size alloc : moves io_kept (mark ib size alloc).
Proof.
  unfold mark. moves_step. destruct (AMapIndexForOffset ib); [|apply (moves_lift io_kept)].
  destruct (regions _ !! _); [|apply (moves_lift io_kept)]. destruct (_ <? _); [apply (moves_lift io_kept)|].
  destruct (_ || _); [apply (moves_lift io_kept)|]. destruct (first_clash _ _ _ _); [apply (moves_lift io_kept)|].
  moves_step; [apply clearBacking_io|]. apply moves_modify. intros s. apply io_kept_regions.
Qed.
Lemma Grow_io : moves io_kept Grow.
Proof.
  unfold Grow. moves_step; [apply moves_modify; intros s; apply io_kept_regions|].
  match goal with |- moves _ (grow_pages ?l) => generalize l end. intros ps.
  induction ps as [|p ps IH]; [apply (moves_ret io_kept)|]. intros s. cbn [grow_pages].
  pose proof (mark_io (MP_Offset p) PageSize true s) as Hm. destruct (mark _ _ _ s) as [s1 [[]|e|]]; cbn [fst] in *.
  - etrans; [exact Hm|apply IH].
  - etrans; [exact Hm|apply io_kept_regions].
  - done.
Qed.
Lemma take_fit_io find size e : moves io_kept (take_fit find size e).
Proof.
  unfold take_fit. moves_step.
  - destruct (find _); [apply (moves_ret io_kept)|]. moves_step; [apply Grow_io|].
    destruct (find _); [apply (moves_ret io_kept)|apply (moves_fail io_kept)].
  - apply mark_io.
  - apply moves_modify. intros s. apply io_kept_last.
Qed.
Lemma Allocate_io size : moves io_kept (Allocate size).
Proof.
  unfold Allocate. destruct (_ <? _); [apply (moves_lift io_kept)|]. moves_step; [apply moves_modify, ensureSpool_io|apply take_fit_io].
Qed.
Lemma Reserve_io ib size : moves io_kept (Reserve ib size).
Proof.
  unfold Reserve. destruct (_ <? _); [apply (moves_lift io_kept)|]. destruct (negb _); [apply (moves_lift io_kept)|]. moves_step.
  destruct (AMapIndexForOffset ib); [|apply (moves_lift io_kept)].
  destruct (_ <=? _); [apply (moves_lift io_kept)|]. destruct (_ <? _); [apply (moves_lift io_kept)|apply mark_io].
Qed.
Lemma Free_io ib size : moves io_kept (Free ib size).
Proof.
  unfold Free. destruct (negb _); [apply (moves_lift io_kept)|]. moves_step.
  destruct (coversMetadata _ _ _); [apply (moves_lift io_kept)|]. moves_step; [apply moves_modify, ensureSpool_io|apply mark_io].
Qed.
Lemma noteBlockBID_keeps bid : moves keeps_io (noteBlockBID bid).
Proof.
  unfold noteBlockBID. destruct (_ || _); [apply (moves_lift keeps_io)|]. apply moves_modify. intros s.
  split; [done|by apply journaled_state].
Qed.
Lemma both_keeps {A} (m : ST Store A) : moves io_kept m → moves journaled m → moves keeps_io m.
Proof. intros Hi Hj s. split; [apply (Hi s)|apply Hj]. Qed.

(** ** The operations of the catalog *)
Definition ndb_keeps (n n' : NDB) : Prop := keeps_io (n_store n) (n_store n').
#[export] Instance ndb_keeps_preorder : PreOrder ndb_keeps.
Proof. split; [by intros n|]. intros n1 n2 n3. unfold ndb_keeps. apply transitivity. Qed.
Lemma on_store_keeps {A} (m : ST Store A) : moves io_kept m → moves journaled m → moves ndb_keeps (on_store m).
Proof. intros Hi Hj. eapply moves_zoom; [by apply both_keeps|]. by intros s t. Qed.
Lemma upd_cat_keeps f : moves ndb_keeps (upd_cat f).
Proof. apply moves_modify. by intros n. Qed.

Lemma run_each_moves {A} (R : relation NDB) `{!PreOrder R} (f : A → ST NDB unit) l :
  (∀ x, x ∈ l → moves R (f x)) → moves R (run_each f l).
Proof.
  induction l as [|x l IH]; intros Hf; cbn [run_each]; [by apply moves_ret|]. apply moves_bind; [done|apply Hf; set_solver|].
  intros _. apply IH. set_solver.
Qed.
(** The calls that change the catalog and free areas of the store move the state
    by every relation that these two kinds of steps do. *)
Section steps.
Context (R : relation NDB) `{!PreOrder R}.
Context (Hcat : ∀ f, moves R (upd_cat f)) (Hfree : ∀ ib size, moves R (on_store (Free ib size))).
Lemma resyncRef_moves bid : moves R (resyncRef bid).
Proof using Type*.
  unfold resyncRef. destruct (bid =? 0); [apply (moves_ret R)|]. moves_step.
  destruct (_ !! _); [apply Hcat|apply (moves_lift R)].
Qed.
Lemma addExtra_moves bid kind : moves R (addExtra bid kind).
Proof using Type*.
  unfold addExtra. moves_step. destruct (_ !! _); [|apply (moves_lift R)]. moves_step; [apply Hcat|apply resyncRef_moves].
Qed.
Lemma freeBlockIB_moves e : moves R (freeBlockIB e).
Proof using Type*.
  unfold freeBlockIB. cbv zeta. destruct (_ || _); [apply (moves_ret R)|]. moves_step.
  destruct (negb _); [apply (moves_lift R)|]. apply Hfree.
Qed.
Lemma resync_drop_moves drop bid : (∀ bid, moves R (drop bid)) → moves R (resync_drop drop bid).
Proof using Type*.
  intros Hd. unfold resync_drop. destruct (bid =? 0); [apply (moves_ret R)|]. moves_step.
  destruct (_ !! _); [|apply (moves_ret R)]. moves_step; [apply resyncRef_moves|].
  destruct (_ && _); [apply Hd|apply (moves_ret R)].
Qed.
Lemma release_extra_moves drop bid kind : (∀ bid, moves R (drop bid)) → moves R (release_extra drop bid kind).
Proof using Type*.
  intros Hd. unfold release_extra. moves_step. destruct (_ <=? _).
  - destruct (_ <? _); apply (moves_lift R).
  - moves_step; [apply Hcat|by apply resync_drop_moves].
Qed.
Lemma drop_tree_moves fuel bid : moves R (drop_tree fuel bid).
Proof using Type*.
  revert bid. induction fuel as [|fuel IH]; intros bid; cbn [drop_tree]; [apply (moves_lift R)|]. moves_step.
  destruct (_ !! _) as [e|]; [|apply (moves_ret R)].
  assert (∀ kids, moves R (upd_cat (forget_block bid) ;; freeBlockIB e ;; do kids <- lift kids; run_each (release_kid (drop_tree fuel)) kids)) as H.
  { intros kids. moves_step; [apply Hcat|apply freeBlockIB_moves|]. apply run_each_moves; [apply _|].
    intros k _. unfold release_kid. moves_step. destruct (_ <=? _); [apply (moves_ret R)|by apply release_extra_moves]. }
  destruct (treeChildRefs _ _); [apply H..|apply (moves_lift R)].
Qed.
Lemma dropBlock_moves bid : moves R (dropBlock bid).
Proof using Type*. intros n. apply drop_tree_moves. Qed.
Lemma PutNode_moves e : moves R (PutNode e).
Proof using Type*.
  unfold PutNode. destruct (_ || _); [apply (moves_lift R)|]. moves_step.
  - apply Hcat.
  - destruct (_ !! _); moves_step; apply resync_drop_moves, dropBlock_moves.
  - apply resyncRef_moves.
  - apply resyncRef_moves.
Qed.
Lemma NDB_DeleteNode_moves nid : moves R (NDB_DeleteNode nid).
Proof using Type*.
  unfold NDB_DeleteNode. moves_step. destruct (_ !! _); [|apply (moves_lift R)].
  moves_step; [apply Hcat|apply resync_drop_moves, dropBlock_moves..].
Qed.
Lemma SetParent_moves nid parent : moves R (SetParent nid parent).
Proof using Type*. unfold SetParent. moves_step. destruct (_ !! _); [apply PutNode_moves|apply (moves_lift R)]. Qed.
Lemma releaseExtra_moves bid kind : moves R (releaseExtra bid kind).
Proof using Type*. apply release_extra_moves, dropBlock_moves. Qed.
End steps.
Lemma free_keeps ib size : moves ndb_keeps (on_store (Free ib size)).
Proof. apply on_store_keeps; [apply Free_io|apply Free_journaled]. Qed.
Lemma noteBID_keeps bid : moves ndb_keeps (noteBID bid).
Proof.
  unfold noteBID. moves_step; [|by apply moves_modify].
  eapply moves_zoom; [apply noteBlockBID_keeps|]. by intros s t.
Qed.
Lemma take_id_keeps take : moves ndb_keeps (take_id take).
Proof. intros n. unfold take_id. by destruct (take _) as [[bid ids]|e|]. Qed.
Lemma or_undo_keeps {A} undo (m : ST NDB A) : moves ndb_keeps undo → moves ndb_keeps m → moves ndb_keeps (or_undo undo m).
Proof.
  intros Hu Hm n. unfold or_undo. specialize (Hm n). destruct (m n) as [n1 [a|e|]]; cbn [fst] in *; [done| |done].
  specialize (Hu n1). destruct (undo n1) as [n2 [x|e2|]]; cbn [fst] in *; by etrans.
Qed.
Lemma alloc_block_keeps take cb : moves ndb_keeps (alloc_block take cb).
Proof.
  unfold alloc_block. cbv zeta. moves_step.
  - apply on_store_keeps; [apply Allocate_io|apply Allocate_journaled].
  - apply or_undo_keeps; [apply free_keeps|apply take_id_keeps].
  - apply or_undo_keeps; [apply free_keeps|apply noteBID_keeps].
  - apply upd_cat_keeps.
Qed.
Lemma encodeBlock_size data bid offset crypt internal raw : encodeBlock data bid offset crypt internal = Ok raw → blen raw < 2 ^ 63.
Proof.
  intros (_ & _ & Hcb & Hl & ->)%encodeBlock_inv. unfold block_image. rewrite !blen_app, blen_zeros, blen_block_tail, Hl.
  pose proof (blen_nonneg data). destruct (BlockDiskSize_bounds (blen data)) as [? _]; [lia|]. unfold block_pad, MaxDataBlockCB in *. lia.
Qed.
Lemma putPayload_keeps e data : 0 ≤ B_IB e → moves ndb_keeps (putPayload e data).
Proof.
  intros He. unfold putPayload. destruct (negb _); [apply (moves_lift ndb_keeps)|].
  apply (moves_bind_post ndb_keeps (λ raw, blen raw < 2 ^ 63)); [apply (moves_lift ndb_keeps)| |].
  - intros s s' raw [= _ E]. destruct (BIDIsInternal (B_BID e)) eqn:EB; [by apply encodeBlock_size in E|].
    unfold EncodeBlock, EncodeExternalBlock in E. rewrite EB in E. by apply encodeBlock_size in E.
  - intros raw Hr. apply on_store_keeps; [apply writeExtent_io|by apply writeExtent_journaled].
Qed.
Lemma PutBlock_keeps `{!MapOrder} e : moves ndb_keeps (PutBlock e).
Proof.
  unfold PutBlock. destruct (_ || _); [apply (moves_lift ndb_keeps)|]. moves_step. destruct (_ !! _); [apply (moves_lift ndb_keeps)|].
  moves_step; [|apply upd_cat_keeps]. unfold occupyExtent.
  destruct (_ =? 0); [apply (moves_lift ndb_keeps)|]. destruct (negb _); [apply (moves_lift ndb_keeps)|]. cbv zeta.
  destruct (_ || _); [apply (moves_lift ndb_keeps)|]. moves_step. destruct (coversMetadata _ _ _); [apply (moves_lift ndb_keeps)|].
  moves_step; [|apply noteBID_keeps]. destruct (allocatedRange _ _ _); [apply (moves_ret ndb_keeps)|].
  apply on_store_keeps; [apply Reserve_io|apply Reserve_journaled].
Qed.

(** ** Sequences of operations *)
Inductive ndb_op :=
  | OpPutBlock (e : BBTEntry) | OpAllocBlock (cb : Z) | OpAllocInternal (cb : Z) | OpPayload (e : BBTEntry) (data : bytes)
  | OpPutNode (e : NBTEntry) | OpDeleteNode (nid : Z) | OpSetParent (nid parent : Z)
  | OpAddRef (bid : Z) (kind : extraRef) | OpRelease (bid : Z) (kind : extraRef) | OpFail (e : error).
Definition op_ok (op : ndb_op) : Prop := match op with OpPayload e _ => 0 ≤ B_IB e | _ => True end.
Definition run_op `{!MapOrder} (op : ndb_op) : ST NDB unit :=
  match op with
  | OpPutBlock e => PutBlock e
  | OpAllocBlock cb => AllocBlock cb ;; mret tt
  | OpAllocInternal cb => AllocInternalBlock cb ;; mret tt
  | OpPayload e data => putPayload e data
  | OpPutNode e => PutNode e
  | OpDeleteNode nid => NDB_DeleteNode nid
  | OpSetParent nid parent => SetParent nid parent
  | OpAddRef bid kind => addExtra bid kind
  | OpRelease bid kind => releaseExtra bid kind
  | OpFail e => fail e
  end.
Lemma run_op_keeps `{!MapOrder} op : op_ok op → moves ndb_keeps (run_op op).
Proof.
  destruct op; cbn [op_ok run_op]; intros Hok.
  - apply PutBlock_keeps.
  - moves_step. apply alloc_block_keeps.
  - moves_step. apply alloc_block_keeps.
  - by apply putPayload_keeps.
  - apply (PutNode_moves _ upd_cat_keeps free_keeps).
  - apply (NDB_DeleteNode_moves _ upd_cat_keeps free_keeps).
  - apply (SetParent_moves _ upd_cat_keeps free_keeps).
  - apply (addExtra_moves _ upd_cat_keeps free_keeps).
  - apply (releaseExtra_moves _ upd_cat_keeps free_keeps).
  - apply (moves_fail ndb_keeps).
Qed.

(** ** Atomicity *)
(** The store a failed transaction goes back to: the spool is cut, or padded
    with zeros, to the end of the file. *)
Definition rolled_back (s : Store) : Store :=
  mkStore (st_state s) (st_io s) (truncate_to (FileEOF s) <$> st_work s) None.
Lemma restore_back n n1 : fits 63 (FileEOF (n_store n)) → ndb_keeps (beginTxn (capture n) n) n1 →
  end_txn (restore (capture n) n1) = mkNDB (rolled_back (n_store n)) (n_cat n).
Proof.
  intros Hf Hk. destruct n as [[st io work u] c]. unfold end_txn, restore, restoreSource, rolled_back, endUndo, beginTxn, capture in *.
  cbn [n_store n_cat sn_store sn_cat sn_hadWork st_state st_io st_work] in *. unfold with_store. cbn [n_store n_cat]. f_equal.
  destruct n1 as [s1 c1]. unfold ndb_keeps in Hk. cbn [n_store] in *. destruct work as [w|]; cbn [fmap option_fmap option_map] in *.
  - rewrite bool_decide_eq_true_2 in * by eauto. destruct Hk as [Hio HJ]. cbn [n_store] in *.
    destruct (HJ (byte_at w) (FileEOF (mkStore st io (Some w) u))) as (u1 & w1 & Hu1 & Hw1 & HJ1).
    { by apply beginUndo_journal. }
    assert (journal (byte_at w) (FileEOF (mkStore st io (Some w) u)) (with_state s1 st)) as HJ2 by (exists u1, w1; done).
    unfold ensureSpool. cbn [st_work with_state]. rewrite Hw1.
    destruct (restoreUndo_back _ _ _ HJ2) as (w2 & Hw2 & Hb).
    unfold restoreUndo in *. cbn [with_state st_undo st_work] in *. rewrite Hu1, Hw1 in *. cbn [with_work st_work] in *.
    injection Hw2 as Hw2. unfold with_undo, with_work, with_state, FileEOF, RegionCount, regions in *. cbn [st_state st_io st_work beginUndo with_store with_undo] in *.
    rewrite Hw2, Hio. f_equal. f_equal. apply truncate_eq; [|done]. destruct Hf. done.
  - destruct Hk as [Hio _]. rewrite bool_decide_eq_false_2 in * by (intros [x ?]; done). cbn [n_store st_io] in Hio.
    unfold with_undo, with_work, with_state. cbn [st_state st_io st_work]. by rewrite Hio.
Qed.

#[export] Program Instance map_order : MapOrder := { range := λ V m, map_to_list m }.
Next Obligation. done. Qed.
(** A catalog whose spool has four blocks of 64 bytes. *)
Definition sample_ndb : NDB :=
  mkNDB (mkStore (mkStoreState [] 0 2 1 4 4 0 (mkBREF 0 0) (mkBREF 0 0) []) None (Some (zeros 256)) None)
    (mkCatalog NewSequentialIDs ∅ ∅ ∅ ∅ ∅ []).
Definition sample_write : ndb_op := OpPayload (mkBBTEntry 4 64 1 1) [7].

(** What is left of the store [s] when its journal was lost after it had become [s1]. *)
Definition half_rolled_back (s s1 : Store) : Store :=
  mkStore (st_state s) (st_io s1) (truncate_to (FileEOF s) <$> st_work s1) None.
