(* ===== verification/V2Catalog.v ===== *)
(** * Writer v2: the reference counts of the catalog

    Every block entry counts itself, the node entries that name it and the
    references of the trees it is in; a block that nothing refers to is dropped
    with the subtree that only it held. *)
From S2P Require Import Prelude Ids State V2Base V2Disk V2Entries V2Blocks V2Header V2Store V2Ndb V2Txn.

(** ** Counting the references of the nodes *)
Definition node_sum (m : gmap Z NBTEntry) (bid : Z) : Z := map_fold (λ _ e n, node_refs bid e + n) 0 m.
Lemma node_refs_nonneg bid e : 0 ≤ node_refs bid e.
Proof. unfold node_refs. destruct (_ =? _), (_ =? _); lia. Qed.
Lemma node_sum_insert m k e bid : m !! k = None → node_sum (<[k:=e]> m) bid = node_refs bid e + node_sum m bid.
Proof. intros H. unfold node_sum. rewrite map_fold_insert_L; [done|intros; lia|done]. Qed.
Lemma node_sum_delete m k e bid : m !! k = Some e → node_sum m bid = node_refs bid e + node_sum (delete k m) bid.
Proof. intros H. rewrite <- (node_sum_insert (delete k m) k) by apply lookup_delete_eq. by rewrite insert_delete_id. Qed.
Lemma node_sum_nonneg m bid : 0 ≤ node_sum m bid.
Proof.
  induction m as [|k e m Hk IH] using map_ind; [done|]. rewrite node_sum_insert by done. pose proof (node_refs_nonneg bid e). lia.
Qed.
Lemma node_sum_lookup m k e bid : m !! k = Some e → node_refs bid e ≤ node_sum m bid.
Proof. intros H. rewrite (node_sum_delete _ _ _ _ H). pose proof (node_sum_nonneg (delete k m) bid). lia. Qed.
Lemma node_refs_zero bid e : node_refs bid e = 0 ↔ bid ∉ [N_DataBID e; N_SubBID e].
Proof.
  unfold node_refs. rewrite !not_elem_of_cons. destruct (Z.eqb_spec (N_DataBID e) bid), (Z.eqb_spec (N_SubBID e) bid);
    split; try lia; intros; set_solver.
Qed.
Lemma node_sum_zero m bid : (∀ k e, m !! k = Some e → bid ∉ [N_DataBID e; N_SubBID e]) → node_sum m bid = 0.
Proof.
  induction m as [|k e m Hk IH] using map_ind; intros H; [done|]. rewrite node_sum_insert by done.
  rewrite IH, (proj2 (node_refs_zero _ _)); [done| |].
  - apply (H k). apply lookup_insert_eq.
  - intros k' e' Hk'. apply (H k'). rewrite lookup_insert_ne; [done|congruence].
Qed.
Lemma nbtLiveRefs_sum c bid : bid ≠ 0 → nbtLiveRefs c bid = node_sum (cs_nodes c) bid.
Proof. intros H. unfold nbtLiveRefs. by rewrite (proj2 (Z.eqb_neq _ _)). Qed.

(** ** The invariant

    [stale] are the blocks whose count may be out of date, [orph] those that
    may be without references. *)
Definition ref_maps (c : catalogState) : list (gmap Z Z) := [cs_dataTreeRefs c; cs_subnodeRefs c; cs_opaqueRefs c].
Definition live (c : catalogState) (bid : Z) : Z := nbtLiveRefs c bid + extraLiveRefs c bid.
Record cat_ok (stale orph : Z → Prop) (c : catalogState) : Prop := mkCatOk {
  ck_blocks : ∀ bid e, cs_blocks c !! bid = Some e → B_BID e = bid ∧ bid ≠ 0 ∧ (stale bid ∨ B_RefCount e = computeRef c bid);
  ck_live : ∀ bid, is_Some (cs_blocks c !! bid) → live c bid = 0 → orph bid;
  ck_nodes : ∀ nid e bid, cs_nodes c !! nid = Some e → bid ∈ [N_DataBID e; N_SubBID e] → bid ≠ 0 → is_Some (cs_blocks c !! bid);
  ck_refs : ∀ m bid x, m ∈ ref_maps c → m !! bid = Some x → 0 < x ∧ is_Some (cs_blocks c !! bid) }.
Lemma cat_ok_weaken (stale stale' orph orph' : Z → Prop) c : cat_ok stale orph c →
  (∀ b, is_Some (cs_blocks c !! b) → stale b → stale' b) → (∀ b, is_Some (cs_blocks c !! b) → live c b = 0 → orph b → orph' b) → cat_ok stale' orph' c.
Proof.
  intros [B L N R] Hs Ho. split; [|by eauto..]. intros bid e He. destruct (B bid e He) as (? & ? & [?|?]); split_and!; eauto.
Qed.
Lemma count_nonneg stale orph c m bid : cat_ok stale orph c → m ∈ ref_maps c → 0 ≤ count_of m bid.
Proof.
  intros H Hm. unfold count_of. destruct (m !! bid) as [x|] eqn:E; cbn [default from_option id]; [|done]. destruct (ck_refs _ _ _ H m bid x Hm E). lia.
Qed.
Lemma extraLive_nonneg stale orph c bid : cat_ok stale orph c → 0 ≤ extraLiveRefs c bid.
Proof.
  intros H. unfold extraLiveRefs.
  assert (∀ m, m ∈ ref_maps c → 0 ≤ count_of m bid) as Hm by (intros m; by apply (count_nonneg stale orph)).
  unfold ref_maps in Hm. repeat apply Z.add_nonneg_nonneg; apply Hm; set_solver.
Qed.
(** A block that is not in the catalog has no references. *)
Lemma live_absent stale orph c bid : cat_ok stale orph c → bid ≠ 0 → cs_blocks c !! bid = None → live c bid = 0.
Proof.
  intros H Hb Hn. unfold live. rewrite nbtLiveRefs_sum by done. rewrite node_sum_zero.
  - assert (∀ m, m ∈ ref_maps c → count_of m bid = 0) as Hm.
    { intros m Hm. unfold count_of. destruct (m !! bid) as [x|] eqn:E; [|done].
      destruct (ck_refs _ _ _ H m bid x Hm E) as [_ [y Hy]]. congruence. }
    unfold extraLiveRefs. rewrite !Hm by (unfold ref_maps; set_solver). done.
  - intros k e He Hin. destruct (ck_nodes _ _ _ H k e bid He Hin Hb) as [y Hy]. congruence.
Qed.

(** What dropping blocks may do to a catalog. *)
Record below (c0 c : catalogState) : Prop := mkBelow {
  bl_nodes : cs_nodes c = cs_nodes c0; bl_ids : cs_ids c = cs_ids c0; bl_pages : cs_livePages c = cs_livePages c0;
  bl_blocks : ∀ bid e, cs_blocks c !! bid = Some e → ∃ e0, cs_blocks c0 !! bid = Some e0 ∧ e = set_refcount (B_RefCount e) e0;
  bl_refs : ∀ bid, extraLiveRefs c bid ≤ extraLiveRefs c0 bid }.
#[export] Instance below_preorder : PreOrder below.
Proof.
  split.
  - intros c. split; [done..| |done]. intros bid e He. exists e. split; [done|by destruct e].
  - intros c1 c2 c3 [N1 I1 P1 B1 R1] [N2 I2 P2 B2 R2]. split; [congruence..| |intros bid; specialize (R1 bid); specialize (R2 bid); lia].
    intros bid e (e2 & He2 & ->)%B2. destruct (B1 _ _ He2) as (e1 & He1 & ->). by exists e1.
Qed.
Definition plus (P : Z → Prop) (bid : Z) : Z → Prop := λ b, P b ∨ b = bid.

Lemma extraMap_refs kind c : extraMap kind c ∈ ref_maps c.
Proof. destruct kind; unfold ref_maps; cbn; set_solver. Qed.
Lemma cat_extra_blocks kind m c : cs_blocks (cat_extra kind m c) = cs_blocks c.
Proof. by destruct kind. Qed.
Lemma cat_extra_nodes kind m c : cs_nodes (cat_extra kind m c) = cs_nodes c.
Proof. by destruct kind. Qed.
Lemma cat_extra_refs kind m c m' : m' ∈ ref_maps (cat_extra kind m c) → m' = m ∨ m' ∈ ref_maps c.
Proof. unfold ref_maps. destruct kind; cbn; set_solver. Qed.
Lemma cat_extra_live kind m c bid : extraLiveRefs (cat_extra kind m c) bid = extraLiveRefs c bid + count_of m bid - count_of (extraMap kind c) bid.
Proof. destruct kind; unfold extraLiveRefs; cbn; lia. Qed.
(** Setting the count of one block. *)
Lemma cat_extra_ok stale orph kind m c bid : cat_ok stale orph c → is_Some (cs_blocks c !! bid) →
  (∀ b, b ≠ bid → m !! b = extraMap kind c !! b) → (∀ x, m !! bid = Some x → 0 < x) →
  cat_ok (plus stale bid) (plus orph bid) (cat_extra kind m c).
Proof.
  intros [B L N R] Hb Hm Hx.
  assert (∀ b, b ≠ bid → extraLiveRefs (cat_extra kind m c) b = extraLiveRefs c b) as Hl.
  { intros b Hne. rewrite cat_extra_live. unfold count_of. rewrite Hm by done. lia. }
  split; rewrite ?cat_extra_blocks, ?cat_extra_nodes.
  - intros b e He. destruct (B b e He) as (E1 & E2 & E3). split_and!; [done|done|]. unfold plus.
    destruct (decide (b = bid)); [tauto|]. destruct E3 as [|E3]; [tauto|]. right. rewrite E3. unfold computeRef, nbtLiveRefs.
    by rewrite cat_extra_nodes, Hl.
  - intros b Hs Hz. unfold plus. destruct (decide (b = bid)); [tauto|]. left. apply L; [done|].
    unfold live, nbtLiveRefs in *. by rewrite cat_extra_nodes, Hl in Hz.
  - done.
  - intros m' b x Hin Hm'. apply cat_extra_refs in Hin as [->|Hin]; [|by eapply R].
    destruct (decide (b = bid)) as [->|Hne]; [by split; [apply Hx|]|]. rewrite Hm in Hm' by done.
    eapply R; [apply extraMap_refs|done].
Qed.
Lemma forget_block_ok stale orph c bid : cat_ok stale (plus orph bid) c → bid ≠ 0 → live c bid = 0 →
  cat_ok stale orph (forget_block bid c) ∧ below c (forget_block bid c).
Proof.
  intros H Hb Hz. pose proof H as [B L N R].
  assert (node_sum (cs_nodes c) bid = 0) as Hn.
  { unfold live in Hz. rewrite nbtLiveRefs_sum in Hz by done. pose proof (node_sum_nonneg (cs_nodes c) bid).
    pose proof (extraLive_nonneg _ _ _ bid H). lia. }
  assert (∀ m b, b ≠ bid → count_of (delete bid m) b = count_of m b) as Hc by (intros m b Hne; unfold count_of; by rewrite lookup_delete_ne).
  assert (∀ b, b ≠ bid → extraLiveRefs (forget_block bid c) b = extraLiveRefs c b) as Hl.
  { intros b Hne. unfold extraLiveRefs. cbn. by rewrite !Hc. }
  assert (∀ b, is_Some (cs_blocks (forget_block bid c) !! b) → b ≠ bid) as Hne.
  { intros b [e He] ->. cbn in He. by rewrite lookup_delete_eq in He. }
  split.
  - split.
    + intros b e He. pose proof (Hne b ltac:(eauto)). cbn in He. rewrite lookup_delete_ne in He by congruence.
      destruct (B b e He) as (? & ? & [?|E]); split_and!; try done; [by left|right]. rewrite E. unfold computeRef, nbtLiveRefs.
      by rewrite Hl.
    + intros b Hs Hz'. pose proof (Hne b Hs). destruct Hs as [e He]. cbn in He. rewrite lookup_delete_ne in He by congruence.
      unfold live in Hz'. rewrite Hl in Hz' by done. by destruct (L b ltac:(eauto) Hz') as [|].
    + intros k e b He Hin Hnz. cbn in He. destruct (N k e b He Hin Hnz) as [x Hx].
      assert (b ≠ bid) as Hbne.
      { intros ->. pose proof (node_sum_lookup _ _ _ bid He). pose proof (node_refs_nonneg bid e).
        assert (node_refs bid e = 0) as Hz0 by lia. by apply node_refs_zero in Hz0. }
      exists x. cbn. by rewrite lookup_delete_ne by congruence.
    + intros m b x Hm Hx. unfold ref_maps in Hm. cbn in Hm.
      assert (∃ m0, m0 ∈ ref_maps c ∧ m = delete bid m0) as (m0 & Hm0 & ->).
      { unfold ref_maps. rewrite !elem_of_cons in Hm. destruct Hm as [->|[->|[->|Hm]]]; [..|by apply not_elem_of_nil in Hm];
          eexists; (split; [|reflexivity]); set_solver. }
      apply lookup_delete_Some in Hx as [Hbne Hx]. destruct (R _ _ _ Hm0 Hx) as [? [y Hy]]. split; [done|]. exists y.
      cbn. by rewrite lookup_delete_ne by congruence.
  - split; [done..| |].
    + intros b e He. pose proof (Hne b ltac:(eauto)). cbn in He. rewrite lookup_delete_ne in He by congruence.
      exists e. split; [done|by destruct e].
    + intros b. destruct (decide (b = bid)) as [->|Hbne]; [|by rewrite Hl].
      pose proof (extraLive_nonneg _ _ _ bid H). unfold extraLiveRefs at 1. cbn. unfold count_of. by rewrite !lookup_delete_eq.
Qed.

(** ** The operations *)
Definition inv (stale orph : Z → Prop) (c0 : catalogState) (n : NDB) : Prop := cat_ok stale orph (n_cat n) ∧ below c0 (n_cat n).
(** Whenever the call returns without an error, it went from [P] to [Q]. *)
Definition post {A} (P : NDB → Prop) (m : ST NDB A) (Q : A → NDB → Prop) : Prop :=
  ∀ n n' a, P n → m n = (n', Ok a) → Q a n'.
Lemma post_bind {A B} P (m : ST NDB A) Q (f : A → ST NDB B) R :
  post P m Q → (∀ a, post (Q a) (f a) R) → post P (m ≫= f) R.
Proof. intros Hm Hf n n' b HP (n1 & a & H1 & H2)%st_bind_inv. eapply Hf; [|done]. by eapply Hm. Qed.
Lemma post_get {A} P (f : NDB → ST NDB A) Q : (∀ n, P n → post (λ n', n' = n) (f n) Q) → post P (get ≫= f) Q.
Proof. intros H n n' a HP Hf. rewrite st_get_bind in Hf. by eapply H. Qed.
Lemma post_ret {A} (P : NDB → Prop) (a : A) Q : (∀ n, P n → Q a n) → post P (mret a) Q.
Proof. intros H n n' b HP [= <- <-]. by apply H. Qed.
Lemma post_err {A} P (r : result A) Q : (∀ a, r ≠ Ok a) → post P (lift r) Q.
Proof. intros H n n' a _ [= _ E]. by apply H in E. Qed.
Lemma post_lift {A} P (r : result A) : post P (lift r) (λ a n, P n ∧ r = Ok a).
Proof. intros n n' a HP E. unfold lift in E. split; congruence. Qed.
Lemma post_upd P f Q : (∀ n, P n → Q tt (with_cat n (f (n_cat n)))) → post P (upd_cat f) Q.
Proof. intros H n n' [] HP [= <-]. by apply H. Qed.
Lemma post_weaken {A} (P P' : NDB → Prop) (m : ST NDB A) (Q Q' : A → NDB → Prop) :
  post P' m Q' → (∀ n, P n → P' n) → (∀ a n, Q' a n → Q a n) → post P m Q.
Proof. intros H HP HQ n n' a Hn Hm. eapply HQ, H; eauto. Qed.
(** Calls that only concern the store. *)
Definition same_cat (n n' : NDB) : Prop := n_cat n' = n_cat n.
#[export] Instance same_cat_preorder : PreOrder same_cat.
Proof. split; [done|]. intros n1 n2 n3 E1 E2. unfold same_cat in *. congruence. Qed.
Lemma on_store_cat {A} (m : ST Store A) : moves same_cat (on_store m).
Proof. intros n. unfold on_store, zoom, same_cat. by destruct (m (n_store n)). Qed.
Lemma post_same_cat {A} (P : catalogState → Prop) (m : ST NDB A) : moves same_cat m → post (λ n, P (n_cat n)) m (λ _ n, P (n_cat n)).
Proof. intros H n n' a HP E. specialize (H n). rewrite E in H. unfold same_cat in H. cbn in H. by rewrite H. Qed.
Lemma freeBlockIB_cat e : moves same_cat (freeBlockIB e).
Proof.
  unfold freeBlockIB. cbv zeta. destruct (_ || _); [apply (moves_ret same_cat)|]. moves_step.
  destruct (negb _); [apply (moves_lift same_cat)|apply on_store_cat].
Qed.

Lemma resyncRef_post stale orph c0 bid : post (inv (plus stale bid) orph c0) (resyncRef bid) (λ _, inv stale orph c0).
Proof.
  unfold resyncRef. destruct (Z.eqb_spec bid 0) as [->|Hb].
  { apply post_ret. intros n [Hok Hbe]. split; [|done]. apply (cat_ok_weaken _ _ _ _ _ Hok); [|done].
    intros b [e He] [?| ->]; [done|]. by destruct (ck_blocks _ _ _ Hok _ _ He) as (_ & ? & _). }
  apply post_get. intros n [Hok Hbe]. destruct (n_blocks n !! bid) as [e|] eqn:E; [|by apply post_err].
  apply post_upd. intros n1 ->. destruct (n_cat n) as [ids nodes blocks d s o pages] eqn:Ec. unfold n_blocks in *. rewrite ?Ec in E |- *.
  cbn in E. destruct Hok as [B L N R]. unfold cat_blocks, inv. cbn.
  assert (∀ b, is_Some (<[bid:=set_refcount (computeRef (mkCatalog ids nodes blocks d s o pages) bid) e]> blocks !! b) ↔ is_Some (blocks !! b)) as Hs.
  { intros b. destruct (decide (b = bid)) as [->|]; [|by rewrite lookup_insert_ne]. rewrite lookup_insert_eq, E. split; eauto. }
  split.
  - split; cbn in *.
    + intros b e' He. destruct (decide (b = bid)) as [->|Hne].
      * rewrite lookup_insert_eq in He. injection He as <-. destruct (B _ _ E) as (? & ? & _). split_and!; [done..|by right].
      * rewrite lookup_insert_ne in He by done. destruct (B _ _ He) as (? & ? & [[|]|]); split_and!; eauto; congruence.
    + intros b Hb'. apply L. by apply Hs.
    + intros k x b Hk Hin Hnz. apply Hs. eauto.
    + intros m b x Hm Hx. rewrite Hs. by apply (R m).
  - etrans; [exact Hbe|]. split; [done..| |done]. intros b e' He. cbn in *. destruct (decide (b = bid)) as [->|Hne].
    + rewrite lookup_insert_eq in He. injection He as <-. by exists e.
    + rewrite lookup_insert_ne in He by done. exists e'. split; [done|by destruct e'].
Qed.

Lemma live_zero stale orph c bid : cat_ok stale orph c →
  (nbtLiveRefs c bid =? 0) && (extraLiveRefs c bid =? 0) = true ↔ live c bid = 0.
Proof.
  intros H. rewrite andb_true_iff, !Z.eqb_eq. unfold live. pose proof (extraLive_nonneg _ _ _ bid H).
  assert (0 ≤ nbtLiveRefs c bid) by (unfold nbtLiveRefs; destruct (bid =? 0); [done|apply node_sum_nonneg]). lia.
Qed.
Lemma post_each {A} (P : NDB → Prop) (f : A → ST NDB unit) l : (∀ x, post P (f x) (λ _, P)) → post P (run_each f l) (λ _, P).
Proof.
  intros Hf. induction l as [|x l IH]; cbn [run_each]; [by apply post_ret|]. eapply post_bind; [apply Hf|]. by intros [].
Qed.

Section drops.
Context (drop : Z → ST NDB unit).
Context (Hdrop : ∀ stale orph c0 bid, bid ≠ 0 →
  post (λ n, inv stale (plus orph bid) c0 n ∧ live (n_cat n) bid = 0) (drop bid) (λ _, inv stale orph c0)).
Lemma resync_drop_post stale orph c0 bid :
  post (inv (plus stale bid) (plus orph bid) c0) (resync_drop drop bid) (λ _, inv stale orph c0).
Proof using Hdrop.
  unfold resync_drop.
  assert (∀ n, inv (plus stale bid) (plus orph bid) c0 n → bid = 0 ∨ n_blocks n !! bid = None → inv stale orph c0 n) as Habs.
  { intros n [Hok Hbe] Hn. split; [|done]. apply (cat_ok_weaken _ _ _ _ _ Hok).
    - intros b [e He] [?| ->]; [done|]. destruct (ck_blocks _ _ _ Hok _ _ He) as (_ & ? & _). destruct Hn; [done|].
      unfold n_blocks in *. congruence.
    - intros b [e He] _ [?| ->]; [done|]. destruct (ck_blocks _ _ _ Hok _ _ He) as (_ & ? & _). destruct Hn; [done|].
      unfold n_blocks in *. congruence. }
  destruct (Z.eqb_spec bid 0) as [Hb|Hb]; [apply post_ret; auto|]. apply post_get. intros n Hn.
  destruct (n_blocks n !! bid) as [e|] eqn:E; [|apply post_ret; intros n1 ->; auto].
  eapply post_bind; [eapply post_weaken; [apply (resyncRef_post stale (plus orph bid) c0)|by intros n1 ->|by intros a n1 ?]|].
  intros []. apply post_get. intros n1 [Hok Hbe]. destruct (_ && _) eqn:El.
  - eapply post_weaken; [by apply (Hdrop stale orph c0)| |by intros]. intros n2 ->. split; [done|]. by eapply live_zero.
  - apply post_ret. intros n2 ->. split; [|done]. apply (cat_ok_weaken _ _ _ _ _ Hok); [done|].
    intros b _ Hz [?| ->]; [done|]. eapply (live_zero stale) in Hz; [|done]. congruence.
Qed.
Lemma release_extra_post stale orph c0 bid kind :
  post (inv stale orph c0) (release_extra drop bid kind) (λ _, inv stale orph c0).
Proof using Hdrop.
  unfold release_extra. apply post_get. intros n [Hok Hbe]. cbv zeta. set (m := extraMap kind (n_cat n)).
  destruct (Z.leb_spec (count_of m bid) 0) as [|Hc]; [destruct (_ <? _); by apply post_err|].
  assert (∃ x, m !! bid = Some x ∧ 0 < x ∧ is_Some (cs_blocks (n_cat n) !! bid)) as (x & Hx & Hp & Hs).
  { unfold count_of in Hc. destruct (m !! bid) as [x|] eqn:E; [|cbn in Hc; lia]. exists x. split; [done|].
    apply (ck_refs _ _ _ Hok m); [apply extraMap_refs|done]. }
  assert (count_of m bid = x) as Hcx by (unfold count_of; by rewrite Hx). rewrite Hcx.
  apply (post_bind _ _ (λ _, inv (plus stale bid) (plus orph bid) c0)); [|intros []; apply resync_drop_post].
  apply post_upd. intros n1 ->. split; cbn [n_cat with_cat].
  - apply cat_ok_weaken with (plus stale bid) (plus orph bid); [|done..]. apply cat_extra_ok; [done|done|..].
    + intros b Hne. destruct (x =? 1); [by rewrite lookup_delete_ne|by rewrite lookup_insert_ne].
    + intros y. destruct (Z.eqb_spec x 1); [by rewrite lookup_delete_eq|]. rewrite lookup_insert_eq. intros [= <-]. lia.
  - etrans; [exact Hbe|]. split; [by destruct kind..| |].
    + intros b e He. rewrite cat_extra_blocks in He. exists e. split; [done|by destruct e].
    + intros b. rewrite cat_extra_live. fold m. destruct (decide (b = bid)) as [->|Hne].
      * rewrite Hcx. destruct (Z.eqb_spec x 1); unfold count_of; [rewrite lookup_delete_eq|rewrite lookup_insert_eq]; cbn; lia.
      * unfold count_of. destruct (x =? 1); [rewrite lookup_delete_ne by done|rewrite lookup_insert_ne by done]; lia.
Qed.
End drops.
Lemma drop_tree_post fuel stale orph c0 bid : bid ≠ 0 →
  post (λ n, inv stale (plus orph bid) c0 n ∧ live (n_cat n) bid = 0) (drop_tree fuel bid) (λ _, inv stale orph c0).
Proof.
  revert stale orph c0 bid. induction fuel as [|fuel IH]; intros stale orph c0 bid Hb; cbn [drop_tree]; [by apply post_err|].
  apply post_get. intros n [[Hok Hbe] Hz]. destruct (n_blocks n !! bid) as [e|] eqn:E.
  - assert (∀ kids, post (λ n', n' = n) (upd_cat (forget_block bid) ;; freeBlockIB e ;; do kids <- lift kids; run_each (release_kid (drop_tree fuel)) kids)
      (λ _, inv stale orph c0)) as H; [|destruct (treeChildRefs _ _); [apply H..|by apply post_err]].
    intros kids. eapply post_bind.
    { apply (post_upd _ _ (λ _, inv stale orph c0)). intros n1 ->. destruct (forget_block_ok _ _ _ _ Hok Hb Hz) as [H1 H2].
      split; [done|]. by etrans. }
    intros []. eapply post_bind; [apply (post_same_cat (λ c, cat_ok stale orph c ∧ below c0 c)), freeBlockIB_cat|]. intros [].
    eapply post_bind; [apply (post_same_cat (λ c, cat_ok stale orph c ∧ below c0 c)); apply (moves_lift same_cat)|].
    intros l. cbv beta. apply (post_each (inv stale orph c0)). intros k. unfold release_kid. apply post_get. intros n1 Hn1.
    destruct (_ <=? _); [apply post_ret; by intros n2 ->|].
    eapply post_weaken; [by apply (release_extra_post (drop_tree fuel) IH stale orph c0)|by intros n2 ->|done].
  - apply post_ret. intros n1 ->. split; [|done]. apply (cat_ok_weaken _ _ _ _ _ Hok); [done|].
    intros b [x Hx] _ [?| ->]; [done|]. unfold n_blocks in E. congruence.
Qed.
Lemma dropBlock_post stale orph c0 bid : bid ≠ 0 →
  post (λ n, inv stale (plus orph bid) c0 n ∧ live (n_cat n) bid = 0) (dropBlock bid) (λ _, inv stale orph c0).
Proof. intros Hb n n' a Hn Hd. unfold dropBlock in Hd. by eapply (drop_tree_post _ stale orph c0 bid). Qed.
Lemma resyncAfterDrop_post stale orph c0 bid :
  post (inv (plus stale bid) (plus orph bid) c0) (resyncAfterDrop bid) (λ _, inv stale orph c0).
Proof. apply resync_drop_post. intros. by apply dropBlock_post. Qed.
Lemma releaseExtra_post stale orph c0 bid kind : post (inv stale orph c0) (releaseExtra bid kind) (λ _, inv stale orph c0).
Proof. apply release_extra_post. intros. by apply dropBlock_post. Qed.

(** ** Nodes *)
Lemma node_refs_other bid e : bid ∉ [N_DataBID e; N_SubBID e] → node_refs bid e = 0.
Proof. apply node_refs_zero. Qed.
Lemma insert_nodes_live c e bid : bid ≠ 0 → (∀ old, cs_nodes c !! N_NID e = Some old → bid ∉ [N_DataBID old; N_SubBID old]) →
  bid ∉ [N_DataBID e; N_SubBID e] → nbtLiveRefs (cat_nodes (<[N_NID e := e]> (cs_nodes c)) c) bid = nbtLiveRefs c bid.
Proof.
  intros Hb Ho He. rewrite !nbtLiveRefs_sum by done. cbn.
  rewrite <- (insert_delete_eq (cs_nodes c)), node_sum_insert by apply lookup_delete_eq. rewrite node_refs_other by done.
  destruct (cs_nodes c !! N_NID e) as [old|] eqn:E.
  - rewrite (node_sum_delete _ _ _ bid E), (node_refs_other bid old) by auto. lia.
  - by rewrite delete_id.
Qed.
(** The blocks whose counts a change of a node may outdate. *)
Definition among (l : list Z) : Z → Prop := λ b, b ∈ l.
Definition old_refs (o : option NBTEntry) : list Z := match o with Some e => [N_DataBID e; N_SubBID e] | None => [] end.
Lemma insert_node_ok stale orph c e : cat_ok stale orph c →
  (∀ bid, bid ∈ [N_DataBID e; N_SubBID e] → bid ≠ 0 → is_Some (cs_blocks c !! bid)) →
  let t := old_refs (cs_nodes c !! N_NID e) ++ [N_DataBID e; N_SubBID e] in
  cat_ok (λ b, stale b ∨ b ∈ t) (λ b, orph b ∨ b ∈ old_refs (cs_nodes c !! N_NID e)) (cat_nodes (<[N_NID e := e]> (cs_nodes c)) c).
Proof.
  intros H He t. pose proof H as [B L N R].
  assert (∀ b, b ∉ old_refs (cs_nodes c !! N_NID e) → ∀ old, cs_nodes c !! N_NID e = Some old → b ∉ [N_DataBID old; N_SubBID old]) as Hold.
  { intros b Hb old Ho. by rewrite Ho in Hb. }
  split; cbn.
  - intros b x Hx. destruct (B b x Hx) as (? & ? & Hc). split_and!; [done|done|]. destruct (decide (b ∈ t)) as [|Ht]; [tauto|].
    destruct Hc as [|Hc]; [tauto|]. right. rewrite Hc. unfold computeRef. subst t. rewrite not_elem_of_app in Ht. destruct Ht.
    rewrite insert_nodes_live by (try done; by apply Hold). done.
  - intros b Hs Hz. destruct (decide (b ∈ old_refs (cs_nodes c !! N_NID e))) as [|Ho]; [tauto|]. left.
    destruct Hs as [x Hx]. destruct (B b x Hx) as (_ & Hb & _). apply L; [eauto|]. unfold live in *.
    assert (extraLiveRefs (cat_nodes (<[N_NID e:=e]> (cs_nodes c)) c) b = extraLiveRefs c b) as Hex by done. rewrite Hex in Hz.
    destruct (decide (b ∈ [N_DataBID e; N_SubBID e])) as [Hin|Hni].
    + rewrite nbtLiveRefs_sum in Hz by done. cbn in Hz. pose proof (extraLive_nonneg _ _ _ b H).
      pose proof (node_sum_lookup (<[N_NID e:=e]> (cs_nodes c)) (N_NID e) e b ltac:(apply lookup_insert_eq)).
      assert (node_refs b e ≠ 0) by (rewrite node_refs_zero; tauto). pose proof (node_refs_nonneg b e). lia.
    + rewrite insert_nodes_live in Hz by (try done; by apply Hold). done.
  - intros k x b Hx Hin Hnz. destruct (decide (k = N_NID e)) as [->|Hne].
    + rewrite lookup_insert_eq in Hx. injection Hx as <-. by apply He.
    + rewrite lookup_insert_ne in Hx by congruence. by eapply N.
  - exact R.
Qed.
Lemma delete_node_ok stale orph c nid old : cat_ok stale orph c → cs_nodes c !! nid = Some old →
  let t := [N_DataBID old; N_SubBID old] in
  cat_ok (λ b, stale b ∨ b ∈ t) (λ b, orph b ∨ b ∈ t) (cat_nodes (delete nid (cs_nodes c)) c).
Proof.
  intros [B L N R] Ho t.
  assert (∀ b, b ≠ 0 → b ∉ t → nbtLiveRefs (cat_nodes (delete nid (cs_nodes c)) c) b = nbtLiveRefs c b) as Hl.
  { intros b Hb Ht. rewrite !nbtLiveRefs_sum by done. cbn. rewrite (node_sum_delete _ _ _ b Ho), node_refs_other by done. lia. }
  split; cbn.
  - intros b x Hx. destruct (B b x Hx) as (? & ? & Hc). split_and!; [done|done|]. destruct (decide (b ∈ t)) as [|Ht]; [tauto|].
    destruct Hc as [|Hc]; [tauto|]. right. rewrite Hc. unfold computeRef. by rewrite Hl.
  - intros b Hs Hz. destruct (decide (b ∈ t)) as [|Ht]; [tauto|]. left. destruct Hs as [x Hx]. destruct (B b x Hx) as (_ & Hb & _).
    apply L; [eauto|]. unfold live in *. by rewrite Hl in Hz.
  - intros k x b Hx Hin Hnz. apply lookup_delete_Some in Hx as [? Hx]. by eapply N.
  - exact R.
Qed.
Definition nostale : Z → Prop := λ _, False.
Lemma below_refl_inv stale orph n : cat_ok stale orph (n_cat n) → inv stale orph (n_cat n) n.
Proof. by split. Qed.
Lemma each_inv {A} (f : A → result unit) l : each f l = Ok tt → ∀ x, x ∈ l → f x = Ok tt.
Proof.
  induction l as [|y l IH]; cbn [each]; intros H x Hx; [by apply not_elem_of_nil in Hx|].
  destruct (f y) as [[]| |] eqn:E; [|done..]. apply elem_of_cons in Hx as [->|Hx]; [done|by apply IH].
Qed.
Lemma each_Ok {A} (f : A → result unit) l : (∀ x, x ∈ l → f x = Ok tt) → each f l = Ok tt.
Proof. induction l as [|y l IH]; cbn [each]; intros H; [done|]. rewrite H by set_solver. apply IH. set_solver. Qed.
Lemma PutNode_post orph n0 e : cat_ok nostale orph (n_cat n0) →
  post (λ n, n = n0) (PutNode e) (λ _, inv nostale orph (cat_nodes (<[N_NID e := e]> (n_nodes n0)) (n_cat n0))).
Proof.
  intros Hok. unfold PutNode. destruct (_ || _); [by apply post_err|]. apply post_get. intros n ->.
  apply (post_bind _ _ (λ _ n, n = n0 ∧ ∀ bid, bid ∈ [N_DataBID e; N_SubBID e] → bid ≠ 0 → is_Some (n_blocks n0 !! bid))).
  { eapply post_weaken; [apply post_lift|intros n Hn; exact Hn|]. intros [] n [Hn He]. split; [done|]. intros bid Hin Hb. pose proof (each_inv _ _ He bid Hin) as H. cbv beta in H.
    rewrite (proj2 (Z.eqb_neq _ _)) in H by done. by destruct (n_blocks n0 !! bid). }
  intros []. set (c1 := cat_nodes _ _). set (old := n_nodes n0 !! N_NID e).
  apply (post_bind _ _ (λ _, inv (λ b, nostale b ∨ b ∈ old_refs old ++ [N_DataBID e; N_SubBID e]) (λ b, orph b ∨ b ∈ old_refs old) c1)).
  { apply post_upd. intros n1 [-> He]. split; [|done]. by apply insert_node_ok. }
  intros []. apply (post_bind _ _ (λ _, inv (plus (plus nostale (N_SubBID e)) (N_DataBID e)) orph c1)).
  - destruct old as [o|]; cbn [old_refs app].
    + eapply post_bind.
      * eapply post_weaken; [apply (resyncAfterDrop_post (plus (plus (plus nostale (N_SubBID e)) (N_DataBID e)) (N_SubBID o)) (plus orph (N_SubBID o)) c1)| |done].
        intros n [H1 H2]. split; [|done]. apply (cat_ok_weaken _ _ _ _ _ H1); unfold plus; intros b _; set_solver.
      * intros []. cbv beta. apply resyncAfterDrop_post.
    + apply post_ret. intros n [H1 H2]. split; [|done]. apply (cat_ok_weaken _ _ _ _ _ H1); unfold plus; intros b _; set_solver.
  - intros []. eapply post_bind; [apply resyncRef_post|]. intros []. apply resyncRef_post.
Qed.
Lemma NDB_DeleteNode_post orph n0 nid : cat_ok nostale orph (n_cat n0) →
  post (λ n, n = n0) (NDB_DeleteNode nid) (λ _, inv nostale orph (cat_nodes (delete nid (n_nodes n0)) (n_cat n0))).
Proof.
  intros Hok. unfold NDB_DeleteNode. apply post_get. intros n ->. destruct (n_nodes n0 !! nid) as [o|] eqn:E; [|by apply post_err].
  set (c1 := cat_nodes _ _).
  apply (post_bind _ _ (λ _, inv (λ b, nostale b ∨ b ∈ [N_DataBID o; N_SubBID o]) (λ b, orph b ∨ b ∈ [N_DataBID o; N_SubBID o]) c1)).
  { apply post_upd. intros n1 ->. split; [|done]. by apply delete_node_ok. }
  intros []. apply (post_bind _ _ (λ _, inv (plus nostale (N_SubBID o)) (plus orph (N_SubBID o)) c1)); [|intros []; apply resyncAfterDrop_post].
  eapply post_weaken; [apply (resyncAfterDrop_post (plus nostale (N_SubBID o)) (plus orph (N_SubBID o)) c1)| |intros; done].
  intros n [H1 H2]. split; [|done]. apply (cat_ok_weaken _ _ _ _ _ H1); unfold plus; intros b _; set_solver.
Qed.
Lemma addExtra_post orph n0 bid kind : cat_ok nostale orph (n_cat n0) →
  post (λ n, n = n0) (addExtra bid kind)
    (λ _, inv nostale orph (let m := extraMap kind (n_cat n0) in cat_extra kind (<[bid := count_of m bid + 1]> m) (n_cat n0))).
Proof.
  intros Hok. unfold addExtra. apply post_get. intros n ->. destruct (n_blocks n0 !! bid) as [e|] eqn:E; [|by apply post_err].
  cbv zeta. set (m := extraMap kind (n_cat n0)). set (c1 := cat_extra _ _ _).
  assert (0 ≤ count_of m bid) as Hm by (apply (count_nonneg nostale orph (n_cat n0)); [done|apply extraMap_refs]).
  apply (post_bind _ _ (λ _, inv (plus nostale bid) orph c1)); [|intros []; apply resyncRef_post].
  apply post_upd. intros n1 ->. split; [|done]. cbn [n_cat with_cat].
  assert (cat_ok (plus nostale bid) (plus orph bid) c1) as H1.
  { apply cat_extra_ok; [done|by exists e| |].
    - intros b Hne. by rewrite lookup_insert_ne.
    - intros x. rewrite lookup_insert_eq. intros [= <-]. lia. }
  apply (cat_ok_weaken _ _ _ _ _ H1); [done|]. intros b _ Hz [?| ->]; [done|exfalso].
  assert (extraLiveRefs c1 bid = extraLiveRefs (n_cat n0) bid + 1) as Hl.
  { subst c1. rewrite cat_extra_live. fold m. unfold count_of at 1. rewrite lookup_insert_eq. cbn. lia. }
  pose proof (extraLive_nonneg _ _ _ bid Hok). unfold live, nbtLiveRefs in Hz.
  assert (0 ≤ (if bid =? 0 then 0 else node_sum (cs_nodes c1) bid)) by (destruct (bid =? 0); [done|apply node_sum_nonneg]).
  unfold node_sum in *. lia.
Qed.

(** ** Blocks and their IDs *)
Lemma insert_block_ok orph c bid e : cat_ok nostale orph c → bid ≠ 0 → cs_blocks c !! bid = None → B_BID e = bid → B_RefCount e = 1 →
  cat_ok nostale (plus orph bid) (cat_blocks (<[bid := e]> (cs_blocks c)) c).
Proof.
  intros H Hb Hn He Hr. pose proof H as [B L N R].
  assert (∀ b, is_Some (cs_blocks c !! b) → is_Some (<[bid:=e]> (cs_blocks c) !! b)) as Hs by (intros b ?; apply lookup_insert_is_Some'; by right).
  assert (computeRef c bid = 1) as Hc.
  { pose proof (live_absent _ _ _ _ H Hb Hn) as Hl. unfold computeRef. unfold live in Hl. rewrite <- Z.add_assoc, Hl. done. }
  split; cbn.
  - intros b x Hx. destruct (decide (b = bid)) as [->|Hne].
    + rewrite lookup_insert_eq in Hx. injection Hx as <-. split_and!; [done|done|right]. rewrite Hr. symmetry. exact Hc.
    + rewrite lookup_insert_ne in Hx by done. by apply B.
  - intros b Hb' Hz. unfold plus. destruct (decide (b = bid)) as [->|Hne]; [by right|left]. apply L; [|done].
    by rewrite lookup_insert_ne in Hb' by done.
  - intros k x b Hk Hin Hnz. apply Hs. eauto.
  - intros m b x Hm Hx. destruct (R m b x Hm Hx). split; [done|]. by apply Hs.
Qed.
(** The block counters of the catalog and of its store agree and lie above every
    block, except for blocks at the very end of the 64-bit range. *)
Definition next_bid (n : NDB) : Z := ss_bidNextB (st_state (n_store n)).
Definition bid_below (b bid : Z) : Prop := bid mod 2 = 0 ∧ (0 < bid < b ∨ 2 ^ 64 - 4 ≤ bid < 2 ^ 64).
Record ids_ok (n : NDB) : Prop := mkIdsOk {
  io_next : nextBlock (cs_ids (n_cat n)) = next_bid n;
  io_range : 4 ≤ next_bid n < 2 ^ 64 ∧ next_bid n mod 4 = 0;
  io_blocks : ∀ bid, is_Some (n_blocks n !! bid) → bid_below (next_bid n) bid }.
Record ndb_ok (n : NDB) : Prop := mkNdbOk { no_cat : cat_ok nostale (λ _, True) (n_cat n); no_ids : ids_ok n }.

Lemma even_bid bid : BIDHasReserved bid = false → bid mod 2 = 0.
Proof. rewrite BIDHasReserved_bit, <- Z.bit0_mod. by intros ->. Qed.
Lemma ldiff_internal bid : bid mod 2 = 0 → Z.ldiff bid BIDInternal = 4 * (bid / 4).
Proof.
  intros H. change 4 with (2 ^ 2). rewrite <- (ldiff_low bid 2) by lia. apply Z.bits_inj'. intros i Hi. rewrite !Z.ldiff_spec.
  destruct (decide (i = 0)) as [->|]; [rewrite <- Z.bit0_mod in H; by destruct (Z.testbit bid 0)|]. f_equal. f_equal. change BIDInternal with (2 ^ 1).
  rewrite Z.pow2_bits_eqb by lia. rewrite Z.testbit_ones by lia. destruct (Z.eqb_spec 1 i), (Z.leb_spec 0 i), (Z.ltb_spec i 2); cbn; lia.
Qed.
Lemma note_next b bid : 4 ≤ b < 2 ^ 64 → b mod 4 = 0 → fits 64 bid → bid ≠ 0 → bid mod 2 = 0 →
  let b' := if b <? u64 (Z.ldiff bid BIDInternal + BlockBIDIncrement) then u64 (Z.ldiff bid BIDInternal + BlockBIDIncrement) else b in
  b ≤ b' < 2 ^ 64 ∧ b' mod 4 = 0 ∧ bid_below b' bid.
Proof.
  intros Hb Hm Hf Hn He b'. subst b'. rewrite ldiff_internal by done. unfold BlockBIDIncrement, fits, bid_below in *.
  destruct (decide (4 * (bid / 4) + 4 < 2 ^ 64)) as [Hs|Hs].
  - rewrite u64_small by divlia. destruct (Z.ltb_spec b (4 * (bid / 4) + 4)); divlia.
  - assert (4 * (bid / 4) + 4 = 2 ^ 64) as -> by divlia. change (u64 (2 ^ 64)) with 0.
    destruct (Z.ltb_spec b 0); divlia.
Qed.
Lemma noteBID_post n0 bid : fits 64 bid → 4 ≤ next_bid n0 < 2 ^ 64 → next_bid n0 mod 4 = 0 →
  post (λ n, n = n0) (noteBID bid) (λ _ n, n_cat n = cat_ids (n_cat n0) (ids_nextBlock (next_bid n) (cs_ids (n_cat n0))) ∧
    bid ≠ 0 ∧ next_bid n0 ≤ next_bid n < 2 ^ 64 ∧ next_bid n mod 4 = 0 ∧ bid_below (next_bid n) bid).
Proof.
  intros Hf Hr Hm n n' [] -> H. unfold noteBID in H. apply st_bind_inv in H as (n1 & [] & H1 & H2). injection H2 as <-.
  unfold on_store, zoom, noteBlockBID in H1. destruct (Z.eqb_spec bid 0) as [|Hb]; [done|]. destruct (BIDHasReserved bid) eqn:Er; [done|].
  cbn [orb] in H1. unfold upd_state, modify in H1. injection H1 as <-. cbn [with_cat n_cat].
  pose proof (note_next (next_bid n0) bid Hr Hm Hf Hb (even_bid _ Er)) as Hn. cbv zeta in Hn. unfold next_bid in *. cbn.
  split; [done|]. split; [done|]. by destruct (_ <? _).
Qed.
Lemma bid_below_mono b b' bid : b ≤ b' → bid_below b bid → bid_below b' bid.
Proof. unfold bid_below. lia. Qed.
Lemma or_undo_Ok {S A} undo (m : ST S A) s s' a : or_undo undo m s = (s', Ok a) → m s = (s', Ok a).
Proof. unfold or_undo. destruct (m s) as [s1 [b|e|]]; [done| |done]. by destruct (undo s1) as [s2 [| |]]. Qed.
Lemma on_store_inv {A} (m : ST Store A) n n' a : on_store m n = (n', Ok a) →
  ∃ s', m (n_store n) = (s', Ok a) ∧ n' = with_store n s'.
Proof. unfold on_store, zoom. destruct (m (n_store n)) as [s' r]. intros [= <- ->]. by exists s'. Qed.
(** The IDs that are handed out. *)
Definition takes_next (take : SequentialIDs → result (Z * SequentialIDs)) : Prop :=
  ∀ i bid i', take i = Ok (bid, i') → 4 ≤ nextBlock i < 2 ^ 64 → nextBlock i mod 4 = 0 →
    (bid = nextBlock i ∨ bid = nextBlock i + 2) ∧ bid < 2 ^ 64 - 4 ∧ ∃ b, i' = ids_nextBlock b i.
Lemma TakeBlockBID_inv i bid i' : TakeBlockBID i = Ok (bid, i') → 4 ≤ nextBlock i < 2 ^ 64 → nextBlock i mod 4 = 0 →
  bid = nextBlock i ∧ bid < 2 ^ 64 - 4 ∧ ∃ b, i' = ids_nextBlock b i.
Proof.
  destruct i as [si nd nb np un ks]. intros H Hr Hm. unfold TakeBlockBID, takeMonotonic in H. cbn [nextBlock] in *.
  rewrite (proj2 (Z.eqb_neq nb 0)) in H by lia. unfold BlockBIDIncrement in H. change (u64 (18446744073709551615 - 4)) with (2 ^ 64 - 5) in H.
  change (0 <? 4) with true in H. cbn [andb] in H. destruct (Z.ltb_spec (2 ^ 64 - 5) nb); [done|].
  rewrite u64_small in H by lia. rewrite (proj2 (Z.eqb_neq _ 0)) in H by lia. injection H as <- <-. split_and!; [done|lia|by eexists].
Qed.
Lemma TakeBlockBID_next : takes_next TakeBlockBID.
Proof. intros i bid i' H Hr Hm. destruct (TakeBlockBID_inv _ _ _ H Hr Hm) as (-> & ? & ?). split_and!; [by left|done|done]. Qed.
Lemma TakeInternal_next : takes_next TakeInternalBlockBID.
Proof.
  intros i bid i' H Hr Hm. unfold TakeInternalBlockBID in H. apply bind_Ok_inv in H as ([v i1] & H1 & H2). injection H2 as <- <-.
  destruct (TakeBlockBID_inv _ _ _ H1 Hr Hm) as (-> & Hb & Hi). rewrite MakeInternalBID_arith by lia.
  split_and!; [right; divlia|divlia|done].
Qed.
Lemma alloc_block_post take cb n0 : takes_next take → ndb_ok n0 →
  post (λ n, n = n0) (alloc_block take cb) (λ e n, ndb_ok n ∧ n_blocks n0 !! B_BID e = None ∧ B_CB e = cb ∧
    n_blocks n = <[B_BID e := e]> (n_blocks n0) ∧ n_nodes n = n_nodes n0).
Proof.
  intros Htake [Hcat [Hnext [Hr Hm] Hbl]] n n' e -> H. unfold alloc_block in H. cbv zeta in H.
  apply st_bind_inv in H as (n1 & ib & H1 & H). apply on_store_inv in H1 as (s1 & H1 & ->).
  assert (next_bid (with_store n0 s1) = next_bid n0) as Hn1.
  { pose proof (Allocate_io (BlockDiskSize cb) (n_store n0)) as [_ Hs]. rewrite H1 in Hs. cbn [fst] in Hs. unfold next_bid. cbn. by rewrite Hs. }
  apply st_bind_inv in H as (n2 & bid & H2 & H). apply or_undo_Ok in H2. unfold take_id in H2.
  destruct (take _) as [[v ids]|e2|] eqn:Et; [|done..]. injection H2 as <- <-. cbn [n_cat with_store] in *.
  destruct (Htake _ _ _ Et) as (Hv & Hmax & [nb ->]); [by rewrite Hnext|by rewrite Hnext|]. rewrite Hnext in *.
  assert (fits 64 v ∧ v mod 2 = 0) as [Hf He]. { unfold fits. destruct Hv as [-> | ->]; split; [lia|divlia|lia|divlia]. }
  apply st_bind_inv in H as (n3 & [] & H3 & H). apply or_undo_Ok in H3.
  match type of H3 with noteBID _ ?n = _ => set (n2 := n) in * end.
  assert (next_bid n2 = next_bid n0) as Hn2 by done.
  pose proof (noteBID_post n2 v Hf ltac:(by rewrite Hn2) ltac:(by rewrite Hn2) _ _ _ eq_refl H3) as (Hc3 & Hv0 & Hr3 & Hm3 & Hb3).
  rewrite Hn2 in Hr3. subst n2. cbn [n_cat with_cat] in Hc3.
  rewrite st_get_bind in H. apply st_bind_inv in H as (n4 & [] & H4 & H5). injection H4 as <-. injection H5 as <- <-.
  assert (n_blocks n3 = n_blocks n0) as Hb by (unfold n_blocks; by rewrite Hc3).
  assert (n_blocks n0 !! v = None) as Hfresh.
  { destruct (n_blocks n0 !! v) as [x|] eqn:E; [|done]. destruct (Hbl v) as [_ Hx]; [by exists x|]. destruct Hv as [-> | ->]; lia. }
  cbn [B_BID B_CB with_cat n_cat]. split_and!; [|done|done|by rewrite <- Hb|unfold n_nodes; cbn; by rewrite Hc3].
  assert (cat_ok nostale (λ _, True) (n_cat n3)) as Hcat3. { rewrite Hc3. destruct Hcat. by split. }
  split.
  - eapply cat_ok_weaken; [apply (insert_block_ok (λ _, True)); [done|done|by unfold n_blocks in Hb; rewrite Hb|done|done]|done|done].
  - split; cbn.
    + by rewrite Hc3.
    + change (next_bid (with_cat _ _)) with (next_bid n3). lia.
    + intros b. change (next_bid (with_cat _ _)) with (next_bid n3). destruct (decide (b = v)) as [->|Hne]; [done|].
      intros Hs. assert (is_Some (n_blocks n0 !! b)) as Hs0.
      { rewrite <- Hb. unfold n_blocks in *. cbn in Hs. by rewrite lookup_insert_ne in Hs by done. }
      eapply bid_below_mono; [|by apply Hbl]. lia.
Qed.
Definition same_next (n n' : NDB) : Prop := next_bid n' = next_bid n.
#[export] Instance same_next_preorder : PreOrder same_next.
Proof. split; [done|]. intros n1 n2 n3 E1 E2. unfold same_next in *. congruence. Qed.
Lemma on_store_next {A} (m : ST Store A) : moves io_kept m → moves same_next (on_store m).
Proof.
  intros Hm n. specialize (Hm (n_store n)). unfold on_store, zoom, same_next, next_bid. destruct (m (n_store n)) as [s r].
  destruct Hm as [_ Hs]. cbn in *. by rewrite Hs.
Qed.
Lemma upd_cat_next f : moves same_next (upd_cat f).
Proof. by apply moves_modify. Qed.
Lemma free_next ib size : moves same_next (on_store (Free ib size)).
Proof. apply on_store_next, Free_io. Qed.
Lemma inv_ok n0 c1 n : ndb_ok n0 → inv nostale (λ _, True) c1 n → same_next n0 n →
  cs_ids c1 = cs_ids (n_cat n0) → (∀ b, is_Some (cs_blocks c1 !! b) → is_Some (n_blocks n0 !! b)) → ndb_ok n.
Proof.
  intros [_ [Hn Hr Hb]] [Hok Hbe] Hs Hi Hk. unfold same_next in Hs. split; [done|]. split; rewrite ?Hs.
  - by rewrite (bl_ids _ _ Hbe), Hi.
  - done.
  - intros b [x Hx]. apply Hb, Hk. destruct (bl_blocks _ _ Hbe _ _ Hx) as (e0 & He0 & _). by exists e0.
Qed.
Lemma occupyExtent_post `{!MapOrder} n0 e :
  post (λ n, n = n0) (occupyExtent e) (λ _ n, ∃ s, io_kept (n_store n0) s ∧ noteBID (B_BID e) (with_store n0 s) = (n, Ok tt)).
Proof.
  unfold occupyExtent. destruct (_ =? 0); [by apply post_err|]. destruct (negb _); [by apply post_err|]. cbv zeta.
  destruct (_ || _); [by apply post_err|]. apply post_get. intros n ->. destruct (coversMetadata _ _ _); [by apply post_err|].
  eapply post_bind; [apply post_lift|]. intros []. eapply post_bind; [apply post_lift|]. intros [].
  apply (post_bind _ _ (λ _ n, ∃ s, n = with_store n0 s ∧ io_kept (n_store n0) s)).
  - destruct (allocatedRange _ _ _).
    + apply post_ret. intros n [[-> _] _]. exists (n_store n0). split; [by destruct n0|done].
    + intros n n' [] [[-> _] _] (s & Hs & ->)%on_store_inv. exists s. split; [done|].
      pose proof (Reserve_io (B_IB e) (BlockDiskSize (B_CB e)) (n_store n0)) as Hk. by rewrite Hs in Hk.
  - intros [] n n' [] (s & -> & Hk) Hn. by exists s.
Qed.
Lemma PutBlock_post `{!MapOrder} n0 e : fits 64 (B_BID e) → ndb_ok n0 →
  post (λ n, n = n0) (PutBlock e) (λ _ n, ndb_ok n ∧ n_blocks n0 !! B_BID e = None ∧
    n_blocks n = <[B_BID e := set_refcount 1 e]> (n_blocks n0) ∧ n_nodes n = n_nodes n0).
Proof.
  intros Hf [Hcat [Hnext [Hr Hm] Hbl]]. unfold PutBlock. destruct (_ || _); [by apply post_err|]. apply post_get. intros n ->.
  destruct (n_blocks n0 !! B_BID e) as [x|] eqn:E; [by apply post_err|].
  eapply post_bind; [apply occupyExtent_post|]. intros [] n n' [] (s & Hk & Hn) Hu.
  rewrite st_get_bind in Hu. injection Hu as <-.
  assert (next_bid (with_store n0 s) = next_bid n0) as Hns by (destruct Hk as [_ Hs]; unfold next_bid; cbn; by rewrite Hs).
  pose proof (noteBID_post (with_store n0 s) _ Hf ltac:(by rewrite Hns) ltac:(by rewrite Hns) _ _ _ eq_refl Hn) as (Hc & Hb0 & Hr' & Hm' & Hb').
  rewrite Hns in Hr'. cbn [n_cat with_store] in Hc.
  assert (n_blocks n = n_blocks n0) as Hb by (unfold n_blocks; by rewrite Hc).
  split_and!; [|done|by rewrite <- Hb|unfold n_nodes; cbn; by rewrite Hc].
  assert (cat_ok nostale (λ _, True) (n_cat n)) as Hcat'. { rewrite Hc. destruct Hcat. by split. }
  split.
  - eapply cat_ok_weaken; [apply (insert_block_ok (λ _, True)); [done|done|by unfold n_blocks in Hb; rewrite Hb|done|done]|done|done].
  - split.
    + cbn. rewrite Hc. done.
    + change (next_bid (with_cat _ _)) with (next_bid n). lia.
    + change (next_bid (with_cat _ _)) with (next_bid n). intros b. destruct (decide (b = B_BID e)) as [->|Hne]; [done|].
      intros Hs. assert (is_Some (n_blocks n0 !! b)) as Hs0.
      { rewrite <- Hb. unfold n_blocks in *. cbn in Hs. by rewrite lookup_insert_ne in Hs by done. }
      eapply bid_below_mono; [|by apply Hbl]. lia.
Qed.

(** ** The invariant along operations *)
Definition op_typed (op : ndb_op) : Prop := match op with OpPutBlock e => fits 64 (B_BID e) | _ => True end.
Lemma run_op_ok `{!MapOrder} op n n' : op_typed op → ndb_ok n → run_op op n = (n', Ok tt) → ndb_ok n'.
Proof.
  intros Ht Hok Hop. pose proof (no_cat _ Hok) as Hcat.
  assert (∀ (m : ST NDB unit), moves same_next m → m n = (n', Ok tt) → same_next n n') as Hs.
  { intros m Hm E. specialize (Hm n). by rewrite E in Hm. }
  destruct op; cbn [run_op op_typed] in *.
  - by destruct (PutBlock_post n e Ht Hok n n' tt eq_refl Hop).
  - apply st_bind_inv in Hop as (n1 & e & Hop & [= <-]). by destruct (alloc_block_post _ _ n TakeBlockBID_next Hok _ _ _ eq_refl Hop).
  - apply st_bind_inv in Hop as (n1 & e & Hop & [= <-]). by destruct (alloc_block_post _ _ n TakeInternal_next Hok _ _ _ eq_refl Hop).
  - unfold putPayload in Hop. destruct (negb _); [done|]. apply st_bind_inv in Hop as (n1 & raw & H1 & H2). injection H1 as <- _.
    apply (inv_ok n (n_cat n)); [done| | |done|done].
    + pose proof (on_store_cat (writeExtent (B_IB e) raw) n) as Hc. rewrite H2 in Hc. unfold same_cat in Hc. cbn in Hc.
      unfold inv. by rewrite Hc.
    + by apply (Hs _ (on_store_next _ (writeExtent_io (B_IB e) raw))).
  - eapply inv_ok; [done|by eapply PutNode_post| |done|done].
    by apply (Hs _ (PutNode_moves same_next upd_cat_next free_next e)).
  - eapply inv_ok; [done|by eapply NDB_DeleteNode_post| |done|done].
    by apply (Hs _ (NDB_DeleteNode_moves same_next upd_cat_next free_next nid)).
  - unfold SetParent in Hop. rewrite st_get_bind in Hop. destruct (n_nodes n !! nid) as [e|]; [|done].
    eapply inv_ok; [done|by eapply PutNode_post| |done|done].
    refine (Hs _ _ Hop). apply (PutNode_moves same_next upd_cat_next free_next).
  - eapply inv_ok; [done|by eapply addExtra_post| | |].
    + by apply (Hs _ (addExtra_moves same_next upd_cat_next free_next bid kind)).
    + by destruct kind.
    + cbv zeta. by rewrite cat_extra_blocks.
  - eapply inv_ok; [done|eapply (releaseExtra_post _ _ (n_cat n)); [|done]; by split| |done|done].
    by apply (Hs _ (releaseExtra_moves same_next upd_cat_next free_next bid kind)).
  - done.
Qed.
Lemma both_Ok (a b : result unit) : a = Ok tt → b = Ok tt → (a ≫= λ _, b) = Ok tt.
Proof. by intros -> ->. Qed.
Lemma CheckRefCounts_Ok `{!MapOrder} orph n : cat_ok nostale orph (n_cat n) → CheckRefCounts n = Ok tt.
Proof.
  intros [B L N R]. unfold CheckRefCounts. apply both_Ok; apply each_Ok.
  - intros [bid e]. rewrite range_perm, elem_of_map_to_list. intros He. destruct (B _ _ He) as (-> & _ & [[]| ->]).
    by rewrite !Z.eqb_refl.
  - intros [k e]. rewrite range_perm, elem_of_map_to_list. intros He. apply each_Ok. intros bid Hin.
    destruct (Z.eqb_spec bid 0) as [|Hb]; [done|]. by destruct (N _ _ _ He Hin Hb) as [x ->].
Qed.

(** C9: The reference counts are right after any sequence of operations that
    succeeds: every block counts itself, the entries of the nodes that name it
    and the trees it is in, no node names a block that is missing, and the next
    block gets an ID of its own; so [CheckRefCounts] accepts the catalog. *)
Theorem catalog_counts `{!MapOrder} ops n n' : ndb_ok n → Forall op_typed ops → run_each run_op ops n = (n', Ok tt) →
  ndb_ok n' ∧ CheckRefCounts n' = Ok tt.
Proof.
  intros Hok Ht Hr. assert (ndb_ok n') as Hok'; [|split; [done|]; by eapply CheckRefCounts_Ok, no_cat].
  revert n Hok Hr. induction Ht as [|op ops Hop Ht IH]; intros n Hok Hr; cbn [run_each] in Hr; [by injection Hr as <-|].
  apply st_bind_inv in Hr as (n1 & [] & H1 & H2). apply (IH n1); [|done]. by eapply run_op_ok.
Qed.
Definition owned_ndb : NDB :=
  mkNDB (mkStore (mkStoreState [] 0 2 1 4 8 0 (mkBREF 0 0) (mkBREF 0 0) []) None None None)
    (mkCatalog (ids_nextBlock 8 NewSequentialIDs) ∅ {[4 := mkBBTEntry 4 0 0 1]} ∅ ∅ ∅ []).
Lemma owned_ndb_ok : ndb_ok owned_ndb.
Proof.
  assert (∀ b x, n_blocks owned_ndb !! b = Some x → b = 4 ∧ x = mkBBTEntry 4 0 0 1) as Hb.
  { intros b x Hx. change (({[4 := mkBBTEntry 4 0 0 1]} : gmap Z BBTEntry) !! b = Some x) in Hx.
    by apply lookup_singleton_Some in Hx as [<- <-]. }
  split; split; try done.
  - intros b x [-> ->]%Hb. split_and!; [done..|by right].
  - intros m b x Hm Hx. exfalso. unfold ref_maps in Hm. cbn in Hm. rewrite !elem_of_cons in Hm.
    destruct Hm as [->|[->|[->|Hm]]]; [done..|by apply not_elem_of_nil in Hm].
  - intros b [x [-> _]%Hb]. unfold bid_below. cbn. split; [done|left; lia].
Qed.
Lemma catalog_counts_witness :
  let ops := [OpPutNode (mkNBTEntry 33 4 0 0); OpAddRef 4 refDataTree; OpRelease 4 refDataTree] in
  ndb_ok owned_ndb ∧ Forall op_typed ops ∧ ∃ n', run_each run_op ops owned_ndb = (n', Ok tt) ∧ ndb_ok n' ∧ CheckRefCounts n' = Ok tt.
Proof.
  intros ops. assert (Forall op_typed ops) as Ht by (subst ops; repeat constructor). split; [apply owned_ndb_ok|]. split; [done|].
  set (r := run_each run_op ops owned_ndb). assert (r.2 = Ok tt) as Hr by (vm_compute; reflexivity).
  exists r.1. assert (r = (r.1, Ok tt)) as E by (rewrite <- Hr; apply surjective_pairing).
  split; [exact E|]. exact (catalog_counts ops owned_ndb r.1 owned_ndb_ok Ht E).
Defined.

(** ** Reclaiming *)
Lemma reclaim_post `{!MapOrder} n0 : cat_ok nostale (λ _, True) (n_cat n0) →
  post (λ n, n = n0) reclaimOrphans (λ _, inv nostale (λ _, False) (n_cat n0)).
Proof.
  intros Hok. unfold reclaimOrphans. apply post_get. intros n ->. set (l := filter _ _).
  assert (∀ b, b ∈ l ↔ is_Some (n_blocks n0 !! b) ∧ live (n_cat n0) b = 0) as Hl.
  { intros b. subst l. rewrite list_elem_of_filter. unfold unreferenced. rewrite (live_zero _ _ _ _ Hok).
    assert (b ∈ map fst (range (n_blocks n0)) ↔ is_Some (n_blocks n0 !! b)) as ->; [|tauto].
    rewrite list_elem_of_In, in_map_iff. split.
    - intros ([b' x] & <- & Hin). apply list_elem_of_In in Hin. rewrite range_perm, elem_of_map_to_list in Hin. by exists x.
    - intros [x Hx]. exists (b, x). split; [done|]. apply list_elem_of_In. by rewrite range_perm, elem_of_map_to_list. }
  assert (∀ b, b ∈ l → b ≠ 0 ∧ live (n_cat n0) b = 0) as Hz.
  { intros b [[x Hx] Hb]%Hl. split; [|done]. by destruct (ck_blocks _ _ _ Hok _ _ Hx) as (_ & ? & _). }
  assert (inv nostale (λ b, b ∈ l) (n_cat n0) n0) as Hinv.
  { split; [|done]. apply (cat_ok_weaken _ _ _ _ _ Hok); [done|]. intros b Hb Hlv _. by apply Hl. }
  clearbody l. clear Hl. intros n n' [] -> Hr. revert Hinv Hr. generalize n0 at 2 3 as n. revert Hz.
  induction l as [|b l IH]; intros Hz n Hinv Hr; cbn [run_each] in Hr.
  - injection Hr as <-. destruct Hinv as [H1 H2]. split; [|done]. apply (cat_ok_weaken _ _ _ _ _ H1); [done|].
    intros b _ _ Hin. by apply not_elem_of_nil in Hin.
  - apply st_bind_inv in Hr as (n1 & [] & Hd & Hr). destruct (Hz b) as [Hb Hlv]; [set_solver|].
    apply (IH ltac:(set_solver) n1); [|done]. eapply (dropBlock_post nostale (λ b, b ∈ l)); [done| |exact Hd].
    destruct Hinv as [H1 H2]. split; [split; [|done]; apply (cat_ok_weaken _ _ _ _ _ H1); [done|unfold plus; set_solver]|].
    pose proof (extraLive_nonneg _ _ _ b H1) as Hx. pose proof (bl_refs _ _ H2 b) as Hle.
    unfold live, nbtLiveRefs in *. rewrite (bl_nodes _ _ H2). destruct (Z.eqb_spec b 0); [done|].
    pose proof (node_sum_nonneg (cs_nodes (n_cat n0)) b). unfold node_sum in *. lia.
Qed.

(** ** The depth of dropping *)
Definition fewer (n n' : NDB) : Prop := (size (n_blocks n') ≤ size (n_blocks n))%nat.
#[export] Instance fewer_preorder : PreOrder fewer.
Proof. split; [intros n|intros n1 n2 n3]; unfold fewer; lia. Qed.
Lemma same_cat_fewer n n' : same_cat n n' → fewer n n'.
Proof. unfold same_cat, fewer, n_blocks. by intros ->. Qed.
Lemma resyncRef_fewer bid : moves fewer (resyncRef bid).
Proof.
  intros n. unfold resyncRef. destruct (bid =? 0); [done|]. rewrite st_get_bind. destruct (n_blocks n !! bid) as [e|] eqn:E; [|done].
  unfold fewer, upd_cat, modify, n_blocks in *. cbn. by rewrite map_size_insert_Some.
Qed.
Lemma cat_extra_fewer kind m n : fewer n (with_cat n (cat_extra kind m (n_cat n))).
Proof. unfold fewer, n_blocks. cbn. by rewrite cat_extra_blocks. Qed.
Section depth.
Context (drop drop' : Z → ST NDB unit) (k : nat).
Context (Hfew : ∀ bid, moves fewer (drop bid)).
Context (Hsame : ∀ bid n, (size (n_blocks n) ≤ k)%nat → drop bid n = drop' bid n).
Lemma resync_drop_fewer bid : moves fewer (resync_drop drop bid).
Proof using Hfew.
  unfold resync_drop. destruct (bid =? 0); [apply (moves_ret fewer)|]. moves_step. destruct (_ !! _); [|apply (moves_ret fewer)].
  moves_step; [apply resyncRef_fewer|]. destruct (_ && _); [apply Hfew|apply (moves_ret fewer)].
Qed.
Lemma release_kid_fewer x : moves fewer (release_kid drop x).
Proof using Hfew.
  intros n. unfold release_kid. rewrite st_get_bind. destruct (_ <=? _); [done|]. unfold release_extra. rewrite st_get_bind. cbv zeta.
  destruct (_ <=? _); [by destruct (_ <? _)|]. unfold upd_cat at 1. rewrite st_modify_bind.
  etrans; [apply cat_extra_fewer|apply resync_drop_fewer].
Qed.
Lemma resync_drop_same bid n : (size (n_blocks n) ≤ k)%nat → resync_drop drop bid n = resync_drop drop' bid n.
Proof using Hsame.
  intros Hn. unfold resync_drop. destruct (bid =? 0); [done|]. rewrite !st_get_bind. destruct (_ !! _); [|done].
  unfold mbind, ST_bind. pose proof (resyncRef_fewer bid n) as Hr. destruct (resyncRef bid n) as [n1 [[]| |]]; [|done..].
  unfold get. destruct (_ && _); [|done]. apply Hsame. unfold fewer in Hr. cbn in Hr. lia.
Qed.
Lemma release_kid_same x n : (size (n_blocks n) ≤ k)%nat → release_kid drop x n = release_kid drop' x n.
Proof using Hsame.
  intros Hn. unfold release_kid. rewrite !st_get_bind. destruct (_ <=? _); [done|]. unfold release_extra. rewrite !st_get_bind. cbv zeta.
  destruct (_ <=? _); [by destruct (_ <? _)|]. unfold upd_cat. rewrite !st_modify_bind. apply resync_drop_same.
  etrans; [apply cat_extra_fewer|done].
Qed.
Lemma release_kids_same l n : (size (n_blocks n) ≤ k)%nat → run_each (release_kid drop) l n = run_each (release_kid drop') l n.
Proof using Hfew Hsame.
  revert n. induction l as [|x l IH]; intros n Hn; cbn [run_each]; [done|]. unfold mbind, ST_bind. rewrite <- release_kid_same by done.
  pose proof (release_kid_fewer x n) as Hr. destruct (release_kid drop x n) as [n1 [[]| |]]; [|done..]. apply IH. unfold fewer in Hr. cbn in Hr. lia.
Qed.
End depth.
Lemma drop_tree_fewer fuel bid : moves fewer (drop_tree fuel bid).
Proof.
  revert bid. induction fuel as [|fuel IH]; intros bid; cbn [drop_tree]; [apply (moves_lift fewer)|]. moves_step.
  destruct (_ !! _) as [e|]; [|apply (moves_ret fewer)].
  assert (∀ kids, moves fewer (upd_cat (forget_block bid) ;; freeBlockIB e ;; do kids <- lift kids; run_each (release_kid (drop_tree fuel)) kids)) as Hm.
  { intros kids. moves_step.
    - intros n1. unfold fewer, n_blocks. cbn. rewrite map_size_delete. destruct (_ !! bid); unfold id; lia.
    - intros n1. apply same_cat_fewer, freeBlockIB_cat.
    - apply run_each_moves; [apply _|]. intros x _. by apply release_kid_fewer. }
  destruct (treeChildRefs _ _); [apply Hm..|apply (moves_lift fewer)].
Qed.
(** Dropping never runs out of depth: beyond the number of blocks, more fuel
    changes nothing. *)
Lemma drop_tree_enough f f' bid n : (size (n_blocks n) < f)%nat → (size (n_blocks n) < f')%nat → drop_tree f bid n = drop_tree f' bid n.
Proof.
  revert f' bid n. induction f as [|f IH]; intros [|f'] bid n Hf Hf'; [lia..|]. cbn [drop_tree]. rewrite !st_get_bind.
  destruct (n_blocks n !! bid) as [e|] eqn:E; [|done].
  assert (∀ kids, (upd_cat (forget_block bid) ;; freeBlockIB e ;; do kids <- lift kids; run_each (release_kid (drop_tree f)) kids) n =
                  (upd_cat (forget_block bid) ;; freeBlockIB e ;; do kids <- lift kids; run_each (release_kid (drop_tree f')) kids) n) as Hm;
    [|by destruct (treeChildRefs _ _)].
  intros kids. unfold upd_cat. rewrite !st_modify_bind. set (n1 := with_cat n _).
  assert (size (n_blocks n1) = pred (size (n_blocks n))) as Hs by (subst n1; unfold n_blocks in *; cbn; by rewrite map_size_delete, E). clearbody n1.
  assert (size (n_blocks n) ≠ 0)%nat as Hne by (intros H0; apply map_size_empty_inv in H0; by rewrite H0 in E).
  unfold mbind, ST_bind. pose proof (same_cat_fewer _ _ (freeBlockIB_cat e n1)) as Hr. destruct (freeBlockIB e n1) as [n2 [[]| |]]; [|done..].
  unfold lift. destruct kids as [l| |]; [|done..]. unfold fewer in Hr. cbn [fst] in Hr.
  apply (release_kids_same _ _ (size (n_blocks n2))); [apply drop_tree_fewer| |done]. intros b n3 Hn3. apply IH; lia.
Qed.
