(* ===== verification/V2Extents.v ===== *)
(** * Writer v2: the bytes of the blocks

    A block of the catalog owns a run of slots.  Allocating, writing another
    block or growing the file leaves its bytes alone, so its payload stays what
    was written. *)
From S2P Require Import Prelude Ids State Header Database V2Base V2Disk V2Entries V2Blocks V2Header V2Bitmap V2Store V2Journal V2Alloc V2Ndb V2Txn V2Catalog.

(** ** Writing to allocated slots *)
Lemma writeExtent_Ok s k len raw w : store_wf s → in_region (RegionCount s) k len → blen raw = 64 * len →
  st_work s = Some w → slot_addr k + 64 * len ≤ blen w →
  ∃ u, writeExtent (slot_addr k) raw s = (mkStore (st_state s) (st_io s) (Some (write_at (slot_addr k) raw w)) u, Ok tt) ∧ undo_wf u.
Proof.
  intros [Hwf Hmeta] Hin Hl Hw Hb. pose proof Hin as (H0 & H1 & H2 & H3). pose proof (wf_room s Hwf) as Hr.
  assert (1 ≤ RegionCount s) as Hc by lia. pose proof (FileEOF_ok s Hr Hc) as He.
  assert (slot_addr k + 64 * len < 2 ^ 64 - 64) as Hsm by (unfold region_ok, slot_addr in *; lia).
  unfold writeExtent. rewrite (proj2 (Z.eqb_neq _ _)) by lia. rewrite st_get_bind. cbv zeta.
  rewrite u64_small by (unfold slot_addr in *; lia). rewrite (proj2 (Z.ltb_ge _ _)) by (rewrite He; unfold slot_addr in *; lia).
  rewrite st_modify_bind. assert (ensureSpool s = s) as -> by (unfold ensureSpool; by rewrite Hw).
  destruct (noteUndo_Ok (slot_addr k) (blen raw) s (wf_undo s Hwf)) as (u & Hn & Hu); [|unfold slot_addr; lia|lia|].
  { right. intros p Hp. right. unfold store_reader. rewrite Hw. exists w. split; [done|lia]. }
  rewrite (st_bind_Ok _ _ _ _ _ Hn). exists u. unfold modify, with_work, with_undo. cbn. rewrite Hw. done.
Qed.

(** ** Where a block is *)
Definition disk_slots (e : BBTEntry) : Z := BlockDiskSize (B_CB e) / 64.
(** The block owns the slots from [k]: in use, inside one region, no map page. *)
Record placed (s : Store) (e : BBTEntry) (k : Z) : Prop := mkPlaced {
  pl_addr : B_IB e = slot_addr k;
  pl_cb : 0 ≤ B_CB e ≤ MaxDataBlockCB;
  pl_region : in_region (RegionCount s) k (disk_slots e);
  pl_used : run_used (regions s) true k (disk_slots e);
  pl_data : ∀ j, k ≤ j < k + disk_slots e → ¬ is_map_slot j }.
Lemma disk_slots_ok e : 0 ≤ B_CB e ≤ MaxDataBlockCB → BlockDiskSize (B_CB e) = 64 * disk_slots e ∧ 0 < disk_slots e ≤ 128.
Proof. intros H. destruct (BlockDiskSize_bounds _ H) as (H1 & H2 & H3). unfold disk_slots. divlia. Qed.
(** The payload of a block, in the spool when there is one. *)
Definition stored (s : Store) (e : BBTEntry) (d : bytes) : Prop :=
  blockPayload s e = Ok d ∧ match st_work s with Some w => B_IB e + BlockDiskSize (B_CB e) ≤ blen w | None => True end.
Lemma sub_ext (f g : bytes) a n : 0 ≤ a → 0 ≤ n → a + n ≤ blen f → a + n ≤ blen g →
  (∀ p, a ≤ p < a + n → byte_at f p = byte_at g p) → sub f a n = sub g a n.
Proof.
  intros Ha Hn Hf Hg H. apply byte_at_ext; rewrite ?blen_sub by lia; [done|]. intros p Hp. rewrite !byte_at_sub by lia.
  destruct (Z.ltb_spec p n); [|done]. apply H. lia.
Qed.
(** Bytes of slots in use that a step keeps. *)
Lemma blockPayload_work s s' e w w' : 0 ≤ B_IB e → 0 ≤ B_CB e ≤ MaxDataBlockCB → st_work s = Some w → st_work s' = Some w' →
  B_IB e + BlockDiskSize (B_CB e) ≤ blen w → B_IB e + BlockDiskSize (B_CB e) ≤ blen w' →
  (∀ p, B_IB e ≤ p < B_IB e + BlockDiskSize (B_CB e) → byte_at w' p = byte_at w p) → blockPayload s' e = blockPayload s e.
Proof.
  intros H0 Hc Hw Hw' Hl Hl' Hb. destruct (BlockDiskSize_bounds _ Hc) as (B1 & _). unfold blockPayload. cbv zeta. destruct (B_IB e =? 0); [done|].
  unfold readExtent. rewrite (proj2 (Z.eqb_neq _ _)) by lia. rewrite Hw, Hw'. rewrite !blen_sub by lia. rewrite !Z.eqb_refl.
  by rewrite (sub_ext w' w) by (try done; lia).
Qed.
Lemma keeps_stored s s' e k d : keeps_used s s' → placed s e k → stored s e d → st_work s ≠ None → stored s' e d.
Proof.
  intros [Hu Hw] [Ha Hc Hin Hr _] [Hp Hl] Hs. destruct (st_work s) as [w|] eqn:E; [|done].
  destruct (Hw w eq_refl) as (w' & Hw' & Hlw & Hb). destruct (disk_slots_ok e Hc) as [Hd Hn]. destruct Hin as (H0 & _).
  unfold stored. rewrite Hw'. split; [|lia]. rewrite <- Hp. apply (blockPayload_work s s' e w w'); try done.
  - rewrite Ha. unfold slot_addr. lia.
  - lia.
  - intros p Hpp. apply (Hb ((p - 0x4400) / 64)); rewrite Ha, Hd in Hpp; unfold slot_addr in *; [divlia| |divlia].
    apply Hr. divlia.
Qed.
Lemma keeps_placed s s' e k : keeps_used s s' → RegionCount s ≤ RegionCount s' → placed s e k → placed s' e k.
Proof.
  intros [Hu _] Hc [H1 H2 H3 H4 H5]. split; [done|done| | |done].
  - unfold in_region in *. lia.
  - destruct H3 as (? & _). intros j Hj. apply Hu; [lia|]. by apply H4.
Qed.
Lemma ensureSpool_stored s e k d : store_wf s → placed s e k → stored s e d → stored (ensureSpool s) e d.
Proof.
  intros [Hwf _] [Ha Hc Hin Hr _] [Hp Hl]. unfold ensureSpool. destruct (st_work s) as [w|] eqn:E; [by split; rewrite ?E|].
  destruct (disk_slots_ok e Hc) as [Hd Hn]. pose proof Hin as (H0 & _ & _ & H3).
  assert (FileEOF s = slot_addr (3968 * RegionCount s)) as He by (apply FileEOF_ok; [apply Hwf|lia]).
  assert (∃ src, st_io s = Some src ∧ B_IB e + BlockDiskSize (B_CB e) ≤ blen src) as (src & Hs & Hls).
  { unfold blockPayload, readExtent in Hp. cbv zeta in Hp. destruct (B_IB e =? 0); [done|]. rewrite (proj2 (Z.eqb_neq _ _)) in Hp by lia.
    rewrite E in Hp. destruct (st_io s) as [src|]; [|done]. exists src. split; [done|].
    destruct (Z.eqb_spec (blen (sub src (B_IB e) (BlockDiskSize (B_CB e)))) (BlockDiskSize (B_CB e))) as [Hb|]; [|done].
    unfold sub, blen in *. rewrite length_take, length_drop in Hb. rewrite Ha in *. unfold slot_addr in *. lia. }
  set (w := sub src 0 (FileEOF s)). pose proof (blen_nonneg src).
  assert (blen w = Z.min (FileEOF s) (blen src)) as Hw.
  { subst w. unfold sub, blen in *. rewrite length_take, length_drop, He. unfold slot_addr. lia. }
  assert (B_IB e + BlockDiskSize (B_CB e) ≤ blen w) as Hlw by (rewrite Hw, He, Ha, Hd; unfold slot_addr in *; lia).
  rewrite Hs. fold w. split; [|done]. rewrite <- Hp. unfold blockPayload, readExtent. cbv zeta. destruct (B_IB e =? 0); [done|].
  rewrite (proj2 (Z.eqb_neq _ _)) by lia. rewrite E, Hs. cbn [with_work st_work]. rewrite Ha in *. unfold slot_addr in *.
  rewrite !blen_sub by lia. rewrite Z.eqb_refl. rewrite (sub_ext w src); [done|lia..|].
  intros p Hpp. subst w. rewrite byte_at_sub by lia. destruct (Z.ltb_spec p (FileEOF s)); [done|lia].
Qed.

(** ** The invariant of the catalog over its store *)
Definition apart (a n b m : Z) : Prop := a + n ≤ b ∨ b + m ≤ a.
Record page_placed (s : Store) (p k : Z) : Prop := mkPagePlaced {
  pp_addr : p = slot_addr k; pp_aligned : p mod PageSize = 0;
  pp_region : in_region (RegionCount s) k 8; pp_used : run_used (regions s) true k 8;
  pp_data : ∀ j, k ≤ j < k + 8 → ¬ is_map_slot j }.
Record ndb_wf (n : NDB) : Prop := mkNdbWf {
  nw_store : store_wf (n_store n);
  nw_ok : ndb_ok n;
  nw_blocks : ∀ bid e, n_blocks n !! bid = Some e → ∃ k, placed (n_store n) e k;
  nw_apart : ∀ bid bid' e e', n_blocks n !! bid = Some e → n_blocks n !! bid' = Some e' → bid ≠ bid' →
    apart (B_IB e) (BlockDiskSize (B_CB e)) (B_IB e') (BlockDiskSize (B_CB e'));
  nw_pages : ∀ p, p ∈ cs_livePages (n_cat n) → (∃ k, page_placed (n_store n) p k) ∧
    ∀ bid e, n_blocks n !! bid = Some e → apart (B_IB e) (BlockDiskSize (B_CB e)) p PageSize;
  nw_nodup : NoDup (cs_livePages (n_cat n)) }.
Definition payload (n : NDB) (bid : Z) (d : bytes) : Prop := ∃ e, n_blocks n !! bid = Some e ∧ stored (n_store n) e d.

Lemma keeps_page s s' p k : keeps_used s s' → RegionCount s ≤ RegionCount s' → page_placed s p k → page_placed s' p k.
Proof.
  intros [Hu _] Hc [H1 H2 H3 H4 H5]. split; [done|done| | |done].
  - unfold in_region in *. lia.
  - destruct H3 as (? & _). intros j Hj. apply Hu; [lia|]. by apply H4.
Qed.
Lemma placed_same s s' e k : regions s' = regions s → placed s e k → placed s' e k.
Proof. intros Hr [H1 H2 H3 H4 H5]. split; try done; unfold RegionCount in *; by rewrite Hr. Qed.
Lemma page_same s s' p k : regions s' = regions s → page_placed s p k → page_placed s' p k.
Proof. intros Hr [H1 H2 H3 H4 H5]. split; try done; unfold RegionCount in *; by rewrite Hr. Qed.
(** A step that touches neither the catalog nor the map. *)
Lemma ndb_wf_same n n' : ndb_wf n → n_cat n' = n_cat n → regions (n_store n') = regions (n_store n) → next_bid n' = next_bid n →
  undo_wf (st_undo (n_store n')) → ndb_wf n'.
Proof.
  intros [[[W1 W2 W3] M] [C [I1 I2 I3]] B A P N] Hc Hr Hn Hu. split.
  - split; [split|]; unfold RegionCount, meta_used in *; unfold RegionCount in *; by rewrite ?Hr.
  - split; [by rewrite Hc|]. split; unfold n_blocks in *; by rewrite ?Hn, ?Hc.
  - intros bid e. unfold n_blocks. rewrite Hc. intros He. destruct (B bid e He) as [k Hk]. exists k. by apply (placed_same (n_store n)).
  - unfold n_blocks. by rewrite Hc.
  - rewrite Hc. intros p Hp. destruct (P p Hp) as [[k Hk] Hap]. split; [exists k; by apply (page_same (n_store n))|].
    unfold n_blocks. by rewrite Hc.
  - by rewrite Hc.
Qed.
(** Two runs of slots with different use do not overlap. *)
Lemma used_free_apart rs k n j m : 0 < n → 0 < m → run_used rs true k n → run_used rs false j m → apart (slot_addr k) (64 * n) (slot_addr j) (64 * m).
Proof.
  intros Hn Hm Hk Hj. unfold apart, slot_addr. destruct (decide (k + n ≤ j)); [left; lia|]. destruct (decide (j + m ≤ k)); [right; lia|].
  exfalso. specialize (Hk (Z.max k j) ltac:(lia)). specialize (Hj (Z.max k j) ltac:(lia)). congruence.
Qed.
Lemma apart_sym a n b m : apart a n b m → apart b m a n.
Proof. unfold apart. tauto. Qed.

(** ** Allocating a block *)
Definition takes (d : Z) (take : SequentialIDs → result (Z * SequentialIDs)) : Prop :=
  takes_next take ∧ ∀ i, 4 ≤ nextBlock i < 2 ^ 64 - 16 → nextBlock i mod 4 = 0 →
    take i = Ok (nextBlock i + d, ids_nextBlock (nextBlock i + 4) i).
Lemma TakeBlockBID_takes : takes 0 TakeBlockBID.
Proof.
  split; [apply TakeBlockBID_next|]. intros [si nd nb np un ks] Hr Hm. cbn [nextBlock] in *. unfold TakeBlockBID, takeMonotonic. cbn [nextBlock].
  rewrite (proj2 (Z.eqb_neq nb 0)) by lia. unfold BlockBIDIncrement. change (u64 (18446744073709551615 - 4)) with (2 ^ 64 - 5).
  change (0 <? 4) with true. cbn [andb]. rewrite (proj2 (Z.ltb_ge _ _)) by lia. rewrite u64_small by lia.
  rewrite (proj2 (Z.eqb_neq _ 0)) by lia. by rewrite Z.add_0_r.
Qed.
Lemma TakeInternal_takes : takes 2 TakeInternalBlockBID.
Proof.
  split; [apply TakeInternal_next|]. intros i Hr Hm. unfold TakeInternalBlockBID. rewrite (proj2 TakeBlockBID_takes) by done. cbn.
  rewrite Z.add_0_r, MakeInternalBID_arith by lia. do 3 f_equal. divlia.
Qed.
Definition room (n : NDB) (k : Z) : Prop := region_ok (RegionCount (n_store n) + k) ∧ next_bid n + 4 * k < 2 ^ 64 - 16.
(** What allocating a block does. *)
Record block_added (d : Z) (n n' : NDB) (e : BBTEntry) : Prop := mkBlockAdded {
  ba_wf : ndb_wf n';
  ba_bid : B_BID e = next_bid n + d ∧ next_bid n' = next_bid n + 4;
  ba_fresh : n_blocks n !! B_BID e = None;
  ba_blocks : n_blocks n' = <[B_BID e := e]> (n_blocks n);
  ba_nodes : n_nodes n' = n_nodes n;
  ba_refs : ref_maps (n_cat n') = ref_maps (n_cat n) ∧ cs_livePages (n_cat n') = cs_livePages (n_cat n);
  ba_count : RegionCount (n_store n) ≤ RegionCount (n_store n') ≤ RegionCount (n_store n) + 1;
  ba_kept : ∀ bid x, payload n bid x → payload n' bid x;
  ba_spool : ∃ w, st_work (n_store n') = Some w ∧ B_IB e + BlockDiskSize (B_CB e) ≤ blen w }.

Lemma noteBID_run n bid : fits 64 bid → bid ≠ 0 → bid mod 2 = 0 → bid - bid mod 4 + 4 < 2 ^ 64 → next_bid n ≤ bid - bid mod 4 + 4 →
  noteBID bid n = (let s' := with_state (n_store n) (set_bidNextB (st_state (n_store n)) (bid - bid mod 4 + 4)) in
    mkNDB s' (cat_ids (n_cat n) (ids_nextBlock (bid - bid mod 4 + 4) (cs_ids (n_cat n)))), Ok tt).
Proof.
  intros Hf Hb He Hs Hn. unfold noteBID, on_store, zoom, noteBlockBID, mbind, ST_bind. rewrite (proj2 (Z.eqb_neq bid 0)) by done.
  assert (BIDHasReserved bid = false) as ->. { rewrite BIDHasReserved_bit. rewrite <- Z.bit0_mod in He. by destruct (Z.testbit bid 0). }
  cbn [orb]. unfold upd_state, modify. rewrite ldiff_internal by done. unfold BlockBIDIncrement, fits in *.
  rewrite u64_small by divlia. replace (4 * (bid / 4) + 4) with (bid - bid mod 4 + 4) by divlia. unfold with_cat, with_store, next_bid in *.
  cbn. destruct (Z.ltb_spec (ss_bidNextB (st_state (n_store n))) (bid - bid mod 4 + 4)) as [|Hge]; [done|].
  assert (ss_bidNextB (st_state (n_store n)) = bid - bid mod 4 + 4) as <- by lia. unfold with_state. by destruct (n_store n) as [[] ? ? ?].
Qed.
Lemma alloc_block_run take d cb n s1 ib : takes d take → d = 0 ∨ d = 2 → ndb_ok n → next_bid n < 2 ^ 64 - 16 → 
  Allocate (BlockDiskSize cb) (n_store n) = (s1, Ok ib) → next_bid (with_store n s1) = next_bid n →
  alloc_block take cb n =
    (let e := mkBBTEntry (next_bid n + d) ib cb 1 in
     mkNDB (with_state s1 (set_bidNextB (st_state s1) (next_bid n + 4)))
       (cat_blocks (<[B_BID e := e]> (n_blocks n)) (cat_ids (n_cat n) (ids_nextBlock (next_bid n + 4) (cs_ids (n_cat n))))),
     Ok (mkBBTEntry (next_bid n + d) ib cb 1)).
Proof.
  intros [_ Ht] Hd [_ [Hnext [Hr Hm] _]] Hmax Ha Hn1. unfold alloc_block. cbv zeta.
  assert (on_store (Allocate (BlockDiskSize cb)) n = (with_store n s1, Ok ib)) as Hal by (unfold on_store, zoom; by rewrite Ha).
  rewrite (st_bind_Ok _ _ _ _ _ Hal).
  set (n2 := with_cat (with_store n s1) (cat_ids (n_cat n) (ids_nextBlock (next_bid n + 4) (cs_ids (n_cat n))))).
  assert (or_undo (on_store (Free ib (BlockDiskSize cb))) (take_id take) (with_store n s1) = (n2, Ok (next_bid n + d))) as Htk.
  { unfold or_undo, take_id. cbn [n_cat with_store]. rewrite Ht by (rewrite Hnext; (done || lia)). by rewrite Hnext. }
  rewrite (st_bind_Ok _ _ _ _ _ Htk).
  assert (or_undo (on_store (Free ib (BlockDiskSize cb))) (noteBID (next_bid n + d)) n2 =
    (mkNDB (with_state s1 (set_bidNextB (st_state s1) (next_bid n + 4)))
       (cat_ids (n_cat n) (ids_nextBlock (next_bid n + 4) (cs_ids (n_cat n)))), Ok tt)) as Hnb.
  { unfold or_undo. rewrite noteBID_run; [|unfold fits; lia|lia|destruct Hd as [-> | ->]; divlia|destruct Hd as [-> | ->]; divlia|].
    - replace (next_bid n + d - (next_bid n + d) mod 4 + 4) with (next_bid n + 4) by (destruct Hd as [-> | ->]; divlia). done.
    - change (next_bid n2) with (next_bid (with_store n s1)). rewrite Hn1. destruct Hd as [-> | ->]; divlia. }
  rewrite (st_bind_Ok _ _ _ _ _ Hnb). done.
Qed.
Lemma alloc_block_Ok take d cb n : takes d take → d = 0 ∨ d = 2 → ndb_wf n → room n 1 → 0 ≤ cb ≤ MaxDataBlockCB →
  ∃ n' e, alloc_block take cb n = (n', Ok e) ∧ block_added d n n' e ∧ B_CB e = cb ∧ ∃ k, placed (n_store n') e k.
Proof.
  intros Ht Hd Hwf [Hroom Hbid] Hcb. pose proof (nw_ok n Hwf) as Hok.
  set (e0 := mkBBTEntry (next_bid n + d) 0 cb 1). destruct (disk_slots_ok e0 Hcb) as [Hds Hdn]. unfold disk_slots in *. cbn [B_CB e0] in *.
  set (len := BlockDiskSize cb / 64) in *.
  destruct (Allocate_Ok (n_store n) len (nw_store n Hwf) Hroom Hdn) as (s1 & k & Ha & HA & Hsp & Hks). rewrite <- Hds in Ha.
  pose proof HA as [A1 [A2 _] A3 A4 [A5 A5'] A6 A7].
  pose proof (λ j, allocated_fresh _ _ _ _ _ j (nw_store n Hwf) HA) as Hfresh.
  assert (RegionCount (n_store n) ≤ RegionCount s1 ≤ RegionCount (n_store n) + 1) as Hcnt by (destruct A3 as [(_ & _ & ->)|(_ & -> & _)]; lia).
  assert (next_bid (with_store n s1) = next_bid n) as Hn1 by (unfold next_bid; cbn; by rewrite A5').
  set (s2 := with_state s1 (set_bidNextB (st_state s1) (next_bid n + 4))).
  assert (keeps_used s1 s2) as Hk12 by (by apply keeps_used_same). change (RegionCount s1) with (RegionCount s2) in *.
  assert (keeps_used (n_store n) s2) as Hk by (etrans; [exact A7|exact Hk12]).
  assert (keeps_used (ensureSpool (n_store n)) s2) as Hke by (etrans; [exact Hks|exact Hk12]).
  pose proof (alloc_block_run take d cb n s1 (slot_addr k) Ht Hd Hok ltac:(lia) Ha Hn1) as Hrun. cbv zeta in Hrun. cbn [B_BID] in Hrun. fold s2 in Hrun.
  set (e := mkBBTEntry (next_bid n + d) (slot_addr k) cb 1) in *.
  destruct (alloc_block_post take cb n (proj1 Ht) Hok _ _ _ eq_refl Hrun) as (Hok' & Hfr & _ & Hbl & Hnd).
  eexists _, e. split; [exact Hrun|]. cbn [B_BID e] in Hbl, Hfr. set (n' := mkNDB s2 _) in *.
  assert (placed s2 e k) as Hpl.
  { split; [done|done|exact A2| |].
    - intros j Hj. apply A4; [destruct A2; lia|]. unfold disk_slots in Hj. cbn [B_CB e] in Hj. fold len in Hj. right. left. lia.
    - intros j Hj. by apply Hfresh. }
  split; [|split; [done|by exists k]]. split; try done.
  - split; [destruct A1 as [[? ? ?] ?]; by split|done| | | |by apply (nw_nodup n Hwf)].
    + intros bid x. rewrite Hbl. intros [[<- <-]|[Hne Hx]]%lookup_insert_Some; [by exists k|].
      destruct (nw_blocks n Hwf _ _ Hx) as (j & Hj). exists j. apply (keeps_placed (n_store n)); [done|cbn; lia|done].
    + assert (∀ bid x, n_blocks n !! bid = Some x → apart (B_IB x) (BlockDiskSize (B_CB x)) (slot_addr k) (BlockDiskSize cb)) as Hap.
      { intros bid x Hx. destruct (nw_blocks n Hwf _ _ Hx) as (j & [Hj1 Hj2 Hj3 Hj4 Hj5]). rewrite Hj1, Hds.
        destruct (disk_slots_ok x Hj2) as [-> ?]. apply (used_free_apart (regions (n_store n))); [lia|lia|done|]. intros i Hi. by apply Hfresh. }
      intros bid bid' x x'. rewrite Hbl. intros [[<- <-]|[Hne Hx]]%lookup_insert_Some [[<- <-]|[Hne' Hx']]%lookup_insert_Some Hnn.
      * done.
      * by apply apart_sym, (Hap bid').
      * by apply (Hap bid).
      * by apply (nw_apart n Hwf bid bid').
    + intros p Hp. destruct (nw_pages n Hwf p Hp) as [[j Hj] Hap]. split; [exists j; apply (keeps_page (n_store n)); [done|cbn; lia|done]|].
      intros bid x. rewrite Hbl. intros [[<- <-]|[Hne Hx]]%lookup_insert_Some; [|by apply (Hap bid)].
      apply apart_sym. destruct Hj as [Hj1 _ Hj3 Hj4 _]. rewrite Hj1. cbn [B_IB B_CB e]. rewrite Hds. change PageSize with (64 * 8).
      apply (used_free_apart (regions (n_store n))); [lia|lia|done|]. intros i Hi. by apply Hfresh.
  - intros bid x (y & Hy & Hst). exists y. rewrite Hbl. split; [rewrite lookup_insert_ne; [done|intros E; cbn in E; congruence]|].
    destruct (nw_blocks n Hwf _ _ Hy) as (j & Hj). apply (keeps_stored (ensureSpool (n_store n)) _ _ j); [done| | |apply ensureSpool_work].
    + destruct Hj as [? ? ? ? ?]. unfold RegionCount. split; rewrite ?ensureSpool_regions; try done. unfold RegionCount. by rewrite ensureSpool_regions.
    + by apply (ensureSpool_stored _ _ j); [apply (nw_store n Hwf)| |].
  - change (n_store n') with s2. cbn [st_work with_state s2]. destruct (st_work s1) as [w|] eqn:Ew; [|done]. exists w. split; [done|].
    cbn [B_IB B_CB e]. lia.
Qed.

(** ** Writing the payload of a block *)
Lemma result_bind_ext {A B} (m : result A) (f g : A → result B) : (∀ a, f a = g a) → m ≫= f = m ≫= g.
Proof. intros H. destruct m; [apply H|done..]. Qed.
Lemma InspectBlock_none raw offset : InspectBlock raw offset = InspectBlockCrypt raw offset CryptNone.
Proof.
  unfold InspectBlock, InspectBlockCrypt, inspectBlock.
  assert (∀ data bid, open_payload data bid CryptNone false = open_payload data bid CryptNone true) as Ho.
  { intros data bid. unfold open_payload. cbn [andb]. by destruct (negb (BIDIsInternal bid)). }
  repeat first [reflexivity|apply result_bind_ext; intro|rewrite Ho; reflexivity|case_match].
Qed.
Lemma encodeBlock_none data bid ib internal : block_bid_ok bid → blen data ≤ MaxDataBlockCB →
  encodeBlock data bid ib CryptNone internal = Ok (block_image data (zeros (block_pad (blen data))) (stored_bid bid internal) ib).
Proof.
  intros [H1 H2] Hl. unfold encodeBlock, stored_bid. rewrite (proj2 (Z.eqb_neq bid 0)), H2 by done.
  destruct internal; unfold cryptData; cbn; by rewrite frame_block_Ok.
Qed.
(** The disk image of a block: what is written, and that it reads back. *)
Lemma block_written e data : 0 < B_BID e < 2 ^ 64 → B_BID e mod 2 = 0 → B_CB e = blen data → blen data ≤ MaxDataBlockCB → bytes_ok data →
  ∃ raw v, (if BIDIsInternal (B_BID e) then EncodeInternalBlock data (B_BID e) (B_IB e) else EncodeBlock data (B_BID e) (B_IB e)) = Ok raw ∧
    blen raw = BlockDiskSize (B_CB e) ∧ InspectBlock raw (B_IB e) = Ok v ∧ BV_BID v = B_BID e ∧ BV_Plain v = data.
Proof.
  intros Hb He Hcb Hl Hd.
  assert (block_bid_ok (B_BID e)) as Hbo.
  { split; [lia|]. rewrite BIDHasReserved_bit. rewrite <- Z.bit0_mod in He. by destruct (Z.testbit (B_BID e) 0). }
  set (i := BIDIsInternal (B_BID e)).
  assert (stored_bid (B_BID e) i = B_BID e) as Hst.
  { subst i. unfold stored_bid. rewrite BIDIsInternal_bit. destruct (Z.testbit (B_BID e) 1) eqn:E; [|done].
    rewrite MakeInternalBID_arith by lia. apply Z.testbit_true in E; [|lia]. change (2 ^ 1) with 2 in E. divlia. }
  pose proof (encodeBlock_none data (B_BID e) (B_IB e) i Hbo Hl) as Henc. rewrite Hst in Henc. eexists.
  destruct (block_reads_back data (B_BID e) (B_IB e) CryptNone i _ Hd ltac:(unfold fits; lia) Henc) as (v & Hv & Hp & _ & Hvb & _).
  { intros Hi. by split. }
  exists v. split_and!; [|shelve|by rewrite InspectBlock_none|by rewrite Hvb|done].
  subst i. destruct (BIDIsInternal (B_BID e)) eqn:E; [exact Henc|]. unfold EncodeBlock, EncodeExternalBlock. rewrite E. exact Henc.
  Unshelve. unfold block_image. rewrite !blen_app, blen_zeros, blen_block_tail, Hcb. pose proof (blen_nonneg data).
  destruct (BlockDiskSize_bounds (blen data)) as [? _]; [done|]. unfold block_pad. lia.
Qed.
Lemma bid_below_range b bid : bid_below b bid → b ≤ 2 ^ 64 → 0 < bid < 2 ^ 64 ∧ bid mod 2 = 0.
Proof. unfold bid_below. lia. Qed.
Lemma putPayload_Ok n e k data w : ndb_wf n → n_blocks n !! B_BID e = Some e → placed (n_store n) e k →
  st_work (n_store n) = Some w → B_IB e + BlockDiskSize (B_CB e) ≤ blen w → B_CB e = blen data → bytes_ok data →
  ∃ n', putPayload e data n = (n', Ok tt) ∧ ndb_wf n' ∧ n_cat n' = n_cat n ∧ st_state (n_store n') = st_state (n_store n) ∧
    payload n' (B_BID e) data ∧ (∀ bid x, bid ≠ B_BID e → payload n bid x → payload n' bid x) ∧
    ∃ w', st_work (n_store n') = Some w' ∧ blen w ≤ blen w'.
Proof.
  intros Hwf He Hpl Hw Hlw Hcb Hd. destruct (nw_ok n Hwf) as [Hcat [Hnx [Hr Hm] Hids]].
  destruct (bid_below_range _ _ (Hids (B_BID e) ltac:(by exists e)) ltac:(lia)) as [Hb Hev].
  destruct Hpl as [Ha Hc Hin Hu Hmap] eqn:Epl. destruct (disk_slots_ok e Hc) as [Hds Hdn].
  destruct (block_written e data Hb Hev Hcb ltac:(lia) Hd) as (raw & v & Henc & Hraw & Hv & Hvb & Hvp).
  destruct (writeExtent_Ok (n_store n) k (disk_slots e) raw w (nw_store n Hwf) Hin ltac:(lia) Hw ltac:(lia)) as (u & Hwr & Hu').
  set (s' := mkStore _ _ _ _) in Hwr. exists (with_store n s').
  assert (regions s' = regions (n_store n)) as Hrs by done.
  assert (slot_addr k + blen raw ≤ blen w) as Hlr by lia. assert (0 ≤ slot_addr k) as Hk0 by (destruct Hin; unfold slot_addr; lia).
  assert (blen (write_at (slot_addr k) raw w) = blen w) as Hbw by (rewrite blen_write_at by lia; lia).
  split_and!; [| |done|done| | |by exists (write_at (slot_addr k) raw w); rewrite Hbw].
  - unfold putPayload. rewrite Hcb, Z.eqb_refl. cbn [negb]. rewrite Henc, Ha. unfold on_store, zoom, lift, mbind, ST_bind. by rewrite Hwr.
  - by apply (ndb_wf_same n).
  - exists e. split; [done|]. unfold stored. cbn [n_store with_store st_work s']. rewrite Ha, Hbw. split; [|lia].
    unfold blockPayload. cbv zeta. rewrite Ha. rewrite (proj2 (Z.eqb_neq (slot_addr k) 0)) by (unfold slot_addr in *; destruct Hin; lia).
    unfold readExtent. rewrite (proj2 (Z.eqb_neq _ _)) by lia. cbn [st_work s']. rewrite blen_sub by (rewrite ?Hbw; lia). rewrite Z.eqb_refl.
    assert (sub (write_at (slot_addr k) raw w) (slot_addr k) (BlockDiskSize (B_CB e)) = raw) as ->.
    { apply byte_at_ext; rewrite blen_sub by (rewrite ?Hbw; lia); [done|]. intros p Hp. rewrite byte_at_sub by lia.
      destruct (Z.ltb_spec p (BlockDiskSize (B_CB e))); [|lia]. rewrite byte_at_write by lia.
      rewrite (proj2 (Z.leb_le _ _)), (proj2 (Z.ltb_lt _ _)) by lia. cbn [andb]. f_equal. lia. }
    cbn. rewrite <- Ha, Hv. cbn. by rewrite Hvb, Z.eqb_refl, Hvp.
  - intros bid x Hne (y & Hy & [Hp Hl]). exists y. split; [done|]. rewrite Hw in Hl. unfold stored. cbn [n_store with_store st_work s']. rewrite Hbw.
    split; [|done]. rewrite <- Hp. destruct (nw_blocks n Hwf _ _ Hy) as (j & Hj). destruct Hj as [Hj1 Hj2 Hj3 Hj4 Hj5]. destruct (disk_slots_ok y Hj2) as [Hdy Hny].
    apply (blockPayload_work _ _ _ w (write_at (slot_addr k) raw w)); try done.
    + rewrite Hj1. destruct Hj3. unfold slot_addr. lia.
    + by rewrite Hbw.
    + intros p Hpp. rewrite byte_at_write by (rewrite Hj1 in Hpp; destruct Hj3; unfold slot_addr in *; lia).
      destruct (nw_apart n Hwf bid (B_BID e) y e Hy He Hne) as [Hap|Hap]; rewrite Ha in Hap;
        destruct (Z.leb_spec (slot_addr k) p), (Z.ltb_spec p (slot_addr k + blen raw)); cbn [andb]; (done || lia).
Qed.
