(* ===== verification/V2Data.v ===== *)
(** * Writer v2: data trees ([src/writer/v2/xblock.go])

    The data of a node is one block, an extended block that lists data blocks,
    or an extended block that lists extended blocks.  A reader is the bytes it
    delivers and the error it may end in. *)
From S2P Require Import Prelude Ids State V2Base V2Disk V2Entries V2Blocks V2Header V2Store V2Ndb.

(** ** Building *)
Record Reader := mkReader { r_bytes : bytes; r_err : option error }.
Definition MaxTotal : Z := 4294967295.
Definition null_block : BBTEntry := mkBBTEntry 0 0 0 0.
(** One round of the loop per fuel: [io.ReadFull] into a buffer of the largest
    block size. *)
Fixpoint stream_leaves (fuel : nat) (r : Reader) (leaves : list BBTEntry) (total : Z) : ST NDB (list BBTEntry * Z) :=
  match fuel with
  | O => lift Panic
  | S fuel =>
    let buf := sub (r_bytes r) 0 MaxDataBlockCB in
    let nr := blen buf in
    let rest := mkReader (sub (r_bytes r) MaxDataBlockCB (blen (r_bytes r))) (r_err r) in
    do st <- (if 0 <? nr then
                do e <- AllocBlock (u16 nr);
                putPayload e buf ;;
                if MaxTotal <? total + nr
                then lift (limitErr "lcbTotal" "logical size exceeds uint32 lcbTotal (MS-PST %s)" [])
                else mret (leaves ++ [e], total + nr)
              else mret (leaves, total));
    if nr =? MaxDataBlockCB then stream_leaves fuel rest st.1 st.2 else
    match r_err r with
    | Some _ => lift (ioErr "reader" "data tree read: %v" [])
    | None => mret st
    end
  end.
(** Write one extended block and count its references. *)
Definition put_xblock (level total : Z) (bids : list Z) : ST NDB BBTEntry :=
  do payload <- lift (EncodeXBlock level total bids);
  do blk <- AllocInternalBlock (u16 (blen payload));
  putPayload blk payload ;;
  run_each AddDataTreeRef bids ;;
  mret blk.
Definition buildDataTree (leaves : list BBTEntry) (total : Z) : ST NDB BBTEntry :=
  match leaves with
  | [e] => mret e
  | _ =>
    do xb <- mapM_st (λ chunk, put_xblock XBlockLevel (fold_left (λ s e, u32 (s + B_CB e)) chunk 0) (map B_BID chunk))
               (chunks MaxXBlockEntries leaves);
    match xb with
    | [x] => mret x
    | _ =>
      if MaxXBlockEntries <? blen xb
      then lift (limitErr "cEnt" "need %d XBLOCKs, max %d (XXXBLOCK unsupported, MS-PST %s)" [blen xb; MaxXBlockEntries])
      else put_xblock XXBlockLevel total (map B_BID xb)
    end
  end.
Definition streamDataTree (r : Reader) (expected : Z) : ST NDB BBTEntry :=
  if MaxTotal <? expected
  then lift (limitErr "lcbTotal" "logical size %d exceeds uint32 lcbTotal (MS-PST %s)" [expected]) else
  do st <- stream_leaves (S (length (r_bytes r))) r [] 0;
  if (0 <? expected) && negb (st.2 =? expected)
  then lift (invalidArg "size" "read %d bytes, expected %d" [st.2; expected]) else
  match st.1 with
  | [] => mret null_block
  | leaves => buildDataTree leaves (u32 st.2)
  end.
Definition PutDataTree (r : Reader) (expected : Z) : ST NDB BBTEntry := runTxn (streamDataTree r expected).

(** ** Walking

    The iterator holds the lists it has still to visit.  The end of the tree,
    [io.EOF] in the source, is [None]. *)
Record dataTreeIter := mkIter {
  it_seen : list Z; it_xx : list Z; it_xb : list Z; it_total : Z; it_walked : Z; it_done : bool }.
Definition startDataTree (n : NDB) (root : Z) : result dataTreeIter :=
  if root =? 0 then mret (mkIter [] [] [] 0 0 true) else
  match n_blocks n !! root with
  | None => invalidArg "bid" "missing data-tree root 0x%x" [root]
  | Some e =>
    if negb (BIDIsInternal root) then mret (mkIter [] [] [root] (B_CB e) 0 false) else
    data ← blockPayload (n_store n) e;
    xb ← InspectXBlock data;
    mret (if XV_Level xb =? XBlockLevel then mkIter [root] [] (XV_BIDs xb) (XV_Total xb) 0 false
          else mkIter [root] (XV_BIDs xb) [] (XV_Total xb) 0 false)
  end.
(** One round of the loop in [next] per fuel: each takes a leaf, the end, or one
    more extended block. *)
Fixpoint next_loop (fuel : nat) (n : NDB) (it : dataTreeIter) : dataTreeIter * result (option (Z * Z)) :=
  match fuel with
  | O => (it, Panic)
  | S fuel =>
    match it_xb it with
    | bid :: xb =>
      let it := mkIter (it_seen it) (it_xx it) xb (it_total it) (it_walked it) (it_done it) in
      if BIDIsInternal bid then (it, invariant "2.2.2.8.3.1" "rgbid" "XBLOCK child 0x%x is internal" [bid]) else
      if bool_decide (bid ∈ it_seen it) then (it, invariant "2.2.2.8.3.1" "rgbid" "duplicate BID 0x%x" [bid]) else
      let it := mkIter (bid :: it_seen it) (it_xx it) xb (it_total it) (it_walked it) (it_done it) in
      match n_blocks n !! bid with
      | None => (it, invariant "2.2.2.8.3.1" "rgbid" "missing data BID 0x%x" [bid])
      | Some child =>
        (mkIter (it_seen it) (it_xx it) xb (it_total it) (u64 (it_walked it + B_CB child)) (it_done it), Ok (Some (bid, B_CB child)))
      end
    | [] =>
      match it_xx it with
      | [] =>
        (mkIter (it_seen it) [] [] (it_total it) (it_walked it) true,
         if negb (it_walked it =? it_total it)
         then invariant "2.2.2.8.3.1" "lcbTotal" "walked %d want lcbTotal %d" [it_walked it; it_total it] else Ok None)
      | bid :: xx =>
        let it := mkIter (it_seen it) xx [] (it_total it) (it_walked it) (it_done it) in
        if bool_decide (bid ∈ it_seen it) then (it, invariant "2.2.2.8.3.2" "rgbid" "cycle or duplicate BID 0x%x" [bid]) else
        let it := mkIter (bid :: it_seen it) xx [] (it_total it) (it_walked it) (it_done it) in
        match n_blocks n !! bid with
        | None => (it, invariant "2.2.2.8.3.2" "rgbid" "missing XBLOCK BID 0x%x" [bid])
        | Some child =>
          if negb (BIDIsInternal bid)
          then (it, invariant "2.2.2.8.3.2" "rgbid" "XXBLOCK child 0x%x is not internal" [bid]) else
          match (data ← blockPayload (n_store n) child; InspectXBlock data) with
          | Ok cx =>
            if negb (XV_Level cx =? XBlockLevel)
            then (it, invariant "2.2.2.8.3.2" "cLevel" "XXBLOCK child 0x%x has cLevel %d, want 1" [bid; XV_Level cx])
            else next_loop fuel n (mkIter (it_seen it) xx (XV_BIDs cx) (it_total it) (it_walked it) (it_done it))
          | Err e => (it, Err e)
          | Panic => (it, Panic)
          end
        end
      end
    end
  end.
Definition next (n : NDB) (it : dataTreeIter) : dataTreeIter * result (option (Z * Z)) :=
  if it_done it then (it, Ok None) else next_loop (S (S (length (it_xx it)))) n it.
(** The visitor is a fold; no leaf is visited twice, so there are at most as many
    rounds as blocks. *)
Fixpoint walk_loop {A} (fuel : nat) (n : NDB) (fn : A → Z * Z → result A) (it : dataTreeIter) (a : A) : result (A * Z) :=
  match fuel with
  | O => Panic
  | S fuel =>
    match next n it with
    | (it, Ok None) => mret (a, it_total it)
    | (it, Ok (Some leaf)) => a ← fn a leaf; walk_loop fuel n fn it a
    | (_, Err e) => Err e
    | (_, Panic) => Panic
    end
  end.
Definition walkDataTree {A} (n : NDB) (root : Z) (fn : A → Z * Z → result A) (a : A) : result (A * Z) :=
  it ← startDataTree n root;
  walk_loop (S (S (size (n_blocks n)))) n fn it a.
Definition validateDataTree (n : NDB) (root : Z) : result unit :=
  walkDataTree n root (λ _ _, mret tt) tt ;; mret tt.
Definition flattenDataTree (n : NDB) (root : Z) : result (list Z * Z) :=
  walkDataTree n root (λ leaves '(bid, _), mret (leaves ++ [bid])) [].

(** ** Reading *)
Record DataTreeReader := mkDataReader {
  dr_it : dataTreeIter; dr_leaf : bytes; dr_read : Z; dr_total : Z; dr_err : option (option error) }.
Definition OpenDataTree (n : NDB) (root : Z) : result DataTreeReader :=
  it ← startDataTree n root; mret (mkDataReader it [] 0 (it_total it) None).
Definition nextLeaf (n : NDB) (r : DataTreeReader) : DataTreeReader * result (option unit) :=
  let '(it, m) := next n (dr_it r) in
  let r := mkDataReader it (dr_leaf r) (dr_read r) (dr_total r) (dr_err r) in
  match m with
  | Ok None => (r, Ok None)
  | Ok (Some (bid, _)) =>
    match n_blocks n !! bid with
    | None => (r, invariant "2.2.2.8.3.1" "rgbid" "missing leaf BID 0x%x" [bid])
    | Some e =>
      match blockPayload (n_store n) e with
      | Ok data => (mkDataReader it data (dr_read r) (dr_total r) (dr_err r), Ok (Some tt))
      | Err e => (r, Err e)
      | Panic => (r, Panic)
      end
    end
  | Err e => (r, Err e)
  | Panic => (r, Panic)
  end.
(** [Read] into a buffer of [size] bytes: the bytes read, or [None] at the end. *)
Definition data_read (n : NDB) (size : nat) (r : DataTreeReader) : DataTreeReader * result (option bytes) :=
  let copy (r : DataTreeReader) :=
    let got := take size (dr_leaf r) in
    (mkDataReader (dr_it r) (drop size (dr_leaf r)) (u64 (dr_read r + blen got)) (dr_total r) (dr_err r), Ok (Some got)) in
  let stop (r : DataTreeReader) (e : option error) :=
    (mkDataReader (dr_it r) (dr_leaf r) (dr_read r) (dr_total r) (Some e), match e with Some e => Err e | None => Ok None end) in
  match dr_err r with
  | Some e => (r, match e with Some e => Err e | None => Ok None end)
  | None =>
    match dr_leaf r with
    | _ :: _ => copy r
    | [] =>
      match nextLeaf n r with
      | (r, Ok (Some _)) => copy r
      | (r, Ok None) =>
        if negb (dr_read r =? dr_total r)
        then match invariant "2.2.2.8.3.1" "lcbTotal" "read %d bytes, lcbTotal %d" [dr_read r; dr_total r] with
             | Err e => stop r (Some e) | m => (r, m) end
        else stop r None
      | (r, Err e) => stop r (Some e)
      | (r, Panic) => (r, Panic)
      end
    end
  end.
(** [io.ReadAll] with buffers of [size] bytes. *)
Fixpoint read_all (fuel : nat) (n : NDB) (size : nat) (r : DataTreeReader) : result bytes :=
  match fuel with
  | O => Panic
  | S fuel =>
    match data_read n size r with
    | (r, Ok (Some got)) => rest ← read_all fuel n size r; mret (got ++ rest)
    | (_, Ok None) => mret []
    | (_, Err e) => Err e
    | (_, Panic) => Panic
    end
  end.
