(* ===== verification/V2DataTree.v ===== *)
(** * Writer v2: data trees, written and read back

    [data_tree n root d] says what the catalog holds when [root] is a tree of the
    bytes [d].  [PutDataTree] makes one, every reader of a tree gives back [d],
    and writing a tree leaves the others as they are. *)
From S2P Require Import Prelude Ids State Block V2Base V2Disk V2Entries V2Blocks V2Header V2Bitmap V2Store V2Journal V2Alloc V2Ndb V2Txn V2Catalog V2Extents V2Data.

(** ** Growing a catalog *)
(** Block [bid] holds [d], all of it. *)
Definition holds (n : NDB) (bid : Z) (d : bytes) : Prop :=
  ∃ e, n_blocks n !! bid = Some e ∧ stored (n_store n) e d ∧ B_CB e = blen d.
(** [n'] is [n] with at most [k] more blocks. *)
Record grows (k : Z) (n n' : NDB) : Prop := mkGrows {
  gr_wf : ndb_wf n';
  gr_regions : RegionCount (n_store n) ≤ RegionCount (n_store n') ≤ RegionCount (n_store n) + k;
  gr_bids : next_bid n ≤ next_bid n' ≤ next_bid n + 4 * k;
  gr_holds : ∀ bid d, holds n bid d → holds n' bid d;
  gr_nodes : n_nodes n' = n_nodes n }.
Lemma grows_refl n : ndb_wf n → grows 0 n n.
Proof. by split; try lia. Qed.
Lemma grows_trans j k n n1 n2 : grows j n n1 → grows k n1 n2 → grows (j + k) n n2.
Proof. intros [W1 R1 B1 H1 N1] [W2 R2 B2 H2 N2]. split; [done|lia|lia|auto|congruence]. Qed.
Lemma grows_mono j k n n' : j ≤ k → grows j n n' → grows k n n'.
Proof. intros Hjk [W R B H N]. split; [done|lia|lia|done|done]. Qed.
Lemma grows_room j k n n' : grows j n n' → 0 ≤ k → room n (j + k) → room n' k.
Proof. intros [W R B _ _] Hk [H1 H2]. pose proof (blen_nonneg (regions (n_store n))). unfold room, region_ok, RegionCount in *. lia. Qed.
Lemma room_mono j k n : 0 ≤ j ≤ k → room n k → room n j.
Proof. intros Hjk [H1 H2]. split; [|lia]. unfold region_ok in *. pose proof (blen_nonneg (regions (n_store n))). unfold RegionCount in *. lia. Qed.
(** The map and the spool as before: the same payloads. *)
Lemma holds_same n n' : regions (n_store n') = regions (n_store n) → st_work (n_store n') = st_work (n_store n) → st_io (n_store n') = st_io (n_store n) →
  (∀ bid e, n_blocks n !! bid = Some e → ∃ r, n_blocks n' !! bid = Some (set_refcount r e)) → ∀ bid d, holds n bid d → holds n' bid d.
Proof.
  intros Hr Hw Hi Hb bid d (e & He & [Hs Hl] & Hc). destruct (Hb _ _ He) as [r Hr']. exists (set_refcount r e). split_and!; [done| |done].
  unfold stored. rewrite Hw. split; [|done]. rewrite <- Hs. unfold blockPayload, readExtent. by rewrite Hw, Hi.
Qed.
Lemma grows_same n n' : ndb_wf n → n_cat n' = n_cat n → st_state (n_store n') = st_state (n_store n) → st_work (n_store n') = st_work (n_store n) →
  st_io (n_store n') = st_io (n_store n) → undo_wf (st_undo (n_store n')) → grows 0 n n'.
Proof.
  intros Hwf Hc Hs Hw Hi Hu. assert (regions (n_store n') = regions (n_store n)) as Hr by (unfold regions; by rewrite Hs).
  split; unfold next_bid, RegionCount; rewrite ?Hs, ?Hr; try lia.
  - apply (ndb_wf_same n); try done. unfold next_bid. by rewrite Hs.
  - apply holds_same; try done. intros bid e He. exists (B_RefCount e). unfold n_blocks in *. rewrite Hc. by destruct e.
  - unfold n_nodes. by rewrite Hc.
Qed.
(** A transaction begins and ends with what is there. *)
Lemma begin_grows n : ndb_wf n → fits 63 (FileEOF (n_store n)) → grows 0 n (beginTxn (capture n) n).
Proof. intros Hwf Hf. unfold beginTxn. destruct (sn_hadWork _); [|by apply grows_refl]. apply grows_same; try done. split; [done|]. intros ? ? []%elem_of_nil. Qed.
Lemma end_grows n : ndb_wf n → grows 0 n (end_txn n).
Proof. intros Hwf. by apply grows_same. Qed.

(** *** A block with its payload *)
Lemma put_block_Ok take d n data : takes d take → d = 0 ∨ d = 2 → ndb_wf n → room n 1 → bytes_ok data → blen data ≤ MaxDataBlockCB →
  ∃ n1 n' e, alloc_block take (u16 (blen data)) n = (n1, Ok e) ∧ putPayload e data n1 = (n', Ok tt) ∧ grows 1 n n' ∧
    holds n' (B_BID e) data ∧ B_BID e = next_bid n + d ∧ next_bid n' = next_bid n + 4 ∧ B_CB e = blen data.
Proof.
  intros Ht Hd Hwf Hroom Hok Hl. pose proof (blen_nonneg data). rewrite u16_small by (unfold MaxDataBlockCB in *; lia).
  destruct (alloc_block_Ok take d (blen data) n Ht Hd Hwf Hroom ltac:(lia)) as (n1 & e & Ha & HA & Hcb & k & Hk).
  destruct HA as [A1 [A2 A2'] A3 A4 A5 _ A6 A7 (w & A8 & A9)].
  assert (n_blocks n1 !! B_BID e = Some e) as He by (rewrite A4; apply lookup_insert_eq).
  destruct (putPayload_Ok n1 e k data w A1 He Hk A8 A9 Hcb Hok) as (n' & Hp & P1 & P2 & P3 & P4 & P5 & _).
  assert (n_blocks n' = n_blocks n1) as Hb by (unfold n_blocks; by rewrite P2).
  assert (RegionCount (n_store n') = RegionCount (n_store n1)) as Hrc by (unfold RegionCount, regions; by rewrite P3).
  assert (next_bid n' = next_bid n1) as Hnb by (unfold next_bid; by rewrite P3).
  exists n1, n', e. split_and!; [done|done| | |done|lia|done].
  - split; [done|lia|lia| |unfold n_nodes in *; by rewrite P2].
    intros bid x (y & Hy & Hst & Hc). assert (bid ≠ B_BID e) as Hne by congruence.
    destruct (A7 bid x) as (y' & Hy' & Hst'); [by exists y|]. destruct (P5 bid x Hne) as (z & Hz & Hst''); [by exists y'|].
    exists z. split_and!; [done|done|]. rewrite Hb, A4, lookup_insert_ne in Hz by done. rewrite Hy in Hz. injection Hz as <-. done.
  - destruct P4 as (z & Hz & Hst). exists z. split_and!; [done|done|]. rewrite Hb, He in Hz. injection Hz as <-. done.
Qed.
(** The catalog as before up to the counts and the nodes. *)
Lemma recount_wf n n' : ndb_wf n → ndb_ok n' → n_store n' = n_store n → cs_livePages (n_cat n') = cs_livePages (n_cat n) →
  (∀ b x, n_blocks n' !! b = Some x → ∃ y, n_blocks n !! b = Some y ∧ B_IB x = B_IB y ∧ B_CB x = B_CB y) → ndb_wf n'.
Proof.
  intros Hwf Hok' Hst Hpg Hback. split; rewrite ?Hst; [apply Hwf|done| | |rewrite Hpg|by rewrite Hpg; apply Hwf].
  - intros b x (y & Hy & Hib & Hcb)%Hback. destruct (nw_blocks n Hwf b y Hy) as (k & [P1 P2 P3 P4 P5]). exists k.
    unfold disk_slots in *. split; unfold disk_slots; by rewrite ?Hib, ?Hcb.
  - intros b b' x x' (y & Hy & -> & ->)%Hback (y' & Hy' & -> & ->)%Hback. by apply (nw_apart n Hwf).
  - intros p Hp. destruct (nw_pages n Hwf p Hp) as [Hk Ha]. split; [done|]. intros b x (y & Hy & -> & ->)%Hback. by apply (Ha b).
Qed.
Lemma add_ref_Ok kind n bid : ndb_wf n → is_Some (n_blocks n !! bid) → ∃ n', addExtra bid kind n = (n', Ok tt) ∧ grows 0 n n'.
Proof.
  intros Hwf [e He]. pose proof (nw_ok n Hwf) as Hok. destruct (ck_blocks _ _ _ (no_cat n Hok) bid e He) as (_ & Hz & _).
  set (m := extraMap kind (n_cat n)). set (c1 := cat_extra kind (<[bid := count_of m bid + 1]> m) (n_cat n)).
  assert (cs_blocks c1 = n_blocks n) as Hc1 by apply cat_extra_blocks.
  set (e' := set_refcount (computeRef c1 bid) e). exists (with_cat n (cat_blocks (<[bid := e']> (n_blocks n)) c1)).
  assert (addExtra bid kind n = (with_cat n (cat_blocks (<[bid := e']> (n_blocks n)) c1), Ok tt)) as Hrun.
  { unfold addExtra. rewrite st_get_bind, He. cbv zeta. fold m. unfold upd_cat. rewrite st_modify_bind. fold c1. unfold resyncRef.
    rewrite (proj2 (Z.eqb_neq bid 0)) by done. rewrite st_get_bind. change (n_blocks (with_cat n c1)) with (cs_blocks c1). rewrite Hc1, He.
    done. }
  split; [done|]. set (n' := with_cat n _) in *.
  destruct (addExtra_post _ n bid kind (no_cat n Hok) _ _ _ eq_refl Hrun) as [Hcat Hbelow].
  change (below c1 (n_cat n')) in Hbelow.
  assert (ndb_ok n') as Hok'.
  { apply (inv_ok n c1); [done|by split|done|by destruct kind|]. intros b. by rewrite Hc1. }
  assert (∀ b x, n_blocks n' !! b = Some x → ∃ y, n_blocks n !! b = Some y ∧ B_IB x = B_IB y ∧ B_CB x = B_CB y) as Hback.
  { intros b x (y & Hy & ->)%(bl_blocks _ _ Hbelow). exists y. rewrite <- Hc1. by split. }
  assert (n_nodes n' = n_nodes n) as Hnd by (by destruct kind).
  assert (cs_livePages (n_cat n') = cs_livePages (n_cat n)) as Hpg by (by destruct kind).
  split; try done; try (change (n_store n') with (n_store n); lia).
  - by apply (recount_wf n).
  - change (next_bid n') with (next_bid n). lia.
  - apply holds_same; try done. intros b x Hx. destruct (decide (b = bid)) as [->|Hne].
    + exists (computeRef c1 bid). rewrite He in Hx. injection Hx as <-. unfold n_blocks, n'. cbn. by rewrite lookup_insert_eq.
    + exists (B_RefCount x). unfold n_blocks, n'. cbn. rewrite lookup_insert_ne by done. rewrite Hx. by destruct x.
Qed.
Definition held (n : NDB) (bid : Z) : Prop := ∃ d, holds n bid d.
Lemma grows_held k n n' bids : grows k n n' → Forall (held n) bids → Forall (held n') bids.
Proof. intros G Hf. eapply Forall_impl; [exact Hf|]. intros b [d Hd]. exists d. by apply (gr_holds _ _ _ G). Qed.
Lemma add_refs_Ok kind bids : ∀ n, ndb_wf n → Forall (held n) bids →
  ∃ n', run_each (λ b, addExtra b kind) bids n = (n', Ok tt) ∧ grows 0 n n'.
Proof.
  induction bids as [|b bids IH]; intros n Hwf Hb; [exists n; split; [done|by apply grows_refl]|].
  apply Forall_cons in Hb as [(d & e & He & _) Hbs]. destruct (add_ref_Ok kind n b Hwf) as (n1 & E1 & G1); [by exists e|].
  destruct (IH n1 (gr_wf _ _ _ G1) (grows_held _ _ _ _ G1 Hbs)) as (n2 & E2 & G2). exists n2. cbn [run_each].
  rewrite (st_bind_Ok _ _ _ _ _ E1). split; [done|]. by apply (grows_trans 0 0 _ n1).
Qed.

(** ** What a data tree is *)
(** Data blocks, and blocks that list others. *)
Definition leaf_at (n : NDB) (l : Z * bytes) : Prop := BIDIsInternal l.1 = false ∧ holds n l.1 l.2.
Definition bytes_of (ls : list (Z * bytes)) : bytes := concat (map snd ls).
Definition list_at (n : NDB) (level x : Z) (bids : list Z) (total : Z) : Prop :=
  BIDIsInternal x = true ∧ xblock_ok level bids ∧ Forall (fits 64) bids ∧ fits 32 total ∧ holds n x (xblock_data level total bids).
Definition group_at (n : NDB) (g : Z * list (Z * bytes)) : Prop :=
  list_at n XBlockLevel g.1 (map fst g.2) (blen (bytes_of g.2)) ∧ Forall (leaf_at n) g.2.
(** The leaves in order, below one list or two. *)
Inductive data_tree (n : NDB) : Z → list (Z * bytes) → Prop :=
  | tree_empty : data_tree n 0 []
  | tree_leaf b d : b ≠ 0 → leaf_at n (b, d) → data_tree n b [(b, d)]
  | tree_x x ls : group_at n (x, ls) → data_tree n x ls
  | tree_xx x gs : list_at n XXBlockLevel x (map fst gs) (blen (bytes_of (concat (map snd gs)))) → Forall (group_at n) gs →
      NoDup (map fst (concat (map snd gs))) → x ∉ map fst gs → data_tree n x (concat (map snd gs)).

(** Trees stay where payloads do. *)
Definition extends (n n' : NDB) : Prop := ∀ bid d, holds n bid d → holds n' bid d.
Lemma leaf_extends n n' l : extends n n' → leaf_at n l → leaf_at n' l.
Proof. intros G [? ?]. split; [done|by apply G]. Qed.
Lemma list_extends n n' level x bids total : extends n n' → list_at n level x bids total → list_at n' level x bids total.
Proof. intros G (?&?&?&?&?). split_and!; try done; try (by destruct_and?). by apply G. Qed.
Lemma group_extends n n' g : extends n n' → group_at n g → group_at n' g.
Proof.
  intros G [Hx Hl]. split; [by apply (list_extends n)|]. eapply Forall_impl; [exact Hl|]. intros l. by apply (leaf_extends n).
Qed.
Lemma data_tree_extends n n' r ls : extends n n' → data_tree n r ls → data_tree n' r ls.
Proof.
  intros G. destruct 1 as [|b d Hb Hl|x ls Hg|x gs Hx Hg Hd Hn].
  - apply tree_empty.
  - apply tree_leaf; [done|by apply (leaf_extends n)].
  - apply tree_x. by apply (group_extends n).
  - apply tree_xx; [by apply (list_extends n)| |done|done]. eapply Forall_impl; [exact Hg|]. intros g. by apply (group_extends n).
Qed.
Lemma leaf_grows k n n' l : grows k n n' → leaf_at n l → leaf_at n' l.
Proof. intros G. pose proof (gr_holds _ _ _ G : extends n n') as X. revert X. clear. intros. by eapply leaf_extends. Qed.
Lemma group_grows k n n' g : grows k n n' → group_at n g → group_at n' g.
Proof. intros G. pose proof (gr_holds _ _ _ G : extends n n') as X. revert X. clear. intros. by eapply group_extends. Qed.

(** ** Building *)
Definition leaves_of (data : bytes) : list bytes := chunks MaxDataBlockCB data.
(** The blocks of a new tree: leaves, extended blocks, root. *)
Definition tree_blocks (data : bytes) : Z := blen (leaves_of data) + blen (chunks MaxXBlockEntries (leaves_of data)) + 1.

(** What a loop over new blocks made: block [e] for each, with IDs of its own. *)
Definition new_bids (n n' : NDB) (bids : list Z) : Prop := NoDup bids ∧ Forall (λ b, next_bid n ≤ b < next_bid n') bids.
Lemma new_bids_app n n1 n2 bs bs' : next_bid n ≤ next_bid n1 ≤ next_bid n2 → new_bids n n1 bs → new_bids n1 n2 bs' → new_bids n n2 (bs ++ bs').
Proof.
  intros Hn [N1 F1] [N2 F2]. rewrite Forall_forall in F1, F2. split.
  - apply NoDup_app. split_and!; [done| |done]. intros b ?%F1 ?%F2. lia.
  - apply Forall_app; split; apply Forall_forall; intros b Hb; [apply F1 in Hb|apply F2 in Hb]; lia.
Qed.
Definition leaf_entry (n : NDB) (d : bytes) (e : BBTEntry) : Prop := leaf_at n (B_BID e, d) ∧ B_CB e = blen d.
Lemma new_external b : b mod 4 = 0 → BIDIsInternal (b + 0) = false.
Proof. intros H. rewrite BIDIsInternal_bit. apply Z.testbit_false; [lia|]. change (2 ^ 1) with 2. divlia. Qed.
Lemma new_internal b : b mod 4 = 0 → BIDIsInternal (b + 2) = true.
Proof. intros H. rewrite BIDIsInternal_bit. apply Z.testbit_true; [lia|]. change (2 ^ 1) with 2. divlia. Qed.
Lemma next_aligned n : ndb_wf n → next_bid n mod 4 = 0 ∧ 4 ≤ next_bid n.
Proof. intros Hwf. destruct (nw_ok n Hwf) as [_ [_ [? ?] _]]. lia. Qed.
Lemma leaf_put n data : ndb_wf n → room n 1 → bytes_ok data → blen data ≤ MaxDataBlockCB →
  ∃ n1 n' e, AllocBlock (u16 (blen data)) n = (n1, Ok e) ∧ putPayload e data n1 = (n', Ok tt) ∧ grows 1 n n' ∧
    leaf_entry n' data e ∧ new_bids n n' [B_BID e].
Proof.
  intros Hwf Hr Hb Hl. destruct (put_block_Ok _ 0 n data TakeBlockBID_takes (or_introl eq_refl) Hwf Hr Hb Hl) as (n1 & n' & e & E1 & E2 & G & Hh & Hbid & Hn & Hcb).
  destruct (next_aligned n Hwf). exists n1, n', e. split_and!; [done|done|done| |].
  - split; [|done]. split; [|done]. cbn [fst]. rewrite Hbid. by apply new_external.
  - split; [apply NoDup_singleton|]. repeat constructor; lia.
Qed.
Lemma leaf_entry_grows k n n' d e : grows k n n' → leaf_entry n d e → leaf_entry n' d e.
Proof. intros G [? ?]. split; [by apply (leaf_grows k n)|done]. Qed.
Lemma stream_leaves_Ok fuel : ∀ data n leaves total, (length data < fuel)%nat → bytes_ok data → ndb_wf n → room n (blen (leaves_of data)) →
  0 ≤ total → total + blen data ≤ MaxTotal →
  ∃ n' es, stream_leaves fuel (mkReader data None) leaves total n = (n', Ok (leaves ++ es, total + blen data)) ∧
    grows (blen (leaves_of data)) n n' ∧ Forall2 (leaf_entry n') (leaves_of data) es ∧ new_bids n n' (map B_BID es).
Proof.
  induction fuel as [|fuel IH]; intros data n leaves total Hf Hb Hwf Hr Ht Hmax; [lia|]. cbn [stream_leaves r_bytes r_err].
  destruct (decide (data = [])) as [->|Hne].
  { exists n, []. rewrite app_nil_r. change (@blen Z []) with 0. rewrite Z.add_0_r. unfold sub. rewrite drop_nil, take_nil.
    split_and!; [by rewrite Z.add_0_r|by apply grows_refl|constructor|]. by split; constructor. }
  set (buf := sub data 0 MaxDataBlockCB). set (rest := sub data MaxDataBlockCB (blen data)).
  assert (buf = take (Z.to_nat MaxDataBlockCB) data) as Hbuf by done.
  assert (rest = drop (Z.to_nat MaxDataBlockCB) data) as Hrest.
  { unfold rest, sub, blen. apply take_ge. rewrite length_drop. lia. }
  assert (data = buf ++ rest) as Hdata by (rewrite Hbuf, Hrest; by rewrite take_drop).
  assert (0 < blen buf ≤ MaxDataBlockCB) as Hlb.
  { rewrite Hbuf. unfold blen, MaxDataBlockCB. rewrite length_take. destruct data; [done|cbn [length]; lia]. }
  assert (blen buf < MaxDataBlockCB → rest = []) as Hend.
  { rewrite Hrest, Hbuf. unfold blen. rewrite length_take. intros. apply drop_ge. lia. }
  assert (leaves_of data = buf :: leaves_of rest) as Hlv by (unfold leaves_of; rewrite chunks_cons by done; by rewrite Hbuf, Hrest).
  rewrite Hlv, blen_cons in *. pose proof (blen_nonneg (leaves_of rest)). pose proof (blen_nonneg rest).
  assert (blen data = blen buf + blen rest) as Hbl by (rewrite Hdata at 1; by rewrite blen_app).
  assert (bytes_ok buf ∧ bytes_ok rest) as [Hb1 Hb2] by (rewrite Hdata in Hb; by apply Forall_app in Hb).
  destruct (leaf_put n buf Hwf) as (n1 & n2 & e & E1 & E2 & G1 & L1 & N1); [by eapply room_mono, Hr; lia|done|lia|].
  rewrite (proj2 (Z.ltb_lt 0 (blen buf))) by lia.
  erewrite st_bind_Ok; [|erewrite st_bind_Ok by exact E1; erewrite st_bind_Ok by exact E2; rewrite (proj2 (Z.ltb_ge _ _)) by lia; reflexivity].
  cbn [fst snd]. destruct (Z.eqb_spec (blen buf) MaxDataBlockCB) as [Hfull|Hpart].
  - destruct (IH rest n2 (leaves ++ [e]) (total + blen buf)) as (n3 & es & E3 & G3 & F3 & N3);
      [|done|apply G1|eapply (grows_room 1 _ n); [exact G1|lia|eapply room_mono, Hr; lia]|lia|lia|].
    { apply (f_equal length) in Hdata. rewrite length_app in Hdata. unfold blen in Hlb. lia. }
    exists n3, (e :: es). rewrite <- app_assoc in E3. rewrite E3. split_and!; [do 3 f_equal; lia| | |].
    + by apply (grows_trans 1 _ _ n2).
    + constructor; [by eapply leaf_entry_grows|done].
    + cbn [map]. apply (new_bids_app n n2 n3 [B_BID e]); [|done|done]. pose proof (gr_bids _ _ _ G1). pose proof (gr_bids _ _ _ G3). lia.
  - assert (rest = []) as Hr0 by (apply Hend; lia). rewrite Hr0 in *. change (blen (leaves_of [])) with 0. change (blen (@nil Z)) with 0 in Hbl.
    exists n2, [e]. split_and!; [|done|by constructor|done]. unfold mret, ST_ret. do 3 f_equal. lia.
Qed.


(** *** Extended blocks *)
Lemma held_bid n b : ndb_wf n → held n b → 0 < b < 2 ^ 64 ∧ b mod 2 = 0.
Proof.
  intros Hwf (d & e & He & _). destruct (nw_ok n Hwf) as [_ [_ ? Hb]]. apply (bid_below_range (next_bid n)); [|lia]. apply Hb. by exists e.
Qed.
Lemma held_child n level b : ndb_wf n → held n b → BIDIsInternal b = (level =? XXBlockLevel) → child_ok level b ∧ fits 64 b.
Proof.
  intros Hwf Hh Hi. destruct (held_bid n b Hwf Hh) as [Hr He]. split; [|unfold fits; lia]. split_and!; [lia| |done].
  rewrite BIDHasReserved_bit. rewrite <- Z.bit0_mod in He. by destruct (Z.testbit b 0).
Qed.
Lemma xblock_data_ok level total bids : xblock_ok level bids → bytes_ok (xblock_data level total bids) ∧ blen (xblock_data level total bids) ≤ MaxDataBlockCB.
Proof.
  intros (Hl & Hn & _). change MaxXBlockEntries with 1021 in Hn. unfold xblock_data, internal_data. rewrite <- enc_refs. split.
  - repeat (apply Forall_app; split); try apply bytes_ok_le_enc.
    + repeat constructor; destruct Hl as [-> | ->]; done.
    + apply bytes_ok_concat. intros b. apply bytes_ok_le_enc.
  - rewrite !blen_app, blen_refs, !blen_le_enc. unfold blen in *. cbn [length]. unfold MaxDataBlockCB. lia.
Qed.
Lemma put_xblock_Ok n level total bids : ndb_wf n → room n 1 → xblock_ok level bids → Forall (fits 64) bids → fits 32 total → Forall (held n) bids →
  ∃ n' e, put_xblock level total bids n = (n', Ok e) ∧ grows 1 n n' ∧ list_at n' level (B_BID e) bids total ∧ new_bids n n' [B_BID e].
Proof.
  intros Hwf Hr Hx Hf Ht Hh. set (data := xblock_data level total bids). destruct (xblock_data_ok level total bids Hx) as [Hb Hl]. fold data in Hb, Hl.
  destruct (put_block_Ok _ 2 n data TakeInternal_takes (or_intror eq_refl) Hwf Hr Hb Hl) as (n1 & n2 & e & E1 & E2 & G & Hd & Hbid & Hn & Hcb).
  destruct (add_refs_Ok refDataTree bids n2 (gr_wf _ _ _ G) (grows_held _ _ _ _ G Hh)) as (n3 & E3 & G3).
  destruct (next_aligned n Hwf). exists n3, e. split_and!.
  - unfold put_xblock. assert (EncodeXBlock level total bids = Ok data) as He by (by apply EncodeXBlock_exact). rewrite He.
    erewrite st_bind_Ok by reflexivity. erewrite st_bind_Ok by exact E1. erewrite st_bind_Ok by exact E2. by erewrite st_bind_Ok by exact E3.
  - by apply (grows_trans 1 0 _ n2).
  - split_and!; try done; [rewrite Hbid; by apply new_internal|by apply (gr_holds _ _ _ G3)].
  - split; [apply NoDup_singleton|]. repeat constructor; pose proof (gr_bids _ _ _ G3); lia.
Qed.

(** The leaves of a tree under construction, with the entries of their blocks. *)
Definition leaf_pair (p : BBTEntry * bytes) : Z * bytes := (B_BID p.1, p.2).
Definition good_chunk (n : NDB) (c : list (BBTEntry * bytes)) : Prop :=
  c ≠ [] ∧ blen c ≤ MaxXBlockEntries ∧ Forall (λ p, leaf_entry n p.2 p.1) c ∧ NoDup (map (B_BID ∘ fst) c) ∧ blen (concat (map snd c)) ≤ MaxTotal.
Lemma good_chunk_grows k n n' c : grows k n n' → good_chunk n c → good_chunk n' c.
Proof. intros G (?&?&Hl&?&?). split_and!; try done. eapply Forall_impl; [exact Hl|]. intros p. by apply (leaf_entry_grows k). Qed.
Lemma sum_cb n c : Forall (λ p : BBTEntry * bytes, leaf_entry n p.2 p.1) c → ∀ s, 0 ≤ s → s + blen (concat (map snd c)) ≤ MaxTotal →
  fold_left (λ s e, u32 (s + B_CB e)) (map fst c) s = s + blen (concat (map snd c)).
Proof.
  induction 1 as [|p c [_ Hcb] Hc IH]; intros s Hs Hm; cbn [map fold_left concat] in *; [change (blen []) with 0; lia|].
  rewrite blen_app in *. pose proof (blen_nonneg p.2). pose proof (blen_nonneg (concat (map snd c))). rewrite Hcb. unfold MaxTotal in *.
  rewrite u32_small by lia. rewrite IH by lia. lia.
Qed.
Lemma chunk_bids c : map fst (map leaf_pair c) = map (B_BID ∘ fst) c.
Proof. by rewrite map_map. Qed.
Lemma chunk_bytes c : bytes_of (map leaf_pair c) = concat (map snd c).
Proof. unfold bytes_of. by rewrite map_map. Qed.
Lemma chunk_leaves n c : Forall (λ p, leaf_entry n p.2 p.1) c → Forall (leaf_at n) (map leaf_pair c).
Proof. intros H. apply Forall_map. eapply Forall_impl; [exact H|]. by intros p [? _]. Qed.
Lemma good_chunk_list n c : ndb_wf n → good_chunk n c →
  xblock_ok XBlockLevel (map (B_BID ∘ fst) c) ∧ Forall (fits 64) (map (B_BID ∘ fst) c) ∧ fits 32 (blen (concat (map snd c))) ∧ Forall (held n) (map (B_BID ∘ fst) c).
Proof.
  intros Hwf (Hne & Hl & Hf & Hd & Hm). pose proof (blen_nonneg (concat (map snd c))).
  assert (Forall (λ b, child_ok XBlockLevel b ∧ fits 64 b ∧ held n b) (map (B_BID ∘ fst) c)) as Hc.
  { apply Forall_map. eapply Forall_impl; [exact Hf|]. intros p [[Hi Hh] _]. cbn [compose fst snd] in *.
    assert (held n (B_BID p.1)) as Hd' by (by exists p.2). by destruct (held_child n XBlockLevel _ Hwf Hd' Hi). }
  assert (0 < blen (map (B_BID ∘ fst) c) ≤ MaxXBlockEntries) as Hn.
  { unfold blen in *. rewrite length_map. destruct c; [done|cbn [length] in *; lia]. }
  split; [|split_and!].
  - split; [by left|]. split; [done|]. split; [|done]. by eapply Forall_impl; [exact Hc|]; intros b (?&?&?).
  - by eapply Forall_impl; [exact Hc|]; intros b (?&?&?).
  - unfold fits, MaxTotal in *. lia.
  - by eapply Forall_impl; [exact Hc|]; intros b (?&?&?).
Qed.
Lemma build_groups_Ok cs : ∀ n, ndb_wf n → room n (blen cs) → Forall (good_chunk n) cs →
  ∃ n' xs, mapM_st (λ chunk, put_xblock XBlockLevel (fold_left (λ s e, u32 (s + B_CB e)) chunk 0) (map B_BID chunk)) (map (map fst) cs) n = (n', Ok xs) ∧
    grows (blen cs) n n' ∧ length xs = length cs ∧ Forall (group_at n') (zip (map B_BID xs) (map (map leaf_pair) cs)) ∧ new_bids n n' (map B_BID xs).
Proof.
  induction cs as [|c cs IH]; intros n Hwf Hr Hg.
  { exists n, []. split_and!; try done; [by apply grows_refl|]. by split; constructor. }
  apply Forall_cons in Hg as [Hc Hg]. rewrite blen_cons in *. pose proof (blen_nonneg cs).
  destruct (good_chunk_list n c Hwf Hc) as (H1 & H2 & H3 & H4). pose proof Hc as (_ & _ & Hl & _ & Hm).
  destruct (put_xblock_Ok n _ _ _ Hwf (room_mono 1 (1 + blen cs) n ltac:(lia) Hr) H1 H2 H3 H4) as (n1 & x & E1 & G1 & L1 & N1).
  destruct (IH n1) as (n2 & xs & E2 & G2 & Hlen & Hgs & N2);
    [apply G1|eapply (grows_room 1 _ n); [exact G1|lia|done]|by eapply Forall_impl; [exact Hg|]; intros c'; apply (good_chunk_grows 1)|].
  exists n2, (x :: xs). cbn [map mapM_st]. rewrite map_map, (sum_cb n), Z.add_0_l by (done || lia). erewrite st_bind_Ok by exact E1.
  erewrite st_bind_Ok by exact E2. split_and!; [done|by apply (grows_trans 1 _ _ n1)|cbn; by rewrite Hlen| |].
  - cbn [zip zip_with]. constructor; [|done]. apply (group_grows _ n1 _ _ G2). split; cbn [fst snd].
    + by rewrite chunk_bids, chunk_bytes.
    + apply chunk_leaves. eapply Forall_impl; [exact Hl|]. intros p. by apply (leaf_entry_grows 1).
  - cbn [map]. apply (new_bids_app n n1 n2 [B_BID x]); [|done|done]. pose proof (gr_bids _ _ _ G1). pose proof (gr_bids _ _ _ G2). lia.
Qed.
Lemma good_chunks n cs : Forall (λ c, c ≠ [] ∧ blen c ≤ MaxXBlockEntries) cs → Forall (λ p, leaf_entry n p.2 p.1) (concat cs) →
  NoDup (map (B_BID ∘ fst) (concat cs)) → blen (concat (map snd (concat cs))) ≤ MaxTotal → Forall (good_chunk n) cs.
Proof.
  induction 1 as [|c cs [Hne Hl] _ IH]; cbn [concat]; intros Hf Hd Hm; [constructor|]. rewrite map_app in Hd. rewrite map_app, concat_app, blen_app in Hm.
  apply Forall_app in Hf as [Hf1 Hf2]. apply NoDup_app in Hd as (Hd1 & _ & Hd2).
  pose proof (blen_nonneg (concat (map snd c))). pose proof (blen_nonneg (concat (map snd (concat cs)))).
  constructor; [split_and!; try done; lia|apply IH; try done; lia].
Qed.
Lemma group_child n g : ndb_wf n → group_at n g → child_ok XXBlockLevel g.1 ∧ fits 64 g.1 ∧ held n g.1.
Proof.
  intros Hwf [(Hi & _ & _ & _ & Hh) _]. assert (held n g.1) as Hd by (by eexists).
  by destruct (held_child n XXBlockLevel g.1 Hwf Hd).
Qed.
Lemma put_root_Ok n gs : ndb_wf n → room n 1 → gs ≠ [] → blen gs ≤ MaxXBlockEntries → NoDup (map fst gs) → Forall (group_at n) gs →
  blen (bytes_of (concat (map snd gs))) ≤ MaxTotal → NoDup (map fst (concat (map snd gs))) → Forall (λ b, b < next_bid n) (map fst gs) →
  ∃ n' e, put_xblock XXBlockLevel (blen (bytes_of (concat (map snd gs)))) (map fst gs) n = (n', Ok e) ∧ grows 1 n n' ∧
    data_tree n' (B_BID e) (concat (map snd gs)).
Proof.
  intros Hwf Hr Hne Hl Hd Hg Ht Hd' Hlow. pose proof (blen_nonneg (bytes_of (concat (map snd gs)))).
  assert (Forall (λ b, child_ok XXBlockLevel b ∧ fits 64 b ∧ held n b) (map fst gs)) as Hc.
  { apply Forall_map. eapply Forall_impl; [exact Hg|]. intros g. by apply group_child. }
  destruct (put_xblock_Ok n XXBlockLevel (blen (bytes_of (concat (map snd gs)))) (map fst gs) Hwf Hr) as (n' & e & E & G & L & [_ N]).
  - split; [by right|]. split; [unfold blen in *; rewrite length_map; destruct gs; [done|cbn [length] in *; lia]|]. split; [|done].
    by eapply Forall_impl; [exact Hc|]; intros b (?&?&?).
  - by eapply Forall_impl; [exact Hc|]; intros b (?&?&?).
  - unfold fits, MaxTotal in *. lia.
  - by eapply Forall_impl; [exact Hc|]; intros b (?&?&?).
  - exists n', e. split_and!; [done|done|]. apply tree_xx; try done.
    + eapply Forall_impl; [exact Hg|]. intros g. by apply (group_grows 1).
    + intros Hin. rewrite Forall_forall in Hlow. specialize (Hlow _ Hin). apply Forall_cons in N as [? _]. lia.
Qed.
Lemma buildDataTree_Ok n ps : ndb_wf n → ps ≠ [] → Forall (λ p, leaf_entry n p.2 p.1) ps → NoDup (map (B_BID ∘ fst) ps) →
  blen (concat (map snd ps)) ≤ MaxTotal → room n (blen (chunks MaxXBlockEntries ps) + 1) → blen (chunks MaxXBlockEntries ps) ≤ MaxXBlockEntries →
  ∃ n' e, buildDataTree (map fst ps) (blen (concat (map snd ps))) n = (n', Ok e) ∧ grows (blen (chunks MaxXBlockEntries ps) + 1) n n' ∧
    data_tree n' (B_BID e) (map leaf_pair ps).
Proof.
  intros Hwf Hne Hf Hd Hm Hr Hk. set (cs := chunks MaxXBlockEntries ps) in *. pose proof (blen_nonneg cs).
  assert (concat cs = ps) as Hcs by (by apply chunks_concat).
  destruct (decide (length ps = 1%nat)) as [H1|H1].
  { destruct ps as [|p [|q ps]]; [done| |done]. exists n, p.1. split_and!; [done|by apply (grows_mono 0), grows_refl; [lia|]|].
    apply Forall_cons in Hf as [[Hl _] _]. apply tree_leaf; [|done].
    destruct (held_bid n (B_BID p.1) Hwf) as [? _]; [by exists p.2; apply Hl|]. cbn. lia. }
  assert (∀ T, buildDataTree (map fst ps) T = (do xb <- mapM_st (λ chunk, put_xblock XBlockLevel (fold_left (λ s e, u32 (s + B_CB e)) chunk 0) (map B_BID chunk))
      (chunks MaxXBlockEntries (map fst ps)); match xb with [x] => mret x | _ => if MaxXBlockEntries <? blen xb
        then lift (limitErr "cEnt" "need %d XBLOCKs, max %d (XXXBLOCK unsupported, MS-PST %s)" [blen xb; MaxXBlockEntries])
        else put_xblock XXBlockLevel T (map B_BID xb) end)) as Hrun by (intros T; by destruct ps as [|p [|q ps]]).
  rewrite Hrun, chunks_map. fold cs.
  assert (Forall (good_chunk n) cs) as Hgood by (apply good_chunks; [by apply chunks_each|by rewrite Hcs..]).
  destruct (build_groups_Ok cs n Hwf ltac:(by eapply room_mono, Hr; lia) Hgood) as (n1 & xs & E1 & G1 & Hlen & Hg & [N1 N2]).
  erewrite st_bind_Ok by exact E1. set (gs := zip (map B_BID xs) (map (map leaf_pair) cs)) in *.
  assert (map fst gs = map B_BID xs) as Hfst by (apply fst_zip; rewrite !length_map; lia).
  assert (map snd gs = map (map leaf_pair) cs) as Hsnd by (apply snd_zip; rewrite !length_map; lia).
  assert (concat (map snd gs) = map leaf_pair ps) as Hcat by (rewrite Hsnd, <- Hcs; symmetry; apply concat_map).
  assert (blen gs = blen cs) as Hgl by (unfold blen, gs; rewrite length_zip_with, !length_map; lia).
  assert (cs ≠ []) as Hcne by (by apply chunks_nonempty).
  assert (length xs = 1%nat → ∃ x, xs = [x] ∧ data_tree n1 (B_BID x) (map leaf_pair ps)) as Hone.
  { intros Hx. destruct xs as [|x [|? ?]]; [done| |done]. exists x. split; [done|]. destruct cs as [|c [|? ?]]; [done| |done].
    rewrite <- Hcs. cbn [concat]. rewrite app_nil_r. apply Forall_cons in Hg as [Hg _]. by apply tree_x. }
  destruct (decide (length xs = 1%nat)) as [Hx|Hx].
  { destruct (Hone Hx) as (x & -> & Ht). exists n1, x. split_and!; [done|by apply (grows_mono (blen cs)); [lia|]|done]. }
  destruct (put_root_Ok n1 gs (gr_wf _ _ _ G1)) as (n2 & e & E2 & G2 & Ht); rewrite ?Hfst, ?Hcat, ?Hgl, ?chunk_bids, ?chunk_bytes; try done.
  - by eapply grows_room; [exact G1|lia|].
  - intros E. by rewrite E in Hgl; unfold blen in Hgl; destruct cs.
  - eapply Forall_impl; [exact N2|]. intros b [_ ?]. done.
  - exists n2, e. rewrite Hcat, ?chunk_bytes, Hfst in *. split_and!; [|by apply (grows_trans _ _ _ n1)|done].
    destruct xs as [|x [|y xs]]; [|done|]; (rewrite (proj2 (Z.ltb_ge _ _)); [done|unfold blen in *; lia]).
Qed.
Lemma data_tree_grows k n n' r ls : grows k n n' → data_tree n r ls → data_tree n' r ls.
Proof. intros G. pose proof (gr_holds _ _ _ G : extends n n') as X. revert X. clear. intros. by eapply data_tree_extends. Qed.
Lemma leaf_entries_zip n ds es : Forall2 (leaf_entry n) ds es →
  Forall (λ p : BBTEntry * bytes, leaf_entry n p.2 p.1) (zip es ds) ∧ map fst (zip es ds) = es ∧ map snd (zip es ds) = ds.
Proof. induction 1 as [|d e ds es Hl _ (IH1 & IH2 & IH3)]; [by split_and!|]. cbn [zip zip_with map fst snd]. split_and!; [by constructor|congruence..]. Qed.
Lemma streamDataTree_Ok n data expected : ndb_wf n → bytes_ok data → blen data ≤ MaxTotal → expected ≤ 0 ∨ expected = blen data →
  room n (tree_blocks data) → ∃ n' e ls, streamDataTree (mkReader data None) expected n = (n', Ok e) ∧ grows (tree_blocks data) n n' ∧
    data_tree n' (B_BID e) ls ∧ map snd ls = leaves_of data.
Proof.
  intros Hwf Hb Hm Hexp Hr. pose proof (blen_nonneg data). pose proof (blen_nonneg (leaves_of data)).
  pose proof (blen_nonneg (chunks MaxXBlockEntries (leaves_of data))). unfold tree_blocks in *.
  destruct (stream_leaves_Ok (S (length data)) data n [] 0) as (n1 & es & E1 & G1 & F1 & [N1 _]); try done; try lia.
  { by eapply room_mono, Hr; lia. }
  unfold streamDataTree. rewrite (proj2 (Z.ltb_ge _ _)) by (unfold MaxTotal in *; lia). cbn [r_bytes].
  erewrite st_bind_Ok by exact E1. cbn [fst snd app]. rewrite Z.add_0_l.
  assert ((0 <? expected) && negb (blen data =? expected) = false) as ->.
  { destruct Hexp as [?|He]; [by rewrite (proj2 (Z.ltb_ge _ _))|]. by rewrite He, Z.eqb_refl, andb_false_r. }
  destruct (leaf_entries_zip _ _ _ F1) as (Z1 & Z2 & Z3). set (ps := zip es (leaves_of data)) in *.
  destruct (decide (es = [])) as [->|Hne].
  { exists n1, null_block, []. split_and!; [done| |apply tree_empty|by inversion F1]. by eapply grows_mono, G1; unfold blen; lia. }
  assert (concat (map snd ps) = data) as Hcat by (rewrite Z3; by apply chunks_concat).
  assert (blen (chunks MaxXBlockEntries ps) = blen (chunks MaxXBlockEntries (leaves_of data))) as Hch.
  { rewrite <- Z3, chunks_map. unfold blen. by rewrite length_map. }
  destruct (buildDataTree_Ok n1 ps (gr_wf _ _ _ G1)) as (n2 & e & E2 & G2 & Ht); try done; rewrite ?Hcat, ?Hch; try done.
  - intros E. by rewrite E in Z2; rewrite <- Z2 in Hne.
  - rewrite <- Z2 in N1. by rewrite map_map in N1.
  - eapply grows_room; [exact G1|lia|]. by rewrite Z.add_assoc.
  - pose proof (chunks_count MaxXBlockEntries (leaves_of data) ltac:(done)). pose proof (chunks_count MaxDataBlockCB data ltac:(done)).
    change (chunks MaxDataBlockCB data) with (leaves_of data) in *.
    change MaxXBlockEntries with 1021 in *. change MaxDataBlockCB with 8176 in *. unfold MaxTotal in *. lia.
  - exists n2, e, (map leaf_pair ps). rewrite Hcat, Z2 in E2. split_and!; [| |done|by rewrite map_map].
    + destruct es as [|x es']; [done|]. by rewrite u32_small by (unfold MaxTotal in *; lia).
    + rewrite Hch in G2. by rewrite <- Z.add_assoc; apply (grows_trans _ _ _ n1).
Qed.
Lemma PutDataTree_Ok n data expected : ndb_wf n → fits 63 (FileEOF (n_store n)) → bytes_ok data → blen data ≤ MaxTotal →
  expected ≤ 0 ∨ expected = blen data → room n (tree_blocks data) →
  ∃ n' e ls, PutDataTree (mkReader data None) expected n = (n', Ok e) ∧ grows (tree_blocks data) n n' ∧
    data_tree n' (B_BID e) ls ∧ map snd ls = leaves_of data.
Proof.
  intros Hwf Hf Hb Hm Hexp Hr. set (n0 := beginTxn (capture n) n).
  assert (grows 0 n n0) as G0 by (by apply begin_grows).
  destruct (streamDataTree_Ok n0 data expected (gr_wf _ _ _ G0) Hb Hm Hexp) as (n1 & e & ls & E & G1 & Ht & Hls).
  { by eapply grows_room; [exact G0|unfold tree_blocks, blen; lia|]. }
  assert (grows 0 n1 (end_txn n1)) as G2 by apply end_grows, G1.
  exists (end_txn n1), e, ls. unfold PutDataTree, runTxn. cbv zeta. fold n0. rewrite E. split_and!; [done| |by eapply data_tree_grows|done].
  replace (tree_blocks data) with (0 + (tree_blocks data + 0)) by lia. by apply (grows_trans _ _ _ n0), (grows_trans _ _ _ n1).
Qed.

(** ** Walking *)
Lemma list_reads n level x bids total : list_at n level x bids total →
  ∃ e, n_blocks n !! x = Some e ∧ (data ← blockPayload (n_store n) e; InspectXBlock data) = Ok (mkXBlockView BlockTypeXBlock level (blen bids) total bids).
Proof.
  intros (_ & Hx & Hf & Ht & e & He & [Hp _] & _). exists e. split; [done|]. rewrite Hp, bind_Ok.
  rewrite <- (app_nil_r (xblock_data _ _ _)). by apply InspectXBlock_data.
Qed.
(** What the iterator has still to visit. *)
Record pend (n : NDB) (it : dataTreeIter) (ls : list (Z * bytes)) : Prop := mkPend {
  pd_split : ∃ cur gs, it_xb it = map fst cur ∧ it_xx it = map fst gs ∧ ls = cur ++ concat (map snd gs) ∧
    Forall (leaf_at n) cur ∧ Forall (group_at n) gs ∧ NoDup (map fst gs) ∧
    (∀ b, b ∈ it_seen it → b ∉ map fst ls ∧ b ∉ map fst gs);
  pd_nodup : NoDup (map fst ls);
  pd_done : it_done it = false;
  pd_total : it_walked it + blen (bytes_of ls) = it_total it;
  pd_range : 0 ≤ it_walked it ∧ it_total it < 2 ^ 64 }.
Definition walks (n : NDB) (it : dataTreeIter) (ls : list (Z * bytes)) : Prop :=
  pend n it ls ∨ (it_done it = true ∧ ls = [] ∧ it_walked it = it_total it).
Lemma leaves_external n cur b : Forall (leaf_at n) cur → b ∈ map fst cur → BIDIsInternal b = false.
Proof. intros Hf (l & -> & Hin)%list_elem_of_fmap. rewrite Forall_forall in Hf. by destruct (Hf _ Hin). Qed.
Lemma groups_leaves n gs : Forall (group_at n) gs → Forall (leaf_at n) (concat (map snd gs)).
Proof. intros H. apply Forall_concat, Forall_map. eapply Forall_impl; [exact H|]. by intros g [_ ?]. Qed.
Lemma group_internal n gs b : Forall (group_at n) gs → b ∈ map fst gs → BIDIsInternal b = true.
Proof. intros Hf (g & -> & Hin)%list_elem_of_fmap. rewrite Forall_forall in Hf. by destruct (Hf _ Hin) as [[? _] _]. Qed.
(** A leaf of the list at hand. *)
Lemma next_leaf fuel n it b d cur gs : it_xb it = b :: map fst cur → it_xx it = map fst gs → leaf_at n (b, d) → Forall (leaf_at n) cur → Forall (group_at n) gs →
  NoDup (map fst gs) → NoDup (map fst ((b, d) :: cur ++ concat (map snd gs))) → it_done it = false →
  (∀ b', b' ∈ it_seen it → b' ∉ map fst ((b, d) :: cur ++ concat (map snd gs)) ∧ b' ∉ map fst gs) →
  it_walked it + blen (bytes_of ((b, d) :: cur ++ concat (map snd gs))) = it_total it → 0 ≤ it_walked it ∧ it_total it < 2 ^ 64 →
  ∃ it', next_loop (S fuel) n it = (it', Ok (Some (b, blen d))) ∧ pend n it' (cur ++ concat (map snd gs)) ∧ it_total it' = it_total it.
Proof.
  intros Hxb Hxx [Hi (e & He & Hst & Hcb)] Hc Hg Hd Hnd Hdone Hseen Ht Hr. cbn [fst snd] in *. cbn [next_loop]. rewrite Hxb. cbv zeta. cbn [it_seen].
  rewrite Hi. rewrite bool_decide_false by (intros Hin; apply (proj1 (Hseen b Hin)); left). cbn [it_seen it_xx it_total it_walked it_done].
  rewrite He, Hcb. eexists. split; [done|]. cbn [map] in Hnd. apply NoDup_cons in Hnd as [Hnb Hnd].
  unfold bytes_of in *. cbn [map concat snd] in Ht. rewrite blen_app in Ht. pose proof (blen_nonneg d).
  pose proof (blen_nonneg (concat (map snd (cur ++ concat (map snd gs))))).
  split; [|done]. split; cbn [it_seen it_xx it_total it_walked it_done it_xb]; try done.
  - exists cur, gs. split_and!; try done. intros b' [->|Hin]%elem_of_cons; [split; [done|]|].
    + intros Hin. rewrite (group_internal n gs) in Hi; done.
    + destruct (Hseen b' Hin) as [H1 H2]. split; [|done]. intros H3. apply H1. by right.
  - unfold bytes_of. rewrite u64_small by lia. lia.
  - rewrite u64_small by lia. lia.
Qed.
Lemma next_pend n it ls : walks n it ls →
  match ls with
  | [] => ∃ it', next n it = (it', Ok None) ∧ it_total it' = it_total it
  | (b, d) :: ls => ∃ it', next n it = (it', Ok (Some (b, blen d))) ∧ walks n it' ls ∧ it_total it' = it_total it
  end.
Proof.
  unfold next. intros [[(cur & gs & Hxb & Hxx & -> & Hc & Hg & Hgd & Hseen) Hnd Hdone Ht Hr]|(-> & -> & _)]; [|by exists it].
  rewrite Hdone. destruct cur as [|[b d] cur].
  2:{ apply Forall_cons in Hc as [Hl Hc]. destruct (next_leaf (S (length (it_xx it))) n it b d cur gs) as (it' & E & P & T); try done.
      exists it'. split_and!; [done|by left|done]. }
  destruct gs as [|[x ls] gs].
  { exists (mkIter (it_seen it) [] [] (it_total it) (it_walked it) true). cbn [next_loop map] in *. rewrite Hxb, Hxx.
    change (blen (bytes_of _)) with 0 in Ht. rewrite (proj2 (Z.eqb_eq _ _)) by lia. done. }
  apply Forall_cons in Hg as [[Hx Hl] Hg]. cbn [fst snd] in *. destruct (list_reads _ _ _ _ _ Hx) as (e & He & Hv).
  destruct Hx as (Hxi & (_ & Hne & _) & _). destruct ls as [|[b d] ls]; [unfold blen in Hne; cbn in Hne; lia|]. cbn [app map concat fst snd] in *.
  apply Forall_cons in Hl as [Hl0 Hl]. apply NoDup_cons in Hgd as [Hxg Hgd].
  set (it1 := mkIter (x :: it_seen it) (map fst gs) (map fst ((b, d) :: ls)) (it_total it) (it_walked it) (it_done it)).
  assert (next_loop (S (S (length (it_xx it)))) n it = next_loop (S (length (it_xx it))) n it1) as ->.
  { set (k := S (length (it_xx it))). cbn [next_loop]. rewrite Hxb, Hxx. cbv zeta. cbn [it_seen it_xx it_total it_walked it_done].
    rewrite bool_decide_false by (intros Hin; apply (proj2 (Hseen x Hin)); left). rewrite He, Hxi. cbn [negb]. rewrite Hv. done. }
  assert (∀ b', b' ∈ map fst ((b, d) :: ls ++ concat (map snd gs)) → BIDIsInternal b' = false) as Hext.
  { intros b'. apply (leaves_external n). constructor; [done|]. apply Forall_app. split; [done|]. by apply groups_leaves. }
  destruct (next_leaf (length (it_xx it)) n it1 b d ls gs) as (it' & E & P & T); try done.
  - intros b' [->|Hin]%elem_of_cons; [split; [|done]|].
    + intros Hin. apply Hext in Hin. congruence.
    + destruct (Hseen b' Hin) as [H1 H2]. split; [done|]. intros H3. apply H2. by right.
  - exists it'. split_and!; [done|by left|done].
Qed.
Lemma startDataTree_Ok n r ls : ndb_wf n → data_tree n r ls →
  ∃ it, startDataTree n r = Ok it ∧ walks n it ls ∧ it_total it = blen (bytes_of ls) ∧ it_walked it = 0 ∧ blen (bytes_of ls) < 2 ^ 64.
Proof.
  intros Hwf. unfold startDataTree. destruct 1 as [|b d Hb Hl|x ls Hg|x gs Hx Hg Hd Hn].
  - eexists. split; [done|]. split; [by right|]. done.
  - destruct Hl as [Hi Hh] eqn:El. pose proof Hh as (e & He & Hst & Hcb). cbn [fst snd] in *. rewrite (proj2 (Z.eqb_neq b 0)), He, Hi by done. cbn [negb].
    destruct (nw_blocks n Hwf b e He) as (k & [_ Hc _ _ _]). unfold bytes_of. cbn [map snd concat]. rewrite app_nil_r. unfold MaxDataBlockCB in Hc.
    eexists. split; [done|]. rewrite Hcb. split_and!; [|done|done|lia]. left. split; cbn [it_done it_walked it_total it_seen it_xb it_xx].
    + exists [(b, d)], []. split_and!; try done; [by constructor|by constructor..|]. by intros b' ?%elem_of_nil.
    + apply NoDup_singleton.
    + done.
    + unfold bytes_of. cbn [map snd concat]. by rewrite app_nil_r.
    + lia.
  - destruct Hg as [Hx Hl]. cbn [fst snd] in *. destruct (list_reads _ _ _ _ _ Hx) as (e & He & Hv). pose proof Hx as (Hi & (_ & _ & _ & Hd) & _ & Ht & _).
    assert (x ≠ 0) as Hx0 by (intros ->; done). rewrite (proj2 (Z.eqb_neq x 0)), He, Hi by done. cbn [negb]. unfold fits in Ht. pose proof (blen_nonneg (bytes_of ls)).
    destruct (blockPayload _ e) as [data| |] eqn:E; [|done..]. rewrite bind_Ok in Hv. rewrite bind_Ok, Hv, bind_Ok. cbn [XV_Level XV_BIDs XV_Total]. rewrite Z.eqb_refl.
    eexists. split; [done|]. split_and!; [|done|done|lia]. left. split; cbn [it_done it_walked it_total it_seen it_xb it_xx]; try done.
    + exists ls, []. cbn [map concat]. rewrite app_nil_r. split_and!; try done; [by constructor..|].
      intros b ->%list_elem_of_singleton. split; [|by apply not_elem_of_nil]. intros Hin. apply (leaves_external n) in Hin; [congruence|done].
    + lia.
  - destruct (list_reads _ _ _ _ _ Hx) as (e & He & Hv). pose proof Hx as (Hi & (_ & _ & _ & Hgd) & _ & Ht & _). set (ls := concat (map snd gs)) in *.
    assert (x ≠ 0) as Hx0 by (intros ->; done). rewrite (proj2 (Z.eqb_neq x 0)), He, Hi by done. cbn [negb]. unfold fits in Ht. pose proof (blen_nonneg (bytes_of ls)).
    destruct (blockPayload _ e) as [data| |] eqn:E; [|done..]. rewrite bind_Ok in Hv. rewrite bind_Ok, Hv, bind_Ok. cbn [XV_Level XV_BIDs XV_Total].
    change (XXBlockLevel =? XBlockLevel) with false. eexists. split; [done|]. split_and!; [|done|done|lia].
    left. split; cbn [it_done it_walked it_total it_seen it_xb it_xx]; try done; [|lia].
    exists [], gs. split_and!; try done. intros b ->%list_elem_of_singleton. split; [|done].
    intros Hin. apply (leaves_external n) in Hin; [congruence|by apply groups_leaves].
Qed.
(** The number of leaves is within the fuel of the walk. *)
Lemma nodup_size {V} (m : gmap Z V) l : NoDup l → Forall (λ b, is_Some (m !! b)) l → (length l ≤ size m)%nat.
Proof.
  intros Hd Hf. rewrite <- size_dom. rewrite <- (size_list_to_set (C:=gset Z) l) by done. apply subseteq_size.
  intros b Hb%elem_of_list_to_set. apply elem_of_dom. rewrite Forall_forall in Hf. by apply Hf.
Qed.
Lemma tree_leaves n r ls : data_tree n r ls → Forall (leaf_at n) ls ∧ NoDup (map fst ls).
Proof.
  destruct 1 as [|b d Hb Hl|x ls [(_ & (_ & _ & _ & ?) & _) ?]|x gs Hx Hg Hd Hn]; [by split; constructor| |done|].
  - split; [by constructor|apply NoDup_singleton].
  - split; [by apply groups_leaves|done].
Qed.
Lemma tree_size n r ls : data_tree n r ls → (length ls ≤ size (n_blocks n))%nat.
Proof.
  intros [Hf Hd]%tree_leaves. rewrite <- (length_map fst). apply nodup_size; [done|]. apply Forall_map.
  eapply Forall_impl; [exact Hf|]. intros l [_ (e & He & _)]. by exists e.
Qed.
Definition visit (l : Z * bytes) : Z * Z := (l.1, blen l.2).
Lemma walk_loop_Ok {A} n (fn : A → Z * Z → result A) (g : A → Z * Z → A) ls : (∀ a l, fn a l = Ok (g a l)) → ∀ fuel it a, walks n it ls →
  (length ls < fuel)%nat → walk_loop fuel n fn it a = Ok (fold_left g (map visit ls) a, it_total it).
Proof.
  intros Hg. induction ls as [|[b d] ls IH]; intros [|fuel] it a Hw Hf; cbn [length] in Hf; try lia; cbn [walk_loop]; apply next_pend in Hw.
  - destruct Hw as (it' & -> & <-). done.
  - destruct Hw as (it' & -> & Hw & <-). rewrite Hg. cbn. apply IH; [done|lia].
Qed.
Lemma walkDataTree_Ok {A} n r ls (fn : A → Z * Z → result A) (g : A → Z * Z → A) a : ndb_wf n → data_tree n r ls → (∀ a l, fn a l = Ok (g a l)) →
  walkDataTree n r fn a = Ok (fold_left g (map visit ls) a, blen (bytes_of ls)).
Proof.
  intros Hwf Ht Hg. destruct (startDataTree_Ok n r ls Hwf Ht) as (it & E & Hw & <- & _). unfold walkDataTree. rewrite E, bind_Ok.
  apply walk_loop_Ok; [done|done|]. pose proof (tree_size n r ls Ht). lia.
Qed.
Lemma flatten_Ok n r ls : ndb_wf n → data_tree n r ls → flattenDataTree n r = Ok (map fst ls, blen (bytes_of ls)).
Proof.
  intros Hwf Ht. unfold flattenDataTree. rewrite (walkDataTree_Ok n r ls _ (λ leaves '(bid, _), leaves ++ [bid])) by (done || by intros ? []).
  do 2 f_equal. assert (∀ acc, fold_left (λ leaves '(bid, _), leaves ++ [bid]) (map visit ls) acc = acc ++ map fst ls) as H; [|by rewrite H].
  clear Ht. induction ls as [|[b d] ls IH]; intros acc; [by rewrite app_nil_r|]. cbn [map fold_left visit fst snd]. rewrite IH. by rewrite <- app_assoc.
Qed.

(** ** Reading *)
Record reads (n : NDB) (r : DataTreeReader) (ls : list (Z * bytes)) : Prop := mkReads {
  rs_walks : walks n (dr_it r) ls;
  rs_leaves : Forall (leaf_at n) ls;
  rs_err : dr_err r = None;
  rs_total : dr_read r + blen (dr_leaf r) + blen (bytes_of ls) = dr_total r;
  rs_range : 0 ≤ dr_read r ∧ dr_total r < 2 ^ 64 }.
(** One read delivers a part of what is left, or finds the end. *)
Lemma data_read_Ok n size r ls : (0 < size)%nat → reads n r ls →
  (∃ r' got ls', data_read n size r = (r', Ok (Some got)) ∧ reads n r' ls' ∧ dr_leaf r ++ bytes_of ls = got ++ dr_leaf r' ++ bytes_of ls' ∧
    (length (dr_leaf r' ++ bytes_of ls') + length ls' < length (dr_leaf r ++ bytes_of ls) + length ls)%nat) ∨
  (∃ r', data_read n size r = (r', Ok None) ∧ dr_leaf r ++ bytes_of ls = []).
Proof.
  intros Hs [Hw Hl He Ht [Hr0 Hr1]]. unfold data_read. cbv zeta. rewrite He. pose proof (blen_nonneg (bytes_of ls)).
  destruct (dr_leaf r) as [|x leaf] eqn:Ed; [|left].
  - unfold nextLeaf. pose proof (next_pend n (dr_it r) ls Hw) as Hn. destruct ls as [|[b d] ls].
    + right. destruct Hn as (it' & -> & _). cbn [dr_read dr_total dr_err dr_it dr_leaf]. unfold bytes_of in Ht. change (blen _) with 0 in Ht.
      change (@blen Z _) with 0 in Ht. rewrite (proj2 (Z.eqb_eq _ _)) by lia. by eexists.
    + left. destruct Hn as (it' & -> & Hw' & _). apply Forall_cons in Hl as [[_ (e & Hb & [Hp _] & _)] Hl]. cbn [fst snd] in *. rewrite Hb, Hp.
      cbn [dr_read dr_total dr_err dr_it dr_leaf]. unfold bytes_of in *. cbn [map concat snd] in *. rewrite blen_app in Ht. change (blen []) with 0 in Ht.
      pose proof (blen_nonneg (concat (map snd ls))). assert (blen d = blen (take size d) + blen (drop size d)) by (rewrite <- blen_app, take_drop; done).
      pose proof (blen_nonneg (drop size d)). pose proof (blen_nonneg (take size d)).
      eexists _, _, ls. split_and!; [done| | |].
      * split; cbn [dr_read dr_total dr_err dr_it dr_leaf]; try done; unfold bytes_of; rewrite u64_small by lia; lia.
      * cbn [dr_leaf app]. by rewrite app_assoc, take_drop.
      * cbn [dr_leaf length app]. rewrite !length_app, length_drop. lia.
  - rewrite blen_cons in Ht. pose proof (blen_nonneg leaf). set (l := x :: leaf) in *. assert (blen l = 1 + blen leaf) as Hbl by (unfold l; by rewrite blen_cons).
    assert (blen l = blen (take size l) + blen (drop size l)) by (rewrite <- blen_app, take_drop; done).
    pose proof (blen_nonneg (drop size l)). pose proof (blen_nonneg (take size l)).
    eexists _, _, ls. split_and!; [done| | |].
    + split; cbn [dr_read dr_total dr_err dr_it dr_leaf]; try done; rewrite u64_small by lia; lia.
    + cbn [dr_leaf]. by rewrite app_assoc, take_drop.
    + cbn [dr_leaf]. rewrite !length_app, length_drop. unfold l. cbn [length]. lia.
Qed.
Lemma read_all_Ok n size : (0 < size)%nat → ∀ fuel r ls, reads n r ls → (length (dr_leaf r ++ bytes_of ls) + length ls < fuel)%nat →
  read_all fuel n size r = Ok (dr_leaf r ++ bytes_of ls).
Proof.
  intros Hs. induction fuel as [|fuel IH]; intros r ls Hr Hf; [lia|]. cbn [read_all].
  destruct (data_read_Ok n size r ls Hs Hr) as [(r' & got & ls' & -> & Hr' & Heq & Hlt)|(r' & -> & ->)]; [|done].
  rewrite (IH r' ls' Hr') by lia. by rewrite Heq.
Qed.
(** A data tree gives its bytes to every reader. *)
Lemma data_tree_reads n r ls size : ndb_wf n → data_tree n r ls → (0 < size)%nat →
  ∃ rd, OpenDataTree n r = Ok rd ∧ ∀ fuel, (length (bytes_of ls) + length ls < fuel)%nat → read_all fuel n size rd = Ok (bytes_of ls).
Proof.
  intros Hwf Ht Hs. destruct (startDataTree_Ok n r ls Hwf Ht) as (it & E & Hw & Htot & Hwalk & Hlt). unfold OpenDataTree. rewrite E, bind_Ok.
  eexists. split; [done|]. intros fuel Hf. rewrite (read_all_Ok n size Hs fuel _ ls); [done| |done].
  split; cbn [dr_read dr_total dr_err dr_it dr_leaf]; rewrite ?Htot, ?Hwalk; try done. by apply (tree_leaves n r).
Qed.

(** C12: Data of any size up to 4 GiB is written as a data tree whose readers, with
    buffers of any size, deliver exactly the data; the tree passes validation
    and lists its leaves in order.  Every other block of the catalog keeps its
    bytes, and every data tree there was stays one. *)
Theorem data_tree_roundtrip n data expected size : ndb_wf n → fits 63 (FileEOF (n_store n)) → bytes_ok data → blen data ≤ MaxTotal →
  expected ≤ 0 ∨ expected = blen data → room n (tree_blocks data) → (0 < size)%nat →
  ∃ n' e, PutDataTree (mkReader data None) expected n = (n', Ok e) ∧ ndb_wf n' ∧
    (∃ r, OpenDataTree n' (B_BID e) = Ok r ∧ ∀ fuel, (2 * length data < fuel)%nat → read_all fuel n' size r = Ok data) ∧
    validateDataTree n' (B_BID e) = Ok tt ∧
    (∃ bids, flattenDataTree n' (B_BID e) = Ok (bids, blen data) ∧ Forall2 (holds n') bids (leaves_of data)) ∧
    (∀ bid d, holds n bid d → holds n' bid d) ∧ (∀ root ls, data_tree n root ls → data_tree n' root ls).
Proof.
  intros Hwf Hf Hb Hm Hexp Hr Hs. destruct (PutDataTree_Ok n data expected Hwf Hf Hb Hm Hexp Hr) as (n' & e & ls & E & G & Ht & Hls).
  pose proof (gr_wf _ _ _ G) as Hwf'. assert (bytes_of ls = data) as Hd by (unfold bytes_of; rewrite Hls; by apply chunks_concat).
  exists n', e. split_and!; [done|done| | | |apply G|].
  - destruct (data_tree_reads n' (B_BID e) ls size Hwf' Ht Hs) as (r & Ho & Hrd). exists r. split; [done|]. intros fuel Hfu. rewrite Hrd, Hd; [done|].
    rewrite Hd. pose proof (proj1 (proj2 (proj2 (chunks_fuel_spec (length data) (Z.to_nat MaxDataBlockCB) data ltac:(unfold MaxDataBlockCB; lia) ltac:(lia))))).
    apply (f_equal length) in Hls. rewrite length_map in Hls. unfold leaves_of, chunks in Hls. lia.
  - unfold validateDataTree. by rewrite (walkDataTree_Ok n' (B_BID e) ls _ (λ _ _, tt)).
  - exists (map fst ls). rewrite (flatten_Ok n' _ ls Hwf' Ht), Hd. split; [done|]. rewrite <- Hls.
    destruct (tree_leaves _ _ _ Ht) as [Hl _]. clear -Hl. induction Hl as [|l ls [_ Hh] _ IH]; [constructor|by constructor].
  - intros root ls'. by apply (data_tree_grows (tree_blocks data)).
Qed.
Lemma NewNDB_wf : ndb_wf NewNDB ∧ next_bid NewNDB = 4 ∧ RegionCount (n_store NewNDB) = 1.
Proof.
  destruct NewStore_wf as (_ & Hwf & Hc & Hst). assert (next_bid NewNDB = 4) as Hn by (unfold next_bid; change (n_store NewNDB) with NewStore.1; by rewrite Hst).
  assert (∀ b, n_blocks NewNDB !! b = None) as Hb by (intros b; apply lookup_empty).
  split; [|split; [done|exact Hc]]. split; try (intros ? ? E; by rewrite Hb in E); [exact Hwf| | |by intros p ?%elem_of_nil|by constructor].
  - split; [split|split; rewrite ?Hn].
    + intros b e E. by rewrite Hb in E.
    + intros b [e E]. by rewrite Hb in E.
    + intros nid e b E. change ((∅ : gmap Z NBTEntry) !! nid = Some e) in E. by rewrite lookup_empty in E.
    + intros m b x Hm E. exfalso. unfold ref_maps in Hm. cbn in Hm. rewrite !elem_of_cons in Hm.
      destruct Hm as [->|[->|[->|Hm]]]; [by rewrite lookup_empty in E..|by apply not_elem_of_nil in Hm].
    + done.
    + done.
    + intros b [e E]. by rewrite Hb in E.
  - intros ? ? ? ? E. by rewrite Hb in E.
Qed.
Lemma data_tree_roundtrip_witness : let data := [1; 2; 3] in
  ∃ n' e, PutDataTree (mkReader data None) 3 NewNDB = (n', Ok e) ∧ ∃ r, OpenDataTree n' (B_BID e) = Ok r ∧ read_all 7 n' 2 r = Ok data.
Proof.
  intros data. destruct NewNDB_wf as (Hwf & Hn & Hc).
  assert (fits 63 (FileEOF (n_store NewNDB))) as Hf by (rewrite FileEOF_ok, Hc by (rewrite ?Hc; unfold region_ok; lia); done).
  assert (bytes_ok data) as Hb by (repeat constructor; done).
  assert (room NewNDB (tree_blocks data)) as Hr by (unfold room; rewrite Hn, Hc; by vm_compute).
  destruct (data_tree_roundtrip NewNDB data 3 2 Hwf Hf Hb ltac:(done) ltac:(by right) Hr ltac:(lia)) as (n' & e & E & _ & (r & Ho & Hrd) & _).
  exists n', e. split; [exact E|]. exists r. split; [exact Ho|]. apply Hrd. cbn. lia.
Defined.
