(* ===== verification/V2Subnode.v ===== *)
(** * Writer v2: subnode trees ([src/writer/v2/subnode.go])

    The subnodes of a node are the entries of one SLBLOCK, or of the SLBLOCKs
    that one SIBLOCK lists. *)
From S2P Require Import Prelude Ids State V2Base V2Disk V2Entries V2Blocks V2Header V2Store V2Ndb V2Data.

(** ** Validation *)
Definition subnodeFirstKey (n : NDB) (e : BBTEntry) : result Z :=
  data ← blockPayload (n_store n) e;
  v ← InspectSubnodeBlock data;
  if negb (SV_Level v =? 0) then invariant "2.2.2.8.3.3.2" "cLevel" "SIENTRY child must be an SLBLOCK, got cLevel %d" [SV_Level v] else
  match SV_Leaves v with [] => invariant "2.2.2.8.3.3.1" "cEnt" "empty SLBLOCK" [] | e :: _ => mret (SL_NID e) end.
(** The child of an SIBLOCK: there, an SLBLOCK, filed under its first key. *)
Definition sub_child (n : NDB) (k : SIEntry) : result BBTEntry :=
  match n_blocks n !! SI_Ref k with
  | None => invariant "2.2.2.8.3.3.2" "bid" "missing child 0x%x" [SI_Ref k]
  | Some child =>
    fk ← subnodeFirstKey n child;
    if negb (SI_Key k =? fk)
    then invariant "2.2.2.8.3.3.2" "nid" "separator 0x%x is not child first key 0x%x" [SI_Key k; fk] else
    cdata ← blockPayload (n_store n) child;
    cv ← InspectSubnodeBlock cdata;
    if negb (SV_Level cv =? 0)
    then invariant "2.2.2.8.3.3.2" "bid" "SIENTRY 0x%x must point to an SLBLOCK (MS-PST %s)" [SI_Ref k] else mret child
  end.
(** The state is the set of blocks seen.  One level of calls per fuel. *)
Fixpoint validateSubnodeTreeAt (fuel : nat) (n : NDB) (bid depth : Z) : ST (list Z) unit :=
  match fuel with
  | O => lift Panic
  | S fuel =>
    if bid =? 0 then mret tt else
    if 1 <? depth
    then lift (invariant "2.2.2.8.3.3.2" "cLevel" "subnode walk exceeded SIBLOCK->SLBLOCK (MS-PST %s)" []) else
    do seen <- get;
    if bool_decide (bid ∈ seen) then lift (invariant "2.2.2.8.3.3" "bid" "cycle or duplicate subnode BID 0x%x" [bid]) else
    modify (cons bid) ;;
    match n_blocks n !! bid with
    | None => lift (invalidArg "bidSub" "missing subnode-tree BID 0x%x (MS-PST %s)" [bid])
    | Some e =>
      if negb (BIDIsInternal bid)
      then lift (invalidArg "bidSub" "bidSub 0x%x is an external data block, want SLBLOCK/SIBLOCK (MS-PST %s)" [bid]) else
      do data <- lift (blockPayload (n_store n) e);
      do v <- lift (InspectSubnodeBlock data);
      if SV_Level v =? 0 then
        run_each (λ ent,
          lift (checkSLEntry ent) ;;
          (if negb (SL_DataBID ent =? 0) then lift (validateDataTree n (SL_DataBID ent)) else mret tt) ;;
          (if negb (SL_SubBID ent =? 0) then validateSubnodeTreeAt fuel n (SL_SubBID ent) 0 else mret tt)) (SV_Leaves v)
      else if negb (SV_Level v =? SIBlockLevel)
      then lift (invariant "2.2.2.8.3.3.2" "cLevel" "got %d want 0x01" [SV_Level v])
      else if negb (depth =? 0)
      then lift (invariant "2.2.2.8.3.3.2" "bid" "SIENTRY must point to an SLBLOCK (MS-PST %s)" [])
      else
        run_each (λ k,
          do seen <- get;
          if bool_decide (SI_Ref k ∈ seen)
          then lift (invariant "2.2.2.8.3.3.2" "bid" "cycle or duplicate SIENTRY 0x%x" [SI_Ref k]) else
          lift (sub_child n k) ;;
          validateSubnodeTreeAt fuel n (SI_Ref k) (depth + 1)) (SV_Kids v)
    end
  end.
(** Every call but the last of a path sees a block for the first time. *)
Definition validateSubnodeTree (n : NDB) (root : Z) : result unit :=
  (validateSubnodeTreeAt (S (S (size (n_blocks n)))) n root 0 []).2.
Definition assertDataTreeBID (n : NDB) (bid : Z) : result unit := validateDataTree n bid.
Definition assertSubnodeTreeBID (n : NDB) (bid : Z) : result unit := validateSubnodeTree n bid.
Definition assertSLEntryRoles (n : NDB) (e : SLEntry) : result unit :=
  checkSLEntry e ;;
  (if negb (SL_DataBID e =? 0) then assertDataTreeBID n (SL_DataBID e) else mret tt) ;;
  (if negb (SL_SubBID e =? 0) then assertSubnodeTreeBID n (SL_SubBID e) else mret tt).

(** ** Building *)
Definition put_internal (payload : bytes) : ST NDB BBTEntry :=
  do blk <- AllocInternalBlock (u16 (blen payload)); putPayload blk payload ;; mret blk.
Definition ref_entry (e : SLEntry) : ST NDB unit :=
  do n <- get;
  lift (assertSLEntryRoles n e) ;;
  (if negb (SL_DataBID e =? 0) then AddSubnodeRef (SL_DataBID e) else mret tt) ;;
  (if negb (SL_SubBID e =? 0) then AddSubnodeRef (SL_SubBID e) else mret tt).
Definition put_slblock (chunk : list SLEntry) : ST NDB SIEntry :=
  do payload <- lift (EncodeSLBlock chunk);
  do blk <- put_internal payload;
  run_each ref_entry chunk ;;
  match chunk with [] => lift Panic | e :: _ => mret (mkSIEntry (SL_NID e) (B_BID blk)) end.
Definition buildSIRoot (kids : list SIEntry) : ST NDB BBTEntry :=
  match kids with
  | [k] => do n <- get; mret (default null_block (n_blocks n !! SI_Ref k))
  | _ =>
    if MaxSIBlockEntries <? blen kids
    then lift (limitErr "cEnt" "need %d SLBLOCKs, max %d in one SIBLOCK (MS-PST %s)" [blen kids; MaxSIBlockEntries]) else
    do payload <- lift (EncodeSIBlock SIBlockLevel kids);
    do blk <- put_internal payload;
    run_each AddSubnodeRef (map SI_Ref kids) ;;
    mret blk
  end.
Definition buildSubnodeTree (entries : list SLEntry) : ST NDB BBTEntry :=
  do leaves <- mapM_st put_slblock (chunks MaxSLBlockEntries entries); buildSIRoot leaves.
Definition PutSubnodeTree `{!SortSlice} (entries : list SLEntry) : ST NDB BBTEntry :=
  match entries with [] => mret null_block | _ => runTxn (buildSubnodeTree (sort_by SL_NID entries)) end.

(** ** Walking *)
Fixpoint fold_each {A B} (f : A → B → result A) (l : list B) (a : A) : result A :=
  match l with [] => mret a | x :: l => a ← f a x; fold_each f l a end.
Fixpoint walkSubnode {A} (fuel : nat) (n : NDB) (fn : A → SLEntry → result A) (e : BBTEntry) (depth : Z) (a : A) : result A :=
  match fuel with
  | O => Panic
  | S fuel =>
    if 1 <? depth
    then invariant "2.2.2.8.3.3.2" "cLevel" "subnode walk exceeded SIBLOCK->SLBLOCK (MS-PST %s)" [] else
    data ← blockPayload (n_store n) e;
    v ← InspectSubnodeBlock data;
    if SV_Level v =? 0 then fold_each fn (SV_Leaves v) a
    else if negb (SV_Level v =? SIBlockLevel)
    then invariant "2.2.2.8.3.3.2" "cLevel" "got %d want 0x01" [SV_Level v]
    else fold_each (λ a k, child ← sub_child n k; walkSubnode fuel n fn child (depth + 1) a) (SV_Kids v) a
  end.
(** The depth is at most two, so three levels of calls are enough. *)
Definition WalkSubnodes {A} (n : NDB) (root : Z) (fn : A → SLEntry → result A) (a : A) : result A :=
  if root =? 0 then mret a else
  match n_blocks n !! root with
  | None => invalidArg "bid" "missing subnode root 0x%x" [root]
  | Some e => walkSubnode 3 n fn e 0 a
  end.
