(* ===== verification/V2SubTree.v ===== *)
(** * Writer v2: subnode trees, written and walked

    [sub_tree k n root es vis] says what the catalog holds when [root] is a tree
    of the entries [es]: its blocks, those of the trees nested in it up to depth
    [k], all listed in [vis]. *)
From S2P Require Import Prelude Ids State Block V2Base V2Disk V2Entries V2Blocks V2Header V2Bitmap V2Store V2Journal V2Alloc V2Ndb V2Txn V2Catalog V2Extents V2Data V2DataTree V2Subnode.

(** ** What a subnode tree is *)
Definition sl_at (n : NDB) (g : Z * list SLEntry) : Prop :=
  BIDIsInternal g.1 = true ∧ Forall ke_wf g.2 ∧ entries_ok MaxSLBlockEntries g.2 ∧ holds n g.1 (subnode_data 0 g.2).
Definition si_at (n : NDB) (x : Z) (ks : list SIEntry) : Prop :=
  BIDIsInternal x = true ∧ Forall ke_wf ks ∧ entries_ok MaxSIBlockEntries ks ∧ holds n x (subnode_data SIBlockLevel ks).
(** The SIBLOCK entry of an SLBLOCK. *)
Definition sib (g : Z * list SLEntry) : SIEntry := mkSIEntry (match g.2 with e :: _ => SL_NID e | [] => 0 end) g.1.
Definition sub_shape (n : NDB) (x : Z) (gs : list (Z * list SLEntry)) (tops : list Z) : Prop :=
  Forall (sl_at n) gs ∧ ((∃ es, gs = [(x, es)] ∧ tops = []) ∨ (si_at n x (map sib gs) ∧ tops = [x])).
(** What the IDs of an entry name, and the blocks of the subnode tree among it. *)
Definition role (nested : Z → list Z → Prop) (n : NDB) (e : SLEntry) (v : list Z) : Prop :=
  (SL_DataBID e = 0 ∨ ∃ ls, data_tree n (SL_DataBID e) ls) ∧ ((SL_SubBID e = 0 ∧ v = []) ∨ (SL_SubBID e ≠ 0 ∧ nested (SL_SubBID e) v)).
Fixpoint sub_tree (k : nat) (n : NDB) (x : Z) (es : list SLEntry) (vis : list Z) : Prop :=
  match k with
  | O => False
  | S k => ∃ gs tops vss, sub_shape n x gs tops ∧ es = concat (map snd gs) ∧
      Forall2 (λ g vs, Forall2 (role (λ x v, ∃ es, sub_tree k n x es v) n) g.2 vs) gs vss ∧
      vis = tops ++ concat (zip_with (λ g vs, g.1 :: concat vs) gs vss)
  end.

Lemma sl_reads n g : sl_at n g → ∃ e d, n_blocks n !! g.1 = Some e ∧ blockPayload (n_store n) e = Ok d ∧
  InspectSubnodeBlock d = Ok (mkSubnodeView V2BlockTypeSubnode 0 (blen g.2) g.2 []).
Proof.
  intros (_ & Hw & Hok & e & He & [Hp _] & _). exists e, (subnode_data 0 g.2). split_and!; [done|done|].
  rewrite <- (app_nil_r (subnode_data _ _)). by apply InspectSubnode_SL.
Qed.
Lemma si_reads n x ks : si_at n x ks → ∃ e d, n_blocks n !! x = Some e ∧ blockPayload (n_store n) e = Ok d ∧
  InspectSubnodeBlock d = Ok (mkSubnodeView V2BlockTypeSubnode SIBlockLevel (blen ks) [] ks).
Proof.
  intros (_ & Hw & Hok & e & He & [Hp _] & _). exists e, (subnode_data SIBlockLevel ks). split_and!; [done|done|].
  rewrite <- (app_nil_r (subnode_data _ _)). by apply InspectSubnode_SI.
Qed.
Lemma sub_child_Ok n g : sl_at n g → ∃ e, n_blocks n !! g.1 = Some e ∧ sub_child n (sib g) = Ok e.
Proof.
  intros Hg. destruct (sl_reads n g Hg) as (e & d & He & Hp & Hv). destruct Hg as (_ & _ & (Hn & _) & _). exists e. split; [done|].
  unfold sub_child, subnodeFirstKey. cbn [sib SI_Ref SI_Key]. rewrite He, Hp. repeat rewrite ?bind_Ok, ?Hv. cbn [SV_Level SV_Leaves].
  destruct g as [x [|y es]]; [unfold blen in Hn; cbn in Hn; lia|]. cbn [snd]. change (negb (0 =? 0)) with false. cbv iota.
  by rewrite mret_Ok, bind_Ok, Z.eqb_refl.
Qed.

(** *** Growth *)
Lemma sl_extends n n' g : extends n n' → sl_at n g → sl_at n' g.
Proof. intros G (?&?&?&?). split_and!; try done; try by destruct_and!. by apply G. Qed.
Lemma si_extends n n' x ks : extends n n' → si_at n x ks → si_at n' x ks.
Proof. intros G (?&?&?&?). split_and!; try done; try by destruct_and!. by apply G. Qed.
Lemma role_mono (P P' : Z → list Z → Prop) n n' e v : extends n n' → (∀ x v, P x v → P' x v) → role P n e v → role P' n' e v.
Proof.
  intros G HP [Hd Hs]. split; [|naive_solver]. destruct Hd as [?|(ls & Hl)]; [by left|right]. exists ls. by apply (data_tree_extends n).
Qed.
Lemma sub_tree_extends n n' : extends n n' → ∀ k x es vis, sub_tree k n x es vis → sub_tree k n' x es vis.
Proof.
  intros G. induction k as [|k IH]; intros x es vis; [done|]. intros (gs & tops & vss & [Hg Hs] & -> & Hr & ->).
  exists gs, tops, vss. split_and!; [|done| |done].
  - split; [eapply Forall_impl; [exact Hg|]; intros g; by apply (sl_extends n)|]. destruct Hs as [?|[? ?]]; [by left|right].
    split; [by apply (si_extends n)|done].
  - eapply Forall2_impl; [exact Hr|]. intros g vs Hvs. eapply Forall2_impl; [exact Hvs|]. intros e v.
    apply (role_mono _ _ n); [done|]. intros y v' (es' & He). exists es'. by apply IH.
Qed.
Lemma sl_grows k n n' g : grows k n n' → sl_at n g → sl_at n' g.
Proof. intros G. pose proof (gr_holds _ _ _ G : extends n n') as X. revert X. clear. intros. by eapply sl_extends. Qed.
Lemma sub_tree_grows j n n' : grows j n n' → ∀ k x es vis, sub_tree k n x es vis → sub_tree k n' x es vis.
Proof. intros G. pose proof (gr_holds _ _ _ G : extends n n') as X. revert X. clear. intros. by eapply sub_tree_extends. Qed.

(** ** Walking *)
Lemma fold_each_app {A B} (f : A → B → result A) l l' a : fold_each f (l ++ l') a = fold_each f l a ≫= fold_each f l'.
Proof. revert a. induction l as [|x l IH]; intros a; [done|]. cbn [app fold_each]. destruct (f a x) as [a'| |]; [apply IH|done..]. Qed.
Lemma walk_leaf {A} fuel n (fn : A → SLEntry → result A) g e depth a : sl_at n g → n_blocks n !! g.1 = Some e → depth ≤ 1 →
  walkSubnode (S fuel) n fn e depth a = fold_each fn g.2 a.
Proof.
  intros Hg He Hd. destruct (sl_reads n g Hg) as (e' & d & He' & Hp & Hv). rewrite He in He'. injection He' as <-. cbn [walkSubnode].
  rewrite (proj2 (Z.ltb_ge 1 depth)) by lia. by rewrite Hp, bind_Ok, Hv, bind_Ok.
Qed.
Lemma internal_pos b : BIDIsInternal b = true → b ≠ 0.
Proof. by intros H ->. Qed.
Lemma WalkSubnodes_Ok {A} n x gs tops (fn : A → SLEntry → result A) a : sub_shape n x gs tops → WalkSubnodes n x fn a = fold_each fn (concat (map snd gs)) a.
Proof.
  intros [Hg [(es & -> & ->)|[Hs ->]]]; unfold WalkSubnodes.
  - apply Forall_cons in Hg as [Hg _]. destruct (sl_reads _ _ Hg) as (e & d & He & _). pose proof Hg as (Hi & _). apply internal_pos in Hi. cbn [fst snd] in *.
    rewrite (proj2 (Z.eqb_neq x 0)), He by done. rewrite (walk_leaf 2 n fn _ e 0 a Hg He) by lia. cbn [map concat snd]. by rewrite app_nil_r.
  - destruct (si_reads _ _ _ Hs) as (e & d & He & Hp & Hv). destruct Hs as (Hi & _). apply internal_pos in Hi.
    rewrite (proj2 (Z.eqb_neq x 0)), He by done.
    assert (∃ f, f = 2%nat) as [f Hf] by eauto. replace 3%nat with (S f) by lia. cbn [walkSubnode]. change (1 <? 0) with false. rewrite Hp, bind_Ok, Hv, bind_Ok. cbn [SV_Level SV_Kids].
    change (SIBlockLevel =? 0) with false. change (negb (SIBlockLevel =? SIBlockLevel)) with false. clear Hv.
    revert a. induction Hg as [|g gs Hg _ IH]; intros a; [done|]. cbn [map fold_each concat].
    destruct (sub_child_Ok n g Hg) as (c & Hc & ->). rewrite bind_Ok, fold_each_app. rewrite Hf. rewrite (walk_leaf 1 n fn g c (0 + 1) a Hg Hc) by lia. rewrite <- Hf.
    destruct (fold_each fn g.2 a) as [a'| |]; [|done..]. rewrite !bind_Ok. apply IH.
Qed.

(** ** Validation *)
(** A run that sees the blocks [vis], each of them for the first time. *)
Definition visits (m : ST (list Z) unit) (vis : list Z) : Prop := ∀ seen, (∀ b, b ∈ vis → b ∉ seen) →
  ∃ seen', m seen = (seen', Ok tt) ∧ ∀ b, b ∈ seen' ↔ b ∈ vis ∨ b ∈ seen.
Lemma visits_ret : visits (mret tt) [].
Proof. intros seen _. exists seen. split; [done|]. set_solver. Qed.
Lemma visits_lift {A} (r : result A) a f vis : r = Ok a → visits (f a) vis → visits (lift r ≫= f) vis.
Proof. intros -> Hm seen Hs. by apply Hm. Qed.
Lemma visits_bind m m' v v' : NoDup (v ++ v') → visits m v → visits m' v' → visits (m ;; m') (v ++ v').
Proof.
  intros (_ & Hd & _)%NoDup_app H1 H2 seen Hs. destruct (H1 seen) as (s1 & E1 & S1); [set_solver|].
  destruct (H2 s1) as (s2 & E2 & S2); [set_solver|]. exists s2. erewrite st_bind_Ok by exact E1. split; [done|]. set_solver.
Qed.
Lemma visits_each {A} (f : A → ST (list Z) unit) l vs : NoDup (concat vs) → Forall2 (λ x v, visits (f x) v) l vs → visits (run_each f l) (concat vs).
Proof.
  intros Hd H. induction H as [|x v l vs Hx _ IH]; [apply visits_ret|]. cbn [run_each concat] in *.
  apply visits_bind; [done|done|apply IH]. by apply NoDup_app in Hd as (_ & _ & ?).
Qed.
(** One block more. *)
Lemma visits_block bid m vis : bid ∉ vis → visits m vis →
  visits (do seen <- get; if bool_decide (bid ∈ seen) then lift (invariant "2.2.2.8.3.3" "bid" "cycle or duplicate subnode BID 0x%x" [bid]) else
    modify (cons bid) ;; m) (bid :: vis).
Proof.
  intros Hn Hm seen Hs. destruct (Hm (bid :: seen)) as (s & E & S); [set_solver|]. exists s. rewrite st_get_bind.
  rewrite bool_decide_false by (apply Hs; set_solver). rewrite st_modify_bind, E. split; [done|]. set_solver.
Qed.
Lemma visits_ext m m' vis : (∀ s, m s = m' s) → visits m vis → visits m' vis.
Proof. intros He H seen Hs. destruct (H seen Hs) as (s & E & ?). exists s. by rewrite <- He. Qed.

Lemma length_concat_le {A} (v : list A) vs : v ∈ vs → (length v ≤ length (concat vs))%nat.
Proof. intros (l & l' & ->)%list_elem_of_split. rewrite concat_app. cbn [concat]. rewrite !length_app. lia. Qed.
Lemma elem_concat_le {A} (v : list A) vs b : v ∈ vs → b ∈ v → b ∈ concat vs.
Proof. intros (l & l' & ->)%list_elem_of_split Hb. rewrite concat_app. cbn [concat]. set_solver. Qed.
Lemma nodup_concat_elem {A} (v : list A) vs : NoDup (concat vs) → v ∈ vs → NoDup v.
Proof.
  intros Hd (l & l' & ->)%list_elem_of_split. rewrite concat_app in Hd. cbn [concat] in Hd. by apply NoDup_app in Hd as (_ & _ & (? & _)%NoDup_app).
Qed.

Section validate.
Context (n : NDB) (Hwf : ndb_wf n) (nested : Z → list Z → Prop) (fuel : nat).
Context (Hnested : ∀ x v, nested x v → NoDup v → (length v < fuel)%nat → visits (validateSubnodeTreeAt fuel n x 0) v).
Lemma validate_leaf g vs depth : sl_at n g → depth ≤ 1 → Forall2 (role nested n) g.2 vs → NoDup (g.1 :: concat vs) →
  (length (concat vs) < fuel)%nat → visits (validateSubnodeTreeAt (S fuel) n g.1 depth) (g.1 :: concat vs).
Proof using All.
  intros Hg Hd Hr Hnd Hl. destruct (sl_reads n g Hg) as (e & d & He & Hp & Hv). destruct Hg as (Hi & _ & (_ & Hval & _) & _).
  apply NoDup_cons in Hnd as [Hn Hnd]. cbn [validateSubnodeTreeAt]. rewrite (proj2 (Z.eqb_neq g.1 0)) by (by apply internal_pos).
  rewrite (proj2 (Z.ltb_ge 1 depth)) by lia. apply visits_block; [done|]. rewrite He, Hi. cbn [negb].
  rewrite Hp. refine (visits_lift _ _ _ _ eq_refl _). refine (visits_lift _ _ _ _ Hv _). cbn [SV_Level SV_Leaves]. change (0 =? 0) with true. cbv iota.
  apply visits_each; [done|].
  assert (∀ v, v ∈ vs → NoDup v ∧ (length v < fuel)%nat) as Hvs.
  { intros v Hin. split; [by eapply nodup_concat_elem|]. pose proof (length_concat_le v vs Hin). lia. }
  clear Hl Hnd Hn Hv. induction Hr as [|ent v es vs [Hdata Hsub] Hr IH]; [constructor|]. apply Forall_cons in Hval as [Hc Hval].
  constructor; [|apply IH; [done|]; intros v' Hv'; apply Hvs; by right].
  refine (visits_lift _ _ _ _ Hc _). destruct (Hvs v ltac:(by left)) as [Hnd Hlen].
  assert ((if negb (SL_DataBID ent =? 0) then lift (validateDataTree n (SL_DataBID ent)) else mret tt) = lift (S:=list Z) (Ok tt)) as ->.
  { destruct (Z.eqb_spec (SL_DataBID ent) 0) as [|Hne]; [done|]. destruct Hdata as [?|(ls & Hls)]; [done|]. cbn [negb]. unfold validateDataTree.
    by rewrite (walkDataTree_Ok n _ ls _ (λ _ _, tt)). }
  refine (visits_lift _ _ _ _ eq_refl _). destruct Hsub as [[-> ->]|[Hne Hs]]; [apply visits_ret|].
  rewrite (proj2 (Z.eqb_neq _ _)) by done. by apply Hnested.
Qed.
End validate.
Lemma validate_at_Ok n : ndb_wf n → ∀ k x es vis fuel, sub_tree k n x es vis → NoDup vis → (length vis < fuel)%nat → visits (validateSubnodeTreeAt fuel n x 0) vis.
Proof.
  intros Hwf. induction k as [|k IH]; intros x es vis fuel; [done|]. intros (gs & tops & vss & [Hg Hs] & -> & Hr & ->) Hnd Hl.
  destruct fuel as [|fuel]; [lia|].
  assert (∀ f x v, (∃ es, sub_tree k n x es v) → NoDup v → (length v < f)%nat → visits (validateSubnodeTreeAt f n x 0) v) as Hnested.
  { intros f y v (es & Hy). by apply (IH y es). }
  destruct Hs as [(es & -> & ->)|[Hs ->]].
  - apply Forall_cons in Hg as [Hg _]. apply Forall2_cons_inv_l in Hr as (vs & ? & Hr & Hr0%Forall2_nil_inv_l & ->). subst.
    cbn [zip_with concat app] in *. rewrite app_nil_r in *. cbn [fst length] in *.
    refine (validate_leaf n Hwf _ fuel (Hnested fuel) (x, es) vs 0 Hg _ Hr Hnd _); lia.
  - set (per := zip_with (λ (g : Z * list SLEntry) vs, g.1 :: concat vs) gs vss) in *. cbn [app] in *. apply NoDup_cons in Hnd as [Hn Hnd].
    destruct (si_reads _ _ _ Hs) as (e & d & He & Hp & Hv). destruct Hs as (Hi & _).
    cbn [validateSubnodeTreeAt]. rewrite (proj2 (Z.eqb_neq x 0)) by (by apply internal_pos). change (1 <? 0) with false. cbv iota.
    apply visits_block; [done|]. rewrite He, Hi. cbn [negb]. rewrite Hp.
    refine (visits_lift _ _ _ _ eq_refl _). refine (visits_lift _ _ _ _ Hv _). cbn [SV_Level SV_Kids].
    change (SIBlockLevel =? 0) with false. change (negb (SIBlockLevel =? SIBlockLevel)) with false. change (negb (0 =? 0)) with false. cbv iota.
    apply visits_each; [done|]. cbn [length] in Hl.
    assert (∀ v, v ∈ per → NoDup v ∧ (length v < fuel)%nat) as Hper.
    { intros v Hin. split; [by eapply nodup_concat_elem|]. pose proof (length_concat_le v per Hin). lia. }
    clear Hv Hnd Hn Hl. subst per. induction Hr as [|g vs gs vss Hrg Hr IHr]; [constructor|]. apply Forall_cons in Hg as [Hg Hgs]. cbn [map zip_with] in *.
    constructor; [|apply IHr; [done|]; intros v Hin; apply Hper; by right].
    destruct (Hper (g.1 :: concat vs) ltac:(by left)) as [Hnd Hlen]. cbn [length] in Hlen. intros seen Hseen.
    rewrite st_get_bind, bool_decide_false by (apply Hseen; by left). destruct (sub_child_Ok n g Hg) as (c & _ & ->).
    destruct fuel as [|fuel]; [lia|].
    exact (validate_leaf n Hwf _ fuel (Hnested fuel) g vs 1 Hg ltac:(lia) Hrg Hnd ltac:(lia) seen Hseen).
Qed.

(** ** Building *)
Lemma sub_tree_held n : ∀ k x es vis, sub_tree k n x es vis → held n x ∧ Forall (held n) vis.
Proof.
  induction k as [|k IH]; intros x es vis; [done|]. intros (gs & tops & vss & [Hg Hs] & -> & Hr & ->).
  assert (∀ g, sl_at n g → held n g.1) as Hh by (intros g (_ & _ & _ & ?); by eexists).
  assert (Forall (held n) (concat (zip_with (λ (g : Z * list SLEntry) vs, g.1 :: concat vs) gs vss))) as Hz.
  { clear Hs. induction Hr as [|g vs gs vss Hrg Hr IHr]; [constructor|]. apply Forall_cons in Hg as [Hg Hgs]. cbn [zip_with concat].
    apply Forall_app. split; [|by apply IHr]. constructor; [by apply Hh|]. apply Forall_concat.
    induction Hrg as [|e v es vs [_ Hsub] _ IHe]; [constructor|]. constructor; [|done].
    destruct Hsub as [[_ ->]|[_ (es' & Ht)]]; [constructor|]. by apply (IH _ _ _ Ht). }
  destruct Hs as [(es & -> & ->)|[(Hi & Hw & Hok & Hd) ->]].
  - split; [|done]. apply Forall_cons in Hg as [Hg _]. by apply (Hh _ Hg).
  - assert (held n x) by (by eexists). split; [done|]. by constructor.
Qed.
Lemma held_size n l : NoDup l → Forall (held n) l → (length l ≤ size (n_blocks n))%nat.
Proof. intros Hd Hf. apply nodup_size; [done|]. eapply Forall_impl; [exact Hf|]. intros b (d & e & He & _). by exists e. Qed.
Lemma data_tree_held n b ls : b ≠ 0 → data_tree n b ls → held n b.
Proof. intros Hb. destruct 1 as [|b d _ [_ Hh]|x ls [(_ & _ & _ & _ & Hh) _]|x gs (_ & _ & _ & _ & Hh) _ _ _]; [done|by eexists..]. Qed.
Definition roles (k : nat) (n : NDB) : SLEntry → list Z → Prop := role (λ x v, ∃ es, sub_tree k n x es v) n.
Lemma roles_extends k n n' e v : extends n n' → roles k n e v → roles k n' e v.
Proof. intros G. apply (role_mono _ _ n); [done|]. intros y v' (es & He). exists es. by apply (sub_tree_extends n). Qed.
Lemma roles_grows j k n n' e v : grows j n n' → roles k n e v → roles k n' e v.
Proof. intros G. pose proof (gr_holds _ _ _ G : extends n n') as X. revert X. clear. intros. by eapply roles_extends. Qed.
Lemma assert_roles_Ok k n e v : ndb_wf n → checkSLEntry e = Ok tt → roles k n e v → NoDup v → assertSLEntryRoles n e = Ok tt.
Proof.
  intros Hwf Hc [Hd Hs] Hnd. unfold assertSLEntryRoles. rewrite Hc, bind_Ok.
  assert ((if negb (SL_DataBID e =? 0) then assertDataTreeBID n (SL_DataBID e) else mret tt) = Ok tt) as ->.
  { destruct (Z.eqb_spec (SL_DataBID e) 0) as [|Hne]; [done|]. destruct Hd as [?|(ls & Hls)]; [done|]. cbn [negb].
    unfold assertDataTreeBID, validateDataTree. by rewrite (walkDataTree_Ok n _ ls _ (λ _ _, tt)). }
  rewrite bind_Ok. destruct (Z.eqb_spec (SL_SubBID e) 0) as [|Hne]; [done|]. destruct Hs as [[? _]|[_ (es & Hs)]]; [done|]. cbn [negb].
  destruct (sub_tree_held n k _ _ _ Hs) as [_ Hheld]. pose proof (held_size n v Hnd Hheld).
  destruct (validate_at_Ok n Hwf k _ es v (S (S (size (n_blocks n)))) Hs Hnd ltac:(lia) []) as (s & E & _); [set_solver|].
  unfold assertSubnodeTreeBID, validateSubnodeTree. by rewrite E.
Qed.
Lemma held_some n b : held n b → is_Some (n_blocks n !! b).
Proof. intros (d & e & He & _). by exists e. Qed.
Lemma opt_ref_Ok n b : ndb_wf n → b = 0 ∨ held n b →
  ∃ n', (if negb (b =? 0) then AddSubnodeRef b else mret tt) n = (n', Ok tt) ∧ grows 0 n n'.
Proof.
  intros Hwf [->|Hh]; [exists n; split; [done|by apply grows_refl]|]. destruct (held_bid n b Hwf Hh). rewrite (proj2 (Z.eqb_neq b 0)) by lia.
  apply add_ref_Ok; [done|by apply held_some].
Qed.
Lemma ref_entry_Ok k n e v : ndb_wf n → checkSLEntry e = Ok tt → roles k n e v → NoDup v → ∃ n', ref_entry e n = (n', Ok tt) ∧ grows 0 n n'.
Proof.
  intros Hwf Hc Hr Hnd. unfold ref_entry. rewrite st_get_bind, (assert_roles_Ok k n e v) by done. erewrite st_bind_Ok by reflexivity.
  destruct Hr as [Hd Hs]. destruct (opt_ref_Ok n (SL_DataBID e) Hwf) as (n1 & E1 & G1).
  { destruct (decide (SL_DataBID e = 0)); [by left|right]. destruct Hd as [?|(ls & Hls)]; [done|]. by eapply data_tree_held. }
  destruct (opt_ref_Ok n1 (SL_SubBID e) (gr_wf _ _ _ G1)) as (n2 & E2 & G2).
  { destruct Hs as [[? _]|[_ (es & Hs)]]; [by left|right]. apply sub_tree_held in Hs as [(d & Hh) _]. exists d. by apply (gr_holds _ _ _ G1). }
  exists n2. erewrite st_bind_Ok by exact E1. split; [done|]. by apply (grows_trans 0 0 _ n1).
Qed.
Lemma ref_entries_Ok k es vs : ∀ n, ndb_wf n → Forall (λ e, checkSLEntry e = Ok tt) es → Forall2 (roles k n) es vs → Forall NoDup vs →
  ∃ n', run_each ref_entry es n = (n', Ok tt) ∧ grows 0 n n'.
Proof.
  revert vs. induction es as [|e es IH]; intros vs n Hwf Hc Hr Hnd; [exists n; split; [done|by apply grows_refl]|].
  apply Forall_cons in Hc as [Hc Hcs]. apply Forall2_cons_inv_l in Hr as (v & vs' & Hr & Hrs & ->). apply Forall_cons in Hnd as [Hv Hvs].
  destruct (ref_entry_Ok k n e v Hwf Hc Hr Hv) as (n1 & E1 & G1).
  destruct (IH vs' n1 (gr_wf _ _ _ G1) Hcs) as (n2 & E2 & G2); [|done|].
  { eapply Forall2_impl; [exact Hrs|]. intros x y. by apply (roles_grows 0). }
  exists n2. cbn [run_each]. erewrite st_bind_Ok by exact E1. split; [done|]. by apply (grows_trans 0 0 _ n1).
Qed.
Lemma put_internal_Ok n data : ndb_wf n → room n 1 → bytes_ok data → blen data ≤ MaxDataBlockCB →
  ∃ n' e, put_internal data n = (n', Ok e) ∧ grows 1 n n' ∧ holds n' (B_BID e) data ∧ BIDIsInternal (B_BID e) = true ∧ new_bids n n' [B_BID e].
Proof.
  intros Hwf Hr Hb Hl. destruct (put_block_Ok _ 2 n data TakeInternal_takes (or_intror eq_refl) Hwf Hr Hb Hl) as (n1 & n2 & e & E1 & E2 & G & Hd & Hbid & Hn & Hcb).
  destruct (next_aligned n Hwf). exists n2, e. unfold put_internal, AllocInternalBlock. erewrite st_bind_Ok by exact E1. erewrite st_bind_Ok by exact E2.
  split_and!; [done|done|done|rewrite Hbid; by apply new_internal|]. split; [apply NoDup_singleton|]. repeat constructor; lia.
Qed.
Lemma subnode_data_ok `{KeyedEntry A} level max (es : list A) : level = 0 ∨ level = SIBlockLevel → entries_ok max es → ke_size * max ≤ 8160 → 0 < ke_size →
  bytes_ok (subnode_data level es) ∧ blen (subnode_data level es) ≤ MaxDataBlockCB.
Proof.
  intros Hl ((Hn1 & Hn2) & _) Hm Hs. unfold subnode_data, block_fields. split.
  - repeat (apply Forall_app; split); try apply bytes_ok_le_enc; [repeat constructor; by destruct Hl as [-> | ->]..|].
    apply bytes_ok_concat. intros x. apply ke_enc_ok.
  - rewrite !blen_app, blen_entries, !blen_le_enc. unfold blen in *. cbn [length]. unfold MaxDataBlockCB. nia.
Qed.
Lemma put_slblock_Ok k n c vs : ndb_wf n → room n 1 → Forall ke_wf c → entries_ok MaxSLBlockEntries c → Forall2 (roles k n) c vs → Forall NoDup vs →
  ∃ n' b, put_slblock c n = (n', Ok (sib (b, c))) ∧ grows 1 n n' ∧ sl_at n' (b, c) ∧ new_bids n n' [b].
Proof.
  intros Hwf Hroom Hw Hok Hr Hnd. pose proof Hok as (Hn & Hv & _).
  destruct (subnode_data_ok 0 _ c (or_introl eq_refl) Hok) as [Hb Hl]; [by vm_compute|by vm_compute|].
  destruct (put_internal_Ok n _ Hwf Hroom Hb Hl) as (n1 & e & E1 & G1 & Hh & Hi & Hnew).
  destruct (ref_entries_Ok k c vs n1 (gr_wf _ _ _ G1) Hv) as (n2 & E2 & G2); [|done|].
  { eapply Forall2_impl; [exact Hr|]. intros x y. by apply (roles_grows 1). }
  exists n2, (B_BID e). split_and!.
  - unfold put_slblock. assert (EncodeSLBlock c = Ok (subnode_data 0 c)) as -> by (by apply EncodeSLBlock_exact).
    erewrite st_bind_Ok by reflexivity. erewrite st_bind_Ok by exact E1. erewrite st_bind_Ok by exact E2.
    by destruct c; [unfold blen in Hn; cbn in Hn; lia|].
  - by apply (grows_trans 1 0 _ n1).
  - split_and!; cbn [fst snd]; try done; try by destruct_and!. by apply (gr_holds _ _ _ G2).
  - destruct Hnew as [? Hf]. split; [done|]. eapply Forall_impl; [exact Hf|]. intros b Hb'. cbv beta in *. pose proof (gr_bids _ _ _ G2). lia.
Qed.
Definition good_sl (k : nat) (n : NDB) (c : list (SLEntry * list Z)) : Prop :=
  Forall ke_wf (map fst c) ∧ entries_ok MaxSLBlockEntries (map fst c) ∧ Forall2 (roles k n) (map fst c) (map snd c) ∧ Forall NoDup (map snd c).
Lemma build_sls_Ok k cs : ∀ n, ndb_wf n → room n (blen cs) → Forall (good_sl k n) cs →
  ∃ n' gs, mapM_st put_slblock (map (map fst) cs) n = (n', Ok (map sib gs)) ∧ grows (blen cs) n n' ∧ map snd gs = map (map fst) cs ∧
    Forall (sl_at n') gs ∧ new_bids n n' (map fst gs).
Proof.
  induction cs as [|c cs IH]; intros n Hwf Hr Hg.
  { exists n, []. split_and!; try done; [by apply grows_refl|]. by split; constructor. }
  apply Forall_cons in Hg as [(H1 & H2 & H3 & H4) Hg]. rewrite blen_cons in *. pose proof (blen_nonneg cs).
  destruct (put_slblock_Ok k n _ _ Hwf (room_mono 1 (1 + blen cs) n ltac:(lia) Hr) H1 H2 H3 H4) as (n1 & b & E1 & G1 & S1 & N1).
  destruct (IH n1) as (n2 & gs & E2 & G2 & Hs & Hgs & N2);
    [apply G1|eapply (grows_room 1 _ n); [exact G1|lia|done]| |].
  { eapply Forall_impl; [exact Hg|]. intros c' (?&?&Hrl&?). split_and!; try done; try by destruct_and!.
    eapply Forall2_impl; [exact Hrl|]. intros x y. by apply (roles_grows 1). }
  exists n2, ((b, map fst c) :: gs). cbn [map mapM_st]. erewrite st_bind_Ok by exact E1. erewrite st_bind_Ok by exact E2.
  split_and!; [done|by apply (grows_trans 1 _ _ n1)|cbn; by rewrite Hs| |].
  - constructor; [by apply (sl_grows (blen cs) n1)|done].
  - apply (new_bids_app n n1 n2 [b]); [|done|done]. pose proof (gr_bids _ _ _ G1). pose proof (gr_bids _ _ _ G2). lia.
Qed.
Lemma heads_sorted gs : Forall (λ g : Z * list SLEntry, g.2 ≠ []) gs → StronglySorted Z.lt (map SL_NID (concat (map snd gs))) →
  StronglySorted Z.lt (map SI_Key (map sib gs)).
Proof.
  induction 1 as [|[x es] gs Hne Hf IH]; intros Hs; [constructor|]. cbn [map concat snd] in *. rewrite map_app in Hs. destruct es as [|e es]; [done|].
  constructor; [by eapply IH, StronglySorted_app_1_r|]. apply Forall_map, Forall_map, Forall_forall. intros [y es'] Hin. cbn [sib SI_Key snd].
  rewrite Forall_forall in Hf. specialize (Hf _ Hin). destruct es' as [|e' es']; [done|].
  apply (StronglySorted_app_1_elem_of Z.lt _ _ _ _ Hs); [by left|]. apply list_elem_of_fmap. exists e'. split; [done|].
  apply (elem_concat_le (e' :: es')); [|by left]. apply list_elem_of_fmap. by exists (y, e' :: es').
Qed.
Lemma sib_ok n g : ndb_wf n → sl_at n g → ke_wf (sib g) ∧ valid (sib g).
Proof.
  intros Hwf (Hi & Hw & (Hn & Hv & _) & Hh). destruct g as [b [|e es]]; [unfold blen in Hn; cbn in Hn; lia|]. cbn [fst snd] in *.
  apply Forall_cons in Hw as [(Hw & _ & _) _]. apply Forall_cons in Hv as [Hv _].
  assert (held n b) as Hd by (by eexists). destruct (held_child n XXBlockLevel b Hwf Hd) as [(Hb & Hr & _) Hf]; [by rewrite Hi|].
  split; [by split|]. unfold valid in *. cbn [ke_check_enc SIEntry_keyed SLEntry_keyed] in *. unfold check_SIEntry, checkSLEntry in *. cbn [sib SI_Key SI_Ref fst snd].
  destruct ((SL_NID e =? 0) || high_bits (SL_NID e)); [done|]. by rewrite (proj2 (Z.eqb_neq b 0)), Hr, Hi.
Qed.
Lemma buildSIRoot_Ok n gs : ndb_wf n → room n 1 → gs ≠ [] → blen gs ≤ MaxSIBlockEntries → Forall (sl_at n) gs →
  StronglySorted Z.lt (map SL_NID (concat (map snd gs))) →
  ∃ n' e tops, buildSIRoot (map sib gs) n = (n', Ok e) ∧ grows 1 n n' ∧ sub_shape n' (B_BID e) gs tops ∧ new_bids n n' tops.
Proof.
  intros Hwf Hr Hne Hl Hg Hs. destruct (decide (length gs = 1%nat)) as [H1|H1].
  { destruct gs as [|[b es] [|? ?]]; [done| |done]. apply Forall_cons in Hg as [Hg _]. pose proof Hg as (_ & _ & _ & e & He & _).
    destruct (ck_blocks _ _ _ (no_cat n (nw_ok n Hwf)) b e He) as (Hb & _). cbn [fst] in *.
    exists n, e, []. split_and!; [cbn [map buildSIRoot]; rewrite st_get_bind; cbn [sib SI_Ref fst]; by rewrite He|by apply (grows_mono 0), grows_refl; [lia|]| |by split; constructor].
    split; [by constructor|left]. exists es. by rewrite Hb. }
  set (ks := map sib gs).
  assert (Forall (λ k, ke_wf k ∧ valid k) ks) as Hks by (apply Forall_map; eapply Forall_impl; [exact Hg|]; intros g; by apply sib_ok).
  assert (entries_ok MaxSIBlockEntries ks) as Hok.
  { split; [unfold ks, blen in *; rewrite length_map; destruct gs; [done|cbn [length] in *; lia]|].
    split; [eapply Forall_impl; [exact Hks|]; by intros k [_ ?]|]. unfold keys_from. cbn [option_list app]. apply heads_sorted; [|done].
    eapply Forall_impl; [exact Hg|]. intros g (_ & _ & (Hn & _) & _) E. rewrite E in Hn. unfold blen in Hn. cbn in Hn. lia. }
  destruct (subnode_data_ok SIBlockLevel _ ks (or_intror eq_refl) Hok) as [Hb Hlen]; [by vm_compute|by vm_compute|].
  destruct (put_internal_Ok n _ Hwf Hr Hb Hlen) as (n1 & e & E1 & G1 & Hh & Hi & Hnew).
  assert (Forall (held n1) (map SI_Ref ks)) as Hheld.
  { unfold ks. rewrite map_map. apply Forall_map. eapply Forall_impl; [exact Hg|]. intros g (_ & _ & _ & Hd). eexists. by apply (gr_holds _ _ _ G1). }
  destruct (add_refs_Ok refSubnode _ n1 (gr_wf _ _ _ G1) Hheld) as (n2 & E2 & G2).
  exists n2, e, [B_BID e]. split_and!.
  - assert (∀ ks', length ks' ≠ 1%nat → buildSIRoot ks' = if MaxSIBlockEntries <? blen ks'
      then lift (limitErr "cEnt" "need %d SLBLOCKs, max %d in one SIBLOCK (MS-PST %s)" [blen ks'; MaxSIBlockEntries]) else
      do payload <- lift (EncodeSIBlock SIBlockLevel ks'); do blk <- put_internal payload; run_each AddSubnodeRef (map SI_Ref ks') ;; mret blk) as Hrun.
    { by intros [|k [|k' ks']]. }
    rewrite Hrun by (unfold ks; by rewrite length_map). pose proof Hok as [[_ Hmax] _]. rewrite (proj2 (Z.ltb_ge _ _)) by lia.
    assert (EncodeSIBlock SIBlockLevel ks = Ok (subnode_data SIBlockLevel ks)) as -> by (apply EncodeSIBlock_exact; split; [done|by split]).
    erewrite st_bind_Ok by reflexivity. erewrite st_bind_Ok by exact E1. by erewrite st_bind_Ok by exact E2.
  - by apply (grows_trans 1 0 _ n1).
  - split; [eapply Forall_impl; [exact Hg|]; intros g Hg'; by apply (sl_grows 0 n1), (sl_grows 1 n)|]. right. split; [|done].
    split; [done|]. split; [|split; [exact Hok|by apply (gr_holds _ _ _ G2)]]. eapply Forall_impl; [exact Hks|]. by intros k [? _].
  - destruct Hnew as [? Hf]. split; [done|]. eapply Forall_impl; [exact Hf|]. intros b Hb'. cbv beta in *. pose proof (gr_bids _ _ _ G2). lia.
Qed.
Lemma good_sls k n cs : Forall (λ c, c ≠ [] ∧ blen c ≤ MaxSLBlockEntries) cs →
  Forall (λ p : SLEntry * list Z, ke_wf p.1 ∧ valid p.1 ∧ roles k n p.1 p.2 ∧ NoDup p.2) (concat cs) →
  StronglySorted Z.lt (map (SL_NID ∘ fst) (concat cs)) → Forall (good_sl k n) cs.
Proof.
  induction 1 as [|c cs [Hne Hl] _ IH]; cbn [concat]; intros Hf Hs; [constructor|]. rewrite map_app in Hs. apply Forall_app in Hf as [Hf1 Hf2].
  constructor; [|apply IH; [done|by eapply StronglySorted_app_1_r]]. apply StronglySorted_app_1_l in Hs.
  split; [by apply Forall_map; eapply Forall_impl; [exact Hf1|]; intros p (?&?&?&?)|]. split; [split|split].
  - unfold blen in *. rewrite length_map. destruct c; [done|cbn [length] in *; lia].
  - split; [by apply Forall_map; eapply Forall_impl; [exact Hf1|]; intros p (?&?&?&?)|]. unfold keys_from. cbn [option_list app]. by rewrite map_map.
  - clear -Hf1. induction Hf1 as [|p c (_&_&?&_) _ IH]; [constructor|by constructor].
  - by apply Forall_map; eapply Forall_impl; [exact Hf1|]; intros p (?&?&?&?).
Qed.
(** Blocks of the tree: those of its own, and those of the trees below its entries. *)
Lemma tree_blocks_perm (gs : list (Z * list SLEntry)) (vss : list (list (list Z))) : length gs = length vss →
  concat (zip_with (λ g vs, g.1 :: concat vs) gs vss) ≡ₚ map fst gs ++ concat (concat vss).
Proof.
  revert vss. induction gs as [|g gs IH]; intros [|vs vss] Hl; try done. cbn [zip_with concat map app]. rewrite concat_app.
  constructor. rewrite IH by (by injection Hl). by rewrite Permutation_app_swap_app.
Qed.
Lemma roles_zip k n es vs : Forall2 (roles k n) es vs → Forall NoDup vs → Forall (λ e : SLEntry, ke_wf e ∧ valid e) es →
  Forall (λ p : SLEntry * list Z, ke_wf p.1 ∧ valid p.1 ∧ roles k n p.1 p.2 ∧ NoDup p.2) (zip es vs) ∧ map fst (zip es vs) = es ∧ map snd (zip es vs) = vs.
Proof.
  induction 1 as [|e v es vs Hr _ IH]; intros Hn He; [by split_and!|]. apply Forall_cons in Hn as [Hn Hns]. apply Forall_cons in He as [[He1 He2] Hes].
  destruct (IH Hns Hes) as (I1 & I2 & I3). cbn [zip zip_with map fst snd]. split_and!; [by constructor|congruence..].
Qed.
Lemma buildSubnodeTree_Ok k n es vs : ndb_wf n → es ≠ [] → Forall (λ e : SLEntry, ke_wf e ∧ valid e) es → StronglySorted Z.lt (map SL_NID es) →
  blen (chunks MaxSLBlockEntries es) ≤ MaxSIBlockEntries → Forall2 (roles k n) es vs → Forall NoDup vs → room n (blen (chunks MaxSLBlockEntries es) + 1) →
  ∃ n' e vis, buildSubnodeTree es n = (n', Ok e) ∧ grows (blen (chunks MaxSLBlockEntries es) + 1) n n' ∧ sub_tree (S k) n' (B_BID e) es vis ∧
    (NoDup (concat vs) → NoDup vis).
Proof.
  intros Hwf Hne Hes Hs Hmax Hr Hnd Hroom. destruct (roles_zip k n es vs Hr Hnd Hes) as (Z1 & Z2 & Z3). set (ps := zip es vs) in *.
  set (cs := chunks MaxSLBlockEntries ps). assert (chunks MaxSLBlockEntries es = map (map fst) cs) as Hch by (unfold cs; by rewrite <- Z2, chunks_map).
  assert (blen (chunks MaxSLBlockEntries es) = blen cs) as Hbl by (rewrite Hch; unfold blen; by rewrite length_map). rewrite Hbl in *.
  pose proof (blen_nonneg cs). assert (concat cs = ps) as Hcs by (by apply chunks_concat).
  assert (Forall (good_sl k n) cs) as Hg.
  { apply good_sls; [by apply chunks_each|by rewrite Hcs|]. rewrite Hcs.
    assert (map (SL_NID ∘ fst) ps = map SL_NID es) as -> by (by rewrite <- Z2, map_map). done. }
  destruct (build_sls_Ok k cs n Hwf ltac:(by eapply room_mono, Hroom; lia) Hg) as (n1 & gs & E1 & G1 & Hsnd & Hgs & N1).
  assert (concat (map snd gs) = es) as Hcat by (by rewrite Hsnd, <- concat_map, Hcs).
  assert (length gs = length cs) as Hlen by (apply (f_equal length) in Hsnd; by rewrite !length_map in Hsnd).
  destruct (buildSIRoot_Ok n1 gs (gr_wf _ _ _ G1)) as (n2 & e & tops & E2 & G2 & Hsh & N2).
  { by eapply grows_room; [exact G1|lia|]. }
  { intros E. apply Hne. by rewrite <- Hcat, E. }
  { unfold blen in *. by rewrite Hlen. }
  { done. }
  { by rewrite Hcat. }
  exists n2, e, (tops ++ concat (zip_with (λ (g : Z * list SLEntry) vs, g.1 :: concat vs) gs (map (map snd) cs))).
  split_and!; [|by apply (grows_trans _ _ _ n1)| |].
  - unfold buildSubnodeTree. rewrite Hch. by erewrite st_bind_Ok by exact E1.
  - exists gs, tops, (map (map snd) cs). split_and!; [done|done| |done]. assert (grows (blen cs + 1) n n2) as G by (by apply (grows_trans _ _ _ n1)).
    clear -Hg Hsnd G. revert G. generalize (blen cs + 1) as z. intros z G. revert gs Hsnd. induction Hg as [|c cs (_ & _ & Hr & _) _ IH]; intros [|[b l] gs] Hsnd; try done.
    cbn [map snd] in *. injection Hsnd as -> Hsnd. constructor; [|by apply IH]. cbn [snd]. eapply Forall2_impl; [exact Hr|].
    intros e v. by apply (roles_grows z).
  - intros Hnv. rewrite tree_blocks_perm by (by rewrite length_map). rewrite <- concat_map, Hcs, Z3.
    pose proof (gr_bids _ _ _ G1). pose proof (gr_bids _ _ _ G2).
    assert (new_bids n n2 (map fst gs ++ tops)) as [Hd1 Hd2] by (apply (new_bids_app n n1 n2); (done || lia)).
    rewrite app_assoc. apply NoDup_app. split_and!; [by rewrite Permutation_app_comm| |done].
    intros b Hb Hv. rewrite Forall_forall in Hd2. assert (b ∈ map fst gs ++ tops) as Hb' by set_solver. apply Hd2 in Hb'.
    assert (held n b) as (d & x & Hx & _).
    { assert (Forall (Forall (held n)) vs) as Hvs.
      { clear -Hr. induction Hr as [|e v es vs [_ Hsub] _ IH]; constructor; [|done]. destruct Hsub as [[_ ->]|[_ (es' & Ht)]]; [constructor|]. by apply sub_tree_held in Ht as [_ ?]. }
      apply Forall_concat in Hvs. rewrite Forall_forall in Hvs. by apply Hvs. }
    destruct (nw_ok n Hwf) as [_ [_ [? ?] Hbel]]. specialize (Hbel b ltac:(by exists x)). destruct Hroom as [_ Hroom]. destruct (nw_ok n2 (gr_wf _ _ _ G2)) as [_ [_ [? ?] _]].
    unfold bid_below in Hbel. lia.
Qed.
Lemma chunks_length {A} n (l l' : list A) : length l = length l' → blen (chunks n l) = blen (chunks n l').
Proof.
  intros Hl. assert (∀ k : list A, blen (chunks n k) = blen (chunks n (replicate (length k) tt))) as H; [|by rewrite !H, Hl].
  intros k. assert (replicate (length k) tt = map (λ _, tt) k) as -> by (induction k; cbn; congruence).
  rewrite chunks_map. unfold blen. by rewrite length_map.
Qed.
Lemma strict_order l : NoDup l → StronglySorted Z.le l → StronglySorted Z.lt l.
Proof.
  induction 2 as [|x l Hs IH Hf]; [constructor|]. apply NoDup_cons in H as [Hx Hd]. constructor; [by apply IH|].
  rewrite Forall_forall in *. intros y Hy. specialize (Hf y Hy). assert (x ≠ y) by (by intros ->). lia.
Qed.

(** C13: The entries of a node's subnodes come back in the order of their IDs,
    however they were given: [PutSubnodeTree] succeeds on entries with distinct
    IDs whose blocks are trees, every walk over the result meets exactly these
    entries in order, and other blocks and trees stay as they are.  The result
    passes [validateSubnodeTree] when no two entries share a subnode tree. *)
Theorem subnode_tree_roundtrip `{!SortSlice} k n entries vs : ndb_wf n → fits 63 (FileEOF (n_store n)) → entries ≠ [] →
  Forall (λ e : SLEntry, ke_wf e ∧ valid e) entries → NoDup (map SL_NID entries) → blen entries ≤ MaxSLBlockEntries * MaxSIBlockEntries →
  Forall2 (roles k n) entries vs → Forall NoDup vs → room n (blen (chunks MaxSLBlockEntries entries) + 1) →
  ∃ n' e vis, PutSubnodeTree entries n = (n', Ok e) ∧ ndb_wf n' ∧ sub_tree (S k) n' (B_BID e) (sort_by SL_NID entries) vis ∧
    (∀ A (fn : A → SLEntry → result A) a, WalkSubnodes n' (B_BID e) fn a = fold_each fn (sort_by SL_NID entries) a) ∧
    (NoDup (concat vs) → validateSubnodeTree n' (B_BID e) = Ok tt) ∧ (∀ bid d, holds n bid d → holds n' bid d) ∧
    (∀ j root es vis, sub_tree j n root es vis → sub_tree j n' root es vis).
Proof.
  intros Hwf Hf Hne Hes Hd Hlen Hr Hnd Hroom. set (es := sort_by SL_NID entries). pose proof (sort_by_perm SL_NID entries) as Hp. fold es in Hp.
  destruct (Permutation_Forall2 (symmetry Hp) Hr) as (vs' & Hpv & Hr').
  assert (blen es = blen entries) as Hbl by (unfold blen; by rewrite Hp).
  assert (blen (chunks MaxSLBlockEntries es) = blen (chunks MaxSLBlockEntries entries)) as Hch by (apply chunks_length; by rewrite Hp).
  set (n0 := beginTxn (capture n) n).
  assert (grows 0 n n0) as G0 by (by apply begin_grows).
  destruct (buildSubnodeTree_Ok k n0 es vs' (gr_wf _ _ _ G0)) as (n1 & e & vis & E & G1 & Ht & Hvis).
  { intros E. rewrite E in Hp. by apply Hne, Permutation_nil. }
  { by rewrite Hp. }
  { apply strict_order; [by rewrite Hp|apply sort_by_sorted]. }
  { rewrite Hch. pose proof (chunks_count MaxSLBlockEntries entries ltac:(done)). change MaxSLBlockEntries with 340 in *. change MaxSIBlockEntries with 510 in *. lia. }
  { eapply Forall2_impl; [exact Hr'|]. intros x v. by apply (roles_grows 0). }
  { by rewrite <- Hpv. }
  { rewrite Hch. eapply grows_room; [exact G0|pose proof (blen_nonneg (chunks MaxSLBlockEntries entries)); lia|done]. }
  assert (grows 0 n1 (end_txn n1)) as G2 by apply end_grows, G1.
  assert (grows (0 + (blen (chunks MaxSLBlockEntries es) + 1 + 0)) n (end_txn n1)) as G by (by apply (grows_trans _ _ _ n0), (grows_trans _ _ _ n1)).
  pose proof (sub_tree_grows _ _ _ G2 _ _ _ _ Ht) as Ht'. exists (end_txn n1), e, vis. split_and!; [|apply G|done| | |apply G|].
  - assert (PutSubnodeTree entries n = runTxn (buildSubnodeTree es) n) as -> by (unfold PutSubnodeTree; by destruct entries).
    unfold runTxn. cbv zeta. fold n0. by rewrite E.
  - intros A fn a. destruct Ht' as (gs & tops & vss & Hsh & -> & _). by apply (WalkSubnodes_Ok _ _ _ tops).
  - intros Hnv. specialize (Hvis ltac:(by rewrite <- Hpv)). destruct (sub_tree_held _ _ _ _ _ Ht') as [_ Hh]. pose proof (held_size _ _ Hvis Hh).
    unfold validateSubnodeTree. destruct (validate_at_Ok _ (gr_wf _ _ _ G) _ _ _ _ (S (S (size (n_blocks (end_txn n1))))) Ht' Hvis ltac:(lia) []) as (s & -> & _); [|done].
    intros b _. apply not_elem_of_nil.
  - intros j root es' vis'. by apply (sub_tree_grows _ _ _ G).
Qed.
#[export] Instance key_le_dec {A} (key : A → Z) : RelDecision (λ x y, key x ≤ key y).
Proof. intros x y. apply Z_le_dec. Defined.
Definition sort_key {A} (key : A → Z) (l : list A) : list A := merge_sort (λ x y, key x ≤ key y) l.
Lemma sort_key_perm {A} (key : A → Z) l : sort_key key l ≡ₚ l.
Proof. apply merge_sort_Permutation. Qed.
Lemma sort_key_sorted {A} (key : A → Z) l : StronglySorted Z.le (map key (sort_key key l)).
Proof.
  assert (StronglySorted (λ x y, key x ≤ key y) (sort_key key l)) as H.
  { apply StronglySorted_merge_sort; [intros x y z; lia|intros x y; lia]. }
  induction H as [|x l' Hs IH Hf]; [constructor|]. cbn [map]. constructor; [done|]. by apply Forall_map.
Qed.
#[export] Instance sort_slice : SortSlice := {| sort_by := @sort_key; sort_by_perm := @sort_key_perm; sort_by_sorted := @sort_key_sorted |}.
Lemma subnode_tree_roundtrip_witness :
  let a := mkSLEntry 0x671 0 0 in let b := mkSLEntry 0x692 0 0 in
  ∃ n' e, PutSubnodeTree [b; a] NewNDB = (n', Ok e) ∧ WalkSubnodes n' (B_BID e) (λ l x, mret (l ++ [x])) [] = Ok [a; b].
Proof.
  intros a b. destruct NewNDB_wf as (Hwf & Hn & Hc).
  assert (fits 63 (FileEOF (n_store NewNDB))) as Hf by (rewrite FileEOF_ok, Hc by (rewrite ?Hc; unfold region_ok; lia); done).
  assert (Forall (λ e : SLEntry, ke_wf e ∧ valid e) [b; a]) as He by (repeat constructor; by vm_compute).
  assert (NoDup (map SL_NID [b; a])) as Hd by (apply (bool_decide_unpack _); by vm_compute).
  assert (Forall2 (roles 0 NewNDB) [b; a] [[]; []]) as Hr by (repeat constructor; by left).
  assert (room NewNDB (blen (chunks MaxSLBlockEntries [b; a]) + 1)) as Hroom by (unfold room; rewrite Hn, Hc; by vm_compute).
  destruct (subnode_tree_roundtrip 0 NewNDB [b; a] [[]; []] Hwf Hf ltac:(done) He Hd ltac:(by vm_compute) Hr ltac:(repeat constructor) Hroom)
    as (n' & e & vis & E & _ & _ & Hw & _).
  exists n', e. split; [exact E|]. rewrite Hw. assert (sort_by SL_NID [b; a] = [a; b]) as -> by (by vm_compute). done.
Defined.
