(* ===== verification/V2Tree.v ===== *)
(** * Writer v2: the trees of pages ([src/writer/v2/ndb.go], [tx.go])

    [Encode] lays the catalog out as two B-trees of pages, [CommitTo] writes the
    whole file, [OpenNDB] reads it back.  The depth of calls over pages is a
    parameter, as the pages of a file may lead anywhere. *)
From S2P Require Import Prelude Format Ids State V2Base V2Disk V2Entries V2Pages V2Blocks V2Header V2Store V2Image V2Ndb V2Data V2Subnode.

(** ** Encoding *)
Definition metadataPageIB (ib : Z) : bool :=
  if ib =? DListPageOffset then true else
  match AMapIndexForOffset ib with
  | None => true
  | Some idx => existsb (λ p, MP_Offset p =? ib) (RegionMapPages idx)
  end.
Record TreeImage := mkTreeImage {
  TI_NBTRoot : BREF; TI_BBTRoot : BREF; TI_Pages : gmap Z bytes; TI_File : option bytes; TI_src : option (bytes * Z) }.
(** The entries of a level above, one per chunk of the level below. *)
Section encode_tree.
Context {St : Type} (ptype : Z) (alloc : bytes → Z → ST St BREF).
Definition put_page {A} `{KeyedEntry A} (encode : list A → result bytes) (chunk : list A) : ST St BTEntry :=
  do payload <- lift (encode chunk);
  do ref <- alloc payload ptype;
  match chunk with e :: _ => mret (mkBTEntry (ke_key e) ref) | [] => lift Panic end.
Fixpoint index_levels (fuel : nat) (level : Z) (refs : list BTEntry) : ST St BREF :=
  match fuel with
  | O => lift Panic
  | S fuel =>
    match refs with
    | [] => lift Panic
    | [r] => mret (K_Ref r)
    | _ =>
      let level := u8 (level + 1) in
      do next <- mapM_st (put_page (encodeBTPayload ptype level [] [])) (chunks MaxBTNonleafEntries refs);
      index_levels fuel level next
    end
  end.
Definition encodeTree {A} `{KeyedEntry A} (leaves : list A) (encodeLeaf : list A → result bytes) (maxLeaf : Z) : ST St BREF :=
  if maxLeaf <? 1 then lift (invalidArg "cEntMax" "max leaf entries %d" [maxLeaf]) else
  match leaves with
  | [] => do payload <- lift (encodeLeaf []); alloc payload ptype
  | _ =>
    do refs <- mapM_st (put_page encodeLeaf) (chunks maxLeaf leaves);
    index_levels (S (length leaves)) 0 refs
  end.
End encode_tree.

(** The variables of [Encode]: the catalog, the pages so far, the places taken. *)
Record EncState := mkEnc { es_ndb : NDB; es_pages : gmap Z bytes; es_new : list Z }.
Definition on_ndb {A} (m : ST NDB A) : ST EncState A := zoom es_ndb (λ st n, mkEnc n (es_pages st) (es_new st)) m.
Definition enc_alloc (payload : bytes) (ptype : Z) : ST EncState BREF :=
  do ib <- on_ndb (on_store AllocatePage);
  modify (λ st, mkEnc (es_ndb st) (es_pages st) (es_new st ++ [ib])) ;;
  do bid <- on_ndb (on_store takePageBID);
  if bid =? ib then lift (invariant "2.2.2.2" "bid" "page BID 0x%x equals file offset (MS-PST %s)" [bid]) else
  if negb (ib mod PageSize =? 0) then lift (invariant "2.2.2.7.7.1" "ib" "page IB 0x%x is not 512-byte aligned" [ib]) else
  if metadataPageIB ib then lift (invariant "2.2.2.7.2" "ib" "tree page IB 0x%x collides with metadata" [ib]) else
  do raw <- lift (EncodePage payload ptype bid ib);
  modify (λ st, mkEnc (es_ndb st) (<[ib := raw]> (es_pages st)) (es_new st)) ;;
  mret (mkBREF bid ib).

Section loops.
Context `{!MapOrder} `{!SortSlice}.
Definition sortNBT (s : list NBTEntry) : list NBTEntry := sort_by N_NID s.
Definition sortBBT (s : list BBTEntry) : list BBTEntry := sort_by B_BID s.
Definition sortedNodes (n : NDB) : list NBTEntry := sortNBT (map snd (range (n_nodes n))).
Definition ownedBlocks (n : NDB) : list BBTEntry :=
  sortBBT (filter (λ e, nbtLiveRefs (n_cat n) (B_BID e) + extraLiveRefs (n_cat n) (B_BID e) ≠ 0) (map snd (range (n_blocks n)))).
Definition syncRgNID : ST NDB unit :=
  do n <- get; on_store (upd_state (λ t, set_nids t (nid (cs_ids (n_cat n))))).
Definition encode_trees : ST EncState (BREF * BREF) :=
  do st <- get;
  do nbtRoot <- encodeTree PageNBT enc_alloc (sortedNodes (es_ndb st)) (λ chunk, encodeBTPayload PageNBT 0 chunk [] []) MaxNBTLeafEntries;
  do bbtRoot <- encodeTree PageBBT enc_alloc (ownedBlocks (es_ndb st)) (λ chunk, encodeBTPayload PageBBT 0 [] chunk []) MaxBBTLeafEntries;
  do st <- get;
  run_each (λ ib, on_ndb (on_store (Free ib PageSize))) (cs_livePages (n_cat (es_ndb st))) ;;
  mret (nbtRoot, bbtRoot).
Definition rollback (ibs : list Z) : ST NDB unit := run_each (λ ib, ignore_err (on_store (Free ib PageSize))) ibs.
Definition encode_all : ST NDB TreeImage := λ n,
  match encode_trees (mkEnc n ∅ []) with
  | (st, Ok (nbtRoot, bbtRoot)) =>
    (upd_cat (cat_pages (es_new st)) ;; on_store (SetTreeRoots nbtRoot bbtRoot) ;;
     mret (mkTreeImage nbtRoot bbtRoot (es_pages st) None None)) (es_ndb st)
  | (st, Err e) => (rollback (es_new st) ;; fail e) (es_ndb st)
  | (st, Panic) => (es_ndb st, Panic)
  end.
Definition Encode : ST NDB TreeImage :=
  syncRgNID ;;
  reclaimOrphans ;;
  do n <- get;
  lift (CheckRefCounts n) ;;
  encode_all.
End loops.

(** ** Reading the trees *)
Definition rawAt (img : TreeImage) (ib : Z) : result bytes :=
  match TI_Pages img !! ib with
  | Some raw => mret raw
  | None =>
    let missing := invariant "2.2.2.7.7.1" "ib" "missing page at IB 0x%x" [ib] in
    let from_src :=
      match TI_src img with
      | Some (src, srcSize) =>
        if u64 (ib + PageSize) <=? srcSize
        then read_or (readAtFull src ib PageSize) (invariant "2.2.2.7.7.1" "ib" "read page at 0x%x: %v" [ib])
        else missing
      | None => missing
      end in
    match TI_File img with
    | Some file => if u64 (ib + PageSize) <=? blen file then slice file ib (u64 (ib + PageSize)) else from_src
    | None => from_src
    end
  end.
Definition page (img : TreeImage) (ref : BREF) : result BTPageView :=
  raw ← rawAt img (BREF_IB ref);
  v ← InspectBTPage raw (BREF_IB ref);
  if negb (PV_BID (BTV_Page v) =? BREF_BID ref)
  then invariant "2.2.2.2" "bid" "page BID 0x%x want 0x%x" [PV_BID (BTV_Page v); BREF_BID ref] else mret v.
Fixpoint descend (depth : nat) (img : TreeImage) (v : BTPageView) (key : Z) : result BTPageView :=
  if BTV_Level v =? 0 then mret v else
  match depth with
  | O => Panic
  | S depth =>
    match chooseChild (BTV_Kids v) key with
    | None => invariant "2.2.2.7.7.2" "btkey" "key 0x%x is below first child key" [key]
    | Some i =>
      match BTV_Kids v !! i with
      | None => Panic
      | Some k => v ← page img (K_Ref k); descend depth img v key
      end
    end
  end.
Definition walk (depth : nat) (img : TreeImage) (root : BREF) (key : Z) : result BTPageView :=
  v ← page img root; descend depth img v key.
Definition LookupNode (depth : nat) (img : TreeImage) (nid : Z) : result NBTEntry :=
  v ← walk depth img (TI_NBTRoot img) nid;
  match list_find (λ e, N_NID e = nid) (BTV_NBT v) with
  | Some (_, e) => mret e
  | None => invariant "2.2.2.7.7.4" "nid" "NID 0x%x not found" [nid]
  end.
Definition TreeImage_LookupBlock (depth : nat) (img : TreeImage) (bid : Z) : result BBTEntry :=
  v ← walk depth img (TI_BBTRoot img) bid;
  match list_find (λ e, B_BID e = bid) (BTV_BBT v) with
  | Some (_, e) => mret e
  | None => invariant "2.2.2.7.7.3" "bid" "BID 0x%x not found" [bid]
  end.
Fixpoint walkLeaves {A} (depth : nat) (img : TreeImage) (fn : A → BTPageView → result A) (root : BREF) (a : A) : result A :=
  match depth with
  | O => Panic
  | S depth =>
    v ← page img root;
    if BTV_Level v =? 0 then fn a v
    else fold_each (λ a k, walkLeaves depth img fn (K_Ref k) a) (BTV_Kids v) a
  end.
Definition WalkNBT {A} (depth : nat) (img : TreeImage) (fn : A → NBTEntry → result A) (a : A) : result A :=
  walkLeaves depth img (λ a v, fold_each fn (BTV_NBT v) a) (TI_NBTRoot img) a.
Definition WalkBBT {A} (depth : nat) (img : TreeImage) (fn : A → BBTEntry → result A) (a : A) : result A :=
  walkLeaves depth img (λ a v, fold_each fn (BTV_BBT v) a) (TI_BBTRoot img) a.

(** ** Checking the trees *)
Definition seen_pages : Type := gmap Z Z * list Z.
(** A page and all below it; its first key. *)
Fixpoint check_page (depth : nat) (img : TreeImage) (wantType : Z) (ref : BREF) : ST seen_pages Z :=
  match depth with
  | O => lift Panic
  | S depth =>
    let ib := BREF_IB ref in
    if negb (ib mod PageSize =? 0) then lift (invariant "2.2.2.7.7.1" "ib" "page IB 0x%x is not 512-byte aligned" [ib]) else
    if metadataPageIB ib then lift (invariant "2.2.2.7.2" "ib" "tree page IB 0x%x collides with metadata" [ib]) else
    do seen <- get;
    if bool_decide (ib ∈ seen.2) then lift (invariant "2.2.2.7.7.1" "ib" "duplicate page IB 0x%x" [ib]) else
    modify (λ seen, (seen.1, ib :: seen.2)) ;;
    do v <- lift (page img ref);
    if negb (BTV_Type v =? wantType)
    then lift (invariant "2.2.2.7.7.1" "ptype" "got 0x%02x want 0x%02x" [BTV_Type v; wantType]) else
    let bid := PV_BID (BTV_Page v) in
    if bid =? ib then lift (invariant "2.2.2.2" "bid" "page BID equals IB 0x%x" [ib]) else
    match seen.1 !! bid with
    | Some prev => lift (invariant "2.2.2.2" "bid" "duplicate page BID 0x%x (IB 0x%x and 0x%x)" [bid; prev; ib])
    | None =>
      modify (λ seen, (<[bid := ib]> seen.1, seen.2)) ;;
      if BTV_Level v =? 0 then if BTV_Count v =? 0 then mret 0 else lift (firstKey v) else
      do fks <- mapM_st (λ k,
        do fk <- check_page depth img wantType (K_Ref k);
        if negb (K_Key k =? fk)
        then lift (invariant "2.2.2.7.7.2" "btkey" "separator 0x%x is not child first key 0x%x (MS-PST %s)" [K_Key k; fk])
        else mret fk) (BTV_Kids v);
      mret (default 0 (head fks))
    end
  end.
Section reopening.
Context `{!MapOrder} (depth : nat).
Definition add_bbt (bbt : gmap Z BBTEntry) (e : BBTEntry) : result (gmap Z BBTEntry) :=
  match bbt !! B_BID e with
  | Some _ => invariant "2.2.2.7.7.3" "bid" "duplicate BBT BID 0x%x" [B_BID e]
  | None =>
    if B_RefCount e <? 2 then invariant "2.2.2.7.7.3.1" "cRef" "orphan BBT cRef=%d for BID 0x%x (MS-PST %s)" [B_RefCount e; B_BID e]
    else mret (<[B_BID e := e]> bbt)
  end.
Definition count_node (bbt : gmap Z BBTEntry) (refs : gmap Z Z) (e : NBTEntry) : result (gmap Z Z) :=
  fold_each (λ refs bid,
    if bid =? 0 then mret refs else
    match bbt !! bid with
    | None => invariant "2.2.2.7.7.3.1" "bid" "NBT 0x%x references missing BID 0x%x" [N_NID e; bid]
    | Some _ => mret (<[bid := count_of refs bid + 1]> refs)
    end) [N_DataBID e; N_SubBID e] refs.
Definition CheckTrees (img : TreeImage) : result unit :=
  let '(seen, r) := check_page depth img PageNBT (TI_NBTRoot img) (∅, []) in
  _ ← r;
  _ ← (check_page depth img PageBBT (TI_BBTRoot img) seen).2;
  bbt ← WalkBBT depth img add_bbt ∅;
  nbtRefs ← WalkNBT depth img (count_node bbt) ∅;
  each (λ '(bid, e),
    if B_RefCount e <? u16 (1 + count_of nbtRefs bid)
    then invariant "2.2.2.7.7.3.1" "cRef" "BID 0x%x cRef %d < 1+NBT %d" [bid; B_RefCount e; count_of nbtRefs bid] else mret tt)
    (range bbt).
Definition RootLevel (img : TreeImage) (root : BREF) : result Z := v ← page img root; mret (BTV_Level v).
Definition OpenTreesFrom (r : bytes) (size : Z) : result TreeImage :=
  if size <? UnicodeHeaderSize then invariant "2.2.2.6" "size" "file is %d bytes, need header" [size] else
  hdr ← read_or (readAtFull r 0 UnicodeHeaderSize) (invariant "2.2.2.6" "size" "header read: %v" []);
  h ← InspectHeader hdr;
  let root := HV_Root h in
  if (RV_NBTBID root =? 0) || (RV_BBTBID root =? 0)
  then invariant "2.2.2.5" "bref" "header NBT/BBT BREF is null (MS-PST %s)" [] else
  let img := mkTreeImage (mkBREF (RV_NBTBID root) (RV_NBTIB root)) (mkBREF (RV_BBTBID root) (RV_BBTIB root)) ∅ None (Some (r, u64 size)) in
  CheckTrees img ;; mret img.
Definition OpenTrees (file : bytes) : result TreeImage := OpenTreesFrom file (blen file).
Fixpoint collect_pages (d : nat) (img : TreeImage) (ref : BREF) (ibs : list Z) : result (list Z) :=
  match d with
  | O => Panic
  | S d =>
    v ← page img ref;
    let ibs := ibs ++ [BREF_IB ref] in
    if BTV_Level v =? 0 then mret ibs else fold_each (λ ibs k, collect_pages d img (K_Ref k) ibs) (BTV_Kids v) ibs
  end.
Definition collectPageIBs (img : TreeImage) : result (list Z) :=
  ibs ← collect_pages depth img (TI_NBTRoot img) []; collect_pages depth img (TI_BBTRoot img) ibs.

(** ** Reopening *)
Definition idsFromStore (s : Store) : SequentialIDs :=
  let ids := NewSequentialIDs in let t := st_state s in
  mkIDs (StartIndex ids) (ss_nids t) (ss_bidNextB t) (ss_bidNextP t) (unique ids) (keys ids).
Definition bump (kind : extraRef) (bid : Z) : ST NDB unit :=
  upd_cat (λ c, let m := extraMap kind c in cat_extra kind (<[bid := count_of m bid + 1]> m) c).
Definition reconstructTreeRefs : ST NDB unit :=
  do n <- get;
  run_each (λ '(bid, e),
    if negb (BIDIsInternal bid) then mret tt else
    match blockPayload (n_store n) e with
    | Panic => lift Panic
    | Err _ => mret tt
    | Ok data =>
      match data with
      | [] => mret tt
      | ty :: _ =>
        if ty =? BlockTypeXBlock then
          do xb <- lift (InspectXBlock data);
          lift (validateDataTree n bid) ;;
          run_each (bump refDataTree) (XV_BIDs xb)
        else if ty =? V2BlockTypeSubnode then
          lift (validateSubnodeTree n bid) ;;
          do sn <- lift (InspectSubnodeBlock data);
          if SV_Level sn =? 0 then
            run_each (λ ent, run_each (λ b, if negb (b =? 0) then bump refSubnode b else mret tt) [SL_DataBID ent; SL_SubBID ent]) (SV_Leaves sn)
          else run_each (bump refSubnode) (map SI_Ref (SV_Kids sn))
        else mret tt
      end
    end) (range (n_blocks n)).
Definition applyExtraRefs : ST NDB unit :=
  do n <- get;
  let c := n_cat n in
  run_each (λ '(bid, e),
    let nbt := nbtLiveRefs c bid in
    let extra := B_RefCount e - 1 - nbt in
    if extra <? 0 then lift (invariant "2.2.2.7.7.3.1" "cRef" "BID 0x%x cRef %d < 1+NBT %d" [bid; B_RefCount e; nbt]) else
    let typed := count_of (cs_dataTreeRefs c) bid + count_of (cs_subnodeRefs c) bid in
    if extra <? typed
    then lift (invariant "2.2.2.7.7.3.1" "cRef" "BID 0x%x typed extra %d > leftover %d" [bid; typed; extra]) else
    if 0 <? extra - typed
    then upd_cat (λ c, cat_refs (cs_dataTreeRefs c) (cs_subnodeRefs c) (<[bid := extra - typed]> (cs_opaqueRefs c)) c)
    else mret tt) (range (n_blocks n)).
Definition load_block (e : BBTEntry) : ST NDB unit :=
  upd_cat (λ c, cat_blocks (<[B_BID e := e]> (cs_blocks c)) c) ;; on_store (noteBlockBID (B_BID e)).
Definition load_node (e : NBTEntry) : ST NDB unit := upd_cat (λ c, cat_nodes (<[N_NID e := e]> (cs_nodes c)) c).
(** A walk whose visitor changes the catalog; after an error the catalog is
    thrown away. *)
Definition walk_each {E} (walk : ∀ A, (A → E → result A) → A → result A) (f : E → ST NDB unit) : ST NDB unit := λ n,
  match walk NDB (λ n e, match f e n with (n, Ok tt) => mret n | (_, Err err) => Err err | (_, Panic) => Panic end) n with
  | Ok n => (n, Ok tt)
  | Err e => (n, Err e)
  | Panic => (n, Panic)
  end.
Definition hydrateNDB (img : TreeImage) : ST NDB unit :=
  walk_each (λ A fn, WalkBBT depth img fn) load_block ;;
  walk_each (λ A fn, WalkNBT depth img fn) load_node ;;
  reconstructTreeRefs ;;
  applyExtraRefs ;;
  do pages <- lift (collectPageIBs img);
  upd_cat (cat_pages pages) ;;
  modify (λ n, let i := cs_ids (n_cat n) in let t := st_state (n_store n) in
    with_cat n (cat_ids (n_cat n) (mkIDs (StartIndex i) (nid i) (ss_bidNextB t) (ss_bidNextP t) (unique i) (keys i)))) ;;
  do n <- get;
  lift (CheckRefCounts n).
Definition OpenNDBFrom (r : bytes) (size : Z) : result NDB :=
  store ← LoadStoreFrom r size;
  img ← OpenTreesFrom r size;
  let '(n, res) := hydrateNDB img (mkNDB store (mkCatalog (idsFromStore store) ∅ ∅ ∅ ∅ ∅ [])) in
  res ;; mret n.
Definition OpenNDB (file : bytes) : result NDB := OpenNDBFrom file (blen file).
Definition LoadTrees (img : TreeImage) : result NDB :=
  match TI_File img with
  | Some file => OpenNDB file
  | None =>
    CheckTrees img ;;
    let '(n, res) := (walk_each (λ A fn, WalkBBT depth img fn) (λ e, occupyExtent e ;; upd_cat (λ c, cat_blocks (<[B_BID e := e]> (cs_blocks c)) c)) ;;
      walk_each (λ A fn, WalkNBT depth img fn) load_node ;; applyExtraRefs ;; do n <- get; lift (CheckRefCounts n)) NewNDB in
    res ;; mret n
  end.
End reopening.

(** ** Committing *)
Section commit.
Context `{!MapOrder} `{!SortSlice}.
(** The body of the file, then the pages of the trees. *)
Definition writeCommit (s : Store) (img : TreeImage) : ST trace Store :=
  let u := u32 (ss_unique (st_state s) + 1) in
  let s := with_state s (set_unique (st_state s) (if u =? 0 then 1 else u)) in
  writeTwoPhase s (writeBody s ;; write_all (range (TI_Pages img))).
(** [CommitTo] a destination in memory that is not the source: what is written to
    it, and the catalog afterwards.  The stage becomes the source before the
    destination is touched. *)
Definition CommitTo (dst : bytes) : NDB → NDB * result trace := λ n,
  let snap := capture n in
  let abort (n : NDB) (e : error) := (end_txn (restore snap n), Err e) in
  match Encode (beginTxn snap n) with
  | (n, Err e) => abort n e
  | (n, Panic) => (n, Panic)
  | (n, Ok img) =>
    match writeCommit (n_store n) img [] with
    | (_, Err e) => abort n e
    | (_, Panic) => (n, Panic)
    | (tr, Ok s) =>
      let stage := run_ops [] tr in
      let adopted (io : bytes) := end_txn (with_store n (mkStore (st_state s) (Some io) None (st_undo s))) in
      match publishSink s stage [] with
      | (tr', Ok _) => (adopted (run_ops dst tr'), Ok tr')
      | (_, Err e) => (adopted stage, Err e)
      | (_, Panic) => (adopted stage, Panic)
      end
    end
  end.
Definition Commit (n : NDB) : NDB * result bytes :=
  match CommitTo [] n with (n, Ok tr) => (n, Ok (run_ops [] tr)) | (n, Err e) => (n, Err e) | (n, Panic) => (n, Panic) end.
End commit.
