(* ===== verification/V2PageTree.v ===== *)
(** * Writer v2: trees of pages, read

    [ptree h t] says that the page [t_ref t] is the root of a tree of height [h]
    over the entries [t_es t], made of the pages [t_refs t].  Over such a tree the
    searches find exactly the entries, the walks visit them in order, and the
    checks pass. *)
From S2P Require Import Prelude State V2Base V2Disk V2Entries V2Pages V2Store V2Ndb V2Subnode V2SubTree V2Tree.

(** ** A page and its tree *)
Definition shows (v : BTPageView) (p : tree_page) : Prop :=
  view_page v = p ∧ BTV_Type v = tp_type p ∧ BTV_Level v = tp_level p ∧ BTV_Count v = tp_count p.
(** [img] has page [p] at [ref]. *)
Definition page_is (img : TreeImage) (ref : BREF) (p : tree_page) : Prop :=
  ∃ v, page img ref = Ok v ∧ shows v p ∧ PV_BID (BTV_Page v) = BREF_BID ref.
Lemma shows_nbt v es : shows v (NBTPage es) → BTV_NBT v = es.
Proof. intros (Hv & Ht & Hl & _). unfold view_page in Hv. rewrite Ht, Hl in Hv. cbn in Hv. congruence. Qed.
Lemma shows_bbt v es : shows v (BBTPage es) → BTV_BBT v = es.
Proof. intros (Hv & Ht & Hl & _). unfold view_page in Hv. rewrite Ht, Hl in Hv. cbn in Hv. congruence. Qed.
Lemma shows_kids v pt h es : shows v (KidsPage pt (Z.of_nat (S h)) es) → BTV_Kids v = es.
Proof.
  intros (Hv & _ & Hl & _). unfold view_page in Hv. rewrite Hl in Hv. cbn [tp_level] in Hv.
  rewrite (proj2 (Z.eqb_neq _ 0)) in Hv by lia. congruence.
Qed.

Record subtree (A : Type) := mkSub { t_ref : BREF; t_es : list A; t_refs : list BREF }.
Arguments mkSub {A}. Arguments t_ref {A}. Arguments t_es {A}. Arguments t_refs {A}.
Section ptree.
Context {A} `{!KeyedEntry A} (leaf : list A → tree_page) (is_page : BREF → tree_page → Prop).
Definition first_key (es : list A) : Z := match es with e :: _ => ke_key e | [] => 0 end.
Definition kid (t : subtree A) : BTEntry := mkBTEntry (first_key (t_es t)) (t_ref t).
Fixpoint ptree (h : nat) (t : subtree A) : Prop :=
  match h with
  | O => is_page (t_ref t) (leaf (t_es t)) ∧ t_refs t = [t_ref t]
  | S h' => ∃ ts, is_page (t_ref t) (KidsPage (tp_type (leaf [])) (Z.of_nat h) (map kid ts)) ∧ ts ≠ [] ∧
      Forall (λ u, t_es u ≠ [] ∧ ptree h' u) ts ∧
      t_es t = concat (map t_es ts) ∧ t_refs t = t_ref t :: concat (map t_refs ts)
  end.
End ptree.
Lemma ptree_mono {A} `{!KeyedEntry A} leaf (P Q : BREF → tree_page → Prop) h : (∀ ref p, P ref p → Q ref p) →
  ∀ t : subtree A, ptree leaf P h t → ptree leaf Q h t.
Proof.
  intros HPQ. induction h as [|h IH]; intros t; cbn [ptree]; [intros [? ?]; auto|].
  intros (ts & Hp & Hne & Hf & He). exists ts. split_and!; [auto|done| |apply He..].
  eapply Forall_impl; [exact Hf|]. intros u [? ?]. auto.
Qed.

(** ** Searching and walking *)
Section reading.
Context {A} `{!KeyedEntry A} (leaf : list A → tree_page) (img : TreeImage).
Hypothesis leaf_level : ∀ es, tp_level (leaf es) = 0.
Abbreviation tree := (ptree leaf (page_is img)).
Abbreviation keys es := (map ke_key es).

Lemma tree_page_at h t : tree h t → ∃ v, page img (t_ref t) = Ok v ∧ BTV_Level v = Z.of_nat h ∧ PV_BID (BTV_Page v) = BREF_BID (t_ref t).
Proof.
  destruct h; cbn [ptree].
  - intros [(v & Hv & (_ & _ & Hl & _) & Hb) _]. exists v. by rewrite leaf_level in Hl.
  - intros (ts & (v & Hv & (_ & _ & Hl & _) & Hb) & _). by exists v.
Qed.

Lemma sorted_parts (ls : list (list A)) : StronglySorted Z.lt (keys (concat ls)) →
  (∀ l, l ∈ ls → StronglySorted Z.lt (keys l)) ∧
  (∀ (i j : nat) l l' e e', (i < j)%nat → ls !! i = Some l → ls !! j = Some l' → e ∈ l → e' ∈ l' → ke_key e < ke_key e').
Proof.
  induction ls as [|l0 ls IH]; cbn [concat]; intros Hs; [split; [by intros ? ?%not_elem_of_nil|done]|].
  rewrite map_app in Hs. destruct (IH (StronglySorted_app_1_r _ _ _ Hs)) as [H1 H2].
  pose proof (StronglySorted_app_1_l _ _ _ Hs) as Hl. split.
  - intros l [->|?]%elem_of_cons; auto.
  - intros [|i] [|j] l l' e e' Hij Hi Hj He He'; try lia; cbn in Hi, Hj; [|apply (H2 i j l l'); (done || lia)].
    injection Hi as <-. apply (StronglySorted_app_1_elem_of Z.lt _ _ _ _ Hs); [by apply list_elem_of_fmap_2|].
    apply list_elem_of_fmap_2, list_elem_of_In, in_concat. exists l'. split; apply list_elem_of_In; [by eapply list_elem_of_lookup_2|done].
Qed.
Lemma first_key_le (l : list A) e : StronglySorted Z.lt (keys l) → e ∈ l → first_key l ≤ ke_key e.
Proof.
  destruct l as [|x l]; [by intros _ ?%not_elem_of_nil|]. cbn. intros [_ Hx]%StronglySorted_inv [->|He]%elem_of_cons; [lia|].
  rewrite Forall_forall in Hx. specialize (Hx (ke_key e)). cut (ke_key x < ke_key e); [lia|]. by apply Hx, list_elem_of_fmap_2.
Qed.
Lemma first_key_in (l : list A) : l ≠ [] → ∃ e, e ∈ l ∧ first_key l = ke_key e.
Proof. destruct l as [|x l]; [done|]. intros _. exists x. split; [left|done]. Qed.
Lemma kids_sorted (ts : list (subtree A)) : Forall (λ u, t_es u ≠ []) ts → StronglySorted Z.lt (keys (concat (map t_es ts))) →
  StronglySorted Z.lt (map K_Key (map kid ts)).
Proof.
  induction ts as [|u ts IH]; [constructor|]. intros [Hu Hne]%Forall_cons Hs. cbn [map] in *. cbn [concat] in Hs.
  rewrite map_app in Hs. constructor; [by apply IH, (StronglySorted_app_1_r _ _ _ Hs)|].
  apply Forall_forall. intros k (b & -> & (w & -> & Hw)%list_elem_of_fmap)%list_elem_of_fmap.
  rewrite Forall_forall in Hne. destruct (first_key_in _ Hu) as (e & He & Ee), (first_key_in _ (Hne w Hw)) as (e' & He' & Ee').
  cbn [K_Key kid]. rewrite Ee, Ee'. apply (StronglySorted_app_1_elem_of Z.lt _ _ _ _ Hs); [by apply list_elem_of_fmap_2|].
  apply list_elem_of_fmap_2, list_elem_of_In, in_concat. exists (t_es w).
  split; apply list_elem_of_In; [by apply list_elem_of_fmap_2|done].
Qed.
(** The child chosen is the one that can hold the key. *)
Lemma choose_subtree (ts : list (subtree A)) key : Forall (λ u, t_es u ≠ []) ts → StronglySorted Z.lt (keys (concat (map t_es ts))) →
  match chooseChild (map kid ts) key with
  | None => ∀ e, e ∈ concat (map t_es ts) → ke_key e ≠ key
  | Some c => ∃ u, ts !! c = Some u ∧ ∀ e, e ∈ concat (map t_es ts) → ke_key e = key → e ∈ t_es u
  end.
Proof.
  intros Hne Hs. pose proof (chooseChild_exact (map kid ts) key (kids_sorted ts Hne Hs)) as Hc.
  destruct (sorted_parts _ Hs) as [Hs1 Hs2].
  assert (∀ e, e ∈ concat (map t_es ts) → ∃ i u, ts !! i = Some u ∧ e ∈ t_es u ∧ K_Key (kid u) ≤ ke_key e) as Hfind.
  { intros e (l & Hl & He)%list_elem_of_In%in_concat. apply list_elem_of_In in Hl, He.
    apply list_elem_of_fmap in Hl as (u & -> & Hu). apply list_elem_of_lookup_1 in Hu as [i Hi]. exists i, u. split_and!; [done|done|].
    apply first_key_le; [|done]. apply Hs1, list_elem_of_fmap_2. by eapply list_elem_of_lookup_2. }
  destruct (chooseChild (map kid ts) key) as [c|].
  - destruct Hc as [Hlen Hc]. rewrite length_map in Hlen. destruct (lookup_lt_is_Some_2 ts c Hlen) as [u Hu]. exists u. split; [done|].
    intros e He <-. destruct (Hfind e He) as (i & w & Hi & Hew & Hle).
    assert (i ≤ c)%nat as Hic by (apply (Hc i (kid w)); [by rewrite list_lookup_fmap, Hi|done]).
    destruct (decide (i = c)) as [->|Hn]; [congruence|]. exfalso.
    assert (K_Key (kid u) ≤ ke_key e) as Hku by (apply (Hc c (kid u)); [by rewrite list_lookup_fmap, Hu|done]).
    rewrite Forall_forall in Hne. destruct (first_key_in (t_es u)) as (e' & He' & Ee'); [apply Hne; by eapply list_elem_of_lookup_2|].
    assert (ke_key e < ke_key e'); [|cbn in Hku; lia].
    apply (Hs2 i c (t_es w) (t_es u)); [lia|by rewrite list_lookup_fmap, Hi|by rewrite list_lookup_fmap, Hu|done|done].
  - intros e He <-. destruct (Hfind e He) as (i & w & Hi & Hew & Hle).
    specialize (Hc (kid w)). cut (ke_key e < K_Key (kid w)); [lia|]. apply Hc, list_elem_of_fmap_2. by eapply list_elem_of_lookup_2.
Qed.

Lemma descend_tree key h : ∀ t v depth, tree h t → page img (t_ref t) = Ok v → (h ≤ depth)%nat → StronglySorted Z.lt (keys (t_es t)) →
  match descend depth img v key with
  | Ok v => ∃ es, shows v (leaf es) ∧ (∀ e, e ∈ es → e ∈ t_es t) ∧ ∀ e, e ∈ t_es t → ke_key e = key → e ∈ es
  | Err _ => ∀ e, e ∈ t_es t → ke_key e ≠ key
  | Panic => False
  end.
Proof.
  induction h as [|h IH]; intros t v depth Ht Hv Hd Hs.
  - destruct Ht as [(v' & Hv' & Hsh & _) _]. rewrite Hv in Hv'. injection Hv' as <-.
    assert (BTV_Level v = 0) as Hl by (destruct Hsh as (_ & _ & Hl & _); by rewrite leaf_level in Hl).
    destruct depth; cbn [descend]; rewrite Hl; cbn; by exists (t_es t).
  - destruct Ht as (ts & (v' & Hv' & Hsh & _) & _ & Hf & He & _). rewrite Hv in Hv'. injection Hv' as <-.
    pose proof (shows_kids v _ _ _ Hsh) as Hk. destruct Hsh as (_ & _ & Hl & _). cbn [tp_level] in Hl.
    destruct depth as [|depth]; [lia|]. cbn [descend]. rewrite Hl, Hk. rewrite (proj2 (Z.eqb_neq _ 0)) by lia.
    rewrite He in Hs |- *.
    assert (Forall (λ u, t_es u ≠ []) ts) as Hne by (eapply Forall_impl; [exact Hf|]; by intros u [? _]).
    pose proof (choose_subtree ts key Hne Hs) as Hc. destruct (chooseChild (map kid ts) key) as [c|]; [|done].
    destruct Hc as (u & Hu & Hc). rewrite list_lookup_fmap, Hu. cbn [fmap option_fmap option_map K_Ref kid].
    pose proof (list_elem_of_lookup_2 _ _ _ Hu) as Hin. rewrite Forall_forall in Hf. destruct (Hf u Hin) as [_ Htu].
    destruct (tree_page_at h u Htu) as (v1 & Hv1 & _). rewrite Hv1, bind_Ok.
    assert (StronglySorted Z.lt (keys (t_es u))) as Hsu by (apply (sorted_parts _ Hs), list_elem_of_fmap_2, Hin).
    specialize (IH u v1 depth Htu Hv1 ltac:(lia) Hsu). destruct (descend depth img v1 key) as [v2|e|].
    + destruct IH as (es & H1 & H2 & H3). exists es. split_and!; [done| |intros e ? ?; apply H3; [by apply Hc|done]].
      intros e Hes. apply list_elem_of_In, in_concat. exists (t_es u). split; apply list_elem_of_In; [by apply list_elem_of_fmap_2|by apply H2].
    + intros x Hx Hkx. by apply (IH x); [apply Hc|].
    + done.
Qed.
Lemma walk_tree key h t depth : tree h t → (h ≤ depth)%nat → StronglySorted Z.lt (keys (t_es t)) →
  match walk depth img (t_ref t) key with
  | Ok v => ∃ es, shows v (leaf es) ∧ (∀ e, e ∈ es → e ∈ t_es t) ∧ ∀ e, e ∈ t_es t → ke_key e = key → e ∈ es
  | Err _ => ∀ e, e ∈ t_es t → ke_key e ≠ key
  | Panic => False
  end.
Proof.
  intros Ht Hd Hs. unfold walk. destruct (tree_page_at h t Ht) as (v & Hv & _). rewrite Hv, bind_Ok. by apply (descend_tree key h).
Qed.

Lemma walkLeaves_tree {S} (f : S → A → result S) (fn : S → BTPageView → result S) h :
  (∀ a v es, shows v (leaf es) → fn a v = fold_each f es a) →
  ∀ t depth a, tree h t → (h < depth)%nat → walkLeaves depth img fn (t_ref t) a = fold_each f (t_es t) a.
Proof.
  intros Hfn. induction h as [|h IH]; intros t depth a Ht Hd; (destruct depth as [|depth]; [lia|]); cbn [walkLeaves].
  - destruct Ht as [(v & Hv & Hsh & _) _]. rewrite Hv, bind_Ok. pose proof Hsh as (_ & _ & Hl & _). rewrite leaf_level in Hl.
    rewrite Hl. cbn. by apply Hfn.
  - destruct Ht as (ts & (v & Hv & Hsh & _) & _ & Hf & He & _). rewrite Hv, bind_Ok.
    pose proof (shows_kids v _ _ _ Hsh) as Hk. destruct Hsh as (_ & _ & Hl & _). cbn [tp_level] in Hl.
    rewrite Hl, Hk, He. rewrite (proj2 (Z.eqb_neq _ 0)) by lia. clear He Hk Hl Hv. revert a.
    induction Hf as [|u ts [_ Hu] _ IHts]; intros a; [done|]. cbn [map fold_each concat]. rewrite fold_each_app. cbn [K_Ref kid].
    rewrite (IH u depth a Hu) by lia. destruct (fold_each f (t_es u) a); [apply IHts|done..].
Qed.
Lemma collect_tree h : ∀ t depth ibs, tree h t → (h < depth)%nat →
  collect_pages depth img (t_ref t) ibs = Ok (ibs ++ map BREF_IB (t_refs t)).
Proof.
  induction h as [|h IH]; intros t depth ibs Ht Hd; (destruct depth as [|depth]; [lia|]); cbn [collect_pages].
  - destruct Ht as [(v & Hv & (_ & _ & Hl & _) & _) ->]. rewrite Hv, bind_Ok. rewrite leaf_level in Hl. by rewrite Hl.
  - destruct Ht as (ts & (v & Hv & Hsh & _) & _ & Hf & _ & ->). rewrite Hv, bind_Ok.
    pose proof (shows_kids v _ _ _ Hsh) as Hk. destruct Hsh as (_ & _ & Hl & _). cbn [tp_level] in Hl.
    rewrite Hl, Hk. rewrite (proj2 (Z.eqb_neq _ 0)) by lia. cbn [map].
    replace (ibs ++ BREF_IB (t_ref t) :: map BREF_IB (concat (map t_refs ts)))
      with ((ibs ++ [BREF_IB (t_ref t)]) ++ map BREF_IB (concat (map t_refs ts))) by (by rewrite <- app_assoc).
    generalize (ibs ++ [BREF_IB (t_ref t)]). clear Hk Hl Hv ibs.
    induction Hf as [|u ts [_ Hu] _ IHts]; intros ibs; cbn [map fold_each concat]; [by rewrite app_nil_r|].
    cbn [K_Ref kid]. rewrite (IH u depth ibs Hu), bind_Ok by lia. rewrite IHts. by rewrite map_app, app_assoc.
Qed.
End reading.

(** *** Checking *)
Definition ref_ok (r : BREF) : Prop := BREF_IB r mod PageSize = 0 ∧ metadataPageIB (BREF_IB r) = false ∧ BREF_BID r ≠ BREF_IB r.
Definition apart_refs (rs : list BREF) : Prop := NoDup (map BREF_IB rs) ∧ NoDup (map BREF_BID rs).
Definition unseen (seen : seen_pages) (rs : list BREF) : Prop := ∀ r, r ∈ rs → BREF_IB r ∉ seen.2 ∧ seen.1 !! BREF_BID r = None.
Definition seen_more (seen seen' : seen_pages) (rs : list BREF) : Prop :=
  (∀ p, p ∈ seen'.2 → p ∈ seen.2 ∨ p ∈ map BREF_IB rs) ∧ (∀ b, is_Some (seen'.1 !! b) → is_Some (seen.1 !! b) ∨ b ∈ map BREF_BID rs).
Lemma seen_more_app seen seen1 seen2 rs rs' : seen_more seen seen1 rs → seen_more seen1 seen2 rs' → seen_more seen seen2 (rs ++ rs').
Proof.
  intros [P1 B1] [P2 B2]. split.
  - intros p [Hp|Hp]%P2; rewrite map_app, elem_of_app; [apply P1 in Hp|]; tauto.
  - intros b [Hb|Hb]%B2; rewrite map_app, elem_of_app; [apply B1 in Hb|]; tauto.
Qed.
Lemma apart_app rs rs' : apart_refs (rs ++ rs') → apart_refs rs ∧ apart_refs rs' ∧
  ∀ r r', r ∈ rs → r' ∈ rs' → BREF_IB r' ≠ BREF_IB r ∧ BREF_BID r' ≠ BREF_BID r.
Proof.
  unfold apart_refs. rewrite !map_app. intros [(N1 & N2 & N3)%NoDup_app (M1 & M2 & M3)%NoDup_app]. split_and!; try done.
  intros r r' Hr Hr'. split; intros E; [apply (N2 (BREF_IB r))|apply (M2 (BREF_BID r))]; (by apply list_elem_of_fmap_2) || (rewrite <- E; by apply list_elem_of_fmap_2).
Qed.
Lemma unseen_more seen seen1 rs rs' : unseen seen (rs ++ rs') → apart_refs (rs ++ rs') → seen_more seen seen1 rs → unseen seen1 rs'.
Proof.
  intros Hu (_ & _ & Ha)%apart_app [P B] r Hr. destruct (Hu r) as [U1 U2]; [apply elem_of_app; by right|]. split.
  - intros [Hp|(r' & E & Hr')%list_elem_of_fmap]%P; [done|]. by destruct (Ha r' r Hr' Hr).
  - apply eq_None_not_Some. intros [[? Hb]|(r' & E & Hr')%list_elem_of_fmap]%B; [congruence|]. by destruct (Ha r' r Hr' Hr).
Qed.
Section checking.
Context {A} `{!KeyedEntry A} (leaf : list A → tree_page) (img : TreeImage).
Hypothesis leaf_shape : ∀ es, tp_level (leaf es) = 0 ∧ tp_type (leaf es) = tp_type (leaf []) ∧ tp_count (leaf es) = blen es.
Hypothesis leaf_first : ∀ v e es, shows v (leaf (e :: es)) → firstKey v = Ok (ke_key e).
Abbreviation tree := (ptree leaf (page_is img)).

Definition checked (h : nat) (t : subtree A) : Prop := ∀ depth seen, (h < depth)%nat → Forall ref_ok (t_refs t) → apart_refs (t_refs t) →
  unseen seen (t_refs t) →
  ∃ seen', check_page depth img (tp_type (leaf [])) (t_ref t) seen = (seen', Ok (first_key (t_es t))) ∧ seen_more seen seen' (t_refs t).
(** The part of a check before the children. *)
Lemma check_head v p (t : subtree A) depth seen rest : page img (t_ref t) = Ok v → shows v p → tp_type p = tp_type (leaf []) → PV_BID (BTV_Page v) = BREF_BID (t_ref t) →
  ref_ok (t_ref t) → unseen seen (t_ref t :: rest) →
  ∃ seen1, seen_more seen seen1 [t_ref t] ∧
    check_page (S depth) img (tp_type (leaf [])) (t_ref t) seen =
      (if BTV_Level v =? 0 then if BTV_Count v =? 0 then mret 0 else lift (firstKey v) else
       do fks <- mapM_st (λ k,
         do fk <- check_page depth img (tp_type (leaf [])) (K_Ref k);
         if negb (K_Key k =? fk)
         then lift (invariant "2.2.2.7.7.2" "btkey" "separator 0x%x is not child first key 0x%x (MS-PST %s)" [K_Key k; fk])
         else mret fk) (BTV_Kids v);
       mret (default 0 (head fks))) seen1.
Proof.
  intros Hv (_ & Ht & _) Hty Hb (R1 & R2 & R3) Hu. destruct (Hu (t_ref t)) as [U1 U2]; [by left|].
  exists (<[BREF_BID (t_ref t) := BREF_IB (t_ref t)]> seen.1, BREF_IB (t_ref t) :: seen.2). split.
  - split; cbn [fst snd map].
    + intros p' [->|?]%elem_of_cons; [right; by left|by left].
    + intros b [x Hx]. destruct (decide (b = BREF_BID (t_ref t))) as [->|Hn]; [right; by left|].
      rewrite lookup_insert_ne in Hx by done. left. by exists x.
  - cbn [check_page]. cbv zeta. rewrite R1, R2. cbn [Z.eqb negb]. rewrite st_get_bind, bool_decide_eq_false_2 by done.
    rewrite st_modify_bind. rewrite Hv. rewrite (st_bind_Ok _ _ _ _ v) by done. rewrite Ht, Hty, Z.eqb_refl. cbn [negb].
    rewrite Hb. rewrite (proj2 (Z.eqb_neq _ _)) by done. rewrite U2, st_modify_bind. done.
Qed.
Lemma check_tree h : ∀ t, tree h t → checked h t.
Proof.
  induction h as [|h IH]; intros t Ht depth seen Hd Hr Ha Hu; (destruct depth as [|depth]; [lia|]).
  - destruct Ht as [(v & Hv & Hsh & Hb) Hrs]. rewrite Hrs in *. apply Forall_cons in Hr as [Hr _].
    destruct (leaf_shape (t_es t)) as (L1 & L2 & L3).
    destruct (check_head v _ t depth seen [] Hv Hsh L2 Hb Hr Hu) as (seen1 & Hm & ->). exists seen1. split; [|done].
    pose proof Hsh as (_ & _ & Hl & Hc). rewrite Hl, L1, Hc, L3. cbn [Z.eqb]. destruct (t_es t) as [|e es] eqn:Ees; [done|].
    rewrite (proj2 (Z.eqb_neq _ 0)) by (rewrite blen_cons; pose proof (blen_nonneg es); lia). by rewrite (leaf_first v e es Hsh).
  - destruct Ht as (ts & (v & Hv & Hsh & Hb) & Hne & Hf & He & Hrs). rewrite Hrs in *. apply Forall_cons in Hr as [Hr Hrs'].
    destruct (check_head v _ t depth seen _ Hv Hsh eq_refl Hb Hr Hu) as (seen1 & Hm & ->).
    pose proof (shows_kids v _ _ _ Hsh) as Hk. destruct Hsh as (_ & _ & Hl & _). cbn [tp_level] in Hl.
    rewrite Hl, Hk. rewrite (proj2 (Z.eqb_neq _ 0)) by lia.
    pose proof (unseen_more _ _ [t_ref t] _ Hu Ha Hm) as Hu1. destruct (apart_app [t_ref t] _ Ha) as (_ & Ha1 & _).
    enough (∃ seen', mapM_st (λ k, do fk <- check_page depth img (tp_type (leaf [])) (K_Ref k);
         if negb (K_Key k =? fk)
         then lift (invariant "2.2.2.7.7.2" "btkey" "separator 0x%x is not child first key 0x%x (MS-PST %s)" [K_Key k; fk])
         else mret fk) (map kid ts) seen1 = (seen', Ok (map (λ u, first_key (t_es u)) ts)) ∧
       seen_more seen1 seen' (concat (map t_refs ts))) as (seen' & Hrun & Hm').
    { exists seen'. rewrite (st_bind_Ok _ _ _ _ _ Hrun). split; [|by apply (seen_more_app _ seen1 _ [t_ref t])].
      rewrite He. destruct ts as [|u ts]; [done|]. apply Forall_cons in Hf as [[Hn _] _]. cbn [map concat head].
      destruct (t_es u); done. }
    clear Hm Hu Ha Hr He Hk Hl Hv Hb Hrs Hne. revert seen1 Hu1.
    induction Hf as [|u ts [Hn Hut] _ IHts]; intros seen1 Hu1; cbn [map concat mapM_st] in *.
    { exists seen1. split; [done|]. split; by left. }
    apply Forall_app in Hrs' as [Hr1 Hr2]. pose proof Ha1 as (A1 & A2 & _)%apart_app.
    destruct (IH u Hut depth seen1) as (seen2 & E2 & M2); [lia|done|done|intros r Hr; apply Hu1, elem_of_app; by left|].
    destruct (IHts Hr2 A2 seen2 (unseen_more _ _ _ _ Hu1 Ha1 M2)) as (seen3 & E3 & M3).
    exists seen3. cbn [K_Ref K_Key kid]. erewrite st_bind_Ok by (erewrite st_bind_Ok by exact E2; rewrite Z.eqb_refl; reflexivity).
    rewrite (st_bind_Ok _ _ _ _ _ E3). split; [done|by apply (seen_more_app _ seen2)].
Qed.
End checking.
