(* ===== verification/V2TreeBuild.v ===== *)
(** * Writer v2: trees of pages, written

    [encodeTree] makes a tree of pages ([ptree]) over any sorted list of entries,
    whatever allocates its pages. *)
From S2P Require Import Prelude State V2Base V2Disk V2Entries V2Pages V2Store V2Ndb V2Tree V2PageTree.

Section building.
(** An allocator of pages in states [St]: [pages refs st] says that [refs] are the
    pages taken so far; there is room for [N]. *)
Context {St : Type} (ptype : Z) (alloc : bytes → Z → ST St BREF) (is_page : St → BREF → tree_page → Prop)
  (pages : list BREF → St → Prop) (N : Z).
Definition kept (st st' : St) : Prop := ∀ r p, is_page st r p → is_page st' r p.
Hypothesis alloc_Ok : ∀ L st p, pages L st → blen L < N → tp_wf p → tp_ok p → tp_type p = ptype →
  ∃ ref st', alloc (tp_payload p) ptype st = (st', Ok ref) ∧ pages (L ++ [ref]) st' ∧ is_page st' ref p ∧ kept st st'.
Hypothesis is_page_ref : ∀ st r p, is_page st r p → fits 64 (BREF_BID r) ∧ fits 64 (BREF_IB r) ∧ BREF_BID r ≠ 0.

Lemma kept_refl st : kept st st. Proof. by intros r p. Qed.
Lemma kept_trans a b c : kept a b → kept b c → kept a c. Proof. intros H1 H2 r p Hp. by apply H2, H1. Qed.

Lemma put_level {X} `{!KeyedEntry X} (encode : list X → result bytes) (pg : list X → tree_page) (cs : list (list X)) :
  Forall (λ c, encode c = Ok (tp_payload (pg c)) ∧ tp_wf (pg c) ∧ tp_ok (pg c) ∧ tp_type (pg c) = ptype ∧ c ≠ []) cs →
  ∀ L st, pages L st → blen L + blen cs ≤ N →
  ∃ st' refs, mapM_st (put_page ptype alloc encode) cs st = (st', Ok (zip_with (λ c r, mkBTEntry (first_key c) r) cs refs)) ∧
    pages (L ++ refs) st' ∧ kept st st' ∧ Forall2 (λ c r, is_page st' r (pg c)) cs refs.
Proof.
  induction 1 as [|c cs (He & Hw & Hok & Ht & Hne) _ IH]; intros L st HP HN.
  { exists st, []. rewrite app_nil_r. split_and!; [done|done|apply kept_refl|constructor]. }
  rewrite blen_cons in HN. pose proof (blen_nonneg cs).
  destruct (alloc_Ok L st (pg c) HP) as (r & st1 & Ha & HP1 & Hp1 & K1); [lia|done|done|done|].
  destruct (IH (L ++ [r]) st1 HP1) as (st2 & refs & Hrun & HP2 & K2 & F2); [rewrite blen_app, blen_cons; change (@blen BREF []) with 0; lia|].
  exists st2, (r :: refs). rewrite <- app_assoc in HP2. split_and!; [|done|by eapply kept_trans|constructor; [by apply K2|done]].
  cbn [mapM_st zip_with]. erewrite st_bind_Ok; [by rewrite (st_bind_Ok _ _ _ _ _ Hrun)|].
  unfold put_page. rewrite He. rewrite (st_bind_Ok _ _ _ _ (tp_payload (pg c))) by done. rewrite (st_bind_Ok _ _ _ _ _ Ha).
  by destruct c.
Qed.
Context {A} `{!KeyedEntry A} (leaf : list A → tree_page).
Hypothesis leaf_type : ∀ es, tp_type (leaf es) = ptype.
Hypothesis ptype_ok : ptype = PageNBT ∨ ptype = PageBBT.
Hypothesis key_fits : ∀ e : A, ke_wf e → fits 64 (ke_key e).
Abbreviation keys es := (map ke_key es).
Abbreviation entries ts := (concat (map t_es ts)).
(** A tree below a page to come. *)
Definition part (st : St) (h : nat) (t : subtree A) : Prop := t_es t ≠ [] ∧ ptree leaf (is_page st) h t.
Lemma part_kept st st' h t : kept st st' → part st h t → part st' h t.
Proof. intros K [? Ht]. split; [done|]. by apply (ptree_mono leaf (is_page st)). Qed.
Lemma part_ref st h t : part st h t → fits 64 (BREF_BID (t_ref t)) ∧ fits 64 (BREF_IB (t_ref t)) ∧ BREF_BID (t_ref t) ≠ 0.
Proof. intros [_ Ht]. destruct h; cbn [ptree] in Ht; [destruct Ht as [Hp _]|destruct Ht as (ts & Hp & _)]; by eapply is_page_ref. Qed.
Lemma kids_page st h ts l : 0 < l < 256 → Forall (part st h) ts → StronglySorted Z.lt (keys (entries ts)) → Forall ke_wf (entries ts) →
  blen ts ≤ MaxBTNonleafEntries → let p := KidsPage ptype l (map kid ts) in
  encodeBTPayload ptype l [] [] (map kid ts) = Ok (tp_payload p) ∧ tp_wf p ∧ tp_ok p.
Proof.
  intros Hl Hp Hs Hw Hn p. assert (tp_wf p) as Hpw.
  { split; [unfold fits; lia|]. apply Forall_map, Forall_forall. intros u Hu. rewrite Forall_forall in Hp. pose proof (Hp u Hu) as Hpu.
    destruct (part_ref _ _ _ Hpu) as (F1 & F2 & _), Hpu as [Hne _]. cbn. split; [|done]. destruct (first_key_in _ Hne) as (e & He & ->).
    apply key_fits. rewrite Forall_forall in Hw. apply Hw, list_elem_of_In, in_concat. exists (t_es u).
    split; apply list_elem_of_In; [by apply list_elem_of_fmap_2|done]. }
  assert (tp_ok p) as Hok.
  { split_and!; [done|lia|]. split_and!.
    - unfold room. change (btEntMax ke_size) with MaxBTNonleafEntries. by rewrite blen_map.
    - apply Forall_map, Forall_forall. intros u Hu. rewrite Forall_forall in Hp. destruct (part_ref _ _ _ (Hp u Hu)) as (_ & _ & Hz).
      unfold valid. cbn. unfold check_BTEntry. cbn. by rewrite (proj2 (Z.eqb_neq _ 0)).
    - unfold keys_from. apply kids_sorted; [|done]. eapply Forall_impl; [exact Hp|]. by intros u [? _]. }
  split; [|done]. destruct (encode_payload p Hpw) as [E _]; [subst p; cbn; lia|]. by apply E.
Qed.
Definition group (c : list (subtree A)) (r : BREF) : subtree A := mkSub r (entries c) (r :: concat (map t_refs c)).
Lemma entries_concat (cs : list (list (subtree A))) : entries (concat cs) = concat (map (λ c, entries c) cs).
Proof. induction cs as [|c cs IH]; [done|]. cbn [concat map]. by rewrite map_app, concat_app, IH. Qed.
Lemma groups_entries cs refs : length cs = length refs → entries (zip_with group cs refs) = entries (concat cs).
Proof.
  rewrite entries_concat. revert refs. induction cs as [|c cs IH]; intros [|r refs] Hl; try done. cbn in *. f_equal. apply IH. lia.
Qed.
Lemma groups_refs cs refs : length cs = length refs →
  concat (map t_refs (zip_with group cs refs)) ≡ₚ concat (map t_refs (concat cs)) ++ refs.
Proof.
  revert refs. induction cs as [|c cs IH]; intros [|r refs] Hl; try done. cbn in *.
  rewrite map_app, concat_app, IH by lia. rewrite <- app_assoc. symmetry. rewrite app_assoc. apply Permutation_sym.
  rewrite <- Permutation_middle. by rewrite app_assoc.
Qed.
Lemma groups_part st h cs refs : length cs = length refs → Forall (λ c, c ≠ [] ∧ Forall (part st h) c) cs →
  Forall2 (λ c r, is_page st r (KidsPage ptype (Z.of_nat (S h)) (map kid c))) cs refs → Forall (part st (S h)) (zip_with group cs refs).
Proof.
  intros _ Hc Hp. induction Hp as [|c r cs refs Hp _ IH]; [constructor|]. apply Forall_cons in Hc as [[Hne Hc] Hcs].
  cbn [zip_with]. constructor; [|by apply IH]. split.
  - destruct c as [|u c]; [done|]. apply Forall_cons in Hc as [[Hu _] _]. cbn. by destruct (t_es u).
  - cbn [ptree]. exists c. rewrite leaf_type. split_and!; done.
Qed.
Lemma zip_kid_group st h cs refs : Forall (λ c, c ≠ [] ∧ Forall (part st h) c) cs →
  zip_with (λ c r, mkBTEntry (first_key c) r) (map (map kid) cs) refs = map kid (zip_with group cs refs).
Proof.
  intros Hc. revert refs. induction Hc as [|c cs [Hne Hp] _ IH]; intros [|r refs]; try done. cbn [map zip_with]. rewrite IH. f_equal.
  destruct c as [|u c]; [done|]. apply Forall_cons in Hp as [[Hu _] _]. unfold kid, group. cbn. f_equal. by destruct (t_es u).
Qed.
Lemma index_levels_Ok fuel : ∀ h ts L M st, ts ≠ [] → (length ts ≤ fuel)%nat → (h ≤ 64)%nat → blen ts ≤ 2 ^ (64 - Z.of_nat h) →
  Forall (part st h) ts → StronglySorted Z.lt (keys (entries ts)) → Forall ke_wf (entries ts) →
  pages (L ++ M) st → M ≡ₚ concat (map t_refs ts) → blen (L ++ M) + blen ts ≤ N →
  ∃ st' t h' M', index_levels ptype alloc fuel (Z.of_nat h) (map kid ts) st = (st', Ok (t_ref t)) ∧ pages (L ++ M') st' ∧
    M' ≡ₚ t_refs t ∧ part st' h' t ∧ t_es t = entries ts ∧ kept st st' ∧ (h' ≤ 64)%nat ∧ blen M' ≤ blen M + blen ts.
Proof.
  induction fuel as [|fuel IH]; intros h ts L M st Hne Hf Hh Hpow Hp Hs Hw HP HM HN; [destruct ts; [done|cbn in Hf; lia]|].
  destruct ts as [|t ts']; [done|]. destruct ts' as [|t2 ts'].
  { apply Forall_cons in Hp as [Hp _]. exists st, t, h, M. cbn [map concat] in *. rewrite app_nil_r in *.
    split_and!; try done; [apply kept_refl|]. rewrite blen_cons. pose proof (blen_nonneg (@nil (subtree A))). lia. }
  set (ts := t :: t2 :: ts') in *.
  assert (2 ≤ blen ts) as H2 by (unfold ts; rewrite !blen_cons; pose proof (blen_nonneg ts'); lia).
  assert (h ≤ 63)%nat as Hh'.
  { destruct (decide (h = 64%nat)) as [->|]; [|lia]. change (2 ^ (64 - Z.of_nat 64)) with 1 in Hpow. lia. }
  set (cs := chunks MaxBTNonleafEntries ts).
  assert (concat cs = ts) as Hcs by (by apply chunks_concat).
  pose proof (chunks_count MaxBTNonleafEntries ts ltac:(done)) as Hcount. fold cs in Hcount. change MaxBTNonleafEntries with 20 in Hcount.
  assert (Forall (λ c, c ≠ [] ∧ Forall (part st h) c) cs) as Hcp.
  { apply Forall_forall. intros c Hc. pose proof (chunks_each MaxBTNonleafEntries ts ltac:(done)) as He. rewrite Forall_forall in He.
    destruct (He c Hc) as [? _]. split; [done|]. apply Forall_forall. intros u Hu. rewrite Forall_forall in Hp. apply Hp. rewrite <- Hcs.
    apply list_elem_of_In, in_concat. exists c. by split; apply list_elem_of_In. }
  change (index_levels ptype alloc (S fuel) (Z.of_nat h) (map kid ts)) with
    (do next <- mapM_st (put_page ptype alloc (encodeBTPayload ptype (u8 (Z.of_nat h + 1)) [] [])) (chunks MaxBTNonleafEntries (map kid ts));
     index_levels ptype alloc fuel (u8 (Z.of_nat h + 1)) next).
  rewrite u8_small by lia. replace (Z.of_nat h + 1) with (Z.of_nat (S h)) by lia. rewrite chunks_map. fold cs.
  destruct (put_level (encodeBTPayload ptype (Z.of_nat (S h)) [] []) (KidsPage ptype (Z.of_nat (S h))) (map (map kid) cs))
    with (L := L ++ M) (st := st) as (st1 & refs & Hrun & HP1 & K1 & F1); [|done|rewrite blen_map; lia|].
  { apply Forall_map, Forall_forall. intros c Hc. rewrite Forall_forall in Hcp. destruct (Hcp c Hc) as [Hcne Hcp'].
    pose proof (chunks_each MaxBTNonleafEntries ts ltac:(done)) as He. rewrite Forall_forall in He. destruct (He c Hc) as [_ Hlen].
    rewrite <- Hcs, entries_concat in Hs, Hw.
    destruct (kids_page st h c (Z.of_nat (S h))) as (E1 & E2 & E3); [lia|done| | |done|].
    - apply (sorted_parts _ Hs). by apply (list_elem_of_fmap_2 (λ c, entries c)).
    - apply Forall_forall. intros e Hin. rewrite Forall_forall in Hw. apply Hw, list_elem_of_In, in_concat. exists (entries c).
      split; apply list_elem_of_In; [by apply (list_elem_of_fmap_2 (λ c, entries c))|done].
    - split; [done|]. split; [done|]. split; [done|]. split; [done|by destruct c]. }
  rewrite (st_bind_Ok _ _ _ _ _ Hrun), (zip_kid_group st h) by done.
  assert (length cs = length refs) as Hlr by (by rewrite <- (Forall2_length _ _ _ F1), length_map).
  assert (blen (L ++ M ++ refs) = blen (L ++ M) + blen cs) as HLM by (rewrite app_assoc, blen_app; unfold blen; lia).
  rewrite <- app_assoc in HP1.
  assert (blen (zip_with group cs refs) = blen cs) as Hbz by (unfold blen; rewrite length_zip_with; lia).
  assert (Forall (λ c, c ≠ [] ∧ Forall (part st1 h) c) cs) as Hcp1.
  { eapply Forall_impl; [exact Hcp|]. intros c [? Hc]. split; [done|]. eapply Forall_impl; [exact Hc|]. intros u. by apply part_kept. }
  destruct (IH (S h) (zip_with group cs refs) L (M ++ refs) st1) as (st2 & t' & h' & M' & Hrun' & HP2 & HM2 & Hp2 & Ht2 & K2 & Hh2 & HB2);
    [| |lia| | | | |done| | |].
  - intros E. apply (f_equal blen) in E. rewrite Hbz in E. apply (chunks_nonempty MaxBTNonleafEntries ts Hne). fold cs. by destruct cs.
  - rewrite length_zip_with, <- Hlr, Nat.min_id. pose proof (chunks_shrink MaxBTNonleafEntries ts ltac:(done) ltac:(cbn; lia)). fold cs in H. lia.
  - rewrite Hbz. replace (64 - Z.of_nat h) with (1 + (64 - Z.of_nat (S h))) in Hpow by lia. rewrite Z.pow_add_r in Hpow by lia. lia.
  - apply groups_part; [done|done|]. rewrite Forall2_fmap_l in F1. done.
  - by rewrite groups_entries, Hcs.
  - by rewrite groups_entries, Hcs.
  - rewrite groups_refs, Hcs by done. by rewrite HM.
  - rewrite Hbz, HLM. lia.
  - exists st2, t', h', M'. split_and!; [done|done|done|done| |by eapply kept_trans|done|].
    + rewrite Ht2, groups_entries by done. by rewrite Hcs.
    + rewrite Hbz, blen_app in HB2. unfold blen in *. lia.
Qed.
(** The leaves of a tree, then the levels above. *)
Context (encodeLeaf : list A → result bytes) (maxLeaf : Z).
Hypothesis encodeLeaf_Ok : ∀ es, page_ok es → Forall ke_wf es → encodeLeaf es = Ok (tp_payload (leaf es)) ∧ tp_wf (leaf es) ∧ tp_ok (leaf es).
Hypothesis maxLeaf_room : 0 < maxLeaf ≤ btEntMax ke_size.
Definition leaf_tree (c : list A) (r : BREF) : subtree A := mkSub r c [r].
Lemma leaf_trees st cs refs : Forall (λ c, c ≠ []) cs → Forall2 (λ c r, is_page st r (leaf c)) cs refs →
  let ts := zip_with leaf_tree cs refs in
  Forall (part st 0) ts ∧ entries ts = concat cs ∧ concat (map t_refs ts) = refs ∧
  zip_with (λ c r, mkBTEntry (first_key c) r) cs refs = map kid ts.
Proof.
  intros Hne Hp. induction Hp as [|c r cs refs Hp _ IH]; [by split_and!|]. apply Forall_cons in Hne as [Hc Hne].
  destruct (IH Hne) as (I1 & I2 & I3 & I4). cbn [zip_with map concat]. split_and!.
  - constructor; [|done]. by split.
  - by rewrite I2.
  - by rewrite I3.
  - by rewrite I4.
Qed.
Lemma encodeTree_Ok leaves L st : Forall valid leaves → Forall ke_wf leaves → StronglySorted Z.lt (keys leaves) →
  blen leaves < 2 ^ 64 → pages L st → blen L + 2 * blen leaves + 1 ≤ N →
  ∃ st' t h M, encodeTree ptype alloc leaves encodeLeaf maxLeaf st = (st', Ok (t_ref t)) ∧ pages (L ++ M) st' ∧ M ≡ₚ t_refs t ∧
    ptree leaf (is_page st') h t ∧ t_es t = leaves ∧ kept st st' ∧ (h ≤ 64)%nat ∧ blen M ≤ 2 * blen leaves + 1.
Proof.
  intros Hv Hw Hs Hlen HP HN. unfold encodeTree. rewrite (proj2 (Z.ltb_ge maxLeaf 1)) by lia.
  destruct (decide (leaves = [])) as [->|Hne].
  { destruct (encodeLeaf_Ok []) as (E1 & E2 & E3); [split_and!; [|constructor|constructor]|constructor|].
    { unfold room. change (@blen A []) with 0. lia. }
    change (@blen A []) with 0 in HN.
    destruct (alloc_Ok L st _ HP ltac:(lia) E2 E3 (leaf_type _)) as (r & st' & Ha & HP' & Hp & K).
    exists st', (mkSub r [] [r]), 0%nat, [r]. rewrite E1. rewrite (st_bind_Ok _ _ st st (tp_payload (leaf []))) by done.
    split_and!; try done. lia. }
  replace (match leaves with [] => do payload <- lift (encodeLeaf []); alloc payload ptype
    | _ => do refs <- mapM_st (put_page ptype alloc encodeLeaf) (chunks maxLeaf leaves); index_levels ptype alloc (S (length leaves)) 0 refs end)
    with (do refs <- mapM_st (put_page ptype alloc encodeLeaf) (chunks maxLeaf leaves); index_levels ptype alloc (S (length leaves)) 0 refs)
    by (by destruct leaves).
  set (cs := chunks maxLeaf leaves). assert (concat cs = leaves) as Hcs by (apply chunks_concat; lia).
  pose proof (chunks_each maxLeaf leaves ltac:(lia)) as Hce. fold cs in Hce.
  assert (length cs ≤ length leaves)%nat as Hcl by (apply (chunks_fuel_spec (length leaves) (Z.to_nat maxLeaf) leaves); lia).
  destruct (put_level encodeLeaf leaf cs) with (L := L) (st := st) as (st1 & refs & Hrun & HP1 & K1 & F1); [|done|unfold blen in *; lia|].
  { apply Forall_forall. intros c Hc. rewrite Forall_forall in Hce. destruct (Hce c Hc) as [Hcne Hclen].
    assert (∀ e, e ∈ c → e ∈ leaves) as Hsub.
    { intros e He. rewrite <- Hcs. apply list_elem_of_In, in_concat. exists c. by split; apply list_elem_of_In. }
    rewrite Forall_forall in Hv, Hw. rewrite <- Hcs in Hs.
    destruct (encodeLeaf_Ok c) as (E1 & E2 & E3); [split; [|split]|apply Forall_forall; auto|by split_and!].
    - unfold room. lia.
    - apply Forall_forall. auto.
    - unfold keys_from. cbn [option_list app]. by apply (sorted_parts cs Hs). }
  destruct (leaf_trees st1 cs refs) as (T1 & T2 & T3 & T4); [eapply Forall_impl; [exact Hce|]; by intros c [? _]|done|].
  rewrite (st_bind_Ok _ _ _ _ _ Hrun), T4. set (ts := zip_with leaf_tree cs refs) in *.
  assert (length cs = length refs) as Hlr by (by eapply Forall2_length).
  assert (length ts = length cs) as Hlt by (unfold ts; rewrite length_zip_with; lia).
  destruct (index_levels_Ok (S (length leaves)) 0 ts L refs st1) as (st2 & t & h & M & Hrun2 & HP2 & HM2 & [_ Hp2] & Ht2 & K2 & Hh2 & HB2);
    rewrite ?T2, ?Hcs, ?T3; try done.
  - intros E. rewrite E in Hlt. apply (chunks_nonempty maxLeaf leaves Hne). fold cs. by destruct cs.
  - lia.
  - lia.
  - change (64 - Z.of_nat 0) with 64. unfold blen in *. lia.
  - rewrite blen_app. unfold blen in *. lia.
  - exists st2, t, h, M. rewrite T2, Hcs in Ht2. split_and!; try done; [by eapply kept_trans|]. unfold blen in *. lia.
Qed.
End building.
