(* ===== verification/V2Encode.v ===== *)
(** * Writer v2: the catalog as trees of pages

    [Encode] of a well-formed catalog: where its pages lie, what the two trees
    hold, and that the blocks of the catalog are as before. *)
From S2P Require Import Prelude Ids State Block Header Database V2Base V2Disk V2Entries V2Pages V2Header V2Bitmap V2Store V2Journal V2Alloc V2Ndb V2Txn V2Catalog V2Extents V2Data V2DataTree V2Subnode V2SubTree V2Tree V2PageTree V2TreeBuild.

(** ** Taking a page *)
Definition claims (n : NDB) (ps : list Z) : NDB := with_cat n (cat_pages ps (n_cat n)).
Definition next_page (n : NDB) : Z := ss_bidNextP (st_state (n_store n)).
Definition live_pages (n : NDB) : list Z := cs_livePages (n_cat n).

(** The bytes below [p] are in the spool or in the source. *)
Definition reaches (s : Store) (p : Z) : Prop := ∃ w, store_reader s = Some w ∧ p ≤ blen w.
Lemma not_metadata k : 0 ≤ k → region_ok (k / 3968) → ¬ is_map_slot k → slot_addr k mod 512 = 0 → metadataPageIB (slot_addr k) = false.
Proof.
  intros Hk Hr Hm Ha. unfold metadataPageIB. rewrite (proj2 (Z.eqb_neq _ _)) by (unfold slot_addr, DListPageOffset; lia).
  rewrite AMapIndex_addr by done. apply not_true_iff_false. intros (p & Hp & E)%existsb_exists. apply list_elem_of_In in Hp. apply Z.eqb_eq in E.
  destruct (map_page_index _ p Hr Hp) as (m & H0 & H1 & Ho). apply Hm. unfold is_map_slot. rewrite Ho in E. unfold slot_addr in *. divlia.
Qed.
Lemma claim_page n ps : ndb_wf (claims n ps) → region_ok (RegionCount (n_store n) + 1) →
  ∃ s1 k, AllocatePage (n_store n) = (s1, Ok (slot_addr k)) ∧ ndb_wf (claims (with_store n s1) (ps ++ [slot_addr k])) ∧
    slot_addr k mod PageSize = 0 ∧ metadataPageIB (slot_addr k) = false ∧ slot_addr k ∉ ps ∧ fits 64 (slot_addr k) ∧ 0x4400 ≤ slot_addr k ∧
    RegionCount (n_store n) ≤ RegionCount s1 ≤ RegionCount (n_store n) + 1 ∧
    st_state s1 = set_lastAlloc (set_regions (st_state (n_store n)) (regions s1)) (ss_lastAllocAMap (st_state s1)) ∧
    (∀ bid d, payload n bid d → payload (with_store n s1) bid d) ∧ (∀ q, reaches (n_store n) q → reaches s1 q).
Proof.
  intros Hwf Hroom. assert (store_wf (n_store n)) as Hst by apply (nw_store _ Hwf).
  destruct (AllocatePage_Ok (n_store n) Hst Hroom) as (s1 & k & Ha & HA & Hsp). exists s1, k.
  pose proof HA as [A1 [A2 A2'] A3 A4 [A5 A5'] A6 A7]. pose proof A2 as (K0 & _ & K2 & K3).
  pose proof (λ j, allocated_fresh _ _ _ _ _ j Hst HA) as Hfresh.
  assert (RegionCount (n_store n) ≤ RegionCount s1 ≤ RegionCount (n_store n) + 1) as Hcnt by (destruct A3 as [(_ & _ & ->)|(_ & -> & _)]; lia).
  apply Z.eqb_eq in A2'.
  assert (region_ok (k / 3968)) as Hrk by (unfold region_ok in *; split; [divlia|]; assert (k / 3968 < RegionCount s1) by divlia; lia).
  assert (page_placed s1 (slot_addr k) k) as Hpp.
  { split; [done|done|done| |]; [|by intros j Hj; apply Hfresh]. intros j Hj. apply A4; [lia|]. right. left. lia. }
  assert (∀ p, p ∈ ps → apart p PageSize (slot_addr k) (64 * 8)) as Hps.
  { intros p Hp. destruct (nw_pages _ Hwf p Hp) as [[j [P1 P2 P3 P4 P5]] _]. rewrite P1. change PageSize with (64 * 8).
    apply (used_free_apart (regions (n_store n))); [lia|lia|done|]. intros i Hi. by apply Hfresh. }
  assert (slot_addr k ∉ ps) as Hnew by (intros Hp; destruct (Hps _ Hp) as [H|H]; unfold PageSize in H; lia).
  split; [done|]. split.
  { destruct Hwf as [W1 W2 W3 W4 W5 W6]. split.
    - done.
    - destruct W2 as [[C1 C2 C3 C4] [I1 I2 I3]]. split; [by split|]. split; unfold next_bid in *; cbn in *; rewrite ?A5'; done.
    - intros bid e He. destruct (W3 bid e He) as [j Hj]. exists j. by apply (keeps_placed (n_store n)); [|exact (proj1 Hcnt)|].
    - exact W4.
    - intros p Hp. change (p ∈ ps ++ [slot_addr k]) in Hp. apply elem_of_app in Hp as [Hp| ->%list_elem_of_singleton].
      + destruct (W5 p Hp) as [[j Hj] Hap]. split; [|exact Hap]. exists j. by apply (keeps_page (n_store n)); [|exact (proj1 Hcnt)|].
      + split; [by exists k|]. intros bid e He. destruct (W3 bid e He) as (j & [Q1 Q2 Q3 Q4 Q5]). rewrite Q1.
        destruct (disk_slots_ok e Q2) as [-> ?]. change PageSize with (64 * 8).
        apply (used_free_apart (regions (n_store n))); [lia|lia|done|]. intros i Hi. by apply Hfresh.
    - change (NoDup (ps ++ [slot_addr k])). apply NoDup_app. split_and!; [done| |apply NoDup_singleton].
      by intros p Hp ->%list_elem_of_singleton. }
  split; [done|]. split; [apply not_metadata; [done..|apply Hfresh; lia|done]|]. split; [done|].
  split; [unfold fits, region_ok, slot_addr in *; divlia|]. split; [unfold slot_addr; lia|]. split; [done|].
  split; [by rewrite A5'|]. split.
  2:{ intros q (w & Hw & Hq). unfold reaches, store_reader in *. destruct (st_work (n_store n)) as [w0|] eqn:Ew.
    - destruct (ku_work _ _ A7 w0 Ew) as (w1 & -> & Hl & _). exists w1. split; [done|]. injection Hw as <-. lia.
    - rewrite (proj2 Hsp), A5 by done. by exists w. }
  intros bid d (e & He & Hd). exists e. split; [done|]. destruct (nw_blocks _ Hwf bid e He) as [j Hj].
  destruct (st_work (n_store n)) as [w|] eqn:Ew; [by apply (keeps_stored (n_store n) _ _ j); rewrite ?Ew|].
  destruct Hd as [Hd _]. unfold stored. change (n_store (with_store n s1)) with s1. rewrite (proj2 Hsp) by done. split; [|done].
  rewrite <- Hd. unfold blockPayload, readExtent. by rewrite (proj2 Hsp), A5, Ew.
Qed.

(** ** Giving a page back *)
Lemma spool_reaches s k : store_wf s → 1 ≤ RegionCount s → 0 ≤ k ≤ 3968 * RegionCount s → reaches s (slot_addr k) →
  ∃ w, st_work (ensureSpool s) = Some w ∧ slot_addr k ≤ blen w.
Proof.
  intros [Hwf _] H1 Hk (w & Hw & Hl). unfold ensureSpool. unfold store_reader in Hw. destruct (st_work s) as [w'|] eqn:E; [exists w; by rewrite E, Hw|].
  rewrite Hw. eexists. split; [done|]. rewrite FileEOF_ok by (apply Hwf || lia).
  unfold sub, blen in *. rewrite length_take, length_drop. unfold slot_addr in *. lia.
Qed.
Lemma reaches_le s p q : p ≤ q → reaches s q → reaches s p.
Proof. intros Hpq (w & Hw & Hl). exists w. split; [done|lia]. Qed.
Lemma free_page n p ps : ndb_wf (claims n (p :: ps)) → reaches (n_store n) (p + PageSize) →
  ∃ s1, Free p PageSize (n_store n) = (s1, Ok tt) ∧ ndb_wf (claims (with_store n s1) ps) ∧ RegionCount s1 = RegionCount (n_store n) ∧
    st_state s1 = set_regions (st_state (n_store n)) (regions s1) ∧ st_io s1 = st_io (n_store n) ∧
    (∀ bid d, payload n bid d → payload (with_store n s1) bid d) ∧
    (∀ k, 0 ≤ k ≤ 3968 * RegionCount (n_store n) → reaches (n_store n) (slot_addr k) → reaches s1 (slot_addr k)).
Proof.
  intros Hwf Hre. set (s := n_store n) in *. assert (store_wf s) as Hst by apply (nw_store _ Hwf).
  destruct (nw_pages _ Hwf p) as [[k [P1 P2 P3 P4 P5]] Hap]; [left|]. change (n_store (claims n (p :: ps))) with s in *.
  pose proof P3 as (K0 & _ & K2 & K3). assert (1 ≤ RegionCount s) as Hrc by divlia.
  assert (reaches s (slot_addr (k + 8))) as Hre' by (eapply reaches_le, Hre; rewrite P1; unfold slot_addr, PageSize; lia).
  destruct (spool_reaches s (k + 8) Hst Hrc ltac:(lia) Hre') as (w & Hw & Hlw).
  destruct (Free_Ok s k 8 Hst P3 P4 P5) as (s1 & Hf & Hwf1 & Hr1 & Hs1 & Hi1 & Hw1).
  { right. intros q Hq. right. exists w. unfold store_reader. rewrite Hw. split; [done|]. unfold slot_addr in *. lia. }
  exists s1. change (64 * 8) with PageSize in Hf. rewrite <- P1 in Hf. split; [done|].
  assert (RegionCount s1 = RegionCount s) as Hc1.
  { unfold RegionCount at 1. rewrite Hr1. apply blen_set_run. }
  assert (∀ j m, 0 ≤ j → 0 < m → run_used (regions s) true j m → apart (slot_addr j) (64 * m) p PageSize → run_used (regions s1) true j m) as Hkeep.
  { intros j m Hj Hm Hu Ha i Hi. rewrite Hr1, (used_set_run _ (wf_maps _ (wf_maps_wf _ Hst)) false k 8 i P3) by lia.
    destruct (Z.leb_spec k i), (Z.ltb_spec i (k + 8)); cbn [andb]; try by apply Hu.
    exfalso. rewrite P1 in Ha. unfold apart, slot_addr, PageSize in Ha. lia. }
  assert (∀ e j, placed s e j → apart (B_IB e) (BlockDiskSize (B_CB e)) p PageSize → placed s1 e j) as Hpl.
  { intros e j [Q1 Q2 Q3 Q4 Q5] Ha. destruct (disk_slots_ok e Q2) as [Hds Hdn]. split; [done|done|by rewrite Hc1| |done].
    apply Hkeep; [apply Q3|lia|done|]. by rewrite <- Q1, <- Hds. }
  split; [|split; [done|split; [done|split; [done|split]]]].
  - destruct Hwf as [W1 [[C1 C2 C3 C4] [I1 I2 I3]] W3 W4 W5 W6]. split.
    + done.
    + split; [by split|]. split; unfold next_bid in *; cbn in *; rewrite ?Hs1; done.
    + intros bid e He. destruct (W3 bid e He) as [j Hj]. exists j. apply Hpl; [done|]. by apply (Hap bid).
    + exact W4.
    + intros q Hq. change (q ∈ ps) in Hq. destruct (W5 q) as [[j [R1 R2 R3 R4 R5]] Hq2]; [by right|]. split; [|exact Hq2].
      exists j. split; [done|done|exact (eq_ind_r (λ n, in_region n j 8) R3 Hc1)| |done].
      apply Hkeep; [apply R3|done|done|]. rewrite P1. unfold apart, PageSize.
      destruct (decide (j = k)) as [->|Hne]; [apply NoDup_cons in W6 as [W6 _]; congruence|].
      unfold PageSize in *. unfold slot_addr in *. destruct (decide (j < k)); [left|right]; divlia.
    + by apply NoDup_cons in W6 as [_ ?].
  - intros bid d (e & He & Hd). exists e. split; [done|]. destruct (nw_blocks _ Hwf bid e He) as [j Hj]. pose proof (Hap bid e He) as Ha.
    pose proof (ensureSpool_stored s e j d Hst Hj Hd) as [Hd1 Hd2]. rewrite Hw in Hd2. destruct Hj as [Q1 Q2 Q3 _ _].
    destruct (disk_slots_ok e Q2) as [Hds Hdn].
    assert (st_work s1 = Some (write_at (slot_addr k) (zeros (64 * 8)) w)) as Hw1' by (by rewrite Hw1, Hw).
    unfold stored. change (n_store (with_store n s1)) with s1. rewrite Hw1'. rewrite blen_write_at by (unfold slot_addr; lia). split; [|lia].
    rewrite <- Hd1. apply (blockPayload_work (ensureSpool s) s1 e w (write_at (slot_addr k) (zeros (64 * 8)) w)); [rewrite Q1; destruct Q3; unfold slot_addr; lia|done|done|done|done| |].
    + rewrite blen_write_at by (unfold slot_addr; lia). lia.
    + intros q Hq. assert (0 ≤ q) by (rewrite Q1 in Hq; destruct Q3; unfold slot_addr in Hq; lia).
      rewrite byte_at_write by (unfold slot_addr; lia). rewrite blen_zeros.
      destruct (Z.leb_spec (slot_addr k) q), (Z.ltb_spec q (slot_addr k + Z.max 0 (64 * 8))); cbn [andb]; try done.
      exfalso. rewrite P1 in Ha. unfold apart, PageSize in Ha. lia.
  - intros q Hq Hrq. destruct (spool_reaches s q Hst Hrc Hq Hrq) as (w' & Hw' & Hl). exists (write_at (slot_addr k) (zeros (64 * 8)) w').
    unfold store_reader. rewrite Hw1, Hw'. split; [done|]. rewrite blen_write_at by (unfold slot_addr; lia). lia.
Qed.

(** ** Encoding in progress *)
(** [L] are the pages written so far. *)
Record encoding (n0 : NDB) (L : list BREF) (st : EncState) : Prop := mkEncoding {
  ec_wf : ndb_wf (claims (es_ndb st) (live_pages n0 ++ map BREF_IB L));
  ec_cat : n_cat (es_ndb st) = n_cat n0;
  ec_new : es_new st = map BREF_IB L;
  ec_bids : map BREF_BID L = seqZ (next_page n0) (blen L);
  ec_next : next_page (es_ndb st) = next_page n0 + blen L;
  ec_regions : RegionCount (n_store n0) ≤ RegionCount (n_store (es_ndb st)) ≤ RegionCount (n_store n0) + blen L;
  ec_refs : Forall ref_ok L;
  ec_dom : ∀ ib, is_Some (es_pages st !! ib) → ib ∈ map BREF_IB L;
  ec_payload : ∀ bid d, payload n0 bid d → payload (es_ndb st) bid d;
  ec_reaches : ∀ q, reaches (n_store n0) q → reaches (n_store (es_ndb st)) q }.
Definition page_ready (st : EncState) (ref : BREF) (p : tree_page) : Prop :=
  es_pages st !! BREF_IB ref = Some (page_image (tp_payload p) (tp_type p) (BREF_BID ref) (BREF_IB ref)) ∧
  tp_wf p ∧ tp_ok p ∧ fits 64 (BREF_BID ref) ∧ fits 64 (BREF_IB ref) ∧ BREF_BID ref ≠ 0.
(** The next [N] page IDs: none is the address of a page, the check of [Encode]
    would fail on it. *)
Definition page_bids_ok (n : NDB) (N : Z) : Prop :=
  0 < next_page n ∧ next_page n + N < 2 ^ 64 - 1 ∧ ∀ b, next_page n ≤ b < next_page n + N → b mod PageSize ≠ 0 ∨ b < 0x4400.

Lemma take_page_bid s : 0 < ss_bidNextP (st_state s) < 2 ^ 64 - 1 →
  takePageBID s = (with_state s (set_bidNextP (st_state s) (ss_bidNextP (st_state s) + 1)), Ok (ss_bidNextP (st_state s))).
Proof.
  intros Hp. unfold takePageBID, or_panic, take_pageBID, takeMonotonic, PageBIDIncrement. rewrite (proj2 (Z.eqb_neq _ 0)) by lia.
  change (0 <? 1) with true. rewrite u64_small by lia. rewrite (proj2 (Z.ltb_ge _ _)) by lia. cbn [andb]. rewrite u64_small by lia.
  rewrite (proj2 (Z.eqb_neq _ 0)) by lia. done.
Qed.
Lemma enc_alloc_Ok n0 N L st p : region_ok (RegionCount (n_store n0) + N) → page_bids_ok n0 N →
  encoding n0 L st → blen L < N → tp_wf p → tp_ok p →
  ∃ ref st', enc_alloc (tp_payload p) (tp_type p) st = (st', Ok ref) ∧ encoding n0 (L ++ [ref]) st' ∧ page_ready st' ref p ∧
    ∀ r q, page_ready st r q → page_ready st' r q.
Proof.
  intros Hroom (Hp1 & Hp2 & Hp3) [E1 E2 E3 E4 E5 E6 E7 E8 E9 E10] HN Hw Hok. pose proof (blen_nonneg L).
  assert (0 ≤ RegionCount (n_store n0)) by apply blen_nonneg.
  destruct (claim_page (es_ndb st) _ E1) as (s1 & k & Ha & C1 & C2 & C3 & C4 & C5 & C6 & C7 & C8 & C9 & C10); [unfold region_ok in *; lia|].
  assert (ss_bidNextP (st_state s1) = next_page n0 + blen L) as Hnx by (rewrite C8, <- E5; done).
  set (bid := next_page n0 + blen L) in *. set (ib := slot_addr k) in *.
  set (s2 := with_state s1 (set_bidNextP (st_state s1) (bid + 1))). set (ref := mkBREF bid ib).
  assert (bid ≠ ib) as Hne by (destruct (Hp3 bid ltac:(lia)); [intros E; by rewrite E in *|lia]).
  exists ref, (mkEnc (mkNDB s2 (n_cat (es_ndb st))) (<[ib := page_image (tp_payload p) (tp_type p) bid ib]> (es_pages st)) (es_new st ++ [ib])).
  split.
  { unfold enc_alloc. assert (on_ndb (on_store AllocatePage) st = (mkEnc (with_store (es_ndb st) s1) (es_pages st) (es_new st), Ok ib)) as R1
      by (unfold on_ndb, on_store, zoom; by rewrite Ha).
    rewrite (st_bind_Ok _ _ _ _ _ R1), st_modify_bind. cbn [es_ndb es_pages es_new].
    set (st1 := mkEnc _ _ _). assert (on_ndb (on_store takePageBID) st1 = (mkEnc (mkNDB s2 (n_cat (es_ndb st))) (es_pages st) (es_new st ++ [ib]), Ok bid)) as R2.
    { unfold on_ndb, on_store, zoom. cbn [es_ndb n_store with_store st1]. rewrite take_page_bid by (rewrite Hnx; lia). by rewrite Hnx. }
    rewrite (st_bind_Ok _ _ _ _ _ R2). rewrite (proj2 (Z.eqb_neq _ _)) by done. rewrite C2, C3. cbn [Z.eqb negb].
    rewrite EncodePage_payload by (done || lia). erewrite st_bind_Ok by reflexivity. by rewrite st_modify_bind. }
  assert (page_ready (mkEnc (mkNDB s2 (n_cat (es_ndb st))) (<[ib := page_image (tp_payload p) (tp_type p) bid ib]> (es_pages st)) (es_new st ++ [ib])) ref p) as Hrd.
  { split; [apply lookup_insert_eq|]. split_and!; try done; [unfold fits; cbn; lia|cbn; lia]. }
  split; [|split; [done|]].
  - assert (blen (L ++ [ref]) = blen L + 1) as Hbl by (rewrite blen_app; done). split; rewrite ?map_app, ?Hbl; cbn [map].
    + rewrite app_assoc. by apply (ndb_wf_same _ _ C1); [..|apply (wf_undo _ (wf_maps_wf _ (nw_store _ C1)))].
    + done.
    + by rewrite <- E3.
    + rewrite seqZ_app by lia. rewrite <- E4. done.
    + change (bid + 1 = next_page n0 + (blen L + 1)). subst bid. lia.
    + change (RegionCount (n_store _)) with (RegionCount s1) at 2 3. lia.
    + apply Forall_app. split; [done|]. by repeat constructor.
    + cbn [es_pages]. intros i [x [[<- _]|[_ Hx]]%lookup_insert_Some]; apply elem_of_app; [right; by left|left; apply E8; by exists x].
    + intros b d Hb. apply E9, C9 in Hb. destruct Hb as (e & He & Hd). by exists e.
    + intros q Hq. by apply E10, C10 in Hq.
  - intros r q (Q1 & Q2). split; [|done]. cbn [es_pages]. rewrite lookup_insert_ne; [done|]. intros E. apply C4. rewrite E.
    apply elem_of_app. right. apply E8. by eexists.
Qed.

(** The pages that a later state shows. *)
Lemma ready_is st img ref p : TI_Pages img = es_pages st → page_ready st ref p → page_is img ref p.
Proof.
  intros Hi (Q1 & Q2 & Q3 & Q4 & Q5 & Q6). destruct (InspectBTPage_image p (BREF_BID ref) (BREF_IB ref) Q2 Q3 Q4 Q5 Q6) as (v & Hv & V1 & V2 & V3 & V4 & V5).
  exists v. split; [|by split_and!]. unfold page, rawAt. rewrite Hi, Q1, mret_Ok, bind_Ok, Hv, bind_Ok, V2, Z.eqb_refl. done.
Qed.
Lemma encoding_start n : ndb_wf n → encoding n [] (mkEnc n ∅ []).
Proof.
  intros Hwf. split; cbn [map es_ndb es_new es_pages]; change (blen (@nil BREF)) with 0; try done; try lia; rewrite ?app_nil_r.
  - unfold claims, live_pages. destruct n as [s []]. done.
  - intros ib [x Hx]. by rewrite lookup_empty in Hx.
Qed.
(** Giving the pages of the last commit back. *)
Lemma free_pages old : ∀ new n, ndb_wf (claims n (old ++ new)) → Forall (λ p, reaches (n_store n) (p + PageSize)) old →
  ∃ n', run_each (λ ib, on_store (Free ib PageSize)) old n = (n', Ok tt) ∧ n_cat n' = n_cat n ∧ ndb_wf (claims n' new) ∧
    st_state (n_store n') = set_regions (st_state (n_store n)) (regions (n_store n')) ∧
    (∀ bid d, payload n bid d → payload n' bid d).
Proof.
  induction old as [|p old IH]; intros new n Hwf Hr; cbn [run_each].
  { exists n. split_and!; try done. destruct (n_store n) as [[] ? ? ?]. done. }
  apply Forall_cons in Hr as [Hp Hr]. destruct (free_page n p (old ++ new) Hwf Hp) as (s1 & F1 & F2 & F3 & F4 & F5 & F6 & F7).
  destruct (IH new (with_store n s1) F2) as (n' & G1 & G2 & G3 & G4 & G5).
  { apply Forall_forall. intros q Hq. rewrite Forall_forall in Hr. specialize (Hr q Hq).
    destruct (nw_pages _ Hwf q) as [[k [P1 _ P3 _ _]] _]; [right; apply elem_of_app; by left|].
    change (n_store (with_store n s1)) with s1. replace (q + PageSize) with (slot_addr (k + 8)) in * by (rewrite P1; unfold slot_addr, PageSize; lia).
    apply F7; [|done]. destruct P3 as (? & _ & _ & ?). unfold claims in *. cbn in *. lia. }
  exists n'. rewrite (st_bind_Ok _ _ n (with_store n s1) tt) by (unfold on_store, zoom; by rewrite F1).
  split_and!; [done|done|done| |auto]. rewrite G4. cbn. rewrite F4. done.
Qed.

(** ** The two trees *)
Section encode.
Context `{!MapOrder} `{!SortSlice}.
(** What the encoder needs of the catalog. *)
Record encodable (n : NDB) : Prop := mkEncodable {
  en_wf : ndb_wf n;
  en_nodes : ∀ nid e, n_nodes n !! nid = Some e → N_NID e = nid ∧ ke_wf e ∧ valid e;
  en_counts : ∀ bid, is_Some (n_blocks n !! bid) → 0 < live (n_cat n) bid < 65535;
  en_pages : Forall (λ p, reaches (n_store n) (p + PageSize)) (live_pages n) }.
(** A bound on the pages of the two trees. *)
Definition tree_room (n : NDB) : Z := 2 * Z.of_nat (size (n_nodes n)) + 2 * Z.of_nat (size (n_blocks n)) + 2.

Lemma sorted_strict {A} (key : A → Z) (l : list A) : NoDup (map key l) → StronglySorted Z.lt (map key (sort_by key l)).
Proof. intros Hd. apply strict_order; [by rewrite sort_by_perm|apply sort_by_sorted]. Qed.
Lemma filter_all {A} (P : A → Prop) `{!∀ x, Decision (P x)} (l : list A) : (∀ x, x ∈ l → P x) → filter P l = l.
Proof.
  induction l as [|x l IH]; intros Hl; [done|]. rewrite filter_cons_True by (apply Hl; left). f_equal. apply IH. intros y Hy. apply Hl. by right.
Qed.
Lemma range_values {V} (m : gmap Z V) v : v ∈ map snd (range m) ↔ ∃ k, m !! k = Some v.
Proof.
  rewrite list_elem_of_fmap. split.
  - intros ([k x] & -> & Hin). rewrite range_perm, elem_of_map_to_list in Hin. by exists k.
  - intros [k Hk]. exists (k, v). split; [done|]. by rewrite range_perm, elem_of_map_to_list.
Qed.
Lemma range_nodup {V} (m : gmap Z V) (key : V → Z) : (∀ k v, m !! k = Some v → key v = k) → NoDup (map key (map snd (range m))).
Proof.
  intros Hk. assert (map key (map snd (range m)) = map fst (range m)) as ->.
  { rewrite map_map. apply map_ext_in. intros [k v] Hin%list_elem_of_In. rewrite range_perm, elem_of_map_to_list in Hin. by apply Hk. }
  rewrite range_perm. apply NoDup_fst_map_to_list.
Qed.
Lemma range_size {V} (m : gmap Z V) : blen (range m) = Z.of_nat (size m).
Proof. unfold blen. by rewrite range_perm, length_map_to_list. Qed.
Lemma sortedNodes_facts n : encodable n →
  Forall valid (sortedNodes n) ∧ Forall ke_wf (sortedNodes n) ∧ StronglySorted Z.lt (map ke_key (sortedNodes n)) ∧
  blen (sortedNodes n) = Z.of_nat (size (n_nodes n)) ∧ ∀ e, e ∈ sortedNodes n ↔ n_nodes n !! N_NID e = Some e.
Proof.
  intros [_ Hn _ _]. assert (∀ e, e ∈ sortedNodes n ↔ n_nodes n !! N_NID e = Some e) as Hin.
  { intros e. unfold sortedNodes, sortNBT. rewrite sort_by_perm, range_values. split; [|by eexists].
    intros [k Hk]. by destruct (Hn k e Hk) as [-> _]. }
  split_and!; try done.
  - apply Forall_forall. intros e He%Hin. by apply (Hn _ _ He).
  - apply Forall_forall. intros e He%Hin. by apply (Hn _ _ He).
  - apply sorted_strict, range_nodup. intros k v Hk. by apply (Hn k v Hk).
  - unfold sortedNodes, sortNBT, blen. by rewrite sort_by_perm, length_map, range_perm, length_map_to_list.
Qed.
Lemma block_facts n bid e : encodable n → n_blocks n !! bid = Some e → B_BID e = bid ∧ ke_wf e ∧ valid e ∧ 2 ≤ B_RefCount e ∧
  B_RefCount e = 1 + live (n_cat n) bid.
Proof.
  intros [Hwf _ Hc _] He. destruct (nw_ok n Hwf) as [Hcat [Hnx [Hr Hm] Hids]].
  destruct (ck_blocks _ _ _ Hcat bid e He) as (Hb & Hz & [Hs|Href]); [done|].
  destruct (bid_below_range _ _ (Hids bid ltac:(by exists e)) ltac:(lia)) as [Hf Hev].
  destruct (nw_blocks n Hwf bid e He) as (k & [P1 P2 P3 _ _]). specialize (Hc bid ltac:(by exists e)).
  assert (B_RefCount e = 1 + live (n_cat n) bid) as Hrc.
  { rewrite Href. unfold computeRef, live in *. rewrite u16_small; lia. }
  pose proof (wf_room _ (wf_maps_wf _ (nw_store n Hwf))) as [_ Hroom]. destruct P3 as (K0 & K1 & _ & K3).
  split_and!; [done| | |lia|done].
  - split_and!; unfold fits; rewrite ?Hb, ?P1, ?Hrc; unfold slot_addr, MaxDataBlockCB in *; lia.
  - unfold valid. cbn. unfold check_BBTEntry. rewrite Hb, Hrc. rewrite !(proj2 (Z.eqb_neq _ 0)) by lia.
    assert (BIDHasReserved bid = false) as ->; [|done]. rewrite BIDHasReserved_bit. rewrite <- Z.bit0_mod in Hev. by destruct (Z.testbit bid 0).
Qed.
Lemma ownedBlocks_facts n : encodable n →
  Forall valid (ownedBlocks n) ∧ Forall ke_wf (ownedBlocks n) ∧ StronglySorted Z.lt (map ke_key (ownedBlocks n)) ∧
  blen (ownedBlocks n) = Z.of_nat (size (n_blocks n)) ∧ ∀ e, e ∈ ownedBlocks n ↔ n_blocks n !! B_BID e = Some e.
Proof.
  intros He. assert (ownedBlocks n = sort_by B_BID (map snd (range (n_blocks n)))) as Eo.
  { unfold ownedBlocks, sortBBT. f_equal. apply filter_all. intros e (k & Hk)%range_values.
    destruct (block_facts n k e He Hk) as (-> & _). pose proof (en_counts n He k ltac:(by exists e)). unfold live in *. lia. }
  assert (∀ e, e ∈ ownedBlocks n ↔ n_blocks n !! B_BID e = Some e) as Hin.
  { intros e. rewrite Eo, sort_by_perm, range_values. split; [|by eexists]. intros [k Hk]. by destruct (block_facts n k e He Hk) as (-> & _). }
  split_and!; try done.
  - apply Forall_forall. intros e Hi%Hin. by apply (block_facts n _ e He Hi).
  - apply Forall_forall. intros e Hi%Hin. by apply (block_facts n _ e He Hi).
  - rewrite Eo. apply sorted_strict, range_nodup. intros k v Hk. by apply (block_facts n k v He Hk).
  - rewrite Eo. unfold blen. by rewrite sort_by_perm, length_map, range_perm, length_map_to_list.
Qed.
Lemma alloc_step n0 N ptype : region_ok (RegionCount (n_store n0) + N) → page_bids_ok n0 N →
  ∀ L st p, encoding n0 L st → blen L < N → tp_wf p → tp_ok p → tp_type p = ptype →
  ∃ ref st', enc_alloc (tp_payload p) ptype st = (st', Ok ref) ∧ encoding n0 (L ++ [ref]) st' ∧ page_ready st' ref p ∧ kept page_ready st st'.
Proof. intros Hr Hp L st p HE HL Hw Hok <-. by apply (enc_alloc_Ok n0 N). Qed.
Lemma ready_ref st r p : page_ready st r p → fits 64 (BREF_BID r) ∧ fits 64 (BREF_IB r) ∧ BREF_BID r ≠ 0.
Proof. by intros (_ & _ & _ & ? & ? & ?). Qed.
Record encoded (n : NDB) (st : EncState) (t1 : subtree NBTEntry) (t2 : subtree BBTEntry) : Prop := mkEncoded {
  ed_nbt : ∃ h, (h ≤ 64)%nat ∧ ptree NBTPage (page_ready st) h t1;
  ed_bbt : ∃ h, (h ≤ 64)%nat ∧ ptree BBTPage (page_ready st) h t2;
  ed_nodes : t_es t1 = sortedNodes n;
  ed_blocks : t_es t2 = ownedBlocks n;
  ed_new : es_new st ≡ₚ map BREF_IB (t_refs t1 ++ t_refs t2);
  ed_refs : Forall ref_ok (t_refs t1 ++ t_refs t2) ∧ apart_refs (t_refs t1 ++ t_refs t2);
  ed_wf : ndb_wf (claims (es_ndb st) (es_new st));
  ed_cat : n_cat (es_ndb st) = n_cat n;
  ed_payload : ∀ bid d, payload n bid d → payload (es_ndb st) bid d }.
Lemma wf_perm n ps ps' : ps ≡ₚ ps' → ndb_wf (claims n ps) → ndb_wf (claims n ps').
Proof.
  intros Hp [W1 [[C1 C2 C3 C4] I] W3 W4 W5 W6]. split; [done|split; [by split|]|done|done| |].
  - destruct I. by split.
  - intros q Hq. apply W5. change (q ∈ ps). by rewrite Hp.
  - change (NoDup ps'). by rewrite <- Hp.
Qed.
Lemma run_each_on_ndb (f : Z → ST NDB unit) l st n' r : run_each f l (es_ndb st) = (n', r) →
  run_each (λ ib, on_ndb (f ib)) l st = (mkEnc n' (es_pages st) (es_new st), r).
Proof.
  revert st. induction l as [|x l IH]; intros st; cbn [run_each]; [by intros [= <- <-]; destruct st|].
  unfold mbind, ST_bind, on_ndb at 1, zoom. destruct (f x (es_ndb st)) as [n1 [[]|e|]]; [|by intros [= <- <-]..].
  intros Hr. by apply (IH (mkEnc n1 (es_pages st) (es_new st))).
Qed.
Lemma NBT_key_fits (e : NBTEntry) : ke_wf e → fits 64 (ke_key e). Proof. by intros []. Qed.
Lemma BBT_key_fits (e : BBTEntry) : ke_wf e → fits 64 (ke_key e). Proof. by intros []. Qed.
Lemma encode_trees_Ok n : encodable n → region_ok (RegionCount (n_store n) + tree_room n) → page_bids_ok n (tree_room n) →
  ∃ st' t1 t2, encode_trees (mkEnc n ∅ []) = (st', Ok (t_ref t1, t_ref t2)) ∧ encoded n st' t1 t2.
Proof.
  intros He Hroom Hbids. pose proof He as [Hwf _ _ Hpages]. set (N := tree_room n) in *.
  destruct (sortedNodes_facts n He) as (V1 & W1 & S1 & L1 & _), (ownedBlocks_facts n He) as (V2 & W2 & S2 & L2 & _).
  pose proof (encoding_start n Hwf) as E0. unfold N, tree_room in *.
  assert (Z.of_nat (size (n_nodes n)) < 2 ^ 64 ∧ Z.of_nat (size (n_blocks n)) < 2 ^ 64) as [B1 B2].
  { destruct Hbids as (? & ? & _). lia. }
  destruct (encodeTree_Ok PageNBT enc_alloc page_ready (encoding n) _ (alloc_step n _ PageNBT Hroom Hbids) ready_ref NBTPage
    (λ _, eq_refl) (or_introl eq_refl) NBT_key_fits (λ chunk, encodeBTPayload PageNBT 0 chunk [] []) MaxNBTLeafEntries)
    with (leaves := sortedNodes n) (L := @nil BREF) (st := mkEnc n ∅ []) as (st1 & t1 & h1 & M1 & R1 & E1 & P1 & T1 & Es1 & _ & H1 & B3); try done.
  { intros es Hok Hw. split; [|by split]. destruct (encode_payload (NBTPage es) Hw I) as [Hp _]. by apply Hp. }
  { rewrite L1. lia. }
  { rewrite L1. change (blen (@nil BREF)) with 0. lia. }
  cbn [app] in E1. rewrite L1 in B3.
  destruct (encodeTree_Ok PageBBT enc_alloc page_ready (encoding n) _ (alloc_step n _ PageBBT Hroom Hbids) ready_ref BBTPage
    (λ _, eq_refl) (or_intror eq_refl) BBT_key_fits (λ chunk, encodeBTPayload PageBBT 0 [] chunk []) MaxBBTLeafEntries)
    with (leaves := ownedBlocks n) (L := M1) (st := st1) as (st2 & t2 & h2 & M2 & R2 & E2 & P2 & T2 & Es2 & K2 & H2 & _); try done.
  { intros es Hok Hw. split; [|by split]. destruct (encode_payload (BBTPage es) Hw I) as [Hp _]. by apply Hp. }
  { rewrite L2. lia. }
  { rewrite L2. lia. }
  pose proof E2 as [X1 X2 X3 X4 X5 X6 X7 X8 X9 X10]. rewrite map_app in X1.
  destruct (free_pages (live_pages n) (map BREF_IB M1 ++ map BREF_IB M2) (es_ndb st2) X1) as (n' & F1 & F2 & F3 & F4 & F5).
  { eapply Forall_impl; [exact Hpages|]. intros p Hp. by apply X10. }
  exists (mkEnc n' (es_pages st2) (es_new st2)), t1, t2. split.
  { unfold encode_trees. rewrite st_get_bind. cbn [es_ndb]. rewrite (st_bind_Ok _ _ _ _ _ R1), (st_bind_Ok _ _ _ _ _ R2), st_get_bind, X2.
    rewrite (st_bind_Ok _ _ _ _ _ (run_each_on_ndb _ _ _ _ _ F1)). done. }
  assert (M1 ++ M2 ≡ₚ t_refs t1 ++ t_refs t2) as HM by (by rewrite P1, P2).
  split; cbn [es_ndb es_pages es_new].
  - exists h1. split; [done|]. apply (ptree_mono NBTPage (page_ready st2)); [by intros r p Hp|]. by apply (ptree_mono NBTPage (page_ready st1)).
  - exists h2. split; [done|]. by apply (ptree_mono BBTPage (page_ready st2)).
  - done.
  - done.
  - by rewrite X3, HM.
  - split; [by rewrite <- HM|]. split.
    + rewrite <- HM, map_app. pose proof (nw_nodup _ X1) as Hnd. change (NoDup (live_pages n ++ map BREF_IB M1 ++ map BREF_IB M2)) in Hnd.
      by apply NoDup_app in Hnd as (_ & _ & ?).
    + rewrite <- HM, X4. apply NoDup_seqZ.
  - by rewrite X3, map_app.
  - by rewrite F2.
  - intros bid d Hd. by apply F5, X9.
Qed.
End encode.
