(* ===== verification/V2TreeImage.v ===== *)
(** * Writer v2: the encoded trees read back

    An image of the two trees shows exactly the catalog: what [Encode] returns
    does, before anything is written. *)
From S2P Require Import Prelude Ids State V2Base V2Disk V2Entries V2Pages V2Bitmap V2Store V2Alloc V2Ndb V2Txn V2Catalog V2Extents V2Data V2DataTree V2Subnode V2SubTree V2Tree V2PageTree V2TreeBuild V2Encode.

(** ** The counts of a walk *)
Definition entry_refs (l : list NBTEntry) (bid : Z) : Z := foldr (λ e n, node_refs bid e + n) 0 l.
Lemma entry_refs_perm l l' bid : l ≡ₚ l' → entry_refs l bid = entry_refs l' bid.
Proof. unfold entry_refs. induction 1; cbn in *; lia. Qed.
Lemma entry_refs_live n bid : bid ≠ 0 → entry_refs (map snd (map_to_list (n_nodes n))) bid = nbtLiveRefs (n_cat n) bid.
Proof.
  intros Hb. unfold nbtLiveRefs. rewrite (proj2 (Z.eqb_neq bid 0)) by done. rewrite map_fold_foldr. change (cs_nodes (n_cat n)) with (n_nodes n).
  unfold entry_refs. generalize (map_to_list (n_nodes n)). intros l. induction l as [|[k e] l IH]; [done|]. cbn in *. lia.
Qed.
Lemma entry_refs_nonneg l bid : 0 ≤ entry_refs l bid.
Proof. unfold entry_refs. induction l as [|e l IH]; cbn; [done|]. pose proof (node_refs_nonneg bid e). lia. Qed.
Lemma StronglySorted_lt_NoDup (l : list Z) : StronglySorted Z.lt l → NoDup l.
Proof.
  induction 1 as [|x l _ IH Hf]; constructor; [|done]. intros Hx. rewrite Forall_forall in Hf. specialize (Hf x Hx). lia.
Qed.
Lemma count_insert (m : gmap Z Z) a x b : count_of (<[a := x]> m) b = if decide (a = b) then x else count_of m b.
Proof. unfold count_of. destruct (decide (a = b)) as [->|?]; [by rewrite lookup_insert_eq|by rewrite lookup_insert_ne]. Qed.
Lemma count_node_Ok (bbt : gmap Z BBTEntry) refs e : (∀ bid, bid ∈ [N_DataBID e; N_SubBID e] → bid ≠ 0 → is_Some (bbt !! bid)) →
  ∃ refs', count_node bbt refs e = Ok refs' ∧ ∀ bid, bid ≠ 0 → count_of refs' bid = count_of refs bid + node_refs bid e.
Proof.
  intros Hb. pose proof (Hb (N_DataBID e) ltac:(by left)) as Hd. pose proof (Hb (N_SubBID e) ltac:(right; by left)) as Hs.
  unfold count_node. cbn [fold_each].
  assert (∀ (r : gmap Z Z) b, (b ≠ 0 → is_Some (bbt !! b)) → ∃ r', (if b =? 0 then mret r else
      match bbt !! b with None => invariant "2.2.2.7.7.3.1" "bid" "NBT 0x%x references missing BID 0x%x" [N_NID e; b] | Some _ => mret (<[b := count_of r b + 1]> r) end) = Ok r' ∧
      ∀ bid, bid ≠ 0 → count_of r' bid = count_of r bid + (if b =? bid then 1 else 0)) as Hone.
  { intros r b Hx. destruct (Z.eqb_spec b 0) as [->|Hn].
    - exists r. split; [done|]. intros bid Hbid. rewrite (proj2 (Z.eqb_neq _ _)) by done. lia.
    - destruct (Hx Hn) as [y ->]. eexists. split; [done|]. intros bid Hbid. rewrite count_insert.
      destruct (decide (b = bid)) as [->|?]; [rewrite Z.eqb_refl; lia|]. rewrite (proj2 (Z.eqb_neq _ _)) by done. lia. }
  destruct (Hone refs (N_DataBID e) Hd) as (r1 & -> & C1). rewrite bind_Ok. destruct (Hone r1 (N_SubBID e) Hs) as (r2 & -> & C2).
  exists r2. split; [done|]. intros bid Hbid. rewrite C2, C1 by done. unfold node_refs. lia.
Qed.
Lemma count_nodes_Ok (bbt : gmap Z BBTEntry) l : ∀ refs,
  (∀ e bid, e ∈ l → bid ∈ [N_DataBID e; N_SubBID e] → bid ≠ 0 → is_Some (bbt !! bid)) →
  ∃ refs', fold_each (count_node bbt) l refs = Ok refs' ∧ ∀ bid, bid ≠ 0 → count_of refs' bid = count_of refs bid + entry_refs l bid.
Proof.
  induction l as [|e l IH]; intros refs Hb; [exists refs; split; [done|intros; cbn; lia]|].
  destruct (count_node_Ok bbt refs e) as (r1 & E1 & C1); [intros bid; apply Hb; left|].
  destruct (IH r1) as (r2 & E2 & C2); [intros x bid Hx; apply Hb; by right|]. exists r2. cbn [fold_each]. rewrite E1, bind_Ok. split; [done|].
  intros bid Hbid. rewrite C2, C1 by done. cbn. unfold entry_refs. lia.
Qed.
Lemma add_blocks_Ok l : ∀ m, NoDup (map B_BID l) → (∀ e, e ∈ l → m !! B_BID e = None ∧ 2 ≤ B_RefCount e) →
  ∃ m', fold_each add_bbt l m = Ok m' ∧ ∀ k e, m' !! k = Some e ↔ m !! k = Some e ∨ e ∈ l ∧ B_BID e = k.
Proof.
  induction l as [|x l IH]; intros m Hd Hl.
  { exists m. split; [done|]. intros k e. split; [by left|]. by intros [?|[?%not_elem_of_nil _]]. }
  cbn [map] in Hd. apply NoDup_cons in Hd as [Hx Hd]. destruct (Hl x ltac:(left)) as [Hm Hr].
  destruct (IH (<[B_BID x := x]> m) Hd) as (m' & E & Hm').
  { intros e He. destruct (Hl e ltac:(by right)) as [Hme ?]. split; [|done]. rewrite lookup_insert_ne; [done|]. intros Eq. apply Hx. rewrite Eq.
    by apply list_elem_of_fmap_2. }
  assert (add_bbt m x = Ok (<[B_BID x := x]> m)) as Ex by (unfold add_bbt; rewrite Hm, (proj2 (Z.ltb_ge _ _)) by lia; done).
  exists m'. cbn [fold_each]. rewrite Ex, bind_Ok. split; [done|].
  intros k e. rewrite Hm', lookup_insert_Some, elem_of_cons. split.
  - intros [[[<- <-]|[? ?]]|[? ?]]; auto.
  - intros [Hk|[[->|He] <-]]; [|by left; left|by right]. left. right. split; [|done]. intros <-. congruence.
Qed.

(** ** What an image shows *)
Section image.
Context `{!MapOrder} `{!SortSlice}.
(** Every search and walk of the image, at a depth of call, against the catalog. *)
Record shows_catalog (depth : nat) (img : TreeImage) (n : NDB) : Prop := mkShows {
  sc_node : ∀ nid, match n_nodes n !! nid with Some e => LookupNode depth img nid = Ok e | None => ∃ err, LookupNode depth img nid = Err err end;
  sc_block : ∀ bid, match n_blocks n !! bid with Some e => TreeImage_LookupBlock depth img bid = Ok e | None => ∃ err, TreeImage_LookupBlock depth img bid = Err err end;
  sc_nodes : ∀ A (fn : A → NBTEntry → result A) a, WalkNBT depth img fn a = fold_each fn (sortedNodes n) a;
  sc_blocks : ∀ A (fn : A → BBTEntry → result A) a, WalkBBT depth img fn a = fold_each fn (ownedBlocks n) a;
  sc_check : CheckTrees depth img = Ok tt;
  sc_pages : ∃ ibs, collectPageIBs depth img = Ok ibs ∧ ibs ≡ₚ live_pages n }.

Lemma find_key {A} `{!KeyedEntry A} (es : list A) (key : Z) :
  match list_find (λ e, ke_key e = key) es with
  | Some (_, e) => e ∈ es ∧ ke_key e = key | None => ∀ e, e ∈ es → ke_key e ≠ key end.
Proof.
  destruct (list_find _ es) as [[i e]|] eqn:E.
  - apply list_find_Some in E as (Hi & Hk & _). split; [by eapply list_elem_of_lookup_2|done].
  - apply list_find_None in E. by rewrite Forall_forall in E.
Qed.
Lemma nbt_first v e es : shows v (NBTPage (e :: es)) → firstKey v = Ok (ke_key e).
Proof.
  intros Hsh. pose proof (shows_nbt v _ Hsh) as Hb. destruct Hsh as (_ & Ht & Hl & Hc). unfold firstKey. rewrite Ht, Hl, Hc, Hb. cbn [tp_count tp_level tp_type].
  by rewrite (proj2 (Z.eqb_neq _ 0)) by (rewrite blen_cons; pose proof (blen_nonneg es); lia).
Qed.
Lemma bbt_first v e es : shows v (BBTPage (e :: es)) → firstKey v = Ok (ke_key e).
Proof.
  intros Hsh. pose proof (shows_bbt v _ Hsh) as Hb. destruct Hsh as (_ & Ht & Hl & Hc). unfold firstKey. rewrite Ht, Hl, Hc, Hb. cbn [tp_count tp_level tp_type].
  by rewrite (proj2 (Z.eqb_neq _ 0)) by (rewrite blen_cons; pose proof (blen_nonneg es); lia).
Qed.
Lemma each_range {V} (f : Z * V → result unit) (m : gmap Z V) : (∀ k v, m !! k = Some v → f (k, v) = Ok tt) → each f (range m) = Ok tt.
Proof. intros Hf. apply each_Ok. intros [k v] Hin. rewrite range_perm, elem_of_map_to_list in Hin. by apply Hf. Qed.
Lemma CheckTrees_Ok n img t1 t2 h1 h2 depth : encodable n → (h1 < depth)%nat → (h2 < depth)%nat →
  ptree NBTPage (page_is img) h1 t1 → ptree BBTPage (page_is img) h2 t2 → t_ref t1 = TI_NBTRoot img → t_ref t2 = TI_BBTRoot img →
  Forall ref_ok (t_refs t1 ++ t_refs t2) → apart_refs (t_refs t1 ++ t_refs t2) →
  (∀ A (fn : A → NBTEntry → result A) a, WalkNBT depth img fn a = fold_each fn (sortedNodes n) a) →
  (∀ A (fn : A → BBTEntry → result A) a, WalkBBT depth img fn a = fold_each fn (ownedBlocks n) a) →
  CheckTrees depth img = Ok tt.
Proof.
  intros He Hh1 Hh2 T1 T2 R1 R2 Hok Hap W1 W2. apply Forall_app in Hok as [Ok1 Ok2]. pose proof Hap as (A1 & A2 & _)%apart_app.
  destruct (sortedNodes_facts n He) as (_ & _ & _ & _ & I1), (ownedBlocks_facts n He) as (_ & _ & S2 & _ & I2).
  destruct (check_tree NBTPage img (λ es, conj eq_refl (conj eq_refl eq_refl)) nbt_first h1 t1 T1 depth (∅, [])) as (seen1 & C1 & M1); [done..| |].
  { intros r _. split; [apply not_elem_of_nil|apply lookup_empty]. }
  destruct (check_tree BBTPage img (λ es, conj eq_refl (conj eq_refl eq_refl)) bbt_first h2 t2 T2 depth seen1) as (seen2 & C2 & _); [done..| |].
  { eapply unseen_more; [|exact Hap|exact M1]. intros r _. split; [apply not_elem_of_nil|apply lookup_empty]. }
  unfold CheckTrees. rewrite <- R1, <- R2. cbn [tp_type] in C1, C2. rewrite C1, C2. rewrite !bind_Ok. cbn [snd]. rewrite bind_Ok, W2.
  destruct (add_blocks_Ok (ownedBlocks n) ∅) as (bbt & E & Hb).
  { change (map B_BID (ownedBlocks n)) with (map ke_key (ownedBlocks n)). by eapply StronglySorted_lt_NoDup. }
  { intros e Hin%I2. split; [apply lookup_empty|]. by apply (block_facts n (B_BID e) e He Hin). }
  assert (∀ k e, bbt !! k = Some e ↔ n_blocks n !! k = Some e) as Hbbt.
  { intros k e. rewrite Hb, I2. split.
    - intros [H1|[H1 <-]]; [by rewrite lookup_empty in H1|done].
    - intros H1. right. by destruct (block_facts n k e He H1) as (-> & _). }
  rewrite E, bind_Ok, W1. destruct (count_nodes_Ok bbt (sortedNodes n) ∅) as (refs & E' & Hc).
  { intros e bid Hin%I1 Hbid Hz. pose proof (nw_ok n (en_wf n He)) as [Hcat _]. destruct (ck_nodes _ _ _ Hcat _ e bid Hin Hbid Hz) as [x Hx].
    exists x. by apply Hbbt. }
  rewrite E', bind_Ok. apply each_range. intros bid e Hbe. apply Hbbt in Hbe.
  destruct (block_facts n bid e He Hbe) as (Hbid & _ & _ & H2 & Hrc).
  pose proof (nw_ok n (en_wf n He)) as [Hcat _]. destruct (ck_blocks _ _ _ Hcat bid e Hbe) as (_ & Hz & _).
  rewrite Hc by done. unfold count_of at 1 2. rewrite lookup_empty. cbn [default from_option id].
  assert (entry_refs (sortedNodes n) bid = nbtLiveRefs (n_cat n) bid) as Hcnt.
  { rewrite <- entry_refs_live by done. apply entry_refs_perm. unfold sortedNodes, sortNBT. by rewrite sort_by_perm, range_perm. }
  pose proof (extraLive_nonneg _ _ _ bid Hcat). pose proof (en_counts n He bid ltac:(by exists e)). unfold live in *.
  rewrite Hcnt. assert (0 ≤ nbtLiveRefs (n_cat n) bid) by (rewrite <- Hcnt; apply entry_refs_nonneg).
  rewrite u16_small by lia. by rewrite (proj2 (Z.ltb_ge _ _)) by lia.
Qed.
Lemma shows_trees n ps img t1 t2 h1 h2 depth : encodable n → (h1 < depth)%nat → (h2 < depth)%nat →
  ptree NBTPage (page_is img) h1 t1 → ptree BBTPage (page_is img) h2 t2 → t_ref t1 = TI_NBTRoot img → t_ref t2 = TI_BBTRoot img →
  t_es t1 = sortedNodes n → t_es t2 = ownedBlocks n →
  Forall ref_ok (t_refs t1 ++ t_refs t2) → apart_refs (t_refs t1 ++ t_refs t2) → map BREF_IB (t_refs t1 ++ t_refs t2) ≡ₚ ps →
  shows_catalog depth img (claims n ps).
Proof.
  intros He Hh1 Hh2 T1 T2 R1 R2 Es1 Es2 Hok Hap Hl.
  destruct (sortedNodes_facts n He) as (_ & _ & S1 & _ & I1), (ownedBlocks_facts n He) as (_ & _ & S2 & _ & I2).
  assert (∀ A (fn : A → NBTEntry → result A) a, WalkNBT depth img fn a = fold_each fn (sortedNodes n) a) as W1.
  { intros A fn a. unfold WalkNBT. rewrite <- R1, <- Es1. apply (walkLeaves_tree NBTPage img (λ _, eq_refl) fn _ h1); [|done|done].
    intros a' v es Hsh. by rewrite (shows_nbt v es Hsh). }
  assert (∀ A (fn : A → BBTEntry → result A) a, WalkBBT depth img fn a = fold_each fn (ownedBlocks n) a) as W2.
  { intros A fn a. unfold WalkBBT. rewrite <- R2, <- Es2. apply (walkLeaves_tree BBTPage img (λ _, eq_refl) fn _ h2); [|done|done].
    intros a' v es Hsh. by rewrite (shows_bbt v es Hsh). }
  split; change (n_nodes (claims n ps)) with (n_nodes n); change (n_blocks (claims n ps)) with (n_blocks n).
  - intros nid. rewrite <- Es1 in S1. pose proof (walk_tree NBTPage img (λ _, eq_refl) nid h1 t1 depth T1 ltac:(lia) S1) as Hw.
    unfold LookupNode. rewrite <- R1. rewrite Es1 in Hw.
    destruct (walk depth img (t_ref t1) nid) as [v|e|]; [|rewrite bind_Err|done].
    + destruct Hw as (es & Hsh & Hsub & Hin). rewrite bind_Ok, (shows_nbt v es Hsh). pose proof (find_key es nid) as Hf. change (@ke_key NBTEntry _) with N_NID in Hf.
      destruct (list_find _ es) as [[i e]|].
      * destruct Hf as [Hf <-]. apply Hsub, I1 in Hf. by rewrite Hf.
      * destruct (n_nodes n !! nid) as [e|] eqn:E; [|by eexists]. exfalso. destruct (en_nodes n He nid e E) as (Hk & _).
        apply (Hf e); [|done]. apply Hin; [apply I1; by rewrite Hk|done].
    + destruct (n_nodes n !! nid) as [x|] eqn:E; [|by eexists]. exfalso. destruct (en_nodes n He nid x E) as (Hk & _).
      apply (Hw x); [apply I1; by rewrite Hk|done].
  - intros bid. rewrite <- Es2 in S2. pose proof (walk_tree BBTPage img (λ _, eq_refl) bid h2 t2 depth T2 ltac:(lia) S2) as Hw.
    unfold TreeImage_LookupBlock. rewrite <- R2. rewrite Es2 in Hw.
    destruct (walk depth img (t_ref t2) bid) as [v|e|]; [|rewrite bind_Err|done].
    + destruct Hw as (es & Hsh & Hsub & Hin). rewrite bind_Ok, (shows_bbt v es Hsh). pose proof (find_key es bid) as Hf. change (@ke_key BBTEntry _) with B_BID in Hf.
      destruct (list_find _ es) as [[i e]|].
      * destruct Hf as [Hf <-]. apply Hsub, I2 in Hf. by rewrite Hf.
      * destruct (n_blocks n !! bid) as [e|] eqn:E; [|by eexists]. exfalso. destruct (block_facts n bid e He E) as (Hk & _).
        apply (Hf e); [|done]. apply Hin; [apply I2; by rewrite Hk|done].
    + destruct (n_blocks n !! bid) as [x|] eqn:E; [|by eexists]. exfalso. destruct (block_facts n bid x He E) as (Hk & _).
      apply (Hw x); [apply I2; by rewrite Hk|done].
  - done.
  - done.
  - by apply (CheckTrees_Ok n img t1 t2 h1 h2).
  - eexists. unfold collectPageIBs. rewrite <- R1, <- R2.
    rewrite (collect_tree NBTPage img (λ _, eq_refl) h1 t1) by done. rewrite bind_Ok, (collect_tree BBTPage img (λ _, eq_refl) h2 t2) by done.
    split; [done|]. by rewrite app_nil_l, <- map_app.
Qed.

(** ** Encoding *)
Definition synced (n : NDB) : NDB := with_store n (with_state (n_store n) (set_nids (st_state (n_store n)) (nid (cs_ids (n_cat n))))).
Lemma sync_run n : syncRgNID n = (synced n, Ok tt).
Proof. done. Qed.
Lemma synced_encodable n : encodable n → encodable (synced n).
Proof.
  intros [W N C P]. split; [|done|done|done].
  by apply (ndb_wf_same n _ W); [..|apply (wf_undo _ (wf_maps_wf _ (nw_store n W)))].
Qed.
Lemma no_orphans n : encodable n → reclaimOrphans n = (n, Ok tt).
Proof.
  intros He. unfold reclaimOrphans. rewrite st_get_bind. pose proof (nw_ok n (en_wf n He)) as [Hcat _].
  assert (filter (λ bid, unreferenced (n_cat n) bid = true) (map fst (range (n_blocks n))) = []) as ->; [|done].
  apply elem_of_nil_inv. intros b [Hu (p & -> & Hin)%list_elem_of_fmap]%list_elem_of_filter. destruct p as [b e].
  rewrite range_perm, elem_of_map_to_list in Hin. unfold unreferenced in Hu. apply (live_zero _ _ _ _ Hcat) in Hu.
  pose proof (en_counts n He b ltac:(by exists e)). cbn in Hu. lia.
Qed.
End image.

Definition one_node : NDB := with_cat NewNDB (cat_nodes {[ 0x21 := mkNBTEntry 0x21 0 0 0 ]} (n_cat NewNDB)).
