(* ===== verification/V2Heap.v ===== *)
(** * Writer v2: heaps ([src/writer/v2/heap.go], [heap_read.go])

    The heap of a node: allocations on pages, each page one data block of the
    node, and values too large for a page as subnodes.  A [Heap] is built in
    memory and written by [Commit]; a [HeapView] is a heap read back. *)
From S2P Require Import Prelude Ids State V2Base V2Disk V2Entries V2Blocks V2Header V2Store V2Ndb V2Data V2Subnode.

(** ** Heap IDs *)
Definition HeapMaxAlloc : Z := 3580.
Definition HeapSignature : Z := 0xEC.
Definition HeapSigBTH : Z := 0xB5.
Definition HeapSigPC : Z := 0xBC.
Definition HeapSigTC : Z := 0x7C.
Definition HNMaxAllocsPerPage : Z := 2047.
Definition HNMaxBlockIndex : Z := 0xFFFF.
Definition HNHDRSize : Z := 12.
Definition HNPAGEHDRSize : Z := 2.
Definition HNBITMAPHDRSize : Z := 66.
Definition FillLevelEmpty : Z := 0.
Definition FillLevel1 : Z := 1.
Definition FillLevel2 : Z := 2.
Definition FillLevelFull : Z := 3.
Definition HNFillEmpty : Z := 3584.
Definition HNFillLevel1 : Z := 2560.
Definition HNFillLevel2 : Z := 2048.
Definition V2NIDTypeHID : Z := 0x00.
Definition V2NIDTypeLTP : Z := 0x1F.
Definition NIDTypeOf (nid : Z) : Z := Z.land nid 0x1F.

Definition hidIndexMask : Z := 0x7FF.
Definition MakeHID (block alloc0 : Z) : Z := Z.lor (u32 (Z.shiftl block 16)) (u32 (Z.shiftl (u16 (alloc0 + 1)) 5)).
Definition HIDBlock (hid : Z) : Z := u16 (Z.shiftr hid 16).
Definition HIDIndex (hid : Z) : Z := u16 (Z.land (Z.shiftr hid 5) hidIndexMask).
Definition IsHID (hnid : Z) : bool := Z.land hnid 0x1F =? 0.

(** ** Pages *)
Definition hnBitmapPage (i : Z) : bool := (8 <=? i) && ((i - 8) mod 128 =? 0).
Definition hnHeaderSize (i : Z) : Z := if i =? 0 then HNHDRSize else if hnBitmapPage i then HNBITMAPHDRSize else HNPAGEHDRSize.
Definition hnFillLevel (cbFree : Z) : Z :=
  if HNFillEmpty <=? cbFree then FillLevelEmpty else
  if HNFillLevel1 <=? cbFree then FillLevel1 else
  if HNFillLevel2 <=? cbFree then FillLevel2 else FillLevelFull.
Definition packFill (dst : bytes) (page level : Z) : bytes :=
  if (page <? 0) || (blen dst <=? page / 4) then dst else
  let shift := page mod 4 * 2 in
  let i := Z.to_nat (page / 4) in
  let b := Z.ldiff (default 0 (dst !! i)) (Z.shiftl 3 shift) in
  <[i := Z.lor b (u8 (Z.shiftl (Z.land level 3) shift))]> dst.
Definition unpackFill (src : bytes) (page : Z) : Z :=
  if (page <? 0) || (blen src <=? page / 4) then 0 else
  Z.land (Z.shiftr (default 0 (src !! Z.to_nat (page / 4))) (page mod 4 * 2)) 3.

Record hnPage := mkHnPage { hp_allocs : list bytes; hp_hids : list Z }.
Record heapSub := mkHeapSub { hs_nid : Z; hs_data : bytes; hs_leafCB : Z; hs_dataBID : Z; hs_subBID : Z }.
Record Heap := mkHeap { hb_clientSig : Z; hb_root : Z; hb_pages : list hnPage; hb_subs : list heapSub; hb_nextSub : Z }.
Definition NewHeap (clientSig : Z) : Heap := mkHeap clientSig 0 [] [] 1.
Definition heap_root (r : Z) (h : Heap) : Heap := mkHeap (hb_clientSig h) r (hb_pages h) (hb_subs h) (hb_nextSub h).
Definition heap_pages (ps : list hnPage) (h : Heap) : Heap := mkHeap (hb_clientSig h) (hb_root h) ps (hb_subs h) (hb_nextSub h).
Definition heap_subs (ss : list heapSub) (next : Z) (h : Heap) : Heap := mkHeap (hb_clientSig h) (hb_root h) (hb_pages h) ss next.
Definition SetRoot (hid : Z) : ST Heap unit := modify (heap_root hid).

Definition newSubChunked (data : bytes) (leafCB : Z) : ST Heap Z :=
  do h <- get;
  let nid := MakeNID V2NIDTypeLTP (hb_nextSub h) in
  modify (heap_subs (hb_subs h ++ [mkHeapSub nid data leafCB 0 0]) (u32 (hb_nextSub h + 1))) ;;
  mret nid.
Definition newSub (data : bytes) : ST Heap Z := newSubChunked data 0.

Definition alloc_bytes (allocs : list bytes) : Z := fold_left (λ n a, n + blen a) allocs 0.
Definition fits_page (i : Z) (allocs : list bytes) (size : Z) : bool :=
  if HNMaxAllocsPerPage <=? blen allocs then false else
  let used := hnHeaderSize i + 4 + 2 * (blen allocs + 1) + alloc_bytes allocs in
  used + (size + 2) <=? MaxDataBlockCB.
Definition page_allocs (h : Heap) (i : Z) : list bytes :=
  match hb_pages h !! Z.to_nat i with Some p => hp_allocs p | None => [] end.
(** The last page, or one more. *)
Definition page_for (size : Z) : ST Heap Z :=
  modify (λ h, match hb_pages h with [] => heap_pages [mkHnPage [] []] h | _ => h end) ;;
  do h <- get;
  let i := blen (hb_pages h) - 1 in
  if fits_page i (page_allocs h i) size then mret i else
  if (blen (page_allocs h i) =? 0) && (MaxDataBlockCB <? size + hnHeaderSize i + 6)
  then lift (limitErr "cb" "allocation %d does not fit an empty HN page (MS-PST %s)" [size]) else
  if HNMaxBlockIndex <=? i
  then lift (limitErr "hidBlockIndex" "HN page index %d exceeds 16-bit hidBlockIndex (MS-PST %s)" [i + 1]) else
  modify (λ h, heap_pages (hb_pages h ++ [mkHnPage [] []]) h) ;;
  if negb (fits_page (i + 1) [] size)
  then lift (limitErr "cb" "allocation %d does not fit HN page %d (MS-PST %s)" [size; i + 1]) else mret (i + 1).
Definition Heap_Allocate (data : bytes) : ST Heap Z :=
  if HeapMaxAlloc <? blen data then newSub data else
  do i <- page_for (blen data);
  if HNMaxBlockIndex <? i
  then lift (limitErr "hidBlockIndex" "HN page index %d exceeds 16-bit hidBlockIndex (MS-PST %s)" [i]) else
  do h <- get;
  let nAlloc := blen (page_allocs h i) in
  if HNMaxAllocsPerPage <=? nAlloc
  then lift (limitErr "hidIndex" "HN page %d already has %d allocations (MS-PST %s)" [i; nAlloc]) else
  let hid := MakeHID (u16 i) (u16 nAlloc) in
  modify (λ h, heap_pages (alter (λ p, mkHnPage (hp_allocs p ++ [data]) (hp_hids p ++ [hid])) (Z.to_nat i) (hb_pages h)) h) ;;
  mret hid.

(** A heap and the database it is built for. *)
Definition on_heap {A} (m : ST Heap A) : ST (NDB * Heap) A := zoom snd (λ st h, (st.1, h)) m.
Definition on_db {A} (m : ST NDB A) : ST (NDB * Heap) A := zoom fst (λ st n, (n, st.2)) m.
(** [io.LimitReader]: an error behind the limit is not met. *)
Definition limit_reader (r : Reader) (size : Z) : Reader :=
  mkReader (take (Z.to_nat size) (r_bytes r)) (if size <=? blen (r_bytes r) then None else r_err r).
Definition AllocateStream (r : option Reader) (size : Z) : ST (NDB * Heap) Z :=
  if size <? 0 then lift (invalidArg "size" "negative stream size %d" [size]) else
  if size <=? HeapMaxAlloc then
    do buf <- lift (if 0 <? size then
                      match r with
                      | None => invalidArg "reader" "data tree reader is nil" []
                      | Some r =>
                        if blen (r_bytes r) <? size then ioErr "reader" "heap stream: %v" [] else mret (take (Z.to_nat size) (r_bytes r))
                      end
                    else mret []);
    on_heap (Heap_Allocate buf)
  else
  match r with
  | None => lift (invalidArg "reader" "data tree reader is nil" [])
  | Some r =>
    do blk <- on_db (streamDataTree (limit_reader r size) size);
    do st <- get;
    let nid := MakeNID V2NIDTypeLTP (hb_nextSub st.2) in
    on_heap (modify (λ h, heap_subs (hb_subs h ++ [mkHeapSub nid [] 0 (B_BID blk) 0]) (u32 (hb_nextSub h + 1)) h)) ;;
    mret nid
  end.

(** ** Writing the pages *)
Fixpoint put_allocs (off : Z) (allocs : list bytes) (buf : bytes) : result bytes :=
  match allocs with [] => mret buf | a :: allocs => buf ← put_bytes off a buf; put_allocs (off + blen a) allocs buf end.
Fixpoint put_u16s (off : Z) (vs : list Z) (buf : bytes) : result bytes :=
  match vs with [] => mret buf | v :: vs => buf ← put 2 off v buf; put_u16s (off + 2) vs buf end.
(** The offset of every allocation, then their end. *)
Fixpoint alloc_offsets (off : Z) (allocs : list bytes) : list Z :=
  match allocs with [] => [u16 off] | a :: allocs => u16 off :: alloc_offsets (off + blen a) allocs end.
Definition encodeHNPage (index clientSig userRoot : Z) (allocs : list bytes) (fill : bytes) : result bytes :=
  let hdr := hnHeaderSize index in
  let size := hdr + alloc_bytes allocs + (4 + 2 * (blen allocs + 1)) in
  if MaxDataBlockCB <? size then limitErr "cb" "HN page %d is %d bytes, max %d (MS-PST %s)" [index; size; MaxDataBlockCB] else
  let buf := zeros size in
  let ib := fold_left (λ ib a, u16 (ib + u16 (blen a))) allocs (u16 hdr) in
  buf ← put 2 0 ib buf;
  buf ← (if index =? 0 then
           buf ← put8 2 HeapSignature buf; buf ← put8 3 clientSig buf; buf ← put 4 4 userRoot buf;
           if 4 <=? blen fill then put_bytes 8 (take 4 fill) buf else mret buf
         else if hnBitmapPage index && (64 <=? blen fill) then put_bytes 2 (take 64 fill) buf else mret buf);
  buf ← put_allocs hdr allocs buf;
  let off := hdr + alloc_bytes allocs in
  buf ← put 2 off (u16 (blen allocs)) buf; buf ← put 2 (off + 2) 0 buf;
  put_u16s (off + 4) (alloc_offsets hdr allocs) buf.

(** The fill levels that page [i] carries. *)
Definition fill_slots (fills : bytes) (base : Z) (n : nat) : bytes → bytes :=
  fold_left (λ dst (j : nat), match fills !! Z.to_nat (base + Z.of_nat j) with Some l => packFill dst (Z.of_nat j) l | None => dst end) (seq 0 n).
Definition page_fill (fills : bytes) (i : Z) : bytes :=
  if i =? 0 then fill_slots fills 0 8 (zeros 4) else if hnBitmapPage i then fill_slots fills i 128 (zeros 64) else [].
Definition encode_each (h : Heap) (fill : Z → bytes) : result (list bytes) :=
  mapM (λ '(i, p), encodeHNPage (Z.of_nat i) (hb_clientSig h) (hb_root h) (hp_allocs p) (fill (Z.of_nat i))) (imap pair (hb_pages h)).
Definition encodePages : ST Heap (list bytes * bytes) :=
  modify (λ h, match hb_pages h with [] => heap_pages [mkHnPage [] []] h | _ => h end) ;;
  do h <- get;
  do raws <- lift (encode_each h (λ _, []));
  let fills := map (λ raw, hnFillLevel (MaxDataBlockCB - blen raw)) raws in
  do raws <- lift (encode_each h (page_fill fills));
  mret (raws, fills).

(** A block with its payload. *)
Definition put_leaf (data : bytes) : ST NDB BBTEntry :=
  do e <- AllocBlock (u16 (blen data)); putPayload e data ;; mret e.
Definition leaves_total (datas : list bytes) : Z := fold_left (λ t d, u32 (t + u32 (blen d))) datas 0.
Definition putDataLeaves (data : bytes) (leafCB : Z) : ST NDB BBTEntry :=
  if (leafCB <? 1) || (MaxDataBlockCB <? leafCB)
  then lift (invalidArg "cb" "leaf size %d, want 1..%d" [leafCB; MaxDataBlockCB]) else
  match data with
  | [] => mret null_block
  | _ =>
    do leaves <- mapM_st put_leaf (chunks leafCB data);
    buildDataTree leaves (leaves_total (chunks leafCB data))
  end.
Definition sub_entry (s : heapSub) : ST NDB SLEntry :=
  if negb (hs_dataBID s =? 0) then mret (mkSLEntry (hs_nid s) (hs_dataBID s) (hs_subBID s)) else
  do blk <- (if 0 <? hs_leafCB s then putDataLeaves (hs_data s) (hs_leafCB s)
             else streamDataTree (mkReader (hs_data s) None) (blen (hs_data s)));
  mret (mkSLEntry (hs_nid s) (B_BID blk) 0).
Section commit.
Context `{!SortSlice}.
Definition materialize (h : Heap) : ST NDB (BBTEntry * BBTEntry) :=
  do raws <- lift (fst <$> (encodePages h).2);
  do leaves <- mapM_st put_leaf raws;
  do data <- buildDataTree leaves (leaves_total raws);
  match hb_subs h with
  | [] => mret (data, null_block)
  | subs =>
    do ents <- mapM_st sub_entry subs;
    do sub <- buildSubnodeTree (sort_by SL_NID ents);
    mret (data, sub)
  end.
Definition commitLocked (nid : Z) (h : Heap) : ST NDB unit :=
  do ds <- materialize h;
  PutNode (mkNBTEntry nid (B_BID ds.1) (B_BID ds.2) 0).
(** Of the heap only the pages change: one without pages gets one. *)
Definition Heap_Commit (nid : Z) : ST (NDB * Heap) unit := λ st,
  let '(n, h) := st in
  if (nid =? 0) || (NIDTypeOf nid =? V2NIDTypeHID)
  then (st, invalidArg "nid" "heap node 0x%x must not be a HID" [nid]) else
  let '(n', r) := runTxn (commitLocked nid h) n in
  ((n', (encodePages h).1), r).
Definition AttachHeap (nid : Z) (child : Heap) : ST (NDB * Heap) Heap :=
  if nid =? 0 then lift (invalidArg "nid" "subnode NID is 0" []) else
  do ds <- on_db (materialize child);
  on_heap (modify (λ h, heap_subs (hb_subs h ++ [mkHeapSub nid [] 0 (B_BID ds.1) (B_BID ds.2)]) (hb_nextSub h) h)) ;;
  mret (encodePages child).1.
End commit.

(** ** Reading *)
Record HNPageView := mkHNPageView {
  HP_Index : Z; HP_IbHnpm : Z; HP_Signature : Z; HP_ClientSig : Z; HP_UserRoot : Z; HP_Fill : bytes;
  HP_CAlloc : Z; HP_CFree : Z; HP_Offsets : list Z; HP_Raw : bytes }.
Fixpoint read_u16s (n : nat) (off : Z) (b : bytes) : result (list Z) :=
  match n with O => mret [] | S n => v ← rd 2 off b; vs ← read_u16s n (off + 2) b; mret (v :: vs) end.
Fixpoint nondecreasing (vs : list Z) : bool :=
  match vs with a :: ((b :: _) as vs) => (a <=? b) && nondecreasing vs | _ => true end.
Definition InspectHNPage (index : Z) (data : bytes) : result HNPageView :=
  let need := hnHeaderSize index in
  if blen data <? need then invariant "2.3.1" "size" "HN page %d is %d bytes, need header %d" [index; blen data; need] else
  ib ← rd 2 0 data;
  '(sig, csig, root, fill) ←
    (if index =? 0 then
       sig ← Prelude.index data 2; csig ← Prelude.index data 3; root ← rd 4 4 data; fill ← slice data 8 12;
       if negb (sig =? HeapSignature) then invariant "2.3.1" "bSig" "got 0x%02x want 0x%02x" [sig; HeapSignature]
       else mret (sig, csig, root, fill)
     else if hnBitmapPage index then fill ← slice data 2 66; mret (0, 0, 0, fill)
     else mret (0, 0, 0, []));
  if blen data <? ib + 4 then invariant "2.3.1" "ibHnpm" "page map at %d exceeds page %d" [ib; blen data] else
  pm ← slice data ib (blen data);
  cAlloc ← rd 2 0 pm; cFree ← rd 2 2 pm;
  let nOff := cAlloc + 1 in
  if blen pm <? 4 + 2 * nOff then invariant "2.3.1" "rgibAlloc" "page map truncated: cAlloc=%d have %d" [cAlloc; blen pm] else
  offs ← read_u16s (Z.to_nat nOff) 4 pm;
  last ← Prelude.index offs cAlloc;
  if negb (last =? ib) then invariant "2.3.1" "rgibAlloc" "last offset %d want ibHnpm %d" [last; ib] else
  if negb (nondecreasing offs) then invariant "2.3.1" "rgibAlloc" "offsets not nondecreasing" [] else
  mret (mkHNPageView index ib sig csig root fill cAlloc cFree offs data).
Definition Allocation (v : HNPageView) (hidIndex1 : Z) : result bytes :=
  if (hidIndex1 =? 0) || (HP_CAlloc v <? hidIndex1)
  then invalidArg "hidIndex" "hidIndex %d cAlloc %d" [hidIndex1; HP_CAlloc v] else
  start ← Prelude.index (HP_Offsets v) (u16 (hidIndex1 - 1));
  stop ← Prelude.index (HP_Offsets v) hidIndex1;
  if (blen (HP_Raw v) <? stop) || (stop <? start)
  then invariant "2.3.1" "rgibAlloc" "HID %d bounds %d:%d" [hidIndex1; start; stop] else slice (HP_Raw v) start stop.

Record HeapView := mkHeapView {
  hv_ndb : NDB; hv_nid : Z; hv_dataBID : Z; hv_subBID : Z; hv_clientSig : Z; hv_root : Z; hv_pages : list HNPageView; hv_fills : bytes }.
Definition add_page (h : HeapView) (leaf : Z * Z) : result HeapView :=
  match n_blocks (hv_ndb h) !! leaf.1 with
  | None => invariant "2.3.1" "page" "missing HN page BID 0x%x" [leaf.1]
  | Some blk =>
    raw ← blockPayload (n_store (hv_ndb h)) blk;
    let idx := blen (hv_pages h) in
    pg ← InspectHNPage idx raw;
    let first := idx =? 0 in
    mret (mkHeapView (hv_ndb h) (hv_nid h) (hv_dataBID h) (hv_subBID h)
      (if first then HP_ClientSig pg else hv_clientSig h) (if first then HP_UserRoot pg else hv_root h)
      (hv_pages h ++ [pg]) (hv_fills h ++ [hnFillLevel (MaxDataBlockCB - blen raw)]))
  end.
(** The fill levels that a page carries are those of the pages. *)
Definition check_slots (fill fills : bytes) (base : Z) (n : nat) (bad : Z → Z → Z → result unit) : result unit :=
  each (λ j : nat,
    match fills !! Z.to_nat (base + Z.of_nat j) with
    | None => mret tt
    | Some want => let got := unpackFill fill (Z.of_nat j) in
                   if negb (got =? want) then bad (base + Z.of_nat j) got want else mret tt
    end) (seq 0 n).
Definition checkFill (h : HeapView) : result unit :=
  match hv_pages h with
  | [] => Panic
  | hdr :: _ =>
    check_slots (HP_Fill hdr) (hv_fills h) 0 8 (λ i got want, invariant "2.3.1" "rgbFillLevel" "page %d fill %d want %d" [i; got; want]) ;;
    each (λ '(i, pg),
      if negb (hnBitmapPage (Z.of_nat i)) then mret tt else
      check_slots (HP_Fill pg) (hv_fills h) (Z.of_nat i) 128
        (λ pi got want, invariant "2.3.1" "rgbFillLevel" "bitmap page %d slot %d fill %d want %d" [Z.of_nat i; pi; got; want]))
      (imap pair (hv_pages h))
  end.
Definition openHeapBids (n : NDB) (nid dataBID subBID : Z) : result HeapView :=
  '(h, _) ← walkDataTree n dataBID add_page (mkHeapView n nid dataBID subBID 0 0 [] []);
  match hv_pages h with
  | [] => invariant "2.3.1" "page" "heap has no pages" []
  | _ => checkFill h ;; mret h
  end.
Definition OpenHeap (n : NDB) (nid : Z) : result HeapView :=
  match n_nodes n !! nid with
  | None => invalidArg "nid" "missing heap node 0x%x" [nid]
  | Some e => openHeapBids n nid (N_DataBID e) (N_SubBID e)
  end.
(** [io.ReadAll]; its buffers do not matter, one read per leaf or more. *)
Definition ReadAll (n : NDB) (r : DataTreeReader) : result bytes :=
  read_all (S (S (Z.to_nat (dr_total r) + size (n_blocks n)))) n 512 r.
Definition readSub (h : HeapView) (nid : Z) : result bytes :=
  found ← WalkSubnodes (hv_ndb h) (hv_subBID h) (λ found e, mret (if u32 (SL_NID e) =? nid then Some e else found)) None;
  match found with
  | None => invalidArg "hnid" "missing subnode 0x%x" [nid]
  | Some e => rd ← OpenDataTree (hv_ndb h) (SL_DataBID e); ReadAll (hv_ndb h) rd
  end.
Definition HeapView_Read (h : HeapView) (hnid : Z) : result bytes :=
  if hnid =? 0 then mret [] else
  if negb (IsHID hnid) then readSub h hnid else
  let block := HIDBlock hnid in
  match hv_pages h !! Z.to_nat block with
  | None => invalidArg "hidBlockIndex" "page %d of %d" [block; blen (hv_pages h)]
  | Some pg => Allocation pg (HIDIndex hnid)
  end.
