(* ===== verification/V2HeapPage.v ===== *)
(** * Writer v2: the pages of a heap

    A page the encoder writes is read back by the inspector: every allocation,
    the header fields and the fill levels. *)
From S2P Require Import Prelude Ids State Fields V2Base V2Disk V2Entries V2Blocks V2Header V2Store V2Ndb V2Catalog V2Data V2Subnode V2Heap.

(** ** Writing at the front of a zeroed buffer *)
Lemma bytes_next (pre bs : bytes) off n : blen pre = off → off + blen bs ≤ n →
  put_bytes off bs (pre ++ zeros (n - off)) = Ok ((pre ++ bs) ++ zeros (n - (off + blen bs))).
Proof.
  intros Hp Hn. pose proof (blen_nonneg pre). rewrite (put_bytes_fill pre bs off) by lia. rewrite Z.sub_diag. by change (zeros 0) with (@nil Z).
Qed.
Lemma put_next (pre : bytes) k off v n : blen pre = off → off + Z.of_nat k ≤ n →
  put k off v (pre ++ zeros (n - off)) = Ok ((pre ++ le_enc k v) ++ zeros (n - (off + Z.of_nat k))).
Proof. intros Hp Hn. unfold put. rewrite bytes_next by blia. by rewrite blen_le_enc. Qed.
Lemma put8_next (pre : bytes) off v n : blen pre = off → off + 1 ≤ n →
  put8 off v (pre ++ zeros (n - off)) = Ok ((pre ++ [v]) ++ zeros (n - (off + 1))).
Proof. intros Hp Hn. unfold put8. by rewrite bytes_next by blia. Qed.
Lemma put_allocs_next allocs : ∀ (pre : bytes) off n, blen pre = off → off + blen (concat allocs) ≤ n →
  put_allocs off allocs (pre ++ zeros (n - off)) = Ok ((pre ++ concat allocs) ++ zeros (n - (off + blen (concat allocs)))).
Proof.
  induction allocs as [|a allocs IH]; intros pre off n Hp Hn; cbn [put_allocs concat] in *.
  { rewrite app_nil_r. change (blen (@nil Z)) with 0. by rewrite Z.add_0_r. }
  rewrite blen_app in Hn. pose proof (blen_nonneg (concat allocs)). rewrite bytes_next by lia. rewrite bind_Ok.
  rewrite IH by (rewrite ?blen_app; lia). rewrite blen_app, <- !app_assoc. by rewrite !Z.add_assoc.
Qed.
Lemma put_u16s_next vs : ∀ (pre : bytes) off n, blen pre = off → off + 2 * blen vs ≤ n →
  put_u16s off vs (pre ++ zeros (n - off)) = Ok ((pre ++ concat (map (le_enc 2) vs)) ++ zeros (n - (off + 2 * blen vs))).
Proof.
  induction vs as [|v vs IH]; intros pre off n Hp Hn; cbn [put_u16s map concat].
  { rewrite app_nil_r. change (blen (@nil Z)) with 0. by rewrite Z.add_0_r. }
  rewrite blen_cons in *. pose proof (blen_nonneg vs). rewrite put_next by lia. rewrite bind_Ok.
  rewrite IH by (rewrite ?blen_app, ?blen_le_enc; lia). rewrite <- !app_assoc.
  by replace (off + Z.of_nat 2 + 2 * blen vs) with (off + 2 * (1 + blen vs)) by lia.
Qed.

(** ** The image of a page *)
Definition header_fill (index : Z) (fill : bytes) : bytes :=
  if index =? 0 then (if 4 <=? blen fill then take 4 fill else zeros 4)
  else if hnBitmapPage index then (if 64 <=? blen fill then take 64 fill else zeros 64) else [].
Definition hn_header (index clientSig userRoot ib : Z) (fill : bytes) : bytes :=
  le_enc 2 ib ++ (if index =? 0 then [HeapSignature] ++ [clientSig] ++ le_enc 4 userRoot else []) ++ header_fill index fill.
(** Where allocation [j] begins. *)
Definition hn_image (index clientSig userRoot : Z) (allocs : list bytes) (fill : bytes) : bytes :=
  let ib := hnHeaderSize index + blen (concat allocs) in
  hn_header index clientSig userRoot ib fill ++ concat allocs ++
  le_enc 2 (blen allocs) ++ le_enc 2 0 ++ concat (map (le_enc 2) (alloc_offsets (hnHeaderSize index) allocs)).
Definition hn_size (index : Z) (allocs : list bytes) : Z := hnHeaderSize index + blen (concat allocs) + (4 + 2 * (blen allocs + 1)).

Lemma alloc_bytes_concat allocs : alloc_bytes allocs = blen (concat allocs).
Proof.
  unfold alloc_bytes. assert (∀ n, fold_left (λ n (a : bytes), n + blen a) allocs n = n + blen (concat allocs)) as H; [|by rewrite H].
  induction allocs as [|a allocs IH]; intros n; cbn [fold_left concat]; [change (blen (@nil Z)) with 0; lia|]. rewrite IH, blen_app. lia.
Qed.
Lemma hnHeaderSize_cases i : hnHeaderSize i = if i =? 0 then 12 else if hnBitmapPage i then 66 else 2.
Proof. done. Qed.
Lemma header_size_bounds i : 2 ≤ hnHeaderSize i ≤ 66.
Proof. rewrite hnHeaderSize_cases. repeat case_match; lia. Qed.
Lemma blen_header_fill index fill : blen (header_fill index fill) = if index =? 0 then 4 else if hnBitmapPage index then 64 else 0.
Proof.
  unfold header_fill. destruct (index =? 0).
  - destruct (Z.leb_spec 4 (blen fill)); [|done]. unfold blen in *. rewrite length_take. lia.
  - destruct (hnBitmapPage index); [|done]. destruct (Z.leb_spec 64 (blen fill)); [|done]. unfold blen in *. rewrite length_take. lia.
Qed.
Lemma blen_hn_header index sig root ib fill : blen (hn_header index sig root ib fill) = hnHeaderSize index.
Proof.
  unfold hn_header. rewrite !blen_app, blen_header_fill, hnHeaderSize_cases. destruct (index =? 0); [|destruct (hnBitmapPage index)]; blia.
Qed.
Lemma sum_offsets allocs : ∀ s, 0 ≤ s → s + blen (concat allocs) < 65536 →
  fold_left (λ ib (a : bytes), u16 (ib + u16 (blen a))) allocs s = s + blen (concat allocs).
Proof.
  induction allocs as [|a allocs IH]; intros s Hs Hm; cbn [fold_left concat] in *; [change (blen (@nil Z)) with 0; lia|].
  rewrite blen_app in *. pose proof (blen_nonneg a). pose proof (blen_nonneg (concat allocs)). rewrite (u16_small (blen a)) by lia. rewrite u16_small by lia. rewrite IH by lia. lia.
Qed.
Lemma length_offsets allocs : ∀ off, blen (alloc_offsets off allocs) = blen allocs + 1.
Proof. induction allocs as [|a allocs IH]; intros off; cbn [alloc_offsets]; rewrite !blen_cons, ?IH; [done|lia]. Qed.

(** Writing the header. *)
Lemma put_header index sig root ib fill n : hnHeaderSize index ≤ n →
  (buf ← put 2 0 ib (zeros n);
   if index =? 0 then
     buf ← put8 2 HeapSignature buf; buf ← put8 3 sig buf; buf ← put 4 4 root buf;
     if 4 <=? blen fill then put_bytes 8 (take 4 fill) buf else mret buf
   else if hnBitmapPage index && (64 <=? blen fill) then put_bytes 2 (take 64 fill) buf else mret buf)
  = Ok (hn_header index sig root ib fill ++ zeros (n - hnHeaderSize index)).
Proof.
  intros Hn. pose proof (header_size_bounds index). assert (2 ≤ n) as H2 by lia. rewrite hnHeaderSize_cases in *. unfold hn_header, header_fill.
  replace (zeros n) with ([] ++ zeros (n - 0)) by (by rewrite Z.sub_0_r). rewrite put_next by (done || lia). rewrite bind_Ok.
  cbn [app]. change (0 + Z.of_nat 2) with 2. destruct (index =? 0) eqn:E0.
  - rewrite put8_next by blia. rewrite bind_Ok, put8_next, bind_Ok by blia. change (2 + 1) with 3. change (3 + 1) with 4.
    rewrite put_next by blia. rewrite bind_Ok. change (4 + Z.of_nat 4) with 8. rewrite <- !app_assoc.
    destruct (Z.leb_spec 4 (blen fill)) as [H4|H4].
    + assert (blen (take 4 fill) = 4) as Ht by (unfold blen in *; rewrite length_take; lia).
      set (pre := le_enc 2 ib ++ [HeapSignature] ++ [sig] ++ le_enc 4 root).
      replace (le_enc 2 ib ++ [HeapSignature] ++ [sig] ++ le_enc 4 root ++ zeros (n - 8)) with (pre ++ zeros (n - 8)) by (unfold pre; by rewrite <- !app_assoc).
      rewrite bytes_next by (unfold pre; blia). rewrite Ht. unfold pre. rewrite <- !app_assoc. done.
    + rewrite mret_Ok. replace (zeros (n - 8)) with (zeros 4 ++ zeros (n - 12)); [done|].
      unfold zeros. rewrite <- replicate_add. f_equal. lia.
  - destruct (hnBitmapPage index); cbn [andb].
    + destruct (Z.leb_spec 64 (blen fill)) as [H4|H4].
      * assert (blen (take 64 fill) = 64) as Ht by (unfold blen in *; rewrite length_take; lia). rewrite bytes_next by blia. rewrite Ht. done.
      * rewrite mret_Ok. cbn [app]. rewrite <- app_assoc. replace (zeros (n - 2)) with (zeros 64 ++ zeros (n - 66)); [done|].
        unfold zeros. rewrite <- replicate_add. f_equal. lia.
    + rewrite mret_Ok. cbn [app]. by rewrite app_nil_r.
Qed.
Lemma encodeHNPage_Ok index sig root allocs fill : hn_size index allocs ≤ MaxDataBlockCB →
  encodeHNPage index sig root allocs fill = Ok (hn_image index sig root allocs fill).
Proof.
  intros Hs. unfold encodeHNPage. rewrite !alloc_bytes_concat. fold (hn_size index allocs). rewrite (proj2 (Z.ltb_ge _ _)) by done.
  pose proof (header_size_bounds index). pose proof (blen_nonneg (concat allocs)). pose proof (blen_nonneg allocs). unfold MaxDataBlockCB in Hs.
  unfold hn_size in *. set (hdr := hnHeaderSize index) in *. set (n := hdr + blen (concat allocs) + (4 + 2 * (blen allocs + 1))) in *.
  rewrite (u16_small hdr) by lia. rewrite sum_offsets by lia.
  pose proof (put_header index sig root (hdr + blen (concat allocs)) fill n ltac:(fold hdr; lia)) as Hh. fold hdr in Hh.
  apply bind_Ok_inv in Hh as (b0 & -> & Hh). rewrite bind_Ok, Hh, bind_Ok.
  pose proof (blen_hn_header index sig root (hdr + blen (concat allocs)) fill) as Hbh. fold hdr in Hbh. set (HD := hn_header _ _ _ _ _) in *.
  rewrite put_allocs_next by lia. rewrite bind_Ok. rewrite put_next by (rewrite ?blen_app; lia). rewrite bind_Ok.
  change (hdr + blen (concat allocs) + Z.of_nat 2) with (hdr + blen (concat allocs) + 2).
  rewrite put_next by (rewrite ?blen_app, ?blen_le_enc; lia). rewrite bind_Ok.
  replace (hdr + blen (concat allocs) + 2 + Z.of_nat 2) with (hdr + blen (concat allocs) + 4) by lia.
  rewrite put_u16s_next by (rewrite ?blen_app, ?blen_le_enc, ?length_offsets; lia). rewrite length_offsets.
  rewrite u16_small by lia. unfold hn_image. fold hdr. fold HD.
  replace (n - _) with 0 by (subst n; lia). change (zeros 0) with (@nil Z). rewrite app_nil_r, <- !app_assoc. done.
Qed.
Lemma blen_hn_image index sig root allocs fill : blen (hn_image index sig root allocs fill) = hn_size index allocs.
Proof.
  unfold hn_image, hn_size. rewrite !blen_app, blen_hn_header, !blen_le_enc.
  assert (∀ vs, blen (concat (map (le_enc 2) vs)) = 2 * blen vs) as Hv.
  { induction vs as [|v vs IH]; [done|]. cbn [map concat]. rewrite blen_app, blen_cons, blen_le_enc, IH. lia. }
  rewrite Hv, length_offsets. lia.
Qed.

(** ** Reading the page back *)
Lemma read_u16s_back vs : ∀ b off, 0 ≤ off → off + 2 * blen vs ≤ blen b → Forall (fits 16) vs →
  sub b off (2 * blen vs) = concat (map (le_enc 2) vs) → read_u16s (length vs) off b = Ok vs.
Proof.
  induction vs as [|v vs IH]; intros b off Ho Hl Hf Hs; [done|]. apply Forall_cons in Hf as [Hv Hf]. rewrite blen_cons in *. pose proof (blen_nonneg vs).
  cbn [map concat] in Hs. cbn [length read_u16s].
  assert (sub b off 2 = le_enc 2 v ∧ sub b (off + 2) (2 * blen vs) = concat (map (le_enc 2) vs)) as [H1 H2].
  { replace (2 * (1 + blen vs)) with (2 + 2 * blen vs) in Hs by lia. rewrite sub_split in Hs by lia.
    apply app_inj_1 in Hs; [done|]. rewrite length_le_enc. pose proof (blen_sub b off 2 ltac:(lia) ltac:(lia) ltac:(lia)). unfold blen in *. lia. }
  rewrite rd_Ok by lia. rewrite bind_Ok. change (Z.of_nat 2) with 2. rewrite H1, le_dec_enc_fits by done. rewrite IH by (done || lia). done.
Qed.
Lemma offset_lookup allocs : ∀ off (j : nat), (j ≤ length allocs)%nat →
  alloc_offsets off allocs !! j = Some (u16 (off + blen (concat (take j allocs)))).
Proof.
  induction allocs as [|a allocs IH]; intros off [|j] Hj; cbn [length alloc_offsets] in *; try lia; cbn [lookup list_lookup take concat].
  - change (blen (@nil Z)) with 0. by rewrite Z.add_0_r.
  - change (blen (@nil Z)) with 0. by rewrite Z.add_0_r.
  - change ((u16 off :: alloc_offsets (off + blen a) allocs) !! S j) with (alloc_offsets (off + blen a) allocs !! j).
    rewrite IH by lia. by rewrite blen_app, Z.add_assoc.
Qed.
Lemma offsets_ok allocs : ∀ off, 0 ≤ off → off + blen (concat allocs) < 65536 →
  Forall (fits 16) (alloc_offsets off allocs) ∧ nondecreasing (alloc_offsets off allocs) = true.
Proof.
  induction allocs as [|a allocs IH]; intros off Ho Hm; cbn [alloc_offsets concat] in *.
  { change (blen (@nil Z)) with 0 in Hm. split; [|done]. constructor; [|constructor]. rewrite u16_small by lia. unfold fits. lia. }
  rewrite blen_app in Hm. pose proof (blen_nonneg a). pose proof (blen_nonneg (concat allocs)). destruct (IH (off + blen a)) as [F N]; [lia|lia|]. split.
  - constructor; [|done]. rewrite u16_small by lia. unfold fits. lia.
  - pose proof (offset_lookup allocs (off + blen a) 0 ltac:(lia)) as Hz. change (concat (take 0 allocs)) with (@nil Z) in Hz.
    change (blen (@nil Z)) with 0 in Hz. rewrite Z.add_0_r in Hz. destruct (alloc_offsets (off + blen a) allocs) as [|o os]; [done|].
    cbn in Hz. injection Hz as ->. cbn [nondecreasing]. rewrite !u16_small in * by lia. rewrite (proj2 (Z.leb_le _ _)) by lia. exact N.
Qed.
Definition hn_view (index clientSig userRoot : Z) (allocs : list bytes) (fill : bytes) : HNPageView :=
  mkHNPageView index (hnHeaderSize index + blen (concat allocs)) (if index =? 0 then HeapSignature else 0)
    (if index =? 0 then clientSig else 0) (if index =? 0 then userRoot else 0) (header_fill index fill)
    (blen allocs) 0 (alloc_offsets (hnHeaderSize index) allocs) (hn_image index clientSig userRoot allocs fill).


(** The fields of the header. *)
Definition hn_fields (index : Z) (data : bytes) : result (Z * Z * Z * bytes) :=
  if index =? 0 then
    sig ← Prelude.index data 2; csig ← Prelude.index data 3; root ← rd 4 4 data; fill ← slice data 8 12;
    if negb (sig =? HeapSignature) then invariant "2.3.1" "bSig" "got 0x%02x want 0x%02x" [sig; HeapSignature]
    else mret (sig, csig, root, fill)
  else if hnBitmapPage index then fill ← slice data 2 66; mret (0, 0, 0, fill)
  else mret (0, 0, 0, []).
Lemma hn_fields_back index sig root ib fill tail : fits 32 root →
  hn_fields index (hn_header index sig root ib fill ++ tail)
  = Ok (if index =? 0 then HeapSignature else 0, if index =? 0 then sig else 0, if index =? 0 then root else 0, header_fill index fill).
Proof.
  intros Hr. pose proof (blen_header_fill index fill) as Hf. pose proof (blen_nonneg tail). unfold hn_fields, hn_header.
  destruct (index =? 0) eqn:E0; [|destruct (hnBitmapPage index) eqn:E1].
  - rewrite <- !app_assoc. set (f := header_fill index fill) in *. buf_parse. buf_fields.
    change (le_dec [HeapSignature]) with HeapSignature. rewrite Z.eqb_refl. cbn [negb].
    rewrite le_dec_enc_fits by done. cbn [le_dec]. by rewrite Z.mul_0_r, Z.add_0_r.
  - cbn [app]. rewrite <- !app_assoc. set (f := header_fill index fill) in *. buf_parse. by buf_fields.
  - unfold header_fill. by rewrite E0, E1.
Qed.
(** The page map. *)
Definition hn_map (index : Z) (allocs : list bytes) : bytes :=
  le_enc 2 (blen allocs) ++ le_enc 2 0 ++ concat (map (le_enc 2) (alloc_offsets (hnHeaderSize index) allocs)).
Lemma InspectHNPage_image index sig root allocs fill : fits 32 root → hn_size index allocs ≤ MaxDataBlockCB →
  InspectHNPage index (hn_image index sig root allocs fill) = Ok (hn_view index sig root allocs fill).
Proof.
  intros Hroot Hs. pose proof (blen_hn_image index sig root allocs fill) as Hb. pose proof (header_size_bounds index) as Hh.
  pose proof (blen_nonneg (concat allocs)). pose proof (blen_nonneg allocs). unfold hn_size, MaxDataBlockCB in *.
  unfold InspectHNPage. fold (hn_fields index (hn_image index sig root allocs fill)). unfold hn_view.
  set (raw := hn_image index sig root allocs fill) in *.
  rewrite (proj2 (Z.ltb_ge _ _)) by lia.
  set (ib := hnHeaderSize index + blen (concat allocs)) in *.
  pose proof (blen_hn_header index sig root ib fill) as Hhd.
  assert (raw = hn_header index sig root ib fill ++ concat allocs ++ hn_map index allocs) as Eraw by done.
  assert (ib = hnHeaderSize index + blen (concat allocs)) as Eib by done. clearbody ib raw.
  assert (rd 2 0 raw = Ok ib) as ->.
  { rewrite Eraw. unfold hn_header. rewrite <- !app_assoc. apply (rd_field [] _ 2 ib 0); [done|unfold fits; lia]. }
  rewrite bind_Ok. rewrite Eraw at 1. rewrite hn_fields_back by done. rewrite bind_Ok.
  rewrite (proj2 (Z.ltb_ge _ _)) by lia. rewrite slice_Ok by lia. rewrite bind_Ok.
  assert (sub raw ib (blen raw - ib) = hn_map index allocs) as ->.
  { rewrite Eraw, app_assoc in *. rewrite !blen_app in Hb. rewrite sub_app_r by (rewrite ?blen_app; lia). apply sub_all; rewrite ?blen_app; lia. }
  assert (∀ post, rd 2 0 (le_enc 2 (blen allocs) ++ post) = Ok (blen allocs)) as R0 by (intros; apply (rd_field [] _ 2 _ 0); [done|unfold fits; lia]).
  assert (∀ post, rd 2 2 (le_enc 2 (blen allocs) ++ le_enc 2 0 ++ post) = Ok 0) as R2 by (intros; apply (rd_field (le_enc 2 (blen allocs)) _ 2 0 2); [blia|done]).
  unfold hn_map. rewrite R0, bind_Ok, R2, bind_Ok. 
  assert (blen (hn_map index allocs) = 4 + 2 * (blen allocs + 1)) as Hm by (rewrite Eraw, !blen_app in Hb; lia). unfold hn_map in Hm. rewrite Hm.
  rewrite (proj2 (Z.ltb_ge _ _)) by lia.
  pose proof (length_offsets allocs (hnHeaderSize index)) as Hlo. destruct (offsets_ok allocs (hnHeaderSize index)) as [Ho Hn]; [lia|lia|].
  replace (Z.to_nat (blen allocs + 1)) with (length (alloc_offsets (hnHeaderSize index) allocs)) by (unfold blen in Hlo |- *; lia).
  rewrite read_u16s_back; [|lia|rewrite Hm; lia|exact Ho|].
  2:{ rewrite app_assoc. rewrite sub_app_r by (rewrite ?blen_app, ?blen_le_enc; lia). rewrite !blen_app, !blen_le_enc in *. apply sub_all; lia. }
  rewrite bind_Ok. rewrite (index_Ok _ _ ib); [|lia|].
  2:{ unfold blen. rewrite Nat2Z.id. rewrite offset_lookup by lia. rewrite firstn_all. f_equal. rewrite u16_small; lia. }
  rewrite bind_Ok, Z.eqb_refl, Hn. cbn [negb]. done.
Qed.

(** ** Allocations *)
Lemma sub_concat_nth (ls : list bytes) j a : ls !! j = Some a → sub (concat ls) (blen (concat (take j ls))) (blen a) = a.
Proof.
  intros Ha. rewrite <- (take_drop_middle _ _ _ Ha) at 1. rewrite concat_app. cbn [concat].
  pose proof (blen_nonneg (concat (take j ls))). pose proof (blen_nonneg a).
  rewrite sub_app_r by lia. rewrite Z.sub_diag. rewrite sub_app_l by lia. by apply sub_0_all.
Qed.
Lemma concat_upto (ls : list bytes) j a : ls !! j = Some a →
  blen (concat (take (S j) ls)) = blen (concat (take j ls)) + blen a ∧ blen (concat (take (S j) ls)) ≤ blen (concat ls).
Proof.
  intros Ha. rewrite (take_S_r _ _ _ Ha), concat_app. cbn [concat]. rewrite app_nil_r, blen_app. split; [done|].
  rewrite <- (take_drop_middle _ _ _ Ha) at 2. rewrite concat_app. cbn [concat]. rewrite !blen_app. pose proof (blen_nonneg (concat (drop (S j) ls))). lia.
Qed.
Lemma Allocation_view index sig root allocs fill j a : hn_size index allocs ≤ MaxDataBlockCB → allocs !! j = Some a →
  Allocation (hn_view index sig root allocs fill) (Z.of_nat j + 1) = Ok a.
Proof.
  intros Hs Ha. pose proof (lookup_lt_Some _ _ _ Ha) as Hj. pose proof (header_size_bounds index). unfold hn_size, MaxDataBlockCB in Hs.
  destruct (concat_upto _ _ _ Ha) as [Hn Hle]. pose proof (blen_nonneg (concat (take j allocs))). pose proof (blen_nonneg a).
  assert (blen allocs = Z.of_nat (length allocs)) as Hal by done. unfold Allocation, hn_view. cbn [HP_CAlloc HP_Offsets HP_Raw].
  rewrite (proj2 (Z.eqb_neq _ _)), (proj2 (Z.ltb_ge _ _)) by lia. cbn [orb]. rewrite u16_small by lia.
  set (hdr := hnHeaderSize index) in *.
  rewrite (index_Ok _ (Z.of_nat j + 1 - 1) (hdr + blen (concat (take j allocs)))); [|lia|].
  2:{ replace (Z.to_nat (Z.of_nat j + 1 - 1)) with j by lia. rewrite offset_lookup by lia. f_equal. apply u16_small. lia. }
  rewrite bind_Ok. rewrite (index_Ok _ _ (hdr + blen (concat (take j allocs)) + blen a)); [|lia|].
  2:{ replace (Z.to_nat (Z.of_nat j + 1)) with (S j) by lia. rewrite offset_lookup by lia. f_equal. rewrite u16_small; lia. }
  rewrite bind_Ok, blen_hn_image. unfold hn_size. fold hdr. rewrite !(proj2 (Z.ltb_ge _ _)) by lia. cbn [orb].
  rewrite slice_Ok by (rewrite ?blen_hn_image; unfold hn_size; fold hdr; lia). f_equal. unfold hn_image.
  rewrite sub_app_r by (rewrite ?blen_hn_header; fold hdr; lia). rewrite blen_hn_header. fold hdr. rewrite sub_app_l by lia.
  replace (hdr + blen (concat (take j allocs)) - hdr) with (blen (concat (take j allocs))) by lia.
  replace (hdr + _ + blen a - _) with (blen a) by lia. by apply sub_concat_nth.
Qed.

(** ** Fill levels *)
Lemma pack_slot b s v t : 0 ≤ s → 0 ≤ t → s mod 2 = 0 → t mod 2 = 0 → s < 8 → t < 8 → 0 ≤ v < 4 →
  Z.land (Z.shiftr (Z.lor (Z.ldiff b (Z.shiftl 3 s)) (u8 (Z.shiftl v s))) t) 3 = if s =? t then v else Z.land (Z.shiftr b t) 3.
Proof.
  intros Hs Ht Es Et Ls Lt Hv.
  assert (u8 (Z.shiftl v s) = Z.shiftl v s) as ->.
  { apply u8_small. rewrite Z.shiftl_mul_pow2 by done. assert (2 ^ s ≤ 2 ^ 6) by (apply Z.pow_le_mono_r; divlia). assert (0 < 2 ^ s) by lia. nia. }
  assert (∀ i, 0 ≤ i → Z.testbit 3 i = (i <? 2)) as H3.
  { intros i Hi. destruct (Z.ltb_spec i 2); [assert (i = 0 ∨ i = 1) as [->| ->] by lia; done|].
    apply Z.bits_above_log2; [lia|]. change (Z.log2 3) with 1. lia. }
  assert (∀ i, 2 ≤ i → Z.testbit v i = false) as Hvh.
  { intros i Hi. destruct (decide (v = 0)) as [->|]; [apply Z.bits_0|]. apply Z.bits_above_log2; [lia|].
    assert (Z.log2 v < 2); [|lia]. apply Z.log2_lt_pow2; lia. }
  apply Z.bits_inj'. intros i Hi. rewrite Z.land_spec, Z.shiftr_spec, Z.lor_spec, Z.ldiff_spec by done. rewrite !Z.shiftl_spec by lia. rewrite (H3 i) by done.
  destruct (Z.ltb_spec i 2) as [H2|H2].
  - rewrite andb_true_r. destruct (Z.eqb_spec s t) as [->|Hne].
    + replace (i + t - t) with i by lia. rewrite H3 by lia. rewrite (proj2 (Z.ltb_lt _ _)) by lia. cbn [negb]. by rewrite andb_false_r.
    + rewrite Z.land_spec, Z.shiftr_spec, (H3 i) by done. rewrite (proj2 (Z.ltb_lt i 2)) by lia. rewrite andb_true_r.
      destruct (Z.ltb_spec (i + t) s).
      * rewrite (Z.testbit_neg_r 3), (Z.testbit_neg_r v) by lia. cbn [negb]. by rewrite andb_true_r, orb_false_r.
      * assert (2 ≤ i + t - s) by divlia. rewrite Hvh, H3 by lia. rewrite (proj2 (Z.ltb_ge _ _)) by lia. cbn [negb]. by rewrite andb_true_r, orb_false_r.
  - rewrite andb_false_r. destruct (Z.eqb_spec s t); [by rewrite Hvh|]. rewrite Z.land_spec, (H3 i) by done. rewrite (proj2 (Z.ltb_ge i 2)) by lia. by rewrite andb_false_r.
Qed.
Lemma blen_packFill dst p l : blen (packFill dst p l) = blen dst.
Proof. unfold packFill. case_match; [done|]. unfold blen. by rewrite length_insert. Qed.
Lemma unpack_pack dst p q l : 0 ≤ p → 0 ≤ q → p / 4 < blen dst → 0 ≤ l < 4 →
  unpackFill (packFill dst p l) q = if p =? q then l else unpackFill dst q.
Proof.
  intros Hp Hq Hd Hl. unfold unpackFill. rewrite blen_packFill. unfold packFill.
  rewrite (proj2 (Z.ltb_ge p 0)), (proj2 (Z.ltb_ge q 0)), (proj2 (Z.leb_gt (blen dst) (p / 4))) by lia. cbn [orb].
  destruct (Z.leb_spec (blen dst) (q / 4)); [by rewrite (proj2 (Z.eqb_neq _ _)) by (intros ->; lia)|].
  assert (Z.land l 3 = l) as -> by (change 3 with (Z.ones 2); rewrite Z.land_ones by lia; apply Z.mod_small; lia).
  destruct (decide (p / 4 = q / 4)) as [E|Hne].
  - rewrite E, list_lookup_insert_eq by (unfold blen in *; divlia). cbn [default from_option id]. rewrite pack_slot by divlia.
    destruct (Z.eqb_spec (p mod 4 * 2) (q mod 4 * 2)), (Z.eqb_spec p q); try done; exfalso; divlia.
  - rewrite list_lookup_insert_ne by divlia. by rewrite (proj2 (Z.eqb_neq _ _)) by (intros ->; lia).
Qed.
(** Slots packed one after another. *)
Definition pack_each (L : nat → option Z) (js : list nat) (dst : bytes) : bytes :=
  fold_left (λ dst j, match L j with Some l => packFill dst (Z.of_nat j) l | None => dst end) js dst.
Lemma pack_each_cons L j js dst : pack_each L (j :: js) dst = pack_each L js (match L j with Some l => packFill dst (Z.of_nat j) l | None => dst end).
Proof. done. Qed.
Lemma blen_pack_each L js : ∀ dst, blen (pack_each L js dst) = blen dst.
Proof. induction js as [|j js IH]; intros dst; [done|]. rewrite pack_each_cons. rewrite IH. case_match; [apply blen_packFill|done]. Qed.
Lemma slots_pack p l dst js : Forall (λ j : nat, Z.of_nat j / 4 < blen dst) js → Forall (λ j : nat, Z.of_nat j / 4 < blen (packFill dst p l)) js.
Proof. by rewrite blen_packFill. Qed.
Lemma pack_each_other L js q : (∀ j l, L j = Some l → 0 ≤ l < 4) → q ∉ js → ∀ dst, Forall (λ j, Z.of_nat j / 4 < blen dst) js →
  unpackFill (pack_each L js dst) (Z.of_nat q) = unpackFill dst (Z.of_nat q).
Proof.
  intros HL. induction js as [|j js IH]; intros Hq dst Hf; [done|]. apply not_elem_of_cons in Hq as [Hne Hq]. apply Forall_cons in Hf as [Hj Hf].
  rewrite pack_each_cons. destruct (L j) as [l|] eqn:E; [|by apply IH].
  rewrite IH; [|done|by apply slots_pack].
  rewrite unpack_pack by (eauto; lia). by rewrite (proj2 (Z.eqb_neq _ _)) by lia.
Qed.
Lemma pack_each_at L js q l : (∀ j l, L j = Some l → 0 ≤ l < 4) → NoDup js → q ∈ js → L q = Some l → ∀ dst, Forall (λ j, Z.of_nat j / 4 < blen dst) js →
  unpackFill (pack_each L js dst) (Z.of_nat q) = l.
Proof.
  intros HL. induction js as [|j js IH]; intros Hd Hq Hl dst Hf; [by apply not_elem_of_nil in Hq|]. apply NoDup_cons in Hd as [Hnj Hd].
  apply Forall_cons in Hf as [Hj Hf]. rewrite pack_each_cons. apply elem_of_cons in Hq as [->|Hq].
  - rewrite Hl. rewrite pack_each_other; [|done|done|by apply slots_pack].
    rewrite unpack_pack by (eauto; lia). by rewrite Z.eqb_refl.
  - apply IH; try done. destruct (L j); [by apply slots_pack|done].
Qed.
Definition levels_ok (fills : bytes) : Prop := Forall (λ l, 0 ≤ l < 4) fills.
Lemma hnFillLevel_range c : 0 ≤ hnFillLevel c < 4.
Proof. unfold hnFillLevel. repeat case_match; done. Qed.
Lemma check_slots_Ok fills base n dst bad : levels_ok fills → (Z.of_nat n ≤ 4 * blen dst) →
  check_slots (fill_slots fills base n dst) fills base n bad = Ok tt.
Proof.
  intros Hl Hn. unfold check_slots, fill_slots. set (L := λ j : nat, fills !! Z.to_nat (base + Z.of_nat j)).
  change (fold_left _ (seq 0 n) dst) with (pack_each L (seq 0 n) dst).
  assert (∀ j l, L j = Some l → 0 ≤ l < 4) as HL by (intros j l E; by apply (Forall_lookup_1 _ _ _ _ Hl) in E).
  apply each_Ok. intros j Hj. change (fills !! _) with (L j). destruct (L j) as [l|] eqn:E; [|done].
  rewrite (pack_each_at L (seq 0 n) j l) ; [by rewrite Z.eqb_refl|done|apply NoDup_seq|done|done|].
  apply Forall_forall. intros x Hx%elem_of_seq. divlia.
Qed.

(** ** The image is a payload *)
Lemma byte_of_bits x : (∀ i, 8 ≤ i → Z.testbit x i = false) → is_byte x.
Proof.
  intros Hb. assert (x = x mod 2 ^ 8) as ->.
  { apply Z.bits_inj'. intros i Hi. destruct (decide (i < 8)); [by rewrite Z.mod_pow2_bits_low by lia|]. by rewrite Z.mod_pow2_bits_high, Hb by lia. }
  pose proof (Z.mod_pos_bound x (2 ^ 8) ltac:(lia)). unfold is_byte. lia.
Qed.
Lemma byte_bits x i : is_byte x → 8 ≤ i → Z.testbit x i = false.
Proof. intros Hx Hi. rewrite <- (Z.mod_small x (2 ^ 8)) by (unfold is_byte in Hx; lia). by rewrite Z.mod_pow2_bits_high by lia. Qed.
Lemma bytes_ok_pack dst p l : bytes_ok dst → bytes_ok (packFill dst p l).
Proof.
  intros Hd. unfold packFill. destruct (_ || _); [done|]. apply Forall_insert; [done|]. apply byte_of_bits. intros i Hi.
  rewrite Z.lor_spec, Z.ldiff_spec, (byte_bits _ i (u8_range _)) by done. rewrite orb_false_r.
  assert (is_byte (default 0 (dst !! Z.to_nat (p / 4)))) as Hb.
  { destruct (dst !! _) eqn:E; [|done]. by apply (Forall_lookup_1 _ _ _ _ Hd E). }
  by rewrite (byte_bits _ i Hb).
Qed.
Lemma bytes_ok_slots fills base n dst : bytes_ok dst → bytes_ok (fill_slots fills base n dst).
Proof.
  unfold fill_slots. generalize (seq 0 n). intros js. revert dst. induction js as [|j js IH]; intros dst Hd; [done|]. cbn [fold_left].
  apply IH. case_match; [by apply bytes_ok_pack|done].
Qed.
Lemma bytes_ok_page_fill fills i : bytes_ok (page_fill fills i).
Proof. unfold page_fill. repeat case_match; try apply bytes_ok_slots; try apply bytes_ok_zeros. constructor. Qed.
Lemma bytes_ok_concat_list (ls : list bytes) : Forall bytes_ok ls → bytes_ok (concat ls).
Proof. induction 1 as [|l ls Hl _ IH]; cbn [concat]; [constructor|]. by apply Forall_app. Qed.
Lemma hn_image_ok index sig root allocs fill : fits 8 sig → Forall bytes_ok allocs → bytes_ok fill → bytes_ok (hn_image index sig root allocs fill).
Proof.
  intros Hs Ha Hf. unfold hn_image, hn_header, header_fill.
  assert (bytes_ok (concat (map (le_enc 2) (alloc_offsets (hnHeaderSize index) allocs)))) as Ho by (apply bytes_ok_concat; auto with pst).
  pose proof (bytes_ok_concat_list allocs Ha).
  assert (∀ n, bytes_ok (take n fill)) as Ht by (intros n; by apply Forall_take).
  repeat case_match; repeat (apply Forall_app; split); auto with pst; repeat constructor; try (unfold HeapSignature, is_byte, fits in *; lia).
Qed.
(** The levels a page carries are whole. *)
Lemma blen_fill_slots fills base n dst : blen (fill_slots fills base n dst) = blen dst.
Proof. exact (blen_pack_each (λ j, fills !! Z.to_nat (base + Z.of_nat j)) (seq 0 n) dst). Qed.
Lemma take_whole (n : nat) (f z : bytes) : blen f = Z.of_nat n → (if Z.of_nat n <=? blen f then take n f else z) = f.
Proof. intros Hf. rewrite Hf, Z.leb_refl. apply take_ge. unfold blen in Hf. lia. Qed.
Lemma header_page_fill fills i : header_fill i (page_fill fills i) = page_fill fills i.
Proof.
  unfold header_fill, page_fill. destruct (i =? 0); [|destruct (hnBitmapPage i); [|done]].
  - apply (take_whole 4). by rewrite blen_fill_slots, blen_zeros.
  - apply (take_whole 64). by rewrite blen_fill_slots, blen_zeros.
Qed.
