(* ===== verification/V2HeapBuild.v ===== *)
(** * Writer v2: a heap in memory

    [heap_get] is what a heap maps an ID to; [Heap_Allocate] adds an entry to that
    map, on a page or as a subnode, and touches no other. *)
From S2P Require Import Prelude Ids State Fields V2Base V2Disk V2Entries V2Blocks V2Header V2Store V2Ndb V2Catalog V2Data V2Subnode V2Heap V2HeapPage.

(** ** IDs *)
Lemma MakeHID_fields b j : 0 ≤ b < 65536 → 0 ≤ j < 2047 →
  IsHID (MakeHID b j) = true ∧ HIDBlock (MakeHID b j) = b ∧ HIDIndex (MakeHID b j) = j + 1 ∧ fits 32 (MakeHID b j).
Proof.
  intros Hb Hj. assert (MakeHID b j = 32 * (j + 1) + b * 65536) as ->.
  { unfold MakeHID. rewrite u16_small by lia. rewrite Z.lor_comm. change 65536 with (2 ^ 16).
    rewrite (u32_small (Z.shiftl b 16)) by (rewrite Z.shiftl_mul_pow2; lia). rewrite (u32_small (Z.shiftl (j + 1) 5)) by (rewrite Z.shiftl_mul_pow2; lia).
    rewrite (Z.shiftl_mul_pow2 (j + 1)) by lia. rewrite lor_shiftl by lia. lia. }
  unfold IsHID, HIDBlock, HIDIndex, hidIndexMask, fits.
  change 0x1F with (Z.ones 5). change 0x7FF with (Z.ones 11). rewrite !Z.land_ones, !Z.shiftr_div_pow2 by lia. change (2 ^ 16) with 65536. change (2 ^ 5) with 32. change (2 ^ 11) with 2048.
  split; [apply Z.eqb_eq; divlia|]. split; [rewrite u16_small by divlia; divlia|]. split; [rewrite u16_small by divlia; divlia|lia].
Qed.
Lemma sub_nid i : 0 ≤ i < 2 ^ 27 → MakeNID V2NIDTypeLTP i = 31 + 32 * i.
Proof. intros Hi. rewrite MakeNID_arith, (Z.mod_small i) by lia. change (V2NIDTypeLTP mod 32) with 31. lia. Qed.
Lemma sub_nid_not_hid i : 0 ≤ i < 2 ^ 27 → IsHID (MakeNID V2NIDTypeLTP i) = false ∧ fits 32 (MakeNID V2NIDTypeLTP i).
Proof.
  intros Hi. rewrite sub_nid by done. unfold IsHID, fits. rewrite land31.
  split; [apply Z.eqb_neq; divlia|lia].
Qed.

(** ** The map a heap is *)
Definition heap_get (h : Heap) (k : Z) : option bytes :=
  if IsHID k then
    if HIDIndex k =? 0 then None else
    p ← hb_pages h !! Z.to_nat (HIDBlock k); hp_allocs p !! Z.to_nat (HIDIndex k - 1)
  else hs_data <$> head (filter (λ s, hs_nid s = k ∧ hs_dataBID s = 0) (hb_subs h)).
Definition page_ok (i : nat) (p : hnPage) : Prop :=
  hn_size (Z.of_nat i) (hp_allocs p) ≤ MaxDataBlockCB ∧ blen (hp_allocs p) ≤ HNMaxAllocsPerPage ∧ Forall bytes_ok (hp_allocs p).
(** A subnode ID of the heap is not one it will give out. *)
Definition sub_old (next : Z) (s : heapSub) : Prop :=
  fits 32 (hs_nid s) ∧ IsHID (hs_nid s) = false ∧ ∀ i, next ≤ i < 2 ^ 27 → hs_nid s ≠ MakeNID V2NIDTypeLTP i.
Record heap_ok (h : Heap) : Prop := mkHeapOk {
  ho_pages : ∀ i p, hb_pages h !! i = Some p → page_ok i p;
  ho_count : blen (hb_pages h) ≤ HNMaxBlockIndex + 1;
  ho_sig : fits 8 (hb_clientSig h); ho_root : fits 32 (hb_root h);
  ho_next : 1 ≤ hb_nextSub h; ho_subs : NoDup (map hs_nid (hb_subs h)); ho_old : Forall (sub_old (hb_nextSub h)) (hb_subs h) }.
(** ** Allocating *)
Lemma blen_concat_snoc (ls : list bytes) d : blen (concat (ls ++ [d])) = blen (concat ls) + blen d.
Proof. rewrite concat_app. cbn [concat]. by rewrite app_nil_r, blen_app. Qed.
Lemma fits_page_iff i allocs (d : bytes) : fits_page i allocs (blen d) = true ↔
  blen allocs < HNMaxAllocsPerPage ∧ hn_size i (allocs ++ [d]) ≤ MaxDataBlockCB.
Proof.
  unfold fits_page, hn_size. rewrite alloc_bytes_concat, blen_concat_snoc, blen_app. change (blen [d]) with 1.
  destruct (Z.leb_spec HNMaxAllocsPerPage (blen allocs)); [split; [done|lia]|]. rewrite Z.leb_le. lia.
Qed.
Lemma fresh_page_fits i (d : bytes) : blen d ≤ HeapMaxAlloc → fits_page i [] (blen d) = true.
Proof.
  intros Hd. apply fits_page_iff. split; [done|]. unfold hn_size. cbn [app concat]. rewrite app_nil_r. change (blen [d]) with 1.
  pose proof (header_size_bounds i). unfold HeapMaxAlloc, MaxDataBlockCB in *. lia.
Qed.
(** Pages with an empty one added where there is none. *)
Definition last_page (ps : list hnPage) (p : hnPage) : Prop := ∃ front, ps = front ++ [p].
Lemma page_for_Ok h (d : bytes) : blen d ≤ HeapMaxAlloc → blen (hb_pages h) ≤ HNMaxBlockIndex →
  ∃ front p, page_for (blen d) h = (heap_pages (front ++ [p]) h, Ok (blen front)) ∧ fits_page (blen front) (hp_allocs p) (blen d) = true ∧
    (hb_pages h = front ++ [p] ∨ hb_pages h = front ∧ p = mkHnPage [] []).
Proof.
  intros Hd Hc. unfold page_for. rewrite st_modify_bind, st_get_bind. cbv zeta. pose proof (fresh_page_fits 0 d Hd) as F0.
  destruct (hb_pages h) as [|p0 ps] eqn:Ep.
  { exists [], (mkHnPage [] []). cbn [heap_pages hb_pages]. change (blen [mkHnPage [] []] - 1) with 0. change (page_allocs _ 0) with (@nil bytes).
    rewrite F0. split; [done|]. split; [done|by right]. }
  assert (∃ front p, hb_pages h = front ++ [p]) as (front & p & Efp) by (rewrite Ep; destruct (exists_last (l := p0 :: ps)) as (f & q & E); [done|by exists f, q]).
  rewrite <- Ep in *. rewrite Efp in *. pose proof (blen_nonneg front). rewrite blen_app in *. change (blen [p]) with 1 in *. replace (blen front + 1 - 1) with (blen front) by lia.
  assert (page_allocs h (blen front) = hp_allocs p) as ->.
  { unfold page_allocs. rewrite Efp. unfold blen. rewrite Nat2Z.id, lookup_app_r, Nat.sub_diag by lia. done. }
  destruct (fits_page (blen front) (hp_allocs p) (blen d)) eqn:Ef.
  { exists front, p. rewrite Ef. split; [|by auto]. rewrite <- Efp. by destruct h. }
  exists (front ++ [p]), (mkHnPage [] []). cbn [hp_allocs]. pose proof (fresh_page_fits (blen front + 1) d Hd) as F1.
  assert ((blen (hp_allocs p) =? 0) && (MaxDataBlockCB <? blen d + hnHeaderSize (blen front) + 6) = false) as ->.
  { pose proof (header_size_bounds (blen front)). rewrite (proj2 (Z.ltb_ge _ _)); [apply andb_false_r|]. unfold HeapMaxAlloc, MaxDataBlockCB in *. lia. }
  rewrite (proj2 (Z.leb_gt _ _)) by lia. rewrite st_modify_bind, F1. cbn [negb]. rewrite Efp, blen_app. change (blen [p]) with 1. by auto.
Qed.
Lemma hid_eq k b j : fits 32 k → 0 ≤ b < 65536 → 0 ≤ j < 2047 → IsHID k = true → HIDBlock k = b → HIDIndex k = j + 1 → k = MakeHID b j.
Proof.
  intros Hk Hb Hj. destruct (MakeHID_fields b j Hb Hj) as (E1 & E2 & E3 & E4). revert E1 E2 E3 E4. generalize (MakeHID b j) as m. intros m.
  unfold IsHID, HIDBlock, HIDIndex, hidIndexMask, fits in *. change 0x7FF with (Z.ones 11). rewrite !land31, !Z.land_ones, !Z.shiftr_div_pow2, !Z.eqb_eq by lia.
  change (2 ^ 16) with 65536. change (2 ^ 5) with 32. change (2 ^ 11) with 2048. intros. rewrite !u16_small in * by divlia. divlia.
Qed.
Lemma HIDIndex_range k : 0 ≤ HIDIndex k < 2048.
Proof.
  unfold HIDIndex, hidIndexMask. change 0x7FF with (Z.ones 11). rewrite Z.land_ones by lia. pose proof (Z.mod_pos_bound (Z.shiftr k 5) (2 ^ 11) ltac:(lia)).
  rewrite u16_small; lia.
Qed.
Lemma HIDBlock_range k : 0 ≤ HIDBlock k < 65536.
Proof. unfold HIDBlock. pose proof (u16_range (Z.shiftr k 16)). lia. Qed.
(** Only the page an allocation is on matters. *)
Definition page_get (ps : list hnPage) (k : Z) : option bytes :=
  if HIDIndex k =? 0 then None else p ← ps !! Z.to_nat (HIDBlock k); hp_allocs p !! Z.to_nat (HIDIndex k - 1).
Lemma page_get_empty ps k : page_get (ps ++ [mkHnPage [] []]) k = page_get ps k.
Proof.
  unfold page_get. destruct (_ =? 0); [done|]. destruct (decide (Z.to_nat (HIDBlock k) < length ps)%nat).
  - by rewrite lookup_app_l.
  - rewrite (lookup_ge_None_2 ps) by lia. destruct ((ps ++ _) !! _) as [p|] eqn:E; [|done].
    rewrite lookup_app_r in E by lia. apply list_lookup_singleton_Some in E as [_ <-]. done.
Qed.
Lemma page_get_snoc front p d hids k : fits 32 k → IsHID k = true → blen front ≤ HNMaxBlockIndex → blen (hp_allocs p) < HNMaxAllocsPerPage →
  page_get (front ++ [mkHnPage (hp_allocs p ++ [d]) hids]) k =
    if decide (k = MakeHID (blen front) (blen (hp_allocs p))) then Some d else page_get (front ++ [p]) k.
Proof.
  intros Hk Hh Hf Hn. pose proof (blen_nonneg front). pose proof (blen_nonneg (hp_allocs p)). unfold HNMaxBlockIndex, HNMaxAllocsPerPage in *.
  destruct (MakeHID_fields (blen front) (blen (hp_allocs p))) as (_ & E2 & E3 & _); [lia|lia|]. pose proof (HIDIndex_range k). pose proof (HIDBlock_range k).
  unfold page_get. destruct (decide _) as [->|Hne].
  - rewrite E2, E3. rewrite (proj2 (Z.eqb_neq _ _)) by lia. replace (Z.to_nat (blen front)) with (length front) by (unfold blen; lia). rewrite lookup_app_r, Nat.sub_diag by lia. cbn [lookup list_lookup mbind option_bind hp_allocs].
    replace (Z.to_nat (blen (hp_allocs p) + 1 - 1)) with (length (hp_allocs p)) by (unfold blen; lia). by rewrite lookup_app_r, Nat.sub_diag by lia.
  - destruct (Z.eqb_spec (HIDIndex k) 0); [done|]. destruct (decide (Z.to_nat (HIDBlock k) < length front)%nat); [by rewrite !lookup_app_l|].
    destruct (decide (HIDBlock k = blen front)) as [Eb|].
    2:{ rewrite !(lookup_ge_None_2 (front ++ _)); [done|rewrite length_app; cbn [length]; unfold blen in *; lia..]. }
    rewrite Eb. replace (Z.to_nat (blen front)) with (length front) by (unfold blen; lia). rewrite !lookup_app_r, !Nat.sub_diag by lia. cbn [lookup list_lookup mbind option_bind hp_allocs].
    assert (HIDIndex k - 1 ≠ blen (hp_allocs p)) by (intros Ej; apply Hne, hid_eq; (done || lia)).
    destruct (decide (Z.to_nat (HIDIndex k - 1) < length (hp_allocs p))%nat); [by rewrite lookup_app_l|].
    rewrite !lookup_ge_None_2; [done|lia|]. rewrite length_app. cbn [length]. unfold blen in *. lia.
Qed.
(** Room for one more value: a page index, a subnode ID. *)
Definition heap_room (h : Heap) : Prop := blen (hb_pages h) ≤ HNMaxBlockIndex ∧ hb_nextSub h < 2 ^ 27.
(** [h'] maps [k] to [d], and every other ID as [h] does. *)
Definition heap_adds (h h' : Heap) (k : Z) (d : bytes) : Prop :=
  heap_get h k = None ∧ ∀ k', fits 32 k' → heap_get h' k' = if decide (k' = k) then Some d else heap_get h k'.
Lemma heap_get_page h k : IsHID k = true → heap_get h k = page_get (hb_pages h) k.
Proof. unfold heap_get, page_get. by intros ->. Qed.
(** What storing [d] does. *)
Record heap_step (cb : Z) (h h' : Heap) (k : Z) (d : bytes) : Prop := mkHeapStep {
  st_ok : heap_ok h'; st_key : fits 32 k; st_adds : heap_adds h h' k d;
  st_pages : blen (hb_pages h) ≤ blen (hb_pages h') ≤ blen (hb_pages h) + 1;
  st_next : hb_nextSub h ≤ hb_nextSub h' ≤ hb_nextSub h + 1;
  st_same : hb_clientSig h' = hb_clientSig h ∧ hb_root h' = hb_root h;
  st_subs : hb_subs h' = hb_subs h ++ (if IsHID k then [] else [mkHeapSub k d cb 0 0]) }.
Lemma newSub_Ok h d cb : heap_ok h → heap_room h →
  ∃ h' k, newSubChunked d cb h = (h', Ok k) ∧ heap_step cb h h' k d ∧ IsHID k = false.
Proof.
  intros Hok [_ Hn]. pose proof (ho_next h Hok). unfold newSubChunked. rewrite st_get_bind. cbv zeta. rewrite st_modify_bind.
  set (k := MakeNID V2NIDTypeLTP (hb_nextSub h)). destruct (sub_nid_not_hid (hb_nextSub h)) as [Hk Hf]; [lia|]. fold k in Hk, Hf.
  exists (heap_subs (hb_subs h ++ [mkHeapSub k d cb 0 0]) (u32 (hb_nextSub h + 1)) h), k.
  assert (∀ s, s ∈ hb_subs h → hs_nid s ≠ k) as Hfresh.
  { intros s Hs. pose proof (ho_old h Hok) as Ho. rewrite Forall_forall in Ho. destruct (Ho s Hs) as (_ & _ & Ho'). apply Ho'. lia. }
  rewrite u32_small by lia. split; [done|]. split; [|done]. split; cbn [heap_subs hb_pages hb_clientSig hb_root hb_nextSub hb_subs]; try done; try lia; [| |by rewrite Hk].
  - destruct Hok as [H1 H2 H3 H4 H5 H6 H7]. split; cbn [heap_subs hb_pages hb_clientSig hb_root hb_nextSub hb_subs]; try done; [lia| |].
    + rewrite map_app. apply NoDup_app. split; [done|]. split; [|apply NoDup_singleton].
      intros x Hx Hin. apply list_elem_of_singleton in Hin. subst x. apply list_elem_of_In, in_map_iff in Hx as (s & Es & Hs%list_elem_of_In). by apply (Hfresh s).
    + apply Forall_app. split.
      * eapply Forall_impl; [exact H7|]. intros s (? & ? & Hs). split; [done|]. split; [done|]. intros i Hi. apply Hs. lia.
      * constructor; [|constructor]. split; [done|]. split; [done|]. cbn [hs_nid]. intros i Hi. unfold k. rewrite !sub_nid by lia. lia.
  - assert (filter (λ s, hs_nid s = k ∧ hs_dataBID s = 0) (hb_subs h) = []) as He.
    { destruct (filter _ _) as [|s l] eqn:E; [done|]. assert (s ∈ filter (λ s, hs_nid s = k ∧ hs_dataBID s = 0) (hb_subs h)) as Hs by (rewrite E; by left).
      apply list_elem_of_filter in Hs as [[Es _] Hs]. by apply Hfresh in Hs. }
    split; [unfold heap_get; by rewrite Hk, He|]. intros k' Hk'. unfold heap_get. cbn [heap_subs hb_pages hb_subs].
    destruct (decide (k' = k)) as [->|Hne].
    + rewrite Hk, filter_app, He. cbn [app]. by rewrite filter_cons_True by done.
    + destruct (IsHID k'); [done|]. rewrite filter_app. rewrite (filter_cons_False _ (mkHeapSub k d cb 0 0)) by (cbn; intros [? _]; congruence). by rewrite filter_nil, app_nil_r.
Qed.
Lemma Heap_Allocate_Ok h d : heap_ok h → heap_room h → bytes_ok d →
  ∃ h' k, Heap_Allocate d h = (h', Ok k) ∧ heap_step 0 h h' k d ∧ IsHID k = (blen d <=? HeapMaxAlloc).
Proof.
  intros Hok Hroom Hd. unfold Heap_Allocate. destruct (Z.ltb_spec HeapMaxAlloc (blen d)) as [Hbig|Hsmall].
  { destruct (newSub_Ok h d 0 Hok Hroom) as (h' & k & E & S & Hk). exists h', k. split; [done|]. split; [done|]. by rewrite Hk, (proj2 (Z.leb_gt _ _)). }
  destruct Hroom as [Hc _]. destruct (page_for_Ok h d Hsmall Hc) as (front & p & Ep & Hfit & Hpages). erewrite st_bind_Ok by exact Ep.
  apply fits_page_iff in Hfit as [Hn Hs]. pose proof (blen_nonneg front). pose proof (blen_nonneg (hp_allocs p)).
  assert (blen front ≤ HNMaxBlockIndex) as Hfl.
  { destruct Hpages as [E|[E _]]; rewrite E in Hc; [rewrite blen_app in Hc; change (blen [p]) with 1 in Hc; lia|done]. }
  rewrite (proj2 (Z.ltb_ge _ _)) by done. rewrite st_get_bind. cbv zeta.
  assert (page_allocs (heap_pages (front ++ [p]) h) (blen front) = hp_allocs p) as ->.
  { unfold page_allocs. cbn [heap_pages hb_pages]. unfold blen. by rewrite Nat2Z.id, lookup_app_r, Nat.sub_diag by lia. }
  rewrite (proj2 (Z.leb_gt _ _)) by done. rewrite st_modify_bind. unfold HNMaxBlockIndex, HNMaxAllocsPerPage in *. rewrite !u16_small by lia.
  set (k := MakeHID (blen front) (blen (hp_allocs p))). destruct (MakeHID_fields (blen front) (blen (hp_allocs p))) as (Kh & Kb & Ki & Kf); [lia|lia|]. fold k in Kh, Kb, Ki, Kf.
  cbn [heap_pages hb_pages]. replace (Z.to_nat (blen front)) with (length front) by (unfold blen; lia).
  rewrite alter_app_r_alt by lia. rewrite Nat.sub_diag. cbn [alter list_alter]. eexists _, k. split; [reflexivity|].
  assert (∀ x, page_get (front ++ [p]) x = page_get (hb_pages h) x) as Hold.
  { intros x. destruct Hpages as [->|[-> ->]]; [done|]. apply page_get_empty. }
  rewrite (proj2 (Z.leb_le _ _)) by done. split; [|done]. split; cbn [heap_pages hb_pages hb_clientSig hb_root hb_nextSub hb_subs]; try done; try lia; [| | |by rewrite Kh, app_nil_r].
  - destruct Hok as [H1 H2 H3 H4 H5 H6 H7]. split; cbn [heap_pages hb_pages hb_clientSig hb_root hb_nextSub hb_subs]; try done.
    + intros i q Hq. apply lookup_app_Some in Hq as [Hq|[Hle Hq]].
      * apply H1. destruct Hpages as [->|[-> _]]; [by apply lookup_app_l_Some|done].
      * apply list_lookup_singleton_Some in Hq as [Hi <-]. assert (i = length front) as -> by lia. unfold page_ok. cbn [hp_allocs].
        split; [done|]. rewrite blen_app. change (blen [d]) with 1. split; [unfold HNMaxAllocsPerPage; lia|]. apply Forall_app. split; [|by constructor].
        destruct Hpages as [E|[_ ->]]; [|constructor]. apply (H1 (length front) p). by rewrite E, lookup_app_r, Nat.sub_diag by lia.
    + rewrite blen_app. change (blen [_]) with 1. unfold HNMaxBlockIndex. lia.
  - split; [|intros k' Hk'; destruct (IsHID k') eqn:Eh].
    + rewrite heap_get_page, <- Hold by done. unfold page_get. rewrite Ki, Kb. case_match; [done|]. replace (Z.to_nat (blen front)) with (length front) by (unfold blen; lia).
      rewrite lookup_app_r, Nat.sub_diag by lia. cbn [lookup list_lookup mbind option_bind]. apply lookup_ge_None_2. unfold blen. lia.
    + rewrite !heap_get_page, <- Hold by done. cbn [heap_pages hb_pages]. apply page_get_snoc; (done || unfold HNMaxBlockIndex, HNMaxAllocsPerPage; lia).
    + rewrite decide_False by (intros ->; congruence). unfold heap_get. by rewrite Eh.
  - rewrite blen_app. change (blen [_]) with 1. destruct Hpages as [->|[-> _]]; [rewrite blen_app; change (blen [p]) with 1|]; lia.
Qed.
(** C19: A heap is a map from IDs to values, to which [Allocate] adds one entry under
    a new ID, on a page or as a subnode, and changes no other.  While page indexes
    and subnode IDs last, it never fails. *)
Theorem heap_allocates h d : heap_ok h → heap_room h → bytes_ok d →
  ∃ h' k, Heap_Allocate d h = (h', Ok k) ∧ heap_ok h' ∧ fits 32 k ∧ heap_adds h h' k d.
Proof. intros Hok Hr Hd. destruct (Heap_Allocate_Ok h d Hok Hr Hd) as (h' & k & E & [? ? ? _ _ _ _] & _). by exists h', k. Qed.
Lemma heap_allocates_witness : ∃ h' k, Heap_Allocate [1; 2; 3] (NewHeap HeapSigPC) = (h', Ok k) ∧ heap_get h' k = Some [1; 2; 3].
Proof.
  assert (heap_ok (NewHeap HeapSigPC)) as Hok by (split; try done; try constructor; intros i p Hp; by rewrite lookup_nil in Hp).
  destruct (heap_allocates (NewHeap HeapSigPC) [1; 2; 3] Hok ltac:(done) ltac:(by repeat constructor)) as (h' & k & E & _ & Hk & _ & Hg).
  exists h', k. split; [exact E|]. rewrite Hg by done. by rewrite decide_True.
Defined.
