(* ===== verification/V2HeapTree.v ===== *)
(** * Writer v2: heaps, written and read back

    Committing a heap to a new node stores what opening that node reads. *)
From S2P Require Import Prelude Ids State Fields V2Base V2Disk V2Entries V2Blocks V2Header V2Bitmap V2Store V2Journal V2Alloc V2Ndb V2Txn V2Catalog V2Extents V2Data V2DataTree V2Subnode V2SubTree V2Heap V2HeapPage V2HeapBuild.

(** ** Walks whose visitor may fail *)
Lemma walk_loop_fold {A} n (fn : A → Z * Z → result A) ls : ∀ fuel it a, walks n it ls → (length ls < fuel)%nat →
  walk_loop fuel n fn it a = (b ← fold_each fn (map visit ls) a; mret (b, it_total it)).
Proof.
  induction ls as [|[b d] ls IH]; intros [|fuel] it a Hw Hf; cbn [length] in Hf; try lia; cbn [walk_loop]; apply next_pend in Hw.
  - destruct Hw as (it' & -> & <-). done.
  - destruct Hw as (it' & -> & Hw & <-). cbn [map fold_each]. change (visit (b, d)) with (b, blen d). destruct (fn a (b, blen d)) as [a'| |]; [|done|done].
    rewrite !bind_Ok. apply IH; [done|lia].
Qed.
Lemma walkDataTree_fold {A} n r ls (fn : A → Z * Z → result A) a : ndb_wf n → data_tree n r ls →
  walkDataTree n r fn a = (b ← fold_each fn (map visit ls) a; mret (b, blen (bytes_of ls))).
Proof.
  intros Hwf Ht. destruct (startDataTree_Ok n r ls Hwf Ht) as (it & E & Hw & <- & _). unfold walkDataTree. rewrite E, bind_Ok.
  apply walk_loop_fold; [done|]. pose proof (tree_size n r ls Ht). lia.
Qed.

(** ** A new node *)
(** The blocks as before, up to their counts. *)
Definition recounted (n n' : NDB) : Prop := n_store n' = n_store n ∧ n_nodes n' = n_nodes n ∧ cs_livePages (n_cat n') = cs_livePages (n_cat n) ∧
  (∀ b y, n_blocks n !! b = Some y → ∃ r, n_blocks n' !! b = Some (set_refcount r y)).
Lemma recounted_trans n n1 n2 : recounted n n1 → recounted n1 n2 → recounted n n2.
Proof.
  intros (S1 & N1 & L1 & B1) (S2 & N2 & L2 & B2). split; [congruence|]. split; [congruence|]. split; [congruence|].
  intros b y Hy. destruct (B1 _ _ Hy) as [r Hr]. destruct (B2 _ _ Hr) as [r' Hr']. by exists r'.
Qed.
Lemma resyncRef_Ok n b : b = 0 ∨ is_Some (n_blocks n !! b) → ∃ n', resyncRef b n = (n', Ok tt) ∧ recounted n n'.
Proof.
  unfold resyncRef. destruct (Z.eqb_spec b 0) as [|Hb].
  { intros _. exists n. split; [done|]. split; [done|]. split; [done|]. split; [done|]. intros c y Hy. exists (B_RefCount y). rewrite Hy. by destruct y. }
  intros [?|[e He]]; [done|]. rewrite st_get_bind, He. eexists. split; [reflexivity|]. split; [done|]. split; [done|]. split; [done|].
  intros c y Hy. destruct (decide (c = b)) as [->|Hne].
  - rewrite He in Hy. injection Hy as <-. eexists. cbn. by rewrite lookup_insert_eq.
  - exists (B_RefCount y). cbn. rewrite lookup_insert_ne by done. rewrite Hy. by destruct y.
Qed.
Lemma PutNode_new n e : ndb_wf n → N_NID e ≠ 0 → fits 32 (N_NID e) → n_nodes n !! N_NID e = None →
  (N_DataBID e = 0 ∨ held n (N_DataBID e)) → (N_SubBID e = 0 ∨ held n (N_SubBID e)) →
  ∃ n', PutNode e n = (n', Ok tt) ∧ ndb_wf n' ∧ extends n n' ∧ n_nodes n' = <[N_NID e := e]> (n_nodes n) ∧ n_store n' = n_store n.
Proof.
  intros Hwf Hz Hf Hnew Hd Hs. set (n1 := with_cat n (cat_nodes (<[N_NID e := e]> (n_nodes n)) (n_cat n))).
  assert (∀ b, b = 0 ∨ held n b → b = 0 ∨ is_Some (n_blocks n !! b)) as Hh.
  { intros b [->|(d & x & Hx & _)]; [by left|right; by exists x]. }
  apply Hh in Hd, Hs. destruct (resyncRef_Ok n1 (N_DataBID e) Hd) as (n2 & E2 & R2). destruct R2 as (S2 & N2 & L2 & B2).
  destruct (resyncRef_Ok n2 (N_SubBID e)) as (n3 & E3 & R3).
  { destruct Hs as [?|[x Hx]]; [by left|right]. destruct (B2 _ _ Hx) as [r Hr]. by eexists. }
  assert (recounted n1 n3) as (S3 & N3 & L3 & B3) by (by apply (recounted_trans _ n2)). exists n3.
  assert (PutNode e n = (n3, Ok tt)) as Hrun.
  { unfold PutNode. rewrite (proj2 (Z.eqb_neq _ _)), Z.shiftr_div_pow2, Z.div_small by (done || lia). cbn [orb negb Z.eqb]. rewrite st_get_bind.
    rewrite each_Ok.
    2:{ intros b Hb. destruct (Z.eqb_spec b 0); [done|]. apply elem_of_cons in Hb as [->|Hb%list_elem_of_singleton]; [|subst b]; [destruct Hd as [?|[x ->]]|destruct Hs as [?|[x ->]]]; done. }
    erewrite st_bind_Ok by reflexivity. unfold upd_cat. rewrite st_modify_bind. fold n1. rewrite Hnew. rewrite st_ret_bind. by erewrite st_bind_Ok by exact E2. }
  assert (inv nostale (λ _, True) (cat_nodes (<[N_NID e := e]> (n_nodes n)) (n_cat n)) n3) as [Hcat Hbel].
  { eapply PutNode_post; [apply (no_cat n (nw_ok n Hwf))|reflexivity|exact Hrun]. }
  assert (ndb_ok n3) as Hok3.
  { eapply (inv_ok n); [apply Hwf|split; [exact Hcat|exact Hbel]| |done|done].
    pose proof (PutNode_moves same_next upd_cat_next free_next e n) as Hm. by rewrite Hrun in Hm. }
  split; [done|]. split; [|split; [|split; [exact N3|exact S3]]].
  - apply (recount_wf n); [done|done|exact S3|exact L3|]. intros b x (y & Hy & ->)%(bl_blocks _ _ Hbel). by exists y.
  - refine (holds_same n n3 _ _ _ _); [by rewrite S3..|]. intros b x Hx. by apply B3.
Qed.

(** ** Leaves *)
Lemma put_leaves_Ok datas : ∀ n, ndb_wf n → room n (blen datas) → Forall (λ d, bytes_ok d ∧ blen d ≤ MaxDataBlockCB) datas →
  ∃ n' es, mapM_st put_leaf datas n = (n', Ok es) ∧ grows (blen datas) n n' ∧ Forall2 (leaf_entry n') datas es ∧ new_bids n n' (map B_BID es).
Proof.
  induction datas as [|d datas IH]; intros n Hwf Hr Hd.
  { exists n, []. split; [done|]. split; [by apply grows_refl|]. split; [constructor|]. split; constructor. }
  apply Forall_cons in Hd as [[Hd Hl] Hds]. rewrite blen_cons in *. pose proof (blen_nonneg datas).
  destruct (leaf_put n d Hwf (room_mono 1 (1 + blen datas) n ltac:(lia) Hr) Hd Hl) as (n1 & n2 & e & E1 & E2 & G & He & Hn).
  destruct (IH n2 (gr_wf _ _ _ G)) as (n3 & es & E3 & G3 & F3 & N3); [by eapply grows_room; [exact G|lia|]|done|].
  exists n3, (e :: es). cbn [mapM_st]. split; [|split; [by apply (grows_trans 1 _ _ n2)|split]].
  - assert (put_leaf d n = (n2, Ok e)) as E by (unfold put_leaf; erewrite st_bind_Ok by exact E1; by erewrite st_bind_Ok by exact E2).
    erewrite st_bind_Ok by exact E. by erewrite st_bind_Ok by exact E3.
  - constructor; [|done]. by apply (leaf_entry_grows (blen datas) n2).
  - cbn [map]. apply (new_bids_app n n2 n3 [B_BID e]); [|done|done]. pose proof (gr_bids _ _ _ G). pose proof (gr_bids _ _ _ G3). lia.
Qed.
Definition leaves_blocks (datas : list bytes) : Z := blen datas + blen (chunks MaxXBlockEntries datas) + 1.
(** Leaves that make one tree. *)
Definition leaves_ok (datas : list bytes) : Prop := datas ≠ [] ∧ Forall (λ d, bytes_ok d ∧ blen d ≤ MaxDataBlockCB) datas ∧
  blen (concat datas) ≤ MaxTotal ∧ blen (chunks MaxXBlockEntries datas) ≤ MaxXBlockEntries.
Lemma leaves_total_Ok datas : blen (concat datas) ≤ MaxTotal → leaves_total datas = blen (concat datas).
Proof.
  intros Hm. unfold leaves_total. assert (∀ s, 0 ≤ s → s + blen (concat datas) ≤ MaxTotal → fold_left (λ t (d : bytes), u32 (t + u32 (blen d))) datas s = s + blen (concat datas)) as Hs.
  { clear Hm. induction datas as [|d ds IH]; intros s Hs Hm; cbn [fold_left concat] in *; [change (blen (@nil Z)) with 0; lia|].
    rewrite blen_app in *. pose proof (blen_nonneg d). pose proof (blen_nonneg (concat ds)). unfold MaxTotal in *. rewrite (u32_small (blen d)) by lia.
    rewrite u32_small by lia. rewrite IH by lia. lia. }
  by rewrite Hs.
Qed.
Lemma leaves_tree_Ok n datas : ndb_wf n → leaves_ok datas → room n (leaves_blocks datas) →
  ∃ n1 es n' e ls, mapM_st put_leaf datas n = (n1, Ok es) ∧ buildDataTree es (leaves_total datas) n1 = (n', Ok e) ∧
    grows (leaves_blocks datas) n n' ∧ data_tree n' (B_BID e) ls ∧ map snd ls = datas.
Proof.
  intros Hwf (Hne & Hd & Hm & Hx) Hr. unfold leaves_blocks in *. pose proof (blen_nonneg datas). pose proof (blen_nonneg (chunks MaxXBlockEntries datas)).
  destruct (put_leaves_Ok datas n Hwf) as (n1 & es & E1 & G1 & F1 & N1); [by eapply room_mono, Hr; lia|done|].
  destruct (leaf_entries_zip _ _ _ F1) as (Z1 & Z2 & Z3). set (ps := zip es datas) in *.
  assert (blen (chunks MaxXBlockEntries ps) = blen (chunks MaxXBlockEntries datas)) as Hch by (rewrite <- Z3, chunks_map; unfold blen; by rewrite length_map).
  destruct (buildDataTree_Ok n1 ps (gr_wf _ _ _ G1)) as (n2 & e & E2 & G2 & Ht); try done; rewrite ?Z3, ?Hch; try done.
  - intros E. by rewrite E in Z3.
  - destruct N1 as [N1 _]. rewrite <- Z2 in N1. by rewrite map_map in N1.
  - eapply grows_room; [exact G1|lia|]. by rewrite Z.add_assoc.
  - exists n1, es, n2, e, (map leaf_pair ps). rewrite Z2, Z3 in E2. rewrite leaves_total_Ok by done. split; [done|]. split; [done|].
    rewrite Hch in G2. split; [by rewrite <- Z.add_assoc; apply (grows_trans _ _ _ n1)|]. split; [done|]. by rewrite map_map.
Qed.

(** ** Subnodes *)
Definition sub_leaves (s : heapSub) : list bytes := if 0 <? hs_leafCB s then chunks (hs_leafCB s) (hs_data s) else leaves_of (hs_data s).
Definition sub_blocks (s : heapSub) : Z := if hs_dataBID s =? 0 then leaves_blocks (sub_leaves s) else 0.
(** The value [d] of a subnode, in memory or a tree of [n]; [v], the blocks of its own subnodes. *)
Definition sub_data (j : nat) (n : NDB) (s : heapSub) (v : list Z) (d : bytes) : Prop :=
  (hs_dataBID s = 0 ∧ v = [] ∧ d = hs_data s ∧ bytes_ok d ∧ blen d ≤ MaxTotal ∧ hs_leafCB s ≤ MaxDataBlockCB ∧
   blen (chunks MaxXBlockEntries (sub_leaves s)) ≤ MaxXBlockEntries) ∨
  (hs_dataBID s ≠ 0 ∧ roles j n (mkSLEntry (hs_nid s) (hs_dataBID s) (hs_subBID s)) v ∧ ∃ ls, data_tree n (hs_dataBID s) ls ∧ bytes_of ls = d).
Definition entry_data (j : nat) (n : NDB) (e : SLEntry) (v : list Z) (d : bytes) : Prop :=
  roles j n e v ∧ ∃ ls, data_tree n (SL_DataBID e) ls ∧ bytes_of ls = d.
Lemma sub_data_extends j n n' s v d : extends n n' → sub_data j n s v d → sub_data j n' s v d.
Proof.
  intros G [?|(Hb & Hr & ls & Ht & Hd)]; [by left|right]. split; [done|]. split; [by apply (roles_extends j n)|]. exists ls. split; [by apply (data_tree_extends n)|done].
Qed.
Lemma entry_data_extends j n n' e v d : extends n n' → entry_data j n e v d → entry_data j n' e v d.
Proof. intros G (Hr & ls & Ht & Hd). split; [by apply (roles_extends j n)|]. exists ls. split; [by apply (data_tree_extends n)|done]. Qed.
Lemma ref_fine n b : ndb_wf n → b = 0 ∨ held n b → fits 64 b ∧ BIDHasReserved b = false.
Proof.
  intros Hwf [->|Hb]; [done|]. destruct (held_bid n b Hwf Hb) as [? Hm]. split; [unfold fits; lia|]. rewrite BIDHasReserved_bit.
  rewrite <- Z.bit0_mod in Hm. by destruct (Z.testbit b 0).
Qed.
Lemma entry_valid j n e v : ndb_wf n → roles j n e v → SL_NID e ≠ 0 → fits 32 (SL_NID e) → ke_wf e ∧ valid e.
Proof.
  intros Hwf [Hd Hs] Hz Hf.
  destruct (ref_fine n (SL_DataBID e) Hwf) as [F1 R1]; [destruct (decide (SL_DataBID e = 0)); [by left|right]; destruct Hd as [?|(ls & Hl)]; [done|by eapply data_tree_held]|].
  destruct (ref_fine n (SL_SubBID e) Hwf) as [F2 R2]; [destruct Hs as [[? _]|[_ (es & Hs)]]; [by left|right]; by apply sub_tree_held in Hs as [? _]|].
  split; [split; [unfold fits in *; lia|by split]|]. unfold valid. cbn [ke_check_enc SLEntry_keyed]. unfold checkSLEntry, high_bits.
  rewrite (proj2 (Z.eqb_neq _ _)), Z.shiftr_div_pow2, Z.div_small, R1, R2 by (done || lia). done.
Qed.
Lemma chunks_bounds {A} n (l : list A) : 0 < n → Forall (λ c, c ≠ [] ∧ blen c ≤ n) (chunks n l) ∧ concat (chunks n l) = l.
Proof. intros Hn. split; [by apply chunks_each|by apply chunks_concat]. Qed.
Lemma chunks_bytes n d : 0 < n ≤ MaxDataBlockCB → bytes_ok d → Forall (λ c, bytes_ok c ∧ blen c ≤ MaxDataBlockCB) (chunks n d).
Proof.
  intros Hn Hd. destruct (chunks_bounds n d ltac:(lia)) as [Hf Hc]. assert (Forall bytes_ok (chunks n d)) as Hb.
  { rewrite <- Hc in Hd. revert Hd. generalize (chunks n d). intros cs. induction cs as [|c cs IH]; cbn [concat]; intros Hd; constructor.
    - by apply Forall_app in Hd as [? _].
    - apply IH. by apply Forall_app in Hd as [_ ?]. }
  rewrite Forall_forall in *. intros c Hin. destruct (Hf c Hin). split; [by apply Hb|lia].
Qed.
Lemma sub_entry_Ok j n s v d : ndb_wf n → sub_data j n s v d → room n (sub_blocks s) → hs_nid s ≠ 0 → fits 32 (hs_nid s) →
  ∃ n' e, sub_entry s n = (n', Ok e) ∧ grows (sub_blocks s) n n' ∧ SL_NID e = hs_nid s ∧ entry_data j n' e v d.
Proof.
  intros Hwf Hs Hr Hz Hf. unfold sub_entry, sub_blocks in *. destruct Hs as [(Hb & -> & -> & Hd & Hm & Hcb & Hx)|(Hb & Hro & ls & Ht & <-)].
  2:{ rewrite (proj2 (Z.eqb_neq _ _)) in * by done. exists n, (mkSLEntry (hs_nid s) (hs_dataBID s) (hs_subBID s)). split; [done|]. split; [by apply grows_refl|].
      split; [done|]. split; [done|]. by exists ls. }
  rewrite Hb in *. rewrite Z.eqb_refl in *. cbn [negb].
  assert (∃ n' blk ls, (if 0 <? hs_leafCB s then putDataLeaves (hs_data s) (hs_leafCB s) else streamDataTree (mkReader (hs_data s) None) (blen (hs_data s))) n = (n', Ok blk) ∧
    grows (leaves_blocks (sub_leaves s)) n n' ∧ data_tree n' (B_BID blk) ls ∧ bytes_of ls = hs_data s) as (n' & blk & ls & E & G & Ht & Hls).
  { unfold sub_leaves in *. destruct (Z.ltb_spec 0 (hs_leafCB s)) as [Hpos|Hneg].
    - unfold putDataLeaves. rewrite (proj2 (Z.ltb_ge _ 1)), (proj2 (Z.ltb_ge MaxDataBlockCB _)) by lia. cbn [orb]. destruct (chunks_bounds (hs_leafCB s) (hs_data s) Hpos) as [Hc1 Hc2].
      destruct (decide (hs_data s = [])) as [Ed|Ed].
      { rewrite Ed. exists n, null_block, []. split; [done|]. split; [apply (grows_mono 0); [unfold leaves_blocks, blen; lia|by apply grows_refl]|]. split; [apply tree_empty|done]. }
      assert (∀ T (a b : T), match hs_data s with [] => a | _ => b end = b) as -> by (intros; by destruct (hs_data s)).
      destruct (leaves_tree_Ok n (chunks (hs_leafCB s) (hs_data s)) Hwf) as (n1 & es & n' & e & ls & E1 & E2 & G & Ht & Hls); [|done|].
      + split; [by apply chunks_nonempty|]. split; [by apply chunks_bytes|]. split; [by rewrite Hc2|done].
      + exists n', e, ls. erewrite st_bind_Ok by exact E1. split; [done|]. split; [done|]. split; [done|]. unfold bytes_of. by rewrite Hls.
    - destruct (streamDataTree_Ok n (hs_data s) (blen (hs_data s)) Hwf Hd Hm) as (n' & e & ls & E & G & Ht & Hls); [by right|done|].
      exists n', e, ls. split; [done|]. split; [done|]. split; [done|]. unfold bytes_of. rewrite Hls. by apply chunks_concat. }
  erewrite st_bind_Ok by exact E. exists n', (mkSLEntry (hs_nid s) (B_BID blk) 0). split; [done|]. split; [done|]. split; [done|]. split; [|by exists ls].
  split; [right; by exists ls|by left].
Qed.
Lemma sub_blocks_nonneg s : 0 ≤ sub_blocks s.
Proof. unfold sub_blocks, leaves_blocks, blen. case_match; lia. Qed.
Definition all_blocks (subs : list heapSub) : Z := foldr (λ s t, sub_blocks s + t) 0 subs.
Lemma all_blocks_nonneg subs : 0 ≤ all_blocks subs.
Proof. induction subs as [|s subs IH]; cbn [all_blocks foldr]; [done|]. fold (all_blocks subs). pose proof (sub_blocks_nonneg s). lia. Qed.
Lemma sub_entries_Ok j subs ps : ∀ n, ndb_wf n → Forall2 (λ s p, sub_data j n s p.1 p.2) subs ps → room n (all_blocks subs) →
  Forall (λ s, hs_nid s ≠ 0 ∧ fits 32 (hs_nid s)) subs →
  ∃ n' es, mapM_st sub_entry subs n = (n', Ok es) ∧ grows (all_blocks subs) n n' ∧ map SL_NID es = map hs_nid subs ∧ Forall2 (λ e p, entry_data j n' e p.1 p.2) es ps.
Proof.
  revert ps. induction subs as [|s subs IH]; intros ps n Hwf Hs Hr Hn.
  { apply Forall2_nil_inv_l in Hs as ->. exists n, []. split; [done|]. split; [by apply grows_refl|]. split; [done|constructor]. }
  apply Forall2_cons_inv_l in Hs as (p & ps' & Hs & Hss & ->). apply Forall_cons in Hn as [[Hz Hf] Hn]. cbn [all_blocks foldr] in *. fold (all_blocks subs) in *.
  pose proof (sub_blocks_nonneg s). pose proof (all_blocks_nonneg subs).
  destruct (sub_entry_Ok j n s p.1 p.2 Hwf Hs) as (n1 & e & E1 & G1 & H1 & D1); [by eapply room_mono, Hr; lia|done|done|].
  destruct (IH ps' n1 (gr_wf _ _ _ G1)) as (n2 & es & E2 & G2 & H2 & D2); [|by eapply grows_room; [exact G1|lia|]|done|].
  { eapply Forall2_impl; [exact Hss|]. intros x y. apply (sub_data_extends j n). exact (gr_holds _ _ _ G1). }
  exists n2, (e :: es). cbn [mapM_st]. erewrite st_bind_Ok by exact E1. erewrite st_bind_Ok by exact E2. split; [done|].
  split; [by apply (grows_trans _ _ _ n1)|]. split; [cbn [map]; by rewrite H1, H2|]. constructor; [|done].
  apply (entry_data_extends j n1); [exact (gr_holds _ _ _ G2)|done].
Qed.

(** ** Pages *)
Definition page_image (h : Heap) (fill : Z → bytes) (i : nat) (p : hnPage) : bytes :=
  hn_image (Z.of_nat i) (hb_clientSig h) (hb_root h) (hp_allocs p) (fill (Z.of_nat i)).
(** The heap with its first page. *)
Definition with_page (h : Heap) : Heap := match hb_pages h with [] => heap_pages [mkHnPage [] []] h | _ => h end.
Definition page_fills (h : Heap) : bytes := imap (λ i p, hnFillLevel (MaxDataBlockCB - hn_size (Z.of_nat i) (hp_allocs p))) (hb_pages h).
Definition page_images (h : Heap) : list bytes := imap (page_image h (page_fill (page_fills h))) (hb_pages h).
Lemma with_page_ok h : heap_ok h → heap_ok (with_page h) ∧ hb_pages (with_page h) ≠ [] ∧ ∀ k, heap_get (with_page h) k = heap_get h k.
Proof.
  intros Hok. unfold with_page. destruct (hb_pages h) as [|p ps] eqn:E; [|rewrite E; done]. split; [|split; [done|]].
  - destruct Hok as [H1 H2 H3 H4 H5 H6 H7]. split; cbn [heap_pages hb_pages hb_clientSig hb_root hb_nextSub hb_subs]; try done.
    intros i p Hp. apply list_lookup_singleton_Some in Hp as [-> <-]. split; [by vm_compute|]. split; [by vm_compute|constructor].
  - intros k. unfold heap_get. cbn [heap_pages hb_pages hb_subs]. destruct (IsHID k); [|done]. rewrite E. pose proof (page_get_empty [] k) as Hp. unfold page_get in Hp. exact Hp.
Qed.
Lemma with_page_same h : hb_subs (with_page h) = hb_subs h ∧ hb_clientSig (with_page h) = hb_clientSig h ∧ hb_root (with_page h) = hb_root h ∧ hb_nextSub (with_page h) = hb_nextSub h.
Proof. unfold with_page. by destruct (hb_pages h). Qed.
Lemma encode_pages_from h f k ps : (∀ i p, ps !! i = Some p → page_ok (k + i) p) →
  mapM (λ '(i, p), encodeHNPage (Z.of_nat i) (hb_clientSig h) (hb_root h) (hp_allocs p) (f (Z.of_nat i))) (imap (λ i p, ((k + i)%nat, p)) ps)
  = Ok (imap (λ i p, page_image h f (k + i) p) ps).
Proof.
  revert k. induction ps as [|p ps IH]; intros k Hp; [done|]. cbn [imap]. change (mapM ?f (?x :: ?l)) with (y ← f x; ys ← mapM f l; mret (y :: ys)).
  destruct (Hp 0%nat p eq_refl) as (Hs & _). rewrite Nat.add_0_r in *. rewrite encodeHNPage_Ok by done. rewrite bind_Ok.
  assert (∀ B (g : nat → hnPage → B), imap (g ∘ S) ps = imap (λ i p, g (S i) p) ps) as Hc by done.
  replace (imap ((λ (i : nat) p, ((k + i)%nat, p)) ∘ S) ps) with (imap (λ (i : nat) p, ((S k + i)%nat, p)) ps) by (apply imap_ext; intros i x _; cbn; f_equal; lia).
  rewrite IH by (intros i q Hq; rewrite Nat.add_succ_comm; by apply Hp). rewrite bind_Ok. do 2 f_equal. apply imap_ext. intros i x _. cbn [compose]. by rewrite Nat.add_succ_comm.
Qed.
Lemma encode_each_Ok h f : heap_ok h → encode_each h f = Ok (imap (page_image h f) (hb_pages h)).
Proof. intros Hok. apply (encode_pages_from h f 0). apply Hok. Qed.
Lemma encodePages_Ok h : heap_ok h → encodePages h = (with_page h, Ok (page_images (with_page h), page_fills (with_page h))).
Proof.
  intros Hok. unfold encodePages. rewrite st_modify_bind, st_get_bind. fold (with_page h). destruct (with_page_ok h Hok) as (Hok' & _ & _).
  rewrite (encode_each_Ok _ _ Hok'). erewrite st_bind_Ok by reflexivity. cbv zeta.
  assert (map (λ raw : bytes, hnFillLevel (MaxDataBlockCB - blen raw)) (imap (page_image (with_page h) (λ _, [])) (hb_pages (with_page h))) = page_fills (with_page h)) as ->.
  { unfold page_fills. match goal with |- map ?f ?l = _ => change (map f l) with (f <$> l) end. rewrite fmap_imap. apply imap_ext. intros i p _. unfold compose, page_image. by rewrite blen_hn_image. }
  rewrite (encode_each_Ok _ _ Hok'). by erewrite st_bind_Ok by reflexivity.
Qed.
Lemma page_images_lookup h i d : page_images h !! i = Some d ↔ ∃ p, hb_pages h !! i = Some p ∧ d = page_image h (page_fill (page_fills h)) i p.
Proof.
  unfold page_images. rewrite list_lookup_imap. destruct (hb_pages h !! i) as [p|] eqn:E; cbn [fmap option_fmap option_map]; split.
  - intros [= <-]. by exists p.
  - by intros (q & [= <-] & ->).
  - done.
  - by intros (q & ? & _).
Qed.
Lemma concat_bound (ds : list bytes) m : Forall (λ d, blen d ≤ m) ds → blen (concat ds) ≤ blen ds * m.
Proof. induction 1 as [|d ds Hd _ IH]; cbn [concat]; [done|]. rewrite blen_app, blen_cons. lia. Qed.
Lemma page_images_leaves h : heap_ok h → hb_pages h ≠ [] → leaves_ok (page_images h).
Proof.
  intros Hok Hne. assert (Forall (λ d, bytes_ok d ∧ blen d ≤ MaxDataBlockCB) (page_images h)) as Hf.
  { apply Forall_lookup. intros i d (p & Hp & ->)%page_images_lookup. destruct (ho_pages h Hok i p Hp) as (Hs & _ & Hb). unfold page_image.
    split; [|by rewrite blen_hn_image]. apply hn_image_ok; [apply Hok|done|apply bytes_ok_page_fill]. }
  assert (blen (page_images h) = blen (hb_pages h)) as Hl by (unfold page_images, blen; by rewrite length_imap).
  pose proof (ho_count h Hok) as Hc. unfold HNMaxBlockIndex in Hc. split; [|split; [done|split]].
  - intros E. apply Hne. rewrite E in Hl. destruct (hb_pages h); [done|unfold blen in Hl; cbn [length] in Hl; lia].
  - assert (blen (concat (page_images h)) ≤ blen (page_images h) * MaxDataBlockCB) as Hb.
    { apply concat_bound. eapply Forall_impl; [exact Hf|]. by intros d [_ ?]. }
    unfold MaxDataBlockCB, MaxTotal in *. lia.
  - pose proof (chunks_count MaxXBlockEntries (page_images h) ltac:(done)). change MaxXBlockEntries with 1021 in *. lia.
Qed.

(** ** The heap as trees *)
Lemma chunks_count_eq {A B} n (l : list A) (l' : list B) : length l = length l' → blen (chunks n l) = blen (chunks n l').
Proof.
  intros Hl. assert (∀ C (k : list C), blen (chunks n k) = blen (chunks n (map (λ _, tt) k))) as Hm by (intros C k; rewrite chunks_map; unfold blen; by rewrite length_map).
  rewrite (Hm A l), (Hm B l'). apply chunks_length. by rewrite !length_map.
Qed.
Section materialize.
Context `{!SortSlice}.
(** The blocks a heap becomes. *)
Definition heap_blocks (h : Heap) : Z :=
  leaves_blocks (page_images (with_page h)) + (all_blocks (hb_subs h) + (blen (chunks MaxSLBlockEntries (hb_subs h)) + 1)).
(** The subnode tree: empty, or of the entries [es] with the values of [ps]. *)
Definition sub_part (j : nat) (n : NDB) (subs : list heapSub) (ps : list (list Z * bytes)) (x : Z) : Prop :=
  (subs = [] ∧ x = 0) ∨
  (∃ es vis, sub_tree (S j) n x (sort_by SL_NID es) vis ∧ map SL_NID es = map hs_nid subs ∧ Forall2 (λ e p, entry_data j n e p.1 p.2) es ps).
Definition subs_ok (j : nat) (n : NDB) (h : Heap) (ps : list (list Z * bytes)) : Prop :=
  Forall2 (λ s p, sub_data j n s p.1 p.2) (hb_subs h) ps ∧ Forall (λ p, NoDup p.1) ps ∧ blen (hb_subs h) ≤ MaxSLBlockEntries * MaxSIBlockEntries.
Lemma NoDup_sub_nids h : heap_ok h → Forall (λ s, hs_nid s ≠ 0 ∧ fits 32 (hs_nid s)) (hb_subs h).
Proof. intros Hok. eapply Forall_impl; [apply (ho_old h Hok)|]. intros s (Hf & Hh & _). split; [|done]. by intros E; rewrite E in Hh. Qed.
Lemma materialize_Ok j n h ps : ndb_wf n → heap_ok h → subs_ok j n h ps → room n (heap_blocks h) →
  ∃ n' ds ls, materialize h n = (n', Ok ds) ∧ grows (heap_blocks h) n n' ∧ data_tree n' (B_BID ds.1) ls ∧ map snd ls = page_images (with_page h) ∧
    sub_part j n' (hb_subs h) ps (B_BID ds.2).
Proof.
  intros Hwf Hok (Hs & Hnd & Hl) Hr. destruct (with_page_ok h Hok) as (Hok' & Hne & _). unfold heap_blocks in *. set (L := page_images (with_page h)) in *.
  pose proof (page_images_leaves _ Hok' Hne) as Hleaves. fold L in Hleaves. pose proof (all_blocks_nonneg (hb_subs h)).
  assert (0 ≤ leaves_blocks L) by (unfold leaves_blocks, blen; lia). assert (0 ≤ blen (chunks MaxSLBlockEntries (hb_subs h))) by apply blen_nonneg.
  destruct (leaves_tree_Ok n L Hwf Hleaves) as (n1 & es & n2 & e & ls & E1 & E2 & G2 & Ht & Hls); [by eapply room_mono, Hr; lia|].
  assert (materialize h n = (do leaves <- mapM_st put_leaf L; do data <- buildDataTree leaves (leaves_total L);
    match hb_subs h with [] => mret (data, null_block) | subs => do ents <- mapM_st sub_entry subs; do sub <- buildSubnodeTree (sort_by SL_NID ents); mret (data, sub) end) n) as Hrun.
  { unfold materialize. by rewrite (encodePages_Ok h Hok). }
  rewrite Hrun. erewrite st_bind_Ok by exact E1. erewrite st_bind_Ok by exact E2.
  destruct (decide (hb_subs h = [])) as [Hz|Hz].
  { rewrite Hz in *. exists n2, (e, null_block), ls. split; [done|]. split; [eapply grows_mono, G2; change (all_blocks []) with 0; lia|]. split; [done|]. split; [done|by left]. }
  destruct (hb_subs h) as [|s0 ss] eqn:Es; [done|]. cbv iota beta. rewrite <- Es in *. clear s0 ss Es.
  destruct (sub_entries_Ok j (hb_subs h) ps n2 (gr_wf _ _ _ G2)) as (n3 & ents & E3 & G3 & Hnids & Hd); [|eapply grows_room; [exact G2|lia|]; eapply room_mono, Hr; lia|by apply NoDup_sub_nids|].
  { eapply Forall2_impl; [exact Hs|]. intros x y. apply (sub_data_extends j n). exact (gr_holds _ _ _ G2). }
  erewrite st_bind_Ok by exact E3. set (sorted := sort_by SL_NID ents). pose proof (sort_by_perm SL_NID ents) as Hp. fold sorted in Hp.
  assert (Forall2 (roles j n3) ents (map fst ps)) as Hro.
  { clear -Hd. induction Hd as [|x p es ps [Hx _] _ IH]; [constructor|]. by constructor. }
  destruct (Permutation_Forall2 (symmetry Hp) Hro) as (vs & Hpv & Hro').
  assert (length ents = length (hb_subs h)) as Hlen by (apply (f_equal length) in Hnids; by rewrite !length_map in Hnids).
  assert (blen (chunks MaxSLBlockEntries sorted) = blen (chunks MaxSLBlockEntries (hb_subs h))) as Hch by (apply chunks_count_eq; by rewrite Hp).
  assert (Forall (λ x : SLEntry, ke_wf x ∧ valid x) ents) as Hv.
  { assert (Forall (λ z, z ≠ 0 ∧ fits 32 z) (map hs_nid (hb_subs h))) as Hf by (apply Forall_map; by apply NoDup_sub_nids). rewrite <- Hnids, Forall_map in Hf.
    pose proof (gr_wf _ _ _ G3) as W3. clear -Hf Hro W3. revert Hf. induction Hro as [|x v xs vs Hx _ IH]; intros Hf; constructor; apply Forall_cons in Hf as [[Hz Hf] Hfs].
    - by apply (entry_valid j n3 x v).
    - by apply IH. }
  destruct (buildSubnodeTree_Ok j n3 sorted vs (gr_wf _ _ _ G3)) as (n4 & blk & vis & E4 & G4 & Hst & _).
  { intros E. rewrite E in Hp. apply Permutation_nil in Hp. subst ents. by destruct (hb_subs h). }
  { by rewrite Hp. }
  { apply strict_order; [|apply sort_by_sorted]. rewrite Hp, Hnids. apply Hok. }
  { rewrite Hch. pose proof (chunks_count MaxSLBlockEntries (hb_subs h) ltac:(done)). change MaxSLBlockEntries with 340 in *. change MaxSIBlockEntries with 510 in *. lia. }
  { done. }
  { rewrite <- Hpv. by apply Forall_map. }
  { rewrite Hch. eapply grows_room; [exact G3|lia|]. eapply grows_room; [exact G2|lia|]. done. }
  erewrite st_bind_Ok by exact E4. exists n4, (e, blk), ls. rewrite Hch in G4.
  assert (grows (all_blocks (hb_subs h) + (blen (chunks MaxSLBlockEntries (hb_subs h)) + 1)) n2 n4) as G24 by (by apply (grows_trans _ _ _ n3)).
  split; [done|]. split; [by apply (grows_trans _ _ _ n2)|]. cbn [fst snd]. split; [apply (data_tree_extends n2); [exact (gr_holds _ _ _ G24)|done]|].
  split; [done|]. right. exists ents, vis. split; [done|]. split; [done|].
  eapply Forall2_impl; [exact Hd|]. intros x p. apply (entry_data_extends j n3). exact (gr_holds _ _ _ G4).
Qed.
End materialize.

(** ** Opening *)
Definition page_view (h : Heap) (fills : bytes) (i : nat) (p : hnPage) : HNPageView :=
  hn_view (Z.of_nat i) (hb_clientSig h) (hb_root h) (hp_allocs p) (page_fill fills (Z.of_nat i)).
(** A view with one more page of the heap. *)
Definition more_page (h : Heap) (fills : bytes) (k : nat) (p : hnPage) (v : HeapView) : HeapView :=
  mkHeapView (hv_ndb v) (hv_nid v) (hv_dataBID v) (hv_subBID v) (if Z.of_nat k =? 0 then hb_clientSig h else hv_clientSig v)
    (if Z.of_nat k =? 0 then hb_root h else hv_root v) (hv_pages v ++ [page_view h fills k p])
    (hv_fills v ++ [hnFillLevel (MaxDataBlockCB - hn_size (Z.of_nat k) (hp_allocs p))]).
Lemma add_page_Ok h fills k p v b m : heap_ok h → page_ok k p → length (hv_pages v) = k → holds (hv_ndb v) b (page_image h (page_fill fills) k p) →
  add_page v (b, m) = Ok (more_page h fills k p v).
Proof.
  intros Hok (Hsz & _) Hk (e & He & [Hst _] & _). unfold add_page. cbn [fst]. rewrite He, Hst, bind_Ok. cbv zeta.
  replace (blen (hv_pages v)) with (Z.of_nat k) by (unfold blen; by rewrite Hk). unfold page_image. rewrite InspectHNPage_image by (done || apply Hok). rewrite bind_Ok.
  unfold more_page. rewrite blen_hn_image. unfold page_view. destruct (Z.of_nat k =? 0) eqn:Ek; [|done]. unfold hn_view. cbn [HP_ClientSig HP_UserRoot]. by rewrite Ek.
Qed.
Lemma add_pages_Ok n h fills k ps : heap_ok h → (∀ i p, ps !! i = Some p → page_ok (k + i) p) → ∀ ls v,
  hv_ndb v = n → length (hv_pages v) = k → (k ≠ 0%nat → hv_clientSig v = hb_clientSig h ∧ hv_root v = hb_root h) →
  Forall (leaf_at n) ls → map snd ls = imap (λ i p, page_image h (page_fill fills) (k + i) p) ps →
  ∃ v', fold_each add_page (map visit ls) v = Ok v' ∧ hv_ndb v' = n ∧ hv_subBID v' = hv_subBID v ∧
    hv_pages v' = hv_pages v ++ imap (λ i p, page_view h fills (k + i) p) ps ∧
    hv_fills v' = hv_fills v ++ imap (λ i p, hnFillLevel (MaxDataBlockCB - hn_size (Z.of_nat (k + i)) (hp_allocs p))) ps ∧
    ((k + length ps ≠ 0)%nat → hv_clientSig v' = hb_clientSig h ∧ hv_root v' = hb_root h).
Proof.
  intros Hok. revert k. induction ps as [|p ps IH]; intros k Hp ls v Hn Hk Hhd Hls Hm.
  { destruct ls; [|done]. exists v. rewrite !app_nil_r. split; [done|]. do 4 (split; [done|]). cbn [length]. rewrite Nat.add_0_r. done. }
  destruct ls as [|[b d] ls]; [done|]. cbn [map imap snd] in Hm. injection Hm as Hd Hm. apply Forall_cons in Hls as [[_ Hh] Hls]. cbn [fst snd] in *.
  pose proof (Hp 0%nat p eq_refl) as Hpg. rewrite Nat.add_0_r in *. cbn [map fold_each]. change (visit (b, d)) with (b, blen d).
  rewrite (add_page_Ok h fills k p v b) by (try done; by rewrite Hn, <- Hd). rewrite bind_Ok. set (v1 := more_page h fills k p v).
  destruct (IH (S k)) with (ls := ls) (v := v1) as (v' & E & H1 & H2 & H3 & H4 & H5); try done.
  - intros i q Hq. rewrite Nat.add_succ_comm. by apply Hp.
  - cbn [v1 more_page hv_pages]. rewrite length_app. cbn [length]. lia.
  - intros _. subst v1. cbn [more_page hv_clientSig hv_root]. destruct (Z.eqb_spec (Z.of_nat k) 0) as [Ek|Ek]; [done|]. apply Hhd. lia.
  - rewrite Hm. apply imap_ext. intros i q _. cbn [compose]. by rewrite Nat.add_succ_comm.
  - exists v'. split; [exact E|]. split; [done|]. split; [done|]. split; [|split].
    + rewrite H3. subst v1. cbn [more_page hv_pages]. rewrite <- app_assoc. f_equal. cbn [imap app]. rewrite Nat.add_0_r. f_equal. apply imap_ext. intros i q _. cbn [compose]. by rewrite Nat.add_succ_comm.
    + rewrite H4. subst v1. cbn [more_page hv_fills]. rewrite <- app_assoc. f_equal. cbn [imap app]. rewrite Nat.add_0_r. f_equal. apply imap_ext. intros i q _. cbn [compose]. by rewrite Nat.add_succ_comm.
    + intros _. apply H5. lia.
Qed.
Lemma levels_page_fills h : levels_ok (page_fills h).
Proof. apply Forall_lookup. intros i l Hl. unfold page_fills in Hl. rewrite list_lookup_imap in Hl. destruct (hb_pages h !! i); [|done]. injection Hl as <-. apply hnFillLevel_range. Qed.
Lemma checkFill_Ok h v : hb_pages h ≠ [] → hv_pages v = imap (page_view h (page_fills h)) (hb_pages h) → hv_fills v = page_fills h → checkFill v = Ok tt.
Proof.
  intros Hne Hp Hf. assert (∀ i pg, hv_pages v !! i = Some pg → ∃ q, pg = page_view h (page_fills h) i q) as Hat.
  { intros i pg. rewrite Hp, list_lookup_imap. destruct (hb_pages h !! i) as [q|]; [|done]. intros [= <-]. by exists q. }
  assert (∀ i q, HP_Fill (page_view h (page_fills h) i q) = page_fill (page_fills h) (Z.of_nat i)) as Hfill by (intros; unfold page_view, hn_view; cbn [HP_Fill]; apply header_page_fill).
  unfold checkFill. destruct (hv_pages v) as [|hdr tl] eqn:Ev; [by destruct (hb_pages h)|]. rewrite Hf. destruct (Hat 0%nat hdr eq_refl) as (q0 & E0).
  rewrite E0 at 1. rewrite Hfill. change (page_fill (page_fills h) (Z.of_nat 0)) with (fill_slots (page_fills h) 0 8 (zeros 4)).
  rewrite check_slots_Ok by (apply levels_page_fills || by rewrite blen_zeros). rewrite bind_Ok. apply each_Ok. intros [i pg] Hin.
  destruct (hnBitmapPage (Z.of_nat i)) eqn:Eb; [|done]. cbn [negb].
  apply list_elem_of_lookup in Hin as (m & Hm). rewrite list_lookup_imap in Hm. destruct ((hdr :: tl) !! m) as [y|] eqn:Ey; [|done]. injection Hm as -> ->.
  destruct (Hat i pg Ey) as (q & ->). rewrite Hfill. unfold page_fill. rewrite Eb. destruct (Z.eqb_spec (Z.of_nat i) 0) as [Ez|_]; [by rewrite Ez in Eb|].
  apply check_slots_Ok; [apply levels_page_fills|by rewrite blen_zeros].
Qed.

(** ** Reading *)
Definition find_nid (nid : Z) (found : option SLEntry) (e : SLEntry) : result (option SLEntry) :=
  mret (if u32 (SL_NID e) =? nid then Some e else found).
Lemma find_nid_Ok es e : Forall (λ x, fits 32 (SL_NID x)) es → NoDup (map SL_NID es) → e ∈ es → ∀ acc, fold_each (find_nid (SL_NID e)) es acc = Ok (Some e).
Proof.
  induction es as [|x es IH]; intros Hf Hd He acc; [by apply not_elem_of_nil in He|]. apply Forall_cons in Hf as [Hx Hf]. apply NoDup_cons in Hd as [Hn Hd].
  cbn [fold_each]. unfold find_nid at 2. cbn [mbind]. rewrite u32_small by (unfold fits in Hx; lia). apply elem_of_cons in He as [->|He].
  - rewrite Z.eqb_refl. rewrite mret_Ok, bind_Ok. clear IH Hd. induction es as [|y es IH]; [done|]. apply Forall_cons in Hf as [Hy Hf]. apply not_elem_of_cons in Hn as [Hne Hn].
    cbn [fold_each]. unfold find_nid at 2. rewrite u32_small by (unfold fits in Hy; lia). rewrite (proj2 (Z.eqb_neq _ _)) by congruence. rewrite mret_Ok, bind_Ok. by apply IH.
  - rewrite mret_Ok, bind_Ok. by apply IH.
Qed.
Lemma ReadAll_Ok n r ls : ndb_wf n → data_tree n r ls → ∃ rd, OpenDataTree n r = Ok rd ∧ ReadAll n rd = Ok (bytes_of ls).
Proof.
  intros Hwf Ht. destruct (data_tree_reads n r ls 512 Hwf Ht ltac:(lia)) as (rd & Ho & Hr). exists rd. split; [done|]. unfold ReadAll. apply Hr.
  destruct (startDataTree_Ok n r ls Hwf Ht) as (it & E & _ & Htot & _ & Hb). unfold OpenDataTree in Ho. rewrite E, bind_Ok in Ho. injection Ho as <-.
  cbn [dr_total]. rewrite Htot. pose proof (tree_size n r ls Ht). unfold blen. rewrite Nat2Z.id. lia.
Qed.
Section read.
Context `{!SortSlice}.
Lemma readSub_Ok j n v h ps i s p : ndb_wf n → hv_ndb v = n → sub_part j n (hb_subs h) ps (hv_subBID v) → heap_ok h → hb_subs h !! i = Some s → ps !! i = Some p →
  readSub v (hs_nid s) = Ok p.2.
Proof.
  intros Hwf Hn [[Hz _]|(es & vis & Hst & Hnids & Hd)] Hok Hs Hp; [by rewrite Hz in Hs|].
  destruct (Forall2_lookup_r _ _ _ _ _ Hd Hp) as (e & He & _ & ls & Ht & Hls).
  assert (SL_NID e = hs_nid s) as Hes.
  { pose proof (f_equal (λ l, l !! i) Hnids) as Hi. cbv beta in Hi. change ((SL_NID <$> es) !! i = (hs_nid <$> hb_subs h) !! i) in Hi. rewrite !list_lookup_fmap, He, Hs in Hi. by injection Hi. }
  pose proof (sort_by_perm SL_NID es) as Hperm. unfold readSub. rewrite Hn. fold (find_nid (hs_nid s)).
  destruct Hst as (gs & tops & vss & Hsh & Hgs & _). rewrite (WalkSubnodes_Ok n _ gs tops _ _ Hsh), <- Hgs, <- Hes.
  rewrite (find_nid_Ok _ e).
  - rewrite bind_Ok. destruct (ReadAll_Ok n (SL_DataBID e) ls Hwf Ht) as (rd & -> & E). rewrite bind_Ok, E. by rewrite Hls.
  - rewrite Hperm. assert (Forall (fits 32) (map SL_NID es)) as Hf; [|by rewrite Forall_map in Hf].
    rewrite Hnids. apply Forall_map. eapply Forall_impl; [apply (NoDup_sub_nids h Hok)|]. by intros x [_ ?].
  - rewrite Hperm, Hnids. apply Hok.
  - rewrite Hperm. by apply list_elem_of_lookup_2 in He.
Qed.
Lemma read_page_Ok h v k d : heap_ok h → hv_pages v = imap (page_view h (page_fills h)) (hb_pages h) → IsHID k = true → heap_get h k = Some d →
  HeapView_Read v k = Ok d.
Proof.
  intros Hok Hp Hk Hg. rewrite heap_get_page in Hg by done. unfold page_get in Hg. destruct (Z.eqb_spec (HIDIndex k) 0) as [|Hi]; [done|].
  unfold HeapView_Read. destruct (Z.eqb_spec k 0) as [->|_]; [done|]. rewrite Hk. cbn [negb]. cbv zeta. rewrite Hp, list_lookup_imap.
  destruct (hb_pages h !! Z.to_nat (HIDBlock k)) as [p|] eqn:Ep; [|done]. cbn [fmap option_fmap option_map mbind option_bind] in *.
  destruct (ho_pages h Hok _ _ Ep) as (Hs & _). pose proof (HIDIndex_range k).
  replace (HIDIndex k) with (Z.of_nat (Z.to_nat (HIDIndex k - 1)) + 1) by lia. by apply Allocation_view.
Qed.
End read.

(** [v] is a view of the heap [h], whose subnodes have the values of [ps]. *)
Record view_of `{!SortSlice} (j : nat) (h : Heap) (ps : list (list Z * bytes)) (v : HeapView) : Prop := mkViewOf {
  vo_wf : ndb_wf (hv_ndb v); vo_heap : heap_ok h;
  vo_pages : hv_pages v = imap (page_view h (page_fills h)) (hb_pages h);
  vo_subs : sub_part j (hv_ndb v) (hb_subs h) ps (hv_subBID v);
  vo_data : Forall2 (λ s p, hs_dataBID s = 0 → p.2 = hs_data s) (hb_subs h) ps;
  vo_sig : hv_clientSig v = hb_clientSig h; vo_root : hv_root v = hb_root h }.
Lemma view_sub `{!SortSlice} j h ps v i s p : view_of j h ps v → hb_subs h !! i = Some s → ps !! i = Some p → HeapView_Read v (hs_nid s) = Ok p.2.
Proof.
  intros V Hs Hp. pose proof (ho_old h (vo_heap _ _ _ _ V)) as Ho. rewrite Forall_forall in Ho. destruct (Ho s) as (_ & Hh & _); [by eapply list_elem_of_lookup_2|].
  unfold HeapView_Read. rewrite Hh. destruct (Z.eqb_spec (hs_nid s) 0) as [E|_]; [by rewrite E in Hh|]. cbn [negb].
  apply (readSub_Ok j (hv_ndb v) v h ps i s p); (done || apply V).
Qed.
Lemma view_reads `{!SortSlice} j h ps v k d : view_of j h ps v → heap_get h k = Some d → HeapView_Read v k = Ok d.
Proof.
  intros V Hg. destruct (IsHID k) eqn:Hk; [apply (read_page_Ok h); (done || apply V)|]. unfold heap_get in Hg. rewrite Hk in Hg.
  destruct (filter _ (hb_subs h)) as [|s l] eqn:El; [done|]. injection Hg as <-.
  assert (s ∈ filter (λ s, hs_nid s = k ∧ hs_dataBID s = 0) (hb_subs h)) as Hin by (rewrite El; by left).
  apply list_elem_of_filter in Hin as [[Hn Hb] Hin]. apply list_elem_of_lookup in Hin as (i & Hi). subst k.
  destruct (Forall2_lookup_l _ _ _ _ _ (vo_data _ _ _ _ V) Hi) as (p & Hp & Hd). rewrite <- Hd by done. by apply (view_sub j h ps v i).
Qed.
Lemma sub_data_mem j n subs ps : Forall2 (λ s p, sub_data j n s p.1 p.2) subs ps → Forall2 (λ s p, hs_dataBID s = 0 → p.2 = hs_data s) subs ps.
Proof. intros Hs. eapply Forall2_impl; [exact Hs|]. by intros s p [(_ & _ & Hd & _)|(? & _)]. Qed.
Lemma Heap_Commit_Ok `{!SortSlice} j n h nid ps : ndb_wf n → fits 63 (FileEOF (n_store n)) → heap_ok h → subs_ok j n h ps →
  fits 32 nid → nid ≠ 0 → NIDTypeOf nid ≠ V2NIDTypeHID → n_nodes n !! nid = None → room n (heap_blocks h) →
  ∃ n' v, Heap_Commit nid (n, h) = ((n', with_page h), Ok tt) ∧ OpenHeap n' nid = Ok v ∧ ndb_wf n' ∧ extends n n' ∧
    view_of j (with_page h) ps v ∧ hv_ndb v = n' ∧ ∃ e, n_nodes n' = <[nid := e]> (n_nodes n).
Proof.
  intros Hwf Heof Hok Hsubs Hf Hz Ht Hnew Hroom. destruct (with_page_ok h Hok) as (Hok' & Hne & Hget). set (h1 := with_page h) in *.
  pose proof (begin_grows n Hwf Heof) as G0. set (n0 := beginTxn (capture n) n) in *.
  destruct (materialize_Ok j n0 h ps (gr_wf _ _ _ G0) Hok) as (n1 & ds & ls & E1 & G1 & Hdt & Hls & Hsub).
  { destruct Hsubs as (Hs & Hn & Hl). split; [|by split]. eapply Forall2_impl; [exact Hs|]. intros x y. apply (sub_data_extends j n). exact (gr_holds _ _ _ G0). }
  { eapply grows_room; [exact G0| |done]. unfold heap_blocks, leaves_blocks. pose proof (all_blocks_nonneg (hb_subs h)). unfold blen. lia. }
  fold h1 in Hls. set (e := mkNBTEntry nid (B_BID ds.1) (B_BID ds.2) 0).
  assert (B_BID ds.1 ≠ 0) as Hd0.
  { intros E. rewrite E in Hdt. assert (ls ≠ []) as Hl. { intros ->. destruct (page_images_leaves h1 Hok' Hne) as [Hp _]. by rewrite <- Hls in Hp. }
    inversion Hdt as [|? ? ? [Hi _]|? ? [(Hi & _) _]|? ? (Hi & _) _ _ _]; subst; done. }
  destruct (PutNode_new n1 e (gr_wf _ _ _ G1) Hz Hf) as (n2 & E2 & W2 & X2 & N2 & S2).
  { rewrite (gr_nodes _ _ _ G1), (gr_nodes _ _ _ G0). done. }
  { right. by eapply data_tree_held. }
  { destruct Hsub as [[_ ?]|(es & vis & Hst & _)]; [by left|right]. by apply sub_tree_held in Hst as [? _]. }
  pose proof (end_grows n2 W2) as G3. set (n3 := end_txn n2) in *. assert (extends n1 n3) as X3 by (intros b d Hb; by apply (gr_holds _ _ _ G3), X2).
  pose proof (data_tree_extends _ _ _ _ X3 Hdt) as Hdt3. pose proof (gr_wf _ _ _ G3) as W3.
  assert (sub_part j n3 (hb_subs h1) ps (B_BID ds.2)) as Hsub3.
  { assert (hb_subs h1 = hb_subs h) as -> by (unfold h1, with_page; by destruct (hb_pages h)).
    destruct Hsub as [?|(es & vis & Hst & Hnids & Hd)]; [by left|right]. exists es, vis. split; [by apply (sub_tree_extends n1)|]. split; [done|].
    eapply Forall2_impl; [exact Hd|]. intros x y. by apply (entry_data_extends j n1). }
  destruct (add_pages_Ok n3 h1 (page_fills h1) 0 (hb_pages h1) Hok') with (ls := ls) (v := mkHeapView n3 nid (B_BID ds.1) (B_BID ds.2) 0 0 [] [])
    as (v & E4 & V1 & V2 & V3 & V4 & V5); try done.
  { apply Hok'. }
  { by destruct (tree_leaves _ _ _ Hdt3). }
  assert (hv_pages v = imap (page_view h1 (page_fills h1)) (hb_pages h1)) as Hpages by exact V3.
  exists n3, v. split; [|split; [|split; [exact W3|split; [|split; [|split; [exact V1|]]]]]].
  - unfold Heap_Commit, runTxn. cbv zeta. fold n0. rewrite (proj2 (Z.eqb_neq _ _)), (proj2 (Z.eqb_neq _ _)) by done. cbn [orb].
    unfold commitLocked. erewrite st_bind_Ok by exact E1. fold e. rewrite E2. by rewrite (encodePages_Ok h Hok).
  - unfold OpenHeap. rewrite (gr_nodes _ _ _ G3), N2, lookup_insert_eq. unfold openHeapBids. cbn [e N_DataBID N_SubBID].
    rewrite (walkDataTree_fold n3 (B_BID ds.1) ls) by done. rewrite E4. rewrite !bind_Ok.
    assert (checkFill v = Ok tt) as -> by (by apply (checkFill_Ok h1)).
    destruct (hv_pages v) eqn:Ev; [|done]. by destruct (hb_pages h1).
  - intros b d Hb. apply X3. apply (gr_holds _ _ _ G1), (gr_holds _ _ _ G0), Hb.
  - destruct V5 as [Vs Vr]; [by destruct (hb_pages h1)|]. split; [by rewrite V1|done|done|by rewrite V1, V2| |done|done].
    assert (hb_subs h1 = hb_subs h) as -> by (unfold h1, with_page; by destruct (hb_pages h)). by apply (sub_data_mem j n), Hsubs.
  - exists e. by rewrite (gr_nodes _ _ _ G3), N2, (gr_nodes _ _ _ G1), (gr_nodes _ _ _ G0).
Qed.
(** C15: A heap committed to a new node and opened again gives every value back:
    those on its pages, those in memory too large for a page, and those whose
    trees are in the catalog already.  The payloads of other blocks stay. *)
Theorem heap_roundtrip `{!SortSlice} j n h nid ps : ndb_wf n → fits 63 (FileEOF (n_store n)) → heap_ok h → subs_ok j n h ps →
  fits 32 nid → nid ≠ 0 → NIDTypeOf nid ≠ V2NIDTypeHID → n_nodes n !! nid = None → room n (heap_blocks h) →
  ∃ n' h' v, Heap_Commit nid (n, h) = ((n', h'), Ok tt) ∧ OpenHeap n' nid = Ok v ∧ ndb_wf n' ∧ extends n n' ∧
    (∀ k d, heap_get h k = Some d → HeapView_Read v k = Ok d) ∧
    (∀ i s p, hb_subs h !! i = Some s → ps !! i = Some p → HeapView_Read v (hs_nid s) = Ok p.2) ∧
    hv_clientSig v = hb_clientSig h ∧ hv_root v = hb_root h ∧ (∀ k, heap_get h' k = heap_get h k) ∧
    ∃ e, n_nodes n' = <[nid := e]> (n_nodes n).
Proof.
  intros Hwf Heof Hok Hsubs Hf Hz Ht Hnew Hroom. destruct (Heap_Commit_Ok j n h nid ps) as (n' & v & E & Ho & W & X & V & _ & He); try done.
  destruct (with_page_ok h Hok) as (_ & _ & Hget). destruct (with_page_same h) as (S1 & S2 & S3 & _).
  exists n', (with_page h), v. split; [done|]. split; [done|]. split; [done|]. split; [done|]. split; [|split; [|split; [|split; [|split; [done|done]]]]].
  - intros k d Hg. apply (view_reads j (with_page h) ps); [done|by rewrite Hget].
  - intros i s p Hs Hp. apply (view_sub j (with_page h) ps v i); [done|by rewrite S1|done].
  - by rewrite (vo_sig _ _ _ _ V), S2.
  - by rewrite (vo_root _ _ _ _ V), S3.
Qed.
(** ** Heaps that grow *)
(** A value in memory that can be stored. *)
Definition mem_sub (s : heapSub) : Prop := hs_dataBID s = 0 ∧ bytes_ok (hs_data s) ∧ blen (hs_data s) ≤ MaxTotal ∧ hs_leafCB s ≤ MaxDataBlockCB ∧
  blen (chunks MaxXBlockEntries (sub_leaves s)) ≤ MaxXBlockEntries.
Lemma mem_sub_data j n s : mem_sub s → sub_data j n s [] (hs_data s).
Proof. intros (H1 & H2 & H3 & H4 & H5). left. by split_and!. Qed.
Lemma plain_mem_sub k d : bytes_ok d → blen d ≤ MaxTotal → mem_sub (mkHeapSub k d 0 0 0).
Proof.
  intros Hd Hl. split; [done|]. split; [done|]. split; [done|]. split; [done|]. unfold sub_leaves. cbn [hs_leafCB hs_data]. change (0 <? 0) with false. cbv iota.
  pose proof (chunks_count MaxXBlockEntries (leaves_of d) ltac:(done)). pose proof (chunks_count MaxDataBlockCB d ltac:(done)).
  change (chunks MaxDataBlockCB d) with (leaves_of d) in *. change MaxXBlockEntries with 1021 in *. change MaxDataBlockCB with 8176 in *. unfold MaxTotal in *. lia.
Qed.
Definition heap_space (h : Heap) (m : Z) : Prop := blen (hb_pages h) + m ≤ HNMaxBlockIndex + 1 ∧ hb_nextSub h + m ≤ 2 ^ 27.
(** [h'] is [h] with at most [m] more values. *)
Record heap_more (m : Z) (h h' : Heap) : Prop := mkHeapMore {
  hm_ok : heap_ok h'; hm_keeps : ∀ k d, fits 32 k → heap_get h k = Some d → heap_get h' k = Some d;
  hm_pages : blen (hb_pages h) ≤ blen (hb_pages h') ≤ blen (hb_pages h) + m;
  hm_next : hb_nextSub h ≤ hb_nextSub h' ≤ hb_nextSub h + m;
  hm_sig : hb_clientSig h' = hb_clientSig h;
  hm_subs : ∃ more, hb_subs h' = hb_subs h ++ more ∧ Forall mem_sub more ∧ blen more ≤ m }.
Lemma heap_more_refl h : heap_ok h → heap_more 0 h h.
Proof. intros Hok. split; (done || lia || idtac). exists []. by rewrite app_nil_r. Qed.
Lemma heap_more_trans m m' h h1 h2 : heap_more m h h1 → heap_more m' h1 h2 → heap_more (m + m') h h2.
Proof.
  intros [O1 K1 P1 N1 S1 (b1 & E1 & F1 & L1)] [O2 K2 P2 N2 S2 (b2 & E2 & F2 & L2)]. split; [done|by auto|lia|lia|congruence|].
  exists (b1 ++ b2). split; [by rewrite E2, E1, app_assoc|]. split; [by apply Forall_app|]. rewrite blen_app. lia.
Qed.
Lemma heap_more_mono m m' h h' : m ≤ m' → heap_more m h h' → heap_more m' h h'.
Proof. intros Hm [? ? ? ? ? (more & ? & ? & ?)]. split; try (done || lia). exists more. split; [done|]. split; [done|lia]. Qed.
Lemma heap_space_mono m m' h : m ≤ m' → heap_space h m' → heap_space h m.
Proof. unfold heap_space. lia. Qed.
Lemma heap_more_space m m' h h' : heap_more m h h' → heap_space h (m + m') → heap_space h' m'.
Proof. intros [_ _ ? ? _ _]. unfold heap_space. lia. Qed.
Lemma store_more cb h h' k d : heap_step cb h h' k d → mem_sub (mkHeapSub k d cb 0 0) → heap_more 1 h h' ∧ heap_get h' k = Some d.
Proof.
  intros [S1 S2 [S3 S3'] S4 S5 [S6 _] S7] Hm. split; [|by rewrite S3', decide_True]. split; try done.
  - intros k' d' Hk' Hg. rewrite S3' by done. rewrite decide_False; [done|]. intros ->. congruence.
  - rewrite S7. eexists. split; [reflexivity|]. destruct (IsHID k); [by split; [constructor|]|]. split; [by constructor|done].
Qed.
Lemma alloc_more h d : heap_ok h → heap_space h 1 → bytes_ok d → blen d ≤ MaxTotal →
  ∃ h' k, Heap_Allocate d h = (h', Ok k) ∧ heap_more 1 h h' ∧ fits 32 k ∧ heap_get h' k = Some d ∧ IsHID k = (blen d <=? HeapMaxAlloc) ∧ hb_root h' = hb_root h.
Proof.
  intros Hok [H1 H2] Hd Hl. destruct (Heap_Allocate_Ok h d Hok) as (h' & k & E & S & Hk); [split; lia|done|].
  destruct (store_more 0 h h' k d S) as [M G]; [by apply plain_mem_sub|]. exists h', k. split; [done|]. split; [done|]. split; [apply S|]. split; [done|]. split; [done|apply S].
Qed.
Lemma set_root_more h r : heap_ok h → fits 32 r → heap_more 0 h (heap_root r h).
Proof.
  intros [H1 H2 H3 H4 H5 H6 H7] Hr. split; cbn [heap_root hb_pages hb_subs hb_nextSub hb_clientSig]; try done; try lia. exists []. by rewrite app_nil_r.
Qed.

Lemma example_heap_ok : heap_ok (mkHeap 0xBC 0x20 [mkHnPage [[1; 2; 3]] [0x20]] [mkHeapSub 0x3F [7; 8] 0 0 0] 2).
Proof.
  split; cbn [hb_pages hb_clientSig hb_root hb_nextSub hb_subs]; try done.
  - intros i p Hp. apply list_lookup_singleton_Some in Hp as [-> <-]. split; [by vm_compute|]. split; [by vm_compute|]. by repeat constructor.
  - apply NoDup_singleton.
  - constructor; [|constructor]. split; [done|]. split; [done|]. intros i Hi. cbn [hs_nid]. rewrite sub_nid by lia. lia.
Qed.
Lemma heap_roundtrip_witness :
  let h := mkHeap 0xBC 0x20 [mkHnPage [[1; 2; 3]] [0x20]] [mkHeapSub 0x3F [7; 8] 0 0 0] 2 in
  ∃ n' h' v, Heap_Commit 0x21 (NewNDB, h) = ((n', h'), Ok tt) ∧ OpenHeap n' 0x21 = Ok v ∧
    HeapView_Read v 0x20 = Ok [1; 2; 3] ∧ HeapView_Read v 0x3F = Ok [7; 8].
Proof.
  intros h. destruct NewNDB_wf as (Hwf & Hn & Hc).
  assert (fits 63 (FileEOF (n_store NewNDB))) as Hf by (rewrite FileEOF_ok, Hc by (rewrite ?Hc; unfold region_ok; lia); done).
  assert (subs_ok 0 NewNDB h [([], [7; 8])]) as Hs.
  { split; [|split; [repeat constructor|by vm_compute]]. constructor; [|constructor]. left. by repeat constructor. }
  assert (room NewNDB (heap_blocks h)) as Hr by (unfold room; rewrite Hn, Hc; by vm_compute).
  destruct (heap_roundtrip 0 NewNDB h 0x21 [([], [7; 8])] Hwf Hf example_heap_ok Hs ltac:(done) ltac:(done) ltac:(done) ltac:(apply lookup_empty) Hr)
    as (n' & h' & v & E & Ho & _ & _ & Hp & _).
  exists n', h', v. split; [exact E|]. split; [exact Ho|]. split; by apply Hp.
Defined.
