(* ===== verification/V2BTH.v ===== *)
(** * Writer v2: B-trees on a heap ([src/writer/v2/bth.go])

    [BTH] collects entries with unique keys; [BTH_Build] sorts them and writes
    leaves and index nodes to the heap.  [BTHView] is a tree read back. *)
From S2P Require Import Prelude Ids State Fields V2Base V2Store V2Ndb V2Heap.

Definition V2BTHHeaderSize : Z := 8.
Record bthKV := mkKV { kv_key : bytes; kv_val : bytes }.
Record BTH := mkBTH { bh_keySize : Z; bh_valSize : Z; bh_ents : list bthKV }.
Definition V2NewBTH (keySize valSize : Z) : result BTH :=
  if negb ((keySize =? 2) || (keySize =? 4) || (keySize =? 8) || (keySize =? 16))
  then invalidArg "cbKey" "cbKey %d, want 2, 4, 8, or 16 (MS-PST %s)" [keySize] else
  if valSize =? 0 then invalidArg "cbEnt" "cbEnt must be > 0 (MS-PST %s)" [] else
  mret (mkBTH keySize valSize []).
(** The tree with the entry; on an error it stays as it was. *)
Definition BTH_Insert (key val : bytes) (b : BTH) : result BTH :=
  if negb (blen key =? bh_keySize b) then invalidArg "cbKey" "key %d bytes, want %d" [blen key; bh_keySize b] else
  if negb (blen val =? bh_valSize b) then invalidArg "cbEnt" "value %d bytes, want %d" [blen val; bh_valSize b] else
  if existsb (λ e, bool_decide (kv_key e = key)) (bh_ents b) then invalidArg "key" "duplicate BTH key" [] else
  mret (mkBTH (bh_keySize b) (bh_valSize b) (bh_ents b ++ [mkKV key val])).
Definition leafCap (b : BTH) : Z :=
  let sz := bh_keySize b + bh_valSize b in if sz =? 0 then 0 else HeapMaxAlloc / sz.
Definition indexCap (b : BTH) : Z := HeapMaxAlloc / (bh_keySize b + 4).
Definition encodeBTHHeader (keySize valSize levels root : Z) : bytes := [HeapSigBTH; keySize; valSize; levels] ++ le_enc 4 root.
(** [BTH_Insert] has checked the lengths: the entries fill the buffer. *)
Definition packLeaf (ents : list bthKV) : bytes := concat (map (λ e, kv_key e ++ kv_val e) ents).
Definition packIndex (kids : list (Z * bytes)) : bytes := concat (map (λ '(hid, key), key ++ le_enc 4 hid) kids).

(** Keys are little-endian numbers; a proper prefix comes first. *)
Fixpoint compare_rev (a b : bytes) : comparison :=
  match a, b with
  | x :: a, y :: b => if x =? y then compare_rev a b else if x <? y then Lt else Gt
  | _, _ => Eq
  end.
Definition compareBTHKey (a b : bytes) : comparison :=
  let n := Nat.min (length a) (length b) in
  match compare_rev (rev (take n a)) (rev (take n b)) with
  | Eq => Nat.compare (length a) (length b)
  | c => c
  end.
(** Insertion sort by swaps; the prefix sorted so far is kept backwards. *)
Fixpoint swap_down {A} (less : A → A → bool) (e : A) (rprefix : list A) : list A :=
  match rprefix with
  | p :: rest => if less e p then p :: swap_down less e rest else e :: p :: rest
  | [] => [e]
  end.
Definition insertion_sort {A} (less : A → A → bool) (l : list A) : list A := rev (fold_left (λ rprefix e, swap_down less e rprefix) l []).
Definition key_less (a b : bthKV) : bool := match compareBTHKey (kv_key a) (kv_key b) with Lt => true | _ => false end.
Definition sortBTH (ents : list bthKV) : list bthKV := insertion_sort key_less ents.

(** The last key of a node stands for it one level up. *)
Definition max_key (keys : list bytes) : bytes := List.last keys [].
Definition put_leaf_node (ents : list bthKV) : ST Heap (Z * bytes) :=
  do hid <- Heap_Allocate (packLeaf ents); mret (hid, max_key (map kv_key ents)).
Definition put_index_node (kids : list (Z * bytes)) : ST Heap (Z * bytes) :=
  do hid <- Heap_Allocate (packIndex kids); mret (hid, max_key (map snd kids)).
Fixpoint index_up (fuel : nat) (cap level : Z) (kids : list (Z * bytes)) : ST Heap (Z * Z) :=
  match fuel with
  | O => lift Panic
  | S fuel =>
    let level := u8 (level + 1) in
    if blen kids <=? cap then do hid <- Heap_Allocate (packIndex kids); mret (hid, level) else
    do parents <- mapM_st put_index_node (chunks cap kids);
    index_up fuel cap level parents
  end.
Definition buildIndex (b : BTH) (kids : list (Z * bytes)) : ST Heap (Z * Z) :=
  if indexCap b <? 1 then lift (limitErr "cbEnt" "BTH index entry does not fit HN (MS-PST %s)" []) else
  index_up (S (length kids)) (indexCap b) 0 kids.
Definition BTH_Build (b : BTH) : ST Heap Z :=
  match bh_ents b with
  | [] => do hid <- Heap_Allocate (encodeBTHHeader (bh_keySize b) (bh_valSize b) 0 0); SetRoot hid ;; mret hid
  | ents =>
    let cap := leafCap b in
    if cap <? 1 then lift (limitErr "cbEnt" "BTH leaf entry does not fit HN (MS-PST %s)" []) else
    do leaves <- mapM_st put_leaf_node (chunks cap (sortBTH ents));
    do root <- match leaves with [leaf] => mret (leaf.1, 0) | _ => buildIndex b leaves end;
    do hh <- Heap_Allocate (encodeBTHHeader (bh_keySize b) (bh_valSize b) root.2 root.1);
    SetRoot hh ;; mret hh
  end.

(** ** Reading *)
Record BTHView := mkBTHView { bv_heap : HeapView; bv_keySize : Z; bv_valSize : Z; bv_levels : Z; bv_root : Z; bv_header : Z }.
Definition V2OpenBTH (h : HeapView) (headerHID : Z) : result BTHView :=
  let headerHID := if headerHID =? 0 then hv_root h else headerHID in
  raw ← HeapView_Read h headerHID;
  if blen raw <? V2BTHHeaderSize then invariant "2.3.2" "BTHHEADER" "header %d bytes" [blen raw] else
  sig ← Prelude.index raw 0;
  if negb (sig =? HeapSigBTH) then invariant "2.3.2" "bType" "got 0x%02x want 0x%02x" [sig; HeapSigBTH] else
  k ← Prelude.index raw 1; v ← Prelude.index raw 2; l ← Prelude.index raw 3; root ← rd 4 4 raw;
  mret (mkBTHView h k v l root headerHID).
Definition key_not_found {A} : result A := invalidArg "key" "BTH key not found" [].
Fixpoint leaf_find (k : nat) (key : bytes) (ents : list bytes) : result bytes :=
  match ents with
  | [] => key_not_found
  | e :: ents => if bool_decide (take k e = key) then mret (drop k e) else leaf_find k key ents
  end.
(** The child of the first entry whose key is not below [key], or of the last. *)
Fixpoint index_find (k : nat) (key : bytes) (ents : list bytes) (child : Z) : Z :=
  match ents with
  | [] => child
  | e :: ents =>
    let hid := le_dec (drop k e) in
    match compareBTHKey key (take k e) with Gt => index_find k key ents hid | _ => hid end
  end.
Definition leaf_entries (v : BTHView) (raw : bytes) : result (list bytes) :=
  let es := bv_keySize v + bv_valSize v in
  if (es =? 0) || negb (blen raw mod es =? 0) then invariant "2.3.2" "cbEnt" "leaf size %d not multiple of %d" [blen raw; es] else mret (chunks es raw).
Definition index_entries (v : BTHView) (raw : bytes) : result (list bytes) :=
  let es := bv_keySize v + 4 in
  if (es =? 0) || negb (blen raw mod es =? 0) then invariant "2.3.2" "index" "index size %d not multiple of %d" [blen raw; es] else mret (chunks es raw).
Fixpoint bth_lookup (level : nat) (v : BTHView) (hid : Z) (key : bytes) : result bytes :=
  raw ← HeapView_Read (bv_heap v) hid;
  match level with
  | O => ents ← leaf_entries v raw; leaf_find (Z.to_nat (bv_keySize v)) key ents
  | S level =>
    ents ← index_entries v raw;
    let child := index_find (Z.to_nat (bv_keySize v)) key ents 0 in
    if child =? 0 then invariant "2.3.2" "hidNextLevel" "empty index node" [] else bth_lookup level v child key
  end.
Definition BTHView_Lookup (v : BTHView) (key : bytes) : result bytes :=
  if negb (blen key =? bv_keySize v) then invalidArg "cbKey" "key %d bytes, want %d" [blen key; bv_keySize v] else
  if bv_root v =? 0 then key_not_found else bth_lookup (Z.to_nat (bv_levels v)) v (bv_root v) key.
Fixpoint bth_collect (level : nat) (v : BTHView) (hid : Z) : result (list bthKV) :=
  raw ← HeapView_Read (bv_heap v) hid;
  let k := Z.to_nat (bv_keySize v) in
  match level with
  | O => ents ← leaf_entries v raw; mret (map (λ e, mkKV (take k e) (drop k e)) ents)
  | S level => ents ← index_entries v raw; subs ← mapM (λ e, bth_collect level v (le_dec (drop k e))) ents; mret (concat subs)
  end.
Definition BTHView_Entries (v : BTHView) : result (list bthKV) :=
  if bv_root v =? 0 then mret [] else bth_collect (Z.to_nat (bv_levels v)) v (bv_root v).
