(* ===== verification/V2BTHTree.v ===== *)
(** * Writer v2: B-trees on a heap, written and read back

    The tree [BTH_Build] writes is a tree of the sorted entries, in which every
    lookup finds what a search of the list finds. *)
From S2P Require Import Prelude Ids State Fields V2Base V2Disk V2Entries V2Blocks V2Header V2Store V2Ndb V2Data V2DataTree V2Subnode V2SubTree V2Heap V2HeapPage V2HeapBuild V2HeapTree V2BTH.

(** ** Keys as numbers *)
Definition key_num (e : bthKV) : Z := le_dec (kv_key e).
Lemma compare_rev_snoc a b x y : compare_rev (rev (a ++ [x])) (rev (b ++ [y])) =
  if x =? y then compare_rev (rev a) (rev b) else if x <? y then Lt else Gt.
Proof. by rewrite !rev_app_distr. Qed.
Lemma compare_rev_num a : ∀ b, length a = length b → bytes_ok a → bytes_ok b → compare_rev (rev a) (rev b) = (le_dec a ?= le_dec b).
Proof.
  induction a as [|x a IH] using rev_ind; intros b Hl Ha Hb.
  { destruct b; [done|done]. }
  destruct b as [|y b _] using rev_ind; [rewrite length_app in Hl; cbn in Hl; lia|]. rewrite !length_app in Hl. cbn [length] in Hl.
  apply Forall_app in Ha as [Ha Hx], Hb as [Hb Hy]. apply Forall_inv in Hx, Hy. rewrite compare_rev_snoc, !le_dec_app. cbn [le_dec].
  assert (blen a = blen b) as Hab by (unfold blen; lia). pose proof (le_dec_bound a Ha). pose proof (le_dec_bound b Hb). rewrite Hab in *.
  set (P := 256 ^ blen b) in *. rewrite !Z.mul_0_r, !Z.add_0_r. symmetry. destruct (Z.eqb_spec x y) as [->|Hne].
  - rewrite (IH b) by (done || lia). destruct (Z.compare_spec (le_dec a) (le_dec b)); [apply Z.compare_eq_iff|apply Z.compare_lt_iff|apply Z.compare_gt_iff]; lia.
  - destruct (Z.ltb_spec x y); [apply Z.compare_lt_iff|apply Z.compare_gt_iff]; nia.
Qed.
Lemma compareBTHKey_num a b : length a = length b → bytes_ok a → bytes_ok b → compareBTHKey a b = (le_dec a ?= le_dec b).
Proof.
  intros Hl Ha Hb. unfold compareBTHKey. rewrite <- Hl, Nat.min_id. rewrite !take_ge by lia. rewrite compare_rev_num by done.
  destruct (le_dec a ?= le_dec b) eqn:E; [|done|done]. by rewrite Nat.compare_refl.
Qed.
Lemma key_num_inj a b : length a = length b → bytes_ok a → bytes_ok b → le_dec a = le_dec b → a = b.
Proof. intros Hl Ha Hb He. by rewrite <- (le_enc_dec a), <- (le_enc_dec b), Hl, He by done. Qed.

(** ** Sorting *)
(** Keys of [k] bytes. *)
Definition key_fine (k : nat) (e : bthKV) : Prop := length (kv_key e) = k ∧ bytes_ok (kv_key e).
Lemma fine_compare k e p : key_fine k e → key_fine k p → compareBTHKey (kv_key e) (kv_key p) = (key_num e ?= key_num p).
Proof. intros [He He'] [Hp Hp']. apply compareBTHKey_num; congruence. Qed.
Lemma sorted_rev l : StronglySorted Z.gt l → StronglySorted Z.lt (rev l).
Proof.
  induction 1 as [|x l Hs IH Hx]; [constructor|]. cbn [rev]. apply StronglySorted_app_2; [|done|by repeat constructor].
  intros a b Ha Hb%list_elem_of_singleton. subst b. rewrite Forall_forall in Hx. apply list_elem_of_In, in_rev, list_elem_of_In in Ha. specialize (Hx a Ha). lia.
Qed.
(** An order by a number, on the elements [P] is about. *)
Section insertion.
Context {A : Type} (less : A → A → bool) (num : A → Z) (P : A → Prop) (Hless : ∀ a b, P a → P b → less a b = (num a <? num b)).
Lemma swap_down_perm e rp : swap_down less e rp ≡ₚ e :: rp.
Proof using. induction rp as [|p rp IH]; [done|]. cbn [swap_down]. destruct (less e p); [|done]. by rewrite IH, Permutation_swap. Qed.
Lemma swap_down_sorted e rp : P e → Forall P rp → num e ∉ map num rp → StronglySorted Z.gt (map num rp) → StronglySorted Z.gt (map num (swap_down less e rp)).
Proof using Hless.
  intros He. induction rp as [|p rp IH]; intros Hf Hn Hs; [by repeat constructor|]. apply Forall_cons in Hf as [Hp Hf].
  cbn [map] in *. apply not_elem_of_cons in Hn as [Hne Hn]. apply StronglySorted_cons in Hs as [Hps Hs]. cbn [swap_down]. rewrite Hless by done.
  destruct (Z.ltb_spec (num e) (num p)) as [Hlt|Hge].
  - cbn [map]. apply StronglySorted_cons. split; [|by apply IH]. change (Forall (Z.gt (num p)) (num <$> swap_down less e rp)). rewrite swap_down_perm. constructor; [lia|done].
  - cbn [map]. apply StronglySorted_cons. split; [|by apply StronglySorted_cons]. constructor; [lia|]. eapply Forall_impl; [exact Hps|]. cbv beta. intros z Hz. lia.
Qed.
Lemma insertion_sort_ok es : Forall P es → NoDup (map num es) → insertion_sort less es ≡ₚ es ∧ StronglySorted Z.lt (map num (insertion_sort less es)).
Proof using Hless.
  intros Hf Hd. unfold insertion_sort.
  assert (∀ rp, Forall P rp → NoDup (map num (rp ++ es)) → StronglySorted Z.gt (map num rp) →
    let r := fold_left (λ rprefix e, swap_down less e rprefix) es rp in r ≡ₚ rp ++ es ∧ StronglySorted Z.gt (map num r)) as Hind.
  { clear Hd. induction es as [|e es IH]; intros rp Hrp Hd Hs; cbn [fold_left]; [by rewrite app_nil_r|]. apply Forall_cons in Hf as [He Hf].
    assert (swap_down less e rp ++ es ≡ₚ rp ++ e :: es) as Hp by (by rewrite swap_down_perm, <- Permutation_middle).
    destruct (IH Hf (swap_down less e rp)) as [H1 H2].
    - rewrite swap_down_perm. by constructor.
    - change (NoDup (num <$> swap_down less e rp ++ es)). by rewrite Hp.
    - apply swap_down_sorted; try done. rewrite map_app in Hd. cbn [map] in Hd. apply NoDup_app in Hd as (_ & Hd & _). intros Hin. apply (Hd _ Hin). by left.
    - split; [by rewrite H1, Hp|done]. }
  destruct (Hind []) as [H1 H2]; [constructor|done|constructor|]. split.
  - rewrite <- H1 at 2. symmetry. apply Permutation_rev.
  - rewrite map_rev. by apply sorted_rev.
Qed.
End insertion.
Lemma sortBTH_ok k es : Forall (key_fine k) es → NoDup (map key_num es) → sortBTH es ≡ₚ es ∧ StronglySorted Z.lt (map key_num (sortBTH es)).
Proof.
  apply insertion_sort_ok. intros a b Ha Hb. unfold key_less. rewrite (fine_compare k) by done. unfold Z.ltb. by destruct (_ ?= _).
Qed.

(** ** Nodes *)
Lemma last_app_ne {A} (l k : list A) d : k ≠ [] → List.last (l ++ k) d = List.last k d.
Proof. intros Hk. destruct k as [|x k] using rev_ind; [done|]. by rewrite app_assoc, !List.last_last. Qed.
Definition kid_of (c : Z * list bthKV) : Z * bytes := (c.1, max_key (map kv_key c.2)).
Lemma max_key_concat (kids : list (Z * list bthKV)) : kids ≠ [] → Forall (λ c, c.2 ≠ []) kids →
  max_key (map snd (map kid_of kids)) = max_key (map kv_key (concat (map snd kids))).
Proof.
  intros Hne Hf. destruct kids as [|[hid es] kids _] using rev_ind; [done|]. apply Forall_app in Hf as [_ Hf]. apply Forall_inv in Hf. cbn [snd] in Hf.
  unfold max_key. rewrite !map_app, concat_app. cbn [map concat snd kid_of]. rewrite app_nil_r, map_app, List.last_last.
  rewrite last_app_ne; [done|]. by destruct es.
Qed.
Fixpoint bth_node (h : Heap) (level : nat) (hid : Z) (es : list bthKV) : Prop :=
  fits 32 hid ∧ hid ≠ 0 ∧ es ≠ [] ∧
  match level with
  | O => heap_get h hid = Some (packLeaf es)
  | S level => ∃ kids, heap_get h hid = Some (packIndex (map kid_of kids)) ∧ es = concat (map snd kids) ∧ Forall (λ c, bth_node h level c.1 c.2) kids
  end.
Lemma bth_node_fits h level hid es : bth_node h level hid es → fits 32 hid ∧ hid ≠ 0 ∧ es ≠ [].
Proof. destruct level; intros (? & ? & ? & _); done. Qed.
Lemma bth_node_more m h h' : heap_more m h h' → ∀ level hid es, bth_node h level hid es → bth_node h' level hid es.
Proof.
  intros M. induction level as [|level IH]; intros hid es (Hf & Hz & Hne & Hg); (split; [done|split; [done|split; [done|]]]).
  - by apply (hm_keeps _ _ _ M).
  - destruct Hg as (kids & Hg & -> & Hk). exists kids. split; [by apply (hm_keeps _ _ _ M)|]. split; [done|].
    eapply Forall_impl; [exact Hk|]. intros c. apply IH.
Qed.
Lemma heap_get_0 h : heap_get h 0 = None.
Proof. done. Qed.
Section nodes.
Context (kz vz : Z) (Hkz : 2 ≤ kz ≤ 16) (Hvz : 1 ≤ vz ≤ 255).
Definition entry_fine (e : bthKV) : Prop := blen (kv_key e) = kz ∧ blen (kv_val e) = vz ∧ bytes_ok (kv_key e) ∧ bytes_ok (kv_val e).
Lemma packLeaf_ok es : Forall entry_fine es → bytes_ok (packLeaf es) ∧ blen (packLeaf es) = (kz + vz) * blen es.
Proof using Hkz Hvz.
  induction 1 as [|e es (H1 & H2 & H3 & H4) _ [IH1 IH2]]; [split; [constructor|change (blen (packLeaf [])) with 0; change (blen (@nil bthKV)) with 0; lia]|].
  unfold packLeaf in *. cbn [map concat]. split; [by repeat (apply Forall_app; split)|]. rewrite !blen_app, blen_cons, IH2. lia.
Qed.
Definition kid_fine (c : Z * bytes) : Prop := blen c.2 = kz ∧ bytes_ok c.2.
Lemma packIndex_ok kids : Forall kid_fine kids → bytes_ok (packIndex kids) ∧ blen (packIndex kids) = (kz + 4) * blen kids.
Proof using Hkz.
  induction 1 as [|[hid key] kids [H1 H2] _ [IH1 IH2]]; [split; [constructor|change (blen (packIndex [])) with 0; change (blen (@nil (Z * bytes))) with 0; lia]|].
  unfold packIndex in *. cbn [map concat fst snd] in *. split; [repeat (apply Forall_app; split); auto with pst|]. rewrite !blen_app, blen_cons, IH2, blen_le_enc. lia.
Qed.
Lemma max_key_fine es : es ≠ [] → Forall entry_fine es → blen (max_key (map kv_key es)) = kz ∧ bytes_ok (max_key (map kv_key es)).
Proof.
  intros Hne Hf. destruct es as [|e es _] using rev_ind; [done|]. apply Forall_app in Hf as [_ Hf]. apply Forall_inv in Hf as (H1 & _ & H3 & _).
  unfold max_key. rewrite map_app. cbn [map]. by rewrite List.last_last.
Qed.
(** Children of the nodes to be, at one level. *)
Definition kids_at (h : Heap) (level : nat) (kids : list (Z * list bthKV)) : Prop :=
  Forall (λ c, bth_node h level c.1 c.2 ∧ Forall entry_fine c.2) kids.
Lemma kids_at_more m h h' level kids : heap_more m h h' → kids_at h level kids → kids_at h' level kids.
Proof. intros M Hk. eapply Forall_impl; [exact Hk|]. intros c [? ?]. split; [by apply (bth_node_more m h)|done]. Qed.
Lemma kids_fine h level kids : kids_at h level kids → Forall kid_fine (map kid_of kids).
Proof. intros Hk. apply Forall_map. eapply Forall_impl; [exact Hk|]. intros [hid es] [(_ & _ & Hne)%bth_node_fits Hf]. by apply max_key_fine. Qed.
Lemma small_alloc h d : heap_ok h → heap_space h 1 → bytes_ok d → blen d ≤ HeapMaxAlloc →
  ∃ h' k, Heap_Allocate d h = (h', Ok k) ∧ heap_more 1 h h' ∧ fits 32 k ∧ k ≠ 0 ∧ heap_get h' k = Some d ∧ hb_root h' = hb_root h.
Proof.
  intros Hok Hs Hd Hl. destruct (alloc_more h d Hok Hs Hd) as (h' & k & E & M & Hf & Hg & _ & Hr); [unfold HeapMaxAlloc, MaxTotal in *; lia|].
  exists h', k. split; [done|]. split; [done|]. split; [done|]. split; [intros ->; by rewrite heap_get_0 in Hg|done].
Qed.
Lemma put_leaves_nodes css : ∀ h, heap_ok h → heap_space h (blen css) → Forall (λ c, c ≠ [] ∧ (kz + vz) * blen c ≤ HeapMaxAlloc ∧ Forall entry_fine c) css →
  ∃ h' kids, mapM_st put_leaf_node css h = (h', Ok (map kid_of kids)) ∧ heap_more (blen css) h h' ∧ map snd kids = css ∧ kids_at h' 0 kids ∧ hb_root h' = hb_root h.
Proof using Hkz Hvz.
  induction css as [|c css IH]; intros h Hok Hs Hc.
  { exists h, []. split; [done|]. split; [by apply heap_more_refl|]. split; [done|]. split; [constructor|done]. }
  apply Forall_cons in Hc as [(Hne & Hl & Hf) Hcs]. rewrite blen_cons in *. pose proof (blen_nonneg css). destruct (packLeaf_ok c Hf) as [Hb Hbl].
  destruct (small_alloc h (packLeaf c) Hok) as (h1 & hid & E1 & M1 & Hfi & Hz & Hg & R1); [by eapply heap_space_mono, Hs; lia|done|lia|].
  destruct (IH h1 (hm_ok _ _ _ M1)) as (h2 & kids & E2 & M2 & Hsnd & Hk & R2); [by apply (heap_more_space 1 _ h)|done|].
  exists h2, ((hid, c) :: kids). cbn [mapM_st]. assert (put_leaf_node c h = (h1, Ok (hid, max_key (map kv_key c)))) as E by (unfold put_leaf_node; by erewrite st_bind_Ok by exact E1).
  erewrite st_bind_Ok by exact E. erewrite st_bind_Ok by exact E2. split; [done|]. split; [by apply (heap_more_trans 1 _ _ h1)|]. split; [cbn [map snd]; by rewrite Hsnd|].
  split; [|congruence]. constructor; [|done]. cbn [fst snd]. split; [|done]. split; [done|]. split; [done|]. split; [done|]. by apply (hm_keeps _ _ _ M2).
Qed.
Lemma index_node_Ok h level kids : heap_ok h → heap_space h 1 → kids ≠ [] → kids_at h level kids → (kz + 4) * blen kids ≤ HeapMaxAlloc →
  ∃ h' hid, Heap_Allocate (packIndex (map kid_of kids)) h = (h', Ok hid) ∧ heap_more 1 h h' ∧
    bth_node h' (S level) hid (concat (map snd kids)) ∧ Forall entry_fine (concat (map snd kids)) ∧ hb_root h' = hb_root h.
Proof using Hkz.
  intros Hok Hs Hne Hk Hl. destruct (packIndex_ok _ (kids_fine _ _ _ Hk)) as [Hb Hbl].
  destruct (small_alloc h _ Hok Hs Hb) as (h1 & hid & E1 & M1 & Hfi & Hz & Hg & R1); [rewrite Hbl; unfold blen in *; rewrite length_map; lia|].
  exists h1, hid. split; [done|]. split; [done|]. split; [|split; [|done]].
  - split; [done|]. split; [done|]. split.
    + destruct kids as [|[x es] kids]; [done|]. apply Forall_inv in Hk as [(_ & _ & He)%bth_node_fits _]. cbn [map concat snd] in *. by destruct es.
    + exists kids. split; [done|]. split; [done|]. apply (kids_at_more 1 h h1) in Hk; [|done]. eapply Forall_impl; [exact Hk|]. by intros c [? _].
  - apply Forall_concat, Forall_map. eapply Forall_impl; [exact Hk|]. by intros c [_ ?].
Qed.
Lemma index_parents_Ok level kss : ∀ h, heap_ok h → heap_space h (blen kss) →
  Forall (λ ks, ks ≠ [] ∧ kids_at h level ks ∧ (kz + 4) * blen ks ≤ HeapMaxAlloc) kss →
  ∃ h' parents, mapM_st put_index_node (map (map kid_of) kss) h = (h', Ok (map kid_of parents)) ∧ heap_more (blen kss) h h' ∧
    map snd parents = map (λ ks, concat (map snd ks)) kss ∧ kids_at h' (S level) parents ∧ hb_root h' = hb_root h.
Proof using Hkz.
  induction kss as [|ks kss IH]; intros h Hok Hs Hc.
  { exists h, []. split; [done|]. split; [by apply heap_more_refl|]. split; [done|]. split; [constructor|done]. }
  apply Forall_cons in Hc as [(Hne & Hk & Hl) Hcs]. rewrite blen_cons in *. pose proof (blen_nonneg kss).
  destruct (index_node_Ok h level ks Hok) as (h1 & hid & E1 & M1 & Hn & Hf & R1); [by eapply heap_space_mono, Hs; lia|done..|].
  destruct (IH h1 (hm_ok _ _ _ M1)) as (h2 & ps & E2 & M2 & Hsnd & Hps & R2); [by apply (heap_more_space 1 _ h)| |].
  { eapply Forall_impl; [exact Hcs|]. intros x (? & ? & ?). split; [done|]. split; [by apply (kids_at_more 1 h)|done]. }
  exists h2, ((hid, concat (map snd ks)) :: ps). cbn [map mapM_st].
  assert (put_index_node (map kid_of ks) h = (h1, Ok (kid_of (hid, concat (map snd ks))))) as E.
  { unfold put_index_node. erewrite st_bind_Ok by exact E1. rewrite max_key_concat; [done|done|]. eapply Forall_impl; [exact Hk|]. by intros c [(_ & _ & ?)%bth_node_fits _]. }
  erewrite st_bind_Ok by exact E. erewrite st_bind_Ok by exact E2. split; [done|]. split; [by apply (heap_more_trans 1 _ _ h1)|].
  split; [cbn [map snd]; by rewrite Hsnd|]. split; [|congruence]. constructor; [|done]. split; [by apply (bth_node_more _ h1 h2 M2)|done].
Qed.
Lemma index_up_Ok cap : 8 ≤ cap → (kz + 4) * cap ≤ HeapMaxAlloc → ∀ fuel j level kids h, (length kids < fuel)%nat → kids ≠ [] → blen kids ≤ 2 ^ Z.of_nat j →
  Z.of_nat level + Z.of_nat j < 250 → heap_ok h → heap_space h (blen kids) → kids_at h level kids →
  ∃ h' hid lv, index_up fuel cap (Z.of_nat level) (map kid_of kids) h = (h', Ok (hid, Z.of_nat lv)) ∧ (lv < 256)%nat ∧
    heap_more (blen kids) h h' ∧ bth_node h' lv hid (concat (map snd kids)) ∧ hb_root h' = hb_root h.
Proof using Hkz Hvz.
  intros Hcap Hfit. induction fuel as [|fuel IH]; intros j level kids h Hfu Hne Hj Hlv Hok Hs Hk; [lia|]. cbn [index_up].
  assert (blen (map kid_of kids) = blen kids) as -> by (unfold blen; by rewrite length_map). assert (0 < blen kids) by (destruct kids; [done|unfold blen; cbn [length]; lia]).
  rewrite u8_small by lia. destruct (Z.leb_spec (blen kids) cap) as [Hle|Hgt].
  - destruct (index_node_Ok h level kids Hok) as (h1 & hid & E1 & M1 & Hn & _ & R1); [by eapply heap_space_mono, Hs; lia|done|done|nia|].
    exists h1, hid, (S level). erewrite st_bind_Ok by exact E1. split; [by replace (Z.of_nat level + 1) with (Z.of_nat (S level)) by lia|]. split; [lia|].
    split; [by eapply heap_more_mono, M1; lia|]. done.
  - rewrite chunks_map. set (kss := chunks cap kids). pose proof (chunks_count cap kids ltac:(lia)) as Hcount. fold kss in Hcount.
    pose proof (chunks_each cap kids ltac:(lia)) as Heach. pose proof (chunks_concat cap kids ltac:(lia)) as Hcat. fold kss in Heach, Hcat.
    assert (kss ≠ []) as Hkne by (by apply chunks_nonempty). assert (1 ≤ blen kss) by (destruct kss; [done|unfold blen; cbn [length]; lia]).
    assert (2 * blen kss ≤ blen kids) as Hhalf by nia.
    destruct (index_parents_Ok level kss h Hok) as (h1 & ps & E1 & M1 & Hsnd & Hps & R1); [by eapply heap_space_mono, Hs; lia| |].
    { unfold kids_at in Hk. rewrite <- Hcat in Hk. clear -Heach Hk Hfit Hkz. induction Heach as [|ks kss [Hne Hl] _ IH]; [constructor|]. cbn [concat] in Hk. apply Forall_app in Hk as [Hk1 Hk2].
      constructor; [|by apply IH]. split; [done|]. split; [done|nia]. }
    erewrite st_bind_Ok by exact E1. assert (length ps = length kss) as Hlen by (apply (f_equal length) in Hsnd; by rewrite !length_map in Hsnd).
    assert (blen ps = blen kss) as Hbl by (unfold blen; by rewrite Hlen).
    destruct j as [|j]; [change (2 ^ Z.of_nat 0) with 1 in Hj; lia|].
    assert (2 ^ Z.of_nat (S j) = 2 * 2 ^ Z.of_nat j) as Hp by (rewrite Nat2Z.inj_succ, Z.pow_succ_r by lia; lia).
    replace (Z.of_nat level + 1) with (Z.of_nat (S level)) by lia.
    destruct (IH j (S level) ps h1) as (h2 & hid & lv & E2 & Hl2 & M2 & Hn & R2); [unfold blen in *; lia|by intros ->; destruct kss|lia|lia|apply M1| |done|].
    { rewrite Hbl. apply (heap_more_space (blen kss) _ h); [done|]. by eapply heap_space_mono, Hs; lia. }
    exists h2, hid, lv. split; [exact E2|]. split; [done|]. split; [|split; [|congruence]].
    + apply (heap_more_mono (blen kss + blen ps)); [lia|]. by apply (heap_more_trans _ _ _ h1).
    + assert (concat (map snd ps) = concat (map snd kids)) as <-; [|done]. rewrite Hsnd, <- Hcat. clear. induction kss as [|ks kss IH]; [done|]. cbn [map concat]. by rewrite IH, map_app, concat_app.
Qed.
End nodes.

(** ** Trees *)
Record bth_ok (b : BTH) : Prop := mkBthOk {
  bo_key : 2 ≤ bh_keySize b ≤ 16; bo_val : 1 ≤ bh_valSize b ≤ 255;
  bo_ents : Forall (entry_fine (bh_keySize b) (bh_valSize b)) (bh_ents b); bo_nodup : NoDup (map kv_key (bh_ents b)) }.
Lemma fine_key kz vz e : 0 ≤ kz → entry_fine kz vz e → key_fine (Z.to_nat kz) e.
Proof. intros Hk (H1 & _ & H3 & _). split; [unfold blen in H1; lia|done]. Qed.
Lemma keys_nodup b : bth_ok b → NoDup (map key_num (bh_ents b)).
Proof.
  intros [Hk _ He Hd]. revert Hd. induction He as [|e es Hf Hfs IH]; intros Hd; [constructor|]. cbn [map] in *. apply NoDup_cons in Hd as [Hn Hd].
  apply NoDup_cons. split; [|by apply IH]. intros (x & Ex & Hx)%list_elem_of_fmap. apply Hn. rewrite Forall_forall in Hfs. pose proof (Hfs x Hx) as Hxf.
  apply list_elem_of_fmap. exists x. split; [|done]. destruct Hf as (L1 & _ & B1 & _), Hxf as (L2 & _ & B2 & _). unfold blen in *. apply key_num_inj; [lia|done..].
Qed.
Lemma sorted_ok b : bth_ok b → let s := sortBTH (bh_ents b) in s ≡ₚ bh_ents b ∧ StronglySorted Z.lt (map key_num s) ∧ Forall (entry_fine (bh_keySize b) (bh_valSize b)) s.
Proof.
  intros Hb s. pose proof Hb as [Hk _ He _]. destruct (sortBTH_ok (Z.to_nat (bh_keySize b)) (bh_ents b)) as [Hp Hs].
  - eapply Forall_impl; [exact He|]. intros e. apply fine_key. lia.
  - by apply keys_nodup.
  - split; [done|]. split; [done|]. subst s. by rewrite Hp.
Qed.
(** The values a tree takes on the heap. *)
Definition bth_space (b : BTH) : Z := 2 * blen (chunks (leafCap b) (bh_ents b)) + 1.
Lemma leafCap_ok b : bth_ok b → 1 ≤ leafCap b ∧ (bh_keySize b + bh_valSize b) * leafCap b ≤ HeapMaxAlloc.
Proof. intros [Hk Hv _ _]. unfold leafCap, HeapMaxAlloc. rewrite (proj2 (Z.eqb_neq _ _)) by lia. split; [apply Z.div_le_lower_bound; lia|apply Z.mul_div_le; lia]. Qed.
Lemma indexCap_ok b : bth_ok b → 8 ≤ indexCap b ∧ (bh_keySize b + 4) * indexCap b ≤ HeapMaxAlloc.
Proof. intros [Hk Hv _ _]. unfold indexCap, HeapMaxAlloc. split; [apply Z.div_le_lower_bound; lia|apply Z.mul_div_le; lia]. Qed.
Lemma header_ok b lv root : bth_ok b → (lv < 256)%nat → bytes_ok (encodeBTHHeader (bh_keySize b) (bh_valSize b) (Z.of_nat lv) root) ∧
  blen (encodeBTHHeader (bh_keySize b) (bh_valSize b) (Z.of_nat lv) root) = 8.
Proof.
  intros [Hk Hv _ _] Hl. unfold encodeBTHHeader. split; [|rewrite blen_app, blen_le_enc; done].
  apply Forall_app. split; [|auto with pst]. repeat constructor; unfold HeapSigBTH; lia.
Qed.
Lemma BTH_Build_some b : bh_ents b ≠ [] → BTH_Build b =
  if leafCap b <? 1 then lift (limitErr "cbEnt" "BTH leaf entry does not fit HN (MS-PST %s)" []) else
  do leaves <- mapM_st put_leaf_node (chunks (leafCap b) (sortBTH (bh_ents b)));
  do root <- match leaves with [leaf] => mret (leaf.1, 0) | _ => buildIndex b leaves end;
  do hh <- Heap_Allocate (encodeBTHHeader (bh_keySize b) (bh_valSize b) root.2 root.1);
  SetRoot hh ;; mret hh.
Proof. unfold BTH_Build. by destruct (bh_ents b). Qed.
Lemma BTH_Build_Ok b h : bth_ok b → heap_ok h → heap_space h (bth_space b) →
  ∃ h' hid lv root, BTH_Build b h = (h', Ok hid) ∧ heap_more (bth_space b) h h' ∧ fits 32 hid ∧ hid ≠ 0 ∧ hb_root h' = hid ∧
    heap_get h' hid = Some (encodeBTHHeader (bh_keySize b) (bh_valSize b) (Z.of_nat lv) root) ∧ (lv < 256)%nat ∧ fits 32 root ∧
    ((bh_ents b = [] ∧ root = 0) ∨ bth_node h' lv root (sortBTH (bh_ents b))).
Proof.
  intros Hb Hok Hs. pose proof Hb as [Hk Hv Hents _]. unfold bth_space in *. set (css := chunks (leafCap b) (bh_ents b)) in *. pose proof (blen_nonneg css).
  assert (∀ h1 lv root, heap_ok h1 → heap_space h1 1 → (lv < 256)%nat → ∃ h2 hid,
    (do hh <- Heap_Allocate (encodeBTHHeader (bh_keySize b) (bh_valSize b) (Z.of_nat lv) root); SetRoot hh ;; mret hh) h1 = (h2, Ok hid) ∧ heap_more 1 h1 h2 ∧
    fits 32 hid ∧ hid ≠ 0 ∧ hb_root h2 = hid ∧ heap_get h2 hid = Some (encodeBTHHeader (bh_keySize b) (bh_valSize b) (Z.of_nat lv) root)) as Hfin.
  { intros h1 lv root Hok1 Hs1 Hlv. destruct (header_ok b lv root Hb Hlv) as [Hhb Hhl].
    destruct (small_alloc h1 _ Hok1 Hs1 Hhb) as (h2 & hid & E & M & Hf & Hz & Hg & _); [rewrite Hhl; done|]. exists (heap_root hid h2), hid.
    erewrite st_bind_Ok by exact E. split; [done|]. split; [|done]. apply (heap_more_trans 1 0 _ h2); [done|]. apply set_root_more; [apply M|done]. }
  destruct (decide (bh_ents b = [])) as [Hz|Hne].
  { unfold BTH_Build. assert (css = []) as Hcs by (unfold css; by rewrite Hz). rewrite Hcs in Hs |- *. change (2 * blen [] + 1) with 1 in *. rewrite Hz.
    destruct (Hfin h 0%nat 0 Hok Hs) as (h2 & hid & E & M & Hf & Hz' & R & G); [lia|]. exists h2, hid, 0%nat, 0. split; [exact E|]. do 5 (split; [done|]). split; [lia|]. split; [done|by left]. }
  rewrite BTH_Build_some by done.
  destruct (leafCap_ok b Hb) as [Hc1 Hc2]. rewrite (proj2 (Z.ltb_ge _ _)) by done. destruct (sorted_ok b Hb) as (Hp & Hss & Hf). set (srt := sortBTH (bh_ents b)) in *.
  set (lss := chunks (leafCap b) srt). assert (blen lss = blen css) as Hll by (apply chunks_length; by rewrite Hp).
  assert (concat lss = srt) as Hcat by (apply chunks_concat; lia). pose proof (chunks_each (leafCap b) srt ltac:(lia)) as Heach. fold lss in Heach.
  destruct (put_leaves_nodes _ _ Hk Hv lss h Hok) as (h1 & kids & E1 & M1 & Hsnd & Hkids & R1); [rewrite Hll; by eapply heap_space_mono, Hs; lia| |].
  { rewrite <- Hcat in Hf. clear -Heach Hf Hc2 Hk Hv. induction Heach as [|c lss [Hne Hl] _ IH]; [constructor|]. cbn [concat] in Hf. apply Forall_app in Hf as [Hf1 Hf2].
    constructor; [|by apply IH]. split; [done|]. split; [nia|done]. }
  erewrite st_bind_Ok by exact E1. rewrite Hll in M1. assert (length kids = length lss) as Hlen by (apply (f_equal length) in Hsnd; by rewrite length_map in Hsnd).
  assert (blen kids = blen css) as Hbk by (rewrite <- Hll; unfold blen; by rewrite Hlen).
  assert (kids ≠ []) as Hkne. { intros ->. assert (lss = []) as El by (by destruct lss). rewrite El in Hcat. cbn in Hcat. rewrite <- Hcat in Hp. by apply Permutation_nil in Hp. }
  assert (1 ≤ blen kids) by (destruct kids; [done|unfold blen; cbn [length]; lia]).
  assert (∃ h2 lv root, (match map kid_of kids with [leaf] => mret (leaf.1, 0) | _ => buildIndex b (map kid_of kids) end) h1 = (h2, Ok (root, Z.of_nat lv)) ∧ (lv < 256)%nat ∧
    heap_more (blen css) h1 h2 ∧ bth_node h2 lv root srt) as (h2 & lv & root & E2 & Hlv & M2 & Hn).
  { destruct (decide (length kids = 1%nat)) as [H1|H1].
    - destruct kids as [|[hid es] [|? ?]]; [done| |done]. exists h1, 0%nat, hid. split; [done|]. split; [lia|]. split; [eapply heap_more_mono, heap_more_refl; [lia|apply M1]|].
      apply Forall_inv in Hkids as [Hkids _]. cbn [map snd] in Hsnd. rewrite <- Hsnd in Hcat. cbn [concat] in Hcat. rewrite app_nil_r in Hcat. by subst srt; rewrite <- Hcat.
    - assert (match map kid_of kids with [leaf] => mret (leaf.1, 0) | _ => buildIndex b (map kid_of kids) end = buildIndex b (map kid_of kids)) as -> by (destruct kids as [|? [|? ?]]; done).
      destruct (indexCap_ok b Hb) as [Hi1 Hi2]. unfold buildIndex. rewrite (proj2 (Z.ltb_ge _ _)) by lia. rewrite length_map.
      destruct (index_up_Ok _ _ Hk Hv (indexCap b) Hi1 Hi2 (S (length kids)) 16 0 kids h1) as (h2 & hid & lv & E2 & Hl2 & M2 & Hn & R2); try done; try lia; try apply M1.
      { change (2 ^ Z.of_nat 16) with 65536. rewrite Hbk. destruct Hs as [Hs _]. pose proof (blen_nonneg (hb_pages h)). unfold HNMaxBlockIndex in Hs. lia. }
      { rewrite Hbk. apply (heap_more_space (blen css) _ h); [done|]. eapply heap_space_mono, Hs. lia. }
      exists h2, lv, hid. split; [exact E2|]. split; [done|]. rewrite Hbk in M2. split; [done|]. by rewrite Hsnd, Hcat in Hn. }
  erewrite st_bind_Ok by exact E2. cbn [fst snd].
  destruct (Hfin h2 lv root) as (h3 & hid & E3 & M3 & Hf3 & Hz3 & R3 & G3); [apply M2| |done|].
  { apply (heap_more_space (blen css) _ h1); [done|]. apply (heap_more_space (blen css) _ h); [done|]. eapply heap_space_mono, Hs. lia. }
  exists h3, hid, lv, root. split; [exact E3|]. split; [apply (heap_more_mono (blen css + (blen css + 1))); [lia|]; apply (heap_more_trans _ _ _ h1); [done|by apply (heap_more_trans _ _ _ h2)]|].
  split; [done|]. split; [done|]. split; [done|]. split; [done|]. split; [done|]. split; [by apply bth_node_fits in Hn as (? & _)|]. right. by apply (bth_node_more 1 h2).
Qed.

(** ** Reading *)
Lemma chunks_rows {A} n (rows : list (list A)) : 0 < n → Forall (λ r, blen r = n) rows → chunks n (concat rows) = rows.
Proof.
  intros Hn. induction 1 as [|r rows Hr _ IH]; [done|]. cbn [concat]. rewrite chunks_cons; [|done|by destruct r; [change (blen (@nil A)) with 0 in Hr; lia|]].
  rewrite take_app_le, take_ge by (unfold blen in Hr; lia). rewrite drop_app_ge by (unfold blen in Hr; lia).
  replace (Z.to_nat n - length r)%nat with 0%nat by (unfold blen in Hr; lia). by rewrite drop_0, IH.
Qed.
Fixpoint kv_find (key : bytes) (es : list bthKV) : option bytes :=
  match es with [] => None | e :: es => if bool_decide (kv_key e = key) then Some (kv_val e) else kv_find key es end.
Lemma kv_find_app key es es' : kv_find key (es ++ es') = match kv_find key es with Some d => Some d | None => kv_find key es' end.
Proof. induction es as [|e es IH]; [done|]. cbn [app kv_find]. by case_bool_decide. Qed.
Lemma kv_find_none key es : (∀ e, e ∈ es → kv_key e ≠ key) → kv_find key es = None.
Proof. induction es as [|e es IH]; intros H; [done|]. cbn [kv_find]. rewrite bool_decide_false by (apply H; by left). apply IH. intros x Hx. apply H. by right. Qed.
Lemma kv_find_some key es d : NoDup (map kv_key es) → kv_find key es = Some d ↔ mkKV key d ∈ es.
Proof.
  induction es as [|e es IH]; intros Hd; cbn [kv_find map] in *; [split; [done|by intros ?%not_elem_of_nil]|]. apply NoDup_cons in Hd as [Hn Hd].
  rewrite elem_of_cons. case_bool_decide as Hk.
  - split; [intros [= <-]; left; destruct e; cbn in *; by subst|]. intros [<-|Hin]; [done|]. destruct Hn. rewrite Hk. apply list_elem_of_fmap. by exists (mkKV key d).
  - rewrite IH by done. split; [by right|]. intros [<-|?]; [done|done].
Qed.
Lemma kv_find_perm key es es' : NoDup (map kv_key es) → es ≡ₚ es' → kv_find key es = kv_find key es'.
Proof.
  intros Hd Hp. assert (NoDup (map kv_key es')) as Hd' by (change (NoDup (kv_key <$> es')); by rewrite <- Hp).
  destruct (kv_find key es') as [d|] eqn:E.
  - apply kv_find_some; [done|]. rewrite Hp. by apply kv_find_some.
  - destruct (kv_find key es) as [d|] eqn:E'; [|done]. apply kv_find_some in E'; [|done]. rewrite Hp in E'. apply kv_find_some in E'; [congruence|done].
Qed.
Definition found (r : option bytes) : result bytes := match r with Some d => mret d | None => key_not_found end.
Definition reads_heap (h : Heap) (v : HeapView) : Prop := ∀ k d, heap_get h k = Some d → HeapView_Read v k = Ok d.
Section read.
Context (kz vz : Z) (Hkz : 2 ≤ kz ≤ 16) (Hvz : 1 ≤ vz ≤ 255) (v : BTHView) (Hk : bv_keySize v = kz) (Hv : bv_valSize v = vz).
Definition leaf_row (e : bthKV) : bytes := kv_key e ++ kv_val e.
Definition index_row (c : Z * bytes) : bytes := c.2 ++ le_enc 4 c.1.
Lemma leaf_entries_Ok es : Forall (entry_fine kz vz) es → leaf_entries v (packLeaf es) = Ok (map leaf_row es).
Proof using Hkz Hvz Hk Hv.
  intros Hf. destruct (packLeaf_ok kz vz Hkz Hvz es Hf) as [_ Hl]. unfold leaf_entries. rewrite Hk, Hv, Hl. cbv zeta.
  rewrite (proj2 (Z.eqb_neq _ _)) by lia. rewrite Z.mul_comm, Z_mod_mult. cbn [Z.eqb negb orb]. rewrite mret_Ok. f_equal.
  apply chunks_rows; [lia|]. apply Forall_map. eapply Forall_impl; [exact Hf|]. intros e (H1 & H2 & _). unfold leaf_row. rewrite blen_app. lia.
Qed.
Lemma index_entries_Ok kids : Forall (kid_fine kz) kids → index_entries v (packIndex kids) = Ok (map index_row kids).
Proof using Hkz Hk.
  intros Hf. destruct (packIndex_ok kz Hkz kids Hf) as [_ Hl]. unfold index_entries. rewrite Hk, Hl. cbv zeta.
  rewrite (proj2 (Z.eqb_neq _ _)) by lia. rewrite Z.mul_comm, Z_mod_mult. cbn [Z.eqb negb orb]. rewrite mret_Ok. f_equal.
  assert (packIndex kids = concat (map index_row kids)) as -> by (unfold packIndex; f_equal; apply map_ext; by intros []).
  apply chunks_rows; [lia|]. apply Forall_map. eapply Forall_impl; [exact Hf|]. intros c [H1 _]. unfold index_row. rewrite blen_app, blen_le_enc. lia.
Qed.
Lemma cut_row (a b : bytes) : blen a = kz → take (Z.to_nat kz) (a ++ b) = a ∧ drop (Z.to_nat kz) (a ++ b) = b.
Proof using Hkz.
  intros Ha. assert (Z.to_nat kz = length a) as -> by (unfold blen in Ha; lia). by rewrite take_app_length, drop_app_length.
Qed.
Lemma bth_collect_Ok h : reads_heap h (bv_heap v) → ∀ level hid es, bth_node h level hid es → Forall (entry_fine kz vz) es → bth_collect level v hid = Ok es.
Proof using Hkz Hvz Hk Hv.
  intros Hr. induction level as [|level IH]; intros hid es (Hf & Hz & Hne & Hg) Hes; cbn [bth_collect].
  - rewrite (Hr _ _ Hg), bind_Ok, leaf_entries_Ok, bind_Ok, mret_Ok by done. f_equal. rewrite map_map, Hk. clear -Hes Hkz.
    induction Hes as [|e es (H1 & _) _ IH]; [done|]. cbn [map]. rewrite IH. destruct (cut_row (kv_key e) (kv_val e) H1) as [E1 E2]. unfold leaf_row. rewrite E1, E2. by destruct e.
  - destruct Hg as (kids & Hg & -> & Hkids).
    assert (Forall (λ c : Z * list bthKV, fits 32 c.1 ∧ bth_collect level v c.1 = Ok c.2 ∧ kid_fine kz (kid_of c)) kids) as Hc.
    { clear -IH Hkids Hes Hkz Hvz. induction Hkids as [|c kids Hc _ IHk]; [constructor|]. cbn [map concat] in Hes. apply Forall_app in Hes as [He1 He2].
      constructor; [|by apply IHk]. pose proof (bth_node_fits _ _ _ _ Hc) as (? & _ & ?). split; [done|]. split; [by apply IH|]. by apply (max_key_fine kz vz). }
    rewrite (Hr _ _ Hg), bind_Ok, index_entries_Ok, bind_Ok by (apply Forall_map; eapply Forall_impl; [exact Hc|]; by intros c (_ & _ & ?)).
    assert (mapM (λ e : bytes, bth_collect level v (le_dec (drop (Z.to_nat (bv_keySize v)) e))) (map index_row (map kid_of kids)) = Ok (map snd kids)) as E; [|by rewrite E].
    rewrite Hk. clear -Hc Hkz. induction Hc as [|c kids (H1 & H2 & H3 & _) _ IH]; [done|].
    cbn [map]. change (mapM ?f (?x :: ?l)) with (y ← f x; ys ← mapM f l; mret (y :: ys)). destruct (cut_row (kid_of c).2 (le_enc 4 (kid_of c).1) H3) as [_ E2].
    change (index_row (kid_of c)) with ((kid_of c).2 ++ le_enc 4 (kid_of c).1). rewrite E2. cbn [kid_of fst]. rewrite le_dec_enc_fits by done. rewrite H2, bind_Ok, IH. done.
Qed.
Lemma leaf_find_Ok key es : Forall (entry_fine kz vz) es → leaf_find (Z.to_nat kz) key (map leaf_row es) = found (kv_find key es).
Proof using Hkz.
  induction 1 as [|e es (H1 & _) _ IH]; [done|]. cbn [map leaf_find kv_find]. destruct (cut_row (kv_key e) (kv_val e) H1) as [E1 E2]. change (leaf_row e) with (kv_key e ++ kv_val e). rewrite E1, E2.
  by case_bool_decide.
Qed.
(** The child an index node sends [key] to. *)
Lemma index_find_Ok key (kids : list (Z * list bthKV)) : bytes_ok key → blen key = kz →
  Forall (λ c, fits 32 c.1 ∧ kid_fine kz (kid_of c)) kids → kids ≠ [] → ∀ x, ∃ pre c post, kids = pre ++ c :: post ∧
  index_find (Z.to_nat kz) key (map index_row (map kid_of kids)) x = c.1 ∧ Forall (λ c, le_dec (kid_of c).2 < le_dec key) pre ∧ (post = [] ∨ le_dec key ≤ le_dec (kid_of c).2).
Proof using Hkz.
  intros Hb Hl. induction 1 as [|c kids [Hc1 Hc2] Hc IH]; intros Hne x; [done|]. cbn [map index_find].
  destruct Hc2 as [L1 B1]. destruct (cut_row (kid_of c).2 (le_enc 4 (kid_of c).1) L1) as [E1 E2]. change (index_row (kid_of c)) with ((kid_of c).2 ++ le_enc 4 (kid_of c).1). rewrite E1, E2.
  rewrite compareBTHKey_num by (try done; unfold blen in *; lia). rewrite (le_dec_enc_fits 4 (kid_of c).1) by done.
  destruct (Z.compare_spec (le_dec key) (le_dec (kid_of c).2)) as [He|Hlt|Hgt].
  - exists [], c, kids. split; [done|]. split; [done|]. split; [constructor|right; lia].
  - exists [], c, kids. split; [done|]. split; [done|]. split; [constructor|right; lia].
  - destruct (decide (kids = [])) as [->|Hk']; [exists [], c, []; split; [done|]; split; [done|]; split; [constructor|by left]|].
    destruct (IH Hk' (kid_of c).1) as (pre & c' & post & -> & E & Hp & Hq). exists (c :: pre), c', post. split; [done|]. split; [done|]. split; [by constructor|done].
Qed.
Lemma max_key_bounds es : es ≠ [] → StronglySorted Z.lt (map key_num es) →
  (∃ m, m ∈ es ∧ max_key (map kv_key es) = kv_key m) ∧ ∀ e, e ∈ es → key_num e ≤ le_dec (max_key (map kv_key es)).
Proof using.
  intros Hne Hs. destruct es as [|m es _] using rev_ind; [done|]. unfold max_key. rewrite map_app. cbn [map]. rewrite List.last_last. split.
  - exists m. split; [apply elem_of_app; right; by left|done].
  - intros e [He| ->%list_elem_of_singleton]%elem_of_app; [|done]. rewrite map_app in Hs. apply StronglySorted_app in Hs as (Hlt & _).
    assert (key_num e < key_num m); [|unfold key_num in *; lia]. apply Hlt; [|by left]. by apply list_elem_of_fmap_2.
Qed.
Lemma bth_lookup_Ok h key : reads_heap h (bv_heap v) → blen key = kz → bytes_ok key → ∀ level hid es, bth_node h level hid es →
  Forall (entry_fine kz vz) es → StronglySorted Z.lt (map key_num es) → bth_lookup level v hid key = found (kv_find key es).
Proof using Hkz Hvz Hk Hv.
  intros Hr Hl Hb. induction level as [|level IH]; intros hid es (Hf & Hz & Hne & Hg) Hes Hs; cbn [bth_lookup].
  { rewrite (Hr _ _ Hg), bind_Ok, leaf_entries_Ok, bind_Ok by done. rewrite Hk. by apply leaf_find_Ok. }
  destruct Hg as (kids & Hg & -> & Hkids).
  assert (Forall (λ c : Z * list bthKV, bth_node h level c.1 c.2 ∧ Forall (entry_fine kz vz) c.2 ∧ StronglySorted Z.lt (map key_num c.2)) kids) as Hc.
  { clear -Hkids Hes Hs. induction Hkids as [|c kids Hc _ IHk]; [constructor|]. cbn [map concat] in *. apply Forall_app in Hes as [He1 He2].
    rewrite map_app in Hs. apply StronglySorted_app in Hs as (_ & Hs1 & Hs2). constructor; [done|by apply IHk]. }
  assert (Forall (λ c : Z * list bthKV, fits 32 c.1 ∧ kid_fine kz (kid_of c)) kids) as Hkf.
  { eapply Forall_impl; [exact Hc|]. intros c (Hn & He & _). pose proof (bth_node_fits _ _ _ _ Hn) as (? & _ & ?). split; [done|]. by apply (max_key_fine kz vz). }
  rewrite (Hr _ _ Hg), bind_Ok, index_entries_Ok, bind_Ok by (apply Forall_map; eapply Forall_impl; [exact Hkf|]; by intros c (_ & ?)).
  cbv zeta. rewrite Hk. assert (kids ≠ []) as Hkne by (by intros ->).
  destruct (index_find_Ok key kids Hb Hl Hkf Hkne 0) as (pre & c & post & -> & E & Hpre & Hpost). rewrite E.
  apply Forall_app in Hc as [Hcp Hc]. apply Forall_cons in Hc as [(Hn & He & Hsc) Hcq]. pose proof (bth_node_fits _ _ _ _ Hn) as (_ & Hz1 & Hne1).
  rewrite (proj2 (Z.eqb_neq _ _)) by done. rewrite (IH _ _ Hn He Hsc). f_equal.
  rewrite map_app, concat_app in *. cbn [map concat snd] in *. rewrite !map_app in Hs. rewrite !kv_find_app.
  apply StronglySorted_app in Hs as (_ & _ & Hs). apply StronglySorted_app in Hs as (Hlt & _ & _).
  rewrite (kv_find_none key (concat (map snd pre))).
  2:{ intros e Hin. apply list_elem_of_In, in_concat in Hin as (l & Hl' & Hin). apply in_map_iff in Hl' as (c' & <- & Hc'). apply list_elem_of_In in Hin, Hc'.
      rewrite Forall_forall in Hpre, Hcp. specialize (Hpre c' Hc'). destruct (Hcp c' Hc') as (Hn' & _ & Hs'). apply bth_node_fits in Hn' as (_ & _ & Hne').
      destruct (max_key_bounds c'.2 Hne' Hs') as [_ Hmax]. specialize (Hmax e Hin). intros <-. cbn [kid_of snd] in Hpre. unfold key_num in Hmax. lia. }
  destruct (kv_find key c.2); [done|]. symmetry. apply kv_find_none. intros e Hin <-.
  destruct Hpost as [->|Hle]; [by apply not_elem_of_nil in Hin|]. destruct (max_key_bounds c.2 Hne1 Hsc) as [(m & Hm & Em) _].
  assert (key_num m < key_num e) as Hme by (apply Hlt; by apply list_elem_of_fmap_2). cbn [kid_of snd] in Hle. rewrite Em in Hle. unfold key_num in Hme. lia.
Qed.
End read.

(** Opening the tree at its header. *)
Lemma OpenBTH_Ok h v hid kz vz lv root : reads_heap h v → hid ≠ 0 → is_byte kz → is_byte vz → (lv < 256)%nat → fits 32 root →
  heap_get h hid = Some (encodeBTHHeader kz vz (Z.of_nat lv) root) → V2OpenBTH v hid = Ok (mkBTHView v kz vz (Z.of_nat lv) root hid).
Proof.
  intros Hr Hz Hk Hv Hl Hf Hg. unfold V2OpenBTH. rewrite (proj2 (Z.eqb_neq _ _)) by done. cbv zeta. rewrite (Hr _ _ Hg), bind_Ok.
  unfold encodeBTHHeader. set (raw := [HeapSigBTH; kz; vz; Z.of_nat lv] ++ le_enc 4 root). assert (blen raw = 8) as Hlen by (unfold raw; by rewrite blen_app, blen_le_enc).
  rewrite (proj2 (Z.ltb_ge _ _)) by (rewrite Hlen; done). rewrite (index_Ok raw 0 HeapSigBTH), (index_Ok raw 1 kz), (index_Ok raw 2 vz), (index_Ok raw 3 (Z.of_nat lv)) by done.
  rewrite ?bind_Ok, Z.eqb_refl. cbn [negb]. rewrite ?bind_Ok. assert (rd 4 4 raw = Ok root) as ->; [|done].
  pose proof (rd_field [HeapSigBTH; kz; vz; Z.of_nat lv] [] 4 root 4) as E. rewrite app_nil_r in E. by apply E.
Qed.
(** A tree that [Build] wrote, seen through a view of the heap. *)
Definition tree_reads (b : BTH) (v : BTHView) : Prop :=
  BTHView_Entries v = Ok (sortBTH (bh_ents b)) ∧
  ∀ key, bytes_ok key → blen key = bh_keySize b → BTHView_Lookup v key = found (kv_find key (bh_ents b)).
Lemma built_tree_reads b h hid lv root hv : bth_ok b → reads_heap h hv → hid ≠ 0 → (lv < 256)%nat → fits 32 root →
  heap_get h hid = Some (encodeBTHHeader (bh_keySize b) (bh_valSize b) (Z.of_nat lv) root) →
  (bh_ents b = [] ∧ root = 0) ∨ bth_node h lv root (sortBTH (bh_ents b)) → ∃ v, V2OpenBTH hv hid = Ok v ∧ tree_reads b v.
Proof.
  intros Hb Hr Hz Hl Hfr G Hn. pose proof Hb as [Hk Hv _ Hd]. destruct (sorted_ok b Hb) as (Hp & Hss & Hse).
  exists (mkBTHView hv (bh_keySize b) (bh_valSize b) (Z.of_nat lv) root hid).
  split; [by apply (OpenBTH_Ok h); unfold is_byte; (done || lia)|]. unfold tree_reads, BTHView_Entries, BTHView_Lookup. cbn [bv_root bv_levels bv_keySize]. rewrite Nat2Z.id. split.
  - destruct Hn as [[He ->]|Hn]; [by rewrite He|]. pose proof (bth_node_fits _ _ _ _ Hn) as (_ & Hz' & _). rewrite (proj2 (Z.eqb_neq _ _)) by done.
    by eapply (bth_collect_Ok _ _ Hk Hv); [reflexivity|reflexivity|exact Hr|exact Hn|exact Hse].
  - intros key Hkb Hkl. rewrite Hkl, Z.eqb_refl. cbn [negb]. rewrite (kv_find_perm key (bh_ents b) (sortBTH (bh_ents b))) by done.
    destruct Hn as [[He ->]|Hn]; [by rewrite He|]. pose proof (bth_node_fits _ _ _ _ Hn) as (_ & Hz' & _). rewrite (proj2 (Z.eqb_neq _ _)) by done.
    by eapply (bth_lookup_Ok _ _ Hk Hv); [reflexivity|reflexivity|exact Hr|exact Hkl|exact Hkb|exact Hn|exact Hse|exact Hss].
Qed.
(** C18: Entries inserted into a tree are found again: the tree [Build] writes opens,
    lists its entries in the order of their keys, and every lookup gives what a
    search of the list gives, whatever else the heap holds by then. *)
Theorem v2_bth_roundtrip b h : bth_ok b → heap_ok h → heap_space h (bth_space b) →
  ∃ h' hid, BTH_Build b h = (h', Ok hid) ∧ heap_more (bth_space b) h h' ∧ hb_root h' = hid ∧ ∀ hv, reads_heap h' hv →
    ∃ v es, V2OpenBTH hv hid = Ok v ∧ BTHView_Entries v = Ok es ∧ es ≡ₚ bh_ents b ∧ StronglySorted Z.lt (map key_num es) ∧
      ∀ key, bytes_ok key → blen key = bh_keySize b → BTHView_Lookup v key = found (kv_find key (bh_ents b)).
Proof.
  intros Hb Hok Hs. destruct (BTH_Build_Ok b h Hb Hok Hs) as (h' & hid & lv & root & E & M & Hf & Hz & R & G & Hl & Hfr & Hn). exists h', hid.
  split; [done|]. split; [done|]. split; [done|]. intros hv Hr. destruct (sorted_ok b Hb) as (Hp & Hss & _).
  destruct (built_tree_reads b h' hid lv root hv) as (v & Ho & He & Hlk); try done. by exists v, (sortBTH (bh_ents b)).
Qed.
Lemma v2_bth_roundtrip_witness :
  let b := mkBTH 2 2 [mkKV [9; 1] [1; 2]; mkKV [3; 1] [3; 4]] in
  ∃ h' hid, BTH_Build b (NewHeap HeapSigPC) = (h', Ok hid) ∧ ∀ hv, reads_heap h' hv →
    ∃ v es, V2OpenBTH hv hid = Ok v ∧ BTHView_Entries v = Ok es ∧ BTHView_Lookup v [3; 1] = Ok [3; 4] ∧ BTHView_Lookup v [4; 1] = key_not_found.
Proof.
  intros b. assert (bth_ok b) as Hb.
  { split; [cbn; lia|cbn; lia|repeat constructor; lia|]. apply (bool_decide_unpack _). by vm_compute. }
  assert (heap_ok (NewHeap HeapSigPC)) as Hok by (split; try done; try constructor; intros i p Hp; by rewrite lookup_nil in Hp).
  destruct (v2_bth_roundtrip b (NewHeap HeapSigPC) Hb Hok ltac:(by vm_compute)) as (h' & hid & E & _ & _ & Hv). exists h', hid. split; [exact E|].
  intros hv Hr. destruct (Hv hv Hr) as (v & es & Ho & He & _ & _ & Hl). exists v, es. split; [exact Ho|]. split; [exact He|].
  rewrite !Hl by (first [done | by repeat constructor]). done.
Defined.
