(* ===== verification/V2PC.v ===== *)
(** * Writer v2: property contexts ([src/writer/v2/pc.go])

    [PC] collects properties by ID, each with its type and its bytes or the ID of
    a subnode that holds them; [PC_build] places the values on the heap and writes
    a B-tree of records.  [PCView] is a context read back. *)
From S2P Require Import Prelude Ids State Fields Text V2Base V2Disk V2Store V2Ndb V2Data V2Heap V2BTH.

(** ** Property types *)
Definition PtypInteger16 : Z := 0x0002.
Definition PtypInteger32 : Z := 0x0003.
Definition PtypFloating32 : Z := 0x0004.
Definition PtypFloating64 : Z := 0x0005.
Definition PtypCurrency : Z := 0x0006.
Definition PtypError : Z := 0x000A.
Definition PtypBoolean : Z := 0x000B.
Definition PtypObject : Z := 0x000D.
Definition PtypInteger64 : Z := 0x0014.
Definition PtypString : Z := 0x001F.
Definition PtypTime : Z := 0x0040.
Definition PtypGUID : Z := 0x0048.
Definition PtypBinary : Z := 0x0102.
Definition PtypMVInteger32 : Z := 0x1003.
Definition PtypMVString : Z := 0x101F.
Definition PtypMVBinary : Z := 0x1102.
Definition PCLeafValueSize : Z := 6.
Definition ptypFixedSize (t : Z) : Z :=
  if (t =? PtypInteger16) || (t =? PtypBoolean) || (t =? PtypError) then 2 else
  if (t =? PtypInteger32) || (t =? PtypFloating32) then 4 else
  if (t =? PtypInteger64) || (t =? PtypFloating64) || (t =? PtypCurrency) || (t =? PtypTime) then 8 else
  if t =? PtypGUID then 16 else 0.
Definition ptypInline (t : Z) : bool := let n := ptypFixedSize t in (0 <? n) && (n <=? 4).

(** ** Values *)
Definition encodeUnicodePC (s : bytes) : bytes := concat (map (le_enc 2) (utf16_encode (to_runes s) ++ [0])).
(** The last two bytes are cut off when they are zero. *)
Definition decodeUnicodePC (b : bytes) : bytes :=
  let n := blen b in
  let b := if (2 <=? n) && (default 1 (b !! Z.to_nat (n - 1)) =? 0) && (default 1 (b !! Z.to_nat (n - 2)) =? 0) then take (Z.to_nat (n - 2)) b else b in
  of_runes (utf16_decode (words16 b)).
Definition encodeMVVar (items : list bytes) : bytes :=
  le_enc 4 (blen items) ++ concat (map (λ it, le_enc 4 (blen it) ++ it) items).
Fixpoint mv_items (n : nat) (off : Z) (b : bytes) : result (list bytes) :=
  match n with
  | O => mret []
  | S n =>
    if blen b <? off + 4 then invariant "2.3.3" "mv" "truncated length" [] else
    ln ← rd 4 off b;
    let off := off + 4 in
    if blen b <? off + ln then invariant "2.3.3" "mv" "truncated item" [] else
    it ← slice b off (off + ln);
    its ← mv_items n (off + ln) b;
    mret (it :: its)
  end.
Definition decodeMVVar (b : bytes) : result (list bytes) :=
  if blen b <? 4 then invariant "2.3.3" "mv" "truncated multi-value" [] else
  n ← rd 4 0 b; mv_items (Z.to_nat n) 4 b.
Definition encodeMVString (vals : list bytes) : bytes := encodeMVVar (map encodeUnicodePC vals).
Definition encodeMVBinary (vals : list bytes) : bytes := encodeMVVar vals.

(** ** The builder *)
Record pcProp := mkPcProp { pp_typ : Z; pp_data : bytes; pp_hnid : Z }.
Record PC := mkPC { pc_heap : Heap; pc_props : gmap Z pcProp; pc_order : list Z }.
Definition NewPC : PC := mkPC (NewHeap HeapSigPC) ∅ [].
Definition set_pc_heap (h : Heap) (p : PC) : PC := mkPC h (pc_props p) (pc_order p).
Definition put_prop (id : Z) (pr : pcProp) (p : PC) : PC :=
  mkPC (pc_heap p) (<[id := pr]> (pc_props p)) (match pc_props p !! id with Some _ => pc_order p | None => pc_order p ++ [id] end).
Definition PC_Add (id typ : Z) (data : bytes) : ST PC unit :=
  do p <- get;
  match pc_props p !! id with
  | Some _ => lift (invalidArg "propID" "duplicate property 0x%04x" [id])
  | None => modify (put_prop id (mkPcProp typ data 0))
  end.
Definition PC_Set (id typ : Z) (data : bytes) : ST PC unit := modify (put_prop id (mkPcProp typ data 0)).
Definition PC_Delete (id : Z) : ST PC unit := modify (λ p,
  match pc_props p !! id with
  | None => p
  | Some _ => mkPC (pc_heap p) (delete id (pc_props p)) (filter (λ x, x ≠ id) (pc_order p))
  end).
Definition PC_SetString (id : Z) (s : bytes) : ST PC unit := PC_Set id PtypString (encodeUnicodePC s).
Definition PC_SetInt32 (id v : Z) : ST PC unit := PC_Set id PtypInteger32 (le_enc 4 v).
Definition PC_SetInt16 (id v : Z) : ST PC unit := PC_Set id PtypInteger16 (le_enc 2 v).
Definition PC_SetBool (id : Z) (v : bool) : ST PC unit := PC_Set id PtypBoolean (le_enc 2 (if v then 1 else 0)).
Definition PC_SetInt64 (id v : Z) : ST PC unit := PC_Set id PtypInteger64 (le_enc 8 v).
Definition PC_SetTime (id filetime : Z) : ST PC unit := PC_Set id PtypTime (le_enc 8 filetime).
Definition PC_SetGUID (id : Z) (g : bytes) : ST PC unit := PC_Set id PtypGUID g.
Definition PC_SetObject (id : Z) (data : bytes) : ST PC unit := PC_Set id PtypObject data.
Definition PC_SetMVInt32 (id : Z) (vals : list Z) : ST PC unit :=
  PC_Set id PtypMVInteger32 (le_enc 4 (blen vals) ++ concat (map (le_enc 4) vals)).
Definition PC_SetMVString (id : Z) (vals : list bytes) : ST PC unit := PC_Set id PtypMVString (encodeMVString vals).
Definition PC_SetMVBinary (id : Z) (vals : list bytes) : ST PC unit := PC_Set id PtypMVBinary (encodeMVBinary vals).
Definition PC_SetObjectNID (id nid : Z) : ST PC unit :=
  if nid =? 0 then lift (invalidArg "nid" "PtypObject NID is 0" []) else modify (put_prop id (mkPcProp PtypObject [] nid)).
(** The heap of a context, with the database below it. *)
Definition on_pc_heap {A} (m : ST Heap A) : ST PC A := zoom pc_heap (λ p h, set_pc_heap h p) m.
Definition on_pc_db {A} (m : ST (NDB * Heap) A) : ST (NDB * PC) A := zoom (λ st, (st.1, pc_heap st.2)) (λ st nh, (nh.1, set_pc_heap nh.2 st.2)) m.
Definition on_pc {A} (m : ST PC A) : ST (NDB * PC) A := zoom snd (λ st p, (st.1, p)) m.
Definition PC_SetBinaryStream (id : Z) (r : option Reader) (size : Z) : ST (NDB * PC) unit :=
  do hnid <- on_pc_db (AllocateStream r size);
  on_pc (modify (put_prop id (mkPcProp PtypBinary [] hnid))).
Definition PC_SetBinary (id : Z) (b : bytes) : ST (NDB * PC) unit :=
  if HeapMaxAlloc <? blen b then PC_SetBinaryStream id (Some (mkReader b None)) (blen b) else on_pc (PC_Set id PtypBinary b).

Definition place (pr : pcProp) : ST Heap Z :=
  if negb (pp_hnid pr =? 0) then mret (pp_hnid pr) else
  let data := pp_data pr in
  if pp_typ pr =? PtypObject then newSub data else
  if ptypInline (pp_typ pr) then
    lift (if (blen data =? 0) || (blen data =? 1) || (blen data =? 2) || (blen data =? 4) then mret (le_dec data)
          else invalidArg "cb" "inline property %d bytes" [blen data])
  else Heap_Allocate data.
Definition pc_record (typ hnid : Z) : bytes := le_enc 2 typ ++ le_enc 4 hnid.
Fixpoint place_each (props : gmap Z pcProp) (ids : list Z) (b : BTH) : ST Heap BTH :=
  match ids with
  | [] => mret b
  | id :: ids =>
    let pr := default (mkPcProp 0 [] 0) (props !! id) in
    do hnid <- place pr;
    do b <- lift (BTH_Insert (le_enc 2 id) (pc_record (pp_typ pr) hnid) b);
    place_each props ids b
  end.
Definition build_heap (p : PC) : ST Heap unit :=
  do b <- lift (V2NewBTH 2 PCLeafValueSize);
  do b <- place_each (pc_props p) (insertion_sort Z.ltb (pc_order p)) b;
  BTH_Build b ;; mret tt.
Definition PC_build : ST PC unit := do p <- get; on_pc_heap (build_heap p).
Section commit.
Context `{!SortSlice}.
Definition PC_Commit (nid : Z) : ST (NDB * PC) unit := on_pc PC_build ;; on_pc_db (Heap_Commit nid).
(** The context as a subnode of [parent]; the parent afterwards. *)
Definition PC_AttachTo (nid : Z) : ST (NDB * Heap * PC) unit :=
  zoom snd (λ st p, (st.1, p)) PC_build ;;
  do st <- get;
  do child <- zoom fst (λ st nh, (nh, st.2)) (AttachHeap nid (pc_heap st.2));
  modify (λ st, (st.1, set_pc_heap child st.2)).
End commit.

(** ** Reading *)
Record PCView := mkPCView { pv_heap : HeapView; pv_bth : BTHView; pv_nid : Z }.
Definition OpenPC (n : NDB) (nid : Z) : result PCView :=
  h ← OpenHeap n nid;
  if negb (hv_clientSig h =? HeapSigPC) then invariant "2.3.3" "bClientSig" "got 0x%02x want 0x%02x" [hv_clientSig h; HeapSigPC] else
  bth ← V2OpenBTH h (hv_root h);
  mret (mkPCView h bth nid).
Definition PCView_IDs (v : PCView) : result (list Z) :=
  ents ← BTHView_Entries (pv_bth v);
  mapM (λ e, rd 2 0 (kv_key e)) ents.
Definition resolve (v : PCView) (typ hnid : Z) : result bytes :=
  if typ =? PtypObject then
    if IsHID hnid || negb (NIDTypeOf hnid =? V2NIDTypeLTP)
    then invariant "2.3.3" "dwValueHnid" "PtypObject HNID 0x%x must be NID_TYPE_LTP (MS-PST %s)" [hnid] else HeapView_Read (pv_heap v) hnid
  else if ptypInline typ then mret (take (Z.to_nat (ptypFixedSize typ)) (le_enc 4 hnid))
  else HeapView_Read (pv_heap v) hnid.
Definition PCView_Get (v : PCView) (id : Z) : result (Z * bytes) :=
  rec ← BTHView_Lookup (pv_bth v) (le_enc 2 id);
  if blen rec <? PCLeafValueSize then invariant "2.3.3" "PCBTH" "record %d bytes" [blen rec] else
  typ ← rd 2 0 rec; hnid ← rd 4 2 rec;
  data ← resolve v typ hnid;
  mret (typ, data).
Definition wrong_type {A} (msg : string) (typ : Z) : result A := invalidArg "wPropType" msg [typ].
Definition PCView_GetString (v : PCView) (id : Z) : result bytes :=
  '(typ, data) ← PCView_Get v id;
  if negb (typ =? PtypString) then wrong_type "0x%04x is not PtypString" typ else mret (decodeUnicodePC data).
Definition PCView_GetBinary (v : PCView) (id : Z) : result bytes :=
  '(typ, data) ← PCView_Get v id;
  if negb (typ =? PtypBinary) then wrong_type "0x%04x is not PtypBinary" typ else mret data.
Definition PCView_GetInt32 (v : PCView) (id : Z) : result Z :=
  '(typ, data) ← PCView_Get v id;
  if negb (typ =? PtypInteger32) || (blen data <? 4) then wrong_type "0x%04x is not PtypInteger32" typ else i32 <$> rd 4 0 data.
Definition PCView_GetBool (v : PCView) (id : Z) : result bool :=
  '(typ, data) ← PCView_Get v id;
  if negb (typ =? PtypBoolean) then wrong_type "0x%04x is not PtypBoolean" typ else
  match data with
  | [] => mret false
  | [b] => mret (negb (b =? 0))
  | _ => w ← rd 2 0 data; mret (negb (w =? 0))
  end.
Definition PCView_GetTime (v : PCView) (id : Z) : result Z :=
  '(typ, data) ← PCView_Get v id;
  if negb (typ =? PtypTime) || (blen data <? 8) then wrong_type "0x%04x is not PtypTime" typ else rd 8 0 data.
Definition PCView_GetMVString (v : PCView) (id : Z) : result (list bytes) :=
  '(typ, data) ← PCView_Get v id;
  if negb (typ =? PtypMVString) then wrong_type "0x%04x is not PtypMVString" typ else
  items ← decodeMVVar data; mret (map decodeUnicodePC items).
Definition PCView_GetMVBinary (v : PCView) (id : Z) : result (list bytes) :=
  '(typ, data) ← PCView_Get v id;
  if negb (typ =? PtypMVBinary) then wrong_type "0x%04x is not PtypMVBinary" typ else decodeMVVar data.
Fixpoint load_each (v : PCView) (ids : list Z) : ST PC unit :=
  match ids with
  | [] => mret tt
  | id :: ids => do td <- lift (PCView_Get v id); PC_Add id td.1 td.2 ;; load_each v ids
  end.
Definition PCView_Load (v : PCView) : result PC :=
  ids ← PCView_IDs v;
  match load_each v ids NewPC with
  | (p, Ok _) => Ok p
  | (_, Err e) => Err e
  | (_, Panic) => Panic
  end.
