(* ===== verification/V2PCTree.v ===== *)
(** * Writer v2: property contexts, written and read back *)
From S2P Require Import Prelude Ids State Fields Text V2Base V2Disk V2Entries V2Blocks V2Header V2Bitmap V2Store V2Journal V2Alloc V2Ndb V2Txn V2Catalog V2Extents V2Data V2DataTree V2Subnode V2SubTree V2Heap V2HeapPage V2HeapBuild V2HeapTree V2BTH V2BTHTree V2PC.

(** ** Values *)
Lemma blen_units us : blen (concat (map (le_enc 2) us)) = 2 * blen us.
Proof. induction us as [|u us IH]; [done|]. cbn [map concat]. rewrite blen_app, blen_cons, blen_le_enc, IH. lia. Qed.
(** A string is read as its UTF-8 repaired; text stays text. *)
Lemma unicode_pc_back s : bytes_ok s → decodeUnicodePC (encodeUnicodePC s) = of_runes (to_runes s).
Proof.
  intros Hs. pose proof (runes_scalar s Hs 0) as Hsc. fold to_runes in Hsc. set (us := utf16_encode (to_runes s)).
  assert (encodeUnicodePC s = concat (map (le_enc 2) us) ++ [0; 0]) as E by (unfold encodeUnicodePC; fold us; by rewrite map_app, concat_app).
  unfold decodeUnicodePC. rewrite E, blen_app. set (b := concat (map (le_enc 2) us)) in *. change (blen [0; 0]) with 2. pose proof (blen_nonneg b). cbv zeta.
  rewrite (proj2 (Z.leb_le _ _)) by lia.
  rewrite !lookup_app_r by (unfold blen; lia).
  replace (Z.to_nat (blen b + 2 - 1) - length b)%nat with 1%nat by (unfold blen; lia). replace (Z.to_nat (blen b + 2 - 2) - length b)%nat with 0%nat by (unfold blen; lia).
  cbn [lookup list_lookup default from_option id Z.eqb andb]. replace (Z.to_nat (blen b + 2 - 2)) with (length b) by (unfold blen; lia).
  rewrite take_app_length. unfold b. rewrite words16_enc by (by apply utf16_words). unfold us. by rewrite utf16_roundtrip.
Qed.
Lemma mv_items_back items : ∀ pre off post, blen pre = off → Forall (λ it : bytes, blen it < 2 ^ 32) items →
  mv_items (length items) off (pre ++ concat (map (λ it, le_enc 4 (blen it) ++ it) items) ++ post) = Ok items.
Proof.
  induction items as [|it items IH]; intros pre off post Hp Hl; [done|]. apply Forall_cons in Hl as [Hit Hl]. pose proof (blen_nonneg pre). pose proof (blen_nonneg it).
  cbn [length mv_items map concat]. set (tl := concat _). pose proof (blen_nonneg tl). pose proof (blen_nonneg post).
  rewrite <- !app_assoc. rewrite (proj2 (Z.ltb_ge _ _)) by (rewrite !blen_app, blen_le_enc; lia).
  rewrite (rd_field pre _ 4 (blen it) off) by (done || unfold fits; lia). rewrite bind_Ok. cbv zeta.
  rewrite (proj2 (Z.ltb_ge _ _)) by (rewrite !blen_app, blen_le_enc; lia). rewrite slice_Ok by (rewrite ?blen_app, ?blen_le_enc; lia).
  rewrite bind_Ok. replace (off + 4 + blen it - (off + 4)) with (blen it) by lia.
  assert (sub (pre ++ le_enc 4 (blen it) ++ it ++ tl ++ post) (off + 4) (blen it) = it) as ->.
  { rewrite app_assoc. rewrite sub_app_r by (rewrite ?blen_app, ?blen_le_enc; lia). rewrite sub_app_l; [|rewrite ?blen_app, ?blen_le_enc; lia..].
    apply sub_all; rewrite ?blen_app, ?blen_le_enc; lia. }
  specialize (IH (pre ++ le_enc 4 (blen it) ++ it) (off + 4 + blen it) post). rewrite <- !app_assoc in IH. fold tl in IH.
  rewrite IH; [by rewrite bind_Ok|rewrite !blen_app, blen_le_enc; lia|done].
Qed.
Lemma mv_var_back items : Forall (λ it : bytes, blen it < 2 ^ 32) items → blen items < 2 ^ 32 → decodeMVVar (encodeMVVar items) = Ok items.
Proof.
  intros Hl Hn. pose proof (blen_nonneg items). unfold decodeMVVar, encodeMVVar. set (tl := concat _). pose proof (blen_nonneg tl).
  rewrite (proj2 (Z.ltb_ge _ _)) by (rewrite blen_app, blen_le_enc; lia).
  assert (rd 4 0 (le_enc 4 (blen items) ++ tl) = Ok (blen items)) as -> by (apply (rd_field [] tl 4 (blen items) 0); [done|unfold fits; lia]).
  rewrite bind_Ok. unfold blen at 1. rewrite Nat2Z.id.
  pose proof (mv_items_back items (le_enc 4 (blen items)) 4 []) as E. rewrite app_nil_r in E. by apply E.
Qed.

(** ** Placing a value *)
(** What a property of type [typ] and value [hnid] is read as: through the heap,
    or from a subnode of the heap that the database holds already. *)
Definition resolves (h : Heap) (ps : list (list Z * bytes)) (typ hnid : Z) (d : bytes) : Prop :=
  (typ = PtypObject ∧ IsHID hnid = false ∧ NIDTypeOf hnid = V2NIDTypeLTP ∧ heap_get h hnid = Some d) ∨
  (typ ≠ PtypObject ∧ ptypInline typ = true ∧ d = take (Z.to_nat (ptypFixedSize typ)) (le_enc 4 hnid)) ∨
  (typ ≠ PtypObject ∧ ptypInline typ = false ∧ fits 32 hnid ∧ heap_get h hnid = Some d) ∨
  (typ = PtypBinary ∧ ∃ i s p, hb_subs h !! i = Some s ∧ ps !! i = Some p ∧ hs_nid s = hnid ∧ d = p.2).
Lemma resolves_more m h h' ps more typ hnid d : heap_more m h h' → length ps = length (hb_subs h) → fits 32 hnid → resolves h ps typ hnid d → resolves h' (ps ++ more) typ hnid d.
Proof.
  intros M Hl Hf [(H1 & H2 & H3 & H4)|[?|[(H1 & H2 & H3 & H4)|(H1 & i & s & p & Hs & Hp & Hd)]]].
  - left. split; [done|]. split; [done|]. split; [done|]. by apply (hm_keeps _ _ _ M).
  - right. by left.
  - right. right. left. split; [done|]. split; [done|]. split; [done|]. by apply (hm_keeps _ _ _ M).
  - right. right. right. split; [done|]. exists i, s, p. destruct (hm_subs _ _ _ M) as (more' & -> & _). split; [by apply lookup_app_l_Some|]. split; [by apply lookup_app_l_Some|done].
Qed.
Lemma resolve_Ok `{!SortSlice} j h ps v typ hnid d : view_of j h ps (pv_heap v) → resolves h ps typ hnid d → resolve v typ hnid = Ok d.
Proof.
  intros V. unfold resolve. intros [(-> & H2 & H3 & H4)|[(H1 & H2 & ->)|[(H1 & H2 & H3 & H4)|(-> & i & s & p & Hs & Hp & <- & ->)]]].
  - rewrite H2, H3, !Z.eqb_refl. cbn [orb negb]. by apply (view_reads j h ps).
  - rewrite (proj2 (Z.eqb_neq _ _)), H2 by done. done.
  - rewrite (proj2 (Z.eqb_neq _ _)), H2 by done. by apply (view_reads j h ps).
  - change (PtypBinary =? PtypObject) with false. change (ptypInline PtypBinary) with false. cbv iota. by apply (view_sub j h ps _ i).
Qed.
(** The bytes a placed property is read as. *)
Definition stored_as (typ : Z) (data : bytes) : bytes :=
  if negb (typ =? PtypObject) && ptypInline typ then take (Z.to_nat (ptypFixedSize typ)) (le_enc 4 (le_dec data)) else data.
Definition inline_len (data : bytes) : Prop := blen data = 0 ∨ blen data = 1 ∨ blen data = 2 ∨ blen data = 4.
(** A property that can be placed, with what it is read as. *)
Definition prop_holds (h : Heap) (ps : list (list Z * bytes)) (pr : pcProp) (d : bytes) : Prop :=
  fits 16 (pp_typ pr) ∧
  ((pp_hnid pr = 0 ∧ bytes_ok (pp_data pr) ∧ blen (pp_data pr) ≤ MaxTotal ∧ (pp_typ pr ≠ PtypObject → ptypInline (pp_typ pr) = true → inline_len (pp_data pr)) ∧
    d = stored_as (pp_typ pr) (pp_data pr)) ∨
   (pp_hnid pr ≠ 0 ∧ fits 32 (pp_hnid pr) ∧ resolves h ps (pp_typ pr) (pp_hnid pr) d)).
Lemma prop_holds_more m h h' ps more pr d : heap_more m h h' → length ps = length (hb_subs h) → prop_holds h ps pr d → prop_holds h' (ps ++ more) pr d.
Proof. intros M Hl [Ht [?|(H1 & H2 & H3)]]; (split; [done|]); [by left|right]. split; [done|]. split; [done|]. by apply (resolves_more m h). Qed.
Lemma newSub_ltp h d : heap_ok h → heap_space h 1 → ∃ h' k, newSub d h = (h', Ok k) ∧ heap_step 0 h h' k d ∧ IsHID k = false ∧ NIDTypeOf k = V2NIDTypeLTP.
Proof.
  intros Hok [H1 H2]. pose proof (ho_next h Hok). destruct (newSub_Ok h d 0 Hok) as (h' & k & E & S & Hk); [split; lia|]. exists h', k. split; [done|]. split; [done|]. split; [done|].
  unfold newSubChunked in E. rewrite st_get_bind in E. cbv zeta in E. rewrite st_modify_bind in E. injection E as _ <-. rewrite sub_nid by lia.
  unfold NIDTypeOf. rewrite land31. change V2NIDTypeLTP with 31. divlia.
Qed.
Lemma place_Ok h ps pr d : heap_ok h → heap_space h 1 → prop_holds h ps pr d → length ps = length (hb_subs h) →
  ∃ h' hnid more, place pr h = (h', Ok hnid) ∧ heap_more 1 h h' ∧ fits 32 hnid ∧ hb_subs h' = hb_subs h ++ more ∧
    resolves h' (ps ++ map (λ s, ([], hs_data s)) more) (pp_typ pr) hnid d.
Proof.
  intros Hok Hs [Ht [(Hz & Hb & Hm & Hi & ->)|(Hz & Hf & Hr)]] Hl; unfold place.
  2:{ rewrite (proj2 (Z.eqb_neq _ _)) by done. exists h, (pp_hnid pr), []. cbn [map]. rewrite !app_nil_r. split; [done|]. split; [eapply heap_more_mono, heap_more_refl; [lia|done]|]. done. }
  rewrite Hz. change (negb (0 =? 0)) with false. cbv iota zeta. unfold stored_as. destruct (Z.eqb_spec (pp_typ pr) PtypObject) as [Ho|Ho]; cbn [negb andb].
  { destruct (newSub_ltp h (pp_data pr) Hok Hs) as (h' & k & E & S & Hk & Hn). destruct (store_more 0 h h' k _ S) as [M G]; [by apply plain_mem_sub|].
    exists h', k, [mkHeapSub k (pp_data pr) 0 0 0]. split; [done|]. split; [done|]. split; [apply S|]. split; [rewrite (st_subs _ _ _ _ _ S), Hk; done|]. by left. }
  destruct (ptypInline (pp_typ pr)) eqn:Ein.
  - exists h, (le_dec (pp_data pr)), []. cbn [map]. rewrite !app_nil_r. specialize (Hi Ho eq_refl).
    assert ((blen (pp_data pr) =? 0) || (blen (pp_data pr) =? 1) || (blen (pp_data pr) =? 2) || (blen (pp_data pr) =? 4) = true) as ->.
    { rewrite !orb_true_iff, !Z.eqb_eq. unfold inline_len in Hi. lia. }
    split; [done|]. split; [eapply heap_more_mono, heap_more_refl; [lia|done]|]. split; [|split; [done|]].
    + pose proof (le_dec_bound _ Hb). unfold fits. assert (256 ^ blen (pp_data pr) ≤ 256 ^ 4) by (apply Z.pow_le_mono_r; unfold inline_len in Hi; lia). lia.
    + right. left. done.
  - destruct (alloc_more h (pp_data pr) Hok Hs Hb Hm) as (h' & k & E & M & Hf & Hg & _ & _).
    destruct (hm_subs _ _ _ M) as (more & Em & _). exists h', k, more. split; [done|]. split; [done|]. split; [done|]. split; [done|]. right. right. by left.
Qed.

(** ** Building *)
Definition sub_values (more : list heapSub) : list (list Z * bytes) := map (λ s, ([], hs_data s)) more.
Definition rec_holds (props : gmap Z pcProp) (h : Heap) (ps : list (list Z * bytes)) (x : Z * bytes) (e : bthKV) : Prop :=
  ∃ pr hnid, props !! x.1 = Some pr ∧ e = mkKV (le_enc 2 x.1) (pc_record (pp_typ pr) hnid) ∧ fits 32 hnid ∧ fits 16 (pp_typ pr) ∧ resolves h ps (pp_typ pr) hnid x.2.
Lemma rec_holds_more props m h h' ps more x e : heap_more m h h' → length ps = length (hb_subs h) → rec_holds props h ps x e → rec_holds props h' (ps ++ more) x e.
Proof. intros M Hl (pr & hnid & H1 & H2 & H3 & H4 & H5). exists pr, hnid. split; [done|]. split; [done|]. split; [done|]. split; [done|]. by apply (resolves_more m h). Qed.
Lemma id_key_inj id id' : fits 16 id → fits 16 id' → le_enc 2 id = le_enc 2 id' → id = id'.
Proof. intros Hi Hi' E. rewrite <- (le_dec_enc_fits 2 id), <- (le_dec_enc_fits 2 id'), E by done. done. Qed.
Lemma blen_record typ hnid : blen (pc_record typ hnid) = 6.
Proof. unfold pc_record. by rewrite blen_app, !blen_le_enc. Qed.
Lemma insert_record b id typ hnid : bh_keySize b = 2 → bh_valSize b = 6 → (∀ e, e ∈ bh_ents b → kv_key e ≠ le_enc 2 id) →
  BTH_Insert (le_enc 2 id) (pc_record typ hnid) b = Ok (mkBTH 2 6 (bh_ents b ++ [mkKV (le_enc 2 id) (pc_record typ hnid)])).
Proof.
  intros Hk Hv Hn. unfold BTH_Insert. rewrite Hk, Hv, blen_le_enc, blen_record. cbn [Z.eqb negb]. rewrite Z.eqb_refl. cbn [negb].
  destruct (existsb _ _) eqn:E; [|done]. apply existsb_exists in E as (e & Hin & He%bool_decide_eq_true). apply list_elem_of_In in Hin. by destruct (Hn e Hin).
Qed.
Lemma place_each_Ok props ids : ∀ b h ps, heap_ok h → heap_space h (blen ids) → length ps = length (hb_subs h) → NoDup (map fst ids) →
  Forall (λ x : Z * bytes, fits 16 x.1 ∧ ∃ pr, props !! x.1 = Some pr ∧ prop_holds h ps pr x.2) ids → bh_keySize b = 2 → bh_valSize b = 6 →
  (∀ e x, e ∈ bh_ents b → x ∈ ids → kv_key e ≠ le_enc 2 x.1) →
  ∃ h' recs more, place_each props (map fst ids) b h = (h', Ok (mkBTH 2 6 (bh_ents b ++ recs))) ∧ heap_more (blen ids) h h' ∧
    hb_subs h' = hb_subs h ++ more ∧ Forall2 (rec_holds props h' (ps ++ sub_values more)) ids recs.
Proof.
  induction ids as [|x ids IH]; intros b h ps Hok Hs Hl Hd Hp Hk Hv Hn.
  { exists h, [], []. unfold sub_values. cbn [map place_each]. rewrite !app_nil_r. split; [by destruct b; cbn in *; subst|]. split; [by apply heap_more_refl|]. split; [done|constructor]. }
  apply Forall_cons in Hp as [(Hf & pr & Hpr & Hh) Hp]. cbn [map] in Hd. apply NoDup_cons in Hd as [Hnx Hd]. rewrite blen_cons in *. pose proof (blen_nonneg ids).
  destruct (place_Ok h ps pr x.2 Hok) as (h1 & hnid & more & E1 & M1 & Hfh & Hsub & Hres); [by eapply heap_space_mono, Hs; lia|done|done|].
  cbn [map place_each]. rewrite Hpr. cbn [default from_option id]. erewrite st_bind_Ok by exact E1.
  rewrite insert_record; [|done|done|intros e He; apply Hn; [done|by left]]. erewrite st_bind_Ok by reflexivity.
  set (e := mkKV (le_enc 2 x.1) (pc_record (pp_typ pr) hnid)). set (ps1 := ps ++ sub_values more).
  assert (length ps1 = length (hb_subs h1)) as Hl1 by (unfold ps1, sub_values; rewrite Hsub, !length_app, length_map; lia).
  destruct (IH (mkBTH 2 6 (bh_ents b ++ [e])) h1 ps1 (hm_ok _ _ _ M1)) as (h2 & recs & more2 & E2 & M2 & Hsub2 & Hrec); try done.
  { by apply (heap_more_space 1 _ h). }
  { eapply Forall_impl; [exact Hp|]. intros y (Hy & pr' & Hpr' & Hh'). split; [done|]. exists pr'. split; [done|]. by apply (prop_holds_more 1 h). }
  { cbn [bh_ents]. intros e' y [He'|He'%list_elem_of_singleton]%elem_of_app Hy; [apply Hn; [done|by right]|]. subst e'. intros Ek. cbn [kv_key e] in Ek.
    rewrite Forall_forall in Hp. destruct (Hp y Hy) as [Hfy _]. apply id_key_inj in Ek; [|done|done]. apply Hnx. rewrite Ek. by apply (list_elem_of_fmap_2 fst). }
  exists h2, (e :: recs), (more ++ more2). cbn [bh_ents] in E2. rewrite <- app_assoc in E2. split; [exact E2|]. split; [by apply (heap_more_trans 1 _ _ h1)|].
  split; [by rewrite Hsub2, Hsub, app_assoc|]. assert (ps ++ sub_values (more ++ more2) = ps1 ++ sub_values more2) as -> by (unfold ps1, sub_values; by rewrite map_app, app_assoc).
  constructor; [|done]. apply (rec_holds_more props (blen ids) h1); [done|done|]. exists pr, hnid. destruct Hh as [Ht _]. split; [done|]. split; [done|]. split; [done|]. by split.
Qed.

(** ** A context is a map *)
(** The context [p] maps each ID to the type and bytes that [m] says; [ps] are the
    values of the subnodes its heap has from streams. *)
Record pc_reads (p : PC) (ps : list (list Z * bytes)) (m : gmap Z (Z * bytes)) : Prop := mkPcReads {
  pr_heap : heap_ok (pc_heap p); pr_sig : hb_clientSig (pc_heap p) = HeapSigPC; pr_subs : length ps = length (hb_subs (pc_heap p));
  pr_nodup : NoDup (pc_order p); pr_order : ∀ id, id ∈ pc_order p ↔ is_Some (pc_props p !! id);
  pr_dom : ∀ id, is_Some (m !! id) ↔ is_Some (pc_props p !! id);
  pr_props : ∀ id pr td, pc_props p !! id = Some pr → m !! id = Some td → fits 16 id ∧ td.1 = pp_typ pr ∧ prop_holds (pc_heap p) ps pr td.2 }.
Lemma put_prop_reads p ps m id pr d : pc_reads p ps m → fits 16 id → prop_holds (pc_heap p) ps pr d → pc_reads (put_prop id pr p) ps (<[id := (pp_typ pr, d)]> m).
Proof.
  intros [H1 H2 H3 H4 H5 H6 H7] Hid Hp. split; cbn [put_prop pc_heap pc_props pc_order]; try done.
  - destruct (pc_props p !! id) eqn:E; [done|]. apply NoDup_app. split; [done|]. split; [|apply NoDup_singleton].
    intros x Hx ->%list_elem_of_singleton. apply H5 in Hx as [? ?]. congruence.
  - intros x. destruct (decide (x = id)) as [->|Hne].
    + rewrite lookup_insert_eq. split; [by eexists|]. intros _. destruct (pc_props p !! id) eqn:E; [apply H5; by eexists|]. apply elem_of_app. right. by left.
    + rewrite lookup_insert_ne by done. destruct (pc_props p !! id); [apply H5|]. rewrite elem_of_app, H5, list_elem_of_singleton. naive_solver.
  - intros x. destruct (decide (x = id)) as [->|Hne]; [rewrite !lookup_insert_eq; split; by eexists|]. rewrite !lookup_insert_ne by done. apply H6.
  - intros x pr' td. destruct (decide (x = id)) as [->|Hne]; [rewrite !lookup_insert_eq; by intros [= <-] [= <-]|]. rewrite !lookup_insert_ne by done. apply H7.
Qed.
(** A property set from bytes that can be stored. *)
Definition settable (typ : Z) (data : bytes) : Prop :=
  fits 16 typ ∧ bytes_ok data ∧ blen data ≤ MaxTotal ∧ (typ ≠ PtypObject → ptypInline typ = true → inline_len data).
Lemma settable_holds h ps typ data : settable typ data → prop_holds h ps (mkPcProp typ data 0) (stored_as typ data).
Proof. intros (H1 & H2 & H3 & H4). split; [done|]. left. by split_and!. Qed.
Lemma PC_Add_Ok p ps m id typ data : pc_reads p ps m → fits 16 id → settable typ data → m !! id = None →
  ∃ p', PC_Add id typ data p = (p', Ok tt) ∧ pc_reads p' ps (<[id := (typ, stored_as typ data)]> m).
Proof.
  intros R Hid Hs Hm. exists (put_prop id (mkPcProp typ data 0) p). split; [|by apply put_prop_reads; [| |apply settable_holds]].
  unfold PC_Add. rewrite st_get_bind. destruct (pc_props p !! id) eqn:Ep; [|done]. assert (is_Some (m !! id)) as [? ?]; [|congruence]. apply (pr_dom _ _ _ R). by eexists.
Qed.
(** C17: The setters are the operations of a map: [Set] replaces, [Add] refuses an ID
    that is there, [Delete] removes. *)
Theorem pc_is_map p ps m id typ data : pc_reads p ps m → fits 16 id → settable typ data →
  (∃ p', PC_Set id typ data p = (p', Ok tt) ∧ pc_reads p' ps (<[id := (typ, stored_as typ data)]> m)) ∧
  (match m !! id with
   | Some _ => PC_Add id typ data p = (p, invalidArg "propID" "duplicate property 0x%04x" [id])
   | None => ∃ p', PC_Add id typ data p = (p', Ok tt) ∧ pc_reads p' ps (<[id := (typ, stored_as typ data)]> m)
   end) ∧
  (∃ p', PC_Delete id p = (p', Ok tt) ∧ pc_reads p' ps (delete id m)).
Proof.
  intros R Hid Hs. pose proof (put_prop_reads p ps m id (mkPcProp typ data 0) _ R Hid (settable_holds _ _ _ _ Hs)) as Hput. split; [|split].
  - eexists. split; [reflexivity|exact Hput].
  - destruct (m !! id) eqn:Em; [|by apply PC_Add_Ok]. unfold PC_Add. rewrite st_get_bind.
    assert (is_Some (pc_props p !! id)) as [pr ->] by (apply (pr_dom _ _ _ R); by eexists). done.
  - destruct R as [H1 H2 H3 H4 H5 H6 H7]. unfold PC_Delete. eexists. split; [reflexivity|]. destruct (pc_props p !! id) as [pr|] eqn:Ep.
    + split; cbn [pc_heap pc_props pc_order]; try done.
      * by apply NoDup_filter.
      * intros x. rewrite list_elem_of_filter, H5. destruct (decide (x = id)) as [->|Hne]; [rewrite lookup_delete_eq|rewrite lookup_delete_ne by done]; [split; [by intros [? _]|by intros [? ?]]|naive_solver].
      * intros x. destruct (decide (x = id)) as [->|Hne]; [rewrite !lookup_delete_eq|rewrite !lookup_delete_ne by done; apply H6]. by split; intros [? ?].
      * intros x pr' td. destruct (decide (x = id)) as [->|Hne]; [by rewrite lookup_delete_eq|rewrite !lookup_delete_ne by done; apply H7].
    + assert (m !! id = None) as Em. { destruct (m !! id) eqn:Em; [|done]. assert (is_Some (pc_props p !! id)) as [? ?] by (apply H6; by eexists). congruence. }
      rewrite delete_id by done. by split.
Qed.

(** ** Written and read back *)
(** The view gives every property of [m], and no other. *)
Definition view_maps (v : PCView) (m : gmap Z (Z * bytes)) : Prop :=
  (∃ ids, PCView_IDs v = Ok ids ∧ StronglySorted Z.lt ids ∧ ∀ id, id ∈ ids ↔ is_Some (m !! id)) ∧
  ∀ id, fits 16 id → PCView_Get v id = match m !! id with Some td => Ok td | None => key_not_found end.
(** Allocations enough for the values and the records. *)
Definition pc_space (p : PC) : Z := 3 * blen (pc_order p) + 1.
(** The properties in the order they are placed, with what they are read as. *)
Definition placed (p : PC) (m : gmap Z (Z * bytes)) : list (Z * bytes) :=
  map (λ id, (id, (default (0, []) (m !! id)).2)) (insertion_sort Z.ltb (pc_order p)).
Lemma sorted_ids p ps m : pc_reads p ps m → insertion_sort Z.ltb (pc_order p) ≡ₚ pc_order p ∧ StronglySorted Z.lt (insertion_sort Z.ltb (pc_order p)).
Proof.
  intros R. destruct (insertion_sort_ok Z.ltb id (λ _, True) ltac:(done) (pc_order p)) as [Hp Hs].
  - by apply Forall_forall.
  - rewrite map_id. apply R.
  - rewrite map_id in Hs. by split.
Qed.
Lemma placed_ids p m : map fst (placed p m) = insertion_sort Z.ltb (pc_order p).
Proof. unfold placed. rewrite map_map. cbn [fst]. apply map_id. Qed.
Lemma placed_in p ps m x : pc_reads p ps m → x ∈ placed p m →
  fits 16 x.1 ∧ ∃ pr td, pc_props p !! x.1 = Some pr ∧ m !! x.1 = Some td ∧ td = (pp_typ pr, x.2) ∧ prop_holds (pc_heap p) ps pr x.2.
Proof.
  intros R (id & -> & Hid)%list_elem_of_fmap. destruct (sorted_ids p ps m R) as [Hp _]. rewrite Hp in Hid. cbn [fst snd].
  apply (pr_order _ _ _ R) in Hid as [pr Hpr]. assert (is_Some (m !! id)) as [td Htd] by (apply (pr_dom _ _ _ R); by eexists).
  destruct (pr_props _ _ _ R id pr td Hpr Htd) as (Hf & Ht & Hh). split; [done|]. exists pr, td. rewrite Htd. cbn [default from_option Datatypes.id]. rewrite <- Ht. by destruct td.
Qed.
Lemma in_placed p ps m id : pc_reads p ps m → is_Some (m !! id) → ∃ d, (id, d) ∈ placed p m.
Proof.
  intros R Hm. destruct (sorted_ids p ps m R) as [Hp _]. exists (default (0, []) (m !! id)).2. apply list_elem_of_fmap. exists id. split; [done|]. rewrite Hp.
  by apply (pr_order _ _ _ R), (pr_dom _ _ _ R).
Qed.
(** The records of the properties [xs]. *)
Definition recs_of (p : PC) (h : Heap) (ps : list (list Z * bytes)) (m : gmap Z (Z * bytes)) (recs : list bthKV) : Prop :=
  Forall2 (rec_holds (pc_props p) h ps) (placed p m) recs.
Lemma recs_ok p ps m h ps' recs : pc_reads p ps m → recs_of p h ps' m recs → bth_ok (mkBTH 2 6 recs).
Proof.
  intros R Hr. destruct (sorted_ids p ps m R) as [Hp _]. split; cbn [bh_keySize bh_valSize bh_ents]; [lia|lia| |].
  - apply Forall_forall. intros e He. apply list_elem_of_lookup in He as (i & Hi). destruct (Forall2_lookup_r _ _ _ _ _ Hr Hi) as (x & Hx & pr & hnid & _ & -> & _).
    unfold entry_fine. cbn [kv_key kv_val]. split; [by rewrite blen_le_enc|]. split; [apply blen_record|]. unfold pc_record. split; [auto with pst|]. apply Forall_app. split; auto with pst.
  - assert (map kv_key recs = map (le_enc 2) (map fst (placed p m))) as ->.
    { unfold recs_of in Hr. clear -Hr. induction Hr as [|x e xs es (pr & hnid & _ & -> & _) _ IH]; [done|]. cbn [map kv_key]. by rewrite IH. }
    assert (NoDup (map fst (placed p m))) as Hd by (rewrite placed_ids, Hp; apply R).
    assert (Forall (λ x : Z * bytes, fits 16 x.1) (placed p m)) as Hf by (apply Forall_forall; intros x Hx; by apply (placed_in p ps m x R)).
    revert Hd. generalize (placed p m) Hf. clear. intros xs. induction 1 as [|x xs Hx Hxs IH]; [constructor|]. cbn [map]. intros [Hn Hd]%NoDup_cons. apply NoDup_cons. split; [|by apply IH].
    intros (y & Ey & Hy)%list_elem_of_fmap. apply list_elem_of_fmap in Hy as (z & -> & Hz). rewrite Forall_forall in Hxs. apply id_key_inj in Ey; [|done|by apply Hxs].
    apply Hn. rewrite Ey. by apply list_elem_of_fmap_2.
Qed.
(** A context as it is built: its heap [h] has the values of [ps] and the tree [b]. *)
Lemma PC_build_Ok p ps m : pc_reads p ps m → heap_space (pc_heap p) (pc_space p) →
  ∃ h1 recs more, PC_build p = (set_pc_heap h1 p, Ok tt) ∧ heap_more (pc_space p) (pc_heap p) h1 ∧ hb_subs h1 = hb_subs (pc_heap p) ++ more ∧ Forall mem_sub more ∧
    blen more ≤ pc_space p ∧ recs_of p h1 (ps ++ sub_values more) m recs ∧
    ∀ hv, reads_heap h1 hv → ∃ bv, V2OpenBTH hv (hb_root h1) = Ok bv ∧ tree_reads (mkBTH 2 6 recs) bv.
Proof.
  intros R Hs. destruct (sorted_ids p ps m R) as [Hp _]. pose proof (placed_ids p m) as Hids. unfold pc_space in *. set (xs := placed p m) in *.
  assert (blen xs = blen (pc_order p)) as Hl by (unfold blen; rewrite <- (length_map fst xs), Hids, Hp; done). pose proof (blen_nonneg (pc_order p)).
  destruct (place_each_Ok (pc_props p) xs (mkBTH 2 6 []) (pc_heap p) ps) as (h1 & recs & more & E1 & M1 & S1 & F1); try apply R; try done.
  { rewrite Hl. eapply heap_space_mono, Hs. lia. }
  { rewrite Hids, Hp. apply R. }
  { apply Forall_forall. intros x Hx. destruct (placed_in p ps m x R Hx) as (Hf & pr & td & H1 & _ & _ & H2). split; [done|]. by exists pr. }
  { intros e x He. by apply not_elem_of_nil in He. }
  cbn [bh_ents app] in E1. fold (recs_of p h1 (ps ++ sub_values more) m recs) in F1. pose proof (recs_ok _ _ _ _ _ _ R F1) as Hb. set (b := mkBTH 2 6 recs) in *.
  assert (bth_space b ≤ 2 * blen (pc_order p) + 1) as Hsp.
  { destruct (leafCap_ok b Hb) as [Hc _]. pose proof (chunks_count (leafCap b) recs ltac:(lia)) as Hc'. unfold bth_space. change (bh_ents b) with recs.
    assert (blen recs = blen xs) as Hrl by (unfold blen; by rewrite (Forall2_length _ _ _ F1)). rewrite Hrl, Hl in Hc'. revert Hc Hc'. generalize (leafCap b) (blen (chunks (leafCap b) recs)). nia. }
  destruct (BTH_Build_Ok b h1 Hb (hm_ok _ _ _ M1)) as (h2 & hid & lv & root & E2 & M2 & Hf & Hz & Hr & G & Hlv & Hfr & Hn).
  { apply (heap_more_space (blen xs) _ (pc_heap p)); [done|]. eapply heap_space_mono, Hs. lia. }
  destruct (hm_subs _ _ _ M2) as (more2 & S2 & F2 & L2). destruct (hm_subs _ _ _ M1) as (more1 & S1' & F1' & L1). rewrite S1 in S1'. apply app_inv_head in S1' as <-.
  exists h2, recs, (more ++ more2). split; [|split; [|split; [by rewrite S2, S1, app_assoc|split; [by apply Forall_app|split; [rewrite blen_app; lia|split]]]]].
  - unfold PC_build. rewrite st_get_bind. unfold on_pc_heap, zoom, build_heap. erewrite st_bind_Ok by reflexivity. rewrite <- Hids. erewrite st_bind_Ok by exact E1. by erewrite st_bind_Ok by exact E2.
  - eapply heap_more_mono; [|by apply (heap_more_trans (blen xs) (bth_space b) _ h1)]. lia.
  - assert (ps ++ sub_values (more ++ more2) = (ps ++ sub_values more) ++ sub_values more2) as -> by (unfold sub_values; by rewrite map_app, app_assoc).
    eapply Forall2_impl; [exact F1|]. intros x e. apply (rec_holds_more _ (bth_space b) h1); [done|]. unfold sub_values. rewrite S1, !length_app, length_map, (pr_subs _ _ _ R). done.
  - intros hv Hv. rewrite Hr. by apply (built_tree_reads b h2 hid lv root).
Qed.
(** The records, as they are listed and looked up. *)
Lemma recs_get p ps m h ps' recs hv bv nid j `{!SortSlice} : pc_reads p ps m → recs_of p h ps' m recs → view_of j h ps' hv → tree_reads (mkBTH 2 6 recs) bv →
  ∀ id, fits 16 id → PCView_Get (mkPCView hv bv nid) id = match m !! id with Some td => Ok td | None => key_not_found end.
Proof.
  intros R Hr V [_ Hl] id Hid. unfold PCView_Get. cbn [pv_bth]. rewrite Hl by (auto with pst || by rewrite blen_le_enc). cbn [bh_ents].
  pose proof (bo_nodup _ (recs_ok _ _ _ _ _ _ R Hr)) as Hd. cbn [bh_ents] in Hd. destruct (m !! id) as [td|] eqn:Em.
  - destruct (in_placed p ps m id R) as [d Hx]; [by eexists|]. destruct (placed_in p ps m _ R Hx) as (_ & pr & td' & Hpr & Htd & E & _). cbn [fst snd] in *. rewrite Em in Htd. injection Htd as <-.
    apply list_elem_of_lookup in Hx as (i & Hi). destruct (Forall2_lookup_l _ _ _ _ _ Hr Hi) as (e & He & pr' & hnid & Hpr' & -> & Hfh & Hft & Hres). cbn [fst snd] in *.
    rewrite Hpr in Hpr'. injection Hpr' as <-. assert (kv_find (le_enc 2 id) recs = Some (pc_record (pp_typ pr) hnid)) as ->.
    { apply kv_find_some; [done|]. by eapply list_elem_of_lookup_2. }
    cbn [found]. rewrite mret_Ok, bind_Ok, blen_record. change (6 <? PCLeafValueSize) with false. cbv iota.
    assert (rd 2 0 (pc_record (pp_typ pr) hnid) = Ok (pp_typ pr)) as -> by (by apply (rd_field [] (le_enc 4 hnid) 2 (pp_typ pr) 0)).
    assert (rd 4 2 (pc_record (pp_typ pr) hnid) = Ok hnid) as ->.
    { pose proof (rd_field (le_enc 2 (pp_typ pr)) [] 4 hnid 2) as E4. rewrite app_nil_r in E4. by apply E4; [rewrite blen_le_enc|]. }
    rewrite !bind_Ok. rewrite (resolve_Ok j h ps' (mkPCView hv bv nid) _ _ d V Hres), bind_Ok. by rewrite E.
  - rewrite kv_find_none; [done|]. intros e He Ek. apply list_elem_of_lookup in He as (i & Hi). destruct (Forall2_lookup_r _ _ _ _ _ Hr Hi) as (x & Hx & pr & hnid & _ & -> & _).
    cbn [kv_key] in Ek. apply list_elem_of_lookup_2 in Hx. destruct (placed_in p ps m _ R Hx) as (Hf & _ & td & _ & Htd & _). apply id_key_inj in Ek; [|done|done]. rewrite Ek in Htd. congruence.
Qed.
Lemma mapM_keys es : Forall (λ e, ∃ id, fits 16 id ∧ kv_key e = le_enc 2 id) es → mapM (λ e, rd 2 0 (kv_key e)) es = Ok (map key_num es).
Proof.
  induction 1 as [|e es (id & Hid & E) _ IH]; [done|]. change (mapM ?f (?x :: ?l)) with (y ← f x; ys ← mapM f l; mret (y :: ys)).
  rewrite IH. assert (rd 2 0 (kv_key e) = Ok id) as ->.
  { pose proof (rd_field [] [] 2 id 0) as E2. rewrite app_nil_r in E2. rewrite E. by apply E2. }
  rewrite !bind_Ok. cbn [map]. unfold key_num at 2. by rewrite E, (le_dec_enc_fits 2 id).
Qed.
Lemma recs_ids p ps m h ps' recs hv bv nid : pc_reads p ps m → recs_of p h ps' m recs → tree_reads (mkBTH 2 6 recs) bv →
  ∃ ids, PCView_IDs (mkPCView hv bv nid) = Ok ids ∧ StronglySorted Z.lt ids ∧ ∀ id, id ∈ ids ↔ is_Some (m !! id).
Proof.
  intros R Hr [He _]. pose proof (recs_ok _ _ _ _ _ _ R Hr) as Hb. destruct (sorted_ok _ Hb) as (Hp & Hs & _). cbn [bh_ents] in *.
  assert (Forall (λ e, ∃ id, fits 16 id ∧ kv_key e = le_enc 2 id ∧ is_Some (m !! id)) recs) as Hk.
  { apply Forall_forall. intros e Hin. apply list_elem_of_lookup in Hin as (i & Hi). destruct (Forall2_lookup_r _ _ _ _ _ Hr Hi) as (x & Hx & pr & hnid & _ & -> & _).
    apply list_elem_of_lookup_2 in Hx. destruct (placed_in p ps m _ R Hx) as (Hf & _ & td & _ & Htd & _). exists x.1. split; [done|]. split; [done|by eexists]. }
  exists (map key_num (sortBTH recs)). unfold PCView_IDs. cbn [pv_bth]. rewrite He, bind_Ok. split; [|split; [done|]].
  - apply mapM_keys. rewrite Hp. eapply Forall_impl; [exact Hk|]. intros e (id & Hf & E & _). by exists id.
  - intros id. change (id ∈ key_num <$> sortBTH recs ↔ is_Some (m !! id)). rewrite Hp. split.
    + intros (e & -> & Hin)%list_elem_of_fmap. rewrite Forall_forall in Hk. destruct (Hk e Hin) as (id & Hf & E & Hm). unfold key_num. by rewrite E, (le_dec_enc_fits 2 id).
    + intros Hm. destruct (in_placed p ps m id R Hm) as [d Hx]. destruct (placed_in p ps m _ R Hx) as (Hf & _). apply list_elem_of_lookup in Hx as (i & Hi).
      destruct (Forall2_lookup_l _ _ _ _ _ Hr Hi) as (e & He' & pr & hnid & _ & -> & _). apply list_elem_of_fmap. eexists. split; [|by eapply list_elem_of_lookup_2].
      unfold key_num. cbn [kv_key fst]. by rewrite (le_dec_enc_fits 2 id).
Qed.
Lemma resolves_with_page h ps typ hnid d : heap_ok h → resolves h ps typ hnid d → resolves (with_page h) ps typ hnid d.
Proof.
  intros Hok. destruct (with_page_ok h Hok) as (_ & _ & Hg). destruct (with_page_same h) as (Hs & _). unfold resolves. by rewrite Hs, Hg.
Qed.
Lemma recs_of_with_page p h ps m recs : heap_ok h → recs_of p h ps m recs → recs_of p (with_page h) ps m recs.
Proof.
  intros Hok Hr. eapply Forall2_impl; [exact Hr|]. intros x e (pr & hnid & H1 & H2 & H3 & H4 & H5). exists pr, hnid. do 4 (split; [done|]). by apply resolves_with_page.
Qed.
Lemma subs_ok_more j n h h1 ps more : subs_ok j n h ps → hb_subs h1 = hb_subs h ++ more → Forall mem_sub more → blen (hb_subs h) + blen more ≤ MaxSLBlockEntries * MaxSIBlockEntries →
  subs_ok j n h1 (ps ++ sub_values more).
Proof.
  intros (H1 & H2 & H3) E Hm Hl. split; [|split; [|by rewrite E, blen_app]].
  - rewrite E. apply Forall2_app; [done|]. unfold sub_values. clear -Hm. induction Hm as [|s more Hs _ IH]; [constructor|]. constructor; [by apply mem_sub_data|done].
  - apply Forall_app. split; [done|]. unfold sub_values. apply Forall_map. apply Forall_forall. intros s _. constructor.
Qed.
(** An object that is not in a subnode of the heap's own type is refused when it is read. *)
Lemma object_nid_refused v nid : NIDTypeOf nid ≠ V2NIDTypeLTP →
  resolve v PtypObject nid = invariant "2.3.3" "dwValueHnid" "PtypObject HNID 0x%x must be NID_TYPE_LTP (MS-PST %s)" [nid].
Proof. intros Hn. unfold resolve. rewrite Z.eqb_refl, (proj2 (Z.eqb_neq (NIDTypeOf nid) _)) by done. cbn [negb]. by rewrite orb_true_r. Qed.

(** ** Loading *)
Lemma le_enc_back n z : le_enc n (le_dec (le_enc n z)) = le_enc n z.
Proof. pose proof (le_enc_dec (le_enc n z) ltac:(auto with pst)) as E. by rewrite length_le_enc in E. Qed.
Lemma stored_inline typ d : ptypInline typ = true → typ ≠ PtypObject → ∀ z, d = take (Z.to_nat (ptypFixedSize typ)) (le_enc 4 z) → inline_len d ∧ stored_as typ d = d.
Proof.
  intros Hi Ho z ->. unfold stored_as. rewrite (proj2 (Z.eqb_neq _ _)), Hi by done. cbn [negb andb]. unfold ptypInline in Hi.
  assert (ptypFixedSize typ = 2 ∨ ptypFixedSize typ = 4) as [->| ->]. { revert Hi. unfold ptypFixedSize. repeat case_match; cbn; auto; done. }
  - change (Z.to_nat 2) with 2%nat. assert (take 2 (le_enc 4 z) = le_enc 2 z) as -> by done. split; [right; right; left; by rewrite blen_le_enc|].
    transitivity (le_enc 2 (le_dec (le_enc 2 z))); [done|]. apply (le_enc_back 2).
  - change (Z.to_nat 4) with 4%nat. rewrite !take_ge by (by rewrite length_le_enc). split; [right; right; right; by rewrite blen_le_enc|]. apply (le_enc_back 4).
Qed.
(** Values that a builder can hold. *)
Definition holdable (m : gmap Z (Z * bytes)) : Prop := map_Forall (λ _ td, bytes_ok td.2 ∧ blen td.2 ≤ MaxTotal) m.
Lemma reads_settable p ps m id td : pc_reads p ps m → holdable m → m !! id = Some td → fits 16 id ∧ settable td.1 td.2 ∧ stored_as td.1 td.2 = td.2.
Proof.
  intros R Hh Hm. destruct (Hh _ _ Hm) as [Hb Hl]. destruct (proj1 (pr_dom _ _ _ R id)) as [pr Hpr]; [by eexists|].
  destruct (pr_props _ _ _ R id pr td Hpr Hm) as (Hf & Ht & [Hft Hp]). split; [done|]. rewrite Ht.
  assert (pp_typ pr ≠ PtypObject → ptypInline (pp_typ pr) = true → inline_len td.2 ∧ stored_as (pp_typ pr) td.2 = td.2) as Hi.
  { intros Ho Hi. destruct Hp as [(_ & _ & _ & _ & E)|(_ & _ & [(? & _)|[(_ & _ & E)|[(_ & E & _)|(E & _)]]])]; [|done| |congruence|by rewrite E in Hi].
    - unfold stored_as in E. rewrite (proj2 (Z.eqb_neq _ _)), Hi in E by done. cbn [negb andb] in E. by apply (stored_inline _ _ Hi Ho _ E).
    - by apply (stored_inline _ _ Hi Ho _ E). }
  split; [split; [done|split; [done|split; [done|intros; by apply Hi]]]|]. destruct (decide (pp_typ pr = PtypObject)) as [Eo|Ho]; [by rewrite Eo|].
  destruct (ptypInline (pp_typ pr)) eqn:Ei; [by apply Hi|]. unfold stored_as. by rewrite Ei, andb_false_r.
Qed.
Lemma load_each_Ok v (m : gmap Z (Z * bytes)) ids : (∀ id, id ∈ ids → ∃ td, m !! id = Some td ∧ PCView_Get v id = Ok td ∧ fits 16 id ∧ settable td.1 td.2 ∧ stored_as td.1 td.2 = td.2) → NoDup ids →
  ∀ p m0, pc_reads p [] m0 → (∀ id, id ∈ ids → m0 !! id = None) →
  ∃ p' m', load_each v ids p = (p', Ok tt) ∧ pc_reads p' [] m' ∧ ∀ id, m' !! id = if decide (id ∈ ids) then m !! id else m0 !! id.
Proof.
  induction ids as [|id ids IH]; intros Hg Hd p m0 R H0.
  { exists p, m0. split; [done|]. split; [done|]. intros id. by rewrite decide_False by apply not_elem_of_nil. }
  apply NoDup_cons in Hd as [Hn Hd]. destruct (Hg id ltac:(by left)) as (td & Hm & Eg & Hf & Hs & Est). cbn [load_each]. rewrite Eg. erewrite st_bind_Ok by reflexivity.
  destruct (PC_Add_Ok p [] m0 id td.1 td.2 R Hf Hs) as (p1 & E1 & R1); [apply H0; by left|]. erewrite st_bind_Ok by exact E1. rewrite Est in R1.
  destruct (IH ltac:(intros x Hx; apply Hg; by right) Hd p1 _ R1) as (p' & m' & E & R' & Hm').
  { intros x Hx. rewrite lookup_insert_ne by (intros ->; done). apply H0. by right. }
  exists p', m'. split; [done|]. split; [done|]. intros x. rewrite Hm'. destruct (decide (x = id)) as [->|Hne].
  - rewrite decide_False, decide_True by (done || by left). rewrite lookup_insert_eq, Hm. by destruct td.
  - rewrite lookup_insert_ne by done. destruct (decide (x ∈ ids)); [by rewrite decide_True by (by right)|]. rewrite decide_False; [done|]. by intros [?|?]%elem_of_cons.
Qed.
Lemma pc_reads_new : pc_reads NewPC [] ∅.
Proof.
  split; cbn [NewPC pc_heap pc_props pc_order]; try done.
  - split; try done; try constructor; intros i q Hq; by rewrite lookup_nil in Hq.
  - constructor.
  - intros id. split; [by intros ?%not_elem_of_nil|]. change ((∅ : gmap Z pcProp) !! id) with (@None pcProp). by intros [? ?].
  - intros id. split; intros [? ?]; by rewrite lookup_empty in *.
Qed.
Lemma PCView_Load_Ok p ps m v : pc_reads p ps m → holdable m → view_maps v m → ∃ p', PCView_Load v = Ok p' ∧ pc_reads p' [] m.
Proof.
  intros R Hh [(ids & Ei & Hs & Hin) Hg]. unfold PCView_Load. rewrite Ei, bind_Ok.
  destruct (load_each_Ok v m ids) with (p := NewPC) (m0 := ∅ : gmap Z (Z * bytes)) as (p' & m' & E & R' & Hm').
  - intros id Hid. apply Hin in Hid as [td Hm]. destruct (reads_settable p ps m id td R Hh Hm) as (Hf & H1 & H2). exists td. split; [done|]. rewrite (Hg id Hf), Hm. done.
  - clear -Hs. induction Hs as [|x l _ IH Hx]; [constructor|]. apply NoDup_cons. split; [|done]. intros Hin. rewrite Forall_forall in Hx. specialize (Hx x Hin). lia.
  - apply pc_reads_new.
  - intros id _. apply lookup_empty.
  - exists p'. rewrite E. split; [done|]. replace m with m'; [done|]. apply map_eq. intros id. rewrite Hm'. destruct (decide (id ∈ ids)) as [|Hn]; [done|]. rewrite lookup_empty. symmetry.
    destruct (m !! id) eqn:Em; [|done]. destruct Hn. apply Hin. by eexists.
Qed.

(** C16: A context committed to a new node and opened again is the map it was: the IDs
    are those of the map in ascending order, every property has its type and its
    bytes, wherever [place] put them, and other IDs are not found.  Loaded into a
    builder, it is that map again. *)
Theorem pc_roundtrip `{!SortSlice} j n p ps m : pc_reads p ps m → subs_ok j n (pc_heap p) ps → heap_space (pc_heap p) (pc_space p) →
  blen (hb_subs (pc_heap p)) + pc_space p ≤ MaxSLBlockEntries * MaxSIBlockEntries → ndb_wf n → fits 63 (FileEOF (n_store n)) →
  ∃ h1, PC_build p = (set_pc_heap h1 p, Ok tt) ∧ ∀ nid, fits 32 nid → nid ≠ 0 → NIDTypeOf nid ≠ V2NIDTypeHID → n_nodes n !! nid = None → room n (heap_blocks h1) →
    ∃ n' p' v, PC_Commit nid (n, p) = ((n', p'), Ok tt) ∧ OpenPC n' nid = Ok v ∧ view_maps v m ∧ (holdable m → ∃ p2, PCView_Load v = Ok p2 ∧ pc_reads p2 [] m) ∧
      ndb_wf n' ∧ extends n n' ∧ ∃ e, n_nodes n' = <[nid := e]> (n_nodes n).
Proof.
  intros R Hsubs Hs Hc Hwf Heof. destruct (PC_build_Ok p ps m R Hs) as (h1 & recs & more & E & M & S1 & F1 & L1 & Hr & Hv). exists h1. split; [done|].
  intros nid Hf Hz Ht Hnew Hroom. pose proof (hm_ok _ _ _ M) as Hok1.
  destruct (Heap_Commit_Ok j n h1 nid (ps ++ sub_values more)) as (n' & v & Ec & Ho & W & X & V & _ & He); try done.
  { apply (subs_ok_more j n (pc_heap p)); [done|done|done|lia]. }
  destruct (with_page_ok h1 Hok1) as (_ & _ & Hget). destruct (with_page_same h1) as (_ & Hsig & Hroot & _).
  destruct (Hv v) as (bv & Eb & Htr).
  { intros k d Hg. apply (view_reads j (with_page h1) (ps ++ sub_values more)); [done|by rewrite Hget]. }
  pose proof (recs_of_with_page _ _ _ _ _ Hok1 Hr) as Hr'. set (pv := mkPCView v bv nid). assert (view_maps pv m) as Hmaps.
  { split; [by apply (recs_ids p ps m (with_page h1) (ps ++ sub_values more) recs)|]. by apply (recs_get p ps m (with_page h1) (ps ++ sub_values more) recs v bv nid j). }
  exists n', (set_pc_heap (with_page h1) p), pv. split; [|split; [|split; [done|split; [intros Hh; exact (PCView_Load_Ok p ps m pv R Hh Hmaps)|split; [done|split; [done|done]]]]]].
  - unfold PC_Commit, on_pc, on_pc_db, zoom. rewrite (st_bind_Ok _ _ _ (n, set_pc_heap h1 p) tt) by (cbn [fst snd]; by rewrite E). cbn [fst snd pc_heap set_pc_heap]. by rewrite Ec.
  - unfold OpenPC. rewrite Ho, bind_Ok. rewrite (vo_sig _ _ _ _ V), Hsig, (hm_sig _ _ _ M), (pr_sig _ _ _ R), Z.eqb_refl. cbn [negb].
    by rewrite (vo_root _ _ _ _ V), Hroot, Eb.
Qed.
Definition example_pc : PC := put_prop 0x3002 (mkPcProp PtypInteger32 [7; 0; 0; 0] 0) (put_prop 0x3001 (mkPcProp PtypBinary [1; 2; 3] 0) NewPC).
Lemma example_pc_reads : pc_reads example_pc [] (<[0x3002 := (PtypInteger32, [7; 0; 0; 0])]> (<[0x3001 := (PtypBinary, [1; 2; 3])]> ∅)).
Proof.
  apply (put_prop_reads _ _ _ 0x3002 (mkPcProp PtypInteger32 [7; 0; 0; 0] 0)); [apply (put_prop_reads _ _ _ 0x3001 (mkPcProp PtypBinary [1; 2; 3] 0)); [apply pc_reads_new|done|]|done|];
    apply settable_holds; (split; [done|]); (split; [repeat constructor; lia|]); (split; [done|]); intros _ Hi; [done|]; right; right; by right.
Qed.
Lemma pc_is_map_witness : settable PtypBinary [1] ∧ PC_Add 0x3001 PtypBinary [1] example_pc = (example_pc, invalidArg "propID" "duplicate property 0x%04x" [0x3001]).
Proof.
  assert (settable PtypBinary [1]) as Hs by (split; [done|]; split; [repeat constructor; lia|]; split; [done|]; intros _ Hi; done). split; [exact Hs|].
  destruct (pc_is_map example_pc [] _ 0x3001 PtypBinary [1] example_pc_reads ltac:(done) Hs) as (_ & H & _). exact H.
Defined.
Lemma pc_roundtrip_witness :
  ∃ n' p' v, PC_Commit 0x21 (NewNDB, example_pc) = ((n', p'), Ok tt) ∧ OpenPC n' 0x21 = Ok v ∧
    PCView_Get v 0x3001 = Ok (PtypBinary, [1; 2; 3]) ∧ PCView_Get v 0x3002 = Ok (PtypInteger32, [7; 0; 0; 0]) ∧ PCView_Get v 0x3003 = key_not_found.
Proof.
  destruct NewNDB_wf as (Hwf & Hn & Hc).
  assert (fits 63 (FileEOF (n_store NewNDB))) as Hf by (rewrite FileEOF_ok, Hc by (rewrite ?Hc; unfold region_ok; lia); done).
  assert (subs_ok 0 NewNDB (pc_heap example_pc) []) as Hs by (split; [constructor|split; [constructor|by vm_compute]]).
  destruct (pc_roundtrip 0 NewNDB example_pc [] _ example_pc_reads Hs ltac:(by vm_compute) ltac:(by vm_compute) Hwf Hf) as (h1 & E & Hcommit).
  assert (h1 = pc_heap (PC_build example_pc).1) as Eh by (by rewrite E).
  destruct (Hcommit 0x21) as (n' & p' & v & E1 & Ho & [_ Hg] & _); [done|done|done|apply lookup_empty| |].
  - unfold room. rewrite Hn, Hc, Eh. by vm_compute.
  - exists n', p', v. split; [exact E1|]. split; [exact Ho|].
    split; [|split]; (rewrite Hg; [|done]).
    + rewrite lookup_insert_ne by lia. by rewrite lookup_insert_eq.
    + by rewrite lookup_insert_eq.
    + rewrite !lookup_insert_ne by lia. by rewrite lookup_empty.
Defined.
